(* ===== verification/_CoqProject ===== *)
-Q . S2P
Prelude.v
Heap.v
Fifo.v
Socket.v
Ring.v
Sys.v
Logger.v
Crc.v
Protocol.v
RateLimit.v
Queue.v
Client.v
Server.v
Handlers.v
Number.v
Cjson.v
CjsonPrint.v
CjsonParse.v
CjsonRoundtrip.v
CjsonOpts.v
CjsonMin.v
CjsonHeap.v
CjsonList.v
CjsonEdit.v
CjsonTree.v
CjsonArray.v
CjsonValue.v
CjsonDup.v
CjsonObject.v
CjsonBuild.v
CjsonCmp.v
CjsonSample.v
Json.v
Worker.v
Framing.v
Gatewayd.v
DaemonInv.v
DaemonIo.v
DaemonSess.v
DaemonWorkers.v
DaemonSafe.v
DaemonMain.v
Posix.v
PosixRing.v
PosixQueue.v
PosixObj.v
SysV.v
SysVHub.v
SysVWriter.v
SysVStart.v
Cli.v
CliIo.v
CliMain.v
Config.v
ConfigSafe.v
Sigd.v
SigdInv.v
Notify.v
Watch.v
GwClient.v
GwClientIo.v
GwClientE2e.v
GwClientLaw.v
GwSetup.v
GwMain.v
GwMainInv.v
GwMainSafe.v
GwMainRun.v
Pipeline.v
PipelineInv.v
Launch.v
Supervisor.v
SupervisorInv.v
HubCtl.v
HubCtlInv.v
PosixCtl.v
PosixCtlInv.v
PosixMon.v
