(* ===== verification/Prelude.v ===== *)
(** * Mini projects of Linux programming: a verification library

    The repository is a collection of C programs: an IoT gateway with its clients
    (gateway/), a Unix-domain control plane (unix-domain-socket-control-plane/),
    two sensor systems on shared memory (gateway-core-posix/ and
    system-V-ipc-sensorhub/), a command pipeline over FIFOs (ipc-cmd-pipeline/), a
    process supervisor, a configuration tool and a daemon driven by signals.  This
    library translates them into Rocq functions and proves what makes them correct,
    or where they are not.

    ** Conventions

    Bytes and machine integers are [Z] with the wrap-around written out ([u8] to
    [u64], [i32]); buffers are lists of bytes and every access is checked.
    Undefined behaviour (a NULL or freed pointer, an index out of bounds, an
    overflowing signed operation, a loop out of fuel) is the value [Undef] of
    [outcome], so a theorem that concludes [Ret] includes memory safety.
    Pointers into the C heap are locations of a [gmap] ([Heap]); [malloc] is an
    argument ([allocator]) that may fail and returns unspecified memory.  System
    calls are arguments too: sockets answer from a script ([Socket]), descriptors
    and the calls that fail are a small kernel ([Sys]), clocks, devices, [sscanf]
    and OpenSSL are parameters.  A mutex-protected section is one atomic operation;
    threads are sequences of such operations, and where their interleaving matters
    they are a step relation or a step function driven by a list of events.
    Definitions keep the names of the C functions; a suffix such as [_pc] is the
    place where a thread is, [_step] what it does there.

    ** Files

    - [Prelude], [Heap], [Fifo], [Socket], [Ring], [Sys]: outcomes, machine
      integers, buffers, linked nodes in memory, the contract of a FIFO queue as a
      class with its theorems on runs, stream sockets, circular buffers,
      descriptors.
    - [Logger]: gateway/src/logger.c, of which the control plane has a copy.
    - [Crc], [Protocol], [RateLimit], [Queue], [Client], [Server], [Handlers]:
      gateway/src/crc.c, protocol_message.c, rate_limit.c, queue.c, client.c and
      common.c, the receive path of server.c, and its event handlers.
    - [Number], [Cjson], [CjsonPrint], [CjsonParse], [CjsonRoundtrip],
      [CjsonOpts], [CjsonMin]: the bundled cJSON.c on trees as values: parser,
      printer into a caller's buffer, parsing with options, minifying in place, on
      binary64 numbers.
    - [CjsonHeap], [CjsonList], [CjsonEdit], [CjsonTree], [CjsonArray],
      [CjsonValue], [CjsonDup], [CjsonObject], [CjsonBuild], [CjsonCmp],
      [CjsonSample]: the functions of cJSON.c on linked items in memory, and the
      trees such memory stands for.
    - [Json], [Worker]: payload_json.c; task_execute.c and worker_thread.c.
    - [GwMain], [GwMainInv], [GwMainSafe], [GwMainRun]: the threads of the gateway
      (main_thread, worker_thread, signal_thread, server_run).
    - [GwClient], [GwClientIo], [GwClientE2e], [GwClientLaw]: gateway/client/
      client.c and client_tls.c, and client and gateway composed.
    - [GwSetup]: the set-up of sockets, TLS and [main] of the gateway (server.c,
      tls.c, main.c) and of both clients.
    - [Framing], [Gatewayd], [DaemonInv], [DaemonIo], [DaemonSess],
      [DaemonWorkers], [DaemonSafe], [DaemonMain]: common.h of the control plane
      and its daemon gatewayd/server.h and server.c: frames, sessions, input and
      output, the pool of workers, the listening socket.
    - [Cli], [CliIo], [CliMain]: its client gatewaycli/client.h and client.c.
    - [Posix], [PosixRing], [PosixQueue], [PosixObj], [PosixCtl], [PosixCtlInv],
      [PosixMon]: gateway-core-posix/: the segment with its semaphores, the message
      queue, the named objects and the three [main] functions, the controller, the
      monitor.
    - [SysV], [SysVHub], [SysVWriter], [SysVStart], [HubCtl], [HubCtlInv]:
      system-V-ipc-sensorhub/: the ring and the IPC objects, the writer's threads,
      the start and the end of the programs, the hub controller and its composition
      with the writer.
    - [Pipeline], [PipelineInv], [Launch]: ipc-cmd-pipeline/, and the launchers
      main.c of the pipeline and of the sensor hub.
    - [Supervisor], [SupervisorInv]: process-supervisor/supervisor.c.
    - [Config], [ConfigSafe]: safe-config-tool/main.c on a file system.
    - [Sigd], [SigdInv], [Notify], [Watch]: signal-aware-multithreaded-daemon/,
      the inotify watchers of both projects, and their [main] functions.

    ** What is shown

    - Gateway, wire: the CRC is CRC-32 and detects every burst of four bytes
      ([Crc]); encoding writes exactly the frame ([Protocol]); the receive path
      reassembles frames however the stream is cut, never leaves its buffer
      whatever a peer sends, and rejects damaged payloads ([Server]).
    - Gateway, queues and sessions: the response queue and the transmit lists
      implement FIFO queues ([Queue], [Client] against [Fifo]); slots, routing by
      descriptor and closing ([Client]); responses reach the session that asked
      and no later one ([Handlers]); the rate bound ([RateLimit]).
    - Gateway, requests: cJSON parsing of untrusted bytes is total and safe,
      printing is exact, printed trees are read back, minified text too
      ([CjsonParse], [CjsonPrint], [CjsonRoundtrip], [CjsonMin]); arrays and
      objects in memory behave as the lists and trees they stand for, copies are
      complete or leave nothing behind ([CjsonArray], [CjsonObject], [CjsonDup],
      [CjsonCmp]); a worker answers every task it takes with the reply of an
      abstract specification ([Worker]).
    - Gateway, programs: the threads stay inside their memory and shut down
      ([GwMainRun]); a reading travels from the device file to the client and a
      command from the client to the device, through both programs
      ([GwClientE2e]); the clients survive any network, follow their hysteresis
      and give back every descriptor and TLS session ([GwClientLaw], [GwSetup]);
      log lines are whole under any number of threads ([Logger]).
    - Control plane: messages survive the transport and what the checksum detects
      ([Framing]); for every interleaving each outstanding task belongs to the
      connection now in its slot ([DaemonInv]); daemon and client stay inside
      their memory whatever the peer sends ([DaemonSafe], [CliMain]); what the
      daemon queues the client receives ([CliIo]); a daemon that has started is
      reached ([DaemonMain]).
    - Shared memory: both rings are bounded FIFO queues under every interleaving
      ([PosixRing], [SysVHub]); start-up is all or nothing, the programs of the hub
      share one set of objects, and what is opened is given back ([PosixObj],
      [SysVStart]); commands are handled once and in order ([SysVWriter],
      [HubCtlInv]); the monitor's reports are true ([PosixMon]).
    - The other programs: confirmed commands were received ([PipelineInv]), the
      launchers wait for their children ([Launch]), workers are bounded and reaped
      ([SupervisorInv]), a configuration file is replaced atomically and read back
      ([ConfigSafe]), jobs are handled once ([SigdInv]), and a changed
      configuration is adopted ([Notify]).
    - Defects: where the code does not do what it means to, a theorem shows the
      execution; among them the task queue that loses tasks and writes to freed
      memory, the monitor that reports a full ring as an empty one, messages lost
      by the TLS flush, shared objects destroyed or unmapped while in use, and
      signals that are lost or leave a program hanging.

    ** Bounds and fuel

    Loops over a socket recurse on the script of answers, loops over linked
    lists on the size of the heap ([chain_size] shows it suffices), the JSON parser
    on two units per character ([parse_total] shows it suffices) and the printer
    on the tree; [fold_carry] needs two rounds for 32 bits ([fold_carry_spec]).
    Running out of fuel is [Undef] and excluded by the theorems.  Threads that loop
    for ever are step functions; that they come to an end is shown by a measure
    that every step decreases, together with a thread that can step.

    ** Not modelled

    What the C library prints on the terminal; failing [pthread_create];
    the adjustment SEM_UNDO makes when a process dies; short writes to the copy of a
    configuration file; scheduling below the level of critical sections, so data
    races on plain flags appear as atomic reads and writes; struct padding, which is
    copied with the struct; the allocations of the cJSON parser, which are taken to
    succeed, and the hooks for its allocator; the select and poll variants of the
    control plane, which the build does not select; the shell scripts.  The double
    arithmetic of the rate limiter is proved in exact arithmetic. *)
From Stdlib Require Export ZArith Lia.
From stdpp Require Export base gmap list numbers strings.
#[export] Set Default Goal Selector "!".
Open Scope Z_scope.

(** Undefined behaviour is a value of the model: an operation whose C body
    would dereference NULL, read freed memory or index out of bounds returns
    [Undef]. *)
Inductive outcome (A : Type) : Type :=
| Ret (a : A)
| Undef.
Arguments Ret {A} a.
Arguments Undef {A}.

#[export] Instance outcome_ret : MRet outcome := fun A a => Ret a.
#[export] Instance outcome_bind : MBind outcome := fun A B f m =>
  match m with Ret a => f a | Undef => Undef end.

(** Reading through a C pointer or out of an array: absence is undefined. *)
Definition deref {A} (o : option A) : outcome A :=
  match o with Some a => Ret a | None => Undef end.

(** A defined sequence has a defined first part. *)
Lemma bind_Ret {A B} (m : outcome A) (f : A -> outcome B) b :
  m ≫= f = Ret b -> exists a, m = Ret a /\ f a = Ret b.
Proof. destruct m as [a|]; [|done]. by exists a. Qed.

(** Peels the first operation off a defined run [H], naming its result. *)
Tactic Notation "peel" hyp(H) "as" simple_intropattern(x) simple_intropattern(E) :=
  apply bind_Ret in H as (x & E & H); cbn beta iota in H.

(** ** Machine integers *)

(** Conversion to an unsigned type of [w] bits. *)
Definition wrap (w z : Z) : Z := z mod 2 ^ w.

Abbreviation u8 := (wrap 8).
Abbreviation u16 := (wrap 16).
Abbreviation u32 := (wrap 32).
Abbreviation u64 := (wrap 64).

(** The bit operators of C, in a scope of their own; the shifts are
    stdpp's [≪] and [≫]. *)
Declare Scope c_scope.
Delimit Scope c_scope with c.
Infix ".&" := Z.land (at level 47, left associativity) : c_scope.
Infix ".|" := Z.lor (at level 49, left associativity) : c_scope.
Infix ".^" := Z.lxor (at level 48, left associativity) : c_scope.

(** Conversion to a signed 32-bit [int] (two's complement). *)
Definition i32 (z : Z) : Z :=
  let u := z mod 2 ^ 32 in if u <? 2 ^ 31 then u else u - 2 ^ 32.

Definition in_u (w z : Z) : Prop := 0 <= z < 2 ^ w.

Definition is_byte (b : Z) : Prop := 0 <= b < 256.
Definition bytes (l : list Z) : Prop := Forall is_byte l.

#[export] Instance in_u_dec w z : Decision (in_u w z) := _.
#[export] Instance is_byte_dec b : Decision (is_byte b) := _.
#[export] Instance bytes_dec l : Decision (bytes l) := _.

(** ** Buffers

    A C buffer is the list of its bytes.  Accesses are checked: one outside
    the buffer is undefined behaviour, never a silent no-op. *)
Definition zlen {A} (l : list A) : Z := Z.of_nat (length l).

Definition write_at (buf : list Z) (off : Z) (bs : list Z) : outcome (list Z) :=
  if ((0 <=? off) && (off + zlen bs <=? zlen buf))%bool
  then Ret (take (Z.to_nat off) buf ++ bs ++ drop (Z.to_nat off + length bs) buf)
  else Undef.

Definition read_at (buf : list Z) (off n : Z) : outcome (list Z) :=
  if ((0 <=? off) && (0 <=? n) && (off + n <=? zlen buf))%bool
  then Ret (take (Z.to_nat n) (drop (Z.to_nat off) buf))
  else Undef.

(** [buf[k]] *)
Definition byte_at (buf : list Z) (k : Z) : outcome Z :=
  if k <? 0 then Undef else deref (buf !! Z.to_nat k).

(** The C string before the first NUL. *)
Fixpoint c_string (bs : list Z) : list Z :=
  match bs with
  | [] => []
  | b :: bs => if b =? 0 then [] else b :: c_string bs
  end.

(** The bytes of a C string literal. *)
Definition bstr (s : string) : list Z :=
  (fun c => Z.of_N (Ascii.N_of_ascii c)) <$> String.list_ascii_of_string s.

(** ** Decimal output *)

(** The digits [%d] prints for a number below [10^fuel]; ten digits cover int. *)
Fixpoint dec_digits (fuel : nat) (n : Z) : list Z :=
  match fuel with
  | O => []
  | S fuel => if n <? 10 then [48 + n] else dec_digits fuel (n / 10) ++ [48 + n mod 10]
  end.

Definition fmt_d (z : Z) : list Z :=
  if z <? 0 then 45 :: dec_digits 10 (- z) else dec_digits 10 z.

(** ** Tactics and hint databases *)

(** Arithmetic side conditions of machine integers. *)
Create HintDb cint.
(** Structural facts on buffers, byte strings and their lengths. *)
Create HintDb buf.
Create Rewrite HintDb buf.

(** Turns boolean tests of the code into propositions. *)
Ltac bool_prop :=
  repeat match goal with
  | H : (_ && _)%bool = true |- _ => apply andb_prop in H; destruct H
  | H : (_ || _)%bool = false |- _ => apply orb_false_elim in H; destruct H
  | H : negb _ = true |- _ => apply negb_true_iff in H
  | H : negb _ = false |- _ => apply negb_false_iff in H
  | H : (_ =? _)%Z = true |- _ => apply Z.eqb_eq in H
  | H : (_ =? _)%Z = false |- _ => apply Z.eqb_neq in H
  | H : (_ <? _)%Z = true |- _ => apply Z.ltb_lt in H
  | H : (_ <? _)%Z = false |- _ => apply Z.ltb_ge in H
  | H : (_ <=? _)%Z = true |- _ => apply Z.leb_le in H
  | H : (_ <=? _)%Z = false |- _ => apply Z.leb_gt in H
  end.

(** Splits on the outermost test or match of the goal, keeping its equation. *)
Ltac split_test :=
  match goal with
  | |- context [if ?b then _ else _] => let E := fresh "E" in destruct b eqn:E
  | |- context [match ?x with _ => _ end] =>
      let E := fresh "E" in destruct x eqn:E
  end.

(** The same on a hypothesis. *)
Ltac split_test_in H :=
  match type of H with
  | context [if ?b then _ else _] => let E := fresh "E" in destruct b eqn:E
  | context [match ?x with _ => _ end] =>
      let E := fresh "E" in destruct x eqn:E
  end.

(** Equality of integers bit by bit: reduces [a = b] to an equation of
    booleans at every index [i >= 0]. *)
Ltac bitwise i Hi :=
  apply Z.bits_inj'; intros i Hi;
  repeat first
    [ rewrite Z.lxor_spec | rewrite Z.land_spec | rewrite Z.lor_spec
    | rewrite Z.shiftr_spec by lia | rewrite Z.bits_0 ].

(** ** Lemmas on machine integers *)

Lemma wrap_range w z : 0 <= w -> 0 <= wrap w z < 2 ^ w.
Proof. intros Hw. unfold wrap. apply Z.mod_pos_bound. lia. Qed.

Lemma wrap_small w z : 0 <= z < 2 ^ w -> wrap w z = z.
Proof. apply Z.mod_small. Qed.

Lemma u8_byte z : is_byte (u8 z).
Proof. apply (wrap_range 8). lia. Qed.

Lemma wrap_spec w z i :
  0 <= w -> Z.testbit (wrap w z) i = ((i <? w) && Z.testbit z i)%bool.
Proof.
  intros Hw. unfold wrap. destruct (Z.ltb_spec i w).
  - destruct (decide (0 <= i)).
    + rewrite Z.mod_pow2_bits_low; [done|lia].
    + rewrite !Z.testbit_neg_r by lia. done.
  - rewrite Z.mod_pow2_bits_high; [done|lia].
Qed.

Lemma testbit_high w z i : 0 <= w -> 0 <= z < 2 ^ w -> w <= i -> Z.testbit z i = false.
Proof.
  intros Hw Hz Hi. rewrite <- (wrap_small w z Hz), wrap_spec by done.
  destruct (Z.ltb_spec i w); [lia|done].
Qed.

Lemma in_u_bits w z :
  0 <= w -> 0 <= z -> (forall i, w <= i -> Z.testbit z i = false) -> 0 <= z < 2 ^ w.
Proof.
  intros Hw Hz Hb. split; [done|].
  assert (z = wrap w z) as ->.
  { apply Z.bits_inj'. intros i Hi. rewrite wrap_spec by done.
    destruct (Z.ltb_spec i w); [done|]. by rewrite Hb. }
  by apply wrap_range.
Qed.

Lemma lxor_in_u w a b :
  0 <= w -> 0 <= a < 2 ^ w -> 0 <= b < 2 ^ w -> 0 <= Z.lxor a b < 2 ^ w.
Proof.
  intros Hw Ha Hb. apply in_u_bits; [done| |].
  - apply Z.lxor_nonneg. lia.
  - intros i Hi. rewrite Z.lxor_spec, !(testbit_high w) by done. done.
Qed.

Lemma lor_in_u w a b :
  0 <= w -> 0 <= a < 2 ^ w -> 0 <= b < 2 ^ w -> 0 <= Z.lor a b < 2 ^ w.
Proof.
  intros Hw Ha Hb. apply in_u_bits; [done| |].
  - apply Z.lor_nonneg. lia.
  - intros i Hi. rewrite Z.lor_spec, !(testbit_high w) by done. done.
Qed.

Lemma shiftr_in_u w a n :
  0 <= w -> 0 <= n -> 0 <= a < 2 ^ w -> 0 <= a ≫ n < 2 ^ w.
Proof.
  intros Hw Hn Ha. apply in_u_bits; [done| |].
  - apply Z.shiftr_nonneg. lia.
  - intros i Hi. rewrite Z.shiftr_spec by lia. apply (testbit_high w); lia.
Qed.

Lemma land_255_byte a : is_byte (Z.land a 255).
Proof. change 255 with (Z.ones 8). rewrite Z.land_ones by lia. apply (wrap_range 8). lia. Qed.

#[export] Hint Resolve wrap_range u8_byte lxor_in_u lor_in_u shiftr_in_u land_255_byte : cint.

(** ** Lemmas on buffers *)

Lemma zlen_nil {A} : zlen (@nil A) = 0.
Proof. done. Qed.

Lemma zlen_cons {A} (x : A) l : zlen (x :: l) = 1 + zlen l.
Proof. unfold zlen. cbn [length]. lia. Qed.

Lemma zlen_app {A} (l k : list A) : zlen (l ++ k) = zlen l + zlen k.
Proof. unfold zlen. rewrite length_app. lia. Qed.

Lemma zlen_drop {A} n (l : list A) : zlen (drop n l) = Z.max 0 (zlen l - Z.of_nat n).
Proof. unfold zlen. rewrite length_drop. lia. Qed.

Lemma zlen_take {A} n (l : list A) : zlen (take n l) = Z.min (Z.of_nat n) (zlen l).
Proof. unfold zlen. rewrite length_take. lia. Qed.

Lemma zlen_replicate {A} n (x : A) : zlen (replicate n x) = Z.of_nat n.
Proof. unfold zlen. by rewrite length_replicate. Qed.

Lemma zlen_nonneg {A} (l : list A) : 0 <= zlen l.
Proof. unfold zlen. lia. Qed.

Lemma zlen_length {A} (l : list A) : Z.to_nat (zlen l) = length l.
Proof. unfold zlen. lia. Qed.

#[export] Hint Rewrite @zlen_nil @zlen_cons @zlen_app @zlen_drop @zlen_take
  @zlen_replicate @length_drop @length_take @length_app @length_replicate : buf.
#[export] Hint Resolve zlen_nonneg : buf.

(** Length arithmetic: normalises lengths, then decides. *)
Ltac len :=
  autorewrite with buf in *;
  repeat match goal with
  | l : list _ |- _ =>
      lazymatch goal with
      | _ : 0 <= zlen l |- _ => fail
      | _ => pose proof (zlen_nonneg l)
      end
  end;
  unfold zlen in *; cbn [length] in *; lia.

(** A write just after a known prefix: the cursor moves over the bytes. *)
Lemma write_at_cursor pre buf off bs :
  off = zlen pre -> zlen bs <= zlen buf ->
  write_at (pre ++ buf) off bs = Ret ((pre ++ bs) ++ drop (length bs) buf).
Proof.
  intros -> Hl. unfold write_at. rewrite zlen_app.
  pose proof (zlen_nonneg pre). destruct (Z.leb_spec 0 (zlen pre)); [|lia].
  destruct (Z.leb_spec (zlen pre + zlen bs) (zlen pre + zlen buf)); [|lia]. cbn [andb].
  by rewrite zlen_length, take_app_length, <- drop_drop, drop_app_length, app_assoc.
Qed.

Lemma byte_at_app pre l k off :
  0 <= k -> off = zlen pre + k -> byte_at (pre ++ l) off = byte_at l k.
Proof.
  intros Hk ->. unfold byte_at. pose proof (zlen_nonneg pre).
  destruct (Z.ltb_spec (zlen pre + k) 0); [lia|]. destruct (Z.ltb_spec k 0); [lia|].
  rewrite lookup_app_r by (unfold zlen; lia). f_equal. f_equal. unfold zlen. lia.
Qed.

Lemma byte_at_inside s k : 0 <= k < zlen s -> exists b, byte_at s k = Ret b.
Proof.
  intros Hk. unfold byte_at. destruct (Z.ltb_spec k 0); [lia|].
  destruct (lookup_lt_is_Some_2 s (Z.to_nat k)) as [b ->]; [unfold zlen in Hk; lia|]. by exists b.
Qed.

(** Reading a segment that sits between a prefix and a suffix. *)
Lemma read_at_mid pre seg post off n :
  off = zlen pre -> n = zlen seg -> read_at (pre ++ seg ++ post) off n = Ret seg.
Proof.
  intros -> ->. unfold read_at. rewrite !zlen_app.
  pose proof (zlen_nonneg pre). pose proof (zlen_nonneg seg). pose proof (zlen_nonneg post).
  destruct (Z.leb_spec 0 (zlen pre)); [|lia]. destruct (Z.leb_spec 0 (zlen seg)); [|lia].
  destruct (Z.leb_spec (zlen pre + zlen seg) (zlen pre + (zlen seg + zlen post))); [|lia].
  cbn [andb]. by rewrite !zlen_length, drop_app_length, take_app_length.
Qed.

Lemma read_at_segment buf off n pre seg post :
  buf = pre ++ seg ++ post -> off = zlen pre -> n = zlen seg -> read_at buf off n = Ret seg.
Proof. intros ->. apply read_at_mid. Qed.

Lemma read_at_inside buf off n :
  0 <= off -> 0 <= n -> off + n <= zlen buf ->
  exists seg, read_at buf off n = Ret seg /\ zlen seg = n.
Proof.
  intros H0 Hn Hl. unfold read_at.
  destruct (Z.leb_spec 0 off); [|lia]. destruct (Z.leb_spec 0 n); [|lia].
  destruct (Z.leb_spec (off + n) (zlen buf)); [|lia].
  eexists. split; [reflexivity|]. len.
Qed.

Lemma write_at_inside buf off bs :
  0 <= off -> off + zlen bs <= zlen buf -> exists buf', write_at buf off bs = Ret buf'
  /\ zlen buf' = zlen buf.
Proof.
  intros H0 Hl. unfold write_at.
  destruct (Z.leb_spec 0 off); [|lia]. destruct (Z.leb_spec (off + zlen bs) (zlen buf)); [|lia].
  eexists. split; [reflexivity|]. len.
Qed.

Lemma write_bytes buf off bs :
  0 <= off -> off + zlen bs <= zlen buf -> bytes buf -> bytes bs ->
  exists buf', write_at buf off bs = Ret buf' /\ zlen buf' = zlen buf /\ bytes buf'.
Proof.
  intros H0 Hl Hb Hbs. destruct (write_at_inside buf off bs H0 Hl) as (buf' & E & Hz).
  exists buf'. split_and!; [done|done|]. unfold write_at in E. case_match; [|done]. injection E as <-.
  repeat (apply Forall_app; split); auto using Forall_take, Forall_drop.
Qed.

(** ** Sums over a list *)

Definition sum_of {A} (f : A -> Z) (l : list A) : Z := foldr (fun x s => f x + s) 0 l.

Lemma sum_of_cons {A} (f : A -> Z) x l : sum_of f (x :: l) = f x + sum_of f l.
Proof. reflexivity. Qed.

Lemma sum_of_app {A} (f : A -> Z) l l' : sum_of f (l ++ l') = sum_of f l + sum_of f l'.
Proof. induction l as [|x l IH]; [done|]. cbn [app]. rewrite !sum_of_cons. lia. Qed.

Lemma sum_of_insert {A} (f : A -> Z) l i x y :
  l !! i = Some x -> sum_of f (<[i := y]> l) = sum_of f l - f x + f y.
Proof.
  revert i. induction l as [|z l IH]; intros [|i] Hi; [done..| |].
  - injection Hi as ->. change (<[0%nat := y]> (x :: l)) with (y :: l). rewrite !sum_of_cons. lia.
  - change (<[S i := y]> (z :: l)) with (z :: <[i := y]> l). rewrite !sum_of_cons, (IH i Hi). lia.
Qed.

Lemma sum_of_nonneg {A} (f : A -> Z) l : (forall x, 0 <= f x) -> 0 <= sum_of f l.
Proof. intros Hf. induction l as [|x l IH]; [done|]. pose proof (Hf x). rewrite sum_of_cons. lia. Qed.

(** A member's weight is part of the sum. *)
Lemma sum_of_member {A} (f : A -> Z) l i x :
  (forall x, 0 <= f x) -> l !! i = Some x -> f x <= sum_of f l.
Proof.
  intros Hf. revert i. induction l as [|z l IH]; intros [|i] Hi; [done..| |];
    pose proof (sum_of_nonneg f l Hf); pose proof (Hf z); rewrite sum_of_cons.
  - injection Hi as ->. lia.
  - pose proof (IH i Hi). lia.
Qed.

(** ** C strings *)

(** No NUL inside. *)
Definition nonzero (bs : list Z) : Prop := Forall (fun b => b <> 0) bs.

Lemma c_string_app t tail : nonzero t -> c_string (t ++ 0 :: tail) = t.
Proof.
  induction 1 as [|b t Hb Ht IH]; cbn; [done|]. destruct (Z.eqb_spec b 0); [done|]. by rewrite IH.
Qed.

Lemma c_string_nonzero s : nonzero (c_string s).
Proof.
  induction s as [|b s IH]; cbn; [constructor|]. destruct (Z.eqb_spec b 0); [constructor|].
  by constructor.
Qed.

Lemma c_string_id t : nonzero t -> c_string t = t.
Proof.
  induction 1 as [|b t Hb Ht IH]; cbn; [done|]. destruct (Z.eqb_spec b 0); [done|]. by rewrite IH.
Qed.

Lemma c_string_take n s : c_string (take n s) = take n (c_string s).
Proof.
  revert n. induction s as [|b s IH]; intros [|n]; [done..|]. cbn.
  destruct (b =? 0); [done|]. cbn. by rewrite IH.
Qed.

Lemma c_string_prefix s : take (length (c_string s)) s = c_string s.
Proof. induction s as [|b s IH]; [done|]. cbn. destruct (b =? 0); [done|]. cbn. by rewrite IH. Qed.

Lemma c_string_le s : zlen (c_string s) <= zlen s.
Proof.
  induction s as [|b s IH]; [done|]. cbn [c_string]. destruct (b =? 0); len.
Qed.

Lemma c_string_end s : c_string (s ++ [0]) = c_string s.
Proof. induction s as [|b s IH]; [done|]. cbn. destruct (b =? 0); [done|]. by rewrite IH. Qed.

Lemma bytes_app l k : bytes (l ++ k) <-> bytes l /\ bytes k.
Proof. apply Forall_app. Qed.

(** ** Boolean quantifiers over lists of threads *)

Section Threads.
Context {A : Type}.

Lemma existsb_insert (f : A -> bool) (ws : list A) i p q :
  ws !! i = Some p -> f p = false -> existsb f ws = true -> existsb f (<[i := q]> ws) = true.
Proof.
  rewrite !existsb_exists. intros Hi Hp (x & Hin & Hx). exists x. split; [|done].
  apply list_elem_of_In in Hin. apply list_elem_of_lookup in Hin as [j Hj].
  apply list_elem_of_In, list_elem_of_lookup. exists j.
  rewrite list_lookup_insert_ne; [done|]. intros ->. congruence.
Qed.

Lemma existsb_new (f : A -> bool) (ws : list A) i p q :
  ws !! i = Some p -> f q = true -> existsb f (<[i := q]> ws) = true.
Proof.
  rewrite existsb_exists. intros Hi Hq. exists q. split; [|done].
  apply list_elem_of_In, list_elem_of_lookup. exists i. apply list_lookup_insert_eq.
  by apply lookup_lt_is_Some_1.
Qed.

Lemma existsb_old (f : A -> bool) (ws : list A) i q :
  f q = false -> existsb f (<[i := q]> ws) = true -> existsb f ws = true.
Proof.
  rewrite !existsb_exists. intros Hq (x & Hin & Hx). exists x. split; [|done].
  apply list_elem_of_In in Hin. apply list_elem_of_In. apply list_elem_of_lookup in Hin as [j Hj].
  destruct (decide (i = j)) as [<-|Hne].
  - apply list_lookup_insert_Some in Hj as [(_ & -> & _)|[? _]]; congruence.
  - rewrite list_lookup_insert_ne in Hj by done. by eapply list_elem_of_lookup_2.
Qed.

Lemma forallb_not (f : A -> bool) (ws : list A) i p : ws !! i = Some p -> f p = false -> forallb f ws = false.
Proof.
  intros Hi Hp. apply not_true_is_false. rewrite forallb_forall. intros H.
  rewrite (H p) in Hp; [done|]. apply list_elem_of_In. by eapply list_elem_of_lookup_2.
Qed.

End Threads.
