(* ===== verification/Heap.v ===== *)
(** * Linked nodes on a heap

    The gateway's queues are singly linked structs with head and tail
    pointers.  A heap is a finite map from locations to nodes of one struct
    type, a pointer is [option loc] with [None] for NULL, and [free] removes
    the location, so a later access through a stale pointer is [Undef].  The
    class [Linked] exposes the next field of a struct; [chain] relates a
    pointer to the locations reached from it and [linked_queue] is the shape
    of a well-formed head/tail queue.  The lemmas are the frame, append and
    unlink steps all queues share. *)
From S2P Require Import Prelude.

Abbreviation loc := positive.

Class Linked (node : Type) := {
  nxt : node -> option loc;
  set_nxt : option loc -> node -> node;
  nxt_set_nxt n x : nxt (set_nxt n x) = n;
  set_nxt_set_nxt n m x : set_nxt n (set_nxt m x) = set_nxt n x }.

Section Heap.
Context {node : Type} `{Linked node}.
Implicit Types (h : gmap loc node) (l : loc) (p : option loc) (ls : list loc).

(** [*p] for a pointer that may be NULL or dangling. *)
Definition load h p : outcome node :=
  l ← deref p; deref (h !! l).

(** [p->next = n] *)
Definition store_nxt h p (n : option loc) : outcome (gmap loc node) :=
  l ← deref p; x ← deref (h !! l); Ret (<[l := set_nxt n x]> h).

(** [free(p)]: freeing NULL does nothing, freeing twice is undefined. *)
Definition free h p : outcome (gmap loc node) :=
  match p with
  | None => Ret h
  | Some l => _ ← deref (h !! l); Ret (delete l h)
  end.

Fixpoint chain h p ls : Prop :=
  match ls with
  | [] => p = None
  | l :: ls => p = Some l /\ exists x, h !! l = Some x /\ chain h (nxt x) ls
  end.

Definition linked_queue h (head tail : option loc) ls : Prop :=
  chain h head ls /\ NoDup ls /\ tail = last ls.

(** The content of a node is the struct with its link erased. *)
Definition content h l : option node := set_nxt None <$> h !! l.

(** The nodes met from [p], at most [n] of them, with their contents. *)
Fixpoint walk h p (n : nat) : list (loc * node) :=
  match n, p with
  | S n, Some l =>
      match h !! l with
      | Some x => (l, set_nxt None x) :: walk h (nxt x) n
      | None => []
      end
  | _, _ => []
  end.

(** The contents of known locations, in order. *)
Definition cells h ls : list (loc * node) := omap (fun l => pair l <$> content h l) ls.

Lemma chain_frame h h' p ls :
  (forall l, l ∈ ls -> h' !! l = h !! l) -> chain h p ls -> chain h' p ls.
Proof.
  revert p. induction ls as [|l ls IH]; intros p Hf; [done|].
  intros (-> & x & Hx & Hc). split; [done|]. exists x. split.
  - rewrite Hf by (by left). done.
  - apply IH; [|done]. intros l' Hl'. apply Hf. by right.
Qed.

Lemma chain_alloc h p ls : chain h p ls -> Forall (fun l => is_Some (h !! l)) ls.
Proof.
  revert p. induction ls as [|l ls IH]; intros p; [constructor|].
  intros (-> & x & Hx & Hc). constructor; eauto.
Qed.

Lemma chain_insert_fresh h p ls l x :
  l ∉ ls -> chain h p ls -> chain (<[l := x]> h) p ls.
Proof.
  intros Hl. apply chain_frame. intros l' Hl'. apply lookup_insert_ne. set_solver.
Qed.

Lemma chain_delete_fresh h p ls l :
  l ∉ ls -> chain h p ls -> chain (delete l h) p ls.
Proof.
  intros Hl. apply chain_frame. intros l' Hl'. apply lookup_delete_ne. set_solver.
Qed.

(** Linking a fresh node behind the last one. *)
Lemma chain_snoc h p ls t l x y :
  NoDup (ls ++ [t; l]) -> chain h p (ls ++ [t]) -> h !! t = Some x ->
  chain (<[l := set_nxt None y]> (<[t := set_nxt (Some l) x]> h)) p (ls ++ [t; l]).
Proof.
  revert p. induction ls as [|k ls IH]; intros p Hnd Hc Ht.
  - cbn in *. destruct Hc as (-> & x' & Hx' & _).
    apply NoDup_cons in Hnd as [Htl _]. assert (t <> l) by set_solver.
    split; [done|]. exists (set_nxt (Some l) x). split.
    + by rewrite lookup_insert_ne, lookup_insert_eq.
    + rewrite nxt_set_nxt. split; [done|]. eexists. split; [apply lookup_insert_eq|].
      apply nxt_set_nxt.
  - cbn in *. destruct Hc as (-> & x' & Hx' & Hc).
    apply NoDup_cons in Hnd as [Hk Hnd].
    assert (k <> t /\ k <> l) as [Hkt Hkl] by set_solver.
    split; [done|]. exists x'. split.
    + by rewrite !lookup_insert_ne.
    + by apply IH.
Qed.

(** Enqueue on a well-formed queue, in the two cases of the code. *)
Lemma linked_queue_push_empty h head tail l y :
  linked_queue h head tail [] ->
  linked_queue (<[l := set_nxt None y]> h) (Some l) (Some l) [l].
Proof.
  intros _. split_and!; [|apply NoDup_singleton|done].
  cbn. split; [done|]. eexists. split; [apply lookup_insert_eq|apply nxt_set_nxt].
Qed.

Lemma linked_queue_push_tail h head t ls l x y :
  linked_queue h head (Some t) ls -> l ∉ ls -> h !! t = Some x ->
  linked_queue (<[l := set_nxt None y]> (<[t := set_nxt (Some l) x]> h)) head (Some l)
    (ls ++ [l]).
Proof.
  intros (Hc & Hnd & Ht) Hl Hx. symmetry in Ht.
  apply last_Some in Ht as [ls' ->]. rewrite <- app_assoc. cbn [app].
  assert (ls' ++ [t; l] = (ls' ++ [t]) ++ [l]) as Hsplit by (by rewrite <- app_assoc).
  assert (NoDup (ls' ++ [t; l])) as Hnd'.
  { rewrite Hsplit. apply NoDup_app.
    split_and!; [done| |apply NoDup_singleton].
    intros k Hk ->%list_elem_of_singleton. done. }
  split_and!; [by apply chain_snoc|done|].
  by rewrite Hsplit, last_snoc.
Qed.

(** Unlinking the front node, its next field cleared. *)
Lemma linked_queue_pop h head tail l ls :
  linked_queue h head tail (l :: ls) ->
  exists x, head = Some l /\ h !! l = Some x /\
    linked_queue (<[l := set_nxt None x]> h) (nxt x)
      (if nxt x is Some _ then tail else None) ls.
Proof.
  intros ((-> & x & Hx & Hc) & Hnd & ->). exists x. split_and!; [done..|].
  apply NoDup_cons in Hnd as [Hl Hnd].
  split_and!; [by apply chain_insert_fresh|done|].
  destruct ls as [|k ls]; cbn in Hc.
  - by rewrite Hc.
  - destruct Hc as [-> _]. apply last_cons_cons.
Qed.

Lemma linked_queue_nil h : linked_queue h None None [].
Proof. split_and!; [done|constructor|done]. Qed.

(** ** Accesses that are defined *)

Lemma store_nxt_alloc h l x n :
  h !! l = Some x -> store_nxt h (Some l) n = Ret (<[l := set_nxt n x]> h).
Proof. intros Hx. unfold store_nxt. cbn. by rewrite Hx. Qed.

Lemma load_alloc h l x : h !! l = Some x -> load h (Some l) = Ret x.
Proof. intros Hx. unfold load. cbn. by rewrite Hx. Qed.

Lemma free_alloc h l x : h !! l = Some x -> free h (Some l) = Ret (delete l h).
Proof. intros Hx. unfold free. by rewrite Hx. Qed.

Lemma linked_queue_tail h head t ls :
  linked_queue h head (Some t) ls -> t ∈ ls /\ exists x, h !! t = Some x.
Proof.
  intros (Hc & _ & Ht). symmetry in Ht. apply last_Some in Ht as [ls' ->].
  split; [set_solver|]. apply chain_alloc in Hc. rewrite Forall_app, Forall_singleton in Hc.
  apply Hc.
Qed.

Lemma linked_queue_tail_None h head ls : linked_queue h head None ls -> ls = [].
Proof. intros (_ & _ & Ht). symmetry in Ht. by apply last_None in Ht. Qed.

Lemma content_Some h l y :
  content h l = Some y -> exists x, h !! l = Some x /\ y = set_nxt None x.
Proof. unfold content. intros Hy. by apply fmap_Some in Hy. Qed.

(** ** Contents *)

Lemma walk_chain h p ls n :
  chain h p ls -> (length ls <= n)%nat -> walk h p n = cells h ls.
Proof.
  revert p n. induction ls as [|l ls IH]; intros p n.
  - intros -> _. by destruct n.
  - intros (-> & x & Hx & Hc) Hn. destruct n as [|n]; [cbn in Hn; lia|].
    cbn. unfold content. rewrite Hx. cbn. f_equal. apply IH; [done|cbn in Hn; lia].
Qed.

Lemma walk_unlinked h p n : Forall (fun lx => nxt lx.2 = None) (walk h p n).
Proof.
  revert p. induction n as [|n IH]; intros [l|]; cbn; try constructor.
  destruct (h !! l); constructor; [apply nxt_set_nxt|apply IH].
Qed.

(** A chain of distinct nodes is no longer than the heap. *)
Lemma chain_size h p ls : chain h p ls -> NoDup ls -> (length ls <= size h)%nat.
Proof.
  intros Hc Hnd. rewrite <- size_dom, <- (size_list_to_set (C := gset loc) ls) by done.
  apply subseteq_size. intros l Hl%elem_of_list_to_set. apply elem_of_dom.
  apply chain_alloc in Hc. by eapply Forall_forall in Hc.
Qed.

Lemma cells_frame h h' ls :
  (forall l, l ∈ ls -> content h' l = content h l) -> cells h' ls = cells h ls.
Proof.
  intros Hf. unfold cells. induction ls as [|l ls IH]; [done|]. cbn.
  rewrite Hf by (by left). rewrite IH; [done|]. intros l' Hl'. apply Hf. by right.
Qed.

Lemma cells_app h ls ls' : cells h (ls ++ ls') = cells h ls ++ cells h ls'.
Proof. apply omap_app. Qed.

Lemma cells_length h p ls : chain h p ls -> length (cells h ls) = length ls.
Proof.
  revert p. induction ls as [|l ls IH]; intros p; [done|].
  intros (-> & x & Hx & Hc). cbn. unfold content. rewrite Hx. cbn. f_equal. by eapply IH.
Qed.

Lemma cells_fst h p ls : chain h p ls -> (cells h ls).*1 = ls.
Proof.
  revert p. induction ls as [|l ls IH]; intros p; [done|].
  intros (-> & x & Hx & Hc). cbn. unfold content. rewrite Hx. cbn. f_equal. by eapply IH.
Qed.

(** Relinking a node changes no content. *)
Lemma content_relink h l x n k :
  h !! l = Some x -> content (<[l := set_nxt n x]> h) k = content h k.
Proof.
  intros Hx. unfold content. destruct (decide (k = l)) as [->|Hk].
  - by rewrite lookup_insert_eq, Hx; cbn; rewrite set_nxt_set_nxt.
  - by rewrite lookup_insert_ne.
Qed.

Lemma cells_relink h l x n ls :
  h !! l = Some x -> cells (<[l := set_nxt n x]> h) ls = cells h ls.
Proof. intros Hx. apply cells_frame. intros k _. by apply content_relink. Qed.

Lemma cells_singleton h l x : h !! l = Some x -> cells h [l] = [(l, set_nxt None x)].
Proof. intros Hx. unfold cells, content. cbn. by rewrite Hx. Qed.

(** Relinking of the front after the unlinked node: the rest is untouched. *)
Lemma cells_cons h l x ls :
  h !! l = Some x -> cells h (l :: ls) = (l, set_nxt None x) :: cells h ls.
Proof. intros Hx. unfold cells, content. cbn. by rewrite Hx. Qed.

End Heap.

#[export] Hint Resolve linked_queue_nil : buf.
