(* ===== verification/Fifo.v ===== *)
(** * The contract of a FIFO queue

    [Fifo] is what the queues of the programs promise to the threads on both
    sides: an invariant, the abstract content as a list, and laws for push and
    pop that also rule out undefined behaviour.  [fifo_ready] is the caller's
    obligation on the pushed value (for linked queues: an allocated node not
    yet linked) and [fifo_env] the changes of the surrounding state that other
    code may make between two operations.  Theorems about runs are proved once
    here, for every instance. *)
From S2P Require Import Prelude.

Class Fifo (S V : Type) := {
  fifo_inv : S -> Prop;
  fifo_abs : S -> list V;
  fifo_cap : S -> option Z;
  fifo_ready : S -> V -> Prop;
  fifo_env : S -> S -> Prop;
  fifo_push : S -> V -> outcome (option S);
  fifo_pop : S -> outcome (option (V * S)) }.

(** Room for one more element; a queue without capacity always has room. *)
Definition fifo_room {S V} `{Fifo S V} (s : S) : Prop :=
  match fifo_cap s with Some n => zlen (fifo_abs s) < n | None => True end.

Class FifoLaws (S V : Type) `{Fifo S V} := {
  fifo_push_room s v :
    fifo_inv s -> fifo_ready s v -> fifo_room s ->
    exists s', fifo_push s v = Ret (Some s') /\ fifo_inv s' /\
      fifo_abs s' = fifo_abs s ++ [v] /\ fifo_cap s' = fifo_cap s;
  fifo_push_full s v :
    fifo_inv s -> ~ fifo_room s -> fifo_push s v = Ret None;
  fifo_pop_empty s :
    fifo_inv s -> fifo_abs s = [] -> fifo_pop s = Ret None;
  fifo_pop_cons s v l :
    fifo_inv s -> fifo_abs s = v :: l ->
    exists s', fifo_pop s = Ret (Some (v, s')) /\ fifo_inv s' /\
      fifo_abs s' = l /\ fifo_cap s' = fifo_cap s;
  fifo_env_stable s s' :
    fifo_inv s -> fifo_env s s' ->
    fifo_inv s' /\ fifo_abs s' = fifo_abs s /\ fifo_cap s' = fifo_cap s;
  fifo_bounded s n :
    fifo_inv s -> fifo_cap s = Some n -> zlen (fifo_abs s) <= n }.

(** ** Runs *)

(** What the users of a queue observe. *)
Inductive fifo_event (V : Type) :=
| Pushed (v : V)
| Refused (v : V)
| Popped (v : V)
| Empty.
Arguments Pushed {V} v.
Arguments Refused {V} v.
Arguments Popped {V} v.
Arguments Empty {V}.

Definition pushed {V} (evs : list (fifo_event V)) : list V :=
  omap (fun e => if e is Pushed v then Some v else None) evs.
Definition popped {V} (evs : list (fifo_event V)) : list V :=
  omap (fun e => if e is Popped v then Some v else None) evs.

Section Runs.
Context {S V : Type} `{FifoLaws S V}.

Inductive fifo_run : S -> list (fifo_event V) -> S -> Prop :=
| run_nil s : fifo_run s [] s
| run_env s s1 evs s2 : fifo_env s s1 -> fifo_run s1 evs s2 -> fifo_run s evs s2
| run_pushed s v s1 evs s2 :
    fifo_ready s v -> fifo_push s v = Ret (Some s1) -> fifo_run s1 evs s2 ->
    fifo_run s (Pushed v :: evs) s2
| run_refused s v evs s2 :
    fifo_ready s v -> fifo_push s v = Ret None -> fifo_run s evs s2 ->
    fifo_run s (Refused v :: evs) s2
| run_popped s v s1 evs s2 :
    fifo_pop s = Ret (Some (v, s1)) -> fifo_run s1 evs s2 ->
    fifo_run s (Popped v :: evs) s2
| run_empty s evs s2 :
    fifo_pop s = Ret None -> fifo_run s evs s2 -> fifo_run s (Empty :: evs) s2.

(** An accepted push appends, a successful pop removes the front. *)
Lemma fifo_push_inv s v s' :
  fifo_inv s -> fifo_ready s v -> fifo_push s v = Ret (Some s') ->
  fifo_inv s' /\ fifo_abs s' = fifo_abs s ++ [v] /\ fifo_cap s' = fifo_cap s.
Proof.
  intros Hi Hr Hp. assert (fifo_room s \/ ~ fifo_room s) as [Hroom|Hfull].
  { unfold fifo_room. destruct (fifo_cap s); [lia|by left]. }
  - destruct (fifo_push_room s v Hi Hr Hroom) as (s1 & E & Hs). rewrite E in Hp.
    by injection Hp as ->.
  - rewrite (fifo_push_full s v Hi Hfull) in Hp. discriminate.
Qed.

Lemma fifo_pop_inv s v s' :
  fifo_inv s -> fifo_pop s = Ret (Some (v, s')) ->
  fifo_inv s' /\ fifo_abs s = v :: fifo_abs s' /\ fifo_cap s' = fifo_cap s.
Proof.
  intros Hi Hp. destruct (fifo_abs s) as [|w l] eqn:Ha.
  - rewrite (fifo_pop_empty s Hi Ha) in Hp. discriminate.
  - destruct (fifo_pop_cons s w l Hi Ha) as (s1 & E & Hi1 & Ha1 & Hc1).
    rewrite E in Hp. injection Hp as -> ->. by rewrite Ha1.
Qed.

(** Conservation and order over any run: what came out, followed by what is
    still inside, is what was inside followed by what was accepted. *)
Lemma fifo_run_conserves s evs s' :
  fifo_inv s -> fifo_run s evs s' ->
  fifo_inv s' /\ fifo_cap s' = fifo_cap s /\
  popped evs ++ fifo_abs s' = fifo_abs s ++ pushed evs.
Proof.
  intros Hi Hrun.
  induction Hrun as [s|s s1 evs s2 He _ IH|s v s1 evs s2 Hr Hp _ IH|s v evs s2 _ _ _ IH
    |s v s1 evs s2 Hp _ IH|s evs s2 _ _ IH].
  - split_and!; [done..|]. cbn. by rewrite app_nil_r.
  - destruct (fifo_env_stable s s1 Hi He) as (Hi1 & Ha & Hc).
    destruct (IH Hi1) as (? & ? & ?). rewrite <- Ha. split_and!; congruence.
  - destruct (fifo_push_inv s v s1 Hi Hr Hp) as (Hi1 & Ha & Hc).
    destruct (IH Hi1) as (? & ? & Hpop). split_and!; [done|congruence|].
    change (popped (Pushed v :: evs)) with (popped evs).
    change (pushed (Pushed v :: evs)) with (v :: pushed evs).
    rewrite Hpop, Ha, <- app_assoc. done.
  - exact (IH Hi).
  - destruct (fifo_pop_inv s v s1 Hi Hp) as (Hi1 & Ha & Hc).
    destruct (IH Hi1) as (? & ? & Hpop). split_and!; [done|congruence|].
    change (popped (Popped v :: evs)) with (v :: popped evs).
    change (pushed (Popped v :: evs)) with (pushed evs). cbn [app].
    by rewrite Hpop, Ha.
  - exact (IH Hi).
Qed.

(** No operation of a run is undefined: whatever is attempted next, there is
    an observable result. *)
Lemma fifo_progress s v :
  fifo_inv s -> fifo_ready s v ->
  (exists r, fifo_push s v = Ret r) /\ (exists r, fifo_pop s = Ret r).
Proof.
  intros Hi Hr. split.
  - assert (fifo_room s \/ ~ fifo_room s) as [Hroom|Hfull].
    { unfold fifo_room. destruct (fifo_cap s); [lia|by left]. }
    + destruct (fifo_push_room s v Hi Hr Hroom) as (s1 & -> & _). eauto.
    + rewrite (fifo_push_full s v Hi Hfull). eauto.
  - destruct (fifo_abs s) as [|w l] eqn:Ha.
    + rewrite (fifo_pop_empty s Hi Ha). eauto.
    + destruct (fifo_pop_cons s w l Hi Ha) as (s1 & -> & _). eauto.
Qed.

End Runs.
