(* ===== verification/Socket.v ===== *)
(** * Stream sockets as the programs see them

    The answers of the kernel to [recv], [send] and the OpenSSL calls are given
    by a script, one element per call, so that theorems range over every way
    the transport may split, delay or interrupt the stream.  The bytes the peer
    has sent and nobody has read yet are a list. *)
From S2P Require Import Prelude.

(** ** Sending *)

(** Answers of [send] or [SSL_write]: so many bytes taken, zero, or an error. *)
Inductive tx_event := TxAccept (k : Z) | TxZero | TxErr (err : Z).

Definition EINTR : Z := 4.
Definition EAGAIN : Z := 11.

(** ** Receiving *)

(** One answer of the transport: up to [k] bytes of what is there, or an error. *)
Inductive rx_event := RxChunk (k : Z) | RxErr (err : Z).

Inductive rx_result := RxData (bs : list Z) | RxFail (err : Z).

(** [recv] of at most [n] bytes: at least one byte if there is one; nothing
    there is end of file if the peer has closed, EAGAIN otherwise. *)
Definition recv (ev : rx_event) (eof : bool) (stream : list Z) (n : Z)
    : rx_result * list Z :=
  match ev with
  | RxErr err => (RxFail err, stream)
  | RxChunk k =>
      if n =? 0 then (RxData [], stream)
      else match stream with
           | [] => (if eof then RxData [] else RxFail EAGAIN, stream)
           | _ =>
               let got := Z.to_nat (Z.max 1 (Z.min k n)) in
               (RxData (take got stream), drop got stream)
           end
  end.

(** ** One receive call *)

Lemma recv_chunk k eof stream n :
  0 < n -> stream <> [] ->
  exists got, (0 < got)%nat /\ Z.of_nat got <= n /\
    recv (RxChunk k) eof stream n = (RxData (take got stream), drop got stream).
Proof.
  intros Hn Hs. unfold recv. destruct (Z.eqb_spec n 0); [lia|].
  destruct stream as [|b stream]; [done|].
  exists (Z.to_nat (Z.max 1 (Z.min k n))). split_and!; [lia|lia|done].
Qed.

(** All of what was asked for is there. *)
Lemma recv_full k eof seg rest n :
  n = zlen seg -> 0 < n <= k -> recv (RxChunk k) eof (seg ++ rest) n = (RxData seg, rest).
Proof.
  intros -> Hk. unfold recv. destruct (Z.eqb_spec (zlen seg) 0); [lia|].
  destruct seg as [|b seg]; [done|]. cbn [app].
  replace (Z.to_nat (Z.max 1 (Z.min k (zlen (b :: seg))))) with (length (b :: seg))
    by (unfold zlen in *; lia).
  change (b :: seg ++ rest) with ((b :: seg) ++ rest). by rewrite take_app_length, drop_app_length.
Qed.

(** A receive call never returns more than it was asked for. *)
Lemma recv_data_bounds ev eof stream n bs stream' :
  0 <= n -> recv ev eof stream n = (RxData bs, stream') -> zlen bs <= n.
Proof.
  intros Hn. unfold recv. destruct ev as [k|err]; [|done].
  destruct (Z.eqb_spec n 0) as [->|Hn0]; [intros [= <- <-]; len|].
  destruct stream as [|b stream].
  - destruct eof; intros [= <- <-]. len.
  - intros [= <- <-]. len.
Qed.

Lemma recv_data_bytes ev eof stream n bs stream' :
  bytes stream -> recv ev eof stream n = (RxData bs, stream') -> bytes bs.
Proof.
  intros Hb. unfold recv. destruct ev as [k|err]; [|done]. destruct (n =? 0); [intros [= <- _]; constructor|].
  destruct stream as [|x stream]; [destruct eof; intros H; [injection H as <- _; constructor|done]|].
  intros [= <- _]. by apply Forall_take.
Qed.

Lemma recv_rest_bytes ev eof stream n r stream' :
  bytes stream -> recv ev eof stream n = (r, stream') -> bytes stream'.
Proof.
  intros Hb. unfold recv. destruct ev as [k|err]; [|by intros [= _ <-]]. destruct (n =? 0); [by intros [= _ <-]|].
  destruct stream as [|x stream]; [by intros [= _ <-]|]. intros [= _ <-]. by apply Forall_drop.
Qed.

(** A transport that delivers: pieces of any size, and interrupted calls. *)
Definition reading (script : list rx_event) : Prop :=
  Forall (fun ev => (exists k, ev = RxChunk k) \/ ev = RxErr EINTR) script.

Definition nchunks (script : list rx_event) : nat :=
  length (List.filter (fun ev => if ev is RxChunk _ then true else false) script).

Lemma write_piece (F D : list Z) n got :
  (n + got <= length F)%nat -> (length F <= length D)%nat ->
  write_at (take n F ++ drop n D) (Z.of_nat n) (take got (drop n F))
  = Ret (take (n + got) F ++ drop (n + got) D).
Proof.
  intros Hn HD.
  assert (length (take got (drop n F)) = got) as Hl by (rewrite length_take, length_drop; lia).
  rewrite write_at_cursor by len.
  by rewrite Hl, take_take_drop, drop_drop.
Qed.

(** One piece arrives. *)
Lemma recv_piece (F rest : list Z) k eof n remain :
  (n < length F)%nat -> 0 < remain -> remain <= Z.of_nat (length F - n) ->
  exists got b bs, (0 < got)%nat /\ Z.of_nat got <= remain /\
    b :: bs = take got (drop n F) /\ zlen (b :: bs) = Z.of_nat got /\
    recv (RxChunk k) eof (drop n F ++ rest) remain = (RxData (b :: bs), drop (n + got) F ++ rest).
Proof.
  intros Hn Hpos Hrem.
  destruct (recv_chunk k eof (drop n F ++ rest) remain Hpos) as (got & Hg & Hgr & E).
  { intros [H0 _]%app_nil. apply (f_equal length) in H0. rewrite length_drop in H0.
    change (length []) with 0%nat in H0. lia. }
  rewrite take_app_le, drop_app_le in E by (rewrite length_drop; lia).
  rewrite drop_drop in E. assert (length (take got (drop n F)) = got) as Hl.
  { rewrite length_take, length_drop. lia. }
  destruct (take got (drop n F)) as [|b bs] eqn:Eb; [cbn in Hl; lia|].
  exists got, b, bs. split_and!; [done..|unfold zlen; lia|done].
Qed.

Lemma nchunks_cons k script : nchunks (RxChunk k :: script) = S (nchunks script).
Proof. done. Qed.
