(* ===== verification/Ring.v ===== *)
(** * Circular buffers

    Four programs of the repository keep a queue in an array with indices that
    wrap around.  [window] is the content such an array represents: the [n]
    elements from index [tail] on, modulo the length of the array.  The lemmas
    say what one store at the write index and one step of the read index do to
    it, whatever counters or indices a program derives [n] from. *)
From S2P Require Import Prelude.

(** [a[i]] and [a[i] = x] in an array of structs, checked. *)
Definition get_at {A} (a : list A) (i : Z) : outcome A :=
  if i <? 0 then Undef else deref (a !! Z.to_nat i).

Definition set_at {A} (a : list A) (i : Z) (x : A) : outcome (list A) :=
  if ((0 <=? i) && (i <? zlen a))%bool then Ret (<[Z.to_nat i := x]> a) else Undef.

Definition window {A} (a : list A) (tail n : Z) : list A :=
  take (Z.to_nat n) (rotate (Z.to_nat tail) a).

Section Window.
Context {A : Type}.
Implicit Types (a : list A) (x v : A).

Lemma get_at_inside a i : 0 <= i < zlen a -> exists v, get_at a i = Ret v /\ a !! Z.to_nat i = Some v.
Proof.
  intros Hi. unfold get_at. destruct (Z.ltb_spec i 0); [lia|].
  destruct (lookup_lt_is_Some_2 a (Z.to_nat i)) as [v ->]; [unfold zlen in Hi; lia|].
  by exists v.
Qed.

Lemma set_at_inside a i x : 0 <= i < zlen a -> set_at a i x = Ret (<[Z.to_nat i := x]> a).
Proof.
  intros Hi. unfold set_at.
  destruct (Z.leb_spec 0 i), (Z.ltb_spec i (zlen a)); (done || lia).
Qed.

Lemma get_at_Ret a i v : get_at a i = Ret v -> 0 <= i /\ a !! Z.to_nat i = Some v.
Proof.
  unfold get_at. destruct (Z.ltb_spec i 0); [done|].
  destruct (a !! Z.to_nat i); [|done]. by intros [= ->].
Qed.

Lemma set_at_Ret a i x a' :
  set_at a i x = Ret a' -> 0 <= i < zlen a /\ a' = <[Z.to_nat i := x]> a.
Proof.
  unfold set_at. destruct (Z.leb_spec 0 i), (Z.ltb_spec i (zlen a)); try done.
  by intros [= <-].
Qed.

Lemma zlen_insert a i x : zlen (<[i := x]> a) = zlen a.
Proof. unfold zlen. by rewrite length_insert. Qed.

Lemma window_length a tail n : 0 <= n <= zlen a -> zlen (window a tail n) = n.
Proof. intros Hn. unfold window, zlen in *. rewrite length_take, length_rotate. lia. Qed.

Lemma window_lookup a tail n i :
  0 <= tail < zlen a -> 0 <= n <= zlen a -> 0 <= i < n ->
  window a tail n !! Z.to_nat i = a !! Z.to_nat ((tail + i) mod zlen a).
Proof.
  intros Ht Hn Hi. unfold window. rewrite lookup_take.
  destruct (decide _); [|unfold zlen in *; lia].
  rewrite lookup_rotate_r by (unfold zlen in *; lia).
  f_equal. unfold rotate_nat_add, zlen in *. f_equal. f_equal. lia.
Qed.

(** Two windows are equal if their elements are. *)
Lemma window_ext a tail n (l : list A) :
  0 <= tail < zlen a -> 0 <= n <= zlen a -> zlen l = n ->
  (forall i, 0 <= i < n -> a !! Z.to_nat ((tail + i) mod zlen a) = l !! Z.to_nat i) ->
  window a tail n = l.
Proof.
  intros Ht Hn Hl He. apply list_eq. intros k.
  destruct (decide (Z.of_nat k < n)) as [Hk|Hk].
  - specialize (He (Z.of_nat k) ltac:(lia)). rewrite Nat2Z.id in He. rewrite <- He.
    rewrite <- (window_lookup a tail n) by lia. by rewrite Nat2Z.id.
  - pose proof (window_length a tail n Hn) as Hw. unfold zlen in Hl, Hw.
    rewrite !lookup_ge_None_2 by lia. done.
Qed.

(** Distinct offsets below the length are distinct indices. *)
Lemma window_index_inj cap tail i j :
  0 <= i < cap -> 0 <= j < cap -> (tail + i) mod cap = (tail + j) mod cap -> i = j.
Proof.
  intros Hi Hj He.
  assert ((tail + i - (tail + j)) mod cap = 0) as H0.
  { rewrite Zminus_mod, He, Z.sub_diag. apply Zmod_0_l. }
  apply Z.mod_divide in H0 as [k Hk]; [|lia].
  assert (k = 0) as -> by nia. lia.
Qed.

(** Storing behind the window extends it. *)
Lemma window_push a tail n x :
  0 <= tail < zlen a -> 0 <= n < zlen a ->
  window (<[Z.to_nat ((tail + n) mod zlen a) := x]> a) tail (n + 1) = window a tail n ++ [x].
Proof.
  intros Ht Hn. pose proof (window_length a tail n ltac:(lia)) as Hw.
  apply window_ext; rewrite ?zlen_insert; [lia|lia|len|].
  intros i Hi. pose proof (Z.mod_pos_bound (tail + n) (zlen a) ltac:(lia)).
  pose proof (Z.mod_pos_bound (tail + i) (zlen a) ltac:(lia)).
  destruct (decide (i = n)) as [->|Hne].
  - rewrite list_lookup_insert_eq by (unfold zlen in *; lia).
    rewrite lookup_app_r by (unfold zlen in *; lia).
    replace (Z.to_nat n - length (window a tail n))%nat with 0%nat by (unfold zlen in *; lia). done.
  - rewrite list_lookup_insert_ne.
    2: { intros He%Z2Nat.inj; [|lia..]. apply window_index_inj in He; lia. }
    rewrite lookup_app_l by (unfold zlen in *; lia). by rewrite window_lookup by lia.
Qed.

(** Advancing the read index drops the first element. *)
Lemma window_pop a tail n :
  0 <= tail < zlen a -> 0 < n <= zlen a ->
  exists v, get_at a tail = Ret v /\
    window a tail n = v :: window a ((tail + 1) mod zlen a) (n - 1).
Proof.
  intros Ht Hn. destruct (get_at_inside a tail Ht) as (v & Hv & Hl). exists v. split; [done|].
  pose proof (Z.mod_pos_bound (tail + 1) (zlen a) ltac:(lia)).
  pose proof (window_length a ((tail + 1) mod zlen a) (n - 1) ltac:(lia)) as Hw.
  apply window_ext; [lia|lia|len|]. intros i Hi.
  destruct (decide (i = 0)) as [->|Hne].
  - rewrite Z.add_0_r, Z.mod_small by lia. done.
  - replace (Z.to_nat i) with (S (Z.to_nat (i - 1))) by lia.
    change ((v :: window a ((tail + 1) mod zlen a) (n - 1)) !! S (Z.to_nat (i - 1)))
      with (window a ((tail + 1) mod zlen a) (n - 1) !! Z.to_nat (i - 1)).
    rewrite window_lookup by lia. f_equal. f_equal.
    rewrite Zplus_mod_idemp_l. f_equal. lia.
Qed.

Lemma window_empty a tail : window a tail 0 = [].
Proof. done. Qed.

End Window.

(** ** Rings with a fill count *)

(** [head] is the write index, [tail] the read index. *)
Record ring (A : Type) := Ring { r_data : list A; r_head : Z; r_tail : Z; r_count : Z }.
Arguments Ring {A} r_data r_head r_tail r_count.
Arguments r_data {A} r.
Arguments r_head {A} r.
Arguments r_tail {A} r.
Arguments r_count {A} r.

(** [a[head] = x; head = (head + 1) % cap; count++] *)
Definition ring_put {A} (cap : Z) (r : ring A) (x : A) : outcome (ring A) :=
  d ← set_at (r_data r) (r_head r) x;
  Ret (Ring d ((r_head r + 1) mod cap) (r_tail r) (r_count r + 1)).

(** [tail = (tail + 1) % cap; count--] *)
Definition ring_advance {A} (cap : Z) (r : ring A) : ring A :=
  Ring (r_data r) (r_head r) ((r_tail r + 1) mod cap) (r_count r - 1).

Definition ring_take {A} (cap : Z) (r : ring A) : outcome (A * ring A) :=
  x ← get_at (r_data r) (r_tail r); Ret (x, ring_advance cap r).

Definition ring_inv {A} (cap : Z) (r : ring A) : Prop :=
  zlen (r_data r) = cap /\ 0 <= r_tail r < cap /\ 0 <= r_count r <= cap /\
  r_head r = (r_tail r + r_count r) mod cap.

Definition ring_abs {A} (r : ring A) : list A := window (r_data r) (r_tail r) (r_count r).

Section Ring.
Context {A : Type} (cap : Z).
Implicit Types (r : ring A) (x v : A).

Lemma ring_abs_length r : ring_inv cap r -> zlen (ring_abs r) = r_count r.
Proof. intros (Hd & Ht & Hc & _). apply window_length. lia. Qed.

Lemma ring_put_spec r x :
  ring_inv cap r -> r_count r < cap ->
  exists r', ring_put cap r x = Ret r' /\ ring_inv cap r' /\ ring_abs r' = ring_abs r ++ [x] /\
    r_count r' = r_count r + 1 /\ r_tail r' = r_tail r.
Proof.
  intros (Hd & Ht & Hc & Hh) Hroom. unfold ring_put.
  pose proof (Z.mod_pos_bound (r_tail r + r_count r) cap ltac:(lia)).
  rewrite set_at_inside by lia. cbn [mbind outcome_bind].
  eexists. split; [reflexivity|]. unfold ring_inv, ring_abs. cbn [r_data r_head r_tail r_count].
  rewrite zlen_insert. split_and!; [lia..| | |lia|lia].
  - rewrite Hh, Zplus_mod_idemp_l. f_equal. lia.
  - rewrite Hh, <- Hd. apply window_push; lia.
Qed.

Lemma ring_advance_spec r v l :
  ring_inv cap r -> ring_abs r = v :: l ->
  get_at (r_data r) (r_tail r) = Ret v /\ ring_inv cap (ring_advance cap r) /\
  ring_abs (ring_advance cap r) = l.
Proof.
  intros (Hd & Ht & Hc & Hh) Ha. unfold ring_abs in Ha.
  assert (0 < r_count r) as Hpos.
  { pose proof (window_length (r_data r) (r_tail r) (r_count r) ltac:(lia)) as Hw.
    rewrite Ha, zlen_cons in Hw. pose proof (zlen_nonneg l). lia. }
  destruct (window_pop (r_data r) (r_tail r) (r_count r) ltac:(lia) ltac:(lia)) as (w & Hw & E).
  rewrite E in Ha. injection Ha as -> <-. split; [done|].
  unfold ring_inv, ring_abs, ring_advance. cbn [r_data r_head r_tail r_count].
  pose proof (Z.mod_pos_bound (r_tail r + 1) cap ltac:(lia)).
  split_and!; [lia..| |by rewrite Hd].
  rewrite Hh, Zplus_mod_idemp_l. f_equal. lia.
Qed.

Lemma ring_take_spec r v l :
  ring_inv cap r -> ring_abs r = v :: l ->
  ring_take cap r = Ret (v, ring_advance cap r) /\ ring_inv cap (ring_advance cap r) /\
  ring_abs (ring_advance cap r) = l.
Proof.
  intros Hi Ha. destruct (ring_advance_spec r v l Hi Ha) as (Hg & ? & ?).
  unfold ring_take. rewrite Hg. done.
Qed.

(** Rewriting the oldest element in place. *)
Lemma ring_front_spec r v l x :
  ring_inv cap r -> ring_abs r = v :: l ->
  exists d, set_at (r_data r) (r_tail r) x = Ret d /\ d = <[Z.to_nat (r_tail r) := x]> (r_data r) /\
    ring_inv cap (Ring d (r_head r) (r_tail r) (r_count r)) /\
    ring_abs (Ring d (r_head r) (r_tail r) (r_count r)) = x :: l.
Proof.
  intros Hi Ha. pose proof Hi as (Hd & Ht & Hc & Hh). pose proof (ring_abs_length r Hi) as Hl.
  rewrite Ha, zlen_cons in Hl. pose proof (zlen_nonneg l).
  rewrite set_at_inside by lia. eexists. split_and!; [reflexivity|reflexivity| |].
  - unfold ring_inv. cbn [r_data r_head r_tail r_count]. rewrite zlen_insert. done.
  - unfold ring_abs. cbn [r_data r_tail r_count].
    apply window_ext; rewrite ?zlen_insert; [lia|lia|rewrite zlen_cons; lia|].
    intros i Hin. pose proof (Z.mod_pos_bound (r_tail r + i) (zlen (r_data r)) ltac:(lia)).
    destruct (decide (i = 0)) as [->|Hne].
    + rewrite Z.add_0_r, Z.mod_small by lia. by rewrite list_lookup_insert_eq by (unfold zlen in *; lia).
    + rewrite list_lookup_insert_ne.
      2: { intros He%Z2Nat.inj; [|lia..]. rewrite <- (Z.mod_small (r_tail r) (zlen (r_data r))) in He by lia.
           rewrite <- (Z.add_0_r (r_tail r)) in He at 1. rewrite Zplus_mod_idemp_l in He.
           apply window_index_inj in He; lia. }
      rewrite <- (window_lookup (r_data r) (r_tail r) (r_count r)) by lia.
      change (window (r_data r) (r_tail r) (r_count r)) with (ring_abs r). rewrite Ha.
      replace (Z.to_nat i) with (S (Z.to_nat (i - 1))) by lia. done.
Qed.

Lemma ring_nonempty r : ring_inv cap r -> 0 < r_count r -> exists v l, ring_abs r = v :: l.
Proof.
  intros Hi Hc. pose proof (ring_abs_length r Hi) as Hl.
  destruct (ring_abs r) as [|v l]; [rewrite zlen_nil in Hl; lia|]. eauto.
Qed.

End Ring.
