(* ===== verification/Sys.v ===== *)
(** * Descriptors

    What the set-up code of several programs does with the kernel and the TLS
    library: handles are opened, may be refused, and are closed.  The numbers
    handed out do not matter, so a counter gives them; which calls fail is a
    script. *)
From S2P Require Import Prelude.
Open Scope c_scope.

Module Sys.

(** The open descriptors, the TLS sessions and contexts, whether the TLS library
    gets the memory it asks for, the next number, and for each call to come
    whether it fails. *)
Record sys := Sys {
  y_fds : gset Z; y_ssls : gset Z; y_ctxs : gset Z; y_memory : bool; y_next : Z; y_fails : list bool }.

Definition set_y_fds (v : gset Z) (s : sys) : sys :=
  Sys v (y_ssls s) (y_ctxs s) (y_memory s) (y_next s) (y_fails s).
Definition set_y_ssls (v : gset Z) (s : sys) : sys :=
  Sys (y_fds s) v (y_ctxs s) (y_memory s) (y_next s) (y_fails s).
Definition set_y_ctxs (v : gset Z) (s : sys) : sys :=
  Sys (y_fds s) (y_ssls s) v (y_memory s) (y_next s) (y_fails s).
Definition set_y_next (v : Z) (s : sys) : sys :=
  Sys (y_fds s) (y_ssls s) (y_ctxs s) (y_memory s) v (y_fails s).
Definition set_y_fails (v : list bool) (s : sys) : sys :=
  Sys (y_fds s) (y_ssls s) (y_ctxs s) (y_memory s) (y_next s) v.

(** A call that opens nothing: 0, or -1 if it fails. *)
Definition call (s : sys) : Z * sys :=
  match y_fails s with
  | true :: fs => (-1, set_y_fails fs s)
  | false :: fs => (0, set_y_fails fs s)
  | [] => (0, s)
  end.

(** A call that returns a descriptor. *)
Definition open_fd (s : sys) : Z * sys :=
  let '(r, s) := call s in
  if r <? 0 then (-1, s) else (y_next s, set_y_next (y_next s + 1) (set_y_fds ({[y_next s]} ∪ y_fds s) s)).

Definition close (fd : Z) (s : sys) : sys := set_y_fds (y_fds s ∖ {[fd]}) s.

Definition SSL_CTX_new (s : sys) : option Z * sys :=
  if y_memory s then (Some (y_next s), set_y_next (y_next s + 1) (set_y_ctxs ({[y_next s]} ∪ y_ctxs s) s))
  else (None, s).
Definition SSL_new (s : sys) : option Z * sys :=
  if y_memory s then (Some (y_next s), set_y_next (y_next s + 1) (set_y_ssls ({[y_next s]} ∪ y_ssls s) s))
  else (None, s).
Definition SSL_free (ssl : Z) (s : sys) : sys := set_y_ssls (y_ssls s ∖ {[ssl]}) s.
Definition SSL_CTX_free (ctx : Z) (s : sys) : sys := set_y_ctxs (y_ctxs s ∖ {[ctx]}) s.

(** Every handle is below the counter, which is not negative. *)
Definition sys_ok (s : sys) : Prop :=
  0 <= y_next s /\
  (forall x, x ∈ y_fds s -> x < y_next s) /\ (forall x, x ∈ y_ssls s -> x < y_next s) /\
  (forall x, x ∈ y_ctxs s -> x < y_next s).

(** The same handles; numbers and the script may have been used up. *)
Record same_handles (s s' : sys) : Prop := {
  sh_fds : y_fds s' = y_fds s; sh_ssls : y_ssls s' = y_ssls s; sh_ctxs : y_ctxs s' = y_ctxs s;
  sh_memory : y_memory s' = y_memory s; sh_next : y_next s <= y_next s';
  sh_ok : sys_ok s -> sys_ok s' }.

Lemma same_refl s : same_handles s s.
Proof. by split. Qed.

Lemma same_trans s1 s2 s3 : same_handles s1 s2 -> same_handles s2 s3 -> same_handles s1 s3.
Proof. intros [] []. split; [congruence..|lia|tauto]. Qed.

Lemma call_same s : same_handles s (call s).2.
Proof. unfold call. destruct (y_fails s) as [|[] fs]; by split. Qed.

Lemma call_result s : ((call s).1 = 0) \/ ((call s).1 = -1).
Proof. unfold call. destruct (y_fails s) as [|[] fs]; cbn; auto. Qed.

(** [fd] is a new descriptor of [s']. *)
Definition opens (s : sys) (fd : Z) (s' : sys) : Prop :=
  0 <= fd /\ (fd ∉ y_fds s) /\ y_fds s' = {[fd]} ∪ y_fds s /\ y_ssls s' = y_ssls s /\ y_ctxs s' = y_ctxs s /\
  y_memory s' = y_memory s /\ y_next s <= y_next s' /\ sys_ok s'.

Lemma open_fd_spec s : sys_ok s ->
  ((open_fd s).1 = -1 /\ same_handles s (open_fd s).2) \/ opens s (open_fd s).1 (open_fd s).2.
Proof.
  intros Hok. unfold open_fd. pose proof (call_same s) as Hc. destruct (call s) as [r s1]. cbn in Hc.
  destruct (r <? 0); [by left|]. right. destruct Hc as [E1 E2 E3 E4 E5 H]. destruct (H Hok) as (H0 & H1 & H2 & H3).
  unfold opens. cbn. rewrite E1, E2, E3, E4. split_and!; try done; try lia.
  - rewrite <- E1. intros Hin. apply H1 in Hin. lia.
  - split_and!; cbn; [lia|..]; intros x Hx.
    + apply elem_of_union in Hx as [->%elem_of_singleton|Hx]; [lia|]. rewrite <- E1 in Hx. apply H1 in Hx. lia.
    + apply H2 in Hx. lia.
    + apply H3 in Hx. lia.
Qed.

Lemma close_ok fd s : sys_ok s -> sys_ok (close fd s).
Proof. intros (H0 & H1 & H2 & H3). split_and!; try done. cbn. intros x [Hx _]%elem_of_difference. by apply H1. Qed.

(** Opening, other calls, and closing again. *)
Lemma opens_close s fd s1 s2 : opens s fd s1 -> same_handles s1 s2 -> same_handles s (close fd s2).
Proof.
  intros (H0 & Hn & Ef & Es & Ec & Em & Hle & Hok) [F1 F2 F3 F4 F5 F6]. split; cbn; [|congruence..|lia|].
  - rewrite F1, Ef. apply leibniz_equiv. intros x. rewrite elem_of_difference, elem_of_union, elem_of_singleton.
    split; [by intros [[->|?] ?]|]. intros Hx. split; [by right|]. by intros ->.
  - intros _. by apply close_ok, F6.
Qed.

Lemma opens_same s fd s1 s2 : opens s fd s1 -> same_handles s1 s2 -> opens s fd s2.
Proof.
  intros (H0 & Hn & Ef & Es & Ec & Em & Hle & Hok) [F1 F2 F3 F4 F5 F6].
  split_and!; try done; try congruence; [lia|by apply F6].
Qed.

End Sys.

Create HintDb handles.
#[export] Hint Resolve Sys.same_refl Sys.call_same Sys.same_trans : handles.
