(* ===== verification/Logger.v ===== *)
(** * The logger

    [gateway/src/logger.c] and [gateway/include/logger.h], of which the control plane
    has a copy under [common/]: the log file with its buffer, one message on the
    console and in the file, and any number of threads that log at the same time. *)
From S2P Require Import Prelude.
Open Scope c_scope.

Module Logger.

Inductive log_level := LOG_LEVEL_DEBUG | LOG_LEVEL_INFO | LOG_LEVEL_WARN | LOG_LEVEL_ERROR.

Definition level_names (level : log_level) : list Z :=
  match level with
  | LOG_LEVEL_DEBUG => bstr "DEBUG"
  | LOG_LEVEL_INFO => bstr "INFO "
  | LOG_LEVEL_WARN => bstr "WARN "
  | LOG_LEVEL_ERROR => bstr "ERROR"
  end.

(** [struct tm] as far as it is printed. *)
Record tm := Tm { tm_year : Z; tm_mon : Z; tm_mday : Z; tm_hour : Z; tm_min : Z; tm_sec : Z }.

(** The arguments of [log_message] and the local time; the text is what [vfprintf]
    makes of the format and its arguments. *)
Record entry := Entry {
  e_level : log_level; e_file : list Z; e_line : Z; e_func : list Z; e_text : list Z; e_time : tm }.

(** What [%0wd] prints. *)
Definition fmt_0 (w : nat) (z : Z) : list Z :=
  let zeros := replicate (w - length (fmt_d z)) 48 in
  if z <? 0 then 45 :: zeros ++ dec_digits 10 (- z) else zeros ++ fmt_d z.

Fixpoint strrchr (s : list Z) (c : Z) : option (list Z) :=
  match s with
  | [] => None
  | b :: s' =>
      match strrchr s' c with
      | Some r => Some r
      | None => if b =? c then Some s else None
      end
  end.

Definition short_file (file : list Z) : list Z :=
  match strrchr file 47 with Some s => tail s | None => file end.

Definition prefix (e : entry) : list Z :=
  let t := e_time e in
  bstr "[" ++ fmt_0 4 (tm_year t + 1900) ++ bstr "-" ++ fmt_0 2 (tm_mon t + 1) ++ bstr "-" ++ fmt_0 2 (tm_mday t)
  ++ bstr " " ++ fmt_0 2 (tm_hour t) ++ bstr ":" ++ fmt_0 2 (tm_min t) ++ bstr ":" ++ fmt_0 2 (tm_sec t)
  ++ bstr "] [" ++ level_names (e_level e) ++ bstr "] [" ++ short_file (e_file e) ++ bstr ":" ++ fmt_d (e_line e)
  ++ bstr " -> " ++ e_func e ++ bstr "()] ".

Definition line (e : entry) : list Z := prefix e ++ e_text e ++ [10].

(** ** Streams

    An open stream has a path and bytes that are not in the file yet. *)
Record stream := Stream { st_path : list Z; st_buf : list Z }.

Record logger := Log {
  g_log_file : option nat; streams : gmap nat stream; disk : gmap (list Z) (list Z);
  console : list Z; next_stream : nat }.

Definition set_console (v : list Z) (x : logger) : logger :=
  Log (g_log_file x) (streams x) (disk x) v (next_stream x).
Definition set_streams (v : gmap nat stream) (x : logger) : logger :=
  Log (g_log_file x) v (disk x) (console x) (next_stream x).
Definition set_disk (v : gmap (list Z) (list Z)) (x : logger) : logger :=
  Log (g_log_file x) (streams x) v (console x) (next_stream x).

Definition fprintf_stderr (bs : list Z) (l : logger) : logger := set_console (console l ++ bs) l.

Definition fflush (f : nat) (l : logger) : outcome logger :=
  st ← deref (streams l !! f);
  Ret (set_streams (<[f := Stream (st_path st) []]> (streams l))
        (set_disk (<[st_path st := default [] (disk l !! st_path st) ++ st_buf st]> (disk l)) l)).

(** The buffer may fill up and spill into the file at any time. *)
Definition fprintf (spill : bool) (f : nat) (bs : list Z) (l : logger) : outcome logger :=
  st ← deref (streams l !! f);
  let l := set_streams (<[f := Stream (st_path st) (st_buf st ++ bs)]> (streams l)) l in
  if spill then fflush f l else Ret l.

Definition fclose (f : nat) (l : logger) : outcome logger :=
  l ← fflush f l; Ret (set_streams (delete f (streams l)) l).

(** ** The functions *)

(** [opens]: whether [fopen] succeeds. *)
Definition log_init (path_file_log : list Z) (opens : bool) (l : logger) : Z * logger :=
  match g_log_file l with
  | Some _ => (0, l)
  | None =>
      if opens then
        (0, Log (Some (next_stream l)) (<[next_stream l := Stream path_file_log []]> (streams l))
              (<[path_file_log := default [] (disk l !! path_file_log)]> (disk l)) (console l) (S (next_stream l)))
      else (-1, l)
  end.

Definition log_close (l : logger) : outcome logger :=
  match g_log_file l with Some f => fclose f l | None => Ret l end.

Definition log_message (spills : bool * bool * bool) (e : entry) (l : logger) : outcome logger :=
  let '(a, b, c) := spills in
  let l := fprintf_stderr [10] (fprintf_stderr (e_text e) (fprintf_stderr (prefix e) l)) in
  match g_log_file l with
  | None => Ret l
  | Some f =>
      l ← fprintf a f (prefix e) l; l ← fprintf b f (e_text e) l; l ← fprintf c f [10] l;
      fflush f l
  end.

(** ** Threads

    Where a thread is in [log_message]: outside, about to lock, about to write one of
    the parts to the console, about to test [g_log_file], about to write one of the
    parts to the file, about to flush, about to unlock. *)
Inductive log_pc :=
| Outside | Lock (e : entry)
| Prefix (e : entry) | Text (e : entry) | Newline (e : entry) | TestFile (e : entry)
| FPrefix (e : entry) | FText (e : entry) | FNewline (e : entry) | FFlush (e : entry)
| Unlock (e : entry).

(** [g_log_mutex] is its owner; [finished] are the calls that have returned, in order. *)
Record world := World {
  lg : logger; g_log_mutex : option nat; threads : list log_pc; finished : list entry }.

Definition enter (i : nat) (p : log_pc) (l : logger) (w : world) : world :=
  World l (g_log_mutex w) (<[i := p]> (threads w)) (finished w).

Inductive event := Call (i : nat) (e : entry) | Step (i : nat) (spill : bool).

(** [None]: there is nothing to do, or the mutex is taken. *)
Definition log_step (ev : event) (w : world) : outcome (option world) :=
  let l := lg w in
  match ev with
  | Call i e =>
      match threads w !! i with Some Outside => Ret (Some (enter i (Lock e) l w)) | _ => Ret None end
  | Step i spill =>
      match threads w !! i with
      | None | Some Outside => Ret None
      | Some (Lock e) =>
          match g_log_mutex w with
          | None => Ret (Some (World l (Some i) (<[i := Prefix e]> (threads w)) (finished w)))
          | Some _ => Ret None
          end
      | Some (Prefix e) => Ret (Some (enter i (Text e) (fprintf_stderr (prefix e) l) w))
      | Some (Text e) => Ret (Some (enter i (Newline e) (fprintf_stderr (e_text e) l) w))
      | Some (Newline e) => Ret (Some (enter i (TestFile e) (fprintf_stderr [10] l) w))
      | Some (TestFile e) =>
          Ret (Some (enter i (match g_log_file l with Some _ => FPrefix e | None => Unlock e end) l w))
      | Some (FPrefix e) =>
          f ← deref (g_log_file l); l ← fprintf spill f (prefix e) l; Ret (Some (enter i (FText e) l w))
      | Some (FText e) =>
          f ← deref (g_log_file l); l ← fprintf spill f (e_text e) l; Ret (Some (enter i (FNewline e) l w))
      | Some (FNewline e) =>
          f ← deref (g_log_file l); l ← fprintf spill f [10] l; Ret (Some (enter i (FFlush e) l w))
      | Some (FFlush e) =>
          f ← deref (g_log_file l); l ← fflush f l; Ret (Some (enter i (Unlock e) l w))
      | Some (Unlock e) => Ret (Some (World l None (<[i := Outside]> (threads w)) (finished w ++ [e])))
      end
  end.

(** Steps that cannot be made are skipped. *)
Fixpoint log_run (evs : list event) (w : world) : outcome world :=
  match evs with
  | [] => Ret w
  | ev :: evs => r ← log_step ev w; log_run evs (default w r)
  end.

(** The threads of a program that has called [log_init], with [old] in the file, or
    that has not. *)
Definition no_log (d : gmap (list Z) (list Z)) : logger := Log None ∅ d [] 0.
Definition log_start (n : nat) (l : logger) : world := World l None (replicate n Outside) [].

(** ** Lines are whole *)

#[local] Opaque prefix.

Definition inside (p : log_pc) : bool := match p with Outside | Lock _ => false | _ => true end.

(** What the thread inside has written so far, to the console and to the file. *)
Definition con_part (p : log_pc) : list Z :=
  match p with
  | Outside | Lock _ | Prefix _ => []
  | Text e => prefix e
  | Newline e => prefix e ++ e_text e
  | TestFile e | FPrefix e | FText e | FNewline e | FFlush e | Unlock e => line e
  end.
Definition file_part (p : log_pc) : list Z :=
  match p with
  | FText e => prefix e
  | FNewline e => prefix e ++ e_text e
  | FFlush e | Unlock e => line e
  | _ => []
  end.
Definition buffering (p : log_pc) : bool := match p with FText _ | FNewline _ | FFlush _ => true | _ => false end.
Definition filing (p : log_pc) : bool := (buffering p || match p with FPrefix _ => true | _ => false end)%bool.

(** The file of stream [f] at [path] has the bytes [text] behind [old], some of them
    possibly in the buffer still. *)
Definition file_ok (file : option (nat * list Z * list Z)) (text : list Z) (p : log_pc) (l : logger) : Prop :=
  match file with
  | None => g_log_file l = None /\ filing p = false
  | Some (f, path, old) =>
      g_log_file l = Some f /\
      exists d b, streams l !! f = Some (Stream path b) /\ disk l !! path = Some d /\
        d ++ b = old ++ text ++ file_part p /\ (buffering p = false -> b = [])
  end.

Definition current (w : world) : log_pc :=
  match g_log_mutex w with Some i => default Outside (threads w !! i) | None => Outside end.

Record log_ok (file : option (nat * list Z * list Z)) (w : world) : Prop := {
  lo_owner : forall j q, threads w !! j = Some q -> inside q = true <-> g_log_mutex w = Some j;
  lo_there : forall i, g_log_mutex w = Some i -> is_Some (threads w !! i);
  lo_console : console (lg w) = concat (line <$> finished w) ++ con_part (current w);
  lo_file : file_ok file (concat (line <$> finished w)) (current w) (lg w) }.

(** A step of the owner that stays inside. *)
Lemma enter_ok file w i p p' l : log_ok file w -> threads w !! i = Some p -> inside p = true -> inside p' = true ->
  console l = concat (line <$> finished w) ++ con_part p' ->
  file_ok file (concat (line <$> finished w)) p' l -> log_ok file (enter i p' l w).
Proof.
  intros Hok Ei Hp Hp' Hc Hf. assert (Ho : g_log_mutex w = Some i) by (by apply (lo_owner _ _ Hok i p)).
  assert (Hi : (i < length (threads w))%nat) by (by eapply lookup_lt_Some).
  assert (Hcur : current (enter i p' l w) = p').
  { unfold current, enter. cbn. by rewrite Ho, list_lookup_insert_eq. }
  split.
  - intros j q. cbn. destruct (decide (j = i)) as [->|Hji].
    + rewrite list_lookup_insert_eq by done. by intros [= <-].
    + rewrite list_lookup_insert_ne by done. apply (lo_owner _ _ Hok).
  - intros j. cbn. rewrite Ho. intros [= <-]. by rewrite list_lookup_insert_eq.
  - by rewrite Hcur.
  - by rewrite Hcur.
Qed.

Lemma owner_current file w i p : log_ok file w -> threads w !! i = Some p -> inside p = true ->
  current w = p /\ g_log_mutex w = Some i.
Proof.
  intros Hok Ei Hp. assert (Ho : g_log_mutex w = Some i) by (by apply (lo_owner _ _ Hok i p)).
  unfold current. by rewrite Ho, Ei.
Qed.

(** Writing a part to the file, and flushing. *)
Lemma fflush_ok f path old text p p' l :
  file_ok (Some (f, path, old)) text p l -> file_part p' = file_part p ->
  exists l', fflush f l = Ret l' /\ console l' = console l /\ file_ok (Some (f, path, old)) text p' l'.
Proof.
  intros (Eg & d & b & Es & Ed & Edb & _) Hp. unfold fflush. rewrite Es. cbn [deref mbind outcome_bind st_path st_buf].
  eexists. split; [done|]. split; [done|]. split; [done|]. exists (d ++ b), []. cbn.
  rewrite !lookup_insert_eq, Ed, app_nil_r, Hp. done.
Qed.

Lemma fprintf_ok spill f path old text p p' bs l :
  file_ok (Some (f, path, old)) text p l -> file_part p' = file_part p ++ bs -> buffering p' = true ->
  exists l', fprintf spill f bs l = Ret l' /\ console l' = console l /\ file_ok (Some (f, path, old)) text p' l'.
Proof.
  intros (Eg & d & b & Es & Ed & Edb & _) Hp Hb. unfold fprintf. rewrite Es. cbn [deref mbind outcome_bind st_path st_buf].
  set (l1 := set_streams _ l). assert (H1 : file_ok (Some (f, path, old)) text p' l1).
  { split; [done|]. exists d, (b ++ bs). cbn. rewrite lookup_insert_eq. split_and!; try done; [|by rewrite Hb].
    by rewrite Hp, app_assoc, Edb, <- !app_assoc. }
  destruct spill; [|by exists l1]. destruct (fflush_ok _ _ _ _ _ p' _ H1 eq_refl) as (l' & E & Ec & H'). by exists l'.
Qed.

Lemma file_ok_console file text p p' cs l : file_ok file text p l ->
  file_part p' = file_part p -> buffering p' = buffering p -> (filing p' = false \/ is_Some (g_log_file l)) ->
  file_ok file text p' (set_console cs l).
Proof.
  destruct file as [[[f path] old]|]; cbn.
  - intros (Eg & d & b & H) Ep Eb _. split; [done|]. exists d, b. by rewrite Ep, Eb.
  - intros [Eg Hf] _ _ [H|[? H]]; [done|congruence].
Qed.

(** A part for the console. *)
Lemma console_step file w i p p' bs : log_ok file w -> threads w !! i = Some p -> inside p = true -> inside p' = true ->
  con_part p' = con_part p ++ bs -> file_part p = [] -> file_part p' = [] -> buffering p = false -> filing p' = false ->
  log_ok file (enter i p' (fprintf_stderr bs (lg w)) w).
Proof.
  intros Hok Ei Hp Hp' Hc Hf Hf' Hb Hfi. destruct (owner_current file w i p Hok Ei Hp) as [Ec Em].
  apply (enter_ok file w i p); try done.
  - cbn. rewrite (lo_console _ _ Hok), Ec, Hc. by rewrite app_assoc.
  - pose proof (lo_file _ _ Hok) as Hfile. rewrite Ec in Hfile. apply (file_ok_console _ _ p); [done|by rewrite Hf, Hf'| |by left].
    rewrite Hb. by destruct p'.
Qed.

(** A part for the file; [op] writes or flushes. *)
Lemma file_step file w i p p' (op : nat -> logger -> outcome logger) :
  log_ok file w -> threads w !! i = Some p -> inside p = true -> inside p' = true -> filing p = true -> con_part p' = con_part p ->
  (forall f path old text l, file_ok (Some (f, path, old)) text p l ->
    exists l', op f l = Ret l' /\ console l' = console l /\ file_ok (Some (f, path, old)) text p' l') ->
  exists l', (f ← deref (g_log_file (lg w)); l ← op f (lg w); Ret (Some (enter i p' l w))) = Ret (Some (enter i p' l' w)) /\
    log_ok file (enter i p' l' w).
Proof.
  intros Hok Ei Hp Hp' Hfi Hc Hop. destruct (owner_current file w i p Hok Ei Hp) as [Ec Em].
  pose proof (lo_file _ _ Hok) as Hfile. rewrite Ec in Hfile. destruct file as [[[f path] old]|]; [|destruct Hfile; congruence].
  destruct (Hop f path old _ _ Hfile) as (l' & E & Ecl & H'). destruct Hfile as [Eg _]. rewrite Eg.
  cbn [deref mbind outcome_bind]. rewrite E. exists l'. split; [done|]. apply (enter_ok _ w i p); try done.
  by rewrite Ecl, (lo_console _ _ Hok), Ec, Hc.
Qed.

(** Entering and leaving. *)
Lemma outside_none file w : log_ok file w -> g_log_mutex w = None -> current w = Outside.
Proof. intros _ Hm. unfold current. by rewrite Hm. Qed.

Lemma lock_ok file w i e : log_ok file w -> threads w !! i = Some (Lock e) -> g_log_mutex w = None ->
  log_ok file (World (lg w) (Some i) (<[i := Prefix e]> (threads w)) (finished w)).
Proof.
  intros Hok Ei Hm. assert (Hi : (i < length (threads w))%nat) by (by eapply lookup_lt_Some).
  pose proof (outside_none _ _ Hok Hm) as Hc.
  assert (Hcur : current (World (lg w) (Some i) (<[i := Prefix e]> (threads w)) (finished w)) = Prefix e).
  { unfold current. cbn. by rewrite list_lookup_insert_eq. }
  split.
  - intros j q. cbn. destruct (decide (j = i)) as [->|Hji].
    + rewrite list_lookup_insert_eq by done. by intros [= <-].
    + rewrite list_lookup_insert_ne by done. intros Hq%(lo_owner _ _ Hok). rewrite Hq, Hm. split; [done|congruence].
  - intros j. cbn. intros [= <-]. by rewrite list_lookup_insert_eq.
  - rewrite Hcur. cbn. rewrite (lo_console _ _ Hok), Hc. done.
  - rewrite Hcur. cbn. pose proof (lo_file _ _ Hok) as Hf. rewrite Hc in Hf. exact Hf.
Qed.

Lemma lines_snoc es e : concat (line <$> (es ++ [e])) = concat (line <$> es) ++ line e.
Proof. by rewrite fmap_app, concat_app; cbn; rewrite app_nil_r. Qed.

Lemma unlock_ok file w i e : log_ok file w -> threads w !! i = Some (Unlock e) ->
  log_ok file (World (lg w) None (<[i := Outside]> (threads w)) (finished w ++ [e])).
Proof.
  intros Hok Ei. destruct (owner_current file w i _ Hok Ei eq_refl) as [Ec Em].
  assert (Hi : (i < length (threads w))%nat) by (by eapply lookup_lt_Some). split.
  - intros j q. cbn. destruct (decide (j = i)) as [->|Hji].
    + rewrite list_lookup_insert_eq by done. by intros [= <-].
    + rewrite list_lookup_insert_ne by done. intros Hq%(lo_owner _ _ Hok). rewrite Hq, Em. split; [congruence|done].
  - done.
  - cbn. rewrite (lo_console _ _ Hok), Ec, lines_snoc. cbn. by rewrite app_nil_r.
  - pose proof (lo_file _ _ Hok) as Hf. rewrite Ec in Hf. cbn [lg finished]. unfold current. cbn [g_log_mutex].
    rewrite lines_snoc. destruct file as [[[f path] old]|]; [|done].
    destruct Hf as (Eg & d & b & Es & Ed & Edb & Hb). split; [done|]. exists d, b. by rewrite app_nil_r.
Qed.

Lemma call_ok file w i e : log_ok file w -> threads w !! i = Some Outside ->
  log_ok file (enter i (Lock e) (lg w) w).
Proof.
  intros Hok Ei. assert (Hi : (i < length (threads w))%nat) by (by eapply lookup_lt_Some).
  assert (Hn : g_log_mutex w <> Some i) by (intros Hm; by apply (lo_owner _ _ Hok i _ Ei) in Hm).
  assert (Hc : current (enter i (Lock e) (lg w) w) = current w).
  { unfold current, enter. cbn. destruct (g_log_mutex w) as [j|]; [|done]. rewrite list_lookup_insert_ne; congruence. }
  split.
  - intros j q. cbn. destruct (decide (j = i)) as [->|Hji].
    + rewrite list_lookup_insert_eq by done. by intros [= <-].
    + rewrite list_lookup_insert_ne by done. apply (lo_owner _ _ Hok).
  - intros j Hj. cbn in *. rewrite list_lookup_insert_ne by congruence. by apply (lo_there _ _ Hok).
  - rewrite Hc. apply (lo_console _ _ Hok).
  - rewrite Hc. apply (lo_file _ _ Hok).
Qed.

Lemma test_ok file w i e : log_ok file w -> threads w !! i = Some (TestFile e) ->
  log_ok file (enter i (match g_log_file (lg w) with Some _ => FPrefix e | None => Unlock e end) (lg w) w).
Proof.
  intros Hok Ei. destruct (owner_current file w i _ Hok Ei eq_refl) as [Ec Em].
  pose proof (lo_file _ _ Hok) as Hf. pose proof (lo_console _ _ Hok) as Hc. rewrite Ec in Hf, Hc.
  destruct file as [[[f path] old]|].
  - destruct (Hf) as [-> Hd]. by apply (enter_ok _ w i (TestFile e)).
  - destruct (Hf) as [-> Hd]. by apply (enter_ok _ w i (TestFile e)).
Qed.

(** Every step is defined and keeps the invariant. *)
Lemma log_step_ok file ev w : log_ok file w ->
  exists r, log_step ev w = Ret r /\ log_ok file (default w r).
Proof.
  intros Hok. destruct ev as [i e|i spill]; cbn [log_step].
  - destruct (threads w !! i) as [[]|] eqn:E; try (by eexists). eexists. split; [done|]. by apply call_ok.
  - destruct (threads w !! i) as [[]|] eqn:E; try (by eexists).
    + destruct (g_log_mutex w) eqn:Em; [by eexists|]. eexists. split; [done|]. by apply lock_ok.
    + eexists. split; [done|]. by apply (console_step file w i (Prefix e)).
    + eexists. split; [done|]. by apply (console_step file w i (Text e)).
    + eexists. split; [done|]. apply (console_step file w i (Newline e) (TestFile e) [10] Hok E eq_refl eq_refl); [|reflexivity..]. cbn. unfold line. by rewrite app_assoc.
    + eexists. split; [done|]. by apply test_ok.
    + destruct (file_step file w i (FPrefix e) (FText e) (fun f => fprintf spill f (prefix e)) Hok E eq_refl eq_refl eq_refl eq_refl) as (l' & -> & Hl); [|by eexists].
      intros * H. by apply (fprintf_ok _ _ _ _ _ _ _ _ _ H).
    + destruct (file_step file w i (FText e) (FNewline e) (fun f => fprintf spill f (e_text e)) Hok E eq_refl eq_refl eq_refl eq_refl) as (l' & -> & Hl); [|by eexists].
      intros * H. by apply (fprintf_ok _ _ _ _ _ _ _ _ _ H).
    + destruct (file_step file w i (FNewline e) (FFlush e) (fun f => fprintf spill f [10]) Hok E eq_refl eq_refl eq_refl eq_refl) as (l' & -> & Hl); [|by eexists].
      intros * H. apply (fprintf_ok _ _ _ _ _ _ _ _ _ H); [|done]. cbn. unfold line. by rewrite app_assoc.
    + destruct (file_step file w i (FFlush e) (Unlock e) fflush Hok E eq_refl eq_refl eq_refl eq_refl) as (l' & -> & Hl); [|by eexists].
      intros * H. by apply (fflush_ok _ _ _ _ _ _ _ H).
    + eexists. split; [done|]. by apply unlock_ok.
Qed.

Lemma log_run_ok file evs w : log_ok file w -> exists w', log_run evs w = Ret w' /\ log_ok file w'.
Proof.
  revert w. induction evs as [|ev evs IH]; intros w Hok; cbn [log_run]; [by exists w|].
  destruct (log_step_ok file ev w Hok) as (r & -> & Hr). by apply IH.
Qed.

(** The owner of the mutex can always go on. *)
Lemma owner_steps file w i : log_ok file w -> g_log_mutex w = Some i ->
  exists w', log_step (Step i false) w = Ret (Some w').
Proof.
  intros Hok Hm. destruct (lo_there _ _ Hok i Hm) as [p Ei]. assert (Hp : inside p = true) by (by apply (lo_owner _ _ Hok i p)).
  destruct (log_step_ok file (Step i false) w Hok) as (r & E & _). exists (default w r). rewrite E.
  cbn [log_step] in E. rewrite Ei in E. destruct p; try discriminate Hp;
    try (peel E as f Ef; peel E as l' El); by injection E as <-.
Qed.

Definition log_file (opens : bool) (path : list Z) (d : gmap (list Z) (list Z)) : option (nat * list Z * list Z) :=
  if opens then Some (0%nat, path, default [] (d !! path)) else None.

Lemma log_start_ok d path opens n :
  log_ok (log_file opens path d) (log_start n (log_init path opens (no_log d)).2).
Proof.
  split.
  - intros j q [-> _]%lookup_replicate. done.
  - done.
  - by destruct opens.
  - destruct opens; cbn; [|done]. split; [done|]. exists (default [] (d !! path)), []. by rewrite !lookup_insert_eq.
Qed.

(** C37: Log lines are whole.  However many threads log at the same time and however the
    buffer of the file spills, no step is undefined; whenever the mutex is free the
    console shows exactly the lines of the calls that have returned, one after the
    other, and the log file has the same lines behind what was in it before, none of
    them held back in the buffer; and the owner of the mutex can always go on, so that
    it becomes free. *)
Theorem log_lines_whole d path opens n evs :
  exists w, log_run evs (log_start n (log_init path opens (no_log d)).2) = Ret w /\
    (g_log_mutex w = None ->
      console (lg w) = concat (line <$> finished w) /\
      (opens = true -> disk (lg w) !! path = Some (default [] (d !! path) ++ concat (line <$> finished w)))) /\
    forall i, g_log_mutex w = Some i -> exists w', log_step (Step i false) w = Ret (Some w').
Proof.
  destruct (log_run_ok _ evs _ (log_start_ok d path opens n)) as (w & E & Hok). exists w. split; [done|].
  split; [|intros i; by apply (owner_steps _ w i Hok)]. intros Hm.
  pose proof (lo_console _ _ Hok) as Hc. pose proof (lo_file _ _ Hok) as Hf. rewrite (outside_none _ _ Hok Hm) in Hc, Hf.
  rewrite app_nil_r in Hc. split; [done|]. intros ->. destruct Hf as (_ & f & b & _ & Ed & Edb & Hb).
  rewrite (Hb eq_refl), !app_nil_r in Edb. by rewrite Ed, Edb.
Qed.

Lemma fflush_file f l l' : fflush f l = Ret l' -> g_log_file l' = g_log_file l.
Proof. unfold fflush. intros E. peel E as st Es. by injection E as <-. Qed.

Lemma fprintf_file spill f bs l l' : fprintf spill f bs l = Ret l' -> g_log_file l' = g_log_file l.
Proof. unfold fprintf. intros E. peel E as st Es. destruct spill; [by apply fflush_file in E|by injection E as <-]. Qed.

#[local] Ltac next_part :=
  cbn [mbind outcome_bind from_option id threads lg g_log_mutex finished];
  repeat (rewrite list_lookup_insert_eq by (rewrite ?length_insert; done);
    cbn [mbind outcome_bind from_option id threads lg g_log_mutex finished]; rewrite ?list_insert_insert_eq).

(** Alone, the steps of a thread are [log_message]. *)
Theorem message_alone spills e w i l' :
  threads w !! i = Some Outside -> g_log_mutex w = None -> log_message spills e (lg w) = Ret l' ->
  log_run (Call i e :: ((Step i) <$> [false; false; false; false; false; spills.1.1; spills.1.2; spills.2; false; false])) w =
    Ret (World l' None (threads w) (finished w ++ [e])).
Proof.
  intros Ei Hm. destruct w as [l m ts fin], spills as [[a b] c]. cbn [lg threads g_log_mutex] in *. subst m.
  assert (Hi : (i < length ts)%nat) by (by eapply lookup_lt_Some).
  assert (Hlast : <[i := Outside]> ts = ts) by (by apply list_insert_id).
  unfold log_message. set (l1 := fprintf_stderr [10] _). cbn [fst snd fmap list_fmap log_run log_step threads lg]. rewrite Ei.
  cbn [mbind outcome_bind from_option id]. unfold enter. cbn [threads lg g_log_mutex finished].
  next_part.
  fold l1. destruct (g_log_file l1) as [f|] eqn:Eg.
  - intros E. peel E as l2 E2. peel E as l3 E3. peel E as l4 E4. next_part.
    cbn [deref mbind outcome_bind]. rewrite E2. next_part. apply fprintf_file in E2. rewrite E2, Eg.
    cbn [deref mbind outcome_bind]. rewrite E3. next_part. apply fprintf_file in E3. rewrite E3, E2, Eg.
    cbn [deref mbind outcome_bind]. rewrite E4. next_part. apply fprintf_file in E4. rewrite E4, E3, E2, Eg.
    cbn [deref mbind outcome_bind]. rewrite E. next_part. by rewrite Hlast.
  - intros [= <-]. next_part. by rewrite Hlast.
Qed.

(** ** A closed log *)

(** [log_close] leaves [g_log_file] as it is: the next message and the next
    [log_close] use a stream that is gone, and [log_init] reports success without
    opening a file. *)
Theorem closed_log_used d path e spills l :
  log_close (log_init path true (no_log d)).2 = Ret l ->
  log_message spills e l = Undef /\ log_close l = Undef /\ forall path' opens, log_init path' opens l = (0, l).
Proof.
  intros E. cbn in E. unfold fclose in E. peel E as l1 E1. injection E as <-. unfold fflush in E1. peel E1 as st Es. injection E1 as <-.
  destruct spills as [[a b] c]. split_and!; [|done|done].
  - unfold log_message, fprintf, log_close, fclose, fflush. cbn. by rewrite lookup_delete_eq.
Qed.
End Logger.
