(* ===== verification/Crc.v ===== *)
(** * CRC-32 of the gateway protocol (gateway/src/crc.c)

    The file-scope table and its ready flag are the state [crc_state];
    [build_table] and [crc_calculate_st] are the two functions of the file.
    [crc_calculate] is the pure function every caller sees once the lazy
    initialisation is shown unobservable.  The lemmas establish the linear
    algebra of one byte step ([byte_step] is additive and has trivial kernel)
    and the theorems the agreement with the bitwise definition of CRC-32 and
    the detection of bursts of up to four bytes. *)
From S2P Require Import Prelude.
Open Scope c_scope.

Module Crc.

Record crc_state := CrcState { crc_table : list Z; table_rd : Z }.

(** The program's load-time state: a zeroed static table, flag clear. *)
Definition crc_initial : crc_state := CrcState (replicate 256 0) 0.

Definition CRC_POLY : Z := 0xEDB88320.

(** One iteration of the inner loop of [build_table]. *)
Definition table_step (c : Z) : Z :=
  if negb (c .& 1 =? 0) then CRC_POLY .^ (c ≫ 1) else c ≫ 1.

Definition table_entry (i : Z) : Z := Nat.iter 8 table_step i.

Definition build_table : crc_state :=
  CrcState (table_entry <$> seqZ 0 256) 1.

(** [crc_table[k]]; [k] is masked with [0xFF] at the only use. *)
Definition table_get (t : list Z) (k : Z) : Z := default 0 (t !! Z.to_nat k).

Definition crc_loop (t : list Z) : Z -> list Z -> Z :=
  foldl (fun crc d => table_get t ((crc .^ d) .& 0xFF) .^ (crc ≫ 8)).

Definition crc_calculate_st (st : crc_state) (data : list Z) : Z * crc_state :=
  let st := if negb (table_rd st =? 1) then build_table else st in
  (crc_loop (crc_table st) 0xFFFFFFFF data .^ 0xFFFFFFFF, st).

(** What callers observe (see [crc_state_unobservable]). *)
Definition crc_calculate (data : list Z) : Z :=
  crc_loop (crc_table build_table) 0xFFFFFFFF data .^ 0xFFFFFFFF.

(** The table is only ever the zeroed one with the flag clear, or complete. *)
Definition crc_ok (st : crc_state) : Prop :=
  table_rd st = 1 -> crc_table st = crc_table build_table.

(** ** Reference definition: the shift register fed bit by bit

    The message is a sequence of bits, least significant bit of each byte
    first; the register is shifted once per bit and the polynomial is added
    when the bit leaving the register differs from the message bit. *)
Definition bits_of_byte (b : Z) : list bool := Z.testbit b <$> seqZ 0 8.

Definition lfsr_bit (reg : Z) (bit : bool) : Z :=
  let reg' := reg ≫ 1 in
  if xorb (Z.testbit reg 0) bit then CRC_POLY .^ reg' else reg'.

Definition crc32_ref (data : list Z) : Z :=
  foldl lfsr_bit 0xFFFFFFFF (data ≫= bits_of_byte) .^ 0xFFFFFFFF.

(** The effect of one data byte on the register, [crc ^ d] given. *)
Definition byte_step (x : Z) : Z := table_entry (x .& 0xFF) .^ (x ≫ 8).

(** One data byte, as [byte_step] of the register with the byte added. *)
Definition crc_update (c d : Z) : Z := byte_step (c .^ d).

(** A program run: successive calls from any point of the program. *)
Fixpoint crc_run (st : crc_state) (calls : list (list Z)) : list Z * crc_state :=
  match calls with
  | [] => ([], st)
  | data :: calls =>
      let '(r, st) := crc_calculate_st st data in
      let '(rs, st) := crc_run st calls in (r :: rs, st)
  end.

(** ** Algebra of one step *)

Lemma table_get_built k : 0 <= k < 256 -> table_get (crc_table build_table) k = table_entry k.
Proof.
  intros Hk. unfold table_get, build_table. cbn [crc_table].
  rewrite list_lookup_fmap, lookup_seqZ_lt by lia.
  cbn [fmap option_fmap option_map default from_option]. unfold id. f_equal. lia.
Qed.

Lemma byte_shiftr_8 b : is_byte b -> b ≫ 8 = 0.
Proof. intros Hb. rewrite Z.shiftr_div_pow2 by lia. apply Z.div_small. exact Hb. Qed.

Lemma crc_loop_built data c :
  bytes data -> crc_loop (crc_table build_table) c data = foldl crc_update c data.
Proof.
  intros Hd. revert c. induction Hd as [|d data Hb Hd IH]; intros c; [done|].
  unfold crc_loop in *. cbn [foldl]. rewrite IH. f_equal.
  rewrite table_get_built by apply land_255_byte. unfold crc_update, byte_step.
  by rewrite Z.shiftr_lxor, (byte_shiftr_8 d), Z.lxor_0_r.
Qed.

Lemma table_step_bit c :
  table_step c = (if Z.testbit c 0 then CRC_POLY else 0) .^ (c ≫ 1).
Proof.
  unfold table_step. change 1 with (Z.ones 1) at 1.
  rewrite Z.land_ones, Z.bit0_odd, Zodd_mod by lia. change (2 ^ 1) with 2.
  pose proof (Z.mod_pos_bound c 2 ltac:(lia)) as Hm.
  assert (c mod 2 = 0 \/ c mod 2 = 1) as [-> | ->] by lia; cbn.
  - done.
  - done.
Qed.

Lemma table_step_lxor x y : table_step (x .^ y) = table_step x .^ table_step y.
Proof.
  rewrite !table_step_bit, Z.lxor_spec, Z.shiftr_lxor.
  destruct (Z.testbit x 0), (Z.testbit y 0); cbn [xorb];
    rewrite ?Z.lxor_0_l; bitwise i Hi;
    by destruct (Z.testbit CRC_POLY i), (Z.testbit x _), (Z.testbit y _).
Qed.

Lemma table_step_iter_lxor n x y :
  Nat.iter n table_step (x .^ y) = Nat.iter n table_step x .^ Nat.iter n table_step y.
Proof. induction n as [|n IH]; [done|]. by rewrite !Nat.iter_succ, IH, table_step_lxor. Qed.

Lemma table_step_double y : table_step (y ≪ 1) = y.
Proof.
  rewrite table_step_bit, Z.shiftl_spec, Z.testbit_neg_r, Z.lxor_0_l by lia.
  rewrite Z.shiftr_shiftl_l by lia. apply Z.shiftl_0_r.
Qed.

Lemma table_step_iter_shiftl n y : Nat.iter n table_step (y ≪ Z.of_nat n) = y.
Proof.
  induction n as [|n IH]; [apply Z.shiftl_0_r|].
  rewrite Nat.iter_succ_r, Nat2Z.inj_succ, <- Z.add_1_r, <- Z.shiftl_shiftl by lia.
  by rewrite table_step_double.
Qed.

Lemma split_low_byte x : x = (x .& 0xFF) .^ ((x ≫ 8) ≪ 8).
Proof.
  bitwise i Hi. rewrite Z.shiftl_spec by lia. change 0xFF with (Z.ones 8).
  destruct (Z.ltb_spec i 8).
  - by rewrite Z.ones_spec_low, (Z.testbit_neg_r _ (i - 8)), andb_true_r, xorb_false_r by lia.
  - rewrite Z.ones_spec_high, Z.shiftr_spec, andb_false_r by lia. cbn. f_equal. lia.
Qed.

(** The table lookup is eight shifts of the register at once. *)
Lemma byte_step_iter x : byte_step x = Nat.iter 8 table_step x.
Proof.
  rewrite (split_low_byte x) at 2. rewrite table_step_iter_lxor.
  unfold byte_step, table_entry. f_equal. symmetry. apply (table_step_iter_shiftl 8).
Qed.

Lemma byte_step_lxor x y : byte_step (x .^ y) = byte_step x .^ byte_step y.
Proof. rewrite !byte_step_iter. apply table_step_iter_lxor. Qed.

Lemma lfsr_bit_step reg b : lfsr_bit reg b = table_step (reg .^ Z.b2z b).
Proof.
  rewrite table_step_bit, Z.lxor_spec, Z.shiftr_lxor. unfold lfsr_bit.
  rewrite Z.b2z_bit0. replace (Z.b2z b ≫ 1) with 0 by (by destruct b).
  rewrite Z.lxor_0_r. by destruct (xorb _ _).
Qed.

Lemma low_bits_succ b k n :
  0 <= k -> wrap (Z.of_nat (S n)) (b ≫ k)
  = Z.b2z (Z.testbit b k) .^ (wrap (Z.of_nat n) (b ≫ Z.succ k) ≪ 1).
Proof.
  intros Hk. bitwise i Hi. rewrite Z.shiftl_spec, wrap_spec, Z.shiftr_spec by lia.
  destruct (decide (i = 0)) as [->|Hi0].
  - rewrite Z.b2z_bit0, (Z.testbit_neg_r _ (0 - 1)), xorb_false_r by lia.
    destruct (Z.ltb_spec 0 (Z.of_nat (S n))); [|lia]. by f_equal.
  - rewrite wrap_spec, Z.shiftr_spec by lia.
    rewrite (testbit_high 1 (Z.b2z _)) by (destruct (Z.testbit b k); cbn; lia).
    rewrite xorb_false_l. f_equal; [|f_equal; lia].
    destruct (Z.ltb_spec i (Z.of_nat (S n))), (Z.ltb_spec (i - 1) (Z.of_nat n)); lia.
Qed.

Lemma lfsr_bits n b k c :
  0 <= k -> foldl lfsr_bit c (Z.testbit b <$> seqZ k (Z.of_nat n))
  = Nat.iter n table_step (c .^ wrap (Z.of_nat n) (b ≫ k)).
Proof.
  revert k c. induction n as [|n IH]; intros k c Hk.
  - cbn. unfold wrap. by rewrite Z.mod_1_r, Z.lxor_0_r.
  - rewrite seqZ_cons by lia. cbn [fmap list_fmap foldl].
    replace (Z.pred (Z.of_nat (S n))) with (Z.of_nat n) by lia.
    rewrite IH, Nat.iter_succ_r, lfsr_bit_step, low_bits_succ by lia.
    by rewrite <- Z.lxor_assoc, (table_step_lxor (_ .^ _) (_ ≪ 1)), table_step_double.
Qed.

Lemma lfsr_byte c b : is_byte b -> foldl lfsr_bit c (bits_of_byte b) = crc_update c b.
Proof.
  intros Hb. unfold bits_of_byte, crc_update. rewrite byte_step_iter.
  pose proof (lfsr_bits 8 b 0 c ltac:(lia)) as Hl. change (Z.of_nat 8) with 8 in Hl.
  by rewrite Hl, Z.shiftr_0_r, wrap_small by exact Hb.
Qed.

(** ** Range and kernel of a byte step *)

Lemma table_step_range c : 0 <= c < 2 ^ 32 -> 0 <= table_step c < 2 ^ 32.
Proof.
  intros Hc. rewrite table_step_bit.
  apply lxor_in_u; [lia| |by apply shiftr_in_u].
  destruct (Z.testbit c 0); unfold CRC_POLY; lia.
Qed.

Lemma byte_step_range c : 0 <= c < 2 ^ 32 -> 0 <= byte_step c < 2 ^ 32.
Proof.
  intros Hc. rewrite byte_step_iter.
  generalize 8%nat. intros n. induction n as [|n IH]; [done|].
  rewrite Nat.iter_succ. by apply table_step_range.
Qed.

Lemma is_byte_u32 b : is_byte b -> 0 <= b < 2 ^ 32.
Proof. unfold is_byte. lia. Qed.

Lemma crc_update_range c d : 0 <= c < 2 ^ 32 -> is_byte d -> 0 <= crc_update c d < 2 ^ 32.
Proof.
  intros Hc Hd. apply byte_step_range, lxor_in_u; [lia|done|by apply is_byte_u32].
Qed.

Lemma crc_fold_range data c :
  bytes data -> 0 <= c < 2 ^ 32 -> 0 <= foldl crc_update c data < 2 ^ 32.
Proof.
  intros Hd. revert c. induction Hd as [|d data Hb Hd IH]; intros c Hc; [done|].
  cbn. by apply IH, crc_update_range.
Qed.

Lemma table_entry_top_byte i : is_byte i -> table_entry i < 2 ^ 24 -> i = 0.
Proof.
  intros Hi Ht.
  assert (forallb (fun i => (i =? 0) || (2 ^ 24 <=? table_entry i))%bool (seqZ 0 256) = true)
    as Hall by (vm_compute; reflexivity).
  rewrite forallb_forall in Hall. specialize (Hall i).
  destruct (orb_prop _ _ (Hall ltac:(apply list_elem_of_In, elem_of_seqZ; unfold is_byte in *; lia)));
    bool_prop; [done|lia].
Qed.

(** A result below [2^(8k)], [k <= 3], comes from a shift alone. *)
Lemma byte_step_small x k :
  0 <= x < 2 ^ 32 -> 0 <= k <= 24 -> byte_step x < 2 ^ k -> x = byte_step x ≪ 8.
Proof.
  intros Hx Hk Hs.
  assert (x .& 0xFF = 0) as H0.
  { apply table_entry_top_byte; [apply land_255_byte|].
    assert (0 <= x ≫ 8 < 2 ^ 24) as Hsh.
    { rewrite Z.shiftr_div_pow2 by lia. split; [apply Z.div_pos; lia|].
      apply Z.div_lt_upper_bound; lia. }
    replace (table_entry (x .& 0xFF)) with (byte_step x .^ (x ≫ 8)).
    - apply lxor_in_u; [lia| |done].
      pose proof (byte_step_range x Hx). pose proof (Z.pow_le_mono_r 2 k 24). lia.
    - unfold byte_step. bitwise i Hi. by destruct (Z.testbit _ i), (Z.testbit x _). }
  assert (byte_step x = x ≫ 8) as -> by (unfold byte_step; by rewrite H0).
  rewrite (split_low_byte x) at 1. by rewrite H0, Z.lxor_0_l.
Qed.

Lemma byte_step_kernel x : 0 <= x < 2 ^ 32 -> byte_step x = 0 -> x = 0.
Proof. intros Hx H0. rewrite (byte_step_small x 0), H0; [done|done|lia|lia]. Qed.

Lemma byte_step_inj x y :
  0 <= x < 2 ^ 32 -> 0 <= y < 2 ^ 32 -> byte_step x = byte_step y -> x = y.
Proof.
  intros Hx Hy He. apply Z.lxor_eq, byte_step_kernel; [by apply lxor_in_u|].
  by rewrite byte_step_lxor, He, Z.lxor_nilpotent.
Qed.

(** ** Propagation of differences *)

(** The difference of two registers fed with data that differ by [es]. *)
Lemma crc_fold_diff w1 w2 c1 c2 :
  length w1 = length w2 ->
  foldl crc_update c1 w1 .^ foldl crc_update c2 w2
  = foldl crc_update (c1 .^ c2) (zip_with Z.lxor w1 w2).
Proof.
  revert w2 c1 c2. induction w1 as [|d1 w1 IH]; intros [|d2 w2] c1 c2 Hl; try done.
  cbn. rewrite IH by (cbn in Hl; lia). f_equal. unfold crc_update.
  rewrite <- byte_step_lxor. f_equal. bitwise i Hi.
  by destruct (Z.testbit c1 i), (Z.testbit c2 i), (Z.testbit d1 i), (Z.testbit d2 i).
Qed.

(** Equal data keep different registers different. *)
Lemma crc_fold_inj s c1 c2 :
  bytes s -> 0 <= c1 < 2 ^ 32 -> 0 <= c2 < 2 ^ 32 ->
  foldl crc_update c1 s = foldl crc_update c2 s -> c1 = c2.
Proof.
  intros Hs. revert c1 c2. induction Hs as [|d s Hd Hs IH]; intros c1 c2 H1 H2 He; [done|].
  cbn in He. apply IH in He; [|by apply crc_update_range..].
  apply byte_step_inj in He; [|apply lxor_in_u; auto using is_byte_u32; lia..].
  apply (f_equal (fun x => x .^ d)) in He.
  by rewrite !Z.lxor_assoc, Z.lxor_nilpotent, !Z.lxor_0_r in He.
Qed.

(** A difference that vanishes after [m <= 4] bytes was below [2^(8m)]. *)
Lemma crc_fold_vanish es d :
  bytes es -> Z.of_nat (length es) <= 4 -> 0 <= d < 2 ^ 32 ->
  foldl crc_update d es = 0 -> d < 2 ^ (8 * Z.of_nat (length es)).
Proof.
  intros Hb. revert d. induction Hb as [|e es He Hb IH]; intros d Hl Hd H0; [cbn in *; lia|].
  cbn [foldl length] in *. set (m := Z.of_nat (length es)) in *.
  assert (0 <= d .^ e < 2 ^ 32) as Hx by (apply lxor_in_u; auto using is_byte_u32; lia).
  apply IH in H0; [|lia|by apply crc_update_range]. fold m in H0.
  unfold crc_update in H0. pose proof (byte_step_range _ Hx) as Hr.
  pose proof (byte_step_small _ (8 * m) Hx ltac:(lia) H0) as Hshift.
  assert (0 <= d .^ e < 2 ^ (8 * Z.of_nat (S (length es)))) as Hde.
  { rewrite Hshift, Z.shiftl_mul_pow2 by lia.
    replace (8 * Z.of_nat (S (length es))) with (8 * m + 8) by lia.
    rewrite Z.pow_add_r by lia. nia. }
  replace d with ((d .^ e) .^ e)
    by (by rewrite Z.lxor_assoc, Z.lxor_nilpotent, Z.lxor_0_r).
  apply lxor_in_u; [lia|exact Hde|]. unfold is_byte in He.
  pose proof (Z.pow_le_mono_r 2 8 (8 * Z.of_nat (S (length es)))). lia.
Qed.

(** No non-zero difference of at most four bytes is absorbed. *)
Lemma crc_fold_burst es :
  bytes es -> Z.of_nat (length es) <= 4 -> foldl crc_update 0 es = 0 -> Forall (eq 0) es.
Proof.
  intros Hb. induction Hb as [|e es He Hb IH]; intros Hl H0; [done|].
  cbn [foldl length] in *. unfold crc_update at 2 in H0. rewrite Z.lxor_0_l in H0.
  pose proof (is_byte_u32 e He) as Hu. pose proof (byte_step_range e Hu) as Hr.
  pose proof (crc_fold_vanish es _ Hb ltac:(lia) Hr H0) as Hv.
  pose proof (byte_step_small e (8 * Z.of_nat (length es)) Hu ltac:(lia) Hv) as Hs.
  assert (e = 0) as ->.
  { rewrite Z.shiftl_mul_pow2 in Hs by lia. unfold is_byte in He. lia. }
  constructor; [done|]. apply IH; [lia|]. by change (byte_step 0) with 0 in H0.
Qed.

Lemma bytes_zip_lxor w1 w2 : bytes w1 -> bytes w2 -> bytes (zip_with Z.lxor w1 w2).
Proof.
  intros H1. revert w2. induction H1 as [|d w1 Hd H1 IH]; intros w2 H2; [constructor|].
  destruct H2 as [|d2 w2 Hd2 H2]; constructor; [|by apply IH].
  by apply (lxor_in_u 8); [lia| |].
Qed.

Lemma lxor_zeros_eq w1 w2 :
  length w1 = length w2 -> Forall (eq 0) (zip_with Z.lxor w1 w2) -> w1 = w2.
Proof.
  revert w2. induction w1 as [|d w1 IH]; intros [|d2 w2] Hl Hz; try done.
  cbn in Hz. inversion Hz as [|? ? H0 Hz']. subst. f_equal.
  - by apply Z.lxor_eq.
  - apply IH; [cbn in Hl; lia|done].
Qed.

Lemma crc_calculate_fold data :
  bytes data -> crc_calculate data = foldl crc_update 0xFFFFFFFF data .^ 0xFFFFFFFF.
Proof. intros Hd. unfold crc_calculate. by rewrite crc_loop_built. Qed.

Lemma crc_calculate_range data : bytes data -> 0 <= crc_calculate data < 2 ^ 32.
Proof.
  intros Hd. rewrite crc_calculate_fold by done.
  apply lxor_in_u; [lia|apply crc_fold_range; [done|lia]|lia].
Qed.

Lemma crc_calculate_st_ok st data :
  crc_ok st ->
  (crc_calculate_st st data).1 = crc_calculate data /\ crc_ok (crc_calculate_st st data).2.
Proof.
  unfold crc_ok, crc_calculate_st, crc_calculate. intros Hok.
  destruct (Z.eqb_spec (table_rd st) 1) as [E|E]; cbn [negb fst snd]; [|done].
  by rewrite Hok.
Qed.

Lemma crc_run_ok st calls :
  crc_ok st -> (crc_run st calls).1 = crc_calculate <$> calls.
Proof.
  revert st. induction calls as [|data calls IH]; intros st Hok; [done|].
  destruct (crc_calculate_st_ok st data Hok) as [Hr Hst].
  rewrite fmap_cons. cbn [crc_run].
  destruct (crc_calculate_st st data) as [r st']. cbn [fst snd] in Hr, Hst.
  specialize (IH st' Hst). destruct (crc_run st' calls). cbn [fst] in *. congruence.
Qed.

(** The lazily built file-scope table is unobservable: from program start,
    any sequence of calls of [crc_calculate] returns, call by call, the pure
    CRC of its argument, whichever call built the table. *)
Theorem crc_state_unobservable (calls : list (list Z)) :
  (crc_run crc_initial calls).1 = crc_calculate <$> calls.
Proof. apply crc_run_ok. intros H. discriminate H. Qed.

(** C36: the table-driven [crc_calculate] computes CRC-32 as defined by the
    shift register that consumes the message one bit at a time, on every byte
    string. *)
Theorem crc_calculate_is_crc32 (data : list Z) :
  bytes data -> crc_calculate data = crc32_ref data.
Proof.
  intros Hd. rewrite crc_calculate_fold by done. unfold crc32_ref. f_equal.
  generalize 0xFFFFFFFF. induction Hd as [|d data Hb Hd IH]; intros c; [done|].
  cbn [foldl mbind list_bind]. by rewrite foldl_app, lfsr_byte, IH.
Qed.

(** The published check value of CRC-32: the nine digits 1 to 9. *)
Lemma crc_calculate_is_crc32_witness :
  bytes [49; 50; 51; 52; 53; 54; 55; 56; 57]
  /\ crc_calculate [49; 50; 51; 52; 53; 54; 55; 56; 57] = 0xCBF43926
  /\ crc_calculate [49; 50; 51; 52; 53; 54; 55; 56; 57]
     = crc32_ref [49; 50; 51; 52; 53; 54; 55; 56; 57].
Proof.
  assert (bytes [49; 50; 51; 52; 53; 54; 55; 56; 57]) as H by (by apply (bool_decide_unpack _)).
  split; [exact H|]. split; [vm_compute; reflexivity|].
  exact (crc_calculate_is_crc32 _ H).
Defined.

Lemma crc_burst_ne (p w1 w2 s : list Z) :
  bytes (p ++ w1 ++ s) -> bytes w2 -> length w1 = length w2 ->
  Z.of_nat (length w1) <= 4 -> w1 <> w2 ->
  crc_calculate (p ++ w1 ++ s) <> crc_calculate (p ++ w2 ++ s).
Proof.
  intros Hb Hw2 Hl H4 Hne Heq. unfold bytes in Hb. rewrite !Forall_app in Hb.
  destruct Hb as (Hp & Hw1 & Hs). apply Hne.
  rewrite !crc_calculate_fold in Heq by (unfold bytes; rewrite !Forall_app; done).
  apply (f_equal (fun x => x .^ 0xFFFFFFFF)) in Heq.
  rewrite !Z.lxor_assoc, Z.lxor_nilpotent, !Z.lxor_0_r, !foldl_app in Heq.
  set (c := foldl crc_update 0xFFFFFFFF p) in Heq.
  assert (0 <= c < 2 ^ 32) as Hc by (apply crc_fold_range; [done|lia]).
  apply crc_fold_inj in Heq; [|done|by apply crc_fold_range..].
  apply lxor_zeros_eq; [done|]. apply crc_fold_burst.
  - by apply bytes_zip_lxor.
  - rewrite length_zip_with. lia.
  - pose proof (crc_fold_diff w1 w2 c c Hl) as Hd. by rewrite Heq, !Z.lxor_nilpotent in Hd.
Qed.

(** Error detection: two messages of equal length that differ only inside
    a window of at most four consecutive bytes have different CRCs, so the
    receiver's comparison rejects every such corruption of a payload. *)
Theorem crc_detects_bursts (p w1 w2 s : list Z) :
  bytes (p ++ w1 ++ s) -> bytes w2 -> length w1 = length w2 ->
  Z.of_nat (length w1) <= 4 -> w1 <> w2 ->
  crc_calculate (p ++ w1 ++ s) <> crc_calculate (p ++ w2 ++ s).
Proof. apply crc_burst_ne. Qed.

Lemma crc_detects_bursts_witness :
  crc_calculate ([7] ++ [1; 2; 3; 4] ++ [9]) <> crc_calculate ([7] ++ [1; 2; 131; 5] ++ [9]).
Proof.
  apply (crc_detects_bursts [7] [1; 2; 3; 4] [1; 2; 131; 5] [9]);
    [by apply (bool_decide_unpack _)|by apply (bool_decide_unpack _)|done|cbn; lia|done].
Defined.

End Crc.
