(* ===== verification/Protocol.v ===== *)
(** * Wire format of the gateway (gateway/src/protocol_message.c)

    Network byte order encoders and decoders, the frame encoder and the error
    packet builder.  Pointers are [option (list Z)] with [None] for NULL; all
    stores go through the checked [write_at].  [frame] is the byte-exact
    layout the encoder is proved to produce. *)
From S2P Require Import Prelude Crc.
Open Scope c_scope.

Module Protocol.

Definition PROTOCOL_MAGIC : Z := 0xFFAABBCC.
Definition PROTOCOL_VERSION : Z := 1.
Definition CRC_SIZE : Z := 4.
Definition HEADER_SIZE : Z := 16.
Definition MAX_PAYLOAD : Z := 4096.
Definition RX_BUF_CAP : Z := 8192.

Inductive read_stage := READ_HEADER | READ_PAYLOAD | READ_CRC.

Record header_packet := HeaderPacket {
  magic : Z; version : Z; h_type : Z; h_length : Z; h_request_id : Z }.

Inductive err_code :=
| ERR_UNKNOWN_TYPE | ERR_BAD_MAGIC | ERR_BAD_VERSION | ERR_PAYLOAD_TOO_LARGE
| ERR_CRC_MISMATCH | ERR_RATE_LIMIT | ERR_SERVER_BUSY | ERR_SERVER_FULL
| ERR_TIMEOUT | ERR_BAD_JSON.

Definition err_code_val (e : err_code) : Z :=
  match e with
  | ERR_UNKNOWN_TYPE => 1 | ERR_BAD_MAGIC => 2 | ERR_BAD_VERSION => 3
  | ERR_PAYLOAD_TOO_LARGE => 4 | ERR_CRC_MISMATCH => 5 | ERR_RATE_LIMIT => 6
  | ERR_SERVER_BUSY => 7 | ERR_SERVER_FULL => 8 | ERR_TIMEOUT => 9
  | ERR_BAD_JSON => 10
  end.

Definition MSG_ECHO : Z := 1.
Definition MSG_STATUS : Z := 2.
Definition MSG_SET_DEVICE : Z := 3.
Definition MSG_GET_SENSOR : Z := 4.
Definition MSG_SET_ACTUATOR : Z := 0x10.
Definition MSG_GET_ACTUATOR : Z := 0x11.
Definition MSG_READ_SENSOR_ALL : Z := 0x20.
Definition MSG_RESPONSE : Z := 0x8001.
Definition MSG_ERROR : Z := 0x8002.

#[export] Instance read_stage_eq_dec : EqDecision read_stage.
Proof. solve_decision. Defined.
#[export] Instance err_code_eq_dec : EqDecision err_code.
Proof. solve_decision. Defined.

(** [encode_16_bit(buffer + off, v)]: a NULL buffer is logged and ignored. *)
Definition encode_16_bit (buffer : option (list Z)) (off v : Z) : outcome (option (list Z)) :=
  match buffer with
  | None => Ret None
  | Some b => b' ← write_at b off [u8 (v ≫ 8); v .& 0xFF]; Ret (Some b')
  end.

Definition encode_32_bit (buffer : option (list Z)) (off v : Z) : outcome (option (list Z)) :=
  match buffer with
  | None => Ret None
  | Some b =>
      b' ← write_at b off [u8 (v ≫ 24); u8 (v ≫ 16); u8 (v ≫ 8); u8 v]; Ret (Some b')
  end.

Definition decode_16_bit (buf : list Z) (off : Z) : outcome Z :=
  b0 ← byte_at buf off; b1 ← byte_at buf (off + 1);
  Ret (u16 (b0 ≪ 8) .| u16 b1).

(** The shifts are evaluated in [int] and converted to [uint32_t]. *)
Definition decode_32_bit (buf : list Z) (off : Z) : outcome Z :=
  b0 ← byte_at buf off; b1 ← byte_at buf (off + 1);
  b2 ← byte_at buf (off + 2); b3 ← byte_at buf (off + 3);
  Ret (u32 (b0 ≪ 24) .| u32 (b1 ≪ 16) .| u32 (b2 ≪ 8) .| u32 b3).

(** [memcpy(buffer + off, payload, length)] *)
Definition copy_from (payload : option (list Z)) (n : Z) : outcome (list Z) :=
  p ← deref payload; read_at p 0 n.

Definition packet_encode (buffer : option (list Z)) (size type request_id : Z)
    (payload : option (list Z)) (length : Z) : outcome (Z * option (list Z)) :=
  match buffer with
  | None => Ret (-1, None)
  | Some _ =>
      let total_len := u32 (length + HEADER_SIZE + CRC_SIZE) in
      if ((size <? total_len) || (MAX_PAYLOAD <? length))%bool then Ret (-1, buffer)
      else
        buffer ← encode_32_bit buffer 0 PROTOCOL_MAGIC;
        buffer ← encode_16_bit buffer 4 PROTOCOL_VERSION;
        buffer ← encode_16_bit buffer 6 type;
        buffer ← encode_32_bit buffer 8 length;
        buffer ← encode_32_bit buffer 12 request_id;
        buffer ← (if 0 <? length
                  then p ← copy_from payload length; b ← deref buffer;
                       b ← write_at b HEADER_SIZE p; Ret (Some b)
                  else Ret buffer);
        b ← deref buffer;
        body ← read_at b HEADER_SIZE length;
        buffer ← encode_32_bit buffer (HEADER_SIZE + length) (Crc.crc_calculate body);
        Ret (0, buffer)
  end.

(** [malloc] yields NULL or a block of unspecified bytes; the result is the
    packet (NULL on failure) and the value stored through [out_size]. *)
Definition build_error_packet (malloc : Z -> option (list Z)) (request_id err_code : Z)
    : outcome (option (list Z * Z)) :=
  let payload_len := 1 in
  let total_size := HEADER_SIZE + payload_len + CRC_SIZE in
  match malloc total_size with
  | None => Ret None
  | Some packet_buf =>
      '(ret, buf) ← packet_encode (Some packet_buf) total_size MSG_ERROR request_id
                      (Some [err_code]) payload_len;
      if ret <? 0 then Ret None
      else b ← deref buf; Ret (Some (b, total_size))
  end.

(** ** Layout *)

Definition be16 (v : Z) : list Z := [u8 (v ≫ 8); u8 v].
Definition be32 (v : Z) : list Z := [u8 (v ≫ 24); u8 (v ≫ 16); u8 (v ≫ 8); u8 v].

(** Any sixteen header bytes, by their fields. *)
Definition raw_header (mg v type len request_id : Z) : list Z :=
  be32 mg ++ be16 v ++ be16 type ++ be32 len ++ be32 request_id.

Definition frame_header (type request_id len : Z) : list Z :=
  raw_header PROTOCOL_MAGIC PROTOCOL_VERSION type len request_id.

(** The bytes of one message on the wire. *)
Definition frame (type request_id : Z) (payload : list Z) : list Z :=
  frame_header type request_id (zlen payload) ++ payload ++ be32 (Crc.crc_calculate payload).

(** ** Integers in network order *)

Lemma be16_bytes v : bytes (be16 v).
Proof. repeat constructor; apply u8_byte. Qed.

Lemma be32_bytes v : bytes (be32 v).
Proof. repeat constructor; apply u8_byte. Qed.

Lemma be16_len v : zlen (be16 v) = 2.
Proof. done. Qed.

Lemma be32_len v : zlen (be32 v) = 4.
Proof. done. Qed.

#[export] Hint Rewrite be16_len be32_len : buf.

Lemma encode_16_low v : v .& 0xFF = u8 v.
Proof. change 0xFF with (Z.ones 8). by rewrite Z.land_ones by lia. Qed.

(** Byte [k/8] of [v], put back in its place. *)
Lemma byte_slice_spec v k i :
  0 <= k -> 0 <= i ->
  Z.testbit (u8 (v ≫ k) ≪ k) i = ((k <=? i) && (i <? k + 8) && Z.testbit v i)%bool.
Proof.
  intros Hk Hi. rewrite Z.shiftl_spec by lia. destruct (Z.leb_spec k i); cbn.
  - rewrite wrap_spec, Z.shiftr_spec by lia.
    replace (i - k + k) with i by lia. f_equal.
    destruct (Z.ltb_spec (i - k) 8), (Z.ltb_spec i (k + 8)); lia.
  - by rewrite Z.testbit_neg_r by lia.
Qed.

Ltac decide_ranges :=
  repeat match goal with
  | |- context [?a <? ?b] => destruct (Z.ltb_spec a b); try lia
  | |- context [?a <=? ?b] => destruct (Z.leb_spec a b); try lia
  end; cbn [andb orb].

(** The bit equations behind the two round trips. *)
Lemma be16_combine v : u16 (u8 (v ≫ 8) ≪ 8) .| u16 (u8 v) = u16 v.
Proof.
  bitwise i Hi. rewrite !wrap_spec, byte_slice_spec by lia.
  decide_ranges; by destruct (Z.testbit v i).
Qed.

Lemma be32_combine v :
  u32 (u8 (v ≫ 24) ≪ 24) .| u32 (u8 (v ≫ 16) ≪ 16) .| u32 (u8 (v ≫ 8) ≪ 8) .| u32 (u8 v)
  = u32 v.
Proof.
  bitwise i Hi. rewrite !wrap_spec, !byte_slice_spec by lia.
  decide_ranges; by destruct (Z.testbit v i).
Qed.

Lemma decode_16_be16 pre v post off :
  off = zlen pre -> decode_16_bit (pre ++ be16 v ++ post) off = Ret (u16 v).
Proof.
  intros ->. unfold decode_16_bit.
  rewrite (byte_at_app pre _ 0 (zlen pre)), (byte_at_app pre _ 1 (zlen pre + 1)) by lia.
  rewrite <- be16_combine. reflexivity.
Qed.

Lemma decode_32_be32 pre v post off :
  off = zlen pre -> decode_32_bit (pre ++ be32 v ++ post) off = Ret (u32 v).
Proof.
  intros ->. unfold decode_32_bit.
  rewrite (byte_at_app pre _ 0 (zlen pre)), (byte_at_app pre _ 1 (zlen pre + 1)), (byte_at_app pre _ 2 (zlen pre + 2)),
    (byte_at_app pre _ 3 (zlen pre + 3)) by lia.
  rewrite <- be32_combine. reflexivity.
Qed.

(** The same, where the integer sits anywhere in a concatenation. *)
Lemma decode_32_segment v buf off pre post :
  0 <= v < 2 ^ 32 -> buf = pre ++ be32 v ++ post -> off = zlen pre ->
  decode_32_bit buf off = Ret v.
Proof. intros Hv -> ->. by rewrite decode_32_be32, wrap_small. Qed.

Lemma decode_16_segment v buf off pre post :
  0 <= v < 2 ^ 16 -> buf = pre ++ be16 v ++ post -> off = zlen pre ->
  decode_16_bit buf off = Ret v.
Proof. intros Hv -> ->. by rewrite decode_16_be16, wrap_small. Qed.

(** Decoded values are in range, and a decode inside the buffer succeeds. *)
Lemma decode_32_total buf off :
  0 <= off -> off + 4 <= zlen buf -> exists v, decode_32_bit buf off = Ret v /\ in_u 32 v.
Proof.
  intros H0 Hl. assert (forall k, 0 <= k < zlen buf -> exists b, byte_at buf k = Ret b) as Hb.
  { intros k Hk. unfold byte_at. destruct (Z.ltb_spec k 0); [lia|].
    destruct (lookup_lt_is_Some_2 buf (Z.to_nat k)) as [b ->]; [unfold zlen in *; lia|].
    by exists b. }
  unfold decode_32_bit.
  destruct (Hb off) as [b0 ->]; [lia|]. destruct (Hb (off + 1)) as [b1 ->]; [lia|].
  destruct (Hb (off + 2)) as [b2 ->]; [lia|]. destruct (Hb (off + 3)) as [b3 ->]; [lia|].
  cbn [mbind outcome_bind]. eexists. split; [reflexivity|]. unfold in_u.
  repeat apply lor_in_u; (lia || (apply wrap_range; lia)).
Qed.

Lemma decode_16_total buf off :
  0 <= off -> off + 2 <= zlen buf -> exists v, decode_16_bit buf off = Ret v /\ in_u 16 v.
Proof.
  intros H0 Hl. unfold decode_16_bit, byte_at.
  destruct (Z.ltb_spec off 0); [lia|]. destruct (Z.ltb_spec (off + 1) 0); [lia|].
  destruct (lookup_lt_is_Some_2 buf (Z.to_nat off)) as [b0 ->]; [unfold zlen in *; lia|].
  destruct (lookup_lt_is_Some_2 buf (Z.to_nat (off + 1))) as [b1 ->]; [unfold zlen in *; lia|].
  cbn [mbind outcome_bind deref]. eexists. split; [reflexivity|]. unfold in_u.
  apply lor_in_u; (lia || (apply wrap_range; lia)).
Qed.

(** A store behind the decoded bytes does not change them. *)
Lemma byte_at_write buf off bs buf' k :
  write_at buf off bs = Ret buf' -> k < off -> byte_at buf' k = byte_at buf k.
Proof.
  unfold write_at. destruct (Z.leb_spec 0 off); [|done].
  destruct (Z.leb_spec (off + zlen bs) (zlen buf)) as [Hl|]; [|done].
  intros [= <-] Hk. unfold byte_at. destruct (Z.ltb_spec k 0); [done|].
  pose proof (zlen_nonneg bs).
  rewrite lookup_app_l by (rewrite length_take; unfold zlen in *; lia).
  by rewrite lookup_take_lt by lia.
Qed.

Lemma decode_32_write buf off bs buf' k :
  write_at buf off bs = Ret buf' -> k + 4 <= off -> decode_32_bit buf' k = decode_32_bit buf k.
Proof.
  intros Hw Hk. unfold decode_32_bit. by rewrite !(byte_at_write buf off bs buf') by (done || lia).
Qed.

(** ** Stores of the encoder, as movements of a cursor *)

Lemma encode_16_cursor pre buf off v :
  off = zlen pre -> 2 <= zlen buf ->
  encode_16_bit (Some (pre ++ buf)) off v = Ret (Some ((pre ++ be16 v) ++ drop 2 buf)).
Proof.
  intros Ho Hl. unfold encode_16_bit. rewrite encode_16_low.
  rewrite write_at_cursor by (done || exact Hl). done.
Qed.

Lemma encode_32_cursor pre buf off v :
  off = zlen pre -> 4 <= zlen buf ->
  encode_32_bit (Some (pre ++ buf)) off v = Ret (Some ((pre ++ be32 v) ++ drop 4 buf)).
Proof.
  intros Ho Hl. unfold encode_32_bit.
  rewrite write_at_cursor by (done || exact Hl). done.
Qed.

Lemma copy_from_prefix p tail : copy_from (Some (p ++ tail)) (zlen p) = Ret p.
Proof. unfold copy_from. cbn. by apply (read_at_mid [] p tail). Qed.

Lemma frame_header_len t r n : zlen (frame_header t r n) = 16.
Proof. done. Qed.

Lemma frame_len t r p : zlen (frame t r p) = 20 + zlen p.
Proof. unfold frame. rewrite !zlen_app, frame_header_len, be32_len. lia. Qed.

#[export] Hint Rewrite frame_len frame_header_len : buf.

Lemma frame_header_bytes t r n : bytes (frame_header t r n).
Proof.
  unfold frame_header, raw_header. rewrite !bytes_app. auto using be16_bytes, be32_bytes.
Qed.

Lemma frame_bytes t r p : bytes p -> bytes (frame t r p).
Proof.
  intros Hp. unfold frame. rewrite !bytes_app. auto using frame_header_bytes, be32_bytes.
Qed.

(** The five header stores, before any continuation. *)
Lemma encode_header_cursor {A} (k : option (list Z) -> outcome A) b type rid len :
  20 <= zlen b ->
  (buffer ← encode_32_bit (Some b) 0 PROTOCOL_MAGIC;
   buffer ← encode_16_bit buffer 4 PROTOCOL_VERSION;
   buffer ← encode_16_bit buffer 6 type;
   buffer ← encode_32_bit buffer 8 len;
   buffer ← encode_32_bit buffer 12 rid; k buffer)
  = k (Some (frame_header type rid len ++ drop 16 b)).
Proof.
  intros Hl. change b with ([] ++ b) at 1.
  rewrite encode_32_cursor by (done || len). cbn [mbind outcome_bind].
  rewrite encode_16_cursor by (done || len). cbn [mbind outcome_bind].
  rewrite encode_16_cursor by (done || len). cbn [mbind outcome_bind].
  rewrite encode_32_cursor by (done || len). cbn [mbind outcome_bind].
  rewrite encode_32_cursor by (done || len). cbn [mbind outcome_bind].
  rewrite !drop_drop. unfold frame_header, raw_header. by rewrite <- !app_assoc.
Qed.

(** The payload copy, skipped for an empty payload. *)
Lemma encode_payload_cursor h rest p tail :
  zlen h = HEADER_SIZE -> zlen p <= zlen rest ->
  (if 0 <? zlen p
   then q ← copy_from (Some (p ++ tail)) (zlen p); b ← deref (Some (h ++ rest));
        b ← write_at b HEADER_SIZE q; Ret (Some b)
   else Ret (Some (h ++ rest)))
  = Ret (Some ((h ++ p) ++ drop (length p) rest)).
Proof.
  intros Hh Hp. destruct (Z.ltb_spec 0 (zlen p)).
  - rewrite copy_from_prefix. cbn [mbind outcome_bind deref].
    by rewrite write_at_cursor.
  - destruct p; [|len]. by rewrite app_nil_r.
Qed.

(** The fields of sixteen header bytes, whatever follows them. *)
Lemma raw_header_decode mg v type n rid post :
  in_u 32 mg -> in_u 16 v -> in_u 16 type -> in_u 32 n -> in_u 32 rid ->
  let buf := raw_header mg v type n rid ++ post in
  decode_32_bit buf 0 = Ret mg /\ decode_16_bit buf 4 = Ret v /\
  decode_16_bit buf 6 = Ret type /\ decode_32_bit buf 8 = Ret n /\
  decode_32_bit buf 12 = Ret rid.
Proof.
  unfold in_u. intros Hm Hv Ht Hn Hr. unfold raw_header. cbn zeta.
  set (H1 := be32 mg). set (H2 := be16 v).
  set (H3 := be16 type). set (H4 := be32 n). set (H5 := be32 rid).
  rewrite <- !app_assoc. split_and!.
  - by eapply (decode_32_segment _ _ _ []).
  - by eapply (decode_16_segment _ _ _ H1).
  - by eapply (decode_16_segment _ _ _ (H1 ++ H2)); [|rewrite <- !app_assoc|].
  - by eapply (decode_32_segment _ _ _ (H1 ++ H2 ++ H3)); [|rewrite <- !app_assoc|].
  - by eapply (decode_32_segment _ _ _ (H1 ++ H2 ++ H3 ++ H4)); [|rewrite <- !app_assoc|].
Qed.

Lemma header_decode type rid n post :
  in_u 16 type -> in_u 32 rid -> in_u 32 n ->
  let buf := frame_header type rid n ++ post in
  decode_32_bit buf 0 = Ret PROTOCOL_MAGIC /\
  decode_16_bit buf 4 = Ret PROTOCOL_VERSION /\
  decode_16_bit buf 6 = Ret type /\ decode_32_bit buf 8 = Ret n /\
  decode_32_bit buf 12 = Ret rid.
Proof. intros Ht Hr Hn. by apply raw_header_decode. Qed.

(** ** The encoder *)

Lemma packet_encode_frame_len b size type rid p tail :
  zlen p <= MAX_PAYLOAD -> zlen p + 20 <= size -> size <= zlen b ->
  packet_encode (Some b) size type rid (Some (p ++ tail)) (zlen p)
  = Ret (0, Some (frame type rid p ++ drop (20 + length p) b)).
Proof.
  unfold MAX_PAYLOAD. intros Hmax Hsize Hb. pose proof (zlen_nonneg p) as Hp0.
  assert (u32 (zlen p + HEADER_SIZE + CRC_SIZE) = zlen p + 20) as Hu.
  { rewrite wrap_small; unfold HEADER_SIZE, CRC_SIZE; lia. }
  unfold packet_encode. rewrite Hu. unfold MAX_PAYLOAD.
  destruct (Z.ltb_spec size (zlen p + 20)); [lia|].
  destruct (Z.ltb_spec 4096 (zlen p)); [lia|]. cbn [orb].
  rewrite encode_header_cursor by lia.
  rewrite encode_payload_cursor by (done || len). cbn [mbind outcome_bind deref].
  rewrite <- app_assoc, read_at_mid by done. cbn [mbind outcome_bind].
  rewrite app_assoc, encode_32_cursor by (unfold HEADER_SIZE; len). cbn [mbind outcome_bind].
  rewrite !drop_drop. unfold frame. rewrite <- !app_assoc.
  by replace (20 + length p)%nat with (16 + length p + 4)%nat by lia.
Qed.

(** A message that fits is encoded exactly as the wire layout: for every
    payload of at most 4096 bytes and a buffer with room for header, payload
    and CRC, [packet_encode] returns 0, the buffer starts with the frame and
    the bytes after it are untouched.  No store leaves the buffer. *)
Theorem packet_encode_frame b size type rid p tail :
  zlen p <= MAX_PAYLOAD -> zlen p + HEADER_SIZE + CRC_SIZE <= size -> size <= zlen b ->
  packet_encode (Some b) size type rid (Some (p ++ tail)) (zlen p)
  = Ret (0, Some (frame type rid p ++ drop (20 + length p) b)).
Proof. unfold HEADER_SIZE, CRC_SIZE. intros. apply packet_encode_frame_len; lia. Qed.

Lemma packet_encode_frame_witness :
  packet_encode (Some (replicate 30 0)) 26 MSG_ECHO 9 (Some [104; 105; 7]) (zlen [104; 105])
  = Ret (0, Some (frame MSG_ECHO 9 [104; 105] ++ replicate 8 0)).
Proof.
  apply (packet_encode_frame (replicate 30 0) 26 MSG_ECHO 9 [104; 105] [7]);
    vm_compute; discriminate.
Defined.

(** Whatever the 32-bit length, also where [length + 20] wraps around, the
    encoder refuses with -1 and leaves the buffer alone exactly when the payload
    exceeds 4096 bytes or the frame does not fit the announced size. *)
Theorem packet_encode_rejects b size type rid payload length :
  in_u 32 length ->
  MAX_PAYLOAD < length \/ size < length + HEADER_SIZE + CRC_SIZE ->
  packet_encode (Some b) size type rid payload length = Ret (-1, Some b).
Proof.
  unfold in_u, packet_encode, MAX_PAYLOAD, HEADER_SIZE, CRC_SIZE. intros Hu Hbad.
  destruct (Z.ltb_spec 4096 length); [by rewrite orb_true_r|].
  rewrite wrap_small by lia. destruct (Z.ltb_spec size (length + 16 + 4)); [done|lia].
Qed.

Lemma packet_encode_rejects_witness :
  packet_encode (Some [1; 2]) 2 MSG_ECHO 9 None (2 ^ 32 - 20) = Ret (-1, Some [1; 2]).
Proof.
  apply (packet_encode_rejects [1; 2] 2 MSG_ECHO 9 None (2 ^ 32 - 20));
    [by apply (bool_decide_unpack _)|left; reflexivity].
Defined.

Lemma build_error_packet_block malloc rid code :
  (forall blk, malloc 21 = Some blk -> zlen blk = 21) ->
  build_error_packet malloc rid code
  = Ret (if malloc 21 is Some _ then Some (frame MSG_ERROR rid [code], 21) else None).
Proof.
  intros Hm. unfold build_error_packet. cbn [HEADER_SIZE CRC_SIZE].
  change (HEADER_SIZE + 1 + CRC_SIZE) with 21.
  destruct (malloc 21) as [blk|] eqn:E; [|done]. specialize (Hm _ eq_refl).
  pose proof (packet_encode_frame_len blk 21 MSG_ERROR rid [code] []) as Hf.
  change (zlen [code]) with 1 in Hf. cbn [app] in Hf.
  rewrite Hf by (unfold MAX_PAYLOAD; lia). cbn [mbind outcome_bind deref].
  rewrite drop_ge by (unfold zlen in *; cbn; lia). by rewrite app_nil_r.
Qed.

(** The error packet is the 21-byte frame of type MSG_ERROR whose payload is
    the one-byte error code, for every block the allocator hands out; NULL is
    returned exactly when allocation fails. *)
Theorem build_error_packet_frame malloc rid code :
  (forall blk, malloc 21 = Some blk -> zlen blk = 21) ->
  build_error_packet malloc rid code
  = Ret (if malloc 21 is Some _ then Some (frame MSG_ERROR rid [code], 21) else None).
Proof. apply build_error_packet_block. Qed.

Lemma build_error_packet_frame_witness :
  build_error_packet (fun n => Some (replicate (Z.to_nat n) 170)) 77 5
  = Ret (Some (frame MSG_ERROR 77 [5], 21)).
Proof.
  apply (build_error_packet_frame (fun n => Some (replicate (Z.to_nat n) 170)) 77 5).
  intros blk [= <-]. reflexivity.
Defined.

(** Round trip of the header: decoding the fields of an encoded frame at the
    offsets the receivers use gives back magic, version, type, length, request
    id and, after the payload, the CRC of the payload, wherever the frame sits
    in a receive buffer. *)
Theorem frame_fields_decode pre type rid p post :
  in_u 16 type -> in_u 32 rid -> bytes p -> zlen p <= MAX_PAYLOAD ->
  let buf := pre ++ frame type rid p ++ post in
  let o := zlen pre in
  decode_32_bit buf o = Ret PROTOCOL_MAGIC /\
  decode_16_bit buf (o + 4) = Ret PROTOCOL_VERSION /\
  decode_16_bit buf (o + 6) = Ret type /\
  decode_32_bit buf (o + 8) = Ret (zlen p) /\
  decode_32_bit buf (o + 12) = Ret rid /\
  read_at buf (o + HEADER_SIZE) (zlen p) = Ret p /\
  decode_32_bit buf (o + HEADER_SIZE + zlen p) = Ret (Crc.crc_calculate p).
Proof.
  unfold in_u, MAX_PAYLOAD, HEADER_SIZE. intros Ht Hr Hp Hl.
  pose proof (zlen_nonneg p). pose proof (Crc.crc_calculate_range p Hp) as Hc.
  unfold frame, frame_header, raw_header. set (H1 := be32 PROTOCOL_MAGIC).
  set (H2 := be16 PROTOCOL_VERSION). set (H3 := be16 type). set (H4 := be32 (zlen p)).
  set (H5 := be32 rid). rewrite <- !app_assoc. split_and!.
  - by eapply (decode_32_segment _ _ _ pre).
  - eapply (decode_16_segment _ _ _ (pre ++ H1)); [done|by rewrite <- !app_assoc|subst H1; len].
  - eapply (decode_16_segment _ _ _ (pre ++ H1 ++ H2));
      [done|by rewrite <- !app_assoc|subst H1 H2; len].
  - eapply (decode_32_segment _ _ _ (pre ++ H1 ++ H2 ++ H3));
      [lia|by rewrite <- !app_assoc|subst H1 H2 H3; len].
  - eapply (decode_32_segment _ _ _ (pre ++ H1 ++ H2 ++ H3 ++ H4));
      [done|by rewrite <- !app_assoc|subst H1 H2 H3 H4; len].
  - eapply (read_at_segment _ _ _ (pre ++ H1 ++ H2 ++ H3 ++ H4 ++ H5));
      [by rewrite <- !app_assoc|subst H1 H2 H3 H4 H5; len|done].
  - eapply (decode_32_segment _ _ _ (pre ++ H1 ++ H2 ++ H3 ++ H4 ++ H5 ++ p));
      [done|by rewrite <- !app_assoc|subst H1 H2 H3 H4 H5; len].
Qed.

Lemma frame_fields_decode_witness :
  decode_32_bit ([1; 2] ++ frame MSG_ECHO 0xDEADBEEF [104; 105] ++ [3]) (zlen [1; 2] + 12)
  = Ret 0xDEADBEEF.
Proof.
  apply (frame_fields_decode [1; 2] MSG_ECHO 0xDEADBEEF [104; 105] [3]);
    [by apply (bool_decide_unpack _)..|vm_compute; discriminate].
Defined.

End Protocol.
