(* ===== verification/RateLimit.v ===== *)
(** * Token bucket of the gateway (gateway/src/rate_limit.c)

    [request_allow] computes with C doubles.  The code is translated once,
    against the interface [Arith] of the operations it uses; the instance
    [binary64] is IEEE-754 double arithmetic with round to nearest even, the
    one the compiled program runs on, and the instance over the rationals is
    the same code in exact arithmetic, where the rate bound is stated.  The two
    clock readings of one call are explicit arguments. *)
From Stdlib Require Import QArith Qround Lqa.
From Stdlib Require Import Floats.SpecFloat.
From S2P Require Import Prelude.
Open Scope Z_scope.

(** The floating point operations the code uses. *)
Class Arith (D : Type) := {
  of_u64 : Z -> D;
  add : D -> D -> D;
  sub : D -> D -> D;
  mul : D -> D -> D;
  div : D -> D -> D;
  ltb : D -> D -> bool }.

(** C double: IEEE binary64, rounding to nearest even. *)
#[export] Instance binary64 : Arith spec_float :=
  {| of_u64 z := binary_normalize 53 1024 z 0 false;
     add := SFadd 53 1024; sub := SFsub 53 1024; mul := SFmul 53 1024;
     div := SFdiv 53 1024; ltb := SFltb |}.

(** Exact arithmetic. *)
#[export] Instance exact_arith : Arith Q :=
  {| of_u64 z := inject_Z z; add := Qplus; sub := Qminus; mul := Qmult; div := Qdiv;
     ltb x y := match Qcompare x y with Lt => true | _ => false end |}.

Module RateLimit.
Section Bucket.
Context {D : Type} `{Arith D}.

Record rate_limit := RateLimit {
  capacity : D; number_request_available : D; request_per_second : D;
  last_request_ms : Z }.

(** [now] is the reading of [now_ms()]. *)
Definition rate_limit_init (now : Z) (cap rps : D) (rate : option rate_limit)
    : Z * option rate_limit :=
  match rate with
  | None => (-1, None)
  | Some _ => (0, Some (RateLimit cap cap rps now))
  end.

(** [now] and [now'] are the two readings of [now_ms()] of one call. *)
Definition request_allow (now now' : Z) (rate : option rate_limit)
    : bool * option rate_limit :=
  match rate with
  | None => (false, None)
  | Some r =>
      let time_eslaped := div (of_u64 (u64 (now - last_request_ms r))) (of_u64 1000) in
      let number_request_could_process := mul time_eslaped (request_per_second r) in
      let available := add (number_request_available r) number_request_could_process in
      let available := if ltb (capacity r) available then capacity r else available in
      if ltb available (of_u64 1)
      then (false, Some (RateLimit (capacity r) available (request_per_second r) now'))
      else (true, Some (RateLimit (capacity r) (sub available (of_u64 1))
                          (request_per_second r) now'))
  end.

(** A sequence of calls with their clock readings: how many were allowed. *)
Fixpoint count_allowed (rate : option rate_limit) (calls : list (Z * Z))
    : Z * option rate_limit :=
  match calls with
  | [] => (0, rate)
  | (now, now') :: calls =>
      let '(ok, rate) := request_allow now now' rate in
      let '(n, rate) := count_allowed rate calls in
      ((if ok then 1 else 0) + n, rate)
  end.
End Bucket.
Arguments rate_limit : clear implicits.
Arguments RateLimit {D}.

(** The configuration of the gateway: RATE_LIMIT_CAP, RATE_LIMIT_REFILL_SEC. *)
Definition RATE_LIMIT_CAP {D} `{Arith D} : D := of_u64 100.
Definition RATE_LIMIT_REFILL_SEC {D} `{Arith D} : D := of_u64 50.

(** Clock readings of successive calls of a monotonic clock, from [t] on. *)
Fixpoint clock_from (t : Z) (calls : list (Z * Z)) : Prop :=
  match calls with
  | [] => True
  | (now, now') :: calls => t <= now /\ now <= now' /\ now' < 2 ^ 64 /\ clock_from now' calls
  end.

(** The instant the last call was judged at. *)
Fixpoint last_now (t : Z) (calls : list (Z * Z)) : Z :=
  match calls with [] => t | [(now, _)] => now | _ :: calls => last_now t calls end.

(** ** Exact arithmetic: the rate bound *)

Lemma ltb_exact (x y : Q) :
  (ltb x y = true /\ (x < y)%Q) \/ (ltb x y = false /\ (y <= x)%Q).
Proof. cbn. destruct (Qcompare_spec x y); [right|left|right]; (split; [done|lra]). Qed.

(** The bucket level after refilling at [now], before a token is taken. *)
Definition refill (r : rate_limit Q) (now : Z) : Q :=
  let v := (number_request_available r
            + inject_Z (now - last_request_ms r) / inject_Z 1000 * request_per_second r)%Q in
  if ltb (capacity r) v then capacity r else v.

Definition bucket_inv (r : rate_limit Q) : Prop :=
  (0 <= number_request_available r <= capacity r)%Q /\ (0 <= request_per_second r)%Q /\
  0 <= last_request_ms r < 2 ^ 64.

Lemma request_allow_exact r now now' :
  0 <= last_request_ms r <= now -> now < 2 ^ 64 ->
  request_allow now now' (Some r)
  = (negb (ltb (refill r now) 1%Q),
     Some (RateLimit (capacity r)
       (if ltb (refill r now) 1%Q then refill r now else (refill r now - 1)%Q)
       (request_per_second r) now')).
Proof.
  intros Hl Hn. unfold request_allow, refill.
  rewrite wrap_small by lia. cbn [of_u64 add sub mul div exact_arith].
  change (inject_Z 1) with 1%Q. by destruct (ltb _ 1%Q).
Qed.

(** What flowed in since [last_request_ms]. *)
Definition inflow (r : rate_limit Q) (t : Z) : Q :=
  (inject_Z (t - last_request_ms r) / inject_Z 1000 * request_per_second r)%Q.

Lemma inflow_mono r t t' :
  (0 <= request_per_second r)%Q -> t <= t' -> (inflow r t <= inflow r t')%Q.
Proof.
  intros Hr Ht. unfold inflow. apply Qmult_le_compat_r; [|done].
  apply Qmult_le_compat_r; [|discriminate]. rewrite <- Zle_Qle. lia.
Qed.

Lemma refill_bounds r now :
  bucket_inv r -> last_request_ms r <= now ->
  (number_request_available r <= refill r now <= capacity r)%Q /\
  (refill r now <= number_request_available r + inflow r now)%Q.
Proof.
  intros (Ha & Hr & Hl) Hn. pose proof (inflow_mono r _ now Hr Hn) as Hi.
  assert (inflow r (last_request_ms r) == 0)%Q as H0.
  { unfold inflow. rewrite Z.sub_diag. reflexivity. }
  rewrite H0 in Hi. unfold refill. fold (inflow r now).
  destruct (ltb_exact (capacity r) (number_request_available r + inflow r now))
    as [[-> ?]|[-> ?]]; lra.
Qed.

(** One call: the level pays for what is allowed, out of what flowed in. *)
Lemma request_allow_pays r now now' :
  bucket_inv r -> last_request_ms r <= now -> now <= now' < 2 ^ 64 ->
  exists ok r', request_allow now now' (Some r) = (ok, Some r') /\ bucket_inv r' /\
    capacity r' = capacity r /\ request_per_second r' = request_per_second r /\
    last_request_ms r' = now' /\
    (number_request_available r' + inject_Z (if ok then 1 else 0)
     <= number_request_available r + inflow r now)%Q.
Proof.
  intros Hi Hl Hn. pose proof Hi as (Ha & Hr & Hl0).
  destruct (refill_bounds r now Hi Hl) as [Hb Hf].
  rewrite request_allow_exact by lia. eexists _, _. split; [reflexivity|].
  unfold bucket_inv. cbn [capacity number_request_available request_per_second last_request_ms].
  destruct (ltb_exact (refill r now) 1) as [[-> ?]|[-> ?]]; cbn [negb];
    (split_and!; [lra|lra|lra|lia|lia|done..|]); unfold inject_Z; lra.
Qed.

Lemma last_now_start t t' c calls : last_now t (c :: calls) = last_now t' (c :: calls).
Proof.
  revert c. induction calls as [|d calls IH]; intros [a b]; [done|].
  exact (IH d).
Qed.

Lemma last_now_ge t calls : clock_from t calls -> t <= last_now t calls.
Proof.
  revert t. induction calls as [|[a b] calls IH]; intros t; [done|].
  intros (H1 & H2 & _ & Hc). destruct calls as [|c calls]; [done|].
  change (last_now t ((a, b) :: c :: calls)) with (last_now t (c :: calls)).
  rewrite (last_now_start t b). specialize (IH b Hc). lia.
Qed.

(** Inflow before one call and after it adds up to no more than the total. *)
Lemma inflow_split r r' now now' t :
  request_per_second r' = request_per_second r -> last_request_ms r' = now' ->
  (0 <= request_per_second r)%Q -> now <= now' ->
  (inflow r now + inflow r' t <= inflow r t)%Q.
Proof.
  intros Hs Hl Hr Hn. unfold inflow. rewrite Hs, Hl.
  rewrite <- Qmult_plus_distr_l. apply Qmult_le_compat_r; [|done].
  unfold Qdiv. rewrite <- Qmult_plus_distr_l. apply Qmult_le_compat_r; [|discriminate].
  rewrite <- inject_Z_plus, <- Zle_Qle. lia.
Qed.

(** Allowed requests are paid by the initial level and the inflow. *)
Lemma count_allowed_pays calls r :
  bucket_inv r -> clock_from (last_request_ms r) calls ->
  (inject_Z (count_allowed (Some r) calls).1
   <= number_request_available r + inflow r (last_now (last_request_ms r) calls))%Q.
Proof.
  revert r. induction calls as [|[a b] calls IH]; intros r Hi Hc.
  - destruct (refill_bounds r (last_request_ms r) Hi ltac:(lia)) as [Hb Hf].
    destruct Hi as (Ha & _). cbn -[inflow]. unfold inject_Z at 1. lra.
  - destruct Hc as (H1 & H2 & H3 & Hc).
    destruct (request_allow_pays r a b Hi H1 ltac:(lia))
      as (ok & r' & E & Hi' & Hcap & Hrps & Hl & Hpay).
    cbn [count_allowed]. rewrite E. specialize (IH r' Hi'). rewrite Hl in IH.
    specialize (IH Hc). destruct (count_allowed (Some r') calls) as [n r2].
    cbn [fst] in *. rewrite inject_Z_plus. destruct Hi as (Ha & Hr & _).
    destruct calls as [|c calls].
    + assert (inflow r' b == 0)%Q as H0.
      { unfold inflow. rewrite Hl, Z.sub_diag. reflexivity. }
      cbn [last_now] in *. lra.
    + change (last_now (last_request_ms r) ((a, b) :: c :: calls))
        with (last_now (last_request_ms r) (c :: calls)).
      rewrite (last_now_start _ b).
      pose proof (inflow_split r r' a b (last_now b (c :: calls)) Hrps Hl Hr H2). lra.
Qed.



(** No starvation, in exact arithmetic: a client that waits until one token
    has flowed in since its last call is allowed, whatever the level was. *)
Theorem rate_limit_recovers r now now' :
  bucket_inv r -> (1 <= capacity r)%Q -> last_request_ms r <= now -> now <= now' < 2 ^ 64 ->
  (1 <= inject_Z (now - last_request_ms r) / inject_Z 1000 * request_per_second r)%Q ->
  (request_allow now now' (Some r)).1 = true.
Proof.
  intros (Ha & Hr & Hl0) Hcap Hl Hn Hin. rewrite request_allow_exact by lia. cbn [fst].
  destruct (ltb_exact (refill r now) 1) as [[-> Hlt]|[-> ?]]; [|done]. exfalso.
  unfold refill in Hlt. revert Hlt.
  destruct (ltb_exact (capacity r) (number_request_available r
    + inject_Z (now - last_request_ms r) / inject_Z 1000 * request_per_second r))
    as [[-> ?]|[-> ?]]; lra.
Qed.

Lemma rate_limit_recovers_witness :
  (request_allow 20 21 (Some (RateLimit 100 0 50 0)%Q)).1 = true.
Proof.
  apply (rate_limit_recovers (RateLimit 100 0 50 0)%Q 20 21);
    [unfold bucket_inv; cbn; split_and!; (lra || lia)|discriminate|cbn; lia|lia|].
  cbn. discriminate.
Defined.

(** ** Doubles: the configured burst *)

Definition full_bucket (now : Z) : rate_limit spec_float :=
  RateLimit RATE_LIMIT_CAP RATE_LIMIT_CAP RATE_LIMIT_REFILL_SEC now.

(** The bucket holding [k] whole tokens. *)
Definition level_bucket (now : Z) (k : nat) : rate_limit spec_float :=
  RateLimit RATE_LIMIT_CAP (of_u64 (Z.of_nat k)) RATE_LIMIT_REFILL_SEC now.

(** Whole tokens up to the capacity are exact in binary64. *)
Lemma request_allow_level now k :
  (k <= 100)%nat ->
  request_allow now now (Some (level_bucket now k))
  = (negb (Nat.eqb k 0), Some (level_bucket now (k - 1))).
Proof.
  intros Hk. unfold request_allow, level_bucket. cbn [last_request_ms].
  rewrite Z.sub_diag.
  cbn [capacity number_request_available request_per_second].
  do 101 (destruct k as [|k]; [vm_compute; reflexivity|]). lia.
Qed.

(** The configured bucket (100 tokens, 50 per second) in the program's own
    double arithmetic: of any number of back-to-back requests at one clock
    reading exactly the first hundred are allowed. *)
Theorem rate_limit_burst now n :
  (count_allowed (Some (full_bucket now)) (replicate n (now, now))).1
  = Z.min (Z.of_nat n) 100.
Proof.
  change (full_bucket now) with (level_bucket now 100).
  enough (forall k, (k <= 100)%nat ->
    (count_allowed (Some (level_bucket now k)) (replicate n (now, now))).1
    = Z.min (Z.of_nat n) (Z.of_nat k)) as Hk by (by apply Hk).
  induction n as [|n IH]; intros k Hk; [cbn; lia|].
  cbn [replicate count_allowed]. rewrite request_allow_level by done.
  specialize (IH (k - 1)%nat ltac:(lia)).
  destruct (count_allowed _ _) as [m r]. cbn [fst] in *.
  destruct k as [|k]; cbn [Nat.eqb negb]; lia.
Qed.

End RateLimit.
