(* ===== verification/Queue.v ===== *)
(** * Task and response queues of the gateway (gateway/src/queue.c, include/queue.h)

    Both queues are linked structs on a heap.  Every function runs with the
    queue's mutex held, so it is one atomic state transformer; a wait on the
    condition variable is the result [PopWait].  The response queue implements
    the FIFO contract.  The task queue does not: its [push] never advances the
    tail, and the theorems say exactly what it keeps, what it loses and when
    it is undefined. *)
From S2P Require Import Prelude Heap Fifo.

Module Queue.

Record task := Task {
  t_slot : Z; t_task_id : Z; t_generation : Z; t_type : Z; t_request_id : Z;
  t_payload : list Z; t_timeout_ms : Z; next_task : option loc; t_length : Z }.

Record response := Response {
  r_slot : Z; r_generation : Z; r_type : Z; r_request_id : Z; r_length : Z;
  r_payload : list Z; next_response : option loc }.

Record task_queue := TaskQueue {
  tq_head : option loc; tq_tail : option loc; tq_size : Z; tq_max_size : Z;
  tq_shutdown : bool }.

Record response_queue := ResponseQueue {
  rq_head : option loc; rq_tail : option loc; rq_size : Z; rq_max_size : Z }.

Definition set_next_task (n : option loc) (t : task) : task :=
  Task (t_slot t) (t_task_id t) (t_generation t) (t_type t) (t_request_id t)
    (t_payload t) (t_timeout_ms t) n (t_length t).

Definition set_next_response (n : option loc) (r : response) : response :=
  Response (r_slot r) (r_generation r) (r_type r) (r_request_id r) (r_length r)
    (r_payload r) n.

#[export] Instance task_linked : Linked task :=
  {| nxt := next_task; set_nxt := set_next_task;
     nxt_set_nxt _ _ := eq_refl; set_nxt_set_nxt _ _ _ := eq_refl |}.
#[export] Instance response_linked : Linked response :=
  {| nxt := next_response; set_nxt := set_next_response;
     nxt_set_nxt _ _ := eq_refl; set_nxt_set_nxt _ _ _ := eq_refl |}.

Abbreviation task_heap := (gmap loc task).
Abbreviation response_heap := (gmap loc response).

Definition EAGAIN : Z := 11.

(** ** Task queue *)

Definition task_queue_init (queue : option task_queue) (size : Z) : option task_queue :=
  match queue with
  | None => None
  | Some q => if size =? 0 then queue else Some (TaskQueue None None 0 size false)
  end.

Definition push (queue : option task_queue) (task : option loc) (h : task_heap)
    : outcome (Z * option task_queue * task_heap) :=
  match queue, task with
  | Some q, Some t =>
      if tq_shutdown q then Ret (-1, queue, h)
      else if tq_max_size q <=? tq_size q then Ret (- EAGAIN, queue, h)
      else
        '(head, tail, h) ←
          match tq_tail q with
          | None => Ret (Some t, Some t, h)
          | Some _ => h ← store_nxt h (tq_tail q) (Some t); Ret (tq_head q, tq_tail q, h)
          end;
        h ← store_nxt h (Some t) None;
        Ret (0, Some (TaskQueue head tail (tq_size q + 1) (tq_max_size q) (tq_shutdown q)), h)
  | _, _ => Ret (-1, queue, h)
  end.

(** [PopWait]: the caller is still inside [pthread_cond_wait]. *)
Inductive pop_result := PopWait | PopNull | PopTask (t : loc).

Definition pop (queue : option task_queue) (h : task_heap)
    : outcome (pop_result * option task_queue * task_heap) :=
  match queue with
  | None => Ret (PopNull, queue, h)
  | Some q =>
      if ((tq_size q =? 0) && negb (tq_shutdown q))%bool then Ret (PopWait, queue, h)
      else if (tq_shutdown q && (tq_size q =? 0))%bool then Ret (PopNull, queue, h)
      else
        return_task ← deref (tq_head q);
        x ← load h (tq_head q);
        let head := next_task x in
        let tail := if head is None then None else tq_tail q in
        h ← store_nxt h (Some return_task) None;
        Ret (PopTask return_task,
             Some (TaskQueue head tail (tq_size q - 1) (tq_max_size q) (tq_shutdown q)), h)
  end.

Definition task_queue_shutdown (q : task_queue) : Z * task_queue :=
  (0, TaskQueue (tq_head q) (tq_tail q) (tq_size q) (tq_max_size q) true).

(** The freeing loop; every iteration removes one node from the heap, so
    [size h] iterations always suffice (see [destroy_loop_chain]). *)
Fixpoint destroy_loop (fuel : nat) (task : option loc) (h : task_heap)
    : outcome task_heap :=
  match task with
  | None => Ret h
  | Some _ =>
      match fuel with
      | O => Undef
      | S fuel =>
          x ← load h task;
          let next := next_task x in
          h ← store_nxt h task None;
          h ← free h task;
          destroy_loop fuel next h
      end
  end.

Definition task_queue_destroy (queue : option task_queue) (h : task_heap)
    : outcome (Z * option task_queue * task_heap) :=
  match queue with
  | None => Ret (-1, queue, h)
  | Some q =>
      h' ← destroy_loop (size h) (tq_head q) h;
      Ret (0, Some (TaskQueue None None 0 (tq_max_size q) (tq_shutdown q)), h')
  end.

(** ** Response queue *)

Definition response_queue_init (queue : option response_queue) (size : Z)
    : option response_queue :=
  match queue with
  | None => None
  | Some q => if size <=? 0 then queue else Some (ResponseQueue None None 0 size)
  end.

Definition response_queue_push (queue : option response_queue) (response : option loc)
    (h : response_heap) : outcome (Z * option response_queue * response_heap) :=
  match queue, response with
  | Some q, Some r =>
      if rq_max_size q <=? rq_size q then Ret (- EAGAIN, queue, h)
      else
        '(head, tail, h) ←
          match rq_tail q with
          | None => Ret (Some r, Some r, h)
          | Some _ => h ← store_nxt h (rq_tail q) (Some r); Ret (rq_head q, Some r, h)
          end;
        h ← store_nxt h tail None;
        Ret (0, Some (ResponseQueue head tail (rq_size q + 1) (rq_max_size q)), h)
  | _, _ => Ret (-1, queue, h)
  end.

Definition response_queue_pop (queue : option response_queue) (h : response_heap)
    : outcome (option loc * option response_queue * response_heap) :=
  match queue with
  | None => Ret (None, queue, h)
  | Some q =>
      if rq_size q =? 0 then Ret (None, queue, h)
      else
        ret_res ← deref (rq_head q);
        x ← load h (rq_head q);
        let head := next_response x in
        let tail := if head is None then None else rq_tail q in
        h ← store_nxt h (Some ret_res) None;
        Ret (Some ret_res, Some (ResponseQueue head tail (rq_size q - 1) (rq_max_size q)), h)
  end.

(** ** Sequences of task queue operations *)

(** Successive pushes that are all accepted. *)
Fixpoint push_all (q : task_queue) (ts : list loc) (h : task_heap)
    : outcome (task_queue * task_heap) :=
  match ts with
  | [] => Ret (q, h)
  | t :: ts =>
      '(ret, q, h) ← push (Some q) (Some t) h;
      q ← deref q;
      if ret =? 0 then push_all q ts h else Undef
  end.

(** Successive pops of a worker that never has to wait; [None] stands for the
    NULL of a shut down queue. *)
Fixpoint pop_n (n : nat) (q : task_queue) (h : task_heap)
    : outcome (list (option loc) * task_queue * task_heap) :=
  match n with
  | O => Ret ([], q, h)
  | S n =>
      '(r, q, h) ← pop (Some q) h;
      q ← deref q;
      match r with
      | PopWait => Undef
      | PopNull => '(rs, q, h) ← pop_n n q h; Ret (None :: rs, q, h)
      | PopTask t => '(rs, q, h) ← pop_n n q h; Ret (Some t :: rs, q, h)
      end
  end.

Inductive tq_op := OpPush (t : loc) | OpPop | OpShutdown | OpDestroy.

(** One call of the interface by some thread; a pop that waits changes nothing. *)
Definition tq_step (op : tq_op) (q : task_queue) (h : task_heap)
    : outcome (option task_queue * task_heap) :=
  match op with
  | OpPush t => '(_, q, h) ← push (Some q) (Some t) h; Ret (q, h)
  | OpPop => '(_, q, h) ← pop (Some q) h; Ret (q, h)
  | OpShutdown => Ret (Some (task_queue_shutdown q).2, h)
  | OpDestroy => '(_, q, h) ← task_queue_destroy (Some q) h; Ret (q, h)
  end.

(** States reached from initialisation by calls of any threads, the heap of
    tasks being changed freely in between. *)
Inductive tq_reachable (n : Z) : task_queue -> Prop :=
| tq_reach_init q0 q : task_queue_init (Some q0) n = Some q -> tq_reachable n q
| tq_reach_step q op h q' h' :
    tq_reachable n q -> tq_step op q h = Ret (Some q', h') -> tq_reachable n q'.

(** ** The response queue meets the FIFO contract *)

(** A queue in its heap, as the threads share it. *)
Definition rstate : Type := response_heap * response_queue.

Definition response_inv (s : rstate) : Prop :=
  exists ls, linked_queue s.1 (rq_head s.2) (rq_tail s.2) ls /\
    rq_size s.2 = zlen ls /\ zlen ls <= rq_max_size s.2.

Definition response_push (s : rstate) (v : loc * response) : outcome (option rstate) :=
  '(ret, q, h) ← response_queue_push (Some s.2) (Some v.1) s.1;
  q ← deref q; Ret (if ret =? 0 then Some (h, q) else None).

(** The popped pointer with the struct found behind it. *)
Definition response_pop (s : rstate) : outcome (option ((loc * response) * rstate)) :=
  '(p, q, h) ← response_queue_pop (Some s.2) s.1;
  q ← deref q;
  match p with
  | None => Ret None
  | Some l => x ← deref (h !! l); Ret (Some ((l, x), (h, q)))
  end.

Definition response_abs (s : rstate) : list (loc * response) :=
  walk s.1 (rq_head s.2) (Z.to_nat (rq_size s.2)).

(** A pushed node is allocated, holds the response and is not queued. *)
Definition response_ready (s : rstate) (v : loc * response) : Prop :=
  (v.1 ∉ (response_abs s).*1) /\ content s.1 v.1 = Some v.2.

(** Other code may allocate, free and write nodes that are not queued. *)
Definition response_env (s s' : rstate) : Prop :=
  s'.2 = s.2 /\ forall l, l ∈ (response_abs s).*1 -> s'.1 !! l = s.1 !! l.

#[export] Instance response_fifo : Fifo rstate (loc * response) :=
  {| fifo_inv := response_inv; fifo_abs := response_abs;
     fifo_cap s := Some (rq_max_size s.2);
     fifo_ready := response_ready; fifo_env := response_env;
     fifo_push := response_push; fifo_pop := response_pop |}.

Lemma response_abs_cells h q ls :
  linked_queue h (rq_head q) (rq_tail q) ls -> rq_size q = zlen ls ->
  response_abs (h, q) = cells h ls.
Proof.
  intros (Hc & _) Hs. unfold response_abs. cbn. rewrite Hs, zlen_length. by apply walk_chain.
Qed.

Lemma response_abs_nodes h q ls :
  linked_queue h (rq_head q) (rq_tail q) ls -> rq_size q = zlen ls ->
  (response_abs (h, q)).*1 = ls.
Proof.
  intros Hq Hs. rewrite (response_abs_cells h q ls Hq Hs).
  destruct Hq as [Hc _]. by eapply cells_fst.
Qed.

(** The stores of a push on a well-formed queue. *)
Lemma response_queue_push_links h q ls l y :
  linked_queue h (rq_head q) (rq_tail q) ls -> l ∉ ls -> h !! l = Some y ->
  rq_size q < rq_max_size q ->
  exists head tail h',
    response_queue_push (Some q) (Some l) h
    = Ret (0, Some (ResponseQueue head tail (rq_size q + 1) (rq_max_size q)), h') /\
    linked_queue h' head tail (ls ++ [l]) /\
    cells h' (ls ++ [l]) = cells h ls ++ [(l, set_nxt None y)].
Proof.
  intros Hq Hl Hy Hroom. unfold response_queue_push.
  destruct (Z.leb_spec (rq_max_size q) (rq_size q)); [lia|].
  destruct (rq_tail q) as [t|] eqn:Et.
  - destruct (linked_queue_tail _ _ _ _ Hq) as (Hin & x & Hx).
    assert (t <> l) as Htl by set_solver.
    rewrite (store_nxt_alloc h t x) by done. cbn [mbind outcome_bind].
    rewrite (store_nxt_alloc _ l y) by (by rewrite lookup_insert_ne).
    eexists _, _, _. split; [reflexivity|]. split; [by eapply linked_queue_push_tail|].
    rewrite cells_app, (cells_relink _ l y None ls) by (by rewrite lookup_insert_ne).
    rewrite (cells_relink h t x) by done.
    by erewrite cells_singleton by apply lookup_insert_eq.
  - apply linked_queue_tail_None in Hq as Hnil. subst ls. cbn [mbind outcome_bind].
    rewrite (store_nxt_alloc _ l y) by done.
    eexists _, _, _. split; [reflexivity|]. split; [by eapply linked_queue_push_empty|].
    cbn [app]. by erewrite cells_singleton by apply lookup_insert_eq.
Qed.

(** The stores of a pop on a well-formed, non-empty queue. *)
Lemma response_queue_pop_links h q l ls :
  linked_queue h (rq_head q) (rq_tail q) (l :: ls) -> rq_size q <> 0 ->
  exists x head tail h',
    response_queue_pop (Some q) h
    = Ret (Some l, Some (ResponseQueue head tail (rq_size q - 1) (rq_max_size q)), h') /\
    h !! l = Some x /\ h' !! l = Some (set_nxt None x) /\
    linked_queue h' head tail ls /\ cells h' ls = cells h ls.
Proof.
  intros Hq Hne. destruct (linked_queue_pop _ _ _ _ _ Hq) as (x & Hhead & Hx & Hq').
  unfold response_queue_pop. destruct (Z.eqb_spec (rq_size q) 0); [done|].
  rewrite Hhead, (load_alloc h l x) by done. cbn [mbind outcome_bind deref].
  rewrite (store_nxt_alloc h l x) by done.
  eexists x, _, _, _. split; [reflexivity|]. split; [done|].
  split; [apply lookup_insert_eq|].
  split; [|by apply cells_relink]. revert Hq'. cbn. by destruct (next_response x).
Qed.

Lemma response_push_room (s : rstate) (v : loc * response) :
  response_inv s -> response_ready s v -> fifo_room s ->
  exists s', response_push s v = Ret (Some s') /\ response_inv s' /\
    response_abs s' = response_abs s ++ [v] /\ fifo_cap s' = fifo_cap s.
Proof.
  destruct s as [h q], v as [l y]. intros (ls & Hq & Hs & Hmax) [Hl Hc] Hroom.
  unfold fifo_room in Hroom. cbn [fifo_cap fifo_abs response_fifo fst snd] in *.
  rewrite (response_abs_nodes h q ls Hq Hs) in Hl.
  rewrite (response_abs_cells h q ls Hq Hs) in *.
  assert (zlen (cells h ls) = zlen ls) as Hlen.
  { unfold zlen. destruct Hq as [Hch _]. by rewrite (cells_length _ _ _ Hch). }
  destruct (content_Some _ _ _ Hc) as (x & Hx & ->).
  destruct (response_queue_push_links h q ls l x Hq Hl Hx ltac:(lia))
    as (head & tail & h' & Hp & Hq' & Hcells).
  unfold response_push. cbn [fst snd]. rewrite Hp. cbn.
  eexists. split; [reflexivity|].
  assert (zlen (ls ++ [l]) = rq_size q + 1) as Hl' by len.
  split_and!; [exists (ls ++ [l]); cbn; split_and!; [done|lia|lia]| |done].
  by rewrite (response_abs_cells _ _ (ls ++ [l])).
Qed.

Lemma response_pop_cons (s : rstate) v l :
  response_inv s -> response_abs s = v :: l ->
  exists s', response_pop s = Ret (Some (v, s')) /\ response_inv s' /\
    response_abs s' = l /\ fifo_cap s' = fifo_cap s.
Proof.
  destruct s as [h q]. intros (ls & Hq & Hs & Hmax) Habs. cbn [fst snd] in *.
  rewrite (response_abs_cells h q ls Hq Hs) in Habs.
  destruct ls as [|k ls]; [done|].
  destruct (response_queue_pop_links h q k ls Hq ltac:(len))
    as (x & head & tail & h' & Hp & Hx & Hx' & Hq' & Hcells).
  rewrite (cells_cons h k x) in Habs by done. injection Habs as <- <-.
  unfold response_pop. cbn [fst snd]. rewrite Hp. cbn. rewrite Hx'. cbn.
  eexists. split; [reflexivity|].
  assert (zlen ls = rq_size q - 1) as Hl' by len.
  split_and!; [exists ls; cbn; split_and!; [done|lia|lia]| |done].
  by rewrite (response_abs_cells _ _ ls), Hcells.
Qed.

Lemma response_env_ok (s s' : rstate) :
  response_inv s -> response_env s s' ->
  response_inv s' /\ response_abs s' = response_abs s /\ fifo_cap s' = fifo_cap s.
Proof.
  destruct s as [h q], s' as [h' q']. intros (ls & Hq & Hs & Hmax) [He Hf]. cbn in He, Hf.
  subst q'. cbn [fst snd] in *. rewrite (response_abs_nodes h q ls Hq Hs) in Hf.
  assert (linked_queue h' (rq_head q) (rq_tail q) ls) as Hq'.
  { destruct Hq as (Hc & Hnd & Ht). split_and!; [|done..]. by eapply chain_frame. }
  split_and!; [by exists ls| |done].
  rewrite (response_abs_cells h' q ls), (response_abs_cells h q ls) by done.
  apply cells_frame. intros k Hk. unfold content. by rewrite Hf.
Qed.

Lemma response_abs_zlen (s : rstate) :
  response_inv s -> zlen (response_abs s) = rq_size s.2 /\ rq_size s.2 <= rq_max_size s.2.
Proof.
  destruct s as [h q]. intros (ls & Hq & Hs & Hmax). cbn [fst snd] in *.
  rewrite (response_abs_cells h q ls Hq Hs). destruct Hq as [Hc _].
  unfold zlen in *. rewrite (cells_length _ _ _ Hc). lia.
Qed.

Lemma response_abs_unlinked (s : rstate) :
  Forall (fun lr => next_response lr.2 = None) (response_abs s).
Proof. exact (walk_unlinked s.1 (rq_head s.2) (Z.to_nat (rq_size s.2))). Qed.

Lemma response_abs_nodup (s : rstate) : response_inv s -> NoDup (response_abs s).*1.
Proof.
  destruct s as [h q]. intros (ls & Hq & Hs & _). cbn [fst snd] in *.
  rewrite (response_abs_nodes h q ls Hq Hs). apply Hq.
Qed.

#[export] Instance response_fifo_laws : FifoLaws rstate (loc * response).
Proof.
  split.
  - exact response_push_room.
  - intros s v Hi Hfull. destruct (response_abs_zlen s Hi) as [Hz Hm].
    unfold fifo_room in Hfull. cbn in *. unfold response_push, response_queue_push.
    destruct (Z.leb_spec (rq_max_size s.2) (rq_size s.2)); [done|lia].
  - intros s Hi Habs. destruct (response_abs_zlen s Hi) as [Hz _]. cbn in *.
    rewrite Habs in Hz. unfold response_pop, response_queue_pop. by rewrite <- Hz.
  - exact response_pop_cons.
  - exact response_env_ok.
  - intros s n Hi [= <-]. destruct (response_abs_zlen s Hi). cbn in *. lia.
Qed.

(** ** Task queue *)

Definition task_count_inv (q : task_queue) : Prop := 0 <= tq_size q <= tq_max_size q.

Lemma push_guards q t h :
  tq_shutdown q = true \/ tq_max_size q <= tq_size q ->
  push (Some q) (Some t) h
  = Ret (if tq_shutdown q then -1 else - EAGAIN, Some q, h).
Proof.
  intros Hg. unfold push. destruct (tq_shutdown q); [done|].
  destruct (Z.leb_spec (tq_max_size q) (tq_size q)); [done|]. destruct Hg; [done|lia].
Qed.

(** Two consecutive pushes on a queue whose tail is still its first node. *)
Lemma push_second q h t l x y :
  tq_shutdown q = false -> tq_size q < tq_max_size q ->
  tq_tail q = Some t -> h !! t = Some x -> h !! l = Some y -> t <> l ->
  push (Some q) (Some l) h
  = Ret (0, Some (TaskQueue (tq_head q) (Some t) (tq_size q + 1) (tq_max_size q) false),
         <[l := set_next_task None y]> (<[t := set_next_task (Some l) x]> h)).
Proof.
  intros Hs Hr Ht Hx Hy Hne. unfold push. rewrite Hs.
  destruct (Z.leb_spec (tq_max_size q) (tq_size q)); [lia|].
  rewrite Ht, (store_nxt_alloc h t x) by done. cbn [mbind outcome_bind].
  rewrite (store_nxt_alloc _ l y) by (by rewrite lookup_insert_ne). done.
Qed.

Lemma push_dangling q h t l :
  tq_shutdown q = false -> tq_size q < tq_max_size q ->
  tq_tail q = Some t -> h !! t = None -> push (Some q) (Some l) h = Undef.
Proof.
  intros Hs Hr Ht Hx. unfold push. rewrite Hs.
  destruct (Z.leb_spec (tq_max_size q) (tq_size q)); [lia|].
  rewrite Ht. unfold store_nxt. cbn [mbind outcome_bind deref]. by rewrite Hx.
Qed.

Lemma push_first q h t x :
  tq_shutdown q = false -> tq_size q < tq_max_size q -> tq_tail q = None ->
  h !! t = Some x ->
  push (Some q) (Some t) h
  = Ret (0, Some (TaskQueue (Some t) (Some t) (tq_size q + 1) (tq_max_size q) false),
         <[t := set_next_task None x]> h).
Proof.
  intros Hs Hr Ht Hx. unfold push. rewrite Hs.
  destruct (Z.leb_spec (tq_max_size q) (tq_size q)); [lia|].
  rewrite Ht. cbn [mbind outcome_bind]. by rewrite (store_nxt_alloc _ t x).
Qed.

(** From the second push on, each one overwrites the link to the previous. *)
Lemma push_all_overwrites ts q h t :
  tq_shutdown q = false -> tq_head q = Some t -> tq_tail q = Some t ->
  tq_size q + zlen ts <= tq_max_size q ->
  t ∉ ts -> is_Some (h !! t) -> Forall (fun l => is_Some (h !! l)) ts ->
  exists h', push_all q ts h
    = Ret (TaskQueue (Some t) (Some t) (tq_size q + zlen ts) (tq_max_size q) false, h') /\
    (forall l, is_Some (h !! l) -> is_Some (h' !! l)) /\
    (forall l, last ts = Some l -> chain h' (Some t) [t; l]) /\
    (ts = [] -> h' = h).
Proof.
  revert q h. induction ts as [|l ts IH]; intros q h Hs Hh Htl Hsize Hnin [x Hx] Hall.
  - exists h. split_and!; [|done..]. destruct q; cbn in *. subst. by rewrite Z.add_0_r.
  - apply Forall_cons in Hall as [[y Hy] Hall]. rewrite zlen_cons in Hsize.
    pose proof (zlen_nonneg ts). assert (t <> l) as Hne by set_solver.
    cbn [push_all]. rewrite (push_second q h t l x y) by (done || lia).
    cbn [mbind outcome_bind deref]. rewrite Z.eqb_refl, Hh.
    set (h1 := <[l := set_next_task None y]> (<[t := set_next_task (Some l) x]> h)).
    assert (forall k, is_Some (h !! k) -> is_Some (h1 !! k)) as Hdom.
    { intros k Hk. subst h1. rewrite !lookup_insert_is_Some'. tauto. }
    edestruct (IH (TaskQueue (Some t) (Some t) (tq_size q + 1) (tq_max_size q) false) h1)
      as (h' & -> & Hd & Hlast & Hnil); cbn; try done; try lia.
    { set_solver. }
    { apply Hdom. eauto. }
    { eapply Forall_impl; [exact Hall|]. cbn. eauto. }
    exists h'. split_and!; [|eauto| |done].
    { rewrite zlen_cons. do 3 f_equal. lia. }
    intros k Hk. destruct ts as [|k' ts]; [|by apply Hlast].
    injection Hk as <-. rewrite Hnil by done. subst h1. cbn. split; [done|].
    exists (set_next_task (Some l) x). split; [by rewrite lookup_insert_ne, lookup_insert_eq|].
    cbn. split; [done|]. eexists. split; [apply lookup_insert_eq|done].
Qed.

Lemma destroy_loop_chain ls fuel p h :
  chain h p ls -> NoDup ls -> (length ls <= fuel)%nat ->
  exists h', destroy_loop fuel p h = Ret h' /\
    (forall l, l ∈ ls -> h' !! l = None) /\ (forall l, l ∉ ls -> h' !! l = h !! l).
Proof.
  revert fuel p h. induction ls as [|l ls IH]; intros fuel p h Hc Hnd Hf.
  - cbn in Hc. subst p. exists h. destruct fuel; split_and!; (done || set_solver).
  - destruct Hc as (-> & x & Hx & Hc). apply NoDup_cons in Hnd as [Hl Hnd].
    destruct fuel as [|fuel]; [cbn in Hf; lia|]. cbn [destroy_loop].
    rewrite (load_alloc h l x) by done. cbn [mbind outcome_bind].
    rewrite (store_nxt_alloc h l x) by done. cbn [mbind outcome_bind free].
    rewrite lookup_insert_eq. cbn [deref mbind outcome_bind]. rewrite delete_insert_eq.
    destruct (IH fuel (next_task x) (delete l h)) as (h' & -> & Hin & Hout).
    { by apply chain_delete_fresh. }
    { done. }
    { cbn in Hf. lia. }
    exists h'. split_and!; [done| |].
    + intros k [->|Hk]%elem_of_cons; [|auto]. rewrite Hout by done. apply lookup_delete_eq.
    + intros k Hk. rewrite Hout by set_solver. apply lookup_delete_ne. set_solver.
Qed.

Lemma pop_unfold q h t x :
  0 < tq_size q -> tq_head q = Some t -> h !! t = Some x ->
  pop (Some q) h
  = Ret (PopTask t,
         Some (TaskQueue (next_task x) (if next_task x is None then None else tq_tail q)
           (tq_size q - 1) (tq_max_size q) (tq_shutdown q)),
         <[t := set_next_task None x]> h).
Proof.
  intros Hs Hh Hx. unfold pop. destruct (Z.eqb_spec (tq_size q) 0); [lia|].
  rewrite !andb_false_r. cbn [andb]. rewrite Hh, (load_alloc h t x) by done.
  cbn [mbind outcome_bind deref]. by rewrite (store_nxt_alloc h t x).
Qed.

(** The tasks handed out by a queue that accepted [t :: mid ++ [l]]. *)
Lemma pop_after_overwrite q h t l :
  tq_head q = Some t -> 2 <= tq_size q -> t <> l -> chain h (Some t) [t; l] ->
  exists h', pop_n 2 q h
    = Ret ([Some t; Some l], TaskQueue None None (tq_size q - 2) (tq_max_size q) (tq_shutdown q), h').
Proof.
  intros Hh Hs Hne (_ & x & Hx & Hn & y & Hy & Hny). cbn in Hn, Hny.
  cbn [pop_n]. rewrite (pop_unfold q h t x) by (done || lia).
  cbn [mbind outcome_bind deref]. rewrite Hn.
  rewrite (pop_unfold _ _ l y) by (done || (cbn; lia) || (by rewrite lookup_insert_ne)).
  cbn [mbind outcome_bind deref tq_size tq_max_size tq_shutdown]. rewrite Hny.
  replace (tq_size q - 1 - 1) with (tq_size q - 2) by lia. by eexists.
Qed.

(** ** Properties *)

(** The response queue is a FIFO.  In any run of pushes and pops by the
    workers and the main loop on a freshly initialised queue (nodes outside
    the queue being allocated, written and freed at will in between), the
    responses popped so far followed by those still queued are exactly the
    accepted ones in order and with unchanged contents, never more than
    [max_size] of them are queued, and no call is undefined. *)
Theorem response_queue_fifo q0 q n h evs (s : rstate) :
  0 < n -> response_queue_init (Some q0) n = Some q ->
  fifo_run (S := rstate) (h, q) evs s ->
  popped evs ++ response_abs s = pushed evs /\ zlen (response_abs s) <= n /\
  (forall v, response_ready s v ->
     (exists r, response_push s v = Ret r) /\ (exists r, response_pop s = Ret r)).
Proof.
  intros Hn Hq Hrun. unfold response_queue_init in Hq.
  destruct (Z.leb_spec n 0); [lia|]. injection Hq as <-.
  assert (fifo_inv (V := loc * response) ((h, ResponseQueue None None 0 n) : rstate)) as Hi.
  { exists []. cbn. split_and!; [apply linked_queue_nil|done|len]. }
  destruct (fifo_run_conserves (S := rstate) (V := loc * response) _ evs s Hi Hrun) as (Hi' & Hcap & Hfifo).
  split_and!; [done| |].
  - by apply (fifo_bounded (V := loc * response) s n Hi').
  - intros v Hv. by apply (fifo_progress s v Hi').
Qed.

Definition sample_response (n : Z) : response := Response n 1 0x8001 n 1 [n] None.
Definition sample_heap : response_heap :=
  <[1%positive := sample_response 1]> {[2%positive := sample_response 2]}.

Lemma response_queue_fifo_witness :
  exists s, popped [Pushed (1%positive, sample_response 1); Pushed (2%positive, sample_response 2);
               Popped (1%positive, sample_response 1)] ++ response_abs s
            = [(1%positive, sample_response 1); (2%positive, sample_response 2)].
Proof.
  eexists. refine (proj1 (response_queue_fifo (ResponseQueue None None 9 9)
    (ResponseQueue None None 0 2) 2 sample_heap _ _ _ _ _)); [done|done|].
  eapply run_pushed; [split; [apply (bool_decide_unpack _); vm_compute; exact I|reflexivity]
    |vm_compute; reflexivity|].
  eapply run_pushed; [split; [apply (bool_decide_unpack _); vm_compute; exact I|reflexivity]
    |vm_compute; reflexivity|].
  eapply run_popped; [vm_compute; reflexivity|]. apply run_nil.
Defined.

(** A task queue holding at most one task behaves as a mailbox: pushed on an
    empty open queue the task is accepted, the next pop hands out that very
    node, and the queue is empty again with only that node's link cleared. *)
Theorem task_queue_mailbox q h t x :
  tq_shutdown q = false -> tq_head q = None -> tq_tail q = None -> tq_size q = 0 ->
  0 < tq_max_size q -> h !! t = Some x ->
  exists q1 h1, push (Some q) (Some t) h = Ret (0, Some q1, h1) /\
    pop (Some q1) h1 = Ret (PopTask t, Some q, <[t := set_next_task None x]> h).
Proof.
  intros Hs Hh Ht Hz Hm Hx. eexists _, _. split; [apply push_first; (done || lia)|].
  erewrite pop_unfold by (done || (cbn; lia) || apply lookup_insert_eq). cbn.
  rewrite insert_insert_eq. destruct q; cbn in *; subst. done.
Qed.

Definition sample_task (n : Z) : task := Task n n 1 1 n [n] 0 None 1.
Definition task_sample_heap : task_heap :=
  <[1%positive := sample_task 1]> (<[2%positive := sample_task 2]>
    (<[3%positive := sample_task 3]> ∅)).

Lemma task_queue_mailbox_witness :
  exists q1 h1,
    push (Some (TaskQueue None None 0 4 false)) (Some 2%positive) task_sample_heap
      = Ret (0, Some q1, h1) /\
    pop (Some q1) h1 = Ret (PopTask 2%positive, Some (TaskQueue None None 0 4 false),
      <[2%positive := set_next_task None (sample_task 2)]> task_sample_heap).
Proof.
  apply (task_queue_mailbox (TaskQueue None None 0 4 false) task_sample_heap 2 (sample_task 2));
    reflexivity || (cbn; lia).
Defined.

(** C40: what the task queue does with three or more tasks: after accepting
    [t :: mid ++ [l]] it counts all of them, but the tail pointer never left
    [t], so only [t] and [l] come out, every task of [mid] is lost, and the
    worker's third pop dereferences a NULL head. *)
Theorem task_queue_loses_tasks q h t mid l :
  tq_shutdown q = false -> tq_head q = None -> tq_tail q = None -> tq_size q = 0 ->
  mid <> [] -> zlen (t :: mid ++ [l]) <= tq_max_size q ->
  NoDup (t :: mid ++ [l]) -> Forall (fun k => is_Some (h !! k)) (t :: mid ++ [l]) ->
  exists q1 h1 q2 h2, push_all q (t :: mid ++ [l]) h = Ret (q1, h1) /\
    tq_size q1 = zlen (t :: mid ++ [l]) /\
    pop_n 2 q1 h1 = Ret ([Some t; Some l], q2, h2) /\
    tq_size q2 = zlen mid /\ pop (Some q2) h2 = Undef.
Proof.
  intros Hs Hh Ht Hz Hmid Hmax [Hnin Hnd]%NoDup_cons [[x Hx] Hall]%Forall_cons.
  rewrite zlen_cons in Hmax. pose proof (zlen_nonneg (mid ++ [l])).
  cbn [push_all]. rewrite (push_first q h t x) by (done || lia).
  cbn [mbind outcome_bind deref Z.eqb]. rewrite Hz.
  set (q1 := TaskQueue (Some t) (Some t) (0 + 1) (tq_max_size q) false).
  edestruct (push_all_overwrites (mid ++ [l]) q1 (<[t := set_next_task None x]> h) t)
    as (h' & Hp & _ & Hlast & _); [done|done|done|cbn; lia|done| | |].
  { rewrite lookup_insert_eq. eauto. }
  { eapply Forall_impl; [exact Hall|]. intros k Hk. rewrite lookup_insert_is_Some'. by right. }
  specialize (Hlast l (last_snoc _ _)). assert (t <> l) as Htl by (intros ->; apply Hnin, elem_of_app; right; by left).
  assert (0 < zlen mid) by (destruct mid; [done|len]).
  eexists _, _. edestruct (pop_after_overwrite) as (h2 & Hpop); [| | | |].
  5: { eexists _, _. split; [exact Hp|]. split; [cbn; rewrite zlen_cons; done|].
       split; [exact Hpop|]. subst q1. cbn [tq_size]. split; [len|]. unfold pop.
       cbn [tq_size tq_shutdown].
       destruct (Z.eqb_spec (0 + 1 + zlen (mid ++ [l]) - 2) 0); [len|]. done. }
  - done.
  - cbn. len.
  - done.
  - done.
Qed.

Lemma task_queue_loses_tasks_witness :
  exists q1 h1 q2 h2,
    push_all (TaskQueue None None 0 4 false) (1%positive :: [2%positive] ++ [3%positive])
      task_sample_heap = Ret (q1, h1) /\
    tq_size q1 = zlen (1%positive :: [2%positive] ++ [3%positive]) /\
    pop_n 2 q1 h1 = Ret ([Some 1%positive; Some 3%positive], q2, h2) /\
    tq_size q2 = zlen [2%positive] /\ pop (Some q2) h2 = Undef.
Proof.
  apply (task_queue_loses_tasks (TaskQueue None None 0 4 false) task_sample_heap 1 [2%positive] 3);
    try reflexivity; [done|vm_compute; discriminate|apply (bool_decide_unpack _); vm_compute; exact I|].
  apply (bool_decide_unpack _). vm_compute. exact I.
Defined.

(** With two tasks queued the first pop leaves the tail pointing at the
    task it handed out: once the worker has freed that task, the next push
    writes through the dangling tail. *)
Theorem task_queue_use_after_free q h a b c :
  tq_shutdown q = false -> tq_head q = None -> tq_tail q = None -> tq_size q = 0 ->
  2 <= tq_max_size q -> NoDup [a; b; c] ->
  Forall (fun k => is_Some (h !! k)) [a; b; c] ->
  exists q1 h1 q2 h2 h3, push_all q [a; b] h = Ret (q1, h1) /\
    pop (Some q1) h1 = Ret (PopTask a, Some q2, h2) /\ tq_tail q2 = Some a /\
    free h2 (Some a) = Ret h3 /\ push (Some q2) (Some c) h3 = Undef.
Proof.
  intros Hs Hh Ht Hz Hm Hnd Hall. rewrite !Forall_cons in Hall.
  destruct Hall as ([x Hx] & [y Hy] & _). assert (a <> b) as Hab.
  { apply NoDup_cons in Hnd as [Hnd _]. set_solver. }
  cbn [push_all]. rewrite (push_first q h a x) by (done || lia).
  cbn [mbind outcome_bind deref Z.eqb]. rewrite Hz.
  erewrite (push_second _ _ a b); [|done|cbn; lia|done|apply lookup_insert_eq
    |rewrite lookup_insert_ne by done; exact Hy|done].
  cbn [mbind outcome_bind deref Z.eqb tq_size tq_max_size tq_head tq_tail].
  eexists _, _, _, _, _. split; [reflexivity|]. split.
  { eapply pop_unfold; [cbn; lia|done|].
    rewrite lookup_insert_ne by done. apply lookup_insert_eq. }
  split; [done|]. split; [eapply free_alloc, lookup_insert_eq|].
  apply (push_dangling _ _ a); [done|cbn; lia|done|apply lookup_delete_eq].
Qed.

Lemma task_queue_use_after_free_witness :
  exists q1 h1 q2 h2 h3,
    push_all (TaskQueue None None 0 4 false) [1%positive; 2%positive] task_sample_heap
      = Ret (q1, h1) /\
    pop (Some q1) h1 = Ret (PopTask 1%positive, Some q2, h2) /\
    tq_tail q2 = Some 1%positive /\
    free h2 (Some 1%positive) = Ret h3 /\ push (Some q2) (Some 3%positive) h3 = Undef.
Proof.
  apply (task_queue_use_after_free (TaskQueue None None 0 4 false) task_sample_heap 1 2 3);
    try reflexivity; [vm_compute; discriminate|apply (bool_decide_unpack _); vm_compute; exact I|].
  apply (bool_decide_unpack _). vm_compute. exact I.
Defined.

Lemma tq_step_count op q h q' h' :
  task_count_inv q -> tq_step op q h = Ret (Some q', h') ->
  task_count_inv q' /\ tq_max_size q' = tq_max_size q.
Proof.
  unfold task_count_inv. intros Hi Hst. destruct op as [t| | |]; cbn [tq_step] in Hst.
  - unfold push in Hst. destruct (tq_shutdown q); [by simplify_eq/=|].
    destruct (Z.leb_spec (tq_max_size q) (tq_size q)); [by simplify_eq/=|].
    destruct (tq_tail q) as [t0|]; cbn [mbind outcome_bind] in Hst.
    + destruct (store_nxt h (Some t0) (Some t)) as [h1|];
        cbn [mbind outcome_bind] in Hst; [|discriminate].
      destruct (store_nxt h1 (Some t) None);
        cbn [mbind outcome_bind] in Hst; [|discriminate]. simplify_eq/=. lia.
    + destruct (store_nxt h (Some t) None);
        cbn [mbind outcome_bind] in Hst; [|discriminate]. simplify_eq/=. lia.
  - unfold pop in Hst. destruct (Z.eqb_spec (tq_size q) 0).
    + destruct (tq_shutdown q); cbn in Hst; by simplify_eq/=.
    + rewrite andb_false_r in Hst. cbn [andb] in Hst.
      destruct (tq_head q) as [t|]; [|done]. cbn in Hst.
      destruct (h !! t) eqn:Ht; cbn in Hst; [|done]. simplify_eq/=. lia.
  - by simplify_eq/=.
  - unfold task_queue_destroy in Hst.
    destruct (destroy_loop (size h) (tq_head q) h);
      cbn [mbind outcome_bind] in Hst; [|discriminate]. simplify_eq/=. lia.
Qed.

(** Whatever calls the threads make, and in any order, the element counter
    of the task queue stays between 0 and the configured maximum. *)
Theorem task_queue_size_bounded n q :
  0 < n -> tq_reachable n q -> 0 <= tq_size q <= n /\ tq_max_size q = n.
Proof.
  intros Hn Hr. induction Hr as [q0 q Hq|q op h q' h' _ IH Hst].
  - unfold task_queue_init in Hq. destruct (Z.eqb_spec n 0); [lia|]. simplify_eq/=. lia.
  - destruct IH as [IH <-]. destruct (tq_step_count _ _ _ _ _ IH Hst) as [Hc Hm].
    unfold task_count_inv in Hc. lia.
Qed.

Lemma task_queue_size_bounded_witness :
  0 <= tq_size (TaskQueue (Some 1%positive) (Some 1%positive) 1 4 false) <= 4
  /\ tq_max_size (TaskQueue (Some 1%positive) (Some 1%positive) 1 4 false) = 4.
Proof.
  apply (task_queue_size_bounded 4); [lia|].
  eapply (tq_reach_step 4 (TaskQueue None None 0 4 false) (OpPush 1) task_sample_heap).
  - by apply (tq_reach_init 4 (TaskQueue None None 9 9 true)).
  - vm_compute. reflexivity.
Defined.

(** Shutdown wakes everyone and drains: after [task_queue_shutdown] no push
    is accepted any more, and no pop waits: each either hands out a remaining
    task or returns NULL, the latter exactly when none is counted. *)
Theorem task_queue_shutdown_drains q h :
  let q' := (task_queue_shutdown q).2 in
  (forall t, push (Some q') (Some t) h = Ret (-1, Some q', h)) /\
  (forall r q2 h2, pop (Some q') h = Ret (r, q2, h2) ->
     r <> PopWait /\ (r = PopNull <-> tq_size q = 0)).
Proof.
  cbn. split; [done|]. intros r q2 h2. unfold pop. cbn.
  rewrite andb_false_r. destruct (Z.eqb_spec (tq_size q) 0) as [E|E].
  - intros [= <- _ _]. done.
  - destruct (tq_head q) as [t|]; [|done]. cbn. destruct (h !! t) eqn:Ht; cbn; [|done].
    intros [= <- _ _]. done.
Qed.

(** [task_queue_destroy] on a queue whose head leads to the distinct nodes
    [ls] terminates, frees exactly those nodes and leaves the queue empty; the
    iteration bound [size h] of the model is never the reason it stops. *)
Theorem task_queue_destroy_frees q h ls :
  chain h (tq_head q) ls -> NoDup ls ->
  exists h', task_queue_destroy (Some q) h
    = Ret (0, Some (TaskQueue None None 0 (tq_max_size q) (tq_shutdown q)), h') /\
    (forall l, l ∈ ls -> h' !! l = None) /\ (forall l, l ∉ ls -> h' !! l = h !! l).
Proof.
  intros Hc Hnd. unfold task_queue_destroy.
  pose proof (chain_size h _ ls Hc Hnd) as Hlen.
  destruct (destroy_loop_chain ls (size h) _ h Hc Hnd Hlen) as (h' & -> & Hin & Hout).
  by exists h'.
Qed.

Lemma task_queue_destroy_frees_witness :
  exists h', task_queue_destroy (Some (TaskQueue (Some 2%positive) (Some 2%positive) 1 4 true))
      task_sample_heap
    = Ret (0, Some (TaskQueue None None 0 4 true), h') /\
    (forall l, l ∈ [2%positive] -> h' !! l = None) /\
    (forall l, l ∉ [2%positive] -> h' !! l = task_sample_heap !! l).
Proof.
  apply (task_queue_destroy_frees (TaskQueue (Some 2%positive) (Some 2%positive) 1 4 true)
    task_sample_heap [2%positive]).
  - split; [done|]. exists (sample_task 2). done.
  - apply NoDup_singleton.
Defined.

End Queue.
