(* ===== verification/Client.v ===== *)
(** * Sessions of the gateway (gateway/src/client.c, include/client.h)

    The slot table of connected clients, the per-client transmit list and the
    two flush routines.  Transmit nodes live on a heap of [data_transmit]; the
    byte buffer a node owns is its [data] field.  A call of [send], [SSL_write],
    [recv] or [SSL_read] consumes one element of a script of kernel (or TLS
    library) answers, so every loop around them is structurally recursive, and
    an exhausted script is a socket that would block.  [malloc] is a parameter:
    any allocator that returns NULL or an unused location. *)
From Stdlib Require Import Floats.SpecFloat.
From S2P Require Import Prelude Socket Heap Fifo Protocol RateLimit Queue.
Import Protocol.

Module Client.

Definition MAX_CLIENTS : Z := 128.
Definition REQUEST_TIMEOUT_MS : Z := 5000.
Definition IDLE_TIMEOUT_SEC : Z := 60.

Record data_transmit := DataTransmit {
  data : list Z; len : Z; offset : Z; next_data : option loc }.
Definition set_data (v : list Z) (x : data_transmit) : data_transmit :=
  DataTransmit v (len x) (offset x) (next_data x).
Definition set_len (v : Z) (x : data_transmit) : data_transmit :=
  DataTransmit (data x) v (offset x) (next_data x).
Definition set_offset (v : Z) (x : data_transmit) : data_transmit :=
  DataTransmit (data x) (len x) v (next_data x).
Definition set_next_data (v : option loc) (x : data_transmit) : data_transmit :=
  DataTransmit (data x) (len x) (offset x) v.

#[export] Instance data_transmit_linked : Linked data_transmit :=
  {| nxt := next_data; set_nxt := set_next_data;
     nxt_set_nxt _ _ := eq_refl; set_nxt_set_nxt _ _ _ := eq_refl |}.

Abbreviation tx_heap := (gmap loc data_transmit).
Abbreviation rate_limit := (RateLimit.rate_limit spec_float).

(** [ssl] is an opaque handle of the TLS library, [addr] an opaque address. *)
Record client := Client {
  fd : Z; generation : Z; alive : bool; rate : rate_limit;
  stage : read_stage; data_receive : list Z; rx_len : Z; c_tail : option loc;
  c_head : option loc; bytes_need_to_send : Z; addr : Z; last_active_ms : Z;
  ssl : option Z; tls_handshake_done : bool; tls_read_pending : bool }.
Definition set_fd (v : Z) (x : client) : client :=
  Client v (generation x) (alive x) (rate x) (stage x) (data_receive x) (rx_len x) (c_tail
    x) (c_head x) (bytes_need_to_send x) (addr x) (last_active_ms x) (ssl x)
    (tls_handshake_done x) (tls_read_pending x).
Definition set_generation (v : Z) (x : client) : client :=
  Client (fd x) v (alive x) (rate x) (stage x) (data_receive x) (rx_len x) (c_tail x)
    (c_head x) (bytes_need_to_send x) (addr x) (last_active_ms x) (ssl x)
    (tls_handshake_done x) (tls_read_pending x).
Definition set_alive (v : bool) (x : client) : client :=
  Client (fd x) (generation x) v (rate x) (stage x) (data_receive x) (rx_len x) (c_tail x)
    (c_head x) (bytes_need_to_send x) (addr x) (last_active_ms x) (ssl x)
    (tls_handshake_done x) (tls_read_pending x).
Definition set_rate (v : rate_limit) (x : client) : client :=
  Client (fd x) (generation x) (alive x) v (stage x) (data_receive x) (rx_len x) (c_tail x)
    (c_head x) (bytes_need_to_send x) (addr x) (last_active_ms x) (ssl x)
    (tls_handshake_done x) (tls_read_pending x).
Definition set_stage (v : read_stage) (x : client) : client :=
  Client (fd x) (generation x) (alive x) (rate x) v (data_receive x) (rx_len x) (c_tail x)
    (c_head x) (bytes_need_to_send x) (addr x) (last_active_ms x) (ssl x)
    (tls_handshake_done x) (tls_read_pending x).
Definition set_data_receive (v : list Z) (x : client) : client :=
  Client (fd x) (generation x) (alive x) (rate x) (stage x) v (rx_len x) (c_tail x) (c_head
    x) (bytes_need_to_send x) (addr x) (last_active_ms x) (ssl x) (tls_handshake_done x)
    (tls_read_pending x).
Definition set_rx_len (v : Z) (x : client) : client :=
  Client (fd x) (generation x) (alive x) (rate x) (stage x) (data_receive x) v (c_tail x)
    (c_head x) (bytes_need_to_send x) (addr x) (last_active_ms x) (ssl x)
    (tls_handshake_done x) (tls_read_pending x).
Definition set_c_tail (v : option loc) (x : client) : client :=
  Client (fd x) (generation x) (alive x) (rate x) (stage x) (data_receive x) (rx_len x) v
    (c_head x) (bytes_need_to_send x) (addr x) (last_active_ms x) (ssl x)
    (tls_handshake_done x) (tls_read_pending x).
Definition set_c_head (v : option loc) (x : client) : client :=
  Client (fd x) (generation x) (alive x) (rate x) (stage x) (data_receive x) (rx_len x)
    (c_tail x) v (bytes_need_to_send x) (addr x) (last_active_ms x) (ssl x)
    (tls_handshake_done x) (tls_read_pending x).
Definition set_bytes_need_to_send (v : Z) (x : client) : client :=
  Client (fd x) (generation x) (alive x) (rate x) (stage x) (data_receive x) (rx_len x)
    (c_tail x) (c_head x) v (addr x) (last_active_ms x) (ssl x) (tls_handshake_done x)
    (tls_read_pending x).
Definition set_addr (v : Z) (x : client) : client :=
  Client (fd x) (generation x) (alive x) (rate x) (stage x) (data_receive x) (rx_len x)
    (c_tail x) (c_head x) (bytes_need_to_send x) v (last_active_ms x) (ssl x)
    (tls_handshake_done x) (tls_read_pending x).
Definition set_last_active_ms (v : Z) (x : client) : client :=
  Client (fd x) (generation x) (alive x) (rate x) (stage x) (data_receive x) (rx_len x)
    (c_tail x) (c_head x) (bytes_need_to_send x) (addr x) v (ssl x) (tls_handshake_done x)
    (tls_read_pending x).
Definition set_ssl (v : option Z) (x : client) : client :=
  Client (fd x) (generation x) (alive x) (rate x) (stage x) (data_receive x) (rx_len x)
    (c_tail x) (c_head x) (bytes_need_to_send x) (addr x) (last_active_ms x) v
    (tls_handshake_done x) (tls_read_pending x).
Definition set_tls_handshake_done (v : bool) (x : client) : client :=
  Client (fd x) (generation x) (alive x) (rate x) (stage x) (data_receive x) (rx_len x)
    (c_tail x) (c_head x) (bytes_need_to_send x) (addr x) (last_active_ms x) (ssl x) v
    (tls_read_pending x).
Definition set_tls_read_pending (v : bool) (x : client) : client :=
  Client (fd x) (generation x) (alive x) (rate x) (stage x) (data_receive x) (rx_len x)
    (c_tail x) (c_head x) (bytes_need_to_send x) (addr x) (last_active_ms x) (ssl x)
    (tls_handshake_done x) v.

(** ** The C library's allocator *)
Record allocator := Allocator {
  malloc_tx : tx_heap -> option loc;
  malloc_task : Queue.task_heap -> option (loc * Queue.task);
  malloc_response : Queue.response_heap -> option (loc * Queue.response);
  malloc_buf : Z -> option (list Z) }.

(** What [malloc] documents: a returned block is unused and has the size asked;
    its bytes are unspecified (the structs beside the locations). *)
Record allocator_ok (m : allocator) : Prop := {
  tx_fresh h l : malloc_tx m h = Some l -> h !! l = None;
  task_fresh h l t : malloc_task m h = Some (l, t) ->
    h !! l = None /\ zlen (Queue.t_payload t) = MAX_PAYLOAD;
  response_fresh h l r : malloc_response m h = Some (l, r) ->
    h !! l = None /\ zlen (Queue.r_payload r) = MAX_PAYLOAD;
  buf_size n b : malloc_buf m n = Some b -> zlen b = n }.

(** ** epoll interest list (gateway/src/common.c)

    The kernel's interest list maps a descriptor to its event mask; adding a
    registered descriptor or changing an unregistered one fails. *)
Abbreviation epoll := (gmap Z Z).
Definition EPOLLIN : Z := 1.
Definition EPOLLOUT : Z := 4.

Definition epoll_add (e : epoll) (events fd : Z) : Z * epoll :=
  if ((fd <? 0) || bool_decide (is_Some (e !! fd)))%bool then (-1, e)
  else (0, <[fd := events]> e).

Definition epoll_mod (e : epoll) (events fd : Z) : Z * epoll :=
  if ((fd <? 0) || negb (bool_decide (is_Some (e !! fd))))%bool then (-1, e)
  else (0, <[fd := events]> e).

Definition epoll_del (e : epoll) (fd : Z) : Z * epoll :=
  if ((fd <? 0) || negb (bool_decide (is_Some (e !! fd))))%bool then (-1, e)
  else (0, delete fd e).

(** ** Slot table *)

(** The body of the initialisation loop. *)
Definition client_reset (c : client) : client :=
  set_fd (-1) (set_generation 0 (set_c_tail None (set_c_head None (set_alive false
    (set_bytes_need_to_send 0 (set_rx_len 0 (set_stage READ_HEADER (set_ssl None
    (set_tls_handshake_done false (set_tls_read_pending false c)))))))))).

Definition clients_init (clients : option (list client)) (max_clients : Z)
    : outcome (Z * option (list client)) :=
  match clients with
  | None => Ret (-1, None)
  | Some cs =>
      if max_clients <? 1 then Ret (-1, clients)
      else if zlen cs <? max_clients then Undef
      else Ret (0, Some ((client_reset <$> take (Z.to_nat max_clients) cs)
                         ++ drop (Z.to_nat max_clients) cs))
  end.

(** [now] and [now'] are the two clock readings: for the session and inside
    [rate_limit_init]. *)
Definition client_alloc (clients : list client) (max_clients fd : Z) (addr : option Z)
    (now now' : Z) : Z * list client :=
  match addr with
  | None => (-1, clients)
  | Some a =>
      if ((max_clients <? 1) || (fd <? 0))%bool then (-1, clients)
      else
        match list_find (fun c => Client.fd c = -1) (take (Z.to_nat max_clients) clients) with
        | None => (-1, clients)
        | Some (slot, c) =>
            let c := set_fd fd (set_addr a (set_last_active_ms now
              (set_generation (u64 (generation c + 1)) (set_rx_len 0
              (set_stage READ_HEADER (set_c_tail None (set_c_head None
              (set_bytes_need_to_send 0 (set_ssl None (set_tls_handshake_done false
              (set_tls_read_pending false c))))))))))) in
            let c := match (RateLimit.rate_limit_init now' RateLimit.RATE_LIMIT_CAP
                              RateLimit.RATE_LIMIT_REFILL_SEC (Some (rate c))).2 with
                     | Some r => set_rate r c
                     | None => c
                     end in
            (Z.of_nat slot, <[slot := set_alive true c]> clients)
        end
  end.

Definition fd_to_slot (clients : list client) (client_fd max_client : Z) : Z :=
  if client_fd <? 0 then -1
  else
    match list_find (fun c => alive c = true /\ fd c = client_fd)
            (take (Z.to_nat max_client) clients) with
    | Some (i, _) => Z.of_nat i
    | None => -1
    end.

(** ** Transmit list *)

Definition enqueue_message (m : allocator) (c : client) (data : option (list Z)) (len : Z)
    (h : tx_heap) : outcome (Z * client * tx_heap) :=
  match data with
  | None => Ret (-1, c, h)
  | Some d =>
      match malloc_tx m h with
      | None => Ret (-1, c, h)
      | Some data_send =>
          let h := <[data_send := DataTransmit d len 0 None]> h in
          '(c, h) ←
            match c_tail c with
            | None => Ret (set_c_head (Some data_send) c, h)
            | Some _ => h ← store_nxt h (c_tail c) (Some data_send); Ret (c, h)
            end;
          let c := set_c_tail (Some data_send) c in
          Ret (0, set_bytes_need_to_send (u64 (bytes_need_to_send c + len)) c, h)
      end
  end.

Definition dequeue_message (c : client) (h : tx_heap)
    : outcome (option loc * client * tx_heap) :=
  match c_head c with
  | None => Ret (None, c, h)
  | Some data =>
      x ← load h (Some data);
      let c := set_c_head (next_data x) c in
      let c := if next_data x is None then set_c_tail None c else c in
      h ← store_nxt h (Some data) None;
      Ret (Some data, c, h)
  end.

(** ** Sending *)

Definition SSL_ERROR_WANT_READ : Z := 2.
Definition SSL_ERROR_WANT_WRITE : Z := 3.
Definition SSL_ERROR_ZERO_RETURN : Z := 6.

(** The loop of [send_data_to_client]; the result is the return value, the
    bytes put on the wire and the unread answers.  A call takes at least one
    and at most all of the remaining bytes. *)
Fixpoint send_loop (script : list tx_event) (data : list Z) (sent_total : Z)
    : Z * list Z * list tx_event :=
  if sent_total <? zlen data then
    match script with
    | [] => (if 0 <? sent_total then sent_total else -2, [], [])
    | TxErr err :: script =>
        if err =? EINTR then send_loop script data sent_total
        else if err =? EAGAIN
        then (if 0 <? sent_total then sent_total else -2, [], script)
        else (-1, [], script)
    | TxZero :: script => (1, [], script)
    | TxAccept k :: script =>
        let ret := Z.max 1 (Z.min k (zlen data - sent_total)) in
        let '(r, wire, script) := send_loop script data (sent_total + ret) in
        (r, take (Z.to_nat ret) (drop (Z.to_nat sent_total) data) ++ wire, script)
    end
  else (sent_total, [], script).

Definition send_data_to_client (script : list tx_event) (client_fd : Z) (data : list Z)
    : Z * list Z * list tx_event :=
  if client_fd <? 0 then (-1, [], script) else send_loop script data 0.

(** The same loop over [SSL_write]; [TxErr] carries [SSL_get_error]. *)
Fixpoint send_loop_tls (script : list tx_event) (data : list Z) (sent_total : Z)
    : Z * list Z * list tx_event :=
  if sent_total <? zlen data then
    match script with
    | [] => (if 0 <? sent_total then sent_total else -2, [], [])
    | TxErr err :: script =>
        (if 0 <? sent_total then sent_total
         else if err =? SSL_ERROR_WANT_WRITE then -2
         else if err =? SSL_ERROR_WANT_READ then -3
         else if err =? SSL_ERROR_ZERO_RETURN then 0
         else -1, [], script)
    | TxZero :: script => (1, [], script)
    | TxAccept k :: script =>
        let ret := Z.max 1 (Z.min k (zlen data - sent_total)) in
        let '(r, wire, script) := send_loop_tls script data (sent_total + ret) in
        (r, take (Z.to_nat ret) (drop (Z.to_nat sent_total) data) ++ wire, script)
    end
  else (sent_total, [], script).

Definition send_data_to_client_tls (script : list tx_event) (data : list Z)
    : Z * list Z * list tx_event := send_loop_tls script data 0.

(** State of a flush: the session, the transmit heap, the bytes on the wire. *)
Record flush := Flush { f_client : client; f_heap : tx_heap; f_wire : list Z }.

(** The while loop of [flush_message_from_queue]: one iteration per message;
    [now] is the clock at each message.  Every iteration frees a node, so
    [size h] iterations suffice. *)
Fixpoint flush_loop (fuel : nat) (script : list tx_event) (now : Z)
    (send_data : option loc) (f : flush) : outcome (Z * flush) :=
  match send_data with
  | None => Ret (0, Flush (set_last_active_ms now (f_client f)) (f_heap f) (f_wire f))
  | Some l =>
      match fuel with
      | O => Undef
      | S fuel =>
          let c := f_client f in
          x ← load (f_heap f) (Some l);
          d ← read_at (data x) 0 (len x);
          let '(ret, wire, script) := send_data_to_client script (fd c) d in
          let out := f_wire f ++ wire in
          if ret <? 0 then
            h ← free (f_heap f) (Some l); Ret (-1, Flush c h out)
          else if ret =? 1 then
            h ← free (f_heap f) (Some l); Ret (2, Flush (set_alive false c) h out)
          else if ret =? -2 then
            h ← store_nxt (f_heap f) (Some l) (c_head c);
            let c := set_c_head (Some l) c in
            let c := if c_tail c is None then set_c_tail (Some l) c else c in
            Ret (1, Flush c h out)
          else
            let c := set_last_active_ms now c in
            let c := set_bytes_need_to_send (u64 (bytes_need_to_send c - len x)) c in
            h ← free (f_heap f) (Some l);
            '(next, c, h) ← dequeue_message c h;
            flush_loop fuel script now next (Flush c h out)
      end
  end.

Definition flush_message_from_queue (script : list tx_event) (now : Z) (c : client)
    (h : tx_heap) : outcome (Z * flush) :=
  match c_head c with
  | None => Ret (1, Flush c h [])
  | Some _ =>
      '(send_data, c, h') ← dequeue_message c h;
      flush_loop (size h) script now send_data (Flush c h' [])
  end.

(** ** Flushing over TLS *)

Record flush_tls := FlushTls {
  ft_client : client; ft_heap : tx_heap; ft_epoll : epoll; ft_wire : list Z }.

(** The loop of [client_flush_tx_tls].  After a complete message the head of
    the list becomes the [next_data] of the dequeued node. *)
Fixpoint flush_tls_loop (fuel : nat) (script : list tx_event) (now : Z)
    (send_data : option loc) (f : flush_tls) : outcome (Z * flush_tls) :=
  let c := ft_client f in
  match send_data with
  | None =>
      let e := (epoll_mod (ft_epoll f) EPOLLIN (fd c)).2 in
      Ret (0, FlushTls (set_last_active_ms now c) (ft_heap f) e (ft_wire f))
  | Some l =>
      match fuel with
      | O => Undef
      | S fuel =>
          x ← load (ft_heap f) (Some l);
          d ← read_at (data x) (offset x) (len x - offset x);
          let '(ret, wire, script) := send_data_to_client_tls script d in
          let out := ft_wire f ++ wire in
          if ((ret =? -1) || (ret =? 0))%bool then
            h ← free (ft_heap f) (Some l);
            Ret (if ret =? 0 then 2 else -1, FlushTls c h (ft_epoll f) out)
          else if ((ret =? -2) || (ret =? -3))%bool then
            let e := (if ret =? -2
                      then epoll_mod (ft_epoll f) (Z.lor EPOLLIN EPOLLOUT) (fd c)
                      else epoll_mod (ft_epoll f) EPOLLIN (fd c)).2 in
            Ret (1, FlushTls c (ft_heap f) e out)
          else
            let x := set_offset (offset x + ret) x in
            let h := <[l := x]> (ft_heap f) in
            let c := set_bytes_need_to_send (u64 (bytes_need_to_send c - ret)) c in
            let c := set_last_active_ms now c in
            if offset x <? len x then
              let e := (epoll_mod (ft_epoll f) (Z.lor EPOLLIN EPOLLOUT) (fd c)).2 in
              Ret (1, FlushTls c h e out)
            else
              let c := set_c_head (next_data x) c in
              let c := if next_data x is None then set_c_tail None c else c in
              h ← free h (Some l);
              flush_tls_loop fuel script now (c_head c) (FlushTls c h (ft_epoll f) out)
      end
  end.

Definition client_flush_tx_tls (script : list tx_event) (now : Z) (c : client)
    (h : tx_heap) (e : epoll) : outcome (Z * flush_tls) :=
  match c_head c with
  | None => Ret (0, FlushTls c h e [])
  | Some _ =>
      '(send_data, c, h') ← dequeue_message c h;
      flush_tls_loop (size h) script now send_data (FlushTls c h' e [])
  end.

(** ** Responses, closing, tasks *)

Definition check_response_message (response : Queue.response) (c : client) : bool :=
  generation c =? Queue.r_generation response.

Definition packet_response_message (m : allocator) (response : option Queue.response)
    : outcome (option (list Z)) :=
  match response with
  | None => Ret None
  | Some r =>
      let total_len := u32 (HEADER_SIZE + Queue.r_length r + CRC_SIZE) in
      match malloc_buf m total_len with
      | None => Ret None
      | Some buffer =>
          '(ret, buffer) ← packet_encode (Some buffer) total_len (Queue.r_type r)
            (Queue.r_request_id r) (Some (Queue.r_payload r)) (Queue.r_length r);
          Ret (if ret <? 0 then None else buffer)
      end
  end.

(** The freeing loop of [close_client]. *)
Fixpoint free_list (fuel : nat) (data : option loc) (h : tx_heap) : outcome tx_heap :=
  match data with
  | None => Ret h
  | Some _ =>
      match fuel with
      | O => Undef
      | S fuel => x ← load h data; h ← free h data; free_list fuel (next_data x) h
      end
  end.

(** Closing a descriptor removes it from the interest list. *)
Definition close_client (clients : list client) (slot : Z) (e : epoll) (h : tx_heap)
    : outcome (Z * list client * epoll * tx_heap) :=
  if slot <? 0 then Ret (-1, clients, e, h)
  else
    c ← deref (clients !! Z.to_nat slot);
    let e := if 0 <=? fd c then delete (fd c) e else e in
    let c := if 0 <=? fd c then set_fd (-1) c else c in
    let c := set_alive false (set_ssl None c) in
    h ← free_list (size h) (c_head c) h;
    let c := set_c_head None (set_c_tail None (set_bytes_need_to_send 0 (set_rx_len 0 c))) in
    Ret (0, <[Z.to_nat slot := c]> clients, e, h).

(** [now] is the clock reading; fields that are not assigned keep the
    unspecified content of the fresh block. *)
Definition build_task (m : allocator) (c : client) (header : header_packet) (slot now : Z)
    (h : Queue.task_heap) : outcome (option loc * Queue.task_heap) :=
  if slot <? 0 then Ret (None, h)
  else
    match malloc_task m h with
    | None => Ret (None, h)
    | Some (l, junk) =>
        payload ←
          (if ((0 <? h_length header) && (h_length header <=? MAX_PAYLOAD))%bool
           then d ← read_at (data_receive c) HEADER_SIZE (h_length header);
                write_at (Queue.t_payload junk) 0 d
           else Ret (Queue.t_payload junk));
        Ret (Some l,
             <[l := Queue.Task slot (Queue.t_task_id junk) (generation c) (h_type header)
                      (h_request_id header) payload (u64 (now + REQUEST_TIMEOUT_MS)) None
                      (h_length header)]> h)
    end.

(** ** The transmit list as a FIFO *)

Definition tx_state : Type := tx_heap * client.

Definition tx_inv (s : tx_state) : Prop :=
  exists ls, linked_queue s.1 (c_head s.2) (c_tail s.2) ls.

(** The queued messages, links erased. *)
Definition tx_abs (s : tx_state) : list data_transmit :=
  (walk s.1 (c_head s.2) (size s.1)).*2.

(** The nodes that hold them. *)
Definition tx_nodes (s : tx_state) : list loc :=
  (walk s.1 (c_head s.2) (size s.1)).*1.

Lemma tx_abs_cells h c ls :
  linked_queue h (c_head c) (c_tail c) ls -> tx_abs (h, c) = (cells h ls).*2.
Proof.
  intros (Hc & Hnd & _). unfold tx_abs. cbn. f_equal.
  apply walk_chain; [done|by eapply chain_size].
Qed.

Lemma tx_nodes_list h c ls :
  linked_queue h (c_head c) (c_tail c) ls -> tx_nodes (h, c) = ls.
Proof.
  intros (Hc & Hnd & _). unfold tx_nodes. cbn [fst snd].
  rewrite (walk_chain h _ ls) by (done || by eapply chain_size). by eapply cells_fst.
Qed.

Section Tx.
Context (m : allocator) (Hm : allocator_ok m).

(** [enqueue_message] on a well-formed list, when memory is available. *)
Lemma enqueue_message_links c h ls d n l :
  linked_queue h (c_head c) (c_tail c) ls -> malloc_tx m h = Some l ->
  exists h' head,
    enqueue_message m c (Some d) n h
    = Ret (0, set_bytes_need_to_send (u64 (bytes_need_to_send c + n))
                (set_c_tail (Some l) (set_c_head head c)), h') /\
    linked_queue h' head (Some l) (ls ++ [l]) /\
    cells h' (ls ++ [l]) = cells h ls ++ [(l, DataTransmit d n 0 None)] /\
    (l ∉ ls) /\ (forall k, k ∉ ls -> k <> l -> h' !! k = h !! k).
Proof using Hm.
  intros Hq Hl. pose proof (tx_fresh m Hm h l Hl) as Hfresh.
  assert (l ∉ ls) as Hnin.
  { intros Hin. destruct Hq as [Hc _]. apply chain_alloc in Hc.
    eapply Forall_forall in Hc; [|exact Hin]. rewrite Hfresh in Hc. by destruct Hc. }
  unfold enqueue_message. rewrite Hl. destruct (c_tail c) as [t|] eqn:Et.
  - destruct (linked_queue_tail _ _ _ _ Hq) as (Hin & x & Hx).
    assert (t <> l) as Htl by (intros ->; congruence).
    rewrite (store_nxt_alloc _ t x) by (by rewrite lookup_insert_ne).
    cbn [mbind outcome_bind]. eexists _, (c_head c). rewrite insert_insert_ne by done.
    split; [by destruct c|]. split_and!; [| |done|].
    + exact (linked_queue_push_tail h (c_head c) t ls l x (DataTransmit d n 0 None) Hq Hnin Hx).
    + rewrite cells_app.
      rewrite (cells_frame (<[t := set_nxt (Some l) x]> h)), (cells_relink h t x) by
        (done || (intros k Hk; unfold content; rewrite lookup_insert_ne by congruence; done)).
      by erewrite cells_singleton by apply lookup_insert_eq.
    + intros k Hk Hkl. by rewrite !lookup_insert_ne by congruence.
  - apply linked_queue_tail_None in Hq as Hnil. subst ls. cbn [mbind outcome_bind].
    eexists _, (Some l). split; [reflexivity|].
    cbn [app]. split_and!; [|by erewrite cells_singleton by apply lookup_insert_eq|done|].
    + exact (linked_queue_push_empty h (c_head c) None l (DataTransmit d n 0 None) Hq).
    + intros k _ Hkl. by rewrite lookup_insert_ne.
Qed.

(** [dequeue_message] on a well-formed, non-empty list. *)
Lemma dequeue_message_links c h l ls :
  linked_queue h (c_head c) (c_tail c) (l :: ls) ->
  exists x head tail,
    dequeue_message c h
    = Ret (Some l, set_c_tail tail (set_c_head head c), <[l := set_next_data None x]> h) /\
    h !! l = Some x /\ linked_queue (<[l := set_next_data None x]> h) head tail ls.
Proof.
  intros Hq. destruct (linked_queue_pop _ _ _ _ _ Hq) as (x & Hhead & Hx & Hq').
  unfold dequeue_message. rewrite Hhead, (load_alloc h l x) by done.
  cbn [mbind outcome_bind]. rewrite (store_nxt_alloc h l x) by done.
  exists x, (next_data x), (if next_data x is Some _ then c_tail c else None).
  split_and!; [|done..]. cbn. destruct (next_data x); by destruct c.
Qed.

(** The list meets the FIFO contract; a message is accepted whenever memory
    for its node is available. *)
Definition tx_push (s : tx_state) (v : data_transmit) : outcome (option tx_state) :=
  '(ret, c, h) ← enqueue_message m s.2 (Some (data v)) (len v) s.1;
  Ret (if ret =? 0 then Some (h, c) else None).

Definition tx_pop (s : tx_state) : outcome (option (data_transmit * tx_state)) :=
  '(p, c, h) ← dequeue_message s.2 s.1;
  match p with
  | None => Ret None
  | Some l => x ← deref (h !! l); Ret (Some (x, (h, c)))
  end.

(** Other code may touch nodes that are not in this list, and any field of
    the session but its two list pointers. *)
Definition tx_env (s s' : tx_state) : Prop :=
  c_head s'.2 = c_head s.2 /\ c_tail s'.2 = c_tail s.2 /\
  forall l, l ∈ tx_nodes s -> s'.1 !! l = s.1 !! l.

Definition tx_ready (s : tx_state) (v : data_transmit) : Prop :=
  is_Some (malloc_tx m s.1) /\ offset v = 0 /\ next_data v = None.

#[local] Instance tx_fifo : Fifo tx_state data_transmit :=
  {| fifo_inv := tx_inv; fifo_abs := tx_abs; fifo_cap _ := None;
     fifo_ready := tx_ready; fifo_env := tx_env;
     fifo_push := tx_push; fifo_pop := tx_pop |}.

Lemma dequeue_message_empty c h :
  linked_queue h (c_head c) (c_tail c) [] -> dequeue_message c h = Ret (None, c, h).
Proof. intros (Hc & _). cbn in Hc. unfold dequeue_message. by rewrite Hc. Qed.

Lemma tx_push_room (s : tx_state) v :
  tx_inv s -> tx_ready s v ->
  exists s', tx_push s v = Ret (Some s') /\ tx_inv s' /\ tx_abs s' = tx_abs s ++ [v].
Proof using Hm.
  destruct s as [h c], v as [d n o nx]. intros [ls Hq] ([l Hl] & Ho & Hn).
  cbn [fst snd offset next_data] in *. subst.
  destruct (enqueue_message_links c h ls d n l Hq Hl) as (h' & head & He & Hq' & Hc & _).
  unfold tx_push. cbn [fst snd data len]. rewrite He. cbn [mbind outcome_bind].
  eexists. split; [reflexivity|]. split; [by exists (ls ++ [l])|].
  rewrite (tx_abs_cells _ _ (ls ++ [l])), (tx_abs_cells h c ls), Hc by done.
  by rewrite fmap_app.
Qed.

Lemma tx_pop_cons (s : tx_state) v l :
  tx_inv s -> tx_abs s = v :: l ->
  exists s', tx_pop s = Ret (Some (v, s')) /\ tx_inv s' /\ tx_abs s' = l.
Proof.
  destruct s as [h c]. intros [ls Hq] Habs. cbn in *.
  rewrite (tx_abs_cells h c ls Hq) in Habs. destruct ls as [|k ls]; [done|].
  destruct (dequeue_message_links c h k ls Hq) as (x & head & tail & Hd & Hx & Hq').
  rewrite (cells_cons h k x) in Habs by done. cbn in Habs. injection Habs as <- <-.
  unfold tx_pop. cbn [fst snd]. rewrite Hd. cbn [mbind outcome_bind].
  rewrite lookup_insert_eq. cbn [deref mbind outcome_bind].
  eexists. split; [reflexivity|]. split; [by exists ls|].
  rewrite (tx_abs_cells _ _ ls) by done. f_equal.
  exact (cells_relink h k x None ls Hx).
Qed.

#[local] Instance tx_fifo_laws : FifoLaws tx_state data_transmit.
Proof using Hm.
  split; unfold fifo_room; cbn.
  - intros s v Hi Hr _. destruct (tx_push_room s v Hi Hr) as (s' & ? & ? & ?). by exists s'.
  - intros s v _ Hf. by destruct Hf.
  - intros [h c] [ls Hq] Habs. cbn in *. rewrite (tx_abs_cells h c ls Hq) in Habs.
    apply fmap_nil_inv in Habs. destruct ls as [|k ls].
    + unfold tx_pop. cbn [fst snd]. by rewrite dequeue_message_empty.
    + destruct Hq as ((_ & x & Hx & _) & _). by rewrite (cells_cons h k x) in Habs.
  - intros s v l Hi Ha. destruct (tx_pop_cons s v l Hi Ha) as (s' & ? & ? & ?). by exists s'.
  - intros [h c] [h' c'] [ls Hq] (Hh & Ht & Hf). cbn in *.
    rewrite (tx_nodes_list h c ls Hq) in Hf.
    assert (linked_queue h' (c_head c') (c_tail c') ls) as Hq'.
    { rewrite Hh, Ht. destruct Hq as (Hc & Hnd & Hl). split_and!; [|done..].
      by eapply chain_frame. }
    split_and!; [by exists ls| |done].
    rewrite (tx_abs_cells h' c' ls), (tx_abs_cells h c ls) by done. f_equal.
    apply cells_frame. intros k Hk. unfold content. by rewrite Hf.
  - done.
Qed.

(** Runs of the list (see [fifo_run_conserves]). *)
Lemma tx_run_conserves s evs s' :
  tx_inv s -> fifo_run s evs s' ->
  tx_inv s' /\ popped evs ++ tx_abs s' = tx_abs s ++ pushed evs.
Proof using Hm.
  intros Hi Hr. change (fifo_inv (V := data_transmit) s) in Hi.
  by destruct (fifo_run_conserves s evs s' Hi Hr) as (? & _ & ?).
Qed.

End Tx.

(** ** The transmit lists of all sessions *)

(** Every list is well formed and no node is in two of them. *)
Definition tx_ok (h : tx_heap) (cs : list client) : Prop :=
  (forall i c, cs !! i = Some c -> tx_inv (h, c)) /\
  (forall i j c d l, cs !! i = Some c -> cs !! j = Some d ->
     l ∈ tx_nodes (h, c) -> l ∈ tx_nodes (h, d) -> i = j).

(** A change of the heap outside a session's nodes is invisible to it. *)
Lemma tx_frame h h' c :
  tx_inv (h, c) -> (forall l, l ∈ tx_nodes (h, c) -> h' !! l = h !! l) ->
  tx_inv (h', c) /\ tx_abs (h', c) = tx_abs (h, c) /\ tx_nodes (h', c) = tx_nodes (h, c).
Proof.
  intros [ls Hq] Hf. cbn [fst snd] in Hq. rewrite (tx_nodes_list h c ls Hq) in Hf.
  assert (linked_queue h' (c_head c) (c_tail c) ls) as Hq'.
  { destruct Hq as (Hc & Hnd & Hl). split_and!; [|done..]. by eapply chain_frame. }
  split_and!; [by exists ls| |].
  - rewrite (tx_abs_cells h' c ls), (tx_abs_cells h c ls) by done. f_equal.
    apply cells_frame. intros k Hk. unfold content. by rewrite Hf.
  - by rewrite (tx_nodes_list h' c ls), (tx_nodes_list h c ls).
Qed.

Lemma tx_nodes_alloc h c l : tx_inv (h, c) -> l ∈ tx_nodes (h, c) -> is_Some (h !! l).
Proof.
  intros [ls Hq]. cbn [fst snd] in Hq. rewrite (tx_nodes_list h c ls Hq). intros Hl.
  destruct Hq as [Hc _]. apply chain_alloc in Hc. by eapply Forall_forall in Hc.
Qed.

(** Fields of a session other than its list pointers do not matter. *)
Lemma tx_same_pointers h c d :
  c_head d = c_head c -> c_tail d = c_tail c ->
  tx_inv (h, d) = tx_inv (h, c) /\ tx_abs (h, d) = tx_abs (h, c) /\
  tx_nodes (h, d) = tx_nodes (h, c).
Proof. unfold tx_inv, tx_abs, tx_nodes. cbn. by intros -> ->. Qed.

Lemma tx_ok_same_pointers h cs i c d :
  tx_ok h cs -> cs !! i = Some c -> c_head d = c_head c -> c_tail d = c_tail c ->
  tx_ok h (<[i := d]> cs).
Proof.
  intros [Hinv Hdis] Hc Hh Ht. destruct (tx_same_pointers h c d Hh Ht) as (Ei & Ea & En).
  pose proof (lookup_lt_Some _ _ _ Hc) as Hi. split.
  - intros j e He. destruct (decide (i = j)) as [<-|Hij].
    + rewrite list_lookup_insert_eq in He by done. injection He as <-. rewrite Ei. by eapply Hinv.
    + rewrite list_lookup_insert_ne in He by done. by eapply Hinv.
  - assert (forall j e l, <[i := d]> cs !! j = Some e -> l ∈ tx_nodes (h, e) ->
      exists e', cs !! j = Some e' /\ l ∈ tx_nodes (h, e')) as Hback.
    { intros j e l He Hl. destruct (decide (i = j)) as [<-|Hij].
      - rewrite list_lookup_insert_eq in He by done. injection He as <-.
        exists c. by rewrite <- En.
      - rewrite list_lookup_insert_ne in He by done. by exists e. }
    intros j k e f l He Hf Hle Hlf.
    destruct (Hback j e l He Hle) as (e' & He' & Hle').
    destruct (Hback k f l Hf Hlf) as (f' & Hf' & Hlf'). by eapply Hdis.
Qed.

(** Enqueueing on one session appends there and changes no other list. *)
Lemma enqueue_table m h cs i c d n l :
  allocator_ok m -> tx_ok h cs -> cs !! i = Some c -> malloc_tx m h = Some l ->
  exists c' h', enqueue_message m c (Some d) n h = Ret (0, c', h') /\
    tx_ok h' (<[i := c']> cs) /\
    tx_abs (h', c') = tx_abs (h, c) ++ [DataTransmit d n 0 None] /\
    (forall j e, i <> j -> cs !! j = Some e -> tx_abs (h', e) = tx_abs (h, e)) /\
    fd c' = fd c /\ alive c' = alive c /\ generation c' = generation c /\
    stage c' = stage c /\ rx_len c' = rx_len c /\ data_receive c' = data_receive c.
Proof.
  intros Hm [Hinv Hdis] Hc Hl. destruct (Hinv i c Hc) as [ls Hq]. cbn [fst snd] in Hq.
  destruct (enqueue_message_links m Hm c h ls d n l Hq Hl)
    as (h' & head & He & Hq' & Hcells & Hnin & Hframe).
  set (c' := set_bytes_need_to_send _ _) in He. exists c', h'. split; [done|].
  pose proof (tx_fresh m Hm h l Hl) as Hfresh.
  pose proof (tx_nodes_list h c ls Hq) as En.
  assert (tx_nodes (h', c') = ls ++ [l]) as En' by (by apply tx_nodes_list).
  pose proof (lookup_lt_Some _ _ _ Hc) as Hi.
  assert (forall j e, i <> j -> cs !! j = Some e ->
    tx_inv (h', e) /\ tx_abs (h', e) = tx_abs (h, e) /\ tx_nodes (h', e) = tx_nodes (h, e) /\
    (l ∉ tx_nodes (h, e))) as Hother.
  { intros j e Hij Hej. assert (l ∉ tx_nodes (h, e)) as Hle.
    { intros Hle. destruct (tx_nodes_alloc h e l (Hinv j e Hej) Hle). congruence. }
    destruct (tx_frame h h' e (Hinv j e Hej)) as (? & ? & ?); [|done].
    intros k Hk. apply Hframe; [|congruence]. intros Hkls. apply Hij.
    eapply (Hdis i j c e k); [done..|by rewrite En|done]. }
  assert (tx_abs (h', c') = tx_abs (h, c) ++ [DataTransmit d n 0 None]) as Habs.
  { rewrite (tx_abs_cells h' c' (ls ++ [l])) by exact Hq'.
    by rewrite (tx_abs_cells h c ls Hq), Hcells, fmap_app. }
  split_and!; [|done|intros j e Hij Hej; by apply (Hother j e)|done..]. split.
  - intros j e Hej. destruct (decide (i = j)) as [<-|Hij].
    + rewrite list_lookup_insert_eq in Hej by done. injection Hej as <-. by exists (ls ++ [l]).
    + rewrite list_lookup_insert_ne in Hej by done. by apply (Hother j e).
  - assert (forall j e k, i <> j -> cs !! j = Some e -> k ∈ ls ++ [l] ->
      k ∈ tx_nodes (h', e) -> False) as Hsep.
    { intros j e k Hij Hej Hk Hke. destruct (Hother j e Hij Hej) as (_ & _ & Ene & Hle).
      rewrite Ene in Hke. apply elem_of_app in Hk as [Hk|Hk].
      - apply Hij. eapply (Hdis i j c e k); [done..|by rewrite En|done].
      - apply list_elem_of_singleton in Hk. congruence. }
    intros j k e f x He' Hf' Hxe Hxf.
    destruct (decide (i = j)) as [<-|Hij], (decide (i = k)) as [<-|Hik]; [done|..].
    + rewrite list_lookup_insert_eq in He' by done. injection He' as <-. rewrite En' in Hxe.
      rewrite list_lookup_insert_ne in Hf' by done. by destruct (Hsep k f x).
    + rewrite list_lookup_insert_eq in Hf' by done. injection Hf' as <-. rewrite En' in Hxf.
      rewrite list_lookup_insert_ne in He' by done. by destruct (Hsep j e x).
    + rewrite list_lookup_insert_ne in He', Hf' by done.
      destruct (Hother j e Hij He') as (_ & _ & Eje & _), (Hother k f Hik Hf') as (_ & _ & Ekf & _).
      rewrite Eje in Hxe. rewrite Ekf in Hxf. by eapply Hdis.
Qed.

(** ** The slot table *)

(** Live sessions have a descriptor, and no two the same one. *)
Definition table_ok (cs : list client) : Prop :=
  (forall i c, cs !! i = Some c -> alive c = true -> 0 <= fd c) /\
  (forall i j c d, cs !! i = Some c -> cs !! j = Some d ->
     alive c = true -> alive d = true -> fd c = fd d -> i = j).

(** The session a descriptor belongs to. *)
Definition live_at (cs : list client) (i : nat) (f : Z) : Prop :=
  exists c, cs !! i = Some c /\ alive c = true /\ fd c = f.

Lemma take_zlen {A} (l : list A) : take (Z.to_nat (zlen l)) l = l.
Proof. rewrite zlen_length. apply firstn_all. Qed.

Lemma fd_to_slot_live cs f i :
  table_ok cs -> 0 <= f -> live_at cs i f -> fd_to_slot cs f (zlen cs) = Z.of_nat i.
Proof.
  intros [_ Huniq] Hf (c & Hc & Ha & Hfd). unfold fd_to_slot. rewrite take_zlen.
  destruct (Z.ltb_spec f 0); [lia|].
  destruct (list_find _ cs) as [[j d]|] eqn:Hfind.
  - apply list_find_Some in Hfind as (Hd & [Had Hfdd] & _). f_equal.
    eapply Huniq; [exact Hd|exact Hc|done|done|congruence].
  - eapply list_find_None, Forall_lookup_1 in Hfind; [|exact Hc]. by destruct Hfind.
Qed.

Lemma fd_to_slot_dead cs f :
  (forall i, ~ live_at cs i f) -> fd_to_slot cs f (zlen cs) = -1.
Proof.
  intros Hdead. unfold fd_to_slot. rewrite take_zlen. destruct (f <? 0); [done|].
  destruct (list_find _ cs) as [[j d]|] eqn:Hfind; [|done]. exfalso.
  apply list_find_Some in Hfind as (Hd & [Had Hfdd] & _). apply (Hdead j). by exists d.
Qed.

(** Updating one slot. *)
Lemma live_at_insert_ne cs i j c f :
  i <> j -> live_at (<[j := c]> cs) i f <-> live_at cs i f.
Proof. intros Hij. unfold live_at. by rewrite list_lookup_insert_ne. Qed.

Lemma live_at_insert cs j c f :
  (j < length cs)%nat -> live_at (<[j := c]> cs) j f <-> alive c = true /\ fd c = f.
Proof.
  intros Hj. unfold live_at. rewrite list_lookup_insert_eq by done. split.
  - intros (d & [= <-] & ?). done.
  - intros ?. by exists c.
Qed.

Lemma table_ok_insert cs j c :
  table_ok cs ->
  (alive c = true -> 0 <= fd c /\ forall i, i <> j -> ~ live_at cs i (fd c)) ->
  table_ok (<[j := c]> cs).
Proof.
  intros [Hpos Huniq] Hnew. destruct (decide (j < length cs)%nat) as [Hj|Hj];
    [|by rewrite list_insert_ge by lia]. split.
  - intros i d Hd Ha. destruct (decide (i = j)) as [->|Hij].
    + rewrite list_lookup_insert_eq in Hd by done. injection Hd as <-. by apply Hnew.
    + rewrite list_lookup_insert_ne in Hd by done. by eapply Hpos.
  - intros i k d e Hd He Had Hae Heq.
    destruct (decide (i = j)) as [->|Hij], (decide (k = j)) as [->|Hkj]; [done|..].
    + rewrite list_lookup_insert_eq in Hd by done. injection Hd as <-.
      rewrite list_lookup_insert_ne in He by done.
      destruct (proj2 (Hnew Had) k Hkj). by exists e.
    + rewrite list_lookup_insert_eq in He by done. injection He as <-.
      rewrite list_lookup_insert_ne in Hd by done.
      destruct (proj2 (Hnew Hae) i Hij). by exists d.
    + rewrite list_lookup_insert_ne in Hd, He by done. by eapply (Huniq i k d e).
Qed.

(** The session a successful [client_alloc] stores. *)
Definition fresh_session (c : client) (fd a now now' : Z) : client :=
  Client fd (u64 (generation c + 1)) true
    (RateLimit.RateLimit RateLimit.RATE_LIMIT_CAP RateLimit.RATE_LIMIT_CAP
       RateLimit.RATE_LIMIT_REFILL_SEC now')
    READ_HEADER (data_receive c) 0 None None 0 a now None false false.

Lemma client_alloc_cases cs f a now now' :
  1 <= zlen cs -> 0 <= f ->
  (exists slot c, cs !! slot = Some c /\ fd c = -1 /\
     (forall i d, (i < slot)%nat -> cs !! i = Some d -> fd d <> -1) /\
     client_alloc cs (zlen cs) f (Some a) now now'
     = (Z.of_nat slot, <[slot := fresh_session c f a now now']> cs)) \/
  ((forall i d, cs !! i = Some d -> fd d <> -1) /\
     client_alloc cs (zlen cs) f (Some a) now now' = (-1, cs)).
Proof.
  intros Hl Hf. unfold client_alloc. rewrite take_zlen.
  destruct (Z.ltb_spec (zlen cs) 1); [lia|]. destruct (Z.ltb_spec f 0); [lia|]. cbn [orb].
  destruct (list_find _ cs) as [[slot c]|] eqn:Hfind.
  - apply list_find_Some in Hfind as (Hc & Hfd & Hmin). left. exists slot, c.
    split_and!; [done..| |by destruct c]. intros i d Hi Hd. by eapply Hmin.
  - right. split; [|done]. intros i d Hd.
    eapply list_find_None, Forall_lookup_1 in Hfind; [|exact Hd]. done.
Qed.

(** Accepting a connection: [client_alloc] takes the first free slot and
    starts a session there with the next generation number, an empty receive
    buffer, an empty transmit list and a full rate bucket; every other slot is
    untouched; and it fails with -1, changing nothing, only if no slot is free. *)
Theorem client_alloc_first_free cs f a now now' :
  1 <= zlen cs -> 0 <= f ->
  (exists slot c, cs !! slot = Some c /\ fd c = -1 /\
     (forall i d, (i < slot)%nat -> cs !! i = Some d -> fd d <> -1) /\
     client_alloc cs (zlen cs) f (Some a) now now'
     = (Z.of_nat slot, <[slot := fresh_session c f a now now']> cs)) \/
  ((forall i d, cs !! i = Some d -> fd d <> -1) /\
     client_alloc cs (zlen cs) f (Some a) now now' = (-1, cs)).
Proof. apply client_alloc_cases. Qed.

(** Routing by descriptor: once a new descriptor (one no live session uses)
    is accepted, [fd_to_slot] maps it to the slot it was given, every other
    live session keeps its slot, and live descriptors stay unique. *)
Theorem client_alloc_routing cs f a now now' slot cs' :
  1 <= zlen cs -> 0 <= f -> table_ok cs -> (forall i, ~ live_at cs i f) ->
  client_alloc cs (zlen cs) f (Some a) now now' = (slot, cs') -> slot <> -1 ->
  table_ok cs' /\ fd_to_slot cs' f (zlen cs') = slot /\
  (forall i g, live_at cs i g -> fd_to_slot cs' g (zlen cs') = Z.of_nat i).
Proof.
  intros Hl Hf Hok Hnew Halloc Hne.
  destruct (client_alloc_cases cs f a now now' Hl Hf)
    as [(s & c & Hc & Hfd & _ & E)|[_ E]]; rewrite E in Halloc; injection Halloc as <- <-;
    [|done].
  pose proof (lookup_lt_Some _ _ _ Hc) as Hs.
  assert (table_ok (<[s := fresh_session c f a now now']> cs)) as Hok'.
  { apply table_ok_insert; [done|]. intros _. split; [done|]. intros i _. apply Hnew. }
  split_and!; [done| |].
  - apply fd_to_slot_live; [done..|]. by apply live_at_insert.
  - intros i g Hlive. assert (0 <= g) as Hg.
    { destruct Hlive as (d & Hd & Ha & <-). by eapply Hok. }
    apply fd_to_slot_live; [done..|]. apply live_at_insert_ne; [|done].
    intros ->. destruct Hlive as (d & Hd & _ & <-). rewrite Hc in Hd. injection Hd as <-. lia.
Qed.

Definition sample_client (f : Z) (a : bool) : client :=
  Client f 3 a (RateLimit.full_bucket 0) READ_HEADER (replicate (Z.to_nat 8192) 0) 0 None None 0 0 0
    None false false.

Definition sample_table : list client :=
  [sample_client 7 true; sample_client (-1) false; sample_client (-1) false].

Lemma sample_table_ok : table_ok sample_table.
Proof.
  split.
  - intros [|[|[|i]]] c; cbn; intros [= <-]; cbn; done.
  - intros [|[|[|i]]] [|[|[|j]]] c d; cbn; intros [= <-] [= <-]; cbn; done.
Qed.

Lemma client_alloc_first_free_witness :
  (exists slot c, sample_table !! slot = Some c /\ fd c = -1 /\
     (forall i d, (i < slot)%nat -> sample_table !! i = Some d -> fd d <> -1) /\
     client_alloc sample_table (zlen sample_table) 9 (Some 5) 10 11
     = (Z.of_nat slot, <[slot := fresh_session c 9 5 10 11]> sample_table)) \/
  ((forall i d, sample_table !! i = Some d -> fd d <> -1) /\
     client_alloc sample_table (zlen sample_table) 9 (Some 5) 10 11 = (-1, sample_table)).
Proof. apply (client_alloc_first_free sample_table 9 5 10 11); vm_compute; discriminate. Defined.

Lemma client_alloc_routing_witness :
  exists cs', client_alloc sample_table (zlen sample_table) 9 (Some 5) 10 11 = (1, cs') /\
    fd_to_slot cs' 9 (zlen cs') = 1.
Proof.
  eexists. split; [reflexivity|].
  refine (proj1 (proj2 (client_alloc_routing sample_table 9 5 10 11 1 _ _ _ sample_table_ok
    _ _ _))); [vm_compute; discriminate|lia| |reflexivity|lia].
  intros [|[|[|i]]] (c & [= <-] & ? & ?); done.
Defined.

(** ** Closing *)

Lemma free_list_chain ls fuel p h :
  chain h p ls -> NoDup ls -> (length ls <= fuel)%nat ->
  exists h', free_list fuel p h = Ret h' /\
    (forall l, l ∈ ls -> h' !! l = None) /\ (forall l, l ∉ ls -> h' !! l = h !! l).
Proof.
  revert fuel p h. induction ls as [|l ls IH]; intros fuel p h Hc Hnd Hf.
  - cbn in Hc. subst p. exists h. destruct fuel; split_and!; (done || set_solver).
  - destruct Hc as (-> & x & Hx & Hc). apply NoDup_cons in Hnd as [Hl Hnd].
    destruct fuel as [|fuel]; [cbn in Hf; lia|]. cbn [free_list].
    rewrite (load_alloc h l x), (free_alloc h l x) by done. cbn [mbind outcome_bind].
    destruct (IH fuel (next_data x) (delete l h)) as (h' & -> & Hin & Hout).
    { by apply chain_delete_fresh. }
    { done. }
    { cbn in Hf. lia. }
    exists h'. split_and!; [done| |].
    + intros k [->|Hk]%elem_of_cons; [|auto]. rewrite Hout by done. apply lookup_delete_eq.
    + intros k Hk. rewrite Hout by set_solver. apply lookup_delete_ne. set_solver.
Qed.

(** The session a [close_client] leaves behind. *)
Definition closed_session (c : client) : client :=
  set_c_head None (set_c_tail None (set_bytes_need_to_send 0 (set_rx_len 0
    (set_alive false (set_ssl None (if 0 <=? fd c then set_fd (-1) c else c)))))).

Lemma close_client_run cs slot c e h ls :
  cs !! slot = Some c -> linked_queue h (c_head c) (c_tail c) ls ->
  exists h', close_client cs (Z.of_nat slot) e h
    = Ret (0, <[slot := closed_session c]> cs, if 0 <=? fd c then delete (fd c) e else e, h') /\
    (forall l, l ∈ ls -> h' !! l = None) /\ (forall l, l ∉ ls -> h' !! l = h !! l).
Proof.
  intros Hc (Hch & Hnd & _). unfold close_client.
  destruct (Z.ltb_spec (Z.of_nat slot) 0); [lia|]. rewrite Nat2Z.id, Hc.
  cbn [deref mbind outcome_bind].
  assert (c_head (set_alive false (set_ssl None (if 0 <=? fd c then set_fd (-1) c else c)))
          = c_head c) as -> by (by destruct (0 <=? fd c)).
  destruct (free_list_chain ls (size h) _ h Hch Hnd (chain_size _ _ _ Hch Hnd))
    as (h' & -> & Hin & Hout). by exists h'.
Qed.

(** Closing, seen by the whole table. *)
Lemma close_table h cs i c e :
  tx_ok h cs -> cs !! i = Some c ->
  exists h', close_client cs (Z.of_nat i) e h
    = Ret (0, <[i := closed_session c]> cs, if 0 <=? fd c then delete (fd c) e else e, h') /\
    tx_ok h' (<[i := closed_session c]> cs) /\
    (forall l, l ∈ tx_nodes (h, c) -> h' !! l = None) /\
    (forall l, l ∉ tx_nodes (h, c) -> h' !! l = h !! l).
Proof.
  intros [Hinv Hdis] Hc. destruct (Hinv i c Hc) as [ls Hq]. cbn [fst snd] in Hq.
  pose proof (tx_nodes_list h c ls Hq) as En. rewrite En.
  destruct (close_client_run cs i c e h ls Hc Hq) as (h' & E & Hin & Hout).
  exists h'. split_and!; [done| |done|done]. pose proof (lookup_lt_Some _ _ _ Hc) as Hi.
  assert (forall j d, i <> j -> cs !! j = Some d ->
    tx_inv (h', d) /\ tx_nodes (h', d) = tx_nodes (h, d)) as Hother.
  { intros j d Hij Hd. destruct (tx_frame h h' d (Hinv j d Hd)) as (? & _ & ?); [|done].
    intros l Hl. apply Hout. intros Hls. apply Hij.
    eapply (Hdis i j c d l); [done..|by rewrite En|done]. }
  assert (c_head (closed_session c) = None /\ c_tail (closed_session c) = None) as [Hh Ht] by done.
  split.
  - intros j d Hd. destruct (decide (i = j)) as [<-|Hij].
    + rewrite list_lookup_insert_eq in Hd by done. injection Hd as <-. exists [].
      cbn [fst snd]. rewrite Hh, Ht. apply linked_queue_nil.
    + rewrite list_lookup_insert_ne in Hd by done. by apply (Hother j d).
  - assert (forall j d l, <[i := closed_session c]> cs !! j = Some d -> l ∈ tx_nodes (h', d) ->
      i <> j /\ cs !! j = Some d /\ l ∈ tx_nodes (h, d)) as Hback.
    { intros j d l Hd Hl. destruct (decide (i = j)) as [<-|Hij].
      - rewrite list_lookup_insert_eq in Hd by done. injection Hd as <-.
        unfold tx_nodes in Hl. cbn [fst snd] in Hl. rewrite Hh in Hl.
        destruct (size h'); by apply not_elem_of_nil in Hl.
      - rewrite list_lookup_insert_ne in Hd by done.
        destruct (Hother j d Hij Hd) as [_ En']. by rewrite <- En'. }
    intros j k d f l Hd Hf Hld Hlf.
    destruct (Hback j d l Hd Hld) as (_ & Hd' & Hld'), (Hback k f l Hf Hlf) as (_ & Hf' & Hlf').
    by eapply Hdis.
Qed.

(** Closing a session frees exactly its queued messages, leaves the slot
    free and dead, removes the descriptor from the interest list so that no
    further event is dispatched to it, and keeps every other session routed to
    its slot. *)
Theorem close_client_releases cs slot c e h ls :
  table_ok cs -> cs !! slot = Some c -> 0 <= fd c -> alive c = true ->
  linked_queue h (c_head c) (c_tail c) ls ->
  exists cs' h', close_client cs (Z.of_nat slot) e h = Ret (0, cs', delete (fd c) e, h') /\
    (forall l, l ∈ ls -> h' !! l = None) /\ (forall l, l ∉ ls -> h' !! l = h !! l) /\
    table_ok cs' /\ fd_to_slot cs' (fd c) (zlen cs') = -1 /\
    (forall i g, i <> slot -> live_at cs i g -> fd_to_slot cs' g (zlen cs') = Z.of_nat i).
Proof.
  intros Hok Hc Hfd Ha Hq.
  destruct (close_client_run cs slot c e h ls Hc Hq) as (h' & E & Hin & Hout).
  destruct (Z.leb_spec 0 (fd c)); [|lia].
  assert (table_ok (<[slot := closed_session c]> cs)) as Hok'.
  { apply table_ok_insert; [done|]. unfold closed_session. by destruct (0 <=? fd c). }
  eexists _, h'. split; [exact E|]. split_and!; [done..| |].
  - apply fd_to_slot_dead. intros i Hi. destruct (decide (i = slot)) as [->|Hne].
    + rewrite live_at_insert in Hi by (by eapply lookup_lt_Some).
      unfold closed_session in Hi. by destruct (0 <=? fd c), Hi.
    + rewrite live_at_insert_ne in Hi by done. destruct Hi as (d & Hd & Had & Hfdd).
      destruct Hok as [_ Huniq]. apply Hne. by eapply (Huniq i slot d c).
  - intros i g Hne Hlive. apply fd_to_slot_live; [done| |by apply live_at_insert_ne].
    destruct Hlive as (d & Hd & Had & <-). by eapply Hok.
Qed.


Lemma close_client_releases_witness :
  exists cs' h', close_client sample_table (Z.of_nat 0) {[7 := EPOLLIN]} ∅
      = Ret (0, cs', delete 7 {[7 := EPOLLIN]}, h') /\
    (forall l, l ∈ [] -> h' !! l = None) /\
    (forall l : loc, l ∉ [] -> h' !! l = (∅ : tx_heap) !! l) /\
    table_ok cs' /\ fd_to_slot cs' 7 (zlen cs') = -1 /\
    (forall i g, i <> 0%nat -> live_at sample_table i g ->
       fd_to_slot cs' g (zlen cs') = Z.of_nat i).
Proof.
  apply (close_client_releases sample_table 0 (sample_client 7 true) {[7 := EPOLLIN]} ∅ []
    sample_table_ok); [reflexivity|vm_compute; discriminate|reflexivity|apply linked_queue_nil].
Defined.

(** ** Sending *)

Definition accepting (script : list tx_event) : Prop :=
  Forall (fun ev => exists k, ev = TxAccept k) script.

Lemma take_drop_step {A} (l : list A) (s r : Z) :
  0 <= s -> 0 <= r ->
  take (Z.to_nat r) (drop (Z.to_nat s) l) ++ drop (Z.to_nat (s + r)) l = drop (Z.to_nat s) l.
Proof.
  intros Hs Hr. rewrite Z2Nat.inj_add, <- drop_drop by done. apply take_drop.
Qed.

(** The transport takes bytes in pieces of any size: everything goes out. *)
Lemma send_loop_accepts script d s :
  accepting script -> 0 <= s <= zlen d -> zlen d - s <= zlen script ->
  exists script', send_loop script d s = (zlen d, drop (Z.to_nat s) d, script') /\
    accepting script' /\ zlen script - (zlen d - s) <= zlen script'.
Proof.
  intros Ha. revert s. induction Ha as [|ev script [k ->] Ha IH]; intros s Hs Hl.
  - rewrite zlen_nil in Hl. assert (s = zlen d) as -> by lia. cbn.
    destruct (Z.ltb_spec (zlen d) (zlen d)); [lia|]. exists [].
    rewrite zlen_length, drop_all. split_and!; [done|constructor|len].
  - rewrite zlen_cons in Hl. cbn [send_loop]. destruct (Z.ltb_spec s (zlen d)).
    + set (r := Z.max 1 (Z.min k (zlen d - s))).
      destruct (IH (s + r)) as (script' & -> & Ha' & Hl'); [lia|lia|].
      exists script'. rewrite take_drop_step by lia. split_and!; [done..|]. rewrite zlen_cons. lia.
    + assert (s = zlen d) as -> by lia. exists (TxAccept k :: script).
      rewrite zlen_length, drop_all. split_and!; [done|constructor; eauto|lia].
Qed.

Lemma send_loop_tls_accepts script d s :
  accepting script -> 0 <= s <= zlen d -> zlen d - s <= zlen script ->
  exists script', send_loop_tls script d s = (zlen d, drop (Z.to_nat s) d, script') /\
    accepting script' /\ zlen script - (zlen d - s) <= zlen script'.
Proof.
  intros Ha. revert s. induction Ha as [|ev script [k ->] Ha IH]; intros s Hs Hl.
  - rewrite zlen_nil in Hl. assert (s = zlen d) as -> by lia. cbn.
    destruct (Z.ltb_spec (zlen d) (zlen d)); [lia|]. exists [].
    rewrite zlen_length, drop_all. split_and!; [done|constructor|len].
  - rewrite zlen_cons in Hl. cbn [send_loop_tls]. destruct (Z.ltb_spec s (zlen d)).
    + set (r := Z.max 1 (Z.min k (zlen d - s))).
      destruct (IH (s + r)) as (script' & -> & Ha' & Hl'); [lia|lia|].
      exists script'. rewrite take_drop_step by lia. split_and!; [done..|]. rewrite zlen_cons. lia.
    + assert (s = zlen d) as -> by lia. exists (TxAccept k :: script).
      rewrite zlen_length, drop_all. split_and!; [done|constructor; eauto|lia].
Qed.

(** A node that owns a whole message not yet started. *)
Definition whole_message (x : data_transmit) : Prop :=
  len x = zlen (data x) /\ offset x = 0 /\ 2 <= len x.

Lemma read_at_whole d : read_at d 0 (zlen d) = Ret d.
Proof. eapply (read_at_segment d _ _ [] d []); [by rewrite app_nil_r|done|done]. Qed.

(** The bytes of the queued messages, in order. *)
Definition tx_bytes (h : tx_heap) (ls : list loc) : list Z :=
  (cells h ls).*2 ≫= data.

(** One iteration of the plain loop over a transport that takes everything. *)
Lemma flush_loop_step fuel script now l x c h out :
  h !! l = Some x -> 0 <= fd c -> whole_message x ->
  accepting script -> zlen (data x) <= zlen script ->
  exists script', accepting script' /\ zlen script - zlen (data x) <= zlen script' /\
    flush_loop (S fuel) script now (Some l) (Flush c h out)
    = ('(next, c, h) ← dequeue_message
         (set_bytes_need_to_send (u64 (bytes_need_to_send c - len x))
            (set_last_active_ms now c)) (delete l h);
       flush_loop fuel script' now next (Flush c h (out ++ data x))).
Proof.
  intros Hx Hfd (Hlx & Hox & H2) Ha Hlen. pose proof (zlen_nonneg (data x)).
  destruct (send_loop_accepts script (data x) 0 Ha ltac:(lia) ltac:(lia))
    as (script' & Hs & Ha' & Hl').
  exists script'. split_and!; [done|lia|]. cbn [flush_loop f_client f_heap f_wire].
  rewrite (load_alloc h l x) by done. cbn [mbind outcome_bind].
  rewrite Hlx, read_at_whole. cbn [mbind outcome_bind]. unfold send_data_to_client.
  destruct (Z.ltb_spec (fd c) 0); [lia|]. rewrite Hs.
  destruct (Z.ltb_spec (zlen (data x)) 0); [lia|].
  destruct (Z.eqb_spec (zlen (data x)) 1); [lia|].
  destruct (Z.eqb_spec (zlen (data x)) (-2)); [lia|].
  by rewrite (free_alloc h l x).
Qed.

Lemma cells_delete h l ls : l ∉ ls -> cells (delete l h) ls = cells h ls.
Proof.
  intros Hl. apply cells_frame. intros k Hk. unfold content.
  rewrite lookup_delete_ne by congruence. done.
Qed.

Lemma tx_bytes_cons h k y ls :
  h !! k = Some y -> tx_bytes h (k :: ls) = data y ++ tx_bytes h ls.
Proof. intros Hy. unfold tx_bytes. by rewrite (cells_cons h k y). Qed.

(** The plain loop, for a message already taken off the list. *)
Lemma flush_loop_accepts ls fuel script now l x c h out :
  linked_queue h (c_head c) (c_tail c) ls -> h !! l = Some x -> l ∉ ls ->
  0 <= fd c -> whole_message x ->
  Forall (fun k => forall y, h !! k = Some y -> whole_message y) ls ->
  accepting script -> zlen (data x) + zlen (tx_bytes h ls) <= zlen script ->
  (length ls < fuel)%nat ->
  exists f, flush_loop fuel script now (Some l) (Flush c h out) = Ret (0, f) /\
    f_wire f = out ++ data x ++ tx_bytes h ls /\
    c_head (f_client f) = None /\ c_tail (f_client f) = None /\
    (forall k, k ∈ l :: ls -> f_heap f !! k = None) /\
    (forall k, k ∉ l :: ls -> f_heap f !! k = h !! k).
Proof.
  revert fuel script l x c h out.
  induction ls as [|k ls IH]; intros fuel script l x c h out Hq Hx Hl Hfd Hw Hall Ha Hlen Hfuel;
    (destruct fuel as [|fuel]; [lia|]).
  - destruct (flush_loop_step fuel script now l x c h out) as (script' & _ & _ & ->);
      [done..|len|].
    rewrite dequeue_message_empty; [|destruct Hq as (Hc & _ & Ht); by repeat split; [|constructor|]].
    cbn [mbind outcome_bind]. destruct fuel; eexists; (split; [reflexivity|]); cbn;
      destruct Hq as (Hc & _ & Ht); cbn in Hc, Ht; rewrite app_nil_r;
      (split_and!; [done..| |]).
    all: intros k; rewrite list_elem_of_singleton; intros Hk; subst.
    all: first [apply lookup_delete_eq|by apply lookup_delete_ne].
  - assert (exists y, h !! k = Some y) as [y Hy].
    { destruct Hq as (Hc & _). destruct Hc as (_ & y & Hy & _). eauto. }
    apply Forall_cons in Hall as [Hwk Hall]. rewrite (tx_bytes_cons h k y) in * by done.
    apply not_elem_of_cons in Hl as [Hlk Hl].
    assert (k ∉ ls) as Hk by (destruct Hq as (_ & Hnd & _); by apply NoDup_cons in Hnd as []).
    destruct (flush_loop_step fuel script now l x c h out) as (script' & Ha' & Hl' & ->);
      [done..|len|].
    set (c' := set_bytes_need_to_send _ _).
    assert (linked_queue (delete l h) (c_head c') (c_tail c') (k :: ls)) as Hq'.
    { destruct Hq as (Hc & Hnd & Ht). split_and!; [|done..].
      apply chain_delete_fresh; [|done]. rewrite not_elem_of_cons. done. }
    destruct (dequeue_message_links c' (delete l h) k ls Hq')
      as (y' & head & tail & -> & Hy' & Hq2).
    rewrite lookup_delete_ne, Hy in Hy' by done. injection Hy' as <-.
    cbn [mbind outcome_bind].
    set (h2 := <[k := set_next_data None y]> (delete l h)).
    assert (tx_bytes h2 ls = tx_bytes h ls) as Hb.
    { unfold tx_bytes. f_equal. f_equal. rewrite <- (cells_delete h l ls) by done.
      assert (delete l h !! k = Some y) as Hyd by (by rewrite lookup_delete_ne).
      exact (cells_relink (delete l h) k y None ls Hyd). }
    assert (forall j, j ≠ l -> j ≠ k -> h2 !! j = h !! j) as Hout2.
    { intros j Hjl Hjk. subst h2. by rewrite lookup_insert_ne, lookup_delete_ne. }
    destruct (IH fuel script' k (set_next_data None y) (set_c_tail tail (set_c_head head c'))
      h2 (out ++ data x)) as (f & Hf & Hw2 & Hh & Ht & Hin & Hout);
      [exact Hq2|apply lookup_insert_eq|done|exact Hfd|exact (Hwk y Hy)| |done
      |rewrite Hb; cbn [data set_next_data]; len|cbn in Hfuel; lia|].
    { apply Forall_forall. intros j Hj z Hz. rewrite Hout2 in Hz by congruence.
      eapply Forall_forall in Hall; [|exact Hj]. by apply Hall. }
    exists f. split; [exact Hf|].
    split; [rewrite Hw2, Hb; cbn [data set_next_data]; by rewrite <- app_assoc|].
    split_and!; [done..| |].
    + intros j [->|Hj]%elem_of_cons; [|by apply Hin].
      rewrite Hout by (rewrite not_elem_of_cons; done). subst h2.
      rewrite lookup_insert_ne by done. apply lookup_delete_eq.
    + intros j [Hjl Hj]%not_elem_of_cons. rewrite Hout by done.
      apply not_elem_of_cons in Hj as [Hjk _]. by apply Hout2.
Qed.

(** The plain-socket flush transmits everything in order: over a transport
    that takes bytes in pieces of any size, [flush_message_from_queue] returns 0
    with exactly the queued messages, concatenated in queue order, on the wire,
    the list empty and every node of it freed. *)
Theorem flush_sends_all c h ls script now :
  linked_queue h (c_head c) (c_tail c) ls -> ls <> [] -> 0 <= fd c ->
  Forall (fun k => forall y, h !! k = Some y -> whole_message y) ls ->
  accepting script -> zlen (tx_bytes h ls) <= zlen script ->
  exists f, flush_message_from_queue script now c h = Ret (0, f) /\
    f_wire f = tx_bytes h ls /\
    c_head (f_client f) = None /\ c_tail (f_client f) = None /\
    (forall k, k ∈ ls -> f_heap f !! k = None) /\
    (forall k, k ∉ ls -> f_heap f !! k = h !! k).
Proof.
  intros Hq Hne Hfd Hall Ha Hlen. destruct ls as [|l ls]; [done|].
  destruct (dequeue_message_links c h l ls Hq) as (x & head & tail & Hd & Hx & Hq').
  assert (l ∉ ls) as Hl by (destruct Hq as (_ & Hnd & _); by apply NoDup_cons in Hnd as []).
  apply Forall_cons in Hall as [Hw Hall]. rewrite (tx_bytes_cons h l x) in * by done.
  set (h1 := <[l := set_next_data None x]> h) in *.
  assert (tx_bytes h1 ls = tx_bytes h ls) as Hb.
  { unfold tx_bytes. f_equal. f_equal. exact (cells_relink h l x None ls Hx). }
  destruct (flush_loop_accepts ls (size h) script now l (set_next_data None x)
    (set_c_tail tail (set_c_head head c)) h1 []) as (f & Hf & Hw2 & Hh & Ht & Hin & Hout);
    [exact Hq'|apply lookup_insert_eq|done|exact Hfd|exact (Hw x Hx)| |done
    |rewrite Hb; cbn [data set_next_data]; len| |].
  { apply Forall_forall. intros j Hj z Hz. subst h1.
    rewrite lookup_insert_ne in Hz by congruence.
    eapply Forall_forall in Hall; [|exact Hj]. by apply Hall. }
  { destruct Hq as (Hc & Hnd & _). pose proof (chain_size _ _ _ Hc Hnd) as Hs.
    cbn in Hs. lia. }
  exists f. unfold flush_message_from_queue. rewrite Hd.
  assert (c_head c = Some l) as -> by (destruct Hq as (Hc & _); apply Hc).
  cbn [mbind outcome_bind]. split; [exact Hf|].
  split; [rewrite Hw2, Hb; done|]. split_and!; [done..|].
  intros k Hk. rewrite Hout by done. subst h1. apply lookup_insert_ne.
  by apply not_elem_of_cons in Hk as [Hk _].
Qed.

Definition sample_tx : tx_heap :=
  <[1%positive := DataTransmit [1; 2; 3] 3 0 (Some 2%positive)]>
    {[2%positive := DataTransmit [4; 5] 2 0 None]}.

Definition sending_client : client :=
  set_c_head (Some 1%positive) (set_c_tail (Some 2%positive) (sample_client 7 true)).

Lemma sample_tx_linked :
  linked_queue sample_tx (c_head sending_client) (c_tail sending_client)
    [1%positive; 2%positive].
Proof.
  split_and!; [|by apply (bool_decide_unpack _)|done].
  cbn. split; [done|]. eexists. split; [reflexivity|]. split; [done|].
  eexists. split; [reflexivity|]. done.
Qed.

Lemma flush_sends_all_witness :
  exists f, flush_message_from_queue
      [TxAccept 2; TxAccept 1; TxAccept 9; TxAccept 1; TxAccept 1] 4 sending_client sample_tx
      = Ret (0, f) /\ f_wire f = tx_bytes sample_tx [1%positive; 2%positive].
Proof.
  destruct (flush_sends_all sending_client sample_tx [1%positive; 2%positive]
    [TxAccept 2; TxAccept 1; TxAccept 9; TxAccept 1; TxAccept 1] 4 sample_tx_linked)
    as (f & Hf & Hw & _); [done|vm_compute; discriminate| | |vm_compute; discriminate|].
  - repeat apply Forall_cons_2; [| |apply Forall_nil_2]; intros y [= <-];
      (split; [reflexivity|split; [reflexivity|vm_compute; discriminate]]).
  - repeat apply Forall_cons_2; [..|apply Forall_nil_2]; by eexists.
  - by exists f.
Defined.

(** The TLS flush transmits the first message only: with the messages
    [l :: ls] queued and a transport that takes everything, the wire carries
    the rest of message [l] and nothing else, yet the list is empty afterwards
    and 0 is returned; the messages of [ls] are neither sent nor freed. *)
Theorem flush_tls_sends_first_only c h l ls x script now e :
  linked_queue h (c_head c) (c_tail c) (l :: ls) -> h !! l = Some x ->
  len x = zlen (data x) -> 0 <= offset x < len x ->
  accepting script -> zlen (data x) <= zlen script ->
  exists f, client_flush_tx_tls script now c h e = Ret (0, f) /\
    ft_wire f = drop (Z.to_nat (offset x)) (data x) /\
    c_head (ft_client f) = None /\ c_tail (ft_client f) = None /\
    ft_heap f !! l = None /\ (forall k, k ∈ ls -> is_Some (ft_heap f !! k)).
Proof.
  intros Hq Hx Hlx Hox Ha Hlen.
  destruct (dequeue_message_links c h l ls Hq) as (x' & head & tail & Hd & Hx' & Hq').
  rewrite Hx in Hx'. injection Hx' as <-.
  assert (l ∉ ls) as Hl by (destruct Hq as (_ & Hnd & _); by apply NoDup_cons in Hnd as []).
  unfold client_flush_tx_tls. rewrite Hd.
  assert (c_head c = Some l) as -> by (destruct Hq as (Hc & _); apply Hc).
  cbn [mbind outcome_bind].
  assert (size h <> 0%nat) as Hsize.
  { intros Hz%map_size_empty_inv. subst h. by rewrite lookup_empty in Hx. }
  destruct (size h) as [|fuel]; [done|]. cbn [flush_tls_loop ft_client ft_heap ft_wire ft_epoll].
  rewrite (load_alloc _ l (set_next_data None x)) by apply lookup_insert_eq.
  cbn [mbind outcome_bind data len offset set_next_data].
  set (d := drop (Z.to_nat (offset x)) (data x)).
  assert (zlen d = len x - offset x) as Hdl by (subst d; len).
  rewrite (read_at_segment (data x) (offset x) (len x - offset x)
    (take (Z.to_nat (offset x)) (data x)) d []); [|by subst d; rewrite app_nil_r, take_drop|len|lia].
  cbn [mbind outcome_bind]. unfold send_data_to_client_tls.
  destruct (send_loop_tls_accepts script d 0 Ha ltac:(lia) ltac:(lia)) as (script' & -> & _ & _).
  change (drop (Z.to_nat 0) d) with d.
  destruct (Z.eqb_spec (zlen d) (-1)); [lia|]. destruct (Z.eqb_spec (zlen d) 0); [lia|].
  destruct (Z.eqb_spec (zlen d) (-2)); [lia|]. destruct (Z.eqb_spec (zlen d) (-3)); [lia|].
  cbn [orb]. cbn [offset len next_data set_offset set_next_data].
  destruct (Z.ltb_spec (offset x + zlen d) (len x)); [lia|].
  rewrite (free_alloc _ l _ (lookup_insert_eq _ _ _)). cbn [mbind outcome_bind].
  assert (forall k, k ∈ ls -> is_Some (h !! k)) as Halloc.
  { destruct Hq as ((_ & y & Hy & Hc) & _). apply chain_alloc in Hc.
    intros k Hk. by eapply Forall_forall in Hc. }
  destruct fuel; (eexists; split; [reflexivity|]; cbn; split_and!; [done..| |]).
  all: first [by rewrite delete_insert_eq, delete_insert_eq, lookup_delete_eq|idtac].
  all: intros k Hk; rewrite delete_insert_eq, delete_insert_eq, lookup_delete_ne by congruence; auto.
Qed.

Lemma flush_tls_sends_first_only_witness :
  exists f, client_flush_tx_tls [TxAccept 1; TxAccept 1; TxAccept 9] 4 sending_client
      sample_tx {[7 := 5]} = Ret (0, f) /\
    ft_wire f = drop (Z.to_nat 0) [1; 2; 3] /\
    c_head (ft_client f) = None /\ c_tail (ft_client f) = None /\
    ft_heap f !! 1%positive = None /\
    (forall k, k ∈ [2%positive] -> is_Some (ft_heap f !! k)).
Proof.
  apply (flush_tls_sends_first_only sending_client sample_tx 1 [2%positive]
    (DataTransmit [1; 2; 3] 3 0 (Some 2%positive)) [TxAccept 1; TxAccept 1; TxAccept 9] 4
    {[7 := 5]} sample_tx_linked);
    [reflexivity|reflexivity|cbn; lia| |vm_compute; discriminate].
  repeat apply Forall_cons_2; [..|apply Forall_nil_2]; by eexists.
Defined.

(** Back-pressure over TLS drops the message: when the first write would
    block, [client_flush_tx_tls] reports 1 (retry) with nothing sent, but the
    message it had dequeued is no longer in the list and its node stays
    allocated with nothing pointing to it; only [ls] remains queued. *)
Theorem flush_tls_blocked_drops c h l ls x now e :
  linked_queue h (c_head c) (c_tail c) (l :: ls) -> h !! l = Some x ->
  len x = zlen (data x) -> 0 <= offset x < len x ->
  exists f, client_flush_tx_tls [TxErr SSL_ERROR_WANT_WRITE] now c h e = Ret (1, f) /\
    ft_wire f = [] /\
    linked_queue (ft_heap f) (c_head (ft_client f)) (c_tail (ft_client f)) ls /\
    (l ∉ ls) /\ is_Some (ft_heap f !! l).
Proof.
  intros Hq Hx Hlx Hox.
  destruct (dequeue_message_links c h l ls Hq) as (x' & head & tail & Hd & Hx' & Hq').
  rewrite Hx in Hx'. injection Hx' as <-.
  assert (l ∉ ls) as Hl by (destruct Hq as (_ & Hnd & _); by apply NoDup_cons in Hnd as []).
  unfold client_flush_tx_tls. rewrite Hd.
  assert (c_head c = Some l) as -> by (destruct Hq as (Hc & _); apply Hc).
  cbn [mbind outcome_bind].
  assert (size h <> 0%nat) as Hsize.
  { intros Hz%map_size_empty_inv. subst h. by rewrite lookup_empty in Hx. }
  destruct (size h) as [|fuel]; [done|]. cbn [flush_tls_loop ft_client ft_heap ft_wire ft_epoll].
  rewrite (load_alloc _ l (set_next_data None x)) by apply lookup_insert_eq.
  cbn [mbind outcome_bind data len offset set_next_data].
  set (d := drop (Z.to_nat (offset x)) (data x)).
  assert (zlen d = len x - offset x) as Hdl by (subst d; len).
  rewrite (read_at_segment (data x) (offset x) (len x - offset x)
    (take (Z.to_nat (offset x)) (data x)) d []);
    [|by subst d; rewrite app_nil_r, take_drop|len|lia].
  cbn [mbind outcome_bind]. unfold send_data_to_client_tls. cbn [send_loop_tls].
  destruct (Z.ltb_spec 0 (zlen d)); [|lia]. cbn.
  eexists. split; [reflexivity|]. cbn. split_and!; [done|exact Hq'|done|].
  rewrite lookup_insert_eq. eauto.
Qed.

Lemma flush_tls_blocked_drops_witness :
  exists f, client_flush_tx_tls [TxErr SSL_ERROR_WANT_WRITE] 4 sending_client sample_tx
      {[7 := 5]} = Ret (1, f) /\ ft_wire f = [] /\
    linked_queue (ft_heap f) (c_head (ft_client f)) (c_tail (ft_client f)) [2%positive] /\
    (1%positive ∉ [2%positive]) /\ is_Some (ft_heap f !! 1%positive).
Proof.
  apply (flush_tls_blocked_drops sending_client sample_tx 1 [2%positive]
    (DataTransmit [1; 2; 3] 3 0 (Some 2%positive)) 4 {[7 := 5]} sample_tx_linked);
    [reflexivity|reflexivity|cbn; lia].
Defined.

(** The transmit list is a FIFO for every allocator: over any sequence of
    [enqueue_message] and [dequeue_message] calls on one session, other code
    using nodes of its own in between, the messages taken out followed by those
    still queued are those first queued followed by those accepted, in order
    and unchanged. *)
Theorem tx_queue_fifo m s evs s' :
  allocator_ok m -> tx_inv s -> fifo_run (H := tx_fifo m) s evs s' ->
  tx_inv s' /\ popped evs ++ tx_abs s' = tx_abs s ++ pushed evs.
Proof. intros Hm. by apply (tx_run_conserves m Hm). Qed.

(** An allocator that never fails. *)
Definition sample_allocator : allocator :=
  {| malloc_tx h := Some (fresh (dom h));
     malloc_task h := Some (fresh (dom h),
       Queue.Task 0 0 0 0 0 (replicate (Z.to_nat MAX_PAYLOAD) 0) 0 None 0);
     malloc_response h := Some (fresh (dom h),
       Queue.Response 0 0 0 0 0 (replicate (Z.to_nat MAX_PAYLOAD) 0) None);
     malloc_buf n := if 0 <=? n then Some (replicate (Z.to_nat n) 0) else None |}.

Lemma sample_allocator_ok : allocator_ok sample_allocator.
Proof.
  split.
  - intros h l [= <-]. apply not_elem_of_dom, is_fresh.
  - intros h l t [= <- <-]. split; [apply not_elem_of_dom, is_fresh|reflexivity].
  - intros h l r [= <- <-]. split; [apply not_elem_of_dom, is_fresh|reflexivity].
  - intros n b. cbn. destruct (Z.leb_spec 0 n); intros [= <-]. rewrite zlen_replicate. lia.
Qed.

Lemma tx_queue_fifo_witness :
  exists s', tx_inv s' /\
    popped [Pushed (DataTransmit [8; 8] 2 0 None); Popped (DataTransmit [1; 2; 3] 3 0 None)]
      ++ tx_abs s'
    = tx_abs (sample_tx, sending_client)
      ++ pushed [Pushed (DataTransmit [8; 8] 2 0 None);
                 Popped (DataTransmit [1; 2; 3] 3 0 None)].
Proof.
  eexists. apply (tx_queue_fifo sample_allocator _ _ _ sample_allocator_ok).
  - eexists. exact sample_tx_linked.
  - eapply run_pushed; [by repeat split; eexists|vm_compute; reflexivity|].
    eapply run_popped; [vm_compute; reflexivity|]. apply run_nil.
Defined.

Lemma packet_response_frame m r :
  allocator_ok m -> zlen (Queue.r_payload r) = MAX_PAYLOAD ->
  0 <= Queue.r_length r <= MAX_PAYLOAD ->
  let p := take (Z.to_nat (Queue.r_length r)) (Queue.r_payload r) in
  packet_response_message m (Some r)
  = Ret (if malloc_buf m (Queue.r_length r + 20) is Some _
         then Some (frame (Queue.r_type r) (Queue.r_request_id r) p) else None) /\
  zlen (frame (Queue.r_type r) (Queue.r_request_id r) p)
  = Queue.r_length r + CRC_SIZE + HEADER_SIZE.
Proof.
  intros Hm Hp Hl. set (p := take _ _). cbn zeta.
  assert (zlen p = Queue.r_length r) as Hzp by (subst p; len).
  split; [|rewrite frame_len, Hzp; unfold CRC_SIZE, HEADER_SIZE; lia].
  unfold packet_response_message, MAX_PAYLOAD in *.
  assert (u32 (HEADER_SIZE + Queue.r_length r + CRC_SIZE) = Queue.r_length r + 20) as ->
    by (unfold HEADER_SIZE, CRC_SIZE; rewrite wrap_small; lia).
  destruct (malloc_buf m (Queue.r_length r + 20)) as [b|] eqn:Eb; [|done].
  pose proof (buf_size m Hm _ _ Eb) as Hb.
  pose proof (packet_encode_frame_len b (Queue.r_length r + 20) (Queue.r_type r)
    (Queue.r_request_id r) p (drop (Z.to_nat (Queue.r_length r)) (Queue.r_payload r))) as Hf.
  replace (p ++ _) with (Queue.r_payload r) in Hf by (subst p; by rewrite take_drop).
  rewrite Hzp in Hf. rewrite Hf by (unfold MAX_PAYLOAD; lia). cbn [mbind outcome_bind].
  rewrite drop_ge by (unfold zlen in *; lia). by rewrite app_nil_r.
Qed.

(** A response is put on the wire as the frame of its type, request id and
    the first [length] bytes of its payload, for every length the workers
    produce; the packet is exactly as long as the caller announces. *)
Theorem packet_response_message_frame m r :
  allocator_ok m -> zlen (Queue.r_payload r) = MAX_PAYLOAD ->
  0 <= Queue.r_length r <= MAX_PAYLOAD ->
  let p := take (Z.to_nat (Queue.r_length r)) (Queue.r_payload r) in
  packet_response_message m (Some r)
  = Ret (if malloc_buf m (Queue.r_length r + 20) is Some _
         then Some (frame (Queue.r_type r) (Queue.r_request_id r) p) else None) /\
  zlen (frame (Queue.r_type r) (Queue.r_request_id r) p)
  = Queue.r_length r + CRC_SIZE + HEADER_SIZE.
Proof. apply packet_response_frame. Qed.

Lemma packet_response_message_frame_witness :
  packet_response_message sample_allocator
    (Some (Queue.Response 1 1 MSG_RESPONSE 7 2 (replicate (Z.to_nat MAX_PAYLOAD) 9) None))
  = Ret (Some (frame MSG_RESPONSE 7 [9; 9])).
Proof.
  exact (proj1 (packet_response_message_frame sample_allocator
    (Queue.Response 1 1 MSG_RESPONSE 7 2 (replicate (Z.to_nat MAX_PAYLOAD) 9) None)
    sample_allocator_ok eq_refl ltac:(vm_compute; split; discriminate))).
Defined.

End Client.
