(* ===== verification/Server.v ===== *)
(** * The event loop's handlers (gateway/src/server.c)

    [server] is the struct of server.h together with the three heaps its
    queues live on and the kernel's interest list.  The receive path
    [client_read_message] is the state machine of one session: each iteration
    of its loop makes one [recv] (or [SSL_read]) call, answered by one element
    of a script, so the loop is structurally recursive on the script; the bytes
    not yet read stay in [stream]. *)
From Stdlib Require Import Floats.SpecFloat.
From S2P Require Import Prelude Socket Heap Fifo Crc Protocol RateLimit Queue Client.
Import Protocol Client.
Open Scope c_scope.

Module Server.

Record server := Server {
  clients : list client; tasks : Queue.task_queue; response : Queue.response_queue;
  shutdown : bool; event_count : Z; sv_epoll : epoll;
  txs : tx_heap; task_mem : Queue.task_heap; response_mem : Queue.response_heap }.
Definition set_clients (v : list client) (x : server) : server :=
  Server v (tasks x) (response x) (shutdown x) (event_count x) (sv_epoll x) (txs x)
    (task_mem x) (response_mem x).
Definition set_tasks (v : Queue.task_queue) (x : server) : server :=
  Server (clients x) v (response x) (shutdown x) (event_count x) (sv_epoll x) (txs x)
    (task_mem x) (response_mem x).
Definition set_response (v : Queue.response_queue) (x : server) : server :=
  Server (clients x) (tasks x) v (shutdown x) (event_count x) (sv_epoll x) (txs x) (task_mem
    x) (response_mem x).
Definition set_shutdown (v : bool) (x : server) : server :=
  Server (clients x) (tasks x) (response x) v (event_count x) (sv_epoll x) (txs x) (task_mem
    x) (response_mem x).
Definition set_event_count (v : Z) (x : server) : server :=
  Server (clients x) (tasks x) (response x) (shutdown x) v (sv_epoll x) (txs x) (task_mem x)
    (response_mem x).
Definition set_sv_epoll (v : epoll) (x : server) : server :=
  Server (clients x) (tasks x) (response x) (shutdown x) (event_count x) v (txs x) (task_mem
    x) (response_mem x).
Definition set_txs (v : tx_heap) (x : server) : server :=
  Server (clients x) (tasks x) (response x) (shutdown x) (event_count x) (sv_epoll x) v
    (task_mem x) (response_mem x).
Definition set_task_mem (v : Queue.task_heap) (x : server) : server :=
  Server (clients x) (tasks x) (response x) (shutdown x) (event_count x) (sv_epoll x) (txs
    x) v (response_mem x).
Definition set_response_mem (v : Queue.response_heap) (x : server) : server :=
  Server (clients x) (tasks x) (response x) (shutdown x) (event_count x) (sv_epoll x) (txs
    x) (task_mem x) v.

Definition check_header (header : header_packet) : Z :=
  if negb (magic header =? PROTOCOL_MAGIC) then err_code_val ERR_BAD_MAGIC
  else if negb (version header =? PROTOCOL_VERSION) then err_code_val ERR_BAD_VERSION
  else if MAX_PAYLOAD <? h_length header then err_code_val ERR_PAYLOAD_TOO_LARGE
  else if (negb (h_type header =? MSG_ECHO) && negb (h_type header =? MSG_STATUS)
           && negb (h_type header =? MSG_GET_SENSOR)
           && negb (h_type header =? MSG_SET_ACTUATOR))%bool
  then err_code_val ERR_UNKNOWN_TYPE
  else 0.

Definition put_client (sv : server) (slot : nat) (c : client) : server :=
  set_clients (<[slot := c]> (clients sv)) sv.

(** [enqueue_message(client, packet, size); epoll_mod(.., EPOLLIN | EPOLLOUT, fd)] *)
Definition queue_packet (m : allocator) (sv : server) (slot : nat) (c : client)
    (packet : list Z) (size : Z) : outcome server :=
  '(_, c, h) ← enqueue_message m c (Some packet) size (txs sv);
  Ret (set_sv_epoll (epoll_mod (sv_epoll sv) (EPOLLIN .| EPOLLOUT) (fd c)).2
        (set_txs h (put_client sv slot c))).

(** The header is complete: decode and check it.  [inl] is an early return. *)
Definition header_complete (m : allocator) (sv : server) (slot : nat) (c : client)
    : outcome ((Z * server) + client) :=
  magic ← decode_32_bit (data_receive c) 0;
  version ← decode_16_bit (data_receive c) 4;
  type ← decode_16_bit (data_receive c) 6;
  length ← decode_32_bit (data_receive c) 8;
  request_id ← decode_32_bit (data_receive c) 12;
  let ret := check_header (HeaderPacket magic version type length request_id) in
  if ret <? 0 then Ret (inl (-1, put_client sv slot c))
  else if 0 <? ret then
    err_packet ← build_error_packet (malloc_buf m) request_id ret;
    match err_packet with
    | None => Ret (inl (-1, put_client sv slot c))
    | Some (packet, size) =>
        let c := set_rx_len 0 (set_stage READ_HEADER c) in
        sv ← queue_packet m sv slot c packet size; Ret (inl (2, sv))
    end
  else Ret (inr (set_stage READ_PAYLOAD c)).

(** The whole frame is there: check the CRC, hand the task to the workers. *)
Definition frame_complete (m : allocator) (sv : server) (slot : nat) (c : client)
    (length now now' : Z) : outcome (Z * server) :=
  crc_rev ← decode_32_bit (data_receive c) (HEADER_SIZE + length);
  body ← read_at (data_receive c) HEADER_SIZE length;
  request_id ← decode_32_bit (data_receive c) 12;
  if negb (crc_rev =? Crc.crc_calculate body) then
    err_packet ← build_error_packet (malloc_buf m) request_id (err_code_val ERR_CRC_MISMATCH);
    let c := set_rx_len 0 (set_stage READ_HEADER c) in
    match err_packet with
    | None => Ret (2, put_client sv slot c)
    | Some (packet, size) => sv ← queue_packet m sv slot c packet size; Ret (2, sv)
    end
  else
    type ← decode_16_bit (data_receive c) 6;
    hlength ← decode_32_bit (data_receive c) 8;
    let task_slot := fd_to_slot (<[slot := c]> (clients sv)) (fd c) MAX_CLIENTS in
    '(t, tm) ← build_task m c (HeaderPacket 0 0 type hlength request_id) task_slot now
                 (task_mem sv);
    '(q, tm) ←
      match t with
      | None => Ret (tasks sv, tm)
      | Some _ =>
          '(ret, q, tm) ← Queue.push (Some (tasks sv)) t tm;
          q ← deref q;
          if ret <? 0 then tm ← free tm t; Ret (q, tm) else Ret (q, tm)
      end;
    let c := set_last_active_ms now' (set_rx_len 0 (set_stage READ_HEADER c)) in
    Ret (0, set_task_mem tm (set_tasks q (put_client sv slot c))).

(** The receive loop; [c] is [sv->clients[slot]] with the updates of this call. *)
Fixpoint client_read_loop (m : allocator) (script : list rx_event) (eof : bool)
    (stream : list Z) (sv : server) (slot : nat) (c : client) (now now' : Z)
    : outcome (Z * server * list Z) :=
  match stage c with
  | READ_CRC => Ret (-1, put_client sv slot c, stream)
  | READ_HEADER =>
      match script with
      | [] => Ret (3, put_client sv slot c, stream)
      | ev :: script =>
          let remain := u64 (HEADER_SIZE - rx_len c) in
          match recv ev eof stream remain with
          | (RxFail err, stream) =>
              if err =? EINTR then client_read_loop m script eof stream sv slot c now now'
              else if err =? EAGAIN then Ret (3, put_client sv slot c, stream)
              else Ret (-1, put_client sv slot c, stream)
          | (RxData [], stream) => Ret (1, put_client sv slot (set_alive false c), stream)
          | (RxData bs, stream) =>
              d ← write_at (data_receive c) (rx_len c) bs;
              let c := set_rx_len (rx_len c + zlen bs) (set_data_receive d c) in
              if rx_len c <? HEADER_SIZE
              then client_read_loop m script eof stream sv slot c now now'
              else
                r ← header_complete m sv slot c;
                match r with
                | inl (ret, sv) => Ret (ret, sv, stream)
                | inr c => client_read_loop m script eof stream sv slot c now now'
                end
          end
      end
  | READ_PAYLOAD =>
      match script with
      | [] => Ret (3, put_client sv slot c, stream)
      | ev :: script =>
          length ← decode_32_bit (data_receive c) 8;
          let total_needed := length + HEADER_SIZE + CRC_SIZE in
          let remain := u64 (u32 (length + HEADER_SIZE + CRC_SIZE) - rx_len c) in
          match recv ev eof stream remain with
          | (RxFail err, stream) =>
              if err =? EINTR then client_read_loop m script eof stream sv slot c now now'
              else if err =? EAGAIN then Ret (3, put_client sv slot c, stream)
              else Ret (-1, put_client sv slot c, stream)
          | (RxData [], stream) => Ret (1, put_client sv slot (set_alive false c), stream)
          | (RxData bs, stream) =>
              d ← write_at (data_receive c) (rx_len c) bs;
              let c := set_rx_len (rx_len c + zlen bs) (set_data_receive d c) in
              if rx_len c <? total_needed
              then client_read_loop m script eof stream sv slot c now now'
              else
                '(ret, sv) ← frame_complete m sv slot c length now now';
                Ret (ret, sv, stream)
          end
      end
  end.

Definition client_read_message (m : allocator) (script : list rx_event) (eof : bool)
    (stream : list Z) (sv : server) (slot : nat) (now now' : Z)
    : outcome (Z * server * list Z) :=
  c ← deref (clients sv !! slot);
  client_read_loop m script eof stream sv slot c now now'.


(** ** The header check *)

Definition accepted_type (t : Z) : Prop :=
  t = MSG_ECHO \/ t = MSG_STATUS \/ t = MSG_GET_SENSOR \/ t = MSG_SET_ACTUATOR.

Lemma check_header_zero h :
  check_header h = 0 <->
  magic h = PROTOCOL_MAGIC /\ version h = PROTOCOL_VERSION /\
  h_length h <= MAX_PAYLOAD /\ accepted_type (h_type h).
Proof.
  unfold check_header, accepted_type.
  destruct (Z.eqb_spec (magic h) PROTOCOL_MAGIC); cbn [negb]; [|split; [done|tauto]].
  destruct (Z.eqb_spec (version h) PROTOCOL_VERSION); cbn [negb]; [|split; [done|tauto]].
  destruct (Z.ltb_spec MAX_PAYLOAD (h_length h)); [split; [done|lia]|].
  destruct (Z.eqb_spec (h_type h) MSG_ECHO), (Z.eqb_spec (h_type h) MSG_STATUS),
    (Z.eqb_spec (h_type h) MSG_GET_SENSOR), (Z.eqb_spec (h_type h) MSG_SET_ACTUATOR);
    cbn [negb andb]; (split; [try done; tauto|intros (_ & _ & _ & Ht)]); try done; tauto.
Qed.

Lemma check_header_range h : 0 <= check_header h <= 4.
Proof. unfold check_header. repeat case_match; cbn; lia. Qed.

(** A header is accepted exactly when magic and version are the protocol's,
    the announced payload is at most 4096 bytes and the type is one of echo,
    status, get-sensor or set-actuator; otherwise the code reported is that of
    the first check that fails, in this order. *)
Theorem check_header_exact h :
  (check_header h = 0 <->
     magic h = PROTOCOL_MAGIC /\ version h = PROTOCOL_VERSION /\
     h_length h <= MAX_PAYLOAD /\ accepted_type (h_type h)) /\
  (magic h <> PROTOCOL_MAGIC -> check_header h = err_code_val ERR_BAD_MAGIC) /\
  (magic h = PROTOCOL_MAGIC -> version h <> PROTOCOL_VERSION ->
     check_header h = err_code_val ERR_BAD_VERSION) /\
  (magic h = PROTOCOL_MAGIC -> version h = PROTOCOL_VERSION -> MAX_PAYLOAD < h_length h ->
     check_header h = err_code_val ERR_PAYLOAD_TOO_LARGE) /\
  (magic h = PROTOCOL_MAGIC -> version h = PROTOCOL_VERSION -> h_length h <= MAX_PAYLOAD ->
     ~ accepted_type (h_type h) -> check_header h = err_code_val ERR_UNKNOWN_TYPE).
Proof.
  split; [apply check_header_zero|]. pose proof (check_header_zero h) as Hz.
  unfold check_header in *.
  destruct (Z.eqb_spec (magic h) PROTOCOL_MAGIC); cbn [negb] in *; [|by split_and!].
  destruct (Z.eqb_spec (version h) PROTOCOL_VERSION); cbn [negb] in *; [|by split_and!].
  destruct (Z.ltb_spec MAX_PAYLOAD (h_length h)); [split_and!; (done || lia)|].
  split_and!; [done|done|lia|]. intros _ _ _ Ht. case_match; [done|]. tauto.
Qed.

(** ** Reassembly of a frame from pieces *)

(** The session after [n] bytes of the frame [F], over the old buffer [D]. *)
Definition recv_state (c : client) (F D : list Z) (n : nat) : client :=
  set_rx_len (Z.of_nat n) (set_data_receive (take n F ++ drop n D)
    (set_stage (if (n <? 16)%nat then READ_HEADER else READ_PAYLOAD) c)).

(** The header phase, for sixteen arbitrary bytes [H]: pieces of any size. *)
Lemma read_loop_header m script eof (H rest D : list Z) sv slot c now now' n :
  length H = 16%nat -> (16 <= length D)%nat ->
  reading script -> (n < 16)%nat -> (16 - n <= nchunks script)%nat ->
  exists script',
    client_read_loop m script eof (drop n H ++ rest) sv slot (recv_state c H D n) now now'
    = (res ← header_complete m sv slot
         (set_rx_len 16 (set_data_receive (H ++ drop 16 D) (set_stage READ_HEADER c)));
       match res with
       | inl (ret, sv) => Ret (ret, sv, rest)
       | inr c => client_read_loop m script' eof rest sv slot c now now'
       end).
Proof.
  intros HH HD Hs. revert n. induction Hs as [|ev script Hev Hs IH]; intros n Hn Hc.
  { change (nchunks []) with 0%nat in Hc. lia. }
  assert (forall k, (k < 16)%nat -> stage (recv_state c H D k) = READ_HEADER) as Hst.
  { intros k Hk. unfold recv_state. cbn [stage set_rx_len set_data_receive set_stage].
    by destruct (Nat.ltb_spec k 16); [|lia]. }
  destruct Hev as [[k ->] | ->].
  - rewrite nchunks_cons in Hc.
    destruct (recv_piece H rest k eof n (16 - Z.of_nat n))
      as (got & b & bs & Hg & Hle & Eb & Hz & E); [lia|lia|lia|].
    cbn [client_read_loop]. rewrite Hst by done.
    change (rx_len (recv_state c H D n)) with (Z.of_nat n).
    assert (u64 (HEADER_SIZE - Z.of_nat n) = 16 - Z.of_nat n) as ->
      by (unfold HEADER_SIZE; rewrite wrap_small; lia).
    rewrite E. cbn beta iota.
    change (data_receive (recv_state c H D n)) with (take n H ++ drop n D).
    rewrite Eb, write_piece by lia. cbn [mbind outcome_bind]. rewrite <- Eb.
    rewrite Hz, <- Nat2Z.inj_add. cbn [rx_len set_rx_len set_data_receive]. unfold HEADER_SIZE.
    destruct (Z.ltb_spec (Z.of_nat (n + got)) 16).
    + destruct (IH (n + got)%nat) as [script' Hl]; [lia|lia|]. exists script'. rewrite <- Hl.
      f_equal. unfold recv_state.
      destruct (Nat.ltb_spec n 16), (Nat.ltb_spec (n + got) 16); try lia. by destruct c.
    + exists script. assert (n + got = 16)%nat as -> by lia.
      rewrite !take_ge, drop_ge by lia. f_equal. f_equal.
      unfold recv_state. destruct (Nat.ltb_spec n 16); [|lia]. by destruct c.
  - destruct (IH n Hn Hc) as [script' Hl]. exists script'. rewrite <- Hl.
    cbn [client_read_loop recv]. by rewrite Hst.
Qed.

(** A frame with an arbitrary CRC field; [frame t r p] when [x] is right. *)
Definition wire_frame (t r : Z) (p : list Z) (x : Z) : list Z :=
  frame_header t r (zlen p) ++ p ++ be32 x.

Section Reassembly.
Context (m : allocator) (t r x : Z) (p rest D : list Z).
Context (Ht : accepted_type t) (Hr : in_u 32 r) (Hp : bytes p).
Context (Hlen : zlen p <= MAX_PAYLOAD) (HD : zlen D = RX_BUF_CAP).

Abbreviation F := (wire_frame t r p x).

Lemma accepted_type_u16 : in_u 16 t.
Proof using Ht. unfold in_u. by destruct Ht as [-> | [-> | [-> | ->]]]. Qed.

Lemma frame_length : length F = (20 + length p)%nat.
Proof.
  unfold wire_frame. rewrite !length_app. change (length (be32 x)) with 4%nat.
  change (length (frame_header t r (zlen p))) with 16%nat. lia.
Qed.

Lemma frame_fits : (length F <= length D)%nat.
Proof using Hlen HD.
  rewrite frame_length. unfold zlen, MAX_PAYLOAD, RX_BUF_CAP in *. lia.
Qed.

Lemma payload_u32 : in_u 32 (zlen p).
Proof using Hlen. unfold in_u, MAX_PAYLOAD in *. pose proof (zlen_nonneg p). lia. Qed.

(** Once sixteen bytes are there, the buffer starts with the header. *)
Lemma buffer_header n :
  (16 <= n)%nat -> exists X, take n F ++ drop n D = frame_header t r (zlen p) ++ X.
Proof.
  intros Hn. exists (take (n - 16) (p ++ be32 x) ++ drop n D).
  unfold wire_frame. rewrite take_app_ge by exact Hn. by rewrite <- app_assoc.
Qed.

Lemma header_complete_accepts sv slot c X :
  data_receive c = frame_header t r (zlen p) ++ X ->
  header_complete m sv slot c = Ret (inr (set_stage READ_PAYLOAD c)).
Proof using Ht Hr Hlen.
  intros Hb. unfold header_complete. rewrite Hb.
  destruct (header_decode t r (zlen p) X accepted_type_u16 Hr payload_u32)
    as (-> & -> & -> & -> & ->). cbn [mbind outcome_bind].
  assert (check_header (HeaderPacket PROTOCOL_MAGIC PROTOCOL_VERSION t (zlen p) r) = 0) as ->
    by (by apply check_header_zero).
  done.
Qed.

Lemma recv_state_step c n got :
  (n + got < 16)%nat \/ (16 <= n)%nat ->
  set_rx_len (Z.of_nat (n + got)) (set_data_receive (take (n + got) F ++ drop (n + got) D)
    (recv_state c F D n)) = recv_state c F D (n + got).
Proof.
  intros H. unfold recv_state.
  destruct (Nat.ltb_spec n 16), (Nat.ltb_spec (n + got) 16); try lia; by destruct c.
Qed.

Lemma recv_state_header c n :
  (n < 16)%nat -> stage (recv_state c F D n) = READ_HEADER.
Proof.
  intros H. unfold recv_state. cbn [stage set_rx_len set_data_receive set_stage].
  by destruct (Nat.ltb_spec n 16); [|lia].
Qed.

Lemma recv_state_payload c n :
  (16 <= n)%nat -> stage (recv_state c F D n) = READ_PAYLOAD.
Proof.
  intros H. unfold recv_state. cbn [stage set_rx_len set_data_receive set_stage].
  by destruct (Nat.ltb_spec n 16); [lia|].
Qed.

Lemma recv_state_write c n got b bs :
  b :: bs = take got (drop n F) -> (n + got <= length F)%nat ->
  write_at (data_receive (recv_state c F D n)) (Z.of_nat n) (b :: bs)
  = Ret (take (n + got) F ++ drop (n + got) D).
Proof using Hlen HD. intros -> Hn. apply write_piece; [done|apply frame_fits]. Qed.

Lemma decode_length n : (16 <= n)%nat -> decode_32_bit (take n F ++ drop n D) 8 = Ret (zlen p).
Proof using Ht Hr Hlen.
  intros Hn. destruct (buffer_header n Hn) as [X ->].
  apply (header_decode t r (zlen p) X accepted_type_u16 Hr payload_u32).
Qed.

(** A piece of the header. *)
Lemma read_loop_header_piece k script eof sv slot c now now' n :
  (n < 16)%nat ->
  exists got, (0 < got)%nat /\ (n + got <= 16)%nat /\
    client_read_loop m (RxChunk k :: script) eof (drop n F ++ rest) sv slot
      (recv_state c F D n) now now'
    = client_read_loop m script eof (drop (n + got) F ++ rest) sv slot
        (recv_state c F D (n + got)) now now'.
Proof using Ht Hr Hp Hlen HD.
  intros Hn. pose proof frame_length as HF. pose proof frame_fits as HFD.
  destruct (recv_piece F rest k eof n (16 - Z.of_nat n)) as (got & b & bs & Hg & Hle & Eb & Hz & E);
    [lia|lia|lia|].
  exists got. split_and!; [done|lia|]. cbn [client_read_loop].
  rewrite recv_state_header by done.
  change (rx_len (recv_state c F D n)) with (Z.of_nat n).
  assert (u64 (HEADER_SIZE - Z.of_nat n) = 16 - Z.of_nat n) as ->
    by (unfold HEADER_SIZE; rewrite wrap_small; lia).
  rewrite E. cbn beta iota. rewrite (recv_state_write c n got b bs) by (done || lia).
  cbn [mbind outcome_bind]. rewrite Hz, <- Nat2Z.inj_add.
  cbn [rx_len set_rx_len set_data_receive]. unfold HEADER_SIZE.
  destruct (Z.ltb_spec (Z.of_nat (n + got)) 16).
  - rewrite recv_state_step by lia. done.
  - assert (n + got = 16)%nat as Hn16 by lia. rewrite Hn16.
    destruct (buffer_header 16 ltac:(lia)) as [X HX].
    rewrite (header_complete_accepts sv slot _ X) by exact HX. cbn [mbind outcome_bind].
    done.
Qed.

(** A piece of payload or CRC. *)
Lemma read_loop_payload_piece k script eof sv slot c now now' n :
  (16 <= n < length F)%nat ->
  exists got, (0 < got)%nat /\ (n + got <= length F)%nat /\
    client_read_loop m (RxChunk k :: script) eof (drop n F ++ rest) sv slot
      (recv_state c F D n) now now'
    = if (n + got <? length F)%nat
      then client_read_loop m script eof (drop (n + got) F ++ rest) sv slot
             (recv_state c F D (n + got)) now now'
      else '(ret, sv) ← frame_complete m sv slot (recv_state c F D (length F)) (zlen p) now now';
           Ret (ret, sv, rest).
Proof using Ht Hr Hp Hlen HD.
  intros Hn. pose proof frame_length as HF. pose proof frame_fits as HFD.
  pose proof (zlen_nonneg p) as Hp0. unfold zlen, MAX_PAYLOAD in Hlen.
  destruct (recv_piece F rest k eof n (Z.of_nat (length F - n)))
    as (got & b & bs & Hg & Hle & Eb & Hz & E); [lia|lia|lia|].
  exists got. split_and!; [done|lia|]. cbn [client_read_loop].
  rewrite recv_state_payload by lia.
  change (decode_32_bit (data_receive (recv_state c F D n)))
    with (decode_32_bit (take n F ++ drop n D)).
  rewrite decode_length by lia. cbn [mbind outcome_bind].
  change (rx_len (recv_state c F D n)) with (Z.of_nat n).
  assert (u64 (u32 (zlen p + HEADER_SIZE + CRC_SIZE) - Z.of_nat n)
          = Z.of_nat (length F - n)) as ->.
  { unfold HEADER_SIZE, CRC_SIZE, zlen. rewrite (wrap_small 32) by lia.
    rewrite wrap_small by lia. lia. }
  rewrite E. cbn beta iota. rewrite (recv_state_write c n got b bs) by (done || lia).
  cbn [mbind outcome_bind]. rewrite Hz, <- Nat2Z.inj_add.
  cbn [rx_len set_rx_len set_data_receive]. rewrite recv_state_step by lia.
  unfold HEADER_SIZE, CRC_SIZE, zlen.
  destruct (Z.ltb_spec (Z.of_nat (n + got)) (Z.of_nat (length p) + 16 + 4)),
    (Nat.ltb_spec (n + got) (length F)); try lia; [done|].
  assert (n + got = length F)%nat as -> by lia.
  rewrite drop_all. done.
Qed.

Lemma read_loop_interrupted script eof sv slot c now now' n stream :
  (n < length F)%nat ->
  client_read_loop m (RxErr EINTR :: script) eof stream sv slot (recv_state c F D n) now now'
  = client_read_loop m script eof stream sv slot (recv_state c F D n) now now'.
Proof using Ht Hr Hlen.
  intros Hn. cbn [client_read_loop recv]. destruct (decide (n < 16)%nat).
  - by rewrite recv_state_header.
  - rewrite recv_state_payload by lia.
    change (data_receive (recv_state c F D n)) with (take n F ++ drop n D).
    by rewrite decode_length by lia.
Qed.

(** The loop, from any point inside the frame to its last byte. *)
Lemma read_loop_frame script eof sv slot c now now' n :
  reading script -> (n < length F)%nat -> (length F - n <= nchunks script)%nat ->
  client_read_loop m script eof (drop n F ++ rest) sv slot (recv_state c F D n) now now'
  = ('(ret, sv) ← frame_complete m sv slot (recv_state c F D (length F)) (zlen p) now now';
     Ret (ret, sv, rest)).
Proof using Ht Hr Hp Hlen HD.
  intros Hs. revert n. pose proof frame_length as HF.
  induction Hs as [|ev script Hev Hs IH]; intros n Hn Hc.
  { change (nchunks []) with 0%nat in Hc. lia. }
  destruct Hev as [[k ->] | ->].
  - rewrite nchunks_cons in Hc. destruct (decide (n < 16)%nat).
    + destruct (read_loop_header_piece k script eof sv slot c now now' n) as (got & Hg & Hle & ->);
        [done|]. apply IH; lia.
    + destruct (read_loop_payload_piece k script eof sv slot c now now' n)
        as (got & Hg & Hle & ->); [lia|].
      destruct (Nat.ltb_spec (n + got) (length F)); [|done]. apply IH; lia.
  - rewrite read_loop_interrupted by done. by apply IH.
Qed.

(** ** What a complete frame does *)

(** The session once the frame has been consumed. *)
Definition after_frame (c : client) : client :=
  set_rx_len 0 (set_stage READ_HEADER (set_data_receive (F ++ drop (length F) D) c)).

Context (Hx : in_u 32 x).

(** The buffer of the complete frame, read the way [frame_complete] does. *)
Lemma complete_buffer c :
  let d := data_receive (recv_state c F D (length F)) in
  decode_32_bit d (HEADER_SIZE + zlen p) = Ret x /\
  read_at d HEADER_SIZE (zlen p) = Ret p /\
  decode_32_bit d 12 = Ret r /\ decode_16_bit d 6 = Ret t /\ decode_32_bit d 8 = Ret (zlen p).
Proof using Ht Hr Hlen Hx.
  unfold recv_state. cbn [data_receive set_rx_len set_data_receive]. rewrite take_ge by reflexivity.
  unfold wire_frame. rewrite <- !app_assoc.
  destruct (header_decode t r (zlen p) (p ++ be32 x ++ drop (length F) D)
    accepted_type_u16 Hr payload_u32) as (_ & _ & H6 & H8 & H12).
  split_and!; [| |done..].
  - eapply (decode_32_segment x _ _ (frame_header t r (zlen p) ++ p));
      [done|by rewrite <- app_assoc|by rewrite zlen_app, frame_header_len].
  - by eapply (read_at_segment _ _ _ (frame_header t r (zlen p)) p).
Qed.

(** A wrong CRC: an error packet is queued and no task is made. *)
Lemma frame_complete_bad_crc sv slot c now now' :
  x <> Crc.crc_calculate p ->
  frame_complete m sv slot (recv_state c F D (length F)) (zlen p) now now'
  = (err_packet ← build_error_packet (malloc_buf m) r (err_code_val ERR_CRC_MISMATCH);
     match err_packet with
     | None => Ret (2, put_client sv slot (after_frame c))
     | Some (packet, size) =>
         sv ← queue_packet m sv slot (after_frame c) packet size; Ret (2, sv)
     end).
Proof using Ht Hr Hlen Hx.
  intros Hne. unfold frame_complete.
  destruct (complete_buffer c) as (-> & -> & -> & _ & _). cbn [mbind outcome_bind].
  destruct (Z.eqb_spec x (Crc.crc_calculate p)); [done|]. cbn [negb].
  assert (set_rx_len 0 (set_stage READ_HEADER (recv_state c F D (length F))) = after_frame c)
    as ->; [|done].
  unfold after_frame, recv_state. rewrite take_ge by reflexivity. by destruct c.
Qed.

(** The task a valid frame becomes. *)
Definition task_of_frame (slot : Z) (c : client) (junk : Queue.task) (now : Z) : Queue.task :=
  Queue.Task slot (Queue.t_task_id junk) (generation c) t r
    (p ++ drop (length p) (Queue.t_payload junk)) (u64 (now + REQUEST_TIMEOUT_MS)) None (zlen p).

Lemma build_task_frame c slot now h l junk :
  0 <= slot -> malloc_task m h = Some (l, junk) -> zlen (Queue.t_payload junk) = MAX_PAYLOAD ->
  build_task m (recv_state c F D (length F)) (HeaderPacket 0 0 t (zlen p) r) slot now h
  = Ret (Some l, <[l := task_of_frame slot c junk now]> h).
Proof using Ht Hr Hlen Hx.
  intros Hs Hl Hj. unfold build_task. destruct (Z.ltb_spec slot 0); [lia|]. rewrite Hl.
  cbn [h_length h_type h_request_id]. pose proof (zlen_nonneg p) as Hp0.
  destruct (Z.leb_spec (zlen p) MAX_PAYLOAD); [|lia]. rewrite andb_true_r.
  unfold task_of_frame. destruct (Z.ltb_spec 0 (zlen p)).
  - destruct (complete_buffer c) as (_ & -> & _). cbn [mbind outcome_bind].
    pose proof (write_at_cursor [] (Queue.t_payload junk) 0 p) as Hw. cbn [app] in Hw.
    by rewrite Hw by (done || lia).
  - assert (length p = 0%nat) as Hnil%nil_length_inv by (unfold zlen in *; lia).
    by rewrite Hnil.
Qed.

(** A right CRC: the task is built and pushed, or dropped if refused. *)
Lemma frame_complete_good_crc sv slot c now now' l junk :
  x = Crc.crc_calculate p -> table_ok (clients sv) -> clients sv !! slot = Some c ->
  alive c = true -> zlen (clients sv) = MAX_CLIENTS ->
  malloc_task m (task_mem sv) = Some (l, junk) -> zlen (Queue.t_payload junk) = MAX_PAYLOAD ->
  frame_complete m sv slot (recv_state c F D (length F)) (zlen p) now now'
  = ('(q, tm) ←
       ('(ret, q, tm) ← Queue.push (Some (tasks sv)) (Some l)
          (<[l := task_of_frame (Z.of_nat slot) c junk now]> (task_mem sv));
        q ← deref q;
        if ret <? 0 then tm ← free tm (Some l); Ret (q, tm) else Ret (q, tm));
     Ret (0, set_task_mem tm (set_tasks q
               (put_client sv slot (set_last_active_ms now' (after_frame c)))))).
Proof using Ht Hr Hlen Hx.
  intros Hcrc Hok Hc Ha Hmax Hl Hj. unfold frame_complete.
  destruct (complete_buffer c) as (-> & -> & -> & -> & ->). cbn [mbind outcome_bind].
  destruct (Z.eqb_spec x (Crc.crc_calculate p)); [|done]. cbn [negb].
  set (c' := recv_state c _ D _).
  assert (fd_to_slot (<[slot := c']> (clients sv)) (fd c') MAX_CLIENTS = Z.of_nat slot) as ->.
  { pose proof (lookup_lt_Some _ _ _ Hc) as Hs. assert (live_at (clients sv) slot (fd c)) as Hlive
      by (by exists c).
    assert (0 <= fd c) as Hfd0 by (by eapply Hok). rewrite <- Hmax. replace (zlen (clients sv)) with (zlen (<[slot := c']> (clients sv)))
      by (unfold zlen; by rewrite length_insert).
    apply fd_to_slot_live; [|exact Hfd0|by apply live_at_insert].
    apply table_ok_insert; [done|]. intros _. split; [exact Hfd0|].
    intros i Hi (d & Hd & Had & Hfd). apply Hi. destruct Hok as [_ Huniq].
    by eapply (Huniq i slot d c). }
  subst c'. rewrite (build_task_frame c (Z.of_nat slot) now (task_mem sv) l junk)
    by (done || lia). cbn [mbind outcome_bind].
  assert (set_rx_len 0 (set_stage READ_HEADER (recv_state c F D (length F))) = after_frame c)
    as ->; [|done].
  unfold after_frame, recv_state. rewrite take_ge by reflexivity. by destruct c.
Qed.
End Reassembly.

(** ** Delivery *)

Lemma recv_state_zero c F :
  stage c = READ_HEADER -> rx_len c = 0 -> recv_state c F (data_receive c) 0 = c.
Proof. intros Hs Hr. destruct c. cbn in *. by subst. Qed.

(** A session between two messages. *)
Definition at_boundary (c : client) : Prop :=
  stage c = READ_HEADER /\ rx_len c = 0 /\ zlen (data_receive c) = RX_BUF_CAP.

Lemma client_read_frame m sv slot c t r p x rest script eof now now' :
  clients sv !! slot = Some c -> at_boundary c ->
  accepted_type t -> in_u 32 r -> bytes p -> zlen p <= MAX_PAYLOAD -> reading script ->
  (length (wire_frame t r p x) <= nchunks script)%nat ->
  client_read_message m script eof (wire_frame t r p x ++ rest) sv slot now now'
  = ('(ret, sv) ← frame_complete m sv slot
       (recv_state c (wire_frame t r p x) (data_receive c) (length (wire_frame t r p x)))
       (zlen p) now now';
     Ret (ret, sv, rest)).
Proof.
  intros Hc (Hst & Hrx & HD) Ht Hr Hp Hlen Hs Hn. unfold client_read_message. rewrite Hc.
  cbn [deref mbind outcome_bind].
  pose proof (read_loop_frame m t r x p rest (data_receive c) Ht Hr Hp Hlen HD
    script eof sv slot c now now' 0 Hs) as Hl.
  rewrite recv_state_zero in Hl by done. rewrite drop_0 in Hl. apply Hl; [|lia].
  rewrite frame_length. lia.
Qed.

Lemma after_frame_cap t r x p D :
  zlen p <= MAX_PAYLOAD -> zlen D = RX_BUF_CAP ->
  zlen (wire_frame t r p x ++ drop (length (wire_frame t r p x)) D) = RX_BUF_CAP.
Proof.
  intros Hlen HD. pose proof (frame_fits t r x p D Hlen HD).
  rewrite zlen_app, zlen_drop. unfold zlen in *. lia.
Qed.

(** What one call does with a frame that is on the stream. *)
Lemma read_queues_task m sv slot c t r p rest script eof now now' l junk :
  allocator_ok m -> clients sv !! slot = Some c -> at_boundary c ->
  table_ok (clients sv) -> alive c = true -> zlen (clients sv) = MAX_CLIENTS ->
  accepted_type t -> in_u 32 r -> bytes p -> zlen p <= MAX_PAYLOAD ->
  reading script -> (length (frame t r p) <= nchunks script)%nat ->
  Queue.tq_shutdown (tasks sv) = false -> Queue.tq_tail (tasks sv) = None ->
  Queue.tq_size (tasks sv) < Queue.tq_max_size (tasks sv) ->
  malloc_task m (task_mem sv) = Some (l, junk) ->
  exists sv' c', client_read_message m script eof (frame t r p ++ rest) sv slot now now'
      = Ret (0, sv', rest) /\
    tasks sv' = Queue.TaskQueue (Some l) (Some l) (Queue.tq_size (tasks sv) + 1)
                  (Queue.tq_max_size (tasks sv)) false /\
    task_mem sv' !! l = Some (task_of_frame t r p (Z.of_nat slot) c junk now) /\
    clients sv' = <[slot := c']> (clients sv) /\ at_boundary c' /\
    last_active_ms c' = now' /\ txs sv' = txs sv /\
    (alive c' = true /\ generation c' = generation c /\ c_head c' = c_head c /\ c_tail c' = c_tail c) /\
    response sv' = response sv /\ response_mem sv' = response_mem sv.
Proof.
  intros Hm Hc Hb Hok Ha Hmax Ht Hr Hp Hlen Hs Hn Hsd Htl Hsz Hl.
  change (frame t r p) with (wire_frame t r p (Crc.crc_calculate p)) in *.
  pose proof Hb as (Hst & Hrx & HD).
  destruct (task_fresh m Hm _ _ _ Hl) as [_ Hj].
  rewrite (client_read_frame m sv slot c) by done.
  rewrite (frame_complete_good_crc m t r (Crc.crc_calculate p) p (data_receive c) Ht Hr Hlen
    (Crc.crc_calculate_range p Hp) sv slot c now now' l junk) by done.
  erewrite Queue.push_first by (done || apply lookup_insert_eq).
  cbn [mbind outcome_bind deref Z.ltb Z.compare]. eexists _, _. split; [reflexivity|].
  split; [done|]. split; [apply lookup_insert_eq|]. split; [done|].
  split; [|by rewrite <- Ha]. split_and!; [done|done|].
  cbn [data_receive set_last_active_ms after_frame set_rx_len set_stage set_data_receive].
  by apply after_frame_cap.
Qed.


(** [queue_packet] appends to the session's transmit list. *)
Lemma queue_packet_appends m sv slot c packet size l ls :
  allocator_ok m -> linked_queue (txs sv) (c_head c) (c_tail c) ls ->
  malloc_tx m (txs sv) = Some l ->
  exists sv' c', queue_packet m sv slot c packet size = Ret sv' /\
    clients sv' = <[slot := c']> (clients sv) /\
    stage c' = stage c /\ rx_len c' = rx_len c /\ data_receive c' = data_receive c /\
    tx_abs (txs sv', c') = tx_abs (txs sv, c) ++ [DataTransmit packet size 0 None] /\
    tasks sv' = tasks sv /\ task_mem sv' = task_mem sv.
Proof.
  intros Hm Hq Hl.
  destruct (enqueue_message_links m Hm c (txs sv) ls packet size l Hq Hl)
    as (h' & head & He & Hq' & Hcells & _).
  unfold queue_packet. rewrite He. cbn [mbind outcome_bind].
  eexists _, _. split; [reflexivity|]. split; [reflexivity|]. cbn [stage rx_len data_receive
    set_bytes_need_to_send set_c_tail set_c_head]. split_and!; [done..| |done|done].
  cbn [txs set_sv_epoll set_txs]. rewrite (tx_abs_cells _ _ (ls ++ [l])) by exact Hq'.
  rewrite (tx_abs_cells (txs sv) c ls Hq), Hcells, fmap_app. done.
Qed.


(** A bad header is answered and skipped: whichever check fails, after its
    sixteen bytes the call returns 2, queues no task, appends an error packet
    with the code of the failed check and the request id found in the header,
    and the session waits for a header again.  Only the sixteen bytes are
    consumed: what follows, also the payload and CRC of a complete frame whose
    type is merely unknown, is read as the next header. *)
Theorem client_read_bad_header m sv slot c mg v t n r rest script eof now now' l blk ls :
  allocator_ok m -> clients sv !! slot = Some c -> at_boundary c ->
  in_u 32 mg -> in_u 16 v -> in_u 16 t -> in_u 32 n -> in_u 32 r ->
  check_header (HeaderPacket mg v t n r) <> 0 ->
  reading script -> (16 <= nchunks script)%nat ->
  linked_queue (txs sv) (c_head c) (c_tail c) ls ->
  malloc_tx m (txs sv) = Some l -> malloc_buf m 21 = Some blk ->
  exists sv' c',
    client_read_message m script eof (raw_header mg v t n r ++ rest) sv slot now now'
      = Ret (2, sv', rest) /\
    tasks sv' = tasks sv /\ task_mem sv' = task_mem sv /\
    clients sv' = <[slot := c']> (clients sv) /\ at_boundary c' /\
    tx_abs (txs sv', c') = tx_abs (txs sv, c)
      ++ [DataTransmit (frame MSG_ERROR r [check_header (HeaderPacket mg v t n r)]) 21 0 None].
Proof.
  intros Hm Hc (Hst & Hrx & HD) Hmg Hv Ht Hn Hr Hbad Hs Hnc Hq Hl Hblk.
  set (H := raw_header mg v t n r). set (code := check_header _) in *.
  unfold client_read_message. rewrite Hc. cbn [deref mbind outcome_bind].
  destruct (read_loop_header m script eof H rest (data_receive c) sv slot c now now' 0)
    as [script' Hloop]; [done|unfold zlen, RX_BUF_CAP in HD; lia|done|lia|lia|].
  rewrite recv_state_zero, drop_0 in Hloop by done. rewrite Hloop. clear Hloop.
  unfold header_complete. cbn [data_receive set_rx_len set_data_receive].
  pose proof (raw_header_decode mg v t n r (drop 16 (data_receive c)) Hmg Hv Ht Hn Hr) as Hdec.
  fold H in Hdec. destruct Hdec as (-> & -> & -> & -> & ->).
  cbn [mbind outcome_bind]. fold code.
  pose proof (check_header_range (HeaderPacket mg v t n r)) as Hcode. fold code in Hcode.
  destruct (Z.ltb_spec code 0); [lia|]. destruct (Z.ltb_spec 0 code); [|lia].
  rewrite build_error_packet_block, Hblk by (intros b Eb; by apply (buf_size m Hm)).
  cbn [mbind outcome_bind].
  edestruct (queue_packet_appends m sv slot) as
    (sv' & c' & -> & Hcl & Hst' & Hrx' & Hdr' & Htx & Htq & Htm); [done|exact Hq|exact Hl|].
  cbn [mbind outcome_bind]. exists sv', c'. split_and!; [done..| |exact Htx].
  split_and!; [by rewrite Hst'|by rewrite Hrx'|]. rewrite Hdr'.
  cbn [data_receive set_rx_len set_stage set_data_receive].
  rewrite zlen_app, zlen_drop. change (zlen H) with 16. unfold RX_BUF_CAP in *. lia.
Qed.

(** ** Safety of the receive path against any peer *)

(** The receive state machine's invariant. *)
Definition session_ok (c : client) : Prop :=
  zlen (data_receive c) = RX_BUF_CAP /\
  match stage c with
  | READ_HEADER => 0 <= rx_len c < HEADER_SIZE
  | READ_PAYLOAD =>
      exists n, decode_32_bit (data_receive c) 8 = Ret n /\ 0 <= n <= MAX_PAYLOAD /\
        HEADER_SIZE <= rx_len c < n + HEADER_SIZE + CRC_SIZE
  | READ_CRC => False
  end.

(** The session's transmit list is well formed and the task queue's tail, if
    any, is a live task. *)
Definition queues_ok (sv : server) (c : client) : Prop :=
  tx_inv (txs sv, c) /\
  match Queue.tq_tail (tasks sv) with
  | Some t => is_Some (task_mem sv !! t)
  | None => True
  end.

Section Safety.
Context (m : allocator) (Hm : allocator_ok m).

Lemma build_error_packet_safe r code :
  exists res, build_error_packet (malloc_buf m) r code = Ret res.
Proof using Hm.
  rewrite build_error_packet_block by (intros b Eb; by apply (buf_size m Hm)). eauto.
Qed.

Lemma queue_packet_safe sv slot c packet size :
  tx_inv (txs sv, c) ->
  exists sv' c', queue_packet m sv slot c packet size = Ret sv' /\
    clients sv' = <[slot := c']> (clients sv) /\
    stage c' = stage c /\ rx_len c' = rx_len c /\ data_receive c' = data_receive c.
Proof using Hm.
  intros [ls Hq]. destruct (malloc_tx m (txs sv)) as [l|] eqn:El.
  - destruct (queue_packet_appends m sv slot c packet size l ls Hm Hq El)
      as (sv' & c' & E & Hcl & Hst & Hrx & Hdr & _). by exists sv', c'.
  - unfold queue_packet, enqueue_message. rewrite El. cbn [mbind outcome_bind].
    by eexists _, c.
Qed.

(** Pushing a fresh task when the tail is live or absent. *)
Lemma push_fresh_safe q tm l t :
  tm !! l = None -> match Queue.tq_tail q with Some k => is_Some (tm !! k) | None => True end ->
  exists ret q' tm', Queue.push (Some q) (Some l) (<[l := t]> tm) = Ret (ret, Some q', tm') /\
    is_Some (tm' !! l).
Proof.
  intros Hl Htl. destruct (Queue.tq_shutdown q) eqn:Es.
  { rewrite Queue.push_guards by (by left). eexists _, _, _. split; [reflexivity|].
    rewrite lookup_insert_eq. eauto. }
  destruct (Z.leb_spec (Queue.tq_max_size q) (Queue.tq_size q)).
  { rewrite Queue.push_guards by (by right). eexists _, _, _. split; [reflexivity|].
    rewrite lookup_insert_eq. eauto. }
  destruct (Queue.tq_tail q) as [k|] eqn:Ek.
  - destruct Htl as [y Hy]. assert (k <> l) as Hne by congruence.
    erewrite (Queue.push_second q _ k l y t);
      [|done|lia|done|by rewrite lookup_insert_ne|apply lookup_insert_eq|done].
    eexists _, _, _. split; [reflexivity|]. rewrite lookup_insert_eq. eauto.
  - erewrite Queue.push_first by (done || apply lookup_insert_eq).
    eexists _, _, _. split; [reflexivity|]. rewrite lookup_insert_eq. eauto.
Qed.

Lemma header_complete_safe sv slot c :
  zlen (data_receive c) = RX_BUF_CAP -> rx_len c = HEADER_SIZE -> tx_inv (txs sv, c) ->
  (exists ret sv' c', header_complete m sv slot c = Ret (inl (ret, sv')) /\
     (ret = -1 \/ ret = 2) /\ clients sv' = <[slot := c']> (clients sv) /\
     (ret = 2 -> session_ok c')) \/
  (exists n, header_complete m sv slot c = Ret (inr (set_stage READ_PAYLOAD c)) /\
     decode_32_bit (data_receive c) 8 = Ret n /\ 0 <= n <= MAX_PAYLOAD).
Proof using Hm.
  intros HD Hrx Hq. unfold RX_BUF_CAP in HD. unfold header_complete.
  destruct (decode_32_total (data_receive c) 0) as (mg & -> & _); [lia|lia|].
  destruct (decode_16_total (data_receive c) 4) as (v & -> & _); [lia|lia|].
  destruct (decode_16_total (data_receive c) 6) as (t & -> & _); [lia|lia|].
  destruct (decode_32_total (data_receive c) 8) as (n & Hn & Hnu); [lia|lia|].
  destruct (decode_32_total (data_receive c) 12) as (r & -> & _); [lia|lia|].
  rewrite Hn. cbn [mbind outcome_bind]. set (h := HeaderPacket mg v t n r).
  pose proof (check_header_range h) as Hcode.
  destruct (Z.ltb_spec (check_header h) 0); [lia|]. destruct (Z.ltb_spec 0 (check_header h)).
  - left. destruct (build_error_packet_safe r (check_header h)) as [[[packet size]|] ->];
      cbn [mbind outcome_bind].
    + set (c1 := set_rx_len 0 (set_stage READ_HEADER c)).
      destruct (queue_packet_safe sv slot c1 packet size Hq)
        as (sv' & c' & -> & Hcl & Hst & Hrx' & Hdr). cbn [mbind outcome_bind].
      exists 2, sv', c'. split_and!; [done|by right|done|]. intros _. split.
      * by rewrite Hdr.
      * rewrite Hst, Hrx'. done.
    + by exists (-1), (put_client sv slot c), c; split_and!; [|left| |].
  - right. exists n. assert (check_header h = 0) as Hz by lia.
    apply check_header_zero in Hz as (_ & _ & Hz & _).
    split_and!; [done|done|unfold in_u in Hnu; lia|exact Hz].
Qed.

Lemma frame_complete_safe sv slot c n now now' :
  zlen (data_receive c) = RX_BUF_CAP -> decode_32_bit (data_receive c) 8 = Ret n ->
  0 <= n <= MAX_PAYLOAD -> queues_ok sv c ->
  exists ret sv' c', frame_complete m sv slot c n now now' = Ret (ret, sv') /\
    (ret = 0 \/ ret = 2) /\ clients sv' = <[slot := c']> (clients sv) /\ session_ok c'.
Proof using Hm.
  intros HD Hn Hr [Hq Htl]. unfold RX_BUF_CAP, MAX_PAYLOAD in *.
  assert (session_ok (set_rx_len 0 (set_stage READ_HEADER c))) as Hok by (by split).
  unfold frame_complete. unfold HEADER_SIZE.
  destruct (decode_32_total (data_receive c) (16 + n)) as (x & -> & _); [lia|lia|].
  destruct (read_at_inside (data_receive c) 16 n) as (body & Hbody & Hbl); [lia|lia|lia|].
  destruct (decode_32_total (data_receive c) 12) as (r & -> & _); [lia|lia|].
  rewrite Hbody. cbn [mbind outcome_bind].
  destruct (x =? Crc.crc_calculate body); cbn [negb].
  2: { destruct (build_error_packet_safe r (err_code_val ERR_CRC_MISMATCH))
         as [[[packet size]|] ->]; cbn [mbind outcome_bind].
       - destruct (queue_packet_safe sv slot (set_rx_len 0 (set_stage READ_HEADER c))
           packet size Hq) as (sv' & c' & -> & Hcl & Hst & Hrx' & Hdr).
         cbn [mbind outcome_bind]. exists 2, sv', c'. split_and!; [done|by right|done|].
         unfold session_ok. by rewrite Hst, Hrx', Hdr.
       - eexists 2, _, _. by split_and!; [|right| |]. }
  destruct (decode_16_total (data_receive c) 6) as (t & -> & _); [lia|lia|].
  rewrite Hn. cbn [mbind outcome_bind]. unfold build_task.
  destruct (fd_to_slot _ _ _ <? 0).
  { cbn [mbind outcome_bind]. eexists 0, _, _. by split_and!; [|left| |]. }
  destruct (malloc_task m (task_mem sv)) as [[l junk]|] eqn:El.
  2: { cbn [mbind outcome_bind]. eexists 0, _, _. by split_and!; [|left| |]. }
  destruct (task_fresh m Hm _ _ _ El) as [Hfresh Hj]. unfold MAX_PAYLOAD in Hj.
  assert (exists pl, (if ((0 <? n) && (n <=? MAX_PAYLOAD))%bool
            then d ← read_at (data_receive c) HEADER_SIZE n; write_at (Queue.t_payload junk) 0 d
            else Ret (Queue.t_payload junk)) = Ret pl) as [pl Hpl].
  { unfold HEADER_SIZE. rewrite Hbody. cbn [mbind outcome_bind].
    destruct (write_at_inside (Queue.t_payload junk) 0 body) as (b' & -> & _); [lia|lia|].
    destruct (_ && _)%bool; eauto. }
  cbn [h_length h_type h_request_id]. rewrite Hpl. cbn [mbind outcome_bind].
  edestruct (push_fresh_safe (tasks sv) (task_mem sv) l) as (ret & q' & tm' & -> & [y Hy]);
    [done|exact Htl|]. cbn [mbind outcome_bind deref].
  destruct (ret <? 0).
  - rewrite (free_alloc tm' l y) by done. cbn [mbind outcome_bind].
    eexists 0, _, _. by split_and!; [|left| |].
  - cbn [mbind outcome_bind]. eexists 0, _, _. by split_and!; [|left| |].
Qed.

Lemma write_at_keeps buf off bs buf' : write_at buf off bs = Ret buf' -> zlen buf' = zlen buf.
Proof.
  unfold write_at. destruct (Z.leb_spec 0 off); [|done].
  destruct (Z.leb_spec (off + zlen bs) (zlen buf)); [|done]. cbn. intros [= <-]. len.
Qed.

(** What is known of a finished call. *)
Definition read_result (sv : server) (slot : nat) (res : outcome (Z * server * list Z)) : Prop :=
  exists ret sv' stream' c', res = Ret (ret, sv', stream') /\ -1 <= ret <= 3 /\
    clients sv' = <[slot := c']> (clients sv) /\
    (ret = 0 \/ ret = 2 \/ ret = 3 -> session_ok c').

(** Results that do not touch the server. *)
Lemma read_result_put sv slot c ret stream :
  -1 <= ret <= 3 -> (ret = 3 -> session_ok c) -> ret <> 0 -> ret <> 2 ->
  read_result sv slot (Ret (ret, put_client sv slot c, stream)).
Proof.
  intros Hret Hok H0 H2. exists ret, (put_client sv slot c), stream, c.
  split_and!; [done|lia|lia|done|]. intros [?|[?|?]]; [done|done|auto].
Qed.

Lemma read_loop_safe script eof stream sv slot c now now' :
  session_ok c -> queues_ok sv c ->
  read_result sv slot (client_read_loop m script eof stream sv slot c now now').
Proof using Hm.
  revert stream c. induction script as [|ev script IH]; intros stream c Hok Hq;
    pose proof Hok as [HD Hst]; cbn [client_read_loop]; destruct (stage c) eqn:Es;
    try done; try (by apply read_result_put).
  - unfold HEADER_SIZE in Hst. rewrite wrap_small by (unfold HEADER_SIZE; lia).
    destruct (recv ev eof stream (HEADER_SIZE - rx_len c)) as [[bs|err] stream'] eqn:Er.
    2: { destruct (err =? EINTR); [by apply IH|].
         destruct (err =? EAGAIN); by apply read_result_put. }
    apply recv_data_bounds in Er; [|unfold HEADER_SIZE; lia].
    destruct bs as [|b bs]; [by apply read_result_put|]. unfold RX_BUF_CAP, HEADER_SIZE in *.
    destruct (write_at_inside (data_receive c) (rx_len c) (b :: bs)) as (d & Hw & Hd); [lia|lia|].
    rewrite Hw. cbn [mbind outcome_bind rx_len set_rx_len].
    pose proof (zlen_nonneg bs) as Hbs. rewrite zlen_cons in *.
    destruct (Z.ltb_spec (rx_len c + (1 + zlen bs)) 16).
    + apply IH; [|exact Hq]. split; [cbn; unfold RX_BUF_CAP; lia|].
      cbn [stage rx_len set_rx_len set_data_receive]. rewrite Es. unfold HEADER_SIZE. lia.
    + edestruct (header_complete_safe sv slot
        (set_rx_len (rx_len c + (1 + zlen bs)) (set_data_receive d c)))
        as [(ret & sv' & c' & -> & Hret & Hcl & Hok')|(n & -> & Hn & Hnr)].
      * cbn. unfold RX_BUF_CAP. lia.
      * cbn. unfold HEADER_SIZE. lia.
      * exact (proj1 Hq).
      * cbn [mbind outcome_bind]. exists ret, sv', stream', c'.
        split_and!; [done|lia|lia|done|]. intros ?. apply Hok'. lia.
      * cbn [mbind outcome_bind]. apply IH; [|exact Hq].
        split; [cbn; unfold RX_BUF_CAP; lia|]. exists n. split_and!; [done|lia|lia|..];
          cbn; unfold HEADER_SIZE, CRC_SIZE; lia.
  - destruct Hst as (n & Hn & Hnr & Hrx). rewrite Hn. cbn [mbind outcome_bind].
    unfold RX_BUF_CAP, HEADER_SIZE, CRC_SIZE, MAX_PAYLOAD in *.
    rewrite (wrap_small 32) by lia. rewrite wrap_small by lia.
    destruct (recv ev eof stream (n + 16 + 4 - rx_len c)) as [[bs|err] stream'] eqn:Er.
    2: { destruct (err =? EINTR); [by apply IH|].
         destruct (err =? EAGAIN); by apply read_result_put. }
    apply recv_data_bounds in Er; [|lia].
    destruct bs as [|b bs]; [by apply read_result_put|].
    destruct (write_at_inside (data_receive c) (rx_len c) (b :: bs)) as (d & Hw & Hd); [lia|lia|].
    pose proof (decode_32_write _ _ _ _ 8 Hw ltac:(lia)) as H8.
    rewrite Hw. cbn [mbind outcome_bind rx_len set_rx_len].
    pose proof (zlen_nonneg bs) as Hbs. rewrite zlen_cons in *.
    destruct (Z.ltb_spec (rx_len c + (1 + zlen bs)) (n + 16 + 4)).
    + apply IH; [|exact Hq]. split; [cbn; unfold RX_BUF_CAP; lia|].
      cbn [stage rx_len data_receive set_rx_len set_data_receive]. rewrite Es. exists n.
      unfold HEADER_SIZE, CRC_SIZE, MAX_PAYLOAD. split_and!; [congruence|lia..].
    + edestruct (frame_complete_safe sv slot
        (set_rx_len (rx_len c + (1 + zlen bs)) (set_data_receive d c)) n now now')
        as (ret & sv' & c' & -> & Hret & Hcl & Hok').
      * cbn. unfold RX_BUF_CAP. lia.
      * cbn [data_receive set_rx_len set_data_receive]. congruence.
      * unfold MAX_PAYLOAD. lia.
      * exact Hq.
      * cbn [mbind outcome_bind]. exists ret, sv', stream', c'.
        split_and!; [done|lia|lia|done|]. by intros _.
Qed.
End Safety.

(** The receive path is memory safe against any peer: whatever bytes arrive
    and however the transport behaves, a call on a session that satisfies the
    receive invariant never writes outside the 8192-byte buffer nor decodes
    outside it, always returns one of the documented codes, and unless it asks
    for the session to be closed leaves the invariant established. *)
Theorem client_read_safe m script eof stream sv slot c now now' :
  allocator_ok m -> clients sv !! slot = Some c -> session_ok c -> queues_ok sv c ->
  exists ret sv' stream' c',
    client_read_message m script eof stream sv slot now now' = Ret (ret, sv', stream') /\
    -1 <= ret <= 3 /\ clients sv' = <[slot := c']> (clients sv) /\
    (ret = 0 \/ ret = 2 \/ ret = 3 -> session_ok c').
Proof.
  intros Hm Hc Hok Hq. unfold client_read_message. rewrite Hc. cbn [deref mbind outcome_bind].
  by apply (read_loop_safe m Hm).
Qed.

(** ** A concrete server with one session *)

Definition sample_clients : list client :=
  sample_client 7 true :: replicate 127 (sample_client (-1) false).

Definition sample_server : server :=
  Server sample_clients (Queue.TaskQueue None None 0 1024 false)
    (Queue.ResponseQueue None None 0 1024) false 0 {[7 := EPOLLIN]} ∅ ∅ ∅.

Lemma sample_clients_dead i c :
  sample_clients !! S i = Some c -> c = sample_client (-1) false.
Proof. intros Hc. by apply lookup_replicate in Hc as [-> _]. Qed.

Lemma sample_clients_ok : table_ok sample_clients.
Proof.
  split.
  - intros [|i] c Hc; [by injection Hc as <-|]. by apply sample_clients_dead in Hc as ->.
  - intros [|i] [|j] c d Hc Hd; [done|..];
      first [apply sample_clients_dead in Hd as ->|apply sample_clients_dead in Hc as ->];
      done.
Qed.

Lemma sample_boundary : at_boundary (sample_client 7 true).
Proof. split_and!; [done|done|]. cbn [data_receive sample_client]. by rewrite zlen_replicate. Qed.

Definition byte_by_byte (n : nat) : list rx_event := RxErr EINTR :: replicate n (RxChunk 1).

Lemma byte_by_byte_reading n : reading (byte_by_byte n).
Proof. constructor; [by right|]. apply Forall_replicate. left. by exists 1. Qed.

Lemma byte_by_byte_chunks n : nchunks (byte_by_byte n) = n.
Proof. unfold nchunks, byte_by_byte. cbn. induction n as [|n IH]; [done|]. cbn. by rewrite IH. Qed.



Lemma client_read_bad_header_witness :
  exists sv' c', client_read_message sample_allocator (byte_by_byte 16) false
      (raw_header PROTOCOL_MAGIC PROTOCOL_VERSION MSG_SET_DEVICE 2 9 ++ [8; 8; 1; 2; 3; 4])
      sample_server 0 3 4 = Ret (2, sv', [8; 8; 1; 2; 3; 4]) /\
    clients sv' = <[0%nat := c']> sample_clients /\ at_boundary c'.
Proof.
  edestruct (client_read_bad_header sample_allocator sample_server 0 (sample_client 7 true)
    PROTOCOL_MAGIC PROTOCOL_VERSION MSG_SET_DEVICE 2 9 [8; 8; 1; 2; 3; 4] (byte_by_byte 16)
    false 3 4) as (sv' & c' & Hr & _ & _ & Hc & Hb & _).
  - exact sample_allocator_ok.
  - reflexivity.
  - exact sample_boundary.
  - by apply (bool_decide_unpack _).
  - by apply (bool_decide_unpack _).
  - by apply (bool_decide_unpack _).
  - by apply (bool_decide_unpack _).
  - by apply (bool_decide_unpack _).
  - discriminate.
  - apply byte_by_byte_reading.
  - vm_compute. reflexivity.
  - apply linked_queue_nil.
  - reflexivity.
  - reflexivity.
  - exists sv', c'. by split_and!.
Defined.

Lemma client_read_safe_witness :
  exists ret sv' stream' c',
    client_read_message sample_allocator [RxChunk 3; RxErr 104] true [9; 9; 9; 9] sample_server
      0 3 4 = Ret (ret, sv', stream') /\
    -1 <= ret <= 3 /\ clients sv' = <[0%nat := c']> (clients sample_server) /\
    (ret = 0 \/ ret = 2 \/ ret = 3 -> session_ok c').
Proof.
  apply (client_read_safe sample_allocator [RxChunk 3; RxErr 104] true [9; 9; 9; 9]
    sample_server 0 (sample_client 7 true) 3 4 sample_allocator_ok).
  - reflexivity.
  - split; [apply sample_boundary|vm_compute; split; [discriminate|reflexivity]].
  - split; [exists []; apply linked_queue_nil|exact I].
Defined.

End Server.
