(* ===== verification/Handlers.v ===== *)
(** * Handlers of the main loop (gateway/src/server.c, worker_thread.c)

    Accepting, reading, answering, flushing, reaping and shutting down, on the
    [server] state of [Server].  Kernel and TLS library answers are arguments:
    the result of [accept4], of [SSL_new] and [SSL_set_fd], of the handshake,
    and the scripts of the transport. *)
From Stdlib Require Import Floats.SpecFloat.
From S2P Require Import Prelude Socket Heap Fifo Crc Protocol RateLimit Queue Client Server.
Import Protocol Client Server.
Open Scope c_scope.

Module Handlers.

Definition TASK_QUEUE_MAX : Z := 1024.

(** ** TLS handshake *)

(** [SSL_do_handshake]: done, or the value of [SSL_get_error]. *)
Inductive handshake := HsDone | HsErr (err : Z).

(** [close_client(sv->clients, slot)] *)
Definition sv_close (sv : server) (slot : Z) : outcome (Z * server) :=
  '(ret, cs, e, h) ← close_client (clients sv) slot (sv_epoll sv) (txs sv);
  Ret (ret, set_clients cs (set_sv_epoll e (set_txs h sv))).

Definition tls_try_handshake (sv : server) (slot : Z) (hs : handshake) : outcome (Z * server) :=
  if slot <? 0 then Ret (-1, sv)
  else
    c ← deref (clients sv !! Z.to_nat slot);
    match hs with
    | HsDone =>
        Ret (0, set_sv_epoll (epoll_mod (sv_epoll sv) EPOLLIN (fd c)).2
                  (put_client sv (Z.to_nat slot) (set_tls_handshake_done true c)))
    | HsErr err =>
        if err =? SSL_ERROR_WANT_READ
        then Ret (1, set_sv_epoll (epoll_mod (sv_epoll sv) EPOLLIN (fd c)).2 sv)
        else if err =? SSL_ERROR_WANT_WRITE
        then Ret (1, set_sv_epoll (epoll_mod (sv_epoll sv) (EPOLLIN .| EPOLLOUT) (fd c)).2 sv)
        else '(_, sv) ← sv_close sv slot; Ret (-1, sv)
    end.

(** ** Accepting *)

(** Answers of the kernel and the TLS library to one accept event. *)
Record accept_env := AcceptEnv {
  ae_fd : (Z * Z) + Z;        (* descriptor and peer address, or errno *)
  ae_now : Z; ae_now' : Z;    (* clock readings of [client_alloc] *)
  ae_ssl : option Z;          (* [SSL_new] *)
  ae_set_fd : Z;              (* [SSL_set_fd] *)
  ae_handshake : handshake }.

Definition handle_accept_client (env : accept_env) (sv : server) : outcome (Z * server) :=
  match ae_fd env with
  | inr err => if ((err =? EAGAIN) || (err =? EINTR))%bool then Ret (0, sv) else Ret (-1, sv)
  | inl (client_fd, a) =>
      let '(slot, cs) := client_alloc (clients sv) MAX_CLIENTS client_fd (Some a)
                           (ae_now env) (ae_now' env) in
      if slot <? 0 then Ret (-1, sv)
      else
        let sv := set_clients cs sv in
        let '(ret, e) := epoll_add (sv_epoll sv) EPOLLIN client_fd in
        if ret <? 0 then '(_, sv) ← sv_close sv slot; Ret (-1, sv)
        else
          let sv := set_sv_epoll e sv in
          c ← deref (clients sv !! Z.to_nat slot);
          let sv := put_client sv (Z.to_nat slot) (set_ssl (ae_ssl env) c) in
          match ae_ssl env with
          | None => '(_, sv) ← sv_close sv slot; Ret (-1, sv)
          | Some _ =>
              if ae_set_fd env =? 0 then '(_, sv) ← sv_close sv slot; Ret (-1, sv)
              else '(_, sv) ← tls_try_handshake sv slot (ae_handshake env); Ret (0, sv)
          end
  end.

(** ** Reading *)

(** The loop that throws away what a client over its rate has sent. *)
Fixpoint discard_loop (script : list rx_event) (eof : bool) (stream : list Z) : list Z :=
  match script with
  | [] => stream
  | ev :: script =>
      match recv ev eof stream 512 with
      | (RxData (_ :: _), stream) => discard_loop script eof stream
      | (_, stream) => stream
      end
  end.

(** [t1], [t2]: the clock readings of [request_allow]; [now], [now']: those of
    [client_read_message]. *)
Definition handle_request_client (m : allocator) (script : list rx_event) (eof : bool)
    (stream : list Z) (hs : handshake) (t1 t2 now now' : Z) (sv : server) (client_fd : Z)
    : outcome (Z * server * list Z) :=
  if client_fd <? 0 then Ret (-1, sv, stream)
  else
    let slot := fd_to_slot (clients sv) client_fd MAX_CLIENTS in
    if slot <? 0 then Ret (-1, sv, stream)
    else
      c ← deref (clients sv !! Z.to_nat slot);
      if negb (alive c) then Ret (-1, sv, stream)
      else if negb (tls_handshake_done c) then
        '(ret, sv) ← tls_try_handshake sv slot hs;
        Ret (if ret <? 0 then -1 else 0, sv, stream)
      else
        let '(allow, r) := RateLimit.request_allow t1 t2 (Some (rate c)) in
        let c := match r with Some r => set_rate r c | None => c end in
        let sv := put_client sv (Z.to_nat slot) c in
        if negb allow then Ret (1, sv, discard_loop script eof stream)
        else
          '(ret, sv, stream) ←
            client_read_message m script eof stream sv (Z.to_nat slot) now now';
          if ((ret =? -1) || (ret =? 1))%bool
          then '(_, sv) ← sv_close sv slot; Ret (-1, sv, stream)
          else Ret (0, sv, stream).

(** ** Answering *)

(** The body of the loop of [handle_response_to_client] for one response. *)
Definition deliver_response (m : allocator) (sv : server) (rp : loc) : outcome server :=
  r ← deref (response_mem sv !! rp);
  let free_rp (sv : server) :=
    mem ← free (response_mem sv) (Some rp); Ret (set_response_mem mem sv) in
  let slot := Queue.r_slot r in
  if ((slot <? 0) || (MAX_CLIENTS <=? slot))%bool then free_rp sv
  else
    c ← deref (clients sv !! Z.to_nat slot);
    if negb (alive c && check_response_message r c) then free_rp sv
    else
      data ← packet_response_message m (Some r);
      match data with
      | None => free_rp sv
      | Some d =>
          '(ret, c, h) ← enqueue_message m c (Some d)
            (u32 (Queue.r_length r + CRC_SIZE + HEADER_SIZE)) (txs sv);
          let sv := set_txs h (put_client sv (Z.to_nat slot) c) in
          if negb (ret =? 0) then free_rp sv
          else
            free_rp (set_sv_epoll (epoll_mod (sv_epoll sv) (EPOLLIN .| EPOLLOUT) (fd c)).2 sv)
      end.

(** [rp = response_queue_pop(&sv->response)] *)
Definition pop_response (sv : server) : outcome (option loc * server) :=
  '(rp, q, mem) ← Queue.response_queue_pop (Some (response sv)) (response_mem sv);
  q ← deref q; Ret (rp, set_response q (set_response_mem mem sv)).

(** The while loop; every iteration takes one response off the queue, so its
    size bounds the number of iterations. *)
Fixpoint response_loop (fuel : nat) (m : allocator) (sv : server) (rp : option loc)
    : outcome (Z * server) :=
  match rp with
  | None => Ret (0, sv)
  | Some l =>
      match fuel with
      | O => Undef
      | S fuel =>
          sv ← deliver_response m sv l;
          '(rp, sv) ← pop_response sv;
          response_loop fuel m sv rp
      end
  end.

(** Reading the eventfd resets its counter. *)
Definition handle_response_to_client (m : allocator) (sv : server) : outcome (Z * server) :=
  let sv := set_event_count 0 sv in
  '(rp, sv') ← pop_response sv;
  response_loop (Z.to_nat (Queue.rq_size (response sv))) m sv' rp.

(** ** Flushing *)

Definition handle_client_sendable (script : list tx_event) (hs : handshake) (now : Z)
    (sv : server) (client_fd : Z) : outcome (Z * server * list Z) :=
  if client_fd <? 0 then Ret (-1, sv, [])
  else
    let slot := fd_to_slot (clients sv) client_fd MAX_CLIENTS in
    if slot <? 0 then Ret (-1, sv, [])
    else
      c ← deref (clients sv !! Z.to_nat slot);
      if negb (alive c) then Ret (-1, sv, [])
      else if negb (tls_handshake_done c) then
        '(ret, sv) ← tls_try_handshake sv slot hs;
        Ret (if ret <? 0 then -1 else 0, sv, [])
      else
        '(ret, f) ← client_flush_tx_tls script now c (txs sv) (sv_epoll sv);
        let sv := set_txs (ft_heap f) (set_sv_epoll (ft_epoll f)
                    (put_client sv (Z.to_nat slot) (ft_client f))) in
        if ((ret <? 0) || (ret =? 2))%bool
        then '(_, sv) ← sv_close sv slot; Ret (-1, sv, ft_wire f)
        else if ret =? 1 then Ret (0, sv, ft_wire f)
        else
          let '(r, e) := epoll_mod (sv_epoll sv) EPOLLIN client_fd in
          Ret (if r <? 0 then -1 else 0, set_sv_epoll e sv, ft_wire f).

(** ** Discovery *)

Definition TCP_PORT : Z := 5555.
Definition UDP_PORT : Z := 5556.

(** DISCOVERY *)
Definition discovery_request : list Z := [68; 73; 83; 67; 79; 86; 69; 82; 89].

(** The literal parts of the reply: an object with gateway, tcp_port, udp_port. *)
Definition discovery_reply_1 : list Z := [123; 34; 103; 97; 116; 101; 119; 97; 121; 34; 58;
  34; 105; 111; 116; 45; 103; 119; 34; 44; 34; 116; 99; 112; 95; 112; 111; 114; 116; 34;
  58].
Definition discovery_reply_2 : list Z := [44; 34; 117; 100; 112; 95; 112; 111; 114; 116; 34;
  58].
Definition discovery_reply_3 : list Z := [125].

Definition discovery_reply : list Z :=
  discovery_reply_1 ++ fmt_d TCP_PORT ++ discovery_reply_2
  ++ fmt_d UDP_PORT ++ discovery_reply_3.

(** [datagram]: what [recvfrom] answers, already cut to fifteen bytes; [sent]:
    what [sendto] answers.  The result is the return value and the reply handed
    to [sendto], if any.  The terminator is stored at index [ret <= 15]. *)
Definition handle_discovery (datagram : rx_result) (sent : list Z -> Z)
    : outcome (Z * option (list Z)) :=
  match datagram with
  | RxFail err => Ret (if ((err =? EAGAIN) || (err =? EINTR))%bool then 0 else -1, None)
  | RxData bs =>
      let buffer := bs ++ replicate (16 - length bs) 0 in
      buffer ← write_at (take 16 buffer) (zlen bs) [0];
      if negb (bool_decide (c_string buffer = discovery_request)) then Ret (0, None)
      else Ret (if sent discovery_reply =? zlen discovery_reply then 0 else -1,
                Some discovery_reply)
  end.

(** ** Reaping, shutdown, cleanup *)

(** The loop of [reap_client] over the slots [i], [i + 1], ..., [n] of them. *)
Fixpoint reap_loop (n i : nat) (now : Z) (sv : server) : outcome server :=
  match n with
  | O => Ret sv
  | S n =>
      c ← deref (clients sv !! i);
      sv ←
        (if ((0 <=? fd c) && negb (alive c))%bool
         then '(_, sv) ← sv_close sv (Z.of_nat i); Ret sv
         else if fd c <? 0 then Ret sv
         else
           let interval_sec := u64 (now - last_active_ms c) / 1000 in
           if IDLE_TIMEOUT_SEC <? interval_sec
           then '(_, sv) ← sv_close sv (Z.of_nat i); Ret sv
           else Ret sv);
      reap_loop n (S i) now sv
  end.

Definition reap_client (now : Z) (sv : server) : outcome (Z * server) :=
  sv ← reap_loop (Z.to_nat MAX_CLIENTS) 0 now sv; Ret (0, sv).

Definition server_shutdown (sv : server) : Z * server :=
  (0, set_tasks (Queue.task_queue_shutdown (tasks sv)).2 (set_shutdown true sv)).

Fixpoint cleanup_loop (n i : nat) (sv : server) : outcome server :=
  match n with
  | O => Ret sv
  | S n => '(_, sv) ← sv_close sv (Z.of_nat i); cleanup_loop n (S i) sv
  end.

(** [response_queue_destroy] has an empty body. *)
Definition server_cleanup (sv : server) : outcome (Z * server) :=
  sv ← cleanup_loop (Z.to_nat MAX_CLIENTS) 0 sv;
  '(_, q, mem) ← Queue.task_queue_destroy (Some (tasks sv)) (task_mem sv);
  q ← deref q; Ret (0, set_tasks q (set_task_mem mem sv)).

(** ** Initialisation *)

(** A zeroed struct client. *)
Definition zero_client : client :=
  Client 0 0 false (RateLimit.RateLimit (S754_zero false) (S754_zero false) (S754_zero false) 0)
    READ_HEADER (replicate (Z.to_nat RX_BUF_CAP) 0) 0 None None 0 0 0 None false false.

(** Descriptors obtained by the four set-up functions (negative on failure)
    and the TLS context; [now i] is the clock at the [i]-th bucket. *)
Record init_env := InitEnv {
  ie_listen : Z; ie_broadcast : Z; ie_event : Z; ie_epoll : Z; ie_ctx : option Z;
  ie_now : nat -> Z }.

Definition init_rate (now : Z) (c : client) : client :=
  match (RateLimit.rate_limit_init now RateLimit.RATE_LIMIT_CAP
           RateLimit.RATE_LIMIT_REFILL_SEC (Some (rate c))).2 with
  | Some r => set_rate r c
  | None => c
  end.

Definition server_init (env : init_env) : outcome (Z * server) :=
  '(ret, cs) ← clients_init (Some (replicate (Z.to_nat MAX_CLIENTS) zero_client)) MAX_CLIENTS;
  cs ← deref cs;
  let zero := Server cs (Queue.TaskQueue None None 0 0 false)
                (Queue.ResponseQueue None None 0 0) false 0 ∅ ∅ ∅ ∅ in
  if ret <? 0 then Ret (-1, zero)
  else
    let cs := imap (fun i => init_rate (ie_now env i)) cs in
    tq ← deref (Queue.task_queue_init (Some (tasks zero)) TASK_QUEUE_MAX);
    rq ← deref (Queue.response_queue_init (Some (response zero)) TASK_QUEUE_MAX);
    let sv := Server cs tq rq false 0 ∅ ∅ ∅ ∅ in
    if ((ie_listen env <? 0) || (ie_broadcast env <? 0) || (ie_event env <? 0)
        || (ie_epoll env <? 0))%bool then Ret (-1, sv)
    else
      match ie_ctx env with
      | None => Ret (-1, sv)
      | Some _ =>
          let '(r1, e1) := epoll_add (sv_epoll sv) EPOLLIN (ie_listen env) in
          if r1 <? 0 then Ret (-1, set_sv_epoll e1 sv)
          else
            let '(r2, e2) := epoll_add e1 EPOLLIN (ie_broadcast env) in
            if r2 <? 0 then Ret (-1, set_sv_epoll e2 sv)
            else
              let '(r3, e3) := epoll_add e2 EPOLLIN (ie_event env) in
              Ret (if r3 <? 0 then -1 else 0, set_sv_epoll e3 sv)
      end.


(** ** Delivery of responses *)

(** An allocator with memory left. *)
Definition alloc_total (m : allocator) : Prop :=
  (forall h, is_Some (malloc_tx m h)) /\ (forall n, 0 <= n -> is_Some (malloc_buf m n)).

(** What the workers put into a response (see [make_response]). *)
Definition response_wf (r : Queue.response) : Prop :=
  zlen (Queue.r_payload r) = MAX_PAYLOAD /\ 0 <= Queue.r_length r <= MAX_PAYLOAD.

(** The bytes of a response on the wire. *)
Definition response_packet (r : Queue.response) : data_transmit :=
  DataTransmit (frame (Queue.r_type r) (Queue.r_request_id r)
    (take (Z.to_nat (Queue.r_length r)) (Queue.r_payload r)))
    (Queue.r_length r + 20) 0 None.

(** A response belongs to the session in slot [i]: same slot, session alive,
    same generation. *)
Definition addressed (i : nat) (c : client) (r : Queue.response) : bool :=
  (Queue.r_slot r =? Z.of_nat i) && alive c && (generation c =? Queue.r_generation r).

Definition packets_for (i : nat) (c : client) (rs : list (loc * Queue.response))
    : list data_transmit :=
  omap (fun lr => if addressed i c lr.2 then Some (response_packet lr.2) else None) rs.

(** How one step of the loop changes the sessions. *)
Definition delivered (sv sv' : server) (rs : list (loc * Queue.response)) : Prop :=
  length (clients sv') = length (clients sv) /\
  forall i c, clients sv !! i = Some c ->
    exists c', clients sv' !! i = Some c' /\
      fd c' = fd c /\ alive c' = alive c /\ generation c' = generation c /\
      tx_abs (txs sv', c') = tx_abs (txs sv, c) ++ packets_for i c rs.

Lemma packets_for_same i c c' rs :
  alive c' = alive c -> generation c' = generation c -> packets_for i c' rs = packets_for i c rs.
Proof. intros Ha Hg. unfold packets_for, addressed. by rewrite Ha, Hg. Qed.

Lemma delivered_nil sv sv' :
  clients sv' = clients sv -> txs sv' = txs sv -> delivered sv sv' [].
Proof.
  intros Hc Ht. split; [by rewrite Hc|]. intros i c Hi. exists c. rewrite Hc, Ht.
  cbn. by rewrite app_nil_r.
Qed.

Lemma delivered_trans sv1 sv2 sv3 rs rs' :
  delivered sv1 sv2 rs -> delivered sv2 sv3 rs' -> delivered sv1 sv3 (rs ++ rs').
Proof.
  intros [Hl1 H1] [Hl2 H2]. split; [lia|]. intros i c Hi.
  destruct (H1 i c Hi) as (c1 & Hc1 & Hf1 & Ha1 & Hg1 & Ht1).
  destruct (H2 i c1 Hc1) as (c2 & Hc2 & Hf2 & Ha2 & Hg2 & Ht2).
  exists c2. split_and!; [done|congruence..|].
  rewrite Ht2, Ht1, (packets_for_same i c c1) by done.
  unfold packets_for. by rewrite omap_app, <- app_assoc.
Qed.

Section Delivery.
Context (m : allocator) (Hm : allocator_ok m) (Htot : alloc_total m).

(** Nobody is addressed: the response is freed and nothing else happens. *)
Lemma delivered_none sv sv' rp r :
  clients sv' = clients sv -> txs sv' = txs sv ->
  (forall i c, clients sv !! i = Some c -> addressed i c r = false) ->
  delivered sv sv' [(rp, Queue.set_next_response None r)].
Proof.
  intros Hc Ht Hp. split; [by rewrite Hc|]. intros i c Hi. exists c. rewrite Hc, Ht.
  split_and!; [done..|]. unfold packets_for. cbn.
  change (addressed i c (Queue.set_next_response None r)) with (addressed i c r).
  by rewrite (Hp i c Hi), app_nil_r.
Qed.

Lemma addressed_slot i c r : addressed i c r = true -> Queue.r_slot r = Z.of_nat i.
Proof. unfold addressed. intros H. bool_prop. done. Qed.

(** The session in slot [s] is addressed: the packet is appended there. *)
Lemma delivered_to sv sv' s c c' rp r :
  clients sv !! s = Some c -> Queue.r_slot r = Z.of_nat s -> addressed s c r = true ->
  clients sv' = <[s := c']> (clients sv) ->
  fd c' = fd c -> alive c' = alive c -> generation c' = generation c ->
  tx_abs (txs sv', c') = tx_abs (txs sv, c) ++ [response_packet r] ->
  (forall j e, s <> j -> clients sv !! j = Some e -> tx_abs (txs sv', e) = tx_abs (txs sv, e)) ->
  delivered sv sv' [(rp, Queue.set_next_response None r)].
Proof.
  intros Hc Hs Ha Hcl Hfd Hal Hgen Habs Hoth. split; [by rewrite Hcl, length_insert|].
  intros i d Hd. rewrite Hcl. unfold packets_for. cbn.
  change (addressed i d (Queue.set_next_response None r)) with (addressed i d r).
  destruct (decide (s = i)) as [<-|Hi].
  - rewrite Hc in Hd. injection Hd as <-. exists c'.
    rewrite list_lookup_insert_eq by (by eapply lookup_lt_Some). by rewrite Ha.
  - exists d. rewrite list_lookup_insert_ne by done.
    destruct (addressed i d r) eqn:E; [apply addressed_slot in E; lia|].
    by rewrite app_nil_r, (Hoth i d).
Qed.

(** One response: it reaches exactly the session it is addressed to. *)
Lemma deliver_response_one sv rp r :
  zlen (clients sv) = MAX_CLIENTS -> tx_ok (txs sv) (clients sv) ->
  response_mem sv !! rp = Some r -> response_wf r ->
  exists sv', deliver_response m sv rp = Ret sv' /\
    response_mem sv' = delete rp (response_mem sv) /\ response sv' = response sv /\
    tx_ok (txs sv') (clients sv') /\ delivered sv sv' [(rp, Queue.set_next_response None r)].
Proof using Hm Htot.
  intros Hlen Htx Hrp [Hpl Hrl]. unfold deliver_response. rewrite Hrp.
  cbn [deref mbind outcome_bind]. unfold zlen, MAX_CLIENTS in Hlen.
  destruct ((Queue.r_slot r <? 0) || (MAX_CLIENTS <=? Queue.r_slot r))%bool eqn:Eb.
  { rewrite (free_alloc _ rp r) by done. eexists. split; [reflexivity|].
    split_and!; [done..|]. apply delivered_none; [done..|].
    intros i c Hi%lookup_lt_Some. apply not_true_iff_false. intros Ha%addressed_slot.
    unfold MAX_CLIENTS in Eb. apply orb_prop in Eb as [Eb|Eb]; bool_prop; lia. }
  bool_prop. unfold MAX_CLIENTS in *. set (s := Z.to_nat (Queue.r_slot r)).
  destruct (lookup_lt_is_Some_2 (clients sv) s) as [c Hc]; [lia|].
  rewrite Hc. cbn [deref mbind outcome_bind].
  assert (forall i d, clients sv !! i = Some d ->
    addressed i d r = bool_decide (i = s) && (alive c && check_response_message r c)) as Haddr.
  { intros i d Hd. unfold addressed, check_response_message. case_bool_decide as Hi; cbn [andb].
    - subst i. rewrite Hc in Hd. injection Hd as <-.
      rewrite (proj2 (Z.eqb_eq (Queue.r_slot r) (Z.of_nat s))) by lia. done.
    - rewrite (proj2 (Z.eqb_neq (Queue.r_slot r) (Z.of_nat i))) by lia. done. }
  destruct (alive c && check_response_message r c)%bool eqn:Ev; cbn [negb].
  2: { rewrite (free_alloc _ rp r) by done. eexists. split; [reflexivity|].
       split_and!; [done..|]. apply delivered_none; [done..|].
       intros i d Hd. by rewrite (Haddr i d Hd), andb_false_r. }
  destruct (packet_response_frame m r Hm Hpl Hrl) as [-> _].
  destruct (proj2 Htot (Queue.r_length r + 20)) as [blk ->]; [lia|]. cbn [mbind outcome_bind].
  assert (u32 (Queue.r_length r + CRC_SIZE + HEADER_SIZE) = Queue.r_length r + 20) as ->
    by (unfold CRC_SIZE, HEADER_SIZE, MAX_PAYLOAD in *; rewrite wrap_small; lia).
  destruct (proj1 Htot (txs sv)) as [l Hl].
  edestruct (enqueue_table m (txs sv) (clients sv) s c) as
    (c' & h' & -> & Htx' & Habs & Hoth & Hfd & Hal & Hgen & _); [done..|exact Hl|].
  cbn [mbind outcome_bind Z.eqb negb].
  cbn [response_mem set_sv_epoll set_txs put_client set_clients].
  rewrite (free_alloc _ rp r) by done. eexists. split; [reflexivity|]. split_and!; [done..|].
  eapply (delivered_to sv _ s c c'); [done|lia| |done..].
  by rewrite (Haddr s c Hc), bool_decide_eq_true_2.
Qed.

Definition queue_of (sv : server) : Queue.rstate := (response_mem sv, response sv).

Lemma pop_response_cons sv l r rs :
  Queue.response_inv (queue_of sv) -> Queue.response_abs (queue_of sv) = (l, r) :: rs ->
  exists sv', pop_response sv = Ret (Some l, sv') /\ response_mem sv' !! l = Some r /\
    Queue.response_inv (queue_of sv') /\ Queue.response_abs (queue_of sv') = rs /\
    clients sv' = clients sv /\ txs sv' = txs sv /\ (l ∉ rs.*1).
Proof.
  intros Hi Ha. pose proof (Queue.response_abs_nodup _ Hi) as Hnd. rewrite Ha in Hnd.
  apply NoDup_cons in Hnd as [Hl _].
  destruct (Queue.response_pop_cons _ _ _ Hi Ha) as ([h q] & Hp & Hi' & Ha' & _).
  unfold Queue.response_pop, queue_of in Hp. cbn [fst snd] in Hp. unfold pop_response.
  destruct (Queue.response_queue_pop (Some (response sv)) (response_mem sv))
    as [[[[p|] [q'|]] h']|]; cbn in Hp; try done.
  destruct (h' !! p) as [x|] eqn:Hx; cbn in Hp; [|done]. simplify_eq.
  cbn [mbind outcome_bind deref]. eexists. split; [reflexivity|]. by split_and!.
Qed.

Lemma pop_response_nil sv :
  Queue.response_inv (queue_of sv) -> Queue.response_abs (queue_of sv) = [] ->
  pop_response sv = Ret (None, set_response (response sv) (set_response_mem (response_mem sv) sv)).
Proof.
  intros Hi Ha. destruct (Queue.response_abs_zlen _ Hi) as [Hz _]. rewrite Ha in Hz.
  unfold pop_response, Queue.response_queue_pop. cbn in Hz. by rewrite <- Hz.
Qed.

(** Freeing a popped response leaves the queue alone. *)
Lemma queue_after_free sv sv' l :
  Queue.response_inv (queue_of sv) -> (l ∉ (Queue.response_abs (queue_of sv)).*1) ->
  response_mem sv' = delete l (response_mem sv) -> response sv' = response sv ->
  Queue.response_inv (queue_of sv') /\
  Queue.response_abs (queue_of sv') = Queue.response_abs (queue_of sv).
Proof.
  intros Hi Hl Hm' Hq. destruct (Queue.response_env_ok (queue_of sv) (queue_of sv') Hi) as (? & ? & _);
    [|done].
  split; [done|]. unfold queue_of. cbn [fst snd]. rewrite Hm'. intros k Hk.
  apply lookup_delete_ne. by intros ->.
Qed.

Lemma response_loop_delivers rs fuel sv l r :
  zlen (clients sv) = MAX_CLIENTS -> tx_ok (txs sv) (clients sv) ->
  response_mem sv !! l = Some r -> Queue.next_response r = None -> response_wf r ->
  Queue.response_inv (queue_of sv) -> Queue.response_abs (queue_of sv) = rs -> l ∉ rs.*1 ->
  Forall (fun lr => response_wf lr.2 /\ Queue.next_response lr.2 = None) rs ->
  (length rs < fuel)%nat ->
  exists sv', response_loop fuel m sv (Some l) = Ret (0, sv') /\
    delivered sv sv' ((l, r) :: rs) /\ tx_ok (txs sv') (clients sv') /\
    Queue.response_inv (queue_of sv') /\ Queue.response_abs (queue_of sv') = [].
Proof using Hm Htot.
  revert fuel sv l r. induction rs as [|[l2 r2] rs IH];
    intros fuel sv l r Hlen Htx Hr Hnx Hwf Hi Ha Hl Hall Hf;
    (destruct fuel as [|fuel]; [lia|]); cbn [response_loop];
    destruct (deliver_response_one sv l r Hlen Htx Hr Hwf) as (sv1 & -> & Hm1 & Hq1 & Htx1 & Hd1);
    cbn [mbind outcome_bind];
    assert (Queue.set_next_response None r = r) as Hrr by (destruct r; cbn in *; by subst);
    rewrite Hrr in Hd1; rewrite <- Ha in Hl;
    destruct (queue_after_free sv sv1 l Hi Hl Hm1 Hq1) as [Hi1 Ha1]; rewrite Ha in Ha1.
  - rewrite pop_response_nil by done. cbn [mbind outcome_bind].
    destruct fuel; (eexists; split; [reflexivity|]; by split_and!).
  - destruct (pop_response_cons sv1 l2 r2 rs Hi1 Ha1)
      as (sv2 & -> & Hr2 & Hi2 & Ha2 & Hc2 & Ht2 & Hl2). cbn [mbind outcome_bind].
    apply Forall_cons in Hall as [[Hwf2 Hnx2] Hall].
    assert (delivered sv sv2 [(l, r)]) as Hd2.
    { change [(l, r)] with ([(l, r)] ++ []). eapply delivered_trans; [exact Hd1|].
      by apply delivered_nil. }
    edestruct (IH fuel sv2 l2 r2) as (sv3 & -> & Hd3 & Htx3 & Hi3 & Ha3);
      [unfold zlen in *; rewrite (proj1 Hd2); done|by rewrite Hc2, Ht2|done..|cbn in Hf; lia|].
    eexists. split; [reflexivity|]. split_and!; [|done..].
    change ((l, r) :: (l2, r2) :: rs) with ([(l, r)] ++ (l2, r2) :: rs).
    by eapply delivered_trans.
Qed.
End Delivery.

Lemma responses_delivered m sv :
  allocator_ok m -> alloc_total m ->
  zlen (clients sv) = MAX_CLIENTS -> tx_ok (txs sv) (clients sv) ->
  Queue.response_inv (queue_of sv) ->
  Forall (fun lr => response_wf lr.2) (Queue.response_abs (queue_of sv)) ->
  exists sv', handle_response_to_client m sv = Ret (0, sv') /\
    delivered sv sv' (Queue.response_abs (queue_of sv)) /\
    Queue.response_abs (queue_of sv') = [] /\ tx_ok (txs sv') (clients sv').
Proof.
  intros Hm Htot Hlen Htx Hi Hall. unfold handle_response_to_client.
  set (sv0 := set_event_count 0 sv). change (queue_of sv) with (queue_of sv0) in *.
  destruct (Queue.response_abs (queue_of sv0)) as [|[l r] rs] eqn:Ha.
  - rewrite pop_response_nil by done. cbn [mbind outcome_bind].
    destruct (Z.to_nat _); (eexists; split; [reflexivity|]; split_and!;
      [by apply delivered_nil|exact Ha|exact Htx]).
  - destruct (pop_response_cons sv0 l r rs Hi Ha)
      as (sv1 & -> & Hr & Hi1 & Ha1 & Hc1 & Ht1 & Hl1). cbn [mbind outcome_bind].
    pose proof (Queue.response_abs_unlinked (queue_of sv0)) as Hunl. rewrite Ha in Hunl.
    apply Forall_cons in Hall as [Hwf Hall]. apply Forall_cons in Hunl as [Hnx Hunl].
    destruct (Queue.response_abs_zlen _ Hi) as [Hz _]. rewrite Ha, zlen_cons in Hz.
    cbn [queue_of snd] in Hz.
    destruct (response_loop_delivers m Hm Htot rs (Z.to_nat (Queue.rq_size (response sv0)))
      sv1 l r) as (sv' & -> & Hd & Htx' & _ & Ha'); try done.
    { by rewrite Hc1. }
    { by rewrite Hc1, Ht1. }
    { apply Forall_and. split; [exact Hall|exact Hunl]. }
    { unfold zlen in Hz. lia. }
    eexists. split; [reflexivity|]. split_and!; [|done..].
    change ((l, r) :: rs) with ([] ++ (l, r) :: rs). eapply delivered_trans; [|exact Hd].
    by apply delivered_nil.
Qed.

(** Responses reach their own connection, and only it.  Draining the
    response queue empties it, and every session gains exactly the packets of
    the queued responses that name its slot while it is alive and carries the
    same generation number, in queue order; a response to an earlier connection
    of the same slot, or to a closed one, is freed and sent to nobody. *)
Theorem responses_reach_their_session m sv :
  allocator_ok m -> alloc_total m ->
  zlen (clients sv) = MAX_CLIENTS -> tx_ok (txs sv) (clients sv) ->
  Queue.response_inv (queue_of sv) ->
  Forall (fun lr => response_wf lr.2) (Queue.response_abs (queue_of sv)) ->
  exists sv', handle_response_to_client m sv = Ret (0, sv') /\
    delivered sv sv' (Queue.response_abs (queue_of sv)) /\
    Queue.response_abs (queue_of sv') = [] /\ tx_ok (txs sv') (clients sv').
Proof. apply responses_delivered. Qed.

Definition sample_reply (gen : Z) : Queue.response :=
  Queue.Response 0 gen MSG_RESPONSE 9 2 (replicate (Z.to_nat MAX_PAYLOAD) 65) None.

(** One response of the current session (generation 3) behind a stale one. *)
Definition answering_server : server :=
  set_response (Queue.ResponseQueue (Some 1%positive) (Some 2%positive) 2 1024)
    (set_response_mem (<[1%positive := Queue.set_next_response (Some 2%positive) (sample_reply 2)]>
       {[2%positive := sample_reply 3]}) sample_server).

Lemma sample_tx_ok : tx_ok ∅ sample_clients.
Proof.
  assert (forall i c, sample_clients !! i = Some c -> c_head c = None /\ c_tail c = None) as Hn.
  { intros [|i] c Hc; [by injection Hc as <-|]. by apply sample_clients_dead in Hc as ->. }
  split.
  - intros i c Hc. destruct (Hn i c Hc) as [Hh Ht]. exists []. cbn. rewrite Hh, Ht.
    apply linked_queue_nil.
  - intros i j c d l Hc Hd Hl. destruct (Hn i c Hc) as [Hh Ht].
    unfold tx_nodes in Hl. cbn in Hl. by apply not_elem_of_nil in Hl.
Qed.

Lemma responses_reach_their_session_witness :
  exists sv', handle_response_to_client sample_allocator answering_server = Ret (0, sv') /\
    exists c', clients sv' !! 0%nat = Some c' /\ tx_abs (txs sv', c') = [response_packet (sample_reply 3)].
Proof.
  destruct (responses_reach_their_session sample_allocator answering_server sample_allocator_ok)
    as (sv' & Hr & Hd & _).
  - split; [by eexists|]. intros n Hn. cbn. destruct (Z.leb_spec 0 n); [by eexists|lia].
  - reflexivity.
  - exact sample_tx_ok.
  - exists [1%positive; 2%positive]. split_and!; [|reflexivity|vm_compute; discriminate].
    split_and!; [|by apply (bool_decide_unpack _)|reflexivity].
    split; [done|]. eexists. split; [reflexivity|]. split; [reflexivity|].
    eexists. split; [reflexivity|]. reflexivity.
  - change (Queue.response_abs (queue_of answering_server))
      with [(1%positive, sample_reply 2); (2%positive, sample_reply 3)].
    repeat apply Forall_cons_2; [..|apply Forall_nil_2];
      (split; [reflexivity|vm_compute; split; discriminate]).
  - exists sv'. split; [exact Hr|]. destruct Hd as [_ Hd].
    destruct (Hd 0%nat (sample_client 7 true) eq_refl) as (c' & Hc' & _ & _ & _ & Ht).
    exists c'. split; [exact Hc'|]. exact Ht.
Defined.


(** ** Reaping *)

(** The sessions [reap_client] closes at time [now]. *)
Definition reapable (now : Z) (c : client) : bool :=
  (0 <=? fd c) && (negb (alive c) || (IDLE_TIMEOUT_SEC <? u64 (now - last_active_ms c) / 1000)).

Definition reaped (now : Z) (c : client) : client :=
  if reapable now c then closed_session c else c.

Lemma reap_loop_spec n i now sv :
  tx_ok (txs sv) (clients sv) -> (i + n = length (clients sv))%nat ->
  exists sv', reap_loop n i now sv = Ret sv' /\ tx_ok (txs sv') (clients sv') /\
    length (clients sv') = length (clients sv) /\
    (forall j c, clients sv !! j = Some c ->
       clients sv' !! j = Some (if (i <=? j)%nat then reaped now c else c)) /\
    tasks sv' = tasks sv /\ response sv' = response sv.
Proof.
  revert i sv. induction n as [|n IH]; intros i sv Htx Hlen; cbn [reap_loop].
  - exists sv. split_and!; [done..| |done|done]. intros j c Hc.
    pose proof (lookup_lt_Some _ _ _ Hc). destruct (Nat.leb_spec i j); [lia|done].
  - destruct (lookup_lt_is_Some_2 (clients sv) i) as [c Hc]; [lia|]. rewrite Hc.
    cbn [deref mbind outcome_bind].
    assert (exists sv1, (if ((0 <=? fd c) && negb (alive c))%bool
         then '(_, sv) ← sv_close sv (Z.of_nat i); Ret sv
         else if fd c <? 0 then Ret sv
         else if IDLE_TIMEOUT_SEC <? u64 (now - last_active_ms c) / 1000
           then '(_, sv) ← sv_close sv (Z.of_nat i); Ret sv else Ret sv) = Ret sv1 /\
       clients sv1 = <[i := reaped now c]> (clients sv) /\ tx_ok (txs sv1) (clients sv1) /\
       tasks sv1 = tasks sv /\ response sv1 = response sv) as (sv1 & -> & Hcl & Htx1 & Ht1 & Hr1).
    { assert (forall b : bool, reapable now c = b -> exists sv1,
        (if b then '(_, sv) ← sv_close sv (Z.of_nat i); Ret sv else Ret sv) = Ret sv1 /\
        clients sv1 = <[i := reaped now c]> (clients sv) /\ tx_ok (txs sv1) (clients sv1) /\
        tasks sv1 = tasks sv /\ response sv1 = response sv) as Hstep.
      { intros b Hb. unfold reaped. rewrite Hb. destruct b.
        - destruct (close_table (txs sv) (clients sv) i c (sv_epoll sv) Htx Hc)
            as (h' & E & Htx' & _). unfold sv_close. rewrite E. cbn [mbind outcome_bind].
          by eexists.
        - exists sv. by rewrite list_insert_id. }
      unfold reapable in Hstep.
      destruct (Z.leb_spec 0 (fd c)), (Z.ltb_spec (fd c) 0), (alive c); cbn [negb andb orb] in *;
        try lia; first [by apply (Hstep true)|by apply (Hstep false)|idtac].
      by apply Hstep. }
    cbn [mbind outcome_bind].
    destruct (IH (S i) sv1 Htx1) as (sv' & -> & Htx' & Hl' & Hj & Ht' & Hr');
      [rewrite Hcl, length_insert; lia|].
    exists sv'. rewrite Hcl, length_insert in *. split_and!; [done..| |congruence|congruence].
    intros j d Hd. destruct (decide (i = j)) as [<-|Hij].
    + rewrite Hc in Hd. injection Hd as <-. rewrite (Hj i (reaped now c)).
      * rewrite Nat.leb_refl. by rewrite (proj2 (Nat.leb_gt (S i) i)) by lia.
      * apply list_lookup_insert_eq. by eapply lookup_lt_Some.
    + rewrite (Hj j d) by (by rewrite list_lookup_insert_ne).
      destruct (Nat.leb_spec (S i) j), (Nat.leb_spec i j); lia || done.
Qed.

(** Reaping closes exactly the connections that are dead or have been idle
    for more than sixty seconds and leaves every other session as it was. *)
Theorem reap_client_exact now sv :
  tx_ok (txs sv) (clients sv) -> zlen (clients sv) = MAX_CLIENTS ->
  exists sv', reap_client now sv = Ret (0, sv') /\ tx_ok (txs sv') (clients sv') /\
    clients sv' = reaped now <$> clients sv.
Proof.
  intros Htx Hlen. unfold reap_client.
  destruct (reap_loop_spec (Z.to_nat MAX_CLIENTS) 0 now sv Htx)
    as (sv' & -> & Htx' & Hl & Hj & _); [unfold zlen in Hlen; lia|].
  cbn [mbind outcome_bind]. exists sv'. split_and!; [done..|].
  apply list_eq. intros j. rewrite list_lookup_fmap.
  destruct (clients sv !! j) as [c|] eqn:Hc; cbn; [by apply Hj|].
  apply lookup_ge_None in Hc. apply lookup_ge_None. lia.
Qed.

Lemma reap_client_exact_witness :
  exists sv', reap_client 100000 sample_server = Ret (0, sv') /\ tx_ok (txs sv') (clients sv') /\
    clients sv' = reaped 100000 <$> clients sample_server.
Proof. apply (reap_client_exact 100000 sample_server sample_tx_ok). reflexivity. Defined.

(** ** Rate limiting of reads *)

(** A client over its rate has its input thrown away, not deferred: the
    handler returns 1, the bytes the transport had are gone from the stream,
    and the receive state is left where it was.  If part of a frame had already
    been read, the rest of that frame is among the discarded bytes, so the
    session's next bytes are decoded at the wrong place. *)
Theorem rate_limited_read_discards m script eof stream hs t1 t2 now now' sv f slot c r :
  table_ok (clients sv) -> zlen (clients sv) = MAX_CLIENTS -> 0 <= f ->
  clients sv !! slot = Some c -> alive c = true -> fd c = f ->
  tls_handshake_done c = true ->
  RateLimit.request_allow t1 t2 (Some (rate c)) = (false, Some r) ->
  handle_request_client m script eof stream hs t1 t2 now now' sv f
  = Ret (1, put_client sv slot (set_rate r c), discard_loop script eof stream).
Proof.
  intros Hok Hlen Hf Hc Ha Hfd Hhs Hr. unfold handle_request_client.
  destruct (Z.ltb_spec f 0); [lia|]. rewrite <- Hlen.
  rewrite (fd_to_slot_live (clients sv) f slot) by (done || by exists c).
  destruct (Z.ltb_spec (Z.of_nat slot) 0); [lia|]. rewrite Nat2Z.id, Hc.
  cbn [deref mbind outcome_bind]. rewrite Ha, Hhs. cbn [negb]. by rewrite Hr.
Qed.

(** A session in the middle of a frame, its bucket empty. *)
Definition limited_server : server :=
  put_client sample_server 0
    (set_tls_handshake_done true (set_rx_len 3 (set_rate (RateLimit.level_bucket 0 0)
       (sample_client 7 true)))).

Lemma rate_limited_read_discards_witness :
  exists sv', handle_request_client sample_allocator [RxChunk 600; RxChunk 600] false
      (replicate 700 1) HsDone 0 0 0 0 limited_server 7 = Ret (1, sv', []).
Proof.
  eexists. refine (rate_limited_read_discards sample_allocator [RxChunk 600; RxChunk 600] false
    (replicate 700 1) HsDone 0 0 0 0 limited_server 7 0 _ _ _ _ _ _ _ _ _ _);
    [|reflexivity|lia|reflexivity|reflexivity|reflexivity|reflexivity|vm_compute; reflexivity].
  apply (table_ok_insert sample_clients 0); [exact sample_clients_ok|]. intros _.
  split; [vm_compute; discriminate|]. intros i Hi (c & Hc & Ha & _).
  destruct i as [|i]; [done|]. apply sample_clients_dead in Hc as ->. discriminate Ha.
Defined.

End Handlers.
