(* ===== verification/Number.v ===== *)
(** * Numbers as text

    What the bundled cJSON uses of the C library for numbers: the conversion of
    a decimal literal by [strtod] and the formats [%d] and [%1.Ng], on IEEE
    binary64 numbers ([spec_float]).  Both conversions round to nearest, ties to
    even, from the exact value. *)
From Stdlib Require Import Floats.SpecFloat.
From S2P Require Import Prelude.

Module Number.

Definition INT_MAX : Z := 2147483647.
Definition INT_MIN : Z := -2147483648.

(** [(int)number], for a number in range: truncation towards zero. *)
Definition trunc (d : spec_float) : Z :=
  match d with
  | S754_finite s m e =>
      let a := if 0 <=? e then Z.pos m * 2 ^ e else Z.pos m / 2 ^ (- e) in
      if s then - a else a
  | _ => 0
  end.

Definition double_of_int (z : Z) : spec_float := binary_normalize 53 1024 z 0 false.

(** ** [strtod] on the characters cJSON passes to it: [0-9+-eE.] *)

Definition is_digit (b : Z) : bool := (48 <=? b) && (b <=? 57).

(** The longest prefix of digits, and the rest. *)
Fixpoint digits (bs : list Z) : list Z * list Z :=
  match bs with
  | b :: rest => if is_digit b then let '(ds, r) := digits rest in (b :: ds, r) else ([], bs)
  | [] => ([], [])
  end.

Definition digits_value (ds : list Z) : Z := foldl (fun n d => 10 * n + (d - 48)) 0 ds.

(** An optional sign. *)
Definition sign (bs : list Z) : bool * list Z :=
  match bs with
  | b :: rest => if b =? 45 then (true, rest) else if b =? 43 then (false, rest) else (false, bs)
  | [] => (false, [])
  end.

(** [(-1)^s * m * 10^e], correctly rounded. *)
Definition decimal (s : bool) (m e : Z) : spec_float :=
  match m with
  | Z.pos p =>
      if 0 <=? e then binary_normalize 53 1024 (if s then - (m * 10 ^ e) else m * 10 ^ e) 0 s
      else
        match 10 ^ (- e) with
        | Z.pos q =>
            let '(mz, ez, lz) := SFdiv_core_binary 53 1024 (Z.pos p) 0 (Z.pos q) 0 in
            binary_round_aux 53 1024 s mz ez lz
        | _ => S754_nan
        end
  | _ => S754_zero s
  end.

(** An exponent part, if there is one: its value and what follows it. *)
Definition exponent (bs : list Z) : Z * list Z :=
  match bs with
  | b :: rest =>
      if ((b =? 101) || (b =? 69))%bool then
        let '(s, rest) := sign rest in
        match digits rest with
        | ([], _) => (0, bs)
        | (ds, rest) => (if s then - digits_value ds else digits_value ds, rest)
        end
      else (0, bs)
  | [] => (0, [])
  end.

(** The number and the count of characters it takes; [None]: no conversion. *)
Definition strtod (bs : list Z) : option (spec_float * Z) :=
  let '(s, r1) := sign bs in
  let '(ip, r2) := digits r1 in
  let '(fp, r3) := match r2 with
                   | b :: r => if b =? 46 then digits r else ([], r2)
                   | [] => ([], [])
                   end in
  match ip ++ fp with
  | [] => None
  | ds =>
      let '(e, r4) := exponent r3 in
      Some (decimal s (digits_value ds) (e - zlen fp), zlen bs - zlen r4)
  end.

(** ** [%1.Ng] *)

(** Exactly [n] decimal digits of [z], most significant first. *)
Fixpoint fixed_digits (n : nat) (z : Z) : list Z :=
  match n with O => [] | S n => fixed_digits n (z / 10) ++ [48 + z mod 10] end.

(** The decimal exponent of [num/den >= 1]; numbers below [10^400]. *)
Fixpoint exp_up (fuel : nat) (n : Z) : Z :=
  match fuel with
  | O => 0
  | S fuel => if n <? 10 then 0 else 1 + exp_up fuel (n / 10)
  end.

(** The smallest [k >= 1] with [num * 10^k >= den]. *)
Fixpoint exp_down (fuel : nat) (num den : Z) : Z :=
  match fuel with
  | O => 1
  | S fuel => if den <=? num * 10 then 1 else 1 + exp_down fuel (num * 10) den
  end.

(** Nearest integer to [num/den], ties to even. *)
Definition div_round (num den : Z) : Z :=
  let q := num / den in
  match Z.compare (2 * (num mod den)) den with
  | Lt => q | Gt => q + 1 | Eq => if Z.even q then q else q + 1
  end.

Fixpoint strip_zeros (ds : list Z) : list Z :=
  match ds with
  | [] => []
  | d :: rest => match strip_zeros rest with
                 | [] => if d =? 48 then [] else [d]
                 | r => d :: r
                 end
  end.

(** A fraction part, without trailing zeros; empty if there is nothing left. *)
Definition fraction (ds : list Z) : list Z :=
  match strip_zeros ds with [] => [] | r => 46 :: r end.

Definition fmt_g (P : nat) (d : spec_float) : list Z :=
  match d with
  | S754_finite s m e =>
      let '(num, den) := if 0 <=? e then (Z.pos m * 2 ^ e, 1) else (Z.pos m, 2 ^ (- e)) in
      let x := if den <=? num then exp_up 400 (num / den) else - exp_down 400 num den in
      let k := Z.of_nat P - 1 - x in
      let n := if 0 <=? k then div_round (num * 10 ^ k) den else div_round num (den * 10 ^ (- k)) in
      let '(n, x) := if n =? 10 ^ Z.of_nat P then (n / 10, x + 1) else (n, x) in
      let ds := fixed_digits P n in
      (if s then [45] else []) ++
      (if ((-4 <=? x) && (x <? Z.of_nat P))%bool then
         if 0 <=? x
         then take (Z.to_nat (x + 1)) ds ++ fraction (drop (Z.to_nat (x + 1)) ds)
         else 48 :: fraction (replicate (Z.to_nat (- x - 1)) 48 ++ ds)
       else
         take 1 ds ++ fraction (drop 1 ds) ++
         [101; if x <? 0 then 45 else 43] ++
         (if Z.abs x <? 100 then fixed_digits 2 (Z.abs x) else fixed_digits 3 (Z.abs x)))
  | _ => []
  end.

(** A binary64 number read back from its text. *)
Definition sscanf_lg (bs : list Z) : option spec_float := fst <$> strtod bs.

(** ** Shape of printed numbers *)

(** The characters numbers are printed with. *)
Definition num_chars (bs : list Z) : Prop := Forall (fun b => 43 <= b <= 101) bs.

Lemma dec_digits_chars n z : 0 <= z -> num_chars (dec_digits n z).
Proof.
  revert z. induction n as [|n IH]; intros z Hz; cbn; [constructor|].
  destruct (Z.ltb_spec z 10); [repeat constructor; lia|].
  apply Forall_app. split; [apply IH; apply Z.div_pos; lia|].
  pose proof (Z.mod_pos_bound z 10). repeat constructor; lia.
Qed.

Lemma dec_digits_len n z : (length (dec_digits n z) <= n)%nat.
Proof.
  revert z. induction n as [|n IH]; intros z; cbn; [lia|].
  destruct (z <? 10); cbn; [lia|]. rewrite length_app. cbn. specialize (IH (z / 10)). lia.
Qed.

Lemma fmt_d_chars z : num_chars (fmt_d z).
Proof.
  unfold fmt_d. destruct (Z.ltb_spec z 0).
  - constructor; [lia|]. apply dec_digits_chars. lia.
  - by apply dec_digits_chars.
Qed.

Lemma fmt_d_len z : zlen (fmt_d z) <= 11.
Proof.
  unfold fmt_d, zlen. pose proof (dec_digits_len 10 z). pose proof (dec_digits_len 10 (- z)).
  destruct (z <? 0); cbn [length]; lia.
Qed.

Lemma fixed_digits_chars n z : num_chars (fixed_digits n z).
Proof.
  revert z. induction n as [|n IH]; intros z; cbn; [constructor|].
  apply Forall_app. split; [apply IH|]. pose proof (Z.mod_pos_bound z 10).
  repeat constructor; lia.
Qed.

Lemma fixed_digits_len n z : length (fixed_digits n z) = n.
Proof.
  revert z. induction n as [|n IH]; intros z; cbn; [done|].
  rewrite length_app, IH. cbn. lia.
Qed.

Lemma strip_zeros_sub ds :
  (length (strip_zeros ds) <= length ds)%nat /\ (num_chars ds -> num_chars (strip_zeros ds)).
Proof.
  induction ds as [|d ds [IHl IHc]]; cbn; [done|]. destruct (strip_zeros ds) as [|x r] eqn:E.
  - destruct (d =? 48); cbn; (split; [lia|]); intros [Hd _]%Forall_cons; repeat constructor; lia.
  - split; [cbn in *; lia|]. intros [Hd Hc]%Forall_cons. constructor; [done|by apply IHc].
Qed.

Lemma fraction_len ds : (length (fraction ds) <= S (length ds))%nat.
Proof.
  unfold fraction. pose proof (proj1 (strip_zeros_sub ds)).
  destruct (strip_zeros ds); cbn in *; lia.
Qed.

Lemma fraction_chars ds : num_chars ds -> num_chars (fraction ds).
Proof.
  intros Hc. unfold fraction. pose proof (proj2 (strip_zeros_sub ds) Hc).
  destruct (strip_zeros ds); [constructor|]. constructor; [lia|done].
Qed.

Lemma fmt_g_len P d : (1 <= P)%nat -> zlen (fmt_g P d) <= Z.of_nat P + 7.
Proof.
  intros HP. unfold zlen, fmt_g. destruct d as [s|s| |s m e]; cbn [length]; [lia..|].
  destruct (if 0 <=? e then _ else _) as [num den]. cbn zeta.
  destruct (if _ =? 10 ^ Z.of_nat P then _ else _) as [n x].
  rewrite length_app. assert (length (if s then [45%Z] else []) <= 1)%nat by (destruct s; cbn; lia).
  pose proof (fixed_digits_len P n) as Hd. set (ds := fixed_digits P n) in *.
  destruct (Z.leb_spec (-4) x); cbn [andb]; [destruct (Z.ltb_spec x (Z.of_nat P))|].
  - destruct (Z.leb_spec 0 x).
    + rewrite length_app, length_take. pose proof (fraction_len (drop (Z.to_nat (x + 1)) ds)) as Hf.
      rewrite length_drop in Hf. lia.
    + cbn [length]. pose proof (fraction_len (replicate (Z.to_nat (- x - 1)) 48 ++ ds)) as Hf.
      rewrite length_app, length_replicate in Hf. lia.
  - rewrite !length_app, length_take. pose proof (fraction_len (drop 1 ds)) as Hf.
    rewrite length_drop in Hf. destruct (Z.abs x <? 100); rewrite fixed_digits_len; cbn [length]; lia.
  - rewrite !length_app, length_take. pose proof (fraction_len (drop 1 ds)) as Hf.
    rewrite length_drop in Hf. destruct (Z.abs x <? 100); rewrite fixed_digits_len; cbn [length]; lia.
Qed.

Lemma fmt_g_chars P d : num_chars (fmt_g P d).
Proof.
  unfold num_chars, fmt_g. destruct d as [s|s| |s m e]; [constructor..|].
  destruct (if 0 <=? e then _ else _) as [num den]. cbn zeta.
  destruct (if _ =? 10 ^ Z.of_nat P then _ else _) as [n x].
  pose proof (fixed_digits_chars P n) as Hd. set (ds := fixed_digits P n) in *.
  assert (forall n, num_chars (take n ds)) as Ht by (intros; by apply Forall_take).
  assert (forall n, num_chars (fraction (drop n ds))) as Hf
    by (intros; by apply fraction_chars, Forall_drop).
  apply Forall_app. split; [destruct s; repeat constructor; lia|].
  destruct (_ && _)%bool; [destruct (0 <=? x)|].
  - apply Forall_app. split; [apply Ht|apply Hf].
  - constructor; [lia|]. apply fraction_chars, Forall_app. split; [|done].
    apply Forall_replicate. lia.
  - rewrite !Forall_app. split_and!; [apply Ht|apply Hf|destruct (x <? 0); repeat constructor; lia|].
    destruct (Z.abs x <? 100); apply fixed_digits_chars.
Qed.

(** ** Integers are exact *)

Lemma digits2_log2 p : Z.pos (digits2_pos p) = Z.log2 (Z.pos p) + 1.
Proof.
  assert (forall q, Z.log2 (2 * Z.pos q) = Z.log2 (Z.pos q) + 1 /\
                    Z.log2 (2 * Z.pos q + 1) = Z.log2 (Z.pos q) + 1) as Hd.
  { intros q. rewrite Z.log2_double, Z.log2_succ_double by lia. lia. }
  induction p as [p IH|p IH|]; cbn [digits2_pos]; [| |done].
  - rewrite Pos2Z.inj_succ, IH. change (Z.pos p~1) with (2 * Z.pos p + 1). destruct (Hd p). lia.
  - rewrite Pos2Z.inj_succ, IH. change (Z.pos p~0) with (2 * Z.pos p). destruct (Hd p). lia.
Qed.

Lemma iter_xO p d : Z.pos (Pos.iter xO p d) = Z.pos p * 2 ^ Z.pos d.
Proof.
  revert p. induction d as [|d IH] using Pos.peano_ind; intros p; [cbn; lia|].
  rewrite Pos.iter_succ, Pos2Z.inj_xO, IH, Pos2Z.inj_succ, Z.pow_succ_r by lia. lia.
Qed.

(** An integer of at most 53 bits: its mantissa is shifted to the left. *)
Lemma round_small sx p :
  Z.log2 (Z.pos p) < 53 ->
  exists m, binary_round 53 1024 sx p 0 = S754_finite sx m (Z.log2 (Z.pos p) - 52) /\
    Z.pos m = Z.pos p * 2 ^ (52 - Z.log2 (Z.pos p)).
Proof.
  intros Hp. pose proof (Z.log2_nonneg (Z.pos p)). set (n := Z.log2 (Z.pos p)) in *.
  unfold binary_round. rewrite digits2_log2. fold n.
  assert (fexp 53 1024 (n + 1 + 0) = n - 52) as Hf by (unfold fexp, emin; lia). rewrite Hf.
  assert (exists m, shl_align p 0 (n - 52) = (m, n - 52) /\ Z.pos m = Z.pos p * 2 ^ (52 - n))
    as (m & -> & Hm).
  { unfold shl_align. destruct (n - 52 - 0) as [|d|d] eqn:E; [|lia|].
    - exists p. replace (n - 52) with 0 by lia. replace (52 - n) with 0 by lia. split; [done|lia].
    - exists (Pos.iter xO p d). split; [done|]. rewrite iter_xO. do 2 f_equal. lia. }
  assert (Z.log2 (Z.pos m) = 52) as Hl.
  { rewrite Hm, Z.log2_mul_pow2 by lia. fold n. lia. }
  assert (forall l, shr_fexp 53 1024 (Z.pos m) (n - 52) l
    = (shr_record_of_loc (Z.pos m) l, n - 52)) as Hshr.
  { intros l. unfold shr_fexp. cbn [Zdigits2]. rewrite digits2_log2, Hl.
    replace (fexp 53 1024 (52 + 1 + (n - 52)) - (n - 52)) with 0
      by (unfold fexp, emin; lia). done. }
  exists m. split; [|done]. unfold binary_round_aux. rewrite Hshr.
  cbn [shr_record_of_loc shr_m loc_of_shr_record round_nearest_even]. rewrite Hshr.
  cbn [shr_record_of_loc shr_m]. destruct (Z.leb_spec (n - 52) (1024 - 53)); [done|lia].
Qed.

(** Doubles of integers: sign, mantissa and exponent. *)
Lemma double_of_pos p :
  Z.log2 (Z.pos p) < 53 ->
  exists m, double_of_int (Z.pos p) = S754_finite false m (Z.log2 (Z.pos p) - 52) /\
    double_of_int (Z.neg p) = S754_finite true m (Z.log2 (Z.pos p) - 52) /\
    Z.pos m = Z.pos p * 2 ^ (52 - Z.log2 (Z.pos p)).
Proof.
  intros Hp. destruct (round_small false p Hp) as (m & E & Hm).
  destruct (round_small true p Hp) as (m' & E' & Hm').
  assert (m' = m) as -> by lia. exists m. done.
Qed.

Lemma trunc_double z : Z.log2 (Z.abs z) < 53 -> trunc (double_of_int z) = z.
Proof.
  intros Hz. assert (forall p, Z.log2 (Z.pos p) < 53 -> forall m,
    Z.pos m = Z.pos p * 2 ^ (52 - Z.log2 (Z.pos p)) ->
    (if 0 <=? Z.log2 (Z.pos p) - 52 then Z.pos m * 2 ^ (Z.log2 (Z.pos p) - 52)
     else Z.pos m / 2 ^ (- (Z.log2 (Z.pos p) - 52))) = Z.pos p) as Ht.
  { intros p Hp m Hm. pose proof (Z.log2_nonneg (Z.pos p)). set (n := Z.log2 (Z.pos p)) in *.
    destruct (Z.leb_spec 0 (n - 52)).
    - assert (n = 52) as -> by lia. rewrite Hm. cbn. lia.
    - rewrite Hm. replace (- (n - 52)) with (52 - n) by lia. apply Z.div_mul. lia. }
  destruct z as [|p|p]; [done| |]; cbn [Z.abs] in Hz;
    destruct (double_of_pos p Hz) as (m & E1 & E2 & Hm); specialize (Ht p Hz m Hm).
  - rewrite E1. cbn [trunc]. by rewrite Ht.
  - rewrite E2. cbn [trunc]. by rewrite Ht.
Qed.

End Number.
