(* ===== verification/Cjson.v ===== *)
(** * The bundled JSON library (gateway/src/cJSON.c)

    The parser and the printer on trees as values: [cJSON_ParseWithLength] on a byte
    buffer, [cJSON_PrintPreallocated] and [cJSON_Print] with its buffer, object
    lookup and tree construction.  Buffers are accessed with checks, so reading or
    writing out of bounds is [Undef], as is running out of fuel; [None] is the C
    result [false] or NULL.  The allocations of the parser are taken to succeed; the
    functions on items in memory are in [CjsonHeap], parsing with options in
    [CjsonOpts]. *)
From Stdlib Require Import Floats.SpecFloat.
From S2P Require Import Prelude Number.
Import Number.
Open Scope c_scope.

#[local] Set Warnings "-register-all".
(** A cJSON item; object members and array elements in order.  [valueint] is a
    function of [valuedouble] (see [valueint]). *)
Inductive json :=
| JNull
| JBool (b : bool)
| JNumber (valuedouble : spec_float)
| JString (valuestring : list Z)
| JArray (child : list json)
| JObject (child : list (list Z * json)).

Module Cjson.

Definition CJSON_NESTING_LIMIT : Z := 1000.

(** ** Items *)

(** [item->valueint]: saturation at the bounds of int. *)
Definition valueint (d : spec_float) : Z :=
  if SFleb (double_of_int INT_MAX) d then INT_MAX
  else if SFleb d (double_of_int INT_MIN) then INT_MIN
  else trunc d.

(** Case-sensitive lookup: the first member of that name; only objects have
    named children. *)
Definition get_object_item (object : option json) (name : list Z) : option json :=
  match object with
  | Some (JObject child) => snd <$> find (fun m => bool_decide (m.1 = name)) child
  | _ => None
  end.

Definition cJSON_IsString (j : option json) : option (list Z) :=
  match j with Some (JString s) => Some s | _ => None end.

Definition cJSON_IsNumber (j : option json) : option spec_float :=
  match j with Some (JNumber d) => Some d | _ => None end.

Definition cJSON_CreateObject : json := JObject [].

(** Appending a named child. *)
Definition add_item_to_object (object : json) (string : list Z) (item : json) : json :=
  match object with
  | JObject child => JObject (child ++ [(string, item)])
  | _ => object
  end.

Definition cJSON_AddStringToObject (object : json) (name string : list Z) : json :=
  add_item_to_object object name (JString (c_string string)).

Definition cJSON_AddNumberToObject (object : json) (name : list Z) (number : spec_float) : json :=
  add_item_to_object object name (JNumber number).

(** ** Parsing

    [s] is the content of the parse buffer and [off] its offset. *)

Definition can_access (s : list Z) (off : Z) : bool := off <? zlen s.

(** [can_access_at_index(buffer, 0) && buffer_at_offset(buffer)[0] == c] *)
Definition next_is (s : list Z) (off c : Z) : outcome bool :=
  if can_access s off then b ← byte_at s off; Ret (b =? c) else Ret false.

(** [can_read(buffer, n) && strncmp(.., lit, n) == 0] *)
Definition next_lit (s : list Z) (off : Z) (lit : list Z) : outcome bool :=
  if off + zlen lit <=? zlen s
  then bs ← read_at s off (zlen lit); Ret (bool_decide (bs = lit))
  else Ret false.

Fixpoint skip_ws (suffix : list Z) (off : Z) : Z :=
  match suffix with
  | b :: suffix => if b <=? 32 then skip_ws suffix (off + 1) else off
  | [] => off
  end.

Definition buffer_skip_whitespace (s : list Z) (off : Z) : Z :=
  if negb (can_access s off) then off
  else
    let off := skip_ws (drop (Z.to_nat off) s) off in
    if off =? zlen s then off - 1 else off.

Definition skip_utf8_bom (s : list Z) : outcome Z :=
  if can_access s 4
  then bs ← read_at s 0 3; Ret (if bool_decide (bs = [0xEF; 0xBB; 0xBF]) then 3 else 0)
  else Ret 0.

(** The characters handed to [strtod]. *)
Definition number_char (b : Z) : bool :=
  is_digit b || (b =? 43) || (b =? 45) || (b =? 101) || (b =? 69) || (b =? 46).

Fixpoint number_string (suffix : list Z) : list Z :=
  match suffix with
  | b :: suffix => if number_char b then b :: number_string suffix else []
  | [] => []
  end.

Definition parse_number (s : list Z) (off : Z) : option (json * Z) :=
  match strtod (number_string (drop (Z.to_nat off) s)) with
  | None => None
  | Some (number, consumed) => Some (JNumber number, off + consumed)
  end.

Definition hex_value (b : Z) : option Z :=
  if ((48 <=? b) && (b <=? 57))%bool then Some (b - 48)
  else if ((65 <=? b) && (b <=? 70))%bool then Some (10 + b - 65)
  else if ((97 <=? b) && (b <=? 102))%bool then Some (10 + b - 97)
  else None.

Fixpoint hex_loop (input : list Z) (h : Z) : Z :=
  match input with
  | [] => h
  | b :: rest =>
      match hex_value b with
      | None => 0
      | Some d => hex_loop rest (if rest is [] then h + d else (h + d) ≪ 4)
      end
  end.

(** Four hexadecimal digits; 0 if one of them is not. *)
Definition parse_hex4 (s : list Z) (p : Z) : outcome Z :=
  bs ← read_at s p 4; Ret (hex_loop bs 0).

(** The continuation bytes, from the last one. *)
Fixpoint utf8_tail (n : nat) (codepoint : Z) (acc : list Z) : Z * list Z :=
  match n with
  | O => (codepoint, acc)
  | S n => utf8_tail n (codepoint ≫ 6) (((codepoint .| 0x80) .& 0xBF) :: acc)
  end.

Definition utf8_encode (codepoint : Z) : option (list Z) :=
  if codepoint <? 0x80 then Some [codepoint .& 0x7F]
  else
    let enc n mark :=
      let '(c, tail) := utf8_tail n codepoint [] in Some (((c .| mark) .& 0xFF) :: tail) in
    if codepoint <? 0x800 then enc 1%nat 0xC0
    else if codepoint <? 0x10000 then enc 2%nat 0xE0
    else if codepoint <=? 0x10FFFF then enc 3%nat 0xF0
    else None.

(** The bytes of the literal at [p] and its length in the text; [None] is the
    result 0. *)
Definition utf16_literal_to_utf8 (s : list Z) (p input_end : Z) : outcome (option (list Z * Z)) :=
  if input_end - p <? 6 then Ret None
  else
    first_code ← parse_hex4 s (p + 2);
    if ((0xDC00 <=? first_code) && (first_code <=? 0xDFFF))%bool then Ret None
    else if ((0xD800 <=? first_code) && (first_code <=? 0xDBFF))%bool then
      if input_end - (p + 6) <? 6 then Ret None
      else
        b0 ← byte_at s (p + 6); b1 ← byte_at s (p + 7);
        if (negb (b0 =? 92) || negb (b1 =? 117))%bool then Ret None
        else
          second_code ← parse_hex4 s (p + 8);
          if ((second_code <? 0xDC00) || (0xDFFF <? second_code))%bool then Ret None
          else
            let codepoint :=
              0x10000 + (((first_code .& 0x3FF) ≪ 10) .| (second_code .& 0x3FF)) in
            Ret ((fun bs => (bs, 12)) <$> utf8_encode codepoint)
    else Ret ((fun bs => (bs, 6)) <$> utf8_encode first_code).

(** The closing quote and the number of escapes before it. *)
Fixpoint string_end (suffix : list Z) (pos skipped : Z) : option (Z * Z) :=
  match suffix with
  | [] => None
  | b :: rest =>
      if b =? 34 then Some (pos, skipped)
      else if b =? 92 then
        match rest with
        | [] => None
        | _ :: rest => string_end rest (pos + 2) (skipped + 1)
        end
      else string_end rest (pos + 1) skipped
  end.

(** The loop over the literal: [out] is what was written so far. *)
Fixpoint unescape (fuel : nat) (s : list Z) (p input_end : Z) (out : list Z)
    : outcome (option (list Z)) :=
  if input_end <=? p then Ret (Some out)
  else
    match fuel with
    | O => Undef
    | S fuel =>
        b ← byte_at s p;
        if negb (b =? 92) then unescape fuel s (p + 1) input_end (out ++ [b])
        else
          c ← byte_at s (p + 1);
          let put x := unescape fuel s (p + 2) input_end (out ++ [x]) in
          if c =? 98 then put 8
          else if c =? 102 then put 12
          else if c =? 110 then put 10
          else if c =? 114 then put 13
          else if c =? 116 then put 9
          else if ((c =? 34) || (c =? 92) || (c =? 47))%bool then put c
          else if c =? 117 then
            u ← utf16_literal_to_utf8 s p input_end;
            match u with
            | None => Ret None
            | Some (bs, sequence_length) =>
                unescape fuel s (p + sequence_length) input_end (out ++ bs)
            end
          else Ret None
    end.

(** The string, as the C string its users see.  The bytes written and their
    terminator must fit the allocation. *)
Definition parse_string (s : list Z) (off : Z) : outcome (option (list Z * Z)) :=
  b ← byte_at s off;
  if negb (b =? 34) then Ret None
  else
    match string_end (drop (Z.to_nat (off + 1)) s) (off + 1) 0 with
    | None => Ret None
    | Some (input_end, skipped_bytes) =>
        let allocation_length := input_end - off - skipped_bytes in
        out ← unescape (length s) s (off + 1) input_end [];
        match out with
        | None => Ret None
        | Some out =>
            if zlen out + 1 <=? allocation_length + 1
            then Ret (Some (c_string out, input_end + 1)) else Undef
        end
    end.

(** The list of children grows at the front of the loop's result. *)
Definition cons_item {A} (item : A) (r : option (list A * Z)) : option (list A * Z) :=
  match r with Some (items, off) => Some (item :: items, off) | None => None end.

(** A value; the loops over elements and members end with the offset at the
    character after the last one. *)
Fixpoint parse_value (fuel : nat) (s : list Z) (off depth : Z)
    : outcome (option (json * Z)) :=
  match fuel with
  | O => Undef
  | S fuel =>
      is_null ← next_lit s off (bstr "null");
      if is_null : bool then Ret (Some (JNull, off + 4)) else
      is_false ← next_lit s off (bstr "false");
      if is_false : bool then Ret (Some (JBool false, off + 5)) else
      is_true ← next_lit s off (bstr "true");
      if is_true : bool then Ret (Some (JBool true, off + 4)) else
      if negb (can_access s off) then Ret None else
      b ← byte_at s off;
      if b =? 34 then
        r ← parse_string s off;
        Ret (match r with Some (str, off) => Some (JString str, off) | None => None end)
      else if ((b =? 45) || ((48 <=? b) && (b <=? 57)))%bool then Ret (parse_number s off)
      else if b =? 91 then
        (* parse_array *)
        if CJSON_NESTING_LIMIT <=? depth then Ret None
        else
          let off := buffer_skip_whitespace s (off + 1) in
          empty ← next_is s off 93;
          if empty : bool then Ret (Some (JArray [], off + 1))
          else if negb (can_access s off) then Ret None
          else
            r ← parse_elements fuel s (off - 1) (depth + 1);
            match r with
            | None => Ret None
            | Some (items, off) =>
                closed ← next_is s off 93;
                Ret (if closed : bool then Some (JArray items, off + 1) else None)
            end
      else if b =? 123 then
        (* parse_object *)
        if CJSON_NESTING_LIMIT <=? depth then Ret None
        else
          let off := buffer_skip_whitespace s (off + 1) in
          empty ← next_is s off 125;
          if empty : bool then Ret (Some (JObject [], off + 1))
          else if negb (can_access s off) then Ret None
          else
            r ← parse_members fuel s (off - 1) (depth + 1);
            match r with
            | None => Ret None
            | Some (members, off) =>
                closed ← next_is s off 125;
                Ret (if closed : bool then Some (JObject members, off + 1) else None)
            end
      else Ret None
  end
(** The do-while loop of [parse_array], from the character before an element. *)
with parse_elements (fuel : nat) (s : list Z) (off depth : Z)
    : outcome (option (list json * Z)) :=
  match fuel with
  | O => Undef
  | S fuel =>
      r ← parse_value fuel s (buffer_skip_whitespace s (off + 1)) depth;
      match r with
      | None => Ret None
      | Some (item, off) =>
          let off := buffer_skip_whitespace s off in
          comma ← next_is s off 44;
          if comma : bool then
            r ← parse_elements fuel s off depth;
            Ret (cons_item item r)
          else Ret (Some ([item], off))
      end
  end
(** The do-while loop of [parse_object]. *)
with parse_members (fuel : nat) (s : list Z) (off depth : Z)
    : outcome (option (list (list Z * json) * Z)) :=
  match fuel with
  | O => Undef
  | S fuel =>
      if negb (can_access s (off + 1)) then Ret None
      else
        k ← parse_string s (buffer_skip_whitespace s (off + 1));
        match k with
        | None => Ret None
        | Some (key, off) =>
            let off := buffer_skip_whitespace s off in
            colon ← next_is s off 58;
            if negb colon then Ret None
            else
              r ← parse_value fuel s (buffer_skip_whitespace s (off + 1)) depth;
              match r with
              | None => Ret None
              | Some (item, off) =>
                  let off := buffer_skip_whitespace s off in
                  comma ← next_is s off 44;
                  if comma : bool then
                    r ← parse_members fuel s off depth;
                    Ret (cons_item (key, item) r)
                  else Ret (Some ([(key, item)], off))
              end
        end
  end.

(** Two units of fuel per character are enough (see [parse_total]). *)
Definition parse_fuel (s : list Z) : nat := 2 * length s + 2.

(** [require_null_terminated] and [return_parse_end] are 0 here. *)
Definition cJSON_ParseWithLength (s : list Z) : outcome (option json) :=
  if zlen s =? 0 then Ret None
  else
    off ← skip_utf8_bom s;
    r ← parse_value (parse_fuel s) s (buffer_skip_whitespace s off) 0;
    Ret (match r with Some (item, _) => Some item | None => None end).

(** [cJSON_ParseWithOpts(value, 0, 0)] counts the terminator into the length. *)
Definition cJSON_Parse (value : list Z) : outcome (option json) :=
  cJSON_ParseWithLength (c_string value ++ [0]).

(** ** Printing

    [length] is that of [pb_buf].  [pb_grow] is [None] for a caller's buffer
    ([noalloc]); otherwise the buffer is a block of the allocator, and
    [pb_grow n] are the [n] unspecified bytes behind it when [realloc] enlarges
    it by [n]. *)

Record printbuffer := PrintBuffer {
  pb_buf : list Z; pb_offset : Z; pb_depth : Z; pb_grow : option (Z -> list Z) }.

(** [reallocate(p->buffer, newsize)] with a larger size. *)
Definition enlarge (fresh : Z -> list Z) (newsize : Z) (p : printbuffer) : printbuffer :=
  PrintBuffer (pb_buf p ++ fresh (newsize - zlen (pb_buf p))) (pb_offset p) (pb_depth p) (pb_grow p).

Definition ensure (p : printbuffer) (needed : Z) : option printbuffer :=
  if ((0 <? zlen (pb_buf p)) && (zlen (pb_buf p) <=? pb_offset p))%bool then None
  else if INT_MAX <? needed then None
  else
    let needed := needed + pb_offset p + 1 in
    if needed <=? zlen (pb_buf p) then Some p
    else
      match pb_grow p with
      | None => None
      | Some fresh =>
          if INT_MAX / 2 <? needed then
            if needed <=? INT_MAX then Some (enlarge fresh INT_MAX p) else None
          else Some (enlarge fresh (needed * 2) p)
      end.

(** Writing through the pointer [ensure] returned. *)
Definition put (p : printbuffer) (bs : list Z) : outcome printbuffer :=
  buf ← write_at (pb_buf p) (pb_offset p) bs; Ret (PrintBuffer buf (pb_offset p) (pb_depth p) (pb_grow p)).

Definition advance (n : Z) (p : printbuffer) : printbuffer :=
  PrintBuffer (pb_buf p) (pb_offset p + n) (pb_depth p) (pb_grow p).

Definition set_depth (n : Z) (p : printbuffer) : printbuffer :=
  PrintBuffer (pb_buf p) (pb_offset p) n (pb_grow p).

(** [strlen] from an offset; there must be a terminator in the buffer. *)
Definition strlen_at (buf : list Z) (off : Z) : outcome Z :=
  let str := c_string (drop (Z.to_nat off) buf) in
  if off + zlen str <? zlen buf then Ret (zlen str) else Undef.

Definition update_offset (p : printbuffer) : outcome printbuffer :=
  n ← strlen_at (pb_buf p) (pb_offset p); Ret (advance n p).

(** Makes room for [needed] bytes, writes [bs] and moves on by [n]. *)
Definition emit (p : printbuffer) (needed : Z) (bs : list Z) (n : Z)
    : outcome (option printbuffer) :=
  match ensure p needed with
  | Some p => p ← put p bs; Ret (Some (advance n p))
  | None => Ret None
  end.

(** 2^-52 *)
Definition DBL_EPSILON : spec_float := S754_finite false 4503599627370496 (-104).

Definition compare_double (a b : spec_float) : bool :=
  let maxVal := if SFltb (SFabs b) (SFabs a) then SFabs a else SFabs b in
  SFleb (SFabs (SFsub 53 1024 a b)) (SFmul 53 1024 maxVal DBL_EPSILON).

(** The characters left in [number_buffer]. *)
Definition number_text (d : spec_float) : list Z :=
  match d with
  | S754_nan | S754_infinity _ => bstr "null"
  | _ =>
      if SFeqb d (double_of_int (valueint d)) then fmt_d (valueint d)
      else
        let short := fmt_g 15 d in
        match sscanf_lg short with
        | Some test => if compare_double test d then short else fmt_g 17 d
        | None => fmt_g 17 d
        end
  end.

Definition print_number (d : spec_float) (p : printbuffer) : outcome (option printbuffer) :=
  let text := number_text d in
  if 25 <? zlen text then Ret None
  else emit p (zlen text + 1) (text ++ [0]) (zlen text).

(** Bytes that need an escape, and how many more characters it takes. *)
Definition short_escape (b : Z) : option Z :=
  if b =? 34 then Some 34 else if b =? 92 then Some 92 else if b =? 8 then Some 98
  else if b =? 12 then Some 102 else if b =? 10 then Some 110 else if b =? 13 then Some 114
  else if b =? 9 then Some 116 else None.

Definition escape_count (b : Z) : Z :=
  match short_escape b with Some _ => 1 | None => if b <? 32 then 5 else 0 end.

Definition escape_characters (input : list Z) : Z :=
  foldr (fun b n => escape_count b + n) 0 input.

(** One hexadecimal digit as [%x] prints it. *)
Definition hex_char (d : Z) : Z := if d <? 10 then 48 + d else 97 + (d - 10).

(** [sprintf(.., "u%04x", b)] for a byte. *)
Definition u04x (b : Z) : list Z :=
  [117; 48; 48; hex_char (b / 16); hex_char (b mod 16)].

(** What the copying loop writes for one byte. *)
Definition escape (b : Z) : list Z :=
  if ((31 <? b) && negb (b =? 34) && negb (b =? 92))%bool then [b]
  else 92 :: match short_escape b with Some c => [c] | None => u04x b end.

Definition print_string_ptr (input : list Z) (p : printbuffer) : outcome (option printbuffer) :=
  let input := c_string input in
  let output_length := zlen input + escape_characters input in
  match ensure p (output_length + 3) with
  | Some p =>
      let body := if escape_characters input =? 0 then input else flat_map escape input in
      p ← put p (34 :: body);
      buf ← write_at (pb_buf p) (pb_offset p + output_length + 1) [34; 0];
      Ret (Some (PrintBuffer buf (pb_offset p) (pb_depth p) (pb_grow p)))
  | None => Ret None
  end.

Section Print.
Context (format : bool).

Definition tabs (n : Z) : list Z := replicate (Z.to_nat n) 9.

(** Sequencing of printers that may fail. *)
Definition andthen (r : outcome (option printbuffer))
    (k : printbuffer -> outcome (option printbuffer)) : outcome (option printbuffer) :=
  o ← r; match o with Some p => k p | None => Ret None end.

Definition then_update (r : outcome (option printbuffer)) : outcome (option printbuffer) :=
  andthen r (fun p => p ← update_offset p; Ret (Some p)).

(** The separator after an array element that is not the last. *)
Definition array_separator (last : bool) (p : printbuffer) : outcome (option printbuffer) :=
  if last then Ret (Some p)
  else let sep := if format then [44; 32] else [44] in
       emit p (zlen sep + 1) (sep ++ [0]) (zlen sep).

(** The indentation and the name of an object member, up to its colon. *)
Definition print_key (key : list Z) (p : printbuffer) : outcome (option printbuffer) :=
  andthen (if format then emit p (pb_depth p) (tabs (pb_depth p)) (pb_depth p) else Ret (Some p))
    (fun p => andthen (then_update (print_string_ptr key p))
    (fun p => let colon := if format then [58; 9] else [58] in
              emit p (zlen colon) colon (zlen colon))).

(** After a member's value. *)
Definition object_separator (last : bool) (p : printbuffer) : outcome (option printbuffer) :=
  let sep := (if last then [] else [44]) ++ (if format then [10] else []) in
  emit p (zlen sep + 1) (sep ++ [0]) (zlen sep).

Definition is_nil {A} (l : list A) : bool := if l is [] then true else false.

(** The loops of [print_array] and [print_object] over the children. *)
Definition print_elements (print : json -> printbuffer -> outcome (option printbuffer)) :=
  fix elements (l : list json) (p : printbuffer) : outcome (option printbuffer) :=
    match l with
    | [] => Ret (Some p)
    | x :: rest =>
        andthen (then_update (print x p)) (fun p =>
        andthen (array_separator (is_nil rest) p) (elements rest))
    end.

Definition print_members (print : json -> printbuffer -> outcome (option printbuffer)) :=
  fix members (l : list (list Z * json)) (p : printbuffer) : outcome (option printbuffer) :=
    match l with
    | [] => Ret (Some p)
    | (key, x) :: rest =>
        andthen (print_key key p) (fun p =>
        andthen (then_update (print x p)) (fun p =>
        andthen (object_separator (is_nil rest) p) (members rest)))
    end.

Fixpoint print_value (item : json) (p : printbuffer) : outcome (option printbuffer) :=
  match item with
  | JNull => emit p 5 (bstr "null" ++ [0]) 0
  | JBool false => emit p 6 (bstr "false" ++ [0]) 0
  | JBool true => emit p 5 (bstr "true" ++ [0]) 0
  | JNumber d => print_number d p
  | JString str => print_string_ptr str p
  | JArray child =>
      if CJSON_NESTING_LIMIT <=? pb_depth p then Ret None
      else
        andthen (emit p 1 [91] 1) (fun p =>
        andthen (print_elements print_value child (set_depth (pb_depth p + 1) p)) (fun p =>
        andthen (emit p 2 [93; 0] 0) (fun p =>
        Ret (Some (set_depth (pb_depth p - 1) p)))))
  | JObject child =>
      if CJSON_NESTING_LIMIT <=? pb_depth p then Ret None
      else
        let opening := if format then [123; 10] else [123] in
        andthen (emit p (zlen opening + 1) opening (zlen opening)) (fun p =>
        andthen (print_members print_value child (set_depth (pb_depth p + 1) p)) (fun p =>
        let closing := if format then tabs (pb_depth p - 1) ++ [125] else [125] in
        andthen (emit p (if format then pb_depth p + 1 else 2) (closing ++ [0]) 0) (fun p =>
        Ret (Some (set_depth (pb_depth p - 1) p)))))
  end.

(** [cJSON_PrintPreallocated(item, buffer, length, format)]: the buffer after a
    successful print, [None] for false. *)
Definition cJSON_PrintPreallocated (item : json) (buffer : list Z) : outcome (option (list Z)) :=
  r ← print_value item (PrintBuffer buffer 0 0 None);
  Ret (match r with Some p => Some (pb_buf p) | None => None end).

(** [print(item, format, &global_hooks)] with a block of 256 bytes from the
    allocator: the block of the text with its terminator, [None] for NULL. *)
Definition print (fresh : Z -> list Z) (item : json) : outcome (option (list Z)) :=
  r ← print_value item (PrintBuffer (fresh 256) 0 0 (Some fresh));
  match r with
  | None => Ret None
  | Some p => p ← update_offset p; Ret (Some (take (Z.to_nat (pb_offset p + 1)) (pb_buf p)))
  end.

(** The block is not cut down here. *)
Definition cJSON_PrintBuffered (fresh : Z -> list Z) (item : json) (prebuffer : Z) : outcome (option (list Z)) :=
  if prebuffer <? 0 then Ret None
  else
    r ← print_value item (PrintBuffer (fresh prebuffer) 0 0 (Some fresh));
    Ret (match r with Some p => Some (pb_buf p) | None => None end).

End Print.

Definition cJSON_Print (fresh : Z -> list Z) (item : json) : outcome (option (list Z)) := print true fresh item.
Definition cJSON_PrintUnformatted (fresh : Z -> list Z) (item : json) : outcome (option (list Z)) :=
  print false fresh item.

End Cjson.
