(* ===== verification/CjsonPrint.v ===== *)
(** * Printing JSON is exact (gateway/src/cJSON.c, print functions)

    [render] is the text of a tree; the printer produces it in the caller's
    buffer, terminated, exactly when it fits with two bytes to spare and the tree
    is not nested too deeply, and never touches memory outside the buffer. *)
From Stdlib Require Import Floats.SpecFloat.
From S2P Require Import Prelude Number Cjson.
Import Number Cjson.

Module CjsonPrint.

(** Induction over a tree and the trees below it. *)
Section Induction.
Context (P : json -> Prop).
Context (Hnull : P JNull) (Hbool : forall b, P (JBool b)) (Hnum : forall d, P (JNumber d))
  (Hstr : forall s, P (JString s)) (Harr : forall l, Forall P l -> P (JArray l))
  (Hobj : forall l, Forall (fun kv => P kv.2) l -> P (JObject l)).

Fixpoint json_tree_ind (j : json) : P j :=
  match j with
  | JNull => Hnull
  | JBool b => Hbool b
  | JNumber d => Hnum d
  | JString s => Hstr s
  | JArray l =>
      Harr l ((fix go (l : list json) : Forall P l :=
                 match l with
                 | [] => Forall_nil_2 _
                 | x :: l => Forall_cons_2 _ _ _ (json_tree_ind x) (go l)
                 end) l)
  | JObject l =>
      Hobj l ((fix go (l : list (list Z * json)) : Forall (fun kv => P kv.2) l :=
                 match l with
                 | [] => Forall_nil_2 _
                 | kv :: l => Forall_cons_2 _ _ _ (json_tree_ind kv.2) (go l)
                 end) l)
  end.
End Induction.

(** ** The text of a tree *)

Definition quoted (str : list Z) : list Z := [34] ++ flat_map escape (c_string str) ++ [34].

(** The concatenation of items, each followed by a separator that may depend on
    its being the last. *)
Definition list_body {A} (f : A -> list Z) (sep : bool -> list Z) :=
  fix body (l : list A) : list Z :=
    match l with
    | [] => []
    | x :: rest => f x ++ sep (is_nil rest) ++ body rest
    end.

Section Render.
Context (format : bool).

Definition array_sep (last : bool) : list Z :=
  if last then [] else if format then [44; 32] else [44].

Definition object_sep (last : bool) : list Z :=
  (if last then [] else [44]) ++ (if format then [10] else []).

Definition member (depth : Z) (key text : list Z) : list Z :=
  (if format then tabs depth else []) ++ quoted key ++ (if format then [58; 9] else [58]) ++ text.

Fixpoint render (depth : Z) (item : json) : list Z :=
  match item with
  | JNull => bstr "null"
  | JBool false => bstr "false"
  | JBool true => bstr "true"
  | JNumber d => number_text d
  | JString str => quoted str
  | JArray child =>
      [91] ++ list_body (render (depth + 1)) array_sep child ++ [93]
  | JObject child =>
      (if format then [123; 10] else [123])
      ++ list_body (fun kv => member (depth + 1) kv.1 (render (depth + 1) kv.2)) object_sep child
      ++ (if format then tabs depth ++ [125] else [125])
  end.
End Render.

(** Arrays and objects nested below the limit. *)
Fixpoint nested_ok (depth : Z) (item : json) : bool :=
  match item with
  | JArray child =>
      (depth <? CJSON_NESTING_LIMIT) && forallb (nested_ok (depth + 1)) child
  | JObject child =>
      (depth <? CJSON_NESTING_LIMIT) && forallb (fun kv => nested_ok (depth + 1) kv.2) child
  | _ => true
  end.

(** ** Cursors

    Either a caller's buffer of [L] bytes, or one that grows as far as a buffer of
    [L = INT_MAX] bytes: what matters for success is the room [L - zlen pre]
    behind the text [pre] written so far. *)

Section Exact.
Context (grow : option (Z -> list Z)) (L : Z) (HL : L <= INT_MAX).
Context (Hgrow : forall fresh, grow = Some fresh -> L = INT_MAX /\ forall n, 0 <= n -> zlen (fresh n) = n).

Definition at_cursor (pre rest : list Z) (d : Z) : printbuffer :=
  PrintBuffer (pre ++ rest) (zlen pre) d grow.

(** [rest] is what the buffer has behind the text at the moment. *)
Definition cursor_ok (pre rest : list Z) : Prop :=
  match grow with
  | None => zlen pre + zlen rest = L
  | Some _ => zlen pre + zlen rest <= L /\ (zlen rest = 0 -> zlen pre = 0)
  end.

Lemma update_cursor pre t tail d :
  nonzero t ->
  update_offset (PrintBuffer (pre ++ t ++ 0 :: tail) (zlen pre) d grow)
  = Ret (at_cursor (pre ++ t) (0 :: tail) d).
Proof using.
  intros Ht. unfold update_offset, strlen_at. cbn [pb_buf pb_offset].
  rewrite zlen_length, drop_app_length, c_string_app by done.
  pose proof (zlen_nonneg tail). rewrite !zlen_app, zlen_cons.
  destruct (Z.ltb_spec (zlen pre + zlen t) (zlen pre + (zlen t + (1 + zlen tail)))); [|lia].
  cbn [mbind outcome_bind]. unfold advance, at_cursor. cbn.
  by rewrite zlen_app, <- app_assoc.
Qed.

Lemma enlarge_cursor fresh pre rest d newsize :
  grow = Some fresh -> zlen pre + zlen rest <= newsize -> newsize <= L ->
  exists rest', enlarge fresh newsize (at_cursor pre rest d) = at_cursor pre rest' d /\
    zlen pre + zlen rest' = newsize.
Proof using Hgrow.
  intros Hg Hn HnL. destruct (Hgrow fresh Hg) as [_ Hfresh].
  exists (rest ++ fresh (newsize - zlen (pre ++ rest))). unfold enlarge, at_cursor. cbn.
  split; [by rewrite <- app_assoc|]. rewrite !zlen_app, Hfresh by lia. lia.
Qed.

(** [ensure] succeeds exactly when there is room, and then the bytes are there. *)
Lemma ensure_cursor pre rest d needed :
  cursor_ok pre rest -> 0 <= needed ->
  if needed + 1 <=? L - zlen pre
  then exists rest', ensure (at_cursor pre rest d) needed = Some (at_cursor pre rest' d) /\
         cursor_ok pre rest' /\ needed + 1 <= zlen rest'
  else ensure (at_cursor pre rest d) needed = None.
Proof using HL Hgrow.
  intros Hok Hn. unfold ensure. cbn [at_cursor pb_buf pb_offset pb_grow]. rewrite !zlen_app.
  pose proof (zlen_nonneg pre). pose proof (zlen_nonneg rest).
  pose proof (fun fresh => enlarge_cursor fresh pre rest d) as Hlarge.
  unfold cursor_ok in *. destruct grow as [fresh|] eqn:Hg.
  - destruct (Hgrow fresh eq_refl) as [HLm _]. destruct Hok as [Hok Hz].
    destruct (Z.ltb_spec 0 (zlen pre + zlen rest)), (Z.leb_spec (zlen pre + zlen rest) (zlen pre));
      cbn [andb]; try lia.
    all: destruct (Z.ltb_spec INT_MAX needed), (Z.leb_spec (needed + 1) (L - zlen pre)); try lia; try done.
    all: destruct (Z.leb_spec (needed + zlen pre + 1) (zlen pre + zlen rest)); try lia.
    all: try (exists rest; split_and!; (done || lia)).
    all: pose proof (Z.div_mod INT_MAX 2 ltac:(lia)); pose proof (Z.mod_pos_bound INT_MAX 2 ltac:(lia)).
    all: destruct (Z.ltb_spec (INT_MAX / 2) (needed + zlen pre + 1));
      [destruct (Z.leb_spec (needed + zlen pre + 1) INT_MAX); try lia; try done|try lia].
    all: first
      [ destruct (Hlarge fresh INT_MAX) as (rest' & E & Hl); [done|lia|lia|rewrite E]
      | destruct (Hlarge fresh ((needed + zlen pre + 1) * 2)) as (rest' & E & Hl); [done|lia|lia|rewrite E]];
      exists rest'; split_and!; (done || lia).
  - destruct (Z.ltb_spec 0 (zlen pre + zlen rest)); cbn [andb];
      [destruct (Z.leb_spec (zlen pre + zlen rest) (zlen pre))|].
    all: destruct (Z.ltb_spec INT_MAX needed), (Z.leb_spec (needed + 1) (L - zlen pre)); try lia; try done.
    all: destruct (Z.leb_spec (needed + zlen pre + 1) (zlen pre + zlen rest)); try lia; try done.
    all: exists rest; split_and!; (done || lia).
Qed.

Lemma put_cursor pre rest d bs :
  zlen bs <= zlen rest ->
  put (at_cursor pre rest d) bs
  = Ret (PrintBuffer ((pre ++ bs) ++ drop (length bs) rest) (zlen pre) d grow).
Proof using.
  intros Hb. unfold put, at_cursor. cbn [pb_buf pb_offset pb_depth].
  by rewrite write_at_cursor.
Qed.

(** The cursor behind [bs], of whose bytes [rest] had one more. *)
Lemma cursor_moved pre rest bs rest' :
  cursor_ok pre rest -> zlen bs < zlen rest -> zlen rest' = zlen rest - zlen bs ->
  cursor_ok (pre ++ bs) rest'.
Proof using.
  clear Hgrow. unfold cursor_ok. rewrite zlen_app. intros Hok Hb Hr. destruct grow; [destruct Hok; split|]; lia.
Qed.

(** What a printing step does: with enough room, [text] is written at the cursor
    and the cursor moves behind it; otherwise it returns false. *)
Definition outputs (r : outcome (option printbuffer)) (pre : list Z) (d' : Z)
    (fits : bool) (text : list Z) : Prop :=
  if fits
  then exists rest', r = Ret (Some (at_cursor (pre ++ text) rest' d')) /\ cursor_ok (pre ++ text) rest'
  else r = Ret None.

(** The same with a terminator behind the text. *)
Definition outputs0 (r : outcome (option printbuffer)) (pre : list Z) (d : Z)
    (fits : bool) (text : list Z) : Prop :=
  if fits
  then exists tail, r = Ret (Some (at_cursor (pre ++ text) (0 :: tail) d)) /\ cursor_ok (pre ++ text) (0 :: tail)
  else r = Ret None.

Lemma outputs0_outputs r pre d fits text :
  outputs0 r pre d fits text -> outputs r pre d fits text.
Proof using. unfold outputs0, outputs. destruct fits; [|done]. intros (tail & -> & Hl). by eexists. Qed.

(** Writing nothing. *)
Lemma outputs_nothing pre rest d : cursor_ok pre rest -> outputs (Ret (Some (at_cursor pre rest d))) pre d true [].
Proof using. intros Hok. exists rest. by rewrite app_nil_r. Qed.

Lemma outputs_seq r k pre d1 d2 (F2 : Z -> bool) f1 t1 t2 :
  outputs r pre d1 f1 t1 ->
  (forall rest', cursor_ok (pre ++ t1) rest' ->
     outputs (k (at_cursor (pre ++ t1) rest' d1)) (pre ++ t1) d2 (F2 (L - zlen (pre ++ t1))) t2) ->
  outputs (andthen r k) pre d2 (f1 && F2 (L - zlen pre - zlen t1)) (t1 ++ t2).
Proof using.
  unfold outputs at 1, andthen. intros H1 H2. destruct f1; [|by rewrite H1].
  destruct H1 as (rest1 & -> & Hl1). cbn [mbind outcome_bind andb].
  specialize (H2 rest1 Hl1). rewrite zlen_app, Z.sub_add_distr in H2. unfold outputs in *.
  destruct (F2 (L - zlen pre - zlen t1)); [|done].
  destruct H2 as (rest2 & -> & Hl2). exists rest2. by rewrite app_assoc.
Qed.

(** Text without a terminator. *)
Lemma emit_plain pre rest d bs needed :
  cursor_ok pre rest -> zlen bs <= needed ->
  outputs (emit (at_cursor pre rest d) needed bs (zlen bs)) pre d (needed + 1 <=? L - zlen pre) bs.
Proof using HL Hgrow.
  intros Hok Hb. pose proof (zlen_nonneg bs). unfold emit, outputs.
  pose proof (ensure_cursor pre rest d needed Hok ltac:(lia)) as He.
  destruct (Z.leb_spec (needed + 1) (L - zlen pre)); [|by rewrite He].
  destruct He as (rest' & -> & Hok' & Hr). rewrite put_cursor by lia. cbn [mbind outcome_bind]. eexists. split.
  - unfold advance, at_cursor. cbn. by rewrite zlen_app.
  - eapply cursor_moved; [exact Hok'|lia|]. rewrite zlen_drop. unfold zlen in *. lia.
Qed.

(** Text with a terminator, the cursor before it. *)
Lemma emit_text pre rest d bs needed :
  cursor_ok pre rest -> zlen bs <= needed ->
  outputs0 (emit (at_cursor pre rest d) needed (bs ++ [0]) (zlen bs)) pre d
    (needed + 1 <=? L - zlen pre) bs.
Proof using HL Hgrow.
  intros Hok Hb. pose proof (zlen_nonneg bs). unfold emit, outputs0.
  pose proof (ensure_cursor pre rest d needed Hok ltac:(lia)) as He.
  destruct (Z.leb_spec (needed + 1) (L - zlen pre)); [|by rewrite He].
  destruct He as (rest' & -> & Hok' & Hr).
  rewrite put_cursor by (rewrite zlen_app; cbn; unfold zlen in *; cbn; lia).
  cbn [mbind outcome_bind]. eexists. split.
  - unfold advance, at_cursor. cbn. by rewrite zlen_app, <- !app_assoc.
  - eapply cursor_moved; [exact Hok'|lia|]. rewrite zlen_cons, zlen_drop, length_app. cbn. unfold zlen in *. lia.
Qed.

(** Text with a terminator, measured afterwards. *)
Lemma emit_measured pre rest d bs needed :
  cursor_ok pre rest -> zlen bs <= needed -> nonzero bs ->
  outputs0 (then_update (emit (at_cursor pre rest d) needed (bs ++ [0]) 0)) pre d
    (needed + 1 <=? L - zlen pre) bs.
Proof using HL Hgrow.
  intros Hok Hb Hnz. pose proof (zlen_nonneg bs). unfold then_update, andthen, emit, outputs0.
  pose proof (ensure_cursor pre rest d needed Hok ltac:(lia)) as He.
  destruct (Z.leb_spec (needed + 1) (L - zlen pre)); [|by rewrite He].
  destruct He as (rest' & -> & Hok' & Hr).
  rewrite put_cursor by (rewrite zlen_app; cbn; unfold zlen in *; cbn; lia).
  cbn [mbind outcome_bind]. unfold advance. cbn [pb_buf pb_offset pb_depth pb_grow].
  rewrite Z.add_0_r, <- !app_assoc. cbn [app]. rewrite update_cursor by done.
  cbn [mbind outcome_bind]. eexists. split; [reflexivity|].
  eapply cursor_moved; [exact Hok'|lia|]. rewrite zlen_cons, zlen_drop, length_app. cbn. unfold zlen in *. lia.
Qed.

End Exact.

(** ** Strings and numbers *)

Lemma escape_len b : zlen (escape b) = 1 + escape_count b.
Proof.
  unfold escape, escape_count, short_escape.
  destruct (Z.ltb_spec 31 b); cbn [andb].
  - destruct (Z.eqb_spec b 34) as [->|]; [done|]. destruct (Z.eqb_spec b 92) as [->|]; [done|].
    cbn [negb andb]. destruct (Z.eqb_spec b 8); [lia|]. destruct (Z.eqb_spec b 12); [lia|].
    destruct (Z.eqb_spec b 10); [lia|]. destruct (Z.eqb_spec b 13); [lia|].
    destruct (Z.eqb_spec b 9); [lia|]. destruct (Z.ltb_spec b 32); [lia|done].
  - destruct (b =? 34), (b =? 92), (b =? 8), (b =? 12), (b =? 10), (b =? 13), (b =? 9);
      try done. destruct (Z.ltb_spec b 32); [done|lia].
Qed.

Lemma escape_count_nonneg b : 0 <= escape_count b.
Proof. unfold escape_count. destruct (short_escape b); [lia|]. destruct (b <? 32); lia. Qed.

Lemma escape_characters_nonneg s : 0 <= escape_characters s.
Proof.
  induction s as [|b s IH]; cbn; [lia|]. pose proof (escape_count_nonneg b).
  unfold escape_characters in IH. lia.
Qed.

Lemma escaped_len s : zlen (flat_map escape s) = zlen s + escape_characters s.
Proof.
  induction s as [|b s IH]; [done|]. cbn [flat_map].
  rewrite zlen_app, escape_len, zlen_cons, IH.
  change (escape_characters (b :: s)) with (escape_count b + escape_characters s). lia.
Qed.

Lemma escape_none s : escape_characters s = 0 -> flat_map escape s = s.
Proof.
  induction s as [|b s IH]; [done|]. cbn [escape_characters foldr]. intros H0.
  pose proof (escape_count_nonneg b). pose proof (escape_characters_nonneg s).
  unfold escape_characters in *. cbn [flat_map].
  assert (escape b = [b]) as ->.
  { pose proof (escape_len b) as Hl. unfold escape in *.
    destruct (_ && _)%bool; [done|]. exfalso. assert (escape_count b = 0) as Hc by lia.
    rewrite Hc, zlen_cons in Hl. destruct (short_escape b); cbn in Hl; unfold zlen in Hl; cbn in Hl; lia. }
  cbn. f_equal. apply IH. lia.
Qed.

(** Non-zero bytes, as the characters of a C string are. *)
Definition textual (bs : list Z) : Prop := Forall (fun b => 0 < b < 256) bs.

#[export] Instance textual_dec bs : Decision (textual bs) := _.

Lemma textual_nonzero bs : textual bs -> nonzero bs.
Proof. intros H. eapply Forall_impl; [exact H|]. cbn. lia. Qed.

Lemma textual_bytes bs : textual bs -> bytes bs.
Proof. intros H. eapply Forall_impl; [exact H|]. unfold is_byte. cbn. lia. Qed.

Lemma textual_app l k : textual l -> textual k -> textual (l ++ k).
Proof. intros. by apply Forall_app. Qed.

Lemma escape_textual b : 0 < b < 256 -> textual (escape b).
Proof.
  intros Hb. unfold escape. destruct (Z.ltb_spec 31 b); cbn [andb].
  - destruct (b =? 34) eqn:E1; [bool_prop; subst; repeat constructor; lia|].
    destruct (b =? 92) eqn:E2; [bool_prop; subst; repeat constructor; lia|].
    cbn. repeat constructor; lia.
  - constructor; [lia|]. unfold short_escape.
    do 7 (destruct (b =? _); [repeat constructor; lia|]).
    assert (0 <= b / 16 < 2) by (split; [apply Z.div_pos|apply Z.div_lt_upper_bound]; lia).
    pose proof (Z.mod_pos_bound b 16).
    unfold u04x, hex_char. repeat constructor; try lia; (destruct (_ <? 10); lia).
Qed.

Lemma c_string_textual s : bytes s -> textual (c_string s).
Proof.
  induction 1 as [|b s Hb Hs IH]; cbn; [constructor|]. unfold is_byte in Hb.
  destruct (Z.eqb_spec b 0); constructor; [lia|done].
Qed.

Lemma quoted_textual s : bytes s -> textual (quoted s).
Proof.
  intros Hb%c_string_textual. unfold quoted. apply textual_app; [repeat constructor; lia|].
  apply textual_app; [|repeat constructor; lia].
  induction Hb as [|b t Hb Ht IH]; [constructor|]. cbn [flat_map].
  apply textual_app; [by apply escape_textual|done].
Qed.

Lemma number_text_len d : zlen (number_text d) <= 25.
Proof using.
  unfold number_text. pose proof (fmt_d_len (valueint d)).
  pose proof (fmt_g_len 15 d). pose proof (fmt_g_len 17 d).
  destruct d as [s|s| |s m e]; [|by vm_compute|by vm_compute|];
    (destruct (SFeqb _ _); [lia|]); (destruct (sscanf_lg _); [destruct (compare_double _ _)|]); lia.
Qed.

Lemma num_chars_textual bs : num_chars bs -> textual bs.
Proof. intros H. eapply Forall_impl; [exact H|]. intros b Hb. cbn in Hb. lia. Qed.

Lemma number_text_textual d : textual (number_text d).
Proof.
  unfold number_text.
  assert (textual (bstr "null")) by (apply (bool_decide_unpack _); by vm_compute).
  pose proof (num_chars_textual _ (fmt_d_chars (valueint d))).
  pose proof (num_chars_textual _ (fmt_g_chars 15 d)).
  pose proof (num_chars_textual _ (fmt_g_chars 17 d)).
  destruct d as [s|s| |s m e]; [|assumption|assumption|];
    (destruct (SFeqb _ _); [assumption|]);
    (destruct (sscanf_lg _); [destruct (compare_double _ _)|]); assumption.
Qed.

(** ** The printer *)

(** Names and strings of the tree are byte strings. *)
Fixpoint tree_bytes (item : json) : Prop :=
  match item with
  | JString s => bytes s
  | JArray child => Forall id (tree_bytes <$> child)
  | JObject child => Forall id ((fun kv => bytes kv.1 /\ tree_bytes kv.2) <$> child)
  | _ => True
  end.

Lemma tabs_nonzero n : nonzero (tabs n).
Proof. apply Forall_replicate. done. Qed.

Section Printer.
Context (format : bool) (grow : option (Z -> list Z)) (L : Z) (HL : L <= INT_MAX).
Context (Hgrow : forall fresh, grow = Some fresh -> L = INT_MAX /\ forall n, 0 <= n -> zlen (fresh n) = n).

#[local] Abbreviation at_cursor := (at_cursor grow).
#[local] Abbreviation cursor_ok := (cursor_ok grow L).
#[local] Abbreviation outputs := (outputs grow L).
#[local] Abbreviation outputs0 := (outputs0 grow L).

Definition room_for (text : list Z) (room : Z) : bool := zlen text + 2 <=? room.

Lemma print_string_exact s pre rest d :
  cursor_ok pre rest -> bytes s ->
  outputs0 (then_update (print_string_ptr s (at_cursor pre rest d))) pre d
    (room_for (quoted s) (L - zlen pre)) (quoted s).
Proof using HL Hgrow.
  intros Hlen Hb. pose proof (textual_nonzero _ (quoted_textual s Hb)) as Hnz. unfold print_string_ptr, room_for.
  assert (zlen (quoted s) = zlen (c_string s) + escape_characters (c_string s) + 2) as Hq.
  { unfold quoted. rewrite !zlen_app, escaped_len. unfold zlen. cbn. lia. }
  pose proof (escape_characters_nonneg (c_string s)). pose proof (zlen_nonneg (c_string s)).
  pose proof (ensure_cursor grow L HL Hgrow pre rest d (zlen (c_string s) + escape_characters (c_string s) + 3)
    Hlen ltac:(lia)) as He.
  replace (zlen (quoted s) + 2 <=? L - zlen pre)
    with (zlen (c_string s) + escape_characters (c_string s) + 3 + 1 <=? L - zlen pre) by (f_equal; lia).
  unfold outputs0. destruct (Z.leb_spec (zlen (c_string s) + escape_characters (c_string s) + 3 + 1) (L - zlen pre));
    [|by rewrite He].
  destruct He as (rest' & -> & Hok' & Hr).
  assert ((if escape_characters (c_string s) =? 0 then c_string s
           else flat_map escape (c_string s)) = flat_map escape (c_string s)) as ->.
  { destruct (Z.eqb_spec (escape_characters (c_string s)) 0); [|done]. by rewrite escape_none. }
  set (body := flat_map escape (c_string s)) in *.
  assert (zlen body = zlen (c_string s) + escape_characters (c_string s)) as Hbody
    by apply escaped_len.
  rewrite put_cursor by (rewrite zlen_cons; lia). cbn [mbind outcome_bind pb_buf pb_offset].
  rewrite write_at_cursor.
  2: { rewrite zlen_app, zlen_cons. lia. }
  2: { rewrite zlen_drop, !zlen_cons, zlen_nil. unfold zlen in *. cbn [length]. lia. }
  unfold then_update, andthen. cbn [mbind outcome_bind].
  change (34 :: body) with ([34] ++ body). rewrite <- !app_assoc. cbn [pb_depth pb_grow].
  pose proof (update_cursor grow pre (quoted s)
    (drop (length [34; 0]) (drop (length ([34] ++ body)) rest')) d Hnz) as Hu.
  unfold quoted in Hu. fold body in Hu. rewrite <- !app_assoc in Hu.
  cbn [app] in Hu |- *. rewrite Hu. cbn [mbind outcome_bind].
  eexists. split; [unfold quoted; fold body; cbn [app]; reflexivity|].
  eapply cursor_moved; [exact Hok'|lia|].
  rewrite Hq, zlen_cons, drop_drop, zlen_drop. unfold zlen in *. cbn [length]. lia.
Qed.

Lemma print_number_exact x pre rest d :
  cursor_ok pre rest ->
  outputs0 (then_update (print_number x (at_cursor pre rest d))) pre d
    (room_for (number_text x) (L - zlen pre)) (number_text x).
Proof using HL Hgrow.
  intros Hlen. unfold print_number, room_for. pose proof (number_text_len x).
  destruct (Z.ltb_spec 25 (zlen (number_text x))); [lia|].
  pose proof (zlen_nonneg (number_text x)).
  pose proof (emit_text grow L HL Hgrow pre rest d (number_text x) (zlen (number_text x) + 1) Hlen
    ltac:(lia)) as He.
  replace (zlen (number_text x) + 1 + 1) with (zlen (number_text x) + 2) in He by lia.
  unfold outputs0 in *. destruct (_ <=? _); [|by rewrite He].
  destruct He as (tail & -> & Hl). unfold then_update, andthen. cbn [mbind outcome_bind].
  pose proof (update_cursor grow (pre ++ number_text x) [] tail d) as Hu. cbn [app] in Hu.
  unfold at_cursor at 1. rewrite Hu by constructor. cbn [mbind outcome_bind].
  exists tail. by rewrite app_nil_r.
Qed.

Definition prints (x : json) : Prop :=
  forall pre rest d, cursor_ok pre rest -> 0 <= d -> tree_bytes x ->
  outputs0 (then_update (print_value format x (at_cursor pre rest d))) pre d
    (nested_ok d x && room_for (render format d x) (L - zlen pre)) (render format d x).

Lemma outputs_eq r pre d f f' t :
  outputs r pre d f t -> f = f' -> outputs r pre d f' t.
Proof using. by intros ? <-. Qed.

(** Booleans about room: case analysis and arithmetic. *)
Ltac room :=
  unfold room_for; rewrite ?zlen_app, ?zlen_cons, ?zlen_nil;
  repeat match goal with
  | |- context [Z.leb ?a ?b] => destruct (Z.leb_spec a b)
  end; cbn [andb orb]; try reflexivity; try lia.

Lemma array_separator_exact last pre rest d :
  cursor_ok pre rest ->
  outputs (array_separator format last (at_cursor pre rest d)) pre d
    (last || room_for (array_sep format last) (L - zlen pre)) (array_sep format last).
Proof using HL Hgrow.
  intros Hlen. unfold array_separator, array_sep. destruct last.
  { by apply outputs_nothing. }
  eapply outputs_eq; [apply outputs0_outputs, (emit_text grow L HL Hgrow); [done|destruct format; unfold zlen; cbn; lia]|].
  destruct format; room.
Qed.

Lemma print_elements_exact l :
  Forall prints l -> forall pre rest d,
  cursor_ok pre rest -> 0 <= d -> Forall id (tree_bytes <$> l) ->
  outputs (print_elements format (print_value format) l (at_cursor pre rest d)) pre d
    (forallb (nested_ok d) l &&
     (is_nil l || room_for (list_body (render format d) (array_sep format) l) (L - zlen pre)))
    (list_body (render format d) (array_sep format) l).
Proof using HL Hgrow.
  induction 1 as [|x l Hx Hl IH]; intros pre rest d Hlen Hd Htb; cbn [print_elements list_body].
  { by apply outputs_nothing. }
  cbn [fmap list_fmap] in Htb. apply Forall_cons in Htb as [Hxb Htb].
  set (tx := render format d x). set (ts := array_sep format (is_nil l)).
  set (tl := list_body (render format d) (array_sep format) l).
  eapply outputs_eq.
  - eapply (outputs_seq _ _ _ _ _ d d (fun room => (is_nil l || room_for ts room) &&
      (forallb (nested_ok d) l && (is_nil l || room_for tl (room - zlen ts))))).
    { apply outputs0_outputs. by apply Hx. }
    intros rest1 Hl1.
    eapply (outputs_seq _ _ _ _ _ d d (fun room =>
      forallb (nested_ok d) l && (is_nil l || room_for tl room))).
    { by apply array_separator_exact. }
    intros rest2 Hl2. by apply IH.
  - fold tx. cbn [forallb is_nil orb]. subst ts tl. pose proof (zlen_nonneg tx).
    destruct (nested_ok d x); cbn [andb]; [|done].
    destruct l as [|y l]; cbn [forallb is_nil orb list_body].
    + cbn [array_sep]. rewrite app_nil_r. room.
    + destruct (nested_ok d y && forallb (nested_ok d) l)%bool; cbn [andb];
        [|by rewrite !andb_false_r].
      set (t2 := render format d y ++ _). pose proof (zlen_nonneg t2).
      pose proof (zlen_nonneg (array_sep format false)). room.
Qed.

Definition key_text (d : Z) (key : list Z) : list Z :=
  (if format then tabs d else []) ++ quoted key ++ (if format then [58; 9] else [58]).

Lemma tabs_len n : 0 <= n -> zlen (tabs n) = n.
Proof using. intros Hn. unfold tabs. rewrite zlen_replicate. lia. Qed.

Lemma print_key_exact key pre rest d :
  cursor_ok pre rest -> 0 <= d -> bytes key ->
  outputs (print_key format key (at_cursor pre rest d)) pre d
    (zlen (key_text d key) + 1 <=? L - zlen pre) (key_text d key).
Proof using HL Hgrow.
  intros Hlen Hd Hb. unfold print_key, key_text.
  set (ind := if format then tabs d else []). set (colon := if format then [58; 9] else [58]).
  assert (zlen ind = if format then d else 0) as Hind.
  { subst ind. destruct format; [by apply tabs_len|done]. }
  assert (1 <= zlen colon <= 2) as Hcolon by (subst colon; destruct format; unfold zlen; cbn; lia).
  eapply outputs_eq.
  - eapply (outputs_seq _ _ _ _ _ d d (fun room => room_for (quoted key) room &&
      (zlen colon + 1 <=? room - zlen (quoted key)))).
    + instantiate (1 := if format then d + 1 <=? L - zlen pre else true). subst ind.
      cbn [at_cursor pb_depth]. destruct format.
      * change (PrintBuffer (pre ++ rest) (zlen pre) d) with (at_cursor pre rest d).
        pose proof (emit_plain grow L HL Hgrow pre rest d (tabs d) d Hlen) as He.
        rewrite (tabs_len d Hd) in He. apply He. lia.
      * by apply outputs_nothing.
    + intros rest1 Hl1. eapply (outputs_seq _ _ _ _ _ d d (fun room => zlen colon + 1 <=? room)).
      { by apply outputs0_outputs, print_string_exact. }
      intros rest2 Hl2. apply (emit_plain grow L HL Hgrow); [done|lia].
  - pose proof (zlen_nonneg (quoted key)). rewrite Hind. destruct format; room.
Qed.

Lemma print_members_exact l :
  Forall (fun kv => prints kv.2) l -> forall pre rest d,
  cursor_ok pre rest -> 0 <= d ->
  Forall id ((fun kv => bytes kv.1 /\ tree_bytes kv.2) <$> l) ->
  let body := list_body (fun kv => member format d kv.1 (render format d kv.2))
                (object_sep format) l in
  outputs (print_members format (print_value format) l (at_cursor pre rest d)) pre d
    (forallb (fun kv => nested_ok d kv.2) l && (is_nil l || room_for body (L - zlen pre))) body.
Proof using HL Hgrow.
  induction 1 as [|[key x] l Hx Hl IH]; intros pre rest d Hlen Hd Htb;
    cbn [print_members list_body].
  { by apply outputs_nothing. }
  cbn [fmap list_fmap] in Htb. apply Forall_cons in Htb as [[Hk Hxb] Htb]. cbn [fst snd] in *.
  set (tk := key_text d key). set (tx := render format d x).
  set (ts := object_sep format (is_nil l)). cbn zeta in IH.
  set (tl := list_body (fun kv => member format d kv.1 (render format d kv.2))
               (object_sep format) l) in *.
  replace (member format d key tx ++ ts ++ tl) with (tk ++ tx ++ ts ++ tl).
  2: { subst tk. unfold member, key_text. by rewrite <- !app_assoc. }
  eapply outputs_eq.
  - eapply (outputs_seq _ _ _ _ _ d d (fun room => (nested_ok d x && room_for tx room) &&
      (room_for ts (room - zlen tx) && (forallb (fun kv => nested_ok d kv.2) l &&
        (is_nil l || room_for tl (room - zlen tx - zlen ts)))))).
    { by apply print_key_exact. }
    intros rest1 Hl1.
    eapply (outputs_seq _ _ _ _ _ d d (fun room => room_for ts room &&
      (forallb (fun kv => nested_ok d kv.2) l && (is_nil l || room_for tl (room - zlen ts))))).
    { by apply outputs0_outputs, Hx. }
    intros rest2 Hl2.
    eapply (outputs_seq _ _ _ _ _ d d (fun room =>
      forallb (fun kv => nested_ok d kv.2) l && (is_nil l || room_for tl room))).
    { eapply outputs_eq; [apply outputs0_outputs, (emit_text grow L HL Hgrow);
        [done|pose proof (zlen_nonneg ts); subst ts; unfold object_sep in *; lia]|].
      subst ts. unfold object_sep, room_for. f_equal. lia. }
    intros rest3 Hl3. by apply IH.
  - cbn [forallb is_nil orb snd]. pose proof (zlen_nonneg tk). pose proof (zlen_nonneg tx).
    pose proof (zlen_nonneg ts). pose proof (zlen_nonneg tl).
    destruct (nested_ok d x); cbn [andb]; [|by rewrite andb_false_r].
    destruct (forallb _ l); cbn [andb]; [|by rewrite !andb_false_r].
    destruct (is_nil l) eqn:El; cbn [orb].
    + destruct l; [|done]. subst tl. cbn [list_body] in *. rewrite app_nil_r.
      fold tk in H |- *. room.
    + fold tk. room.
Qed.

(** The end of an array or object: the closing text, one level up, measured by
    the caller. *)
Lemma closing_exact closing pre rest d :
  cursor_ok pre rest -> nonzero closing ->
  outputs0 (then_update
    (andthen (emit (at_cursor pre rest (d + 1)) (zlen closing + 1) (closing ++ [0]) 0)
       (fun p => Ret (Some (set_depth (pb_depth p - 1) p))))) pre d
    (room_for closing (L - zlen pre)) closing.
Proof using HL Hgrow.
  intros Hlen Hnz. unfold emit, outputs0, room_for. pose proof (zlen_nonneg closing).
  pose proof (ensure_cursor grow L HL Hgrow pre rest (d + 1) (zlen closing + 1) Hlen ltac:(lia)) as He.
  replace (zlen closing + 1 + 1) with (zlen closing + 2) in He by lia.
  destruct (Z.leb_spec (zlen closing + 2) (L - zlen pre)); [|by rewrite He].
  destruct He as (rest' & -> & Hok' & Hr).
  rewrite put_cursor by (rewrite zlen_app; unfold zlen in *; cbn [length]; lia).
  unfold then_update, andthen. cbn [mbind outcome_bind].
  unfold advance, set_depth. cbn [pb_buf pb_offset pb_depth pb_grow].
  rewrite Z.add_0_r, <- !app_assoc. cbn [app]. rewrite update_cursor by done.
  cbn [mbind outcome_bind]. eexists. replace (d + 1 - 1) with d by lia.
  split; [reflexivity|]. eapply cursor_moved; [exact Hok'|lia|].
  rewrite zlen_cons, zlen_drop, length_app. unfold zlen in *. cbn [length]. lia.
Qed.

Lemma andthen_assoc r k1 k2 : andthen (andthen r k1) k2 = andthen r (fun p => andthen (k1 p) k2).
Proof using. destruct r as [[p|]|]; done. Qed.

(** An opening, children one level deeper, and a closing. *)
Lemma bracketed_exact opening needed loop fin closing ok empty body pre rest d :
  cursor_ok pre rest -> nonzero closing -> 0 < zlen closing ->
  zlen opening <= needed <= zlen opening + 1 ->
  (empty = true -> body = []) ->
  (forall rest1, cursor_ok (pre ++ opening) rest1 ->
     outputs (loop (at_cursor (pre ++ opening) rest1 (d + 1))) (pre ++ opening) (d + 1)
       (ok && (empty || room_for body (L - zlen (pre ++ opening)))) body) ->
  (forall pre rest, fin (at_cursor pre rest (d + 1)) =
     andthen (emit (at_cursor pre rest (d + 1)) (zlen closing + 1) (closing ++ [0]) 0)
       (fun p => Ret (Some (set_depth (pb_depth p - 1) p)))) ->
  outputs0 (then_update
    (andthen (emit (at_cursor pre rest d) needed opening (zlen opening)) (fun p =>
     andthen (loop (set_depth (pb_depth p + 1) p)) fin))) pre d
    (ok && room_for (opening ++ body ++ closing) (L - zlen pre)) (opening ++ body ++ closing).
Proof using HL Hgrow.
  intros Hlen Hnz Hc Hn Hempty Hloop Hfin. unfold then_update. rewrite andthen_assoc.
  pose proof (emit_plain grow L HL Hgrow pre rest d opening needed Hlen ltac:(lia)) as He.
  assert (zlen (opening ++ body ++ closing) = zlen opening + zlen body + zlen closing) as Ht.
  { rewrite !zlen_app. lia. }
  pose proof (zlen_nonneg body) as Hb. unfold room_for. rewrite Ht. unfold outputs in He.
  destruct (Z.leb_spec (needed + 1) (L - zlen pre)) as [Hr|Hr].
  2: { rewrite He. cbn. destruct (Z.leb_spec (zlen opening + zlen body + zlen closing + 2) (L - zlen pre));
         [lia|]. by rewrite andb_false_r. }
  destruct He as (rest1 & -> & Hl1). unfold andthen at 1. cbn [mbind outcome_bind].
  change (set_depth (pb_depth (at_cursor (pre ++ opening) rest1 d) + 1)
    (at_cursor (pre ++ opening) rest1 d)) with (at_cursor (pre ++ opening) rest1 (d + 1)).
  rewrite andthen_assoc.
  specialize (Hloop rest1 Hl1). unfold outputs, room_for in Hloop. rewrite zlen_app in Hloop.
  destruct ok; cbn [andb] in *; [|by rewrite Hloop].
  destruct (empty || (zlen body + 2 <=? L - (zlen pre + zlen opening)))%bool eqn:E.
  2: { rewrite Hloop. apply orb_false_elim in E as [_ E]. bool_prop.
       destruct (Z.leb_spec (zlen opening + zlen body + zlen closing + 2) (L - zlen pre)); [lia|done]. }
  destruct Hloop as (rest2 & -> & Hl2). unfold andthen at 1. cbn [mbind outcome_bind].
  rewrite Hfin. pose proof (closing_exact closing ((pre ++ opening) ++ body) rest2 d) as Hcl.
  unfold then_update in Hcl. unfold outputs0, room_for in *.
  specialize (Hcl Hl2 Hnz). rewrite !zlen_app in Hcl.
  replace (zlen closing + 2 <=? L - (zlen pre + zlen opening + zlen body))
    with (zlen opening + zlen body + zlen closing + 2 <=? L - zlen pre) in Hcl
    by (apply eq_true_iff_eq; rewrite !Z.leb_le; lia).
  destruct (zlen opening + zlen body + zlen closing + 2 <=? L - zlen pre); [|exact Hcl].
  destruct Hcl as (tail & Hcl & Hl3). exists tail.
  rewrite Hcl. rewrite <- !app_assoc in *. done.
Qed.

(** Every tree prints exactly. *)
Lemma print_value_exact x : prints x.
Proof using HL Hgrow.
  induction x as [|b|v|s|l IH|l IH] using json_tree_ind; intros pre rest d Hlen Hd Htb;
    cbn [print_value nested_ok render tree_bytes] in *.
  - apply (emit_measured grow L HL Hgrow); [done|by vm_compute|apply (bool_decide_unpack _); by vm_compute].
  - destruct b; (apply (emit_measured grow L HL Hgrow);
      [done|by vm_compute|apply (bool_decide_unpack _); by vm_compute]).
  - by apply print_number_exact.
  - by apply print_string_exact.
  - cbn [at_cursor pb_depth]. destruct (Z.leb_spec CJSON_NESTING_LIMIT d), (Z.ltb_spec d CJSON_NESTING_LIMIT);
      try lia; cbn [andb]; [done|].
    eapply (bracketed_exact [91] 1 (print_elements format (print_value format) l) _ [93] _ (is_nil l));
      [done|repeat constructor; done|by vm_compute|by vm_compute|by destruct l| |done].
    intros rest1 Hl1. apply print_elements_exact; [done|done|lia|done].
  - cbn [at_cursor pb_depth]. destruct (Z.leb_spec CJSON_NESTING_LIMIT d), (Z.ltb_spec d CJSON_NESTING_LIMIT);
      try lia; cbn [andb]; [done|].
    assert (zlen (if format then tabs d ++ [125] else [125]) = if format then d + 1 else 1) as Hc.
    { destruct format; [|done]. rewrite zlen_app, tabs_len by done. done. }
    eapply (bracketed_exact (if format then [123; 10] else [123]) _
      (print_members format (print_value format) l) _ (if format then tabs d ++ [125] else [125])
      _ (is_nil l)); [done| | | |by destruct l| |].
    + destruct format; [|repeat constructor; done]. apply Forall_app.
      split; [apply tabs_nonzero|repeat constructor; done].
    + rewrite Hc. destruct format; lia.
    + destruct format; by vm_compute.
    + intros rest1 Hl1. apply print_members_exact; [done|done|lia|done].
    + intros pre' rest'. cbn [at_cursor pb_depth]. rewrite Hc.
      replace (d + 1 - 1) with d by lia. destruct format; done.
Qed.

End Printer.

Lemma list_body_textual {A} (f : A -> list Z) sep l :
  (forall b, textual (sep b)) -> Forall (fun x => textual (f x)) l -> textual (list_body f sep l).
Proof.
  intros Hs. induction 1 as [|x l Hx Hl IH]; cbn; [constructor|].
  repeat apply textual_app; [done|apply Hs|done].
Qed.

Lemma tabs_textual n : textual (tabs n).
Proof. apply Forall_replicate. lia. Qed.

Lemma render_textual format x d : tree_bytes x -> textual (render format d x).
Proof.
  revert d. induction x as [|b|v|s|l IH|l IH] using json_tree_ind; intros d Htb;
    cbn [render tree_bytes] in *.
  - apply (bool_decide_unpack _). by vm_compute.
  - destruct b; apply (bool_decide_unpack _); by vm_compute.
  - apply number_text_textual.
  - by apply quoted_textual.
  - apply textual_app; [repeat constructor; lia|].
    apply textual_app; [|repeat constructor; lia]. apply list_body_textual.
    + intros []; destruct format; repeat constructor; lia.
    + rewrite Forall_fmap in Htb. rewrite Forall_forall in *. intros y Hy. apply IH; [done|].
      by apply Htb.
  - rewrite Forall_fmap in Htb. apply textual_app; [destruct format; repeat constructor; lia|].
    apply textual_app.
    + apply list_body_textual; [intros []; destruct format; repeat constructor; lia|].
      rewrite Forall_forall in *. intros [k y] Hy. destruct (Htb _ Hy) as [Hk Hyb].
      unfold member. apply textual_app; [destruct format; [apply tabs_textual|constructor]|].
      apply textual_app; [by apply quoted_textual|].
      apply textual_app; [destruct format; repeat constructor; lia|]. by apply (IH _ Hy).
    + destruct format; [apply textual_app; [apply tabs_textual|]|]; repeat constructor; lia.
Qed.

(** A print from the start of a buffer: the buffer it leaves behind holds the text
    and its terminator. *)
Lemma print_value_buffer format grow L x buffer :
  L <= INT_MAX ->
  (forall fresh, grow = Some fresh -> L = INT_MAX /\ forall n, 0 <= n -> zlen (fresh n) = n) ->
  cursor_ok grow L [] buffer -> tree_bytes x ->
  if nested_ok 0 x && room_for (render format 0 x) L
  then exists p tail, print_value format x (PrintBuffer buffer 0 0 grow) = Ret (Some p) /\
         pb_buf p = render format 0 x ++ 0 :: tail /\
         update_offset p = Ret (at_cursor grow (render format 0 x) (0 :: tail) 0) /\
         cursor_ok grow L (render format 0 x) (0 :: tail)
  else print_value format x (PrintBuffer buffer 0 0 grow) = Ret None.
Proof.
  intros HL Hgrow Hok Htb.
  pose proof (print_value_exact format grow L HL Hgrow x [] buffer 0 Hok ltac:(lia) Htb) as Hp.
  unfold outputs0, then_update, andthen in Hp. change (zlen []) with 0 in Hp. rewrite Z.sub_0_r in Hp.
  change (at_cursor grow [] buffer 0) with (PrintBuffer buffer 0 0 grow) in Hp. cbn [app] in Hp.
  destruct (print_value format x _) as [[p|]|]; cbn [mbind outcome_bind] in *.
  2: { destruct (_ && _)%bool; [|done]. destruct Hp as (? & ? & _). done. }
  2: { destruct (_ && _)%bool; [destruct Hp as (? & ? & _)|]; done. }
  destruct (update_offset p) as [p'|] eqn:Eu; cbn [mbind outcome_bind] in Hp.
  2: { destruct (_ && _)%bool; [destruct Hp as (? & ? & _)|]; done. }
  destruct (_ && _)%bool; [|done]. destruct Hp as (tail & [= ->] & Hl).
  exists p, tail. split_and!; [done| |done|done].
  unfold update_offset in Eu. destruct (strlen_at _ _); [|done]. by injection Eu.
Qed.

(** Printing into a caller's buffer. *)
Lemma print_preallocated_exact format x buffer :
  zlen buffer <= INT_MAX -> tree_bytes x ->
  if nested_ok 0 x && room_for (render format 0 x) (zlen buffer)
  then exists tail, cJSON_PrintPreallocated format x buffer
         = Ret (Some (render format 0 x ++ 0 :: tail)) /\
       zlen (render format 0 x ++ 0 :: tail) = zlen buffer
  else cJSON_PrintPreallocated format x buffer = Ret None.
Proof.
  intros HL Htb. unfold cJSON_PrintPreallocated.
  pose proof (print_value_buffer format None (zlen buffer) x buffer HL ltac:(done) ltac:(done) Htb) as Hp.
  destruct (_ && _)%bool; [|by rewrite Hp]. destruct Hp as (p & tail & -> & Hb & _ & Hok). cbn in Hok.
  exists tail. cbn [mbind outcome_bind]. rewrite Hb, zlen_app. done.
Qed.

(** Printing into a block of the allocator, which is cut down to the text. *)
Lemma print_exact_size format fresh x :
  (forall n, 0 <= n -> zlen (fresh n) = n) -> tree_bytes x ->
  print format fresh x =
    Ret (if nested_ok 0 x && room_for (render format 0 x) INT_MAX then Some (render format 0 x ++ [0]) else None).
Proof.
  intros Hf Htb. unfold print.
  assert (cursor_ok (Some fresh) INT_MAX [] (fresh 256)) as Hok by (cbn; rewrite Hf by lia; unfold INT_MAX, zlen; cbn; lia).
  pose proof (print_value_buffer format (Some fresh) INT_MAX x (fresh 256) ltac:(lia)
    ltac:(by intros ? [= <-]) Hok Htb) as Hp.
  destruct (_ && _)%bool; [|by rewrite Hp]. destruct Hp as (p & tail & -> & Hb & Hu & _).
  cbn [mbind outcome_bind]. rewrite Hu. cbn [mbind outcome_bind at_cursor pb_offset pb_buf]. do 2 f_equal.
  change (0 :: tail) with ([0] ++ tail). rewrite app_assoc.
  replace (Z.to_nat (zlen (render format 0 x) + 1)) with (length (render format 0 x ++ [0]))
    by (rewrite length_app; unfold zlen; cbn [length]; lia).
  by rewrite take_app_length.
Qed.

(** C29: printing into a caller's buffer is exact and safe.  Whatever the tree
    and the buffer, no byte outside the buffer is touched; the call returns true
    exactly when arrays and objects are nested at most 1000 deep and the text is
    at least two bytes shorter than the buffer (its terminator and one spare
    byte), and then the buffer holds that text as a C string. *)
Theorem print_exact format x buffer :
  zlen buffer <= INT_MAX -> tree_bytes x ->
  exists r, cJSON_PrintPreallocated format x buffer = Ret r /\
    (is_Some r <-> nested_ok 0 x = true /\ zlen (render format 0 x) + 2 <= zlen buffer) /\
    (forall b, r = Some b -> zlen b = zlen buffer /\ c_string b = render format 0 x).
Proof.
  intros HL Htb. pose proof (print_preallocated_exact format x buffer HL Htb) as Hp.
  unfold room_for in Hp. destruct (nested_ok 0 x); cbn [andb] in Hp;
    [destruct (Z.leb_spec (zlen (render format 0 x) + 2) (zlen buffer))|].
  - destruct Hp as (tail & -> & Hl). eexists. split; [reflexivity|]. split; [by eauto|].
    intros b [= <-]. split; [done|]. apply c_string_app, textual_nonzero.
    by apply render_textual.
  - exists None. split; [done|]. split; [|done]. split; [by intros [? ?]|lia].
  - exists None. split; [done|]. split; [|done]. split; [by intros [? ?]|]. by intros [? _].
Qed.

Definition sample_tree : json :=
  JObject [(bstr "msg", JString (bstr "hi" ++ [10; 7])); (bstr "n", JArray [JNull; JBool true])].

Lemma print_exact_witness :
  exists r, cJSON_PrintPreallocated false sample_tree (replicate 64 77) = Ret r /\
    (is_Some r <-> nested_ok 0 sample_tree = true /\
       zlen (render false 0 sample_tree) + 2 <= zlen (replicate 64 77)) /\
    (forall b, r = Some b -> zlen b = zlen (replicate 64 77) /\
       c_string b = render false 0 sample_tree).
Proof.
  apply (print_exact false sample_tree (replicate 64 77)); [by vm_compute|].
  repeat constructor; apply (bool_decide_unpack _); vm_compute; exact I.
Defined.

End CjsonPrint.
