(* ===== verification/CjsonParse.v ===== *)
(** * Parsing JSON is safe and total (gateway/src/cJSON.c, parse functions)

    On every byte buffer the parser terminates, reads only inside the buffer,
    writes strings only inside what it allocated for them, and returns a tree of
    byte strings or NULL. *)
From Stdlib Require Import Floats.SpecFloat.
From S2P Require Import Prelude Number Cjson CjsonPrint.
Import Number Cjson CjsonPrint.
Open Scope c_scope.

Module CjsonParse.

(** ** Whitespace *)

Lemma skip_ws_bounds suffix off : off <= skip_ws suffix off <= off + zlen suffix.
Proof.
  revert off. induction suffix as [|b l IH]; intros off; cbn [skip_ws].
  - rewrite zlen_nil. lia.
  - rewrite zlen_cons. pose proof (zlen_nonneg l). destruct (b <=? 32); [|lia].
    specialize (IH (off + 1)). lia.
Qed.

Lemma buffer_skip_bounds s off :
  0 <= off <= zlen s ->
  off <= buffer_skip_whitespace s off <= zlen s /\
  (off < zlen s -> buffer_skip_whitespace s off < zlen s).
Proof.
  intros Hoff. unfold buffer_skip_whitespace, can_access.
  destruct (Z.ltb_spec off (zlen s)); cbn [negb]; [|lia].
  pose proof (skip_ws_bounds (drop (Z.to_nat off) s) off) as Hb. rewrite zlen_drop in Hb.
  destruct (Z.eqb_spec (skip_ws (drop (Z.to_nat off) s) off) (zlen s)); lia.
Qed.

Lemma next_is_defined s off c :
  0 <= off -> exists b, next_is s off c = Ret b /\ (b = true -> off < zlen s).
Proof.
  intros Hoff. unfold next_is, can_access. destruct (Z.ltb_spec off (zlen s)); [|by eexists].
  destruct (byte_at_inside s off) as [b ->]; [lia|]. by eexists.
Qed.

Lemma next_lit_defined s off lit :
  0 <= off -> exists b, next_lit s off lit = Ret b /\ (b = true -> off + zlen lit <= zlen s).
Proof.
  intros Hoff. unfold next_lit. pose proof (zlen_nonneg lit).
  destruct (Z.leb_spec (off + zlen lit) (zlen s)); [|by eexists].
  destruct (read_at_inside s off (zlen lit)) as (bs & -> & _); [lia..|]. by eexists.
Qed.

(** ** Numbers *)

Lemma digits_split bs : bs = (digits bs).1 ++ (digits bs).2.
Proof.
  induction bs as [|b bs IH]; cbn; [done|]. destruct (is_digit b); [|done].
  destruct (digits bs) as [ds r]. cbn in *. by rewrite IH at 1.
Qed.

Lemma digits_len bs ds r : digits bs = (ds, r) -> zlen bs = zlen ds + zlen r.
Proof. intros H. rewrite (digits_split bs), H. cbn. by rewrite zlen_app. Qed.

Lemma sign_len bs sg r : sign bs = (sg, r) -> zlen bs - 1 <= zlen r <= zlen bs.
Proof.
  unfold sign. destruct bs as [|b bs]; [intros [= _ <-]; unfold zlen; cbn; lia|].
  rewrite zlen_cons. pose proof (zlen_nonneg bs).
  destruct (b =? 45); [intros [= _ <-]; lia|]. destruct (b =? 43); intros [= _ <-]; [lia|].
  rewrite zlen_cons. lia.
Qed.

Lemma exponent_len bs e r : exponent bs = (e, r) -> zlen r <= zlen bs.
Proof.
  unfold exponent. destruct bs as [|b bs]; [by intros [= _ <-]|].
  destruct (_ || _)%bool; [|by intros [= _ <-]].
  destruct (sign bs) as [sg r1] eqn:Es. apply sign_len in Es.
  destruct (digits r1) as [[|d ds] r2] eqn:Ed; [by intros [= _ <-]|].
  apply digits_len in Ed. rewrite zlen_cons in Ed. pose proof (zlen_nonneg ds).
  rewrite zlen_cons. intros [= _ <-]. lia.
Qed.

Lemma strtod_consumed bs d n : strtod bs = Some (d, n) -> 1 <= n <= zlen bs.
Proof.
  unfold strtod. destruct (sign bs) as [sg r1] eqn:Es. apply sign_len in Es.
  destruct (digits r1) as [ip r2] eqn:Ei. apply digits_len in Ei.
  pose proof (zlen_nonneg ip).
  assert (forall fp r3, (match r2 with b :: r => if b =? 46 then digits r else ([], r2)
    | [] => ([], []) end) = (fp, r3) -> zlen r3 + zlen fp <= zlen r2) as Hf.
  { intros fp r3. destruct r2 as [|b r2']; [by intros [= <- <-]|].
    destruct (b =? 46); [|by intros [= <- <-]; rewrite zlen_nil; lia].
    intros Hd%digits_len. rewrite zlen_cons. lia. }
  destruct (match r2 with [] => _ | _ => _ end) as [fp r3]. specialize (Hf fp r3 eq_refl).
  destruct (ip ++ fp) as [|c cs] eqn:Ea; [done|].
  assert (1 <= zlen ip + zlen fp) as H1.
  { rewrite <- zlen_app, Ea, zlen_cons. pose proof (zlen_nonneg cs). lia. }
  destruct (exponent r3) as [e r4] eqn:Ee. apply exponent_len in Ee.
  intros [= _ <-]. pose proof (zlen_nonneg r4). lia.
Qed.

Lemma number_string_len l : zlen (number_string l) <= zlen l.
Proof.
  induction l as [|b l IH]; cbn; [lia|]. rewrite zlen_cons. pose proof (zlen_nonneg l).
  destruct (number_char b); [rewrite zlen_cons; lia|]. rewrite zlen_nil. lia.
Qed.

Lemma parse_number_bounds s off j off' :
  0 <= off -> parse_number s off = Some (j, off') -> off < off' <= zlen s /\ tree_bytes j.
Proof.
  intros Hoff. unfold parse_number.
  destruct (strtod _) as [[d n]|] eqn:E; [|done]. intros [= <- <-].
  apply strtod_consumed in E. pose proof (number_string_len (drop (Z.to_nat off) s)) as Hl.
  rewrite zlen_drop in Hl. split; [lia|done].
Qed.

(** ** Strings *)

(** The characters between two positions. *)
Definition slice (s : list Z) (p q : Z) : list Z :=
  take (Z.to_nat (q - p)) (drop (Z.to_nat p) s).

(** The output size [parse_string] computes: one byte per character or escape. *)
Fixpoint esc_size (l : list Z) : Z :=
  match l with
  | [] => 0
  | b :: rest =>
      if b =? 92 then match rest with [] => 1 | _ :: rest => 1 + esc_size rest end
      else 1 + esc_size rest
  end.

Lemma slice_len s p q : 0 <= p <= q -> q <= zlen s -> zlen (slice s p q) = q - p.
Proof. intros H1 H2. unfold slice. rewrite zlen_take, zlen_drop. lia. Qed.

Lemma slice_drop s p q k : 0 <= p -> 0 <= k -> drop (Z.to_nat k) (slice s p q) = slice s (p + k) q.
Proof.
  intros Hp Hk. unfold slice. rewrite skipn_firstn_comm, drop_drop. f_equal; [lia|f_equal; lia].
Qed.

Lemma slice_cons s p q b : 0 <= p < q -> byte_at s p = Ret b -> slice s p q = b :: slice s (p + 1) q.
Proof.
  intros Hp Hb. unfold byte_at in Hb. destruct (Z.ltb_spec p 0); [lia|].
  destruct (s !! Z.to_nat p) as [x|] eqn:Hx; [|done]. injection Hb as ->.
  unfold slice. rewrite (drop_S _ _ _ Hx).
  replace (Z.to_nat (q - p)) with (S (Z.to_nat (q - (p + 1)))) by lia.
  replace (Z.to_nat (p + 1)) with (S (Z.to_nat p)) by lia. done.
Qed.

Lemma slice_nil s p q : q <= p -> slice s p q = [].
Proof. intros H. unfold slice. by replace (Z.to_nat (q - p)) with 0%nat by lia. Qed.

Lemma esc_size_nonneg l : 0 <= esc_size l.
Proof.
  induction l as [l IH] using (induction_ltof1 _ length). unfold ltof in IH.
  destruct l as [|b [|c l]]; cbn [esc_size]; [lia|destruct (b =? 92); lia|].
  destruct (b =? 92); [specialize (IH l ltac:(cbn; lia)); lia|].
  specialize (IH (c :: l) ltac:(cbn; lia)). cbn [esc_size] in IH. lia.
Qed.

(** Skipping a character never increases the size, skipping two lowers it. *)
Lemma esc_size_tail b l : esc_size l <= esc_size (b :: l) <= 1 + esc_size l.
Proof.
  revert b. induction l as [|c l IH]; intros b; [cbn [esc_size]; destruct (b =? 92); lia|].
  change (esc_size (b :: c :: l)) with (if b =? 92 then 1 + esc_size l else 1 + esc_size (c :: l)).
  destruct (b =? 92); [|lia]. pose proof (IH c). lia.
Qed.

Lemma esc_size_two l : l <> [] -> 1 + esc_size (drop 2 l) <= esc_size l.
Proof.
  destruct l as [|b [|c l]]; [done|cbn [esc_size drop]; destruct (b =? 92); lia|]. intros _.
  change (esc_size (b :: c :: l)) with (if b =? 92 then 1 + esc_size l else 1 + esc_size (c :: l)).
  pose proof (esc_size_tail c l). change (drop 2 (b :: c :: l)) with l. destruct (b =? 92); lia.
Qed.

Lemma esc_size_skip (n : nat) l :
  (2 * n <= length l + 1)%nat -> Z.of_nat n + esc_size (drop (2 * n) l) <= esc_size l.
Proof.
  revert l. induction n as [|n IH]; intros l Hl; [change (drop (2 * 0) l) with l; lia|].
  destruct l as [|b l]; [cbn in Hl; lia|].
  pose proof (esc_size_two (b :: l) ltac:(done)) as H2.
  specialize (IH (drop 2 (b :: l))). rewrite length_drop, drop_drop in IH.
  replace (2 * S n)%nat with (2 + 2 * n)%nat by lia. cbn [length] in *. lia.
Qed.

Lemma string_end_spec suffix pos skipped e k :
  string_end suffix pos skipped = Some (e, k) ->
  pos <= e < pos + zlen suffix /\
  e - pos - (k - skipped) = esc_size (take (Z.to_nat (e - pos)) suffix).
Proof.
  revert pos skipped. induction suffix as [l IH] using (induction_ltof1 _ length).
  unfold ltof in IH. intros pos skipped. destruct l as [|b l]; cbn [string_end]; [done|].
  destruct (Z.eqb_spec b 34) as [->|Hq].
  { intros [= <- <-]. rewrite zlen_cons, Z.sub_diag. pose proof (zlen_nonneg l).
    change (esc_size (take (Z.to_nat 0) (34 :: l))) with 0. lia. }
  destruct (Z.eqb_spec b 92) as [->|Hb].
  - destruct l as [|c l]; [done|]. intros H. apply IH in H as [Hr He]; [|cbn; lia].
    rewrite !zlen_cons. split; [lia|].
    replace (Z.to_nat (e - pos)) with (S (S (Z.to_nat (e - (pos + 2))))) by lia.
    cbn [firstn esc_size Z.eqb Pos.eqb]. lia.
  - intros H. apply IH in H as [Hr He]; [|cbn; lia]. rewrite zlen_cons. split; [lia|].
    replace (Z.to_nat (e - pos)) with (S (Z.to_nat (e - (pos + 1)))) by lia.
    cbn [firstn esc_size]. destruct (Z.eqb_spec b 92); [done|]. lia.
Qed.

(** ** Unicode escapes *)

Lemma hex_value_range b d : hex_value b = Some d -> 0 <= d <= 15.
Proof.
  unfold hex_value. destruct (_ && _)%bool eqn:E1; [bool_prop; intros [= <-]; lia|].
  destruct (_ && _)%bool eqn:E2 in |- *; [bool_prop; intros [= <-]; lia|].
  destruct (_ && _)%bool eqn:E3 in |- *; [bool_prop; intros [= <-]; lia|done].
Qed.

Lemma parse_hex4_range s p :
  0 <= p -> p + 4 <= zlen s -> exists h, parse_hex4 s p = Ret h /\ 0 <= h <= 0xFFFF.
Proof.
  intros Hp Hl. unfold parse_hex4. destruct (read_at_inside s p 4) as (bs & -> & Hbs); [lia..|].
  cbn [mbind outcome_bind]. eexists. split; [reflexivity|].
  destruct bs as [|a [|b [|c [|d [|]]]]]; try (unfold zlen in Hbs; cbn in Hbs; lia).
  cbn [hex_loop]. destruct (hex_value a) as [da|] eqn:Ea; [|lia]. apply hex_value_range in Ea.
  destruct (hex_value b) as [db|] eqn:Eb; [|lia]. apply hex_value_range in Eb.
  destruct (hex_value c) as [dc|] eqn:Ec; [|lia]. apply hex_value_range in Ec.
  destruct (hex_value d) as [dd|] eqn:Ed; [|lia]. apply hex_value_range in Ed.
  rewrite !Z.shiftl_mul_pow2 by lia. lia.
Qed.

Lemma land_byte_mask a m : 0 <= m < 256 -> is_byte (a .& m).
Proof.
  intros Hm. unfold is_byte. change 256 with (2 ^ 8). apply in_u_bits; [lia| |].
  - apply Z.land_nonneg. lia.
  - intros i Hi. rewrite Z.land_spec, (testbit_high 8 m) by (done || lia). apply andb_false_r.
Qed.

Lemma utf8_tail_spec n c acc :
  zlen (utf8_tail n c acc).2 = Z.of_nat n + zlen acc /\
  (bytes acc -> bytes (utf8_tail n c acc).2).
Proof.
  revert c acc. induction n as [|n IH]; intros c acc; cbn [utf8_tail]; [cbn; split; [lia|done]|].
  destruct (IH (c ≫ 6) (((c .| 0x80) .& 0xBF) :: acc)) as [Hl Hb]. rewrite zlen_cons in Hl.
  split; [lia|]. intros Ha. apply Hb. constructor; [apply land_byte_mask; lia|done].
Qed.

Lemma utf8_encode_spec c bs :
  utf8_encode c = Some bs ->
  bytes bs /\ 1 <= zlen bs <= 4 /\ (c < 0x10000 -> zlen bs <= 3).
Proof.
  unfold utf8_encode. destruct (Z.ltb_spec c 0x80).
  { intros [= <-]. split; [repeat constructor; apply land_byte_mask; lia|]. unfold zlen; cbn. lia. }
  assert (forall n mark, (let '(c', tail) := utf8_tail n c [] in
     Some (((c' .| mark) .& 0xFF) :: tail)) = Some bs -> bytes bs /\ zlen bs = Z.of_nat n + 1) as He.
  { intros n mark. destruct (utf8_tail_spec n c []) as [Hl Hb].
    destruct (utf8_tail n c []) as [c' tail]. cbn [snd] in Hl, Hb. rewrite zlen_nil in Hl. intros [= <-].
    rewrite zlen_cons. split; [|lia]. constructor; [apply land_byte_mask; lia|].
    apply Hb. constructor. }
  destruct (Z.ltb_spec c 0x800); [intros [Hb Hl]%He; split_and!; [done|lia..]|].
  destruct (Z.ltb_spec c 0x10000); [intros [Hb Hl]%He; split_and!; [done|lia..]|].
  destruct (Z.leb_spec c 0x10FFFF); [|done]. intros [Hb Hl]%He. split_and!; [done|lia..].
Qed.

Lemma utf16_literal_spec s p e :
  0 <= p -> e <= zlen s ->
  exists r, utf16_literal_to_utf8 s p e = Ret r /\
    forall bs n, r = Some (bs, n) -> bytes bs /\
      ((n = 6 /\ 6 <= e - p /\ zlen bs <= 3) \/ (n = 12 /\ 12 <= e - p /\ zlen bs <= 4)).
Proof.
  intros Hp He. unfold utf16_literal_to_utf8. destruct (Z.ltb_spec (e - p) 6); [by eexists|].
  destruct (parse_hex4_range s (p + 2)) as (f & -> & Hf); [lia..|]. cbn [mbind outcome_bind].
  destruct (_ && _)%bool; [by eexists|]. destruct (_ && _)%bool.
  - destruct (Z.ltb_spec (e - (p + 6)) 6); [by eexists|].
    destruct (byte_at_inside s (p + 6)) as [b0 ->]; [lia|].
    destruct (byte_at_inside s (p + 7)) as [b1 ->]; [lia|]. cbn [mbind outcome_bind].
    destruct (_ || _)%bool; [by eexists|].
    destruct (parse_hex4_range s (p + 8)) as (g & -> & Hg); [lia..|]. cbn [mbind outcome_bind].
    destruct (_ || _)%bool; [by eexists|]. eexists. split; [reflexivity|]. intros bs n.
    destruct (utf8_encode _) as [l|] eqn:E; [|done]. intros [= <- <-].
    apply utf8_encode_spec in E as (Hb & Hl & _). split; [done|]. right. lia.
  - eexists. split; [reflexivity|]. intros bs n.
    destruct (utf8_encode f) as [l|] eqn:E; [|done]. intros [= <- <-].
    apply utf8_encode_spec in E as (Hb & Hl & Hl3). split; [done|]. left. specialize (Hl3 ltac:(lia)). lia.
Qed.

Lemma bytes_byte_at s p b : bytes s -> byte_at s p = Ret b -> is_byte b.
Proof.
  unfold byte_at. intros Hs. destruct (p <? 0); [done|].
  destruct (s !! Z.to_nat p) as [x|] eqn:E; [|done]. intros [= <-].
  eapply Forall_lookup_1; [exact Hs|exact E].
Qed.

(** The loop over a literal: total, and its output fits the size computed for
    what is left of it. *)
Lemma unescape_spec s e fuel p out :
  bytes s -> bytes out -> 0 <= p -> e < zlen s -> e - p <= Z.of_nat fuel ->
  exists r, unescape fuel s p e out = Ret r /\
    forall out', r = Some out' -> bytes out' /\ zlen out' <= zlen out + esc_size (slice s p e).
Proof.
  intros Hs. revert p out. induction fuel as [|fuel IH]; intros p out Hout Hp He Hf;
    cbn [unescape]; destruct (Z.leb_spec e p) as [Hd|Hd]; try lia.
  1, 2: eexists; split; [reflexivity|]; intros out' [= <-]; split; [done|];
    pose proof (esc_size_nonneg (slice s p e)); lia.
  destruct (byte_at_inside s p) as [b Hb]; [lia|]. rewrite Hb. cbn [mbind outcome_bind].
  pose proof (slice_cons s p e b ltac:(lia) Hb) as Hsl.
  pose proof (bytes_byte_at s p b Hs Hb) as Hbb.
  destruct (Z.eqb_spec b 92) as [->|Hne]; cbn [negb].
  2: { destruct (IH (p + 1) (out ++ [b])) as (r & -> & Hr); [|lia..|].
       { apply Forall_app. split; [done|by apply Forall_singleton]. }
       eexists. split; [reflexivity|]. intros out' Ho. destruct (Hr out' Ho) as [Hbo Hl].
       split; [done|]. rewrite Hsl. cbn [esc_size]. destruct (Z.eqb_spec b 92); [done|].
       rewrite zlen_app in Hl. unfold zlen in *. cbn [length] in Hl. lia. }
  destruct (byte_at_inside s (p + 1)) as [c Hc]; [lia|]. rewrite Hc. cbn [mbind outcome_bind].
  pose proof (bytes_byte_at s (p + 1) c Hs Hc) as Hcb.
  assert (forall x, is_byte x -> exists r, unescape fuel s (p + 2) e (out ++ [x]) = Ret r /\
    forall out', r = Some out' -> bytes out' /\ zlen out' <= zlen out + esc_size (slice s p e)) as Hput.
  { intros x Hx. destruct (IH (p + 2) (out ++ [x])) as (r & -> & Hr); [|lia..|].
    { apply Forall_app. split; [done|by apply Forall_singleton]. }
    eexists. split; [reflexivity|]. intros out' Ho. destruct (Hr out' Ho) as [Hbo Hl].
    split; [done|]. pose proof (esc_size_two (slice s p e)) as H2.
    change 2%nat with (Z.to_nat 2) in H2. rewrite (slice_drop s p e 2 ltac:(lia) ltac:(lia)) in H2.
    rewrite Hsl in H2 at 1. specialize (H2 ltac:(done)).
    rewrite zlen_app in Hl. unfold zlen in *. cbn [length] in Hl. lia. }
  do 5 (destruct (c =? _); [by apply Hput|]).
  destruct (_ || _)%bool; [by apply Hput|]. destruct (c =? 117); [|by eexists].
  destruct (utf16_literal_spec s p e) as (u & -> & Hu); [lia..|]. cbn [mbind outcome_bind].
  destruct u as [[bs n]|]; [|by eexists]. destruct (Hu bs n eq_refl) as [Hbs Hn].
  destruct (IH (p + n) (out ++ bs)) as (r & -> & Hr); [by apply Forall_app|lia..|].
  eexists. split; [reflexivity|]. intros out' Ho. destruct (Hr out' Ho) as [Hbo Hl].
  split; [done|]. rewrite zlen_app in Hl.
  pose proof (slice_len s p e ltac:(lia) ltac:(lia)) as Hsz. unfold zlen in Hsz.
  destruct Hn as [(-> & Hn & Hbl)|(-> & Hn & Hbl)].
  - pose proof (esc_size_skip 3 (slice s p e) ltac:(lia)) as H3.
    change (2 * 3)%nat with (Z.to_nat 6) in H3. rewrite slice_drop in H3 by lia. lia.
  - pose proof (esc_size_skip 6 (slice s p e) ltac:(lia)) as H3.
    change (2 * 6)%nat with (Z.to_nat 12) in H3. rewrite slice_drop in H3 by lia. lia.
Qed.

Lemma c_string_bytes s : bytes s -> bytes (c_string s).
Proof.
  induction 1 as [|b s Hb Hs IH]; cbn; [constructor|]. destruct (b =? 0); [constructor|].
  by constructor.
Qed.

Lemma parse_string_spec s off :
  bytes s -> 0 <= off < zlen s ->
  exists r, parse_string s off = Ret r /\
    forall str off', r = Some (str, off') -> bytes str /\ off + 1 < off' <= zlen s.
Proof.
  intros Hs Hoff. unfold parse_string.
  destruct (byte_at_inside s off) as [b ->]; [lia|]. cbn [mbind outcome_bind].
  destruct (negb (b =? 34)); [by eexists|].
  destruct (string_end _ _ _) as [[e k]|] eqn:Ee; [|by eexists].
  apply string_end_spec in Ee as [Hr Hsz]. rewrite zlen_drop in Hr.
  destruct (unescape_spec s e (length s) (off + 1) [] Hs ltac:(constructor)) as (r & -> & Hu);
    [lia|lia|unfold zlen in *; lia|]. cbn [mbind outcome_bind].
  destruct r as [out|]; [|by eexists]. destruct (Hu out eq_refl) as [Hb Hl].
  rewrite zlen_nil in Hl. unfold slice in Hl. rewrite <- Hsz in Hl.
  destruct (Z.leb_spec (zlen out + 1) (e - off - k + 1)); [|lia].
  eexists. split; [reflexivity|]. intros str off' [= <- <-].
  split; [by apply c_string_bytes|lia].
Qed.

(** ** Values *)

Section Total.
Context (s : list Z) (Hs : bytes s).

(** A parser result: inside the buffer, beyond the start, and of byte strings. *)
Definition in_buffer {A} (off : Z) (ok : A -> Prop) (r : option (A * Z)) : Prop :=
  forall a off', r = Some (a, off') -> off < off' <= zlen s /\ ok a.

Definition value_total (fuel : nat) : Prop := forall off depth,
  0 <= off <= zlen s -> 2 * (zlen s - off) + 1 <= Z.of_nat fuel ->
  exists r, parse_value fuel s off depth = Ret r /\ in_buffer off tree_bytes r.

Definition elements_total (fuel : nat) : Prop := forall off depth,
  0 <= off < zlen s -> 2 * (zlen s - off) <= Z.of_nat fuel ->
  exists r, parse_elements fuel s off depth = Ret r /\
    in_buffer off (fun l => Forall id (tree_bytes <$> l)) r.

Definition members_total (fuel : nat) : Prop := forall off depth,
  0 <= off < zlen s -> 2 * (zlen s - off) <= Z.of_nat fuel ->
  exists r, parse_members fuel s off depth = Ret r /\
    in_buffer off (fun l => Forall id ((fun kv => bytes kv.1 /\ tree_bytes kv.2) <$> l)) r.

Lemma in_buffer_cons {A} off off1 (P : A -> Prop) (a : A) r :
  P a -> off <= off1 ->
  in_buffer off1 (fun l => Forall id (P <$> l)) r ->
  in_buffer off (fun l => Forall id (P <$> l)) (cons_item a r).
Proof using.
  intros Ha Ho Hr l off'. destruct r as [[l' o]|]; [|done]. cbn.
  intros [= <- <-]. destruct (Hr l' o eq_refl) as [Hb Hl]. split; [lia|].
  by constructor.
Qed.

Lemma parse_elements_step fuel :
  value_total fuel -> elements_total fuel -> elements_total (S fuel).
Proof using.
  intros HV HE off depth Hoff Hf. cbn [parse_elements].
  destruct (buffer_skip_bounds s (off + 1)) as [H1 _]; [lia|].
  destruct (HV (buffer_skip_whitespace s (off + 1)) depth) as (r & -> & Hr); [lia..|].
  cbn [mbind outcome_bind]. destruct r as [[item off1]|]; [|by eexists].
  destruct (Hr item off1 eq_refl) as [Ho1 Hi].
  destruct (buffer_skip_bounds s off1) as [H2 _]; [lia|].
  set (off2 := buffer_skip_whitespace s off1) in *.
  destruct (next_is_defined s off2 44) as (comma & -> & Hc); [lia|]. cbn [mbind outcome_bind].
  destruct comma.
  - destruct (HE off2 depth) as (r2 & -> & Hr2); [split; [lia|by apply Hc]|lia|].
    cbn [mbind outcome_bind]. eexists. split; [reflexivity|].
    apply (in_buffer_cons off off2 tree_bytes item r2 Hi); [lia|done].
  - eexists. split; [reflexivity|]. intros l off' [= <- <-]. split; [lia|]. by repeat constructor.
Qed.

Lemma parse_members_step fuel :
  value_total fuel -> members_total fuel -> members_total (S fuel).
Proof using Hs.
  intros HV HM off depth Hoff Hf. cbn [parse_members]. unfold can_access.
  destruct (Z.ltb_spec (off + 1) (zlen s)); cbn [negb]; [|by eexists].
  destruct (buffer_skip_bounds s (off + 1)) as [H1 H1']; [lia|]. specialize (H1' ltac:(lia)).
  destruct (parse_string_spec s (buffer_skip_whitespace s (off + 1)) Hs) as (k & -> & Hk); [lia|].
  cbn [mbind outcome_bind]. destruct k as [[key off1]|]; [|by eexists].
  destruct (Hk key off1 eq_refl) as [Hkb Ho1].
  destruct (buffer_skip_bounds s off1) as [H2 _]; [lia|].
  set (off2 := buffer_skip_whitespace s off1) in *.
  destruct (next_is_defined s off2 58) as (colon & -> & Hc); [lia|]. cbn [mbind outcome_bind].
  destruct colon; cbn [negb]; [|by eexists]. specialize (Hc eq_refl).
  destruct (buffer_skip_bounds s (off2 + 1)) as [H3 _]; [lia|].
  destruct (HV (buffer_skip_whitespace s (off2 + 1)) depth) as (r & -> & Hr); [lia..|].
  cbn [mbind outcome_bind]. destruct r as [[item off3]|]; [|by eexists].
  destruct (Hr item off3 eq_refl) as [Ho3 Hi].
  destruct (buffer_skip_bounds s off3) as [H4 _]; [lia|].
  set (off4 := buffer_skip_whitespace s off3) in *.
  destruct (next_is_defined s off4 44) as (comma & -> & Hcm); [lia|]. cbn [mbind outcome_bind].
  destruct comma.
  - destruct (HM off4 depth) as (r2 & -> & Hr2); [split; [lia|by apply Hcm]|lia|].
    cbn [mbind outcome_bind]. eexists. split; [reflexivity|].
    apply (in_buffer_cons off off4 (fun kv => bytes kv.1 /\ tree_bytes kv.2) (key, item) r2);
      [done|lia|done].
  - eexists. split; [reflexivity|]. intros l off' [= <- <-]. split; [lia|]. by repeat constructor.
Qed.

(** A literal of the grammar. *)
Lemma literal_total {A} off lit (j : A) (ok : A -> Prop) k :
  0 <= off -> 0 < zlen lit -> ok j ->
  (exists r, k = Ret r /\ in_buffer off ok r) ->
  exists r, (b ← next_lit s off lit;
             if b : bool then Ret (Some (j, off + zlen lit)) else k) = Ret r /\
    in_buffer off ok r.
Proof using.
  intros Hoff Hl Hok Hk. destruct (next_lit_defined s off lit Hoff) as (b & -> & Hb).
  cbn [mbind outcome_bind]. destruct b; [|done].
  eexists. split; [reflexivity|]. intros a off' [= <- <-]. split; [|done]. specialize (Hb eq_refl). lia.
Qed.

(** An array or object after its opening bracket. *)
Lemma bracket_total {A B} off close (empty : B) (build : A -> B) (ok : A -> Prop) (okb : B -> Prop)
    (loop : Z -> outcome (option (A * Z))) :
  0 <= off < zlen s -> okb empty -> (forall a, ok a -> okb (build a)) ->
  (forall o, off <= o < zlen s -> exists r, loop o = Ret r /\ in_buffer o ok r) ->
  exists r,
    (let off := buffer_skip_whitespace s (off + 1) in
     e ← next_is s off close;
     if e : bool then Ret (Some (empty, off + 1))
     else if negb (can_access s off) then Ret None
     else
       r ← loop (off - 1);
       match r with
       | None => Ret None
       | Some (items, off) =>
           closed ← next_is s off close;
           Ret (if closed : bool then Some (build items, off + 1) else None)
       end) = Ret r /\ in_buffer off okb r.
Proof using.
  intros Hoff He Hb Hloop. destruct (buffer_skip_bounds s (off + 1)) as [H1 _]; [lia|].
  cbn zeta. set (off1 := buffer_skip_whitespace s (off + 1)) in *.
  destruct (next_is_defined s off1 close) as (e & -> & Hc); [lia|]. cbn [mbind outcome_bind].
  destruct e.
  { eexists. split; [reflexivity|]. intros a o [= <- <-]. specialize (Hc eq_refl). split; [lia|done]. }
  unfold can_access. destruct (Z.ltb_spec off1 (zlen s)); cbn [negb]; [|by eexists].
  destruct (Hloop (off1 - 1)) as (r & -> & Hr); [lia|]. cbn [mbind outcome_bind].
  destruct r as [[items off2]|]; [|by eexists]. destruct (Hr items off2 eq_refl) as [Ho Hok].
  destruct (next_is_defined s off2 close) as (cl & -> & Hcl); [lia|]. cbn [mbind outcome_bind].
  eexists. split; [reflexivity|]. destruct cl; [|done]. intros a o [= <- <-].
  specialize (Hcl eq_refl). split; [lia|by apply Hb].
Qed.

Lemma parse_value_step fuel :
  elements_total fuel -> members_total fuel -> value_total (S fuel).
Proof using Hs.
  intros HE HM off depth Hoff Hf. cbn [parse_value].
  apply (literal_total off (bstr "null") JNull); [lia|by vm_compute|done|].
  apply (literal_total off (bstr "false") (JBool false)); [lia|by vm_compute|done|].
  apply (literal_total off (bstr "true") (JBool true)); [lia|by vm_compute|done|].
  unfold can_access at 1. destruct (Z.ltb_spec off (zlen s)); cbn [negb]; [|by eexists].
  destruct (byte_at_inside s off) as [b ->]; [lia|]. cbn [mbind outcome_bind].
  destruct (b =? 34).
  { destruct (parse_string_spec s off Hs) as (r & -> & Hr); [lia|]. cbn [mbind outcome_bind].
    eexists. split; [reflexivity|]. destruct r as [[str o]|]; [|done]. intros a o' [= <- <-].
    destruct (Hr str o eq_refl). split; [lia|done]. }
  destruct (_ || _)%bool.
  { eexists. split; [reflexivity|]. intros a o' Hp. apply parse_number_bounds in Hp; [|lia]. done. }
  destruct (b =? 91).
  { destruct (CJSON_NESTING_LIMIT <=? depth); [by eexists|].
    apply (bracket_total off 93 (JArray []) JArray (fun l => Forall id (tree_bytes <$> l)) tree_bytes
      (fun o => parse_elements fuel s o (depth + 1))); [lia|constructor|done|].
    intros o Ho. apply HE; lia. }
  destruct (b =? 123); [|by eexists]. destruct (CJSON_NESTING_LIMIT <=? depth); [by eexists|].
  apply (bracket_total off 125 (JObject []) JObject
    (fun l => Forall id ((fun kv => bytes kv.1 /\ tree_bytes kv.2) <$> l)) tree_bytes
    (fun o => parse_members fuel s o (depth + 1))); [lia|constructor|done|].
  intros o Ho. apply HM; lia.
Qed.

Lemma parse_total fuel : value_total fuel /\ elements_total fuel /\ members_total fuel.
Proof using Hs.
  induction fuel as [|fuel (HV & HE & HM)].
  - split_and!; intros off depth Hoff Hf; lia.
  - split_and!; [by apply parse_value_step|by apply parse_elements_step|by apply parse_members_step].
Qed.

Lemma skip_utf8_bom_total : exists off, skip_utf8_bom s = Ret off /\ 0 <= off <= zlen s.
Proof using.
  unfold skip_utf8_bom, can_access. pose proof (zlen_nonneg s).
  destruct (Z.ltb_spec 4 (zlen s)); [|by exists 0].
  destruct (read_at_inside s 0 3) as (bs & -> & _); [lia..|]. cbn [mbind outcome_bind].
  eexists. split; [reflexivity|]. destruct (bool_decide _); lia.
Qed.

Lemma parse_defined : exists r, cJSON_ParseWithLength s = Ret r /\ forall j, r = Some j -> tree_bytes j.
Proof using Hs.
  unfold cJSON_ParseWithLength. destruct (zlen s =? 0); [by eexists|].
  destruct skip_utf8_bom_total as (o & -> & Ho). cbn [mbind outcome_bind].
  destruct (buffer_skip_bounds s o Ho) as [Hb _].
  destruct (proj1 (parse_total (parse_fuel s)) (buffer_skip_whitespace s o) 0) as (r & -> & Hr);
    [lia|unfold parse_fuel, zlen in *; lia|].
  cbn [mbind outcome_bind]. eexists. split; [reflexivity|].
  destruct r as [[j o']|]; [|done]. intros j' [= <-]. apply (Hr j o' eq_refl).
Qed.

End Total.

(** C13: parsing untrusted bytes is safe and terminates.  On every byte string,
    well-formed or not, [cJSON_ParseWithLength] returns a tree or NULL within two
    units of fuel per character; it never reads outside the given length, no
    string overflows the buffer allocated for it, and the names and strings of
    the tree are byte strings. *)
Theorem parse_safe s :
  bytes s ->
  exists r, cJSON_ParseWithLength s = Ret r /\ forall j, r = Some j -> tree_bytes j.
Proof. apply parse_defined. Qed.

Lemma parse_safe_witness :
  exists r, cJSON_ParseWithLength (bstr "{" ++ [34; 92; 117; 48; 48; 48; 92; 92; 34] ++ bstr ":1}")
      = Ret r /\ forall j, r = Some j -> tree_bytes j.
Proof. apply parse_safe. apply (bool_decide_unpack _). vm_compute. exact I. Defined.

End CjsonParse.
