(* ===== verification/CjsonRoundtrip.v ===== *)
(** * Printing then parsing returns the tree (gateway/src/cJSON.c)

    For unformatted text and trees whose strings have no NUL and whose numbers
    survive their own textual form; all 32-bit integers do. *)
From Stdlib Require Import Floats.SpecFloat.
From S2P Require Import Prelude Number Cjson CjsonPrint CjsonParse.
Import Number Cjson CjsonPrint CjsonParse.
Open Scope c_scope.

Module CjsonRoundtrip.

(** ** Reading behind a known prefix *)

Lemma byte_at_cursor pre b rest : byte_at (pre ++ b :: rest) (zlen pre) = Ret b.
Proof. rewrite (byte_at_app pre (b :: rest) 0) by lia. done. Qed.

Lemma next_is_cursor pre b rest c : next_is (pre ++ b :: rest) (zlen pre) c = Ret (b =? c).
Proof.
  unfold next_is, can_access. rewrite zlen_app, zlen_cons. pose proof (zlen_nonneg rest).
  destruct (Z.ltb_spec (zlen pre) (zlen pre + (1 + zlen rest))); [|lia].
  by rewrite byte_at_cursor.
Qed.

Lemma next_is_end s c : next_is s (zlen s) c = Ret false.
Proof. unfold next_is, can_access. by rewrite Z.ltb_irrefl. Qed.

Lemma next_lit_yes pre lit tail : next_lit (pre ++ lit ++ tail) (zlen pre) lit = Ret true.
Proof.
  unfold next_lit. rewrite !zlen_app. pose proof (zlen_nonneg tail).
  destruct (Z.leb_spec (zlen pre + zlen lit) (zlen pre + (zlen lit + zlen tail))); [|lia].
  rewrite read_at_mid by done. cbn [mbind outcome_bind]. by rewrite bool_decide_eq_true_2.
Qed.

Lemma next_lit_no pre b rest c lit :
  b <> c -> next_lit (pre ++ b :: rest) (zlen pre) (c :: lit) = Ret false.
Proof.
  intros Hbc. unfold next_lit. destruct (_ <=? _) eqn:E; [|done]. bool_prop.
  unfold read_at. pose proof (zlen_nonneg pre). pose proof (zlen_nonneg (c :: lit)).
  destruct (Z.leb_spec 0 (zlen pre)); [|lia]. destruct (Z.leb_spec 0 (zlen (c :: lit))); [|lia].
  destruct (Z.leb_spec (zlen pre + zlen (c :: lit)) (zlen (pre ++ b :: rest))); [|lia].
  cbn [andb mbind outcome_bind]. rewrite !zlen_length, drop_app_length. cbn [length firstn].
  by rewrite bool_decide_eq_false_2 by congruence.
Qed.

Lemma skip_none pre b rest :
  32 < b -> buffer_skip_whitespace (pre ++ b :: rest) (zlen pre) = zlen pre.
Proof.
  intros Hb. unfold buffer_skip_whitespace, can_access. rewrite zlen_app, zlen_cons.
  pose proof (zlen_nonneg rest).
  destruct (Z.ltb_spec (zlen pre) (zlen pre + (1 + zlen rest))); [|lia]. cbn [negb].
  rewrite zlen_length, drop_app_length. cbn [skip_ws]. destruct (Z.leb_spec b 32); [lia|].
  destruct (Z.eqb_spec (zlen pre) (zlen pre + (1 + zlen rest))); [lia|done].
Qed.

Lemma skip_end s : buffer_skip_whitespace s (zlen s) = zlen s.
Proof. unfold buffer_skip_whitespace, can_access. by rewrite Z.ltb_irrefl. Qed.

(** ** Strings *)

(** The bytes that print as [\u00XX]. *)
Definition control_ok (b : Z) : bool :=
  (hex_loop [48; 48; hex_char (b / 16); hex_char (b mod 16)] 0 =? b)
  && bool_decide (utf8_encode b = Some [b])
  && negb (hex_char (b / 16) =? 34) && negb (hex_char (b / 16) =? 92)
  && negb (hex_char (b mod 16) =? 34) && negb (hex_char (b mod 16) =? 92).

Lemma control_escape b : 0 < b < 32 -> control_ok b = true.
Proof.
  intros Hb. assert (Forall (fun z => control_ok z = true) (seqZ 1 31)) as Hall.
  { apply (bool_decide_unpack _). by vm_compute. }
  rewrite Forall_forall in Hall. apply Hall, elem_of_seqZ. lia.
Qed.

(** The shapes of an escaped byte. *)
Lemma escape_cases b :
  0 < b < 256 ->
  (escape b = [b] /\ b <> 34 /\ b <> 92) \/
  (exists c, escape b = [92; c] /\
     forall (put : Z -> outcome (option (list Z))) (u : outcome (option (list Z))),
     (if c =? 98 then put 8 else if c =? 102 then put 12 else if c =? 110 then put 10
      else if c =? 114 then put 13 else if c =? 116 then put 9
      else if ((c =? 34) || (c =? 92) || (c =? 47))%bool then put c
      else if c =? 117 then u else Ret None) = put b) \/
  (escape b = 92 :: u04x b /\ control_ok b = true).
Proof.
  intros Hb. unfold escape. destruct (Z.ltb_spec 31 b); cbn [andb].
  - destruct (Z.eqb_spec b 34) as [->|]; cbn [negb andb]; [right; left; by exists 34|].
    destruct (Z.eqb_spec b 92) as [->|]; cbn [negb andb]; [right; left; by exists 92|].
    left. done.
  - right. unfold short_escape.
    destruct (Z.eqb_spec b 34); [lia|]. destruct (Z.eqb_spec b 92); [lia|].
    destruct (Z.eqb_spec b 8) as [->|]; [left; by exists 98|].
    destruct (Z.eqb_spec b 12) as [->|]; [left; by exists 102|].
    destruct (Z.eqb_spec b 10) as [->|]; [left; by exists 110|].
    destruct (Z.eqb_spec b 13) as [->|]; [left; by exists 114|].
    destruct (Z.eqb_spec b 9) as [->|]; [left; by exists 116|].
    right. split; [done|]. apply control_escape. lia.
Qed.

Lemma string_end_escaped str tail pos k :
  textual str ->
  exists k', string_end (flat_map escape str ++ 34 :: tail) pos k
    = Some (pos + zlen (flat_map escape str), k').
Proof.
  intros Hs. revert pos k. induction Hs as [|b str Hb Hs IH]; intros pos k; cbn [flat_map].
  { exists k. cbn [app string_end]. by rewrite Z.eqb_refl, zlen_nil, Z.add_0_r. }
  rewrite <- app_assoc, zlen_app.
  destruct (escape_cases b Hb) as [(-> & H1 & H2)|[(c & -> & _)|(-> & Hc)]].
  - cbn [app string_end]. destruct (Z.eqb_spec b 34); [done|]. destruct (Z.eqb_spec b 92); [done|].
    destruct (IH (pos + 1) k) as [k' ->]. exists k'. do 2 f_equal. unfold zlen. cbn. lia.
  - cbn [app string_end Z.eqb Pos.eqb].
    destruct (IH (pos + 2) (k + 1)) as [k' ->]. exists k'. do 2 f_equal. unfold zlen. cbn. lia.
  - unfold control_ok in Hc. bool_prop. unfold u04x.
    set (h1 := hex_char (b / 16)) in *. set (h2 := hex_char (b mod 16)) in *.
    cbn [app string_end Z.eqb Pos.eqb].
    destruct (Z.eqb_spec h1 34); [done|]. destruct (Z.eqb_spec h1 92); [done|].
    destruct (Z.eqb_spec h2 34); [done|]. destruct (Z.eqb_spec h2 92); [done|].
    destruct (IH (pos + 2 + 1 + 1 + 1 + 1) (k + 1)) as [k' ->]. exists k'. do 2 f_equal.
    unfold zlen. cbn. lia.
Qed.

(** One escape of the form [\u00XX] read back. *)
Lemma utf16_literal_escaped pre b rest e :
  control_ok b = true -> 0 < b < 32 -> zlen pre + 6 <= e ->
  utf16_literal_to_utf8 (pre ++ (92 :: u04x b) ++ rest) (zlen pre) e = Ret (Some ([b], 6)).
Proof.
  intros Hc Hb He. unfold utf16_literal_to_utf8. destruct (Z.ltb_spec (e - zlen pre) 6); [lia|].
  unfold parse_hex4, u04x. unfold control_ok in Hc. bool_prop.
  rewrite (read_at_segment _ (zlen pre + 2) 4 (pre ++ [92; 117])
    [48; 48; hex_char (b / 16); hex_char (b mod 16)] rest);
    [|by rewrite <- app_assoc|by rewrite zlen_app|done].
  cbn [mbind outcome_bind].
  match goal with H : hex_loop _ 0 = b |- _ => rewrite H end.
  destruct (Z.leb_spec 0xDC00 b); [lia|]. destruct (Z.leb_spec 0xD800 b); [lia|]. cbn [andb].
  match goal with H : bool_decide _ = true |- _ => apply bool_decide_eq_true_1 in H; rewrite H end.
  done.
Qed.

Lemma unescape_escaped str fuel pre tail out e :
  textual str ->
  e = zlen pre + zlen (flat_map escape str) -> e - zlen pre <= Z.of_nat fuel ->
  unescape fuel (pre ++ flat_map escape str ++ 34 :: tail) (zlen pre) e out = Ret (Some (out ++ str)).
Proof.
  intros Hs. revert fuel pre out. induction Hs as [|b str Hb Hs IH]; intros fuel pre out He Hf.
  { cbn [flat_map] in He. rewrite zlen_nil in He. destruct fuel; cbn [unescape];
      (destruct (Z.leb_spec e (zlen pre)); [by rewrite app_nil_r|lia]). }
  cbn [flat_map] in *. rewrite zlen_app in He. pose proof (zlen_nonneg (flat_map escape str)).
  pose proof (escape_len b) as Hel. pose proof (escape_count_nonneg b).
  destruct fuel as [|fuel]; [lia|]. cbn [unescape].
  destruct (Z.leb_spec e (zlen pre)); [lia|].
  destruct (escape_cases b Hb) as [(Eb & Hb1 & Hb2)|[(c & Eb & Hput)|(Eb & Hc)]];
    rewrite Eb, <- app_assoc in *.
  - cbn [app]. rewrite byte_at_cursor. cbn [mbind outcome_bind].
    destruct (Z.eqb_spec b 92); [done|]. cbn [negb].
    specialize (IH fuel (pre ++ [b]) (out ++ [b])). rewrite zlen_app in IH.
    rewrite <- !app_assoc in IH. cbn [app] in IH. change (zlen [b]) with 1 in *. apply IH; lia.
  - cbn [app]. rewrite byte_at_cursor. cbn [mbind outcome_bind].
    change (negb (92 =? 92)) with false. cbv iota.
    rewrite (byte_at_app pre _ 1) by lia.
    change (byte_at (92 :: c :: flat_map escape str ++ 34 :: tail) 1) with (Ret c).
    cbn [mbind outcome_bind]. etransitivity; [apply (Hput (fun x => unescape fuel
      (pre ++ 92 :: c :: flat_map escape str ++ 34 :: tail) (zlen pre + 2) e (out ++ [x])))|].
    specialize (IH fuel (pre ++ [92; c]) (out ++ [b])). rewrite zlen_app in IH.
    rewrite <- !app_assoc in IH. cbn [app] in IH. change (zlen [92; c]) with 2 in *. apply IH; lia.
  - assert (0 < b < 32) as Hb'.
    { unfold escape in Eb. destruct (Z.ltb_spec 31 b); [|lia]. exfalso.
      destruct (Z.eqb_spec b 34) as [->|]; [done|]. destruct (Z.eqb_spec b 92) as [->|]; done. }
    change (zlen (92 :: u04x b)) with 6 in *.
    pose proof (utf16_literal_escaped pre b (flat_map escape str ++ 34 :: tail) e Hc Hb' ltac:(lia)) as Hu.
    cbn [app] in Hu |- *. rewrite byte_at_cursor. cbn [mbind outcome_bind].
    change (negb (92 =? 92)) with false. cbv iota.
    rewrite (byte_at_app pre _ 1) by lia.
    change (byte_at (92 :: u04x b ++ flat_map escape str ++ 34 :: tail) 1) with (Ret 117).
    cbn [mbind outcome_bind Z.eqb Pos.eqb orb]. rewrite Hu. cbn [mbind outcome_bind].
    specialize (IH fuel (pre ++ 92 :: u04x b) (out ++ [b])). rewrite zlen_app in IH.
    change (zlen (92 :: u04x b)) with 6 in IH.
    rewrite <- !app_assoc in IH. cbn [app] in IH. apply IH; lia.
Qed.

Lemma parse_string_printed pre str tail :
  bytes (pre ++ quoted str ++ tail) -> textual str ->
  parse_string (pre ++ quoted str ++ tail) (zlen pre)
  = Ret (Some (str, zlen pre + zlen (quoted str))).
Proof.
  intros Hs Hstr. assert (c_string str = str) as Hcs.
  { by apply c_string_id, textual_nonzero. }
  destruct (parse_string_spec (pre ++ quoted str ++ tail) (zlen pre) Hs) as (r & Hr & _).
  { unfold quoted. rewrite !zlen_app. pose proof (zlen_nonneg pre). pose proof (zlen_nonneg tail).
    pose proof (zlen_nonneg (flat_map escape (c_string str))). unfold zlen in *. cbn [length]. lia. }
  revert Hr. unfold quoted. rewrite Hcs. rewrite <- !app_assoc. cbn [app].
  set (body := flat_map escape str). unfold parse_string. rewrite byte_at_cursor.
  cbn [mbind outcome_bind]. change (negb (34 =? 34)) with false. cbv iota.
  replace (Z.to_nat (zlen pre + 1)) with (length (pre ++ [34])).
  2: { rewrite length_app. unfold zlen. cbn. lia. }
  replace (pre ++ 34 :: body ++ 34 :: tail) with ((pre ++ [34]) ++ body ++ 34 :: tail)
    by (by rewrite <- app_assoc).
  rewrite drop_app_length.
  destruct (string_end_escaped str tail (zlen pre + 1) 0 Hstr) as [k Hk]. fold body in Hk. rewrite Hk.
  assert (zlen (pre ++ [34]) = zlen pre + 1) as Hl by (rewrite zlen_app; done).
  rewrite <- Hl. subst body. rewrite unescape_escaped; [|done|done|].
  2: { rewrite !length_app. unfold zlen. cbn [length]. lia. }
  cbn [mbind outcome_bind app]. destruct (_ <=? _); [|done]. intros _.
  rewrite Hcs, Hl, zlen_cons, zlen_app. do 3 f_equal. change (zlen [34]) with 1. lia.
Qed.

(** ** Values *)

#[local] Instance spec_float_eq_dec : EqDecision spec_float.
Proof. solve_decision. Defined.

(** A number that its own text denotes. *)
Definition number_exact (d : spec_float) : bool :=
  forallb number_char (number_text d)
  && match number_text d with b :: _ => (b =? 45) || is_digit b | [] => false end
  && bool_decide (strtod (number_text d) = Some (d, zlen (number_text d))).

(** Trees that survive. *)
Fixpoint clean (item : json) : Prop :=
  match item with
  | JNumber d => number_exact d = true
  | JString s => textual s
  | JArray child => Forall id (clean <$> child)
  | JObject child => Forall id ((fun kv => textual kv.1 /\ clean kv.2) <$> child)
  | _ => True
  end.

(** What may follow a value: nothing, a comma or a closing bracket, or behind the
    whole document the terminator of the text. *)
Definition follows_ok (tail : list Z) : Prop :=
  match tail with [] => True | b :: _ => b = 44 \/ b = 93 \/ b = 125 end.

Definition tail_ok (tail : list Z) : Prop := follows_ok tail \/ head tail = Some 0.

Definition value_head (b : Z) : Prop :=
  b = 110 \/ b = 102 \/ b = 116 \/ b = 34 \/ b = 45 \/ 48 <= b <= 57 \/ b = 91 \/ b = 123.

Lemma number_head d :
  number_exact d = true -> exists b r, number_text d = b :: r /\ (b = 45 \/ 48 <= b <= 57).
Proof.
  unfold number_exact. intros H. bool_prop. destruct (number_text d) as [|b r]; [done|].
  exists b, r. split; [done|]. destruct (Z.eqb_spec b 45); [by left|]. right.
  match goal with H : (_ || _)%bool = true |- _ => cbn [orb] in H; unfold is_digit in H end.
  bool_prop. lia.
Qed.

Lemma render_head x d : clean x -> exists b r, render false d x = b :: r /\ value_head b.
Proof.
  unfold value_head. destruct x as [|[]|v|s|l|l]; cbn [render clean]; intros Hc.
  1, 2, 3: eexists _, _; split; [reflexivity|]; cbn; lia.
  - destruct (number_head v Hc) as (b & r & -> & Hb). eexists _, _. split; [reflexivity|]. lia.
  - eexists _, _. split; [reflexivity|]. lia.
  - eexists _, _. split; [reflexivity|]. lia.
  - eexists _, _. split; [reflexivity|]. lia.
Qed.

Lemma number_string_app t tail :
  forallb number_char t = true -> tail_ok tail -> number_string (t ++ tail) = t.
Proof.
  induction t as [|b t IH]; cbn; intros Ht Htail.
  - destruct tail as [|c tail]; [done|]. cbn in *.
    assert (number_char c = false) as ->; [|done]. destruct Htail as [[->|[->| ->]]|[= ->]]; done.
  - bool_prop. match goal with H : number_char b = true |- _ => rewrite H end. by rewrite IH.
Qed.

(** The parser at the first byte of a value that is not a literal. *)
Ltac at_value :=
  cbn [parse_value];
  change (bstr "null") with [110; 117; 108; 108];
  change (bstr "false") with [102; 97; 108; 115; 101];
  change (bstr "true") with [116; 114; 117; 101];
  rewrite (next_lit_no _ _ _ 110), (next_lit_no _ _ _ 102), (next_lit_no _ _ _ 116) by lia;
  cbn [mbind outcome_bind];
  match goal with |- context [can_access (?pre ++ ?b :: ?r) (zlen ?pre)] =>
    replace (can_access (pre ++ b :: r) (zlen pre)) with true
      by (symmetry; unfold can_access; rewrite zlen_app, zlen_cons; pose proof (zlen_nonneg r);
          apply Z.ltb_lt; lia)
  end; cbn [negb]; rewrite byte_at_cursor; cbn [mbind outcome_bind].

Definition value_printed (x : json) : Prop := forall pre tail d fuel,
  bytes (pre ++ render false d x ++ tail) -> clean x -> nested_ok d x = true -> tail_ok tail ->
  2 * (zlen (render false d x) + zlen tail) + 1 <= Z.of_nat fuel ->
  parse_value fuel (pre ++ render false d x ++ tail) (zlen pre) d
  = Ret (Some (x, zlen pre + zlen (render false d x))).

Lemma number_printed v : value_printed (JNumber v).
Proof.
  intros pre tail d [|fuel] Hs Hc _ Htail Hf; [pose proof (zlen_nonneg (render false d (JNumber v)));
    pose proof (zlen_nonneg tail); lia|].
  cbn [render clean] in *. destruct (number_head v Hc) as (b & r & Ht & Hb).
  assert (parse_number (pre ++ number_text v ++ tail) (zlen pre)
    = Some (JNumber v, zlen pre + zlen (number_text v))) as Hp.
  { unfold parse_number. rewrite zlen_length, drop_app_length. unfold number_exact in Hc. bool_prop.
    rewrite number_string_app by done.
    match goal with H : bool_decide _ = true |- _ => apply bool_decide_eq_true_1 in H; rewrite H end.
    done. }
  rewrite <- Hp, Ht. cbn [app]. at_value.
  destruct (Z.eqb_spec b 34); [lia|].
  replace ((b =? 45) || (48 <=? b) && (b <=? 57))%bool with true; [done|].
  destruct Hb as [-> |Hb]; [done|]. symmetry. apply orb_true_iff. right. apply andb_true_iff.
  rewrite !Z.leb_le. lia.
Qed.

Lemma string_printed s : value_printed (JString s).
Proof.
  intros pre tail d [|fuel] Hs Hc _ Htail Hf; [pose proof (zlen_nonneg (render false d (JString s)));
    pose proof (zlen_nonneg tail); lia|].
  cbn [render clean] in *. pose proof (parse_string_printed pre s tail Hs Hc) as Hp.
  revert Hp. unfold quoted. rewrite <- !app_assoc. cbn [app]. intros Hp.
  at_value. rewrite Z.eqb_refl, Hp. done.
Qed.

(** The first byte after a value, or the end. *)
Lemma skip_tail pre tail :
  follows_ok tail -> buffer_skip_whitespace (pre ++ tail) (zlen pre) = zlen pre.
Proof.
  destruct tail as [|b tail]; cbn; intros Ht; [rewrite app_nil_r; apply skip_end|].
  apply skip_none. lia.
Qed.

Lemma skip_value pre x d tail :
  clean x -> buffer_skip_whitespace (pre ++ render false d x ++ tail) (zlen pre) = zlen pre.
Proof.
  intros Hc. destruct (render_head x d Hc) as (b & r & -> & Hb). cbn [app].
  apply skip_none. unfold value_head in Hb. lia.
Qed.

Lemma elements_tail_ok l d tail :
  follows_ok (array_sep false (is_nil l) ++ list_body (render false d) (array_sep false) l ++ 93 :: tail).
Proof. destruct l; cbn; tauto. Qed.

Lemma elements_printed l :
  Forall value_printed l -> l <> [] -> forall pre c tail d fuel,
  let body := list_body (render false d) (array_sep false) l in
  bytes (pre ++ c :: body ++ 93 :: tail) -> Forall id (clean <$> l) ->
  forallb (nested_ok d) l = true ->
  2 * (2 + zlen body + zlen tail) <= Z.of_nat fuel ->
  parse_elements fuel (pre ++ c :: body ++ 93 :: tail) (zlen pre) d
  = Ret (Some (l, zlen pre + 1 + zlen body)).
Proof.
  induction 1 as [|x l Hx Hl IH]; intros Hne pre c tail d fuel; [done|]. cbn zeta.
  cbn [list_body fmap list_fmap forallb]. intros Hs [Hcx Hcl]%Forall_cons Hn Hf. bool_prop.
  set (tx := render false d x) in *. set (sep := array_sep false (is_nil l)) in *.
  set (body := list_body (render false d) (array_sep false) l) in *.
  rewrite !zlen_app in Hf. pose proof (zlen_nonneg tx). pose proof (zlen_nonneg body).
  pose proof (zlen_nonneg sep). pose proof (zlen_nonneg tail).
  destruct fuel as [|fuel]; [lia|]. cbn [parse_elements].
  replace (pre ++ c :: (tx ++ sep ++ body) ++ 93 :: tail)
    with ((pre ++ [c]) ++ tx ++ (sep ++ body ++ 93 :: tail)) in *
    by (by rewrite <- !app_assoc).
  assert (zlen (pre ++ [c]) = zlen pre + 1) as Hpc by (by rewrite zlen_app).
  rewrite <- Hpc. subst tx. rewrite skip_value by done.
  rewrite Hx; [|done|done|done|left; apply elements_tail_ok|rewrite !zlen_app, zlen_cons; lia].
  cbn [mbind outcome_bind]. rewrite (app_assoc (pre ++ [c])), <- zlen_app.
  rewrite skip_tail by apply elements_tail_ok. set (pre' := (pre ++ [c]) ++ render false d x) in *.
  destruct l as [|y l].
  - subst sep body. cbn [is_nil array_sep list_body app] in *. rewrite next_is_cursor.
    cbn [mbind outcome_bind Z.eqb Pos.eqb]. do 3 f_equal. subst pre'.
    rewrite zlen_app, Hpc, app_nil_r. lia.
  - subst sep body. cbn [is_nil array_sep] in *. cbn [app]. rewrite next_is_cursor.
    change (44 =? 44) with true. cbn [mbind outcome_bind].
    rewrite IH; [|done| |done|done|unfold zlen in *; cbn [length] in *; lia].
    + cbn [mbind outcome_bind cons_item]. do 3 f_equal. subst pre'.
      rewrite !zlen_app, (zlen_cons 44). change (zlen [c]) with 1. lia.
    + by rewrite app_assoc in Hs.
Qed.

Lemma members_tail_ok l d tail :
  follows_ok (object_sep false (is_nil l)
    ++ list_body (fun kv => member false d kv.1 (render false d kv.2)) (object_sep false) l
    ++ 125 :: tail).
Proof. destruct l; cbn; tauto. Qed.

Lemma quoted_head key rest : exists r, quoted key ++ rest = 34 :: r.
Proof. eexists. reflexivity. Qed.

Lemma members_printed l :
  Forall (fun kv => value_printed kv.2) l -> l <> [] -> forall pre c tail d fuel,
  let body := list_body (fun kv => member false d kv.1 (render false d kv.2)) (object_sep false) l in
  bytes (pre ++ c :: body ++ 125 :: tail) ->
  Forall id ((fun kv => textual kv.1 /\ clean kv.2) <$> l) ->
  forallb (fun kv => nested_ok d kv.2) l = true ->
  2 * (2 + zlen body + zlen tail) <= Z.of_nat fuel ->
  parse_members fuel (pre ++ c :: body ++ 125 :: tail) (zlen pre) d
  = Ret (Some (l, zlen pre + 1 + zlen body)).
Proof.
  induction 1 as [|[key x] l Hx Hl IH]; intros Hne pre c tail d fuel; [done|]. cbn zeta.
  cbn [list_body fmap list_fmap forallb fst snd].
  intros Hs [[Hk Hcx] Hcl]%Forall_cons Hn Hf. bool_prop. cbn [fst snd] in *.
  set (sep := object_sep false (is_nil l)) in *.
  set (body := list_body _ (object_sep false) l) in *.
  unfold member in *. cbn [app] in *. rewrite !zlen_app, zlen_cons in Hf.
  pose proof (zlen_nonneg (quoted key)). pose proof (zlen_nonneg (render false d x)).
  pose proof (zlen_nonneg body). pose proof (zlen_nonneg sep). pose proof (zlen_nonneg tail).
  destruct fuel as [|fuel]; [lia|]. cbn [parse_members].
  set (rest := sep ++ body ++ 125 :: tail).
  assert (pre ++ c :: ((quoted key ++ 58 :: render false d x) ++ sep ++ body) ++ 125 :: tail
    = (pre ++ [c]) ++ quoted key ++ 58 :: render false d x ++ rest) as E1.
  { subst rest. rewrite <- !app_assoc. cbn [app]. by rewrite <- ?app_assoc. }
  rewrite E1 in *.
  assert (zlen (pre ++ [c]) = zlen pre + 1) as Hpc by (by rewrite zlen_app).
  rewrite <- Hpc. unfold can_access.
  destruct (Z.ltb_spec (zlen (pre ++ [c]))
    (zlen ((pre ++ [c]) ++ quoted key ++ 58 :: render false d x ++ rest))) as [_|Hbad].
  2: { rewrite (zlen_app (pre ++ [c]) (quoted key ++ _)), (zlen_app (quoted key)), zlen_cons in Hbad. pose proof (zlen_nonneg (render false d x ++ rest)). lia. }
  cbn [negb]. replace (buffer_skip_whitespace _ (zlen (pre ++ [c]))) with (zlen (pre ++ [c])).
  2: { destruct (quoted_head key (58 :: render false d x ++ rest)) as [r ->]. by rewrite skip_none. }
  rewrite parse_string_printed by done. cbn [mbind outcome_bind].
  rewrite <- zlen_app, (app_assoc (pre ++ [c]) (quoted key)).
  rewrite skip_none by lia. rewrite next_is_cursor. change (58 =? 58) with true.
  cbn [mbind outcome_bind negb].
  assert (((pre ++ [c]) ++ quoted key) ++ 58 :: render false d x ++ rest
    = (((pre ++ [c]) ++ quoted key) ++ [58]) ++ render false d x ++ rest) as E2
    by (by rewrite <- (app_assoc _ [58])).
  rewrite (app_assoc (pre ++ [c])) in Hs. rewrite E2 in *.
  replace (zlen ((pre ++ [c]) ++ quoted key) + 1) with (zlen (((pre ++ [c]) ++ quoted key) ++ [58]))
    by (by rewrite (zlen_app _ [58])).
  rewrite skip_value by done.
  rewrite Hx; [|done|done|done|left; apply members_tail_ok|subst rest; rewrite !zlen_app, zlen_cons; lia].
  cbn [mbind outcome_bind]. rewrite <- zlen_app, (app_assoc _ (render false d x)) in *.
  rewrite skip_tail by apply members_tail_ok.
  set (pre' := (((pre ++ [c]) ++ quoted key) ++ [58]) ++ render false d x) in *.
  assert (zlen pre' = zlen pre + 2 + zlen (quoted key) + zlen (render false d x)) as Hpre'.
  { subst pre'. rewrite !zlen_app. change (zlen [c]) with 1. change (zlen [58]) with 1. lia. }
  subst rest. destruct l as [|y l].
  - subst sep body. cbn [is_nil object_sep list_body app] in *. rewrite next_is_cursor.
    cbn [mbind outcome_bind Z.eqb Pos.eqb]. do 3 f_equal.
    rewrite Hpre', Hpc, app_nil_r, zlen_app, zlen_cons. lia.
  - subst sep body. cbn [is_nil object_sep app] in *. rewrite next_is_cursor.
    change (44 =? 44) with true. cbn [mbind outcome_bind].
    rewrite IH; [|done|done|done|done|unfold zlen in *; cbn [length] in *; lia].
    cbn [mbind outcome_bind cons_item]. do 3 f_equal.
    rewrite Hpre', Hpc, !zlen_app, !zlen_cons. lia.
Qed.

Lemma literal_printed x lit :
  (forall d, render false d x = lit) ->
  (x = JNull /\ lit = bstr "null") \/ (x = JBool false /\ lit = bstr "false") \/
  (x = JBool true /\ lit = bstr "true") -> value_printed x.
Proof.
  intros Hr Hx pre tail d [|fuel] Hs _ _ _ Hf;
    [rewrite Hr in Hf; pose proof (zlen_nonneg lit); pose proof (zlen_nonneg tail); lia|].
  rewrite Hr. cbn [parse_value].
  destruct Hx as [[-> ->]|[[-> ->]|[-> ->]]].
  - by rewrite next_lit_yes.
  - change (bstr "false" ++ tail) with (102 :: [97; 108; 115; 101] ++ tail).
    change (bstr "null") with [110; 117; 108; 108]. rewrite next_lit_no by lia.
    cbn [mbind outcome_bind]. change (102 :: [97; 108; 115; 101] ++ tail) with (bstr "false" ++ tail).
    by rewrite next_lit_yes.
  - change (bstr "true" ++ tail) with (116 :: [114; 117; 101] ++ tail).
    change (bstr "null") with [110; 117; 108; 108].
    change (bstr "false") with [102; 97; 108; 115; 101]. rewrite !next_lit_no by lia.
    cbn [mbind outcome_bind]. change (116 :: [114; 117; 101] ++ tail) with (bstr "true" ++ tail).
    by rewrite next_lit_yes.
Qed.

(** An array or object behind its opening bracket. *)
Lemma bracket_printed {A B} pre o body close tail (empty : B) (build : A -> B) (a : A)
    (loop : Z -> outcome (option (A * Z))) :
  32 < close ->
  (body <> [] -> loop (zlen pre) = Ret (Some (a, zlen pre + 1 + zlen body)) /\
     exists h r, body = h :: r /\ 32 < h /\ h <> close) ->
  let s := pre ++ o :: body ++ close :: tail in
  (let off := buffer_skip_whitespace s (zlen pre + 1) in
   e ← next_is s off close;
   if e : bool then Ret (Some (empty, off + 1))
   else if negb (can_access s off) then Ret None
   else
     r ← loop (off - 1);
     match r with
     | None => Ret None
     | Some (items, off) =>
         closed ← next_is s off close;
         Ret (if closed : bool then Some (build items, off + 1) else None)
     end)
  = Ret (Some (if is_nil body then empty else build a, zlen pre + zlen body + 2)).
Proof.
  intros Hclose Hbody. cbn zeta.
  assert (pre ++ o :: body ++ close :: tail = (pre ++ [o]) ++ body ++ close :: tail) as E
    by (by rewrite <- app_assoc).
  assert (zlen (pre ++ [o]) = zlen pre + 1) as Hp by (by rewrite zlen_app).
  destruct body as [|h r].
  { cbn [app is_nil] in *. rewrite E, <- Hp, skip_none by done. rewrite next_is_cursor, Z.eqb_refl.
    cbn [mbind outcome_bind]. do 3 f_equal. rewrite Hp, zlen_nil. lia. }
  destruct (Hbody ltac:(done)) as (Hloop & h' & r' & [= <- <-] & Hh & Hne). cbn [is_nil].
  rewrite E, <- Hp. cbn [app]. rewrite skip_none by done. rewrite next_is_cursor.
  destruct (Z.eqb_spec h close); [done|]. cbn [mbind outcome_bind]. unfold can_access.
  destruct (Z.ltb_spec (zlen (pre ++ [o]))
    (zlen ((pre ++ [o]) ++ h :: r ++ close :: tail))) as [_|Hbad].
  2: { rewrite (zlen_app (pre ++ [o])), zlen_cons in Hbad.
       pose proof (zlen_nonneg (r ++ close :: tail)). lia. }
  cbn [negb]. replace (zlen (pre ++ [o]) - 1) with (zlen pre) by lia. rewrite Hloop.
  cbn [mbind outcome_bind].
  replace ((pre ++ [o]) ++ h :: r ++ close :: tail) with (((pre ++ [o]) ++ h :: r) ++ close :: tail)
    by (by rewrite <- app_assoc).
  replace (zlen pre + 1 + zlen (h :: r)) with (zlen ((pre ++ [o]) ++ h :: r))
    by (rewrite zlen_app; lia).
  rewrite next_is_cursor, Z.eqb_refl. cbn [mbind outcome_bind]. do 3 f_equal.
  rewrite zlen_app. lia.
Qed.

Lemma array_printed l : Forall value_printed l -> value_printed (JArray l).
Proof.
  intros Hl pre tail d [|fuel] Hs Hc Hn Htail Hf; [pose proof (zlen_nonneg (render false d (JArray l)));
    pose proof (zlen_nonneg tail); lia|].
  cbn [render clean nested_ok] in *. bool_prop.
  rewrite <- !app_assoc in *. cbn [app] in *. rewrite !zlen_cons, zlen_app, zlen_cons, zlen_nil in *.
  at_value. cbn [Z.eqb Pos.eqb orb andb Z.leb Z.compare Pos.compare Pos.compare_cont].
  destruct (Z.leb_spec CJSON_NESTING_LIMIT d); [lia|].
  rewrite (bracket_printed pre 91 _ 93 tail (JArray []) JArray l
    (fun o => parse_elements fuel _ o (d + 1))); [|lia|].
  - destruct l as [|x l]; [cbn [is_nil list_body]; do 3 f_equal; lia|]. cbn [fmap list_fmap] in Hc. apply Forall_cons in Hc as [Hcx _].
    destruct (render_head x (d + 1) Hcx) as (b & r & Eb & _). cbn [list_body]. rewrite Eb.
    cbn [app is_nil]. do 3 f_equal. lia.
  - intros Hne. destruct l as [|x l]; [done|].
    split; [by rewrite elements_printed by (done || lia)|].
    cbn [fmap list_fmap] in Hc. apply Forall_cons in Hc as [Hcx _].
    destruct (render_head x (d + 1) Hcx) as (b & r & Eb & Hb). cbn [list_body]. rewrite Eb.
    unfold value_head in Hb. eexists _, _. split; [reflexivity|]. lia.
Qed.

Lemma object_printed l : Forall (fun kv => value_printed kv.2) l -> value_printed (JObject l).
Proof.
  intros Hl pre tail d [|fuel] Hs Hc Hn Htail Hf; [pose proof (zlen_nonneg (render false d (JObject l)));
    pose proof (zlen_nonneg tail); lia|].
  cbn [render clean nested_ok] in *. bool_prop.
  rewrite <- !app_assoc in *. cbn [app] in *. rewrite !zlen_cons, zlen_app, zlen_cons, zlen_nil in *.
  at_value. cbn [Z.eqb Pos.eqb orb andb Z.leb Z.compare Pos.compare Pos.compare_cont].
  destruct (Z.leb_spec CJSON_NESTING_LIMIT d); [lia|].
  rewrite (bracket_printed pre 123 _ 125 tail (JObject []) JObject l
    (fun o => parse_members fuel _ o (d + 1))); [|lia|].
  - destruct l as [|[key x] l]; [cbn [is_nil list_body]; do 3 f_equal; lia|].
    cbn [list_body fst snd]. unfold member.
    cbn [app quoted is_nil]. do 3 f_equal. lia.
  - intros Hne. destruct l as [|[key x] l]; [done|].
    split; [by rewrite members_printed by (done || lia)|].
    eexists _, _. split; [reflexivity|]. lia.
Qed.

Lemma value_printed_all x : value_printed x.
Proof.
  induction x as [|b|v|s|l IH|l IH] using json_tree_ind.
  - apply (literal_printed _ (bstr "null")); tauto.
  - destruct b; [apply (literal_printed _ (bstr "true"))|apply (literal_printed _ (bstr "false"))]; tauto.
  - apply number_printed.
  - apply string_printed.
  - by apply array_printed.
  - by apply object_printed.
Qed.

Lemma clean_bytes x : clean x -> tree_bytes x.
Proof.
  induction x as [|b|v|s|l IH|l IH] using json_tree_ind; cbn [clean tree_bytes]; try done.
  - apply textual_bytes.
  - rewrite !Forall_fmap, !Forall_forall in *. intros Hc x Hx. apply IH; [done|by apply Hc].
  - rewrite !Forall_fmap, !Forall_forall in *. intros Hc [k x] Hx. destruct (Hc _ Hx) as [Hk Hcx].
    split; [by apply textual_bytes|]. by apply (IH _ Hx).
Qed.

Lemma no_bom_printed x tail : clean x -> skip_utf8_bom (render false 0 x ++ tail) = Ret 0.
Proof.
  intros Hc. destruct (render_head x 0 Hc) as (b & r & Er & Hh). unfold value_head in Hh.
  rewrite Er. cbn [app]. set (q := r ++ tail).
  unfold skip_utf8_bom, can_access. destruct (Z.ltb_spec 4 (zlen (b :: q))); [|done].
  unfold read_at. destruct (_ && _)%bool eqn:E; [|bool_prop; unfold zlen in *; cbn [length andb] in *].
  - cbn [mbind outcome_bind]. rewrite bool_decide_eq_false_2; [done|].
    change (Z.to_nat 3) with 3%nat. change (Z.to_nat 0) with 0%nat. cbn. intros [=]. lia.
  - destruct (Z.leb_spec (0 + 3) (Z.of_nat (S (length q)))); [done|lia].
Qed.

Lemma parse_printed_before x tail :
  clean x -> nested_ok 0 x = true -> tail_ok tail -> bytes tail ->
  cJSON_ParseWithLength (render false 0 x ++ tail) = Ret (Some x).
Proof.
  intros Hc Hn Htail Htb. pose proof (textual_bytes _ (render_textual false x 0 (clean_bytes x Hc))) as Hb.
  destruct (render_head x 0 Hc) as (b & r & Er & Hh). unfold value_head in Hh.
  pose proof (value_printed_all x [] tail 0 (parse_fuel (render false 0 x ++ tail))) as Hv. cbn [app] in Hv.
  specialize (Hv ltac:(by apply Forall_app) Hc Hn Htail
    ltac:(unfold parse_fuel; rewrite length_app; unfold zlen; lia)).
  unfold cJSON_ParseWithLength. rewrite Er in *. cbn [app] in *. set (q := r ++ tail) in *.
  destruct (Z.eqb_spec (zlen (b :: q)) 0); [rewrite zlen_cons in *; pose proof (zlen_nonneg q); lia|].
  pose proof (no_bom_printed x tail Hc) as Hnb. rewrite Er in Hnb. cbn [app] in Hnb. fold q in Hnb. rewrite Hnb.
  cbn [mbind outcome_bind]. pose proof (skip_none [] b q ltac:(lia)) as Hs. cbn [app] in Hs.
  change (zlen []) with 0 in *. by rewrite Hs, Hv.
Qed.

Lemma parse_printed x :
  clean x -> nested_ok 0 x = true -> cJSON_ParseWithLength (render false 0 x) = Ret (Some x).
Proof.
  intros Hc Hn. pose proof (parse_printed_before x [] Hc Hn ltac:(by left) ltac:(constructor)) as H.
  by rewrite app_nil_r in H.
Qed.

(** [cJSON_Parse] on a C string in a larger array. *)
Lemma cjson_parse_printed x tail :
  clean x -> nested_ok 0 x = true -> cJSON_Parse (render false 0 x ++ 0 :: tail) = Ret (Some x).
Proof.
  intros Hc Hn. unfold cJSON_Parse.
  rewrite c_string_app by (apply textual_nonzero, render_textual, clean_bytes; done).
  apply parse_printed_before; [done|done|by right|]. repeat constructor; lia.
Qed.

(** ** Integers survive *)

Lemma valueint_double z : INT_MIN <= z <= INT_MAX -> valueint (double_of_int z) = z.
Proof.
  unfold INT_MIN, INT_MAX. intros Hz.
  assert (Z.log2 (Z.abs z) < 53) as Hlog.
  { destruct (decide (z = 0)) as [->|]; [done|]. apply Z.log2_lt_pow2; [lia|]. cbn. lia. }
  pose proof (trunc_double z Hlog) as Ht. unfold valueint.
  destruct (double_of_pos 2147483647 eq_refl) as (m1 & E1 & _ & Hm1).
  destruct (double_of_pos 2147483648 eq_refl) as (m2 & _ & E2 & Hm2).
  unfold INT_MAX, INT_MIN. rewrite E1, E2.
  change (Z.log2 2147483647) with 30 in *. change (Z.log2 2147483648) with 31 in *.
  destruct z as [|p|p]; [done| |]; cbn [Z.abs] in Hlog;
    destruct (double_of_pos p Hlog) as (m & Ep & En & Hm).
  - rewrite Ep in *. unfold SFleb. cbn [SFcompare]. rewrite Ht.
    assert (Z.log2 (Z.pos p) <= 30) as Hl by (apply Z.lt_succ_r, Z.log2_lt_pow2; cbn; lia).
    destruct (Z.compare_spec (30 - 52) (Z.log2 (Z.pos p) - 52)) as [He|He|He]; [|lia|done].
    assert (Z.log2 (Z.pos p) = 30) as Hp by lia. rewrite Hp in Hm.
    change (Pos.compare_cont Eq m1 m) with (Pos.compare m1 m).
    destruct (Pos.compare_spec m1 m) as [Hc|Hc|Hc]; [subst; lia|lia|done].
  - rewrite En in *. unfold SFleb. cbn [SFcompare]. rewrite Ht.
    assert (Z.log2 (Z.pos p) <= 31) as Hl by (apply Z.lt_succ_r, Z.log2_lt_pow2; cbn; lia).
    destruct (Z.compare_spec (Z.log2 (Z.pos p) - 52) (31 - 52)) as [He|He|He]; [|done|lia].
    assert (Z.log2 (Z.pos p) = 31) as Hp by lia. rewrite Hp in Hm.
    change (Pos.compare_cont Eq m m2) with (Pos.compare m m2).
    destruct (Pos.compare_spec m m2) as [Hc|Hc|Hc]; cbn [CompOpp]; [subst; lia|done|lia].
Qed.

Lemma double_int_eqb z : INT_MIN <= z <= INT_MAX -> SFeqb (double_of_int z) (double_of_int z) = true.
Proof.
  unfold INT_MIN, INT_MAX. intros Hz. destruct z as [|p|p]; [done| |];
    (destruct (double_of_pos p) as (m & Ep & En & _);
      [apply Z.log2_lt_pow2; cbn; lia|]).
  - rewrite Ep. unfold SFeqb. cbn [SFcompare]. rewrite Z.compare_refl.
    change (Pos.compare_cont Eq m m) with (Pos.compare m m). by rewrite Pos.compare_refl.
  - rewrite En. unfold SFeqb. cbn [SFcompare]. rewrite Z.compare_refl.
    change (Pos.compare_cont Eq m m) with (Pos.compare m m). by rewrite Pos.compare_refl.
Qed.

Lemma number_text_int z : INT_MIN <= z <= INT_MAX -> number_text (double_of_int z) = fmt_d z.
Proof.
  intros Hz. pose proof (valueint_double z Hz) as Hv. pose proof (double_int_eqb z Hz) as He.
  unfold number_text. rewrite Hv, He. unfold INT_MIN, INT_MAX in Hz.
  destruct z as [|p|p]; [done| |];
    (destruct (double_of_pos p) as (m & Ep & En & _); [apply Z.log2_lt_pow2; cbn; lia|]).
  - by rewrite Ep.
  - by rewrite En.
Qed.

(** Reading back decimal digits. *)
Lemma dec_digits_are_digits n z : 0 <= z -> forallb is_digit (dec_digits n z) = true.
Proof.
  revert z. induction n as [|n IH]; intros z Hz; cbn [dec_digits]; [done|]. unfold is_digit in *.
  destruct (Z.ltb_spec z 10).
  - cbn. destruct (Z.leb_spec 48 (48 + z)), (Z.leb_spec (48 + z) 57); (done || lia).
  - rewrite forallb_app, IH by (apply Z.div_pos; lia). cbn. pose proof (Z.mod_pos_bound z 10).
    destruct (Z.leb_spec 48 (48 + z mod 10)), (Z.leb_spec (48 + z mod 10) 57); (done || lia).
Qed.

Lemma dec_digits_value n z : 0 <= z < 10 ^ Z.of_nat n -> digits_value (dec_digits n z) = z.
Proof.
  revert z. induction n as [|n IH]; intros z Hz; [cbn in *; lia|].
  rewrite Nat2Z.inj_succ, Z.pow_succ_r in Hz by lia. cbn [dec_digits].
  destruct (Z.ltb_spec z 10); [cbn; lia|]. unfold digits_value in *. rewrite foldl_app. cbn [foldl].
  rewrite IH; [|split; [apply Z.div_pos; lia|apply Z.div_lt_upper_bound; lia]].
  pose proof (Z.div_mod z 10). lia.
Qed.

Lemma dec_digits_cons n z : (0 < n)%nat -> dec_digits n z <> [].
Proof.
  destruct n as [|n]; [lia|]. intros _. cbn [dec_digits]. destruct (z <? 10); [done|].
  intros H. apply (f_equal length) in H. rewrite length_app in H. cbn in H. lia.
Qed.

Lemma digits_all ds : forallb is_digit ds = true -> digits ds = (ds, []).
Proof.
  induction ds as [|d ds IH]; cbn; [done|]. intros H. bool_prop.
  match goal with H : is_digit d = true |- _ => rewrite H end. by rewrite IH.
Qed.

Lemma sign_digit ds : forallb is_digit ds = true -> sign ds = (false, ds).
Proof.
  destruct ds as [|d ds]; [done|]. cbn [forallb sign]. intros H. bool_prop. unfold is_digit in *.
  bool_prop. destruct (Z.eqb_spec d 45); [lia|]. destruct (Z.eqb_spec d 43); [lia|]. done.
Qed.

Lemma strtod_fmt_d z :
  INT_MIN <= z <= INT_MAX -> strtod (fmt_d z) = Some (double_of_int z, zlen (fmt_d z)).
Proof.
  unfold INT_MIN, INT_MAX. intros Hz. unfold strtod, fmt_d.
  assert (forall s n bs, 0 <= n < 10 ^ 10 -> sign bs = (s, dec_digits 10 n) ->
    (let '(s, r1) := sign bs in
     let '(ip, r2) := digits r1 in
     let '(fp, r3) := match r2 with b :: r => if b =? 46 then digits r else ([], r2)
                      | [] => ([], []) end in
     match ip ++ fp with
     | [] => None
     | ds => let '(e, r4) := exponent r3 in
             Some (decimal s (digits_value ds) (e - zlen fp), zlen bs - zlen r4)
     end) = Some (decimal s n 0, zlen bs)) as Hrun.
  { intros s n bs Hn ->. rewrite digits_all by (apply dec_digits_are_digits; lia). rewrite app_nil_r.
    destruct (dec_digits 10 n) as [|d ds] eqn:E; [by apply dec_digits_cons in E; [|lia]|].
    rewrite <- E, dec_digits_value by lia. cbn [exponent].
    change (zlen []) with 0. by rewrite !Z.sub_0_r. }
  destruct (Z.ltb_spec z 0).
  - rewrite (Hrun true (- z)); [|lia|done]. do 2 f_equal. destruct z as [|p|p]; [lia|lia|].
    cbn [Z.opp]. unfold decimal. change (0 <=? 0) with true. cbv iota.
    by rewrite Z.pow_0_r, Z.mul_1_r.
  - rewrite (Hrun false z); [|lia|apply sign_digit, dec_digits_are_digits; lia]. do 2 f_equal.
    destruct z as [|p|p]; [done| |lia]. unfold decimal. change (0 <=? 0) with true.
    cbv iota. by rewrite Z.pow_0_r, Z.mul_1_r.
Qed.

Lemma int_exact z : INT_MIN <= z <= INT_MAX -> number_exact (double_of_int z) = true.
Proof.
  intros Hz. unfold number_exact. rewrite number_text_int by done.
  rewrite strtod_fmt_d, bool_decide_eq_true_2, andb_true_r by done.
  assert (forall n, 0 <= n -> forallb number_char (dec_digits 10 n) = true) as Hc.
  { intros n Hn. apply dec_digits_are_digits with (n := 10%nat) in Hn.
    revert Hn. induction (dec_digits 10 n) as [|d ds IH]; cbn [forallb]; [done|]. intros H.
    bool_prop. rewrite IH by done.
    unfold number_char. match goal with H : is_digit d = true |- _ => by rewrite H end. }
  unfold fmt_d. destruct (Z.ltb_spec z 0).
  - cbn [forallb]. rewrite Hc by lia. done.
  - rewrite Hc by lia. destruct (dec_digits 10 z) as [|d ds] eqn:E;
      [by apply dec_digits_cons in E; [|lia]|].
    pose proof (dec_digits_are_digits 10 z ltac:(lia)) as Hd. rewrite E in Hd. cbn [forallb] in Hd. bool_prop.
    match goal with H : is_digit d = true |- _ => rewrite H end. by rewrite orb_true_r.
Qed.

(** C24: what is printed is read back.  A tree whose strings have no NUL and whose
    numbers are 32-bit integers or other numbers that their text denotes, nested
    at most 1000 deep, comes out of [cJSON_ParseWithLength] unchanged after
    [cJSON_PrintPreallocated] put it into a large enough buffer. *)
Theorem print_parse_roundtrip x buffer :
  clean x -> nested_ok 0 x = true -> zlen (render false 0 x) + 2 <= zlen buffer <= INT_MAX ->
  exists b, cJSON_PrintPreallocated false x buffer = Ret (Some b) /\
    cJSON_ParseWithLength (c_string b) = Ret (Some x).
Proof.
  intros Hc Hn Hl. pose proof (clean_bytes x Hc) as Htb.
  pose proof (print_preallocated_exact false x buffer ltac:(lia) Htb) as Hp.
  rewrite Hn in Hp. unfold room_for in Hp. cbn [andb] in Hp.
  destruct (Z.leb_spec (zlen (render false 0 x) + 2) (zlen buffer)); [|lia].
  destruct Hp as (tail & -> & _). eexists. split; [reflexivity|].
  rewrite c_string_app by (apply textual_nonzero; by apply render_textual).
  by apply parse_printed.
Qed.

Definition sample_numbers : json :=
  JObject [(bstr "device_id", JNumber (double_of_int 2)); (bstr "value", JNumber (double_of_int (-40)));
           (bstr "msg", JString [104; 10; 7; 92; 34; 200])].

Lemma print_parse_roundtrip_witness :
  exists b, cJSON_PrintPreallocated false sample_numbers (replicate 80 0) = Ret (Some b) /\
    cJSON_ParseWithLength (c_string b) = Ret (Some sample_numbers).
Proof.
  apply print_parse_roundtrip; [|reflexivity|by vm_compute].
  repeat constructor; try (apply int_exact; by vm_compute);
    apply (bool_decide_unpack _); vm_compute; exact I.
Defined.

End CjsonRoundtrip.
