(* ===== verification/CjsonOpts.v ===== *)
(** * Parsing with options (gateway/src/cJSON.c, cJSON_ParseWithOpts)

    [cJSON_ParseWithLengthOpts] with [require_null_terminated]: the position behind
    the value is returned ([*return_parse_end]), and a text that goes on behind the
    value is refused.  The error position of a failed parse is not modelled. *)
From S2P Require Import Prelude Number Cjson CjsonPrint CjsonParse CjsonRoundtrip.
Import Number Cjson CjsonPrint CjsonRoundtrip.
Open Scope c_scope.

Module CjsonOpts.

(** The item and the offset [*return_parse_end] points to. *)
Definition cJSON_ParseWithLengthOpts (s : list Z) (require_null_terminated : bool)
  : outcome (option (json * Z)) :=
  if zlen s =? 0 then Ret None
  else
    off ← skip_utf8_bom s;
    r ← parse_value (parse_fuel s) s (buffer_skip_whitespace s off) 0;
    match r with
    | None => Ret None
    | Some (item, off) =>
        if require_null_terminated then
          let off := buffer_skip_whitespace s off in
          if zlen s <=? off then Ret None
          else c ← byte_at s off; Ret (if c =? 0 then Some (item, off) else None)
        else Ret (Some (item, off))
    end.

Definition cJSON_ParseWithOpts (value : list Z) (require_null_terminated : bool)
  : outcome (option (json * Z)) :=
  cJSON_ParseWithLengthOpts (c_string value ++ [0]) require_null_terminated.

(** [cJSON_ParseWithLength] is the call without options. *)
Theorem parse_without_options s :
  cJSON_ParseWithLength s
  = (r ← cJSON_ParseWithLengthOpts s false; Ret (option_map fst r)).
Proof.
  unfold cJSON_ParseWithLength, cJSON_ParseWithLengthOpts. case_match; [done|].
  destruct (skip_utf8_bom s); [|done]. cbn [mbind outcome_bind].
  destruct (parse_value _ _ _ _) as [[[??]|]|]; done.
Qed.

(** The position behind a printed value. *)
Lemma opts_printed x tail req :
  clean x -> nested_ok 0 x = true -> tail_ok tail -> bytes tail ->
  let s := render false 0 x ++ tail in
  cJSON_ParseWithLengthOpts s req =
    if req then
      let off := buffer_skip_whitespace s (zlen (render false 0 x)) in
      if zlen s <=? off then Ret None
      else c ← byte_at s off; Ret (if c =? 0 then Some (x, off) else None)
    else Ret (Some (x, zlen (render false 0 x))).
Proof.
  intros Hc Hn Htail Htb s. pose proof (textual_bytes _ (render_textual false x 0 (clean_bytes x Hc))) as Hb.
  pose proof (value_printed_all x [] tail 0 (parse_fuel s)) as Hv. cbn [app] in Hv.
  specialize (Hv ltac:(by apply Forall_app) Hc Hn Htail
    ltac:(unfold parse_fuel, s; rewrite length_app; unfold zlen; lia)).
  pose proof (skip_value [] x 0 tail Hc) as Hs. cbn [app] in Hs. change (zlen []) with 0 in *.
  unfold cJSON_ParseWithLengthOpts. fold s in Hv, Hs.
  destruct (Z.eqb_spec (zlen s) 0) as [E|_].
  { destruct (render_head x 0 Hc) as (b & r & Er & _). unfold s in E. rewrite Er in E. cbn [app] in E.
    rewrite zlen_cons in E. pose proof (zlen_nonneg (r ++ tail)). lia. }
  assert (skip_utf8_bom s = Ret 0) as -> by (by apply no_bom_printed). cbn [mbind outcome_bind]. by rewrite Hs, Hv.
Qed.

(** The terminator counts as white space, but the skip stays inside the buffer. *)
Lemma skip_terminator pre : buffer_skip_whitespace (pre ++ [0]) (zlen pre) = zlen pre.
Proof.
  unfold buffer_skip_whitespace, can_access. rewrite zlen_app. change (zlen [0]) with 1.
  destruct (Z.ltb_spec (zlen pre) (zlen pre + 1)); [|lia]. cbn [negb].
  rewrite zlen_length, drop_app_length. cbn [skip_ws]. change (0 <=? 32) with true. cbn match.
  rewrite Z.eqb_refl. lia.
Qed.

(** The strict parse takes exactly the printed text, and refuses what follows it,
    which [cJSON_Parse] does not look at. *)
Theorem strict_parse x c garbage rest :
  clean x -> nested_ok 0 x = true -> bytes garbage -> Forall (fun b => b <> 0) garbage ->
  c = 44 \/ c = 93 \/ c = 125 ->
  let text := render false 0 x in
  cJSON_ParseWithOpts (text ++ 0 :: rest) true = Ret (Some (x, zlen text)) /\
  cJSON_ParseWithOpts (text ++ c :: garbage ++ 0 :: rest) true = Ret None /\
  cJSON_ParseWithOpts (text ++ c :: garbage ++ 0 :: rest) false = Ret (Some (x, zlen text)).
Proof.
  intros Hc Hn Hg Hnz Hcc text.
  assert (Ht : Forall (fun b => b <> 0) text)
    by (apply textual_nonzero, render_textual, clean_bytes; done).
  assert (E1 : c_string (text ++ 0 :: rest) = text) by (by apply c_string_app).
  assert (E2 : c_string (text ++ c :: garbage ++ 0 :: rest) = text ++ c :: garbage).
  { rewrite app_comm_cons, app_assoc. apply c_string_app, Forall_app; split; [done|].
    constructor; [lia|done]. }
  assert (Hg' : bytes ((c :: garbage) ++ [0])).
  { apply Forall_app; split; constructor; (done || (red; lia) || constructor). }
  unfold cJSON_ParseWithOpts. rewrite E1, E2, <- app_assoc. cbn [app] in *.
  unfold text. rewrite !opts_printed by (done || (by right) || (left; exact Hcc) || (repeat constructor; lia)).
  cbn zeta. fold text. rewrite skip_terminator, (skip_none text c) by lia.
  rewrite !zlen_app, !zlen_cons. pose proof (zlen_nonneg (garbage ++ [0])).
  split_and!; [|..|done].
  - change (zlen []) with 0. destruct (Z.leb_spec (zlen text + (1 + 0)) (zlen text)); [lia|].
    by rewrite byte_at_cursor.
  - destruct (Z.leb_spec (zlen text + (1 + zlen (garbage ++ [0]))) (zlen text)); [lia|].
    rewrite byte_at_cursor. cbn [mbind outcome_bind]. destruct (Z.eqb_spec c 0); [lia|done].
Qed.

End CjsonOpts.
