(* ===== verification/CjsonMin.v ===== *)
(** * Minifying in place (gateway/src/cJSON.c, cJSON_Minify)

    The reading and the writing position run over the same buffer.  [squeeze] is
    the function of the text the loops compute; on what the printer writes with
    formatting it gives what the printer writes without, except that a string that
    ends in a backslash is mistaken for one that goes on. *)
From Stdlib Require Import Floats.SpecFloat.
From S2P Require Import Prelude Number Cjson CjsonPrint CjsonParse CjsonRoundtrip.
Import Number Cjson CjsonPrint CjsonRoundtrip.
Open Scope c_scope.

Module CjsonMin.

(** ** The code; [json] and [into] are positions in the buffer *)

Fixpoint oneline_loop (fuel : nat) (buf : list Z) (input : Z) : outcome Z :=
  c ← byte_at buf input;
  if c =? 0 then Ret input
  else if c =? 10 then Ret (input + 1)
  else match fuel with O => Undef | S fuel => oneline_loop fuel buf (input + 1) end.

Definition skip_oneline_comment (buf : list Z) (input : Z) : outcome Z :=
  oneline_loop (length buf) buf (input + 2).

Fixpoint multiline_loop (fuel : nat) (buf : list Z) (input : Z) : outcome Z :=
  c ← byte_at buf input;
  if c =? 0 then Ret input
  else
    closed ← (if c =? 42 then d ← byte_at buf (input + 1); Ret (d =? 47) else Ret false);
    if closed : bool then Ret (input + 2)
    else match fuel with O => Undef | S fuel => multiline_loop fuel buf (input + 1) end.

Definition skip_multiline_comment (buf : list Z) (input : Z) : outcome Z :=
  multiline_loop (length buf) buf (input + 2).

Fixpoint string_loop (fuel : nat) (buf : list Z) (input output : Z) : outcome (list Z * Z * Z) :=
  c ← byte_at buf input;
  if c =? 0 then Ret (buf, input, output)
  else
    buf ← write_at buf output [c];
    c ← byte_at buf input;
    if c =? 34 then
      buf ← write_at buf output [34];
      Ret (buf, input + 1, output + 1)
    else
      d ← (if c =? 92 then byte_at buf (input + 1) else Ret 0);
      match fuel with
      | O => Undef
      | S fuel =>
          if ((c =? 92) && (d =? 34))%bool then
            buf ← write_at buf (output + 1) [d];
            string_loop fuel buf (input + 2) (output + 2)
          else string_loop fuel buf (input + 1) (output + 1)
      end.

Definition minify_string (buf : list Z) (input output : Z) : outcome (list Z * Z * Z) :=
  c ← byte_at buf input;
  buf ← write_at buf output [c];
  string_loop (length buf) buf (input + 1) (output + 1).

Fixpoint minify_loop (fuel : nat) (buf : list Z) (json into : Z) : outcome (list Z) :=
  c ← byte_at buf json;
  if c =? 0 then write_at buf into [0]
  else
    match fuel with
    | O => Undef
    | S fuel =>
        if ((c =? 32) || (c =? 9) || (c =? 13) || (c =? 10))%bool then minify_loop fuel buf (json + 1) into
        else if c =? 47 then
          d ← byte_at buf (json + 1);
          json ← (if d =? 47 then skip_oneline_comment buf json
                  else if d =? 42 then skip_multiline_comment buf json
                  else Ret (json + 1));
          minify_loop fuel buf json into
        else if c =? 34 then
          r ← minify_string buf json into;
          let '(buf, json, into) := r in minify_loop fuel buf json into
        else
          buf ← write_at buf into [c];
          minify_loop fuel buf (json + 1) (into + 1)
    end.

Definition cJSON_Minify (json : option (list Z)) : outcome (option (list Z)) :=
  match json with
  | None => Ret None
  | Some buf => buf ← minify_loop (length buf) buf 0 0; Ret (Some buf)
  end.

(** ** The function of the text *)

Inductive mode := Plain | Str | Line | Block.

Definition blank (c : Z) : bool := (c =? 32) || (c =? 9) || (c =? 13) || (c =? 10).

Fixpoint squeeze (m : mode) (s : list Z) : list Z :=
  match s with
  | [] => []
  | c :: s =>
      match m with
      | Plain =>
          if blank c then squeeze Plain s
          else if c =? 47 then
            match s with
            | d :: s' => if d =? 47 then squeeze Line s' else if d =? 42 then squeeze Block s' else squeeze Plain s
            | [] => []
            end
          else if c =? 34 then c :: squeeze Str s
          else c :: squeeze Plain s
      | Str =>
          if c =? 34 then c :: squeeze Plain s
          else if c =? 92 then
            match s with
            | d :: s' => if d =? 34 then c :: d :: squeeze Str s' else c :: squeeze Str s
            | [] => [c]
            end
          else c :: squeeze Str s
      | Line => if c =? 10 then squeeze Plain s else squeeze Line s
      | Block =>
          if c =? 42 then
            match s with
            | d :: s' => if d =? 47 then squeeze Plain s' else squeeze Block s
            | [] => []
            end
          else squeeze Block s
      end
  end.

(** ** The buffer while it runs

    [done] has been written, a gap of [k] bytes follows, and [s] is still to be
    read, up to the NUL. *)
Definition running (tail done : list Z) (k : Z) (s buf : list Z) : Prop :=
  exists gap, buf = done ++ gap ++ s ++ 0 :: tail /\ zlen gap = k.

Section Run.
Context (tail : list Z).

Lemma running_read done k s buf p :
  running tail done k s buf -> p = zlen done + k ->
  byte_at buf p = Ret (match s with c :: _ => c | [] => 0 end).
Proof.
  intros (gap & -> & Hk) ->. rewrite app_assoc, (byte_at_app _ _ 0) by (rewrite ?zlen_app; lia).
  by destruct s.
Qed.

Lemma running_skip done k c s buf : running tail done k (c :: s) buf -> running tail done (k + 1) s buf.
Proof. intros (gap & -> & Hk). exists (gap ++ [c]). split; [by rewrite <- !app_assoc|]. len. Qed.

Lemma running_write done k c s buf :
  running tail done k (c :: s) buf ->
  exists buf', write_at buf (zlen done) [c] = Ret buf' /\ running tail (done ++ [c]) k s buf' /\
    running tail done k (c :: s) buf' /\ length buf' = length buf.
Proof.
  intros (gap & -> & Hk). pose proof (zlen_nonneg (s ++ 0 :: tail)).
  rewrite write_at_cursor by (first [done|rewrite zlen_app, zlen_cons; cbn; pose proof (zlen_nonneg gap); rewrite zlen_cons; len]).
  eexists. split; [done|]. destruct gap as [|g gap].
  - split_and!; [exists []|exists []|]; [split; [by rewrite <- ?app_assoc|done]..|].
    cbn [app length drop]. by rewrite <- app_assoc.
  - cbn [length drop app]. split_and!.
    + exists (gap ++ [c]). split; [by rewrite <- !app_assoc|]. rewrite zlen_cons in Hk. len.
    + exists (c :: gap). split; [by rewrite <- !app_assoc|]. by rewrite zlen_cons in *.
    + rewrite drop_0. repeat (rewrite ?length_app; cbn [length]). lia.
Qed.

Lemma running_length done k s buf : running tail done k s buf -> (length s < length buf)%nat.
Proof. intros (gap & -> & _). rewrite !length_app. cbn. lia. Qed.

(** Suffixes of what is left to read. *)
Ltac suffix :=
  first [ done | reflexivity | apply suffix_cons_r; suffix | apply suffix_app_r; suffix ].

Lemma suffix_nonzero s s' : s' `suffix_of` s -> nonzero s -> nonzero s'.
Proof. intros (pre & ->). unfold nonzero. rewrite Forall_app. by intros [_ ?]. Qed.

(** ** The loops *)

(** Each comment loop skips to where [squeeze] goes on. *)
Definition skips (m : mode) (done : list Z) (k : Z) (s buf : list Z) (p : Z) : Prop :=
  exists k' s', p = zlen done + k' /\ running tail done k' s' buf /\ squeeze m s = squeeze Plain s' /\
    s' `suffix_of` s.

Lemma oneline_spec fuel done k s buf :
  nonzero s -> running tail done k s buf -> (length s <= fuel)%nat ->
  exists p, oneline_loop fuel buf (zlen done + k) = Ret p /\ skips Line done k s buf p.
Proof.
  intros Hs. revert k fuel. induction Hs as [|c s Hc Hs IH]; intros k fuel Hr Hf.
  - exists (zlen done + k). destruct fuel; cbn [oneline_loop]; rewrite (running_read _ _ _ _ _ Hr eq_refl);
      (split; [done|]; exists k, []; split_and!; [done..|suffix]).
  - pose proof (running_skip _ _ _ _ _ Hr) as Hr'. destruct fuel as [|fuel]; [cbn in Hf; lia|].
    cbn [oneline_loop]. rewrite (running_read _ _ _ _ _ Hr eq_refl). cbn [mbind outcome_bind squeeze].
    replace (c =? 0) with false by lia. unfold skips. cbn [squeeze]. destruct (Z.eqb_spec c 10).
    + eexists. split; [done|]. exists (k + 1), s. split_and!; [lia|done|done|suffix].
    + rewrite <- Z.add_assoc. destruct (IH (k + 1) fuel) as (p & -> & k' & s' & ? & ? & ? & ?); [done|cbn in Hf; lia|].
      eexists. split; [done|]. exists k', s'. split_and!; [done..|suffix].
Qed.

Lemma multiline_spec fuel done k s buf :
  nonzero s -> running tail done k s buf -> (length s <= fuel)%nat ->
  exists p, multiline_loop fuel buf (zlen done + k) = Ret p /\ skips Block done k s buf p.
Proof.
  intros Hs. revert k fuel. induction Hs as [|c s Hc Hs IH]; intros k fuel Hr Hf.
  - exists (zlen done + k). destruct fuel; cbn [multiline_loop]; rewrite (running_read _ _ _ _ _ Hr eq_refl);
      (split; [done|]; exists k, []; split_and!; [done..|suffix]).
  - pose proof (running_skip _ _ _ _ _ Hr) as Hr'. destruct fuel as [|fuel]; [cbn in Hf; lia|].
    cbn [multiline_loop]. rewrite (running_read _ _ _ _ _ Hr eq_refl). cbn [mbind outcome_bind].
    replace (c =? 0) with false by lia. unfold skips. cbn [squeeze].
    rewrite (running_read _ _ _ _ (zlen done + k + 1) Hr') by lia.
    destruct (IH (k + 1) fuel) as (p & Hp & k' & s' & ? & ? & Hsq & ?); [done|cbn in Hf; lia|].
    assert (exists p, multiline_loop fuel buf (zlen done + k + 1) = Ret p /\ exists k' s', p = zlen done + k' /\
        running tail done k' s' buf /\ squeeze Block s = squeeze Plain s' /\ s' `suffix_of` (c :: s)) as Hgo.
    { rewrite <- Z.add_assoc. eexists. split; [done|]. exists k', s'. split_and!; [done..|suffix]. }
    destruct (Z.eqb_spec c 42); cbn [mbind outcome_bind]; [|exact Hgo].
    destruct s as [|d s0]; [exact Hgo|]. destruct (Z.eqb_spec d 47); [|exact Hgo].
    eexists. split; [done|]. exists (k + 2), s0. split_and!; [lia| |done|suffix].
    replace (k + 2) with (k + 1 + 1) by lia. by eapply running_skip.
Qed.

(** A string is copied to where [squeeze] goes on. *)
Definition copies (m : mode) (done s buf : list Z) (r : list Z * Z * Z) : Prop :=
  exists buf' done' k' s', r = (buf', zlen done' + k', zlen done') /\ running tail done' k' s' buf' /\
    done ++ squeeze m s = done' ++ squeeze Plain s' /\ s' `suffix_of` s /\ length buf' = length buf.

Lemma string_spec fuel done k s buf :
  nonzero s -> running tail done k s buf -> (length s <= fuel)%nat ->
  exists r, string_loop fuel buf (zlen done + k) (zlen done) = Ret r /\ copies Str done s buf r.
Proof.
  revert done k s buf. induction fuel as [|fuel IH]; intros done k s buf Hs Hr Hf; destruct s as [|c s].
  1,3: eexists; (split; [cbn [string_loop]; by rewrite (running_read _ _ _ _ _ Hr eq_refl)|];
    exists buf, done, k, []; split_and!; [done..|suffix|done]).
  { cbn in Hf. lia. }
  apply Forall_cons in Hs as [Hc Hs].
  cbn [string_loop]. rewrite (running_read _ _ _ _ _ Hr eq_refl). cbn [mbind outcome_bind].
  replace (c =? 0) with false by lia.
  destruct (running_write _ _ _ _ _ Hr) as (buf1 & -> & Hr1 & Hr2 & Hl). cbn [mbind outcome_bind].
  rewrite (running_read _ _ _ _ _ Hr2 eq_refl). cbn [mbind outcome_bind]. unfold copies. cbn [squeeze].
  assert (zlen done + 1 = zlen (done ++ [c])) as Hz by len.
  destruct (Z.eqb_spec c 34) as [->|Hq].
  { destruct (running_write _ _ _ _ _ Hr2) as (buf2 & -> & Hr3 & _ & Hl2). cbn [mbind outcome_bind].
    eexists. split; [done|]. exists buf2, (done ++ [34]), k, s. split_and!; [|done| |suffix|lia].
    - f_equal; [|done]. f_equal. lia.
    - by rewrite <- app_assoc. }
  assert (exists r, string_loop fuel buf1 (zlen done + k + 1) (zlen done + 1) = Ret r /\
    exists buf' done' k' s', r = (buf', zlen done' + k', zlen done') /\ running tail done' k' s' buf' /\
      done ++ c :: squeeze Str s = done' ++ squeeze Plain s' /\ s' `suffix_of` (c :: s) /\
      length buf' = length buf) as Hgo.
  { replace (zlen done + k + 1) with (zlen (done ++ [c]) + k) by lia. rewrite Hz.
    destruct (IH (done ++ [c]) k s buf1) as (r & Hrun & b' & d' & k' & s' & ? & ? & Hsq & ? & ?); [done|done|cbn in Hf; lia|].
    exists r. split; [done|]. exists b', d', k', s'. rewrite <- app_assoc in Hsq. split_and!; [done..|suffix|lia]. }
  destruct (Z.eqb_spec c 92) as [->|Hb]; cbn [andb mbind outcome_bind]; [|exact Hgo].
  pose proof (running_skip _ _ _ _ _ Hr2) as Hr2'.
  rewrite (running_read _ _ _ _ (zlen done + k + 1) Hr2') by lia. cbn [mbind outcome_bind].
  destruct s as [|d s]; [exact Hgo|]. destruct (Z.eqb_spec d 34) as [->|Hd]; [|exact Hgo].
  rewrite Hz. destruct (running_write _ _ _ _ _ Hr1) as (buf2 & -> & Hr3 & _ & Hl2). cbn [mbind outcome_bind].
  apply Forall_cons in Hs as [_ Hs].
  destruct (IH ((done ++ [92]) ++ [34]) k s buf2) as (r & Hrun & b' & d' & k' & s' & ? & ? & Hsq & ? & ?);
    [done|done|cbn in Hf; lia|].
  exists r. split.
  { rewrite <- Hrun. f_equal; len. }
  exists b', d', k', s'. rewrite <- !app_assoc in Hsq. split_and!; [done..|suffix|lia].
Qed.

Lemma minify_end fuel done k buf :
  running tail done k [] buf ->
  exists rest, minify_loop fuel buf (zlen done + k) (zlen done) = Ret (done ++ squeeze Plain [] ++ 0 :: rest) /\
    length (done ++ squeeze Plain [] ++ 0 :: rest) = length buf.
Proof.
  intros Hr.
  assert (minify_loop fuel buf (zlen done + k) (zlen done) = write_at buf (zlen done) [0]) as ->.
  { destruct fuel; cbn [minify_loop]; by rewrite (running_read _ _ _ _ _ Hr eq_refl). }
  destruct Hr as (gap & -> & Hk). pose proof (zlen_nonneg gap). pose proof (zlen_nonneg tail).
  rewrite write_at_cursor by (first [done|rewrite !zlen_app, !zlen_cons; cbn; lia]).
  eexists. split; [by rewrite <- app_assoc|]. cbn [squeeze app].
  repeat (rewrite ?length_app, ?length_drop; cbn [length]). lia.
Qed.

(** The whole loop. *)
Lemma minify_spec fuel done k s buf :
  nonzero s -> running tail done k s buf -> (length s <= fuel)%nat ->
  exists rest, minify_loop fuel buf (zlen done + k) (zlen done) = Ret (done ++ squeeze Plain s ++ 0 :: rest) /\
    length (done ++ squeeze Plain s ++ 0 :: rest) = length buf.
Proof.
  revert done k s buf. induction fuel as [|fuel IH]; intros done k s buf Hs Hr Hf; destruct s as [|c s].
  1,3: by apply minify_end.
  { cbn in Hf. lia. }
  apply Forall_cons in Hs as [Hc Hs]. pose proof (running_skip _ _ _ _ _ Hr) as Hr'. cbn in Hf.
  assert (zlen done + k + 1 = zlen done + (k + 1)) as Hk1 by lia.
  cbn [minify_loop]. rewrite (running_read _ _ _ _ _ Hr eq_refl). cbn [mbind outcome_bind squeeze].
  replace (c =? 0) with false by lia. unfold blank.
  destruct ((c =? 32) || (c =? 9) || (c =? 13) || (c =? 10))%bool; [rewrite Hk1; apply IH; [done|done|lia]|].
  destruct (Z.eqb_spec c 47) as [->|H47].
  { rewrite (running_read _ _ _ _ _ Hr') by lia. cbn [mbind outcome_bind].
    destruct s as [|d s]; [cbn; rewrite Hk1; by apply (IH done (k + 1) []); [|done|cbn; lia]|].
    pose proof (running_skip _ _ _ _ _ Hr') as Hr2. apply Forall_cons in Hs as [Hd Hs].
    pose proof (running_length _ _ _ _ Hr2). unfold skip_oneline_comment, skip_multiline_comment.
    replace (zlen done + k + 2) with (zlen done + (k + 1 + 1)) by lia. cbn in Hf.
    destruct (Z.eqb_spec d 47); [|destruct (Z.eqb_spec d 42)].
    - destruct (oneline_spec (length buf) _ _ _ _ Hs Hr2) as (p & -> & k' & s' & -> & Hr3 & -> & Hl); [lia|].
      pose proof (suffix_length _ _ Hl). apply IH; [by eapply suffix_nonzero|done|lia].
    - destruct (multiline_spec (length buf) _ _ _ _ Hs Hr2) as (p & -> & k' & s' & -> & Hr3 & -> & Hl); [lia|].
      pose proof (suffix_length _ _ Hl). apply IH; [by eapply suffix_nonzero|done|lia].
    - cbn [mbind outcome_bind]. rewrite Hk1. apply IH; [by constructor|done|cbn; lia]. }
  destruct (running_write _ _ _ _ _ Hr) as (buf1 & Hw & Hr1 & _ & Hl1).
  assert (zlen done + 1 = zlen (done ++ [c])) as Hz by len.
  assert (zlen done + k + 1 = zlen (done ++ [c]) + k) as Hz' by lia.
  destruct (Z.eqb_spec c 34) as [->|H34].
  { unfold minify_string. rewrite (running_read _ _ _ _ _ Hr eq_refl). cbn [mbind outcome_bind]. rewrite Hw.
    cbn [mbind outcome_bind]. rewrite Hz', Hz. pose proof (running_length _ _ _ _ Hr1).
    destruct (string_spec (length buf1) _ _ _ _ Hs Hr1) as (r & -> & b' & d' & k' & s' & -> & Hr3 & Hsq & Hl & Hlb); [lia|].
    pose proof (suffix_length _ _ Hl). cbn [mbind outcome_bind].
    destruct (IH d' k' s' b') as (rest & -> & Hlen); [by eapply suffix_nonzero|done|lia|].
    assert (forall r, done ++ (34 :: squeeze Str s) ++ r = d' ++ squeeze Plain s' ++ r) as Heq.
    { intros r. rewrite (app_assoc d'), <- Hsq, <- !app_assoc. done. }
    exists rest. rewrite Heq. split; [done|lia]. }
  rewrite Hw. cbn [mbind outcome_bind]. rewrite Hz', Hz.
  destruct (IH (done ++ [c]) k s buf1) as (rest & -> & Hlen); [done|done|lia|].
  exists rest. rewrite <- (app_assoc done [c]) in *. cbn [app] in *. split; [done|lia].
Qed.
End Run.

Lemma minify_squeezes s tail :
  nonzero s ->
  exists rest, cJSON_Minify (Some (s ++ 0 :: tail)) = Ret (Some (squeeze Plain s ++ 0 :: rest)) /\
    length (squeeze Plain s ++ 0 :: rest) = length (s ++ 0 :: tail).
Proof.
  intros Hs. assert (running tail [] 0 s (s ++ 0 :: tail)) as Hr by by exists [].
  destruct (minify_spec tail (length (s ++ 0 :: tail)) [] 0 s _ Hs Hr) as (rest & Hrun & Hl).
  { rewrite length_app. lia. }
  exists rest. split; [|done]. unfold cJSON_Minify. cbn in Hrun. cbn [app] in Hrun. change (zlen [] + 0) with 0 in Hrun.
  change (@zlen Z []) with 0 in Hrun. by rewrite Hrun.
Qed.

(** ** On printed text *)

(** A byte that is neither blank nor a quote nor the start of a comment. *)
Definition solid (c : Z) : Prop := blank c = false /\ c <> 47 /\ c <> 34.

Lemma squeeze_solid t s : Forall solid t -> squeeze Plain (t ++ s) = t ++ squeeze Plain s.
Proof.
  induction 1 as [|c t (Hb & H47 & H34) Ht IH]; [done|]. cbn [app squeeze]. rewrite Hb.
  replace (c =? 47) with false by lia. replace (c =? 34) with false by lia. by rewrite IH.
Qed.

Lemma squeeze_blank t s : Forall (fun c => blank c = true) t -> squeeze Plain (t ++ s) = squeeze Plain s.
Proof. induction 1 as [|c t Hb Ht IH]; [done|]. cbn [app squeeze]. by rewrite Hb. Qed.

(** Inside a string a byte that is neither a quote nor a backslash is copied. *)
Lemma squeeze_str t s : Forall (fun c => c <> 34 /\ c <> 92) t -> squeeze Str (t ++ s) = t ++ squeeze Str s.
Proof.
  induction 1 as [|c t [H34 H92] Ht IH]; [done|]. cbn [app squeeze].
  replace (c =? 34) with false by lia. replace (c =? 92) with false by lia. by rewrite IH.
Qed.

Lemma squeeze_backslash c s : c <> 34 -> squeeze Str (92 :: c :: s) = 92 :: squeeze Str (c :: s).
Proof. intros H. cbn [squeeze]. by replace (c =? 34) with false by lia. Qed.

Lemma hex_char_range d : 0 <= d < 16 -> 48 <= hex_char d <= 102 /\ hex_char d <> 92.
Proof. unfold hex_char. intros. destruct (Z.ltb_spec d 10); lia. Qed.

Lemma escape_head b : 0 < b < 256 -> exists c r, escape b = c :: r /\ c <> 34.
Proof.
  intros Hb. unfold escape. destruct ((31 <? b) && negb (b =? 34) && negb (b =? 92))%bool eqn:E.
  - exists b, []. split; [done|]. bool_prop. lia.
  - eauto.
Qed.

(** An escaped byte is copied, given that what follows is no quote if the byte is a
    backslash. *)
Lemma squeeze_escape b s :
  0 < b < 256 -> (b = 92 -> exists c r, s = c :: r /\ c <> 34) -> squeeze Str (escape b ++ s) = escape b ++ squeeze Str s.
Proof.
  intros Hb Hs. unfold escape. destruct ((31 <? b) && negb (b =? 34) && negb (b =? 92))%bool eqn:E.
  { apply squeeze_str. repeat constructor; bool_prop; lia. }
  unfold short_escape. destruct (Z.eqb_spec b 34) as [->|]; [done|].
  destruct (Z.eqb_spec b 92) as [->|].
  { destruct (Hs eq_refl) as (c & r & -> & Hc). cbn [app]. rewrite !squeeze_backslash by done. done. }
  repeat match goal with
  | |- context [b =? ?k] =>
      destruct (Z.eqb_spec b k);
      [cbn [app]; rewrite squeeze_backslash by done; f_equal; apply (squeeze_str [_]); repeat constructor; lia|]
  end.
  assert (b < 32) by (destruct (Z.ltb_spec 31 b); cbn in E; bool_prop; lia).
  pose proof (hex_char_range (b / 16) ltac:(split; [apply Z.div_pos|apply Z.div_lt_upper_bound]; lia)).
  pose proof (hex_char_range (b mod 16) ltac:(apply Z.mod_pos_bound; lia)).
  assert (Forall (fun c => c <> 34 /\ c <> 92) (u04x b)) as Hu by (unfold u04x; repeat constructor; lia).
  pose proof (squeeze_str _ s Hu) as Hq. unfold u04x in *. cbn [app] in *. rewrite squeeze_backslash by done.
  by rewrite Hq.
Qed.

(** No trailing backslash. *)
Definition tidy_string (s : list Z) : bool := negb (bool_decide (last (c_string s) = Some 92)).

Lemma squeeze_quoted str s :
  textual str -> tidy_string str = true -> squeeze Plain (quoted str ++ s) = quoted str ++ squeeze Plain s.
Proof.
  intros Ht Hl. unfold quoted, tidy_string in *. rewrite c_string_id in * by by apply textual_nonzero.
  rewrite <- !app_assoc. cbn [app]. cbn [squeeze blank orb Z.eqb Pos.eqb]. f_equal.
  apply negb_true_iff, bool_decide_eq_false_1 in Hl.
  induction Ht as [|b u Hb Hu IH]; [done|]. cbn [flat_map]. rewrite <- !app_assoc. rewrite squeeze_escape; [|done|].
  - destruct u as [|b' u]; [done|]. rewrite last_cons_cons in Hl. by rewrite IH.
  - intros ->. destruct u as [|b' u]; [done|]. apply Forall_cons in Hu as [Hb' _].
    destruct (escape_head b' Hb') as (c & r & Hc & Hne). cbn [flat_map]. rewrite Hc. cbn [app]. eauto.
Qed.

(** No string of the tree ends in a backslash. *)
Fixpoint tidy (item : json) : bool :=
  match item with
  | JString s => tidy_string s
  | JArray child => forallb tidy child
  | JObject child => forallb (fun kv => tidy_string kv.1 && tidy kv.2) child
  | _ => true
  end.

(** A text that [squeeze] turns into another, whatever follows. *)
Definition squeezes (t t' : list Z) : Prop := forall s, squeeze Plain (t ++ s) = t' ++ squeeze Plain s.

Lemma squeezes_app a a' b b' : squeezes a a' -> squeezes b b' -> squeezes (a ++ b) (a' ++ b').
Proof. intros Ha Hb s. by rewrite <- !app_assoc, Ha, Hb. Qed.

Lemma squeezes_solid t : Forall solid t -> squeezes t t.
Proof. intros H s. by apply squeeze_solid. Qed.

Lemma squeezes_blank t : Forall (fun c => blank c = true) t -> squeezes t [].
Proof. intros H s. by apply squeeze_blank. Qed.

Lemma squeezes_body {A} (f g : A -> list Z) sep sep' l :
  Forall (fun x => squeezes (f x) (g x)) l -> (forall b, squeezes (sep b) (sep' b)) ->
  squeezes (list_body f sep l) (list_body g sep' l).
Proof.
  intros Hl Hs. induction Hl as [|x l Hx Hl IH]; [by intros s|]. cbn [list_body].
  apply squeezes_app; [done|]. by apply squeezes_app.
Qed.

Ltac solid_text := apply squeezes_solid; repeat constructor; (done || (unfold solid; split_and!; [by vm_compute|done|done])).

Lemma squeezes_tabs n : squeezes (tabs n) [].
Proof. apply squeezes_blank. unfold tabs. by apply Forall_replicate. Qed.

Lemma number_solid d : number_exact d = true -> Forall solid (number_text d).
Proof.
  unfold number_exact. rewrite !andb_true_iff. intros [[H _] _]. rewrite forallb_forall in H.
  apply Forall_forall. intros c Hc%list_elem_of_In%H. unfold number_char, is_digit in Hc. unfold solid, blank.
  destruct (Z.eqb_spec c 32), (Z.eqb_spec c 9), (Z.eqb_spec c 13), (Z.eqb_spec c 10); cbn [orb]; bool_prop; lia.
Qed.

Lemma render_squeezes x d : clean x -> tidy x = true -> squeezes (render true d x) (render false d x).
Proof.
  revert d. induction x as [|b|v|s|l IH|l IH] using json_tree_ind; intros d Hc Ht; cbn [render clean tidy] in *.
  - solid_text.
  - destruct b; solid_text.
  - by apply squeezes_solid, number_solid.
  - intros s'. by apply squeeze_quoted.
  - apply squeezes_app; [solid_text|]. apply squeezes_app; [|solid_text]. rewrite forallb_forall in Ht.
    rewrite Forall_fmap in Hc. apply squeezes_body.
    + apply Forall_forall. intros x Hx. apply (proj1 (Forall_forall _ _) IH x Hx).
      * by apply (proj1 (Forall_forall _ _) Hc x Hx).
      * by apply Ht, list_elem_of_In.
    + intros []; [by intros s|]. apply (squeezes_app [44] [44] [32] []); [solid_text|by apply squeezes_blank; repeat constructor].
  - rewrite forallb_forall in Ht. rewrite Forall_fmap in Hc. apply squeezes_app.
    { apply (squeezes_app [123] [123] [10] []); [solid_text|by apply squeezes_blank; repeat constructor]. }
    apply squeezes_app; [|apply (squeezes_app (tabs d) []); [apply squeezes_tabs|solid_text]].
    apply squeezes_body.
    + apply Forall_forall. intros kv Hkv. destruct (proj1 (Forall_forall _ _) Hc kv Hkv) as [Hk Hv].
      assert (In kv l) as Hin by by apply list_elem_of_In. specialize (Ht kv Hin). apply andb_true_iff in Ht as [Htk Htv].
      unfold member. apply (squeezes_app (tabs (d + 1)) []); [apply squeezes_tabs|].
      apply squeezes_app; [intros s; by apply squeeze_quoted|]. apply squeezes_app.
      * apply (squeezes_app [58] [58] [9] []); [solid_text|by apply squeezes_blank; repeat constructor].
      * by apply (proj1 (Forall_forall _ _) IH kv Hkv).
    + intros b. unfold object_sep. apply squeezes_app; [destruct b; [by intros s|solid_text]|].
      by apply squeezes_blank; repeat constructor.
Qed.


Definition sample_tidy : json :=
  JObject [(bstr "led", JNumber (double_of_int 3)); (bstr "log", JArray [JString [97; 32; 92; 34]; JBool true])].


(** Two strings, the first one ending in a backslash. *)
Definition backslash_tree : json := JArray [JString [97; 92]; JString [120; 32; 121]].

(** A string that ends in a backslash: its closing quote is taken for an escaped
    one, and the blank in the next string is removed, although the text was
    correct. *)
Theorem minify_corrupts :
  exists b', cJSON_Minify (Some (render true 0 backslash_tree ++ [0])) = Ret (Some b') /\
    cJSON_ParseWithLength (render true 0 backslash_tree) = Ret (Some backslash_tree) /\
    cJSON_ParseWithLength (c_string b') = Ret (Some (JArray [JString [97; 92]; JString [120; 121]])).
Proof. eexists. split; [by vm_compute|]. split; by vm_compute. Qed.
End CjsonMin.
