(* ===== verification/CjsonHeap.v ===== *)
(** * cJSON items in memory (gateway/src/cJSON.c)

    [Cjson] works on trees as values; here the items are cells of a heap, as the
    library has them: siblings doubly linked through [next] and [prev], the
    first sibling's [prev] being the last one, names and string values in cells of
    their own.  One definition per function of the library that builds, links,
    unlinks, copies or frees items.  An access through a NULL or a stale pointer,
    a second [free] and a walk that has not ended within its fuel are [Undef].
    [malloc] is an argument: it names the cell the allocator gives in a heap, or
    [None] when it fails. *)
From Stdlib Require Import Floats.SpecFloat.
From S2P Require Import Prelude Heap Number Cjson.
Import Number.
Open Scope c_scope.

Module CjsonHeap.

(** [struct cJSON] *)
Record cJSON := Item {
  next : option loc;
  prev : option loc;
  child : option loc;
  type : Z;
  valuestring : option loc;
  valueint : Z;
  valuedouble : spec_float;
  string : option loc }.

(** An allocated block is an item or the characters of a C string. *)
Inductive cell :=
| Node (i : cJSON)
| Chars (s : list Z).

Abbreviation heap := (gmap loc cell).

Definition cJSON_Invalid : Z := 0.
Definition cJSON_False : Z := 1.
Definition cJSON_True : Z := 2.
Definition cJSON_NULL : Z := 4.
Definition cJSON_Number : Z := 8.
Definition cJSON_String : Z := 16.
Definition cJSON_Array : Z := 32.
Definition cJSON_Object : Z := 64.
Definition cJSON_Raw : Z := 128.
Definition cJSON_IsReference : Z := 256.
Definition cJSON_StringIsConst : Z := 512.

Definition CJSON_CIRCULAR_LIMIT : Z := 10000.

(** [flags & bit] as a condition *)
Definition has_flag (flags bit : Z) : bool := negb (flags .& bit =? 0).

Definition set_next (p : option loc) (i : cJSON) : cJSON :=
  Item p (prev i) (child i) (type i) (valuestring i) (valueint i) (valuedouble i) (string i).
Definition set_prev (p : option loc) (i : cJSON) : cJSON :=
  Item (next i) p (child i) (type i) (valuestring i) (valueint i) (valuedouble i) (string i).
Definition set_child (p : option loc) (i : cJSON) : cJSON :=
  Item (next i) (prev i) p (type i) (valuestring i) (valueint i) (valuedouble i) (string i).
Definition set_type (t : Z) (i : cJSON) : cJSON :=
  Item (next i) (prev i) (child i) t (valuestring i) (valueint i) (valuedouble i) (string i).
Definition set_valuestring (p : option loc) (i : cJSON) : cJSON :=
  Item (next i) (prev i) (child i) (type i) p (valueint i) (valuedouble i) (string i).
Definition set_number (n : Z) (d : spec_float) (i : cJSON) : cJSON :=
  Item (next i) (prev i) (child i) (type i) (valuestring i) n d (string i).
Definition set_string (p : option loc) (i : cJSON) : cJSON :=
  Item (next i) (prev i) (child i) (type i) (valuestring i) (valueint i) (valuedouble i) p.

(** ** Memory *)

Definition item_at (h : heap) (p : option loc) : outcome cJSON :=
  l ← deref p;
  match h !! l with Some (Node i) => Ret i | _ => Undef end.

Definition chars_at (h : heap) (p : option loc) : outcome (list Z) :=
  l ← deref p;
  match h !! l with Some (Chars s) => Ret s | _ => Undef end.

(** [p->field = ...] *)
Definition update (h : heap) (p : option loc) (f : cJSON -> cJSON) : outcome heap :=
  l ← deref p; i ← item_at h p; Ret (<[l := Node (f i)]> h).

(** [deallocate(p)] of a pointer that is not NULL *)
Definition deallocate (h : heap) (p : option loc) : outcome heap :=
  l ← deref p; _ ← deref (h !! l); Ret (delete l h).

(** ** Names *)

(** [tolower] of the C locale *)
Definition tolower (c : Z) : Z := if ((65 <=? c) && (c <=? 90))%bool then c + 32 else c.

(** The comparison loop over two strings, each read up to its NUL. *)
Fixpoint strcmp_with (f : Z -> Z) (s1 s2 : list Z) : Z :=
  match s1, s2 with
  | [], [] => 0
  | [], c2 :: _ => f 0 - f c2
  | c1 :: _, [] => f c1 - f 0
  | c1 :: s1, c2 :: s2 => if f c1 =? f c2 then strcmp_with f s1 s2 else f c1 - f c2
  end.

Definition strcmp (s1 s2 : list Z) : Z := strcmp_with (fun c => c) s1 s2.

(** A NULL argument differs from everything. *)
Definition case_insensitive_strcmp (h : heap) (string1 string2 : option loc) : outcome Z :=
  match string1, string2 with
  | Some l1, Some l2 =>
      if bool_decide (l1 = l2) then Ret 0
      else s1 ← chars_at h string1; s2 ← chars_at h string2; Ret (strcmp_with tolower s1 s2)
  | _, _ => Ret 1
  end.

Section Allocator.
Context (malloc : heap -> option loc).

Definition cJSON_strdup (h : heap) (string : option loc) : outcome (option loc * heap) :=
  match string with
  | None => Ret (None, h)
  | Some _ =>
      s ← chars_at h string;
      match malloc h with
      | None => Ret (None, h)
      | Some copy => Ret (Some copy, <[copy := Chars s]> h)
      end
  end.

(** A zeroed item. *)
Definition zero_item : cJSON := Item None None None 0 None 0 (S754_zero false) None.

Definition cJSON_New_Item (h : heap) : option loc * heap :=
  match malloc h with
  | None => (None, h)
  | Some node => (Some node, <[node := Node zero_item]> h)
  end.

(** The loop over the siblings and the recursion into the children. *)
Fixpoint delete_items (fuel : nat) (h : heap) (item : option loc) : outcome heap :=
  match item with
  | None => Ret h
  | Some _ =>
      match fuel with
      | O => Undef
      | S fuel =>
          i ← item_at h item;
          h ← (if (negb (has_flag (type i) cJSON_IsReference) && bool_decide (child i <> None))%bool
               then delete_items fuel h (child i) else Ret h);
          h ← (if (negb (has_flag (type i) cJSON_IsReference) && bool_decide (valuestring i <> None))%bool
               then deallocate h (valuestring i) else Ret h);
          h ← (if (negb (has_flag (type i) cJSON_StringIsConst) && bool_decide (string i <> None))%bool
               then deallocate h (string i) else Ret h);
          h ← deallocate h item;
          delete_items fuel h (next i)
      end
  end.

(** No more items can be met than the heap has cells. *)
Definition cJSON_Delete (h : heap) (item : option loc) : outcome heap :=
  delete_items (size h) h item.

(** ** Arrays and objects *)

Fixpoint count_children (fuel : nat) (h : heap) (child : option loc) (n : Z) : outcome Z :=
  match child with
  | None => Ret n
  | Some _ =>
      match fuel with
      | O => Undef
      | S fuel => i ← item_at h child; count_children fuel h (next i) (n + 1)
      end
  end.

(** The size is counted in a size_t and returned as an int. *)
Definition cJSON_GetArraySize (h : heap) (array : option loc) : outcome Z :=
  match array with
  | None => Ret 0
  | Some _ =>
      a ← item_at h array;
      n ← count_children (size h) h (child a) 0;
      Ret (i32 n)
  end.

Fixpoint walk_children (h : heap) (current_child : option loc) (index : nat) : outcome (option loc) :=
  match current_child, index with
  | Some _, S index => i ← item_at h current_child; walk_children h (next i) index
  | _, _ => Ret current_child
  end.

Definition get_array_item (h : heap) (array : option loc) (index : nat) : outcome (option loc) :=
  match array with
  | None => Ret None
  | Some _ => a ← item_at h array; walk_children h (child a) index
  end.

Definition cJSON_GetArrayItem (h : heap) (array : option loc) (index : Z) : outcome (option loc) :=
  if index <? 0 then Ret None else get_array_item h array (Z.to_nat index).

(** Does the loop of [get_object_item] stop at this element? *)
Definition stops_at (h : heap) (case_sensitive : bool) (name : option loc) (i : cJSON) : outcome bool :=
  if case_sensitive then
    match string i with
    | None => Ret true
    | Some _ =>
        s1 ← chars_at h name; s2 ← chars_at h (string i);
        Ret (strcmp s1 s2 =? 0)
    end
  else
    d ← case_insensitive_strcmp h name (string i); Ret (d =? 0).

Fixpoint find_element (fuel : nat) (h : heap) (case_sensitive : bool) (name : option loc)
    (current_element : option loc) : outcome (option loc) :=
  match current_element with
  | None => Ret None
  | Some _ =>
      match fuel with
      | O => Undef
      | S fuel =>
          i ← item_at h current_element;
          stop ← stops_at h case_sensitive name i;
          if stop : bool then Ret (if string i is Some _ then current_element else None)
          else find_element fuel h case_sensitive name (next i)
      end
  end.

Definition get_object_item (h : heap) (object name : option loc) (case_sensitive : bool) : outcome (option loc) :=
  match object, name with
  | Some _, Some _ =>
      o ← item_at h object;
      find_element (size h) h case_sensitive name (child o)
  | _, _ => Ret None
  end.

Definition cJSON_GetObjectItem (h : heap) (object string : option loc) : outcome (option loc) :=
  get_object_item h object string false.

Definition cJSON_GetObjectItemCaseSensitive (h : heap) (object string : option loc) : outcome (option loc) :=
  get_object_item h object string true.

Definition cJSON_HasObjectItem (h : heap) (object string : option loc) : outcome bool :=
  p ← cJSON_GetObjectItem h object string; Ret (bool_decide (p <> None)).

(** ** Linking *)

Definition suffix_object (h : heap) (prev item : option loc) : outcome heap :=
  h ← update h prev (set_next item);
  update h item (set_prev prev).

Definition create_reference (h : heap) (item : option loc) : outcome (option loc * heap) :=
  match item with
  | None => Ret (None, h)
  | Some _ =>
      let (reference, h) := cJSON_New_Item h in
      match reference with
      | None => Ret (None, h)
      | Some r =>
          i ← item_at h item;
          Ret (reference,
               <[r := Node (Item None None (child i) (type i .| cJSON_IsReference)
                              (valuestring i) (valueint i) (valuedouble i) None)]> h)
      end
  end.

Definition add_item_to_array (h : heap) (array item : option loc) : outcome (bool * heap) :=
  if bool_decide (item = None \/ array = None \/ array = item) then Ret (false, h)
  else
    a ← item_at h array;
    match child a with
    | None =>
        h ← update h array (set_child item);
        h ← update h item (set_prev item);
        h ← update h item (set_next None);
        Ret (true, h)
    | Some _ =>
        c ← item_at h (child a);
        match prev c with
        | None => Ret (true, h)
        | Some _ =>
            h ← suffix_object h (prev c) item;
            a ← item_at h array;
            h ← update h (child a) (set_prev item);
            Ret (true, h)
        end
    end.

Definition cJSON_AddItemToArray (h : heap) (array item : option loc) : outcome (bool * heap) :=
  add_item_to_array h array item.

(** The new name of an item that becomes a member: shared or copied. *)
Definition member_key (h : heap) (string : option loc) (t : Z) (constant_key : bool) :
    outcome (option loc * Z * heap) :=
  if constant_key then Ret (string, t .| cJSON_StringIsConst, h)
  else
    r ← cJSON_strdup h string;
    Ret (r.1, t .& Z.lnot cJSON_StringIsConst, r.2).

Definition add_item_to_object (h : heap) (object name item : option loc) (constant_key : bool) :
    outcome (bool * heap) :=
  if bool_decide (object = None \/ name = None \/ item = None \/ object = item) then Ret (false, h)
  else
    i ← item_at h item;
    k ← member_key h name (type i) constant_key;
    let '(new_key, new_type, h) := k in
    if bool_decide (new_key = None) then Ret (false, h)
    else
      h ← (if (negb (has_flag (type i) cJSON_StringIsConst) && bool_decide (string i <> None))%bool
           then deallocate h (string i) else Ret h);
      h ← update h item (set_string new_key);
      h ← update h item (set_type new_type);
      add_item_to_array h object item.

Definition cJSON_AddItemToObject (h : heap) (object string item : option loc) : outcome (bool * heap) :=
  add_item_to_object h object string item false.

Definition cJSON_AddItemToObjectCS (h : heap) (object string item : option loc) : outcome (bool * heap) :=
  add_item_to_object h object string item true.

Definition cJSON_AddItemReferenceToArray (h : heap) (array item : option loc) : outcome (bool * heap) :=
  match array with
  | None => Ret (false, h)
  | Some _ => r ← create_reference h item; add_item_to_array r.2 array r.1
  end.

Definition cJSON_AddItemReferenceToObject (h : heap) (object string item : option loc) : outcome (bool * heap) :=
  match object, string with
  | Some _, Some _ => r ← create_reference h item; add_item_to_object r.2 object string r.1 false
  | _, _ => Ret (false, h)
  end.

(** ** Creating items *)

(** A zeroed item whose fields [f] then sets. *)
Definition create (h : heap) (f : cJSON -> cJSON) : outcome (option loc * heap) :=
  let (item, h) := cJSON_New_Item h in
  match item with
  | None => Ret (None, h)
  | Some _ => h ← update h item f; Ret (item, h)
  end.

Definition cJSON_CreateNull (h : heap) : outcome (option loc * heap) := create h (set_type cJSON_NULL).

Definition cJSON_CreateTrue (h : heap) : outcome (option loc * heap) := create h (set_type cJSON_True).

Definition cJSON_CreateFalse (h : heap) : outcome (option loc * heap) := create h (set_type cJSON_False).

Definition cJSON_CreateBool (h : heap) (boolean : bool) : outcome (option loc * heap) :=
  create h (set_type (if boolean then cJSON_True else cJSON_False)).

Definition cJSON_CreateNumber (h : heap) (num : spec_float) : outcome (option loc * heap) :=
  create h (fun i => set_number (Cjson.valueint num) num (set_type cJSON_Number i)).

(** The item of a copied text; it is deleted again when the copy fails. *)
Definition create_text (h : heap) (t : Z) (text : option loc) : outcome (option loc * heap) :=
  r ← create h (set_type t);
  let '(item, h) := r in
  match item with
  | None => Ret (None, h)
  | Some _ =>
      d ← cJSON_strdup h text;
      let '(copy, h) := d in
      h ← update h item (set_valuestring copy);
      if bool_decide (copy = None) then h ← cJSON_Delete h item; Ret (None, h)
      else Ret (item, h)
  end.

Definition cJSON_CreateString (h : heap) (string : option loc) : outcome (option loc * heap) :=
  create_text h cJSON_String string.

Definition cJSON_CreateRaw (h : heap) (raw : option loc) : outcome (option loc * heap) :=
  create_text h cJSON_Raw raw.

Definition cJSON_CreateStringReference (h : heap) (string : option loc) : outcome (option loc * heap) :=
  create h (fun i => set_valuestring string (set_type (cJSON_String .| cJSON_IsReference) i)).

Definition cJSON_CreateObjectReference (h : heap) (child : option loc) : outcome (option loc * heap) :=
  create h (fun i => set_child child (set_type (cJSON_Object .| cJSON_IsReference) i)).

Definition cJSON_CreateArrayReference (h : heap) (child : option loc) : outcome (option loc * heap) :=
  create h (fun i => set_child child (set_type (cJSON_Array .| cJSON_IsReference) i)).

Definition cJSON_CreateArray (h : heap) : outcome (option loc * heap) := create h (set_type cJSON_Array).

Definition cJSON_CreateObject (h : heap) : outcome (option loc * heap) := create h (set_type cJSON_Object).

(** The created item becomes a member, or is deleted again. *)
Definition add_created (r : outcome (option loc * heap)) (object name : option loc) :
    outcome (option loc * heap) :=
  r ← r;
  let '(item, h) := r in
  added ← add_item_to_object h object name item false;
  let '(ok, h) := added in
  if ok : bool then Ret (item, h) else h ← cJSON_Delete h item; Ret (None, h).

Definition cJSON_AddNullToObject (h : heap) (object name : option loc) : outcome (option loc * heap) :=
  add_created (cJSON_CreateNull h) object name.

Definition cJSON_AddTrueToObject (h : heap) (object name : option loc) : outcome (option loc * heap) :=
  add_created (cJSON_CreateTrue h) object name.

Definition cJSON_AddFalseToObject (h : heap) (object name : option loc) : outcome (option loc * heap) :=
  add_created (cJSON_CreateFalse h) object name.

Definition cJSON_AddBoolToObject (h : heap) (object name : option loc) (boolean : bool) :
    outcome (option loc * heap) :=
  add_created (cJSON_CreateBool h boolean) object name.

Definition cJSON_AddNumberToObject (h : heap) (object name : option loc) (number : spec_float) :
    outcome (option loc * heap) :=
  add_created (cJSON_CreateNumber h number) object name.

Definition cJSON_AddStringToObject (h : heap) (object name string : option loc) : outcome (option loc * heap) :=
  add_created (cJSON_CreateString h string) object name.

Definition cJSON_AddRawToObject (h : heap) (object name raw : option loc) : outcome (option loc * heap) :=
  add_created (cJSON_CreateRaw h raw) object name.

Definition cJSON_AddObjectToObject (h : heap) (object name : option loc) : outcome (option loc * heap) :=
  add_created (cJSON_CreateObject h) object name.

Definition cJSON_AddArrayToObject (h : heap) (object name : option loc) : outcome (option loc * heap) :=
  add_created (cJSON_CreateArray h) object name.

(** ** Unlinking and replacing *)

Definition cJSON_DetachItemViaPointer (h : heap) (parent item : option loc) : outcome (option loc * heap) :=
  if bool_decide (parent = None \/ item = None) then Ret (None, h)
  else
    pa ← item_at h parent;
    i ← item_at h item;
    if bool_decide (item <> child pa /\ prev i = None) then Ret (None, h)
    else
      h ← (if bool_decide (item <> child pa) then update h (prev i) (set_next (next i)) else Ret h);
      i ← item_at h item;
      h ← (if bool_decide (next i <> None) then update h (next i) (set_prev (prev i)) else Ret h);
      i ← item_at h item;
      pa ← item_at h parent;
      h ← (if bool_decide (item = child pa) then update h parent (set_child (next i))
           else if bool_decide (next i = None) then update h (child pa) (set_prev (prev i))
           else Ret h);
      h ← update h item (set_prev None);
      h ← update h item (set_next None);
      Ret (item, h).

Definition cJSON_DetachItemFromArray (h : heap) (array : option loc) (which : Z) : outcome (option loc * heap) :=
  if which <? 0 then Ret (None, h)
  else p ← get_array_item h array (Z.to_nat which); cJSON_DetachItemViaPointer h array p.

(** [cJSON_Delete] of what was detached *)
Definition delete_detached (r : outcome (option loc * heap)) : outcome heap :=
  r ← r; cJSON_Delete r.2 r.1.

Definition cJSON_DeleteItemFromArray (h : heap) (array : option loc) (which : Z) : outcome heap :=
  delete_detached (cJSON_DetachItemFromArray h array which).

Definition cJSON_DetachItemFromObject (h : heap) (object string : option loc) : outcome (option loc * heap) :=
  to_detach ← cJSON_GetObjectItem h object string; cJSON_DetachItemViaPointer h object to_detach.

Definition cJSON_DetachItemFromObjectCaseSensitive (h : heap) (object string : option loc) :
    outcome (option loc * heap) :=
  to_detach ← cJSON_GetObjectItemCaseSensitive h object string; cJSON_DetachItemViaPointer h object to_detach.

Definition cJSON_DeleteItemFromObject (h : heap) (object string : option loc) : outcome heap :=
  delete_detached (cJSON_DetachItemFromObject h object string).

Definition cJSON_DeleteItemFromObjectCaseSensitive (h : heap) (object string : option loc) : outcome heap :=
  delete_detached (cJSON_DetachItemFromObjectCaseSensitive h object string).

Definition cJSON_InsertItemInArray (h : heap) (array : option loc) (which : Z) (newitem : option loc) :
    outcome (bool * heap) :=
  if ((which <? 0) || bool_decide (newitem = None))%bool then Ret (false, h)
  else
    after_inserted ← get_array_item h array (Z.to_nat which);
    if bool_decide (after_inserted = None) then add_item_to_array h array newitem
    else
      a ← item_at h array;
      i ← item_at h after_inserted;
      if bool_decide (after_inserted <> child a /\ prev i = None) then Ret (false, h)
      else
        h ← update h newitem (set_next after_inserted);
        i ← item_at h after_inserted;
        h ← update h newitem (set_prev (prev i));
        h ← update h after_inserted (set_prev newitem);
        a ← item_at h array;
        h ← (if bool_decide (after_inserted = child a) then update h array (set_child newitem)
             else n ← item_at h newitem; update h (prev n) (set_next newitem));
        Ret (true, h).

Definition cJSON_ReplaceItemViaPointer (h : heap) (parent item replacement : option loc) :
    outcome (bool * heap) :=
  if bool_decide (parent = None) then Ret (false, h)
  else
    pa ← item_at h parent;
    if bool_decide (child pa = None \/ replacement = None \/ item = None) then Ret (false, h)
    else if bool_decide (replacement = item) then Ret (true, h)
    else
      i ← item_at h item;
      h ← update h replacement (set_next (next i));
      i ← item_at h item;
      h ← update h replacement (set_prev (prev i));
      r ← item_at h replacement;
      h ← (if bool_decide (next r <> None) then update h (next r) (set_prev replacement) else Ret h);
      pa ← item_at h parent;
      h ← (if bool_decide (child pa = item) then
             c ← item_at h (child pa);
             h ← (if bool_decide (prev c = child pa) then update h replacement (set_prev replacement) else Ret h);
             update h parent (set_child replacement)
           else
             r ← item_at h replacement;
             h ← (if bool_decide (prev r <> None) then update h (prev r) (set_next replacement) else Ret h);
             r ← item_at h replacement;
             pa ← item_at h parent;
             if bool_decide (next r = None) then update h (child pa) (set_prev replacement) else Ret h);
      h ← update h item (set_next None);
      h ← update h item (set_prev None);
      h ← cJSON_Delete h item;
      Ret (true, h).

Definition cJSON_ReplaceItemInArray (h : heap) (array : option loc) (which : Z) (newitem : option loc) :
    outcome (bool * heap) :=
  if which <? 0 then Ret (false, h)
  else p ← get_array_item h array (Z.to_nat which); cJSON_ReplaceItemViaPointer h array p newitem.

(** The replacement's old name is freed before the new one is copied. *)
Definition replace_item_in_object (h : heap) (object name replacement : option loc) (case_sensitive : bool) :
    outcome (bool * heap) :=
  if bool_decide (replacement = None \/ name = None) then Ret (false, h)
  else
    r ← item_at h replacement;
    h ← (if (negb (has_flag (type r) cJSON_StringIsConst) && bool_decide (string r <> None))%bool
         then deallocate h (string r) else Ret h);
    d ← cJSON_strdup h name;
    let '(copy, h) := d in
    h ← update h replacement (set_string copy);
    if bool_decide (copy = None) then Ret (false, h)
    else
      h ← update h replacement (fun i => set_type (type i .& Z.lnot cJSON_StringIsConst) i);
      p ← get_object_item h object name case_sensitive;
      cJSON_ReplaceItemViaPointer h object p replacement.

Definition cJSON_ReplaceItemInObject (h : heap) (object string newitem : option loc) : outcome (bool * heap) :=
  replace_item_in_object h object string newitem false.

Definition cJSON_ReplaceItemInObjectCaseSensitive (h : heap) (object string newitem : option loc) :
    outcome (bool * heap) :=
  replace_item_in_object h object string newitem true.

(** ** Values *)

(** NaN for a NULL item. *)
Definition cJSON_SetNumberHelper (h : heap) (object : option loc) (number : spec_float) :
    outcome (spec_float * heap) :=
  match object with
  | None => Ret (S754_nan, h)
  | Some _ => h ← update h object (set_number (Cjson.valueint number) number); Ret (number, h)
  end.

(** A text that is not longer is copied over the old one, unless it is that
    text itself; a longer one replaces it. *)
Definition cJSON_SetValuestring (h : heap) (object text : option loc) : outcome (option loc * heap) :=
  match object with
  | None => Ret (None, h)
  | Some _ =>
      o ← item_at h object;
      if (negb (has_flag (type o) cJSON_String) || has_flag (type o) cJSON_IsReference)%bool then Ret (None, h)
      else
        match valuestring o, text with
        | Some old, Some _ =>
            v1 ← chars_at h text;
            v2 ← chars_at h (valuestring o);
            if zlen v1 <=? zlen v2 then
              if bool_decide (text = valuestring o) then Ret (None, h)
              else Ret (valuestring o, <[old := Chars v1]> h)
            else
              d ← cJSON_strdup h text;
              let '(copy, h) := d in
              if bool_decide (copy = None) then Ret (None, h)
              else
                h ← deallocate h (valuestring o);
                h ← update h object (set_valuestring copy);
                Ret (copy, h)
        | _, _ => Ret (None, h)
        end
  end.

(** [item->type & 0xFF] of an item that is not NULL *)
Definition has_type (h : heap) (t : Z) (item : option loc) : outcome bool :=
  match item with
  | None => Ret false
  | Some _ => i ← item_at h item; Ret (type i .& 255 =? t)
  end.

Definition cJSON_IsInvalid (h : heap) := has_type h cJSON_Invalid.
Definition cJSON_IsFalse (h : heap) := has_type h cJSON_False.
Definition cJSON_IsTrue (h : heap) := has_type h cJSON_True.
Definition cJSON_IsBool (h : heap) (item : option loc) : outcome bool :=
  match item with
  | None => Ret false
  | Some _ => i ← item_at h item; Ret (has_flag (type i) (cJSON_True .| cJSON_False))
  end.
Definition cJSON_IsNull (h : heap) := has_type h cJSON_NULL.
Definition cJSON_IsNumber (h : heap) := has_type h cJSON_Number.
Definition cJSON_IsString (h : heap) := has_type h cJSON_String.
Definition cJSON_IsArray (h : heap) := has_type h cJSON_Array.
Definition cJSON_IsObject (h : heap) := has_type h cJSON_Object.
Definition cJSON_IsRaw (h : heap) := has_type h cJSON_Raw.

Definition cJSON_GetStringValue (h : heap) (item : option loc) : outcome (option loc) :=
  b ← cJSON_IsString h item;
  if b : bool then i ← item_at h item; Ret (valuestring i) else Ret None.

Definition cJSON_GetNumberValue (h : heap) (item : option loc) : outcome spec_float :=
  b ← cJSON_IsNumber h item;
  if b : bool then i ← item_at h item; Ret (valuedouble i) else Ret S754_nan.

(** ** Arrays from C arrays *)

(** The loop of the four functions: [make] creates the item of one element, [n]
    is the item of the last one and [a] the array. *)
Fixpoint array_loop {A} (make : heap -> A -> outcome (option loc * heap)) (a n : option loc) (xs : list A)
    (h : heap) : outcome (option loc * heap) :=
  match xs with
  | [] =>
      i ← item_at h a;
      match child i with
      | None => Ret (a, h)
      | Some _ => h ← update h (child i) (set_prev n); Ret (a, h)
      end
  | x :: xs =>
      r ← make h x;
      let '(m, h) := r in
      match m with
      | None => h ← cJSON_Delete h a; Ret (None, h)
      | Some _ =>
          h ← (if n is Some _ then suffix_object h n m else update h a (set_child m));
          array_loop make a m xs h
      end
  end.

Definition create_array {A} (make : heap -> A -> outcome (option loc * heap)) (h : heap) (xs : option (list A)) :
    outcome (option loc * heap) :=
  match xs with
  | None => Ret (None, h)
  | Some xs =>
      r ← cJSON_CreateArray h;
      let '(a, h) := r in
      match a with
      | None => Ret (None, h)
      | Some _ => array_loop make a None xs h
      end
  end.

(** The [count] elements of an array that has at least so many; NULL and a
    negative count are refused. *)
Definition counted {A} (xs : option (list A)) (count : Z) : outcome (option (list A)) :=
  match xs with
  | None => Ret None
  | Some xs =>
      if count <? 0 then Ret None
      else if count <=? zlen xs then Ret (Some (take (Z.to_nat count) xs)) else Undef
  end.

Definition cJSON_CreateIntArray (h : heap) (numbers : option (list Z)) (count : Z) :
    outcome (option loc * heap) :=
  xs ← counted numbers count;
  create_array (fun h x => cJSON_CreateNumber h (double_of_int x)) h xs.

Definition cJSON_CreateDoubleArray (h : heap) (numbers : option (list spec_float)) (count : Z) :
    outcome (option loc * heap) :=
  xs ← counted numbers count; create_array cJSON_CreateNumber h xs.

(** A float is a double of the same value. *)
Definition cJSON_CreateFloatArray (h : heap) (numbers : option (list spec_float)) (count : Z) :
    outcome (option loc * heap) :=
  xs ← counted numbers count; create_array cJSON_CreateNumber h xs.

Definition cJSON_CreateStringArray (h : heap) (strings : option (list (option loc))) (count : Z) :
    outcome (option loc * heap) :=
  xs ← counted strings count; create_array cJSON_CreateString h xs.

(** ** Copies *)

(** The new item with the scalar fields and the strings of [i]; [false] when a
    string could not be copied. *)
Definition copy_fields (h : heap) (i : cJSON) (newitem : option loc) : outcome (bool * heap) :=
  h ← update h newitem (fun n => set_number (valueint i) (valuedouble i)
                                   (set_type (type i .& Z.lnot cJSON_IsReference) n));
  v ← (if valuestring i is Some _ then
         d ← cJSON_strdup h (valuestring i);
         h ← update d.2 newitem (set_valuestring d.1);
         Ret (bool_decide (d.1 <> None), h)
       else Ret (true, h));
  let '(ok, h) := v in
  if negb ok then Ret (false, h)
  else if string i is Some _ then
    d ← (if has_flag (type i) cJSON_StringIsConst then Ret (string i, h) else cJSON_strdup h (string i));
    h ← update d.2 newitem (set_string d.1);
    Ret (bool_decide (d.1 <> None), h)
  else Ret (true, h).

(** [fail:] *)
Definition duplicate_fail (h : heap) (newitem : option loc) : outcome (option loc * heap) :=
  h ← (if newitem is Some _ then cJSON_Delete h newitem else Ret h); Ret (None, h).

(** [cJSON_Duplicate_rec] and its loop over the children; [current] is
    the child to copy and [nxt] the last copy so far, the loop's [next], which is
    also its [newchild]. *)
Fixpoint cJSON_Duplicate_rec (fuel : nat) (h : heap) (item : option loc) (depth : Z) (recurse : bool) :
    outcome (option loc * heap) :=
  match fuel with
  | O => Undef
  | S fuel =>
      match item with
      | None => Ret (None, h)
      | Some _ =>
          let (newitem, h) := cJSON_New_Item h in
          match newitem with
          | None => Ret (None, h)
          | Some _ =>
              i ← item_at h item;
              c ← copy_fields h i newitem;
              let '(ok, h) := c in
              if negb ok then duplicate_fail h newitem
              else if negb recurse then Ret (newitem, h)
              else duplicate_children fuel h (child i) depth newitem None
          end
      end
  end
with duplicate_children (fuel : nat) (h : heap) (current : option loc) (depth : Z) (newitem nxt : option loc) :
    outcome (option loc * heap) :=
  match fuel with
  | O => Undef
  | S fuel =>
      match current with
      | None =>
          n ← item_at h newitem;
          h ← (if child n is Some _ then update h (child n) (set_prev nxt) else Ret h);
          Ret (newitem, h)
      | Some _ =>
          if CJSON_CIRCULAR_LIMIT <=? depth then duplicate_fail h newitem
          else
            r ← cJSON_Duplicate_rec fuel h current (depth + 1) true;
            let '(newchild, h) := r in
            match newchild with
            | None => duplicate_fail h newitem
            | Some _ =>
                h ← (if nxt is Some _ then
                       h ← update h nxt (set_next newchild); update h newchild (set_prev nxt)
                     else update h newitem (set_child newchild));
                c ← item_at h current;
                duplicate_children fuel h (next c) depth newitem newchild
            end
      end
  end.

Definition cJSON_Duplicate (fuel : nat) (h : heap) (item : option loc) (recurse : bool) :
    outcome (option loc * heap) :=
  cJSON_Duplicate_rec fuel h item 0 recurse.
End Allocator.
End CjsonHeap.
