(* ===== verification/CjsonList.v ===== *)
(** * The sibling lists of cJSON (gateway/src/cJSON.c)

    [array_is h array ls]: the children of [array] are the items [ls] in order,
    doubly linked, the first one's [prev] being the last one.  Counting, indexing,
    appending, inserting, detaching and replacing act on [ls] as the list
    operations do, and touch nothing but links. *)
From Stdlib Require Import Floats.SpecFloat.
From S2P Require Import Prelude Heap Number Cjson CjsonHeap.
Import CjsonHeap.
Open Scope c_scope.
#[local] Set Warnings "-clear-no-such-hyp".

Module CjsonList.

(** From [p] through [ls] to [e]; [pv] is the first item's [prev]. *)
Fixpoint seg (h : heap) (pv : loc) (p : option loc) (ls : list loc) (e : option loc) : Prop :=
  match ls with
  | [] => p = e
  | l :: ls =>
      p = Some l /\ exists i, h !! l = Some (Node i) /\ prev i = Some pv /\ seg h l (next i) ls e
  end.

Definition children (h : heap) (p : option loc) (ls : list loc) : Prop :=
  seg h (default 1%positive (last ls)) p ls None /\ NoDup ls.

Definition array_is (h : heap) (array : loc) (ls : list loc) : Prop :=
  exists a, h !! array = Some (Node a) /\ children h (child a) ls /\ array ∉ ls.

(** A cell without its sibling links. *)
Definition bare (c : cell) : cell :=
  match c with
  | Node i => Node (set_next None (set_prev None i))
  | Chars s => Chars s
  end.

(** Only the links of [ls] and the [child] of [array] have changed. *)
Record relinked (array : loc) (ls : list loc) (h h' : heap) : Prop := {
  rl_outside l : l ∉ array :: ls -> h' !! l = h !! l;
  rl_content l : l <> array -> bare <$> h' !! l = bare <$> h !! l;
  rl_owner a : h !! array = Some (Node a) -> exists p, h' !! array = Some (Node (set_child p a)) }.

(** ** Running the operations *)

Lemma item_at_node h l i : h !! l = Some (Node i) -> item_at h (Some l) = Ret i.
Proof. intros H. unfold item_at. cbn. by rewrite H. Qed.

Lemma update_node h l i f :
  h !! l = Some (Node i) -> update h (Some l) f = Ret (<[l := Node (f i)]> h).
Proof. intros H. unfold update. cbn [deref mbind outcome_bind]. by rewrite (item_at_node _ _ _ H). Qed.

Lemma insert_node_ne h l l' c i :
  l' <> l -> h !! l = Some (Node i) -> (<[l' := c]> h : heap) !! l = Some (Node i).
Proof. intros. by rewrite lookup_insert_ne. Qed.

(** Looks a cell up under updates of other cells. *)
Ltac cell_lookup :=
  first [ eassumption
        | apply lookup_insert_eq
        | apply insert_node_ne; [congruence | cell_lookup] ].

(** Membership in an explicit list. *)
Ltac listed :=
  first [ assumption
        | apply list_elem_of_here
        | apply list_elem_of_further; listed
        | apply elem_of_app; first [left; listed | right; listed] ].

(** Conditions on pointers. *)
Ltac ptr_true :=
  first [ congruence | split; ptr_true | left; ptr_true | right; ptr_true ].

Ltac ptr_false :=
  let H := fresh in
  intros H;
  repeat match type of H with
         | _ /\ _ => destruct H as [? H]
         | _ \/ _ => destruct H as [H | H]
         end; congruence.

(** One step of an operation whose cells are known. *)
Ltac heap_step :=
  match goal with
  | |- context [bool_decide ?P] =>
      first [ rewrite (bool_decide_eq_true_2 P) by ptr_true
            | rewrite (bool_decide_eq_false_2 P) by ptr_false ]
  | |- context [item_at ?h (Some ?l)] => erewrite (item_at_node h l) by cell_lookup
  | |- context [update ?h (Some ?l) ?f] => erewrite (update_node h l _ f) by cell_lookup
  end; cbn [mbind outcome_bind next prev child set_next set_prev set_child].

(** ** Segments *)

Lemma seg_frame h h' pv p ls e :
  (forall l, l ∈ ls -> h' !! l = h !! l) -> seg h pv p ls e -> seg h' pv p ls e.
Proof.
  revert pv p. induction ls as [|l ls IH]; intros pv p Hf; [done|].
  intros (-> & i & Hi & Hp & Hs). split; [done|]. exists i.
  rewrite Hf by set_solver. split_and!; auto. apply IH; [|done]. set_solver.
Qed.

Lemma seg_insert h l c pv p ls e : l ∉ ls -> seg h pv p ls e -> seg (<[l := c]> h) pv p ls e.
Proof. intros Hl. apply seg_frame. intros k Hk. apply lookup_insert_ne. set_solver. Qed.

Lemma seg_app h pv p xs ys e :
  seg h pv p (xs ++ ys) e <->
  exists q, seg h pv p xs q /\ seg h (default pv (last xs)) q ys e.
Proof.
  revert pv p. induction xs as [|x xs IH]; intros pv p; cbn.
  { split; [intros H; exists p; done|]. intros (q & -> & H). done. }
  assert (default pv (last (x :: xs)) = default x (last xs)) as ->.
  { destruct xs as [|y xs]; [done|]. rewrite last_cons_cons.
    destruct (last (y :: xs)) eqn:E; [done|]. by apply last_None in E. }
  setoid_rewrite IH. split.
  - intros (-> & i & Hi & Hp & q & Hx & Hy). exists q. split; [|done]. split; [done|]. by exists i.
  - intros (q & (-> & i & Hi & Hp & Hx) & Hy). split; [done|]. exists i. split_and!; [done..|]. by exists q.
Qed.

Lemma seg_snoc h pv p xs z e :
  seg h pv p (xs ++ [z]) e <->
  seg h pv p xs (Some z) /\
  exists i, h !! z = Some (Node i) /\ prev i = Some (default pv (last xs)) /\ next i = e.
Proof.
  rewrite seg_app. cbn. split.
  - intros (q & Hx & -> & i & Hi & Hp & He). split; [done|]. by exists i.
  - intros (Hx & i & Hi & Hp & He). exists (Some z). split_and!; [done..|]. by exists i.
Qed.

(** The first item's [prev] can be set to anything. *)
Lemma seg_set_prev h pv pv' y ys e i :
  NoDup (y :: ys) -> h !! y = Some (Node i) -> seg h pv (Some y) (y :: ys) e ->
  seg (<[y := Node (set_prev (Some pv') i)]> h) pv' (Some y) (y :: ys) e.
Proof.
  intros [Hy _]%NoDup_cons Hi (_ & i' & Hi' & Hp & Hs). simplify_eq. split; [done|].
  exists (set_prev (Some pv') i). rewrite lookup_insert_eq.
  split_and!; [done..|]. cbn. by apply seg_insert.
Qed.

(** The last item's [next] can be set to anything. *)
Lemma seg_set_next h pv p ls z e e' i :
  NoDup ls -> last ls = Some z -> h !! z = Some (Node i) -> seg h pv p ls e ->
  seg (<[z := Node (set_next e' i)]> h) pv p ls e'.
Proof.
  intros Hnd [xs ->]%last_Some Hi [Hs (i' & Hi' & Hp & He)]%seg_snoc. simplify_eq.
  apply NoDup_app in Hnd as (_ & Hz & _). apply seg_snoc. split.
  { apply seg_insert; [|done]. intros Hx. apply (Hz z Hx). set_solver. }
  exists (set_next e' i). by rewrite lookup_insert_eq.
Qed.

Lemma seg_nodes h pv p ls e l : seg h pv p ls e -> l ∈ ls -> exists i, h !! l = Some (Node i).
Proof.
  revert pv p. induction ls as [|x ls IH]; intros pv p; [set_solver|].
  intros (_ & i & Hi & _ & Hs) [-> | Hl]%elem_of_cons; [by eexists|]. by eapply IH.
Qed.

(** ** Relinking *)

Lemma relinked_refl array ls h : relinked array ls h h.
Proof. split; [done..|]. intros a Ha. exists (child a). by destruct a. Qed.

Lemma relinked_trans array ls h1 h2 h3 :
  relinked array ls h1 h2 -> relinked array ls h2 h3 -> relinked array ls h1 h3.
Proof.
  intros [A1 B1 C1] [A2 B2 C2]. split.
  - intros l Hl. by rewrite A2, A1.
  - intros l Hl. by rewrite B2, B1.
  - intros a (p & Hp)%C1. destruct (C2 _ Hp) as (q & Hq). by exists q.
Qed.

Lemma relinked_link array ls h h' l i j :
  relinked array ls h h' -> h' !! l = Some (Node i) -> l ∈ ls -> l <> array ->
  bare (Node j) = bare (Node i) -> relinked array ls h (<[l := Node j]> h').
Proof.
  intros H Hi Hl Hne Hb. apply (relinked_trans _ _ _ _ _ H). split.
  - intros k Hk. apply lookup_insert_ne. set_solver.
  - intros k _. destruct (decide (k = l)) as [->|]; [|by rewrite lookup_insert_ne].
    rewrite lookup_insert_eq, Hi. cbn [fmap option_fmap option_map]. by rewrite Hb.
  - intros a Ha. rewrite lookup_insert_ne by done. exists (child a). by destruct a.
Qed.

Lemma relinked_owner array ls h h' a p :
  relinked array ls h h' -> h' !! array = Some (Node a) ->
  relinked array ls h (<[array := Node (set_child p a)]> h').
Proof.
  intros H Ha. apply (relinked_trans _ _ _ _ _ H). split.
  - intros k Hk. apply lookup_insert_ne. set_solver.
  - intros k Hk. by rewrite lookup_insert_ne.
  - intros b Hb. simplify_eq. exists p. apply lookup_insert_eq.
Qed.

(** ** Appending *)

Lemma NoDup_snoc {A} (xs : list A) z : z ∉ xs -> NoDup xs -> NoDup (xs ++ [z]).
Proof.
  intros Hz Hx. apply NoDup_app. split_and!; [done| |by apply NoDup_singleton].
  intros x Hin ->%list_elem_of_singleton. done.
Qed.

Lemma children_head h p ls : children h p ls -> p = head ls.
Proof. intros [H _]. destruct ls; cbn in H; naive_solver. Qed.

(** The first and the last of a non-empty sibling list. *)
Lemma children_ends h p y ys :
  children h p (y :: ys) ->
  exists iy z iz, p = Some y /\ h !! y = Some (Node iy) /\ prev iy = Some z /\
    last (y :: ys) = Some z /\ h !! z = Some (Node iz).
Proof.
  intros [(-> & iy & Hy & Hp & Hs) Hnd].
  destruct (last (y :: ys)) as [z|] eqn:Hz; [|by apply last_None in Hz].
  assert (z ∈ y :: ys) as Hin by by apply last_Some_elem_of.
  destruct (seg_nodes h z (Some y) (y :: ys) None z) as (iz & Hiz); [|done|].
  { split; [done|]. by exists iy. }
  by exists iy, z, iz.
Qed.

Lemma node_insert (h : heap) z i y iy :
  h !! y = Some (Node iy) -> exists j, (<[z := Node i]> h : heap) !! y = Some (Node j).
Proof.
  intros Hy. destruct (decide (z = y)) as [->|]; [by rewrite lookup_insert_eq; eexists|].
  rewrite lookup_insert_ne by done. by eexists.
Qed.

Lemma add_item_to_array_appends h array ls item i :
  array_is h array ls -> h !! item = Some (Node i) -> item ∉ array :: ls -> next i = None ->
  exists h', add_item_to_array h (Some array) (Some item) = Ret (true, h') /\
    array_is h' array (ls ++ [item]) /\ relinked array (item :: ls) h h'.
Proof.
  intros (a & Ha & Hc & Hal) Hi [Hia Hil]%not_elem_of_cons Hn.
  unfold add_item_to_array. heap_step. heap_step.
  destruct ls as [|y ys].
  - destruct Hc as [-> _]. do 3 heap_step. eexists. split; [done|]. split.
    + eexists. split_and!; [cell_lookup| |set_solver]. cbn. split; [|by apply NoDup_singleton].
      split; [done|]. eexists. split; [cell_lookup|]. done.
    + do 2 (eapply relinked_link; [|cell_lookup|listed|done|done]).
      eapply relinked_owner; [apply relinked_refl|done].
  - destruct (children_ends _ _ _ _ Hc) as (iy & z & iz & Hp & Hy & Hpy & Hz & Hiz).
    destruct Hc as [Hs Hnd]. rewrite Hp in *. heap_step. rewrite Hpy. unfold suffix_object.
    assert (z ∈ y :: ys) as Hzin by by apply last_Some_elem_of.
    assert (z <> item /\ z <> array /\ y <> item /\ y <> array) as (? & ? & ? & ?) by set_solver.
    do 3 heap_step.
    assert (exists iy', (<[z := Node (set_next (Some item) iz)]> h : heap) !! y = Some (Node iy')) as (iy' & Hy').
    { by eapply node_insert. }
    rewrite Hp. do 1 heap_step. eexists. split; [done|]. split.
    + exists a. split_and!; [cell_lookup| |set_solver].
      rewrite Hp. split; [|by apply NoDup_snoc]. rewrite last_snoc. apply seg_snoc. split.
      * apply (seg_set_prev _ z); [done|cell_lookup|]. apply seg_insert; [done|].
        eapply seg_set_next; [done..|]. by rewrite Hz in Hs.
      * eexists. split; [cell_lookup|]. by rewrite Hz.
    + do 3 (eapply relinked_link; [|cell_lookup|listed|done|done]). apply relinked_refl.
Qed.

(** ** Detaching *)

(** An item in the middle of a sibling list. *)
Lemma children_mid h p xs x ys :
  children h p (xs ++ x :: ys) ->
  exists i pv, pv = default x (last (x :: ys)) /\ h !! x = Some (Node i) /\
    prev i = Some (default pv (last xs)) /\ seg h pv p xs (Some x) /\ seg h x (next i) ys None /\
    NoDup xs /\ (x ∉ xs) /\ (x ∉ ys) /\ NoDup ys /\ (Forall (fun l => l ∉ ys) xs).
Proof.
  intros [(q & Hx & -> & i & Hi & Hp & Hy)%seg_app Hnd].
  assert (default 1%positive (last (xs ++ x :: ys)) = default x (last (x :: ys))) as Hl.
  { rewrite last_app. destruct (last (x :: ys)) eqn:E; [done|]. by apply last_None in E. }
  apply NoDup_app in Hnd as (H1 & H2 & [H3 H4]%NoDup_cons).
  exists i, (default x (last (x :: ys))). rewrite Hl in *. split_and!; auto.
  - intros Hin. apply (H2 x Hin). left.
  - apply Forall_forall. intros l Hin Hin'. apply (H2 l Hin). by right.
Qed.

Lemma detach_first h array x ys :
  array_is h array (x :: ys) ->
  exists h' i, cJSON_DetachItemViaPointer h (Some array) (Some x) = Ret (Some x, h') /\
    array_is h' array ys /\ relinked array (x :: ys) h h' /\
    h' !! x = Some (Node i) /\ next i = None /\ prev i = None.
Proof.
  intros (a & Ha & Hc & Hal).
  destruct (children_mid _ _ [] x ys Hc) as (i & pv & Hpv & Hi & Hp & Hx & Hy & _ & _ & Hxy & Hnd & _).
  cbn in Hx, Hp. apply not_elem_of_cons in Hal as [Hax Hal].
  unfold cJSON_DetachItemViaPointer. do 5 heap_step.
  destruct ys as [|y ys].
  - cbn in Hy. do 8 heap_step. do 2 eexists. split; [done|]. split_and!; [| |cell_lookup|done|done].
    + eexists. split_and!; [cell_lookup| |done]. rewrite Hy. split; [done|apply NoDup_nil_2].
    + do 2 (eapply relinked_link; [|cell_lookup|left|done|done]).
      eapply relinked_owner; [apply relinked_refl|done].
  - destruct Hy as (Hn & j & Hj & Hpj & Hy). apply not_elem_of_cons in Hxy as [Hxy Hxys].
    apply not_elem_of_cons in Hal as [Hay Hal].
    heap_step. rewrite Hn. do 8 heap_step. do 2 eexists. split; [done|].
    split_and!; [| |cell_lookup|done|done].
    + eexists. split_and!; [cell_lookup| |by apply not_elem_of_cons]. cbn. split; [|done].
      do 3 (apply seg_insert; [by apply not_elem_of_cons|]). rewrite Hp, Hn.
      assert (default 1%positive (last (y :: ys)) = pv) as ->.
      { rewrite Hpv, last_cons_cons. destruct (last (y :: ys)) eqn:E; [done|]. by apply last_None in E. }
      apply (seg_set_prev _ x); [done..|]. split; [done|]. by exists j.
    + do 2 (eapply relinked_link; [|cell_lookup|left|done|done]).
      eapply relinked_owner; [|cell_lookup].
      eapply relinked_link; [apply relinked_refl|done|right; left|done|done].
Qed.

Lemma seg_head h pv p y ys e : seg h pv p (y :: ys) e -> p = Some y /\ exists i, h !! y = Some (Node i).
Proof. intros (-> & i & Hi & _). eauto. Qed.

Lemma last_default {A} (x y : A) ys d : default d (last (x :: y :: ys)) = default x (last (y :: ys)).
Proof. rewrite last_cons_cons. destruct (last (y :: ys)) eqn:E; [done|]. by apply last_None in E. Qed.

Lemma detach_last h array y0 xs x :
  array_is h array ((y0 :: xs) ++ [x]) ->
  exists h' i, cJSON_DetachItemViaPointer h (Some array) (Some x) = Ret (Some x, h') /\
    array_is h' array (y0 :: xs) /\ relinked array ((y0 :: xs) ++ [x]) h h' /\
    h' !! x = Some (Node i) /\ next i = None /\ prev i = None.
Proof.
  intros (a & Ha & Hc & Hal).
  destruct (children_mid _ _ _ x [] Hc) as (i & pv & Hpv & Hi & Hp & Hx & Hy & Hnd & Hxx & _ & _ & _).
  cbn in Hy. apply not_elem_of_app in Hal as [Hal Hax]. rewrite list_elem_of_singleton in Hax.
  destruct (seg_head _ _ _ _ _ _ Hx) as [Hch (i0 & Hi0)].
  destruct (last (y0 :: xs)) as [w|] eqn:Hw; [|by apply last_None in Hw].
  assert (w ∈ y0 :: xs) as Hwin by by apply last_Some_elem_of.
  destruct (seg_nodes _ _ _ _ _ _ Hx Hwin) as (iw & Hiw).
  assert (x <> w /\ array <> w) as [Hxw Haw] by (split; congruence).
  assert (x <> y0 /\ array <> y0) as [Hx0 Ha0] by (split; intros ->; set_solver).
  cbn in Hp. unfold cJSON_DetachItemViaPointer. do 5 heap_step. rewrite Hp, Hy. do 6 heap_step.
  destruct (node_insert h w (set_next None iw) y0 i0 Hi0) as (j & Hj).
  rewrite Hch, Hp. do 4 heap_step. do 2 eexists. split; [done|].
  split_and!; [| |cell_lookup|done|done].
  - exists a. split_and!; [cell_lookup| |done]. rewrite Hch. split; [|done]. rewrite Hw.
    do 2 (apply seg_insert; [done|]). apply (seg_set_prev _ pv); [done..|].
    eapply seg_set_next; [done..|]. by rewrite <- Hch.
  - do 2 (eapply relinked_link; [|cell_lookup|listed|done|done]).
    do 2 (eapply relinked_link; [|eassumption|apply elem_of_app; left; first [done|left]|done|done]).
    apply relinked_refl.
Qed.

Lemma last_skip {A} (xs : list A) x y ys d d' :
  default d (last (xs ++ y :: ys)) = default d' (last (x :: y :: ys)).
Proof.
  rewrite last_app, last_default. destruct (last (y :: ys)) eqn:E; [done|]. by apply last_None in E.
Qed.

Lemma NoDup_split {A} (xs ys : list A) : NoDup xs -> NoDup ys -> Forall (fun l => l ∉ ys) xs -> NoDup (xs ++ ys).
Proof. intros Hx Hy H. apply NoDup_app. split_and!; [done| |done]. by apply Forall_forall. Qed.

Lemma detach_inner h array y0 xs x y ys :
  array_is h array ((y0 :: xs) ++ x :: y :: ys) ->
  exists h' i, cJSON_DetachItemViaPointer h (Some array) (Some x) = Ret (Some x, h') /\
    array_is h' array ((y0 :: xs) ++ y :: ys) /\ relinked array ((y0 :: xs) ++ x :: y :: ys) h h' /\
    h' !! x = Some (Node i) /\ next i = None /\ prev i = None.
Proof.
  intros (a & Ha & Hc & Hal).
  destruct (children_mid _ _ _ x _ Hc) as (i & pv & Hpv & Hi & Hp & Hx & Hy & Hnd & Hxx & Hxy & Hndy & Hdis).
  apply not_elem_of_app in Hal as [Hal [Hax Hay]%not_elem_of_cons].
  destruct (seg_head _ _ _ _ _ _ Hx) as [Hch _].
  destruct (seg_head _ _ _ _ _ _ Hy) as [Hn (j & Hj)].
  destruct (last (y0 :: xs)) as [w|] eqn:Hw; [|by apply last_None in Hw].
  assert (w ∈ y0 :: xs) as Hwin by by apply last_Some_elem_of.
  destruct (seg_nodes _ _ _ _ _ _ Hx Hwin) as (iw & Hiw).
  pose proof (proj1 (Forall_forall _ _) Hdis w Hwin) as Hwy.
  assert (y ∉ y0 :: xs) as Hyx.
  { intros Hin. apply (proj1 (Forall_forall _ _) Hdis y Hin). left. }
  assert (w <> y /\ array <> y /\ x <> y) as (Hwy' & Hay' & Hxy') by set_solver.
  assert (x <> w /\ array <> w /\ x <> y0) as (Hxw & Haw & Hx0) by set_solver.
  cbn in Hp. unfold cJSON_DetachItemViaPointer. do 5 heap_step. rewrite Hp, Hn. do 3 heap_step.
  rewrite Hn, Hp. repeat heap_step.
  do 2 eexists. split; [done|]. split_and!; [| |cell_lookup|done|done].
  - exists a. split_and!; [cell_lookup| |by apply not_elem_of_app]. split; [|by apply NoDup_split].
    rewrite (last_skip _ x _ _ _ x), <- Hpv. do 2 (apply seg_insert; [by apply not_elem_of_app|]).
    apply seg_app. exists (Some y). rewrite Hw. split.
    + apply seg_insert; [done|]. by eapply seg_set_next.
    + apply (seg_set_prev _ x); [done|cell_lookup|]. apply seg_insert; [done|]. by rewrite <- Hn.
  - do 2 (eapply relinked_link; [|cell_lookup|listed|done|done]).
    eapply relinked_link; [|by apply insert_node_ne|listed|done|done].
    eapply relinked_link; [apply relinked_refl|done|listed|done|done].
Qed.

(** Detaching takes the item out of the list and clears its links. *)
Lemma detach_spec h array xs x ys :
  array_is h array (xs ++ x :: ys) ->
  exists h' i, cJSON_DetachItemViaPointer h (Some array) (Some x) = Ret (Some x, h') /\
    array_is h' array (xs ++ ys) /\ relinked array (xs ++ x :: ys) h h' /\
    h' !! x = Some (Node i) /\ next i = None /\ prev i = None.
Proof.
  destruct xs as [|y0 xs]; [apply detach_first|].
  destruct ys as [|y ys]; [rewrite app_nil_r; apply detach_last|apply detach_inner].
Qed.

(** ** Walking *)

Lemma walk_children_seg h pv p ls k :
  seg h pv p ls None -> walk_children h p k = Ret (ls !! k).
Proof.
  revert pv p k. induction ls as [|l ls IH]; intros pv p k; [by intros ->; destruct k|].
  intros (-> & i & Hi & _ & Hs). destruct k as [|k]; [done|]. cbn [walk_children lookup].
  rewrite (item_at_node _ _ _ Hi). cbn [mbind outcome_bind]. by eapply IH.
Qed.

Lemma get_array_item_spec h array ls k :
  array_is h array ls -> get_array_item h (Some array) k = Ret (ls !! k).
Proof.
  intros (a & Ha & [Hs _] & _). unfold get_array_item. heap_step. by eapply walk_children_seg.
Qed.

Lemma count_children_seg h pv p ls fuel n :
  seg h pv p ls None -> (length ls <= fuel)%nat -> count_children fuel h p n = Ret (n + zlen ls).
Proof.
  revert pv p fuel n. induction ls as [|l ls IH]; intros pv p fuel n.
  { intros -> _. destruct fuel; cbn; f_equal; len. }
  intros (-> & i & Hi & _ & Hs) Hf. destruct fuel as [|fuel]; [cbn in Hf; lia|]. cbn [count_children].
  rewrite (item_at_node _ _ _ Hi). cbn [mbind outcome_bind]. erewrite IH; [|done|cbn in Hf; lia].
  f_equal. len.
Qed.

(** Distinct cells of a heap are no more than its size. *)
Lemma cells_bound (h : heap) ls : NoDup ls -> Forall (fun l => is_Some (h !! l)) ls -> (length ls <= size h)%nat.
Proof.
  intros Hnd Hin. rewrite <- size_dom, <- (size_list_to_set (C := gset loc)) by done.
  apply subseteq_size. intros l Hl%elem_of_list_to_set.
  apply elem_of_dom. exact (proj1 (Forall_forall _ _) Hin l Hl).
Qed.

Lemma array_is_bound h array ls : array_is h array ls -> (length ls <= size h)%nat.
Proof.
  intros (a & Ha & [Hs Hnd] & _). apply cells_bound; [done|]. apply Forall_forall. intros l Hl.
  destruct (seg_nodes _ _ _ _ _ _ Hs Hl) as (i & ->). by eexists.
Qed.

Lemma array_size_spec h array ls : array_is h array ls -> cJSON_GetArraySize h (Some array) = Ret (i32 (zlen ls)).
Proof.
  intros Hal. pose proof (array_is_bound _ _ _ Hal). destruct Hal as (a & Ha & [Hs _] & _).
  unfold cJSON_GetArraySize. heap_step. erewrite count_children_seg by done. done.
Qed.
End CjsonList.
