(* ===== verification/CjsonEdit.v ===== *)
(** * Inserting and replacing siblings (gateway/src/cJSON.c)

    The list operations of [CjsonList] that need a second item: insertion at an
    index and replacement in place. *)
From Stdlib Require Import Floats.SpecFloat.
From S2P Require Import Prelude Heap Number Cjson CjsonHeap CjsonList.
Import CjsonHeap CjsonList.
Open Scope c_scope.
#[local] Set Warnings "-clear-no-such-hyp".

Module CjsonEdit.

(** ** Inserting *)

Definition insert_at {A} (k : nat) (x : A) (ls : list A) : list A := take k ls ++ x :: drop k ls.

Lemma last_ne {A} (y : A) ys d : default d (last (y :: ys)) = default y (last (y :: ys)).
Proof. destruct (last (y :: ys)) eqn:E; [done|]. by apply last_None in E. Qed.

Lemma insert_first h array y ys n i :
  array_is h array (y :: ys) -> h !! n = Some (Node i) -> n ∉ array :: y :: ys ->
  exists h', cJSON_InsertItemInArray h (Some array) 0 (Some n) = Ret (true, h') /\
    array_is h' array (n :: y :: ys) /\ relinked array (n :: y :: ys) h h'.
Proof.
  intros Har Hi [Hna [Hny Hnys]%not_elem_of_cons]%not_elem_of_cons.
  unfold cJSON_InsertItemInArray. cbn [Z.ltb Z.compare orb]. heap_step. change (Z.to_nat 0) with 0%nat.
  rewrite (get_array_item_spec _ _ _ _ Har). destruct Har as (a & Ha & Hc & [Hay Hal]%not_elem_of_cons).
  destruct (children_mid _ _ [] y ys Hc) as (j & pv & Hpv & Hj & Hp & Hx & Hy & _ & _ & Hyy & Hnd & _).
  cbn [lookup list_lookup]. cbn in Hx, Hp. repeat heap_step. 
  eexists. split; [done|]. split.
  - eexists. split_and!; [cell_lookup| |set_solver]. cbn [child set_child]. split.
    + rewrite (last_default n), (last_ne y ys n), <- Hpv. apply seg_insert; [set_solver|]. split; [done|].
      eexists. split; [cell_lookup|]. split; [done|]. apply (seg_set_prev _ pv); [by constructor|cell_lookup|].
      do 2 (apply seg_insert; [set_solver|]). split; [done|]. by exists j.
    + do 2 (constructor; [set_solver|]). done.
  - eapply relinked_owner; [|cell_lookup].
    do 3 (eapply relinked_link; [|cell_lookup|listed|done|done]). apply relinked_refl.
Qed.

Lemma insert_later h array y0 xs y ys n i :
  array_is h array ((y0 :: xs) ++ y :: ys) -> h !! n = Some (Node i) -> n ∉ array :: (y0 :: xs) ++ y :: ys ->
  exists h', cJSON_InsertItemInArray h (Some array) (zlen (y0 :: xs)) (Some n) = Ret (true, h') /\
    array_is h' array ((y0 :: xs) ++ n :: y :: ys) /\ relinked array (n :: (y0 :: xs) ++ y :: ys) h h'.
Proof.
  intros Har Hi [Hna [Hnx Hny]%not_elem_of_app]%not_elem_of_cons.
  unfold cJSON_InsertItemInArray. pose proof (zlen_nonneg (y0 :: xs)).
  replace (zlen (y0 :: xs) <? 0) with false by lia. cbn [orb]. heap_step.
  rewrite zlen_length, (get_array_item_spec _ _ _ _ Har), list_lookup_middle by done.
  destruct Har as (a & Ha & Hc & [Hax [Hay Hal]%not_elem_of_cons]%not_elem_of_app).
  destruct (children_mid _ _ _ y ys Hc) as (j & pv & Hpv & Hj & Hp & Hx & Hy & Hndx & Hyx & Hyy & Hnd & Hdis).
  destruct (seg_head _ _ _ _ _ _ Hx) as [Hch _].
  destruct (last (y0 :: xs)) as [w|] eqn:Hw; [|by apply last_None in Hw].
  assert (w ∈ y0 :: xs) as Hwin by by apply last_Some_elem_of.
  destruct (seg_nodes _ _ _ _ _ _ Hx Hwin) as (iw & Hiw).
  pose proof (proj1 (Forall_forall _ _) Hdis w Hwin) as Hwy. cbn in Hwy, Hp.
  assert (w <> n /\ w <> y /\ n <> y /\ y <> y0 /\ w <> array) as (? & ? & ? & ? & ?) by set_solver.
  repeat heap_step. rewrite Hp. repeat heap_step. eexists. split; [done|]. split.
  - exists a. split_and!; [cell_lookup| |set_solver]. rewrite Hch. split.
    + rewrite (last_skip _ n _ _ _ n), !last_default, (last_ne y ys n), <- Hpv. apply seg_app.
      exists (Some n). rewrite Hw. split.
      * eapply seg_set_next; [done..|cell_lookup|]. do 3 (apply seg_insert; [done|]). by rewrite <- Hch.
      * apply seg_insert; [set_solver|]. split; [done|]. eexists. split; [cell_lookup|]. split; [done|].
        apply (seg_set_prev _ w); [by constructor|cell_lookup|].
        do 2 (apply seg_insert; [done|]). split; [done|]. by exists j.
    + apply NoDup_split; [done| |]; [do 2 (constructor; [set_solver|]); done|].
      apply Forall_forall. intros l Hl. pose proof (proj1 (Forall_forall _ _) Hdis l Hl). set_solver.
  - do 4 (eapply relinked_link; [|cell_lookup|listed|done|done]). apply relinked_refl.
Qed.

Lemma relinked_mono array ls ls' h h' : ls ⊆ ls' -> relinked array ls h h' -> relinked array ls' h h'.
Proof. intros Hl [A B C]. split; [|done|done]. intros l Hl'. apply A. set_solver. Qed.

(** Inserting puts the item at its index, or at the end when the index is beyond
    it. *)
Lemma insert_spec h array ls which n i :
  array_is h array ls -> 0 <= which -> h !! n = Some (Node i) -> n ∉ array :: ls -> next i = None ->
  exists h', cJSON_InsertItemInArray h (Some array) which (Some n) = Ret (true, h') /\
    array_is h' array (insert_at (Z.to_nat which) n ls) /\ relinked array (n :: ls) h h'.
Proof.
  intros Har Hw Hi Hn Hni. unfold insert_at. destruct (drop (Z.to_nat which) ls) as [|y ys] eqn:Hd.
  - assert (length ls <= Z.to_nat which)%nat as Hlen.
    { apply (f_equal length) in Hd. rewrite length_drop in Hd. cbn in Hd. lia. }
    rewrite take_ge by done. unfold cJSON_InsertItemInArray.
    replace (which <? 0) with false by lia. cbn [orb]. heap_step.
    rewrite (get_array_item_spec _ _ _ _ Har), lookup_ge_None_2 by done.
    cbn [mbind outcome_bind]. heap_step.
    by eapply add_item_to_array_appends.
  - assert (ls = take (Z.to_nat which) ls ++ y :: ys) as Hls by by rewrite <- Hd, take_drop.
    assert (which = zlen (take (Z.to_nat which) ls)) as Hwl.
    { apply (f_equal length) in Hd. rewrite length_drop in Hd. cbn in Hd. unfold zlen.
      rewrite length_take. lia. }
    revert Hls Hwl. generalize (take (Z.to_nat which) ls). intros xs -> ->.
    destruct xs as [|y0 xs]; [by eapply insert_first|by eapply insert_later].
Qed.

(** ** Replacing *)

Lemma replace_first h array x ys r i :
  array_is h array (x :: ys) -> h !! r = Some (Node i) -> r ∉ array :: x :: ys ->
  exists h' ix, cJSON_ReplaceItemViaPointer h (Some array) (Some x) (Some r) =
      (h' ← cJSON_Delete h' (Some x); Ret (true, h')) /\
    array_is h' array (r :: ys) /\ relinked array (r :: x :: ys) h h' /\
    h' !! x = Some (Node ix) /\ next ix = None /\ prev ix = None.
Proof.
  intros (a & Ha & Hc & [Hax Hal]%not_elem_of_cons) Hi [Hra [Hrx Hrys]%not_elem_of_cons]%not_elem_of_cons.
  destruct (children_mid _ _ [] x ys Hc) as (j & pv & Hpv & Hj & Hp & Hx & Hy & _ & _ & Hxx & Hnd & _).
  cbn in Hx, Hp. unfold cJSON_ReplaceItemViaPointer. repeat heap_step. destruct ys as [|y ys].
  - cbn in Hy, Hpv. rewrite Hy. repeat heap_step. rewrite Hx. repeat heap_step.
    do 2 eexists. split; [done|]. split_and!; [| |cell_lookup|done|done].
    + eexists. split_and!; [cell_lookup| |set_solver]. cbn [child set_child].
      split; [|by apply NoDup_singleton]. split; [done|]. eexists. split; [cell_lookup|]. done.
    + do 2 (eapply relinked_link; [|cell_lookup|listed|done|done]).
      eapply relinked_owner; [|cell_lookup].
      do 3 (eapply relinked_link; [|cell_lookup|listed|done|done]). apply relinked_refl.
  - destruct Hy as (Hn & k & Hk & Hpk & Hy).
    assert (pv <> x) as Hpvx.
    { intros ->. rewrite last_default in Hpv. destruct (last (y :: ys)) as [z|] eqn:E.
      - apply last_Some_elem_of in E. cbn in Hpv. congruence.
      - by apply last_None in E. }
    assert (y <> r /\ y <> x /\ y <> array) as (? & ? & ?) by set_solver.
    rewrite Hn. repeat heap_step. rewrite Hx. repeat heap_step.
    do 2 eexists. split; [done|]. split_and!; [| |cell_lookup|done|done].
    + eexists. split_and!; [cell_lookup| |set_solver]. cbn [child set_child].
      split; [|by constructor]. rewrite last_default. rewrite last_default in Hpv.
      rewrite (last_ne y ys r), <- (last_ne y ys x), <- Hpv.
      do 3 (apply seg_insert; [set_solver|]). split; [done|]. eexists. split; [cell_lookup|].
      split; [done|]. apply (seg_set_prev _ x); [done|cell_lookup|].
      do 2 (apply seg_insert; [done|]). split; [done|]. by exists k.
    + do 2 (eapply relinked_link; [|cell_lookup|listed|done|done]).
      eapply relinked_owner; [|cell_lookup].
      do 3 (eapply relinked_link; [|cell_lookup|listed|done|done]). apply relinked_refl.
Qed.

Lemma replace_last h array y0 xs x r i :
  array_is h array ((y0 :: xs) ++ [x]) -> h !! r = Some (Node i) -> r ∉ array :: (y0 :: xs) ++ [x] ->
  exists h' ix, cJSON_ReplaceItemViaPointer h (Some array) (Some x) (Some r) =
      (h' ← cJSON_Delete h' (Some x); Ret (true, h')) /\
    array_is h' array ((y0 :: xs) ++ [r]) /\ relinked array (r :: (y0 :: xs) ++ [x]) h h' /\
    h' !! x = Some (Node ix) /\ next ix = None /\ prev ix = None.
Proof.
  intros (a & Ha & Hc & Hal) Hi [Hra [Hrx Hr1]%not_elem_of_app]%not_elem_of_cons.
  destruct (children_mid _ _ _ x [] Hc) as (j & pv & Hpv & Hj & Hp & Hx & Hy & Hnd & Hxx & _ & _ & _).
  cbn in Hy. apply not_elem_of_app in Hal as [Hal Hax]. rewrite list_elem_of_singleton in Hax, Hr1.
  destruct (seg_head _ _ _ _ _ _ Hx) as [Hch (i0 & Hi0)].
  destruct (last (y0 :: xs)) as [w|] eqn:Hw; [|by apply last_None in Hw].
  assert (w ∈ y0 :: xs) as Hwin by by apply last_Some_elem_of.
  destruct (seg_nodes _ _ _ _ _ _ Hx Hwin) as (iw & Hiw).
  assert (x <> w /\ array <> w /\ r <> w) as (? & ? & ?) by (split_and!; congruence).
  assert (x <> y0 /\ array <> y0 /\ r <> y0) as (? & ? & ?) by (split_and!; intros ->; set_solver).
  cbn in Hp. unfold cJSON_ReplaceItemViaPointer. repeat heap_step. rewrite Hp, Hy. repeat heap_step.
  rewrite Hch.
  match goal with
  | |- context [update ?g (Some y0) _] =>
      assert (exists k, g !! y0 = Some (Node k)) as (k & Hk) by (eapply node_insert; cell_lookup)
  end.
  repeat heap_step. do 2 eexists. split; [done|]. split_and!; [| |cell_lookup|done|done].
  - exists a. split_and!; [cell_lookup| |set_solver]. rewrite Hch. split; [|by apply NoDup_snoc].
    rewrite last_snoc. apply seg_snoc. split.
    + do 2 (apply seg_insert; [done|]). apply (seg_set_prev _ pv); [done|cell_lookup|].
      eapply seg_set_next; [done..|cell_lookup|]. do 2 (apply seg_insert; [done|]). by rewrite <- Hch.
    + eexists. split; [cell_lookup|]. by rewrite Hw.
  - do 3 (eapply relinked_link; [|cell_lookup|listed|done|done]).
    do 3 (eapply relinked_link; [|cell_lookup|listed|done|done]). apply relinked_refl.
Qed.

Lemma replace_inner h array y0 xs x y ys r i :
  array_is h array ((y0 :: xs) ++ x :: y :: ys) -> h !! r = Some (Node i) ->
  r ∉ array :: (y0 :: xs) ++ x :: y :: ys ->
  exists h' ix, cJSON_ReplaceItemViaPointer h (Some array) (Some x) (Some r) =
      (h' ← cJSON_Delete h' (Some x); Ret (true, h')) /\
    array_is h' array ((y0 :: xs) ++ r :: y :: ys) /\ relinked array (r :: (y0 :: xs) ++ x :: y :: ys) h h' /\
    h' !! x = Some (Node ix) /\ next ix = None /\ prev ix = None.
Proof.
  intros (a & Ha & Hc & Hal) Hi [Hra [Hrx [Hr1 Hry]%not_elem_of_cons]%not_elem_of_app]%not_elem_of_cons.
  destruct (children_mid _ _ _ x _ Hc) as (j & pv & Hpv & Hj & Hp & Hx & Hy & Hnd & Hxx & Hxy & Hndy & Hdis).
  apply not_elem_of_app in Hal as [Hal [Hax Hay]%not_elem_of_cons].
  destruct (seg_head _ _ _ _ _ _ Hx) as [Hch _].
  destruct (seg_head _ _ _ _ _ _ Hy) as [Hn (k & Hk)].
  destruct (last (y0 :: xs)) as [w|] eqn:Hw; [|by apply last_None in Hw].
  assert (w ∈ y0 :: xs) as Hwin by by apply last_Some_elem_of.
  destruct (seg_nodes _ _ _ _ _ _ Hx Hwin) as (iw & Hiw).
  pose proof (proj1 (Forall_forall _ _) Hdis w Hwin) as Hwy. cbn in Hwy, Hp.
  assert (y ∉ y0 :: xs) as Hyx.
  { intros Hin. apply (proj1 (Forall_forall _ _) Hdis y Hin). left. }
  assert (w <> y /\ array <> y /\ x <> y /\ r <> y) as (? & ? & ? & ?) by set_solver.
  assert (x <> w /\ array <> w /\ x <> y0 /\ r <> w) as (? & ? & ? & ?) by set_solver.
  unfold cJSON_ReplaceItemViaPointer. repeat heap_step. rewrite Hp, Hn. repeat heap_step.
  do 2 eexists. split; [done|]. split_and!; [| |cell_lookup|done|done].
  - exists a. split_and!; [cell_lookup| |set_solver]. split.
    + rewrite (last_skip _ r _ _ _ x), !last_default. rewrite last_default in Hpv.
      rewrite (last_ne y ys r), <- (last_ne y ys x), <- Hpv.
      do 2 (apply seg_insert; [set_solver|]). apply seg_app. exists (Some r). rewrite Hw. split.
      * eapply seg_set_next; [done..|cell_lookup|]. by do 3 (apply seg_insert; [done|]).
      * apply seg_insert; [set_solver|]. split; [done|]. eexists. split; [cell_lookup|].
        split; [done|]. apply (seg_set_prev _ x); [done|cell_lookup|].
        do 2 (apply seg_insert; [done|]). by rewrite <- Hn.
    + apply NoDup_split; [done|by constructor|]. apply Forall_forall. intros l Hl.
      pose proof (proj1 (Forall_forall _ _) Hdis l Hl). set_solver.
  - do 3 (eapply relinked_link; [|cell_lookup|listed|done|done]).
    do 3 (eapply relinked_link; [|cell_lookup|listed|done|done]). apply relinked_refl.
Qed.

(** Replacing puts the new item in the place of the old one, which is unlinked and
    deleted. *)
Lemma replace_spec h array xs x ys r i :
  array_is h array (xs ++ x :: ys) -> h !! r = Some (Node i) -> r ∉ array :: xs ++ x :: ys ->
  exists h' ix, cJSON_ReplaceItemViaPointer h (Some array) (Some x) (Some r) =
      (h' ← cJSON_Delete h' (Some x); Ret (true, h')) /\
    array_is h' array (xs ++ r :: ys) /\ relinked array (r :: xs ++ x :: ys) h h' /\
    h' !! x = Some (Node ix) /\ next ix = None /\ prev ix = None.
Proof.
  destruct xs as [|y0 xs]; [apply replace_first|].
  destruct ys as [|y ys]; [apply replace_last|apply replace_inner].
Qed.
End CjsonEdit.
