(* ===== verification/CjsonTree.v ===== *)
(** * Trees of cJSON items and their deletion (gateway/src/cJSON.c)

    A [tree] names the cells of an item and of the items below it.  [owned] says
    that the heap holds it and [footprint] lists the cells that belong to it: its
    items and those of its strings that are neither shared by reference nor
    constant.  [cJSON_Delete] frees exactly the footprint. *)
From Stdlib Require Import Floats.SpecFloat.
From S2P Require Import Prelude Heap Number Cjson CjsonHeap CjsonList.
Import CjsonHeap CjsonList.
Open Scope c_scope.
#[local] Set Warnings "-clear-no-such-hyp,-register-all".

Module CjsonTree.

Inductive tree := Tree (root : loc) (kids : list tree).

Definition root_of (t : tree) : loc := let (l, _) := t in l.

Section Induction.
Context (P : tree -> Prop) (H : forall l ks, Forall P ks -> P (Tree l ks)).

Fixpoint tree_nested_ind (t : tree) : P t :=
  match t with
  | Tree l ks =>
      H l ks ((fix go (ks : list tree) : Forall P ks :=
                 match ks with
                 | [] => Forall_nil_2 _
                 | k :: ks => Forall_cons_2 _ _ _ (tree_nested_ind k) (go ks)
                 end) ks)
  end.
End Induction.

Definition is_ref (i : cJSON) : bool := has_flag (type i) cJSON_IsReference.
Definition is_const (i : cJSON) : bool := has_flag (type i) cJSON_StringIsConst.

(** The strings [cJSON_Delete] frees with the item. *)
Definition owned_strings (i : cJSON) : list loc :=
  (if is_ref i then [] else option_list (valuestring i)) ++
  (if is_const i then [] else option_list (string i)).

Definition strings_at (h : heap) (l : loc) : list loc :=
  match h !! l with Some (Node i) => owned_strings i | _ => [] end.

Fixpoint footprint (h : heap) (t : tree) : list loc :=
  match t with Tree l ks => l :: strings_at h l ++ flat_map (footprint h) ks end.

(** The cells below the item itself. *)
Definition below (h : heap) (t : tree) : list loc :=
  match t with Tree l ks => strings_at h l ++ flat_map (footprint h) ks end.

(** The [next] chain. *)
Fixpoint nexts (h : heap) (p : option loc) (ls : list loc) : Prop :=
  match ls with
  | [] => p = None
  | l :: ls => p = Some l /\ exists i, h !! l = Some (Node i) /\ nexts h (next i) ls
  end.

(** The heap holds the tree; [L] is what is asked of the links of siblings. *)
Inductive owned (L : heap -> option loc -> list loc -> Prop) (h : heap) : tree -> Prop :=
| owned_tree l i ks :
    h !! l = Some (Node i) ->
    Forall (fun s => is_Some (h !! s)) (owned_strings i) ->
    (if is_ref i then ks = [] else L h (child i) (root_of <$> ks)) ->
    Forall (owned L h) ks ->
    owned L h (Tree l ks).

Lemma all_in {A} (P : A -> Prop) ls x : Forall P ls -> x ∈ ls -> P x.
Proof. intros H. by apply Forall_forall. Qed.

(** [h] without some cells *)
Definition minus (h : heap) (ls : list loc) : heap := foldr delete h ls.

Lemma lookup_minus h ls l : minus h ls !! l = if decide (l ∈ ls) then None else h !! l.
Proof.
  induction ls as [|k ls IH]; cbn [minus foldr]; [destruct (decide (l ∈ [])) as [[]%not_elem_of_nil|]; done|].
  destruct (decide (l = k)) as [->|Hne].
  - rewrite lookup_delete_eq. by destruct (decide (k ∈ k :: ls)); [|set_solver].
  - rewrite lookup_delete_ne by done. unfold minus in IH. rewrite IH.
    destruct (decide (l ∈ ls)), (decide (l ∈ k :: ls)); set_solver.
Qed.

Lemma minus_out h ls l : l ∉ ls -> minus h ls !! l = h !! l.
Proof. intros H. rewrite lookup_minus. by destruct (decide (l ∈ ls)). Qed.

Lemma minus_minus h xs ys : minus (minus h xs) ys = minus h (xs ++ ys).
Proof.
  apply map_eq. intros l. rewrite !lookup_minus.
  destruct (decide (l ∈ xs)), (decide (l ∈ ys)), (decide (l ∈ xs ++ ys)); set_solver.
Qed.

Lemma minus_perm h xs ys : xs ≡ₚ ys -> minus h xs = minus h ys.
Proof.
  intros Hp. apply map_eq. intros l. rewrite !lookup_minus.
  destruct (decide (l ∈ xs)), (decide (l ∈ ys)); rewrite ?Hp in *; done.
Qed.

(** ** Frames *)

Lemma footprint_below h t : footprint h t = root_of t :: below h t.
Proof. by destruct t. Qed.

Lemma in_flat_map_kid {A B} (f : A -> list B) x xs b : x ∈ xs -> b ∈ f x -> b ∈ flat_map f xs.
Proof. intros Hx Hb. apply list_elem_of_In, in_flat_map. exists x. by rewrite <- !list_elem_of_In. Qed.

Lemma roots_below h l ks k : k ∈ root_of <$> ks -> k ∈ below h (Tree l ks).
Proof.
  intros (t & -> & Ht)%list_elem_of_fmap. cbn. apply elem_of_app. right.
  apply (in_flat_map_kid _ t); [done|]. rewrite footprint_below. left.
Qed.

Lemma strings_bare h h' l : bare <$> h' !! l = bare <$> h !! l -> strings_at h' l = strings_at h l.
Proof.
  unfold strings_at. destruct (h !! l) as [[i|s]|], (h' !! l) as [[j|s']|]; cbn; intros; simplify_eq; auto.
  destruct i, j; cbn in *; by simplify_eq.
Qed.

Lemma bare_node (h h' : heap) l i :
  bare <$> h' !! l = bare <$> h !! l -> h !! l = Some (Node i) ->
  exists j, h' !! l = Some (Node j) /\ bare (Node j) = bare (Node i).
Proof.
  intros Hb Hi. rewrite Hi in Hb. destruct (h' !! l) as [[j|s]|]; [|by cbn in Hb..].
  exists j. split; [done|]. by apply Some_inj in Hb.
Qed.

Lemma flat_map_same {A B} (f g : A -> list B) xs :
  (forall x, x ∈ xs -> f x = g x) -> flat_map f xs = flat_map g xs.
Proof.
  induction xs as [|x xs IH]; intros H; [done|]. cbn. rewrite H by left. f_equal. apply IH.
  intros y Hy. apply H. by right.
Qed.

Section Frame.
Context (L : heap -> option loc -> list loc -> Prop).
Context (L_frame : forall h h' p ls, (forall l, l ∈ ls -> h' !! l = h !! l) -> L h p ls -> L h' p ls).

(** A tree stays as it is when the cells below it do and its own item changes at
    most its sibling links. *)
Lemma owned_frame h h' t :
  owned L h t -> bare <$> h' !! root_of t = bare <$> h !! root_of t ->
  (forall l, l ∈ below h t -> h' !! l = h !! l) ->
  owned L h' t /\ footprint h' t = footprint h t.
Proof.
  induction t as [l ks IH] using tree_nested_ind.
  intros Ho Hb Hf. inversion Ho as [? i ? Hi Hs Hl Hk]; subst. cbn [root_of] in Hb.
  pose proof (strings_bare _ _ _ Hb) as Hst.
  destruct (bare_node _ _ _ _ Hb Hi) as (j & Hj & Hij).
  assert (forall k, k ∈ ks -> owned L h' k /\ footprint h' k = footprint h k) as Hks.
  { intros k Hin. pose proof (all_in _ _ _ IH Hin) as IHk. cbn in IHk. apply IHk.
    - by eapply (all_in _ _ _ Hk).
    - f_equal. apply Hf. apply roots_below, list_elem_of_fmap. by exists k.
    - intros m Hm. apply Hf. cbn. apply elem_of_app. right. apply (in_flat_map_kid _ k); [done|].
      rewrite footprint_below. by right. }
  split.
  2:{ cbn. rewrite Hst, (flat_map_same (footprint h') (footprint h) ks); [done|].
      intros k Hin. by apply Hks. }
  assert (owned_strings j = owned_strings i /\ is_ref j = is_ref i /\ child j = child i) as (E1 & E2 & E3).
  { destruct i, j; cbn in Hij; by simplify_eq. }
  apply (owned_tree L h' l j); [done| | |].
  - rewrite E1. apply Forall_forall. intros s' Hin. rewrite Hf; [by eapply (all_in _ _ _ Hs)|].
    cbn. apply elem_of_app. left. unfold strings_at. by rewrite Hi.
  - rewrite E2, E3. destruct (is_ref i); [done|]. apply (L_frame h); [|done].
    intros m Hm. apply Hf. by apply roots_below.
  - apply Forall_forall. intros k Hin. by apply Hks.
Qed.

Lemma footprint_cells h t : owned L h t -> Forall (fun l => is_Some (h !! l)) (footprint h t).
Proof.
  induction t as [l ks IH] using tree_nested_ind. intros Ho. inversion Ho as [? i ? Hi Hs Hl Hk]; subst.
  cbn. constructor; [by eexists|]. apply Forall_app. split; [unfold strings_at; by rewrite Hi|].
  apply Forall_forall. intros m (k & Hk' & Hm)%list_elem_of_In%in_flat_map.
  apply list_elem_of_In in Hk'. apply list_elem_of_In in Hm. pose proof (all_in _ _ _ IH Hk') as IHk.
  exact (all_in _ _ _ (IHk (all_in _ _ _ Hk Hk')) Hm).
Qed.
End Frame.

Lemma nexts_frame h h' p ls :
  (forall l, l ∈ ls -> h' !! l = h !! l) -> nexts h p ls -> nexts h' p ls.
Proof.
  revert p. induction ls as [|l ls IH]; intros p Hf; [done|].
  intros (-> & i & Hi & Hs). split; [done|]. exists i. rewrite Hf by left. split; [done|].
  apply IH; [|done]. intros m Hm. apply Hf. by right.
Qed.

Lemma children_frame h h' p ls :
  (forall l, l ∈ ls -> h' !! l = h !! l) -> children h p ls -> children h' p ls.
Proof. intros Hf [Hs Hn]. split; [|done]. by eapply seg_frame. Qed.

Lemma seg_nexts h pv p ls : seg h pv p ls None -> nexts h p ls.
Proof.
  revert pv p. induction ls as [|l ls IH]; intros pv p; [done|].
  intros (-> & i & Hi & _ & Hs). split; [done|]. exists i. split; [done|]. by eapply IH.
Qed.

Lemma owned_weaken h t : owned children h t -> owned nexts h t.
Proof.
  induction t as [l ks IH] using tree_nested_ind. intros Ho. inversion Ho as [? i ? Hi Hs Hl Hk]; subst.
  econstructor; [done..| |].
  - destruct (is_ref i); [done|]. destruct Hl as [Hl _]. by eapply seg_nexts.
  - apply Forall_forall. intros k Hin. apply (all_in _ _ _ IH Hin).
    by eapply (all_in _ _ _ Hk).
Qed.

(** ** Deletion *)

Lemma deallocate_cell (h : heap) l : is_Some (h !! l) -> deallocate h (Some l) = Ret (minus h [l]).
Proof. intros (c & Hc). unfold deallocate. cbn. by rewrite Hc. Qed.

Lemma deallocate_string h (keep : bool) s :
  Forall (fun l => is_Some (h !! l)) (if keep then [] else option_list s) ->
  (if (negb keep && bool_decide (s <> None))%bool then deallocate h s else Ret h) =
  Ret (minus h (if keep then [] else option_list s)).
Proof.
  intros Hs. destruct keep; [done|]. destruct s as [l|]; [|done]. cbn -[deallocate minus].
  apply deallocate_cell. by inversion Hs.
Qed.

Lemma forest_frame h h' ts :
  Forall (owned nexts h) ts -> (forall l, l ∈ flat_map (footprint h) ts -> h' !! l = h !! l) ->
  Forall (owned nexts h') ts /\ flat_map (footprint h') ts = flat_map (footprint h) ts.
Proof.
  intros Ho Hf.
  assert (forall t, t ∈ ts -> owned nexts h' t /\ footprint h' t = footprint h t) as Ht.
  { intros t Ht. assert (forall l, l ∈ footprint h t -> h' !! l = h !! l) as Hft.
    { intros l Hl. apply Hf. by apply (in_flat_map_kid _ t). }
    rewrite footprint_below in Hft. apply owned_frame; [apply nexts_frame|..].
    - by eapply (all_in _ _ _ Ho).
    - f_equal. apply Hft. left.
    - intros l Hl. apply Hft. by right. }
  split; [|apply flat_map_same; intros t Hin; by apply Ht].
  apply Forall_forall. intros t Hin. by apply Ht.
Qed.


Lemma delete_kids fuel h i ks :
  (if is_ref i then ks = [] else nexts h (child i) (root_of <$> ks)) ->
  (nexts h (child i) (root_of <$> ks) ->
   delete_items fuel h (child i) = Ret (minus h (flat_map (footprint h) ks))) ->
  (if (negb (is_ref i) && bool_decide (child i <> None))%bool then delete_items fuel h (child i) else Ret h) =
  Ret (minus h (flat_map (footprint h) ks)).
Proof.
  intros Hl Hd. destruct (is_ref i); [by subst ks|]. destruct (child i) as [c|] eqn:Hc.
  - rewrite bool_decide_eq_true_2 by done. by apply Hd.
  - destruct ks; [done|]. by destruct Hl.
Qed.

Lemma present_minus h xs ls :
  Forall (fun l => is_Some (h !! l)) ls -> (forall l, l ∈ ls -> l ∉ xs) ->
  Forall (fun l => is_Some (minus h xs !! l)) ls.
Proof.
  intros H Hd. apply Forall_forall. intros l Hl. rewrite minus_out by auto. by apply (all_in _ _ _ H).
Qed.

Lemma roots_nexts h h' p ts :
  nexts h p (root_of <$> ts) -> (forall l, l ∈ flat_map (footprint h) ts -> h' !! l = h !! l) ->
  nexts h' p (root_of <$> ts).
Proof.
  intros Hn Hf. eapply nexts_frame; [|done]. intros l (t & -> & Ht)%list_elem_of_fmap. apply Hf.
  apply (in_flat_map_kid _ t); [done|]. rewrite footprint_below. left.
Qed.

Lemma delete_forest fuel ts h p :
  nexts h p (root_of <$> ts) -> Forall (owned nexts h) ts -> NoDup (flat_map (footprint h) ts) ->
  (length (flat_map (footprint h) ts) <= fuel)%nat ->
  delete_items fuel h p = Ret (minus h (flat_map (footprint h) ts)).
Proof.
  revert ts h p. induction fuel as [|fuel IH]; intros ts h p Hn Ho Hnd Hf; destruct ts as [|[l ks] ts].
  1,3: by cbn in Hn; subst p.
  { cbn in Hf. lia. }
  cbn in Hn. destruct Hn as (-> & i & Hi & Hn). apply Forall_cons in Ho as [Ho Hots].
  inversion Ho as [? i' ? Hi' Hs Hl Hk]; subst. replace i' with i in * by congruence. clear i' Hi' Ho.
  cbn [flat_map footprint] in *. unfold strings_at in *. rewrite Hi in *.
  cbn [app] in *. apply NoDup_cons in Hnd as [Hl1 Hnd]. rewrite <- app_assoc in *.
  cbn [delete_items]. rewrite (item_at_node _ _ _ Hi). cbn [mbind outcome_bind].
  set (K := flat_map (footprint h) ks) in *. set (T := flat_map (footprint h) ts) in *.
  set (V := if is_ref i then [] else option_list (valuestring i)).
  set (N := if is_const i then [] else option_list (string i)).
  change (owned_strings i) with (V ++ N) in *. apply Forall_app in Hs as [HV HN].
  apply NoDup_app in Hnd as (HndVN & HVN & (HndK & HKT & HndT)%NoDup_app).
  apply NoDup_app in HndVN as (_ & HVN' & _). rewrite !length_cons, !length_app in Hf.
  fold (is_ref i) (is_const i). rewrite (delete_kids fuel h i ks); [|done|].
  2:{ intros Hc. apply IH; [done..|]. fold K. lia. }
  fold K. cbn [mbind outcome_bind].
  rewrite (deallocate_string _ (is_ref i)) by (apply present_minus; [done|set_solver]).
  cbn [mbind outcome_bind]. rewrite minus_minus.
  rewrite (deallocate_string _ (is_const i)) by (apply present_minus; [done|set_solver]).
  cbn [mbind outcome_bind]. rewrite minus_minus.
  rewrite deallocate_cell by (rewrite minus_out by set_solver; by eexists).
  cbn [mbind outcome_bind]. rewrite minus_minus. fold V N.
  assert (forall m, m ∈ T -> minus h (((K ++ V) ++ N) ++ [l]) !! m = h !! m) as Hfr.
  { intros m Hm. apply minus_out. set_solver. }
  destruct (forest_frame h _ ts Hots Hfr) as [Hots' HT]. fold T in HT.
  rewrite (IH ts); [|by apply (roots_nexts h)|done|rewrite HT; done|rewrite HT; lia].
  rewrite HT, minus_minus. f_equal. apply minus_perm. solve_Permutation.
Qed.

(** An item with everything below it: each cell belongs to it once. *)
Record whole (L : heap -> option loc -> list loc -> Prop) (h : heap) (t : tree) : Prop := {
  wh_owned : owned L h t;
  wh_once : NoDup (footprint h t) }.

Lemma delete_whole h t i :
  whole nexts h t -> h !! root_of t = Some (Node i) -> next i = None ->
  cJSON_Delete h (Some (root_of t)) = Ret (minus h (footprint h t)).
Proof.
  intros [Ho Hnd] Hi Hn. unfold cJSON_Delete. rewrite (delete_forest _ [t]); cbn [flat_map].
  - by rewrite app_nil_r.
  - cbn. split; [done|]. by exists i.
  - by constructor.
  - by rewrite app_nil_r.
  - rewrite app_nil_r. apply cells_bound; [done|]. by eapply footprint_cells.
Qed.
End CjsonTree.
