(* ===== verification/CjsonArray.v ===== *)
(** * Editing an array of trees (gateway/src/cJSON.c)

    Against the specification of an array as the list of the trees it holds:
    appending, inserting, deleting and replacing act on the list, keep every cell
    in exactly one place, free exactly what they take out, and leave the rest of
    the memory alone. *)
From Stdlib Require Import Floats.SpecFloat.
From S2P Require Import Prelude Heap Number Cjson CjsonHeap CjsonList CjsonEdit CjsonTree.
Import CjsonHeap CjsonList CjsonEdit CjsonTree.
Open Scope c_scope.
#[local] Set Warnings "-clear-no-such-hyp,-register-all".

Module CjsonArray.

(** ** Trees under relinking *)

Lemma forest_in h ts t l : t ∈ ts -> l ∈ footprint h t -> l ∈ flat_map (footprint h) ts.
Proof. apply in_flat_map_kid. Qed.

(** A root is below no tree of a forest. *)
Lemma root_not_below h ts u t :
  NoDup (flat_map (footprint h) ts) -> u ∈ ts -> t ∈ ts -> root_of u ∉ below h t.
Proof.
  induction ts as [|x ts IH]; [set_solver|]. cbn. intros (H1 & H2 & H3)%NoDup_app Hu Ht Hin.
  assert (forall y, y ∈ ts -> forall l, l ∈ footprint h y -> l ∈ flat_map (footprint h) ts) as Hy.
  { intros y Hy l. by apply forest_in. }
  assert (forall y, root_of y ∈ footprint h y) as Hr.
  { intros y. rewrite footprint_below. left. }
  assert (forall y, below h y ⊆ footprint h y) as Hb.
  { intros y l Hl. rewrite footprint_below. by right. }
  apply elem_of_cons in Hu as [-> | Hu], Ht as [-> | Ht].
  - rewrite footprint_below in H1. by apply NoDup_cons in H1 as [H1 _].
  - apply (H2 (root_of x) (Hr x)), (Hy t Ht), Hb, Hin.
  - apply (H2 (root_of u) (Hb x _ Hin)), (Hy u Hu), Hr.
  - by apply IH.
Qed.

Lemma relinked_owned a D h h' t :
  relinked a D h h' -> owned children h t -> a ∉ footprint h t -> (forall l, l ∈ D -> l ∉ below h t) ->
  owned children h' t /\ footprint h' t = footprint h t.
Proof.
  intros [Hout Hb _] Ho Ha HD. rewrite footprint_below in Ha. apply not_elem_of_cons in Ha as [Har Hab].
  apply owned_frame; [apply children_frame|done|by apply Hb|].
  intros l Hl. apply Hout. intros [-> | Hd]%elem_of_cons; [done|]. by apply (HD l).
Qed.

(** ** The array as a tree *)

(** [a] is an array that holds the trees [ts]; it is not a reference. *)
Definition holds (h : heap) (a : loc) (ts : list tree) : Prop :=
  whole children h (Tree a ts) /\ exists ai, h !! a = Some (Node ai) /\ is_ref ai = false.

Lemma holds_array h a ts : holds h a ts -> array_is h a (root_of <$> ts).
Proof.
  intros [[Ho Hnd] (ai & Ha & Hr)]. inversion Ho as [? i ? Hi Hs Hl Hk]; subst. simplify_eq.
  rewrite Hr in Hl. exists ai. split_and!; [done..|]. intros Hin. rewrite footprint_below in Hnd.
  apply NoDup_cons in Hnd as [Hnd _]. by apply Hnd, roots_below.
Qed.

Lemma holds_kids h a ts : holds h a ts -> Forall (owned children h) ts.
Proof. intros [[Ho _] _]. by inversion Ho. Qed.

(** The array after a relinking that leaves it the trees [ts']: they and the
    array's own strings are as before. *)
Lemma relinked_holds a ts us ts' h h' :
  holds h a ts -> relinked a (root_of <$> us) h h' -> array_is h' a (root_of <$> ts') ->
  Forall (owned children h) us -> ts' ⊆ us ->
  NoDup (a :: strings_at h a ++ flat_map (footprint h) us) ->
  NoDup (flat_map (footprint h) ts') ->
  holds h' a ts' /\ footprint h' (Tree a ts') = a :: strings_at h a ++ flat_map (footprint h) ts'.
Proof.
  intros [[Ho _] (ai & Ha & Hr)] Hrl (aj & Haj & Hc & _) Hus Hsub Hnd Hnd'.
  inversion Ho as [? i ? Hi Hs _ _]; subst. simplify_eq.
  destruct (rl_owner _ _ _ _ Hrl _ Ha) as (p & Hp). assert (aj = set_child p ai) as -> by congruence.
  apply NoDup_cons in Hnd as [Ha1 (Hns & Hdis & Hnu)%NoDup_app].
  rewrite not_elem_of_app in Ha1. destruct Ha1 as [Ha1 Ha2].
  assert (forall t, t ∈ ts' -> owned children h' t /\ footprint h' t = footprint h t) as Ht.
  { intros t Ht. eapply relinked_owned; [done|by apply (all_in _ _ _ Hus), Hsub|..].
    - intros Hin. by apply Ha2, (forest_in _ _ t); [apply Hsub|].
    - intros l (u & -> & Hu)%list_elem_of_fmap. apply (root_not_below _ us); auto. }
  assert (strings_at h' a = strings_at h a) as Hst.
  { unfold strings_at. by rewrite Hp, Ha. }
  assert (footprint h' (Tree a ts') = a :: strings_at h a ++ flat_map (footprint h) ts') as Hfp.
  { cbn. rewrite Hst, (flat_map_same (footprint h') (footprint h)); [done|]. intros t Hin. by apply Ht. }
  split; [|done]. split; [split|by eexists].
  - eapply owned_tree; [done| | |].
    + apply Forall_forall. intros s Hin. unfold strings_at in *. rewrite Ha in *.
      rewrite (rl_outside _ _ _ _ Hrl); [by apply (all_in _ _ _ Hs)|].
      intros [-> | (u & -> & Hu)%list_elem_of_fmap]%elem_of_cons; [done|].
      apply (Hdis _ Hin), (forest_in _ _ u); [done|]. rewrite footprint_below. left.
    + change (is_ref (set_child p ai)) with (is_ref ai). by rewrite Hr.
    + apply Forall_forall. intros t Hin. by apply Ht.
  - rewrite Hfp. constructor; [|apply NoDup_app; split_and!; [done| |done]].
    + apply not_elem_of_app. split; [done|]. intros (t & Hin & Hl)%list_elem_of_In%in_flat_map.
      apply list_elem_of_In in Hin, Hl. by apply Ha2, (forest_in _ _ t); [apply Hsub|].
    + intros l Hl (t & Hin & Hl')%list_elem_of_In%in_flat_map.
      apply list_elem_of_In in Hin, Hl'. by apply (Hdis _ Hl), (forest_in _ _ t); [apply Hsub|].
Qed.

Lemma holds_minus h a ts F :
  holds h a ts -> (forall l, l ∈ F -> l ∉ footprint h (Tree a ts)) -> holds (minus h F) a ts.
Proof.
  intros [[Ho Hnd] (ai & Ha & Hr)] HF.
  assert (forall l, l ∈ footprint h (Tree a ts) -> minus h F !! l = h !! l) as Hm.
  { intros l Hl. apply minus_out. intros Hin. by apply (HF l). }
  destruct (owned_frame _ children_frame h (minus h F) (Tree a ts) Ho) as [Ho' Hf].
  - f_equal. apply Hm. left.
  - intros l Hl. apply Hm. by right.
  - split; [split; [done|by rewrite Hf]|]. exists ai. split; [|done]. rewrite Hm; [done|left].
Qed.

(** Deleting a tree that a relinking has taken out. *)
Lemma delete_taken a us t h h' i :
  relinked a (root_of <$> us) h h' -> Forall (owned children h) us -> t ∈ us ->
  NoDup (a :: flat_map (footprint h) us) -> NoDup (footprint h t) ->
  h' !! root_of t = Some (Node i) -> next i = None ->
  cJSON_Delete h' (Some (root_of t)) = Ret (minus h' (footprint h t)).
Proof.
  intros Hrl Hus Ht [Ha Hnd]%NoDup_cons Hndt Hi Hn.
  destruct (relinked_owned a _ h h' t Hrl) as [Ho Hf].
  - by apply (all_in _ _ _ Hus).
  - intros Hin. by apply Ha, (forest_in _ _ t).
  - intros l (u & -> & Hu)%list_elem_of_fmap. by apply (root_not_below _ us).
  - rewrite <- Hf. eapply delete_whole; [|done|done]. split; [by apply owned_weaken|by rewrite Hf].
Qed.

(** ** Edits *)

Inductive edit :=
| Append (u : tree)
| Insert (which : Z) (u : tree)
| Remove (which : Z)
| Replace (which : Z) (u : tree).

(** The tree handed over. *)
Definition given (e : edit) : list tree :=
  match e with
  | Append u | Insert _ u | Replace _ u => [u]
  | Remove _ => []
  end.

Definition run_edit (h : heap) (a : loc) (e : edit) : outcome heap :=
  match e with
  | Append u => r ← cJSON_AddItemToArray h (Some a) (Some (root_of u)); Ret r.2
  | Insert which u => r ← cJSON_InsertItemInArray h (Some a) which (Some (root_of u)); Ret r.2
  | Remove which => cJSON_DeleteItemFromArray h (Some a) which
  | Replace which u => r ← cJSON_ReplaceItemInArray h (Some a) which (Some (root_of u)); Ret r.2
  end.

(** The index of an element, if there is one. *)
Definition position (which : Z) (ts : list tree) : option nat :=
  if ((0 <=? which) && (which <? zlen ts))%bool then Some (Z.to_nat which) else None.

(** The list after an edit, and what it deletes. *)
Definition edited (e : edit) (ts : list tree) : list tree * list tree :=
  match e with
  | Append u => (ts ++ [u], [])
  | Insert which u => (if which <? 0 then ts else insert_at (Z.to_nat which) u ts, [])
  | Remove which =>
      match position which ts with
      | Some k => (take k ts ++ drop (S k) ts, option_list (ts !! k))
      | None => (ts, [])
      end
  | Replace which u =>
      match position which ts with
      | Some k => (take k ts ++ u :: drop (S k) ts, option_list (ts !! k))
      | None => (ts, [])
      end
  end.

(** What holds after an edit. *)
Definition edit_done (h : heap) (a : loc) (ts : list tree) (e : edit) (h' : heap) : Prop :=
  holds h' a (edited e ts).1 /\
  (forall l, l ∈ flat_map (footprint h) (edited e ts).2 -> h' !! l = None) /\
  (forall l, l ∉ footprint h (Tree a ts) ++ flat_map (footprint h) (given e) -> h' !! l = h !! l).

(** A tree ready to be handed over: whole, and without a next sibling. *)
Definition loose (h : heap) (u : tree) : Prop :=
  whole children h u /\ exists i, h !! root_of u = Some (Node i) /\ next i = None.

Section Edit.
Context (h : heap) (a : loc) (ts : list tree).
Context (Hold : holds h a ts).

Lemma outside_unchanged us h' l :
  relinked a (root_of <$> us) h h' -> l ∉ a :: flat_map (footprint h) us -> h' !! l = h !! l.
Proof.
  intros Hrl [Hla Hl]%not_elem_of_cons. apply (rl_outside _ _ _ _ Hrl).
  intros [-> | (u & -> & Hu)%list_elem_of_fmap]%elem_of_cons; [done|].
  apply Hl, (forest_in _ _ u); [done|]. rewrite footprint_below. left.
Qed.

(** Linking one more tree in, at any place. *)
Lemma link_done e u ts' h' :
  loose h u -> NoDup (footprint h (Tree a ts) ++ footprint h u) ->
  given e = [u] -> edited e ts = (ts', []) -> ts' ≡ₚ u :: ts ->
  array_is h' a (root_of <$> ts') -> relinked a (root_of <$> u :: ts) h h' ->
  edit_done h a ts e h'.
Proof.
  intros [[Hou Hndu] _] Hnd Hg He Hp Har Hrl. unfold edit_done. rewrite He, Hg. cbn [fst snd flat_map].
  rewrite app_nil_r.
  assert (a :: strings_at h a ++ flat_map (footprint h) (u :: ts) ≡ₚ
          footprint h (Tree a ts) ++ footprint h u) as Hperm by (cbn; solve_Permutation).
  split_and!; [|by intros l ?%not_elem_of_nil|].
  - apply (relinked_holds a ts (u :: ts) ts' h h'); [done..| | | |].
    + constructor; [done|by eapply holds_kids].
    + intros t Ht. by rewrite Hp in Ht.
    + by rewrite Hperm.
    + rewrite Hp. rewrite <- Hperm in Hnd. by apply NoDup_cons in Hnd as [_ (_ & _ & Hnd)%NoDup_app].
  - intros l Hl. eapply outside_unchanged; [done|]. intros Hin. apply Hl. rewrite <- Hperm. set_solver.
Qed.

Lemma loose_outside u :
  NoDup (footprint h (Tree a ts) ++ footprint h u) -> root_of u ∉ a :: (root_of <$> ts).
Proof.
  intros (_ & Hd & _)%NoDup_app Hin. apply (Hd (root_of u)); [|rewrite footprint_below; left].
  rewrite footprint_below. apply elem_of_cons in Hin as [-> | Hin]; [left|]. right. by apply roots_below.
Qed.

Lemma append_done u :
  loose h u -> NoDup (footprint h (Tree a ts) ++ footprint h u) ->
  exists h', run_edit h a (Append u) = Ret h' /\ edit_done h a ts (Append u) h'.
Proof.
  intros Hl Hnd. pose proof Hl as [_ (i & Hi & Hn)].
  destruct (add_item_to_array_appends h a (root_of <$> ts) (root_of u) i) as (h' & Hr & Har & Hrl); [|done| |done|].
  { by apply holds_array. }
  { by apply loose_outside. }
  exists h'. cbn. unfold cJSON_AddItemToArray. rewrite Hr. split; [done|].
  apply (link_done _ u (ts ++ [u])); [done..| | |done].
  - solve_Permutation.
  - by rewrite fmap_app.
Qed.

Lemma insert_done which u :
  loose h u -> NoDup (footprint h (Tree a ts) ++ footprint h u) ->
  exists h', run_edit h a (Insert which u) = Ret h' /\ edit_done h a ts (Insert which u) h'.
Proof.
  intros Hl Hnd. pose proof Hl as [_ (i & Hi & Hn)]. destruct (Z.ltb_spec which 0) as [Hw|Hw].
  { exists h. cbn. unfold cJSON_InsertItemInArray, edit_done, edited. replace (which <? 0) with true by lia.
    split_and!; [done|done|by intros l ?%not_elem_of_nil|done]. }
  destruct (insert_spec h a (root_of <$> ts) which (root_of u) i) as (h' & Hr & Har & Hrl); [|done|done| |done|].
  { by apply holds_array. }
  { by apply loose_outside. }
  exists h'. cbn [run_edit]. rewrite Hr. split; [done|].
  apply (link_done _ u (insert_at (Z.to_nat which) u ts)); [done|done|done| | | |done].
  - cbn. by replace (which <? 0) with false by lia.
  - unfold insert_at. rewrite <- (take_drop (Z.to_nat which) ts) at 3. solve_Permutation.
  - unfold insert_at in *. by rewrite fmap_app, fmap_cons, fmap_take, fmap_drop.
Qed.

(** Taking the tree [t] out of the array and deleting it; [us] are the trees
    involved, [ts'] those that remain. *)
Lemma unlink_done t ts' us h1 i :
  us ≡ₚ t :: ts' -> Forall (owned children h) us ->
  NoDup (a :: strings_at h a ++ flat_map (footprint h) us) ->
  relinked a (root_of <$> us) h h1 -> array_is h1 a (root_of <$> ts') ->
  h1 !! root_of t = Some (Node i) -> next i = None ->
  exists h', cJSON_Delete h1 (Some (root_of t)) = Ret h' /\ holds h' a ts' /\
    (forall l, l ∈ footprint h t -> h' !! l = None) /\
    (forall l, l ∉ a :: flat_map (footprint h) us -> h' !! l = h !! l).
Proof.
  intros Hp Hus Hnd Hrl Har Hi Hn.
  assert (t ∈ us) as Ht by (rewrite Hp; left). pose proof Hnd as Hnd0.
  apply NoDup_cons in Hnd as [Ha (Hs & Hd & Hnu)%NoDup_app].
  pose proof Hnu as Hnu'. rewrite Hp in Hnu'. cbn in Hnu'. apply NoDup_app in Hnu' as (Hnt & Hdt & Hnts).
  exists (minus h1 (footprint h t)). split.
  { eapply delete_taken; try done. constructor; [set_solver|done]. }
  destruct (relinked_holds a ts us ts' h h1) as [Hh Hfp]; [done|done|done|done| |done|done|].
  { intros x Hx. rewrite Hp. by right. }
  split_and!.
  - apply holds_minus; [done|]. intros l Hl. rewrite Hfp.
    assert (l ∈ flat_map (footprint h) us) as Hlu by by apply (forest_in _ _ t).
    intros [-> | [Hin|Hin]%elem_of_app]%elem_of_cons.
    + apply Ha. apply elem_of_app. by right.
    + by apply (Hd l).
    + by apply (Hdt l).
  - intros l Hl. rewrite lookup_minus. by destruct (decide (l ∈ footprint h t)).
  - intros l Hl. rewrite minus_out; [by eapply outside_unchanged|].
    intros Hin. apply Hl. right. by apply (forest_in _ _ t).
Qed.

Lemma position_split which k :
  position which ts = Some k ->
  exists t, k = Z.to_nat which /\ 0 <= which /\ ts !! k = Some t /\ ts = take k ts ++ t :: drop (S k) ts.
Proof.
  unfold position. intros H. destruct ((0 <=? which) && (which <? zlen ts))%bool eqn:E; [|done].
  apply andb_prop in E as [E1%Z.leb_le E2%Z.ltb_lt]. simplify_eq. unfold zlen in E2.
  destruct (lookup_lt_is_Some_2 ts (Z.to_nat which)) as (t & Ht); [lia|].
  exists t. split_and!; [done..|]. by rewrite take_drop_middle.
Qed.

Lemma position_none which : position which ts = None -> 0 <= which -> ts !! Z.to_nat which = None.
Proof.
  unfold position. intros H Hw. apply lookup_ge_None. destruct (0 <=? which) eqn:E1; [|lia].
  destruct (which <? zlen ts) eqn:E2; [done|]. unfold zlen in E2. lia.
Qed.

Lemma remove_done which :
  exists h', run_edit h a (Remove which) = Ret h' /\ edit_done h a ts (Remove which) h'.
Proof.
  unfold edit_done. cbn [run_edit edited given flat_map].
  unfold cJSON_DeleteItemFromArray, cJSON_DetachItemFromArray, delete_detached.
  destruct (Z.ltb_spec which 0) as [Hw|Hw].
  { unfold position. replace (0 <=? which) with false by lia. cbn [andb mbind outcome_bind snd fst].
    exists h. unfold cJSON_Delete. split_and!; [by destruct (size h)|done|by intros l ?%not_elem_of_nil|done]. }
  rewrite (get_array_item_spec _ _ _ _ (holds_array _ _ _ Hold)), list_lookup_fmap. cbn [mbind outcome_bind].
  destruct (position which ts) as [k|] eqn:Hpos.
  - destruct (position_split _ _ Hpos) as (t & -> & _ & Ht & Hts). rewrite Ht. cbn [fmap option_fmap option_map].
    pose proof (holds_array _ _ _ Hold) as Har. rewrite Hts, fmap_app, fmap_cons in Har.
    destruct (detach_spec _ _ _ _ _ Har) as (h1 & i & Hr & Har1 & Hrl & Hi & Hn & _).
    rewrite Hr. cbn [mbind outcome_bind snd fst].
    destruct (unlink_done t (take (Z.to_nat which) ts ++ drop (S (Z.to_nat which)) ts) ts h1 i)
      as (h' & Hd & Hh & Hfree & Hout).
    + rewrite Hts at 1. solve_Permutation.
    + by eapply holds_kids.
    + by destruct Hold as [[_ Hnd] _].
    + by rewrite Hts, fmap_app, fmap_cons.
    + by rewrite fmap_app.
    + done.
    + done.
    + exists h'. split_and!; [done|done| |].
      * cbn. by rewrite app_nil_r.
      * intros l Hl. apply Hout. rewrite app_nil_r in Hl. set_solver.
  - rewrite (position_none _ Hpos Hw). exists h. unfold cJSON_DetachItemViaPointer. heap_step.
    unfold cJSON_Delete. cbn [fst snd]. split_and!; [by destruct (size h)|done|by intros l ?%not_elem_of_nil|done].
Qed.

Lemma replace_done which u :
  loose h u -> NoDup (footprint h (Tree a ts) ++ footprint h u) ->
  exists h', run_edit h a (Replace which u) = Ret h' /\ edit_done h a ts (Replace which u) h'.
Proof.
  intros Hl Hnd. pose proof Hl as [[Hou _] (iu & Hiu & _)].
  unfold edit_done. cbn [run_edit edited given flat_map]. unfold cJSON_ReplaceItemInArray.
  destruct (Z.ltb_spec which 0) as [Hw|Hw].
  { unfold position. replace (0 <=? which) with false by lia. cbn [andb mbind outcome_bind snd fst].
    exists h. split_and!; [done|done|by intros l ?%not_elem_of_nil|done]. }
  pose proof (holds_array _ _ _ Hold) as Har. pose proof (loose_outside _ Hnd) as Hout.
  rewrite (get_array_item_spec _ _ _ _ Har), list_lookup_fmap. cbn [mbind outcome_bind].
  destruct (position which ts) as [k|] eqn:Hpos.
  - destruct (position_split _ _ Hpos) as (t & -> & _ & Ht & Hts). rewrite Ht. cbn [fmap option_fmap option_map].
    rewrite Hts, fmap_app, fmap_cons in Har, Hout.
    destruct (replace_spec _ _ _ _ _ _ _ Har Hiu Hout) as (h1 & i & Hr & Har1 & Hrl & Hi & Hn & _).
    rewrite Hr.
    destruct (unlink_done t (take (Z.to_nat which) ts ++ u :: drop (S (Z.to_nat which)) ts) (u :: ts) h1 i)
      as (h' & Hd & Hh & Hfree & Hunch).
    + rewrite Hts at 1. solve_Permutation.
    + constructor; [done|by eapply holds_kids].
    + assert (a :: strings_at h a ++ flat_map (footprint h) (u :: ts) ≡ₚ
              footprint h (Tree a ts) ++ footprint h u) as -> by (cbn; solve_Permutation). done.
    + by rewrite fmap_cons, Hts, fmap_app, fmap_cons.
    + by rewrite fmap_app, fmap_cons.
    + done.
    + done.
    + exists h'. rewrite Hd. split_and!; [done|done| |].
      * cbn. by rewrite app_nil_r.
      * intros l Hl'. apply Hunch. rewrite app_nil_r in Hl'. cbn [footprint flat_map] in *. set_solver.
  - rewrite (position_none _ Hpos Hw). exists h. unfold cJSON_ReplaceItemViaPointer. heap_step.
    destruct Har as (ai & Ha & _). repeat heap_step.
    split_and!; [done|done|by intros l ?%not_elem_of_nil|done].
Qed.

(** C17: An array of trees refines the list of them: whatever the edit (append,
    insert at an index, delete at an index, replace at an index, with indices in
    and out of range), it runs without a memory error, the array then holds
    exactly the edited list, correctly linked and with no cell in two places; the
    cells of a deleted tree are all freed, and no cell outside the array and the
    tree handed over is touched. *)
Theorem array_refines_list e :
  Forall (loose h) (given e) ->
  NoDup (footprint h (Tree a ts) ++ flat_map (footprint h) (given e)) ->
  exists h', run_edit h a e = Ret h' /\ edit_done h a ts e h'.
Proof.
  intros Hg Hnd.
  destruct e as [u|which u|which|which u]; cbn [given flat_map] in Hg, Hnd; rewrite app_nil_r in Hnd;
    [apply append_done|apply insert_done|apply remove_done|apply replace_done]; first [done|by inversion Hg].
Qed.
End Edit.
End CjsonArray.
