(* ===== verification/CjsonValue.v ===== *)
(** * The values of cJSON trees (gateway/src/cJSON.c)

    What a tree of items says, apart from where its cells are: [value_of] reads
    it.  A value is the same in every heap that keeps the items up to their
    sibling links and the texts. *)
From Stdlib Require Import Floats.SpecFloat.
From S2P Require Import Prelude Heap Number Cjson CjsonHeap CjsonList CjsonTree.
Import CjsonHeap CjsonList CjsonTree.
Open Scope c_scope.
#[local] Set Warnings "-clear-no-such-hyp,-register-all".

Module CjsonValue.

Inductive value :=
| Value (type : Z) (valuestring : option (list Z)) (valueint : Z) (valuedouble : spec_float)
    (string : option (list Z)) (children : list value).

(** The text a pointer leads to. *)
Definition text (h : heap) (p : option loc) : option (list Z) :=
  s ← p; match h !! s with Some (Chars c) => Some c | _ => None end.

Definition item_value (h : heap) (i : cJSON) : list value -> value :=
  Value (type i) (text h (valuestring i)) (valueint i) (valuedouble i) (text h (string i)).

Fixpoint value_of (h : heap) (t : tree) : value :=
  match t with
  | Tree l ks =>
      match h !! l with
      | Some (Node i) => item_value h i (map (value_of h) ks)
      | _ => item_value h zero_item []
      end
  end.

Fixpoint items (t : tree) : list loc :=
  match t with Tree l ks => l :: flat_map items ks end.

(** A string pointer is NULL or leads to a text. *)
Definition text_ok (h : heap) (p : option loc) : Prop :=
  match p with Some s => exists c, h !! s = Some (Chars c) | None => True end.

(** The strings of all items are there. *)
Definition texts (h : heap) (t : tree) : Prop :=
  forall l, l ∈ items t -> exists i, h !! l = Some (Node i) /\ text_ok h (valuestring i) /\ text_ok h (string i).

(** [h'] has the texts of [h], and the items [ls] up to their sibling links. *)
Definition keeps (ls : list loc) (h h' : heap) : Prop :=
  (forall l i, l ∈ ls -> h !! l = Some (Node i) ->
     exists j, h' !! l = Some (Node j) /\ bare (Node j) = bare (Node i)) /\
  (forall s c, h !! s = Some (Chars c) -> h' !! s = Some (Chars c)).

Lemma bare_fields i j :
  bare (Node j) = bare (Node i) ->
  type j = type i /\ child j = child i /\ valuestring j = valuestring i /\ valueint j = valueint i /\
  valuedouble j = valuedouble i /\ string j = string i.
Proof. destruct i, j; cbn. intros H. by simplify_eq. Qed.

Lemma kid_items l ks k m : k ∈ ks -> m ∈ items k -> m ∈ items (Tree l ks).
Proof. intros Hk Hm. cbn. right. by apply (in_flat_map_kid _ k). Qed.

Lemma keeps_sub ls ls' h h' : ls' ⊆ ls -> keeps ls h h' -> keeps ls' h h'.
Proof. intros Hs [Hi Ht]. split; [|done]. intros l i Hl. by apply Hi, Hs. Qed.

Lemma keeps_text ls h h' p : keeps ls h h' -> text_ok h p -> text h' p = text h p /\ text_ok h' p.
Proof.
  intros [_ Ht] Hp. destruct p as [s|]; [|done]. destruct Hp as (c & Hc).
  cbn. rewrite Hc, (Ht _ _ Hc). eauto.
Qed.

Lemma value_keeps h h' t :
  keeps (items t) h h' -> texts h t -> value_of h' t = value_of h t /\ texts h' t.
Proof.
  intros Hk Htx. split.
  - induction t as [l ks IH] using tree_nested_ind. cbn [value_of].
    destruct (Htx l) as (i & Hi & Hv & Hs); [left|].
    destruct (proj1 Hk l i) as (j & Hj & (E1 & E2 & E3 & E4 & E5 & E6)%bare_fields); [left|done|].
    rewrite Hi, Hj. unfold item_value. rewrite E1, E3, E4, E5, E6.
    destruct (keeps_text _ _ _ _ Hk Hv) as [-> _]. destruct (keeps_text _ _ _ _ Hk Hs) as [-> _].
    f_equal. apply map_ext_in. intros k Hin%list_elem_of_In. apply (all_in _ _ _ IH Hin).
    + eapply keeps_sub; [|done]. intros m. by apply kid_items.
    + intros m Hm. apply Htx. by eapply kid_items.
  - intros l Hl. destruct (Htx l Hl) as (i & Hi & Hv & Hs).
    destruct (proj1 Hk l i) as (j & Hj & (E1 & E2 & E3 & E4 & E5 & E6)%bare_fields); [done..|].
    exists j. rewrite E3, E6. split; [done|].
    split; by eapply (keeps_text _ h h').
Qed.

Lemma keeps_grow ls h h' : h ⊆ h' -> keeps ls h h'.
Proof.
  intros Hs. split; [|intros; by eapply lookup_weaken]. intros l i _ Hi. exists i. split; [|done].
  by eapply lookup_weaken.
Qed.

Lemma keeps_relinked a D ls h h' ai :
  relinked a D h h' -> a ∉ ls -> h !! a = Some (Node ai) -> keeps ls h h'.
Proof.
  intros Hrl Ha Hai. split.
  - intros l i Hl Hi. apply (bare_node h); [|done]. apply (rl_content _ _ _ _ Hrl). congruence.
  - intros s c Hc. assert (s <> a) as Hne by congruence.
    pose proof (rl_content _ _ _ _ Hrl s Hne) as Hb. rewrite Hc in Hb.
    destruct (h' !! s) as [[|]|]; cbn in Hb; by simplify_eq.
Qed.

Lemma items_footprint h t : items t ⊆ footprint h t.
Proof.
  induction t as [l ks IH] using tree_nested_ind. intros m [-> | Hm]%elem_of_cons; [left|].
  cbn. right. apply elem_of_app. right. apply list_elem_of_In, in_flat_map in Hm as (k & Hk & Hm).
  apply list_elem_of_In in Hk, Hm. by apply (in_flat_map_kid _ k); [|apply (all_in _ _ _ IH Hk)].
Qed.

(** The heap holds the items below [t], whether they belong to it or not. *)
Inductive reach (h : heap) : tree -> Prop :=
| reach_tree l i ks :
    h !! l = Some (Node i) -> nexts h (child i) (root_of <$> ks) -> Forall (reach h) ks -> reach h (Tree l ks).

Lemma nexts_mono h h' p ls : h ⊆ h' -> nexts h p ls -> nexts h' p ls.
Proof.
  intros Hs. revert p. induction ls as [|l ls IH]; intros p; [done|].
  intros (-> & i & Hi & Hn). split; [done|]. exists i. split; [by eapply lookup_weaken|by apply IH].
Qed.

Lemma reach_mono h h' t : h ⊆ h' -> reach h t -> reach h' t.
Proof.
  intros Hs. induction t as [l ks IH] using tree_nested_ind. intros H. inversion H as [? i ? Hi Hn Hk]; subst.
  apply (reach_tree _ _ i); [by eapply lookup_weaken|by eapply nexts_mono|].
  apply Forall_forall. intros k Hin. apply (all_in _ _ _ IH Hin). by apply (all_in _ _ _ Hk).
Qed.
End CjsonValue.
