(* ===== verification/CjsonDup.v ===== *)
(** * Copies are complete or nothing (gateway/src/cJSON.c, cJSON_Duplicate)

    [cJSON_Duplicate] gives a tree of fresh cells with the value of the original,
    flagged as no reference, or, when an allocation fails or the nesting limit is
    exceeded, NULL with the heap exactly as it was. *)
From Stdlib Require Import Floats.SpecFloat.
From S2P Require Import Prelude Heap Number Cjson CjsonHeap CjsonList CjsonTree CjsonArray CjsonValue.
Import CjsonHeap CjsonList CjsonTree CjsonArray CjsonValue.
Open Scope c_scope.
#[local] Set Warnings "-clear-no-such-hyp,-register-all".

Module CjsonDup.

(** The value without the reference flag. *)
Fixpoint plain (v : value) : value :=
  match v with
  | Value t vs vi vd s ks => Value (t .& Z.lnot cJSON_IsReference) vs vi vd s (map plain ks)
  end.

(** How many levels of children there are. *)
Fixpoint height (t : tree) : Z :=
  match t with Tree _ ks => foldr (fun k m => Z.max (1 + height k) m) 0 ks end.

Fixpoint tree_size (t : tree) : nat :=
  match t with Tree _ ks => S (sum_list_with tree_size ks) end.

Lemma height_nonneg t : 0 <= height t.
Proof. destruct t as [l ks]. cbn. induction ks as [|k ks IH]; cbn; lia. Qed.

(** ** The copy of one item *)

Section Dup.
Context (malloc : heap -> option loc).
Context (malloc_fresh : forall h l, malloc h = Some l -> h !! l = None).

(** [h] is [h0] and the fresh cells [ls]. *)
Record grown (h0 h : heap) (ls : list loc) : Prop := {
  gr_once : NoDup ls;
  gr_fresh l : l ∈ ls -> h0 !! l = None;
  gr_there l : l ∈ ls -> is_Some (h !! l);
  gr_rest l : l ∉ ls -> h !! l = h0 !! l }.

Lemma grown_sub h0 h ls : grown h0 h ls -> h0 ⊆ h.
Proof.
  intros [_ Hf _ Hr]. apply map_subseteq_spec. intros l c Hl. rewrite Hr; [done|].
  intros Hin%Hf. congruence.
Qed.

Lemma grown_minus h0 h ls : grown h0 h ls -> minus h ls = h0.
Proof.
  intros [_ Hf _ Hr]. apply map_eq. intros l. rewrite lookup_minus.
  destruct (decide (l ∈ ls)); [symmetry|]; auto.
Qed.

Lemma grown_perm h0 h ls ls' : ls ≡ₚ ls' -> grown h0 h ls -> grown h0 h ls'.
Proof.
  intros Hp [H1 H2 H3 H4]. split; [by rewrite <- Hp|..]; intros l Hl; rewrite <- Hp in Hl; auto.
Qed.

Lemma grown_refl h : grown h h [].
Proof. split; [by constructor| | |done]; by intros l ?%not_elem_of_nil. Qed.

Lemma grown_trans h0 h h' ls ls' : grown h0 h ls -> grown h h' ls' -> grown h0 h' (ls ++ ls').
Proof.
  intros [H1 H2 H3 H4] [H1' H2' H3' H4'].
  assert (forall l, l ∈ ls -> l ∉ ls') as Hd.
  { intros l Hl Hl'. apply H3 in Hl as (c & Hc). apply H2' in Hl'. congruence. }
  split.
  - apply NoDup_app. split_and!; auto.
  - intros l [Hl|Hl]%elem_of_app; [auto|]. rewrite <- H4; [auto|]. intros Hin. by apply (Hd l).
  - intros l [Hl|Hl]%elem_of_app; [rewrite H4' by auto|]; auto.
  - intros l [Hl Hl']%not_elem_of_app. rewrite H4', H4; auto.
Qed.

Lemma grown_alloc h l c : h !! l = None -> grown h (<[l := c]> h) [l].
Proof.
  intros Hl. split; [by apply NoDup_singleton|..]; intros m.
  - by intros ->%list_elem_of_singleton.
  - intros ->%list_elem_of_singleton. rewrite lookup_insert_eq. by eexists.
  - intros Hm. apply lookup_insert_ne. intros ->. by apply Hm, list_elem_of_singleton.
Qed.

(** Writing to a new cell. *)
Lemma grown_write h0 h ls l c : grown h0 h ls -> l ∈ ls -> grown h0 (<[l := c]> h) ls.
Proof.
  intros [H1 H2 H3 H4] Hl. split; [done|done|..]; intros m Hm.
  - destruct (decide (l = m)) as [->|]; [by rewrite lookup_insert_eq; eexists|].
    rewrite lookup_insert_ne by done. auto.
  - rewrite lookup_insert_ne by congruence. auto.
Qed.

(** A single new item, not yet linked. *)
Record leaf (h0 h : heap) (l : loc) (j : cJSON) : Prop := {
  lf_node : h !! l = Some (Node j);
  lf_grown : grown h0 h (l :: owned_strings j);
  lf_alone : next j = None /\ prev j = None /\ child j = None;
  lf_plain : is_ref j = false }.

Lemma leaf_whole h0 h l j : leaf h0 h l j -> whole nexts h (Tree l []) /\ footprint h (Tree l []) = l :: owned_strings j.
Proof.
  intros [Hn Hg (_ & _ & Hc) Hr].
  assert (footprint h (Tree l []) = l :: owned_strings j) as Hf.
  { cbn. unfold strings_at. by rewrite Hn, app_nil_r. }
  split; [|done]. split; [|rewrite Hf; apply (gr_once _ _ _ Hg)].
  eapply owned_tree; [done| |by rewrite Hr, Hc|by constructor].
  apply Forall_forall. intros s Hs. apply (gr_there _ _ _ Hg). by right.
Qed.

(** Deleting it gives everything back. *)
Lemma leaf_delete h0 h l j : leaf h0 h l j -> cJSON_Delete h (Some l) = Ret h0.
Proof.
  intros Hl. destruct (leaf_whole _ _ _ _ Hl) as [Hw Hf]. destruct Hl as [Hn Hg (Hnx & _) _].
  pose proof (delete_whole h (Tree l []) j Hw Hn Hnx) as Hd. cbn [root_of] in Hd.
  rewrite Hd, Hf. by rewrite (grown_minus _ _ _ Hg).
Qed.

Lemma leaf_fail h0 h l j : leaf h0 h l j -> duplicate_fail h (Some l) = Ret (None, h0).
Proof. intros Hl. unfold duplicate_fail. by rewrite (leaf_delete _ _ _ _ Hl). Qed.

Lemma leaf_new h l : malloc h = Some l -> leaf h (<[l := Node zero_item]> h) l zero_item.
Proof.
  intros Hm. split; [apply lookup_insert_eq| |done|done]. cbn. apply grown_alloc. by apply malloc_fresh.
Qed.

(** Setting fields that own no string. *)
Lemma leaf_set h0 h l j j' :
  leaf h0 h l j -> owned_strings j' = owned_strings j -> next j' = None /\ prev j' = None /\ child j' = None ->
  is_ref j' = false -> leaf h0 (<[l := Node j']> h) l j'.
Proof.
  intros [Hn Hg _ _] Ho Ha Hr. split; [apply lookup_insert_eq| |done|done]. rewrite Ho.
  apply grown_write; [done|left].
Qed.

(** Adding a string of its own. *)
Lemma leaf_string h0 h l j j' c s :
  leaf h0 h l j -> malloc h = Some c -> owned_strings j' ≡ₚ owned_strings j ++ [c] ->
  next j' = None /\ prev j' = None /\ child j' = None -> is_ref j' = false ->
  leaf h0 (<[l := Node j']> (<[c := Chars s]> h)) l j' /\ c <> l.
Proof.
  intros [Hn Hg _ _] Hc Ho Ha Hr. apply malloc_fresh in Hc. split; [|congruence].
  split; [apply lookup_insert_eq| |done|done]. apply grown_write; [|left].
  eapply grown_perm; [|exact (grown_trans _ _ _ _ _ Hg (grown_alloc h c (Chars s) Hc))]. by rewrite Ho.
Qed.

Lemma has_flag_cleared t : has_flag (t .& Z.lnot cJSON_IsReference) cJSON_IsReference = false.
Proof.
  unfold has_flag. rewrite <- Z.land_assoc, (Z.land_comm (Z.lnot _)), Z.land_lnot_diag, Z.land_0_r. done.
Qed.

Lemma has_flag_other t : has_flag (t .& Z.lnot cJSON_IsReference) cJSON_StringIsConst = has_flag t cJSON_StringIsConst.
Proof. unfold has_flag. by rewrite <- Z.land_assoc. Qed.

(** The code that copies a string into a new item with the setter [f]. *)
Definition copied_into (h : heap) (p : option loc) (l : loc) (f : option loc -> cJSON -> cJSON) : outcome (bool * heap) :=
  d ← cJSON_strdup malloc h p;
  h ← update d.2 (Some l) (f d.1);
  Ret (bool_decide (d.1 <> None), h).

Lemma copied_into_spec h0 h l j s c f :
  leaf h0 h l j -> h !! s = Some (Chars c) ->
  owned_strings (f None j) = owned_strings j ->
  (forall q, owned_strings (f (Some q) j) ≡ₚ owned_strings j ++ [q]) ->
  (forall q, next (f q j) = next j /\ prev (f q j) = prev j /\ child (f q j) = child j /\ is_ref (f q j) = is_ref j) ->
  exists ok h' q, copied_into h (Some s) l f = Ret (ok, h') /\ leaf h0 h' l (f q j) /\
    keeps [] h h' /\ (ok = true -> text h' q = Some c) /\ (malloc h <> None -> ok = true).
Proof.
  intros Hl Hs Hf0 Hf1 Hf. unfold copied_into, cJSON_strdup, chars_at. cbn [deref mbind outcome_bind]. rewrite Hs.
  pose proof (lf_node _ _ _ _ Hl) as Hn. pose proof (lf_alone _ _ _ _ Hl) as (A1 & A2 & A3).
  assert (forall q, (next (f q j) = None /\ prev (f q j) = None /\ child (f q j) = None) /\ is_ref (f q j) = false) as Hfq.
  { intros q. destruct (Hf q) as (-> & -> & -> & ->). by rewrite (lf_plain _ _ _ _ Hl). }
  destruct (malloc h) as [q|] eqn:Hm; cbn [mbind outcome_bind fst snd].
  - destruct (leaf_string h0 h l j (f (Some q) j) q c) as [Hl' Hq]; [done|done|done|by apply Hfq..|].
    rewrite (update_node _ l j) by by rewrite lookup_insert_ne.
    exists true. do 2 eexists. split; [done|]. split; [done|]. split_and!; [split| |done].
    + by intros l' i ?%not_elem_of_nil.
    + intros s' c' Hc'. rewrite !lookup_insert_ne; [done|..]; [|congruence].
      intros ->. apply malloc_fresh in Hm. congruence.
    + intros _. cbn. by rewrite lookup_insert_ne, lookup_insert_eq.
  - rewrite (update_node _ l j) by done.
    exists false. do 2 eexists. split; [done|]. split; [by apply (leaf_set h0 h l j); [| |apply Hfq..]|].
    split_and!; [split|done|done].
    + by intros l' i ?%not_elem_of_nil.
    + intros s' c' Hc'. rewrite lookup_insert_ne; [done|congruence].
Qed.

(** The first string of the new item. *)
Definition copy_valuestring (h : heap) (i : cJSON) (l : loc) : outcome (bool * heap) :=
  if valuestring i is Some _ then copied_into h (valuestring i) l set_valuestring else Ret (true, h).

(** The second one. *)
Definition copy_name (h : heap) (i : cJSON) (l : loc) : outcome (bool * heap) :=
  if string i is Some _ then
    d ← (if has_flag (type i) cJSON_StringIsConst then Ret (string i, h) else cJSON_strdup malloc h (string i));
    h ← update d.2 (Some l) (set_string d.1);
    Ret (bool_decide (d.1 <> None), h)
  else Ret (true, h).

Lemma copy_valuestring_spec h0 h l j i :
  leaf h0 h l j -> valuestring j = None -> text_ok h (valuestring i) ->
  exists ok h' q, copy_valuestring h i l = Ret (ok, h') /\ leaf h0 h' l (set_valuestring q j) /\ keeps [] h h' /\
    (ok = true -> text h' q = text h (valuestring i) /\ text_ok h' q) /\ ((forall h, malloc h <> None) -> ok = true).
Proof.
  intros Hl Hv Ht. unfold copy_valuestring. destruct (valuestring i) as [s|].
  - destruct Ht as (c & Hc). pose proof (lf_plain _ _ _ _ Hl) as Hr.
    destruct (copied_into_spec h0 h l j s c set_valuestring) as (ok & h' & q & Hrun & Hl' & Hk & Htx & Hok); [done|done|..].
    + unfold owned_strings. cbn. by rewrite Hv.
    + intros q. unfold owned_strings, is_ref in *. cbn. rewrite Hr, Hv. cbn. solve_Permutation.
    + done.
    + exists ok, h', q. split_and!; [done..| |auto]. intros Htrue. rewrite (Htx Htrue). cbn. rewrite Hc.
      split; [done|]. specialize (Htx Htrue). destruct q as [q|]; [|done]. cbn in *.
      destruct (h' !! q) as [[|c']|]; [done| |done]. eauto.
  - exists true, h, None. split_and!; [done| |by apply keeps_grow|done|done].
    by replace (set_valuestring None j) with j by (rewrite <- Hv; by destruct j).
Qed.

Lemma copy_name_spec h0 h l j i :
  leaf h0 h l j -> string j = None -> is_const j = has_flag (type i) cJSON_StringIsConst -> text_ok h (string i) ->
  exists ok h' q, copy_name h i l = Ret (ok, h') /\ leaf h0 h' l (set_string q j) /\ keeps [] h h' /\
    (ok = true -> text h' q = text h (string i) /\ text_ok h' q) /\ ((forall h, malloc h <> None) -> ok = true).
Proof.
  intros Hl Hs Hc Ht. unfold copy_name. destruct (string i) as [s|].
  2:{ exists true, h, None. split_and!; [done| |by apply keeps_grow|done|done].
      by replace (set_string None j) with j by (rewrite <- Hs; by destruct j). }
  destruct Ht as (c & Ht). pose proof (lf_plain _ _ _ _ Hl) as Hr. rewrite <- Hc.
  destruct (is_const j) eqn:Hcj; cbn [mbind outcome_bind fst snd].
  - rewrite (update_node _ l j) by apply (lf_node _ _ _ _ Hl).
    assert (keeps [] h (<[l := Node (set_string (Some s) j)]> h)) as Hk.
    { split; [by intros l' i' ?%not_elem_of_nil|]. intros s' c' Hc'. rewrite lookup_insert_ne; [done|].
      intros ->. pose proof (lf_node _ _ _ _ Hl). congruence. }
    assert (text_ok h (Some s)) as Hok by by exists c.
    exists true. do 2 eexists. split_and!; [done| |done|by intros _; apply (keeps_text _ _ _ _ Hk Hok)|done].
    apply (leaf_set _ _ _ j); [done| |apply (lf_alone _ _ _ _ Hl)|done].
    unfold owned_strings, is_const in *. cbn. by rewrite Hcj.
  - destruct (copied_into_spec h0 h l j s c set_string) as (ok & h' & q & Hrun & Hl' & Hk & Htx & Hok); [done|done|..].
    + unfold owned_strings, is_const in *. cbn. by rewrite Hs, Hcj.
    + intros q. unfold owned_strings, is_const, is_ref in *. cbn. rewrite Hcj, Hs. cbn. solve_Permutation.
    + done.
    + exists ok, h', q. split_and!; [done..| |auto]. intros Htrue. rewrite (Htx Htrue). cbn. rewrite Ht.
      split; [done|]. specialize (Htx Htrue). destruct q as [q|]; [|done]. cbn in *.
      destruct (h' !! q) as [[|c']|]; [done| |done]. eauto.
Qed.

Lemma copy_fields_spec h0 h l i :
  leaf h0 h l zero_item -> text_ok h (valuestring i) -> text_ok h (string i) ->
  exists ok h' j, copy_fields malloc h i (Some l) = Ret (ok, h') /\ leaf h0 h' l j /\
    (ok = true -> text_ok h' (valuestring j) /\ text_ok h' (string j) /\
       item_value h' j = item_value h (set_type (type i .& Z.lnot cJSON_IsReference) i)) /\
    ((forall h, malloc h <> None) -> ok = true).
Proof.
  intros Hl Hv Hs. unfold copy_fields. rewrite (update_node _ l zero_item) by apply (lf_node _ _ _ _ Hl).
  cbn [mbind outcome_bind]. set (j := set_number _ _ _). set (h1 := <[l := Node j]> h).
  assert (leaf h0 h1 l j) as Hl1.
  { apply (leaf_set _ _ _ zero_item); [done| |done|apply has_flag_cleared].
    unfold owned_strings. cbn. by destruct (is_ref j), (is_const j). }
  assert (keeps [] h h1) as Hk1.
  { split; [by intros l' i' ?%not_elem_of_nil|]. intros s c Hc. unfold h1. rewrite lookup_insert_ne; [done|].
    intros ->. pose proof (lf_node _ _ _ _ Hl). congruence. }
  destruct (keeps_text _ _ _ _ Hk1 Hv) as [Ev1 Hv1]. destruct (keeps_text _ _ _ _ Hk1 Hs) as [Es1 Hs1].
  destruct (copy_valuestring_spec h0 h1 l j i) as (ok & h2 & q & Hrun & Hl2 & Hk2 & Ht2 & Hok2); [done..|].
  unfold copy_valuestring, copied_into in Hrun. rewrite Hrun. cbn [mbind outcome_bind].
  destruct ok; cbn [negb].
  2:{ exists false, h2. eexists. split_and!; [done..|]. intros Hm. by apply Hok2. }
  destruct (Ht2 eq_refl) as [Eq2 Hq2].
  destruct (keeps_text _ _ _ _ Hk2 Hs1) as [Es2 Hs2].
  destruct (copy_name_spec h0 h2 l (set_valuestring q j) i) as (ok & h3 & r & Hrun3 & Hl3 & Hk3 & Ht3 & Hok3);
    [done|done|apply has_flag_other|done|].
  unfold copy_name in Hrun3. rewrite Hrun3. exists ok, h3. eexists. split_and!; [done..| |done].
  intros Htrue. destruct (Ht3 Htrue) as [Er3 Hr3]. destruct (keeps_text _ _ _ _ Hk3 Hq2) as [Eq3 Hq3].
  split_and!; [done..|]. unfold item_value. cbn [type valuestring valueint valuedouble string set_type set_string
    set_valuestring j set_number]. by rewrite Eq3, Eq2, Ev1, Er3, Es2, Es1.
Qed.

(** ** The children copied so far *)

(** A sibling list whose first [prev] is not set yet. *)
Definition seg_open (h : heap) (p : option loc) (ls : list loc) : Prop :=
  match ls with
  | [] => p = None
  | y :: ys => p = Some y /\ exists i, h !! y = Some (Node i) /\ seg h y (next i) ys None
  end.

(** [h] is [h0] and the new item [l], with the fields [j], and its new children
    [ts]. *)
Record copying (h0 h : heap) (l : loc) (j : cJSON) (ts : list tree) : Prop := {
  cp_node : h !! l = Some (Node (set_child (head (root_of <$> ts)) j));
  cp_alone : next j = None /\ prev j = None;
  cp_plain : is_ref j = false;
  cp_links : seg_open h (head (root_of <$> ts)) (root_of <$> ts);
  cp_owned : Forall (owned children h) ts;
  cp_grown : grown h0 h (l :: owned_strings j ++ flat_map (footprint h) ts);
  cp_strings : text_ok h (valuestring j) /\ text_ok h (string j);
  cp_texts : Forall (texts h) ts }.

Lemma copying_start h0 h l j :
  leaf h0 h l j -> text_ok h (valuestring j) -> text_ok h (string j) -> copying h0 h l j [].
Proof.
  intros [Hn Hg (A1 & A2 & A3) Hr] Hv Hs. split; cbn; [|done|done|done|by constructor|by rewrite app_nil_r|done|by constructor].
  rewrite Hn. by replace (set_child None j) with j by (rewrite <- A3; by destruct j).
Qed.

Lemma seg_open_nexts h p ls : seg_open h p ls -> nexts h p ls.
Proof.
  destruct ls as [|y ys]; [done|]. intros (-> & i & Hi & Hs). split; [done|]. exists i.
  split; [done|]. by eapply seg_nexts.
Qed.

Lemma copying_footprint h0 h l j ts :
  copying h0 h l j ts -> footprint h (Tree l ts) = l :: owned_strings j ++ flat_map (footprint h) ts.
Proof. intros H. cbn. unfold strings_at. by rewrite (cp_node _ _ _ _ _ H). Qed.

Lemma copying_owned h0 h l j ts (L : heap -> option loc -> list loc -> Prop) :
  copying h0 h l j ts -> Forall (owned L h) ts -> L h (head (root_of <$> ts)) (root_of <$> ts) ->
  whole L h (Tree l ts).
Proof.
  intros H Ho HL. split; [|rewrite (copying_footprint _ _ _ _ _ H); apply (gr_once _ _ _ (cp_grown _ _ _ _ _ H))].
  eapply owned_tree; [apply (cp_node _ _ _ _ _ H)| | |done].
  - apply Forall_forall. intros s Hs. apply (gr_there _ _ _ (cp_grown _ _ _ _ _ H)). right.
    apply elem_of_app. by left.
  - change (is_ref (set_child (head (root_of <$> ts)) j)) with (is_ref j). by rewrite (cp_plain _ _ _ _ _ H).
Qed.

Lemma copying_fail h0 h l j ts : copying h0 h l j ts -> duplicate_fail h (Some l) = Ret (None, h0).
Proof.
  intros H. assert (whole nexts h (Tree l ts)) as Hw.
  { eapply copying_owned; [done| |by apply seg_open_nexts, (cp_links _ _ _ _ _ H)].
    apply Forall_forall. intros t Ht. by apply owned_weaken, (all_in _ _ _ (cp_owned _ _ _ _ _ H)). }
  pose proof (delete_whole h (Tree l ts) _ Hw (cp_node _ _ _ _ _ H)) as Hd. cbn [root_of] in Hd.
  unfold duplicate_fail. rewrite Hd by apply (cp_alone _ _ _ _ _ H).
  rewrite (copying_footprint _ _ _ _ _ H). cbn [mbind outcome_bind].
  by rewrite (grown_minus _ _ _ (cp_grown _ _ _ _ _ H)).
Qed.

(** A finished copy: fresh cells that hold a loose tree of the same value. *)
Record copied (h h' : heap) (v : value) (t' : tree) : Prop := {
  co_loose : loose h' t';
  co_texts : texts h' t';
  co_value : value_of h' t' = v;
  co_grown : grown h h' (footprint h' t') }.

Lemma owned_mono h h' t : h ⊆ h' -> owned children h t -> owned children h' t /\ footprint h' t = footprint h t.
Proof.
  intros Hs Ho.
  assert (forall l, l ∈ footprint h t -> h' !! l = h !! l) as Hf.
  { intros l Hl. pose proof (all_in _ _ _ (footprint_cells _ h t Ho) Hl) as (c & Hc).
    rewrite Hc. by eapply lookup_weaken. }
  rewrite footprint_below in Hf. apply owned_frame; [apply children_frame|done|f_equal; apply Hf; left|].
  intros l Hl. apply Hf. by right.
Qed.

Lemma forest_mono h h' ts :
  h ⊆ h' -> Forall (owned children h) ts ->
  Forall (owned children h') ts /\ flat_map (footprint h') ts = flat_map (footprint h) ts.
Proof.
  intros Hs Ho. split.
  - apply Forall_forall. intros t Ht. by apply (owned_mono h h' t Hs), (all_in _ _ _ Ho).
  - apply flat_map_same. intros t Ht. by apply (owned_mono h h' t Hs), (all_in _ _ _ Ho).
Qed.

Lemma seg_mono h h' pv p ls e : h ⊆ h' -> seg h pv p ls e -> seg h' pv p ls e.
Proof.
  intros Hs. revert pv p. induction ls as [|l ls IH]; intros pv p; [done|].
  intros (-> & i & Hi & Hp & Hn). split; [done|]. exists i. split_and!; [by eapply lookup_weaken|done|by apply IH].
Qed.

Lemma copying_mono h0 h h' l j ts ls :
  copying h0 h l j ts -> grown h h' ls ->
  Forall (owned children h') ts /\ flat_map (footprint h') ts = flat_map (footprint h) ts /\
  h' !! l = Some (Node (set_child (head (root_of <$> ts)) j)) /\
  seg_open h' (head (root_of <$> ts)) (root_of <$> ts) /\
  text_ok h' (valuestring j) /\ text_ok h' (string j) /\ Forall (texts h') ts /\
  map (value_of h') ts = map (value_of h) ts.
Proof.
  intros H Hg. pose proof (grown_sub _ _ _ Hg) as Hs. destruct (forest_mono _ _ _ Hs (cp_owned _ _ _ _ _ H)) as [H1 H2].
  assert (keeps [] h h') as Hk by by apply keeps_grow.
  split_and!; [done|done|by eapply lookup_weaken; [apply (cp_node _ _ _ _ _ H)|]| | | | |].
  - pose proof (cp_links _ _ _ _ _ H) as Hl. destruct (root_of <$> ts) as [|y ys]; [done|].
    destruct Hl as (? & i & Hi & Hl). split; [done|]. exists i. split; [by eapply lookup_weaken|by eapply seg_mono].
  - by apply (keeps_text _ _ _ _ Hk), (cp_strings _ _ _ _ _ H).
  - by apply (keeps_text _ _ _ _ Hk), (cp_strings _ _ _ _ _ H).
  - apply Forall_forall. intros t Ht. apply (value_keeps h h' t); [by apply keeps_grow|].
    by apply (all_in _ _ _ (cp_texts _ _ _ _ _ H)).
  - apply map_ext_in. intros t Ht%list_elem_of_In. apply (value_keeps h h' t); [by apply keeps_grow|].
    by apply (all_in _ _ _ (cp_texts _ _ _ _ _ H)).
Qed.

Lemma grown_relinked h0 h h' ls l D ai :
  grown h0 h ls -> relinked l D h h' -> l :: D ⊆ ls -> h !! l = Some (Node ai) -> grown h0 h' ls.
Proof.
  intros [H1 H2 H3 H4] Hrl Hs Hai. split; [done|done|..]; intros m Hm.
  - destruct (decide (m = l)) as [->|Hne].
    + destruct (rl_owner _ _ _ _ Hrl _ Hai) as (p & ->). by eexists.
    + pose proof (rl_content _ _ _ _ Hrl m Hne) as Hb. destruct (H3 m Hm) as (c & Hc). rewrite Hc in Hb.
      destruct (h' !! m); [by eexists|done].
  - rewrite (rl_outside _ _ _ _ Hrl); [auto|]. intros Hin. by apply Hm, Hs.
Qed.

(** Relinking the new children of the new item. *)
Lemma relinked_copying h0 h h' l j us a :
  grown h0 h (l :: owned_strings j ++ flat_map (footprint h) us) -> Forall (owned children h) us ->
  text_ok h (valuestring j) -> text_ok h (string j) -> Forall (texts h) us -> h !! l = Some (Node a) ->
  relinked l (root_of <$> us) h h' -> h' !! l = Some (Node (set_child (head (root_of <$> us)) j)) ->
  seg_open h' (head (root_of <$> us)) (root_of <$> us) ->
  next j = None /\ prev j = None -> is_ref j = false ->
  copying h0 h' l j us /\ map (value_of h') us = map (value_of h) us.
Proof.
  intros Hg Ho Hv Hs Htx Ha Hrl Hn Hl Hal Hr.
  pose proof (gr_once _ _ _ Hg) as [Hl1 (_ & _ & Hnu)%NoDup_app]%NoDup_cons.
  assert (l ∉ flat_map (footprint h) us) as Hlu by (intros Hin; apply Hl1, elem_of_app; by right).
  assert (forall t, t ∈ us -> l ∉ footprint h t) as Hlt by (intros t Ht Hin; by apply Hlu, (forest_in _ _ t)).
  assert (forall t, t ∈ us -> owned children h' t /\ footprint h' t = footprint h t) as Ht.
  { intros t Ht. eapply relinked_owned; [done|by apply (all_in _ _ _ Ho)|by apply Hlt|].
    intros m (u & -> & Hu)%list_elem_of_fmap. by apply (root_not_below _ us). }
  assert (forall t, t ∈ us -> value_of h' t = value_of h t /\ texts h' t) as Hval.
  { intros t Hin. apply value_keeps; [|by apply (all_in _ _ _ Htx)].
    eapply keeps_relinked; [done| |done]. intros Hi. by apply (Hlt t Hin), items_footprint. }
  assert (keeps [] h h') as Hk by (eapply keeps_relinked; [done|apply not_elem_of_nil|done]).
  split; [split; [done..| | | |]|].
  - apply Forall_forall. intros t Hin. by apply Ht.
  - rewrite (flat_map_same (footprint h') (footprint h)) by (intros t Hin; by apply Ht).
    eapply grown_relinked; [done|done| |done]. intros m [-> | (u & -> & Hu)%list_elem_of_fmap]%elem_of_cons; [left|].
    right. apply elem_of_app. right. apply (forest_in _ _ u); [done|]. rewrite footprint_below. left.
  - split; by apply (keeps_text _ _ _ _ Hk).
  - apply Forall_forall. intros t Hin. by apply Hval.
  - apply map_ext_in. intros t Hin%list_elem_of_In. by apply Hval.
Qed.

(** The code that links a new child in. *)
Definition link_copy (h : heap) (newitem nxt newchild : option loc) : outcome heap :=
  if nxt is Some _ then
    h ← update h nxt (set_next newchild); update h newchild (set_prev nxt)
  else update h newitem (set_child newchild).

Lemma seg_open_snoc h y ys w c iw ic :
  NoDup (y :: ys) -> c ∉ y :: ys -> seg_open h (Some y) (y :: ys) -> last (y :: ys) = Some w ->
  h !! w = Some (Node iw) -> h !! c = Some (Node ic) -> next ic = None ->
  seg_open (<[c := Node (set_prev (Some w) ic)]> (<[w := Node (set_next (Some c) iw)]> h)) (Some y) ((y :: ys) ++ [c]).
Proof.
  intros [Hy Hnd]%NoDup_cons [Hcy Hc]%not_elem_of_cons (_ & i & Hi & Hs) Hw Hiw Hic Hn. split; [done|].
  destruct ys as [|y' ys].
  - cbn in Hw. simplify_eq. eexists. split; [rewrite lookup_insert_ne by done; apply lookup_insert_eq|].
    split; [done|]. eexists. split; [apply lookup_insert_eq|done].
  - rewrite last_cons_cons in Hw.
    assert (w ∈ y' :: ys) as Hwin by by apply last_Some_elem_of.
    exists i. rewrite !lookup_insert_ne by congruence. split; [done|]. apply seg_snoc. split.
    + apply seg_insert; [done|]. by eapply seg_set_next.
    + eexists. split; [apply lookup_insert_eq|]. by rewrite Hw.
Qed.

Lemma link_copy_spec h l j ls c ic :
  h !! l = Some (Node (set_child (head ls) j)) -> seg_open h (head ls) ls -> NoDup (ls ++ [c]) -> l ∉ ls ++ [c] ->
  h !! c = Some (Node ic) -> next ic = None ->
  exists h', link_copy h (Some l) (last ls) (Some c) = Ret h' /\ relinked l (ls ++ [c]) h h' /\
    h' !! l = Some (Node (set_child (head (ls ++ [c])) j)) /\ seg_open h' (head (ls ++ [c])) (ls ++ [c]).
Proof.
  intros Hl Hs Hnd [Hll Hlc]%not_elem_of_app Hc Hn. rewrite list_elem_of_singleton in Hlc. unfold link_copy.
  destruct ls as [|y ys].
  - cbn [last]. heap_step. eexists. split; [done|]. split_and!.
    + eapply relinked_owner; [apply relinked_refl|done].
    + apply lookup_insert_eq.
    + split; [done|]. exists ic. rewrite lookup_insert_ne by done. by rewrite Hc, Hn.
  - destruct (last (y :: ys)) as [w|] eqn:Hw; [|by apply last_None in Hw].
    assert (w ∈ y :: ys) as Hwin by by apply last_Some_elem_of.
    apply NoDup_app in Hnd as (Hnd & Hd & _).
    assert (c ∉ y :: ys) as Hcy by (intros Hin; apply (Hd c Hin); left).
    assert (exists iw, h !! w = Some (Node iw)) as (iw & Hiw).
    { destruct Hs as (_ & i & Hi & Hs). apply elem_of_cons in Hwin as [-> | Hwin]; [by eexists|].
      by eapply seg_nodes. }
    assert (w <> c /\ w <> l) as [Hwc Hwl] by (split; congruence).
    repeat heap_step. eexists. split; [done|]. split_and!.
    + do 2 (eapply relinked_link; [|cell_lookup|listed|congruence|done]). apply relinked_refl.
    + rewrite !lookup_insert_ne by congruence. done.
    + by apply seg_open_snoc.
Qed.

Lemma roots_once h us : NoDup (flat_map (footprint h) us) -> NoDup (root_of <$> us).
Proof.
  induction us as [|u us IH]; cbn; [constructor|]. intros (_ & Hd & Hn)%NoDup_app.
  constructor; [|by apply IH]. intros (t & Ht & Hin)%list_elem_of_fmap. apply (Hd (root_of u)).
  - rewrite footprint_below. left.
  - apply (forest_in _ _ t); [done|]. rewrite footprint_below, Ht. left.
Qed.

Lemma link_step h0 h h1 l j ts t' v :
  copying h0 h l j ts -> copied h h1 v t' ->
  exists h2, link_copy h1 (Some l) (root_of <$> last ts) (Some (root_of t')) = Ret h2 /\
    copying h0 h2 l j (ts ++ [t']) /\ map (value_of h2) (ts ++ [t']) = map (value_of h) ts ++ [v] /\
    item_value h2 j = item_value h j.
Proof.
  intros H [[[Hot _] (ic & Hic & Hnc)] Htt Hvt Hgt].
  destruct (copying_mono _ _ _ _ _ _ _ H Hgt) as (M1 & M2 & M3 & M4 & M5 & M6 & M7 & M8).
  assert (grown h0 h1 (l :: owned_strings j ++ flat_map (footprint h1) (ts ++ [t']))) as Hg.
  { eapply grown_perm; [|apply (grown_trans _ _ _ _ _ (cp_grown _ _ _ _ _ H) Hgt)].
    rewrite flat_map_app, M2. cbn. solve_Permutation. }
  assert (Forall (owned children h1) (ts ++ [t'])) as Ho by (apply Forall_app; split; [done|by constructor]).
  assert (Forall (texts h1) (ts ++ [t'])) as Htx by (apply Forall_app; split; [done|by constructor]).
  assert (map (value_of h1) (ts ++ [t']) = map (value_of h) ts ++ [v]) as Hv by (by rewrite map_app, M8; cbn; rewrite Hvt).
  assert (exists h2, link_copy h1 (Some l) (root_of <$> last ts) (Some (root_of t')) = Ret h2 /\
            relinked l (root_of <$> ts ++ [t']) h1 h2 /\
            h2 !! l = Some (Node (set_child (head (root_of <$> ts ++ [t'])) j)) /\
            seg_open h2 (head (root_of <$> ts ++ [t'])) (root_of <$> ts ++ [t'])) as (h2 & Hrun & Hrl & Hn & Hsg).
  2:{ exists h2. split; [done|]. rewrite <- Hv. apply and_assoc. split.
      - eapply relinked_copying; try done; [apply (cp_alone _ _ _ _ _ H)|apply (cp_plain _ _ _ _ _ H)].
      - pose proof (cp_strings _ _ _ _ _ H) as [Hv0 Hs0].
        assert (keeps [] h h1) as K1 by by apply keeps_grow, (grown_sub _ _ _ Hgt).
        assert (keeps [] h1 h2) as K2 by (eapply keeps_relinked; [done|apply not_elem_of_nil|done]).
        unfold item_value. rewrite (proj1 (keeps_text _ _ _ _ K2 M5)), (proj1 (keeps_text _ _ _ _ K1 Hv0)).
        by rewrite (proj1 (keeps_text _ _ _ _ K2 M6)), (proj1 (keeps_text _ _ _ _ K1 Hs0)). }
  pose proof (gr_once _ _ _ Hg) as [Hl1 (_ & _ & Hnu%roots_once)%NoDup_app]%NoDup_cons.
  assert (l ∉ root_of <$> ts ++ [t']) as Hlr.
  { intros (u & -> & Hu)%list_elem_of_fmap. apply Hl1, elem_of_app. right.
    apply (forest_in _ _ u); [done|]. rewrite footprint_below. left. }
  rewrite <- fmap_last. rewrite fmap_app in *. cbn [fmap list_fmap] in *. clear -M3 M4 Hic Hnc Hlr Hnu.
  revert Hic Hlr Hnu M3 M4. generalize (root_of <$> ts), (root_of t'). intros ls c Hic Hlr Hnu Hl Hs.
  by apply link_copy_spec with (ic := ic).
Qed.

(** ** Closing the list *)

(** The code after the loop. *)
Definition close_copy (h : heap) (newitem nxt : option loc) : outcome (option loc * heap) :=
  n ← item_at h newitem;
  h ← (if child n is Some _ then update h (child n) (set_prev nxt) else Ret h);
  Ret (newitem, h).

Lemma close_links h l j ls :
  h !! l = Some (Node (set_child (head ls) j)) -> seg_open h (head ls) ls -> NoDup ls -> l ∉ ls ->
  exists h', close_copy h (Some l) (last ls) = Ret (Some l, h') /\ relinked l ls h h' /\
    h' !! l = Some (Node (set_child (head ls) j)) /\ children h' (head ls) ls.
Proof.
  intros Hl Hs Hnd Hll. unfold close_copy. rewrite (item_at_node _ _ _ Hl). cbn [mbind outcome_bind child set_child].
  destruct ls as [|y ys]; cbn [head].
  { exists h. split_and!; [done|apply relinked_refl|done|]. split; [done|constructor]. }
  destruct Hs as (_ & i & Hi & Hs). rewrite (update_node _ _ _ _ Hi). cbn [mbind outcome_bind].
  assert (y <> l) as Hyl by (intros ->; apply Hll; left).
  destruct (last (y :: ys)) as [w|] eqn:Hw; [|by apply last_None in Hw].
  eexists. split; [done|]. split_and!.
  - eapply relinked_link; [apply relinked_refl|done|left|done|done].
  - by rewrite lookup_insert_ne.
  - split; [|done]. rewrite Hw. cbn [default from_option id]. split; [done|]. eexists. split; [apply lookup_insert_eq|].
    split; [done|]. apply NoDup_cons in Hnd as [Hy _]. by apply seg_insert.
Qed.

Lemma seg_to_open h p ls : children h p ls -> seg_open h p ls.
Proof. intros [Hs _]. destruct ls as [|y ys]; [done|]. destruct Hs as (-> & i & Hi & _ & Hs). split; [done|]. by exists i. Qed.

Lemma close_step h0 h l j ts :
  copying h0 h l j ts ->
  exists h', close_copy h (Some l) (root_of <$> last ts) = Ret (Some l, h') /\
    copied h0 h' (item_value h j (map (value_of h) ts)) (Tree l ts).
Proof.
  intros H. pose proof (gr_once _ _ _ (cp_grown _ _ _ _ _ H)) as [Hl1 (_ & _ & Hnu)%NoDup_app]%NoDup_cons.
  destruct (close_links h l j (root_of <$> ts)) as (h' & Hrun & Hrl & Hn & Hc).
  { apply (cp_node _ _ _ _ _ H). }
  { apply (cp_links _ _ _ _ _ H). }
  { by eapply roots_once. }
  { intros (u & -> & Hu)%list_elem_of_fmap. apply Hl1, elem_of_app. right.
    apply (forest_in _ _ u); [done|]. rewrite footprint_below. left. }
  rewrite fmap_last in Hrun. exists h'. split; [done|].
  destruct (relinked_copying h0 h h' l j ts (set_child (head (root_of <$> ts)) j)) as [H' Hval];
    try first [apply H|done|by apply seg_to_open]; [by destruct H as [_ _ _ _ _ _ [? ?] _]..|].
  assert (keeps [] h h') as Hk by (eapply keeps_relinked; [done|apply not_elem_of_nil|apply H]).
  pose proof (cp_strings _ _ _ _ _ H) as [Hv Hs]. pose proof (cp_strings _ _ _ _ _ H') as [Hv' Hs'].
  split.
  - split; [|exists (set_child (head (root_of <$> ts)) j); split; [done|apply (cp_alone _ _ _ _ _ H)]].
    eapply copying_owned; [done|apply H'|done].
  - intros m [-> | (t & Ht & Hm)%list_elem_of_In%in_flat_map]%elem_of_cons; [by eexists|].
    apply list_elem_of_In in Ht, Hm. by apply (all_in _ _ _ (cp_texts _ _ _ _ _ H') Ht).
  - cbn [value_of]. rewrite Hn, Hval. unfold item_value.
    cbn [type valuestring valueint valuedouble string set_child].
    destruct (keeps_text _ _ _ _ Hk Hv) as [-> _]. by destruct (keeps_text _ _ _ _ Hk Hs) as [-> _].
  - rewrite (copying_footprint _ _ _ _ _ H'). apply H'.
Qed.

(** ** The whole copy *)

(** The outcome of a copy of a tree of value [v] and height [n] at a depth. *)
Definition dup_result (h : heap) (v : value) (n depth : Z) (r : option loc * heap) : Prop :=
  match r.1 with
  | Some l => exists t', root_of t' = l /\ copied h r.2 v t' /\ depth + n <= CJSON_CIRCULAR_LIMIT
  | None => r.2 = h /\ ((forall h, malloc h <> None) -> CJSON_CIRCULAR_LIMIT < depth + n)
  end.

Definition heights (ks : list tree) : Z := foldr (fun k m => Z.max (1 + height k) m) 0 ks.

(** What is shown of the copy of one tree. *)
Definition dup_tree (t : tree) : Prop :=
  forall fuel h depth, (2 * tree_size t <= fuel)%nat -> reach h t -> texts h t ->
  depth <= CJSON_CIRCULAR_LIMIT ->
  exists r, cJSON_Duplicate_rec malloc fuel h (Some (root_of t)) depth true = Ret r /\
    dup_result h (plain (value_of h t)) (height t) depth r.

Lemma dup_children ks : Forall dup_tree ks ->
  forall fuel h0 h l j ts p depth,
  (2 * sum_list_with tree_size ks + 1 <= fuel)%nat -> copying h0 h l j ts ->
  nexts h0 p (root_of <$> ks) -> Forall (reach h0) ks -> Forall (texts h0) ks ->
  depth <= CJSON_CIRCULAR_LIMIT ->
  exists r, duplicate_children malloc fuel h p depth (Some l) (root_of <$> last ts) = Ret r /\
    dup_result h0 (item_value h j (map (value_of h) ts ++ map (fun k => plain (value_of h0 k)) ks)) (heights ks) depth r.
Proof.
  intros Hall. induction Hall as [|k ks Hk Hall IH]; intros fuel h0 h l j ts p depth Hf Hc Hn Hr Ht Hd.
  - cbn in Hn. subst p. destruct fuel as [|fuel]; [cbn in Hf; lia|]. cbn [duplicate_children].
    destruct (close_step _ _ _ _ _ Hc) as (h' & Hrun & Hco). unfold close_copy in Hrun.
    exists (Some l, h'). split; [exact Hrun|]. cbn. exists (Tree l ts). split_and!; [done| |lia].
    by rewrite app_nil_r.
  - destruct fuel as [|fuel]; [cbn in Hf; lia|]. cbn in Hn. destruct Hn as (-> & ik & Hik & Hn).
    apply Forall_cons in Hr as [Hrk Hr], Ht as [Htk Ht]. cbn [duplicate_children].
    destruct (Z.leb_spec CJSON_CIRCULAR_LIMIT depth) as [Hlim|Hlim].
    { exists (None, h0). split; [by eapply copying_fail|]. cbn. split; [done|]. intros _.
      assert (0 <= height k) by apply height_nonneg. lia. }
    assert (1 <= tree_size k)%nat by (destruct k; cbn; lia).
    pose proof (grown_sub _ _ _ (cp_grown _ _ _ _ _ Hc)) as Hs.
    destruct (value_keeps h0 h k) as [Hvk Htk']; [by apply keeps_grow|done|].
    destruct (Hk fuel h (depth + 1)) as ([rc h1] & Hrun & Hres);
      [cbn in Hf; lia|by eapply reach_mono|done|lia|].
    rewrite Hrun. cbn [mbind outcome_bind]. rewrite Hvk in Hres. destruct rc as [c|]; cbn in Hres.
    + destruct Hres as (t' & <- & Hco & Hdep).
      destruct (link_step _ _ _ _ _ _ _ _ Hc Hco) as (h2 & Hlink & Hc2 & Hv2 & Hi2). unfold link_copy in Hlink.
      rewrite Hlink. cbn [mbind outcome_bind].
      pose proof (grown_sub _ _ _ (cp_grown _ _ _ _ _ Hc2)) as Hs2.
      rewrite (item_at_node h2 _ ik) by by eapply lookup_weaken. cbn [mbind outcome_bind].
      replace (Some (root_of t')) with (root_of <$> last (ts ++ [t'])) by by rewrite last_snoc.
      destruct (IH fuel h0 h2 l j (ts ++ [t']) (next ik) depth) as (r & Hr2 & Hres2); [cbn in Hf; lia|done..|].
      exists r. split; [done|]. rewrite Hv2, <- app_assoc in Hres2.
      rewrite Hi2 in Hres2. unfold dup_result in *.
      change (heights (k :: ks)) with (Z.max (1 + height k) (heights ks)).
      destruct (r.1); [|destruct Hres2 as [? Hlim2]; split; [done|]; intros Hm; specialize (Hlim2 Hm); lia].
      destruct Hres2 as (t2 & ? & ? & ?). exists t2. split_and!; [done..|lia].
    + destruct Hres as [-> Hlim2]. exists (None, h0). split; [by eapply copying_fail|]. cbn.
      split; [done|]. intros Hm. specialize (Hlim2 Hm). lia.
Qed.

Lemma dup_tree_all t : dup_tree t.
Proof.
  induction t as [l ks IH] using tree_nested_ind. intros fuel h depth Hf Hr Ht Hd.
  destruct fuel as [|fuel]; [cbn in Hf; lia|]. cbn [cJSON_Duplicate_rec root_of].
  inversion Hr as [? i ? Hi Hn Hrk]; subst.
  destruct (Ht l) as (i' & Hi' & Hv & Hs); [left|]. assert (i' = i) as -> by congruence.
  unfold cJSON_New_Item. destruct (malloc h) as [n|] eqn:Hm.
  2:{ exists (None, h). split; [done|]. cbn. split; [done|]. intros Hall. by destruct (Hall h). }
  pose proof (leaf_new _ _ Hm) as Hl0. set (h1 := <[n := Node zero_item]> h) in *.
  assert (h ⊆ h1) as Hs1 by by apply insert_subseteq, malloc_fresh.
  rewrite (item_at_node h1 l i) by by eapply lookup_weaken. cbn [mbind outcome_bind].
  assert (keeps [] h h1) as Hk1 by by apply keeps_grow.
  destruct (keeps_text _ _ _ _ Hk1 Hv) as [Ev Hv1], (keeps_text _ _ _ _ Hk1 Hs) as [Es Hs1'].
  destruct (copy_fields_spec h h1 n i Hl0 Hv1 Hs1') as (ok & h2 & j & Hrun & Hl & Hj & Hok).
  rewrite Hrun. cbn [mbind outcome_bind]. destruct ok; cbn [negb].
  2:{ exists (None, h). split; [by eapply leaf_fail|]. cbn. split; [done|]. intros Hall. by specialize (Hok Hall). }
  destruct (Hj eq_refl) as (Hjv & Hjs & Hval).
  destruct (dup_children ks IH fuel h h2 n j [] (child i) depth) as (r & Hr2 & Hres);
    [cbn in Hf; lia|by apply copying_start|done|done| |done|].
  { apply Forall_forall. intros k Hk m Hm'. apply Ht. by eapply kid_items. }
  exists r. split; [exact Hr2|]. cbn [map app] in Hres. rewrite Hval in Hres.
  cbn [value_of]. rewrite Hi. unfold item_value in *. cbn [type valuestring valueint valuedouble string set_type] in Hres.
  rewrite Ev, Es in Hres. cbn [plain]. rewrite map_map. exact Hres.
Qed.

(** C18: Duplication is all or nothing.  For every tree that can be read, given
    fuel for its items, [cJSON_Duplicate] returns: either a new tree, all of its
    cells fresh and each used once, correctly linked, with the value of the
    original (its reference flags cleared) and everything else in memory
    unchanged; or NULL, and then the memory is exactly as before, nothing of the
    partial copy being left.  When allocations succeed it fails only for a tree
    nested deeper than the limit. *)
Theorem duplicate_all_or_nothing fuel h t :
  (2 * tree_size t <= fuel)%nat -> reach h t -> texts h t ->
  exists r, cJSON_Duplicate malloc fuel h (Some (root_of t)) true = Ret r /\
    match r.1 with
    | Some l => exists t', root_of t' = l /\ height t <= CJSON_CIRCULAR_LIMIT /\
        loose r.2 t' /\ texts r.2 t' /\ value_of r.2 t' = plain (value_of h t) /\
        grown h r.2 (footprint r.2 t')
    | None => r.2 = h /\ ((forall h, malloc h <> None) -> CJSON_CIRCULAR_LIMIT < height t)
    end.
Proof.
  intros Hf Hr Ht. destruct (dup_tree_all t fuel h 0 Hf Hr Ht) as (r & Hrun & Hres); [done|].
  exists r. split; [exact Hrun|]. unfold dup_result in Hres. destruct (r.1) as [l|]; [|done].
  destruct Hres as (t' & Hl & [H1 H2 H3 H4] & Hd). by exists t'.
Qed.
End Dup.
End CjsonDup.
