(* ===== verification/CjsonObject.v ===== *)
(** * Objects in memory refine objects as values (gateway/src/cJSON.c)

    Lookup by name on the linked members, and the construction of objects member
    by member: each heap function against its counterpart on trees in [Cjson]. *)
From Stdlib Require Import Floats.SpecFloat.
From S2P Require Import Prelude Heap Number Cjson CjsonHeap CjsonList CjsonTree CjsonArray CjsonValue CjsonDup.
Import CjsonHeap CjsonList CjsonTree CjsonArray CjsonValue CjsonDup.
Open Scope c_scope.
#[local] Set Warnings "-clear-no-such-hyp,-register-all".

Module CjsonObject.

(** ** Comparing names *)

Lemma strcmp_with_zero f s1 s2 :
  (forall c, c <> 0 -> f c <> f 0) -> nonzero s1 -> nonzero s2 ->
  (strcmp_with f s1 s2 =? 0) = bool_decide (map f s1 = map f s2).
Proof.
  intros Hf H1. revert s2. induction H1 as [|c1 s1 Hc1 H1 IH]; intros [|c2 s2] H2; cbn [strcmp_with map].
  - done.
  - apply Forall_cons in H2 as [Hc2 _]. rewrite bool_decide_eq_false_2 by done.
    apply Z.eqb_neq. specialize (Hf c2 Hc2). lia.
  - rewrite bool_decide_eq_false_2 by done. apply Z.eqb_neq. specialize (Hf c1 Hc1). lia.
  - apply Forall_cons in H2 as [Hc2 H2]. destruct (Z.eqb_spec (f c1) (f c2)) as [E|E].
    + rewrite IH by done. rewrite E. apply bool_decide_ext. split; [by intros ->|]. by intros [= ?].
    + rewrite bool_decide_eq_false_2 by congruence. apply Z.eqb_neq. lia.
Qed.

Lemma tolower_zero c : c <> 0 -> tolower c <> tolower 0.
Proof. unfold tolower. intros Hc. cbn. destruct ((65 <=? c) && (c <=? 90))%bool eqn:E; [|done]. lia. Qed.

(** ** Lookup *)

(** Two names are the same for a lookup. *)
Definition same_name (case_sensitive : bool) (n1 n2 : list Z) : bool :=
  if case_sensitive then bool_decide (n1 = n2) else bool_decide (map tolower n1 = map tolower n2).

(** The member a lookup finds, members being given with their names: with case,
    a member without a name ends the search; without case, it is skipped. *)
Fixpoint first_named (case_sensitive : bool) (name : list Z) (ms : list (loc * option (list Z))) : option loc :=
  match ms with
  | [] => None
  | (l, Some n) :: ms => if same_name case_sensitive name n then Some l else first_named case_sensitive name ms
  | (_, None) :: ms => if case_sensitive then None else first_named case_sensitive name ms
  end.

Definition name_at (h : heap) (l : loc) : option (list Z) :=
  match h !! l with Some (Node i) => text h (string i) | _ => None end.

(** Names are there, and are C strings. *)
Definition named_ok (h : heap) (l : loc) : Prop :=
  exists i, h !! l = Some (Node i) /\ text_ok h (string i) /\ (forall n, text h (string i) = Some n -> nonzero n).

Lemma stops_at_spec h cs p nm l i :
  h !! p = Some (Chars nm) -> nonzero nm -> h !! l = Some (Node i) -> named_ok h l ->
  stops_at h cs (Some p) i =
    Ret (match text h (string i) with Some n => same_name cs nm n | None => cs end).
Proof.
  intros Hp Hnz Hi (i' & Hi' & Hok & Hn). simplify_eq. unfold stops_at, case_insensitive_strcmp, same_name, strcmp.
  destruct (string i) as [s|]; [|by destruct cs].
  destruct Hok as (n & Hs). cbn in Hn. cbn [text mbind option_bind] in *. rewrite Hs in *. specialize (Hn n eq_refl).
  unfold chars_at. cbn [deref mbind outcome_bind]. rewrite Hp, Hs. cbn [mbind outcome_bind]. destruct cs.
  - rewrite strcmp_with_zero by done. by rewrite !map_id.
  - destruct (decide (p = s)) as [->|Hne].
    + rewrite bool_decide_eq_true_2 by done. cbn [mbind outcome_bind]. simplify_eq.
      by rewrite bool_decide_eq_true_2.
    + rewrite bool_decide_eq_false_2 by done. cbn [mbind outcome_bind].
      rewrite strcmp_with_zero; [done|apply tolower_zero|done|done].
Qed.

Lemma find_element_spec h cs p nm q ls fuel :
  h !! p = Some (Chars nm) -> nonzero nm -> nexts h q ls -> Forall (named_ok h) ls -> (length ls <= fuel)%nat ->
  find_element fuel h cs (Some p) q = Ret (first_named cs nm (map (fun l => (l, name_at h l)) ls)).
Proof.
  intros Hp Hnz. revert q fuel. induction ls as [|l ls IH]; intros q fuel Hs Hok Hf.
  { cbn in Hs. subst q. by destruct fuel. }
  destruct Hs as (-> & i & Hi & Hs). apply Forall_cons in Hok as [Hl Hok].
  destruct fuel as [|fuel]; [cbn in Hf; lia|]. cbn [find_element map first_named].
  rewrite (item_at_node _ _ _ Hi). cbn [mbind outcome_bind]. rewrite (stops_at_spec _ _ _ _ _ _ Hp Hnz Hi Hl).
  cbn [mbind outcome_bind]. assert (name_at h l = text h (string i)) as -> by (unfold name_at; by rewrite Hi).
  rewrite (IH (next i) fuel) by (first [done|cbn in Hf; lia]).
  destruct (string i) as [s|] eqn:Es; [|by cbn; destruct cs].
  destruct Hl as (i' & Hi' & Hok' & _). simplify_eq. rewrite Es in Hok'. destruct Hok' as (n & Hn).
  cbn [text mbind option_bind]. rewrite Hn. by destruct (same_name cs nm n).
Qed.

(** A lookup by name, with or without regard to case, finds the first member
    of that name and nothing when there is none; it always returns.  Looking with
    case stops at a member without a name, looking without case passes it. *)
Theorem lookup_by_name h object ls p nm cs :
  array_is h object ls -> Forall (named_ok h) ls -> h !! p = Some (Chars nm) -> nonzero nm ->
  get_object_item h (Some object) (Some p) cs =
    Ret (first_named cs nm (map (fun l => (l, name_at h l)) ls)).
Proof.
  intros Hal Hok Hp Hnz. pose proof (array_is_bound _ _ _ Hal). destruct Hal as (a & Ha & [Hs _] & _).
  unfold get_object_item. rewrite (item_at_node _ _ _ Ha). cbn [mbind outcome_bind].
  apply seg_nexts in Hs. by eapply find_element_spec.
Qed.

(** ** From cells to trees of [Cjson] *)

Definition name_of (v : value) : option (list Z) := let (_, _, _, _, s, _) := v in s.

(** The tree a value stands for; raw and invalid items have none. *)
Fixpoint json_of (v : value) : option json :=
  match v with
  | Value t vs _ vd _ ks =>
      let b := t .& 255 in
      if b =? cJSON_False then Some (JBool false)
      else if b =? cJSON_True then Some (JBool true)
      else if b =? cJSON_NULL then Some JNull
      else if b =? cJSON_Number then Some (JNumber vd)
      else if b =? cJSON_String then JString <$> vs
      else if b =? cJSON_Array then JArray <$> mapM json_of ks
      else if b =? cJSON_Object then
        JObject <$> mapM (fun k => n ← name_of k; j ← json_of k; Some (n, j)) ks
      else None
  end.

(** Objects, with their members. *)
Definition member (k : value) : option (list Z * json) := n ← name_of k; j ← json_of k; Some (n, j).

Lemma json_of_object t vs vi vd s ks ms :
  json_of (Value t vs vi vd s ks) = Some (JObject ms) <-> t .& 255 = cJSON_Object /\ mapM member ks = Some ms.
Proof.
  cbn [json_of]. unfold member.
  repeat match goal with
  | |- context [?a =? ?b] => destruct (Z.eqb_spec a b) as [E|?]
  end; try (split; [|intros [E' _]; rewrite E in E'; done]).
  1-4: done.
  1-2: by intros (x & _ & ?)%fmap_Some.
  - split.
    + intros (x & Hx & ?)%fmap_Some. by simplify_eq.
    + intros [_ ->]. done.
  - split; [done|]. by intros [? _].
Qed.

Lemma mapM_snoc {A B} (f : A -> option B) xs x ys y :
  mapM f xs = Some ys -> f x = Some y -> mapM f (xs ++ [x]) = Some (ys ++ [y]).
Proof.
  rewrite !mapM_Some. intros Hx Hy. apply Forall2_app; [done|]. by constructor.
Qed.

(** ** Growing an object *)

Lemma holds_mono h h' a ts : h ⊆ h' -> holds h a ts -> holds h' a ts /\ footprint h' (Tree a ts) = footprint h (Tree a ts).
Proof.
  intros Hs [[Ho Hn] (ai & Ha & Hr)]. destruct (owned_mono h h' _ Hs Ho) as [Ho' Hf].
  split; [|done]. split; [split; [done|by rewrite Hf]|]. exists ai. split; [by eapply lookup_weaken|done].
Qed.

Lemma leaf_loose h0 h l j : leaf h0 h l j -> loose h (Tree l []) /\ footprint h (Tree l []) = l :: owned_strings j.
Proof.
  intros Hl. destruct (leaf_whole _ _ _ _ Hl) as [Hw Hf]. destruct Hl as [Hn Hg (Hnx & Hp & Hc) Hr].
  split; [|done]. split; [|by exists j]. split; [|apply Hw].
  eapply owned_tree; [done| | |by constructor].
  - apply Forall_forall. intros s Hs. apply (gr_there _ _ _ Hg). by right.
  - rewrite Hr, Hc. split; [done|constructor].
Qed.

(** Everything an object says after one more member has been linked in. *)
Lemma append_value h a ts u h' (ai : cJSON) :
  holds h a ts -> loose h u -> NoDup (footprint h (Tree a ts) ++ footprint h u) ->
  texts h (Tree a ts) -> texts h u -> h !! a = Some (Node ai) ->
  relinked a (root_of u :: (root_of <$> ts)) h h' ->
  texts h' (Tree a (ts ++ [u])) /\
  value_of h' (Tree a (ts ++ [u])) = item_value h ai (map (value_of h) ts ++ [value_of h u]).
Proof.
  intros Hh _ Hnd Ht Hu Ha Hrl.
  assert (forall t, t ∈ ts ++ [u] -> value_of h' t = value_of h t /\ texts h' t) as Hval.
  { intros t Hin. apply value_keeps.
    - eapply keeps_relinked; [done| |done]. intros Hi%(items_footprint h).
      apply NoDup_app in Hnd as (Hnd & Hd & _). apply elem_of_app in Hin as [Hin|Hin].
      + rewrite footprint_below in Hnd. apply NoDup_cons in Hnd as [Hnd _]. apply Hnd. cbn. apply elem_of_app.
        right. by apply (forest_in _ _ t).
      + apply list_elem_of_singleton in Hin as ->. apply (Hd a); [left|done].
    - apply elem_of_app in Hin as [Hin|Hin]; [|by apply list_elem_of_singleton in Hin as ->].
      intros m Hm. apply Ht. by eapply kid_items. }
  destruct (rl_owner _ _ _ _ Hrl _ Ha) as (p & Hp).
  destruct (Ht a) as (ai' & Ha' & Hv & Hs); [left|]. assert (ai' = ai) as -> by congruence.
  assert (keeps [] h h') as Hk by (eapply keeps_relinked; [done|apply not_elem_of_nil|done]).
  destruct (keeps_text _ _ _ _ Hk Hv) as [Ev Hv'], (keeps_text _ _ _ _ Hk Hs) as [Es Hs']. split.
  - intros m [-> | (t & Hin & Hm)%list_elem_of_In%in_flat_map]%elem_of_cons; [by eexists|].
    apply list_elem_of_In in Hin, Hm. by apply (Hval t).
  - cbn [value_of]. rewrite Hp. unfold item_value. cbn [type valuestring valueint valuedouble string set_child].
    rewrite Ev, Es. f_equal. rewrite map_app. cbn [map]. f_equal; [|f_equal; apply Hval, elem_of_app; right; left].
    apply map_ext_in. intros t Hin%list_elem_of_In. apply Hval, elem_of_app. by left.
Qed.

Section Allocator.
Context (malloc : heap -> option loc).
Context (malloc_fresh : forall h l, malloc h = Some l -> h !! l = None).

(** [r] is the creation of an item for [jv]: a single new item without a name, or
    NULL when memory has run out. *)
Definition creates (h : heap) (r : outcome (option loc * heap)) (jv : json) : Prop :=
  (r = Ret (None, h) /\ ~ (forall h, malloc h <> None)) \/
  exists n h1 j, r = Ret (Some n, h1) /\ leaf h h1 n j /\ string j = None /\ text_ok h1 (valuestring j) /\
    json_of (item_value h1 j []) = Some jv.

(** A new item whose fields [f] sets, none of them a pointer. *)
Lemma create_creates h f jv :
  (forall i, valuestring (f i) = valuestring i /\ string (f i) = string i /\ next (f i) = next i /\
     prev (f i) = prev i /\ child (f i) = child i) ->
  is_ref (f zero_item) = false -> (forall h, json_of (item_value h (f zero_item) []) = Some jv) ->
  creates h (create malloc h f) jv.
Proof.
  intros Hf Hr Hj. unfold create, cJSON_New_Item. destruct (malloc h) as [n|] eqn:Hm.
  2:{ left. split; [done|]. intros Hall. by apply (Hall h). }
  right. rewrite (update_node _ n zero_item) by apply lookup_insert_eq.
  destruct (Hf zero_item) as (E1 & E2 & E3 & E4 & E5).
  exists n. do 2 eexists. split; [done|]. split_and!; [|done|by rewrite E1|done].
  apply (leaf_set _ _ _ zero_item); [by apply (leaf_new malloc)| |by rewrite E3, E4, E5|done].
  unfold owned_strings. rewrite E1, E2. cbn. by destruct (is_ref _), (is_const _).
Qed.

Lemma create_null h : creates h (cJSON_CreateNull malloc h) JNull.
Proof. by apply create_creates. Qed.

Lemma create_bool h b : creates h (cJSON_CreateBool malloc h b) (JBool b).
Proof. by apply create_creates; destruct b. Qed.

Lemma create_number h d : creates h (cJSON_CreateNumber malloc h d) (JNumber d).
Proof. by apply create_creates. Qed.

Lemma create_object h : creates h (cJSON_CreateObject malloc h) (JObject []).
Proof. by apply create_creates. Qed.

Lemma create_string h s c : h !! s = Some (Chars c) -> creates h (cJSON_CreateString malloc h (Some s)) (JString c).
Proof.
  intros Hs. unfold cJSON_CreateString, create_text, create, cJSON_New_Item.
  destruct (malloc h) as [n|] eqn:Hm.
  2:{ left. split; [done|]. intros Hall. by apply (Hall h). }
  rewrite (update_node _ n zero_item) by apply lookup_insert_eq. cbn [mbind outcome_bind].
  pose proof (leaf_new malloc malloc_fresh _ _ Hm) as Hl0.
  pose proof (leaf_set _ _ _ _ (set_type cJSON_String zero_item) Hl0 eq_refl (conj eq_refl (conj eq_refl eq_refl)) eq_refl) as Hl.
  set (h1 := <[n := Node (set_type cJSON_String zero_item)]> _) in *.
  pose proof (grown_sub _ _ _ (lf_grown _ _ _ _ Hl)) as Hsub.
  unfold cJSON_strdup, chars_at. cbn [deref mbind outcome_bind].
  rewrite (lookup_weaken _ _ _ _ Hs Hsub). cbn [mbind outcome_bind].
  destruct (malloc h1) as [q|] eqn:Hq; cbn [mbind outcome_bind].
  - destruct (leaf_string malloc malloc_fresh h h1 n _ (set_valuestring (Some q) (set_type cJSON_String zero_item)) q c Hl Hq)
      as [Hl' Hqn]; [done..|].
    rewrite (update_node _ n (set_type cJSON_String zero_item)).
    2:{ rewrite lookup_insert_ne by done. apply (lf_node _ _ _ _ Hl). }
    cbn [mbind outcome_bind]. rewrite bool_decide_eq_false_2 by done.
    right. do 3 eexists. split; [done|]. split_and!; [done|done|..]; cbn;
      rewrite lookup_insert_ne, lookup_insert_eq by done; eauto.
  - rewrite (update_node _ n _ _ (lf_node _ _ _ _ Hl)). cbn [mbind outcome_bind].
    rewrite bool_decide_eq_true_2 by done.
    rewrite (leaf_delete h _ n (set_valuestring None (set_type cJSON_String zero_item))).
    + left. split; [done|]. intros Hall. by apply (Hall h1).
    + by apply (leaf_set _ _ _ (set_type cJSON_String zero_item)).
Qed.

(** ** One more member *)

Lemma json_of_flags t vs vi vd s s' ks :
  json_of (Value (t .& Z.lnot cJSON_StringIsConst) vs vi vd s' ks) = json_of (Value t vs vi vd s ks).
Proof. cbn [json_of]. by rewrite <- Z.land_assoc. Qed.

(** The new item with its name. *)
Definition named (q : loc) (j : cJSON) : cJSON := set_type (type j .& Z.lnot cJSON_StringIsConst) (set_string (Some q) j).

Lemma named_ref q j : is_ref (named q j) = is_ref j.
Proof. unfold is_ref, has_flag. cbn [type named set_type]. by rewrite <- Z.land_assoc. Qed.

Lemma named_strings q j : string j = None -> owned_strings (named q j) ≡ₚ owned_strings j ++ [q].
Proof.
  intros Hs. unfold owned_strings. rewrite named_ref, Hs. cbn [valuestring string named set_type set_string].
  assert (is_const (named q j) = false) as Hc.
  { unfold is_const, has_flag. cbn [type named set_type].
    by rewrite <- Z.land_assoc, (Z.land_comm (Z.lnot _)), Z.land_lnot_diag, Z.land_0_r. }
  change (is_const (set_type (type j .& Z.lnot cJSON_StringIsConst) (set_string (Some q) j)))
    with (is_const (named q j)). rewrite Hc.
  by destruct (is_ref j), (is_const j); cbn; rewrite ?app_nil_r.
Qed.

Lemma name_leaf h h1 n j p c :
  leaf h h1 n j -> string j = None -> h1 !! p = Some (Chars c) -> forall object, h1 !! object <> None -> object <> n ->
  (exists h2 q, add_item_to_object malloc h1 (Some object) (Some p) (Some n) false =
       add_item_to_array h2 (Some object) (Some n) /\ leaf h h2 n (named q j) /\ text h2 (Some q) = Some c /\
       keeps [] h1 h2) \/
  (add_item_to_object malloc h1 (Some object) (Some p) (Some n) false = Ret (false, h1) /\ malloc h1 = None).
Proof.
  intros Hl Hs Hp object Ho Hne. pose proof (lf_node _ _ _ _ Hl) as Hn. pose proof (lf_plain _ _ _ _ Hl) as Hr.
  unfold add_item_to_object. heap_step. rewrite (item_at_node _ _ _ Hn). cbn [mbind outcome_bind].
  unfold member_key, cJSON_strdup, chars_at. cbn [deref mbind outcome_bind]. rewrite Hp. cbn [mbind outcome_bind].
  destruct (malloc h1) as [q|] eqn:Hq; cbn [mbind outcome_bind fst snd].
  2:{ right. split; [|done]. by rewrite bool_decide_eq_true_2. }
  left. rewrite bool_decide_eq_false_2 by done. rewrite Hs, andb_false_r. cbn [mbind outcome_bind].
  destruct (leaf_string malloc malloc_fresh h h1 n j (named q j) q c Hl Hq) as [Hl' Hqn].
  { by apply named_strings. }
  { apply (lf_alone _ _ _ _ Hl). }
  { by rewrite named_ref. }
  rewrite (update_node _ n j) by by rewrite lookup_insert_ne. cbn [mbind outcome_bind].
  rewrite (update_node _ n (set_string (Some q) j)) by apply lookup_insert_eq. cbn [mbind outcome_bind].
  rewrite insert_insert_eq. eexists _, q. split; [done|]. split; [done|]. split.
  - cbn. by rewrite lookup_insert_ne, lookup_insert_eq.
  - split; [by intros l' i ?%not_elem_of_nil|]. intros s' c' Hc'. rewrite !lookup_insert_ne; [done|..]; [|congruence].
    intros ->. apply malloc_fresh in Hq. congruence.
Qed.

Definition object_is (h : heap) (object : loc) (ts : list tree) (ms : list (list Z * json)) : Prop :=
  holds h object ts /\ texts h (Tree object ts) /\ json_of (value_of h (Tree object ts)) = Some (JObject ms).

Lemma append_leaf h h2 object ts n j oi :
  holds h object ts -> texts h (Tree object ts) -> h !! object = Some (Node oi) ->
  leaf h h2 n j -> text_ok h2 (valuestring j) -> text_ok h2 (string j) ->
  exists h', add_item_to_array h2 (Some object) (Some n) = Ret (true, h') /\
    holds h' object (ts ++ [Tree n []]) /\ texts h' (Tree object (ts ++ [Tree n []])) /\
    value_of h' (Tree object (ts ++ [Tree n []])) =
      item_value h oi (map (value_of h) ts ++ [item_value h2 j []]) /\
    forall l, l ∉ footprint h' (Tree object (ts ++ [Tree n []])) -> h' !! l = h !! l.
Proof.
  intros Hh Htx Ho Hl Hv Hs. destruct (leaf_loose _ _ _ _ Hl) as [Hlo Hfl].
  pose proof (lf_grown _ _ _ _ Hl) as Hg. pose proof (grown_sub _ _ _ Hg) as Hsub.
  destruct (holds_mono _ _ _ _ Hsub Hh) as [Hh2 Hf2].
  assert (NoDup (footprint h2 (Tree object ts) ++ footprint h2 (Tree n []))) as Hnd.
  { apply NoDup_app. split_and!; [apply Hh2| |rewrite Hfl; apply (gr_once _ _ _ Hg)].
    intros l Hin. rewrite Hfl, Hf2 in *. intros Hin'%(gr_fresh _ _ _ Hg).
    destruct Hh as [[Hown _] _]. pose proof (all_in _ _ _ (footprint_cells _ _ _ Hown) Hin) as [? ?]. congruence. }
  destruct (add_item_to_array_appends h2 object (root_of <$> ts) n j) as (h' & Hrun & Har & Hrl).
  { by apply holds_array. }
  { apply Hl. }
  { apply (loose_outside h2 object ts (Tree n [])). done. }
  { apply (lf_alone _ _ _ _ Hl). }
  exists h'. split; [done|].
  assert (texts h2 (Tree object ts)) as Htx2 by by apply (value_keeps h h2); [apply keeps_grow|].
  assert (texts h2 (Tree n [])) as Htn.
  { intros m [-> | ?%not_elem_of_nil]%elem_of_cons; [|done]. exists j. split; [apply Hl|done]. }
  destruct (append_value h2 object ts (Tree n []) h' oi) as [Htx' Hval]; [done..|by eapply lookup_weaken|done|].
  assert (object :: strings_at h2 object ++ flat_map (footprint h2) (Tree n [] :: ts) ≡ₚ
          footprint h2 (Tree object ts) ++ footprint h2 (Tree n [])) as Hperm by (cbn; solve_Permutation).
  destruct (relinked_holds object ts (Tree n [] :: ts) (ts ++ [Tree n []]) h2 h') as [Hh' Hf']; [done|done| | | | | |].
  { by rewrite fmap_app. }
  { constructor; [apply Hlo|by eapply holds_kids]. }
  { intros t. rewrite elem_of_app, list_elem_of_singleton, elem_of_cons. tauto. }
  { by rewrite Hperm. }
  { rewrite <- Hperm in Hnd. apply NoDup_cons in Hnd as [_ (_ & _ & Hnd)%NoDup_app].
    assert (ts ++ [Tree n []] ≡ₚ Tree n [] :: ts) as -> by solve_Permutation. done. }
  split_and!; [done|done| |].
  - rewrite Hval. unfold item_value at 1 3.
    destruct (Htx object) as (oi' & Ho' & Hov & Hos); [left|]. assert (oi' = oi) as -> by congruence.
    assert (keeps [] h h2) as Hk by by apply keeps_grow.
    rewrite (proj1 (keeps_text _ _ _ _ Hk Hov)), (proj1 (keeps_text _ _ _ _ Hk Hos)). f_equal. f_equal.
    + apply map_ext_in. intros t Ht%list_elem_of_In. apply (value_keeps h h2); [by apply keeps_grow|].
      intros m Hm. apply Htx. by eapply kid_items.
    + cbn [value_of]. by rewrite (lf_node _ _ _ _ Hl).
  - intros l Hl'. rewrite Hf' in Hl'.
    assert (object :: strings_at h2 object ++ flat_map (footprint h2) (ts ++ [Tree n []]) ≡ₚ
            object :: strings_at h2 object ++ flat_map (footprint h2) (Tree n [] :: ts)) as Hp2.
    { rewrite flat_map_app. cbn. solve_Permutation. }
    rewrite Hp2 in Hl'. rewrite (outside_unchanged h2 object (Tree n [] :: ts) h' l); [|done|set_solver].
    apply (gr_rest _ _ _ Hg). rewrite <- Hfl. intros Hin. apply Hl'. right. apply elem_of_app. right.
    cbn [flat_map]. apply elem_of_app. by left.
Qed.

Lemma add_created_spec h r jv object ts ms p c :
  creates h r jv -> object_is h object ts ms -> h !! p = Some (Chars c) ->
  exists q h', add_created malloc r (Some object) (Some p) = Ret (q, h') /\
    match q with
    | None => h' = h /\ ~ (forall h, malloc h <> None)
    | Some n => object_is h' object (ts ++ [Tree n []]) (ms ++ [(c, jv)]) /\
        forall l, l ∉ footprint h' (Tree object (ts ++ [Tree n []])) -> h' !! l = h !! l
    end.
Proof.
  intros Hcr (Hh & Htx & Hj) Hp. unfold add_created.
  destruct Hcr as [[-> Hm]|(n & h1 & j & -> & Hl & Hs & Hv & Hjv)]; cbn [mbind outcome_bind].
  { exists None, h. split; [|done]. unfold add_item_to_object. heap_step.
    unfold cJSON_Delete. by destruct (size h). }
  pose proof Hh as [_ (oi & Ho & _)]. pose proof (grown_sub _ _ _ (lf_grown _ _ _ _ Hl)) as Hsub.
  assert (object <> n) as Hne.
  { intros ->. pose proof (gr_fresh _ _ _ (lf_grown _ _ _ _ Hl) n). rewrite Ho in H. specialize (H ltac:(left)). done. }
  destruct (name_leaf h h1 n j p c Hl Hs (lookup_weaken _ _ _ _ Hp Hsub) object) as [(h2 & q & -> & Hl2 & Hq & Hk)|[-> Hm]].
  { by rewrite (lookup_weaken _ _ _ _ Ho Hsub). }
  { done. }
  2:{ cbn [mbind outcome_bind]. rewrite (leaf_delete _ _ _ _ Hl). exists None, h. split; [done|]. split; [done|].
      intros Hall. by apply (Hall h1). }
  assert (text_ok h2 (Some q)) as Hq2.
  { cbn in *. destruct (h2 !! q) as [[|s]|]; [done| |done]. by exists s. }
  destruct (keeps_text _ _ _ _ Hk Hv) as [Ev Hv2].
  destruct (append_leaf h h2 object ts n (named q j) oi Hh Htx Ho Hl2) as (h' & -> & Hh' & Htx' & Hval & Hfr);
    [done..|].
  exists (Some n), h'. split; [done|]. split; [|done]. split_and!; [done..|]. rewrite Hval.
  cbn [value_of] in Hj. rewrite Ho in Hj. unfold item_value in *. apply json_of_object in Hj as [Hty Hms].
  apply json_of_object. split; [done|]. apply mapM_snoc; [done|].
  unfold member, name_of. cbn [type valuestring valueint valuedouble string named set_type set_string].
  rewrite (json_of_flags _ _ _ _ (text h1 (string j))), Hq, Ev, Hjv. done.
Qed.

(** C25: The construction of an object in memory refines the construction of it as
    a value: [cJSON_AddStringToObject], [cJSON_AddNumberToObject],
    [cJSON_AddBoolToObject] and [cJSON_AddNullToObject] on a well-formed object
    either return the new item, and the object then stands for the tree the
    functions of [Cjson] give, with nothing outside it touched; or they return
    NULL, possible only when memory runs out, and nothing at all has changed. *)
Theorem add_member_refines h object ts ms p c s txt d b :
  object_is h object ts ms -> h !! p = Some (Chars c) -> h !! s = Some (Chars txt) -> nonzero txt ->
  Forall (fun '(r, obj) => exists q h', r = Ret (q, h') /\
      match q with
      | None => h' = h /\ ~ (forall h, malloc h <> None)
      | Some n => exists ms', obj = JObject ms' /\ object_is h' object (ts ++ [Tree n []]) ms' /\
          forall l, l ∉ footprint h' (Tree object (ts ++ [Tree n []])) -> h' !! l = h !! l
      end)
    [(cJSON_AddStringToObject malloc h (Some object) (Some p) (Some s), Cjson.cJSON_AddStringToObject (JObject ms) c txt);
     (cJSON_AddNumberToObject malloc h (Some object) (Some p) d, Cjson.cJSON_AddNumberToObject (JObject ms) c d);
     (cJSON_AddBoolToObject malloc h (Some object) (Some p) b, Cjson.add_item_to_object (JObject ms) c (JBool b));
     (cJSON_AddNullToObject malloc h (Some object) (Some p), Cjson.add_item_to_object (JObject ms) c JNull)].
Proof.
  intros Ho Hp Hs Hnz.
  assert (forall r jv obj, creates h r jv -> obj = JObject (ms ++ [(c, jv)]) -> exists q h',
    add_created malloc r (Some object) (Some p) = Ret (q, h') /\
    match q with
    | None => h' = h /\ ~ (forall h, malloc h <> None)
    | Some n => exists ms', obj = JObject ms' /\ object_is h' object (ts ++ [Tree n []]) ms' /\
        forall l, l ∉ footprint h' (Tree object (ts ++ [Tree n []])) -> h' !! l = h !! l
    end) as H.
  { intros r jv obj Hc ->. destruct (add_created_spec h r jv object ts ms p c Hc Ho Hp) as (q & h' & Hrun & Hq).
    exists q, h'. split; [done|]. destruct q; [|done]. by eexists. }
  repeat constructor.
  - eapply H; [by apply create_string|]. unfold Cjson.cJSON_AddStringToObject. by rewrite c_string_id.
  - by eapply H; [apply create_number|].
  - by eapply H; [apply create_bool|].
  - by eapply H; [apply create_null|].
Qed.
End Allocator.
End CjsonObject.
