(* ===== verification/CjsonBuild.v ===== *)
(** * Arrays from C arrays, and two defects of the memory handling (gateway/src/cJSON.c)

    [cJSON_CreateIntArray] and its siblings build the whole array or, when memory
    runs out, give every cell back.  The name of a replacement is freed before the
    new name is read, and a reference whose name cannot be copied is lost. *)
From Stdlib Require Import Floats.SpecFloat.
From S2P Require Import Prelude Heap Number Cjson CjsonHeap CjsonList CjsonTree CjsonArray CjsonValue CjsonDup CjsonObject.
Import Number CjsonHeap CjsonList CjsonTree CjsonArray CjsonValue CjsonDup CjsonObject.
Open Scope c_scope.
#[local] Set Warnings "-clear-no-such-hyp,-register-all".

Module CjsonBuild.

Section Build.
Context (malloc : heap -> option loc).
Context (malloc_fresh : forall h l, malloc h = Some l -> h !! l = None).

(** A created item is a finished copy of its value. *)
Lemma created_copied h n h1 j :
  leaf h h1 n j -> string j = None -> text_ok h1 (valuestring j) ->
  copied h h1 (item_value h1 j []) (Tree n []).
Proof.
  intros Hl Hs Hv. destruct (leaf_loose _ _ _ _ Hl) as [Hlo Hf]. split; [done| | |].
  - intros m [-> | ?%not_elem_of_nil]%elem_of_cons; [|done]. exists j. split; [apply Hl|]. by rewrite Hs.
  - cbn. by rewrite (lf_node _ _ _ _ Hl).
  - rewrite Hf. apply Hl.
Qed.

(** What the array stands for. *)
Definition array_of (h h' : heap) (jvs : list json) (l : loc) : Prop :=
  exists t', root_of t' = l /\ loose h' t' /\ texts h' t' /\ json_of (value_of h' t') = Some (JArray jvs) /\
    grown h h' (footprint h' t').

Section Loop.
Context {A : Type} (make : heap -> A -> outcome (option loc * heap)) (jv : A -> json).
Context (h0 : heap).

Lemma array_loop_spec xs : forall h l j ts jvs,
  (forall h x, h0 ⊆ h -> x ∈ xs -> creates malloc h (make h x) (jv x)) ->
  copying h0 h l j ts -> type j = cJSON_Array -> mapM json_of (map (value_of h) ts) = Some jvs ->
  exists q h', array_loop make (Some l) (root_of <$> last ts) xs h = Ret (q, h') /\
    match q with
    | None => h' = h0 /\ ~ (forall h, malloc h <> None)
    | Some a => array_of h0 h' (jvs ++ map jv xs) a
    end.
Proof.
  induction xs as [|x xs IH]; intros h l j ts jvs Hmk Hc Hty Hj.
  - destruct (close_step _ _ _ _ _ Hc) as (h' & Hrun & Hco). unfold close_copy in Hrun. cbn [array_loop].
    exists (Some l), h'. split.
    + destruct (item_at h (Some l)) as [n|]; [|done]. cbn [mbind outcome_bind] in *. by destruct (child n).
    + destruct Hco as [H1 H2 H3 H4]. exists (Tree l ts). split_and!; [done..| |done]. rewrite H3, app_nil_r.
      unfold item_value. cbn [json_of]. rewrite Hty. cbn -[mapM]. by rewrite Hj.
  - cbn [array_loop]. pose proof (grown_sub _ _ _ (cp_grown _ _ _ _ _ Hc)) as Hsub.
    destruct (Hmk h x Hsub) as [[-> Hm]|(n & h1 & i & -> & Hl & Hs & Hv & Hjv)]; [left|..]; cbn [mbind outcome_bind].
    { exists None, h0. split; [|done]. pose proof (copying_fail _ _ _ _ _ Hc) as Hf. unfold duplicate_fail in Hf. exact Hf. }
    destruct (link_step _ _ _ _ _ _ _ _ Hc (created_copied _ _ _ _ Hl Hs Hv)) as (h2 & Hlink & Hc2 & Hv2 & _).
    unfold link_copy in Hlink. cbn [root_of] in Hlink.
    destruct (IH h2 l j (ts ++ [Tree n []]) (jvs ++ [jv x])) as (q & h' & Hrun & Hq); [|done|done| |].
    { intros h3 y Hs3 Hy. apply Hmk; [done|by right]. }
    { rewrite Hv2. by apply mapM_snoc. }
    rewrite last_snoc in Hrun. cbn [fmap option_fmap option_map root_of] in Hrun.
    exists q, h'. split; [|by rewrite <- app_assoc in Hq].
    unfold suffix_object. rewrite Hlink. exact Hrun.
Qed.

Lemma create_array_spec xs :
  (forall h x, h0 ⊆ h -> x ∈ xs -> creates malloc h (make h x) (jv x)) ->
  exists q h', create_array malloc make h0 (Some xs) = Ret (q, h') /\
    match q with
    | None => h' = h0 /\ ~ (forall h, malloc h <> None)
    | Some a => array_of h0 h' (map jv xs) a
    end.
Proof.
  intros Hmk. unfold create_array, cJSON_CreateArray, create, cJSON_New_Item. destruct (malloc h0) as [l|] eqn:Hm.
  2:{ exists None, h0. split; [done|]. split; [done|]. intros Hall. by apply (Hall h0). }
  rewrite (update_node _ l zero_item) by apply lookup_insert_eq. cbn [mbind outcome_bind].
  pose proof (leaf_new malloc malloc_fresh _ _ Hm) as Hl0.
  pose proof (leaf_set _ _ _ _ (set_type cJSON_Array zero_item) Hl0 eq_refl (conj eq_refl (conj eq_refl eq_refl)) eq_refl) as Hl.
  by apply (array_loop_spec xs _ l (set_type cJSON_Array zero_item) [] []); [|apply copying_start| |].
Qed.
End Loop.

Lemma counted_all {A} (xs : list A) count :
  0 <= count <= zlen xs -> counted (Some xs) count = Ret (Some (take (Z.to_nat count) xs)).
Proof. intros H. unfold counted. replace (count <? 0) with false by lia. by replace (count <=? zlen xs) with true by lia. Qed.

(** An array of ints, of doubles or of strings becomes the array of its elements
    in order, in fresh cells; when memory runs out nothing is left behind. *)
Theorem int_array_built h (numbers : list Z) count :
  0 <= count <= zlen numbers ->
  exists q h', cJSON_CreateIntArray malloc h (Some numbers) count = Ret (q, h') /\
    match q with
    | None => h' = h /\ ~ (forall h, malloc h <> None)
    | Some a => array_of h h' (map (fun x => JNumber (double_of_int x)) (take (Z.to_nat count) numbers)) a
    end.
Proof.
  intros Hc. unfold cJSON_CreateIntArray. rewrite counted_all by done. cbn [mbind outcome_bind].
  apply create_array_spec. intros. by apply create_number.
Qed.

Theorem double_array_built h (numbers : list spec_float) count :
  0 <= count <= zlen numbers ->
  exists q h', cJSON_CreateDoubleArray malloc h (Some numbers) count = Ret (q, h') /\
    match q with
    | None => h' = h /\ ~ (forall h, malloc h <> None)
    | Some a => array_of h h' (map JNumber (take (Z.to_nat count) numbers)) a
    end.
Proof.
  intros Hc. unfold cJSON_CreateDoubleArray. rewrite counted_all by done. cbn [mbind outcome_bind].
  apply create_array_spec. intros. by apply create_number.
Qed.

(** ** Defects *)

(** Replacing a member under the replacement's own name reads that name after it
    has been freed. *)
Theorem replace_own_name h object r i p c cs :
  h !! r = Some (Node i) -> is_const i = false -> string i = Some p -> h !! p = Some (Chars c) ->
  replace_item_in_object malloc h (Some object) (Some p) (Some r) cs = Undef.
Proof.
  intros Hr Hc Hs Hp. unfold replace_item_in_object. heap_step. rewrite (item_at_node _ _ _ Hr). cbn [mbind outcome_bind].
  unfold is_const in Hc. rewrite Hc, Hs. rewrite (deallocate_cell h p) by by eexists.
  cbn [negb andb]. rewrite bool_decide_eq_true_2 by done. cbn [mbind outcome_bind].
  unfold cJSON_strdup, chars_at. cbn [deref mbind outcome_bind].
  rewrite lookup_minus. by rewrite decide_True by left.
Qed.

(** A reference whose name cannot be copied is neither added nor freed. *)
Theorem reference_leaks h object name item i r c :
  h !! item = Some (Node i) -> malloc h = Some r -> object <> r -> h !! name = Some (Chars c) ->
  (forall h', h ⊆ h' -> h' !! r <> None -> malloc h' = None) ->
  exists h', cJSON_AddItemReferenceToObject malloc h (Some object) (Some name) (Some item) = Ret (false, h') /\
    h !! r = None /\ is_Some (h' !! r).
Proof.
  intros Hi Hm Hne Hn Hfull. pose proof (malloc_fresh _ _ Hm) as Hr.
  assert (item <> r /\ name <> r) as [Hir Hnr] by (split; congruence).
  unfold cJSON_AddItemReferenceToObject, create_reference, cJSON_New_Item. rewrite Hm.
  rewrite (item_at_node _ item i) by by rewrite lookup_insert_ne. cbn [mbind outcome_bind fst snd].
  rewrite insert_insert_eq. unfold add_item_to_object. heap_step.
  rewrite (item_at_node _ r _ (lookup_insert_eq _ _ _)). cbn [mbind outcome_bind].
  unfold member_key, cJSON_strdup, chars_at. cbn [deref mbind outcome_bind].
  rewrite lookup_insert_ne, Hn by done. cbn [mbind outcome_bind].
  rewrite Hfull; [|by apply insert_subseteq|by rewrite lookup_insert_eq].
  cbn [mbind outcome_bind fst snd]. rewrite bool_decide_eq_true_2 by done.
  eexists. split; [done|]. split; [done|]. rewrite lookup_insert_eq. by eexists.
Qed.
End Build.
End CjsonBuild.
