(* ===== verification/CjsonCmp.v ===== *)
(** * Comparing trees (gateway/src/cJSON.c, cJSON_Compare)

    The comparison returns for any two trees that can be read, and finds a tree
    and its copy equal, given that member names are distinct and that numbers
    compare equal to themselves. *)
From Stdlib Require Import Floats.SpecFloat.
From S2P Require Import Prelude Heap Number Cjson CjsonHeap CjsonList CjsonTree CjsonArray CjsonValue CjsonDup CjsonObject.
Import CjsonHeap CjsonList CjsonTree CjsonArray CjsonValue CjsonDup CjsonObject.
Open Scope c_scope.
#[local] Set Warnings "-clear-no-such-hyp,-register-all".

Module CjsonCmp.

(** The types the first switch lets through. *)
Definition valid_type (t : Z) : bool :=
  (t =? cJSON_False) || (t =? cJSON_True) || (t =? cJSON_NULL) || (t =? cJSON_Number) || (t =? cJSON_String) ||
  (t =? cJSON_Raw) || (t =? cJSON_Array) || (t =? cJSON_Object).

Section Compare.
Context (case_sensitive : bool).

(** [cJSON_Compare] with the loop over two arrays and the loop over the members of
    one object, looked up in the other. *)
Fixpoint cJSON_Compare (fuel : nat) (h : heap) (a b : option loc) : outcome bool :=
  match fuel with
  | O => Undef
  | S fuel =>
      match a, b with
      | Some la, Some lb =>
          ia ← item_at h a;
          ib ← item_at h b;
          let t := type ia .& 255 in
          if negb (t =? type ib .& 255) then Ret false
          else if negb (valid_type t) then Ret false
          else if bool_decide (la = lb) then Ret true
          else if ((t =? cJSON_False) || (t =? cJSON_True) || (t =? cJSON_NULL))%bool then Ret true
          else if t =? cJSON_Number then Ret (Cjson.compare_double (valuedouble ia) (valuedouble ib))
          else if ((t =? cJSON_String) || (t =? cJSON_Raw))%bool then
            match valuestring ia, valuestring ib with
            | Some _, Some _ =>
                sa ← chars_at h (valuestring ia);
                sb ← chars_at h (valuestring ib);
                Ret (strcmp sa sb =? 0)
            | _, _ => Ret false
            end
          else if t =? cJSON_Array then compare_elements fuel h (child ia) (child ib)
          else
            ok ← compare_members fuel h (child ia) b;
            if ok : bool then compare_members fuel h (child ib) a else Ret false
      | _, _ => Ret false
      end
  end
with compare_elements (fuel : nat) (h : heap) (a_element b_element : option loc) : outcome bool :=
  match fuel with
  | O => Undef
  | S fuel =>
      match a_element, b_element with
      | Some _, Some _ =>
          ok ← cJSON_Compare fuel h a_element b_element;
          if ok : bool then
            ia ← item_at h a_element;
            ib ← item_at h b_element;
            compare_elements fuel h (next ia) (next ib)
          else Ret false
      | _, _ => Ret (bool_decide (a_element = b_element))
      end
  end
with compare_members (fuel : nat) (h : heap) (element other : option loc) : outcome bool :=
  match fuel with
  | O => Undef
  | S fuel =>
      match element with
      | None => Ret true
      | Some _ =>
          i ← item_at h element;
          partner ← get_object_item h other (string i) case_sensitive;
          match partner with
          | None => Ret false
          | Some _ =>
              ok ← cJSON_Compare fuel h element partner;
              if ok : bool then compare_members fuel h (next i) other else Ret false
          end
      end
  end.
End Compare.

(** ** Trees that can be read *)

Fixpoint value_texts (v : value) : list (list Z) :=
  match v with Value _ vs _ _ s ks => option_list vs ++ option_list s ++ flat_map value_texts ks end.

(** The items, their strings, and that these are C strings. *)
Definition readable (h : heap) (t : tree) : Prop :=
  reach h t /\ texts h t /\ Forall nonzero (value_texts (value_of h t)).

Lemma nexts_functional h p ls ls' : nexts h p ls -> nexts h p ls' -> ls = ls'.
Proof.
  revert p ls'. induction ls as [|l ls IH]; intros p ls' H H'.
  - destruct ls'; [done|]. cbn in H. destruct H' as [? _]. congruence.
  - destruct H as (-> & i & Hi & H). destruct ls' as [|l' ls']; [done|]. destruct H' as (E & i' & Hi' & H').
    simplify_eq. f_equal. by eapply IH.
Qed.

Lemma nexts_from h p ls l : nexts h p ls -> l ∈ ls -> exists ls', nexts h (Some l) (l :: ls') /\ (length ls' < length ls)%nat.
Proof.
  revert p. induction ls as [|x ls IH]; intros p H Hl; [by apply not_elem_of_nil in Hl|].
  destruct H as (-> & i & Hi & H). apply elem_of_cons in Hl as [-> | Hl].
  - exists ls. split; [|cbn; lia]. split; [done|]. by exists i.
  - destruct (IH _ H Hl) as (ls' & H' & Hlen). exists ls'. split; [done|cbn; lia].
Qed.

Lemma nexts_NoDup h p ls : nexts h p ls -> NoDup ls.
Proof.
  revert p. induction ls as [|l ls IH]; intros p H; [constructor|]. pose proof H as (-> & i & Hi & Hn).
  constructor; [|by eapply IH]. intros Hl. destruct (nexts_from _ _ _ _ Hn Hl) as (ls' & H' & Hlen).
  pose proof (nexts_functional _ _ _ _ H H') as E. simplify_eq. lia.
Qed.

Lemma nexts_bound h p ls : nexts h p ls -> (length ls <= size h)%nat.
Proof.
  intros H. apply cells_bound; [by eapply nexts_NoDup|]. revert p H.
  induction ls as [|l ls IH]; intros p; [constructor|]. intros (-> & i & Hi & H).
  constructor; [by eexists|by eapply IH].
Qed.

Lemma readable_parts h l ks :
  readable h (Tree l ks) ->
  exists i, h !! l = Some (Node i) /\ nexts h (child i) (root_of <$> ks) /\ Forall (readable h) ks /\
    text_ok h (valuestring i) /\ text_ok h (string i) /\
    (forall c, text h (valuestring i) = Some c -> nonzero c) /\ (forall c, text h (string i) = Some c -> nonzero c).
Proof.
  intros (Hr & Ht & Hz). inversion Hr as [? i ? Hi Hn Hk]; subst. exists i.
  destruct (Ht l) as (i' & Hi' & Hv & Hs); [left|]. assert (i' = i) as -> by congruence.
  cbn [value_of] in Hz. rewrite Hi in Hz. unfold item_value in Hz. cbn [value_texts] in Hz.
  apply Forall_app in Hz as [Hz1 [Hz2 Hz3]%Forall_app].
  split_and!; [done..| |done|done| |].
  - apply Forall_forall. intros k Hin. split_and!; [by apply (all_in _ _ _ Hk)| |].
    + intros m Hm. apply Ht. by eapply kid_items.
    + apply Forall_forall. intros c Hc. apply (all_in _ _ _ Hz3), (in_flat_map_kid _ (value_of h k)); [|done].
      apply list_elem_of_In, in_map, list_elem_of_In, Hin.
  - intros c E. rewrite E in Hz1. by inversion Hz1.
  - intros c E. rewrite E in Hz2. by inversion Hz2.
Qed.

Lemma named_kids h ks : Forall (readable h) ks -> Forall (named_ok h) (root_of <$> ks).
Proof.
  intros Hk. apply Forall_forall. intros l ([l' ks'] & -> & Hin)%list_elem_of_fmap.
  destruct (readable_parts _ _ _ (all_in _ _ _ Hk Hin)) as (i & Hi & _ & _ & _ & Hs & _ & Hz). by exists i.
Qed.

(** A lookup in a readable object finds one of its members, or none. *)
Lemma lookup_kid h cs l ks i p c :
  readable h (Tree l ks) -> h !! l = Some (Node i) -> h !! p = Some (Chars c) -> nonzero c ->
  get_object_item h (Some l) (Some p) cs =
    Ret (first_named cs c (map (fun k => (root_of k, name_at h (root_of k))) ks)).
Proof.
  intros Hr Hi Hp Hz. destruct (readable_parts _ _ _ Hr) as (i' & Hi' & Hn & Hk & _).
  assert (i' = i) as -> by congruence. unfold get_object_item. rewrite (item_at_node _ _ _ Hi). cbn [mbind outcome_bind].
  rewrite (find_element_spec h cs p c (child i) (root_of <$> ks)); [|done|done|done|by apply named_kids|by eapply nexts_bound].
  change (root_of <$> ks) with (map root_of ks). by rewrite map_map.
Qed.

Lemma first_named_kid h cs c ks l :
  first_named cs c (map (fun k => (root_of k, name_at h (root_of k))) ks) = Some l -> exists k, k ∈ ks /\ root_of k = l.
Proof.
  induction ks as [|k ks IH]; [done|]. cbn [map first_named]. intros H.
  assert (first_named cs c (map (fun k => (root_of k, name_at h (root_of k))) ks) = Some l ->
    exists k', k' ∈ k :: ks /\ root_of k' = l) as Hgo.
  { intros (k' & Hk & E)%IH. exists k'. split; [by right|done]. }
  destruct (name_at h (root_of k)) as [n|]; [destruct (same_name cs c n)|destruct cs]; try by apply Hgo.
  simplify_eq. exists k. split; [left|done].
Qed.

(** ** What is compared equal *)

Definition folded (cs : bool) (n : list Z) : list Z := if cs then n else map tolower n.

Lemma same_name_folded cs n1 n2 : same_name cs n1 n2 = bool_decide (folded cs n1 = folded cs n2).
Proof. by destruct cs. Qed.

(** Members have distinct names, strings are there, and numbers equal themselves. *)
Fixpoint regular (cs : bool) (v : value) : bool :=
  match v with
  | Value t vs _ vd _ ks =>
      let t := t .& 255 in
      valid_type t &&
      (if t =? cJSON_Number then Cjson.compare_double vd vd
       else if (t =? cJSON_String) || (t =? cJSON_Raw) then bool_decide (is_Some vs)
       else if t =? cJSON_Array then forallb (regular cs) ks
       else if t =? cJSON_Object then
         forallb (fun k => bool_decide (is_Some (name_of k)) && regular cs k) ks &&
         bool_decide (NoDup (map (folded cs) (omap name_of ks)))
       else true)
  end.

(** Equal values, apart from reference flags. *)
Definition alike (cs : bool) (v1 v2 : value) : Prop := plain v1 = plain v2 /\ regular cs v1 = true /\ regular cs v2 = true.

Lemma alike_sym cs v1 v2 : alike cs v1 v2 -> alike cs v2 v1.
Proof. intros (H1 & H2 & H3). done. Qed.

Lemma plain_name v : name_of (plain v) = name_of v.
Proof. by destruct v. Qed.

Lemma plain_type t : (t .& Z.lnot cJSON_IsReference) .& 255 = t .& 255.
Proof. by rewrite <- Z.land_assoc. Qed.

Lemma name_at_value h k : readable h k -> name_at h (root_of k) = name_of (value_of h k).
Proof.
  destruct k as [l ks]. intros Hr. destruct (readable_parts _ _ _ Hr) as (i & Hi & _). unfold name_at. cbn. by rewrite Hi.
Qed.

(** Among members with distinct names a lookup finds the one of the name. *)
Lemma first_named_unique h cs ks k n :
  Forall (readable h) ks -> Forall (fun k => is_Some (name_of (value_of h k))) ks ->
  NoDup (map (folded cs) (omap (fun k => name_of (value_of h k)) ks)) -> k ∈ ks -> name_of (value_of h k) = Some n ->
  first_named cs n (map (fun k => (root_of k, name_at h (root_of k))) ks) = Some (root_of k).
Proof.
  intros Hr Hn Hnd Hin Hk. induction ks as [|k0 ks IH]; [by apply not_elem_of_nil in Hin|].
  apply Forall_cons in Hr as [Hr0 Hr], Hn as [[n0 Hn0] Hn]. cbn [map first_named]. rewrite (name_at_value _ _ Hr0), Hn0.
  cbn [omap list_omap] in Hnd. rewrite Hn0 in Hnd. cbn [map] in Hnd. apply NoDup_cons in Hnd as [Hn1 Hnd].
  rewrite same_name_folded. apply elem_of_cons in Hin as [-> | Hin].
  - assert (n0 = n) as -> by congruence. by rewrite bool_decide_eq_true_2.
  - rewrite bool_decide_eq_false_2; [by apply IH|]. intros E. apply Hn1. rewrite <- E.
    apply list_elem_of_In, in_map, list_elem_of_In, list_elem_of_omap. by exists k.
Qed.

(** ** The comparison returns *)

Section Total.
Context (cs : bool) (h : heap).

Abbreviation sizes := (sum_list_with tree_size).

Definition compares (fuel : nat) : Prop := forall t1 t2,
  (2 * (tree_size t1 + tree_size t2) <= fuel)%nat -> readable h t1 -> readable h t2 ->
  exists b, cJSON_Compare cs fuel h (Some (root_of t1)) (Some (root_of t2)) = Ret b /\
    (alike cs (value_of h t1) (value_of h t2) -> b = true).

Definition compares_elements (fuel : nat) : Prop := forall ks1 ks2 p1 p2,
  (2 * (sizes ks1 + sizes ks2) + 1 <= fuel)%nat -> Forall (readable h) ks1 -> Forall (readable h) ks2 ->
  nexts h p1 (root_of <$> ks1) -> nexts h p2 (root_of <$> ks2) ->
  exists b, compare_elements cs fuel h p1 p2 = Ret b /\
    (Forall2 (fun k1 k2 => alike cs (value_of h k1) (value_of h k2)) ks1 ks2 -> b = true).

(** The members [ks] have partners in the object [l] with the members [ks2]. *)
Definition compares_members (fuel : nat) : Prop := forall ks l ks2 p,
  (2 * (sizes ks + sizes ks2) + 1 <= fuel)%nat -> Forall (readable h) ks -> readable h (Tree l ks2) ->
  nexts h p (root_of <$> ks) ->
  exists b, compare_members cs fuel h p (Some l) = Ret b /\
    (Forall (fun k => exists k2 n, k2 ∈ ks2 /\ alike cs (value_of h k) (value_of h k2) /\
               name_of (value_of h k) = Some n /\
               first_named cs n (map (fun k => (root_of k, name_at h (root_of k))) ks2) = Some (root_of k2)) ks ->
     b = true).

Lemma roots_inj ks k k' : NoDup (root_of <$> ks) -> k ∈ ks -> k' ∈ ks -> root_of k = root_of k' -> k = k'.
Proof.
  induction ks as [|x ks IH]; cbn; intros Hnd Hk Hk' E; [by apply not_elem_of_nil in Hk|].
  apply NoDup_cons in Hnd as [Hx Hnd].
  apply elem_of_cons in Hk as [-> | Hk], Hk' as [-> | Hk']; [done|..|by apply IH];
    exfalso; apply Hx, list_elem_of_fmap; eauto.
Qed.

Lemma tree_size_pos t : (1 <= tree_size t)%nat.
Proof. destruct t. cbn. lia. Qed.

Lemma sizes_in k ks : k ∈ ks -> (tree_size k <= sizes ks)%nat.
Proof. induction 1; cbn; lia. Qed.

Lemma elements_step fuel : compares fuel -> compares_elements fuel -> compares_elements (S fuel).
Proof.
  intros HC HE [|k1 ks1] [|k2 ks2] p1 p2 Hf R1 R2 N1 N2; cbn in N1, N2.
  - subst. cbn. eexists. split; [done|]. done.
  - destruct N2 as (-> & _). subst. cbn. eexists. split; [done|]. intros H. by inversion H.
  - destruct N1 as (-> & _). subst. cbn. eexists. split; [done|]. intros H. by inversion H.
  - destruct N1 as (-> & i1 & Hi1 & N1), N2 as (-> & i2 & Hi2 & N2).
    apply Forall_cons in R1 as [Rk1 R1], R2 as [Rk2 R2]. pose proof (tree_size_pos k1). cbn in Hf.
    cbn [compare_elements]. destruct (HC k1 k2) as (b & -> & Hb); [lia|done|done|]. cbn [mbind outcome_bind].
    destruct b.
    + rewrite (item_at_node _ _ _ Hi1). cbn [mbind outcome_bind]. rewrite (item_at_node _ _ _ Hi2). cbn [mbind outcome_bind].
      destruct (HE ks1 ks2 (next i1) (next i2)) as (b & Hrun & Hb'); [lia|done..|].
      exists b. split; [done|]. intros HF. apply Hb'. by inversion HF.
    + exists false. split; [done|]. intros HF. inversion HF; subst. by apply Hb.
Qed.

Lemma members_step fuel : compares fuel -> compares_members fuel -> compares_members (S fuel).
Proof.
  intros HC HM [|k ks] l ks2 p Hf R1 R2 N; cbn in N.
  { subst. cbn. by exists true. }
  destruct N as (-> & i & Hi & N). apply Forall_cons in R1 as [Rk R1]. pose proof (tree_size_pos k). cbn in Hf.
  cbn [compare_members]. rewrite (item_at_node _ _ _ Hi). cbn [mbind outcome_bind].
  destruct (readable_parts _ _ _ R2) as (io & Hio & _ & R2k & _).
  assert (name_of (value_of h k) = text h (string i)) as Hname.
  { rewrite <- name_at_value by done. unfold name_at. by rewrite Hi. }
  destruct k as [lk kk]. cbn [root_of] in *. destruct (readable_parts _ _ _ Rk) as (i' & Hi' & _ & _ & _ & Hts & _ & Hz).
  assert (i' = i) as -> by congruence.
  destruct (string i) as [s|] eqn:Es.
  2:{ exists false. split; [by unfold get_object_item|]. intros (k2 & n & _ & _ & Hn & _)%Forall_inv. by rewrite Hname in Hn. }
  destruct Hts as (c & Hc). cbn [text mbind option_bind] in Hname. rewrite Hc in Hname.
  rewrite (lookup_kid h cs l ks2 io s c R2 Hio Hc) by (apply Hz; cbn; by rewrite Hc). cbn [mbind outcome_bind].
  destruct (first_named cs c _) as [l2|] eqn:Ef.
  2:{ exists false. split; [done|]. intros (k2 & n & _ & _ & Hn & Hf2)%Forall_inv. congruence. }
  destruct (first_named_kid _ _ _ _ _ Ef) as (k2 & Hk2 & <-). pose proof (sizes_in _ _ Hk2).
  destruct (HC (Tree lk kk) k2) as (b & Hrun & Hb); [lia|done|by apply (all_in _ _ _ R2k)|].
  cbn [root_of] in Hrun. rewrite Hrun. cbn [mbind outcome_bind]. destruct b.
  - destruct (HM ks l ks2 (next i)) as (b & Hrun' & Hb'); [lia|done..|]. exists b. split; [done|].
    intros HF. apply Hb'. by inversion HF.
  - exists false. split; [done|]. intros (k3 & n & Hk3 & Hal & Hn & Hf3)%Forall_inv.
    assert (k3 = k2) as ->; [|by apply Hb]. assert (n = c) as -> by congruence.
    apply (roots_inj ks2); [|done|done|congruence]. destruct (readable_parts _ _ _ R2) as (? & ? & Hn2 & _).
    by eapply nexts_NoDup.
Qed.

Lemma alike_kids t1 vs1 vi1 vd1 s1 ks1 t2 vs2 vi2 vd2 s2 ks2 :
  plain (Value t1 vs1 vi1 vd1 s1 ks1) = plain (Value t2 vs2 vi2 vd2 s2 ks2) ->
  t1 .& 255 = t2 .& 255 /\ vs1 = vs2 /\ vd1 = vd2 /\ Forall2 (fun v1 v2 => plain v1 = plain v2) ks1 ks2.
Proof.
  cbn. intros E. simplify_eq. split_and!; [|done|done|].
  - match goal with H : _ .& _ = _ .& _ |- _ => rewrite <- (plain_type t1), <- (plain_type t2), H end. done.
  - match goal with H : map plain _ = map plain _ |- _ => revert H end. generalize ks2.
    induction ks1 as [|k1 ks1 IH]; intros [|k2 ks2'] H; try done. cbn in H. simplify_eq. constructor; [done|by apply IH].
Qed.

(** The object part of [regular]. *)
Definition regular_members (vs : list value) : bool :=
  forallb (fun k => bool_decide (is_Some (name_of k)) && regular cs k) vs &&
  bool_decide (NoDup (map (folded cs) (omap name_of vs))).

Lemma omap_map {A B C} (f : A -> B) (g : B -> option C) l : omap g (map f l) = omap (fun x => g (f x)) l.
Proof. induction l as [|x l IH]; [done|]. cbn. by destruct (g (f x)); rewrite IH. Qed.

Lemma kids_alike ks1 ks2 :
  Forall2 (fun v1 v2 => plain v1 = plain v2) (map (value_of h) ks1) (map (value_of h) ks2) ->
  forallb (regular cs) (map (value_of h) ks1) = true -> forallb (regular cs) (map (value_of h) ks2) = true ->
  Forall2 (fun k1 k2 => alike cs (value_of h k1) (value_of h k2)) ks1 ks2.
Proof.
  intros HF. rewrite Forall2_fmap in HF. induction HF as [|k1 k2 ks1 ks2 E HF IH]; cbn; [constructor|].
  intros [? ?]%andb_true_iff [? ?]%andb_true_iff. constructor; [done|by apply IH].
Qed.

Lemma forallb_weaken {A} (f g : A -> bool) l : (forall x, f x = true -> g x = true) -> forallb f l = true -> forallb g l = true.
Proof. intros H. rewrite !forallb_forall. auto. Qed.

Lemma partners ks1 ks2 :
  Forall (readable h) ks2 ->
  Forall2 (fun v1 v2 => plain v1 = plain v2) (map (value_of h) ks1) (map (value_of h) ks2) ->
  regular_members (map (value_of h) ks1) = true -> regular_members (map (value_of h) ks2) = true ->
  Forall (fun k => exists k2 n, k2 ∈ ks2 /\ alike cs (value_of h k) (value_of h k2) /\
            name_of (value_of h k) = Some n /\
            first_named cs n (map (fun k => (root_of k, name_at h (root_of k))) ks2) = Some (root_of k2)) ks1.
Proof.
  intros R2 HF [G1 _]%andb_true_iff [G2 D2]%andb_true_iff.
  assert (Forall2 (fun k1 k2 => alike cs (value_of h k1) (value_of h k2)) ks1 ks2) as HA.
  { apply kids_alike; [done|..]; (eapply forallb_weaken; [|done]); intros v; cbn; by intros [_ ?]%andb_true_iff. }
  apply bool_decide_eq_true_1 in D2. rewrite omap_map in D2. rewrite forallb_forall in G1, G2.
  apply Forall_forall. intros k Hk. pose proof Hk as (n1 & Hn1)%list_elem_of_lookup.
  destruct (Forall2_lookup_l _ _ _ _ _ HA Hn1) as (k2 & Hk2%list_elem_of_lookup_2 & Hal).
  assert (is_Some (name_of (value_of h k))) as [n Hn].
  { specialize (G1 (value_of h k) (in_map _ _ _ (proj1 (list_elem_of_In _ _) Hk))).
    apply andb_true_iff in G1 as [G1 _]. by apply bool_decide_eq_true_1 in G1. }
  exists k2, n. split_and!; [done..|]. apply first_named_unique; [done| |done|done|].
  - apply Forall_forall. intros k3 Hk3. specialize (G2 (value_of h k3) (in_map _ _ _ (proj1 (list_elem_of_In _ _) Hk3))).
    apply andb_true_iff in G2 as [G2 _]. by apply bool_decide_eq_true_1 in G2.
  - destruct Hal as (E & _). by rewrite <- plain_name, <- E, plain_name.
Qed.

Lemma strings_equal p q :
  text_ok h p -> text_ok h q ->
  (forall c, text h p = Some c -> nonzero c) -> (forall c, text h q = Some c -> nonzero c) ->
  exists b, match p, q with
    | Some _, Some _ => sa ← chars_at h p; sb ← chars_at h q; Ret (strcmp sa sb =? 0)
    | _, _ => Ret false
    end = Ret b /\ (text h p = text h q -> is_Some (text h p) -> b = true).
Proof.
  intros Hp Hq Zp Zq. destruct p as [p|]; [|exists false; split; [done|]; by intros _ [? ?]].
  destruct q as [q|]; [|exists false; split; [done|]; cbn; intros E [? ?]; congruence].
  destruct Hp as (c & Hc), Hq as (d & Hd). cbn in Zp, Zq. rewrite Hc in Zp. rewrite Hd in Zq. unfold chars_at. cbn [deref mbind outcome_bind]. rewrite Hc, Hd. cbn [mbind outcome_bind].
  eexists. split; [done|]. cbn. rewrite Hc, Hd. intros [= ->] _. unfold strcmp.
  rewrite strcmp_with_zero by (first [done|by apply Zp|by apply Zq]). by apply bool_decide_eq_true_2.
Qed.

Lemma compare_step fuel : compares_elements fuel -> compares_members fuel -> compares (S fuel).
Proof.
  intros HE HM [l1 ks1] [l2 ks2] Hf R1 R2. cbn [cJSON_Compare root_of].
  destruct (readable_parts _ _ _ R1) as (i1 & Hi1 & N1 & K1 & V1 & _ & Z1 & _).
  destruct (readable_parts _ _ _ R2) as (i2 & Hi2 & N2 & K2 & V2 & _ & Z2 & _).
  rewrite (item_at_node _ _ _ Hi1), (item_at_node _ _ _ Hi2). cbn [mbind outcome_bind].
  cbn [value_of]. rewrite Hi1, Hi2. unfold item_value, alike. cbn in Hf.
  destruct (Z.eqb_spec (type i1 .& 255) (type i2 .& 255)) as [Et|Et]; cbn [negb].
  2:{ exists false. split; [done|]. intros (E & _ & _). by apply alike_kids in E as (? & _). }
  cbn [regular]. rewrite <- Et. destruct (valid_type (type i1 .& 255)) eqn:Ev; cbn [negb andb].
  2:{ exists false. split; [done|]. by intros (_ & ? & _). }
  destruct (bool_decide (l1 = l2)); [by exists true|]. unfold valid_type in Ev.
  set (t := type i1 .& 255) in *. clearbody t.
  destruct ((t =? cJSON_False) || (t =? cJSON_True) || (t =? cJSON_NULL))%bool; [by exists true|].
  destruct (t =? cJSON_Number).
  { eexists. split; [done|]. intros (E & G1 & _). apply alike_kids in E as (_ & _ & <- & _). done. }
  destruct ((t =? cJSON_String) || (t =? cJSON_Raw))%bool eqn:Es.
  { destruct (strings_equal _ _ V1 V2 Z1 Z2) as (b & -> & Hb). exists b. split; [done|].
    intros (E & G1 & _). apply alike_kids in E as (_ & E & _). apply bool_decide_eq_true_1 in G1. auto. }
  destruct (t =? cJSON_Array).
  { destruct (HE ks1 ks2 (child i1) (child i2)) as (b & -> & Hb); [lia|done..|]. exists b. split; [done|].
    intros (E & G1 & G2). apply alike_kids in E as (_ & _ & _ & E). by apply Hb, kids_alike. }
  cbn [orb] in Ev. rewrite Es in Ev. cbn [orb] in Ev. rewrite Ev.
  destruct (HM ks1 l2 ks2 (child i1)) as (b1 & -> & Hb1); [lia|done..|]. cbn [mbind outcome_bind].
  destruct (HM ks2 l1 ks1 (child i2)) as (b2 & -> & Hb2); [lia|done..|].
  exists (b1 && b2). split; [by destruct b1|]. intros (E & G1 & G2). apply alike_kids in E as (_ & _ & _ & E).
  rewrite Hb1, Hb2; [done|..].
  - apply partners; [done| |done|done]. apply Forall2_flip. by eapply Forall2_impl; [exact E|].
  - by apply partners.
Qed.

Lemma compare_all fuel : compares fuel /\ compares_elements fuel /\ compares_members fuel.
Proof.
  induction fuel as [|fuel (HC & HE & HM)].
  - split_and!.
    + intros t1 t2 Hf. pose proof (tree_size_pos t1). lia.
    + intros ks1 ks2 p1 p2 Hf. lia.
    + intros ks l ks2 p Hf. lia.
  - split_and!; [by apply compare_step|by apply elements_step|by apply members_step].
Qed.
End Total.

(** A loose tree can be read when its strings are there. *)
Lemma owned_reach h t : owned children h t -> (forall l i, l ∈ items t -> h !! l = Some (Node i) -> is_ref i = false) -> reach h t.
Proof.
  induction t as [l ks IH] using tree_nested_ind. intros Ho Hr. inversion Ho as [? i ? Hi Hs Hl Hk]; subst.
  assert (is_ref i = false) as E by (apply (Hr l); [left|done]). rewrite E in Hl.
  apply (reach_tree _ _ i); [done|by destruct Hl as [Hl _]; eapply seg_nexts|].
  apply Forall_forall. intros k Hin. apply (all_in _ _ _ IH Hin); [by apply (all_in _ _ _ Hk)|].
  intros m j Hm. apply Hr. by eapply kid_items.
Qed.

Lemma value_texts_plain v : value_texts (plain v) = value_texts v.
Proof.
  revert v. fix IH 1. intros [t vs vi vd s ks]. cbn. do 2 f_equal.
  induction ks as [|k ks IHk]; [done|]. cbn. by rewrite IH, IHk.
Qed.

Lemma plain_plain v : plain (plain v) = plain v.
Proof.
  revert v. fix IH 1. intros [t vs vi vd s ks]. cbn. f_equal.
  - by rewrite <- Z.land_assoc, Z.land_diag.
  - induction ks as [|k ks IHk]; [done|]. cbn. by rewrite IH, IHk.
Qed.

Lemma regular_plain cs v : regular cs (plain v) = regular cs v.
Proof.
  revert v. fix IH 1. intros [t vs vi vd s ks]. cbn [plain regular]. rewrite plain_type.
  assert (forallb (regular cs) (map plain ks) = forallb (regular cs) ks) as ->.
  { induction ks as [|k ks IHk]; [done|]. cbn. by rewrite IH, IHk. }
  assert (forallb (fun k => bool_decide (is_Some (name_of k)) && regular cs k) (map plain ks) =
          forallb (fun k => bool_decide (is_Some (name_of k)) && regular cs k) ks) as ->.
  { induction ks as [|k ks IHk]; [done|]. cbn [map forallb]. by rewrite IH, IHk, plain_name. }
  assert (omap name_of (map plain ks) = omap name_of ks) as ->; [|done].
  clear IH. induction ks as [|k ks IHk]; [done|]. cbn. rewrite plain_name, IHk. done.
Qed.

(** The items of a tree whose value is flagged nowhere as a reference. *)
Lemma plain_items h t v :
  texts h t -> value_of h t = plain v -> forall l i, l ∈ items t -> h !! l = Some (Node i) -> is_ref i = false.
Proof.
  revert v. induction t as [l ks IH] using tree_nested_ind. intros v Ht Hv m j Hm Hj.
  destruct (Ht l) as (i & Hi & _); [left|]. cbn [value_of] in Hv. rewrite Hi in Hv. destruct v as [t vs vi vd s vks].
  unfold item_value in Hv. cbn [plain] in Hv. injection Hv as Et _ _ _ _ Eks. cbn [items] in Hm.
  apply elem_of_cons in Hm as [-> | Hm].
  - assert (j = i) as -> by congruence. unfold is_ref. rewrite Et. apply has_flag_cleared.
  - apply list_elem_of_In, in_flat_map in Hm as (k & Hk & Hm). apply list_elem_of_In in Hm.
    assert (value_of h k ∈ map plain vks) as Hin.
    { rewrite <- Eks. apply list_elem_of_In, in_map, Hk. }
    apply list_elem_of_In, in_map_iff in Hin as (vk & Evk & _). apply list_elem_of_In in Hk.
    eapply (all_in _ _ _ IH Hk vk); [|done|done|done]. intros m' Hm'. apply Ht. by eapply kid_items.
Qed.

Section Copy.
Context (malloc : heap -> option loc).
Context (malloc_fresh : forall h l, malloc h = Some l -> h !! l = None).

(** A copy compares equal to the original.  [cJSON_Compare] returns for any two
    trees that can be read; and when memory suffices, the tree [cJSON_Duplicate]
    makes of a tree that is not nested too deeply, whose members have distinct
    names and whose numbers equal themselves, is found equal to it, both ways
    round, with and without regard to case. *)
Theorem copy_compares_equal cs h t fuel :
  (forall h, malloc h <> None) -> readable h t -> regular cs (value_of h t) = true ->
  height t <= CJSON_CIRCULAR_LIMIT -> (4 * tree_size t <= fuel)%nat ->
  exists l h' t', cJSON_Duplicate malloc fuel h (Some (root_of t)) true = Ret (Some l, h') /\ root_of t' = l /\
    forall fuel', (2 * (tree_size t + tree_size t') <= fuel')%nat ->
      cJSON_Compare cs fuel' h' (Some (root_of t)) (Some l) = Ret true /\
      cJSON_Compare cs fuel' h' (Some l) (Some (root_of t)) = Ret true.
Proof.
  intros Hm (Hr & Ht & Hz) Hreg Hh Hf. pose proof (tree_size_pos t).
  destruct (dup_tree_all malloc malloc_fresh t fuel h 0) as ([[l|] h'] & Hrun & Hres); [lia|done|done|done| |]; cbn in Hres.
  2:{ destruct Hres as [_ Hres]. specialize (Hres Hm). lia. }
  destruct Hres as (t' & <- & [[[Ho _] _] Ht' Hv Hg] & _). exists (root_of t'), h', t'.
  split; [exact Hrun|]. split; [done|].
  pose proof (grown_sub _ _ _ Hg) as Hs. destruct (value_keeps h h' t) as [Hv0 Ht0]; [by apply keeps_grow|done|].
  assert (readable h' t) as R by (split_and!; [by eapply reach_mono|done|by rewrite Hv0]).
  assert (readable h' t') as R'.
  { split_and!; [|done|by rewrite Hv, value_texts_plain]. apply owned_reach; [done|]. by eapply plain_items. }
  assert (alike cs (value_of h' t) (value_of h' t')) as Hal.
  { rewrite Hv, Hv0. split_and!; [by rewrite plain_plain|done|by rewrite regular_plain]. }
  intros fuel' Hf'. destruct (compare_all cs h' fuel') as (HC & _ & _).
  destruct (HC t t') as (b & -> & Hb); [lia|done..|]. destruct (HC t' t) as (b' & -> & Hb'); [lia|done..|].
  rewrite Hb, Hb'; [done|by apply alike_sym|done].
Qed.
End Copy.
End CjsonCmp.
