(* ===== verification/CjsonSample.v ===== *)
(** * A heap with one object

    The object [{a: 1, b: hi}] with its cells, a further item that belongs to no
    tree and a further name: the preconditions of the theorems on cJSON items in
    memory hold of it, and the theorems apply. *)
From Stdlib Require Import Floats.SpecFloat.
From S2P Require Import Prelude Heap Number Cjson CjsonHeap CjsonList CjsonTree CjsonArray CjsonValue CjsonDup CjsonObject CjsonCmp.
Import CjsonHeap CjsonList CjsonTree CjsonArray CjsonValue CjsonDup CjsonObject CjsonCmp.
Open Scope c_scope.

Module CjsonSample.

Definition one : spec_float := Number.double_of_int 1.

Definition sample : heap := list_to_map
  [(1%positive, Node (Item None None (Some 2%positive) 64 None 0 (S754_zero false) None));
   (2%positive, Node (Item (Some 3%positive) (Some 3%positive) None 8 None 1 one (Some 4%positive)));
   (3%positive, Node (Item None (Some 2%positive) None 16 (Some 5%positive) 0 (S754_zero false) (Some 6%positive)));
   (4%positive, Chars [97]); (5%positive, Chars [104; 105]); (6%positive, Chars [98]);
   (7%positive, Node (Item None None None 8 None 1 one None)); (8%positive, Chars [99])].

Definition members : list tree := [Tree 2 []; Tree 3 []].

(** An allocator that never fails. *)
Definition bump (h : heap) : option loc := Some (fresh (dom h)).

Lemma bump_fresh h l : bump h = Some l -> h !! l = None.
Proof. unfold bump. intros [= <-]. apply not_elem_of_dom, is_fresh. Qed.

Lemma sample_leaf l : l ∈ [2; 3; 7]%positive -> owned children sample (Tree l []).
Proof.
  intros Hl. repeat (apply elem_of_cons in Hl as [-> | Hl]; [|]); [..|by apply not_elem_of_nil in Hl];
    (eapply owned_tree; [reflexivity| |by split; [|constructor]|by constructor]);
    repeat constructor; by eexists.
Qed.

Lemma sample_holds : holds sample 1 members.
Proof.
  split; [split|by eexists].
  - eapply owned_tree; [reflexivity|by constructor| |].
    + split; [|by apply (bool_decide_unpack _); vm_compute].
      split; [done|]. eexists. split; [reflexivity|]. split; [done|].
      split; [done|]. eexists. split; [reflexivity|]. done.
    + repeat constructor; apply sample_leaf; apply (bool_decide_unpack _); by vm_compute.
  - apply (bool_decide_unpack _); by vm_compute.
Qed.

Lemma sample_loose : loose sample (Tree 7 []).
Proof.
  split; [split|by eexists].
  - apply sample_leaf. apply (bool_decide_unpack _); by vm_compute.
  - apply (bool_decide_unpack _); by vm_compute.
Qed.

Lemma sample_texts : texts sample (Tree 1 members).
Proof.
  intros l Hl. cbn in Hl. repeat (apply elem_of_cons in Hl as [-> | Hl]; [|]); [..|by apply not_elem_of_nil in Hl];
    (eexists; split; [reflexivity|]); split; first [exact I | by eexists].
Qed.

Lemma sample_reach : reach sample (Tree 1 members).
Proof.
  eapply reach_tree; [reflexivity| |].
  - cbn. split; [done|]. eexists. split; [reflexivity|]. split; [done|]. eexists. split; [reflexivity|done].
  - repeat constructor; (eapply reach_tree; [reflexivity|done|constructor]).
Qed.

Lemma sample_object : object_is sample 1 members [([97], JNumber one); ([98], JString [104; 105])].
Proof. split_and!; [apply sample_holds|apply sample_texts|by vm_compute]. Qed.

Lemma array_refines_list_witness :
  exists h', run_edit sample 1 (Replace 1 (Tree 7 [])) = Ret h' /\ holds h' 1 [Tree 2 []; Tree 7 []] /\
    h' !! 3%positive = None /\ h' !! 5%positive = None /\ h' !! 8%positive = Some (Chars [99]).
Proof.
  destruct (array_refines_list sample 1 members sample_holds (Replace 1 (Tree 7 []))) as (h' & Hr & Hh & Hf & Ho).
  - constructor; [apply sample_loose|constructor].
  - apply (bool_decide_unpack _); by vm_compute.
  - exists h'. split_and!; [exact Hr|exact Hh|apply Hf|apply Hf|apply Ho];
      apply (bool_decide_unpack _); by vm_compute.
Defined.

Lemma duplicate_all_or_nothing_witness :
  exists l h', cJSON_Duplicate bump 6 sample (Some 1%positive) true = Ret (Some l, h') /\
    exists t', root_of t' = l /\ loose h' t' /\ value_of h' t' = value_of sample (Tree 1 members).
Proof.
  destruct (duplicate_all_or_nothing bump bump_fresh 6 sample (Tree 1 members)) as ([r h'] & Hr & Hres).
  - vm_compute. lia.
  - apply sample_reach.
  - apply sample_texts.
  - destruct r as [l|]; cbn in Hres.
    + destruct Hres as (t' & Hl & _ & Hlo & _ & Hv & _). exists l, h'. split; [exact Hr|].
      exists t'. split_and!; [done|done|]. rewrite Hv. by vm_compute.
    + destruct Hres as [_ Hlim]. assert (forall h, bump h <> None) as Hb by done. specialize (Hlim Hb).
      vm_compute in Hlim. discriminate.
Defined.

Lemma lookup_by_name_witness :
  get_object_item sample (Some 1%positive) (Some 6%positive) true = Ret (Some 3%positive) /\
  get_object_item sample (Some 1%positive) (Some 8%positive) false = Ret None.
Proof.
  assert (Forall (named_ok sample) [2; 3]%positive) as Hn.
  { repeat constructor; eexists; (split; [reflexivity|]); (split; [by eexists|]);
      intros n Hn; vm_compute in Hn; simplify_eq; repeat constructor; lia. }
  pose proof (holds_array _ _ _ sample_holds) as Ha.
  split.
  - rewrite (lookup_by_name sample 1 [2; 3]%positive 6 [98] true Ha Hn); [by vm_compute|done|repeat constructor; lia].
  - rewrite (lookup_by_name sample 1 [2; 3]%positive 8 [99] false Ha Hn); [by vm_compute|done|repeat constructor; lia].
Defined.

Lemma add_member_refines_witness :
  exists n h', cJSON_AddNumberToObject bump sample (Some 1%positive) (Some 8%positive) one = Ret (Some n, h') /\
    object_is h' 1 (members ++ [Tree n []]) [([97], JNumber one); ([98], JString [104; 105]); ([99], JNumber one)].
Proof.
  pose proof (add_member_refines bump bump_fresh sample 1 members _ 8 [99] 5 [104; 105] one true sample_object
                eq_refl eq_refl ltac:(repeat constructor; lia)) as H.
  apply Forall_cons in H as [_ H]. apply Forall_cons in H as [H _].
  destruct H as (q & h' & Hr & Hq). destruct q as [n|].
  - destruct Hq as (ms' & Hms & Ho & _). cbn in Hms. simplify_eq. exists n, h'. split; [exact Hr|exact Ho].
  - destruct Hq as [_ Hq]. exfalso. apply Hq. done.
Defined.

Lemma copy_compares_equal_witness :
  exists l h' fuel, cJSON_Duplicate bump 12 sample (Some 1%positive) true = Ret (Some l, h') /\
    cJSON_Compare false fuel h' (Some 1%positive) (Some l) = Ret true.
Proof.
  destruct (copy_compares_equal bump bump_fresh false sample (Tree 1 members) 12) as (l & h' & t' & Hr & Hl & Hc).
  - done.
  - split_and!; [apply sample_reach|apply sample_texts|]. apply (bool_decide_unpack _); by vm_compute.
  - by vm_compute.
  - by vm_compute.
  - vm_compute. lia.
  - exists l, h', (2 * (tree_size (Tree 1 members) + tree_size t'))%nat. split; [exact Hr|].
    destruct (Hc _ (Nat.le_refl _)) as [H _]. exact H.
Defined.

(** An object with two members of the same name. *)
Definition twins : heap := list_to_map
  [(1%positive, Node (Item None None (Some 2%positive) 64 None 0 (S754_zero false) None));
   (2%positive, Node (Item (Some 3%positive) (Some 3%positive) None 8 None 1 one (Some 4%positive)));
   (3%positive, Node (Item None (Some 2%positive) None 4 None 0 (S754_zero false) (Some 5%positive)));
   (4%positive, Chars [97]); (5%positive, Chars [97])].

(** A lookup never sees the second member of a name, so an object with two such
    members differs from its own copy. *)
Theorem twins_differ :
  match cJSON_Duplicate bump 12 twins (Some 1%positive) true with
  | Ret (Some l, h') => cJSON_Compare true 12 h' (Some 1%positive) (Some l)
  | _ => Undef
  end = Ret false.
Proof. by vm_compute. Qed.
End CjsonSample.
