(* ===== verification/Json.v ===== *)
(** * Message payloads (gateway/src/payload_json.c)

    Requests are parsed and replies printed with the bundled JSON library.  A
    function that writes into a caller's buffer takes the buffer's previous
    content and returns the text left in it, [None] standing for a negative
    result. *)
From Stdlib Require Import Floats.SpecFloat.
From S2P Require Import Prelude Number Cjson CjsonPrint CjsonParse.
Import Number Cjson CjsonPrint CjsonParse.

Module Json.

(** [snprintf(out, cap, s)] with the format of a string: at most [cap - 1] bytes. *)
Definition snprintf_s (cap : Z) (s : list Z) : list Z := take (Z.to_nat (cap - 1)) s.

(** [None] stands for NULL. *)
Definition parse_payload (payload : list Z) : outcome (option json) :=
  if zlen payload =? 0 then Ret None else cJSON_ParseWithLength payload.

Definition print_and_free (root : json) (buf : list Z) : outcome (option (list Z)) :=
  ok ← cJSON_PrintPreallocated false root buf;
  match ok with
  | None => Ret None
  | Some buf => n ← strlen_at buf 0; Ret (Some (take (Z.to_nat n) buf))
  end.

(** ** Requests *)

Definition json_parse_echo_req (payload : list Z) (msg_cap : Z) : outcome (option (list Z)) :=
  if msg_cap =? 0 then Ret None
  else
    root ← parse_payload payload;
    Ret (msg ← cJSON_IsString (get_object_item root (bstr "msg"));
         Some (snprintf_s msg_cap msg)).

Definition json_parse_get_sensor_req (payload : list Z) : outcome (option Z) :=
  root ← parse_payload payload;
  Ret (sensor_id ← cJSON_IsNumber (get_object_item root (bstr "sensor_id"));
       Some (valueint sensor_id)).

Definition json_parse_set_actuator_req (payload : list Z) : outcome (option (Z * Z * Z)) :=
  root ← parse_payload payload;
  Ret (device_id ← cJSON_IsNumber (get_object_item root (bstr "device_id"));
       state ← cJSON_IsNumber (get_object_item root (bstr "state"));
       value ← cJSON_IsNumber (get_object_item root (bstr "value"));
       Some (valueint device_id, valueint state, valueint value)).

(** ** Replies: the trees and their text *)

Definition status_tree (status : string) : json :=
  cJSON_AddStringToObject cJSON_CreateObject (bstr "status") (bstr status).

Definition echo_tree (msg : list Z) : json :=
  cJSON_AddStringToObject (status_tree "ok") (bstr "msg") msg.

Definition json_build_echo_resp (buf msg : list Z) : outcome (option (list Z)) :=
  print_and_free (echo_tree msg) buf.

Definition uptime_tree (uptime_ms active_workers : Z) : json :=
  cJSON_AddNumberToObject
    (cJSON_AddNumberToObject (status_tree "ok") (bstr "uptime_ms") (double_of_int uptime_ms))
    (bstr "active_workers") (double_of_int active_workers).

Definition json_build_status_resp (buf : list Z) (uptime_ms active_workers : Z)
    : outcome (option (list Z)) :=
  print_and_free (uptime_tree uptime_ms active_workers) buf.

Definition sensor_tree (name : string) (data : json) : json :=
  add_item_to_object
    (cJSON_AddStringToObject (status_tree "ok") (bstr "sensor_name") (bstr name))
    (bstr "data") data.

Definition aht30_tree (temperature humidity : spec_float) : json :=
  sensor_tree "AHT30"
    (cJSON_AddNumberToObject (cJSON_AddNumberToObject cJSON_CreateObject (bstr "temp") temperature)
       (bstr "humi") humidity).

Definition json_build_sensor_aht30_resp (buf : list Z) (temperature humidity : spec_float)
    : outcome (option (list Z)) :=
  print_and_free (aht30_tree temperature humidity) buf.

Definition bh1750_tree (lux : spec_float) : json :=
  sensor_tree "BH1750" (cJSON_AddNumberToObject cJSON_CreateObject (bstr "lux") lux).

Definition json_build_sensor_bh1750_resp (buf : list Z) (lux : spec_float)
    : outcome (option (list Z)) :=
  print_and_free (bh1750_tree lux) buf.

Definition actuator_tree (message : string) : json :=
  cJSON_AddStringToObject (status_tree "ok") (bstr "message") (bstr message).

Definition json_build_actuator_resp (buf : list Z) (message : string) : outcome (option (list Z)) :=
  print_and_free (actuator_tree message) buf.

Definition error_tree (error_code : Z) (message : string) : json :=
  cJSON_AddStringToObject
    (cJSON_AddNumberToObject (status_tree "error") (bstr "error_code") (double_of_int error_code))
    (bstr "message") (bstr message).

Definition json_build_error_resp (buf : list Z) (error_code : Z) (message : string)
    : outcome (option (list Z)) :=
  print_and_free (error_tree error_code message) buf.

(** ** What they do *)

(** The text of a tree if it fits a buffer. *)
Definition text_in (root : json) (cap : Z) : option (list Z) :=
  if nested_ok 0 root && room_for (render false 0 root) cap then Some (render false 0 root) else None.

Lemma print_and_free_exact root buf :
  zlen buf <= INT_MAX -> tree_bytes root ->
  print_and_free root buf = Ret (text_in root (zlen buf)).
Proof.
  intros HL Htb. unfold print_and_free, text_in.
  pose proof (print_preallocated_exact false root buf HL Htb) as Hp.
  destruct (_ && _)%bool; [|by rewrite Hp]. destruct Hp as (tail & -> & Hl).
  cbn [mbind outcome_bind]. unfold strlen_at. change (Z.to_nat 0) with 0%nat.
  change (drop 0 (render false 0 root ++ 0 :: tail)) with (render false 0 root ++ 0 :: tail).
  rewrite c_string_app by (apply textual_nonzero; by apply render_textual).
  rewrite zlen_app, zlen_cons. pose proof (zlen_nonneg tail).
  destruct (Z.ltb_spec (0 + zlen (render false 0 root)) (zlen (render false 0 root) + (1 + zlen tail)));
    [|lia].
  cbn [mbind outcome_bind]. by rewrite zlen_length, take_app_length.
Qed.

Lemma parse_payload_defined payload :
  bytes payload ->
  exists r, parse_payload payload = Ret r /\ forall j, r = Some j -> tree_bytes j.
Proof.
  intros Hb. unfold parse_payload. destruct (_ =? 0); [by eexists|]. by apply parse_defined.
Qed.

(** Strings found in a tree. *)
Lemma object_string_bytes j name s :
  (forall t, j = Some t -> tree_bytes t) ->
  cJSON_IsString (get_object_item j name) = Some s -> bytes s.
Proof.
  intros Hj. destruct j as [[| | | | |child]|]; try done. specialize (Hj _ eq_refl).
  cbn [get_object_item tree_bytes] in *. intros Hs.
  destruct (find _ child) as [[k x]|] eqn:E; [|done]. cbn in Hs.
  apply find_some in E as [Hin _]. destruct x; try done. injection Hs as ->.
  rewrite Forall_fmap, Forall_forall in Hj.
  destruct (Hj (k, JString s)) as [_ Hb]; [by apply list_elem_of_In|]. exact Hb.
Qed.

Lemma parse_echo_defined payload cap :
  bytes payload ->
  exists r, json_parse_echo_req payload cap = Ret r /\ forall msg, r = Some msg -> bytes msg.
Proof.
  intros Hb. unfold json_parse_echo_req. destruct (cap =? 0); [by eexists|].
  destruct (parse_payload_defined payload Hb) as (root & -> & Hroot). cbn [mbind outcome_bind].
  eexists. split; [reflexivity|]. intros msg.
  destruct (cJSON_IsString _) as [s|] eqn:E; [|done]. cbn. intros [= <-].
  apply object_string_bytes in E; [|done]. by apply Forall_take.
Qed.

Lemma parse_sensor_defined payload :
  bytes payload -> exists r, json_parse_get_sensor_req payload = Ret r.
Proof.
  intros Hb. unfold json_parse_get_sensor_req.
  destruct (parse_payload_defined payload Hb) as (root & -> & _). by eexists.
Qed.

Lemma parse_actuator_defined payload :
  bytes payload -> exists r, json_parse_set_actuator_req payload = Ret r.
Proof.
  intros Hb. unfold json_parse_set_actuator_req.
  destruct (parse_payload_defined payload Hb) as (root & -> & _). by eexists.
Qed.

Lemma bstr_bytes s : bytes (bstr s).
Proof.
  apply Forall_fmap, Forall_true. intros c. unfold is_byte. cbn.
  pose proof (Ascii.N_ascii_bounded c). lia.
Qed.

(** Trees built from byte strings. *)
Lemma add_item_bytes object name item :
  tree_bytes object -> bytes name -> tree_bytes item ->
  tree_bytes (add_item_to_object object name item).
Proof.
  intros Ho Hn Hi. destruct object as [| | | | |child]; try done. cbn [add_item_to_object tree_bytes] in *.
  rewrite fmap_app. apply Forall_app. split; [done|]. by apply Forall_singleton.
Qed.

Lemma add_string_bytes object name s :
  tree_bytes object -> bytes name -> bytes s -> tree_bytes (cJSON_AddStringToObject object name s).
Proof. intros. apply add_item_bytes; [done..|]. by apply c_string_bytes. Qed.

Lemma add_number_bytes object name d :
  tree_bytes object -> bytes name -> tree_bytes (cJSON_AddNumberToObject object name d).
Proof. intros. by apply add_item_bytes. Qed.

Lemma create_object_bytes : tree_bytes cJSON_CreateObject.
Proof. constructor. Qed.

Create HintDb json.
#[export] Hint Resolve add_item_bytes add_string_bytes add_number_bytes create_object_bytes
  bstr_bytes : json.

(** The trees of the replies hold byte strings. *)
Ltac reply_bytes :=
  unfold error_tree, echo_tree, uptime_tree, aht30_tree, bh1750_tree, actuator_tree, sensor_tree,
    status_tree; auto 10 with json.

End Json.
