(* ===== verification/Worker.v ===== *)
(** * Worker threads and devices (gateway/src/worker_thread.c, task_execute.c)

    A worker iteration pops a task, executes it on a simulated or real device,
    and pushes the response.  The answers of the operating system to the device
    files are the record [hw]; the bytes a worker writes to a device are part of
    the result.  [sscanf] on a sensor line is a parameter. *)
From Stdlib Require Import Floats.SpecFloat.
From S2P Require Import Prelude Socket Heap Fifo Number Cjson CjsonPrint CjsonParse CjsonRoundtrip Protocol.
From S2P Require Import RateLimit Queue Client Server Handlers Json.
Import Number Cjson CjsonPrint CjsonRoundtrip Protocol Client Server Handlers Json.

Module Worker.

Definition NUM_WORKERS : Z := 4.
Definition AHT30_SENSOR_ID : Z := 1.
Definition BH1750_SENSOR_ID : Z := 2.
Definition AC_ACTUATOR_ID : Z := 1.
Definition LED_ACTUATOR_ID : Z := 2.
Definition FAN_ACTUATOR_ID : Z := 3.

(** ** Devices *)

(** Answers to [open] of the device and of its simulation file, to [read] and
    to [write] (the number of bytes written, or negative). *)
Record hw := HW {
  hw_open : Z; hw_open_sim : Z; hw_read : option (list Z); hw_write : list Z -> Z }.

(** [write(fd, cmd, len)]: the setter's result and what reached the device. *)
Definition write_device (e : hw) (cmd : list Z) : Z * list Z :=
  let written := hw_write e cmd in
  if written <? 0 then (-1, []) else (0, take (Z.to_nat written) cmd).

(** [open(device)], then the simulation file if that fails. *)
Definition open_device (e : hw) : Z := if hw_open e <? 0 then hw_open_sim e else hw_open e.

Definition float_zero : spec_float := S754_zero false.

Record aht30_sensor := Aht30 {
  a_fd : Z; a_state : Z; a_last_control_ms : Z; temperature : spec_float; humidity : spec_float }.

Definition init_aht30_sensor (e : hw) (dev : aht30_sensor) : Z * aht30_sensor :=
  let fd := open_device e in
  if fd <? 0 then (-1, Aht30 fd 0 (a_last_control_ms dev) (temperature dev) (humidity dev))
  else (0, Aht30 fd 1 (a_last_control_ms dev) float_zero float_zero).

(** What [sscanf] assigns: a prefix of the two fields. *)
Definition scan2 : Type := list Z -> option (spec_float * option spec_float).
Definition scan1 : Type := list Z -> option spec_float.

Definition get_aht30_sensor_data (sscanf : scan2) (e : hw) (now : Z) (dev : aht30_sensor)
    : Z * aht30_sensor :=
  if a_fd dev <? 0 then (-1, dev)
  else
    match hw_read e with
    | None => (-1, dev)
    | Some buf =>
        let '(t, h) := match sscanf (take 63 buf) with
                       | None => (temperature dev, humidity dev)
                       | Some (t, None) => (t, humidity dev)
                       | Some (t, Some h) => (t, h)
                       end in
        (0, Aht30 (a_fd dev) (a_state dev) now t h)
    end.

Definition destroy_aht30_sensor (dev : aht30_sensor) : aht30_sensor :=
  if 0 <=? a_fd dev
  then Aht30 (-1) 0 (a_last_control_ms dev) (temperature dev) (humidity dev) else dev.

Record bh1750_sensor := Bh1750 { b_fd : Z; b_state : Z; lux : spec_float }.

Definition init_bh1750_sensor (e : hw) (dev : bh1750_sensor) : Z * bh1750_sensor :=
  let fd := open_device e in
  if fd <? 0 then (-1, Bh1750 fd (b_state dev) (lux dev)) else (0, Bh1750 fd 1 float_zero).

Definition get_bh1750_sensor_data (sscanf : scan1) (e : hw) (dev : bh1750_sensor)
    : Z * bh1750_sensor :=
  if b_fd dev <? 0 then (-1, dev)
  else
    match hw_read e with
    | None => (-1, dev)
    | Some buf =>
        (0, Bh1750 (b_fd dev) (b_state dev) (default (lux dev) (sscanf (take 31 buf))))
    end.

Definition destroy_bh1750_sensor (dev : bh1750_sensor) : bh1750_sensor :=
  if 0 <=? b_fd dev then Bh1750 (-1) 0 (lux dev) else dev.

(** [current_setpoint] is a double that only ever holds whole numbers: 26.0 or
    the conversion of an int; it is kept as that number. *)
Record air_condition := AirCondition {
  ac_fd : Z; ac_state : Z; current_setpoint : Z; swing : Z; fan_level : Z }.

Definition init_ac_actuator (e : hw) (ac : air_condition) : Z * air_condition :=
  let fd := open_device e in
  if fd <? 0 then (-1, AirCondition fd (ac_state ac) (current_setpoint ac) (swing ac) (fan_level ac))
  else (0, AirCondition fd 0 26 1 2).

(** The line written to the device. *)
Definition ac_command (ac : air_condition) : list Z :=
  bstr "STATE=" ++ fmt_d (ac_state ac) ++ bstr ",TEMP=" ++ fmt_d (current_setpoint ac)
  ++ bstr ".0,SWING=" ++ fmt_d (swing ac) ++ bstr ",FAN=" ++ fmt_d (fan_level ac) ++ [10].

Definition set_ac_actuator (e : hw) (ac : air_condition) : Z * list Z :=
  if ac_fd ac <? 0 then (-1, [])
  else write_device e (ac_command ac).

Definition destroy_ac_actuator (ac : air_condition) : air_condition :=
  if 0 <=? ac_fd ac
  then AirCondition (-1) 0 (current_setpoint ac) (swing ac) (fan_level ac) else ac.

Record led_pwm := LedPwm { led_fd : Z; led_state : Z; brightness_percent : Z }.

Definition init_led_actuator (e : hw) (led : led_pwm) : Z * led_pwm :=
  let fd := open_device e in
  if fd <? 0 then (-1, LedPwm fd (led_state led) (brightness_percent led))
  else (0, LedPwm fd 1 50).

(** Signed multiplication overflow is undefined; division truncates. *)
Definition set_led_actuator (e : hw) (led : led_pwm) : outcome (Z * list Z) :=
  if led_fd led <? 0 then Ret (-1, [])
  else
    let prod := brightness_percent led * 1000000 in
    if ((prod <? INT_MIN) || (INT_MAX <? prod))%bool then Undef
    else
      Ret (write_device e (fmt_d (Z.quot prod 100) ++ [10])).

Definition destroy_led_actuator (led : led_pwm) : led_pwm :=
  if 0 <=? led_fd led then LedPwm (-1) (led_state led) (brightness_percent led) else led.

Record fan := Fan { fan_fd : Z; fan_state : Z; speed_rpm : Z }.

Definition init_fan_actuator (e : hw) (f : fan) : Z * fan :=
  let fd := open_device e in
  if fd <? 0 then (-1, Fan fd (fan_state f) (speed_rpm f)) else (0, Fan fd 0 0).

Definition set_fan_actuator (e : hw) (f : fan) : Z * list Z :=
  if fan_fd f <? 0 then (-1, [])
  else write_device e
    (bstr "STATE=" ++ fmt_d (fan_state f) ++ bstr ",RPM=" ++ fmt_d (speed_rpm f) ++ [10]).

Definition destroy_fan_actuator (f : fan) : fan :=
  if 0 <=? fan_fd f then Fan (-1) (fan_state f) (speed_rpm f) else f.

(** ** Responses *)

Definition make_response (m : allocator) (slot generation type request_id : Z)
    (payload : option (list Z)) (length : Z) (mem : Queue.response_heap)
    : outcome (option loc * Queue.response_heap) :=
  match malloc_response m mem with
  | None => Ret (None, mem)
  | Some (rp, junk) =>
      let length := if MAX_PAYLOAD <? length then MAX_PAYLOAD else length in
      buf ←
        match payload with
        | Some p => if 0 <? length
                    then d ← read_at p 0 length; write_at (Queue.r_payload junk) 0 d
                    else Ret (Queue.r_payload junk)
        | None => Ret (Queue.r_payload junk)
        end;
      Ret (Some rp, <[rp := Queue.Response slot generation type request_id length buf None]> mem)
  end.

(** [err_buf] is the content of the local buffer, whose 128 bytes are unspecified. *)
Definition make_error_response (m : allocator) (err_buf : list Z) (t : Queue.task)
    (code : err_code) (message : string) (mem : Queue.response_heap)
    : outcome (option loc * Queue.response_heap) :=
  n ← json_build_error_resp err_buf (err_code_val code) message;
  n ← match n with
      | Some text => Ret (Some text)
      | None => json_build_error_resp err_buf (err_code_val code) "internal_error"
      end;
  match n with
  | None => Ret (None, mem)
  | Some text => make_response m (Queue.t_slot t) (Queue.t_generation t) MSG_ERROR
                   (Queue.t_request_id t) (Some text) (zlen text) mem
  end.

(** Clock readings and device answers of one execution, and the unspecified
    content of its local device structures and buffers. *)
Record exec_env := ExecEnv {
  x_hw : hw; x_now : Z;
  x_aht30 : aht30_sensor; x_bh1750 : bh1750_sensor;
  x_ac : air_condition; x_led : led_pwm; x_fan : fan;
  x_resp_buf : list Z; x_err_buf : list Z }.

Section Tasks.
Context (sscanf_aht30 : scan2) (sscanf_bh1750 : scan1).

(** The sensor branches: the reply's text, or the error to report. *)
Definition read_sensor (x : exec_env) (sensor_id : Z)
    : outcome (option (list Z)) + (err_code * string) :=
  if sensor_id =? AHT30_SENSOR_ID then
    let '(ret, dev) := init_aht30_sensor (x_hw x) (x_aht30 x) in
    if negb (ret =? 0) then inr (ERR_UNKNOWN_TYPE, "aht30_hardware_init_fail"%string)
    else
      let '(_, dev) := get_aht30_sensor_data sscanf_aht30 (x_hw x) (x_now x) dev in
      let dev := destroy_aht30_sensor dev in
      inl (json_build_sensor_aht30_resp (x_resp_buf x) (temperature dev) (humidity dev))
  else if sensor_id =? BH1750_SENSOR_ID then
    let '(ret, dev) := init_bh1750_sensor (x_hw x) (x_bh1750 x) in
    if negb (ret =? 0) then inr (ERR_UNKNOWN_TYPE, "bh1750_hardware_init_fail"%string)
    else
      let '(_, dev) := get_bh1750_sensor_data sscanf_bh1750 (x_hw x) dev in
      let dev := destroy_bh1750_sensor dev in
      inl (json_build_sensor_bh1750_resp (x_resp_buf x) (lux dev))
  else inr (ERR_UNKNOWN_TYPE, "unknown_sensor_id"%string).

(** The actuator branches: [ok] and the device's input; [None] for an unknown
    device. *)
Definition drive_actuator (x : exec_env) (device_id state value : Z)
    : outcome (option (bool * list Z)) :=
  if device_id =? AC_ACTUATOR_ID then
    let '(ret, dev) := init_ac_actuator (x_hw x) (x_ac x) in
    if negb (ret =? 0) then Ret (Some (false, []))
    else
      let dev := AirCondition (ac_fd dev) state value (swing dev) (fan_level dev) in
      let '(r, out) := set_ac_actuator (x_hw x) dev in
      let dev := destroy_ac_actuator dev in
      Ret (Some (r =? 0, out))
  else if device_id =? LED_ACTUATOR_ID then
    let '(ret, dev) := init_led_actuator (x_hw x) (x_led x) in
    if negb (ret =? 0) then Ret (Some (false, []))
    else
      let dev := LedPwm (led_fd dev) state value in
      '(r, out) ← set_led_actuator (x_hw x) dev;
      let dev := destroy_led_actuator dev in
      Ret (Some (r =? 0, out))
  else if device_id =? FAN_ACTUATOR_ID then
    let '(ret, dev) := init_fan_actuator (x_hw x) (x_fan x) in
    if negb (ret =? 0) then Ret (Some (false, []))
    else
      let dev := Fan (fan_fd dev) state value in
      let '(r, out) := set_fan_actuator (x_hw x) dev in
      let dev := destroy_fan_actuator dev in
      Ret (Some (r =? 0, out))
  else Ret None.

(** A reply's text as a response, or the error that it does not fit. *)
Definition finish_response (m : allocator) (x : exec_env) (t : Queue.task)
    (resp : outcome (option (list Z))) (mem : Queue.response_heap)
    : outcome (option loc * Queue.response_heap) :=
  resp_len ← resp;
  match resp_len with
  | None => make_error_response m (x_err_buf x) t ERR_BAD_JSON "response_too_large" mem
  | Some text => make_response m (Queue.t_slot t) (Queue.t_generation t) MSG_RESPONSE
                   (Queue.t_request_id t) (Some text) (zlen text) mem
  end.

(** The result is the response (NULL is [None]) and what was written to an
    actuator. *)
Definition process_hardware_task (m : allocator) (x : exec_env) (t : Queue.task)
    (mem : Queue.response_heap) : outcome (option loc * Queue.response_heap * list Z) :=
  let error code message (out : list Z) :=
    '(rp, mem) ← make_error_response m (x_err_buf x) t code message mem; Ret (rp, mem, out) in
  let finish resp (out : list Z) :=
    '(rp, mem) ← finish_response m x t resp mem; Ret (rp, mem, out) in
  payload ← read_at (Queue.t_payload t) 0 (Queue.t_length t);
  if Queue.t_type t =? MSG_ECHO then
    r ← json_parse_echo_req payload 128;
    match r with
    | None => error ERR_BAD_JSON "missing_or_invalid_field_msg"%string []
    | Some msg_in => finish (json_build_echo_resp (x_resp_buf x) msg_in) []
    end
  else if Queue.t_type t =? MSG_STATUS then
    finish (json_build_status_resp (x_resp_buf x) (x_now x) NUM_WORKERS) []
  else if Queue.t_type t =? MSG_GET_SENSOR then
    r ← json_parse_get_sensor_req payload;
    match r with
    | None => error ERR_BAD_JSON "missing_or_invalid_field_sensor_id"%string []
    | Some sensor_id =>
        match read_sensor x sensor_id with
        | inr (code, message) => error code message []
        | inl resp => finish resp []
        end
    end
  else if Queue.t_type t =? MSG_SET_ACTUATOR then
    r ← json_parse_set_actuator_req payload;
    match r with
    | None => error ERR_BAD_JSON "missing_or_invalid_field_device_id_state_value"%string []
    | Some (device_id, state, value) =>
        ok ← drive_actuator x device_id state value;
        match ok with
        | None => error ERR_UNKNOWN_TYPE "unknown_device_id"%string []
        | Some (false, out) => error ERR_UNKNOWN_TYPE "actuator_hardware_control_fail"%string out
        | Some (true, out) =>
            finish (json_build_actuator_resp (x_resp_buf x) "actuator_control_success") out
        end
    end
  else error ERR_UNKNOWN_TYPE "unsupported_message_type"%string [].

(** ** One iteration of a worker *)

Inductive worker_status := WorkerWaits | WorkerStops | WorkerContinues.

(** [free(resp)]; freeing NULL does nothing. *)
Definition free_response (rp : option loc) (mem : Queue.response_heap)
    : outcome Queue.response_heap :=
  match rp with None => Ret mem | Some _ => free mem rp end.

(** The loop body once a task is taken.  [now1] and [now2] are the clock before and
    after the execution.  The device output is returned beside the state. *)
Definition run_task (m : allocator) (x : exec_env) (now1 now2 : Z) (sv : server) (l : loc)
    : outcome (server * list Z) :=
  t ← deref (task_mem sv !! l);
  if Queue.t_timeout_ms t <? now1 then
    tm ← free (task_mem sv) (Some l); Ret (set_task_mem tm sv, [])
  else
    '(resp, mem, out) ← process_hardware_task m x t (response_mem sv);
    '(resp, mem) ←
      (if Queue.t_timeout_ms t <? now2
       then mem ← free_response resp mem;
            make_error_response m (x_err_buf x) t ERR_TIMEOUT "processing_timeout" mem
       else Ret (resp, mem));
    sv ←
      match resp with
      | None => Ret (set_response_mem mem sv)
      | Some _ =>
          '(ret, rq, mem) ← Queue.response_queue_push (Some (response sv)) resp mem;
          rq ← deref rq;
          let sv := set_response rq sv in
          if negb (ret =? 0)
          then mem ← free mem resp; Ret (set_response_mem mem sv)
          else Ret (set_event_count (event_count sv + 1) (set_response_mem mem sv))
      end;
    tm ← free (task_mem sv) (Some l);
    Ret (set_task_mem tm sv, out).

Definition worker_iteration (m : allocator) (x : exec_env) (now1 now2 : Z) (sv : server)
    : outcome (worker_status * server * list Z) :=
  '(r, q, tm) ← Queue.pop (Some (tasks sv)) (task_mem sv);
  q ← deref q;
  let sv := set_tasks q (set_task_mem tm sv) in
  match r with
  | Queue.PopWait => Ret (WorkerWaits, sv, [])
  | Queue.PopNull => Ret (WorkerStops, sv, [])
  | Queue.PopTask l => '(sv, out) ← run_task m x now1 now2 sv l; Ret (WorkerContinues, sv, out)
  end.

(** ** Specification of a reply

    The reply a request deserves, as a function of the parsed document: a
    response, or an error when a field is missing, the device is unknown or does
    not answer, or the text does not fit the 256 bytes of the response buffer. *)

Definition error_reply (code : err_code) (message : string) : Z * list Z :=
  (MSG_ERROR, render false 0 (error_tree (err_code_val code) message)).

Definition ok_reply (tree : json) : Z * list Z :=
  match text_in tree 256 with
  | Some text => (MSG_RESPONSE, text)
  | None => error_reply ERR_BAD_JSON "response_too_large"
  end.

(** Fields that the device did not report are zero. *)
Definition aht30_reading (e : hw) : spec_float * spec_float :=
  match hw_read e with
  | None => (float_zero, float_zero)
  | Some line => match sscanf_aht30 (take 63 line) with
                 | None => (float_zero, float_zero)
                 | Some (t, h) => (t, default float_zero h)
                 end
  end.

Definition bh1750_reading (e : hw) : spec_float :=
  match hw_read e with
  | None => float_zero
  | Some line => default float_zero (sscanf_bh1750 (take 31 line))
  end.

Definition sensor_reply (e : hw) (sensor_id : Z) : Z * list Z :=
  if sensor_id =? AHT30_SENSOR_ID then
    if open_device e <? 0 then error_reply ERR_UNKNOWN_TYPE "aht30_hardware_init_fail"
    else ok_reply (aht30_tree (aht30_reading e).1 (aht30_reading e).2)
  else if sensor_id =? BH1750_SENSOR_ID then
    if open_device e <? 0 then error_reply ERR_UNKNOWN_TYPE "bh1750_hardware_init_fail"
    else ok_reply (bh1750_tree (bh1750_reading e))
  else error_reply ERR_UNKNOWN_TYPE "unknown_sensor_id".

(** The outcome at the actuator, [None] for an unknown one. *)
Definition actuator_reply (ok : option bool) : Z * list Z :=
  match ok with
  | None => error_reply ERR_UNKNOWN_TYPE "unknown_device_id"
  | Some false => error_reply ERR_UNKNOWN_TYPE "actuator_hardware_control_fail"
  | Some true => ok_reply (actuator_tree "actuator_control_success")
  end.

Definition field_string (root : option json) (name : string) : option (list Z) :=
  cJSON_IsString (get_object_item root (bstr name)).

Definition field_int (root : option json) (name : string) : option Z :=
  valueint <$> cJSON_IsNumber (get_object_item root (bstr name)).

(** What happened at the actuator a request names. *)
Definition driven (x : exec_env) (root : option json) : option bool :=
  match field_int root "device_id", field_int root "state", field_int root "value" with
  | Some device_id, Some state, Some value =>
      match drive_actuator x device_id state value with
      | Ret (Some (ok, _)) => Some ok
      | _ => None
      end
  | _, _, _ => None
  end.

Definition reply (x : exec_env) (type : Z) (root : option json) : Z * list Z :=
  if type =? MSG_ECHO then
    match field_string root "msg" with
    | None => error_reply ERR_BAD_JSON "missing_or_invalid_field_msg"
    | Some msg => ok_reply (echo_tree (take 127 msg))
    end
  else if type =? MSG_STATUS then ok_reply (uptime_tree (x_now x) NUM_WORKERS)
  else if type =? MSG_GET_SENSOR then
    match field_int root "sensor_id" with
    | None => error_reply ERR_BAD_JSON "missing_or_invalid_field_sensor_id"
    | Some sensor_id => sensor_reply (x_hw x) sensor_id
    end
  else if type =? MSG_SET_ACTUATOR then
    match field_int root "device_id", field_int root "state", field_int root "value" with
    | Some _, Some _, Some _ => actuator_reply (driven x root)
    | _, _, _ => error_reply ERR_BAD_JSON "missing_or_invalid_field_device_id_state_value"
    end
  else error_reply ERR_UNKNOWN_TYPE "unsupported_message_type".

(** What the request makes the gateway write to an actuator. *)
Definition device_output (x : exec_env) (type : Z) (root : option json) : list Z :=
  if type =? MSG_SET_ACTUATOR then
    match field_int root "device_id", field_int root "state", field_int root "value" with
    | Some device_id, Some state, Some value =>
        match drive_actuator x device_id state value with
        | Ret (Some (_, out)) => out
        | _ => []
        end
    | _, _, _ => []
    end
  else [].

(** ** Responses answer their task *)

(** [r] is a well-formed response to [t] of the given type and text. *)
Definition answers (t : Queue.task) (rep : Z * list Z) (r : Queue.response) : Prop :=
  response_wf r /\ Queue.r_slot r = Queue.t_slot t /\
  Queue.r_generation r = Queue.t_generation t /\
  Queue.r_request_id r = Queue.t_request_id t /\ Queue.r_type r = rep.1 /\
  Queue.r_length r = zlen rep.2 /\
  take (Z.to_nat (Queue.r_length r)) (Queue.r_payload r) = rep.2 /\
  Queue.next_response r = None.

(** A result of the response builders: a fresh node, or NULL and no change when
    there is no memory. *)
Definition responded (m : allocator) (t : Queue.task) (mem : Queue.response_heap)
    (res : option loc * Queue.response_heap) (rep : Z * list Z) : Prop :=
  match res.1 with
  | None => res.2 = mem /\ malloc_response m mem = None
  | Some l => mem !! l = None /\ exists r, res.2 = <[l := r]> mem /\ answers t rep r
  end.

Definition task_wf (t : Queue.task) : Prop :=
  zlen (Queue.t_payload t) = MAX_PAYLOAD /\ 0 <= Queue.t_length t <= MAX_PAYLOAD /\
  bytes (take (Z.to_nat (Queue.t_length t)) (Queue.t_payload t)).

(** The bytes of the request. *)
Definition request (t : Queue.task) : list Z :=
  take (Z.to_nat (Queue.t_length t)) (Queue.t_payload t).

(** No LED request asks for a brightness whose scaling overflows. *)
Definition led_in_range (t : Queue.task) : Prop :=
  forall root value, parse_payload (request t) = Ret root ->
    field_int root "device_id" = Some LED_ACTUATOR_ID -> field_int root "value" = Some value ->
    -2147 <= value <= 2147.

Definition env_wf (x : exec_env) : Prop :=
  zlen (x_resp_buf x) = 256 /\ zlen (x_err_buf x) = 128.

Section Answers.
Context (m : allocator) (Hm : allocator_ok m).

Lemma make_response_ok t type text mem :
  zlen text <= MAX_PAYLOAD ->
  exists res, make_response m (Queue.t_slot t) (Queue.t_generation t) type
      (Queue.t_request_id t) (Some text) (zlen text) mem = Ret res /\
    responded m t mem res (type, text).
Proof using Hm.
  intros Hl. unfold make_response.
  destruct (malloc_response m mem) as [[l junk]|] eqn:E; [|by eexists].
  destruct (response_fresh m Hm _ _ _ E) as [Hfresh Hsize].
  destruct (Z.ltb_spec MAX_PAYLOAD (zlen text)); [lia|].
  assert (forall b, take (length text) b = text -> zlen b = MAX_PAYLOAD ->
    responded m t mem (Some l, <[l := Queue.Response (Queue.t_slot t) (Queue.t_generation t) type
      (Queue.t_request_id t) (zlen text) b None]> mem) (type, text)) as Hok.
  { intros b Hb Hbl. split; [done|]. eexists. split; [reflexivity|].
    unfold answers, response_wf. cbn. rewrite zlen_length. pose proof (zlen_nonneg text).
    split_and!; done || lia. }
  destruct (Z.ltb_spec 0 (zlen text)) as [Hpos|Hpos].
  - rewrite (read_at_segment text 0 (zlen text) [] text []) by (done || by rewrite app_nil_r).
    cbn [mbind outcome_bind].
    pose proof (write_at_cursor [] (Queue.r_payload junk) 0 text eq_refl ltac:(lia)) as Hw.
    cbn [app] in Hw. rewrite Hw. cbn [mbind outcome_bind].
    eexists. split; [reflexivity|]. apply Hok.
    + by rewrite take_app_length.
    + rewrite zlen_app, zlen_drop. unfold zlen in *. lia.
  - destruct text as [|b text]; [|rewrite zlen_cons in Hpos; pose proof (zlen_nonneg text); lia].
    eexists. split; [reflexivity|]. by apply Hok.
Qed.

(** Errors whose text is known to fit, as all of the gateway's do. *)
Definition error_fits (code : err_code) (message : string) : Prop :=
  text_in (error_tree (err_code_val code) message) 128
  = Some (render false 0 (error_tree (err_code_val code) message)).

Lemma make_error_response_ok err_buf t code message mem :
  zlen err_buf = 128 -> error_fits code message ->
  exists res, make_error_response m err_buf t code message mem = Ret res /\
    responded m t mem res (error_reply code message).
Proof using Hm.
  intros Hbuf Hfit. unfold make_error_response, json_build_error_resp.
  rewrite (print_and_free_exact (error_tree (err_code_val code) message))
    by (reply_bytes || (rewrite Hbuf; done)).
  rewrite Hbuf, Hfit. cbn [mbind outcome_bind].
  apply make_response_ok. unfold error_fits, text_in in Hfit.
  destruct (nested_ok 0 _ && _)%bool eqn:E; [|done]. apply andb_prop in E as [_ E].
  unfold room_for in E. bool_prop. unfold MAX_PAYLOAD. lia.
Qed.

Lemma finish_response_ok x t tree mem :
  env_wf x -> tree_bytes tree ->
  exists res, finish_response m x t (print_and_free tree (x_resp_buf x)) mem = Ret res /\
    responded m t mem res (ok_reply tree).
Proof using Hm.
  intros [Hrb Heb] Htb. unfold finish_response, ok_reply.
  rewrite print_and_free_exact by (done || (rewrite Hrb; done)).
  rewrite Hrb. cbn [mbind outcome_bind]. unfold text_in.
  destruct (nested_ok 0 tree && _)%bool eqn:E.
  - apply make_response_ok. apply andb_prop in E as [_ E]. unfold room_for in E. bool_prop.
    unfold MAX_PAYLOAD. lia.
  - apply make_error_response_ok; [done|by vm_compute].
Qed.

Lemma drive_actuator_defined x device_id state value :
  (device_id = LED_ACTUATOR_ID -> -2147 <= value <= 2147) ->
  exists r, drive_actuator x device_id state value = Ret r.
Proof using.
  intros Hled. unfold drive_actuator.
  destruct (device_id =? AC_ACTUATOR_ID).
  { destruct init_ac_actuator as [ret dev]. destruct (negb _); [eauto|].
    destruct set_ac_actuator. eauto. }
  destruct (Z.eqb_spec device_id LED_ACTUATOR_ID) as [Hd|_].
  { specialize (Hled Hd). destruct init_led_actuator as [ret dev]. destruct (negb _); [eauto|].
    unfold set_led_actuator. cbn [led_fd brightness_percent].
    destruct (led_fd dev <? 0); [cbn; eauto|].
    destruct (Z.ltb_spec (value * 1000000) INT_MIN); [unfold INT_MIN in *; lia|].
    destruct (Z.ltb_spec INT_MAX (value * 1000000)); [unfold INT_MAX in *; lia|].
    cbn. destruct write_device. eauto. }
  destruct (device_id =? FAN_ACTUATOR_ID); [|eauto].
  destruct init_fan_actuator as [ret dev]. destruct (negb _); [eauto|].
  destruct set_fan_actuator. eauto.
Qed.

(** The two ways a branch ends. *)
Lemma error_branch x t code message mem (out : list Z) :
  env_wf x -> error_fits code message ->
  exists rp mem',
    ('(rp, mem) ← make_error_response m (x_err_buf x) t code message mem; Ret (rp, mem, out))
    = Ret (rp, mem', out) /\ responded m t mem (rp, mem') (error_reply code message).
Proof using Hm.
  intros [_ Heb] Hfit.
  destruct (make_error_response_ok (x_err_buf x) t code message mem Heb Hfit)
    as ([rp mem'] & -> & Hr). by eexists _, _.
Qed.

Lemma finish_branch x t tree mem (out : list Z) :
  env_wf x -> tree_bytes tree ->
  exists rp mem',
    ('(rp, mem) ← finish_response m x t (print_and_free tree (x_resp_buf x)) mem;
     Ret (rp, mem, out)) = Ret (rp, mem', out) /\
    responded m t mem (rp, mem') (ok_reply tree).
Proof using Hm.
  intros Hx Htb. destruct (finish_response_ok x t tree mem Hx Htb) as ([rp mem'] & -> & Hr).
  by eexists _, _.
Qed.

(** A sensor's branch follows the specification. *)
Lemma read_sensor_spec x t sensor_id mem :
  env_wf x ->
  exists rp mem',
    match read_sensor x sensor_id with
    | inr (code, message) =>
        '(rp, mem) ← make_error_response m (x_err_buf x) t code message mem; Ret (rp, mem, [])
    | inl resp => '(rp, mem) ← finish_response m x t resp mem; Ret (rp, mem, [])
    end = Ret (rp, mem', [] : list Z) /\
    responded m t mem (rp, mem') (sensor_reply (x_hw x) sensor_id).
Proof using Hm.
  intros Hx. unfold read_sensor, sensor_reply, init_aht30_sensor, init_bh1750_sensor.
  destruct (sensor_id =? AHT30_SENSOR_ID).
  - destruct (Z.ltb_spec (open_device (x_hw x)) 0) as [Hlt|Hge];
      [by apply error_branch; [|vm_compute]|].
    change (negb (0 =? 0)) with false. cbv iota. unfold get_aht30_sensor_data. cbn [a_fd].
    destruct (Z.ltb_spec (open_device (x_hw x)) 0); [lia|].
    assert (forall a, temperature (destroy_aht30_sensor a) = temperature a /\
                      humidity (destroy_aht30_sensor a) = humidity a) as Hd.
    { intros a. unfold destroy_aht30_sensor. by destruct (_ <=? _). }
    unfold aht30_reading. destruct (hw_read (x_hw x)) as [line|].
    + cbn [temperature humidity a_state].
      destruct (sscanf_aht30 (take 63 line)) as [[tv [hv|]]|];
        rewrite (proj1 (Hd _)), (proj2 (Hd _)); apply finish_branch; (done || reply_bytes).
    + rewrite (proj1 (Hd _)), (proj2 (Hd _)). apply finish_branch; (done || reply_bytes).
  - destruct (sensor_id =? BH1750_SENSOR_ID); [|by apply error_branch; [|vm_compute]].
    destruct (Z.ltb_spec (open_device (x_hw x)) 0) as [Hlt|Hge];
      [by apply error_branch; [|vm_compute]|].
    change (negb (0 =? 0)) with false. cbv iota. unfold get_bh1750_sensor_data. cbn [b_fd].
    destruct (Z.ltb_spec (open_device (x_hw x)) 0); [lia|].
    assert (forall b, lux (destroy_bh1750_sensor b) = lux b) as Hd.
    { intros b. unfold destroy_bh1750_sensor. by destruct (_ <=? _). }
    unfold bh1750_reading. destruct (hw_read (x_hw x)) as [line|];
      rewrite Hd; apply finish_branch; (done || reply_bytes).
Qed.

Lemma process_reply x t mem root :
  env_wf x -> task_wf t -> led_in_range t -> parse_payload (request t) = Ret root ->
  exists rp mem',
    process_hardware_task m x t mem = Ret (rp, mem', device_output x (Queue.t_type t) root) /\
    responded m t mem (rp, mem') (reply x (Queue.t_type t) root).
Proof using Hm.
  intros Hx (Hp & Hl & Hb) Hled Hroot. unfold process_hardware_task.
  rewrite (read_at_segment _ 0 (Queue.t_length t) [] (request t)
    (drop (Z.to_nat (Queue.t_length t)) (Queue.t_payload t))).
  2: { unfold request. cbn [app]. by rewrite take_drop. }
  2: { done. }
  2: { unfold request. rewrite zlen_take. lia. }
  cbn [mbind outcome_bind]. fold (request t) in Hb.
  unfold reply, device_output, field_string, field_int.
  destruct (Z.eqb_spec (Queue.t_type t) MSG_ECHO) as [->|_].
  { change (MSG_ECHO =? MSG_SET_ACTUATOR) with false. cbv iota. destruct (parse_echo_defined (request t) 128 Hb) as (r & Hr & Hmsg). revert Hr.
    unfold json_parse_echo_req. change (128 =? 0) with false. cbv iota. rewrite Hroot.
    cbn [mbind outcome_bind]. intros [= <-].
    destruct (cJSON_IsString _) as [msg|]; cbn [mbind option_bind];
      [|by apply error_branch; [|vm_compute]].
    specialize (Hmsg _ eq_refl). apply finish_branch; [done|]. reply_bytes. }
  destruct (Z.eqb_spec (Queue.t_type t) MSG_STATUS) as [->|_]; [apply finish_branch; [done|reply_bytes]|].
  destruct (Z.eqb_spec (Queue.t_type t) MSG_GET_SENSOR) as [->|_].
  { change (MSG_GET_SENSOR =? MSG_SET_ACTUATOR) with false. cbv iota. unfold json_parse_get_sensor_req. rewrite Hroot. cbn [mbind outcome_bind].
    destruct (cJSON_IsNumber _) as [id|]; cbn [mbind option_bind fmap option_fmap option_map];
      [|by apply error_branch; [|vm_compute]].
    by apply read_sensor_spec. }
  destruct (_ =? MSG_SET_ACTUATOR); [|by apply error_branch; [|vm_compute]].
  unfold json_parse_set_actuator_req, driven, field_int. rewrite Hroot. cbn [mbind outcome_bind].
  destruct (cJSON_IsNumber (get_object_item root (bstr "device_id"))) as [id|] eqn:Eid;
    cbn [mbind option_bind fmap option_fmap option_map]; [|by apply error_branch; [|vm_compute]].
  destruct (cJSON_IsNumber (get_object_item root (bstr "state"))) as [st|];
    cbn [mbind option_bind fmap option_fmap option_map]; [|by apply error_branch; [|vm_compute]].
  destruct (cJSON_IsNumber (get_object_item root (bstr "value"))) as [v|] eqn:Ev;
    cbn [mbind option_bind fmap option_fmap option_map]; [|by apply error_branch; [|vm_compute]].
  destruct (drive_actuator_defined x (valueint id) (valueint st) (valueint v)) as (r & ->).
  { intros Hid. apply (Hled root (valueint v) Hroot); unfold field_int; rewrite ?Eid, ?Ev; cbn.
    - by rewrite Hid.
    - done. }
  cbn [mbind outcome_bind]. unfold actuator_reply.
  destruct r as [[[|] out]|]; [apply finish_branch; [done|reply_bytes]|by apply error_branch; [|vm_compute]..].
Qed.

(** ** A worker's iteration *)

(** The outcome of the execution once the second clock reading is taken into
    account. *)
Lemma settle_ok err_buf t mem rp mem' rep (late : bool) :
  zlen err_buf = 128 -> responded m t mem (rp, mem') rep ->
  exists res,
    (if late
     then mem ← free_response rp mem';
          make_error_response m err_buf t ERR_TIMEOUT "processing_timeout" mem
     else Ret (rp, mem')) = Ret res /\
    responded m t mem res
      (if late then error_reply ERR_TIMEOUT "processing_timeout" else rep).
Proof using Hm.
  intros Hbuf Hr. destruct late; [|by exists (rp, mem')].
  assert (free_response rp mem' = Ret mem) as ->.
  { unfold responded in Hr. destruct rp as [l|]; cbn [fst snd] in Hr; cbn [free_response].
    - destruct Hr as (Hf & r & -> & _). rewrite (free_alloc _ l r) by apply lookup_insert_eq.
      by rewrite delete_insert_id.
    - by destruct Hr as [-> _]. }
  cbn [mbind outcome_bind]. apply make_error_response_ok; [done|by vm_compute].
Qed.

(** A fresh node put on the response queue. *)
Lemma push_fresh mem q l r :
  Queue.response_inv (mem, q) -> mem !! l = None -> Queue.next_response r = None ->
  (exists q' mem', Queue.response_queue_push (Some q) (Some l) (<[l := r]> mem)
      = Ret (0, Some q', mem') /\ Queue.response_inv (mem', q') /\
    Queue.response_abs (mem', q') = Queue.response_abs (mem, q) ++ [(l, r)] /\
    Queue.rq_size q < Queue.rq_max_size q) \/
  (Queue.response_queue_push (Some q) (Some l) (<[l := r]> mem)
     = Ret (- Queue.EAGAIN, Some q, <[l := r]> mem) /\
   Queue.rq_size q = Queue.rq_max_size q).
Proof using.
  intros Hi Hfresh Hnx. destruct (Queue.response_abs_zlen _ Hi) as [Hz Hmax]. cbn in Hmax.
  assert (l ∉ (Queue.response_abs (mem, q)).*1) as Hl.
  { destruct Hi as (ls & Hq & Hs & _). cbn [fst snd] in *.
    rewrite (Queue.response_abs_nodes _ _ ls Hq Hs). intros Hin.
    destruct Hq as [Hc _]. apply chain_alloc in Hc. rewrite Forall_forall in Hc.
    destruct (Hc l Hin). congruence. }
  destruct (Queue.response_env_ok (mem, q) (<[l := r]> mem, q) Hi) as (Hi' & Ha' & _).
  { split; [done|]. intros k Hk. cbn [fst]. apply lookup_insert_ne. by intros ->. }
  destruct (decide (Queue.rq_size q < Queue.rq_max_size q)) as [Hroom|Hfull].
  - left. edestruct (Queue.response_push_room (<[l := r]> mem, q) (l, r)) as ([h' q'] & Hp & Hi2 & Ha2 & _).
    { done. }
    { split; [by rewrite Ha'|]. unfold content. cbn. rewrite lookup_insert_eq. cbn.
      by destruct r; cbn in *; subst. }
    { unfold fifo_room. cbn. rewrite Ha', Hz. cbn. lia. }
    unfold Queue.response_push in Hp. cbn [fst snd] in Hp.
    destruct (Queue.response_queue_push (Some q) (Some l) (<[l := r]> mem)) as [[[ret [q2|]] h2]|];
      cbn in Hp; try done.
    destruct (Z.eqb_spec ret 0) as [->|]; [|done]. simplify_eq.
    exists q', h'. split_and!; [done|done|by rewrite Ha2, Ha'|done].
  - right. split; [|lia]. unfold Queue.response_queue_push.
    destruct (Z.leb_spec (Queue.rq_max_size q) (Queue.rq_size q)); [done|lia].
Qed.

(** What an iteration leaves alone: everything but its task and the queues. *)
Definition untouched (sv sv' : server) (l : loc) : Prop :=
  clients sv' = clients sv /\ txs sv' = txs sv /\ sv_epoll sv' = sv_epoll sv /\
  shutdown sv' = shutdown sv /\ task_mem sv' = delete l (task_mem sv).

(** The task is answered: one response more in the queue, the main loop woken. *)
Definition answered (sv sv' : server) (t : Queue.task) (rep : Z * list Z) : Prop :=
  exists l r,
    Queue.response_abs (queue_of sv') = Queue.response_abs (queue_of sv) ++ [(l, r)] /\
    answers t rep r /\ event_count sv' = event_count sv + 1.

(** It is not: no memory for the response, or no room in the queue. *)
Definition unanswered (sv sv' : server) : Prop :=
  response_mem sv' = response_mem sv /\ response sv' = response sv /\
  event_count sv' = event_count sv /\
  (malloc_response m (response_mem sv) = None \/
   Queue.rq_size (response sv) = Queue.rq_max_size (response sv)).

Lemma pop_one sv l t :
  0 < Queue.tq_size (tasks sv) -> Queue.tq_head (tasks sv) = Some l ->
  task_mem sv !! l = Some t ->
  exists q, Queue.pop (Some (tasks sv)) (task_mem sv)
    = Ret (Queue.PopTask l, Some q, <[l := Queue.set_next_task None t]> (task_mem sv)) /\
    Queue.tq_size q = Queue.tq_size (tasks sv) - 1.
Proof using.
  intros Hs Hh Ht. erewrite (Queue.pop_unfold _ _ l t) by done. by eexists.
Qed.

(** The reply that counts: an error if the execution took too long. *)
Definition final_reply (x : exec_env) (t : Queue.task) (root : option json) (now2 : Z) : Z * list Z :=
  if Queue.t_timeout_ms t <? now2 then error_reply ERR_TIMEOUT "processing_timeout"
  else reply x (Queue.t_type t) root.

(** Running a task that has not expired: it is freed, and answered unless there is no
    memory or no room for the response. *)
Lemma run_task_runs x now1 now2 sv l t root :
  env_wf x -> task_mem sv !! l = Some t -> task_wf t -> led_in_range t ->
  parse_payload (request t) = Ret root ->
  Queue.response_inv (queue_of sv) -> now1 <= Queue.t_timeout_ms t ->
  exists sv', run_task m x now1 now2 sv l = Ret (sv', device_output x (Queue.t_type t) root) /\
    untouched sv sv' l /\ tasks sv' = tasks sv /\ Queue.response_inv (queue_of sv') /\
    (answered sv sv' t (final_reply x t root now2) \/ unanswered sv sv').
Proof using Hm.
  intros Hx Ht Hwf Hled Hroot Hi Hnow. unfold run_task. rewrite Ht. cbn [deref mbind outcome_bind].
  destruct (Z.ltb_spec (Queue.t_timeout_ms t) now1); [lia|].
  destruct (process_reply x t (response_mem sv) root) as (rp & mem & -> & Hr);
    [done..|]. cbn [mbind outcome_bind].
  destruct (settle_ok (x_err_buf x) t _ rp mem _ (Queue.t_timeout_ms t <? now2) (proj2 Hx) Hr)
    as ([rp' mem'] & -> & Hr').
  change (if Queue.t_timeout_ms t <? now2 then error_reply ERR_TIMEOUT "processing_timeout"
    else reply x (Queue.t_type t) root) with (final_reply x t root now2) in Hr'.
  cbn [mbind outcome_bind]. destruct rp' as [k|]; unfold responded in Hr'; cbn [fst snd] in Hr'.
  2: { destruct Hr' as [-> Hno]. cbn. rewrite Ht. cbn. eexists _. split; [reflexivity|].
       split_and!; [by split_and!|done|done|right]. split_and!; [done..|by left]. }
  destruct Hr' as (Hfresh & r & -> & Hans).
  destruct (push_fresh (response_mem sv) (response sv) k r) as
    [(q' & mem2 & -> & Hi2 & Ha2 & _)|[-> Hfull]]; [done|done|apply Hans| |].
  - cbn. rewrite Ht. cbn. eexists _. split; [reflexivity|].
    split_and!; [by split_and!|done|done|left]. exists k, r. split_and!; [done|exact Hans|done].
  - cbn [mbind outcome_bind deref]. change (negb (- Queue.EAGAIN =? 0)) with true. cbn.
    rewrite lookup_insert_eq. cbn. rewrite Ht. cbn.
    rewrite delete_insert_id by done. eexists _. split; [reflexivity|].
    split_and!; [by split_and!|done|done|right]. split_and!; [done..|by right].
Qed.

Lemma worker_iteration_runs x now1 now2 sv l t root :
  env_wf x -> 0 < Queue.tq_size (tasks sv) -> Queue.tq_head (tasks sv) = Some l ->
  task_mem sv !! l = Some t -> task_wf t -> led_in_range t ->
  parse_payload (request t) = Ret root ->
  Queue.response_inv (queue_of sv) -> now1 <= Queue.t_timeout_ms t ->
  exists sv', worker_iteration m x now1 now2 sv
      = Ret (WorkerContinues, sv', device_output x (Queue.t_type t) root) /\
    untouched sv sv' l /\ Queue.response_inv (queue_of sv') /\
    Queue.tq_size (tasks sv') = Queue.tq_size (tasks sv) - 1 /\
    (answered sv sv' t (final_reply x t root now2) \/ unanswered sv sv').
Proof using Hm.
  intros Hx Hs Hh Ht Hwf Hled Hroot Hi Hnow.
  destruct (pop_one sv l t Hs Hh Ht) as (q & Hpop & Hq).
  unfold worker_iteration. rewrite Hpop. cbn [mbind outcome_bind deref].
  set (t' := Queue.set_next_task None t). set (sv1 := set_tasks q _).
  destruct (run_task_runs x now1 now2 sv1 l t' root) as
    (sv' & -> & (Hc & Htx & He & Hsd & Htm) & Htq & Hi' & Hans); [done|apply lookup_insert_eq|done..|].
  cbn [mbind outcome_bind]. exists sv'. split; [done|]. split_and!; [|done|by rewrite Htq|exact Hans].
  split_and!; [done..|]. rewrite Htm. apply delete_insert_eq.
Qed.

End Answers.
End Tasks.

(** ** Concrete requests *)

Definition request_task (type : Z) (tree : json) : Queue.task :=
  let text := render false 0 tree in
  Queue.Task 0 0 3 type 9 (text ++ replicate (Z.to_nat (MAX_PAYLOAD - zlen text)) 0) 5000 None (zlen text).

Definition hi_request : json := JObject [(bstr "msg", JString (bstr "hi"))].

Definition bright_request : json :=
  JObject [(bstr "device_id", JNumber (double_of_int 2)); (bstr "state", JNumber (double_of_int 1));
           (bstr "value", JNumber (double_of_int 3000))].

(** Devices that open as descriptor 3 and read nothing. *)
Definition sample_env : exec_env :=
  ExecEnv (HW 3 (-1) None zlen) 1000 (Aht30 0 0 0 float_zero float_zero) (Bh1750 0 0 float_zero)
    (AirCondition 0 0 0 0 0) (LedPwm 0 0 0) (Fan 0 0 0)
    (replicate 256 0) (replicate 128 0).

Definition no_scan2 : scan2 := fun _ => None.
Definition no_scan1 : scan1 := fun _ => None.

(** The sample server with one task queued. *)
Definition busy_server (t : Queue.task) : server :=
  set_tasks (Queue.TaskQueue (Some 1%positive) (Some 1%positive) 1 1024 false)
    (set_task_mem {[1%positive := t]} sample_server).

Lemma hi_task_wf : task_wf (request_task MSG_ECHO hi_request).
Proof.
  split; [by vm_compute|]. split; [by vm_compute|]. apply (bool_decide_unpack _). by vm_compute.
Qed.

Lemma hi_led : led_in_range (request_task MSG_ECHO hi_request).
Proof.
  assert (parse_payload (request (request_task MSG_ECHO hi_request)) = Ret (Some hi_request)) as E
    by (by vm_compute).
  intros root value H. rewrite E in H. injection H as <-. by vm_compute.
Qed.

Lemma empty_responses t : Queue.response_inv (queue_of (busy_server t)).
Proof. exists []. split_and!; [apply linked_queue_nil|done|by vm_compute]. Qed.

(** ** Properties *)

(** A worker answers the task it takes.  With a task at the head of the
    queue that has not expired, one iteration never misbehaves, frees the task
    and touches no session; it puts exactly one response on the response queue
    and wakes the main loop, and that response carries the task's slot,
    generation and request id and the reply the specification gives for the
    parsed request (an error if the execution outlasted the deadline).  It sends
    nothing, and leaks nothing, only if there is no memory for the response or
    the response queue is full. *)
Theorem worker_answers_task sscanf2 sscanf1 m x now1 now2 sv l t :
  allocator_ok m -> env_wf x ->
  0 < Queue.tq_size (tasks sv) -> Queue.tq_head (tasks sv) = Some l ->
  task_mem sv !! l = Some t -> task_wf t -> led_in_range t ->
  Queue.response_inv (queue_of sv) -> now1 <= Queue.t_timeout_ms t ->
  exists root sv' out, parse_payload (request t) = Ret root /\
    worker_iteration sscanf2 sscanf1 m x now1 now2 sv = Ret (WorkerContinues, sv', out) /\
    untouched sv sv' l /\ Queue.response_inv (queue_of sv') /\
    Queue.tq_size (tasks sv') = Queue.tq_size (tasks sv) - 1 /\
    (answered sv sv' t (final_reply sscanf2 sscanf1 x t root now2) \/ unanswered m sv sv').
Proof.
  intros Hm Hx Hs Hh Ht Hwf Hled Hi Hnow.
  destruct (parse_payload_defined (request t) (proj2 (proj2 Hwf))) as (root & Hroot & _).
  exists root.
  destruct (worker_iteration_runs sscanf2 sscanf1 m Hm x now1 now2 sv l t root)
    as (sv' & H); [done..|]. by eexists sv', _.
Qed.

Lemma worker_answers_task_witness :
  exists root sv' out, parse_payload (request (request_task MSG_ECHO hi_request)) = Ret root /\
    worker_iteration no_scan2 no_scan1 sample_allocator sample_env 4000 4100
      (busy_server (request_task MSG_ECHO hi_request)) = Ret (WorkerContinues, sv', out) /\
    untouched (busy_server (request_task MSG_ECHO hi_request)) sv' 1 /\
    Queue.response_inv (queue_of sv') /\ Queue.tq_size (tasks sv') = 0 /\
    (answered (busy_server (request_task MSG_ECHO hi_request)) sv' (request_task MSG_ECHO hi_request)
       (final_reply no_scan2 no_scan1 sample_env (request_task MSG_ECHO hi_request) root 4100) \/
     unanswered sample_allocator (busy_server (request_task MSG_ECHO hi_request)) sv').
Proof.
  apply (worker_answers_task no_scan2 no_scan1 sample_allocator sample_env 4000 4100
    (busy_server (request_task MSG_ECHO hi_request)) 1 (request_task MSG_ECHO hi_request));
    [exact sample_allocator_ok|by vm_compute|reflexivity|reflexivity|reflexivity
    |exact hi_task_wf|exact hi_led|apply empty_responses|by vm_compute].
Defined.

(** A task of a live session that is taken in time leads, through the worker and
    the response queue, to exactly one packet appended to that session's transmit
    queue: the frame with the reply's type and text and the request's own id. *)
Lemma request_gets_its_reply sscanf2 sscanf1 m x now1 now2 sv l t i c :
  allocator_ok m -> alloc_total m -> (forall mem, is_Some (malloc_response m mem)) -> env_wf x ->
  0 < Queue.tq_size (tasks sv) -> Queue.tq_head (tasks sv) = Some l ->
  task_mem sv !! l = Some t -> task_wf t -> led_in_range t -> now1 <= Queue.t_timeout_ms t ->
  Queue.response_inv (queue_of sv) -> Queue.response_abs (queue_of sv) = [] ->
  0 < Queue.rq_max_size (response sv) ->
  zlen (clients sv) = MAX_CLIENTS -> tx_ok (txs sv) (clients sv) ->
  clients sv !! i = Some c -> alive c = true ->
  Queue.t_slot t = Z.of_nat i -> Queue.t_generation t = generation c ->
  exists root sv1 sv2 c2, parse_payload (request t) = Ret root /\
    worker_iteration sscanf2 sscanf1 m x now1 now2 sv
      = Ret (WorkerContinues, sv1, device_output x (Queue.t_type t) root) /\
    handle_response_to_client m sv1 = Ret (0, sv2) /\ clients sv2 !! i = Some c2 /\
    let rep := final_reply sscanf2 sscanf1 x t root now2 in
    tx_abs (txs sv2, c2) = tx_abs (txs sv, c)
      ++ [DataTransmit (frame rep.1 (Queue.t_request_id t) rep.2) (zlen rep.2 + 20) 0 None].
Proof.
  intros Hm Htot Hmr Hx Hs Hh Ht Hwf Hled Hnow Hi Ha Hmax Hlen Htx Hc Hal Hslot Hgen.
  destruct (parse_payload_defined (request t) (proj2 (proj2 Hwf))) as (root & Hroot & _).
  destruct (worker_iteration_runs sscanf2 sscanf1 m Hm x now1 now2 sv l t root)
    as (sv1 & Hrun & (Hcl & Htxs & _ & _ & _) & Hi1 & _ & Hans); [done..|].
  destruct Hans as [(k & r & Ha1 & Hr & _)|(_ & _ & _ & [Hno|Hfull])].
  2: { destruct (Hmr (response_mem sv)). congruence. }
  2: { destruct (Queue.response_abs_zlen _ Hi) as [Hz _]. rewrite Ha in Hz. cbn in Hz.
       unfold zlen in Hz. cbn in Hz. lia. }
  rewrite Ha in Ha1. cbn [app] in Ha1.
  destruct (responses_delivered m sv1) as (sv2 & Hresp & [_ Hd] & _ & _); [done|done| | |done| |].
  { by rewrite Hcl. }
  { by rewrite Hcl, Htxs. }
  { rewrite Ha1. repeat constructor; apply Hr. }
  destruct (Hd i c) as (c2 & Hc2 & _ & _ & _ & Htx2); [by rewrite Hcl|].
  exists root, sv1, sv2, c2. split_and!; [done..|].
  rewrite Htx2, Htxs, Ha1. f_equal.
  destruct Hr as (_ & Hsl & Hg & Hid & Hty & Hl & Hp & _).
  unfold packets_for, addressed. cbn [omap list_omap snd].
  rewrite Hsl, Hslot, Z.eqb_refl, Hal, Hg, Hgen, Z.eqb_refl. cbn [andb].
  unfold response_packet. by rewrite Hty, Hid, Hp, Hl.
Qed.

(** A task that waited past its deadline is freed without an answer: no
    response is queued and the main loop is not woken. *)
Theorem worker_drops_expired sscanf2 sscanf1 m x now1 now2 sv l t :
  0 < Queue.tq_size (tasks sv) -> Queue.tq_head (tasks sv) = Some l ->
  task_mem sv !! l = Some t -> Queue.t_timeout_ms t < now1 ->
  exists sv', worker_iteration sscanf2 sscanf1 m x now1 now2 sv = Ret (WorkerContinues, sv', []) /\
    untouched sv sv' l /\ response sv' = response sv /\ response_mem sv' = response_mem sv /\
    event_count sv' = event_count sv.
Proof.
  intros Hs Hh Ht Hnow. destruct (pop_one sv l t Hs Hh Ht) as (q & Hpop & _).
  unfold worker_iteration, run_task. rewrite Hpop. cbn [mbind outcome_bind deref].
  cbn [task_mem set_tasks set_task_mem]. rewrite lookup_insert_eq. cbn [deref mbind outcome_bind].
  change (Queue.t_timeout_ms (Queue.set_next_task None t)) with (Queue.t_timeout_ms t).
  destruct (Z.ltb_spec (Queue.t_timeout_ms t) now1); [|lia].
  rewrite (free_alloc _ l (Queue.set_next_task None t)) by apply lookup_insert_eq.
  cbn [mbind outcome_bind]. rewrite delete_insert_eq. eexists. split; [reflexivity|].
  by split_and!.
Qed.

Lemma worker_drops_expired_witness :
  exists sv', worker_iteration no_scan2 no_scan1 sample_allocator sample_env 6000 6000
      (busy_server (request_task MSG_ECHO hi_request)) = Ret (WorkerContinues, sv', []) /\
    untouched (busy_server (request_task MSG_ECHO hi_request)) sv' 1 /\
    response sv' = Queue.ResponseQueue None None 0 1024 /\ response_mem sv' = ∅ /\
    event_count sv' = 0.
Proof.
  apply (worker_drops_expired no_scan2 no_scan1 sample_allocator sample_env 6000 6000
    (busy_server (request_task MSG_ECHO hi_request)) 1 (request_task MSG_ECHO hi_request)); reflexivity.
Defined.

(** An echo request returns the client's message.  For every message of at
    most 127 non-zero bytes whose reply fits the response buffer, the reply to
    the request that carries it parses as the object with status ok and that
    same message. *)
Theorem echo_returns_message sscanf2 sscanf1 m x t mem msg :
  allocator_ok m -> env_wf x -> task_wf t -> Queue.t_type t = MSG_ECHO ->
  textual msg -> zlen msg <= 127 ->
  request t = render false 0 (JObject [(bstr "msg", JString msg)]) ->
  zlen (render false 0 (echo_tree msg)) + 2 <= 256 ->
  exists rp mem' out text,
    process_hardware_task sscanf2 sscanf1 m x t mem = Ret (rp, mem', out) /\
    responded m t mem (rp, mem') (MSG_RESPONSE, text) /\
    cJSON_ParseWithLength text
    = Ret (Some (JObject [(bstr "status", JString (bstr "ok")); (bstr "msg", JString msg)])).
Proof.
  intros Hm Hx Hwf Hty Hmsg Hlen Hreq Hfit.
  assert (textual (bstr "msg")) as Hk by (apply (bool_decide_unpack _); by vm_compute).
  assert (c_string msg = msg) as Hcs by (by apply c_string_id, textual_nonzero).
  assert (clean (JObject [(bstr "msg", JString msg)])) as Hc by (by repeat constructor).
  assert (parse_payload (request t) = Ret (Some (JObject [(bstr "msg", JString msg)]))) as Hroot.
  { rewrite Hreq. unfold parse_payload.
    destruct (Z.eqb_spec (zlen (render false 0 (JObject [(bstr "msg", JString msg)]))) 0) as [E|_];
      [destruct (render_head (JObject [(bstr "msg", JString msg)]) 0 Hc) as (b & r & Er & _);
       rewrite Er, zlen_cons in E; pose proof (zlen_nonneg r); lia|].
    by apply parse_printed. }
  assert (led_in_range t) as Hled.
  { intros root value Hr. rewrite Hroot in Hr. injection Hr as <-. by vm_compute. }
  destruct (process_reply sscanf2 sscanf1 m Hm x t mem _ Hx Hwf Hled Hroot)
    as (rp & mem' & Hp & Hr).
  unfold reply in Hr. rewrite Hty in Hr. change (MSG_ECHO =? MSG_ECHO) with true in Hr. cbv iota in Hr.
  change (field_string (Some (JObject [(bstr "msg", JString msg)])) "msg") with (Some msg) in Hr.
  cbv iota beta in Hr.
  rewrite take_ge in Hr by (unfold zlen in Hlen; lia).
  unfold ok_reply, text_in, room_for in Hr.
  destruct (Z.leb_spec (zlen (render false 0 (echo_tree msg)) + 2) 256); [|lia].
  change (nested_ok 0 (echo_tree msg)) with true in Hr. cbn [andb] in Hr.
  eexists rp, mem', _, (render false 0 (echo_tree msg)). split_and!; [done|done|].
  assert (echo_tree msg = JObject [(bstr "status", JString (bstr "ok")); (bstr "msg", JString msg)]) as E.
  { change (echo_tree msg) with
      (JObject [(bstr "status", JString (bstr "ok")); (bstr "msg", JString (c_string msg))]).
    by rewrite Hcs. }
  rewrite E. apply parse_printed; [|done].
  assert (textual (bstr "status")) by (apply (bool_decide_unpack _); by vm_compute).
  assert (textual (bstr "ok")) by (apply (bool_decide_unpack _); by vm_compute).
  repeat constructor; assumption.
Qed.

Lemma echo_returns_message_witness :
  exists rp mem' out text,
    process_hardware_task no_scan2 no_scan1 sample_allocator sample_env
      (request_task MSG_ECHO hi_request) ∅ = Ret (rp, mem', out) /\
    responded sample_allocator (request_task MSG_ECHO hi_request) ∅ (rp, mem') (MSG_RESPONSE, text) /\
    cJSON_ParseWithLength text
    = Ret (Some (JObject [(bstr "status", JString (bstr "ok")); (bstr "msg", JString (bstr "hi"))])).
Proof.
  apply (echo_returns_message no_scan2 no_scan1 sample_allocator sample_env
    (request_task MSG_ECHO hi_request) ∅ (bstr "hi"));
    [exact sample_allocator_ok|by vm_compute|exact hi_task_wf|reflexivity
    |apply (bool_decide_unpack _); by vm_compute|by vm_compute|by vm_compute|by vm_compute].
Defined.

(** A brightness outside -2147..2147 in an LED request makes the scaling to
    nanoseconds overflow [int]: the task's execution is undefined. *)
Theorem led_brightness_overflows sscanf2 sscanf1 m x t mem root state value :
  task_wf t -> Queue.t_type t = MSG_SET_ACTUATOR -> parse_payload (request t) = Ret root ->
  field_int root "device_id" = Some LED_ACTUATOR_ID -> field_int root "state" = Some state ->
  field_int root "value" = Some value -> (value < -2147 \/ 2147 < value) ->
  0 <= open_device (x_hw x) ->
  process_hardware_task sscanf2 sscanf1 m x t mem = Undef.
Proof.
  intros (Hp & Hl & _) Hty Hroot Hid Hst Hv Hbig Hopen. unfold process_hardware_task.
  destruct (read_at_inside (Queue.t_payload t) 0 (Queue.t_length t)) as (p & Hread & _); [lia..|].
  assert (p = request t) as ->.
  { unfold read_at in Hread. destruct (_ && _)%bool; [|done]. by injection Hread as <-. }
  rewrite Hread, Hty. cbn [mbind outcome_bind]. cbn [Z.eqb Pos.eqb MSG_SET_ACTUATOR MSG_ECHO MSG_STATUS MSG_GET_SENSOR].
  unfold json_parse_set_actuator_req. rewrite Hroot. cbn [mbind outcome_bind]. unfold field_int in *.
  destruct (cJSON_IsNumber (get_object_item root (bstr "device_id"))) as [a|]; [|done].
  destruct (cJSON_IsNumber (get_object_item root (bstr "state"))) as [b|]; [|done].
  destruct (cJSON_IsNumber (get_object_item root (bstr "value"))) as [c|]; [|done].
  injection Hid as Hid. injection Hst as Hst. injection Hv as Hv. cbn [mbind option_bind].
  unfold drive_actuator. rewrite Hid, Hst, Hv.
  change (LED_ACTUATOR_ID =? AC_ACTUATOR_ID) with false.
  change (LED_ACTUATOR_ID =? LED_ACTUATOR_ID) with true. cbv iota.
  unfold init_led_actuator. destruct (Z.ltb_spec (open_device (x_hw x)) 0); [lia|].
  change (negb (0 =? 0)) with false. cbv iota zeta. unfold set_led_actuator. cbn [led_fd brightness_percent].
  destruct (Z.ltb_spec (open_device (x_hw x)) 0); [lia|].
  destruct (Z.ltb_spec (value * 1000000) INT_MIN), (Z.ltb_spec INT_MAX (value * 1000000));
    try done. unfold INT_MIN, INT_MAX in *. lia.
Qed.

Lemma led_brightness_overflows_witness :
  process_hardware_task no_scan2 no_scan1 sample_allocator sample_env
    (request_task MSG_SET_ACTUATOR bright_request) ∅ = Undef.
Proof.
  apply (led_brightness_overflows no_scan2 no_scan1 sample_allocator sample_env
    (request_task MSG_SET_ACTUATOR bright_request) ∅ (Some bright_request) 1 3000);
    [|reflexivity|by vm_compute|by vm_compute|by vm_compute|by vm_compute|lia|by vm_compute].
  split; [by vm_compute|]. split; [by vm_compute|]. apply (bool_decide_unpack _). by vm_compute.
Defined.

(** A sensor that cannot be read is reported as reading zero: when the device
    opens but [read] fails, the error of [get_aht30_sensor_data] is ignored and
    the client is sent a successful response with temperature and humidity 0. *)
Theorem failed_reading_reported_ok sscanf2 sscanf1 m x t mem root :
  allocator_ok m -> env_wf x -> task_wf t -> Queue.t_type t = MSG_GET_SENSOR ->
  parse_payload (request t) = Ret root -> led_in_range t ->
  field_int root "sensor_id" = Some AHT30_SENSOR_ID ->
  0 <= open_device (x_hw x) -> hw_read (x_hw x) = None ->
  exists rp mem' out,
    process_hardware_task sscanf2 sscanf1 m x t mem = Ret (rp, mem', out) /\
    responded m t mem (rp, mem')
      (MSG_RESPONSE, render false 0 (aht30_tree (double_of_int 0) (double_of_int 0))).
Proof.
  intros Hm Hx Hwf Hty Hroot Hled Hid Hopen Hread.
  destruct (process_reply sscanf2 sscanf1 m Hm x t mem _ Hx Hwf Hled Hroot)
    as (rp & mem' & Hp & Hr).
  eexists rp, mem', _. split; [done|]. revert Hr.
  unfold reply. rewrite Hty, Hid. unfold sensor_reply, aht30_reading. rewrite Hread.
  destruct (Z.ltb_spec (open_device (x_hw x)) 0); [lia|]. intros Hr. exact Hr.
Qed.

Definition sensor_request : json := JObject [(bstr "sensor_id", JNumber (double_of_int 1))].

Lemma failed_reading_reported_ok_witness :
  exists rp mem' out,
    process_hardware_task no_scan2 no_scan1 sample_allocator sample_env
      (request_task MSG_GET_SENSOR sensor_request) ∅ = Ret (rp, mem', out) /\
    responded sample_allocator (request_task MSG_GET_SENSOR sensor_request) ∅ (rp, mem')
      (MSG_RESPONSE, render false 0 (aht30_tree (double_of_int 0) (double_of_int 0))).
Proof.
  apply (failed_reading_reported_ok no_scan2 no_scan1 sample_allocator sample_env
    (request_task MSG_GET_SENSOR sensor_request) ∅ (Some sensor_request));
    [exact sample_allocator_ok|by vm_compute| |reflexivity|by vm_compute| |by vm_compute|by vm_compute
    |reflexivity].
  - split; [by vm_compute|]. split; [by vm_compute|]. apply (bool_decide_unpack _). by vm_compute.
  - assert (parse_payload (request (request_task MSG_GET_SENSOR sensor_request))
      = Ret (Some sensor_request)) as E by (by vm_compute).
    intros root value H. rewrite E in H. injection H as <-. by vm_compute.
Defined.

End Worker.
