(* ===== verification/Framing.v ===== *)
(** * The control plane's messages (unix-domain-socket-control-plane/common/common.h)

    A [message_control] is the memory of the C struct: the 24 bytes of the
    header (two enums, a 64-bit counter, an int and four bytes of padding,
    little-endian), the 2048 bytes of the payload array and the 4 bytes of the
    checksum.  Struct assignment copies all of them. *)
From S2P Require Import Prelude Socket.
Open Scope c_scope.

Module Framing.

Definition MAX_PAYLOAD_SIZE : Z := 2048.
Definition SESSION_TOKEN_LEN : Z := 64.
(** [sizeof(struct header_message)] and [sizeof(uint32_t)]. *)
Definition HDR_SIZE : Z := 24.
Definition SUM_SIZE : Z := 4.

(** enum command *)
Definition GET_STATUS : Z := 0.
Definition SET_STATUS : Z := 1.
Definition GET_DATA : Z := 2.
Definition GET_CONFIG : Z := 3.
Definition SET_CONFIG : Z := 4.
Definition SEND_CONTROL : Z := 5.
Definition SHUTDOWN_PEER : Z := 6.
Definition ACK : Z := 7.
Definition NACK : Z := 8.
Definition IDENTIFY : Z := 9.

(** enum priority *)
Definition LOW : Z := 0.
Definition MEDIUM : Z := 1.
Definition HIGH : Z := 2.

(** ** Little-endian memory *)

Fixpoint le_bytes (n : nat) (v : Z) : list Z :=
  match n with O => [] | S n => v mod 256 :: le_bytes n (v / 256) end.

Fixpoint le_val (bs : list Z) : Z :=
  match bs with [] => 0 | b :: bs => b + 256 * le_val bs end.

Record message_control := MessageControl {
  header : list Z; message : list Z; checksum : list Z }.

Definition header_message (cmd pri number_packet length : Z) : list Z :=
  le_bytes 4 cmd ++ le_bytes 4 pri ++ le_bytes 8 number_packet ++ le_bytes 4 (u32 length)
    ++ [0; 0; 0; 0].

Definition cmd (m : message_control) : Z := le_val (take 4 (header m)).
Definition pri (m : message_control) : Z := le_val (take 4 (drop 4 (header m))).
Definition number_packet (m : message_control) : Z := le_val (take 8 (drop 8 (header m))).
Definition length_of (m : message_control) : Z := i32 (le_val (take 4 (drop 16 (header m)))).

(** ** The checksum *)

(** [while (sum >> 16) sum = (sum & 0xFFFF) + (sum >> 16);] two rounds are
    enough for 32 bits. *)
Fixpoint fold_carry (fuel : nat) (sum : Z) : outcome Z :=
  if sum ≫ 16 =? 0 then Ret sum
  else match fuel with
       | O => Undef
       | S fuel => fold_carry fuel (u32 ((sum .& 0xFFFF) + (sum ≫ 16)))
       end.

(** The bytes the loops run over. *)
Definition summed (m : message_control) : list Z :=
  header m ++ take (Z.to_nat (Z.min (length_of m) MAX_PAYLOAD_SIZE)) (message m).

Definition calculate_checksum (m : message_control) : outcome Z :=
  sum ← fold_carry 2 (foldl (fun sum b => u32 (sum + b)) 0 (summed m));
  Ret (u32 (Z.lnot sum)).

(** [calc == m->checksum] *)
Definition checksum_ok (m : message_control) : outcome bool :=
  calc ← calculate_checksum m; Ret (calc =? le_val (checksum m)).

(** ** Construction *)

(** [payload] is a C string and [message] points to a struct. *)
Definition build_message (payload : list Z) (cmd pri num_packet : Z) : outcome message_control :=
  let strlen := zlen (c_string payload) in
  let len := if MAX_PAYLOAD_SIZE <=? strlen then MAX_PAYLOAD_SIZE - 1 else strlen in
  let zeros := replicate (Z.to_nat MAX_PAYLOAD_SIZE) 0 in
  body ← write_at zeros 0 (take (Z.to_nat len) payload);
  body ← write_at body len [0];
  let m := MessageControl (header_message cmd pri num_packet len) body [0; 0; 0; 0] in
  sum ← calculate_checksum m;
  Ret (MessageControl (header m) body (le_bytes 4 sum)).

(** Conversion tries everything else before computing a message. *)
Strategy 100 [build_message].

Definition build_ack (number_ack : Z) : outcome message_control :=
  build_message (bstr "ACK") ACK LOW number_ack.

Definition build_nack (number_nack : Z) : outcome message_control :=
  build_message (bstr "NACK") NACK LOW number_nack.

(** ** Blocking transmission *)

(** The send loop over the assembled buffer: the result, what went out and the
    unread answers.  [send] takes at least one and at most all of the rest. *)
Fixpoint send_all (script : list tx_event) (buf : list Z) (sent_total : Z)
    : Z * list Z * list tx_event :=
  if sent_total <? zlen buf then
    match script with
    | [] => (-1, [], [])
    | TxErr err :: script =>
        if err =? EINTR then send_all script buf sent_total else (-1, [], script)
    | TxZero :: script => (1, [], script)
    | TxAccept k :: script =>
        let ret := Z.max 1 (Z.min k (zlen buf - sent_total)) in
        let '(r, wire, script) := send_all script buf (sent_total + ret) in
        (r, take (Z.to_nat ret) (drop (Z.to_nat sent_total) buf) ++ wire, script)
    end
  else (0, [], script).

Definition send_framed_message (script : list tx_event) (m : message_control)
    : outcome (Z * list Z * list tx_event) :=
  let payload_len := length_of m in
  let payload_len :=
    if ((payload_len <? 0) || (MAX_PAYLOAD_SIZE <? payload_len))%bool then 0 else payload_len in
  payload ← read_at (message m) 0 payload_len;
  Ret (send_all script (header m ++ payload ++ checksum m) 0).

(** The last [recv] of [recv_framed_message]. *)
Definition recv_sum (ev : rx_event) (eof : bool) (stream : list Z) (m : message_control)
    : outcome (Z * message_control * list Z) :=
  match recv ev eof stream SUM_SIZE with
  | (RxFail _, stream) => Ret (-1, m, stream)
  | (RxData [], stream) => Ret (1, m, stream)
  | (RxData bs, stream) =>
      sum ← write_at (checksum m) 0 bs;
      Ret (if negb (zlen bs =? SUM_SIZE) then -1 else 0,
           MessageControl (header m) (message m) sum, stream)
  end.

(** [recv] with MSG_WAITALL fills the request unless the peer closes or a
    signal cuts it short; one event answers each of the three calls. *)
Definition recv_framed_message (ev1 ev2 ev3 : rx_event) (eof : bool) (stream : list Z)
    : outcome (Z * message_control * list Z) :=
  let m := MessageControl (replicate 24 0) (replicate (Z.to_nat MAX_PAYLOAD_SIZE) 0) [0; 0; 0; 0] in
  match recv ev1 eof stream HDR_SIZE with
  | (RxFail _, stream) => Ret (-1, m, stream)
  | (RxData [], stream) => Ret (1, m, stream)
  | (RxData bs, stream) =>
      hdr ← write_at (header m) 0 bs;
      let m := MessageControl hdr (message m) (checksum m) in
      if negb (zlen bs =? HDR_SIZE) then Ret (-1, m, stream)
      else if ((length_of m <? 0) || (MAX_PAYLOAD_SIZE <? length_of m))%bool
      then Ret (-1, m, stream)
      else
        '(ret, m, stream) ←
          (if 0 <? length_of m then
             match recv ev2 eof stream (length_of m) with
             | (RxFail _, stream) => Ret (Some (-1), m, stream)
             | (RxData [], stream) => Ret (Some 1, m, stream)
             | (RxData bs, stream) =>
                 body ← write_at (message m) 0 bs;
                 let m' := MessageControl (header m) body (checksum m) in
                 Ret (if negb (zlen bs =? length_of m) then Some (-1) else None, m', stream)
             end
           else Ret (None, m, stream));
        match ret with
        | Some ret => Ret (ret, m, stream)
        | None => recv_sum ev3 eof stream m
        end
  end.

(** ** Lemmas on little-endian memory *)

Lemma le_bytes_length n v : length (le_bytes n v) = n.
Proof. revert v. induction n as [|n IH]; intros v; cbn; [done|]. by rewrite IH. Qed.

Lemma le_bytes_bytes n v : bytes (le_bytes n v).
Proof.
  revert v. induction n as [|n IH]; intros v; cbn; [constructor|].
  constructor; [|apply IH]. apply Z.mod_pos_bound. lia.
Qed.

Lemma le_val_bytes n v : le_val (le_bytes n v) = v mod 256 ^ Z.of_nat n.
Proof.
  revert v. induction n as [|n IH]; intros v.
  - cbn. by rewrite Z.mod_1_r.
  - cbn [le_bytes le_val]. rewrite IH.
    replace (256 ^ Z.of_nat (S n)) with (256 * 256 ^ Z.of_nat n)
      by (rewrite Nat2Z.inj_succ, Z.pow_succ_r by lia; done).
    pose proof (Z.pow_pos_nonneg 256 (Z.of_nat n)). rewrite Z.rem_mul_r by lia. done.
Qed.

Lemma le_val_bound bs : bytes bs -> 0 <= le_val bs < 256 ^ zlen bs.
Proof.
  induction 1 as [|b bs Hb _ IH]; [done|]. rewrite zlen_cons.
  rewrite Z.pow_add_r by (pose proof (zlen_nonneg bs); lia). cbn [le_val].
  unfold is_byte in Hb. lia.
Qed.

Lemma le_bytes_val bs : bytes bs -> le_bytes (length bs) (le_val bs) = bs.
Proof.
  induction 1 as [|b bs Hb _ IH]; [done|]. cbn [length le_bytes le_val]. unfold is_byte in Hb.
  rewrite (Z.mul_comm 256), Z.mod_add, Z.div_add by lia.
  rewrite Z.mod_small, Z.div_small by lia. rewrite Z.add_0_l. by rewrite IH.
Qed.

Lemma i32_small z : - 2 ^ 31 <= z < 2 ^ 31 -> i32 (u32 z) = z.
Proof.
  intros Hz. unfold i32, wrap. rewrite Z.mod_mod by lia.
  destruct (decide (0 <= z)).
  - rewrite Z.mod_small by lia. destruct (Z.ltb_spec z (2 ^ 31)); lia.
  - replace (z mod 2 ^ 32) with (z + 2 ^ 32); [destruct (Z.ltb_spec (z + 2 ^ 32) (2 ^ 31)); lia|].
    symmetry. rewrite <- (Z.mod_add _ 1) by lia. apply Z.mod_small. lia.
Qed.

Lemma le_val_bytes_small n v : 0 <= v < 256 ^ Z.of_nat n -> le_val (le_bytes n v) = v.
Proof. intros Hv. rewrite le_val_bytes. by apply Z.mod_small. Qed.

(** ** Header fields *)

Lemma header_message_length c p n l : length (header_message c p n l) = 24%nat.
Proof. done. Qed.

Lemma header_message_bytes c p n l : bytes (header_message c p n l).
Proof.
  unfold header_message. rewrite !bytes_app. split_and!; try apply le_bytes_bytes.
  apply (bool_decide_unpack _). by vm_compute.
Qed.

Lemma header_fields m c p n l :
  header m = header_message c p n l -> in_u 32 c -> in_u 32 p -> in_u 64 n ->
  - 2 ^ 31 <= l < 2 ^ 31 ->
  cmd m = c /\ pri m = p /\ number_packet m = n /\ length_of m = l.
Proof.
  intros Hh Hc Hp Hn Hl. unfold in_u in *. unfold cmd, pri, number_packet, length_of.
  rewrite Hh. pose proof (wrap_range 32 l ltac:(lia)).
  split_and!.
  - change (take 4 (header_message c p n l)) with (le_bytes 4 c). by apply le_val_bytes_small.
  - change (take 4 (drop 4 (header_message c p n l))) with (le_bytes 4 p).
    by apply le_val_bytes_small.
  - change (take 8 (drop 8 (header_message c p n l))) with (le_bytes 8 n).
    by apply le_val_bytes_small.
  - change (take 4 (drop 16 (header_message c p n l))) with (le_bytes 4 (u32 l)).
    rewrite le_val_bytes_small by done. by apply i32_small.
Qed.

(** ** What the checksum computes *)

Definition msg_wf (m : message_control) : Prop :=
  zlen (header m) = HDR_SIZE /\ bytes (header m) /\
  zlen (message m) = MAX_PAYLOAD_SIZE /\ bytes (message m) /\
  zlen (checksum m) = SUM_SIZE /\ bytes (checksum m).

Definition byte_sum (bs : list Z) : Z := foldr Z.add 0 bs.

(** One's complement folding of a sum into 16 bits. *)
Definition fold16 (s : Z) : Z := if s =? 0 then 0 else (s - 1) mod 65535 + 1.

Lemma fold_step s : 0 <= s -> (s .& 0xFFFF) + (s ≫ 16) = s mod 65536 + s / 65536.
Proof.
  intros Hs. rewrite Z.shiftr_div_pow2 by lia. change 0xFFFF with (Z.ones 16).
  rewrite Z.land_ones by lia. done.
Qed.

Lemma fold_carry_done fuel s : 0 <= s < 65536 -> fold_carry fuel s = Ret s.
Proof.
  intros Hs. assert (s ≫ 16 = 0) as E.
  { rewrite Z.shiftr_div_pow2 by lia. apply Z.div_small. lia. }
  destruct fuel; cbn [fold_carry]; rewrite E; done.
Qed.

(** A folding round keeps the value modulo 65535 and does not reach 0. *)
Lemma fold16_step s : 65536 <= s -> fold16 (s mod 65536 + s / 65536) = fold16 s.
Proof.
  intros Hs. unfold fold16.
  pose proof (Z.div_mod s 65536 ltac:(lia)). pose proof (Z.mod_pos_bound s 65536 ltac:(lia)).
  destruct (Z.eqb_spec (s mod 65536 + s / 65536) 0); [lia|].
  destruct (Z.eqb_spec s 0); [lia|]. f_equal.
  replace (s - 1) with (s mod 65536 + s / 65536 - 1 + s / 65536 * 65535) by lia.
  by rewrite Z.mod_add.
Qed.

Lemma fold_carry_step fuel s :
  65536 <= s < 2 ^ 32 ->
  fold_carry (S fuel) s = fold_carry fuel (s mod 65536 + s / 65536).
Proof.
  intros Hs. cbn [fold_carry]. destruct (Z.eqb_spec (s ≫ 16) 0) as [E|_].
  { rewrite Z.shiftr_div_pow2 in E by lia. pose proof (Z.div_mod s (2 ^ 16) ltac:(lia)).
    pose proof (Z.mod_pos_bound s (2 ^ 16) ltac:(lia)). lia. }
  rewrite fold_step by lia. rewrite wrap_small; [done|].
  pose proof (Z.mod_pos_bound s 65536 ltac:(lia)).
  assert (0 <= s / 65536 < 65536); [|lia].
  split; [apply Z.div_pos; lia|apply Z.div_lt_upper_bound; lia].
Qed.

Lemma fold16_small s : 0 <= s < 65536 -> fold16 s = s.
Proof.
  intros Hs. unfold fold16. destruct (Z.eqb_spec s 0); [done|].
  rewrite Z.mod_small; lia.
Qed.

(** Two rounds are enough for any 32-bit sum. *)
Lemma fold_carry_spec s : 0 <= s < 2 ^ 32 -> fold_carry 2 s = Ret (fold16 s).
Proof.
  intros Hs. destruct (decide (s < 65536)).
  { rewrite fold_carry_done, fold16_small by lia. done. }
  rewrite fold_carry_step by lia. rewrite <- fold16_step by lia.
  pose proof (Z.div_mod s 65536 ltac:(lia)). pose proof (Z.mod_pos_bound s 65536 ltac:(lia)).
  assert (s / 65536 < 65536) by (apply Z.div_lt_upper_bound; lia).
  set (s1 := s mod 65536 + s / 65536) in *.
  destruct (decide (s1 < 65536)).
  { rewrite fold_carry_done, fold16_small by lia. done. }
  rewrite fold_carry_step by lia. rewrite <- fold16_step by lia.
  assert (s1 / 65536 = 1) as E by (symmetry; apply (Z.div_unique_pos _ _ _ (s1 - 65536)); lia).
  pose proof (Z.div_mod s1 65536 ltac:(lia)).
  rewrite fold_carry_done, fold16_small by lia. done.
Qed.

Lemma fold16_range s : 0 <= s -> 0 <= fold16 s < 65536.
Proof.
  intros Hs. unfold fold16. destruct (s =? 0); [lia|].
  pose proof (Z.mod_pos_bound (s - 1) 65535 ltac:(lia)). lia.
Qed.

Lemma byte_sum_bound bs : bytes bs -> 0 <= byte_sum bs <= 255 * zlen bs.
Proof.
  induction 1 as [|b bs Hb _ IH]; [done|]. rewrite zlen_cons. cbn [byte_sum foldr].
  fold (byte_sum bs). unfold is_byte in Hb. lia.
Qed.

(** The 32-bit accumulator does not wrap. *)
Lemma sum_loop bs acc :
  bytes bs -> 0 <= acc -> acc + 255 * zlen bs < 2 ^ 32 ->
  foldl (fun sum b => u32 (sum + b)) acc bs = acc + byte_sum bs.
Proof.
  intros Hb. revert acc. induction Hb as [|b bs Hb Hbs IH]; intros acc Ha Hl; [cbn; lia|].
  rewrite zlen_cons in Hl. pose proof (zlen_nonneg bs). unfold is_byte in Hb. cbn [foldl].
  rewrite wrap_small by lia. rewrite IH by lia. cbn [byte_sum foldr]. fold (byte_sum bs). lia.
Qed.

Lemma summed_wf m : msg_wf m -> bytes (summed m) /\ zlen (summed m) <= 2072.
Proof.
  intros (Hh & Hhb & Hm & Hmb & _). unfold HDR_SIZE in Hh. unfold summed. split.
  - apply bytes_app. split; [done|]. by apply Forall_take.
  - unfold MAX_PAYLOAD_SIZE in *. len.
Qed.

Lemma lnot_u32 s : 0 <= s < 2 ^ 32 -> u32 (Z.lnot s) = 2 ^ 32 - 1 - s.
Proof.
  intros Hs. unfold Z.lnot, wrap. rewrite <- (Z.mod_add _ 1) by lia.
  rewrite Z.mod_small by lia. lia.
Qed.

Lemma checksum_spec m :
  msg_wf m -> calculate_checksum m = Ret (2 ^ 32 - 1 - fold16 (byte_sum (summed m))).
Proof.
  intros Hm. destruct (summed_wf m Hm) as [Hb Hl]. pose proof (byte_sum_bound _ Hb).
  unfold calculate_checksum. rewrite sum_loop by (done || lia). rewrite Z.add_0_l.
  rewrite fold_carry_spec by lia. cbn [mbind outcome_bind].
  pose proof (fold16_range (byte_sum (summed m)) ltac:(lia)).
  by rewrite lnot_u32 by lia.
Qed.

Lemma checksum_ok_spec m :
  msg_wf m ->
  checksum_ok m = Ret (2 ^ 32 - 1 - fold16 (byte_sum (summed m)) =? le_val (checksum m)).
Proof. intros Hm. unfold checksum_ok. by rewrite checksum_spec. Qed.

(** Sums less than 65535 apart fold to different values. *)
Lemma fold16_distinct s s' : 0 <= s < s' -> s' - s < 65535 -> fold16 s <> fold16 s'.
Proof.
  intros Hs Hd He. unfold fold16 in He. destruct (Z.eqb_spec s' 0); [lia|].
  destruct (Z.eqb_spec s 0) as [->|].
  - pose proof (Z.mod_pos_bound (s' - 1) 65535 ltac:(lia)). lia.
  - assert ((s' - 1 - (s - 1)) mod 65535 = 0) as H0.
    { rewrite Zminus_mod. replace ((s' - 1) mod 65535) with ((s - 1) mod 65535) by lia.
      by rewrite Z.sub_diag. }
    rewrite Z.mod_small in H0 by lia. lia.
Qed.

Lemma byte_sum_perm l k : l ≡ₚ k -> byte_sum l = byte_sum k.
Proof. induction 1; cbn [byte_sum foldr] in *; unfold byte_sum in *; lia. Qed.

(** ** Built messages *)

(** The bytes of a message on the wire. *)
Definition wire (m : message_control) : list Z :=
  header m ++ take (Z.to_nat (length_of m)) (message m) ++ checksum m.

Definition payload_length (payload : list Z) : Z := Z.min (zlen payload) (MAX_PAYLOAD_SIZE - 1).

(** Text that can be sent: bytes without a NUL. *)
Definition text (t : list Z) : Prop := Forall (fun b => 0 < b < 256) t.

Lemma text_bytes t : text t -> bytes t /\ c_string t = t.
Proof.
  intros Ht. split; [eapply Forall_impl; [exact Ht|]; unfold is_byte; lia|].
  apply c_string_id. eapply Forall_impl; [exact Ht|]. cbn. lia.
Qed.

(** The payload array after the copy. *)
Definition payload_area (payload : list Z) : list Z :=
  take (Z.to_nat (payload_length payload)) payload
    ++ replicate (Z.to_nat (MAX_PAYLOAD_SIZE - payload_length payload)) 0.

Lemma payload_area_wf payload :
  bytes payload -> zlen (payload_area payload) = MAX_PAYLOAD_SIZE /\ bytes (payload_area payload).
Proof.
  intros Hb. unfold payload_area, payload_length, MAX_PAYLOAD_SIZE. split; [len|].
  apply bytes_app. split; [by apply Forall_take|]. apply Forall_replicate. done.
Qed.

Lemma payload_copied payload :
  (body ← write_at (replicate (Z.to_nat MAX_PAYLOAD_SIZE) 0) 0
            (take (Z.to_nat (payload_length payload)) payload);
   write_at body (payload_length payload) [0])
  = Ret (payload_area payload).
Proof.
  unfold payload_area. pose proof (zlen_nonneg payload).
  set (n := payload_length payload). assert (0 <= n <= 2047 /\ n <= zlen payload) as Hn.
  { unfold n, payload_length, MAX_PAYLOAD_SIZE. lia. }
  assert (zlen (take (Z.to_nat n) payload) = n) as Hl by len.
  rewrite (write_at_cursor [] (replicate (Z.to_nat MAX_PAYLOAD_SIZE) 0)); [|done|].
  2: { rewrite Hl, zlen_replicate. unfold MAX_PAYLOAD_SIZE. lia. }
  cbn [mbind outcome_bind app]. rewrite write_at_cursor; [|done|].
  2: { rewrite zlen_drop, zlen_replicate. unfold zlen in *. cbn [length].
       unfold MAX_PAYLOAD_SIZE. lia. }
  f_equal. rewrite <- app_assoc. f_equal. rewrite drop_replicate, drop_replicate.
  change ([0] ++ replicate ?k 0) with (replicate (S k) 0). f_equal.
  unfold zlen, MAX_PAYLOAD_SIZE in *. cbn [length]. lia.
Qed.

Lemma checksum_store m s :
  calculate_checksum (MessageControl (header m) (message m) s) = calculate_checksum m.
Proof. done. Qed.

Lemma build_message_spec payload c p n :
  text payload -> in_u 32 c -> in_u 32 p -> in_u 64 n ->
  exists m, build_message payload c p n = Ret m /\ msg_wf m /\
    header m = header_message c p n (payload_length payload) /\
    message m = payload_area payload /\ checksum_ok m = Ret true.
Proof.
  intros Hp Hc Hpr Hn. destruct (text_bytes _ Hp) as [Hb Hcs]. unfold build_message.
  rewrite Hcs. pose proof (zlen_nonneg payload).
  replace (if MAX_PAYLOAD_SIZE <=? zlen payload then MAX_PAYLOAD_SIZE - 1 else zlen payload)
    with (payload_length payload).
  2: { unfold payload_length. destruct (Z.leb_spec MAX_PAYLOAD_SIZE (zlen payload)); lia. }
  pose proof (payload_copied payload) as Hcopy.
  destruct (write_at _ _ _) as [b0|]; [|done]. cbn [mbind outcome_bind] in *. rewrite Hcopy.
  cbn [mbind outcome_bind].
  destruct (payload_area_wf payload Hb) as [Hl Hab].
  set (m0 := MessageControl (header_message c p n (payload_length payload)) (payload_area payload)
    [0; 0; 0; 0]).
  assert (msg_wf m0) as Hwf0.
  { split_and!; [done|apply header_message_bytes|done..|]. apply (bool_decide_unpack _). by vm_compute. }
  rewrite (checksum_spec m0 Hwf0).
  cbn [mbind outcome_bind]. set (s := 2 ^ 32 - 1 - fold16 (byte_sum (summed m0))).
  eexists. split; [reflexivity|].
  assert (msg_wf (MessageControl (header m0) (payload_area payload) (le_bytes 4 s))) as Hwf.
  { split_and!; [done|apply header_message_bytes|done..|]. apply le_bytes_bytes. }
  split_and!; try done. rewrite checksum_ok_spec by done. f_equal. apply Z.eqb_eq.
  change (summed (MessageControl (header m0) (payload_area payload) (le_bytes 4 s))) with (summed m0).
  cbn [checksum]. rewrite le_val_bytes_small; [done|].
  destruct (summed_wf m0 Hwf0) as [Hsb _]. pose proof (byte_sum_bound _ Hsb).
  pose proof (fold16_range (byte_sum (summed m0)) ltac:(lia)). unfold s. lia.
Qed.

(** What the receiver of a built message reads in it. *)
Definition carries (m : message_control) (c p n : Z) (payload : list Z) : Prop :=
  cmd m = c /\ pri m = p /\ number_packet m = n /\ length_of m = zlen payload /\
  take (length payload) (message m) = payload /\ checksum_ok m = Ret true.

Lemma build_carries payload c p n :
  text payload -> zlen payload < MAX_PAYLOAD_SIZE -> in_u 32 c -> in_u 32 p -> in_u 64 n ->
  exists m, build_message payload c p n = Ret m /\ msg_wf m /\ carries m c p n payload.
Proof.
  intros Hp Hl Hc Hpr Hn.
  destruct (build_message_spec payload c p n Hp Hc Hpr Hn) as (m & -> & Hwf & Hh & Hm & Hok).
  exists m. split_and!; [done|done|]. pose proof (zlen_nonneg payload).
  assert (payload_length payload = zlen payload) as Hpl by (unfold payload_length; lia).
  unfold MAX_PAYLOAD_SIZE in Hl.
  destruct (header_fields m c p n (payload_length payload) Hh Hc Hpr Hn) as (? & ? & ? & ?); [lia|].
  split_and!; [done..|congruence| |done].
  rewrite Hm. unfold payload_area. rewrite Hpl, zlen_length, firstn_all. apply take_app_length.
Qed.

(** ** Blocking transmission *)

(** Whatever the socket answers, a prefix of the rest goes out; all of it
    exactly when 0 is returned. *)
Lemma send_all_prefix script buf k :
  0 <= k <= zlen buf ->
  exists ret sent script', send_all script buf k = (ret, sent, script') /\
    sent `prefix_of` drop (Z.to_nat k) buf /\ (ret = 0 <-> sent = drop (Z.to_nat k) buf).
Proof.
  revert k. induction script as [|ev script IH]; intros k Hk; cbn [send_all];
    destruct (Z.ltb_spec k (zlen buf)).
  2, 4: rewrite drop_ge by (unfold zlen in *; lia); eexists _, _, _; split; [reflexivity|];
    split; [apply prefix_nil|done].
  all: assert (drop (Z.to_nat k) buf <> []) as Hne
    by (intros E; apply (f_equal length) in E; rewrite length_drop in E; unfold zlen in *; cbn in E; lia).
  - eexists _, _, _. split; [reflexivity|]. split; [apply prefix_nil|]. split; [done|congruence].
  - destruct ev as [j| |err].
    + set (ret := Z.max 1 (Z.min j (zlen buf - k))).
      destruct (IH (k + ret) ltac:(lia)) as (r & sent & script' & -> & Hpre & Hr).
      eexists _, _, _. split; [reflexivity|].
      assert (drop (Z.to_nat k) buf = take (Z.to_nat ret) (drop (Z.to_nat k) buf)
        ++ drop (Z.to_nat (k + ret)) buf) as E.
      { rewrite <- (take_drop (Z.to_nat ret) (drop (Z.to_nat k) buf)) at 1. f_equal.
        rewrite drop_drop. f_equal. lia. }
      set (piece := take _ _) in *. rewrite E. split; [by apply prefix_app|].
      rewrite Hr. split; [by intros ->|]. apply app_inv_head.
    + eexists _, _, _. split; [reflexivity|]. split; [apply prefix_nil|]. split; [done|congruence].
    + destruct (err =? EINTR); [by apply IH|].
      eexists _, _, _. split; [reflexivity|]. split; [apply prefix_nil|]. split; [done|congruence].
Qed.

Lemma send_framed_wire script m :
  msg_wf m -> 0 <= length_of m <= MAX_PAYLOAD_SIZE ->
  send_framed_message script m = Ret (send_all script (wire m) 0).
Proof.
  intros (_ & _ & Hm & _) Hl. unfold send_framed_message, wire.
  destruct (Z.ltb_spec (length_of m) 0), (Z.ltb_spec MAX_PAYLOAD_SIZE (length_of m)); try lia.
  cbn [orb]. unfold read_at. rewrite Hm. destruct (Z.leb_spec 0 (length_of m)); [|lia].
  destruct (Z.leb_spec (0 + length_of m) MAX_PAYLOAD_SIZE); [|lia]. done.
Qed.

Lemma write_fresh n bs :
  (length bs <= n)%nat -> write_at (replicate n 0) 0 bs = Ret (bs ++ replicate (n - length bs) 0).
Proof.
  intros Hl. rewrite (write_at_cursor [] (replicate n 0)); [|done|len].
  cbn [app]. by rewrite drop_replicate.
Qed.

Lemma recv_sum_full k eof hd area ck rest :
  zlen ck = 4 -> 4 <= k ->
  recv_sum (RxChunk k) eof (ck ++ rest) (MessageControl hd area [0; 0; 0; 0])
  = Ret (0, MessageControl hd area ck, rest).
Proof.
  intros H4 Hk. unfold recv_sum. rewrite recv_full by (unfold SUM_SIZE; lia).
  destruct ck as [|c0 ck]; [done|]. cbn [checksum header message].
  rewrite (write_fresh 4) by (unfold zlen in H4; lia). cbn [mbind outcome_bind]. rewrite H4.
  replace (4 - length (c0 :: ck))%nat with 0%nat by (unfold zlen in H4; lia).
  cbn [replicate]. by rewrite app_nil_r.
Qed.

Lemma recv_framed_built payload c p n m k1 k2 k3 eof rest :
  text payload -> zlen payload < MAX_PAYLOAD_SIZE -> in_u 32 c -> in_u 32 p -> in_u 64 n ->
  build_message payload c p n = Ret m -> 24 <= k1 -> zlen payload <= k2 -> 4 <= k3 ->
  recv_framed_message (RxChunk k1) (RxChunk k2) (RxChunk k3) eof (wire m ++ rest)
  = Ret (0, m, rest).
Proof.
  intros Hp Hl Hc Hpr Hn Hb Hk1 Hk2 Hk3.
  destruct (build_message_spec payload c p n Hp Hc Hpr Hn) as (m' & Hb' & Hwf & Hh & Hm & _).
  rewrite Hb in Hb'. injection Hb' as <-.
  assert (payload_length payload = zlen payload) as Hpl by (unfold payload_length; lia).
  pose proof (zlen_nonneg payload). unfold MAX_PAYLOAD_SIZE in Hl.
  destruct (header_fields m c p n (payload_length payload) Hh Hc Hpr Hn) as (_ & _ & _ & HL); [lia|].
  destruct Hwf as (H24 & _ & _ & _ & H4 & _). unfold HDR_SIZE in H24. unfold SUM_SIZE in H4.
  assert (take (Z.to_nat (length_of m)) (message m) = payload) as Hpay.
  { rewrite HL, Hm. unfold payload_area. rewrite Hpl, zlen_length, firstn_all. apply take_app_length. }
  unfold recv_framed_message, wire. rewrite Hpay, <- !app_assoc.
  rewrite recv_full by (unfold HDR_SIZE in *; lia).
  destruct m as [hd bd ck]. cbn [header message checksum] in *.
  destruct hd as [|h0 hd]; [done|]. rewrite write_fresh by (unfold zlen in H24; lia).
  cbn [mbind outcome_bind]. rewrite H24. change (negb (24 =? HDR_SIZE)) with false. cbv iota.
  replace (replicate (24 - length (h0 :: hd)) 0) with (@nil Z)
    by (replace (24 - length (h0 :: hd))%nat with 0%nat by (unfold zlen in H24; lia); done).
  rewrite app_nil_r.
  change (length_of (MessageControl (h0 :: hd) ?x ?y))
    with (length_of (MessageControl (h0 :: hd) bd ck)).
  rewrite HL, Hpl. unfold MAX_PAYLOAD_SIZE at 1.
  destruct (Z.ltb_spec (zlen payload) 0), (Z.ltb_spec 2048 (zlen payload)); try lia. cbn [orb].
  destruct (Z.ltb_spec 0 (zlen payload)).
  - rewrite recv_full by lia. destruct payload as [|b0 payload]; [done|].
    rewrite write_fresh by (unfold zlen in *; unfold MAX_PAYLOAD_SIZE; lia).
    cbn [mbind outcome_bind]. rewrite Z.eqb_refl. cbn [negb]. cbv iota.
    cbn [header message checksum]. rewrite recv_sum_full by done. f_equal. f_equal. f_equal.
    rewrite Hm. unfold payload_area. rewrite Hpl, zlen_length, firstn_all. f_equal. f_equal. f_equal.
    unfold zlen, MAX_PAYLOAD_SIZE in *. lia.
  - destruct payload; [|rewrite zlen_cons in *; pose proof (zlen_nonneg payload); lia].
    cbn [app mbind outcome_bind header message checksum]. rewrite recv_sum_full by done. by rewrite Hm.
Qed.

(** ** Properties *)

(** A message survives the transport.  A text of less than 2048 bytes built
    into a message and sent with result 0, however the socket split the
    transfer, is read back by [recv_framed_message] as the very same struct:
    command, priority, packet number and payload are the sender's, its checksum
    verifies, and the bytes behind it stay in the stream. *)
Theorem framed_roundtrip payload c p n script eof rest :
  text payload -> zlen payload < MAX_PAYLOAD_SIZE -> in_u 32 c -> in_u 32 p -> in_u 64 n ->
  exists m ret sent script', build_message payload c p n = Ret m /\ carries m c p n payload /\
    send_framed_message script m = Ret (ret, sent, script') /\ sent `prefix_of` wire m /\
    (ret = 0 -> forall k1 k2 k3, 24 <= k1 -> zlen payload <= k2 -> 4 <= k3 ->
       recv_framed_message (RxChunk k1) (RxChunk k2) (RxChunk k3) eof (sent ++ rest)
       = Ret (0, m, rest)).
Proof.
  intros Hp Hl Hc Hpr Hn.
  destruct (build_carries payload c p n Hp Hl Hc Hpr Hn) as (m & Hb & Hwf & Hcar).
  destruct (send_all_prefix script (wire m) 0) as (ret & sent & script' & Hs & Hpre & Hret).
  { pose proof (zlen_nonneg (wire m)). lia. }
  exists m, ret, sent, script'. split_and!; [done|done| |done|].
  - rewrite send_framed_wire, Hs; [done|done|].
    destruct Hcar as (_ & _ & _ & -> & _). pose proof (zlen_nonneg payload). lia.
  - intros H0 k1 k2 k3 Hk1 Hk2 Hk3. apply Hret in H0 as ->. change (drop (Z.to_nat 0) (wire m)) with (wire m).
    by apply (recv_framed_built payload c p n).
Qed.

Lemma framed_roundtrip_witness :
  exists m ret sent script', build_message (bstr "ping") GET_STATUS HIGH 7 = Ret m /\
    carries m GET_STATUS HIGH 7 (bstr "ping") /\
    send_framed_message [TxAccept 5; TxErr EINTR; TxAccept 99] m = Ret (ret, sent, script') /\
    sent `prefix_of` wire m /\
    (ret = 0 -> forall k1 k2 k3, 24 <= k1 -> zlen (bstr "ping") <= k2 -> 4 <= k3 ->
       recv_framed_message (RxChunk k1) (RxChunk k2) (RxChunk k3) true (sent ++ [1; 2])
       = Ret (0, m, [1; 2])).
Proof.
  apply (framed_roundtrip (bstr "ping") GET_STATUS HIGH 7 [TxAccept 5; TxErr EINTR; TxAccept 99]
    true [1; 2]); [|done|by vm_compute..].
  apply (bool_decide_unpack _). by vm_compute.
Defined.

(** What the additive checksum can and cannot see.  Two messages whose byte
    sums differ by less than 65535, in particular any damage to a single byte,
    never both verify against the same stored checksum; two messages whose
    summed bytes are a permutation of each other always agree, so swapped bytes
    pass. *)
Theorem checksum_strength m m' :
  msg_wf m -> msg_wf m' -> checksum m = checksum m' ->
  (0 < Z.abs (byte_sum (summed m) - byte_sum (summed m')) < 65535 ->
     checksum_ok m = Ret true -> checksum_ok m' = Ret false) /\
  (summed m ≡ₚ summed m' -> checksum_ok m = checksum_ok m').
Proof.
  intros Hm Hm' Hc. rewrite !checksum_ok_spec, Hc by done. split.
  - intros Hd. destruct (summed_wf m Hm) as [Hb _], (summed_wf m' Hm') as [Hb' _].
    pose proof (byte_sum_bound _ Hb). pose proof (byte_sum_bound _ Hb').
    intros [= E%Z.eqb_eq]. f_equal. apply Z.eqb_neq. rewrite <- E.
    assert (fold16 (byte_sum (summed m)) <> fold16 (byte_sum (summed m'))); [|lia].
    destruct (decide (byte_sum (summed m) < byte_sum (summed m'))).
    + apply fold16_distinct; lia.
    + apply not_eq_sym, fold16_distinct; lia.
  - intros Hperm. by rewrite (byte_sum_perm _ _ Hperm).
Qed.

Definition ping : message_control :=
  MessageControl (header_message GET_STATUS HIGH 7 4) (bstr "ping" ++ replicate 2044 0) (le_bytes 4 0xFFFFFE44).
Definition pang : message_control :=
  MessageControl (header_message GET_STATUS HIGH 7 4) (bstr "pang" ++ replicate 2044 0) (le_bytes 4 0xFFFFFE44).

Lemma checksum_strength_witness :
  checksum_ok ping = Ret true /\ checksum_ok pang = Ret false.
Proof.
  split; [by vm_compute|].
  apply (proj1 (checksum_strength ping pang ltac:(apply (bool_decide_unpack _); by vm_compute)
    ltac:(apply (bool_decide_unpack _); by vm_compute) eq_refl)); by vm_compute.
Defined.

End Framing.
