(* ===== verification/Gatewayd.v ===== *)
(** * The control plane daemon (unix-domain-socket-control-plane/gatewayd)

    server.h and server.c as they are configured (USING_EPOLL).  The threads
    share one [server]; the critical sections are the steps of [step] at the
    end of the definitions.  The kernel's answers to [accept4], [recv] and
    [send] and the clock readings are arguments.  The loop condition of
    [read_stage] counts complete frames, but the function returns at the first
    one, so the bound of 32 frames never takes effect. *)
From S2P Require Import Prelude Socket Fifo Ring Framing.
Import Framing.
Open Scope c_scope.

Module Gatewayd.

Definition CAPACITY : Z := 1024.
Definition MAX_SESSIONS : Z := 256.
Definition NUM_PACKET_TO_SEND : Z := 16.
Definition FD_SETSIZE : Z := 1024.
Definition EPOLLIN : Z := 1.
Definition EPOLLOUT : Z := 4.
Definition EPOLLERR : Z := 8.
Definition EPOLLHUP : Z := 16.
Definition EPOLLRDHUP : Z := 8192.

(** ** State *)

Record client_session := ClientSession {
  in_use : bool; token : list Z; client_id : Z; packets_in_total : Z;
  packets_out_total : Z; first_seen_ms : Z; last_seen_ms : Z; reconnect_count : Z }.
Definition set_in_use (v : bool) (x : client_session) : client_session :=
  ClientSession v (token x) (client_id x) (packets_in_total x) (packets_out_total x)
    (first_seen_ms x) (last_seen_ms x) (reconnect_count x).
Definition set_token (v : list Z) (x : client_session) : client_session :=
  ClientSession (in_use x) v (client_id x) (packets_in_total x) (packets_out_total x)
    (first_seen_ms x) (last_seen_ms x) (reconnect_count x).
Definition set_client_id (v : Z) (x : client_session) : client_session :=
  ClientSession (in_use x) (token x) v (packets_in_total x) (packets_out_total x)
    (first_seen_ms x) (last_seen_ms x) (reconnect_count x).
Definition set_packets_in_total (v : Z) (x : client_session) : client_session :=
  ClientSession (in_use x) (token x) (client_id x) v (packets_out_total x) (first_seen_ms x)
    (last_seen_ms x) (reconnect_count x).
Definition set_packets_out_total (v : Z) (x : client_session) : client_session :=
  ClientSession (in_use x) (token x) (client_id x) (packets_in_total x) v (first_seen_ms x)
    (last_seen_ms x) (reconnect_count x).
Definition set_first_seen_ms (v : Z) (x : client_session) : client_session :=
  ClientSession (in_use x) (token x) (client_id x) (packets_in_total x) (packets_out_total
    x) v (last_seen_ms x) (reconnect_count x).
Definition set_last_seen_ms (v : Z) (x : client_session) : client_session :=
  ClientSession (in_use x) (token x) (client_id x) (packets_in_total x) (packets_out_total
    x) (first_seen_ms x) v (reconnect_count x).
Definition set_reconnect_count (v : Z) (x : client_session) : client_session :=
  ClientSession (in_use x) (token x) (client_id x) (packets_in_total x) (packets_out_total
    x) (first_seen_ms x) (last_seen_ms x) v.

Record session_table := SessionTable { sessions : list client_session; next_persistent_id : Z }.

Inductive read_stage_t := READ_HEADER | READ_PAYLOAD | READ_CHECKSUM.

Record outgoing := Outgoing { msg : message_control; wire_buf : list Z; bytes_sent : Z }.

(** [session] is the index of the session in the table. *)
Record client := Client {
  fd : Z; connected : bool; connection_id : Z; generation : Z;
  session : option nat; stage : read_stage_t; c_message : message_control; bytes_read : Z;
  pending_close : bool; pending_task : Z; last_active : Z; connected_at : Z;
  packet_sent : Z; packet_received : Z; send_queue : ring outgoing }.
Definition set_fd (v : Z) (x : client) : client :=
  Client v (connected x) (connection_id x) (generation x) (session x) (stage x) (c_message
    x) (bytes_read x) (pending_close x) (pending_task x) (last_active x) (connected_at x)
    (packet_sent x) (packet_received x) (send_queue x).
Definition set_connected (v : bool) (x : client) : client :=
  Client (fd x) v (connection_id x) (generation x) (session x) (stage x) (c_message x)
    (bytes_read x) (pending_close x) (pending_task x) (last_active x) (connected_at x)
    (packet_sent x) (packet_received x) (send_queue x).
Definition set_connection_id (v : Z) (x : client) : client :=
  Client (fd x) (connected x) v (generation x) (session x) (stage x) (c_message x)
    (bytes_read x) (pending_close x) (pending_task x) (last_active x) (connected_at x)
    (packet_sent x) (packet_received x) (send_queue x).
Definition set_generation (v : Z) (x : client) : client :=
  Client (fd x) (connected x) (connection_id x) v (session x) (stage x) (c_message x)
    (bytes_read x) (pending_close x) (pending_task x) (last_active x) (connected_at x)
    (packet_sent x) (packet_received x) (send_queue x).
Definition set_session (v : option nat) (x : client) : client :=
  Client (fd x) (connected x) (connection_id x) (generation x) v (stage x) (c_message x)
    (bytes_read x) (pending_close x) (pending_task x) (last_active x) (connected_at x)
    (packet_sent x) (packet_received x) (send_queue x).
Definition set_stage (v : read_stage_t) (x : client) : client :=
  Client (fd x) (connected x) (connection_id x) (generation x) (session x) v (c_message x)
    (bytes_read x) (pending_close x) (pending_task x) (last_active x) (connected_at x)
    (packet_sent x) (packet_received x) (send_queue x).
Definition set_c_message (v : message_control) (x : client) : client :=
  Client (fd x) (connected x) (connection_id x) (generation x) (session x) (stage x) v
    (bytes_read x) (pending_close x) (pending_task x) (last_active x) (connected_at x)
    (packet_sent x) (packet_received x) (send_queue x).
Definition set_bytes_read (v : Z) (x : client) : client :=
  Client (fd x) (connected x) (connection_id x) (generation x) (session x) (stage x)
    (c_message x) v (pending_close x) (pending_task x) (last_active x) (connected_at x)
    (packet_sent x) (packet_received x) (send_queue x).
Definition set_pending_close (v : bool) (x : client) : client :=
  Client (fd x) (connected x) (connection_id x) (generation x) (session x) (stage x)
    (c_message x) (bytes_read x) v (pending_task x) (last_active x) (connected_at x)
    (packet_sent x) (packet_received x) (send_queue x).
Definition set_pending_task (v : Z) (x : client) : client :=
  Client (fd x) (connected x) (connection_id x) (generation x) (session x) (stage x)
    (c_message x) (bytes_read x) (pending_close x) v (last_active x) (connected_at x)
    (packet_sent x) (packet_received x) (send_queue x).
Definition set_last_active (v : Z) (x : client) : client :=
  Client (fd x) (connected x) (connection_id x) (generation x) (session x) (stage x)
    (c_message x) (bytes_read x) (pending_close x) (pending_task x) v (connected_at x)
    (packet_sent x) (packet_received x) (send_queue x).
Definition set_connected_at (v : Z) (x : client) : client :=
  Client (fd x) (connected x) (connection_id x) (generation x) (session x) (stage x)
    (c_message x) (bytes_read x) (pending_close x) (pending_task x) (last_active x) v
    (packet_sent x) (packet_received x) (send_queue x).
Definition set_packet_sent (v : Z) (x : client) : client :=
  Client (fd x) (connected x) (connection_id x) (generation x) (session x) (stage x)
    (c_message x) (bytes_read x) (pending_close x) (pending_task x) (last_active x)
    (connected_at x) v (packet_received x) (send_queue x).
Definition set_packet_received (v : Z) (x : client) : client :=
  Client (fd x) (connected x) (connection_id x) (generation x) (session x) (stage x)
    (c_message x) (bytes_read x) (pending_close x) (pending_task x) (last_active x)
    (connected_at x) (packet_sent x) v (send_queue x).
Definition set_send_queue (v : ring outgoing) (x : client) : client :=
  Client (fd x) (connected x) (connection_id x) (generation x) (session x) (stage x)
    (c_message x) (bytes_read x) (pending_close x) (pending_task x) (last_active x)
    (connected_at x) (packet_sent x) (packet_received x) v.

Record task := Task {
  t_fd : Z; client_generation : Z; t_connection_id : Z; t_message : message_control }.

Definition message_queue : Type := ring task.

Record server := Server {
  clients : list client; table : session_table; next_client_id : Z;
  num_clients : Z; max_fd : Z; high_priority_queue : message_queue;
  medium_priority_queue : message_queue; low_priority_queue : message_queue; shutdown : bool;
  interest : gset Z }.
Definition set_clients (v : list client) (x : server) : server :=
  Server v (table x) (next_client_id x) (num_clients x) (max_fd x) (high_priority_queue x)
    (medium_priority_queue x) (low_priority_queue x) (shutdown x) (interest x).
Definition set_table (v : session_table) (x : server) : server :=
  Server (clients x) v (next_client_id x) (num_clients x) (max_fd x) (high_priority_queue x)
    (medium_priority_queue x) (low_priority_queue x) (shutdown x) (interest x).
Definition set_next_client_id (v : Z) (x : server) : server :=
  Server (clients x) (table x) v (num_clients x) (max_fd x) (high_priority_queue x)
    (medium_priority_queue x) (low_priority_queue x) (shutdown x) (interest x).
Definition set_num_clients (v : Z) (x : server) : server :=
  Server (clients x) (table x) (next_client_id x) v (max_fd x) (high_priority_queue x)
    (medium_priority_queue x) (low_priority_queue x) (shutdown x) (interest x).
Definition set_max_fd (v : Z) (x : server) : server :=
  Server (clients x) (table x) (next_client_id x) (num_clients x) v (high_priority_queue x)
    (medium_priority_queue x) (low_priority_queue x) (shutdown x) (interest x).
Definition set_high_priority_queue (v : message_queue) (x : server) : server :=
  Server (clients x) (table x) (next_client_id x) (num_clients x) (max_fd x) v
    (medium_priority_queue x) (low_priority_queue x) (shutdown x) (interest x).
Definition set_medium_priority_queue (v : message_queue) (x : server) : server :=
  Server (clients x) (table x) (next_client_id x) (num_clients x) (max_fd x)
    (high_priority_queue x) v (low_priority_queue x) (shutdown x) (interest x).
Definition set_low_priority_queue (v : message_queue) (x : server) : server :=
  Server (clients x) (table x) (next_client_id x) (num_clients x) (max_fd x)
    (high_priority_queue x) (medium_priority_queue x) v (shutdown x) (interest x).
Definition set_shutdown (v : bool) (x : server) : server :=
  Server (clients x) (table x) (next_client_id x) (num_clients x) (max_fd x)
    (high_priority_queue x) (medium_priority_queue x) (low_priority_queue x) v (interest x).
Definition set_interest (v : gset Z) (x : server) : server :=
  Server (clients x) (table x) (next_client_id x) (num_clients x) (max_fd x)
    (high_priority_queue x) (medium_priority_queue x) (low_priority_queue x) (shutdown x) v.

(** ** Sessions *)

(** [strncmp(a, b, n) == 0] *)
Definition strncmp_eq (a b : list Z) (n : Z) : bool :=
  bool_decide (c_string (take (Z.to_nat n) a) = c_string (take (Z.to_nat n) b)).

Definition zero_session : client_session :=
  ClientSession false (replicate (Z.to_nat SESSION_TOKEN_LEN) 0) 0 0 0 0 0 0.

Definition init_session_table : session_table :=
  SessionTable (replicate (Z.to_nat MAX_SESSIONS) zero_session) 0.

(** The loop over the table: the matching session, or the first free slot. *)
Fixpoint session_scan (ss : list client_session) (i : nat) (free_slot : option nat) (tok : list Z)
    : nat + option nat :=
  match ss with
  | [] => inr free_slot
  | t :: ss =>
      if negb (in_use t)
      then session_scan ss (S i) (if free_slot is None then Some i else free_slot) tok
      else if strncmp_eq tok (token t) SESSION_TOKEN_LEN then inl i
      else session_scan ss (S i) free_slot tok
  end.

(** The session's index and [*out_was_resumed]; [tok] is NUL-terminated. *)
Definition session_lookup_or_create (tb : session_table) (tok : list Z) (now : Z)
    : outcome (option (nat * bool) * session_table) :=
  match session_scan (sessions tb) 0 None tok with
  | inl i =>
      t ← deref (sessions tb !! i);
      let t := set_reconnect_count (reconnect_count t + 1) (set_last_seen_ms now t) in
      Ret (Some (i, true), SessionTable (<[i := t]> (sessions tb)) (next_persistent_id tb))
  | inr None => Ret (None, tb)
  | inr (Some i) =>
      let id := u64 (next_persistent_id tb + 1) in
      let token_len := zlen (c_string (take (Z.to_nat (SESSION_TOKEN_LEN - 1)) tok)) in
      mem ← write_at (token zero_session) 0 (take (Z.to_nat token_len) tok);
      mem ← write_at mem token_len [0];
      let t := ClientSession true mem id 0 0 now now 1 in
      Ret (Some (i, false), SessionTable (<[i := t]> (sessions tb)) id)
  end.

(** ** The send queue of a client *)

Definition queue_client (c : client) (m : message_control) : outcome client :=
  let q := send_queue c in
  let q := if r_count q =? 16 then ring_advance 16 q else q in
  old ← get_at (r_data q) (r_head q);
  q ← ring_put 16 q (Outgoing m (wire_buf old) 0);
  Ret (set_send_queue q c).

Definition advance_send_queue (c : client) : client :=
  set_send_queue (ring_advance NUM_PACKET_TO_SEND (send_queue c)) c.

Definition dequeue_client (c : client) : outcome (Z * option message_control * client) :=
  if r_count (send_queue c) =? 0 then Ret (-1, None, c)
  else out ← get_at (r_data (send_queue c)) (r_tail (send_queue c));
       Ret (0, Some (msg out), advance_send_queue c).

(** The send loop from [offset]: the result (1 all sent, 0 would block, -1
    failed), the offset reached and the bytes put on the wire. *)
Fixpoint chunk_loop (script : list tx_event) (buf : list Z) (offset : Z)
    : Z * Z * list Z :=
  if offset <? zlen buf then
    match script with
    | [] => (0, offset, [])
    | TxErr err :: script =>
        if err =? EINTR then chunk_loop script buf offset
        else if err =? EAGAIN then (0, offset, []) else (-1, offset, [])
    | TxZero :: _ => (-1, offset, [])
    | TxAccept k :: script =>
        let sent := Z.max 1 (Z.min k (zlen buf - offset)) in
        let '(r, off, out) := chunk_loop script buf (offset + sent) in
        (r, off, take (Z.to_nat sent) (drop (Z.to_nat offset) buf) ++ out)
    end
  else (1, offset, []).

Definition send_message_chunk (script : list tx_event) (c : client)
    : outcome (Z * client * list Z) :=
  let q := send_queue c in
  if r_count q =? 0 then Ret (1, c, [])
  else
    out ← get_at (r_data q) (r_tail q);
    let m := msg out in
    let payload_len := if 0 <=? length_of m then length_of m else 0 in
    let total := HDR_SIZE + payload_len + SUM_SIZE in
    buf ←
      (if bytes_sent out =? 0 then
         buf ← write_at (wire_buf out) 0 (header m);
         payload ← read_at (message m) 0 payload_len;
         buf ← write_at buf HDR_SIZE payload;
         write_at buf (HDR_SIZE + payload_len) (checksum m)
       else Ret (wire_buf out));
    data ← read_at buf 0 total;
    let '(r, off, wire) := chunk_loop script data (bytes_sent out) in
    d ← set_at (r_data q) (r_tail q) (Outgoing m buf (if r =? 0 then off else bytes_sent out));
    let c := set_send_queue (Ring d (r_head q) (r_tail q) (r_count q)) c in
    Ret (r, if r =? 1 then advance_send_queue c else c, wire).

(** ** Task queues *)

(** [queue] is NULL for a priority the caller does not know. *)
Definition try_enqueue_task (shutdown : bool) (queue : option message_queue) (t : task)
    : outcome (bool * option message_queue) :=
  if shutdown then Ret (false, queue)
  else
    q ← deref queue;
    if CAPACITY <=? r_count q then Ret (false, queue)
    else q ← ring_put CAPACITY q t; Ret (true, Some q).

Definition try_dequeue_task_locked (queue : message_queue) : outcome (option (task * message_queue)) :=
  if r_count queue =? 0 then Ret None
  else r ← ring_take CAPACITY queue; Ret (Some r).

(** ** Initial state *)

Definition zero_message : message_control :=
  MessageControl (replicate 24 0) (replicate (Z.to_nat MAX_PAYLOAD_SIZE) 0) [0; 0; 0; 0].

Definition zero_send_queue : ring outgoing :=
  Ring (replicate 16 (Outgoing zero_message (replicate 2076 0) 0)) 0 0 0.

(** [calloc] in main: a slot no connection has used. *)
Definition zero_client : client :=
  Client 0 false 0 0 None READ_HEADER zero_message 0 false 0 0 0 0 0 zero_send_queue.

Definition init_client (connection_id generation now now' : Z) : client :=
  Client 0 false connection_id generation None READ_HEADER zero_message 0 false 0 now' now 0 0
    zero_send_queue.

Definition zero_task : task := Task 0 0 0 zero_message.

Definition init_message_queue : message_queue :=
  Ring (replicate (Z.to_nat CAPACITY) zero_task) 0 0 0.

Definition init_server : server :=
  Server (replicate (Z.to_nat FD_SETSIZE) zero_client) init_session_table 0 0 (-1)
    init_message_queue init_message_queue init_message_queue false ∅.

(** ** Accepting *)

(** One answer of [accept4], with that of [epoll_ctl] and the clock. *)
Inductive accept_event :=
| AcceptFd (new_fd : Z) (registered : bool) (now now' : Z)
| AcceptErr (err : Z).

Fixpoint handle_accept (script : list accept_event) (sv : server) : outcome (Z * server) :=
  match script with
  | [] => Ret (0, sv)
  | AcceptErr err :: _ => Ret (if ((err =? EAGAIN) || (err =? EINTR))%bool then 0 else -1, sv)
  | AcceptFd new_fd registered now now' :: script =>
      if FD_SETSIZE <=? new_fd then handle_accept script sv
      else
        slot ← get_at (clients sv) new_fd;
        let next_generation := u64 (generation slot + 1) in
        let connection_id := u64 (next_client_id sv + 1) in
        let c := set_connected true (set_fd new_fd
                   (init_client connection_id next_generation now now')) in
        cs ← set_at (clients sv) new_fd c;
        let sv := set_num_clients (num_clients sv + 1)
                    (set_next_client_id connection_id (set_clients cs sv)) in
        if negb registered then handle_accept script sv
        else
          let sv := set_interest ({[new_fd]} ∪ interest sv) sv in
          handle_accept script (if max_fd sv <? new_fd then set_max_fd new_fd sv else sv)
  end.

Definition calculate_length_packet (m : message_control) : Z :=
  if ((length_of m <? 0) || (MAX_PAYLOAD_SIZE <? length_of m))%bool then -1
  else HDR_SIZE + length_of m + SUM_SIZE.

(** ** Reading *)

(** What one [recv] of a stage leads to: another try, return 0, close, or data. *)
Inductive part := Again | Later | Lost | Got (bs : list Z).

Definition recv_part (ev : rx_event) (eof : bool) (stream : list Z) (remaining : Z)
    : part * list Z :=
  match recv ev eof stream remaining with
  | (RxFail err, stream) =>
      (if err =? EINTR then Again else if err =? EAGAIN then Later else Lost, stream)
  | (RxData [], stream) => (Lost, stream)
  | (RxData bs, stream) => (Got bs, stream)
  end.

(** The bytes of a stage go to the header, the payload or the checksum. *)
Definition store_part (st : read_stage_t) (m : message_control) (off : Z) (bs : list Z)
    : outcome message_control :=
  match st with
  | READ_HEADER => h ← write_at (header m) off bs; Ret (MessageControl h (message m) (checksum m))
  | READ_PAYLOAD => b ← write_at (message m) off bs; Ret (MessageControl (header m) b (checksum m))
  | READ_CHECKSUM => k ← write_at (checksum m) off bs; Ret (MessageControl (header m) (message m) k)
  end.

(** How many bytes a stage needs. *)
Definition stage_size (st : read_stage_t) (m : message_control) : Z :=
  match st with
  | READ_HEADER => HDR_SIZE
  | READ_PAYLOAD => u64 (length_of m)
  | READ_CHECKSUM => SUM_SIZE
  end.

Fixpoint read_stage (script : list rx_event) (eof : bool) (stream : list Z) (c : client)
    : outcome (Z * client * list Z) :=
  if pending_close c then Ret (-1, c, stream)
  else
    match script with
    | [] => Ret (0, c, stream)
    | ev :: script =>
        let size := stage_size (stage c) (c_message c) in
        match recv_part ev eof stream (u64 (size - bytes_read c)) with
        | (Again, stream) => read_stage script eof stream c
        | (Later, stream) => Ret (0, c, stream)
        | (Lost, stream) => Ret (-1, set_pending_close true c, stream)
        | (Got bs, stream) =>
            m ← store_part (stage c) (c_message c) (bytes_read c) bs;
            let c := set_bytes_read (bytes_read c + zlen bs) (set_c_message m c) in
            if bytes_read c <? size then Ret (0, c, stream)
            else
              match stage c with
              | READ_HEADER =>
                  if ((length_of m <? 0) || (MAX_PAYLOAD_SIZE <? length_of m))%bool
                  then Ret (-1, set_pending_close true c, stream)
                  else
                    let next := if length_of m =? 0 then READ_CHECKSUM else READ_PAYLOAD in
                    read_stage script eof stream (set_stage next (set_bytes_read 0 c))
              | READ_PAYLOAD =>
                  read_stage script eof stream (set_stage READ_CHECKSUM (set_bytes_read 0 c))
              | READ_CHECKSUM =>
                  ok ← checksum_ok m;
                  let c := set_stage READ_HEADER (set_bytes_read 0 c) in
                  if ok : bool then
                    Ret (1, set_packet_received (u64 (packet_received c + 1))
                              (set_pending_task (pending_task c + 1) c), stream)
                  else Ret (2, c, stream)
              end
        end
    end.

(** ** Events *)

(** The bytes waiting on one connection and how the kernel hands them out. *)
Record input := Input { in_script : list rx_event; in_eof : bool; in_stream : list Z }.

Definition queue_of (sv : server) (p : Z) : option message_queue :=
  if p =? HIGH then Some (high_priority_queue sv)
  else if p =? MEDIUM then Some (medium_priority_queue sv)
  else if p =? LOW then Some (low_priority_queue sv)
  else None.

Definition set_queue (p : Z) (q : message_queue) (sv : server) : server :=
  if p =? HIGH then set_high_priority_queue q sv
  else if p =? MEDIUM then set_medium_priority_queue q sv
  else set_low_priority_queue q sv.

Definition put_client (sv : server) (i : Z) (c : client) : outcome server :=
  cs ← set_at (clients sv) i c; Ret (set_clients cs sv).

(** No room for the task of message [m]: it is not counted and the client is told. *)
Definition refuse (sv : server) (i : Z) (c : client) (m : message_control) : outcome server :=
  let c := if 0 <? pending_task c then set_pending_task (pending_task c - 1) c else c in
  reply ← build_message (bstr "SERVER BUSY") NACK LOW (number_packet m);
  c ← queue_client c reply;
  put_client sv i c.

(** A complete frame of client [i] is turned into a task. *)
Definition submit (sv : server) (i : Z) (c : client) : outcome server :=
  let t := Task i (generation c) (connection_id c) (c_message c) in
  let p := pri (c_message c) in
  '(ok, q) ← try_enqueue_task (shutdown sv) (queue_of sv p) t;
  if ok : bool then
    sv ← put_client sv i c;
    Ret (match q with Some q => set_queue p q sv | None => sv end)
  else refuse sv i c (t_message t).

(** One iteration of the loop of [handle_client_readable]. *)
Definition client_readable (sv : server) (i events : Z) (inp : input)
    : outcome (server * list Z) :=
  c ← get_at (clients sv) i;
  if (negb (connected c) || negb (fd c =? i))%bool then Ret (sv, in_stream inp)
  else if events .& EPOLLIN =? 0 then Ret (sv, in_stream inp)
  else
    '(ret, c, stream) ← read_stage (in_script inp) (in_eof inp) (in_stream inp) c;
    if ret =? 2 then
      nack ← build_nack (number_packet (c_message c));
      c ← queue_client c nack;
      sv ← put_client sv i c; Ret (sv, stream)
    else if ret =? 1 then sv ← submit sv i c; Ret (sv, stream)
    else sv ← put_client sv i c; Ret (sv, stream).

Fixpoint handle_client_readable (sv : server) (events : list (Z * Z * input))
    : outcome (server * list (list Z)) :=
  match events with
  | [] => Ret (sv, [])
  | (i, ev, inp) :: events =>
      '(sv, stream) ← client_readable sv i ev inp;
      '(sv, streams) ← handle_client_readable sv events;
      Ret (sv, stream :: streams)
  end.

Definition update_session (i : nat) (f : client_session -> client_session) (sv : server)
    : outcome server :=
  s ← deref (sessions (table sv) !! i);
  Ret (set_table (SessionTable (<[i := f s]> (sessions (table sv)))
                    (next_persistent_id (table sv))) sv).

(** On client [i]; the bytes sent are returned. *)
Definition handle_client_writable (script : list tx_event) (sv : server) (i : Z)
    : outcome (server * list Z) :=
  c ← get_at (clients sv) i;
  if r_count (send_queue c) =? 0 then Ret (sv, [])
  else
    '(res, c, wire) ← send_message_chunk script c;
    if res =? -1 then
      sv ← put_client sv i (advance_send_queue (set_pending_close true c)); Ret (sv, wire)
    else if res =? 1 then
      sv ← match session c with
           | Some s => update_session s (fun t =>
               set_packets_out_total (u64 (packets_out_total t + 1)) t) sv
           | None => Ret sv
           end;
      sv ← put_client sv i (set_packet_sent (u64 (packet_sent c + 1)) c); Ret (sv, wire)
    else sv ← put_client sv i c; Ret (sv, wire).

(** One iteration of [reap_closed_clients]. *)
Definition reap_client (sv : server) (i : Z) : outcome server :=
  c ← get_at (clients sv) i;
  if negb (pending_close c) then Ret sv
  else if negb ((pending_task c =? 0) && (r_count (send_queue c) =? 0))%bool then Ret sv
  else
    let sv := if 0 <=? fd c then set_interest (interest sv ∖ {[fd c]}) sv else sv in
    let c := set_session None (set_pending_close false (set_connected false (set_fd (-1) c))) in
    sv ← put_client sv i c;
    Ret (if 0 <? num_clients sv then set_num_clients (num_clients sv - 1) sv else sv).

Fixpoint reap_loop (n : nat) (i : Z) (sv : server) : outcome server :=
  match n with
  | O => Ret sv
  | S n => sv ← reap_client sv i; reap_loop n (i + 1) sv
  end.

Definition reap_closed_clients (sv : server) : outcome server :=
  reap_loop (Z.to_nat FD_SETSIZE) 0 sv.

(** ** Tasks *)

Definition reply_with (text : list Z) (c : client) (m : message_control) : outcome client :=
  reply ← build_message text ACK LOW (number_packet m); queue_client c reply.

Definition reply_ack (c : client) (m : message_control) : outcome client :=
  reply ← build_ack (number_packet m); queue_client c reply.

Definition get_status_task : client -> message_control -> outcome client :=
  reply_with (bstr "STATUS OK").

Definition set_status_task : client -> message_control -> outcome client := reply_ack.

Definition get_data_task : client -> message_control -> outcome client :=
  reply_with (bstr "DATA").

Definition get_config_task : client -> message_control -> outcome client :=
  reply_with (bstr "CONFIG").

Definition set_config_task : client -> message_control -> outcome client := reply_ack.

Definition send_control_task : client -> message_control -> outcome client := reply_ack.

(** [PRIu64] *)
Definition fmt_u64 (z : Z) : list Z := dec_digits 20 z.

Definition identify_text (was_resumed : bool) (s : client_session) : list Z :=
  take 127 (bstr (if was_resumed then "RESUMED" else "NEW") ++ bstr " client_id="
    ++ fmt_u64 (client_id s) ++ bstr " reconnect=" ++ fmt_d (reconnect_count s)).

Definition identify_task (now : Z) (sv : server) (c : client) (m : message_control)
    : outcome (session_table * client) :=
  let len := if length_of m <? 0 then 0 else length_of m in
  let len := if SESSION_TOKEN_LEN <=? len then SESSION_TOKEN_LEN - 1 else len in
  tok ← read_at (message m) 0 len;
  if len =? 0 then
    rep ← build_message (bstr "IDENTITY requires a non-empty token") NACK LOW (number_packet m);
    c ← queue_client c rep; Ret (table sv, c)
  else
    '(s, tb) ← session_lookup_or_create (table sv) (tok ++ [0]) now;
    match s with
    | None =>
        rep ← build_message (bstr "session table full") NACK LOW (number_packet m);
        c ← queue_client c rep; Ret (tb, c)
    | Some (i, was_resumed) =>
        s ← deref (sessions tb !! i);
        rep ← build_message (identify_text was_resumed s) ACK LOW (number_packet m);
        c ← queue_client (set_session (Some i) c) rep;
        Ret (tb, c)
    end.

Definition finish_task (sv : server) (t : task) : outcome server :=
  let i := t_fd t in
  if ((i <? 0) || (FD_SETSIZE <=? i))%bool then Ret sv
  else
    c ← get_at (clients sv) i;
    if ((fd c =? i) && (generation c =? client_generation t) && (0 <? pending_task c))%bool
    then put_client sv i (set_pending_task (pending_task c - 1) c)
    else Ret sv.

(** The switch of [process_task]; IDENTIFY is the case that needs the server. *)
Definition answer (c : client) (m : message_control) : outcome client :=
  let k := cmd m in
  if k =? GET_STATUS then get_status_task c m
  else if k =? SET_STATUS then set_status_task c m
  else if k =? GET_DATA then get_data_task c m
  else if k =? GET_CONFIG then get_config_task c m
  else if k =? SET_CONFIG then set_config_task c m
  else if k =? SEND_CONTROL then send_control_task c m
  else if k =? SHUTDOWN_PEER then Ret (set_pending_close true c)
  else Ret c.

Definition dispatch (now : Z) (sv : server) (c : client) (m : message_control)
    : outcome (session_table * client) :=
  if cmd m =? IDENTIFY then identify_task now sv c m
  else c ← answer c m; Ret (table sv, c).

Definition task_valid (sv : server) (t : task) : bool :=
  match clients sv !! Z.to_nat (t_fd t) with
  | Some c => (fd c =? t_fd t) && (generation c =? client_generation t) && connected c
  | None => false
  end.

Definition process_task (now now' : Z) (sv : server) (t : task) : outcome server :=
  let i := t_fd t in
  if ((i <? 0) || (FD_SETSIZE <=? i))%bool then finish_task sv t
  else
    c ← get_at (clients sv) i;
    if negb (task_valid sv t) then finish_task sv t
    else
      '(tb, c) ← dispatch now sv c (t_message t);
      sv ← put_client (set_table tb sv) i c;
      sv ← match session c with
           | Some s => update_session s (fun x =>
               set_last_seen_ms now' (set_packets_in_total (u64 (packets_in_total x + 1)) x)) sv
           | None => Ret sv
           end;
      finish_task sv t.

(** ** Workers *)

Inductive worker := HighWorker | MidWorker | LowWorker.

Definition all_queues_empty_locked (sv : server) : bool :=
  (r_count (high_priority_queue sv) =? 0) && (r_count (medium_priority_queue sv) =? 0)
    && (r_count (low_priority_queue sv) =? 0).

(** Taking from the queue of priority [p]. *)
Definition dequeue_from (p : Z) (sv : server) : outcome (option (task * server)) :=
  q ← deref (queue_of sv p);
  r ← try_dequeue_task_locked q;
  Ret (match r with Some (t, q) => Some (t, set_queue p q sv) | None => None end).

(** The priorities a worker serves, in order. *)
Definition serves (w : worker) : list Z :=
  match w with HighWorker => [HIGH; MEDIUM; LOW] | MidWorker => [MEDIUM; LOW] | LowWorker => [LOW] end.

Fixpoint dequeue_first (ps : list Z) (sv : server) : outcome (option (task * server)) :=
  match ps with
  | [] => Ret None
  | p :: ps =>
      r ← dequeue_from p sv;
      match r with Some r => Ret (Some r) | None => dequeue_first ps sv end
  end.

(** The locked section of one iteration of a worker thread: [None] when it
    waits or stops, [Some None] when it got nothing. *)
Definition worker_take (w : worker) (sv : server) : outcome (option (option (task * server))) :=
  if (shutdown sv || all_queues_empty_locked sv)%bool then Ret None
  else r ← dequeue_first (serves w) sv; Ret (Some r).

(** ** The I/O thread *)

(** One ready descriptor: its event mask and what the calls on it will meet. *)
Record ready := Ready {
  e_fd : Z; e_mask : Z; e_accept : list accept_event; e_out : list tx_event; e_in : input }.

(** The first loop over the events; the bytes sent per event are returned. *)
Definition io_event (listen_fd : Z) (sv : server) (e : ready) : outcome (server * list Z) :=
  if e_fd e =? listen_fd then
    if e_mask e .& EPOLLIN =? 0 then Ret (sv, [])
    else '(_, sv) ← handle_accept (e_accept e) sv; Ret (sv, [])
  else
    c ← get_at (clients sv) (e_fd e);
    if (negb (fd c =? e_fd e) || negb (connected c))%bool then Ret (sv, [])
    else
      sv ← (if e_mask e .& (EPOLLHUP .| EPOLLERR .| EPOLLRDHUP) =? 0 then Ret sv
            else put_client sv (e_fd e) (set_pending_close true c));
      if e_mask e .& EPOLLOUT =? 0 then Ret (sv, [])
      else handle_client_writable (e_out e) sv (e_fd e).

Fixpoint io_events (listen_fd : Z) (sv : server) (es : list ready) : outcome server :=
  match es with
  | [] => Ret sv
  | e :: es => '(sv, _) ← io_event listen_fd sv e; io_events listen_fd sv es
  end.

(** One round of [IO_thread] with the events [epoll_wait] returned. *)
Definition io_round (listen_fd : Z) (es : list ready) (sv : server) : outcome server :=
  if shutdown sv then Ret sv
  else if bool_decide (es = []) then reap_closed_clients sv
  else
    sv ← io_events listen_fd sv es;
    '(sv, _) ← handle_client_readable sv ((fun e => (e_fd e, e_mask e, e_in e)) <$> es);
    reap_closed_clients sv.

(** ** Termination *)

(** [sig_thread] on SIGTERM or SIGINT: the frame every live client is sent. *)
Definition shutdown_message : outcome message_control :=
  build_message (bstr "server shutting down") SHUTDOWN_PEER HIGH 0.

(** The loop over the table from descriptor [i]; [scripts i] is how the socket of
    [i] takes the bytes.  What each descriptor was sent is returned. *)
Fixpoint farewell_loop (n : nat) (i : Z) (scripts : Z -> list tx_event) (sv : server)
    : outcome (list (Z * list Z)) :=
  match n with
  | O => Ret []
  | S n =>
      c ← get_at (clients sv) i;
      sent ← (if (connected c && (fd c =? i))%bool then
                m ← shutdown_message;
                '(_, wire, _) ← send_framed_message (scripts i) m;
                Ret [(i, wire)]
              else Ret []);
      rest ← farewell_loop n (i + 1) scripts sv;
      Ret (sent ++ rest)
  end.

Definition sig_term (scripts : Z -> list tx_event) (sv : server) : outcome (list (Z * list Z) * server) :=
  sent ← farewell_loop (Z.to_nat FD_SETSIZE) 0 scripts sv;
  Ret (sent, set_shutdown true sv).

(** ** The daemon as a transition system

    A state is the shared server and the tasks the workers have taken and not
    finished.  The I/O thread's rounds are cut into their per-descriptor parts,
    so that workers may run between any two of them.  The kernel hands out only
    descriptors that are not open, and streams carry bytes. *)
Definition state : Type := server * list task.

Inductive step : state -> state -> Prop :=
| step_accept sv fl f now now' c sv' :
    clients sv !! Z.to_nat f = Some c -> connected c = false ->
    handle_accept [AcceptFd f true now now'] sv = Ret (0, sv') ->
    step (sv, fl) (sv', fl)
| step_io sv fl listen_fd e sv' out :
    e_fd e <> listen_fd -> io_event listen_fd sv e = Ret (sv', out) -> step (sv, fl) (sv', fl)
| step_readable sv fl i ev inp sv' stream :
    bytes (in_stream inp) -> client_readable sv i ev inp = Ret (sv', stream) -> step (sv, fl) (sv', fl)
| step_reap sv fl i sv' :
    reap_client sv i = Ret sv' -> step (sv, fl) (sv', fl)
| step_take sv fl w t sv' :
    worker_take w sv = Ret (Some (Some (t, sv'))) -> step (sv, fl) (sv', t :: fl)
| step_process sv l1 t l2 now now' sv' :
    process_task now now' sv t = Ret sv' -> step (sv, l1 ++ t :: l2) (sv', l1 ++ l2)
| step_stop sv fl :
    step (sv, fl) (set_shutdown true sv, fl).

Inductive reachable : state -> Prop :=
| reach_init : reachable (init_server, [])
| reach_step s s' : reachable s -> step s s' -> reachable s'.

(** ** Task queues are FIFO *)

#[export] Instance message_queue_fifo : Fifo message_queue task := {|
  fifo_inv := ring_inv CAPACITY;
  fifo_abs := ring_abs;
  fifo_cap := fun _ => Some CAPACITY;
  fifo_ready := fun _ _ => True;
  fifo_env := eq;
  fifo_push := fun q t =>
    r ← try_enqueue_task false (Some q) t;
    Ret (match r with (true, Some q) => Some q | _ => None end);
  fifo_pop := try_dequeue_task_locked |}.

Lemma enqueue_spec q t :
  ring_inv CAPACITY q ->
  (r_count q < CAPACITY /\ exists q', try_enqueue_task false (Some q) t = Ret (true, Some q') /\
     ring_inv CAPACITY q' /\ ring_abs q' = ring_abs q ++ [t]) \/
  (r_count q = CAPACITY /\ try_enqueue_task false (Some q) t = Ret (false, Some q)).
Proof.
  intros Hi. unfold try_enqueue_task. cbn [deref mbind outcome_bind].
  destruct (Z.leb_spec CAPACITY (r_count q)) as [Hf|Hr].
  - right. split; [|done]. destruct Hi as (_ & _ & ? & _). lia.
  - left. split; [done|]. destruct (ring_put_spec CAPACITY q t Hi Hr) as (q' & -> & Hi' & Ha & _).
    by exists q'.
Qed.

Lemma dequeue_spec q :
  ring_inv CAPACITY q ->
  match ring_abs q with
  | [] => try_dequeue_task_locked q = Ret None
  | t :: l => exists q', try_dequeue_task_locked q = Ret (Some (t, q')) /\
      ring_inv CAPACITY q' /\ ring_abs q' = l
  end.
Proof.
  intros Hi. unfold try_dequeue_task_locked. pose proof (ring_abs_length CAPACITY q Hi) as Hl.
  destruct (ring_abs q) as [|t l] eqn:Ha.
  - rewrite zlen_nil in Hl. by rewrite <- Hl.
  - rewrite zlen_cons in Hl. pose proof (zlen_nonneg l).
    destruct (Z.eqb_spec (r_count q) 0); [lia|].
    destruct (ring_take_spec CAPACITY q t l Hi Ha) as (-> & ? & ?). by eexists.
Qed.

#[export] Instance message_queue_laws : FifoLaws message_queue task.
Proof.
  split; cbn [fifo_inv fifo_abs fifo_cap fifo_ready fifo_env fifo_push fifo_pop message_queue_fifo];
    unfold fifo_room; cbn [fifo_cap fifo_abs message_queue_fifo].
  - intros q t Hi _ Hroom. rewrite (ring_abs_length CAPACITY) in Hroom by done.
    destruct (enqueue_spec q t Hi) as [(_ & q' & -> & ? & ?)|[? _]]; [by exists q'|lia].
  - intros q t Hi Hfull. rewrite (ring_abs_length CAPACITY) in Hfull by done.
    destruct (enqueue_spec q t Hi) as [[? _]|[_ ->]]; [lia|done].
  - intros q Hi Ha. pose proof (dequeue_spec q Hi) as Hd. by rewrite Ha in Hd.
  - intros q t l Hi Ha. pose proof (dequeue_spec q Hi) as Hd. rewrite Ha in Hd.
    destruct Hd as (q' & -> & ? & ?). by exists q'.
  - by intros q q' Hi <-.
  - intros q n Hi [= <-]. rewrite (ring_abs_length CAPACITY) by done.
    destruct Hi as (_ & _ & ? & _). lia.
Qed.

End Gatewayd.
