(* ===== verification/DaemonInv.v ===== *)
(** * Accounting of tasks in the control plane daemon

    [pending_task] of a connection counts the tasks that name it and are
    queued or with a worker; a connection is not reaped before they are done.
    The invariant is proved for every reachable state of the transition system
    of Gatewayd, over all interleavings of the I/O thread and the workers. *)
From S2P Require Import Prelude Socket Fifo Ring Framing Gatewayd.
Import Framing Gatewayd.
Open Scope c_scope.

Module DaemonInv.

(** What identifies the connection of a slot, and its task count. *)
Definition same_identity (c c' : client) : Prop :=
  fd c' = fd c /\ connected c' = connected c /\ generation c' = generation c /\
  connection_id c' = connection_id c /\ pending_task c' = pending_task c.

#[export] Instance same_identity_refl : Reflexive same_identity.
Proof. by intros c. Qed.

#[export] Instance same_identity_trans : Transitive same_identity.
Proof. unfold same_identity. intros a b c ? ?. destruct_and?. split_and!; congruence. Qed.

Lemma queue_client_identity c m c' : queue_client c m = Ret c' -> same_identity c c'.
Proof.
  unfold queue_client. intros H. peel H as old ?. peel H as q ?. by injection H as <-.
Qed.

Lemma chunk_identity script c r c' out :
  send_message_chunk script c = Ret (r, c', out) -> same_identity c c'.
Proof.
  unfold send_message_chunk. destruct (r_count _ =? 0); [by intros [= <- <- <-]|].
  intros H. peel H as o ?. peel H as buf ?. peel H as data ?.
  destruct (chunk_loop script data (bytes_sent o)) as [[r' off] w]. peel H as d ?.
  injection H as <- <- <-. by destruct (r' =? 1).
Qed.

Lemma reply_with_identity txt c m c' : reply_with txt c m = Ret c' -> same_identity c c'.
Proof. unfold reply_with. intros H. peel H as r ?. by apply queue_client_identity in H. Qed.

Lemma ack_identity c m c' : reply_ack c m = Ret c' -> same_identity c c'.
Proof. unfold reply_ack. intros H. peel H as r ?. by apply queue_client_identity in H. Qed.

Lemma identify_identity now sv c m tb c' :
  identify_task now sv c m = Ret (tb, c') -> same_identity c c'.
Proof.
  unfold identify_task. intros H. peel H as tok ?. destruct (_ =? 0).
  - peel H as rep ?. peel H as c1 E. injection H as <- <-. by apply queue_client_identity in E.
  - peel H as [s tb'] ?. destruct s as [[i res]|].
    + peel H as s ?. peel H as rep ?. peel H as c1 E. injection H as <- <-.
      apply queue_client_identity in E. exact E.
    + peel H as rep ?. peel H as c1 E. injection H as <- <-. by apply queue_client_identity in E.
Qed.

Lemma answer_identity c m c' : answer c m = Ret c' -> same_identity c c'.
Proof.
  unfold answer, get_status_task, set_status_task, get_data_task, get_config_task,
    set_config_task, send_control_task. intros E.
  destruct (cmd m =? GET_STATUS); [by apply reply_with_identity in E|].
  destruct (cmd m =? SET_STATUS); [by apply ack_identity in E|].
  destruct (cmd m =? GET_DATA); [by apply reply_with_identity in E|].
  destruct (cmd m =? GET_CONFIG); [by apply reply_with_identity in E|].
  destruct (cmd m =? SET_CONFIG); [by apply ack_identity in E|].
  destruct (cmd m =? SEND_CONTROL); [by apply ack_identity in E|].
  by destruct (cmd m =? SHUTDOWN_PEER); injection E as <-.
Qed.

Lemma dispatch_identity now sv c m tb c' :
  dispatch now sv c m = Ret (tb, c') -> same_identity c c'.
Proof.
  unfold dispatch. destruct (_ =? IDENTIFY); [apply identify_identity|].
  intros H. peel H as c1 E. injection H as <- <-. by apply answer_identity in E.
Qed.

(** Reading changes the task count only: one more if a frame verified. *)
Lemma read_stage_identity script eof stream c r c' stream' :
  read_stage script eof stream c = Ret (r, c', stream') ->
  same_identity c (if r =? 1 then set_pending_task (pending_task c' - 1) c' else c').
Proof.
  revert stream c. induction script as [|ev script IH]; intros stream c; cbn [read_stage].
  { destruct (pending_close c); intros [= <- <- <-]; done. }
  destruct (pending_close c); [by intros [= <- <- <-]|].
  destruct (recv_part _ _ _ _) as [[| | |bs] st]; [apply IH|by intros [= <- <- <-]..|].
  intros H. peel H as m ?. destruct (_ <? _); [by injection H as <- <- <-|].
  destruct (stage _).
  - destruct (_ || _)%bool; [by injection H as <- <- <-|]. apply IH in H. exact H.
  - apply IH in H. exact H.
  - peel H as ok ?. destruct ok; injection H as <- <- <-; [|done].
    change (1 =? 1) with true. cbv iota. unfold same_identity.
    cbn. split_and!; [done..|]. lia.
Qed.

(** ** The invariant *)

Definition queued (sv : server) : list task :=
  ring_abs (high_priority_queue sv) ++ ring_abs (medium_priority_queue sv)
    ++ ring_abs (low_priority_queue sv).

(** The tasks in the queues and with the workers. *)
Definition outstanding (s : state) : list task := queued s.1 ++ s.2.

Definition tasks_of (i : nat) (ts : list task) : Z :=
  zlen (filter (fun t => t_fd t = Z.of_nat i) ts).

#[export] Instance tasks_of_proper i : Proper ((≡ₚ) ==> eq) (tasks_of i).
Proof. intros l k Hlk. unfold tasks_of, zlen. by rewrite Hlk. Qed.

Lemma tasks_of_cons i t ts :
  tasks_of i (t :: ts) = (if decide (t_fd t = Z.of_nat i) then 1 else 0) + tasks_of i ts.
Proof.
  unfold tasks_of. rewrite filter_cons. destruct (decide _); [apply zlen_cons|lia].
Qed.

Lemma tasks_of_none i ts t : tasks_of i ts = 0 -> t ∈ ts -> t_fd t <> Z.of_nat i.
Proof.
  intros H0 Ht Hi. unfold tasks_of in H0.
  assert (t ∈ filter (fun t => t_fd t = Z.of_nat i) ts) as Hf by (by apply list_elem_of_filter).
  destruct (filter _ ts); [by apply elem_of_nil in Hf|]. rewrite zlen_cons in H0.
  pose proof (zlen_nonneg l). lia.
Qed.

Lemma tasks_of_zero i ts : (forall t, t ∈ ts -> t_fd t <> Z.of_nat i) -> tasks_of i ts = 0.
Proof.
  intros H. unfold tasks_of. destruct (filter _ ts) as [|t l] eqn:E; [done|].
  assert (t ∈ filter (fun t => t_fd t = Z.of_nat i) ts) as Hf by (rewrite E; left).
  apply list_elem_of_filter in Hf as [Hi Ht]. by destruct (H t Ht).
Qed.

(** The task's connection is the one now in its slot. *)
Definition belongs (cs : list client) (t : task) : Prop :=
  exists c, 0 <= t_fd t /\ cs !! Z.to_nat (t_fd t) = Some c /\ fd c = t_fd t /\
    connected c = true /\ generation c = client_generation t /\ connection_id c = t_connection_id t.

Definition rings (sv : server) : list message_queue :=
  [high_priority_queue sv; medium_priority_queue sv; low_priority_queue sv].

Record inv (s : state) : Prop := {
  inv_len : zlen (clients s.1) = FD_SETSIZE;
  inv_rings : Forall (ring_inv CAPACITY) (rings s.1);
  inv_fd i c : clients s.1 !! i = Some c -> connected c = true -> fd c = Z.of_nat i;
  inv_pending i c : clients s.1 !! i = Some c -> pending_task c = tasks_of i (outstanding s);
  inv_belongs : Forall (belongs (clients s.1)) (outstanding s) }.

Lemma put_client_Ret sv i c sv' :
  put_client sv i c = Ret sv' ->
  0 <= i < zlen (clients sv) /\ sv' = set_clients (<[Z.to_nat i := c]> (clients sv)) sv.
Proof.
  unfold put_client. intros H. peel H as cs E. injection H as <-.
  apply set_at_Ret in E as [? ->]. done.
Qed.

(** A connection keeps its identity, its count follows the outstanding tasks. *)
Lemma inv_update sv fl sv' fl' i c c' :
  inv (sv, fl) -> clients sv !! i = Some c ->
  clients sv' = <[i := c']> (clients sv) -> Forall (ring_inv CAPACITY) (rings sv') ->
  same_identity c (set_pending_task (pending_task c) c') ->
  (forall j, tasks_of j (outstanding (sv', fl'))
     = tasks_of j (outstanding (sv, fl))
       + (if decide (j = i) then pending_task c' - pending_task c else 0)) ->
  Forall (belongs (clients sv)) (outstanding (sv', fl')) ->
  inv (sv', fl').
Proof.
  intros Hi Hc Hcs Hr Hid Hp Hb. pose proof (lookup_lt_Some _ _ _ Hc) as Hlt.
  destruct Hid as (Hf & Hcon & Hg & Hcid & _). cbn in Hf, Hcon, Hg, Hcid.
  split; cbn [fst snd]; rewrite ?Hcs.
  - rewrite zlen_insert. apply (inv_len _ Hi).
  - done.
  - intros j cj. destruct (decide (j = i)) as [->|Hne].
    + rewrite list_lookup_insert_eq by done. intros [= <-]. rewrite Hcon, Hf.
      by apply (inv_fd _ Hi).
    + rewrite list_lookup_insert_ne by done. apply (inv_fd _ Hi).
  - intros j cj. rewrite Hp. destruct (decide (j = i)) as [->|Hne].
    + rewrite list_lookup_insert_eq by done. intros [= <-].
      pose proof (inv_pending _ Hi i c Hc) as E. lia.
    + rewrite list_lookup_insert_ne by done. intros Hj. rewrite Z.add_0_r.
      by apply (inv_pending _ Hi).
  - eapply Forall_impl; [exact Hb|]. intros t (ct & H0 & Hct & Hft & Hcc & Hgt & Hidt).
    destruct (decide (Z.to_nat (t_fd t) = i)) as [<-|Hne].
    + exists c'. rewrite list_lookup_insert_eq by done. rewrite Hc in Hct. injection Hct as <-.
      split_and!; congruence.
    + exists ct. by rewrite list_lookup_insert_ne.
Qed.

(** A slot without outstanding tasks may change hands. *)
Lemma inv_slot sv fl sv' i c c' :
  inv (sv, fl) -> clients sv !! i = Some c -> tasks_of i (outstanding (sv, fl)) = 0 ->
  clients sv' = <[i := c']> (clients sv) -> rings sv' = rings sv ->
  pending_task c' = 0 -> (connected c' = true -> fd c' = Z.of_nat i) ->
  inv (sv', fl).
Proof.
  intros Hi Hc H0 Hcs Hr Hp Hfd. pose proof (lookup_lt_Some _ _ _ Hc) as Hlt.
  assert (outstanding (sv', fl) = outstanding (sv, fl)) as Ho.
  { unfold outstanding, queued. cbn [fst snd]. unfold rings in Hr. by injection Hr as -> -> ->. }
  split; cbn [fst snd]; rewrite ?Hcs, ?Ho.
  - rewrite zlen_insert. apply (inv_len _ Hi).
  - rewrite Hr. apply (inv_rings _ Hi).
  - intros j cj. destruct (decide (j = i)) as [->|Hne].
    + rewrite list_lookup_insert_eq by done. by intros [= <-].
    + rewrite list_lookup_insert_ne by done. apply (inv_fd _ Hi).
  - intros j cj. destruct (decide (j = i)) as [->|Hne].
    + rewrite list_lookup_insert_eq by done. intros [= <-]. lia.
    + rewrite list_lookup_insert_ne by done. apply (inv_pending _ Hi).
  - pose proof (inv_belongs _ Hi) as Hb. rewrite Forall_forall in Hb |- *. intros t Ht.
    destruct (Hb t Ht) as (ct & Ht0 & Hct & Hrest). exists ct. split; [done|].
    rewrite list_lookup_insert_ne; [done|].
    pose proof (tasks_of_none _ _ t H0 Ht). lia.
Qed.

Lemma rings_outstanding sv sv' fl :
  rings sv' = rings sv -> outstanding (sv', fl) = outstanding (sv, fl).
Proof. intros [= E1 E2 E3]. unfold outstanding, queued. cbn [fst snd]. by rewrite E1, E2, E3. Qed.

(** Work on one connection that leaves the tasks alone. *)
Lemma inv_same sv fl sv' i c c' :
  inv (sv, fl) -> clients sv !! i = Some c -> same_identity c c' ->
  clients sv' = <[i := c']> (clients sv) -> rings sv' = rings sv -> inv (sv', fl).
Proof.
  intros Hi Hc Hid Hcs Hr.
  apply (inv_update sv fl sv' fl i c c' Hi Hc Hcs).
  - rewrite Hr. apply (inv_rings _ Hi).
  - unfold same_identity in *. cbn. tauto.
  - intros j. rewrite (rings_outstanding sv sv' fl Hr). destruct Hid as (_ & _ & _ & _ & ->).
    destruct (decide _); lia.
  - rewrite (rings_outstanding sv sv' fl Hr). apply (inv_belongs _ Hi).
Qed.

Lemma update_session_frame i f sv sv' :
  update_session i f sv = Ret sv' -> clients sv' = clients sv /\ rings sv' = rings sv.
Proof. unfold update_session. intros H. peel H as s0 ?. by injection H as <-. Qed.

Lemma writable_inv script sv fl i sv' out :
  inv (sv, fl) -> handle_client_writable script sv i = Ret (sv', out) -> inv (sv', fl).
Proof.
  intros Hi H. unfold handle_client_writable in H. peel H as c Hc.
  apply get_at_Ret in Hc as [_ Hc]. destruct (_ =? 0); [by injection H as <- <-|].
  peel H as [[r c1] w] E. apply chunk_identity in E. destruct (r =? -1); [|destruct (r =? 1)].
  - peel H as sv1 E1. apply put_client_Ret in E1 as [_ ->]. injection H as <- <-.
    apply (inv_same sv fl _ (Z.to_nat i) c (advance_send_queue (set_pending_close true c1)));
      [done|done|exact E|done|done].
  - peel H as sv1 E1. peel H as sv2 E2. apply put_client_Ret in E2 as [_ ->]. injection H as <- <-.
    assert (clients sv1 = clients sv /\ rings sv1 = rings sv) as [Hcs Hr].
    { destruct (session c1); [by apply update_session_frame in E1|by injection E1 as <-]. }
    apply (inv_same sv fl _ (Z.to_nat i) c (set_packet_sent (u64 (packet_sent c1 + 1)) c1));
      [done|done|exact E| |exact Hr].
    cbn. by rewrite Hcs.
  - peel H as sv1 E1. apply put_client_Ret in E1 as [_ ->]. injection H as <- <-.
    by apply (inv_same sv fl _ (Z.to_nat i) c c1).
Qed.

Lemma io_event_inv listen_fd sv fl e sv' out :
  inv (sv, fl) -> e_fd e <> listen_fd -> io_event listen_fd sv e = Ret (sv', out) -> inv (sv', fl).
Proof.
  intros Hi Hne H. unfold io_event in H. destruct (Z.eqb_spec (e_fd e) listen_fd); [done|].
  peel H as c Hc. apply get_at_Ret in Hc as [_ Hc].
  destruct (_ || _)%bool; [by injection H as <- <-|]. peel H as sv1 E.
  assert (inv (sv1, fl)) as Hi1.
  { destruct (_ =? 0); [by injection E as <-|]. apply put_client_Ret in E as [_ ->].
    by apply (inv_same sv fl _ (Z.to_nat (e_fd e)) c (set_pending_close true c)). }
  destruct (e_mask e .& EPOLLOUT =? 0); [by injection H as <- <-|]. by eapply writable_inv.
Qed.

Lemma accept_inv sv fl f now now' c sv' :
  inv (sv, fl) -> clients sv !! Z.to_nat f = Some c -> connected c = false ->
  handle_accept [AcceptFd f true now now'] sv = Ret (0, sv') -> inv (sv', fl).
Proof.
  intros Hi Hc Hcon H. cbn [handle_accept] in H.
  destruct (Z.leb_spec FD_SETSIZE f); [by injection H as <-|].
  peel H as c0 Hc0. apply get_at_Ret in Hc0 as [Hf Hc0]. rewrite Hc in Hc0. injection Hc0 as <-.
  peel H as cs Ecs. apply set_at_Ret in Ecs as [_ ->]. injection H as <-.
  set (c' := set_connected true _).
  assert (tasks_of (Z.to_nat f) (outstanding (sv, fl)) = 0) as Hnone.
  { apply tasks_of_zero. intros t Ht Htf. pose proof (inv_belongs _ Hi) as Hb.
    rewrite Forall_forall in Hb. destruct (Hb t Ht) as (ct & _ & Hct & _ & Hcc & _).
    replace (Z.to_nat (t_fd t)) with (Z.to_nat f) in Hct by lia. cbn [fst] in Hct.
    rewrite Hc in Hct.
    injection Hct as <-. congruence. }
  apply (inv_slot sv fl _ (Z.to_nat f) c c' Hi Hc Hnone).
  - by destruct (max_fd _ <? f).
  - by destruct (max_fd _ <? f).
  - done.
  - intros _. cbn. lia.
Qed.

Lemma reap_inv sv fl i sv' : inv (sv, fl) -> reap_client sv i = Ret sv' -> inv (sv', fl).
Proof.
  intros Hi H. unfold reap_client in H. peel H as c Hc. apply get_at_Ret in Hc as [Hi0 Hc].
  destruct (negb _); [by injection H as <-|].
  destruct (Z.eqb_spec (pending_task c) 0) as [Hp|]; [|by injection H as <-].
  destruct (r_count _ =? 0); [|by injection H as <-]. cbn [andb negb] in H. cbv iota in H.
  pose proof (inv_pending _ Hi _ _ Hc) as Hpend.
  peel H as sv1 E. apply put_client_Ret in E as [_ ->]. injection H as <-.
  apply (inv_slot sv fl _ (Z.to_nat i) c
    (set_session None (set_pending_close false (set_connected false (set_fd (-1) c)))) Hi Hc);
    [lia|by repeat case_match..|done|done].
Qed.

(** ** Queue operations *)

Definition rings_ok (sv : server) : Prop := Forall (ring_inv CAPACITY) (rings sv).

Lemma queue_ok sv p q : rings_ok sv -> queue_of sv p = Some q -> ring_inv CAPACITY q.
Proof.
  unfold rings_ok, rings. rewrite !Forall_cons. intros (? & ? & ? & _). unfold queue_of.
  repeat case_match; intros [= <-]; done.
Qed.

Lemma queue_of_inv sv fl p q : inv (sv, fl) -> queue_of sv p = Some q -> ring_inv CAPACITY q.
Proof. intros Hi. apply queue_ok, (inv_rings _ Hi). Qed.

Lemma set_queue_frame p q sv :
  clients (set_queue p q sv) = clients sv.
Proof. unfold set_queue. by repeat case_match. Qed.

Lemma set_queue_rings p q sv :
  ring_inv CAPACITY q -> Forall (ring_inv CAPACITY) (rings sv) ->
  Forall (ring_inv CAPACITY) (rings (set_queue p q sv)).
Proof.
  unfold rings. rewrite !Forall_cons. intros Hq (? & ? & ? & _). unfold set_queue.
  repeat case_match; cbn; split_and!; done.
Qed.

(** One queue replaced: what changed in it changed in the whole. *)
Lemma queued_push sv p q q' t :
  queue_of sv p = Some q -> ring_abs q' = ring_abs q ++ [t] ->
  queued (set_queue p q' sv) ≡ₚ t :: queued sv.
Proof.
  unfold queue_of, set_queue, queued. intros Hq Ha.
  destruct (p =? HIGH); [|destruct (p =? MEDIUM); [|destruct (p =? LOW); [|done]]];
    injection Hq as <-; cbn; rewrite Ha; solve_Permutation.
Qed.

Lemma queued_pop sv p q q' t :
  queue_of sv p = Some q -> ring_abs q = t :: ring_abs q' ->
  queued sv ≡ₚ t :: queued (set_queue p q' sv).
Proof.
  unfold queue_of, set_queue, queued. intros Hq Ha.
  destruct (p =? HIGH); [|destruct (p =? MEDIUM); [|destruct (p =? LOW); [|done]]];
    injection Hq as <-; cbn; rewrite Ha; solve_Permutation.
Qed.

Lemma submit_inv sv fl i c c1 sv' :
  inv (sv, fl) -> clients sv !! Z.to_nat i = Some c -> 0 <= i ->
  fd c = i -> connected c = true ->
  same_identity c (set_pending_task (pending_task c1 - 1) c1) ->
  submit sv i c1 = Ret sv' -> inv (sv', fl).
Proof.
  intros Hi Hc Hi0 Hfd Hcon Hid H. pose proof Hid as (If & Ic & Ig & Ii & Ip). cbn in If, Ic, Ig, Ii, Ip.
  unfold submit in H. peel H as [ok q] E. destruct ok.
  - peel H as sv1 E1. apply put_client_Ret in E1 as [_ ->].
    unfold try_enqueue_task in E. destruct (shutdown sv); [done|]. peel E as q0 Eq.
    destruct (queue_of sv _) as [q1|] eqn:Hq; [|done]. injection Eq as <-.
    pose proof (queue_of_inv _ _ _ _ Hi Hq) as Hqi.
    destruct (Z.leb_spec CAPACITY (r_count q1)); [done|]. peel E as q2 Ep. injection E as <-.
    destruct (ring_put_spec CAPACITY q1 (Task i (generation c1) (connection_id c1) (c_message c1)) Hqi)
      as (q3 & E3 & Hq3 & Ha & _); [done|].
    rewrite Ep in E3. injection E3 as <-. injection H as <-.
    set (t := Task i _ _ _) in *. set (sv1 := set_clients _ sv).
    assert (outstanding (set_queue (pri (c_message c1)) q2 sv1, fl) ≡ₚ t :: outstanding (sv, fl)) as Ho.
    { unfold outstanding. cbn [fst snd]. rewrite (queued_push sv1 _ q1) by done. done. }
    apply (inv_update sv fl _ fl (Z.to_nat i) c c1 Hi Hc).
    + by rewrite set_queue_frame.
    + apply set_queue_rings; [done|]. apply (inv_rings _ Hi).
    + unfold same_identity. cbn. split_and!; done.
    + intros j. rewrite Ho, tasks_of_cons. cbn [t_fd t].
      destruct (decide (i = Z.of_nat j)), (decide (j = Z.to_nat i)); lia.
    + rewrite Ho. constructor; [|apply (inv_belongs _ Hi)].
      exists c. unfold t. cbn. split_and!; congruence.
  - unfold refuse in H. peel H as reply ?. peel H as c2 E2. apply put_client_Ret in H as [_ ->].
    apply queue_client_identity in E2.
    apply (inv_same sv fl _ (Z.to_nat i) c c2 Hi Hc); [|done..].
    etransitivity; [exact Hid|]. etransitivity; [|exact E2].
    pose proof (inv_pending _ Hi _ _ Hc). pose proof (zlen_nonneg (filter (fun t => t_fd t = Z.of_nat (Z.to_nat i)) (outstanding (sv, fl)))).
    unfold tasks_of in *. destruct (Z.ltb_spec 0 (pending_task c1)); [done|lia].
Qed.

Lemma readable_inv sv fl i ev inp sv' stream :
  inv (sv, fl) -> client_readable sv i ev inp = Ret (sv', stream) -> inv (sv', fl).
Proof.
  intros Hi H. unfold client_readable in H. peel H as c Hc. apply get_at_Ret in Hc as [Hi0 Hc].
  destruct (connected c) eqn:Hcon; [|by injection H as <- <-].
  destruct (Z.eqb_spec (fd c) i) as [Hfd|]; [|by injection H as <- <-]. cbn [negb orb] in H.
  destruct (ev .& EPOLLIN =? 0); [by injection H as <- <-|].
  peel H as [[ret c1] st] E. apply read_stage_identity in E.
  destruct (Z.eqb_spec ret 2) as [->|H2]; [|destruct (Z.eqb_spec ret 1) as [->|H1]].
  - peel H as nack ?. peel H as c2 E2. apply queue_client_identity in E2.
    peel H as sv1 E1. apply put_client_Ret in E1 as [_ ->]. injection H as <- <-.
    apply (inv_same sv fl _ (Z.to_nat i) c c2 Hi Hc); [|done..]. etransitivity; [exact E|exact E2].
  - peel H as sv1 E1. injection H as <- <-. by eapply submit_inv.
  - peel H as sv1 E1. apply put_client_Ret in E1 as [_ ->]. injection H as <- <-.
    by apply (inv_same sv fl _ (Z.to_nat i) c c1 Hi Hc).
Qed.

Lemma dequeue_from_spec sv fl p t sv' :
  inv (sv, fl) -> dequeue_from p sv = Ret (Some (t, sv')) ->
  exists q q', queue_of sv p = Some q /\ ring_inv CAPACITY q' /\ ring_abs q = t :: ring_abs q' /\
    sv' = set_queue p q' sv.
Proof.
  intros Hi H. unfold dequeue_from in H. peel H as q Eq.
  destruct (queue_of sv p) as [q0|] eqn:Hq; [|done]. injection Eq as ->.
  pose proof (dequeue_spec q (queue_of_inv _ _ _ _ Hi Hq)) as Hd. peel H as r Er.
  destruct (ring_abs q) as [|t0 l] eqn:Ha; [rewrite Hd in Er; by injection Er as <-|].
  destruct Hd as (q' & E & Hq' & Ha'). rewrite E in Er. injection Er as <-. injection H as <- <-.
  exists q, q'. split_and!; [done|done|congruence|done].
Qed.

Lemma dequeue_first_spec ps sv fl t sv' :
  inv (sv, fl) -> dequeue_first ps sv = Ret (Some (t, sv')) ->
  exists p q q', p ∈ ps /\ queue_of sv p = Some q /\ ring_inv CAPACITY q' /\
    ring_abs q = t :: ring_abs q' /\ sv' = set_queue p q' sv.
Proof.
  intros Hi. induction ps as [|p ps IH]; cbn [dequeue_first]; [done|].
  intros H. peel H as r Er. destruct r as [[t0 sv0]|].
  - injection H as -> ->. destruct (dequeue_from_spec _ _ _ _ _ Hi Er) as (q & q' & Hq).
    exists p, q, q'. split; [left|done].
  - destruct (IH H) as (p0 & q & q' & Hin & Hq). exists p0, q, q'. split; [by right|done].
Qed.

Lemma take_inv sv fl w t sv' :
  inv (sv, fl) -> worker_take w sv = Ret (Some (Some (t, sv'))) -> inv (sv', t :: fl).
Proof.
  intros Hi H. unfold worker_take in H. destruct (_ || _)%bool; [done|]. peel H as r Er.
  injection H as ->. destruct (dequeue_first_spec _ _ _ _ _ Hi Er) as (p & q & q' & _ & Hq & Hq' & Ha & ->).
  assert (outstanding (set_queue p q' sv, t :: fl) ≡ₚ outstanding (sv, fl)) as Ho.
  { unfold outstanding. cbn [fst snd]. rewrite (queued_pop sv p q q' t) by done. solve_Permutation. }
  split; cbn [fst snd]; rewrite ?set_queue_frame; [apply (inv_len _ Hi)| |apply (inv_fd _ Hi)| |].
  - apply set_queue_rings; [done|]. apply (inv_rings _ Hi).
  - intros i c Hc. rewrite Ho. by apply (inv_pending _ Hi).
  - rewrite Ho. apply (inv_belongs _ Hi).
Qed.

(** A task that belongs to its slot is executed on that connection. *)
Lemma process_task_frame now now' sv t c sv' :
  zlen (clients sv) = FD_SETSIZE -> 0 <= t_fd t ->
  clients sv !! Z.to_nat (t_fd t) = Some c -> fd c = t_fd t -> connected c = true ->
  generation c = client_generation t -> 0 < pending_task c ->
  process_task now now' sv t = Ret sv' ->
  exists tb c1, dispatch now sv c (t_message t) = Ret (tb, c1) /\ rings sv' = rings sv /\
    clients sv' = <[Z.to_nat (t_fd t) := set_pending_task (pending_task c - 1) c1]> (clients sv).
Proof.
  intros Hlen H0 Hc Hfd Hcon Hgen Hp H. pose proof (lookup_lt_Some _ _ _ Hc) as Hlt.
  unfold process_task in H.
  destruct (Z.ltb_spec (t_fd t) 0), (Z.leb_spec FD_SETSIZE (t_fd t)); try lia;
    [unfold zlen in Hlen; lia|]. cbn [orb] in H.
  peel H as c0 E0. apply get_at_Ret in E0 as [_ E0]. rewrite Hc in E0. injection E0 as <-.
  unfold task_valid in H. rewrite Hc, Hfd, Hgen, Hcon, !Z.eqb_refl in H. cbn [andb negb] in H.
  cbv iota in H. peel H as [tb c1] Ed. pose proof (dispatch_identity _ _ _ _ _ _ Ed) as (If & Ic & Ig & _ & Ip).
  exists tb, c1. split; [done|]. peel H as sv1 E1. apply put_client_Ret in E1 as [_ ->].
  peel H as sv2 E2.
  assert (clients sv2 = <[Z.to_nat (t_fd t) := c1]> (clients sv) /\ rings sv2 = rings sv) as [Hcs Hr].
  { destruct (session c1); [|by injection E2 as <-].
    apply update_session_frame in E2 as [-> ->]. done. }
  unfold finish_task in H.
  destruct (Z.ltb_spec (t_fd t) 0), (Z.leb_spec FD_SETSIZE (t_fd t)); try lia. cbn [orb] in H.
  peel H as c2 E3. apply get_at_Ret in E3 as [_ E3].
  rewrite Hcs, list_lookup_insert_eq in E3 by done. injection E3 as <-.
  rewrite If, Ig, Ip, Hfd, Hgen, !Z.eqb_refl in H.
  destruct (Z.ltb_spec 0 (pending_task c)); [|lia]. cbn [andb] in H.
  apply put_client_Ret in H as [_ ->]. split; [done|]. cbn [clients set_clients].
  by rewrite Hcs, list_insert_insert_eq.
Qed.

Lemma process_inv sv l1 t l2 now now' sv' :
  inv (sv, l1 ++ t :: l2) -> process_task now now' sv t = Ret sv' -> inv (sv', l1 ++ l2).
Proof.
  intros Hi H.
  assert (outstanding (sv, l1 ++ t :: l2) ≡ₚ t :: outstanding (sv, l1 ++ l2)) as Ho
    by (unfold outstanding; cbn [fst snd]; solve_Permutation).
  pose proof (inv_belongs _ Hi) as Hb. rewrite Ho, Forall_cons in Hb. cbn [fst] in Hb.
  destruct Hb as [(c & H0 & Hc & Hfd & Hcon & Hgen & Hid) Hb].
  pose proof (inv_pending _ Hi _ _ Hc) as Hp. rewrite Ho, tasks_of_cons in Hp.
  rewrite decide_True in Hp by lia.
  pose proof (zlen_nonneg (filter (fun t0 => t_fd t0 = Z.of_nat (Z.to_nat (t_fd t)))
    (outstanding (sv, l1 ++ l2)))) as Hz. unfold tasks_of in Hp.
  destruct (process_task_frame now now' sv t c sv' (inv_len _ Hi) H0 Hc Hfd Hcon Hgen ltac:(lia) H)
    as (tb & c1 & Ed & Hr & Hcs).
  pose proof (dispatch_identity _ _ _ _ _ _ Ed) as (If & Ic & Ig & Ii & Ip).
  apply (inv_update sv (l1 ++ t :: l2) sv' (l1 ++ l2) (Z.to_nat (t_fd t)) c _ Hi Hc Hcs).
  - rewrite Hr. apply (inv_rings _ Hi).
  - unfold same_identity. cbn. split_and!; done.
  - intros j. rewrite Ho, tasks_of_cons, (rings_outstanding sv sv' _ Hr).
    cbn [pending_task set_pending_task].
    destruct (decide (t_fd t = Z.of_nat j)), (decide (j = Z.to_nat (t_fd t))); lia.
  - by rewrite (rings_outstanding sv sv' _ Hr).
Qed.

Lemma init_inv : inv (init_server, []).
Proof.
  assert (forall i c, clients init_server !! i = Some c -> c = zero_client) as Hz.
  { intros i c Hc. by apply lookup_replicate in Hc as [-> _]. }
  assert (ring_abs init_message_queue = []) as Hq by done.
  split; cbn [fst snd].
  - done.
  - assert (ring_inv CAPACITY init_message_queue) by (split_and!; done). repeat constructor; done.
  - intros i c Hc Hcon. apply Hz in Hc as ->. done.
  - intros i c Hc. apply Hz in Hc as ->. done.
  - constructor.
Qed.

Lemma reachable_inv s : reachable s -> inv s.
Proof.
  induction 1 as [|s s' _ IH Hs]; [apply init_inv|]. destruct Hs.
  - by eapply accept_inv.
  - by eapply io_event_inv.
  - by eapply readable_inv.
  - by eapply reap_inv.
  - by eapply take_inv.
  - by eapply process_inv.
  - destruct IH. by split.
Qed.

(** ** What changing clients leaves alone *)

Definition frame (sv : server) : session_table * (list message_queue * bool) :=
  (table sv, (rings sv, shutdown sv)).

Lemma put_client_frame sv i c sv' : put_client sv i c = Ret sv' -> frame sv' = frame sv.
Proof. intros H. apply put_client_Ret in H as [_ ->]. done. Qed.

Lemma finish_frame sv t sv' : finish_task sv t = Ret sv' -> frame sv' = frame sv.
Proof.
  unfold finish_task. destruct (_ || _)%bool; [by intros [= <-]|]. intros H. peel H as c E.
  destruct (_ && _)%bool; [by eapply put_client_frame|by injection H as <-].
Qed.

Lemma accept_frame script sv r sv' : handle_accept script sv = Ret (r, sv') -> frame sv' = frame sv.
Proof.
  revert sv. induction script as [|[f reg now now'|err] script IH]; intros sv H; cbn [handle_accept] in H.
  - by injection H as _ <-.
  - destruct (FD_SETSIZE <=? f); [by apply IH|]. peel H as slot E. peel H as cs E1.
    destruct reg; cbn [negb] in H; apply IH in H as ->; [by case_match|done].
  - by injection H as _ <-.
Qed.

Lemma reap_frame sv i sv' : reap_client sv i = Ret sv' -> frame sv' = frame sv.
Proof.
  unfold reap_client. intros H. peel H as c E. destruct (negb _); [by injection H as <-|].
  destruct (negb _); [by injection H as <-|]. peel H as sv1 E1. injection H as <-.
  apply put_client_frame in E1. assert (frame sv1 = frame sv) as <-
    by (rewrite E1; by destruct (0 <=? fd c)).
  by destruct (0 <? num_clients sv1).
Qed.

(** C8: tasks stay with their connection.  In every reachable state, over all
    interleavings of accepting, reading, writing, reaping and the workers, each
    queued or running task finds in its slot the very connection it came from,
    so the validity test of [process_task] never fails, and [pending_task] of
    every slot is the number of its outstanding tasks; in particular a slot with
    outstanding tasks is neither reaped nor reused. *)
Theorem tasks_keep_their_connection sv fl :
  reachable (sv, fl) ->
  (forall t, t ∈ outstanding (sv, fl) -> task_valid sv t = true /\
     exists c, clients sv !! Z.to_nat (t_fd t) = Some c /\ connection_id c = t_connection_id t) /\
  (forall i c, clients sv !! i = Some c -> pending_task c = tasks_of i (outstanding (sv, fl))).
Proof.
  intros Hr. pose proof (reachable_inv _ Hr) as Hi. split; [|apply (inv_pending _ Hi)].
  intros t Ht. pose proof (inv_belongs _ Hi) as Hb. rewrite Forall_forall in Hb.
  destruct (Hb t Ht) as (c & H0 & Hc & Hfd & Hcon & Hgen & Hid). cbn [fst] in Hc.
  split; [|by exists c]. unfold task_valid. rewrite Hc, Hfd, Hgen, Hcon, !Z.eqb_refl. done.
Qed.

(** Concrete runs: the state a handler ends in. *)
Definition defined {A} (r : outcome A) : bool := match r with Ret _ => true | Undef => false end.

Definition or_init {A} (f : A -> server) (r : outcome A) : server :=
  match r with Ret x => f x | Undef => init_server end.

Definition taken (r : outcome (option (option (task * server)))) : task * server :=
  match r with Ret (Some (Some x)) => x | _ => (zero_task, init_server) end.

Lemma run_accept sv f now now' c :
  reachable (sv, []) -> clients sv !! Z.to_nat f = Some c -> connected c = false ->
  match handle_accept [AcceptFd f true now now'] sv with Ret (r, _) => r =? 0 | Undef => false end = true ->
  reachable (or_init snd (handle_accept [AcceptFd f true now now'] sv), []).
Proof.
  intros Hr Hc Hn Hd. eapply reach_step; [exact Hr|].
  destruct (handle_accept [AcceptFd f true now now'] sv) as [[r sv']|] eqn:E; [|done].
  apply Z.eqb_eq in Hd as ->. by eapply step_accept.
Qed.

Lemma run_readable sv fl i ev inp :
  reachable (sv, fl) -> bytes (in_stream inp) -> defined (client_readable sv i ev inp) = true ->
  reachable (or_init fst (client_readable sv i ev inp), fl).
Proof.
  intros Hr Hb Hd. eapply reach_step; [exact Hr|].
  destruct (client_readable sv i ev inp) as [[sv' out]|] eqn:E; [|done]. by eapply step_readable.
Qed.

Lemma run_take sv fl w :
  reachable (sv, fl) ->
  match worker_take w sv with Ret (Some (Some _)) => true | _ => false end = true ->
  reachable ((taken (worker_take w sv)).2, (taken (worker_take w sv)).1 :: fl).
Proof.
  intros Hr Hd. eapply reach_step; [exact Hr|].
  destruct (worker_take w sv) as [[[[t sv']|]|]|] eqn:E; try discriminate Hd. by eapply step_take.
Qed.

Lemma run_process sv t fl now now' :
  reachable (sv, t :: fl) -> defined (process_task now now' sv t) = true ->
  reachable (or_init id (process_task now now' sv t), fl).
Proof.
  intros Hr Hd. eapply reach_step; [exact Hr|].
  destruct (process_task now now' sv t) as [sv'|] eqn:E; [|done]. by apply (step_process _ [] _ fl now now').
Qed.

(** A server that accepted descriptor 5 and read one frame from it. *)
Definition accepted : server := or_init snd (handle_accept [AcceptFd 5 true 10 10] init_server).

Definition one_frame : input := Input [RxChunk 24; RxChunk 4; RxChunk 4] false (wire ping).

Definition submitted : server := or_init fst (client_readable accepted 5 EPOLLIN one_frame).

Lemma submitted_reachable : reachable (submitted, []).
Proof.
  apply run_readable; [apply (run_accept _ _ _ _ zero_client); [apply reach_init|done..|]| |];
    [vm_compute; reflexivity|by apply (bool_decide_unpack _); vm_compute|vm_compute; reflexivity].
Qed.

Lemma tasks_keep_their_connection_witness :
  map t_fd (outstanding (submitted, [])) = [5] /\
  forall t, t ∈ outstanding (submitted, []) -> task_valid submitted t = true /\
     exists c, clients submitted !! Z.to_nat (t_fd t) = Some c /\ connection_id c = t_connection_id t.
Proof.
  split; [vm_compute; reflexivity|].
  exact (proj1 (tasks_keep_their_connection submitted [] submitted_reachable)).
Defined.

End DaemonInv.
