(* ===== verification/DaemonIo.v ===== *)
(** * Transmission and reception in the control plane daemon

    The send queue of a connection as the byte stream it still owes the peer,
    and the receive state machine as the reassembly of frames from pieces. *)
From S2P Require Import Prelude Socket Fifo Ring Framing Gatewayd.
Import Framing Gatewayd.
Open Scope c_scope.

Module DaemonIo.

(** ** Sending *)

(** A message whose length field is that of a payload. *)
Definition sendable (m : message_control) : Prop :=
  msg_wf m /\ 0 <= length_of m <= MAX_PAYLOAD_SIZE.

Lemma wire_length m : sendable m -> zlen (wire m) = HDR_SIZE + length_of m + SUM_SIZE.
Proof.
  intros [(Hh & _ & Hm & _ & Hc & _) Hl]. unfold wire, MAX_PAYLOAD_SIZE in *. len.
Qed.

(** A slot of the queue; once bytes have gone out, [wire_buf] holds the frame. *)
Definition slot_wf (o : outgoing) : Prop :=
  sendable (msg o) /\ zlen (wire_buf o) = 2076 /\ 0 <= bytes_sent o < zlen (wire (msg o)) /\
  (bytes_sent o <> 0 -> take (length (wire (msg o))) (wire_buf o) = wire (msg o)).

Definition sendq_wf (q : ring outgoing) : Prop :=
  ring_inv 16 q /\ Forall slot_wf (r_data q) /\
  forall o l, ring_abs q = o :: l -> Forall (fun o => bytes_sent o = 0) l.

(** What is still to be sent, in order. *)
Definition owed (q : ring outgoing) : list Z :=
  flat_map (fun o => drop (Z.to_nat (bytes_sent o)) (wire (msg o))) (ring_abs q).

Lemma ring_abs_slots (P : outgoing -> Prop) q : Forall P (r_data q) -> Forall P (ring_abs q).
Proof.
  intros H. unfold ring_abs, window, rotate. apply Forall_take, Forall_app.
  split; [by apply Forall_drop|by apply Forall_take].
Qed.

Lemma slot_fresh o m : sendable m -> slot_wf o -> slot_wf (Outgoing m (wire_buf o) 0).
Proof.
  intros Hm (_ & Hb & _). split_and!; [done|done|cbn;lia| |done].
  cbn [bytes_sent msg]. rewrite wire_length by done. destruct Hm as [_ ?].
  unfold HDR_SIZE, SUM_SIZE. lia.
Qed.

Lemma adv_ok q o l : sendq_wf q -> ring_abs q = o :: l -> sendq_wf (ring_advance 16 q).
Proof.
  intros (Hi & Hs & Hz) Ha. destruct (ring_advance_spec 16 q o l Hi Ha) as (_ & Hi' & Ha').
  split_and!; [done|done|]. intros o' l' E. specialize (Hz o l Ha). rewrite Ha' in E. rewrite E in Hz.
  by inversion Hz.
Qed.

(** The queue after the oldest message made room for a new one. *)
Definition make_room (q : ring outgoing) : ring outgoing :=
  if r_count q =? 16 then ring_advance 16 q else q.

Lemma make_room_wf q :
  sendq_wf q -> sendq_wf (make_room q) /\ r_count (make_room q) < 16 /\
  ring_abs (make_room q) = (if r_count q =? 16 then List.tl (ring_abs q) else ring_abs q).
Proof.
  intros Hw. pose proof Hw as (Hi & _). unfold make_room. destruct (Z.eqb_spec (r_count q) 16) as [E|E].
  - destruct (ring_nonempty 16 q Hi ltac:(lia)) as (o & l & Ha).
    destruct (ring_advance_spec 16 q o l Hi Ha) as (_ & _ & Ha').
    split; [by eapply adv_ok|split; [cbn; lia|by rewrite Ha, Ha']].
  - split_and!; [done| |done]. destruct Hi as (_ & _ & ? & _). lia.
Qed.

Lemma queue_client_spec c m :
  sendq_wf (send_queue c) -> sendable m ->
  exists q o, queue_client c m = Ret (set_send_queue q c) /\ sendq_wf q /\
    ring_abs q = ring_abs (make_room (send_queue c)) ++ [o] /\ msg o = m /\ bytes_sent o = 0.
Proof.
  intros Hw Hm. destruct (make_room_wf _ Hw) as ((Hi & Hs & Hz) & Hc & _).
  unfold queue_client. fold (make_room (send_queue c)). set (q := make_room _) in *.
  assert (0 <= r_head q < zlen (r_data q)) as Hh.
  { destruct Hi as (-> & ? & ? & ->). apply Z.mod_pos_bound. lia. }
  destruct (get_at_inside (r_data q) (r_head q) Hh) as (old & Hg & Hold). rewrite Hg.
  cbn [mbind outcome_bind].
  destruct (ring_put_spec 16 q (Outgoing m (wire_buf old) 0) Hi Hc) as (q' & Hput & Hi' & Ha' & _).
  pose proof Hput as Hput'. rewrite Hput. cbn [mbind outcome_bind].
  exists q', (Outgoing m (wire_buf old) 0). split_and!; [done| |done|done|done].
  split_and!; [done| |].
  - unfold ring_put in Hput'. peel Hput' as d Ed. injection Hput' as <-.
    apply set_at_Ret in Ed as [_ ->]. apply Forall_insert; [done|].
    apply slot_fresh; [done|]. rewrite Forall_forall in Hs. apply Hs. by eapply list_elem_of_lookup_2.
  - intros o l Ho. rewrite Ha' in Ho. destruct (ring_abs q) as [|o1 l1] eqn:Ha.
    + by injection Ho as <- <-.
    + injection Ho as <- <-. apply Forall_app. split; [by apply (Hz o1)|by constructor].
Qed.

(** ** One transmission *)

(** The loop sends a part of the rest; all of it exactly when it returns 1. *)
Lemma chunk_loop_spec script buf k :
  0 <= k <= zlen buf ->
  exists r off out, chunk_loop script buf k = (r, off, out) /\ k <= off <= zlen buf /\
    out ++ drop (Z.to_nat off) buf = drop (Z.to_nat k) buf /\
    (r = 1 \/ r = 0 \/ r = -1) /\ (r = 1 -> off = zlen buf) /\ (r <> 1 -> off < zlen buf).
Proof.
  revert k. induction script as [|ev script IH]; intros k Hk; cbn [chunk_loop];
    destruct (Z.ltb_spec k (zlen buf)).
  1, 2, 4: eexists _, _, _; split; [reflexivity|]; split_and!; try lia; try tauto.
  destruct ev as [j| |err].
  - set (sent := Z.max 1 (Z.min j (zlen buf - k))).
    destruct (IH (k + sent) ltac:(lia)) as (r & off & out & -> & Hoff & Hcut & Hr).
    eexists _, _, _. split; [reflexivity|]. split; [lia|]. split; [|done].
    rewrite <- app_assoc, Hcut.
    rewrite <- (take_drop (Z.to_nat sent) (drop (Z.to_nat k) buf)) at 2. f_equal.
    rewrite drop_drop. f_equal. lia.
  - eexists _, _, _; split; [reflexivity|]; split_and!; try lia; tauto.
  - destruct (err =? EINTR); [by apply IH|]. destruct (err =? EAGAIN);
      eexists _, _, _; (split; [reflexivity|]; split_and!; try lia; tauto).
Qed.

(** The frame in the transmit buffer. *)
Lemma assemble_wire o :
  slot_wf o -> bytes_sent o = 0 ->
  exists buf, (buf ← write_at (wire_buf o) 0 (header (msg o));
     payload ← read_at (message (msg o)) 0 (length_of (msg o));
     buf ← write_at buf HDR_SIZE payload;
     write_at buf (HDR_SIZE + length_of (msg o)) (checksum (msg o))) = Ret buf /\
    zlen buf = 2076 /\ take (length (wire (msg o))) buf = wire (msg o).
Proof.
  intros ([(Hh & _ & Hm & _ & Hc & _) Hl] & Hb & _) _. unfold HDR_SIZE, SUM_SIZE, MAX_PAYLOAD_SIZE in *.
  set (h := header (msg o)) in *. set (k := checksum (msg o)) in *. set (L := length_of (msg o)) in *.
  rewrite (write_at_cursor [] (wire_buf o)); [|done|lia]. cbn [mbind outcome_bind app].
  assert (read_at (message (msg o)) 0 L = Ret (take (Z.to_nat L) (message (msg o)))) as ->.
  { unfold read_at. destruct (Z.leb_spec 0 L), (Z.leb_spec (0 + L) (zlen (message (msg o)))); try lia.
    done. }
  cbn [mbind outcome_bind]. set (p := take (Z.to_nat L) (message (msg o))).
  assert (zlen p = L) as Hp by (unfold p; len).
  rewrite write_at_cursor; [|done|len]. cbn [mbind outcome_bind].
  rewrite write_at_cursor; [|len|len].
  eexists. split; [reflexivity|]. split; [len|]. unfold wire. fold h k L p.
  rewrite <- !app_assoc, (app_assoc p k), (app_assoc h (p ++ k)). apply take_app_length.
Qed.

(** What a transmission leaves of the head of the queue. *)
Definition sent_part (r : Z) (o o' : outgoing) (out : list Z) : Prop :=
  msg o' = msg o /\ slot_wf o' /\
  (r = 0 -> out ++ drop (Z.to_nat (bytes_sent o')) (wire (msg o))
            = drop (Z.to_nat (bytes_sent o)) (wire (msg o))) /\
  (r = 1 -> out = drop (Z.to_nat (bytes_sent o)) (wire (msg o))).

(** The transmit buffer holds the frame, and the loop sends from it. *)
Lemma chunk_buffer script o :
  slot_wf o ->
  exists buf r off out,
    (if bytes_sent o =? 0 then
       buf ← write_at (wire_buf o) 0 (header (msg o));
       payload ← read_at (message (msg o)) 0 (length_of (msg o));
       buf ← write_at buf HDR_SIZE payload;
       write_at buf (HDR_SIZE + length_of (msg o)) (checksum (msg o))
     else Ret (wire_buf o)) = Ret buf /\
    read_at buf 0 (HDR_SIZE + length_of (msg o) + SUM_SIZE) = Ret (wire (msg o)) /\
    chunk_loop script (wire (msg o)) (bytes_sent o) = (r, off, out) /\
    (r = 1 \/ r = 0 \/ r = -1) /\
    sent_part r o (Outgoing (msg o) buf (if r =? 0 then off else bytes_sent o)) out.
Proof.
  intros Hs. pose proof Hs as (Hm & Hb & Hk & Hbuf).
  assert (exists buf, (if bytes_sent o =? 0 then
       buf ← write_at (wire_buf o) 0 (header (msg o));
       payload ← read_at (message (msg o)) 0 (length_of (msg o));
       buf ← write_at buf HDR_SIZE payload;
       write_at buf (HDR_SIZE + length_of (msg o)) (checksum (msg o))
     else Ret (wire_buf o)) = Ret buf /\ zlen buf = 2076 /\
     take (length (wire (msg o))) buf = wire (msg o)) as (buf & Hbufeq & Hbl & Hbw).
  { destruct (Z.eqb_spec (bytes_sent o) 0) as [E|E]; [by apply assemble_wire|].
    exists (wire_buf o). split_and!; [done|done|by apply Hbuf]. }
  destruct (chunk_loop_spec script (wire (msg o)) (bytes_sent o) ltac:(lia))
    as (r & off & out & Hloop & Hoff & Hcut & Hr & Hr1 & Hr0).
  exists buf, r, off, out. pose proof (wire_length _ Hm) as Hwl.
  split_and!; [done| |done|done|].
  - unfold read_at. destruct Hm as [_ Hl]. unfold HDR_SIZE, SUM_SIZE, MAX_PAYLOAD_SIZE in *.
    destruct (Z.leb_spec 0 (24 + length_of (msg o) + 4)); [|lia].
    destruct (Z.leb_spec (0 + (24 + length_of (msg o) + 4)) (zlen buf)); [|lia]. cbn [andb Z.leb].
    f_equal. change (drop (Z.to_nat 0) buf) with buf. etransitivity; [|exact Hbw]. f_equal.
    unfold zlen in Hwl. lia.
  - split_and!; [done| | |]; cbn [msg wire_buf bytes_sent].
    + split_and!; cbn [msg wire_buf bytes_sent]; [done|done| | |done];
        destruct (Z.eqb_spec r 0); lia.
    + intros ->. done.
    + intros ->. rewrite <- Hcut, (Hr1 eq_refl), drop_ge by (unfold zlen; lia). by rewrite app_nil_r.
Qed.

(** The whole call on a queue with the messages [o :: l]. *)
Lemma chunk_spec script c o l :
  sendq_wf (send_queue c) -> ring_abs (send_queue c) = o :: l ->
  exists r q out o', send_message_chunk script c = Ret (r, set_send_queue q c, out) /\
    sendq_wf q /\ (r = 1 \/ r = 0 \/ r = -1) /\ sent_part r o o' out /\
    ring_abs q = (if r =? 1 then l else o' :: l).
Proof.
  intros Hw Ha. pose proof Hw as (Hi & Hs & Hz).
  destruct (ring_advance_spec 16 _ o l Hi Ha) as (Hget & _ & _).
  pose proof (ring_abs_slots _ _ Hs) as Hsl. rewrite Ha, Forall_cons in Hsl. destruct Hsl as [Ho Hl].
  destruct (chunk_buffer script o Ho) as (buf & r & off & out & Hbuf & Hread & Hloop & Hr & Hpart).
  set (o' := Outgoing _ _ _) in Hpart.
  destruct (ring_front_spec 16 _ o l o' Hi Ha) as (d & Hset & Hd & Hi' & Ha').
  set (q' := Ring d _ _ _) in Hi', Ha'.
  destruct (ring_advance_spec 16 q' o' l Hi' Ha') as (_ & Hi2 & Ha2).
  assert (Forall slot_wf (r_data q')) as Hs'.
  { unfold q'. rewrite Hd. apply Forall_insert; [done|]. apply Hpart. }
  exists r, (if r =? 1 then ring_advance 16 q' else q'), out, o'.
  split_and!; [| |done|done|by destruct (r =? 1)].
  - unfold send_message_chunk. destruct (Z.eqb_spec (r_count (send_queue c)) 0) as [E|E].
    { pose proof (ring_abs_length 16 _ Hi) as Hlen. rewrite Ha, zlen_cons in Hlen.
      pose proof (zlen_nonneg l). lia. }
    rewrite Hget. cbn [mbind outcome_bind].
    assert ((if 0 <=? length_of (msg o) then length_of (msg o) else 0) = length_of (msg o)) as ->.
    { destruct Ho as ([_ ?] & _). destruct (Z.leb_spec 0 (length_of (msg o))); lia. }
    unfold mbind, outcome_bind in Hbuf |- *. rewrite Hbuf, Hread, Hloop. fold o'. rewrite Hset.
    fold q'. by destruct (r =? 1).
  - specialize (Hz o l Ha). destruct (r =? 1).
    + split_and!; [done|done|]. intros o1 l1 E1. rewrite Ha2 in E1. rewrite E1 in Hz. by inversion Hz.
    + split_and!; [done|done|]. intros o1 l1 E1. rewrite Ha' in E1. by injection E1 as <- <-.
Qed.

(** ** Receiving *)

(** Repeated calls of [read_stage], one per readiness event, until one does
    not return 0. *)
Fixpoint read_calls (scripts : list (list rx_event)) (eof : bool) (stream : list Z) (c : client)
    : outcome (Z * client * list Z) :=
  match scripts with
  | [] => Ret (0, c, stream)
  | script :: scripts =>
      '(ret, c, stream) ← read_stage script eof stream c;
      if ret =? 0 then read_calls scripts eof stream c else Ret (ret, c, stream)
  end.

Section Reassembly.
Context (m m0 : message_control) (Hm : sendable m) (Hm0 : msg_wf m0).

Let L : nat := Z.to_nat (length_of m).

(** The receive struct after [k] bytes of the frame of [m], over [m0]. *)
Definition msg_at (k : nat) : message_control :=
  MessageControl (take k (header m) ++ drop k (header m0))
    (take (min (k - 24) L) (message m) ++ drop (min (k - 24) L) (message m0))
    (take (k - 24 - L) (checksum m) ++ drop (k - 24 - L) (checksum m0)).

Definition stage_at (k : nat) : read_stage_t :=
  if (k <? 24)%nat then READ_HEADER else if (k <? 24 + L)%nat then READ_PAYLOAD else READ_CHECKSUM.

(** The offset at which the current stage ends, and where it began. *)
Definition stage_end (k : nat) : nat :=
  if (k <? 24)%nat then 24 else if (k <? 24 + L)%nat then 24 + L else 28 + L.

Definition stage_begin (k : nat) : nat :=
  if (k <? 24)%nat then 0 else if (k <? 24 + L)%nat then 24 else 24 + L.

Definition rx_at (c : client) (k : nat) : client :=
  set_stage (stage_at k) (set_bytes_read (Z.of_nat (k - stage_begin k)) (set_c_message (msg_at k) c)).

Lemma frame_sizes :
  length (header m) = 24%nat /\ length (header m0) = 24%nat /\ length (message m) = 2048%nat /\
  length (message m0) = 2048%nat /\ length (checksum m) = 4%nat /\ length (checksum m0) = 4%nat /\
  (L <= 2048)%nat /\ Z.of_nat L = length_of m /\ length (wire m) = (28 + L)%nat.
Proof.
  pose proof (wire_length m Hm) as Hw.
  destruct Hm as [(H1 & _ & H2 & _ & H3 & _) Hl], Hm0 as (H4 & _ & H5 & _ & H6 & _).
  unfold HDR_SIZE, SUM_SIZE, MAX_PAYLOAD_SIZE, zlen, L in *. lia.
Qed.

Lemma header_received k : (24 <= k)%nat -> header (msg_at k) = header m.
Proof.
  intros Hk. destruct frame_sizes as (H1 & H2 & _). cbn [header msg_at].
  rewrite take_ge, drop_ge by lia. apply app_nil_r.
Qed.

Lemma length_received k : (24 <= k)%nat -> length_of (msg_at k) = length_of m.
Proof. intros Hk. unfold length_of. by rewrite header_received. Qed.

(** The pieces of the frame the stages take. *)
Lemma wire_piece k got :
  (k < 28 + L)%nat -> (k + got <= stage_end k)%nat ->
  take got (drop k (wire m)) =
    match stage_at k with
    | READ_HEADER => take got (drop k (header m))
    | READ_PAYLOAD => take got (drop (k - 24) (take L (message m)))
    | READ_CHECKSUM => take got (drop (k - 24 - L) (checksum m))
    end.
Proof.
  intros Hk He. destruct frame_sizes as (H1 & _ & H2 & _ & H3 & _ & HL & _).
  assert (length (take L (message m)) = L) as HtL by (rewrite length_take; lia).
  unfold stage_end, stage_at, wire in *. fold L.
  destruct (Nat.ltb_spec k 24); [|destruct (Nat.ltb_spec k (24 + L))].
  - rewrite drop_app_le by lia. rewrite take_app_le by (rewrite length_drop; lia). done.
  - rewrite drop_app_ge by lia. rewrite H1, drop_app_le by lia.
    rewrite take_app_le by (rewrite length_drop; lia). done.
  - rewrite drop_app_ge by lia. rewrite H1, drop_app_ge by lia. by rewrite HtL.
Qed.

(** Storing a piece moves the struct forward. *)
Lemma store_piece k got :
  (k < 28 + L)%nat -> (k + got <= stage_end k)%nat ->
  store_part (stage_at k) (msg_at k) (Z.of_nat (k - stage_begin k)) (take got (drop k (wire m)))
  = Ret (msg_at (k + got)).
Proof.
  intros Hk He. rewrite (wire_piece k got Hk He).
  destruct frame_sizes as (H1 & H2 & H3 & H4 & H5 & H6 & HL & _).
  unfold store_part, stage_at, stage_begin, stage_end, msg_at in *.
  destruct (Nat.ltb_spec k 24); [|destruct (Nat.ltb_spec k (24 + L))]; cbn [header message checksum].
  - rewrite Nat.sub_0_r, write_piece by lia. cbn [mbind outcome_bind].
    replace (k - 24)%nat with 0%nat by lia. replace (k + got - 24)%nat with 0%nat by lia. done.
  - replace (min (k - 24) L) with (k - 24)%nat by lia.
    replace (take (k - 24) (message m)) with (take (k - 24) (take L (message m)))
      by (rewrite take_take; f_equal; lia).
    rewrite write_piece by (rewrite ?length_take; lia). cbn [mbind outcome_bind].
    f_equal. f_equal.
    + by rewrite !take_ge, !drop_ge by lia.
    + rewrite take_take. f_equal; f_equal; lia.
    + replace (k - 24 - L)%nat with 0%nat by lia. replace (k + got - 24 - L)%nat with 0%nat by lia. done.
  - replace (k - (24 + L))%nat with (k - 24 - L)%nat by lia.
    rewrite write_piece by lia. cbn [mbind outcome_bind]. f_equal. f_equal.
    + by rewrite !take_ge, !drop_ge by lia.
    + f_equal; f_equal; lia.
    + f_equal; f_equal; lia.
Qed.

(** Sizes seen by the code at offset [k]. *)
Lemma stage_remaining k :
  (k < 28 + L)%nat ->
  stage_size (stage_at k) (msg_at k) = Z.of_nat (stage_end k - stage_begin k) /\
  u64 (stage_size (stage_at k) (msg_at k) - Z.of_nat (k - stage_begin k)) = Z.of_nat (stage_end k - k) /\
  (stage_begin k <= k < stage_end k)%nat /\ (stage_end k <= 28 + L)%nat.
Proof.
  intros Hk. destruct frame_sizes as (_ & _ & _ & _ & _ & _ & HL & HLz & _).
  assert (stage_size (stage_at k) (msg_at k) = Z.of_nat (stage_end k - stage_begin k)) as Hs.
  { unfold stage_size, stage_at, stage_end, stage_begin.
    destruct (Nat.ltb_spec k 24); [done|]. destruct (Nat.ltb_spec k (24 + L)).
    - rewrite length_received, <- HLz, wrap_small by lia. lia.
    - unfold SUM_SIZE. lia. }
  rewrite Hs. unfold stage_begin, stage_end.
  destruct (Nat.ltb_spec k 24); [|destruct (Nat.ltb_spec k (24 + L))];
    (split_and!; [done|rewrite wrap_small; lia|lia..]).
Qed.

(** The struct when the last byte is in, and its verdict. *)
Definition received : message_control := msg_at (28 + L).

Lemma received_fields :
  header received = header m /\ take L (message received) = take L (message m) /\
  checksum received = checksum m.
Proof.
  destruct frame_sizes as (H1 & H2 & H3 & H4 & H5 & H6 & HL & _).
  split_and!; [by apply header_received; lia| |]; unfold received; cbn [message checksum msg_at].
  - replace (min (28 + L - 24) L) with L by lia.
    rewrite take_app_le by (rewrite length_take; lia). rewrite take_take. f_equal. lia.
  - rewrite take_ge, drop_ge by lia. apply app_nil_r.
Qed.

Lemma received_summed : summed received = summed m.
Proof.
  destruct received_fields as (Hh & Hb & _). destruct Hm as [_ Hl].
  unfold summed. assert (length_of received = length_of m) as E by (unfold length_of; by rewrite Hh).
  rewrite Hh, E. f_equal. rewrite Z.min_l by lia. exact Hb.
Qed.

Lemma received_verdict : checksum_ok received = checksum_ok m.
Proof.
  unfold checksum_ok, calculate_checksum. destruct received_fields as (_ & _ & Hc).
  by rewrite received_summed, Hc.
Qed.

(** The client after a complete frame. *)
Definition after_frame (c : client) (ok : bool) : client :=
  let c := set_stage READ_HEADER (set_bytes_read 0 (set_c_message received c)) in
  if ok then set_packet_received (u64 (packet_received c + 1)) (set_pending_task (pending_task c + 1) c)
  else c.

Lemma same_stage k k' :
  (k <= k' < stage_end k)%nat -> stage_at k' = stage_at k /\ stage_begin k' = stage_begin k.
Proof.
  unfold stage_end, stage_at, stage_begin. intros Hk.
  destruct (Nat.ltb_spec k 24); [|destruct (Nat.ltb_spec k (24 + L))];
    destruct (Nat.ltb_spec k' 24), (Nat.ltb_spec k' (24 + L)); (done || lia).
Qed.

(** One answered [recv] inside the frame. *)
Lemma read_stage_piece c ok j script eof rest k :
  (k < 28 + L)%nat -> pending_close c = false -> checksum_ok m = Ret ok ->
  exists k', (k < k' <= 28 + L)%nat /\
    read_stage (RxChunk j :: script) eof (drop k (wire m) ++ rest) (rx_at c k)
    = (if (k' =? 28 + L)%nat then Ret (if ok then 1 else 2, after_frame c ok, rest)
       else if (k' <? stage_end k)%nat then Ret (0, rx_at c k', drop k' (wire m) ++ rest)
       else read_stage script eof (drop k' (wire m) ++ rest) (rx_at c k')).
Proof.
  intros Hk Hpc Hok.
  destruct (stage_remaining k Hk) as (Hsize & Hrem & [Hb He] & He2).
  destruct frame_sizes as (_ & _ & _ & _ & _ & _ & HL & HLz & Hwl).
  destruct (recv_piece (wire m) rest j eof k (Z.of_nat (stage_end k - k)))
    as (got & b & bs & Hg & Hgr & Hbs & Hbl & Hrecv); [lia|lia|lia|].
  exists (k + got)%nat. split; [lia|]. cbn [read_stage].
  change (pending_close (rx_at c k)) with (pending_close c). rewrite Hpc.
  change (stage (rx_at c k)) with (stage_at k). change (c_message (rx_at c k)) with (msg_at k).
  change (bytes_read (rx_at c k)) with (Z.of_nat (k - stage_begin k)).
  rewrite Hrem. unfold recv_part. rewrite Hrecv. cbv iota beta. rewrite Hbl, Hbs.
  rewrite store_piece by lia. cbn [mbind outcome_bind].
  replace (Z.of_nat (k - stage_begin k) + Z.of_nat got) with (Z.of_nat (k + got - stage_begin k)) by lia.
  rewrite Hsize.
  set (c1 := set_bytes_read _ _).
  change (bytes_read c1) with (Z.of_nat (k + got - stage_begin k)).
  change (stage c1) with (stage_at k).
  assert (k + got <= stage_end k)%nat as Hle by lia.
  destruct (Z.ltb_spec (Z.of_nat (k + got - stage_begin k)) (Z.of_nat (stage_end k - stage_begin k))).
  { destruct (Nat.eqb_spec (k + got) (28 + L)); [lia|].
    destruct (Nat.ltb_spec (k + got) (stage_end k)); [|lia].
    destruct (same_stage k (k + got) ltac:(lia)) as [Hs1 Hs2].
    unfold c1, rx_at. by rewrite Hs1, Hs2. }
  assert (k + got = stage_end k)%nat as Hend by lia. clear Hle.
  destruct (Nat.ltb_spec (k + got) (stage_end k)); [lia|].
  unfold c1. clear c1. rewrite Hend. clear Hbs Hbl Hrecv Hsize Hrem.
  unfold stage_at, stage_end in *.
  destruct (Nat.ltb_spec k 24); [|destruct (Nat.ltb_spec k (24 + L))].
  - destruct (Nat.eqb_spec 24 (28 + L)); [lia|]. rewrite length_received by lia.
    destruct Hm as [_ Hl]. destruct (Z.ltb_spec (length_of m) 0); [lia|].
    destruct (Z.ltb_spec MAX_PAYLOAD_SIZE (length_of m)); [lia|]. cbn [orb].
    assert (rx_at c 24 = set_stage (if length_of m =? 0 then READ_CHECKSUM else READ_PAYLOAD)
      (set_bytes_read 0 (set_c_message (msg_at 24) c))) as Hrx.
    { unfold rx_at, stage_at, stage_begin. destruct (Nat.ltb_spec 24 24); [lia|].
      destruct (Nat.ltb_spec 24 (24 + L)), (Z.eqb_spec (length_of m) 0); try lia; [done|].
      replace (24 - (24 + L))%nat with 0%nat by lia. done. }
    rewrite Hrx. done.
  - destruct (Nat.eqb_spec (24 + L) (28 + L)); [lia|].
    assert (rx_at c (24 + L) = set_stage READ_CHECKSUM
      (set_bytes_read 0 (set_c_message (msg_at (24 + L)) c))) as Hrx.
    { unfold rx_at, stage_at, stage_begin. destruct (Nat.ltb_spec (24 + L) 24); [lia|].
      destruct (Nat.ltb_spec (24 + L) (24 + L)); [lia|]. by rewrite Nat.sub_diag. }
    rewrite Hrx. done.
  - rewrite Nat.eqb_refl. rewrite drop_ge by lia. change (msg_at (28 + L)) with received.
    rewrite received_verdict, Hok. cbn [mbind outcome_bind]. by destruct ok.
Qed.

(** One call inside the frame: it stops further on, or completes the frame. *)
Lemma read_stage_call c ok script eof rest k :
  reading script -> (k < 28 + L)%nat -> pending_close c = false -> checksum_ok m = Ret ok ->
  (exists k', (k <= k' < 28 + L)%nat /\ (0 < nchunks script -> k < k')%nat /\
     read_stage script eof (drop k (wire m) ++ rest) (rx_at c k)
     = Ret (0, rx_at c k', drop k' (wire m) ++ rest)) \/
  read_stage script eof (drop k (wire m) ++ rest) (rx_at c k)
  = Ret (if ok then 1 else 2, after_frame c ok, rest).
Proof.
  intros Hr Hk Hpc Hok. revert k Hk. induction Hr as [|ev script Hev Hr IH]; intros k Hk;
    [|destruct Hev as [(j & ->)|Hev]; [|subst ev]].
  - left. exists k. split; [lia|]. split; [cbn; lia|]. cbn [read_stage].
    change (pending_close (rx_at c k)) with (pending_close c). by rewrite Hpc.
  - destruct (read_stage_piece c ok j script eof rest k Hk Hpc Hok) as (k' & Hk' & ->).
    destruct (Nat.eqb_spec k' (28 + L)); [by right|]. destruct (Nat.ltb_spec k' (stage_end k)).
    + left. exists k'. split; [lia|]. split; [lia|done].
    + destruct (IH k' ltac:(lia)) as [(k2 & Hk2 & _ & E)|E]; rewrite E; [|by right].
      left. exists k2. split; [lia|]. split; [lia|done].
  - cbn [read_stage]. change (pending_close (rx_at c k)) with (pending_close c). rewrite Hpc.
    change (nchunks (RxErr EINTR :: script)) with (nchunks script). by apply IH.
Qed.

(** Enough calls, each of which gets at least one answer from the socket. *)
Lemma read_calls_frame c ok scripts eof rest k :
  Forall (fun script => reading script /\ (0 < nchunks script)%nat) scripts ->
  (k < 28 + L)%nat -> (28 + L - k <= length scripts)%nat ->
  pending_close c = false -> checksum_ok m = Ret ok ->
  read_calls scripts eof (drop k (wire m) ++ rest) (rx_at c k)
  = Ret (if ok then 1 else 2, after_frame c ok, rest).
Proof.
  intros Hs Hk Hn Hpc Hok. revert k Hk Hn.
  induction Hs as [|script scripts [Hr Hc] _ IH]; intros k Hk Hn; [cbn in Hn; lia|].
  cbn [read_calls length] in *.
  destruct (read_stage_call c ok script eof rest k Hr Hk Hpc Hok) as [(k' & Hk' & Hlt & E)|E]; rewrite E;
    cbn [mbind outcome_bind].
  - change (0 =? 0) with true. cbv iota. apply IH; lia.
  - by destruct ok.
Qed.

Lemma received_wf : msg_wf received.
Proof.
  destruct received_fields as (Hh & _ & Hc).
  destruct frame_sizes as (H1 & H2 & H3 & H4 & H5 & H6 & HL & _).
  destruct Hm as [(W1 & W2 & W3 & W4 & W5 & W6) _], Hm0 as (_ & _ & V3 & V4 & _).
  split_and!; rewrite ?Hh, ?Hc; [done|done| | |done|done]; unfold received; cbn [message msg_at].
  - unfold zlen in *. rewrite length_app, length_take, length_drop. lia.
  - apply bytes_app. split; [by apply Forall_take|by apply Forall_drop].
Qed.

End Reassembly.

(** Between two frames. *)
Definition at_boundary (c : client) : Prop :=
  stage c = READ_HEADER /\ bytes_read c = 0 /\ pending_close c = false /\ msg_wf (c_message c).

Lemma rx_at_start m c : at_boundary c -> rx_at m (c_message c) c 0 = c.
Proof.
  intros (Hs & Hb & _ & _). unfold rx_at, stage_at, stage_begin, msg_at.
  change ((0 <? 24)%nat) with true. cbv iota. cbn [Nat.sub Nat.min take drop app].
  destruct c as [? ? ? ? ? ? [? ? ?]]. cbn in *. by subst.
Qed.

(** Frames are reassembled from any pieces.  Over any number of readiness
    events, with the socket delivering the bytes in pieces of any size and
    calls interrupted, the state machine consumes exactly one frame, leaves what
    follows in the stream, and reports 1 with the sender's header, payload and
    one more pending task if the checksum verifies, 2 with nothing counted if it
    does not; the connection is then ready for the next frame. *)
Theorem frame_reassembled m c ok scripts eof rest :
  sendable m -> checksum_ok m = Ret ok -> at_boundary c ->
  Forall (fun script => reading script /\ (0 < nchunks script)%nat) scripts ->
  (length (wire m) <= length scripts)%nat ->
  exists c', read_calls scripts eof (wire m ++ rest) c = Ret (if ok then 1 else 2, c', rest) /\
    at_boundary c' /\ header (c_message c') = header m /\
    take (Z.to_nat (length_of m)) (message (c_message c'))
    = take (Z.to_nat (length_of m)) (message m) /\
    pending_task c' = pending_task c + (if ok then 1 else 0) /\
    fd c' = fd c /\ generation c' = generation c /\ send_queue c' = send_queue c.
Proof.
  intros Hm Hok Hc Hs Hn. pose proof Hc as (Hst & Hb & Hpc & Hwf).
  destruct (frame_sizes m (c_message c) Hm Hwf) as (_ & _ & _ & _ & _ & _ & _ & _ & Hwl).
  pose proof (read_calls_frame m (c_message c) Hm Hwf c ok scripts eof rest 0 Hs) as Hrun.
  rewrite rx_at_start in Hrun by done. change (drop 0 (wire m)) with (wire m) in Hrun.
  rewrite Hrun by (done || lia).
  destruct (received_fields m (c_message c) Hm Hwf) as (Hh & Hp & _).
  pose proof (received_wf m (c_message c) Hm Hwf) as Hrw.
  exists (after_frame m (c_message c) c ok). split; [done|]. unfold after_frame.
  destruct ok; (split; [by split_and!|]); cbn; rewrite ?Z.add_0_r; split_and!; done.
Qed.

Lemma frame_reassembled_witness :
  exists c', read_calls (replicate 32 [RxErr EINTR; RxChunk 3]) false (wire ping ++ [9; 9]) zero_client
      = Ret (1, c', [9; 9]) /\
    at_boundary c' /\ header (c_message c') = header ping /\
    take (Z.to_nat (length_of ping)) (message (c_message c'))
    = take (Z.to_nat (length_of ping)) (message ping) /\
    pending_task c' = 0 + 1 /\
    fd c' = 0 /\ generation c' = 0 /\ send_queue c' = zero_send_queue.
Proof.
  apply (frame_reassembled ping zero_client true (replicate 32 [RxErr EINTR; RxChunk 3]) false [9; 9]).
  - split; [apply (bool_decide_unpack _); by vm_compute|by vm_compute].
  - by vm_compute.
  - split_and!; [done|done|done|]. apply (bool_decide_unpack _). by vm_compute.
  - apply Forall_replicate. split; [|cbn; lia].
    apply Forall_cons. split; [by right|]. apply Forall_singleton. left. by exists 3.
  - by vm_compute.
Defined.

(** ** Transmission over a run *)

(** What happens to a connection's send queue: replies are queued while there
    is room, and the I/O thread transmits, without a failing socket. *)
Inductive tx_steps : client -> list message_control -> list Z -> client -> Prop :=
| tx_done c : tx_steps c [] [] c
| tx_queue c m c1 ms out c2 :
    r_count (send_queue c) < 16 -> sendable m -> queue_client c m = Ret c1 ->
    tx_steps c1 ms out c2 -> tx_steps c (m :: ms) out c2
| tx_chunk c script r c1 w ms out c2 :
    send_message_chunk script c = Ret (r, c1, w) -> r <> -1 ->
    tx_steps c1 ms out c2 -> tx_steps c ms (w ++ out) c2.

Lemma owed_queue c m c1 :
  sendq_wf (send_queue c) -> r_count (send_queue c) < 16 -> sendable m ->
  queue_client c m = Ret c1 ->
  sendq_wf (send_queue c1) /\ owed (send_queue c1) = owed (send_queue c) ++ wire m.
Proof.
  intros Hw Hc Hm H. destruct (queue_client_spec c m Hw Hm) as (q & o & E & Hq & Ha & Ho & Hb).
  rewrite E in H. injection H as <-. split; [done|]. cbn [send_queue set_send_queue]. unfold owed.
  rewrite Ha, flat_map_app. unfold make_room. destruct (Z.eqb_spec (r_count (send_queue c)) 16); [lia|].
  f_equal. cbn [flat_map]. by rewrite Hb, Ho, app_nil_r.
Qed.

Lemma owed_chunk script c r c1 w :
  sendq_wf (send_queue c) -> send_message_chunk script c = Ret (r, c1, w) -> r <> -1 ->
  sendq_wf (send_queue c1) /\ w ++ owed (send_queue c1) = owed (send_queue c).
Proof.
  intros Hw H Hr. destruct (ring_abs (send_queue c)) as [|o l] eqn:Ha.
  - pose proof Hw as (Hi & _). pose proof (ring_abs_length 16 _ Hi) as Hl. rewrite Ha, zlen_nil in Hl.
    unfold send_message_chunk in H. rewrite <- Hl in H. change (0 =? 0) with true in H. cbv iota in H.
    by injection H as <- <- <-.
  - destruct (chunk_spec script c o l Hw Ha) as (r' & q & out & o' & E & Hq & Hr' & Hp & Haq).
    rewrite E in H. injection H as <- <- <-. split; [done|]. cbn [send_queue set_send_queue].
    unfold owed. rewrite Ha, Haq. destruct Hp as (Hm & _ & H0 & H1). cbn [flat_map].
    destruct (Z.eqb_spec r' 1) as [->|].
    + by rewrite <- (H1 eq_refl).
    + assert (r' = 0) as -> by lia. cbn [flat_map]. rewrite Hm, app_assoc. by rewrite (H0 eq_refl).
Qed.

Lemma tx_steps_owed c ms out c' :
  sendq_wf (send_queue c) -> tx_steps c ms out c' ->
  sendq_wf (send_queue c') /\
  out ++ owed (send_queue c') = owed (send_queue c) ++ flat_map wire ms.
Proof.
  intros Hw Hs. induction Hs as [c|c m c1 ms out c2 Hc Hm E _ IH|c script r c1 w ms out c2 E Hr _ IH].
  - split; [done|]. by rewrite app_nil_r.
  - destruct (owed_queue c m c1 Hw Hc Hm E) as [Hw1 Ho]. destruct (IH Hw1) as [? ->].
    split; [done|]. cbn [flat_map]. by rewrite Ho, <- app_assoc.
  - destruct (owed_chunk script c r c1 w Hw E Hr) as [Hw1 Ho]. destruct (IH Hw1) as [? IH'].
    split; [done|]. by rewrite <- app_assoc, IH', app_assoc, Ho.
Qed.

(** Replies go out whole, once and in order.  Over any sequence of replies
    queued while there is room and transmissions however the socket splits them,
    the bytes on the wire followed by those still owed are exactly the frames
    owed at the start followed by the frames of the queued replies. *)
Theorem frames_in_order c ms out c' :
  sendq_wf (send_queue c) -> tx_steps c ms out c' ->
  sendq_wf (send_queue c') /\
  out ++ owed (send_queue c') = owed (send_queue c) ++ flat_map wire ms.
Proof. apply tx_steps_owed. Qed.

Lemma zero_queue_wf : sendq_wf zero_send_queue.
Proof.
  split_and!; [split_and!; done| |done]. apply Forall_replicate.
  split_and!; [split; [apply (bool_decide_unpack _)|]|..]; by vm_compute.
Qed.

Lemma ping_sendable : sendable ping.
Proof. split; [apply (bool_decide_unpack _); by vm_compute|by vm_compute]. Qed.

Lemma frames_in_order_witness :
  exists out c', tx_steps zero_client [ping] out c' /\
    sendq_wf (send_queue c') /\ out ++ owed (send_queue c') = [] ++ flat_map wire [ping].
Proof.
  destruct (queue_client_spec zero_client ping zero_queue_wf ping_sendable)
    as (q & o & E & Hq & Ha & _).
  destruct (chunk_spec [TxAccept 7; TxErr EAGAIN] (set_send_queue q zero_client) o [] Hq Ha)
    as (r & q2 & w & o' & E2 & _ & _).
  destruct (decide (r = -1)) as [Hr|Hr].
  - exists [], (set_send_queue q zero_client).
    assert (tx_steps zero_client [ping] [] (set_send_queue q zero_client)) as Hs.
    { apply (tx_queue _ _ (set_send_queue q zero_client)); [done|apply ping_sendable|exact E|].
      apply tx_done. }
    split; [exact Hs|]. exact (frames_in_order zero_client _ _ _ zero_queue_wf Hs).
  - exists (w ++ []), (set_send_queue q2 (set_send_queue q zero_client)).
    assert (tx_steps zero_client [ping] (w ++ []) (set_send_queue q2 (set_send_queue q zero_client))) as Hs.
    { apply (tx_queue _ _ (set_send_queue q zero_client)); [done|apply ping_sendable|exact E|].
      apply (tx_chunk _ _ _ _ _ _ _ _ E2 Hr). apply tx_done. }
    split; [exact Hs|]. exact (frames_in_order zero_client _ _ _ zero_queue_wf Hs).
Defined.

(** ** Defects *)

(** A full send queue tears a frame apart.  When sixteen replies are waiting
    and the oldest has been sent in part, one more reply drops it: the rest of
    its bytes is never sent, and the next byte on the wire is the first of the
    following frame. *)
Theorem full_queue_tears_frame c m o l :
  sendq_wf (send_queue c) -> sendable m -> r_count (send_queue c) = 16 ->
  ring_abs (send_queue c) = o :: l -> 0 < bytes_sent o ->
  exists c', queue_client c m = Ret c' /\
    owed (send_queue c) = drop (Z.to_nat (bytes_sent o)) (wire (msg o)) ++ flat_map wire (msg <$> l) /\
    drop (Z.to_nat (bytes_sent o)) (wire (msg o)) <> [] /\
    owed (send_queue c') = flat_map wire (msg <$> l) ++ wire m.
Proof.
  intros Hw Hm Hc Ha Hpos. destruct (queue_client_spec c m Hw Hm) as (q & o' & E & Hq & Haq & Ho & Hb).
  exists (set_send_queue q c). split; [done|]. cbn [send_queue set_send_queue].
  destruct (make_room_wf _ Hw) as (_ & _ & Hroom). rewrite Hc, Ha in Hroom. cbn in Hroom.
  pose proof Hw as (_ & Hs & Hz). specialize (Hz o l Ha).
  pose proof (ring_abs_slots _ _ Hs) as Hsl. rewrite Ha, Forall_cons in Hsl.
  destruct Hsl as [(_ & _ & Hb1 & _) _].
  assert (flat_map (fun o => drop (Z.to_nat (bytes_sent o)) (wire (msg o))) l
    = flat_map wire (msg <$> l)) as Hl.
  { clear -Hz. induction Hz as [|o l Ho _ IH]; [done|]. cbn [flat_map fmap list_fmap].
    by rewrite Ho, IH. }
  split_and!.
  - unfold owed. rewrite Ha. cbn [flat_map]. by rewrite Hl.
  - intros E0. apply (f_equal length) in E0. rewrite length_drop in E0. unfold zlen in Hb1. cbn in E0. lia.
  - unfold owed. rewrite Haq, Hroom, flat_map_app, Hl. f_equal. cbn [flat_map].
    by rewrite Hb, Ho, app_nil_r.
Qed.

(** Sixteen messages waiting, the first sent up to its fifth byte. *)
Definition torn_slot : outgoing := Outgoing ping (wire ping ++ replicate 2044 0) 5.
Definition waiting_slot : outgoing := Outgoing ping (replicate 2076 0) 0.

Definition full_queue : ring outgoing := Ring (torn_slot :: replicate 15 waiting_slot) 0 0 16.

Lemma full_queue_wf : sendq_wf full_queue.
Proof.
  split_and!; [split_and!; done| |].
  - apply Forall_cons. split; [|apply Forall_replicate];
      (split_and!; [apply ping_sendable|by vm_compute..|by intros; vm_compute]).
  - intros o l [= _ <-]. by repeat constructor.
Qed.

Lemma full_queue_tears_frame_witness :
  exists c', queue_client (set_send_queue full_queue zero_client) pang = Ret c' /\
    owed full_queue = drop (Z.to_nat 5) (wire ping) ++ flat_map wire (replicate 15 ping) /\
    drop (Z.to_nat 5) (wire ping) <> [] /\
    owed (send_queue c') = flat_map wire (replicate 15 ping) ++ wire pang.
Proof.
  apply (full_queue_tears_frame (set_send_queue full_queue zero_client) pang
    torn_slot (replicate 15 waiting_slot));
    [exact full_queue_wf| |reflexivity|reflexivity|reflexivity].
  split; [apply (bool_decide_unpack _); by vm_compute|by vm_compute].
Defined.

(** A priority outside the enum crashes the daemon: a verified frame with
    such a priority makes [handle_client_readable] pass a NULL queue, which
    [try_enqueue_task] dereferences. *)
Theorem unknown_priority_crash sv i c events inp c' stream :
  clients sv !! Z.to_nat i = Some c -> 0 <= i -> fd c = i -> connected c = true ->
  events .& EPOLLIN <> 0 -> shutdown sv = false ->
  read_stage (in_script inp) (in_eof inp) (in_stream inp) c = Ret (1, c', stream) ->
  pri (c_message c') <> LOW -> pri (c_message c') <> MEDIUM -> pri (c_message c') <> HIGH ->
  client_readable sv i events inp = Undef.
Proof.
  intros Hc Hi Hfd Hcon Hev Hsh Hread Hl Hm Hh. unfold client_readable, get_at.
  destruct (Z.ltb_spec i 0); [lia|]. rewrite Hc. cbn [deref mbind outcome_bind].
  rewrite Hcon, Hfd, Z.eqb_refl. cbn [negb orb]. destruct (Z.eqb_spec (events .& EPOLLIN) 0); [done|].
  rewrite Hread. cbn [mbind outcome_bind]. change (1 =? 2) with false. change (1 =? 1) with true. cbv iota.
  unfold submit, try_enqueue_task. rewrite Hsh. unfold queue_of.
  destruct (Z.eqb_spec (pri (c_message c')) HIGH), (Z.eqb_spec (pri (c_message c')) MEDIUM),
    (Z.eqb_spec (pri (c_message c')) LOW); (congruence || reflexivity).
Qed.

(** A frame with priority 3, and the server and client that receive it. *)
Definition odd_frame : list Z :=
  match build_message (bstr "x") GET_STATUS 3 7 with Ret m => wire m | Undef => [] end.

Definition live_client : client := set_fd 5 (set_connected true zero_client).

Definition live_server : server :=
  set_clients (<[5%nat := live_client]> (clients init_server)) init_server.

Definition odd_input : input := Input [RxChunk 99; RxChunk 99; RxChunk 99] false odd_frame.

Definition odd_client : client :=
  match read_stage (in_script odd_input) (in_eof odd_input) (in_stream odd_input) live_client with
  | Ret (_, c, _) => c
  | Undef => zero_client
  end.

Lemma unknown_priority_crash_witness : client_readable live_server 5 EPOLLIN odd_input = Undef.
Proof.
  apply (unknown_priority_crash live_server 5 live_client EPOLLIN odd_input odd_client []);
    [reflexivity|lia|reflexivity|reflexivity|by vm_compute|reflexivity|vm_compute; reflexivity
    |by vm_compute|by vm_compute|by vm_compute].
Defined.

(** One readiness event, at most one frame.  However much has arrived, the
    handling of one EPOLLIN event stops at the end of the first frame at the
    latest and leaves everything behind it unread.  The descriptors are
    registered edge-triggered, so those bytes wait until more arrive. *)
Theorem one_frame_per_event sv i c m ok script eof rest sv' stream :
  clients sv !! Z.to_nat i = Some c -> at_boundary c -> sendable m -> checksum_ok m = Ret ok ->
  reading script ->
  client_readable sv i EPOLLIN (Input script eof (wire m ++ rest)) = Ret (sv', stream) ->
  exists unread, stream = unread ++ rest.
Proof.
  intros Hc Hb Hm Hok Hr H. unfold client_readable in H. peel H as c0 E.
  apply get_at_Ret in E as [_ E]. rewrite Hc in E. injection E as <-.
  destruct (_ || _)%bool; [injection H as _ <-; by exists (wire m)|].
  change (EPOLLIN .& EPOLLIN =? 0) with false in H. cbv iota in H. cbn [in_script in_eof in_stream] in H.
  peel H as [[r c1] st] E. pose proof Hb as (_ & _ & Hpc & Hwf).
  pose proof (read_stage_call m (c_message c) Hm Hwf c ok script eof rest 0 Hr) as Hcall.
  rewrite rx_at_start in Hcall by done. change (drop 0 (wire m)) with (wire m) in Hcall.
  assert (exists unread, st = unread ++ rest) as Hst.
  { destruct (Hcall ltac:(lia) Hpc Hok) as [(k & _ & _ & E')|E']; rewrite E in E';
      injection E' as _ _ ->; [by eexists|by exists []]. }
  destruct (r =? 2); [|destruct (r =? 1)].
  - peel H as n ?. peel H as c2 ?. peel H as sv1 ?. by injection H as _ <-.
  - peel H as sv1 ?. by injection H as _ <-.
  - peel H as sv1 ?. by injection H as _ <-.
Qed.

Lemma one_frame_per_event_witness :
  exists sv' stream, client_readable live_server 5 EPOLLIN
      (Input [RxChunk 99; RxChunk 99; RxChunk 99; RxChunk 99] false (wire ping ++ wire ping))
      = Ret (sv', stream) /\ exists unread, stream = unread ++ wire ping.
Proof.
  destruct (client_readable live_server 5 EPOLLIN
    (Input [RxChunk 99; RxChunk 99; RxChunk 99; RxChunk 99] false (wire ping ++ wire ping)))
    as [[sv' stream]|] eqn:E; [|exfalso].
  - exists sv', stream. split; [reflexivity|].
    apply (one_frame_per_event live_server 5 live_client ping true
      [RxChunk 99; RxChunk 99; RxChunk 99; RxChunk 99] false (wire ping) sv' stream);
      [reflexivity| |exact ping_sendable|by vm_compute| |exact E].
    + split_and!; [done|done|done|]. apply (bool_decide_unpack _). by vm_compute.
    + repeat (apply Forall_cons; split; [left; by exists 99|]). apply Forall_nil_2.
  - assert (match client_readable live_server 5 EPOLLIN
      (Input [RxChunk 99; RxChunk 99; RxChunk 99; RxChunk 99] false (wire ping ++ wire ping)) with
      Ret _ => true | Undef => false end = true) as Hd by (vm_compute; reflexivity).
    rewrite E in Hd. discriminate Hd.
Defined.

End DaemonIo.
