(* ===== verification/DaemonSess.v ===== *)
(** * The session table of the control plane daemon

    [session_lookup_or_create] as a registry: a finite map from tokens to
    client ids that only grows, on the table of 256 slots the code keeps. *)
From S2P Require Import Prelude Socket Fifo Ring Framing Gatewayd DaemonInv.
Import Framing Gatewayd DaemonInv.
Open Scope c_scope.

Module DaemonSess.

(** The text [strncmp] compares. *)
Definition key (tok : list Z) : list Z := c_string (take (Z.to_nat SESSION_TOKEN_LEN) tok).

Definition entry (s : client_session) : option (list Z * Z) :=
  if in_use s then Some (key (token s), client_id s) else None.

Definition entries (ss : list client_session) : list (list Z * Z) := omap entry ss.

(** Which id a token has. *)
Definition registry (tb : session_table) : gmap (list Z) Z := list_to_map (entries (sessions tb)).

Record table_ok (tb : session_table) : Prop := {
  ok_size : zlen (sessions tb) = MAX_SESSIONS;
  ok_tokens : NoDup (entries (sessions tb)).*1;
  ok_ids : NoDup (entries (sessions tb)).*2;
  ok_range : Forall (fun id => 0 < id <= next_persistent_id tb) (entries (sessions tb)).*2;
  ok_count : next_persistent_id tb = zlen (entries (sessions tb)) }.

Lemma omap_fmap_id {A B} (f : A -> option B) (l : list A) : omap f l = omap id (f <$> l).
Proof. induction l as [|x l IH]; [done|]. cbn. by rewrite IH. Qed.

(** Rewriting a slot without changing what it says. *)
Lemma entries_same ss i t t' :
  ss !! i = Some t -> entry t' = entry t -> entries (<[i := t']> ss) = entries ss.
Proof.
  intros Hi He. unfold entries. rewrite (omap_fmap_id entry (<[i:=t']> ss)), (omap_fmap_id entry ss).
  rewrite list_fmap_insert, He, list_insert_id; [done|]. by rewrite list_lookup_fmap, Hi.
Qed.

Lemma entries_cons s ss :
  entries (s :: ss) = match entry s with Some x => x :: entries ss | None => entries ss end.
Proof. reflexivity. Qed.

(** Filling a free slot. *)
Lemma entries_fill ss i t t' x :
  ss !! i = Some t -> entry t = None -> entry t' = Some x ->
  entries (<[i := t']> ss) ≡ₚ x :: entries ss.
Proof.
  revert i. induction ss as [|s ss IH]; intros [|i] Hi Hn Hx; [done..| |].
  - injection Hi as ->. change (<[0%nat:=t']> (t :: ss)) with (t' :: ss).
    by rewrite !entries_cons, Hx, Hn.
  - change (<[S i:=t']> (s :: ss)) with (s :: <[i:=t']> ss). rewrite !entries_cons.
    destruct (entry s) as [y|]; [|by apply IH]. rewrite (IH i) by done. apply Permutation_swap.
Qed.

Lemma entries_length ss : zlen (entries ss) <= zlen ss.
Proof.
  induction ss as [|s ss IH]; [done|]. rewrite entries_cons. destruct (entry s); len.
Qed.

Lemma entries_room ss i t :
  ss !! i = Some t -> entry t = None -> zlen (entries ss) < zlen ss.
Proof.
  revert i. induction ss as [|s ss IH]; intros [|i] Hi Hn; [done..| |]; rewrite entries_cons.
  - injection Hi as ->. rewrite Hn. pose proof (entries_length ss). len.
  - pose proof (IH i Hi Hn). destruct (entry s); len.
Qed.

(** What the loop over the table finds. *)
Lemma session_scan_spec ss i free tok :
  match session_scan ss i free tok with
  | inl j => exists t, (i <= j)%nat /\ ss !! (j - i)%nat = Some t /\
      entry t = Some (key tok, client_id t)
  | inr f =>
      Forall (fun t => forall id, entry t <> Some (key tok, id)) ss /\
      match free with
      | Some j => f = Some j
      | None => match f with
                | Some j => exists t, (i <= j)%nat /\ ss !! (j - i)%nat = Some t /\ entry t = None
                | None => Forall (fun t => entry t <> None) ss
                end
      end
  end.
Proof.
  revert i free. induction ss as [|s ss IH]; intros i free; cbn [session_scan].
  { split; [constructor|]. destruct free; [done|constructor]. }
  destruct (in_use s) eqn:Hs; cbn [negb].
  - unfold strncmp_eq. case_bool_decide as Hk.
    + exists s. rewrite Nat.sub_diag. unfold entry, key. rewrite Hs, Hk. split_and!; done.
    + specialize (IH (S i) free). destruct (session_scan ss (S i) free tok) as [j|f].
      * destruct IH as (t & Hle & Ht & He). exists t. split_and!; [lia| |done].
        by replace (j - i)%nat with (S (j - S i)) by lia.
      * destruct IH as [Hn Hf]. split.
        { constructor; [|done]. intros id. unfold entry, key. rewrite Hs. intros [= E _]. done. }
        destruct free; [done|]. destruct f as [j|].
        -- destruct Hf as (t & Hle & Ht & He). exists t. split_and!; [lia| |done].
           by replace (j - i)%nat with (S (j - S i)) by lia.
        -- constructor; [|done]. unfold entry. by rewrite Hs.
  - assert (entry s = None) as He by (unfold entry; by rewrite Hs).
    set (free' := if free is None then Some i else free). specialize (IH (S i) free').
    destruct (session_scan ss (S i) free' tok) as [j|f].
    + destruct IH as (t & Hle & Ht & Hx). exists t. split_and!; [lia| |done].
      by replace (j - i)%nat with (S (j - S i)) by lia.
    + destruct IH as [Hn Hf]. split; [constructor; [by rewrite He|done]|].
      destruct free as [j|]; cbn in Hf; [done|]. subst f. exists s.
      rewrite Nat.sub_diag. split_and!; done.
Qed.

Lemma key_whole tok : zlen (c_string tok) < SESSION_TOKEN_LEN -> key tok = c_string tok.
Proof. intros H. unfold key. rewrite c_string_take. apply take_ge. unfold zlen in H. lia. Qed.

(** The token is stored whole and terminated. *)
Lemma token_stored tok :
  zlen (c_string tok) < SESSION_TOKEN_LEN ->
  let name := c_string tok in
  let n := zlen (c_string (take (Z.to_nat (SESSION_TOKEN_LEN - 1)) tok)) in
  exists mem1 mem2, write_at (token zero_session) 0 (take (Z.to_nat n) tok) = Ret mem1 /\
    write_at mem1 n [0] = Ret mem2 /\ key mem2 = name.
Proof.
  intros H name n. assert (n = zlen name) as ->.
  { unfold n. rewrite c_string_take, take_ge; [done|]. unfold zlen, SESSION_TOKEN_LEN in *. lia. }
  rewrite zlen_length. unfold name at 1. rewrite c_string_prefix. fold name.
  assert (zlen name <= 64) by (unfold name, SESSION_TOKEN_LEN in *; lia).
  exists (name ++ drop (length name) (replicate 64 0)),
    ((name ++ [0]) ++ drop 1 (drop (length name) (replicate 64 0))). split_and!.
  - apply (write_at_cursor [] (replicate 64 0) 0 name); [done|len].
  - apply (write_at_cursor name); [done|]. unfold name, SESSION_TOKEN_LEN in *. len.
  - unfold key. rewrite take_ge; [|unfold name, SESSION_TOKEN_LEN in *; len].
    rewrite <- app_assoc. apply c_string_app, c_string_nonzero.
Qed.

Section Lookup.
Context (tb : session_table) (Hok : table_ok tb).

Lemma registry_entry name id :
  registry tb !! name = Some id <-> (name, id) ∈ entries (sessions tb).
Proof. symmetry. apply elem_of_list_to_map, (ok_tokens _ Hok). Qed.

Lemma registry_size : Z.of_nat (size (registry tb)) = zlen (entries (sessions tb)).
Proof. unfold registry. rewrite map_size_list_to_map by apply (ok_tokens _ Hok). done. Qed.

(** Rewriting a slot that keeps its entry. *)
Lemma table_same i t t' :
  sessions tb !! i = Some t -> entry t' = entry t ->
  let tb' := SessionTable (<[i := t']> (sessions tb)) (next_persistent_id tb) in
  table_ok tb' /\ registry tb' = registry tb.
Proof.
  intros Ht He tb'. pose proof (entries_same _ _ _ _ Ht He) as Hs.
  split; [|unfold registry, tb'; cbn [sessions]; by rewrite Hs].
  destruct Hok. split; cbn [tb' sessions next_persistent_id]; rewrite ?Hs, ?zlen_insert; done.
Qed.

(** Filling a free slot with a new token under the next id. *)
Lemma table_fill i t t' name :
  let id := next_persistent_id tb + 1 in
  sessions tb !! i = Some t -> entry t = None -> entry t' = Some (name, id) ->
  registry tb !! name = None ->
  let tb' := SessionTable (<[i := t']> (sessions tb)) id in
  table_ok tb' /\ registry tb' = <[name := id]> (registry tb).
Proof.
  intros id Ht Hn Hx Hf tb'. pose proof (entries_fill _ _ _ _ _ Ht Hn Hx) as Hp.
  assert (name ∉ (entries (sessions tb)).*1) as Hnew by (by apply not_elem_of_list_to_map).
  pose proof (ok_range _ Hok) as Hr. rewrite Forall_forall in Hr.
  assert (NoDup ((name, id) :: entries (sessions tb)).*1) as Hnd.
  { cbn. constructor; [done|apply (ok_tokens _ Hok)]. }
  split.
  - split; cbn [sessions next_persistent_id tb'].
    + rewrite zlen_insert. apply (ok_size _ Hok).
    + by rewrite Hp.
    + rewrite Hp. cbn. constructor; [|apply (ok_ids _ Hok)]. intros Hi%Hr. lia.
    + rewrite Hp. cbn. pose proof (ok_count _ Hok). pose proof (zlen_nonneg (entries (sessions tb))).
      constructor; [lia|]. apply Forall_forall. intros x Hx'%Hr. lia.
    + unfold zlen. rewrite Hp. pose proof (ok_count _ Hok). unfold id. len.
  - assert (NoDup (entries (<[i:=t']> (sessions tb))).*1) as Hnd' by (by rewrite Hp).
    unfold registry, tb'. cbn [sessions]. by rewrite (list_to_map_proper _ _ Hnd' Hp).
Qed.

(** A token that is unknown to the scan is unknown to the registry. *)
Lemma registry_unknown name :
  Forall (fun t => forall id, entry t <> Some (name, id)) (sessions tb) ->
  registry tb !! name = None.
Proof.
  intros H. destruct (registry tb !! name) as [id|] eqn:E; [|done].
  apply registry_entry, list_elem_of_omap in E as (t & Ht & He).
  rewrite Forall_forall in H. by destruct (H t Ht id).
Qed.

Lemma full_entries :
  Forall (fun t => entry t <> None) (sessions tb) -> zlen (entries (sessions tb)) = MAX_SESSIONS.
Proof.
  rewrite <- (ok_size _ Hok). clear Hok. induction 1 as [|t ss Ht _ IH]; [done|].
  rewrite entries_cons. destruct (entry t); [|done]. len.
Qed.

Lemma lookup_or_create_spec tok now :
  zlen (c_string tok) < SESSION_TOKEN_LEN ->
  exists r tb', session_lookup_or_create tb tok now = Ret (r, tb') /\ table_ok tb' /\
  match registry tb !! c_string tok with
  | Some id => exists i s, r = Some (i, true) /\ sessions tb' !! i = Some s /\
      entry s = Some (c_string tok, id) /\ registry tb' = registry tb
  | None =>
      let id := next_persistent_id tb + 1 in
      if Z.of_nat (size (registry tb)) <? MAX_SESSIONS then
        exists i s, r = Some (i, false) /\ sessions tb' !! i = Some s /\
          entry s = Some (c_string tok, id) /\ registry tb' = <[c_string tok := id]> (registry tb)
      else r = None /\ tb' = tb
  end.
Proof.
  intros Hlen. pose proof (key_whole _ Hlen) as Hkey. unfold session_lookup_or_create.
  pose proof (session_scan_spec (sessions tb) 0 None tok) as Hs.
  destruct (session_scan (sessions tb) 0 None tok) as [i|[i|]].
  - destruct Hs as (t & _ & Ht & He). rewrite Nat.sub_0_r in Ht. rewrite Hkey in He. rewrite Ht.
    cbn [deref mbind outcome_bind]. set (t' := set_reconnect_count _ _).
    assert (entry t' = entry t) as He' by done.
    destruct (table_same _ _ _ Ht He') as [Hok' Hreg].
    eexists _, _. split; [reflexivity|]. split; [done|].
    assert (registry tb !! c_string tok = Some (client_id t)) as ->.
    { apply registry_entry, list_elem_of_omap. exists t. split; [by eapply list_elem_of_lookup_2|done]. }
    exists i, t'. split_and!; [done| |by rewrite He'|done].
    apply list_lookup_insert_eq. by eapply lookup_lt_Some.
  - destruct Hs as (Hn & t & _ & Ht & He). rewrite Nat.sub_0_r in Ht. rewrite Hkey in Hn.
    apply registry_unknown in Hn as Hnone.
    destruct (token_stored tok Hlen) as (mem1 & mem2 & E1 & E2 & Hk). cbv zeta in E1, E2.
    rewrite E1. cbn [mbind outcome_bind]. rewrite E2. cbn [mbind outcome_bind].
    pose proof (entries_room _ _ _ Ht He) as Hroom. rewrite (ok_size _ Hok) in Hroom.
    pose proof (ok_count _ Hok) as Hc. pose proof (zlen_nonneg (entries (sessions tb))).
    rewrite (wrap_small 64) by (unfold MAX_SESSIONS in *; lia).
    set (t' := ClientSession _ _ _ _ _ _ _ _).
    assert (entry t' = Some (c_string tok, next_persistent_id tb + 1)) as He'
      by (unfold entry; cbn; by rewrite Hk).
    destruct (table_fill i t t' _ Ht He He' Hnone) as [Hok' Hreg].
    eexists _, _. split; [reflexivity|]. split; [done|]. rewrite Hnone. cbv zeta.
    rewrite registry_size. destruct (Z.ltb_spec (zlen (entries (sessions tb))) MAX_SESSIONS); [|lia].
    exists i, t'. split_and!; [done| |done|done].
    apply list_lookup_insert_eq. by eapply lookup_lt_Some.
  - destruct Hs as (Hn & Hfull). rewrite Hkey in Hn. apply registry_unknown in Hn as Hnone.
    eexists _, _. split; [reflexivity|]. split; [done|]. rewrite Hnone. cbv zeta.
    rewrite registry_size, full_entries by done. done.
Qed.
End Lookup.

(** The slot a lookup returns is in use, under a positive id. *)
Lemma lookup_or_create_slot tb tok now :
  table_ok tb -> zlen (c_string tok) < SESSION_TOKEN_LEN ->
  exists r tb', session_lookup_or_create tb tok now = Ret (r, tb') /\ table_ok tb' /\
  match r with
  | Some (i, _) => exists s, sessions tb' !! i = Some s /\ 0 < client_id s
  | None => True
  end.
Proof.
  intros Hok Hl. destruct (lookup_or_create_spec tb Hok tok now Hl) as (r & tb' & E & Hok' & Hm).
  exists r, tb'. split_and!; [done|done|].
  assert (forall i s x, sessions tb' !! i = Some s -> entry s = Some x -> 0 < client_id s) as Hpos.
  { intros i s x Hs He. pose proof (ok_range _ Hok') as Hr. rewrite Forall_forall in Hr.
    apply (Hr (client_id s)), list_elem_of_fmap. exists x.
    assert (x.2 = client_id s) as <- by (unfold entry in He; destruct (in_use s); by simplify_eq).
    split; [done|]. apply list_elem_of_omap. exists s. split; [by eapply list_elem_of_lookup_2|done]. }
  destruct (registry tb !! _); [|cbv zeta in Hm; destruct (_ <? _); [|by destruct Hm as [-> _]]];
    destruct Hm as (i & s & -> & Hs & He & _); exists s; split; try done; by eapply Hpos.
Qed.

(** ** The table under the daemon's steps *)

(** No step loses or changes a registered token. *)
Definition grows (tb tb' : session_table) : Prop :=
  table_ok tb -> table_ok tb' /\ registry tb ⊆ registry tb'.

#[export] Instance grows_preorder : PreOrder grows.
Proof.
  split; [by intros tb|]. intros t1 t2 t3 H12 H23 H1.
  destruct (H12 H1) as [H2 ?], (H23 (proj1 (H12 H1))) as [H3 ?]. split; [done|by etrans].
Qed.

Lemma update_session_grows i f sv sv' :
  (forall s, entry (f s) = entry s) -> update_session i f sv = Ret sv' ->
  grows (table sv) (table sv').
Proof.
  intros Hf H. unfold update_session in H. peel H as s E. injection H as <-. intros Hok.
  destruct (sessions (table sv) !! i) as [t|] eqn:Ht; [|done]. injection E as ->.
  destruct (table_same _ Hok _ _ _ Ht (Hf s)) as [Hok' Hreg]. split; [done|].
  cbn [table set_table]. by rewrite Hreg.
Qed.

Lemma lookup_or_create_grows tb tok now r tb' :
  zlen (c_string tok) < SESSION_TOKEN_LEN ->
  session_lookup_or_create tb tok now = Ret (r, tb') -> grows tb tb'.
Proof.
  intros Hl H Hok. destruct (lookup_or_create_spec tb Hok tok now Hl) as (r1 & tb1 & E & Hok1 & Hm).
  rewrite H in E. injection E as <- <-. split; [done|].
  destruct (registry tb !! c_string tok) as [id|] eqn:Er.
  - destruct Hm as (i & s & _ & _ & _ & ->). done.
  - cbv zeta in Hm. destruct (_ <? _).
    + destruct Hm as (i & s & _ & _ & _ & ->). by apply insert_subseteq.
    + by destruct Hm as [_ ->].
Qed.

Lemma identify_grows now sv c m tb c' :
  identify_task now sv c m = Ret (tb, c') -> grows (table sv) tb.
Proof.
  unfold identify_task. set (n := if SESSION_TOKEN_LEN <=? _ then _ else _).
  assert (n < SESSION_TOKEN_LEN) as Hn.
  { unfold n. destruct (Z.leb_spec SESSION_TOKEN_LEN (if length_of m <? 0 then 0 else length_of m));
      unfold SESSION_TOKEN_LEN in *; lia. }
  intros H. peel H as tok E.
  destruct (n =? 0). { peel H as rep E1. peel H as c1 E2. by injection H as <- _. }
  peel H as st E1. destruct st as [s tb1]. apply lookup_or_create_grows in E1.
  - destruct s as [[i w]|].
    + peel H as s E2. peel H as rep E3. peel H as c1 E4. by injection H as <- _.
    + peel H as rep E3. peel H as c1 E4. by injection H as <- _.
  - rewrite c_string_end. pose proof (c_string_le tok). unfold read_at in E.
    destruct (_ && _)%bool eqn:Eb; [|done]. injection E as <-.
    apply andb_true_iff in Eb as [Eb Eb3]. apply andb_true_iff in Eb as [Eb1 Eb2].
    rewrite zlen_take in *. lia.
Qed.

Lemma dispatch_grows now sv c m tb c' :
  dispatch now sv c m = Ret (tb, c') -> grows (table sv) tb.
Proof.
  unfold dispatch. destruct (cmd m =? IDENTIFY); [apply identify_grows|].
  intros H. peel H as c1 E. by injection H as <- _.
Qed.

Lemma frame_table sv sv' : frame sv' = frame sv -> table sv' = table sv.
Proof. by intros [=]. Qed.

Lemma set_queue_table p q sv : table (set_queue p q sv) = table sv.
Proof. unfold set_queue. destruct (p =? HIGH), (p =? MEDIUM); done. Qed.

Lemma process_grows now now' sv t sv' :
  process_task now now' sv t = Ret sv' -> grows (table sv) (table sv').
Proof.
  unfold process_task. destruct (_ || _)%bool; [by intros ->%finish_frame%frame_table|].
  intros H. peel H as c E. destruct (negb _); [by apply finish_frame, frame_table in H as ->|].
  peel H as r E1. destruct r as [tb c1]. apply dispatch_grows in E1. peel H as sv1 E2.
  apply put_client_frame, frame_table in E2. cbn [table set_table] in E2. rewrite <- E2 in E1.
  peel H as sv2 E3. apply finish_frame, frame_table in H as ->. etrans; [exact E1|].
  destruct (session c1) as [i|]; [|by injection E3 as <-].
  by eapply update_session_grows; [|exact E3].
Qed.

Lemma writable_grows script sv i sv' out :
  handle_client_writable script sv i = Ret (sv', out) -> grows (table sv) (table sv').
Proof.
  unfold handle_client_writable. intros H. peel H as c E.
  destruct (r_count (send_queue c) =? 0); [by injection H as <- _|].
  peel H as r E1. destruct r as [[res c1] wire].
  destruct (res =? -1); [|destruct (res =? 1)].
  - peel H as sv1 E2. injection H as <- _. by apply put_client_frame, frame_table in E2 as ->.
  - peel H as sv1 E2. peel H as sv2 E3. injection H as <- _. apply put_client_frame, frame_table in E3 as ->.
    destruct (session c1) as [j|]; [|by injection E2 as <-].
    by eapply update_session_grows; [|exact E2].
  - peel H as sv1 E2. injection H as <- _. by apply put_client_frame, frame_table in E2 as ->.
Qed.

Lemma io_event_grows l sv e sv' out :
  io_event l sv e = Ret (sv', out) -> grows (table sv) (table sv').
Proof.
  unfold io_event. intros H. destruct (e_fd e =? l).
  - destruct (_ =? 0); [by injection H as <- _|]. peel H as r E. destruct r as [k sv1].
    injection H as <- _. by apply accept_frame, frame_table in E as ->.
  - peel H as c E. destruct (_ || _)%bool; [by injection H as <- _|]. peel H as sv1 E1.
    assert (table sv1 = table sv) as <-.
    { destruct (e_mask e .& (EPOLLHUP .| EPOLLERR .| EPOLLRDHUP) =? 0);
        [by injection E1 as <-|by apply put_client_frame, frame_table in E1]. }
    destruct (e_mask e .& EPOLLOUT =? 0); [by injection H as <- _|]. by eapply writable_grows.
Qed.

Lemma submit_table sv i c sv' : submit sv i c = Ret sv' -> table sv' = table sv.
Proof.
  unfold submit. intros H. peel H as r E. destruct r as [[] q].
  - peel H as sv1 E1. injection H as <-. apply put_client_frame, frame_table in E1.
    destruct q; [by rewrite set_queue_table|done].
  - unfold refuse in H. peel H as rep E1. peel H as c1 E2. by apply put_client_frame, frame_table in H.
Qed.

Lemma readable_table sv i ev inp sv' out :
  client_readable sv i ev inp = Ret (sv', out) -> table sv' = table sv.
Proof.
  unfold client_readable. intros H. peel H as c E.
  destruct (_ || _)%bool; [by injection H as <- _|]. destruct (_ =? 0); [by injection H as <- _|].
  peel H as r E1. destruct r as [[ret c1] stream]. destruct (ret =? 2); [|destruct (ret =? 1)].
  - peel H as nack E2. peel H as c2 E3. peel H as sv1 E4. injection H as <- _.
    by apply put_client_frame, frame_table in E4.
  - peel H as sv1 E4. injection H as <- _. by apply submit_table in E4.
  - peel H as sv1 E4. injection H as <- _. by apply put_client_frame, frame_table in E4.
Qed.

Lemma dequeue_first_table ps sv t sv' :
  dequeue_first ps sv = Ret (Some (t, sv')) -> table sv' = table sv.
Proof.
  induction ps as [|p ps IH]; [done|]. cbn [dequeue_first]. intros H. peel H as r E.
  destruct r as [[t1 sv1]|]; [|by apply IH]. injection H as <- <-. unfold dequeue_from in E.
  peel E as q E1. peel E as r E2. destruct r as [[t2 q2]|]; [|done]. injection E as <- <-.
  apply set_queue_table.
Qed.

Lemma step_grows s s' : step s s' -> grows (table s.1) (table s'.1).
Proof.
  destruct 1 as [sv fl f now now' c sv' _ _ H|sv fl l e sv' out _ H|sv fl i ev inp sv' out _ H
    |sv fl i sv' H|sv fl w t sv' H|sv l1 t l2 now now' sv' H|sv fl]; cbn [fst].
  - by apply accept_frame, frame_table in H as ->.
  - by eapply io_event_grows.
  - by apply readable_table in H as ->.
  - by apply reap_frame, frame_table in H as ->.
  - unfold worker_take in H. destruct (_ || _)%bool; [done|]. peel H as r E. injection H as ->.
    by apply dequeue_first_table in E as ->.
  - by eapply process_grows.
  - done.
Qed.

Lemma init_table_ok : table_ok init_session_table.
Proof.
  assert (entries (sessions init_session_table) = []) as He by by vm_compute.
  split; rewrite ?He; done || constructor.
Qed.

Lemma reachable_table_ok s : reachable s -> table_ok (table s.1).
Proof.
  induction 1 as [|s s' _ IH Hs]; [apply init_table_ok|]. by destruct (step_grows _ _ Hs IH).
Qed.

Lemma steps_grow s s' : rtc step s s' -> grows (table s.1) (table s'.1).
Proof. induction 1 as [s|s1 s2 s3 H _ IH]; [done|]. by etrans; [apply step_grows|]. Qed.

Lemma registry_inj tb n1 n2 id :
  table_ok tb -> registry tb !! n1 = Some id -> registry tb !! n2 = Some id -> n1 = n2.
Proof.
  intros Hok H1%registry_entry%list_elem_of_lookup H2%registry_entry%list_elem_of_lookup; [|done..].
  destruct H1 as [i Hi], H2 as [j Hj].
  assert (i = j) as ->.
  { apply (NoDup_lookup _ i j id (ok_ids _ Hok)); by rewrite list_lookup_fmap, ?Hi, ?Hj. }
  rewrite Hi in Hj. by injection Hj.
Qed.

(** The session table is a registry.  A lookup of a terminated token never
    fails the memory checks and keeps the table well formed.  A known token
    resumes its session under its old id, an unknown one gets the next id and is
    added, and only a full table refuses it. *)
Theorem session_registry tb tok now :
  table_ok tb -> zlen (c_string tok) < SESSION_TOKEN_LEN ->
  exists r tb', session_lookup_or_create tb tok now = Ret (r, tb') /\ table_ok tb' /\
  match registry tb !! c_string tok with
  | Some id => exists i s, r = Some (i, true) /\ sessions tb' !! i = Some s /\
      entry s = Some (c_string tok, id) /\ registry tb' = registry tb
  | None =>
      let id := next_persistent_id tb + 1 in
      if Z.of_nat (size (registry tb)) <? MAX_SESSIONS then
        exists i s, r = Some (i, false) /\ sessions tb' !! i = Some s /\
          entry s = Some (c_string tok, id) /\ registry tb' = <[c_string tok := id]> (registry tb)
      else r = None /\ tb' = tb
  end.
Proof. intros Hok. by apply lookup_or_create_spec. Qed.

Lemma session_registry_witness :
  exists r tb', session_lookup_or_create init_session_table (bstr "alice" ++ [0]) 7 = Ret (r, tb') /\
    table_ok tb' /\ exists i s, r = Some (i, false) /\ sessions tb' !! i = Some s /\
      entry s = Some (bstr "alice", 1).
Proof.
  destruct (session_registry init_session_table (bstr "alice" ++ [0]) 7 init_table_ok eq_refl)
    as (r & tb' & E & Hok & H).
  exists r, tb'. split; [exact E|]. split; [exact Hok|].
  assert (registry init_session_table !! c_string (bstr "alice" ++ [0]) = None) as Hn by by vm_compute.
  assert ((Z.of_nat (size (registry init_session_table)) <? MAX_SESSIONS) = true) as Hm by by vm_compute.
  rewrite Hn in H. cbv zeta in H. rewrite Hm in H.
  destruct H as (i & s & Hr & Hs & He & _). exists i, s. split; [exact Hr|]. split; [exact Hs|exact He].
Defined.

(** Client ids are persistent and never shared.  Whatever the daemon does
    after a token was registered (reconnects, reaping, other clients), the token
    keeps its id and no other token ever gets it. *)
Theorem session_ids_persist s s' name id :
  reachable s -> rtc step s s' -> registry (table s.1) !! name = Some id ->
  registry (table s'.1) !! name = Some id /\
  forall name', registry (table s'.1) !! name' = Some id -> name' = name.
Proof.
  intros Hr Hs Hn. destruct (steps_grow _ _ Hs (reachable_table_ok _ Hr)) as [Hok Hsub].
  pose proof (lookup_weaken _ _ _ _ Hn Hsub) as Hn'.
  split; [done|]. intros name' H'. by eapply registry_inj.
Qed.

(** A client that connects, identifies itself as alice and is served. *)
Definition hello : message_control :=
  match build_message (bstr "alice") IDENTIFY HIGH 1 with Ret m => m | Undef => zero_message end.

Definition alice_in : server := or_init snd (handle_accept [AcceptFd 5 true 10 10] init_server).
Definition alice_frame : input := Input [RxChunk 24; RxChunk 5; RxChunk 4] false (wire hello).
Definition alice_sent : server := or_init fst (client_readable alice_in 5 EPOLLIN alice_frame).
Definition alice_taken : task * server := taken (worker_take HighWorker alice_sent).
Definition alice_known : server := or_init id (process_task 20 21 alice_taken.2 alice_taken.1).

Lemma alice_reachable : reachable (alice_known, []).
Proof.
  apply run_process; [apply run_take; [apply run_readable; [apply (run_accept _ _ _ _ zero_client);
    [apply reach_init|done..|]|by apply (bool_decide_unpack _); vm_compute|]|]|]; vm_compute; reflexivity.
Qed.

Lemma alice_registered : registry (table (alice_known, @nil task).1) !! bstr "alice" = Some 1.
Proof. cbn [fst]. vm_compute. reflexivity. Qed.

Lemma session_ids_persist_witness :
  registry (table (alice_known, @nil task).1) !! bstr "alice" = Some 1 /\
  forall name', registry (table (alice_known, @nil task).1) !! name' = Some 1 -> name' = bstr "alice".
Proof.
  exact (session_ids_persist (alice_known, []) (alice_known, []) (bstr "alice") 1 alice_reachable
    (rtc_refl step (alice_known, [])) alice_registered).
Defined.

End DaemonSess.
