(* ===== verification/DaemonWorkers.v ===== *)
(** * The worker threads of the control plane daemon

    The four worker threads of [gatewayd/server.c] around the one condition
    variable [queue_wakeup]: how tasks are taken, who is woken, how the threads
    stop.  The condition variable is modelled by what POSIX promises: a signal
    wakes one waiting thread if there is one, a broadcast wakes all, and a wait
    may also return on its own. *)
From stdpp Require Import sorting.
From S2P Require Import Prelude Socket Fifo Ring Framing Gatewayd DaemonInv.
Import Framing Gatewayd DaemonInv.
Open Scope c_scope.

Module DaemonWorkers.

(** ** Which task a worker takes *)

Definition backlog (sv : server) (p : Z) : list task :=
  match queue_of sv p with Some q => ring_abs q | None => [] end.

Lemma backlog_set sv p q q0 p' :
  queue_of sv p = Some q0 ->
  backlog (set_queue p q sv) p' = if p' =? p then ring_abs q else backlog sv p'.
Proof.
  unfold backlog, queue_of, set_queue. intros Hp.
  destruct (Z.eqb_spec p HIGH) as [->|]; [|destruct (Z.eqb_spec p MEDIUM) as [->|];
    [|destruct (Z.eqb_spec p LOW) as [->|]; [|done]]];
    destruct (Z.eqb_spec p' HIGH) as [->|]; try done;
    destruct (Z.eqb_spec p' MEDIUM) as [->|]; try done;
    destruct (Z.eqb_spec p' LOW) as [->|]; try done; by case_match.
Qed.

(** Taking from one queue. *)
Lemma dequeue_from_backlog sv p :
  rings_ok sv -> is_Some (queue_of sv p) ->
  match backlog sv p with
  | [] => dequeue_from p sv = Ret None
  | t :: l => exists sv', dequeue_from p sv = Ret (Some (t, sv')) /\ rings_ok sv' /\
      shutdown sv' = shutdown sv /\
      forall p', backlog sv' p' = if p' =? p then l else backlog sv p'
  end.
Proof.
  intros Hr [q Hq]. pose proof (dequeue_spec q (queue_ok _ _ _ Hr Hq)) as Hd.
  unfold dequeue_from. unfold backlog at 1. rewrite Hq. cbn [deref mbind outcome_bind].
  destruct (ring_abs q) as [|t l]; [by rewrite Hd|]. destruct Hd as (q' & -> & Hq' & Ha).
  eexists. split; [reflexivity|]. split; [by apply set_queue_rings|].
  split; [unfold set_queue; by repeat case_match|].
  intros p'. by rewrite (backlog_set _ _ _ _ _ Hq), Ha.
Qed.

(** What a worker looking through [ps] finds. *)
Definition found (ps : list Z) (sv : server) (r : option (task * server)) : Prop :=
  match r with
  | Some (t, sv') => exists l1 p l2 rest, ps = l1 ++ p :: l2 /\ Forall (fun p' => backlog sv p' = []) l1 /\
      backlog sv p = t :: rest /\ rings_ok sv' /\ shutdown sv' = shutdown sv /\
      forall p', backlog sv' p' = if p' =? p then rest else backlog sv p'
  | None => Forall (fun p => backlog sv p = []) ps
  end.

Lemma dequeue_first_finds ps sv :
  rings_ok sv -> Forall (fun p => is_Some (queue_of sv p)) ps ->
  exists r, dequeue_first ps sv = Ret r /\ found ps sv r.
Proof.
  intros Hr. induction 1 as [|p ps Hp _ IH]; cbn [dequeue_first]; [exists None; split; [done|constructor]|].
  pose proof (dequeue_from_backlog sv p Hr Hp) as Hd. destruct (backlog sv p) as [|t l] eqn:Hb.
  - rewrite Hd. cbn [mbind outcome_bind]. destruct IH as (r & -> & Hf). exists r. split; [done|].
    destruct r as [[t sv']|]; cbn in Hf |- *; [|by constructor].
    destruct Hf as (l1 & p1 & l2 & rest & -> & Hl1 & Hrest).
    exists (p :: l1), p1, l2, rest. split_and!; [done|by constructor|apply Hrest..].
  - destruct Hd as (sv' & -> & Hr' & Hs & Hb'). cbn [mbind outcome_bind].
    eexists. split; [reflexivity|]. exists [], p, ps, l. split_and!; done || constructor.
Qed.

Lemma serves_known w sv : Forall (fun p => is_Some (queue_of sv p)) (serves w).
Proof. destruct w; repeat constructor; eexists; reflexivity. Qed.

Lemma queue_empty (q : message_queue) : ring_inv CAPACITY q -> (r_count q =? 0) = bool_decide (ring_abs q = []).
Proof.
  intros Hq. pose proof (ring_abs_length CAPACITY q Hq) as Hl.
  case_bool_decide as Ha; [rewrite Ha, zlen_nil in Hl; by rewrite <- Hl|].
  apply Z.eqb_neq. intros H0. rewrite H0 in Hl. destruct (ring_abs q); [done|]. len.
Qed.

Lemma all_empty sv :
  rings_ok sv -> all_queues_empty_locked sv = true <-> queued sv = [].
Proof.
  unfold rings_ok, rings. rewrite !Forall_cons. intros (? & ? & ? & _).
  unfold all_queues_empty_locked, queued. rewrite !queue_empty by done.
  rewrite !andb_true_iff, !bool_decide_eq_true. split.
  - by intros [[-> ->] ->].
  - intros [? [? ?]%app_nil]%app_nil. done.
Qed.

Lemma worker_take_finds w sv :
  rings_ok sv -> shutdown sv = false -> queued sv <> [] ->
  exists r, worker_take w sv = Ret (Some r) /\ found (serves w) sv r.
Proof.
  intros Hr Hs Hq. unfold worker_take. rewrite Hs. cbn [orb].
  destruct (all_queues_empty_locked sv) eqn:Ha; [by apply all_empty in Ha|].
  destruct (dequeue_first_finds (serves w) sv Hr (serves_known w sv)) as (r & -> & Hf). by exists r.
Qed.

(** ** The pool *)

(** Where a worker thread is: blocked in [pthread_cond_wait], about to look at
    the queues, processing a task, or returned. *)
Inductive wstate := Waiting | Running | Busy (t : task) | Stopped.

(** [sig_thread]: before the signal, with the flag set, after the broadcast. *)
Inductive sig_state := SigIdle | SigFlagged | SigDone.

Record pool := Pool { p_server : server; p_workers : list (worker * wstate); p_sig : sig_state }.

(** The threads main starts. *)
Definition NUM_HIGH_WORKERS : nat := 2.
Definition NUM_MID_WORKERS : nat := 1.
Definition NUM_LOW_WORKERS : nat := 1.

Definition init_pool : pool :=
  Pool init_server
    (replicate NUM_HIGH_WORKERS (HighWorker, Running) ++ replicate NUM_MID_WORKERS (MidWorker, Running)
       ++ replicate NUM_LOW_WORKERS (LowWorker, Running)) SigIdle.

(** One iteration of a worker's loop up to the unlock, from the server it sees:
    the state it is in afterwards and the server. *)
Definition worker_iteration (w : worker) (sv : server) : outcome (wstate * server) :=
  r ← worker_take w sv;
  Ret (match r with
       | None => (if shutdown sv then Stopped else Waiting, sv)
       | Some None => (Running, sv)
       | Some (Some (t, sv')) => (Busy t, sv')
       end).

(** A step of one worker. *)
Inductive wstep : pool -> pool -> Prop :=
| wstep_iterate sv ws sg i w st sv' :
    ws !! i = Some (w, Running) -> worker_iteration w sv = Ret (st, sv') ->
    wstep (Pool sv ws sg) (Pool sv' (<[i := (w, st)]> ws) sg)
| wstep_process sv ws sg i w t now now' sv' :
    ws !! i = Some (w, Busy t) -> process_task now now' sv t = Ret sv' ->
    wstep (Pool sv ws sg) (Pool sv' (<[i := (w, Running)]> ws) sg).

(** [pthread_cond_signal] *)
Inductive signal : list (worker * wstate) -> list (worker * wstate) -> Prop :=
| signal_one ws i w : ws !! i = Some (w, Waiting) -> signal ws (<[i := (w, Running)]> ws)
| signal_none ws : Forall (fun x => x.2 <> Waiting) ws -> signal ws ws.

(** [pthread_cond_broadcast] *)
Definition wake (x : worker * wstate) : worker * wstate :=
  match x with (w, Waiting) => (w, Running) | _ => x end.

(** What the workers look at. *)
Definition core (sv : server) : list message_queue * bool := (rings sv, shutdown sv).

(** The pool with the threads around it: the I/O thread queues a task or does
    something that leaves the queues alone, a wait returns on its own, and
    [sig_thread] sets the flag and then broadcasts. *)
Inductive pstep : pool -> pool -> Prop :=
| pstep_worker s s' : wstep s s' -> pstep s s'
| pstep_enqueue sv ws sg p t q sv' ws' :
    try_enqueue_task (shutdown sv) (queue_of sv p) t = Ret (true, Some q) ->
    core sv' = core (set_queue p q sv) -> signal ws ws' ->
    pstep (Pool sv ws sg) (Pool sv' ws' sg)
| pstep_io sv ws sg sv' : core sv' = core sv -> pstep (Pool sv ws sg) (Pool sv' ws sg)
| pstep_spurious sv ws sg i w :
    ws !! i = Some (w, Waiting) -> pstep (Pool sv ws sg) (Pool sv (<[i := (w, Running)]> ws) sg)
| pstep_flag sv ws :
    pstep (Pool sv ws SigIdle) (Pool (set_shutdown true sv) ws SigFlagged)
| pstep_broadcast sv ws :
    pstep (Pool sv ws SigFlagged) (Pool sv (wake <$> ws) SigDone).

Inductive pool_reachable : pool -> Prop :=
| pool_init : pool_reachable init_pool
| pool_step s s' : pool_reachable s -> pstep s s' -> pool_reachable s'.

(** ** What leaves the queues alone *)

Lemma frame_core sv sv' : frame sv' = frame sv -> core sv' = core sv.
Proof. unfold frame, core. congruence. Qed.

Lemma update_session_core i f sv sv' : update_session i f sv = Ret sv' -> core sv' = core sv.
Proof. unfold update_session. intros H. peel H as s E. by injection H as <-. Qed.

Lemma process_core now now' sv t sv' : process_task now now' sv t = Ret sv' -> core sv' = core sv.
Proof.
  unfold process_task. destruct (_ || _)%bool; [by intros ->%finish_frame%frame_core|].
  intros H. peel H as c E. destruct (negb _); [by apply finish_frame, frame_core in H as ->|].
  peel H as r E1. destruct r as [tb c1]. peel H as sv1 E2. apply put_client_frame, frame_core in E2.
  peel H as sv2 E3. apply finish_frame, frame_core in H as ->.
  assert (core sv2 = core sv1) as ->; [|by rewrite E2].
  destruct (session c1) as [i|]; [by apply update_session_core in E3|by injection E3 as <-].
Qed.

Lemma writable_core script sv i sv' out :
  handle_client_writable script sv i = Ret (sv', out) -> core sv' = core sv.
Proof.
  unfold handle_client_writable. intros H. peel H as c E.
  destruct (r_count (send_queue c) =? 0); [by injection H as <- _|].
  peel H as r E1. destruct r as [[res c1] wire].
  destruct (res =? -1); [|destruct (res =? 1)].
  - peel H as sv1 E2. injection H as <- _. by eapply frame_core, put_client_frame.
  - peel H as sv1 E2. peel H as sv2 E3. injection H as <- _.
    apply put_client_frame, frame_core in E3 as ->.
    destruct (session c1) as [j|]; [by apply update_session_core in E2|by injection E2 as <-].
  - peel H as sv1 E2. injection H as <- _. by eapply frame_core, put_client_frame.
Qed.

Lemma io_event_core l sv e sv' out : io_event l sv e = Ret (sv', out) -> core sv' = core sv.
Proof.
  unfold io_event. intros H. destruct (e_fd e =? l).
  - destruct (_ =? 0); [by injection H as <- _|]. peel H as r E. destruct r as [k sv1].
    injection H as <- _. by eapply frame_core, accept_frame.
  - peel H as c E. destruct (_ || _)%bool; [by injection H as <- _|]. peel H as sv1 E1.
    assert (core sv1 = core sv) as <-.
    { destruct (e_mask e .& (EPOLLHUP .| EPOLLERR .| EPOLLRDHUP) =? 0);
        [by injection E1 as <-|by eapply frame_core, put_client_frame]. }
    destruct (e_mask e .& EPOLLOUT =? 0); [by injection H as <- _|by eapply writable_core].
Qed.

(** A readable event queues at most one task. *)
Lemma readable_core sv i ev inp sv' out :
  client_readable sv i ev inp = Ret (sv', out) ->
  core sv' = core sv \/
  exists p t q, try_enqueue_task (shutdown sv) (queue_of sv p) t = Ret (true, Some q) /\
    core sv' = core (set_queue p q sv).
Proof.
  unfold client_readable. intros H. peel H as c E.
  destruct (_ || _)%bool; [left; by injection H as <- _|].
  destruct (_ =? 0); [left; by injection H as <- _|].
  peel H as r E1. destruct r as [[ret c1] stream]. destruct (ret =? 2); [|destruct (ret =? 1)].
  - peel H as nack E2. peel H as c2 E3. peel H as sv1 E4. injection H as <- _.
    left. by eapply frame_core, put_client_frame.
  - peel H as sv1 E4. injection H as <- _. unfold submit in E4. peel E4 as r E5.
    destruct r as [[] q].
    + peel E4 as sv2 E6. injection E4 as <-. right.
      assert (exists q', q = Some q') as [q' ->].
      { unfold try_enqueue_task in E5. destruct (shutdown sv); [done|]. peel E5 as q0 E7.
        destruct (_ <=? _); [done|]. peel E5 as q1 E8. injection E5 as <-. by exists q1. }
      eexists _, _, q'. split; [exact E5|]. apply put_client_Ret in E6 as [_ ->].
      unfold set_queue. repeat case_match; done.
    + left. unfold refuse in E4. peel E4 as rep E6. peel E4 as c2 E7. by eapply frame_core, put_client_frame.
  - peel H as sv1 E4. injection H as <- _. left. by eapply frame_core, put_client_frame.
Qed.

(** ** One iteration *)

Lemma core_rings sv sv' : core sv' = core sv -> rings sv' = rings sv /\ shutdown sv' = shutdown sv.
Proof. by intros [= ? ? ? ?]; unfold rings; split; [congruence|]. Qed.

Lemma rings_queued sv sv' : rings sv' = rings sv -> queued sv' = queued sv.
Proof. unfold rings, queued. by intros [= -> -> ->]. Qed.

(** The outcomes of an iteration on well-formed queues. *)
Inductive iterated (w : worker) (sv : server) : wstate -> server -> Prop :=
| it_stop : shutdown sv = true -> iterated w sv Stopped sv
| it_wait : shutdown sv = false -> queued sv = [] -> iterated w sv Waiting sv
| it_spin : shutdown sv = false -> queued sv <> [] ->
    Forall (fun p => backlog sv p = []) (serves w) -> iterated w sv Running sv
| it_busy t sv' : shutdown sv = false -> found (serves w) sv (Some (t, sv')) ->
    iterated w sv (Busy t) sv'.

Lemma worker_iterates w sv :
  rings_ok sv -> exists st sv', worker_iteration w sv = Ret (st, sv') /\ iterated w sv st sv'.
Proof.
  intros Hr. unfold worker_iteration. destruct (shutdown sv) eqn:Hs.
  { unfold worker_take. rewrite Hs. eexists _, _. split; [reflexivity|by constructor]. }
  destruct (decide (queued sv = [])) as [Hq|Hq].
  - unfold worker_take. rewrite Hs, (proj2 (all_empty sv Hr) Hq).
    eexists _, _. split; [reflexivity|by constructor].
  - destruct (worker_take_finds w sv Hr Hs Hq) as ([[t sv']|] & -> & Hf); cbn [mbind outcome_bind].
    + eexists _, _. split; [reflexivity|by constructor].
    + eexists _, _. split; [reflexivity|by constructor].
Qed.

Lemma iteration_inv w sv st sv' :
  rings_ok sv -> worker_iteration w sv = Ret (st, sv') -> iterated w sv st sv'.
Proof.
  intros Hr H. destruct (worker_iterates w sv Hr) as (st1 & sv1 & E & Hi).
  rewrite H in E. by injection E as <- <-.
Qed.

(** ** The pool's invariant *)

Record pool_inv (s : pool) : Prop := {
  pi_rings : rings_ok (p_server s);
  pi_some : p_workers s <> [];
  pi_flag : shutdown (p_server s) = match p_sig s with SigIdle => false | _ => true end;
  pi_idle : p_sig s = SigIdle -> Forall (fun x => x.2 <> Stopped) (p_workers s);
  pi_awake : p_sig s = SigIdle -> queued (p_server s) <> [] ->
    Exists (fun x => x.2 <> Waiting) (p_workers s);
  pi_done : p_sig s = SigDone -> Forall (fun x => x.2 <> Waiting) (p_workers s) }.

Lemma iterated_ok w sv st sv' :
  rings_ok sv -> iterated w sv st sv' -> rings_ok sv' /\ shutdown sv' = shutdown sv.
Proof. intros Hr. destruct 1; try done. by destruct H0 as (? & ? & ? & ? & _ & _ & _ & ? & ? & _). Qed.

Lemma insert_exists {A} (P : A -> Prop) l i x :
  (i < length l)%nat -> P x -> Exists P (<[i := x]> l).
Proof. intros Hi Hx. apply Exists_exists. exists x. split; [by apply list_elem_of_insert|done]. Qed.

Lemma insert_not_nil {A} (l : list A) i x : l <> [] -> <[i := x]> l <> [].
Proof. by destruct l, i. Qed.

Lemma iterate_pool_inv sv ws sg i w st sv' :
  pool_inv (Pool sv ws sg) -> ws !! i = Some (w, Running) -> worker_iteration w sv = Ret (st, sv') ->
  pool_inv (Pool sv' (<[i := (w, st)]> ws) sg).
Proof.
  intros [Hr Hn Hf Hid Haw Hdn] Hi E. cbn [p_server p_workers p_sig] in *.
  pose proof (iteration_inv w sv st sv' Hr E) as Hit. apply lookup_lt_Some in Hi as Hlt.
  destruct (iterated_ok _ _ _ _ Hr Hit) as [Hr' Hs'].
  split; cbn [p_server p_workers p_sig]; [done|by apply insert_not_nil|by rewrite Hs'| | |].
  - intros ->. apply Forall_insert; [by apply Hid|]. destruct Hit; try done. by rewrite H in Hf.
  - intros -> Hq. destruct Hit; try by apply insert_exists.
  - intros ->. apply Forall_insert; [by apply Hdn|]. destruct Hit; try done. by rewrite H in Hf.
Qed.

Lemma wstep_inv s s' : pool_inv s -> wstep s s' -> pool_inv s'.
Proof.
  intros Hp Hs. destruct Hs as [sv ws sg i w st sv' Hi E|sv ws sg i w t now now' sv' Hi E].
  { by eapply iterate_pool_inv. }
  destruct Hp as [Hr Hn Hf Hid Haw Hdn]. cbn [p_server p_workers p_sig] in *.
  apply process_core, core_rings in E as [Hrg Hs]. apply lookup_lt_Some in Hi as Hlt.
  split; cbn [p_server p_workers p_sig].
  - unfold rings_ok. by rewrite Hrg.
  - by apply insert_not_nil.
  - by rewrite Hs.
  - intros ->. apply Forall_insert; [by apply Hid|done].
  - intros _ _. by apply insert_exists.
  - intros ->. apply Forall_insert; [by apply Hdn|done].
Qed.

Lemma signal_inv ws ws' :
  signal ws ws' -> ws <> [] -> ws' <> [] /\ Exists (fun x => x.2 <> Waiting) ws' /\
  forall st, st <> Running -> Forall (fun x => x.2 <> st) ws -> Forall (fun x => x.2 <> st) ws'.
Proof.
  intros Hs Hn. destruct Hs as [ws i w Hi|ws Hw].
  - split; [by apply insert_not_nil|]. split.
    + apply insert_exists; [by eapply lookup_lt_Some|done].
    + intros st Hst Hf. apply Forall_insert; [done|]. cbn. congruence.
  - split; [done|]. split; [|done]. destruct ws as [|x ws]; [done|]. left. by inversion Hw.
Qed.

Lemma enqueue_rings sv p t q :
  rings_ok sv -> try_enqueue_task (shutdown sv) (queue_of sv p) t = Ret (true, Some q) ->
  shutdown sv = false /\ rings_ok (set_queue p q sv) /\ queued (set_queue p q sv) ≡ₚ t :: queued sv.
Proof.
  intros Hr E. destruct (shutdown sv) eqn:Hs; [done|]. split; [done|].
  destruct (queue_of sv p) as [q0|] eqn:Hq; [|done]. pose proof (queue_ok _ _ _ Hr Hq) as Hq0.
  destruct (enqueue_spec q0 t Hq0) as [(_ & q' & E' & Hq' & Ha)|[_ E']];
    pose proof (eq_trans (eq_sym E) E') as E2; [|done].
  injection E2 as <-. split; [by apply set_queue_rings|by eapply queued_push].
Qed.

Lemma pstep_inv s s' : pool_inv s -> pstep s s' -> pool_inv s'.
Proof.
  intros Hp. destruct 1 as [s s' Hs|sv ws sg p t q sv' ws' E Hc Hs|sv ws sg sv' Hc|sv ws sg i w Hi|sv ws|sv ws];
    [by eapply wstep_inv|destruct Hp as [Hr Hn Hf Hid Haw Hdn]; cbn [p_server p_workers p_sig] in *..].
  - destruct (enqueue_rings _ _ _ _ Hr E) as (Hs0 & Hr' & _). apply core_rings in Hc as [Hrg Hsh].
    destruct (signal_inv _ _ Hs Hn) as (Hn' & He & Hall).
    assert (shutdown sv' = shutdown sv) as Hsh'
      by (rewrite Hsh; unfold set_queue; by repeat case_match).
    split; cbn [p_server p_workers p_sig]; [by unfold rings_ok; rewrite Hrg|done|congruence| |done|];
      intros ->; apply Hall; auto.
  - apply core_rings in Hc as [Hrg Hsh].
    split; cbn [p_server p_workers p_sig]; auto; [by unfold rings_ok; rewrite Hrg|congruence|].
    intros Hsg Hq. apply Haw; [done|]. by rewrite <- (rings_queued _ _ Hrg).
  - apply lookup_lt_Some in Hi as Hlt. split; cbn [p_server p_workers p_sig]; auto.
    + by apply insert_not_nil.
    + intros ->. apply Forall_insert; [by apply Hid|done].
    + intros _ _. by apply insert_exists.
    + intros ->. apply Forall_insert; [by apply Hdn|done].
  - split; cbn [p_server p_workers p_sig]; done.
  - split; cbn [p_server p_workers p_sig]; try done.
    + by destruct ws.
    + intros _. apply Forall_fmap, Forall_forall. intros [w []] _; done.
Qed.

Lemma pool_reachable_inv s : pool_reachable s -> pool_inv s.
Proof.
  induction 1 as [|s s' _ IH Hs]; [|by eapply pstep_inv]. split; cbn; try done.
  - apply (inv_rings _ init_inv).
  - repeat constructor; done.
Qed.

#[export] Instance waiting_dec st : Decision (st = Waiting).
Proof. destruct st; (left; reflexivity) || (right; discriminate). Defined.

Lemma signal_exists ws : exists ws', signal ws ws'.
Proof.
  destruct (decide (Exists (fun x : worker * wstate => x.2 = Waiting) ws)) as [H|H].
  - apply Exists_exists in H as ([w st] & Hin & Hst). cbn in Hst. subst st.
    apply list_elem_of_lookup in Hin as [i Hi]. eexists. by eapply signal_one.
  - exists ws. apply signal_none. by apply Forall_Exists_neg.
Qed.

(** The daemon's transition system drives the pool: a step of the I/O thread
    either leaves the queues alone or is one successful [try_enqueue_task]. *)
Lemma io_is_pstep sv fl sv' ws sg :
  step (sv, fl) (sv', fl) -> shutdown sv' = shutdown sv ->
  exists ws', pstep (Pool sv ws sg) (Pool sv' ws' sg).
Proof.
  intros Hs Hsh. remember (sv, fl) as s eqn:E. remember (sv', fl) as s' eqn:E'.
  destruct Hs as [sv0 fl0 f now now' c sv1 _ _ H|sv0 fl0 l e sv1 out _ H|sv0 fl0 i ev inp sv1 out _ H
    |sv0 fl0 i sv1 H|sv0 fl0 w t sv1 H|sv0 l1 t l2 now now' sv1 H|sv0 fl0];
    injection E as -> <-; injection E' as <-.
  - exists ws. by eapply pstep_io, frame_core, accept_frame.
  - exists ws. by eapply pstep_io, io_event_core.
  - destruct (readable_core _ _ _ _ _ _ H) as [Hc|(p & t & q & Ht & Hc)];
      [exists ws; by constructor|].
    destruct (signal_exists ws) as [ws' Hw]. exists ws'. by eapply pstep_enqueue.
  - exists ws. by eapply pstep_io, frame_core, reap_frame.
  - exfalso. induction fl0; congruence.
  - exists ws. by eapply pstep_io, process_core.
  - exists ws. apply pstep_io. unfold core. by rewrite Hsh.
Qed.

(** Workers serve the most urgent task first.  With tasks queued and no
    shutdown, an iteration takes the oldest task of the most urgent non-empty
    queue the worker serves and leaves every other queue as it is; it takes
    nothing only when all the queues it serves are empty. *)
Theorem worker_takes_most_urgent w sv :
  rings_ok sv -> shutdown sv = false -> queued sv <> [] ->
  exists r, worker_take w sv = Ret (Some r) /\
  match r with
  | Some (t, sv') => exists p rest, p ∈ serves w /\ backlog sv p = t :: rest /\
      (forall p', p' ∈ serves w -> p < p' -> backlog sv p' = []) /\
      forall p', backlog sv' p' = if p' =? p then rest else backlog sv p'
  | None => forall p, p ∈ serves w -> backlog sv p = []
  end.
Proof.
  intros Hr Hs Hq. destruct (worker_take_finds w sv Hr Hs Hq) as (r & E & Hf).
  exists r. split; [done|]. destruct r as [[t sv']|]; cbn in Hf.
  - destruct Hf as (l1 & p & l2 & rest & Hps & Hl1 & Hb & _ & _ & Hb').
    assert (StronglySorted (fun a b => b < a) (serves w)) as Hsort
      by (destruct w; repeat constructor).
    exists p, rest. rewrite Hps in *. split_and!; [set_solver|done| |done].
    intros p' [Hin|[->|Hin]%elem_of_cons]%elem_of_app Hlt; [|lia|].
    + rewrite Forall_forall in Hl1. by apply Hl1.
    + apply StronglySorted_app_1_r in Hsort.
      pose proof (StronglySorted_app_1_elem_of _ [p] l2 p p' Hsort ltac:(set_solver) Hin). cbn in *. lia.
  - by rewrite Forall_forall in Hf.
Qed.

Lemma reachable_rings sv fl : reachable (sv, fl) -> rings_ok sv.
Proof. intros H. exact (inv_rings _ (reachable_inv _ H)). Qed.

Lemma submitted_rings : rings_ok submitted.
Proof. exact (reachable_rings submitted [] submitted_reachable). Qed.

Lemma worker_takes_most_urgent_witness :
  queued submitted <> [] /\
  exists r, worker_take MidWorker submitted = Ret (Some r) /\
  match r with
  | Some (t, sv') => exists p rest, p ∈ serves MidWorker /\ backlog submitted p = t :: rest /\
      (forall p', p' ∈ serves MidWorker -> p < p' -> backlog submitted p' = []) /\
      forall p', backlog sv' p' = if p' =? p then rest else backlog submitted p'
  | None => forall p, p ∈ serves MidWorker -> backlog submitted p = []
  end.
Proof.
  assert (queued submitted <> []) as Hq.
  { assert (zlen (queued submitted) = 1) as H by (vm_compute; reflexivity).
    intros E. rewrite E in H. clear E. discriminate H. }
  assert (shutdown submitted = false) as Hs by (vm_compute; reflexivity).
  split; [exact Hq|].
  exact (worker_takes_most_urgent MidWorker submitted submitted_rings Hs Hq).
Defined.

(** The pool never sleeps on a backlog.  In every reachable state before
    shutdown, if a task is queued then some worker is running or processing: the
    wake-ups never leave all four threads asleep beside a non-empty queue. *)
Theorem backlog_keeps_a_worker_awake s :
  pool_reachable s -> p_sig s = SigIdle -> queued (p_server s) <> [] ->
  exists i w st, p_workers s !! i = Some (w, st) /\ (st = Running \/ exists t, st = Busy t).
Proof.
  intros [Hr Hn Hf Hid Haw Hdn]%pool_reachable_inv Hs Hq.
  apply Exists_exists in Haw as ([w st] & Hin & Hst); [|done..].
  specialize (Hid Hs). rewrite Forall_forall in Hid. specialize (Hid _ Hin). cbn in Hst, Hid.
  apply list_elem_of_lookup in Hin as [i Hi]. exists i, w, st. split; [done|].
  destruct st; [done|by left|right; by eexists|done].
Qed.

(** A worker that cannot contribute: it waits, or it runs but serves only empty
    queues. *)
Definition helpless (sv : server) (x : worker * wstate) : Prop :=
  x.2 = Waiting \/ x.2 = Running /\ Forall (fun p => backlog sv p = []) (serves x.1).

Lemma helpless_iteration w sv st sv' :
  rings_ok sv -> shutdown sv = false -> queued sv <> [] ->
  Forall (fun p => backlog sv p = []) (serves w) ->
  worker_iteration w sv = Ret (st, sv') -> st = Running /\ sv' = sv.
Proof.
  intros Hr Hs Hq He E. destruct (iteration_inv w sv st sv' Hr E); try congruence; [done|].
  destruct H0 as (l1 & p & l2 & rest & Hps & _ & Hb & _). rewrite Hps, Forall_app, Forall_cons in He.
  destruct He as (_ & He & _). by rewrite He in Hb.
Qed.

Lemma helpless_stuck sv ws sg s' :
  rings_ok sv -> shutdown sv = false -> queued sv <> [] -> Forall (helpless sv) ws ->
  wstep (Pool sv ws sg) s' -> s' = Pool sv ws sg.
Proof.
  intros Hr Hs Hq Hf Hst. inversion Hst as [? ? ? i w st sv' Hi E|? ? ? i w t now now' sv' Hi E]; subst;
    destruct (Forall_lookup_1 _ _ _ _ Hf Hi) as [Hw|[Hrun Hb]]; try done.
  destruct (helpless_iteration _ _ _ _ Hr Hs Hq Hb E) as [-> ->]. by rewrite list_insert_id.
Qed.

Definition asleep_but_low : list (worker * wstate) :=
  [(HighWorker, Waiting); (HighWorker, Waiting); (MidWorker, Waiting); (LowWorker, Running)].

Lemma all_wait : pool_reachable (Pool init_server ((fun x => (x.1, Waiting)) <$> asleep_but_low) SigIdle).
Proof.
  assert (forall w, worker_iteration w init_server = Ret (Waiting, init_server)) as Hw by done.
  assert (forall ws i w, pool_reachable (Pool init_server ws SigIdle) -> ws !! i = Some (w, Running) ->
    pool_reachable (Pool init_server (<[i := (w, Waiting)]> ws) SigIdle)) as Hstep.
  { intros ws i w Hp Hi. eapply pool_step; [exact Hp|]. apply pstep_worker. by eapply wstep_iterate. }
  pose proof (Hstep _ 0%nat HighWorker pool_init eq_refl) as H0.
  pose proof (Hstep _ 1%nat HighWorker H0 eq_refl) as H1.
  pose proof (Hstep _ 2%nat MidWorker H1 eq_refl) as H2.
  exact (Hstep _ 3%nat LowWorker H2 eq_refl).
Qed.

(** A HIGH task whose signal woke the LOW worker. *)
Lemma low_woken t :
  exists sv, pool_reachable (Pool sv asleep_but_low SigIdle) /\ rings_ok sv /\ shutdown sv = false /\
    queued sv = [t] /\ backlog sv HIGH = [t] /\ backlog sv LOW = [].
Proof.
  pose proof (reachable_rings _ _ reach_init) as Hr.
  destruct (enqueue_spec init_message_queue t (queue_ok _ HIGH _ Hr eq_refl)) as [(_ & q & E & Hq & Ha)|[? _]];
    [|done].
  destruct (enqueue_rings init_server HIGH t q Hr E) as (_ & Hr' & Hp).
  exists (set_queue HIGH q init_server). split_and!; [|done|done|by apply Permutation_singleton_r in Hp|done|done].
  eapply pool_step; [apply all_wait|]. eapply (pstep_enqueue _ _ _ HIGH t q); [exact E|done|].
  exact (signal_one (_ <$> asleep_but_low) 3%nat LowWorker eq_refl).
Qed.

(** A wake-up can be lost to the wrong worker.  All threads share one
    condition variable and a task is announced by a single signal, so the signal
    of any HIGH task [t] may wake the LOW worker only.  In that reachable state
    the HIGH workers stay asleep, the LOW worker finds no task it may take but
    does not wait either: every run of the workers stays in that very state. *)
Theorem wakeup_lost (t : task) :
  exists s, pool_reachable s /\ backlog (p_server s) HIGH = [t] /\ p_workers s = asleep_but_low /\
    wstep s s /\ forall s', rtc wstep s s' -> s' = s.
Proof.
  destruct (low_woken t) as (sv & Hreach & Hr & Hs & Hq & Hh & Hl).
  assert (queued sv <> []) as Hne by (by rewrite Hq).
  assert (Forall (fun p => backlog sv p = []) (serves LowWorker)) as Hb by by repeat constructor.
  assert (Forall (helpless sv) asleep_but_low) as Hall.
  { unfold asleep_but_low. rewrite !Forall_cons. split_and!; [by left|by left|by left| |constructor].
    by right. }
  exists (Pool sv asleep_but_low SigIdle). split_and!; [done..| |].
  - destruct (worker_iterates LowWorker sv Hr) as (st & sv' & Ei & _).
    destruct (helpless_iteration _ _ _ _ Hr Hs Hne Hb Ei) as [-> ->].
    by apply (wstep_iterate sv asleep_but_low SigIdle 3%nat LowWorker Running sv).
  - intros s' Hrun. remember (Pool sv asleep_but_low SigIdle) as s eqn:Es.
    induction Hrun as [s|s1 s2 s3 H1 _ IH]; [done|]. subst s1.
    apply helpless_stuck in H1; [|done..]. subst s2. by apply IH.
Qed.

Lemma backlog_keeps_a_worker_awake_witness :
  exists sv i w st, queued sv = [zero_task] /\
    asleep_but_low !! i = Some (w, st) /\ (st = Running \/ exists t, st = Busy t).
Proof.
  destruct (low_woken zero_task) as (sv & Hr & _ & _ & Hq & _).
  destruct (backlog_keeps_a_worker_awake (Pool sv asleep_but_low SigIdle) Hr eq_refl) as (i & w & st & Hi & Hst);
    [cbn [p_server]; rewrite Hq; discriminate|].
  exists sv, i, w, st. split; [exact Hq|]. split; [exact Hi|exact Hst].
Defined.

(** How many steps a worker may still make once it sees the shutdown flag. *)
Definition remaining (x : worker * wstate) : Z :=
  match x.2 with Stopped => 0 | Waiting | Running => 1 | Busy _ => 2 end.

Definition pending (ws : list (worker * wstate)) : Z := sum_of remaining ws.

Lemma pending_zero ws : pending ws = 0 <-> Forall (fun x => x.2 = Stopped) ws.
Proof.
  assert (forall x, 0 <= remaining x) as Hr by (by intros [w []]).
  induction ws as [|[w st] ws IH]; [done|]. rewrite Forall_cons, <- IH.
  change (pending ((w, st) :: ws)) with (remaining (w, st) + pending ws).
  pose proof (sum_of_nonneg remaining ws Hr) as Hn. fold (pending ws) in Hn.
  destruct st; cbn [remaining snd]; split; lia || (intros H; destruct H; done || lia) || (split; done || lia).
Qed.

(** Shutdown reaches every worker.  Once [sig_thread] has broadcast, no
    worker sleeps; every further step of a worker brings the pool closer to the
    state in which all have returned, nothing another thread does undoes this,
    and a worker about to look at the queues can only return.  So each thread
    stops after at most the task it is processing, and the joins of main end. *)
Theorem shutdown_stops_workers s :
  pool_reachable s -> p_sig s = SigDone ->
  Forall (fun x => x.2 <> Waiting) (p_workers s) /\
  (forall i w, p_workers s !! i = Some (w, Running) ->
     wstep s (Pool (p_server s) (<[i := (w, Stopped)]> (p_workers s)) (p_sig s))) /\
  (forall s', wstep s s' -> pending (p_workers s') < pending (p_workers s)) /\
  (forall s', pstep s s' -> p_sig s' = SigDone /\ pending (p_workers s') <= pending (p_workers s)) /\
  (pending (p_workers s) = 0 <-> Forall (fun x => x.2 = Stopped) (p_workers s)).
Proof.
  intros [Hr Hn Hf Hid Haw Hdn]%pool_reachable_inv Hs. destruct s as [sv ws sg].
  cbn [p_server p_workers p_sig] in *. subst sg. cbn in Hf. specialize (Hdn eq_refl).
  assert (forall w st sv', worker_iteration w sv = Ret (st, sv') -> st = Stopped /\ sv' = sv) as Hit.
  { intros w st sv' E. by destruct (iteration_inv w sv st sv' Hr E); try congruence. }
  assert (forall s', wstep (Pool sv ws SigDone) s' ->
    p_sig s' = SigDone /\ pending (p_workers s') < pending ws) as Hw.
  { intros s' Hst. inversion Hst as [? ? ? i w st sv' Hi E|? ? ? i w t now now' sv' Hi E]; subst;
      (split; [done|]); cbn [p_workers].
    - destruct (Hit _ _ _ E) as [-> _].
      pose proof (sum_of_insert remaining ws i _ (w, Stopped) Hi). unfold pending. cbn in *. lia.
    - pose proof (sum_of_insert remaining ws i _ (w, Running) Hi). unfold pending. cbn in *. lia. }
  split_and!; [done| | | |apply pending_zero].
  - intros i w Hi. destruct (worker_iterates w sv Hr) as (st & sv' & E & _).
    destruct (Hit _ _ _ E) as [-> ->]. by eapply wstep_iterate.
  - intros s' Hst. by apply Hw.
  - intros s' Hst. inversion Hst as [? ? H|? ? ? p t q sv' ws' E Hc H|? ? ? sv' Hc|? ? ? i w Hi| |]; subst.
    + destruct (Hw _ H). split; [done|lia].
    + by rewrite Hf in E.
    + done.
    + exfalso. by apply (Forall_lookup_1 _ _ _ _ Hdn Hi).
Qed.

Lemma shutdown_stops_workers_witness :
  exists s, pool_reachable s /\ pending (p_workers s) = 4 /\
    Forall (fun x => x.2 <> Waiting) (p_workers s) /\
    forall s', wstep s s' -> pending (p_workers s') < pending (p_workers s).
Proof.
  assert (pool_reachable (Pool (set_shutdown true init_server) (p_workers init_pool) SigDone)) as Hr.
  { eapply pool_step; [eapply pool_step; [apply pool_init|apply pstep_flag]|].
    exact (pstep_broadcast (set_shutdown true init_server) (p_workers init_pool)). }
  eexists. split; [exact Hr|]. split; [reflexivity|].
  destruct (shutdown_stops_workers _ Hr eq_refl) as (H1 & _ & H2 & _). split; [exact H1|exact H2].
Defined.

End DaemonWorkers.
