(* ===== verification/DaemonSafe.v ===== *)
(** * Memory safety of the control plane daemon

    In every reachable state every handler runs without leaving a buffer, a
    table or a queue, whatever the peers send, with one exception: a complete
    frame whose priority is none of the three. *)
From S2P Require Import Prelude Socket Fifo Ring Number Framing Gatewayd DaemonInv DaemonIo.
From S2P Require Import DaemonSess DaemonWorkers.
Import Number Framing Gatewayd DaemonInv DaemonIo DaemonSess DaemonWorkers.
Open Scope c_scope.

Module DaemonSafe.

(** ** Well-formed clients *)

(** The receive state of an open connection between two calls: the current stage
    is not complete, and a payload stage has a valid length. *)
Record rx_ok (c : client) : Prop := {
  rx_msg : msg_wf (c_message c);
  rx_stage : connected c = true -> pending_close c = false -> 0 <= bytes_read c < stage_size (stage c) (c_message c);
  rx_len : stage c = READ_PAYLOAD -> 0 < length_of (c_message c) <= MAX_PAYLOAD_SIZE }.

Record client_ok (c : client) : Prop := {
  co_rx : rx_ok c;
  co_tx : sendq_wf (send_queue c);
  co_session : forall i, session c = Some i -> Z.of_nat i < MAX_SESSIONS }.

Record mem_ok (s : state) : Prop := {
  mo_clients : Forall client_ok (clients s.1);
  mo_sessions : zlen (sessions (table s.1)) = MAX_SESSIONS;
  mo_tasks : Forall (fun t => msg_wf (t_message t)) (outstanding s) }.

(** ** Replies *)

Lemma packet_number m : msg_wf m -> in_u 64 (number_packet m).
Proof.
  intros (Hh & Hb & _). unfold number_packet, HDR_SIZE in *.
  assert (bytes (take 8 (drop 8 (header m)))) as Hs by (by apply Forall_take, Forall_drop).
  pose proof (le_val_bound _ Hs) as Hv. split; [lia|].
  replace (zlen (take 8 (drop 8 (header m)))) with 8 in Hv by len. lia.
Qed.

Lemma set_send_queue_ok q c : client_ok c -> sendq_wf q -> client_ok (set_send_queue q c).
Proof. intros [[? ? ?] ? ?] Hq. split; [by split|done|done]. Qed.

Lemma set_pending_close_ok c : client_ok c -> client_ok (set_pending_close true c).
Proof. intros [[? ? ?] ? ?]. split; [by split|done|done]. Qed.

Lemma set_pending_task_ok n c : client_ok c -> client_ok (set_pending_task n c).
Proof. intros [[? ? ?] ? ?]. split; [by split|done|done]. Qed.

(** Any reply the daemon builds can be queued. *)
Lemma reply_ok c payload k p n :
  client_ok c -> text payload -> zlen payload < MAX_PAYLOAD_SIZE ->
  in_u 32 k -> in_u 32 p -> in_u 64 n ->
  exists m c', build_message payload k p n = Ret m /\ queue_client c m = Ret c' /\ client_ok c' /\
    session c' = session c.
Proof.
  intros Hc Ht Hl Hk Hp Hn.
  destruct (build_carries payload k p n Ht Hl Hk Hp Hn) as (m & E & Hm & _ & _ & _ & Hlen & _).
  assert (sendable m) as Hs by (split; [done|]; rewrite Hlen; pose proof (zlen_nonneg payload); lia).
  destruct (queue_client_spec c m (co_tx _ Hc) Hs) as (q & o & E' & Hq' & _).
  exists m, (set_send_queue q c). split_and!; [done|done|by apply set_send_queue_ok|done].
Qed.

(** ** Reading *)

Lemma recv_part_got ev eof stream n bs stream' :
  0 <= n -> bytes stream -> recv_part ev eof stream n = (Got bs, stream') ->
  0 < zlen bs <= n /\ bytes bs.
Proof.
  intros Hn Hb H. unfold recv_part in H. destruct (recv ev eof stream n) as [r s] eqn:E.
  destruct r as [[|b bs']|err]; [done| |repeat case_match; done]. injection H as <- <-.
  split; [split; [len|by eapply recv_data_bounds]|].
  by eapply recv_data_bytes.
Qed.

Lemma recv_part_rest ev eof stream n p stream' :
  bytes stream -> recv_part ev eof stream n = (p, stream') -> bytes stream'.
Proof.
  intros Hb. unfold recv_part. destruct (recv ev eof stream n) as [r s] eqn:E. intros H.
  assert (s = stream') as <- by (destruct r as [[|]|]; by injection H).
  by eapply recv_rest_bytes.
Qed.

(** The capacity of a stage's buffer. *)
Lemma stage_fits c : rx_ok c -> connected c = true -> pending_close c = false ->
  0 <= bytes_read c < stage_size (stage c) (c_message c) /\
  stage_size (stage c) (c_message c) <= 2048 /\
  (stage c = READ_HEADER -> stage_size (stage c) (c_message c) = 24) /\
  (stage c = READ_CHECKSUM -> stage_size (stage c) (c_message c) = 4).
Proof.
  intros [Hm Hs Hl] Hcon Hp. specialize (Hs Hcon Hp). split; [done|]. destruct (stage c); cbn [stage_size] in *.
  - unfold HDR_SIZE. split_and!; [lia|done|done].
  - specialize (Hl eq_refl). unfold MAX_PAYLOAD_SIZE in Hl.
    rewrite wrap_small by lia. split_and!; [lia|done|done].
  - unfold SUM_SIZE. split_and!; [lia|done|done].
Qed.

Lemma store_part_ok c bs :
  rx_ok c -> connected c = true -> pending_close c = false -> bytes bs ->
  bytes_read c + zlen bs <= stage_size (stage c) (c_message c) ->
  exists m, store_part (stage c) (c_message c) (bytes_read c) bs = Ret m /\ msg_wf m /\
    (stage c <> READ_HEADER -> header m = header (c_message c)).
Proof.
  intros Hr Hcon Hp Hb Hle. destruct (stage_fits c Hr Hcon Hp) as (H0 & Hcap & Hh & Hk).
  destruct (rx_msg _ Hr) as (H1 & B1 & H2 & B2 & H3 & B3).
  unfold HDR_SIZE, MAX_PAYLOAD_SIZE, SUM_SIZE in *. destruct (stage c); cbn [store_part].
  - specialize (Hh eq_refl). destruct (write_bytes (header (c_message c)) (bytes_read c) bs)
      as (h & -> & Hz & Hbz); [lia|lia|done|done|].
    eexists. split; [reflexivity|]. split; [|done]. unfold msg_wf, HDR_SIZE. cbn. split_and!; try done; lia.
  - destruct (write_bytes (message (c_message c)) (bytes_read c) bs)
      as (h & -> & Hz & Hbz); [lia|lia|done|done|].
    eexists. split; [reflexivity|]. split; [|done]. unfold msg_wf, MAX_PAYLOAD_SIZE. cbn. split_and!; try done; lia.
  - specialize (Hk eq_refl). destruct (write_bytes (checksum (c_message c)) (bytes_read c) bs)
      as (h & -> & Hz & Hbz); [lia|lia|done|done|].
    eexists. split; [reflexivity|]. split; [|done]. unfold msg_wf, SUM_SIZE. cbn. split_and!; try done; lia.
Qed.

Lemma length_header m m' : header m' = header m -> length_of m' = length_of m.
Proof. unfold length_of. by intros ->. Qed.

(** The state after a piece was stored: the stage goes on, or the next begins. *)
Lemma stored_ok c m n :
  client_ok c -> msg_wf m -> (stage c <> READ_HEADER -> header m = header (c_message c)) ->
  0 <= n < stage_size (stage c) (c_message c) ->
  client_ok (set_bytes_read n (set_c_message m c)).
Proof.
  intros [[Hm Hs Hl] Ht Hss] Hw Hh Hn. split; [|done|done].
  split; cbn [c_message pending_close bytes_read stage set_bytes_read set_c_message]; [done| |].
  - intros _ _. destruct (stage c); cbn [stage_size] in *; [done| |done].
    by rewrite (length_header _ _ (Hh ltac:(done))).
  - intros E. rewrite (length_header (c_message c) m); [by apply Hl|]. apply Hh. by rewrite E.
Qed.

Lemma next_stage_ok c m st n :
  client_ok c -> msg_wf m -> 0 < stage_size st m ->
  (st = READ_PAYLOAD -> 0 < length_of m <= MAX_PAYLOAD_SIZE) ->
  client_ok (set_stage st (set_bytes_read 0 (set_bytes_read n (set_c_message m c)))).
Proof.
  intros [[Hm Hs Hl] Ht Hss] Hw Hz Hlen. split; [|done|done].
  split; cbn [c_message pending_close bytes_read stage set_bytes_read set_c_message set_stage]; [done| |done].
  intros _ _. lia.
Qed.

Lemma closed_ok c m n :
  client_ok c -> msg_wf m -> stage c <> READ_PAYLOAD ->
  client_ok (set_pending_close true (set_bytes_read n (set_c_message m c))).
Proof. intros [[Hm Hs Hl] Ht Hss] Hw Hst. split; [|done|done]. by split. Qed.

Lemma read_stage_safe script eof stream c :
  client_ok c -> connected c = true -> bytes stream ->
  exists ret c' stream', read_stage script eof stream c = Ret (ret, c', stream') /\
    client_ok c' /\ bytes stream'.
Proof.
  revert c stream. induction script as [|ev script IH]; intros c stream Hc Hcon Hb; cbn [read_stage];
    destruct (pending_close c) eqn:Hp; try by eexists _, _, _.
  destruct (stage_fits c (co_rx _ Hc) Hcon Hp) as (H0 & Hcap & Hh & Hk).
  set (size := stage_size (stage c) (c_message c)) in *.
  rewrite (wrap_small 64) by lia.
  destruct (recv_part ev eof stream (size - bytes_read c)) as [pt stream'] eqn:E.
  pose proof (recv_part_rest _ _ _ _ _ _ Hb E) as Hb'.
  destruct pt as [| | |bs]; [by apply IH|by eexists _, _, _| |].
  { eexists _, _, _. split; [reflexivity|]. split; [by apply set_pending_close_ok|done]. }
  destruct (recv_part_got ev eof stream (size - bytes_read c) bs stream' ltac:(lia) Hb E) as [Hlen Hbs].
  destruct (store_part_ok c bs (co_rx _ Hc) Hcon Hp Hbs ltac:(fold size; lia)) as (m & -> & Hm & Hhd).
  cbn [mbind outcome_bind]. change (bytes_read (set_bytes_read ?n _)) with n.
  destruct (Z.ltb_spec (bytes_read c + zlen bs) size) as [Hlt|Hge].
  { eexists _, _, _. split; [reflexivity|]. split; [|done]. apply stored_ok; auto. fold size. lia. }
  change (stage (set_bytes_read ?n (set_c_message ?m c))) with (stage c).
  destruct (stage c) eqn:Hst.
  - destruct (Z.ltb_spec (length_of m) 0), (Z.ltb_spec MAX_PAYLOAD_SIZE (length_of m)); cbn [orb];
      try (eexists _, _, _; split; [reflexivity|]; split; [|done]; apply closed_ok; congruence).
    apply IH; [|done|done]. apply next_stage_ok; [done|done| |];
      destruct (Z.eqb_spec (length_of m) 0); unfold MAX_PAYLOAD_SIZE in *; try done; cbn [stage_size].
    + rewrite wrap_small; lia.
    + intros _. lia.
  - apply IH; [|done|done]. by apply next_stage_ok.
  - rewrite checksum_ok_spec by done. cbn [mbind outcome_bind].
    assert (client_ok (set_stage READ_HEADER (set_bytes_read 0
      (set_bytes_read (bytes_read c + zlen bs) (set_c_message m c))))) as Hn by by apply next_stage_ok.
    case_match; (eexists _, _, _; split; [reflexivity|]; split; [|done]); [|done].
    destruct Hn as [[? ? ?] ? ?]. split; [by split|done|done].
Qed.

(** ** The handlers, each in a state that is well formed *)

Ltac in_range := unfold in_u, ACK, NACK, LOW, MEDIUM, HIGH, SHUTDOWN_PEER; lia.
Ltac literal := by apply (bool_decide_unpack _); vm_compute.

Section Handlers.
Context (sv : server) (fl : list task) (Hinv : inv (sv, fl)) (Hmem : mem_ok (sv, fl)).

Lemma slot_at i : 0 <= i < FD_SETSIZE ->
  exists c, get_at (clients sv) i = Ret c /\ clients sv !! Z.to_nat i = Some c /\ client_ok c.
Proof.
  intros Hi. pose proof (inv_len _ Hinv) as Hl. cbn [fst] in Hl.
  destruct (get_at_inside (clients sv) i ltac:(lia)) as (c & Hg & Hc). exists c. split_and!; [done|done|].
  by apply (Forall_lookup_1 _ _ _ _ (mo_clients _ Hmem) Hc).
Qed.

Lemma put_ok i c : 0 <= i < FD_SETSIZE -> client_ok c ->
  exists sv', put_client sv i c = Ret sv' /\ sv' = set_clients (<[Z.to_nat i := c]> (clients sv)) sv /\
    mem_ok (sv', fl).
Proof.
  intros Hi Hc. pose proof (inv_len _ Hinv) as Hl. cbn [fst] in Hl. unfold put_client.
  rewrite set_at_inside by lia. cbn [mbind outcome_bind]. eexists. split; [reflexivity|].
  split; [done|]. destruct Hmem. split; [by apply Forall_insert|done|done].
Qed.

Lemma refuse_safe i c m : 0 <= i < FD_SETSIZE -> client_ok c -> msg_wf m ->
  exists sv', refuse sv i c m = Ret sv' /\ mem_ok (sv', fl).
Proof.
  intros Hi Hc Hm. unfold refuse.
  set (cb := if 0 <? pending_task c then set_pending_task (pending_task c - 1) c else c).
  assert (client_ok cb) as Hcb by (unfold cb; case_match; [by apply set_pending_task_ok|done]).
  destruct (reply_ok cb (bstr "SERVER BUSY") NACK LOW (number_packet m)) as (r & c' & E1 & E2 & Hc' & _);
    [done|literal|done|in_range|in_range|by apply packet_number|].
  rewrite E1. cbn [mbind outcome_bind]. rewrite E2. cbn [mbind outcome_bind].
  destruct (put_ok i c' Hi Hc') as (sv' & -> & _ & ?). by exists sv'.
Qed.

Lemma submit_safe i c : 0 <= i < FD_SETSIZE -> client_ok c ->
  shutdown sv = true \/ is_Some (queue_of sv (pri (c_message c))) ->
  exists sv', submit sv i c = Ret sv' /\ mem_ok (sv', fl).
Proof.
  intros Hi Hc Hq. unfold submit. cbv zeta. set (t := Task _ _ _ _).
  assert (msg_wf (t_message t)) as Ht by apply (rx_msg _ (co_rx _ Hc)).
  destruct (refuse_safe i c (t_message t) Hi Hc Ht) as (sr & Er & Hsr).
  destruct (shutdown sv); [by exists sr|]. destruct Hq as [|[q Hq]]; [done|]. rewrite Hq.
  pose proof (queue_of_inv _ _ _ _ Hinv Hq) as Hqi.
  destruct (enqueue_spec q t Hqi) as [(_ & q' & E & Hq' & Ha)|[_ E]];
    rewrite (E : try_enqueue_task false (@Some message_queue q) t = _); [|by exists sr].
  cbn [mbind outcome_bind]. destruct (put_ok i c Hi Hc) as (sv' & -> & -> & Hm).
  eexists. split; [reflexivity|]. destruct Hm as [Hm1 Hm2 Hm3].
  split; cbn [fst snd]; [by rewrite set_queue_frame|by rewrite set_queue_table|].
  unfold outstanding. cbn [fst snd]. rewrite (queued_push _ _ q q' t); [|exact Hq|exact Ha].
  by constructor.
Qed.

(** A readable event: only a complete frame of unknown priority fails. *)
Definition bad_frame (i : Z) (inp : input) : Prop :=
  exists c c' stream, clients sv !! Z.to_nat i = Some c /\
    read_stage (in_script inp) (in_eof inp) (in_stream inp) c = Ret (1, c', stream) /\
    queue_of sv (pri (c_message c')) = None /\ shutdown sv = false.

Lemma readable_safe i ev inp : 0 <= i < FD_SETSIZE -> bytes (in_stream inp) ->
  (exists sv' out, client_readable sv i ev inp = Ret (sv', out) /\ mem_ok (sv', fl)) \/
  client_readable sv i ev inp = Undef /\ bad_frame i inp.
Proof.
  intros Hi Hb. destruct (slot_at i Hi) as (c & Hg & Hl & Hc). unfold client_readable. rewrite Hg.
  cbn [mbind outcome_bind]. destruct (connected c) eqn:Hcon; [|left; by eexists _, _].
  cbn [negb orb]. destruct (negb _); [left; by eexists _, _|].
  destruct (_ =? 0); [left; by eexists _, _|].
  destruct (read_stage_safe (in_script inp) (in_eof inp) (in_stream inp) c Hc Hcon Hb)
    as (ret & c' & stream & E & Hc' & _). rewrite E. cbn [mbind outcome_bind].
  destruct (ret =? 2); [|destruct (Z.eqb_spec ret 1) as [->|]].
  - left. destruct (reply_ok c' (bstr "NACK") NACK LOW (number_packet (c_message c')))
      as (m & c2 & E1 & E2 & Hc2 & _);
      [done|literal|done|in_range|in_range|by apply packet_number, (rx_msg _ (co_rx _ Hc'))|].
    unfold build_nack. rewrite E1. cbn [mbind outcome_bind]. rewrite E2. cbn [mbind outcome_bind].
    destruct (put_ok i c2 Hi Hc2) as (sv' & -> & _ & ?). by eexists _, _.
  - destruct (decide (shutdown sv = true \/ is_Some (queue_of sv (pri (c_message c'))))) as [Hq|Hq].
    + left. destruct (submit_safe i c' Hi Hc' Hq) as (sv' & -> & ?). by eexists _, _.
    + right. assert (shutdown sv = false /\ queue_of sv (pri (c_message c')) = None) as [Hs Hn].
      { split; [destruct (shutdown sv); tauto|]. apply eq_None_not_Some. tauto. }
      split; [|by exists c, c', stream]. unfold submit, try_enqueue_task. by rewrite Hs, Hn.
  - left. destruct (put_ok i c' Hi Hc') as (sv' & -> & _ & ?). by eexists _, _.
Qed.

Lemma session_index s (f : client_session -> client_session) :
  Z.of_nat s < MAX_SESSIONS -> exists sv', update_session s f sv = Ret sv' /\ clients sv' = clients sv /\
    rings sv' = rings sv /\ zlen (sessions (table sv')) = MAX_SESSIONS.
Proof.
  intros Hs. pose proof (mo_sessions _ Hmem) as Hz. cbn [fst] in Hz. unfold update_session.
  destruct (lookup_lt_is_Some_2 (sessions (table sv)) s) as [t ->]; [unfold zlen in Hz; lia|].
  cbn [deref mbind outcome_bind]. eexists. split; [reflexivity|]. split_and!; [done|done|].
  cbn. by rewrite zlen_insert.
Qed.

(** The tables as they are, one client replaced. *)
Lemma mem_slot sv' i c :
  client_ok c -> clients sv' = <[i := c]> (clients sv) -> table sv' = table sv -> rings sv' = rings sv ->
  mem_ok (sv', fl).
Proof.
  intros Hc Hcs Ht Hr. destruct Hmem as [H1 H2 H3]. cbn [fst snd] in *.
  split; cbn [fst snd]; [rewrite Hcs; by apply Forall_insert|by rewrite Ht|].
  by rewrite (rings_outstanding _ _ _ Hr).
Qed.

Lemma put_any s' i c : clients s' = clients sv -> 0 <= i < FD_SETSIZE ->
  put_client s' i c = Ret (set_clients (<[Z.to_nat i := c]> (clients sv)) s').
Proof.
  intros Hs Hi. pose proof (inv_len _ Hinv) as Hl. cbn [fst] in Hl.
  unfold put_client. by rewrite Hs, set_at_inside by lia.
Qed.

Lemma reap_safe i : 0 <= i < FD_SETSIZE -> exists sv', reap_client sv i = Ret sv' /\ mem_ok (sv', fl).
Proof.
  intros Hi. destruct (slot_at i Hi) as (c & Hg & Hl & Hc). unfold reap_client. rewrite Hg.
  cbn [mbind outcome_bind]. destruct (negb _); [by eexists|]. destruct (negb _) eqn:Hn; [by eexists|].
  rewrite put_any; [|by case_match|done]. cbn [mbind outcome_bind]. eexists. split; [reflexivity|].
  eapply mem_slot; [|case_match; cbn; reflexivity|by repeat case_match|by repeat case_match].
  destruct Hc as [[? ? ?] ? ?]. by split; [split|..].
Qed.

Lemma accept_safe script : Forall (fun e => match e with AcceptFd f _ _ _ => 0 <= f | _ => True end) script ->
  exists r sv', handle_accept script sv = Ret (r, sv').
Proof.
  pose proof (inv_len _ Hinv) as Hz. cbn [fst] in Hz. clear Hinv Hmem. revert sv Hz.
  induction script as [|[f reg now now'|err] script IH]; intros s Hz Hs; cbn [handle_accept];
    [by eexists _, _| |by eexists _, _].
  rewrite Forall_cons in Hs. destruct Hs as [Hf Hs]. destruct (Z.leb_spec FD_SETSIZE f); [by apply IH|].
  destruct (get_at_inside (clients s) f ltac:(lia)) as (c & -> & _). cbn [mbind outcome_bind].
  rewrite set_at_inside by lia. cbn [mbind outcome_bind].
  destruct (negb reg); apply IH; try done; repeat case_match; cbn; by rewrite zlen_insert.
Qed.

Lemma writable_safe script i : 0 <= i < FD_SETSIZE ->
  exists sv' out, handle_client_writable script sv i = Ret (sv', out) /\ mem_ok (sv', fl).
Proof.
  intros Hi. destruct (slot_at i Hi) as (c & Hg & Hl & Hc). unfold handle_client_writable. rewrite Hg.
  cbn [mbind outcome_bind]. pose proof (co_tx _ Hc) as Hq. pose proof Hq as (Hri & _ & _).
  destruct (Z.eqb_spec (r_count (send_queue c)) 0) as [|Hne]; [by eexists _, _|].
  destruct (ring_nonempty 16 _ Hri) as (o & l & Ha); [destruct Hri as (_ & _ & ? & _); lia|].
  destruct (chunk_spec script c o l Hq Ha) as (r & q & out & o' & -> & Hq' & Hr & _ & Ha').
  cbn [mbind outcome_bind]. pose proof (set_send_queue_ok q c Hc Hq') as Hc'.
  destruct (Z.eqb_spec r (-1)) as [->|]; [|destruct (Z.eqb_spec r 1) as [->|]].
  - pose proof (adv_ok q o' l Hq' Ha') as Hadv.
    destruct (put_ok i (advance_send_queue (set_pending_close true (set_send_queue q c)))) as (sv' & -> & _ & ?);
      [done| |by eexists _, _]. by apply (set_send_queue_ok _ _ (set_pending_close_ok _ Hc')).
  - cbn [session set_send_queue]. destruct (session c) as [s|] eqn:Hs.
    + destruct (session_index s (fun t => set_packets_out_total (u64 (packets_out_total t + 1)) t))
        as (s1 & E & Hcs & Hrg & Hz); [by apply (co_session _ Hc)|].
      rewrite E. cbn [mbind outcome_bind]. rewrite put_any by done. eexists _, _. split; [reflexivity|].
      destruct Hmem as [H1 H2 H3]. split; cbn [fst snd]; [apply Forall_insert; [done|]|done|].
      * by destruct Hc' as [[? ? ?] ? ?]; split; [split|..].
      * by rewrite (rings_outstanding sv).
    + destruct (put_ok i (set_packet_sent (u64 (packet_sent c + 1)) (set_send_queue q c))) as (sv' & E & _ & ?);
        [done|by destruct Hc' as [[? ? ?] ? ?]; split; [split|..]|].
      cbn [mbind outcome_bind]. change (packet_sent (set_send_queue q c)) with (packet_sent c).
      rewrite E. by eexists _, _.
  - destruct (put_ok i (set_send_queue q c) Hi Hc') as (sv' & -> & _ & ?). by eexists _, _.
Qed.

Lemma take_safe w : exists r, worker_take w sv = Ret r.
Proof.
  unfold worker_take. destruct (_ || _)%bool; [by eexists|].
  assert (forall ps, Forall (fun p => is_Some (queue_of sv p)) ps -> exists r, dequeue_first ps sv = Ret r)
    as Hd.
  { induction 1 as [|p ps [q Hq] _ IH]; cbn [dequeue_first]; [by eexists|]. unfold dequeue_from. rewrite Hq.
    cbn [deref mbind outcome_bind]. pose proof (dequeue_spec q (queue_of_inv _ _ _ _ Hinv Hq)) as Hd.
    destruct (ring_abs q) as [|t l]; [by rewrite Hd|]. destruct Hd as (q' & -> & _). by eexists. }
  destruct (Hd (serves w)) as [r ->]; [destruct w; repeat constructor; eexists; reflexivity|by eexists].
Qed.

(** Replies to a task. *)
Lemma reply_task_ok c m payload k : client_ok c -> msg_wf m -> text payload ->
  zlen payload < MAX_PAYLOAD_SIZE -> in_u 32 k ->
  exists c', (r ← build_message payload k LOW (number_packet m); queue_client c r) = Ret c' /\ client_ok c'.
Proof.
  intros Hc Hm Ht Hl Hk.
  destruct (reply_ok c payload k LOW (number_packet m) Hc Ht Hl Hk) as (r & c' & E1 & E2 & Hc' & _);
    [in_range|by apply packet_number|].
  exists c'. rewrite E1. cbn [mbind outcome_bind]. by rewrite E2.
Qed.

Lemma answer_safe c m : client_ok c -> msg_wf m -> exists c', answer c m = Ret c' /\ client_ok c'.
Proof.
  intros Hc Hm. unfold answer, get_status_task, set_status_task, get_data_task, get_config_task,
    set_config_task, send_control_task, reply_with, reply_ack, build_ack. cbv zeta.
  repeat match goal with |- context [if ?b then _ else _] => destruct b end;
    try (apply reply_task_ok; [done|done|literal|done|in_range]); [|by eexists].
  eexists. split; [reflexivity|by apply set_pending_close_ok].
Qed.

Lemma text_app l k : text l -> text k -> text (l ++ k).
Proof. intros. by apply Forall_app. Qed.

Lemma num_text bs : num_chars bs -> text bs.
Proof. intros H. eapply Forall_impl; [exact H|]. cbn. lia. Qed.

Lemma identify_text_ok w s : 0 <= client_id s ->
  text (identify_text w s) /\ zlen (identify_text w s) < MAX_PAYLOAD_SIZE.
Proof.
  intros Hs. unfold identify_text. split; [|unfold MAX_PAYLOAD_SIZE; rewrite zlen_take; lia].
  apply Forall_take. repeat apply text_app.
  - destruct w; literal.
  - literal.
  - by apply num_text, dec_digits_chars.
  - literal.
  - apply num_text, fmt_d_chars.
Qed.

(** A reply beside the session table. *)
Lemma reply_pair (tb : session_table) c m payload k : client_ok c -> msg_wf m -> text payload ->
  zlen payload < MAX_PAYLOAD_SIZE -> in_u 32 k ->
  exists c', (r ← build_message payload k LOW (number_packet m); c ← queue_client c r; Ret (tb, c))
    = Ret (tb, c') /\ client_ok c'.
Proof.
  intros Hc Hm Ht Hl Hk.
  destruct (reply_ok c payload k LOW (number_packet m) Hc Ht Hl Hk) as (r & c' & E1 & E2 & Hc' & _);
    [in_range|by apply packet_number|].
  exists c'. rewrite E1. cbn [mbind outcome_bind]. by rewrite E2.
Qed.

Lemma identify_safe now c m : table_ok (table sv) -> client_ok c -> msg_wf m ->
  exists tb c', identify_task now sv c m = Ret (tb, c') /\ zlen (sessions tb) = MAX_SESSIONS /\ client_ok c'.
Proof.
  intros Hok Hc Hm. unfold identify_task. set (n := if SESSION_TOKEN_LEN <=? _ then _ else _).
  assert (0 <= n < SESSION_TOKEN_LEN) as Hn.
  { unfold n. destruct (Z.ltb_spec (length_of m) 0);
      [|destruct (Z.leb_spec SESSION_TOKEN_LEN (length_of m))]; unfold SESSION_TOKEN_LEN in *; cbn; lia. }
  pose proof Hm as (_ & _ & Hz & _). unfold MAX_PAYLOAD_SIZE, SESSION_TOKEN_LEN in *.
  destruct (read_at_inside (message m) 0 n) as (tok & -> & Htok); [lia|lia|lia|]. cbn [mbind outcome_bind].
  destruct (n =? 0).
  { destruct (reply_pair (table sv) c m (bstr "IDENTITY requires a non-empty token") NACK)
      as (c' & -> & Hc'); [done|done|literal|done|in_range|].
    eexists _, _. split; [reflexivity|]. split; [apply (ok_size _ Hok)|done]. }
  pose proof (c_string_le tok) as Hcs.
  destruct (lookup_or_create_slot (table sv) (tok ++ [0]) now Hok) as (r & tb & -> & Hok' & Hr);
    [rewrite c_string_end; unfold SESSION_TOKEN_LEN; lia|]. cbn [mbind outcome_bind].
  destruct r as [[i w]|].
  - destruct Hr as (s & Hs & Hid). rewrite Hs. cbn [deref mbind outcome_bind].
    destruct (identify_text_ok w s ltac:(lia)) as [Ht1 Ht2].
    destruct (reply_pair tb (set_session (Some i) c) m (identify_text w s) ACK)
      as (c' & -> & Hc'); [|done|done|done|in_range|].
    + destruct Hc as [[? ? ?] ? ?]. split; [by split|done|]. intros j [= <-].
      rewrite <- (ok_size _ Hok'). apply lookup_lt_Some in Hs. unfold zlen. lia.
    + eexists _, _. split; [reflexivity|]. split; [apply (ok_size _ Hok')|done].
  - destruct (reply_pair tb c m (bstr "session table full") NACK)
      as (c' & -> & Hc'); [done|done|literal|done|in_range|].
    eexists _, _. split; [reflexivity|]. split; [apply (ok_size _ Hok')|done].
Qed.

Lemma dispatch_safe now c m : table_ok (table sv) -> client_ok c -> msg_wf m ->
  exists tb c', dispatch now sv c m = Ret (tb, c') /\ zlen (sessions tb) = MAX_SESSIONS /\ client_ok c'.
Proof.
  intros Hok Hc Hm. unfold dispatch. destruct (cmd m =? IDENTIFY); [by apply identify_safe|].
  destruct (answer_safe c m Hc Hm) as (c' & -> & Hc'). eexists _, _. split; [reflexivity|].
  split; [apply (ok_size _ Hok)|done].
Qed.
End Handlers.

(** The tables alone, as they are in the middle of [process_task]. *)
Definition tables_ok (sv : server) : Prop :=
  zlen (clients sv) = FD_SETSIZE /\ Forall client_ok (clients sv) /\
  zlen (sessions (table sv)) = MAX_SESSIONS.

Lemma put_tables sv i c : tables_ok sv -> 0 <= i < FD_SETSIZE -> client_ok c ->
  exists sv', put_client sv i c = Ret sv' /\ tables_ok sv'.
Proof.
  intros (Hl & Hcs & Hz) Hi Hc. unfold put_client. rewrite set_at_inside by lia. cbn [mbind outcome_bind].
  eexists. split; [reflexivity|]. split_and!; cbn; [by rewrite zlen_insert|by apply Forall_insert|done].
Qed.

Lemma get_tables sv i : tables_ok sv -> 0 <= i < FD_SETSIZE ->
  exists c, get_at (clients sv) i = Ret c /\ client_ok c.
Proof.
  intros (Hl & Hcs & Hz) Hi. destruct (get_at_inside (clients sv) i ltac:(lia)) as (c & Hg & Hc).
  exists c. split; [done|]. by apply (Forall_lookup_1 _ _ _ _ Hcs Hc).
Qed.

Lemma finish_safe sv t : tables_ok sv -> exists sv', finish_task sv t = Ret sv' /\ tables_ok sv'.
Proof.
  intros Ht. unfold finish_task. destruct (Z.ltb_spec (t_fd t) 0); [by exists sv|].
  destruct (Z.leb_spec FD_SETSIZE (t_fd t)); [by exists sv|]. cbn [orb].
  destruct (get_tables sv (t_fd t) Ht ltac:(lia)) as (c & -> & Hc). cbn [mbind outcome_bind].
  destruct (_ && _)%bool; [|by exists sv]. apply put_tables; [done|lia|by apply set_pending_task_ok].
Qed.

Lemma process_safe sv fl now now' t :
  inv (sv, fl) -> mem_ok (sv, fl) -> table_ok (table sv) -> msg_wf (t_message t) ->
  exists sv', process_task now now' sv t = Ret sv' /\ tables_ok sv'.
Proof.
  intros Hinv Hmem Hok Hm.
  assert (tables_ok sv) as Ht by (split_and!; [apply (inv_len _ Hinv)|apply (mo_clients _ Hmem)|apply (ok_size _ Hok)]).
  unfold process_task. destruct (Z.ltb_spec (t_fd t) 0); [by apply finish_safe|].
  destruct (Z.leb_spec FD_SETSIZE (t_fd t)); [by apply finish_safe|]. cbn [orb].
  destruct (get_tables sv (t_fd t) Ht ltac:(lia)) as (c & -> & Hc). cbn [mbind outcome_bind].
  destruct (negb _); [by apply finish_safe|].
  destruct (dispatch_safe sv now c (t_message t) Hok Hc Hm) as (tb & c' & -> & Hz & Hc').
  cbn [mbind outcome_bind].
  destruct (put_tables (set_table tb sv) (t_fd t) c') as (s1 & -> & Ht1);
    [by destruct Ht as (? & ? & ?)|lia|done|]. cbn [mbind outcome_bind].
  destruct (session c') as [j|] eqn:Hj; [|by apply finish_safe].
  unfold update_session. destruct Ht1 as (Hl1 & Hc1 & Hz1).
  destruct (lookup_lt_is_Some_2 (sessions (table s1)) j) as [x ->].
  { pose proof (co_session _ Hc' j Hj). unfold zlen in Hz1. lia. }
  cbn [deref mbind outcome_bind]. apply finish_safe. split_and!; [done|done|]. cbn. by rewrite zlen_insert.
Qed.

(** ** All reachable states *)

Lemma io_event_safe sv fl l e :
  inv (sv, fl) -> mem_ok (sv, fl) -> e_fd e <> l -> 0 <= e_fd e < FD_SETSIZE ->
  exists sv' out, io_event l sv e = Ret (sv', out) /\ mem_ok (sv', fl).
Proof.
  intros Hinv Hmem Hne Hi. unfold io_event. destruct (Z.eqb_spec (e_fd e) l); [done|].
  destruct (slot_at sv fl Hinv Hmem (e_fd e) Hi) as (c & -> & Hl & Hc). cbn [mbind outcome_bind].
  destruct (_ || _)%bool; [by eexists _, _|].
  assert (exists sv1, (if e_mask e .& (EPOLLHUP .| EPOLLERR .| EPOLLRDHUP) =? 0 then Ret sv
    else put_client sv (e_fd e) (set_pending_close true c)) = Ret sv1 /\ mem_ok (sv1, fl) /\ inv (sv1, fl))
    as (sv1 & -> & Hm1 & Hi1).
  { case_match; [by exists sv|].
    destruct (put_ok sv fl Hinv Hmem (e_fd e) _ Hi (set_pending_close_ok _ Hc)) as (sv1 & -> & -> & Hm1).
    eexists. split; [reflexivity|]. split; [done|].
    by apply (inv_same sv fl _ (Z.to_nat (e_fd e)) c (set_pending_close true c)). }
  cbn [mbind outcome_bind]. destruct (e_mask e .& EPOLLOUT =? 0); [by eexists _, _|].
  by apply writable_safe.
Qed.

Lemma zero_message_wf : msg_wf zero_message.
Proof. by apply (bool_decide_unpack _); vm_compute. Qed.

Lemma init_client_ok f k g n n' : client_ok (set_connected true (set_fd f (init_client k g n n'))).
Proof. split; [split|apply zero_queue_wf|done]; cbn; [apply zero_message_wf|done|done]. Qed.

Lemma zero_client_ok : client_ok zero_client.
Proof. split; [split|apply zero_queue_wf|done]; cbn; [apply zero_message_wf|done|done]. Qed.

Lemma accept_mem sv fl f now now' sv' :
  mem_ok (sv, fl) -> handle_accept [AcceptFd f true now now'] sv = Ret (0, sv') -> mem_ok (sv', fl).
Proof.
  intros [H1 H2 H3] H. pose proof (accept_frame _ _ _ _ H) as Hf. cbn [handle_accept] in H.
  destruct (FD_SETSIZE <=? f); [by injection H as <-|]. peel H as c E. peel H as cs E1.
  apply set_at_Ret in E1 as [_ ->]. injection H as Hsv. injection Hf as Ht Hr Hs.
  split; cbn [fst snd].
  - assert (clients sv' = <[Z.to_nat f := set_connected true (set_fd f (init_client (u64 (next_client_id sv + 1))
      (u64 (generation c + 1)) now now'))]> (clients sv)) as -> by (rewrite <- Hsv; by case_match).
    apply Forall_insert; [done|apply init_client_ok].
  - by rewrite Ht.
  - rewrite (rings_outstanding sv); [done|]. unfold rings. congruence.
Qed.

Lemma take_mem sv fl w t sv' :
  inv (sv, fl) -> mem_ok (sv, fl) -> worker_take w sv = Ret (Some (Some (t, sv'))) -> mem_ok (sv', t :: fl).
Proof.
  intros Hi [H1 H2 H3] H. unfold worker_take in H. destruct (_ || _)%bool; [done|].
  peel H as r E. injection H as ->.
  destruct (dequeue_first_spec _ _ _ _ _ Hi E) as (p & q & q' & _ & Hq & _ & Ha & ->).
  split; cbn [fst snd]; [by rewrite set_queue_frame|by rewrite set_queue_table|].
  unfold outstanding in *. cbn [fst snd] in *. rewrite (queued_pop _ _ _ _ _ Hq Ha) in H3.
  rewrite <- Permutation_middle. done.
Qed.

Lemma step_mem s s' : inv s -> table_ok (table s.1) -> mem_ok s -> step s s' -> mem_ok s'.
Proof.
  intros Hi Ht Hm Hs.
  assert (forall i c, 0 <= i -> clients s.1 !! Z.to_nat i = Some c -> 0 <= i < FD_SETSIZE) as clients_len.
  { intros i c H0 Hc%lookup_lt_Some. pose proof (inv_len _ Hi) as Hl. unfold zlen in Hl. lia. }
  destruct Hs as [sv fl f now now' c sv' _ _ H|sv fl l e sv' out Hne H|sv fl i ev inp sv' out Hb H
    |sv fl i sv' H|sv fl w t sv' H|sv l1 t l2 now now' sv' H|sv fl]; cbn [fst] in Ht, clients_len.
  - by eapply accept_mem.
  - destruct (decide (0 <= e_fd e < FD_SETSIZE)) as [Hr|Hr].
    + destruct (io_event_safe sv fl l e Hi Hm Hne Hr) as (s1 & o1 & E & Hm1).
      rewrite H in E. by injection E as <- <-.
    + exfalso. unfold io_event in H. destruct (Z.eqb_spec (e_fd e) l); [done|]. peel H as c E.
      apply get_at_Ret in E as [E0 E]. by specialize (clients_len _ _ E0 E).
  - destruct (decide (0 <= i < FD_SETSIZE)) as [Hr|Hr].
    + destruct (readable_safe sv fl Hi Hm i ev inp Hr Hb) as [(s1 & o1 & E & Hm1)|Hbad].
      * rewrite H in E. by injection E as <- <-.
      * destruct Hbad as [E _]. by rewrite H in E.
    + exfalso. unfold client_readable in H. peel H as c E. apply get_at_Ret in E as [E0 E]. by specialize (clients_len _ _ E0 E).
  - destruct (decide (0 <= i < FD_SETSIZE)) as [Hr|Hr].
    + destruct (reap_safe sv fl Hi Hm i Hr) as (s1 & E & Hm1). rewrite H in E. by injection E as <-.
    + exfalso. unfold reap_client in H. peel H as c E. apply get_at_Ret in E as [E0 E]. by specialize (clients_len _ _ E0 E).
  - by eapply take_mem.
  - pose proof (mo_tasks _ Hm) as Hts. unfold outstanding in Hts. cbn [fst snd] in Hts.
    rewrite !Forall_app, Forall_cons in Hts. destruct Hts as (Hq & Hl1 & Hw & Hl2).
    destruct (process_safe sv _ now now' t Hi Hm Ht Hw) as (s1 & E & _ & Hc1 & Hz1).
    rewrite H in E. injection E as <-. split; [done|done|].
    apply process_core, core_rings in H as [Hrg _].
    rewrite (rings_outstanding sv _ _ Hrg). unfold outstanding. cbn [fst snd]. by rewrite !Forall_app.
  - destruct Hm. by split.
Qed.

Lemma init_mem : mem_ok (init_server, []).
Proof.
  split; cbn [fst snd]; [|done|constructor]. apply Forall_replicate, zero_client_ok.
Qed.

Lemma reachable_mem s : reachable s -> mem_ok s.
Proof.
  induction 1 as [|s s' Hr IH Hs]; [apply init_mem|].
  by eapply step_mem; [apply reachable_inv|apply reachable_table_ok| |].
Qed.

Definition valid_fds (script : list accept_event) : Prop :=
  Forall (fun e => match e with AcceptFd f _ _ _ => 0 <= f | AcceptErr _ => True end) script.



(** ** Termination *)

Lemma shutdown_built : exists m, shutdown_message = Ret m /\ sendable m.
Proof.
  destruct (build_carries (bstr "server shutting down") SHUTDOWN_PEER HIGH 0)
    as (m & E & Hm & _ & _ & _ & Hl & _); [literal|done|in_range|in_range|in_range|].
  exists m. split; [exact E|]. split; [done|]. rewrite Hl. unfold MAX_PAYLOAD_SIZE. vm_compute. split; discriminate.
Qed.

Definition farewell (m : message_control) (scripts : Z -> list tx_event) (i : Z) (c : client) : list (Z * list Z) :=
  if (connected c && (fd c =? i))%bool then [(i, (send_all (scripts i) (wire m) 0).1.2)] else [].

Lemma farewell_loop_spec m scripts sv n i :
  shutdown_message = Ret m -> sendable m -> 0 <= i -> i + Z.of_nat n <= zlen (clients sv) ->
  farewell_loop n i scripts sv
  = Ret (concat (imap (fun k c => farewell m scripts (i + Z.of_nat k) c)
      (take n (drop (Z.to_nat i) (clients sv))))).
Proof.
  intros Em Hm. revert i. induction n as [|n IH]; intros i Hi Hn; [done|]. cbn [farewell_loop].
  destruct (get_at_inside (clients sv) i ltac:(lia)) as (c & -> & Hc). cbn [mbind outcome_bind].
  rewrite IH by lia. rewrite (drop_S _ _ _ Hc). cbn [take imap concat].
  replace (Z.to_nat (i + 1)) with (S (Z.to_nat i)) by lia. unfold farewell at 2. rewrite Z.add_0_r.
  assert (imap (λ (k : nat) (c0 : client), farewell m scripts (i + 1 + Z.of_nat k) c0)
      (take n (drop (S (Z.to_nat i)) (clients sv)))
    = imap ((λ (k : nat) (c0 : client), farewell m scripts (i + Z.of_nat k) c0) ∘ S)
      (take n (drop (S (Z.to_nat i)) (clients sv)))) as ->.
  { apply imap_ext. intros k x _. cbn. f_equal. lia. }
  destruct (_ && _)%bool; [|done]. rewrite Em. cbn [mbind outcome_bind].
  destruct Hm as [Hwf Hl]. rewrite send_framed_wire by done. cbn [mbind outcome_bind].
  by destruct (send_all _ _ _) as [[r w] sc].
Qed.

(** On SIGTERM every live connection, and no other descriptor, is sent a
    prefix of the shutdown frame (the whole frame when the socket takes it), and
    the shutdown flag is set; nothing else of the server changes. *)
Theorem sig_term_notifies sv fl scripts :
  reachable (sv, fl) ->
  exists m sent, shutdown_message = Ret m /\ sig_term scripts sv = Ret (sent, set_shutdown true sv) /\
  forall i w, (i, w) ∈ sent <->
    exists c, 0 <= i /\ clients sv !! Z.to_nat i = Some c /\ connected c = true /\
      w = (send_all (scripts i) (wire m) 0).1.2 /\ w `prefix_of` wire m.
Proof.
  intros Hr. pose proof (reachable_inv _ Hr) as Hi. pose proof (inv_len _ Hi) as Hl. cbn [fst] in Hl.
  destruct shutdown_built as (m & Em & Hm). exists m. unfold sig_term.
  rewrite (farewell_loop_spec m _ _ _ _ Em Hm) by (rewrite ?Hl; unfold FD_SETSIZE; lia). cbn [mbind outcome_bind].
  eexists. split; [exact Em|]. split; [reflexivity|]. clear Em. intros i w.
  change (drop (Z.to_nat 0) (clients sv)) with (clients sv).
  rewrite take_ge by (unfold zlen in Hl; lia). rewrite list_elem_of_In, in_concat.
  assert ((send_all (scripts i) (wire m) 0).1.2 `prefix_of` wire m) as Hpre.
  { destruct (send_all_prefix (scripts i) (wire m) 0) as (r & s & sc & -> & Hp & _); [|done].
    pose proof (zlen_nonneg (wire m)). lia. }
  split.
  - intros (l & Hin & Hw). apply list_elem_of_In, elem_of_lookup_imap in Hin as (k & c & -> & Hk).
    unfold farewell in Hw. rewrite Z.add_0_l in Hw.
    destruct (connected c) eqn:Hc; [|done]. destruct (Z.eqb_spec (fd c) (Z.of_nat k)); [|done].
    destruct Hw as [[= <- <-]|[]]. exists c. rewrite Nat2Z.id. split_and!; done || lia.
  - intros (c & Hi0 & Hc & Hcon & -> & _). eexists. rewrite <- list_elem_of_In, elem_of_lookup_imap.
    split; [exists (Z.to_nat i), c; split; [reflexivity|done]|].
    pose proof (inv_fd _ Hi _ _ Hc Hcon) as Hfd. unfold farewell. rewrite Z.add_0_l, Z2Nat.id in * by done.
    rewrite Hcon, Hfd, Z.eqb_refl. by left.
Qed.

Lemma sig_term_notifies_witness :
  exists m sent, shutdown_message = Ret m /\
    sig_term (fun _ => [TxAccept 100]) submitted = Ret (sent, set_shutdown true submitted) /\
    forall i w, (i, w) ∈ sent <->
      exists c, 0 <= i /\ clients submitted !! Z.to_nat i = Some c /\ connected c = true /\
        w = (send_all [TxAccept 100] (wire m) 0).1.2 /\ w `prefix_of` wire m.
Proof. exact (sig_term_notifies submitted [] (fun _ => [TxAccept 100]) submitted_reachable). Defined.

End DaemonSafe.
