(* ===== verification/DaemonMain.v ===== *)
(** * The control plane's socket

    The [main] of [unix-domain-socket-control-plane/gatewayd/server.c] around its
    threads, and [connect_to_server] of [common/common.h]: descriptors, the path of the
    socket, and who listens on it. *)
From S2P Require Import Prelude Sys.
Import Sys.
Open Scope c_scope.

Module DaemonMain.

(** The descriptors of all processes, the socket bound to [PATH_SOCKET], and the
    sockets that listen. *)
Record net := Net { n_sys : sys; at_path : option Z; listening : gset Z }.

Definition set_sys (s : sys) (n : net) : net := Net s (at_path n) (listening n).

Definition net_call (n : net) : Z * net := let '(r, s) := call (n_sys n) in (r, set_sys s n).
Definition socket (n : net) : Z * net := let '(fd, s) := open_fd (n_sys n) in (fd, set_sys s n).
Definition close_socket (fd : Z) (n : net) : net := Net (close fd (n_sys n)) (at_path n) (listening n ∖ {[fd]}).
Definition unlink (n : net) : net := Net (n_sys n) None (listening n).

(** A path that exists cannot be bound. *)
Definition bind (fd : Z) (n : net) : Z * net :=
  let '(r, n) := net_call n in
  if ((r <? 0) || bool_decide (is_Some (at_path n)))%bool then (-1, n) else (0, Net (n_sys n) (Some fd) (listening n)).

Definition listen (fd : Z) (n : net) : Z * net :=
  let '(r, n) := net_call n in
  if r <? 0 then (-1, n) else (0, Net (n_sys n) (at_path n) ({[fd]} ∪ listening n)).

Definition connect (n : net) : Z * net :=
  let '(r, n) := net_call n in
  if ((r <? 0) || negb (match at_path n with Some l => bool_decide (l ∈ listening n) | None => false end))%bool
  then (-1, n) else (0, n).

(** ** The daemon *)

Record daemon_fds := DaemonFds { epollfd : Z; d_listen : Z }.

(** [init_server] goes on without an epoll descriptor; the registration then fails. *)
Definition daemon_open (n : net) : option daemon_fds * net :=
  let '(epollfd, n) := socket n in
  let '(listen_fd, n) := socket n in
  if listen_fd =? -1 then (None, n)
  else
    let n := unlink n in
    let '(r, n) := bind listen_fd n in
    if r =? -1 then (None, close_socket listen_fd n)
    else
      let '(r, n) := listen listen_fd n in
      if r =? -1 then (None, close_socket listen_fd n)
      else
        let '(r, n) := net_call n in
        if ((r =? -1) || (epollfd =? -1))%bool then (None, n) else (Some (DaemonFds epollfd listen_fd), n).

(** Behind the joins. *)
Definition daemon_close (d : daemon_fds) (n : net) : net := unlink (close_socket (d_listen d) n).

(** ** The client *)

Definition connect_to_server (n : net) : Z * net :=
  let '(fd, n) := socket n in
  if fd =? -1 then (-1, n)
  else
    let '(r, n) := connect n in
    if r =? -1 then (-1, close_socket fd n) else (fd, n).

(** ** What holds *)

Definition net_ok (n : net) : Prop := sys_ok (n_sys n) /\ forall l, l ∈ listening n -> l ∈ y_fds (n_sys n).

Lemma net_call_spec n : exists r s, net_call n = (r, set_sys s n) /\ same_handles (n_sys n) s /\ (r = 0 \/ r = -1).
Proof.
  unfold net_call. pose proof (call_same (n_sys n)) as H. pose proof (call_result (n_sys n)) as Hr.
  destruct (call (n_sys n)) as [r s]. by exists r, s.
Qed.

Lemma socket_spec n : sys_ok (n_sys n) ->
  exists fd s, socket n = (fd, set_sys s n) /\ ((fd = -1 /\ same_handles (n_sys n) s) \/ opens (n_sys n) fd s).
Proof.
  intros Hok. unfold socket. pose proof (open_fd_spec _ Hok) as H. destruct (open_fd (n_sys n)) as [fd s]. by exists fd, s.
Qed.

Lemma opens_not_minus s fd s' : opens s fd s' -> (fd =? -1) = false.
Proof. intros (H & _). destruct (Z.eqb_spec fd (-1)); [lia|done]. Qed.

(** Connecting gives a new descriptor, or leaves none; nothing else changes. *)
Theorem connect_leaves_nothing n : net_ok n ->
  exists fd n', connect_to_server n = (fd, n') /\ at_path n' = at_path n /\ listening n' = listening n /\
    ((fd = -1 /\ same_handles (n_sys n) (n_sys n')) \/ opens (n_sys n) fd (n_sys n')).
Proof.
  intros [Hok Hl]. unfold connect_to_server. destruct (socket_spec n Hok) as (fd & s1 & -> & [[-> Hs]|Ho]).
  { do 2 eexists. split; [done|]. split_and!; try done. by left. }
  rewrite (opens_not_minus _ _ _ Ho). unfold connect.
  destruct (net_call_spec (set_sys s1 n)) as (r & s2 & -> & Hs & _). cbn [set_sys n_sys at_path listening] in *.
  destruct (_ || _)%bool; do 2 eexists; (split; [done|]); (split; [done|]); cbn [n_sys listening close_socket].
  - split; [|left; split; [done|by apply (opens_close _ fd s1)]].
    assert (Hn : fd ∉ listening n) by (intros H%Hl; by destruct Ho as (_ & ? & _)). set_solver.
  - split; [done|]. right. by apply (opens_same _ fd s1).
Qed.

Lemma connect_quiet n l : net_ok n -> y_fails (n_sys n) = [] -> at_path n = Some l -> l ∈ listening n ->
  exists fd n', connect_to_server n = (fd, n') /\ opens (n_sys n) fd (n_sys n').
Proof.
  intros [(H0 & Hbelow & Hr1 & Hr2) _] Hq Hp Hl. unfold connect_to_server, socket, open_fd, call. rewrite Hq.
  change (0 <? 0) with false. cbn match. destruct (Z.eqb_spec (y_next (n_sys n)) (-1)); [lia|].
  unfold connect, net_call, call. cbn [set_sys n_sys y_fails set_y_next set_y_fds]. rewrite Hq.
  change (0 <? 0) with false. cbn [orb at_path listening set_sys]. rewrite Hp, bool_decide_true by done. cbn [negb].
  change (0 =? -1) with false. do 2 eexists. split; [done|]. unfold opens. cbn.
  split_and!; try done; try lia; [intros H; apply Hbelow in H; lia|].
  split_and!; cbn; [lia|..]; intros x Hx; [|apply Hr1 in Hx; lia|apply Hr2 in Hx; lia].
  apply elem_of_union in Hx as [->%elem_of_singleton|Hx]; [lia|]. apply Hbelow in Hx. lia.
Qed.

(** A daemon that has started is reached: it has opened two descriptors, its socket is
    at the path and listens, and a client whose own calls do not fail is connected. *)
Theorem daemon_is_reached n d n' : net_ok n -> daemon_open n = (Some d, n') ->
  net_ok n' /\ y_fds (n_sys n') = {[d_listen d; epollfd d]} ∪ y_fds (n_sys n) /\
  at_path n' = Some (d_listen d) /\ d_listen d ∈ listening n' /\
  (y_fails (n_sys n') = [] -> exists fd n'', connect_to_server n' = (fd, n'') /\ opens (n_sys n') fd (n_sys n'')).
Proof.
  intros [Hok Hl] E. unfold daemon_open in E.
  destruct (socket_spec n Hok) as (ep & s1 & E1 & H1). rewrite E1 in E.
  assert (Hok1 : sys_ok s1) by (destruct H1 as [[_ H]|H]; [by apply H|apply H]).
  destruct (socket_spec (set_sys s1 n) Hok1) as (l & s2 & E2 & H2). rewrite E2 in E. cbn [set_sys n_sys at_path listening] in *.
  destruct H2 as [[-> _]|H2]; [done|]. rewrite (opens_not_minus _ _ _ H2) in E. unfold bind, listen, unlink in E.
  destruct (net_call_spec (Net s2 None (listening n))) as (r3 & s3 & E3 & H3 & _). cbn [set_sys n_sys at_path listening] in E, E3, H3.
  rewrite E3 in E. destruct (r3 <? 0); [done|]. rewrite bool_decide_false in E by by intros []. cbn [orb] in E.
  change (0 =? -1) with false in E. cbn match in E.
  destruct (net_call_spec (Net s3 (Some l) (listening n))) as (r4 & s4 & E4 & H4 & _). cbn [set_sys n_sys at_path listening] in E, E4, H4.
  rewrite E4 in E. destruct (r4 <? 0); [done|]. change (0 =? -1) with false in E. cbn match in E.
  destruct (net_call_spec (Net s4 (Some l) ({[l]} ∪ listening n))) as (r5 & s5 & E5 & H5 & _). cbn [set_sys n_sys at_path listening] in E, E5, H5.
  rewrite E5 in E. destruct (r5 =? -1); [done|]. cbn [orb] in E. destruct (Z.eqb_spec ep (-1)) as [|Hep]; [done|].
  injection E as <- <-. destruct H1 as [[-> _]|H1]; [done|]. cbn [d_listen epollfd n_sys at_path listening].
  assert (Hsame : same_handles s2 s5) by eauto using same_trans.
  pose proof (opens_same _ _ _ _ H2 Hsame) as H2'.
  assert (Hf : y_fds s5 = {[l; ep]} ∪ y_fds (n_sys n)).
  { destruct H2' as (_ & _ & -> & _). destruct H1 as (_ & _ & -> & _). by rewrite (assoc_L (∪)). }
  assert (Hnet : net_ok (Net s5 (Some l) ({[l]} ∪ listening n))).
  { split; cbn; [apply H2'|]. intros x Hx. rewrite Hf. apply elem_of_union in Hx as [Hx|Hx]; [set_solver|]. apply Hl in Hx. set_solver. }
  split_and!; [done|done|done|set_solver|]. cbn [set_sys n_sys]. intros Hq. apply (connect_quiet (Net s5 (Some l) ({[l]} ∪ listening n)) l); [done..|]. cbn. set_solver.
Qed.

(** A second daemon takes the path from the first without noticing it, and the first
    one takes it from the second when it ends: the second then runs and cannot be
    reached. *)
Definition quiet : net := Net (Sys {[0; 1; 2]} ∅ ∅ true 3 []) None ∅.

Definition one_daemon : net := (daemon_open quiet).2.
Definition two_daemons : net := (daemon_open one_daemon).2.

Theorem second_daemon_cut_off :
  (daemon_open quiet).1 = Some (DaemonFds 3 4) /\ (daemon_open one_daemon).1 = Some (DaemonFds 5 6) /\
  4 ∈ listening two_daemons /\ 6 ∈ listening two_daemons /\ at_path two_daemons = Some 6 /\
  (connect_to_server (daemon_close (DaemonFds 3 4) two_daemons)).1 = -1.
Proof. split_and!; try (by vm_compute); apply (bool_decide_unpack _); by vm_compute. Qed.
End DaemonMain.
