(* ===== verification/Posix.v ===== *)
(** * The POSIX gateway core

    [gateway-core-posix]: the ring of sensor records in shared memory, guarded by
    two counting semaphores and a mutex ([common/common.c]), the monitor's view
    of it ([monitor/monitor.c]), and the command queue with its draining at
    shutdown ([sensor/sensor.c]).  Processes interleave between the semaphore
    operations and the locked sections, which is where the code lets them. *)
From S2P Require Import Prelude Ring Fifo.
Open Scope c_scope.

Module Posix.

Definition SHM_VERSION : Z := 1.
Definition SHM_MAGIC : Z := 0x20213026.
Definition BUFFER_CAPACITY : Z := 128.
Definition MAX_MSQ : Z := 10.
Definition SEM_VALUE_MAX : Z := 2 ^ 31 - 1.
Definition EINTR : Z := 4.
Definition EAGAIN : Z := 11.
Definition EINVAL : Z := 22.
Definition EOVERFLOW : Z := 75.
Definition ETIMEDOUT : Z := 110.

(** enum type_message *)
Definition GET_DATA : Z := 1.
Definition STORAGE_DATA : Z := 2.
Definition GET_STATUS : Z := 3.
Definition LOW_ENERY : Z := 4.
Definition SHUTDOWN : Z := 5.

(** enum priority_msq *)
Definition LOW_PRI : Z := 10.
Definition MID_PRI : Z := 20.
Definition HIGH_PRI : Z := 30.

(** [offsetof(struct shm_data, data)] and [sizeof(struct sensor_data)] with the
    types of x86-64 glibc. *)
Definition OFFSET_DATA : Z := 152.
Definition SIZEOF_SENSOR_DATA : Z := 176.

Record message_queue := MessageQueue { msq_type : Z; client_id : Z; message : list Z }.

Record sensor_data := SensorData {
  id_sensor : Z; sd_data : message_queue; humidity : Z; flux : Z; moisture : Z; motion : bool;
  timestamp : Z }.

Definition zero_sensor : sensor_data :=
  SensorData 0 (MessageQueue 0 0 (replicate 128 0)) 0 0 0 false 0.

(** The segment; a semaphore that was never initialised is [None]. *)
Record shm_data := ShmData {
  magic : Z; version : Z; total_size : Z; header_size : Z;
  flags : Z; reserved : Z; capacity : Z; read_index : Z;
  write_index : Z; dropped : Z; items : option Z; spaces : option Z;
  shutdown_flag : Z; data : list sensor_data }.
Definition set_magic (v : Z) (x : shm_data) : shm_data :=
  ShmData v (version x) (total_size x) (header_size x) (flags x) (reserved x) (capacity x)
    (read_index x) (write_index x) (dropped x) (items x) (spaces x) (shutdown_flag x) (data
    x).
Definition set_version (v : Z) (x : shm_data) : shm_data :=
  ShmData (magic x) v (total_size x) (header_size x) (flags x) (reserved x) (capacity x)
    (read_index x) (write_index x) (dropped x) (items x) (spaces x) (shutdown_flag x) (data
    x).
Definition set_total_size (v : Z) (x : shm_data) : shm_data :=
  ShmData (magic x) (version x) v (header_size x) (flags x) (reserved x) (capacity x)
    (read_index x) (write_index x) (dropped x) (items x) (spaces x) (shutdown_flag x) (data
    x).
Definition set_header_size (v : Z) (x : shm_data) : shm_data :=
  ShmData (magic x) (version x) (total_size x) v (flags x) (reserved x) (capacity x)
    (read_index x) (write_index x) (dropped x) (items x) (spaces x) (shutdown_flag x) (data
    x).
Definition set_flags (v : Z) (x : shm_data) : shm_data :=
  ShmData (magic x) (version x) (total_size x) (header_size x) v (reserved x) (capacity x)
    (read_index x) (write_index x) (dropped x) (items x) (spaces x) (shutdown_flag x) (data
    x).
Definition set_reserved (v : Z) (x : shm_data) : shm_data :=
  ShmData (magic x) (version x) (total_size x) (header_size x) (flags x) v (capacity x)
    (read_index x) (write_index x) (dropped x) (items x) (spaces x) (shutdown_flag x) (data
    x).
Definition set_capacity (v : Z) (x : shm_data) : shm_data :=
  ShmData (magic x) (version x) (total_size x) (header_size x) (flags x) (reserved x) v
    (read_index x) (write_index x) (dropped x) (items x) (spaces x) (shutdown_flag x) (data
    x).
Definition set_read_index (v : Z) (x : shm_data) : shm_data :=
  ShmData (magic x) (version x) (total_size x) (header_size x) (flags x) (reserved x)
    (capacity x) v (write_index x) (dropped x) (items x) (spaces x) (shutdown_flag x) (data
    x).
Definition set_write_index (v : Z) (x : shm_data) : shm_data :=
  ShmData (magic x) (version x) (total_size x) (header_size x) (flags x) (reserved x)
    (capacity x) (read_index x) v (dropped x) (items x) (spaces x) (shutdown_flag x) (data
    x).
Definition set_dropped (v : Z) (x : shm_data) : shm_data :=
  ShmData (magic x) (version x) (total_size x) (header_size x) (flags x) (reserved x)
    (capacity x) (read_index x) (write_index x) v (items x) (spaces x) (shutdown_flag x)
    (data x).
Definition set_items (v : option Z) (x : shm_data) : shm_data :=
  ShmData (magic x) (version x) (total_size x) (header_size x) (flags x) (reserved x)
    (capacity x) (read_index x) (write_index x) (dropped x) v (spaces x) (shutdown_flag x)
    (data x).
Definition set_spaces (v : option Z) (x : shm_data) : shm_data :=
  ShmData (magic x) (version x) (total_size x) (header_size x) (flags x) (reserved x)
    (capacity x) (read_index x) (write_index x) (dropped x) (items x) v (shutdown_flag x)
    (data x).
Definition set_shutdown_flag (v : Z) (x : shm_data) : shm_data :=
  ShmData (magic x) (version x) (total_size x) (header_size x) (flags x) (reserved x)
    (capacity x) (read_index x) (write_index x) (dropped x) (items x) (spaces x) v (data x).
Definition set_data (v : list sensor_data) (x : shm_data) : shm_data :=
  ShmData (magic x) (version x) (total_size x) (header_size x) (flags x) (reserved x)
    (capacity x) (read_index x) (write_index x) (dropped x) (items x) (spaces x)
    (shutdown_flag x) v.

(** ** Semaphores *)

Inductive sem_answer := SemOk | SemErr (errno : Z).

Definition sem_trywait (s : option Z) : outcome (sem_answer * option Z) :=
  n ← deref s;
  Ret (if n =? 0 then (SemErr EAGAIN, s) else (SemOk, Some (n - 1))).

Definition sem_post (s : option Z) : outcome (sem_answer * option Z) :=
  n ← deref s;
  Ret (if n =? SEM_VALUE_MAX then (SemErr EOVERFLOW, s) else (SemOk, Some (n + 1))).

(** What [wait_sem] makes of the answer of the call it selects. *)
Definition wait_sem (is_trywait : bool) (timeout : Z) (ans : sem_answer) : Z :=
  match ans with
  | SemOk => 0
  | SemErr errno =>
      if is_trywait then
        if ((errno =? EAGAIN) || (errno =? EINTR) || (errno =? EINVAL))%bool then -1 else 0
      else if negb (timeout =? 0) then
        if ((errno =? EINVAL) || (errno =? ETIMEDOUT))%bool then -1 else 0
      else if ((errno =? EINTR) || (errno =? EINVAL))%bool then -1 else 0
  end.

Definition post_sem (ans : sem_answer) : Z :=
  match ans with
  | SemOk => 0
  | SemErr errno => if ((errno =? EINVAL) || (errno =? EOVERFLOW))%bool then -1 else 0
  end.

(** ** The ring *)

(** [i = (i + 1) % capacity] on [uint32_t]. *)
Definition next_index (i cap : Z) : outcome Z :=
  if cap =? 0 then Undef else Ret (u32 (i + 1) mod cap).

(** The locked section of [storage_data]. *)
Definition write_record (shm : shm_data) (d : sensor_data) : outcome shm_data :=
  a ← set_at (data shm) (write_index shm) d;
  w ← next_index (write_index shm) (capacity shm);
  Ret (set_write_index w (set_data a shm)).

(** The locked section of [get_data]. *)
Definition read_record (shm : shm_data) : outcome (sensor_data * shm_data) :=
  d ← get_at (data shm) (read_index shm);
  r ← next_index (read_index shm) (capacity shm);
  Ret (d, set_read_index r shm).

(** The calls on [spaces] and [items]: the value the code compares with 0. *)
Definition wait_spaces (shm : shm_data) : outcome (Z * shm_data) :=
  '(ans, s) ← sem_trywait (spaces shm); Ret (wait_sem true 0 ans, set_spaces s shm).

Definition wait_items (shm : shm_data) : outcome (Z * shm_data) :=
  '(ans, s) ← sem_trywait (items shm); Ret (wait_sem true 0 ans, set_items s shm).

Definition post_spaces (shm : shm_data) : outcome (Z * shm_data) :=
  '(ans, s) ← sem_post (spaces shm); Ret (post_sem ans, set_spaces s shm).

Definition post_items (shm : shm_data) : outcome (Z * shm_data) :=
  '(ans, s) ← sem_post (items shm); Ret (post_sem ans, set_items s shm).

Definition drop_record (shm : shm_data) : shm_data := set_dropped (u32 (dropped shm + 1)) shm.

(** The record read and printed, if any. *)
Definition get_data (shm : shm_data) : outcome (option sensor_data * shm_data) :=
  '(r, shm) ← wait_items shm;
  if negb (r =? 0) then Ret (None, shm)
  else
    '(d, shm) ← read_record shm;
    '(_, shm) ← post_spaces shm;
    Ret (Some d, shm).

(** Whether the record was stored. *)
Definition storage_data (shm : shm_data) (d : sensor_data) : outcome (bool * shm_data) :=
  '(r, shm) ← wait_spaces shm;
  if negb (r =? 0) then Ret (false, drop_record shm)
  else
    shm ← write_record shm d;
    '(_, shm) ← post_items shm;
    Ret (true, shm).

(** ** Setting up *)

(** A new segment: [ftruncate] fills it with zeros. *)
Definition fresh_shm : shm_data :=
  ShmData 0 0 0 0 0 0 0 0 0 0 None None 0 (replicate (Z.to_nat BUFFER_CAPACITY) zero_sensor).

(** The stores of [init_shm], in order. *)
Definition init_stores (shm : shm_data) : list (shm_data -> shm_data) :=
  [ set_magic SHM_MAGIC; set_version SHM_VERSION;
    set_total_size (u32 (OFFSET_DATA + capacity shm * SIZEOF_SENSOR_DATA));
    set_flags 1; set_reserved 0; set_read_index 0; set_write_index 0; set_dropped 0;
    set_spaces (Some (capacity shm)); set_items (Some 0);
    set_data (replicate (Z.to_nat (capacity shm)) zero_sensor ++ drop (Z.to_nat (capacity shm)) (data shm)) ].

Definition run_stores (stores : list (shm_data -> shm_data)) (shm : shm_data) : shm_data :=
  foldl (fun shm f => f shm) shm stores.

(** [sem_init] refuses a value above its maximum; [memset] must stay inside the
    mapped records. *)
Definition init_shm (shm : shm_data) : outcome (Z * shm_data) :=
  if magic shm =? 0 then
    if SEM_VALUE_MAX <? capacity shm then Ret (-1, run_stores (take 8 (init_stores shm)) shm)
    else if zlen (data shm) <? capacity shm then Undef
    else Ret (0, run_stores (init_stores shm) shm)
  else Ret (0, shm).

(** The part of every main that finds or sets up the segment. *)
Definition attach (shm : shm_data) : outcome (Z * shm_data) :=
  if magic shm =? SHM_MAGIC then Ret (0, shm)
  else init_shm (set_shutdown_flag 0 (set_capacity BUFFER_CAPACITY shm)).

(** ** The monitor *)

(** The record shown as the latest, and the fill level. *)
Definition monitor_latest (shm : shm_data) : outcome (option sensor_data) :=
  if negb (read_index shm =? write_index shm) then
    d ← get_at (data shm) (if write_index shm =? 0 then u32 (capacity shm - 1) else write_index shm - 1);
    Ret (Some d)
  else Ret None.

Definition monitor_count (shm : shm_data) : Z :=
  if read_index shm <=? write_index shm then write_index shm - read_index shm
  else u32 (capacity shm - read_index shm + write_index shm).

(** ** Processes at the ring

    Each process runs [storage_data] and [get_data] one after the other; other
    processes may run between a semaphore call and the locked section.  The two
    logs are the records in the order of the locked sections. *)
Inductive pc := Idle | Reserved (d : sensor_data) | Written | Claimed | Taken.

Record world := World {
  w_shm : shm_data; w_procs : list pc; w_written : list sensor_data; w_read : list sensor_data }.

Inductive ring_step : world -> world -> Prop :=
| put_reserve shm ps wr rd i d shm' :
    ps !! i = Some Idle -> wait_spaces shm = Ret (0, shm') ->
    ring_step (World shm ps wr rd) (World shm' (<[i := Reserved d]> ps) wr rd)
| put_refused shm ps wr rd i r shm' :
    ps !! i = Some Idle -> wait_spaces shm = Ret (r, shm') -> r <> 0 ->
    ring_step (World shm ps wr rd) (World (drop_record shm') ps wr rd)
| put_write shm ps wr rd i d shm' :
    ps !! i = Some (Reserved d) -> write_record shm d = Ret shm' ->
    ring_step (World shm ps wr rd) (World shm' (<[i := Written]> ps) (wr ++ [d]) rd)
| put_post shm ps wr rd i r shm' :
    ps !! i = Some Written -> post_items shm = Ret (r, shm') ->
    ring_step (World shm ps wr rd) (World shm' (<[i := Idle]> ps) wr rd)
| get_claim shm ps wr rd i shm' :
    ps !! i = Some Idle -> wait_items shm = Ret (0, shm') ->
    ring_step (World shm ps wr rd) (World shm' (<[i := Claimed]> ps) wr rd)
| get_empty shm ps wr rd i r shm' :
    ps !! i = Some Idle -> wait_items shm = Ret (r, shm') -> r <> 0 ->
    ring_step (World shm ps wr rd) (World shm' ps wr rd)
| get_read shm ps wr rd i d shm' :
    ps !! i = Some Claimed -> read_record shm = Ret (d, shm') ->
    ring_step (World shm ps wr rd) (World shm' (<[i := Taken]> ps) wr (rd ++ [d]))
| get_post shm ps wr rd i r shm' :
    ps !! i = Some Taken -> post_spaces shm = Ret (r, shm') ->
    ring_step (World shm ps wr rd) (World shm' (<[i := Idle]> ps) wr rd).

(** [n] processes on a segment that was just set up. *)
Definition start (n : nat) (w : world) : Prop :=
  exists shm, attach fresh_shm = Ret (0, shm) /\ w = World shm (replicate n Idle) [] [].

Definition ring_reachable (n : nat) (w : world) : Prop := exists w0, start n w0 /\ rtc ring_step w0 w.

(** ** Commands *)

(** What the clock and [rand] answer while one command is handled. *)
Record draw := Draw { d_time : Z; d_flux : Z; d_humidity : Z; d_moisture : Z }.

Definition random_update_sensor (id : Z) (m : message_queue) (w : draw) : sensor_data :=
  SensorData id m (d_humidity w mod 100) (d_flux w mod 1000) (d_moisture w mod 100) true (u64 (d_time w)).

(** Whether SIGTERM was raised, and the segment. *)
Definition command_handling (ctrl : message_queue) (w : draw) (shm : shm_data) : outcome (bool * shm_data) :=
  let t := msq_type ctrl in
  if t =? 1 then '(_, shm) ← get_data shm; Ret (false, shm)
  else if t =? 2 then '(_, shm) ← storage_data shm (random_update_sensor 101 ctrl w); Ret (false, shm)
  else if t =? 5 then Ret (true, shm)
  else Ret (false, shm).

(** ** The command queue

    A POSIX message queue delivers the oldest message of the highest priority:
    a list in delivery order. *)
Definition mq : Type := list (Z * message_queue).

Fixpoint mq_insert (p : Z) (m : message_queue) (q : mq) : mq :=
  match q with
  | [] => [(p, m)]
  | (p', m') :: q' => if p' <? p then (p, m) :: q else (p', m') :: mq_insert p m q'
  end.

(** [None]: a send without timeout blocks on a full queue. *)
Definition send_to_queue (q : mq) (m : message_queue) (priority timeout : Z) : option (Z * mq) :=
  if zlen q <? MAX_MSQ then Some (0, mq_insert priority m q)
  else if 0 <? timeout then Some (-1, q) else None.

(** One answer: the message, or nothing within the timeout. *)
Definition recv_from_queue (q : mq) : option message_queue * mq :=
  match q with [] => (None, []) | (_, m) :: q => (Some m, q) end.

(** Messages other processes send in the meantime. *)
Definition arrive (q : mq) (ms : list (Z * message_queue)) : mq :=
  foldl (fun q pm => mq_insert pm.1 pm.2 q) q ms.

(** The loop of [drain_mq]; [arrivals] are the messages other processes send
    after each receive.  The commands handled and what is left are returned. *)
Fixpoint drain_mq (fuel : nat) (arrivals : list (list (Z * message_queue))) (ws : nat -> draw)
    (q : mq) (shm : shm_data) : outcome (list message_queue * mq * shm_data) :=
  match fuel with
  | O => Undef
  | S fuel =>
      if zlen q =? 0 then Ret ([], q, shm)
      else
        match recv_from_queue q with
        | (None, q) => Ret ([], q, shm)
        | (Some m, q) =>
            '(_, shm) ← command_handling m (ws 0%nat) shm;
            let q := arrive q (default [] (head arrivals)) in
            '(ms, q, shm) ← drain_mq fuel (tail arrivals) (fun n => ws (S n)) q shm;
            Ret (m :: ms, q, shm)
        end
  end.

(** ** The sensor process *)

(** [message_thread] and [sig_thread] between their locked sections. *)
Inductive mt_pc := MLoop | MStopping | MExited.
Inductive sig_pc := SWait | SStopped | SDone.

Record sensor := Sensor {
  se_running : bool; se_mt : mt_pc; se_sig : sig_pc; se_mq : mq; se_shm : shm_data;
  se_handled : list message_queue }.

Inductive sensor_step : sensor -> sensor -> Prop :=
| mt_receive mt sg q shm hs m q' w b shm' :
    mt = MLoop -> recv_from_queue q = (Some m, q') -> command_handling m w shm = Ret (b, shm') ->
    sensor_step (Sensor true mt sg q shm hs) (Sensor true mt sg q' shm' (hs ++ [m]))
| mt_timeout sg shm hs :
    sensor_step (Sensor true MLoop sg [] shm hs) (Sensor true MLoop sg [] shm hs)
| mt_stop sg q shm hs :
    sensor_step (Sensor false MLoop sg q shm hs) (Sensor false MStopping sg q shm hs)
| mt_drain sg q shm hs fuel arrivals ws ms q' shm' :
    shutdown_flag shm <> 0 -> drain_mq fuel arrivals ws q shm = Ret (ms, q', shm') ->
    sensor_step (Sensor false MStopping sg q shm hs) (Sensor false MExited sg q' shm' (hs ++ ms))
| mt_skip sg q shm hs :
    shutdown_flag shm = 0 ->
    sensor_step (Sensor false MStopping sg q shm hs) (Sensor false MExited sg q shm hs)
| sig_stop run mt q shm hs :
    sensor_step (Sensor run mt SWait q shm hs) (Sensor false mt SStopped q shm hs)
| sig_flag run mt q shm hs :
    sensor_step (Sensor run mt SStopped q shm hs)
                (Sensor run mt SDone q (set_shutdown_flag 1 shm) hs)
| mq_arrival run mt sg q shm hs p m :
    mt <> MExited -> zlen q < MAX_MSQ ->
    sensor_step (Sensor run mt sg q shm hs) (Sensor run mt sg (mq_insert p m q) shm hs).

End Posix.
