(* ===== verification/PosixRing.v ===== *)
(** * The shared-memory ring is a bounded queue

    The invariant of the two-semaphore protocol of [storage_data] and
    [get_data] under every interleaving of any number of processes, the ring as
    an instance of the FIFO interface, and what the monitor shows of it. *)
From S2P Require Import Prelude Ring Fifo Posix.
Import Posix.
Open Scope c_scope.

Module PosixRing.

(** ** The ring behind the indices *)

Definition ring_of (shm : shm_data) (n : Z) : ring sensor_data :=
  Ring (data shm) (write_index shm) (read_index shm) n.

(** [n] records are in the segment. *)
Definition holds (shm : shm_data) (n : Z) (l : list sensor_data) : Prop :=
  0 < capacity shm < 2 ^ 31 /\ ring_inv (capacity shm) (ring_of shm n) /\ ring_abs (ring_of shm n) = l.

Lemma holds_length shm n l : holds shm n l -> zlen l = n /\ 0 <= n <= capacity shm.
Proof.
  intros (Hc & Hi & <-). split; [by apply (ring_abs_length (capacity shm))|].
  by destruct Hi as (_ & _ & ? & _).
Qed.

Lemma next_index_spec i cap : 0 <= i < cap -> cap < 2 ^ 31 -> next_index i cap = Ret ((i + 1) mod cap).
Proof.
  intros Hi Hc. unfold next_index. destruct (Z.eqb_spec cap 0); [lia|].
  by rewrite (wrap_small 32) by lia.
Qed.

Lemma write_record_spec shm n l d :
  holds shm n l -> n < capacity shm ->
  exists shm', write_record shm d = Ret shm' /\ holds shm' (n + 1) (l ++ [d]) /\
    items shm' = items shm /\ spaces shm' = spaces shm /\ capacity shm' = capacity shm.
Proof.
  intros (Hc & Hi & Ha) Hn. destruct (ring_put_spec (capacity shm) _ d Hi Hn) as (r & Hp & Hi' & Ha' & _).
  unfold ring_put in Hp. peel Hp as a E. injection Hp as <-. cbn [r_data r_head ring_of] in E.
  unfold write_record. rewrite E. cbn [mbind outcome_bind].
  assert (0 <= write_index shm < capacity shm).
  { destruct Hi as (_ & _ & _ & Hh). cbn in Hh. rewrite Hh. apply Z.mod_pos_bound. lia. }
  rewrite next_index_spec by lia. cbn [mbind outcome_bind].
  eexists. split; [reflexivity|]. rewrite Ha in Ha'. split_and!; done.
Qed.

Lemma read_record_spec shm n d l :
  holds shm n (d :: l) ->
  exists shm', read_record shm = Ret (d, shm') /\ holds shm' (n - 1) l /\
    items shm' = items shm /\ spaces shm' = spaces shm /\ capacity shm' = capacity shm.
Proof.
  intros (Hc & Hi & Ha). destruct (ring_advance_spec (capacity shm) _ d l Hi Ha) as (Hg & Hi' & Ha').
  unfold read_record. cbn [r_data r_tail ring_of] in Hg. rewrite Hg. cbn [mbind outcome_bind].
  destruct Hi as (_ & Ht & _). cbn in Ht.
  rewrite next_index_spec by lia. cbn [mbind outcome_bind]. eexists. split; [reflexivity|]. done.
Qed.

(** The write index of a ring that is neither empty nor full. *)
Lemma ring_indices shm n l : holds shm n l ->
  zlen (data shm) = capacity shm /\ 0 <= read_index shm < capacity shm /\
  (write_index shm = read_index shm + n \/ write_index shm = read_index shm + n - capacity shm) /\
  0 <= write_index shm < capacity shm.
Proof.
  intros (Hc & (Hd & Ht & Hn & Hh) & _). cbn in Hd, Ht, Hn, Hh. split_and!; [done|lia|lia| | |].
  - rewrite Hh. destruct (decide (read_index shm + n < capacity shm)).
    + left. by rewrite Z.mod_small by lia.
    + right. symmetry. apply (Z.mod_unique_pos _ _ 1); lia.
  - rewrite Hh. apply Z.mod_pos_bound. lia.
  - rewrite Hh. apply Z.mod_pos_bound. lia.
Qed.

(** ** The protocol *)

Definition n_reserved (p : pc) : Z := match p with Reserved _ => 1 | _ => 0 end.
Definition n_written (p : pc) : Z := match p with Written => 1 | _ => 0 end.
Definition n_claimed (p : pc) : Z := match p with Claimed => 1 | _ => 0 end.
Definition n_taken (p : pc) : Z := match p with Taken => 1 | _ => 0 end.

(** Every slot is free, reserved, filled or about to be freed; every record is
    announced, about to be announced or claimed. *)
Record ring_ok (w : world) (content : list sensor_data) : Prop := {
  ro_holds : holds (w_shm w) (zlen content) content;
  ro_log : w_written w = w_read w ++ content;
  ro_spaces : exists s, spaces (w_shm w) = Some s /\ 0 <= s /\
    s + sum_of n_reserved (w_procs w) + zlen content + sum_of n_taken (w_procs w) = capacity (w_shm w);
  ro_items : exists k, items (w_shm w) = Some k /\ 0 <= k /\
    k + sum_of n_claimed (w_procs w) + sum_of n_written (w_procs w) = zlen content }.

Lemma weights_nonneg f : f ∈ [n_reserved; n_written; n_claimed; n_taken] -> forall p, 0 <= f p.
Proof. intros Hf [| | | |]; set_unfold; destruct_or!; subst; done. Qed.

Lemma sums_nonneg ps :
  0 <= sum_of n_reserved ps /\ 0 <= sum_of n_written ps /\ 0 <= sum_of n_claimed ps /\ 0 <= sum_of n_taken ps.
Proof. split_and!; apply sum_of_nonneg, weights_nonneg; set_solver. Qed.

(** What one process contributes. *)
Lemma sums_member ps i p : ps !! i = Some p ->
  n_reserved p <= sum_of n_reserved ps /\ n_written p <= sum_of n_written ps /\
  n_claimed p <= sum_of n_claimed ps /\ n_taken p <= sum_of n_taken ps.
Proof. intros Hi. split_and!; (eapply sum_of_member; [apply weights_nonneg; set_solver|done]). Qed.

(** What moving one process changes. *)
Lemma sums_move ps i p p' : ps !! i = Some p ->
  sum_of n_reserved (<[i := p']> ps) = sum_of n_reserved ps - n_reserved p + n_reserved p' /\
  sum_of n_written (<[i := p']> ps) = sum_of n_written ps - n_written p + n_written p' /\
  sum_of n_claimed (<[i := p']> ps) = sum_of n_claimed ps - n_claimed p + n_claimed p' /\
  sum_of n_taken (<[i := p']> ps) = sum_of n_taken ps - n_taken p + n_taken p'.
Proof. intros Hi. split_and!; by apply sum_of_insert. Qed.

Lemma wait_spaces_spec shm s : spaces shm = Some s ->
  wait_spaces shm = Ret (if s =? 0 then (-1, set_spaces (Some 0) shm) else (0, set_spaces (Some (s - 1)) shm)).
Proof. intros E. unfold wait_spaces. rewrite E. cbn. by destruct (Z.eqb_spec s 0) as [->|]. Qed.

Lemma wait_items_spec shm k : items shm = Some k ->
  wait_items shm = Ret (if k =? 0 then (-1, set_items (Some 0) shm) else (0, set_items (Some (k - 1)) shm)).
Proof. intros E. unfold wait_items. rewrite E. cbn. by destruct (Z.eqb_spec k 0) as [->|]. Qed.

Lemma post_items_spec shm k : items shm = Some k -> k < SEM_VALUE_MAX ->
  post_items shm = Ret (0, set_items (Some (k + 1)) shm).
Proof. intros E Hk. unfold post_items. rewrite E. cbn. destruct (Z.eqb_spec k SEM_VALUE_MAX); [lia|done]. Qed.

Lemma post_spaces_spec shm s : spaces shm = Some s -> s < SEM_VALUE_MAX ->
  post_spaces shm = Ret (0, set_spaces (Some (s + 1)) shm).
Proof. intros E Hk. unfold post_spaces. rewrite E. cbn. destruct (Z.eqb_spec s SEM_VALUE_MAX); [lia|done]. Qed.

Section Steps.
Context (shm : shm_data) (ps : list pc) (wr rd content : list sensor_data).
Context (Hok : ring_ok (World shm ps wr rd) content).

Lemma accounts : exists s k, spaces shm = Some s /\ items shm = Some k /\ 0 <= s /\ 0 <= k /\
  s + sum_of n_reserved ps + zlen content + sum_of n_taken ps = capacity shm /\
  k + sum_of n_claimed ps + sum_of n_written ps = zlen content /\
  0 < capacity shm < 2 ^ 31 /\ zlen content <= capacity shm.
Proof.
  destruct Hok as [Hh Hl (s & Es & Hs & Hs') (k & Ek & Hk & Hk')]. cbn [w_shm w_procs] in *.
  exists s, k. pose proof (holds_length _ _ _ Hh). destruct Hh as (? & _). split_and!; done || lia.
Qed.

Lemma reserve_ok i d shm' : ps !! i = Some Idle -> wait_spaces shm = Ret (0, shm') ->
  ring_ok (World shm' (<[i := Reserved d]> ps) wr rd) content.
Proof.
  intros Hi E. destruct accounts as (s & k & Es & Ek & Hs & Hk & As & Ak & Hc & _).
  rewrite (wait_spaces_spec _ _ Es) in E. destruct (Z.eqb_spec s 0); [done|]. injection E as <-.
  destruct Hok as [Hh Hl _ _]. destruct (sums_move _ _ _ (Reserved d) Hi) as (H1 & H2 & H3 & H4).
  split; cbn [w_shm w_procs w_written w_read]; [done|done| |].
  - exists (s - 1). cbn in *. split_and!; [done|lia|lia].
  - exists k. cbn in *. split_and!; [done|lia|lia].
Qed.

Lemma refused_ok i r shm' : ps !! i = Some Idle -> wait_spaces shm = Ret (r, shm') -> r <> 0 ->
  ring_ok (World (drop_record shm') ps wr rd) content.
Proof.
  intros Hi E Hr. destruct accounts as (s & k & Es & Ek & Hs & Hk & As & Ak & Hc & _).
  rewrite (wait_spaces_spec _ _ Es) in E. destruct (Z.eqb_spec s 0) as [H0|]; [subst s|by injection E as <- <-].
  injection E as _ <-. destruct Hok as [Hh Hl _ _].
  split; cbn [w_shm w_procs w_written w_read]; [done|done|by exists 0|by exists k].
Qed.

Lemma write_ok i d shm' : ps !! i = Some (Reserved d) -> write_record shm d = Ret shm' ->
  ring_ok (World shm' (<[i := Written]> ps) (wr ++ [d]) rd) (content ++ [d]).
Proof.
  intros Hi E. destruct accounts as (s & k & Es & Ek & Hs & Hk & As & Ak & Hc & _).
  destruct Hok as [Hh Hl _ _]. cbn [w_shm w_written w_read] in *.
  destruct (sums_move _ _ _ Written Hi) as (H1 & H2 & H3 & H4). pose proof (sums_nonneg ps).
  destruct (sums_member _ _ _ Hi) as (Hm & _). cbn in *.
  destruct (write_record_spec shm (zlen content) content d Hh ltac:(lia)) as (shm1 & E1 & Hh1 & Hit & Hsp & Hcap).
  rewrite E in E1. injection E1 as <-. assert (zlen (content ++ [d]) = zlen content + 1) as Hlen by len.
  split; cbn [w_shm w_procs w_written w_read]; rewrite ?Hlen.
  - done.
  - by rewrite Hl, app_assoc.
  - exists s. split_and!; [by rewrite Hsp|lia|lia].
  - exists k. split_and!; [by rewrite Hit|lia|lia].
Qed.

Lemma post_item_ok i r shm' : ps !! i = Some Written -> post_items shm = Ret (r, shm') ->
  ring_ok (World shm' (<[i := Idle]> ps) wr rd) content.
Proof.
  intros Hi E. destruct accounts as (s & k & Es & Ek & Hs & Hk & As & Ak & Hc & Hlen).
  destruct Hok as [Hh Hl _ _]. destruct (sums_move _ _ _ Idle Hi) as (H1 & H2 & H3 & H4).
  pose proof (sums_nonneg ps). destruct (sums_member _ _ _ Hi) as (_ & Hm & _). cbn in *.
  rewrite (post_items_spec _ _ Ek) in E by (unfold SEM_VALUE_MAX; lia). injection E as _ <-.
  split; cbn [w_shm w_procs w_written w_read]; [done|done| |].
  - exists s. cbn. split_and!; [done|lia|lia].
  - exists (k + 1). cbn. split_and!; [done|lia|lia].
Qed.

Lemma claim_ok i shm' : ps !! i = Some Idle -> wait_items shm = Ret (0, shm') ->
  ring_ok (World shm' (<[i := Claimed]> ps) wr rd) content.
Proof.
  intros Hi E. destruct accounts as (s & k & Es & Ek & Hs & Hk & As & Ak & Hc & _).
  rewrite (wait_items_spec _ _ Ek) in E. destruct (Z.eqb_spec k 0); [done|]. injection E as <-.
  destruct Hok as [Hh Hl _ _]. destruct (sums_move _ _ _ Claimed Hi) as (H1 & H2 & H3 & H4).
  split; cbn [w_shm w_procs w_written w_read]; [done|done| |].
  - exists s. cbn in *. split_and!; [done|lia|lia].
  - exists (k - 1). cbn in *. split_and!; [done|lia|lia].
Qed.

Lemma empty_ok i r shm' : ps !! i = Some Idle -> wait_items shm = Ret (r, shm') -> r <> 0 ->
  ring_ok (World shm' ps wr rd) content.
Proof.
  intros Hi E Hr. destruct accounts as (s & k & Es & Ek & Hs & Hk & As & Ak & Hc & _).
  rewrite (wait_items_spec _ _ Ek) in E. destruct (Z.eqb_spec k 0) as [H0|]; [subst k|by injection E as <- <-].
  injection E as _ <-. destruct Hok as [Hh Hl _ _].
  split; cbn [w_shm w_procs w_written w_read]; [done|done|by exists s|by exists 0].
Qed.

(** A claim finds a record: the oldest one. *)
Lemma claim_front i : ps !! i = Some Claimed ->
  exists d l shm', content = d :: l /\ read_record shm = Ret (d, shm') /\
    ring_ok (World shm' (<[i := Taken]> ps) wr (rd ++ [d])) l.
Proof.
  intros Hi. destruct accounts as (s & k & Es & Ek & Hs & Hk & As & Ak & Hc & _).
  destruct Hok as [Hh Hl _ _]. cbn [w_shm w_written w_read] in *.
  destruct (sums_move _ _ _ Taken Hi) as (H1 & H2 & H3 & H4). pose proof (sums_nonneg ps).
  destruct (sums_member _ _ _ Hi) as (_ & _ & Hm & _). cbn in *.
  destruct content as [|d l]; [rewrite zlen_nil in *; lia|].
  pose proof (zlen_cons d l) as Hz.
  destruct (read_record_spec shm _ d l Hh) as (shm' & E & Hh' & Hit & Hsp & Hcap).
  exists d, l, shm'. split_and!; [done|done|]. replace (zlen (d :: l) - 1) with (zlen l) in Hh' by lia.
  split; cbn [w_shm w_procs w_written w_read].
  - done.
  - by rewrite Hl, <- app_assoc.
  - exists s. split_and!; [by rewrite Hsp|lia|lia].
  - exists k. split_and!; [by rewrite Hit|lia|lia].
Qed.

Lemma post_space_ok i r shm' : ps !! i = Some Taken -> post_spaces shm = Ret (r, shm') ->
  ring_ok (World shm' (<[i := Idle]> ps) wr rd) content.
Proof.
  intros Hi E. destruct accounts as (s & k & Es & Ek & Hs & Hk & As & Ak & Hc & Hlen).
  destruct Hok as [Hh Hl _ _]. destruct (sums_move _ _ _ Idle Hi) as (H1 & H2 & H3 & H4).
  pose proof (sums_nonneg ps). destruct (sums_member _ _ _ Hi) as (_ & _ & _ & Hm). cbn in *.
  pose proof (zlen_nonneg content).
  rewrite (post_spaces_spec _ _ Es) in E by (unfold SEM_VALUE_MAX; lia). injection E as _ <-.
  split; cbn [w_shm w_procs w_written w_read]; [done|done| |].
  - exists (s + 1). cbn. split_and!; [done|lia|lia].
  - exists k. cbn. split_and!; [done|lia|lia].
Qed.

End Steps.

Lemma ring_step_ok w w' content : ring_ok w content -> ring_step w w' -> exists content', ring_ok w' content'.
Proof.
  intros Hok Hs. destruct Hs.
  - eexists. by eapply reserve_ok.
  - eexists. by eapply refused_ok.
  - eexists. by eapply write_ok.
  - eexists. by eapply post_item_ok.
  - eexists. by eapply claim_ok.
  - eexists. by eapply empty_ok.
  - destruct (claim_front _ _ _ _ _ Hok i H) as (d' & l & s1 & _ & E & Hok'). rewrite H0 in E.
    injection E as <- <-. by exists l.
  - eexists. by eapply post_space_ok.
Qed.

(** The header and the drop counter. *)
Definition header_ok (shm : shm_data) : Prop :=
  magic shm = SHM_MAGIC /\ version shm = SHM_VERSION /\ flags shm = 1 /\ reserved shm = 0 /\
  capacity shm = BUFFER_CAPACITY /\ total_size shm = OFFSET_DATA + capacity shm * SIZEOF_SENSOR_DATA /\
  in_u 32 (dropped shm).

Lemma step_header w w' : ring_step w w' -> header_ok (w_shm w) -> header_ok (w_shm w').
Proof.
  assert (forall shm r s, wait_spaces shm = Ret (r, s) -> header_ok shm -> header_ok s) as H1
    by (intros shm r s H; unfold wait_spaces in H; peel H as x E; destruct x; by injection H as _ <-).
  assert (forall shm r s, wait_items shm = Ret (r, s) -> header_ok shm -> header_ok s) as H2
    by (intros shm r s H; unfold wait_items in H; peel H as x E; destruct x; by injection H as _ <-).
  assert (forall shm r s, post_spaces shm = Ret (r, s) -> header_ok shm -> header_ok s) as H3
    by (intros shm r s H; unfold post_spaces in H; peel H as x E; destruct x; by injection H as _ <-).
  assert (forall shm r s, post_items shm = Ret (r, s) -> header_ok shm -> header_ok s) as H4
    by (intros shm r s H; unfold post_items in H; peel H as x E; destruct x; by injection H as _ <-).
  destruct 1; cbn [w_shm]; [by eapply H1| | |by eapply H4|by eapply H2|by eapply H2| |by eapply H3].
  - intros Hh. apply (H1 _ _ _ H0) in Hh as (? & ? & ? & ? & ? & ? & ?). pose proof (wrap_range 32 (dropped shm' + 1) ltac:(lia)) as Hd.
    split_and!; try done; apply Hd.
  - intros Hh. unfold write_record in H0. peel H0 as a E. peel H0 as x E'. by injection H0 as <-.
  - intros Hh. unfold read_record in H0. peel H0 as a E. peel H0 as x E'. by injection H0 as _ <-.
Qed.

(** The segment after set-up. *)
Definition new_shm : shm_data :=
  ShmData SHM_MAGIC SHM_VERSION (OFFSET_DATA + BUFFER_CAPACITY * SIZEOF_SENSOR_DATA) 0 1 0 BUFFER_CAPACITY
    0 0 0 (Some 0) (Some BUFFER_CAPACITY) 0 (replicate (Z.to_nat BUFFER_CAPACITY) zero_sensor).

Lemma attach_fresh : attach fresh_shm = Ret (0, new_shm).
Proof. vm_compute. reflexivity. Qed.

Lemma new_holds : holds new_shm 0 [].
Proof. split; [done|]. split; [|done]. split_and!; done. Qed.

Lemma idle_sums n : sum_of n_reserved (replicate n Idle) = 0 /\ sum_of n_written (replicate n Idle) = 0 /\
  sum_of n_claimed (replicate n Idle) = 0 /\ sum_of n_taken (replicate n Idle) = 0.
Proof. by induction n. Qed.

Lemma ring_reachable_ok n w :
  ring_reachable n w -> header_ok (w_shm w) /\ exists content, ring_ok w content.
Proof.
  intros (w0 & (shm & E & ->) & Hrun). rewrite attach_fresh in E. injection E as <-.
  assert (header_ok new_shm /\ exists content,
    ring_ok (World new_shm (replicate n Idle) [] []) content) as H0.
  { split; [split_and!; done|]. exists []. destruct (idle_sums n) as (H1 & H2 & H3 & H4).
    split; [apply new_holds|done| |]; cbn [w_shm w_procs].
    - exists BUFFER_CAPACITY. rewrite H1, H4. done.
    - exists 0. rewrite H2, H3. done. }
  remember (World new_shm (replicate n Idle) [] []) as w0 eqn:Ew.
  assert (header_ok (w_shm w0)) as Hc by (rewrite Ew; apply H0).
  destruct H0 as [_ H0]. clear Ew. revert Hc H0.
  induction Hrun as [w|w1 w2 w3 Hs _ IH]; [done|]. intros Hc [content Hok]. apply IH.
  - by apply (step_header _ _ Hs).
  - by eapply ring_step_ok.
Qed.

(** C10: the shared ring is a bounded queue under every interleaving.  Whatever
    processes run [storage_data] and [get_data] concurrently, the records read
    are the records written, in the order of the locked sections; at most 128 are
    inside; a process that got its semaphore finds a free slot or a record, so no
    slot is overwritten before it is read and none is read before it is written;
    and neither semaphore ever overflows. *)
Theorem ring_is_bounded_queue n w :
  ring_reachable n w ->
  exists content, w_written w = w_read w ++ content /\ zlen content <= BUFFER_CAPACITY /\
  (forall i d, w_procs w !! i = Some (Reserved d) ->
     zlen content < BUFFER_CAPACITY /\ exists shm', write_record (w_shm w) d = Ret shm') /\
  (forall i, w_procs w !! i = Some Claimed ->
     exists d l shm', content = d :: l /\ read_record (w_shm w) = Ret (d, shm')) /\
  (forall i, w_procs w !! i = Some Written -> exists shm', post_items (w_shm w) = Ret (0, shm')) /\
  (forall i, w_procs w !! i = Some Taken -> exists shm', post_spaces (w_shm w) = Ret (0, shm')).
Proof.
  intros [(_ & _ & _ & _ & Hcap & _) [content Hok]]%ring_reachable_ok. exists content. destruct w as [shm ps wr rd].
  cbn [w_shm w_procs w_written w_read] in *.
  destruct (accounts _ _ _ _ _ Hok) as (s & k & Es & Ek & Hs & Hk & As & Ak & Hc & Hlen).
  pose proof (sums_nonneg ps). pose proof Hok as [Hh Hl _ _]. cbn [w_shm w_procs w_written w_read] in *.
  split_and!; [done|lia|..].
  - intros i d Hi. destruct (sums_member _ _ _ Hi) as (Hm & _). cbn in Hm. split; [lia|].
    destruct (write_record_spec shm _ content d Hh ltac:(lia)) as (shm' & -> & _). by exists shm'.
  - intros i Hi. destruct (claim_front _ _ _ _ _ Hok i Hi) as (d & l & shm' & -> & E & _).
    by exists d, l, shm'.
  - intros i Hi. eexists. apply (post_items_spec _ _ Ek). unfold BUFFER_CAPACITY, SEM_VALUE_MAX in *. lia.
  - intros i Hi. eexists. apply (post_spaces_spec _ _ Es). pose proof (zlen_nonneg content).
    unfold BUFFER_CAPACITY, SEM_VALUE_MAX in *. lia.
Qed.

(** Two processes, one of which has stored a record while the other holds a
    reservation. *)
Definition sample_world : world :=
  World (set_items (Some 0) (set_spaces (Some 126) (set_write_index 1 new_shm)))
    [Written; Reserved zero_sensor] [zero_sensor] [].

Lemma sample_world_reachable : ring_reachable 2 sample_world.
Proof.
  exists (World new_shm (replicate 2 Idle) [] []). split.
  { exists new_shm. split; [apply attach_fresh|done]. }
  eapply rtc_l; [by apply (put_reserve _ _ _ _ 0 zero_sensor)|].
  eapply rtc_l; [by apply (put_reserve _ _ _ _ 1 zero_sensor)|].
  eapply rtc_l; [by apply (put_write _ _ _ _ 0 zero_sensor)|].
  apply rtc_refl.
Qed.

Lemma ring_is_bounded_queue_witness :
  exists content, [zero_sensor] = [] ++ content /\
    exists shm', write_record (w_shm sample_world) zero_sensor = Ret shm'.
Proof.
  destruct (ring_is_bounded_queue 2 sample_world sample_world_reachable)
    as (content & Hlog & _ & Hw & _).
  exists content. split; [exact Hlog|]. exact (proj2 (Hw 1%nat zero_sensor eq_refl)).
Defined.

(** C39: the segment stays well typed.  In every reachable state the header is the
    one [init_shm] wrote, both indices are [uint32_t] values below the capacity,
    the record array has exactly that many elements, both semaphores hold values
    from 0 to the capacity, and the drop counter is a [uint32_t]. *)
Theorem segment_well_typed n w :
  ring_reachable n w ->
  header_ok (w_shm w) /\ zlen (data (w_shm w)) = capacity (w_shm w) /\
  0 <= read_index (w_shm w) < capacity (w_shm w) /\ 0 <= write_index (w_shm w) < capacity (w_shm w) /\
  (exists s k, spaces (w_shm w) = Some s /\ items (w_shm w) = Some k /\
     0 <= s <= capacity (w_shm w) /\ 0 <= k <= capacity (w_shm w)).
Proof.
  intros Hr. pose proof (ring_reachable_ok n w Hr) as [Hhd [content Hok]]. split; [done|].
  destruct w as [shm ps wr rd]. pose proof (sums_nonneg ps). cbn [w_shm] in *.
  destruct (accounts _ _ _ _ _ Hok) as (s & k & Es & Ek & Hs & Hk & As & Ak & Hc & Hlen).
  destruct Hok as [Hh _ _ _]. destruct (ring_indices _ _ _ Hh) as (Hd & Hri & _ & Hwi).
  pose proof (zlen_nonneg content). cbn [w_shm] in *. split_and!; try done; try lia.
  exists s, k. split_and!; done || lia.
Qed.

Lemma segment_well_typed_witness : 0 <= write_index (w_shm sample_world) < capacity (w_shm sample_world).
Proof. exact (proj1 (proj2 (proj2 (proj2 (segment_well_typed 2 sample_world sample_world_reachable))))). Defined.

(** ** One process at a time: the FIFO interface *)

Definition seq_ok (shm : shm_data) : Prop :=
  exists n, holds shm n (ring_abs (ring_of shm n)) /\ items shm = Some n /\ spaces shm = Some (capacity shm - n).

#[export] Instance shm_fifo : Fifo shm_data sensor_data := {|
  fifo_inv := seq_ok;
  fifo_abs := fun shm => ring_abs (ring_of shm (default 0 (items shm)));
  fifo_cap := fun shm => Some (capacity shm);
  fifo_ready := fun _ _ => True;
  fifo_env := eq;
  fifo_push := fun shm d => '(ok, shm) ← storage_data shm d; Ret (if ok : bool then Some shm else None);
  fifo_pop := fun shm => '(r, shm) ← get_data shm; Ret (match r with Some d => Some (d, shm) | None => None end) |}.

Lemma storage_data_spec shm n d :
  holds shm n (ring_abs (ring_of shm n)) -> items shm = Some n -> spaces shm = Some (capacity shm - n) ->
  if n <? capacity shm then
    exists shm', storage_data shm d = Ret (true, shm') /\
      holds shm' (n + 1) (ring_abs (ring_of shm n) ++ [d]) /\ items shm' = Some (n + 1) /\
      spaces shm' = Some (capacity shm' - (n + 1)) /\ capacity shm' = capacity shm
  else exists shm', storage_data shm d = Ret (false, shm') /\ seq_ok shm'.
Proof.
  intros Hh Hi Hs. pose proof (holds_length _ _ _ Hh) as [_ Hn]. unfold storage_data.
  rewrite (wait_spaces_spec _ _ Hs). cbn [mbind outcome_bind].
  destruct (Z.eqb_spec (capacity shm - n) 0), (Z.ltb_spec n (capacity shm)); try lia;
    cbn [negb Z.eqb].
  { eexists. split; [reflexivity|]. exists n. split_and!; [done|done|]. cbn. f_equal. lia. }
  destruct (write_record_spec (set_spaces (Some (capacity shm - n - 1)) shm) n _ d Hh ltac:(cbn; lia))
    as (shm1 & -> & Hh1 & Hi1 & Hs1 & Hc1). cbn [mbind outcome_bind]. cbn in Hi1, Hs1, Hc1.
  rewrite Hi in Hi1. destruct Hh as (Hcap & _).
  rewrite (post_items_spec _ _ Hi1) by (unfold SEM_VALUE_MAX; lia). cbn [mbind outcome_bind].
  eexists. split; [reflexivity|]. split; [exact Hh1|]. cbn. rewrite Hs1, Hc1. split_and!; [done|f_equal; lia|done].
Qed.

Lemma get_data_spec shm n :
  holds shm n (ring_abs (ring_of shm n)) -> items shm = Some n -> spaces shm = Some (capacity shm - n) ->
  match ring_abs (ring_of shm n) with
  | [] => exists shm', get_data shm = Ret (None, shm') /\ seq_ok shm'
  | d :: l => exists shm', get_data shm = Ret (Some d, shm') /\ holds shm' (n - 1) l /\
      items shm' = Some (n - 1) /\ spaces shm' = Some (capacity shm' - (n - 1)) /\ capacity shm' = capacity shm
  end.
Proof.
  intros Hh Hi Hs. pose proof (holds_length _ _ _ Hh) as [Hl Hn]. unfold get_data.
  rewrite (wait_items_spec _ _ Hi). cbn [mbind outcome_bind].
  destruct (ring_abs (ring_of shm n)) as [|d l] eqn:Ha.
  - rewrite zlen_nil in Hl. subst n. cbn. eexists. split; [reflexivity|]. exists 0. split_and!; done.
  - rewrite zlen_cons in Hl. pose proof (zlen_nonneg l). destruct (Z.eqb_spec n 0); [lia|].
    cbn [negb Z.eqb].
    destruct (read_record_spec (set_items (Some (n - 1)) shm) n d l Hh)
      as (shm1 & -> & Hh1 & Hi1 & Hs1 & Hc1). cbn [mbind outcome_bind]. cbn in Hi1, Hs1, Hc1.
    rewrite Hs in Hs1. destruct Hh as (Hcap & _).
    rewrite (post_spaces_spec _ _ Hs1) by (unfold SEM_VALUE_MAX; lia). cbn [mbind outcome_bind].
    eexists. split; [reflexivity|]. split; [exact Hh1|]. cbn. rewrite Hi1, Hc1.
    split_and!; [done|f_equal; lia|done].
Qed.

Lemma seq_holds shm n l : holds shm n l -> items shm = Some n -> spaces shm = Some (capacity shm - n) ->
  seq_ok shm /\ ring_abs (ring_of shm (default 0 (items shm))) = l.
Proof.
  intros Hh Hi Hs. pose proof Hh as (? & ? & Ha). rewrite Hi. change (default 0 (Some n)) with n.
  split; [|exact Ha]. exists n. by rewrite Ha.
Qed.

#[export] Instance shm_fifo_laws : FifoLaws shm_data sensor_data.
Proof.
  split; cbn [fifo_inv fifo_abs fifo_cap fifo_ready fifo_env fifo_push fifo_pop shm_fifo];
    unfold fifo_room; cbn [fifo_cap fifo_abs shm_fifo].
  - intros shm d (n & Hh & Hi & Hs) _ Hroom. rewrite Hi in Hroom |- *. change (default 0 (Some n)) with n in Hroom |- *.
    pose proof (holds_length _ _ _ Hh) as [Hlen _]. cbn in Hroom. pose proof (storage_data_spec shm n d Hh Hi Hs) as Hd.
    destruct (Z.ltb_spec n (capacity shm)); [|lia]. destruct Hd as (shm' & -> & Hh' & Hi' & Hs' & Hc').
    eexists. split; [reflexivity|]. rewrite Hc'. by destruct (seq_holds _ _ _ Hh' Hi' Hs').
  - intros shm d (n & Hh & Hi & Hs) Hfull. rewrite Hi in Hfull. cbn in Hfull.
    pose proof (holds_length _ _ _ Hh) as [Hlen _]. pose proof (storage_data_spec shm n d Hh Hi Hs) as Hd.
    destruct (Z.ltb_spec n (capacity shm)); [lia|]. by destruct Hd as (shm' & -> & _).
  - intros shm (n & Hh & Hi & Hs) Ha. rewrite Hi in Ha. change (default 0 (Some n)) with n in Ha.
    pose proof (get_data_spec shm n Hh Hi Hs) as Hd. rewrite Ha in Hd. by destruct Hd as (shm' & -> & _).
  - intros shm d l (n & Hh & Hi & Hs) Ha. rewrite Hi in Ha. change (default 0 (Some n)) with n in Ha.
    pose proof (get_data_spec shm n Hh Hi Hs) as Hd. rewrite Ha in Hd.
    destruct Hd as (shm' & -> & Hh' & Hi' & Hs' & Hc').
    eexists. split; [reflexivity|]. rewrite Hc'. by destruct (seq_holds _ _ _ Hh' Hi' Hs').
  - by intros shm shm' Hi <-.
  - intros shm m (n & Hh & Hi & Hs) [= <-]. rewrite Hi. change (default 0 (Some n)) with n.
    pose proof (holds_length _ _ _ Hh). lia.
Qed.

(** ** The monitor *)

Lemma window_last (a : list sensor_data) tail n d l :
  0 <= tail < zlen a -> 0 <= n < zlen a -> window a tail (n + 1) = l ++ [d] ->
  a !! Z.to_nat ((tail + n) mod zlen a) = Some d.
Proof.
  intros Ht Hn Hw. rewrite <- (window_lookup a tail (n + 1) n) by lia. rewrite Hw.
  assert (zlen (l ++ [d]) = n + 1) as Hl by (rewrite <- Hw; apply window_length; lia).
  rewrite lookup_app_r by (unfold zlen in *; rewrite length_app in Hl; cbn in Hl; lia).
  replace (Z.to_nat n - length l)%nat with 0%nat by (unfold zlen in *; rewrite length_app in Hl; cbn in Hl; lia).
  done.
Qed.

(** The monitor's view.  Below capacity the monitor shows exactly the number
    of records and the newest one; a full ring, whose two indices are equal, is
    shown as an empty one. *)
Theorem monitor_view shm n l :
  holds shm n l ->
  monitor_count shm = (if n =? capacity shm then 0 else n) /\
  monitor_latest shm = Ret (if n =? capacity shm then None else last l).
Proof.
  intros Hh. destruct (ring_indices shm n l Hh) as (Hd & Hr & Hw & Hwr).
  pose proof (holds_length _ _ _ Hh) as [Hl Hn]. pose proof Hh as (Hc & _ & Ha).
  unfold monitor_count, monitor_latest. destruct (Z.eqb_spec n (capacity shm)) as [E|E].
  - assert (write_index shm = read_index shm) as -> by lia. rewrite Z.leb_refl, Z.eqb_refl.
    split; [lia|done].
  - split.
    { destruct (Z.leb_spec (read_index shm) (write_index shm)); [lia|]. rewrite (wrap_small 32); lia. }
    destruct (decide (n = 0)) as [->|Hn0].
    { assert (write_index shm = read_index shm) as -> by lia. rewrite Z.eqb_refl.
      by destruct l; [|rewrite zlen_cons in Hl; pose proof (zlen_nonneg l); lia]. }
    destruct (Z.eqb_spec (read_index shm) (write_index shm)); [lia|]. cbn [negb].
    destruct (exists_last (l := l)) as (l' & d & ->).
    { intros ->. rewrite zlen_nil in Hl. lia. }
    rewrite last_snoc.
    assert (data shm !! Z.to_nat ((read_index shm + (n - 1)) mod zlen (data shm)) = Some d) as Hlast.
    { apply (window_last _ _ _ d l'); [lia|lia|]. by replace (n - 1 + 1) with n by lia. }
    assert ((if write_index shm =? 0 then u32 (capacity shm - 1) else write_index shm - 1)
      = (read_index shm + (n - 1)) mod zlen (data shm)) as ->.
    { rewrite Hd. destruct (Z.eqb_spec (write_index shm) 0) as [E0|E0].
      - rewrite (wrap_small 32) by lia. rewrite Z.mod_small; lia.
      - destruct Hw as [Hw|Hw]; [rewrite Z.mod_small; lia|].
        apply (Z.mod_unique_pos _ _ 1); lia. }
    unfold get_at. pose proof (Z.mod_pos_bound (read_index shm + (n - 1)) (zlen (data shm)) ltac:(lia)).
    destruct (Z.ltb_spec ((read_index shm + (n - 1)) mod zlen (data shm)) 0); [lia|]. by rewrite Hlast.
Qed.

Definition full_shm : shm_data :=
  set_items (Some BUFFER_CAPACITY) (set_spaces (Some 0) (set_read_index 5 (set_write_index 5 new_shm))).

Lemma full_holds : holds full_shm BUFFER_CAPACITY (replicate (Z.to_nat BUFFER_CAPACITY) zero_sensor).
Proof. split; [done|]. split; [split_and!; done|]. vm_compute. reflexivity. Qed.

Lemma monitor_view_witness :
  monitor_count full_shm = 0 /\ monitor_latest full_shm = Ret None /\
  get_data full_shm = Ret (Some zero_sensor, set_items (Some 127) (set_spaces (Some 1) (set_read_index 6 full_shm))).
Proof.
  destruct (monitor_view full_shm BUFFER_CAPACITY _ full_holds) as [H1 H2].
  split; [exact H1|]. split; [exact H2|]. vm_compute. reflexivity.
Defined.

(** ** Set-up *)

(** The segment is published before it is ready.  [init_shm] stores the magic
    number first and initialises the semaphores later, so a process that attaches
    in between takes the segment for complete: it skips the set-up, and its first
    [storage_data] or [get_data] uses a semaphore that does not exist. *)
Theorem init_publishes_early :
  exists k, let shm := set_shutdown_flag 0 (set_capacity BUFFER_CAPACITY fresh_shm) in
    let half := run_stores (take k (init_stores shm)) shm in
    (k < length (init_stores shm))%nat /\ attach half = Ret (0, half) /\ get_data half = Undef /\
    forall d, storage_data half d = Undef.
Proof. exists 1%nat. cbv zeta. split; [cbn; lia|]. split; [vm_compute; reflexivity|]. split; done. Qed.

(** A timed wait that is interrupted is reported as a successful one, although
    the semaphore was not taken. *)
Lemma timed_wait_interrupted timeout : timeout <> 0 -> wait_sem false timeout (SemErr EINTR) = 0.
Proof. intros Ht. unfold wait_sem. by destruct (Z.eqb_spec timeout 0). Qed.

End PosixRing.
