(* ===== verification/PosixQueue.v ===== *)
(** * The command queue of the POSIX gateway core and its draining

    The order in which commands are delivered, that [drain_mq] terminates and
    handles everything that is queued, and how the shutdown of the sensor
    process can miss it. *)
From S2P Require Import Prelude Ring Fifo Posix PosixRing.
Import Posix PosixRing.
Open Scope c_scope.

Module PosixQueue.

(** ** Delivery order *)

(** Priorities never rise along the queue. *)
Fixpoint delivery (q : mq) : Prop :=
  match q with
  | (p, _) :: ((p', _) :: _) as q' => p' <= p /\ delivery q'
  | _ => True
  end.

Fixpoint of_priority (p : Z) (q : mq) : list message_queue :=
  match q with
  | [] => []
  | (p', m) :: q => if p' =? p then m :: of_priority p q else of_priority p q
  end.

Lemma delivery_cons p m q : delivery ((p, m) :: q) <-> Forall (fun x => x.1 <= p) q /\ delivery q.
Proof.
  revert p m. induction q as [|[p' m'] q IH]; intros p m; [by cbn; split|].
  change (delivery ((p, m) :: (p', m') :: q)) with (p' <= p /\ delivery ((p', m') :: q)).
  rewrite Forall_cons. cbn [fst]. rewrite IH. split.
  - intros (Hp & Hf & Hd). split_and!; [done| |done|done]. eapply Forall_impl; [exact Hf|]. cbn. lia.
  - intros ((Hp & _) & Hf & Hd). done.
Qed.

Lemma mq_insert_perm p m q : mq_insert p m q ≡ₚ (p, m) :: q.
Proof.
  induction q as [|[p' m'] q IH]; [done|]. cbn [mq_insert]. destruct (p' <? p); [done|].
  rewrite IH. apply Permutation_swap.
Qed.

Lemma mq_insert_delivery p m q : delivery q -> delivery (mq_insert p m q).
Proof.
  induction q as [|[p' m'] q IH]; [done|]. cbn [mq_insert]. intros Hd.
  destruct (Z.ltb_spec p' p).
  - apply delivery_cons. split; [|done]. apply delivery_cons in Hd as [Hf _].
    constructor; [cbn; lia|]. eapply Forall_impl; [exact Hf|]. cbn. lia.
  - apply delivery_cons in Hd as [Hf Hd]. apply delivery_cons. split; [|by apply IH].
    rewrite mq_insert_perm. by constructor.
Qed.

Lemma of_priority_none p q : Forall (fun x => x.1 < p) q -> of_priority p q = [].
Proof.
  induction 1 as [|[p' m'] q Hp _ IH]; [done|]. cbn in *. destruct (Z.eqb_spec p' p); [lia|done].
Qed.

(** Messages of one priority keep their order of arrival. *)
Lemma mq_insert_fifo p m q p' : delivery q ->
  of_priority p' (mq_insert p m q) = of_priority p' q ++ (if p =? p' then [m] else []).
Proof.
  induction q as [|[p1 m1] q IH]; intros Hd; cbn [mq_insert].
  - cbn. by destruct (p =? p').
  - pose proof Hd as [Hf Hd']%delivery_cons. destruct (Z.ltb_spec p1 p).
    + cbn [of_priority]. fold (of_priority p' ((p1, m1) :: q)). destruct (Z.eqb_spec p p') as [Ep|];
        [subst p'|by rewrite app_nil_r].
      assert (of_priority p ((p1, m1) :: q) = []) as E.
      { apply of_priority_none. constructor; [done|]. eapply Forall_impl; [exact Hf|]. cbn. lia. }
      cbn [of_priority] in E. by rewrite E.
    + cbn [of_priority]. destruct (p1 =? p'); by rewrite IH.
Qed.

(** Commands are delivered by priority and, within one priority, in order of
    arrival; in particular a shutdown request sent with HIGH_PRI overtakes every
    queued test command.  A send is refused exactly when ten messages wait. *)
Theorem command_delivery_order q m p timeout q' :
  delivery q -> send_to_queue q m p timeout = Some (0, q') ->
  delivery q' /\ zlen q < MAX_MSQ /\ zlen q' = zlen q + 1 /\
  (forall p', of_priority p' q' = of_priority p' q ++ (if p =? p' then [m] else [])) /\
  (Forall (fun x => x.1 < p) q -> recv_from_queue q' = (Some m, q)).
Proof.
  intros Hd E. unfold send_to_queue in E. destruct (Z.ltb_spec (zlen q) MAX_MSQ).
  - injection E as <-. split_and!; [by apply mq_insert_delivery|done| | |].
    + unfold zlen. rewrite mq_insert_perm. cbn. lia.
    + intros p'. by apply mq_insert_fifo.
    + intros Hall. destruct q as [|[p1 m1] q]; [done|]. inversion_clear Hall as [|? ? Hp _].
      cbn in Hp. cbn [mq_insert]. by destruct (Z.ltb_spec p1 p); [|lia].
  - by destruct (0 <? timeout).
Qed.

Definition text_command (t : Z) : message_queue := MessageQueue t 7 [].

Definition two_commands : mq := [(MID_PRI, text_command GET_DATA); (MID_PRI, text_command STORAGE_DATA)].

Lemma command_delivery_order_witness :
  recv_from_queue (mq_insert HIGH_PRI (text_command SHUTDOWN) two_commands)
  = (Some (text_command SHUTDOWN), two_commands).
Proof.
  assert (delivery two_commands) as Hd by (split; [vm_compute; discriminate|exact I]).
  assert (Forall (fun x => x.1 < HIGH_PRI) two_commands) as Hf by (repeat constructor).
  destruct (command_delivery_order two_commands (text_command SHUTDOWN) HIGH_PRI 3
    (mq_insert HIGH_PRI (text_command SHUTDOWN) two_commands) Hd eq_refl) as (_ & _ & _ & _ & H).
  exact (H Hf).
Defined.

(** ** Draining *)

Lemma command_ok m w shm : seq_ok shm ->
  exists b shm', command_handling m w shm = Ret (b, shm') /\ seq_ok shm'.
Proof.
  intros Hq. pose proof Hq as (n & Hh & Hi & Hs). unfold command_handling.
  destruct (msq_type m =? 1); [|destruct (msq_type m =? 2); [|by destruct (msq_type m =? 5); eexists _, _]].
  - pose proof (get_data_spec shm n Hh Hi Hs) as Hd. destruct (ring_abs (ring_of shm n)) as [|d l].
    + destruct Hd as (shm' & -> & ?). by eexists _, _.
    + destruct Hd as (shm' & -> & Hh' & Hi' & Hs' & _). eexists _, _. split; [reflexivity|].
      by destruct (seq_holds _ _ _ Hh' Hi' Hs').
  - pose proof (storage_data_spec shm n (random_update_sensor 101 m w) Hh Hi Hs) as Hd.
    destruct (n <? capacity shm).
    + destruct Hd as (shm' & -> & Hh' & Hi' & Hs' & _). eexists _, _. split; [reflexivity|].
      by destruct (seq_holds _ _ _ Hh' Hi' Hs').
    + destruct Hd as (shm' & -> & ?). by eexists _, _.
Qed.

Lemma arrive_perm q ms : arrive q ms ≡ₚ ms ++ q.
Proof.
  revert q. induction ms as [|[p m] ms IH]; intros q; [done|].
  change (arrive q ((p, m) :: ms)) with (arrive (mq_insert p m q) ms).
  rewrite IH, mq_insert_perm. cbn. by rewrite Permutation_middle.
Qed.

(** Draining handles all that is queued and all that arrives before the queue
    was found empty. *)
Lemma drain_all fuel arrivals ws q shm :
  seq_ok shm -> (length q + length (concat arrivals) < fuel)%nat ->
  exists ms shm' k, drain_mq fuel arrivals ws q shm = Ret (ms, [], shm') /\ seq_ok shm' /\
    ms ≡ₚ q.*2 ++ (concat (take k arrivals)).*2.
Proof.
  revert arrivals ws q shm. induction fuel as [|fuel IH]; intros arrivals ws q shm Hok Hf; [lia|].
  cbn [drain_mq]. destruct q as [|[p m] q].
  { exists [], shm, 0%nat. done. }
  destruct (Z.eqb_spec (zlen ((p, m) :: q)) 0) as [E|_].
  { rewrite zlen_cons in E. pose proof (zlen_nonneg q). lia. }
  cbn [recv_from_queue]. destruct (command_ok m (ws 0%nat) shm Hok) as (b & shm1 & -> & Hok1).
  cbn [mbind outcome_bind].
  set (a0 := default [] (head arrivals)). pose proof (arrive_perm q a0) as Hp.
  assert (length (arrive q a0) = length a0 + length q)%nat as Hlen by (rewrite Hp; apply length_app).
  assert (length a0 + length (concat (tail arrivals)) = length (concat arrivals))%nat as Ha.
  { unfold a0. destruct arrivals as [|x l]; [done|]. cbn. by rewrite length_app. }
  cbn [length] in Hf.
  destruct (IH (tail arrivals) (fun n => ws (S n)) (arrive q a0) shm1 Hok1 ltac:(lia))
    as (ms & shm2 & k & -> & Hok2 & Hms).
  cbn [mbind outcome_bind]. exists (m :: ms), shm2, (S k). split_and!; [done|done|].
  rewrite Hms, Hp. destruct arrivals as [|x l].
  - cbn. by rewrite take_nil, !app_nil_r.
  - cbn. rewrite !fmap_app. constructor. rewrite (Permutation_app_comm x.*2), <- app_assoc. done.
Qed.

(** Without new arrivals the commands are handled in delivery order. *)
Lemma drain_in_order fuel ws q shm :
  seq_ok shm -> (length q < fuel)%nat ->
  exists shm', drain_mq fuel [] ws q shm = Ret (q.*2, [], shm') /\ seq_ok shm'.
Proof.
  revert ws q shm. induction fuel as [|fuel IH]; intros ws q shm Hok Hf; [lia|].
  cbn [drain_mq]. destruct q as [|[p m] q]; [by exists shm|].
  destruct (Z.eqb_spec (zlen ((p, m) :: q)) 0) as [E|_].
  { rewrite zlen_cons in E. pose proof (zlen_nonneg q). lia. }
  cbn [recv_from_queue]. destruct (command_ok m (ws 0%nat) shm Hok) as (b & shm1 & -> & Hok1).
  cbn [mbind outcome_bind]. cbn [length] in Hf.
  destruct (IH (fun n => ws (S n)) q shm1 Hok1 ltac:(lia)) as (shm2 & E & Hok2).
  exists shm2. change (arrive q (default [] (head []))) with q.
  change (tail (@nil (list (Z * message_queue)))) with (@nil (list (Z * message_queue))). by rewrite E.
Qed.

(** Draining terminates and forgets nothing.  From a well-formed segment
    [drain_mq] returns, whatever other processes keep sending (finitely many
    messages), with the queue empty and a well-formed segment; it has handled
    every command that was queued and every one that arrived before it found the
    queue empty, and without arrivals it handles them in delivery order. *)
Theorem drain_mq_empties arrivals ws q shm :
  seq_ok shm ->
  let fuel := S (length q + length (concat arrivals)) in
  exists ms shm' k, drain_mq fuel arrivals ws q shm = Ret (ms, [], shm') /\ seq_ok shm' /\
    ms ≡ₚ q.*2 ++ (concat (take k arrivals)).*2 /\ (arrivals = [] -> ms = q.*2).
Proof.
  intros Hok fuel. destruct (drain_all fuel arrivals ws q shm Hok) as (ms & shm' & k & E & Hok' & Hms);
    [unfold fuel; lia|].
  exists ms, shm', k. split_and!; [done..|]. intros ->.
  destruct (drain_in_order fuel ws q shm Hok) as (shm2 & E2 & _); [unfold fuel; lia|].
  rewrite E in E2. by injection E2 as -> _.
Qed.

Lemma new_seq_ok : seq_ok new_shm.
Proof. exists 0. split; [apply new_holds|]. split; reflexivity. Qed.

Definition no_draws : nat -> draw := fun _ => Draw 0 0 0 0.

Lemma drain_mq_empties_witness :
  exists ms shm' k, drain_mq 4 [[]; [(LOW_PRI, text_command GET_STATUS)]] no_draws two_commands new_shm
    = Ret (ms, [], shm') /\ seq_ok shm' /\
    ms ≡ₚ two_commands.*2 ++ (concat (take k [[]; [(LOW_PRI, text_command GET_STATUS)]])).*2.
Proof.
  destruct (drain_mq_empties [[]; [(LOW_PRI, text_command GET_STATUS)]] no_draws two_commands new_shm new_seq_ok)
    as (ms & shm' & k & E & Hok & Hms & _).
  exists ms, shm', k. split; [exact E|]. split; [exact Hok|exact Hms].
Defined.

(** ** Shutdown of the sensor process *)

Definition sensor_start (q : mq) (shm : shm_data) : sensor := Sensor true MLoop SWait q shm [].

(** The drain at shutdown can be skipped.  [sig_thread] clears [is_running]
    before it sets [shutdown_flag], in two separate locked sections; when
    [message_thread] looks between them it exits without draining, and every
    queued command is lost, although the code means to drain them before exit. *)
Theorem drain_can_be_skipped q shm :
  shutdown_flag shm = 0 ->
  exists s, rtc sensor_step (sensor_start q shm) s /\ se_mt s = MExited /\ se_sig s = SDone /\
    se_mq s = q /\ se_handled s = [].
Proof.
  intros Hf. exists (Sensor false MExited SDone q (set_shutdown_flag 1 shm) []).
  split; [|done]. eapply rtc_l; [apply sig_stop|]. eapply rtc_l; [apply mt_stop|].
  eapply rtc_l; [by apply mt_skip|]. eapply rtc_l; [apply sig_flag|]. apply rtc_refl.
Qed.

Lemma drain_can_be_skipped_witness :
  exists s, rtc sensor_step (sensor_start two_commands new_shm) s /\ se_mt s = MExited /\
    se_sig s = SDone /\ se_mq s = two_commands /\ se_handled s = [].
Proof. exact (drain_can_be_skipped two_commands new_shm eq_refl). Defined.

(** With the flag set the drain is complete.  If [shutdown_flag] is set when
    [message_thread] notices the shutdown, it can exit, and when it exits without
    further arrivals every queued command has been handled, in order. *)
Theorem flagged_shutdown_drains sg q shm hs :
  seq_ok shm -> shutdown_flag shm <> 0 ->
  exists shm', sensor_step (Sensor false MStopping sg q shm hs) (Sensor false MExited sg [] shm' (hs ++ q.*2)) /\
  forall s', sensor_step (Sensor false MStopping sg q shm hs) s' -> se_mt s' = MExited -> se_mq s' = [].
Proof.
  intros Hok Hf. destruct (drain_in_order (S (length q)) no_draws q shm Hok ltac:(lia)) as (shm' & E & _).
  exists shm'. split; [by eapply mt_drain|].
  assert (forall fuel arrivals ws q shm ms q' shm', drain_mq fuel arrivals ws q shm = Ret (ms, q', shm') -> q' = [])
    as Hempty.
  { clear. induction fuel as [|fuel IH]; intros arrivals ws q shm ms q' shm' H; [done|]. cbn [drain_mq] in H.
    destruct q as [|[p m] q]; [by injection H as _ <- _|]. destruct (zlen _ =? 0) eqn:Ez.
    { apply Z.eqb_eq in Ez. rewrite zlen_cons in Ez. pose proof (zlen_nonneg q). lia. }
    cbn [recv_from_queue] in H. peel H as r E. destruct r as [b shm1]. peel H as r2 E2.
    destruct r2 as [[ms2 q2] shm2]. injection H as _ <- _. by eapply IH. }
  intros s' Hs Hex. inversion Hs; subst; try done. by eapply Hempty.
Qed.

Lemma flagged_shutdown_drains_witness :
  exists shm', sensor_step (Sensor false MStopping SDone two_commands (set_shutdown_flag 1 new_shm) [])
    (Sensor false MExited SDone [] shm' two_commands.*2).
Proof.
  assert (seq_ok (set_shutdown_flag 1 new_shm)) as Hok
    by (exists 0; split; [exact new_holds|split; reflexivity]).
  destruct (flagged_shutdown_drains SDone two_commands (set_shutdown_flag 1 new_shm) [] Hok ltac:(discriminate))
    as (shm' & H & _).
  exists shm'. exact H.
Defined.

End PosixQueue.
