(* ===== verification/PosixObj.v ===== *)
(** * The named objects of the POSIX gateway core

    [gateway-core-posix/common/common.c] and the [main] functions of the three
    programs: opening or creating the message queue and the segment, mapping and
    setting it up, and giving everything back.  The kernel's tables are explicit;
    every call that can fail may be made to fail with any error number. *)
From S2P Require Import Prelude Posix PosixRing.
Import Posix PosixRing.
Open Scope c_scope.

Module PosixObj.

Definition ENOENT : Z := 2.
Definition EEXIST : Z := 17.
Definition O_RDWR : Z := 2.
Definition O_CREAT : Z := 64.
Definition O_EXCL : Z := 128.

(** [sizeof(struct message_queue)] on x86-64. *)
Definition SIZE_MSQ : Z := 144.
Definition shm_size : Z := OFFSET_DATA + BUFFER_CAPACITY * SIZEOF_SENSOR_DATA.

Record mq_attr := MqAttr { mq_maxmsg : Z; mq_msgsize : Z }.

#[global] Instance mq_attr_eq_dec : EqDecision mq_attr.
Proof. solve_decision. Defined.

(** ** The kernel

    A shared memory object has a size, a content and the state of the mutex in it;
    [s_fds] and [s_maps] are the descriptors and the mappings of all processes.
    The numbers handed out do not matter, so a counter gives them.  [s_faults]
    are the answers of the calls that may fail: an error number, or [None] for a
    call that is carried out; [s_errno] is [errno]. *)
Record shm_object := ShmObject { so_size : Z; so_data : shm_data; so_mutex : bool }.
Inductive open_file := MqFile (q : nat) | ShmFile (n : nat).

Record os := OS {
  s_mq : option nat; s_mqs : gmap nat mq_attr; s_shm : option nat;
  s_shms : gmap nat shm_object; s_sems : gmap (list Z) Z; s_fds : gmap Z open_file;
  s_maps : gmap nat (nat * Z); s_next : nat; s_faults : list (option Z);
  s_errno : Z }.
Definition set_s_mq (v : option nat) (x : os) : os :=
  OS v (s_mqs x) (s_shm x) (s_shms x) (s_sems x) (s_fds x) (s_maps x) (s_next x) (s_faults
    x) (s_errno x).
Definition set_s_mqs (v : gmap nat mq_attr) (x : os) : os :=
  OS (s_mq x) v (s_shm x) (s_shms x) (s_sems x) (s_fds x) (s_maps x) (s_next x) (s_faults x)
    (s_errno x).
Definition set_s_shm (v : option nat) (x : os) : os :=
  OS (s_mq x) (s_mqs x) v (s_shms x) (s_sems x) (s_fds x) (s_maps x) (s_next x) (s_faults x)
    (s_errno x).
Definition set_s_shms (v : gmap nat shm_object) (x : os) : os :=
  OS (s_mq x) (s_mqs x) (s_shm x) v (s_sems x) (s_fds x) (s_maps x) (s_next x) (s_faults x)
    (s_errno x).
Definition set_s_sems (v : gmap (list Z) Z) (x : os) : os :=
  OS (s_mq x) (s_mqs x) (s_shm x) (s_shms x) v (s_fds x) (s_maps x) (s_next x) (s_faults x)
    (s_errno x).
Definition set_s_fds (v : gmap Z open_file) (x : os) : os :=
  OS (s_mq x) (s_mqs x) (s_shm x) (s_shms x) (s_sems x) v (s_maps x) (s_next x) (s_faults x)
    (s_errno x).
Definition set_s_maps (v : gmap nat (nat * Z)) (x : os) : os :=
  OS (s_mq x) (s_mqs x) (s_shm x) (s_shms x) (s_sems x) (s_fds x) v (s_next x) (s_faults x)
    (s_errno x).
Definition set_s_next (v : nat) (x : os) : os :=
  OS (s_mq x) (s_mqs x) (s_shm x) (s_shms x) (s_sems x) (s_fds x) (s_maps x) v (s_faults x)
    (s_errno x).
Definition set_s_faults (v : list (option Z)) (x : os) : os :=
  OS (s_mq x) (s_mqs x) (s_shm x) (s_shms x) (s_sems x) (s_fds x) (s_maps x) (s_next x) v
    (s_errno x).
Definition set_s_errno (v : Z) (x : os) : os :=
  OS (s_mq x) (s_mqs x) (s_shm x) (s_shms x) (s_sems x) (s_fds x) (s_maps x) (s_next x)
    (s_faults x) v.

(** ** System calls *)

Definition has_bit (flags bit : Z) : bool := negb (flags .& bit =? 0).

Definition failed (e : Z) (s : os) : Z * os := (-1, set_s_errno e s).

(** A call that fails as the script says, or is carried out. *)
Definition attempt (s : os) (done : os -> Z * os) : Z * os :=
  match s_faults s with
  | Some e :: fs => failed e (set_s_faults fs s)
  | None :: fs => done (set_s_faults fs s)
  | [] => done s
  end.

Definition open_fd (f : open_file) (s : os) : Z * os :=
  (Z.of_nat (s_next s), set_s_next (S (s_next s)) (set_s_fds (<[Z.of_nat (s_next s) := f]> (s_fds s)) s)).

Definition mq_open (flags : Z) (attr : mq_attr) (s : os) : Z * os :=
  attempt s (fun s =>
    match s_mq s with
    | Some q =>
        if (has_bit flags O_CREAT && has_bit flags O_EXCL)%bool then failed EEXIST s
        else open_fd (MqFile q) s
    | None =>
        if has_bit flags O_CREAT then
          let q := s_next s in
          open_fd (MqFile q) (set_s_next (S q) (set_s_mq (Some q) (set_s_mqs (<[q := attr]> (s_mqs s)) s)))
        else failed ENOENT s
    end).

Definition EBADF : Z := 9.

(** The attributes are [None] when the call fails. *)
Definition mq_getattr (fd : Z) (s : os) : option mq_attr * os :=
  let '(r, s) := attempt s (fun s => (0, s)) in
  if r =? 0 then
    match s_fds s !! fd with
    | Some (MqFile q) => (s_mqs s !! q, s)
    | _ => (None, set_s_errno EBADF s)
    end
  else (None, s).

Definition close (fd : Z) (s : os) : os := set_s_fds (delete fd (s_fds s)) s.
Definition mq_unlink (s : os) : os := set_s_mq None s.
Definition shm_unlink (s : os) : os := set_s_shm None s.

(** A new object has size 0. *)
Definition empty_object : shm_object :=
  ShmObject 0 (ShmData 0 0 0 0 0 0 0 0 0 0 None None 0 []) false.

Definition shm_open (flags : Z) (s : os) : Z * os :=
  attempt s (fun s =>
    match s_shm s with
    | Some n =>
        if (has_bit flags O_CREAT && has_bit flags O_EXCL)%bool then failed EEXIST s
        else open_fd (ShmFile n) s
    | None =>
        if has_bit flags O_CREAT then
          let n := s_next s in
          open_fd (ShmFile n)
            (set_s_next (S n) (set_s_shm (Some n) (set_s_shms (<[n := empty_object]> (s_shms s)) s)))
        else failed ENOENT s
    end).

Definition object_of (fd : Z) (s : os) : option (nat * shm_object) :=
  match s_fds s !! fd with
  | Some (ShmFile n) => match s_shms s !! n with Some o => Some (n, o) | None => None end
  | _ => None
  end.

(** The size, [None] when the call fails. *)
Definition fstat (fd : Z) (s : os) : option Z * os :=
  let '(r, s) := attempt s (fun s => (0, s)) in
  if r =? 0 then
    match object_of fd s with
    | Some (_, o) => (Some (so_size o), s)
    | None => (None, set_s_errno EBADF s)
    end
  else (None, s).

(** The bytes that are added are zero. *)
Definition zero_shm (size : Z) : shm_data :=
  ShmData 0 0 0 0 0 0 0 0 0 0 None None 0
    (replicate (Z.to_nat ((size - OFFSET_DATA) / SIZEOF_SENSOR_DATA)) zero_sensor).

(** The code calls it on objects of size 0 only. *)
Definition ftruncate (fd size : Z) (s : os) : Z * os :=
  attempt s (fun s =>
    match object_of fd s with
    | Some (n, _) => (0, set_s_shms (<[n := ShmObject size (zero_shm size) false]> (s_shms s)) s)
    | None => failed EBADF s
    end).

Definition mmap (fd size : Z) (s : os) : option nat * os :=
  let '(r, s) := attempt s (fun s => (0, s)) in
  if r =? 0 then
    match object_of fd s with
    | Some (n, _) =>
        (Some (s_next s), set_s_next (S (s_next s)) (set_s_maps (<[s_next s := (n, size)]> (s_maps s)) s))
    | None => (None, set_s_errno EBADF s)
    end
  else (None, s).

(** An access through a mapping: it has to exist, and behind the end of the object
    there is nothing. *)
Definition at_addr (s : os) (a : nat) : outcome (nat * shm_object) :=
  '(n, len) ← deref (s_maps s !! a);
  o ← deref (s_shms s !! n);
  if so_size o <? len then Undef else Ret (n, o).

Definition store (s : os) (n : nat) (o : shm_object) : os := set_s_shms (<[n := o]> (s_shms s)) s.

(** A length that covers the mapping removes it. *)
Definition munmap (a : nat) (size : Z) (s : os) : os :=
  match s_maps s !! a with
  | Some (_, len) => if len <=? size then set_s_maps (delete a (s_maps s)) s else s
  | None => s
  end.

Definition sem_open (name : list Z) (flags value : Z) (s : os) : Z * os :=
  attempt s (fun s =>
    match s_sems s !! name with
    | Some _ => if (has_bit flags O_CREAT && has_bit flags O_EXCL)%bool then failed EEXIST s else (0, s)
    | None =>
        if has_bit flags O_CREAT then
          if SEM_VALUE_MAX <? value then failed EINVAL s
          else (0, set_s_sems (<[name := value]> (s_sems s)) s)
        else failed ENOENT s
    end).

(** ** The functions of common.c *)

Definition get_mq (flags : Z) (expect_attr : mq_attr) (s : os) : Z * os :=
  let '(ret, s) := mq_open flags expect_attr s in
  if ret <? 0 then
    if s_errno s =? EEXIST then
      let '(ret, s) := mq_open O_RDWR expect_attr s in
      if ret <? 0 then (-1, s)
      else
        match mq_getattr ret s with
        | (Some stale_attr, s) =>
            if ((mq_maxmsg stale_attr =? mq_maxmsg expect_attr) &&
                (mq_msgsize stale_attr =? mq_msgsize expect_attr))%bool
            then (ret, s) else (-1, s)
        | (None, s) => (ret, s)
        end
    else (ret, s)
  else (ret, s).

(** The semaphore is the one of that name; the result is 0 or -1. *)
Definition get_sem (name : list Z) (flags value : Z) (s : os) : Z * os :=
  let '(tmp, s) := sem_open name flags value s in
  if negb (tmp =? -1) then (0, s)
  else
    let ret_errno := s_errno s in
    let '(found, s) :=
      if (has_bit flags O_EXCL && (ret_errno =? EEXIST))%bool then
        let '(tmp, s) := sem_open name (Z.land flags (Z.lnot (Z.lor O_CREAT O_EXCL))) 0 s in
        (negb (tmp =? -1), s)
      else (false, s) in
    if found : bool then (0, s) else failed ret_errno s.

Definition get_shm (flags expect_size : Z) (s : os) : Z * os :=
  if expect_size =? 0 then failed EINVAL s
  else
    let '(ret, s) := shm_open flags s in
    if ret =? -1 then
      if s_errno s =? EEXIST then
        let '(ret, s) := shm_open (Z.land flags (Z.lnot (Z.lor O_CREAT O_EXCL))) s in
        if ret =? -1 then (-1, s)
        else
          match fstat ret s with
          | (None, s) => (-1, close ret s)
          | (Some st_size, s) =>
              if st_size =? 0 then
                let '(r, s) := ftruncate ret expect_size s in
                if r =? -1 then (-1, close ret s) else (ret, s)
              else if negb (st_size =? expect_size) then failed EINVAL (close ret s)
              else (ret, s)
          end
      else (-1, s)
    else
      match fstat ret s with
      | (None, s) => (-1, close ret s)
      | (Some st_size, s) =>
          if ((st_size =? 0) && has_bit flags O_CREAT)%bool then
            let '(r, s) := ftruncate ret expect_size s in
            if r =? -1 then (-1, close ret s) else (ret, s)
          else (ret, s)
      end.

Definition mapping_shm (shm_fd size : Z) (s : os) : option nat * os :=
  if ((shm_fd <? 0) || (size <=? 0))%bool then (None, s) else mmap shm_fd size s.

Definition unmap_shm (addr : option nat) (size : Z) (s : os) : Z * os :=
  match addr with
  | None => failed EINVAL s
  | Some a => if size =? 0 then failed EINVAL s else (0, munmap a size s)
  end.

(** [init_shm(true, shm)]: with a magic number of 0 the mutex is initialised too. *)
Definition init_object (o : shm_object) : outcome (Z * shm_object) :=
  '(r, d) ← init_shm (so_data o);
  Ret (r, ShmObject (so_size o) d ((magic (so_data o) =? 0) || so_mutex o)%bool).

Definition shutdown_ipc (is_creator : bool) (shm : option nat) (shm_fd mq_fd : Z) (s : os) : outcome os :=
  let s := if negb (mq_fd =? -1) then
             let s := close mq_fd s in if is_creator then mq_unlink s else s
           else s in
  s ← match shm with
      | None => Ret s
      | Some a =>
          '(n, o) ← at_addr s a;
          if 0 <? total_size (so_data o) then
            Ret (munmap a (total_size (so_data o)) (store s n (ShmObject (so_size o) (so_data o) false)))
          else Ret s
      end;
  Ret (if negb (shm_fd =? -1) then
         let s := close shm_fd s in if is_creator then shm_unlink s else s
       else s).

(** ** The main functions *)

(** [struct system_config] as far as it names objects. *)
Record handles := Handles { h_msq : Z; h_shm_fd : Z; h_shm : nat }.

Definition attr : mq_attr := MqAttr MAX_MSQ SIZE_MSQ.

(** Every [main] up to the creation of its threads. *)
Definition start_up (s : os) : outcome (option handles * os) :=
  let '(msq, s) := get_mq (Z.lor O_CREAT O_RDWR) attr s in
  if msq =? -1 then Ret (None, s)
  else
    let '(shm_fd, s) := get_shm (Z.lor (Z.lor O_CREAT O_EXCL) O_RDWR) shm_size s in
    if shm_fd =? -1 then Ret (None, close msq s)
    else
      match mapping_shm shm_fd shm_size s with
      | (None, s) => Ret (None, close msq (close shm_fd s))
      | (Some a, s) =>
          '(n, o) ← at_addr s a;
          if negb (magic (so_data o) =? SHM_MAGIC) then
            let d := set_shutdown_flag 0 (set_capacity BUFFER_CAPACITY (so_data o)) in
            '(r, o) ← init_object (ShmObject (so_size o) d (so_mutex o));
            let s := store s n o in
            if r =? -1 then Ret (None, close msq (close shm_fd (munmap a shm_size s)))
            else Ret (Some (Handles msq shm_fd a), s)
          else Ret (Some (Handles msq shm_fd a), s)
      end.

(** The label [cleanup]: a thread could not be created. *)
Definition cleanup (h : handles) (s : os) : os :=
  mq_unlink (shm_unlink (close (h_msq h) (close (h_shm_fd h) (munmap (h_shm h) shm_size s)))).

(** A whole [main]: if its threads are created they run until one of them, or [main]
    behind them, gives the objects back.  The exit status. *)
Definition run_main (is_creator threads_created : bool) (s : os) : outcome (Z * os) :=
  '(r, s) ← start_up s;
  match r with
  | None => Ret (1, s)
  | Some h =>
      if threads_created then
        s ← shutdown_ipc is_creator (Some (h_shm h)) (h_shm_fd h) (h_msq h) s;
        Ret (0, s)
      else Ret (1, cleanup h s)
  end.

Definition sensor_main : bool -> os -> outcome (Z * os) := run_main false.
Definition monitor_main : bool -> os -> outcome (Z * os) := run_main false.
Definition controller_main : bool -> os -> outcome (Z * os) := run_main true.

(** ** The tables *)

Definition records_in (size : Z) : Z := Z.max 0 ((size - OFFSET_DATA) / SIZEOF_SENSOR_DATA).

(** Everything in the tables is below the counter, the content of an object has
    the records its size has room for, and the name of the segment leads to one. *)
Definition wf (s : os) : Prop :=
  (forall k f, s_fds s !! k = Some f -> 0 <= k < Z.of_nat (s_next s)) /\
  (forall a v, s_maps s !! a = Some v -> (a < s_next s)%nat) /\
  (forall n o, s_shms s !! n = Some o -> (n < s_next s)%nat /\ zlen (data (so_data o)) = records_in (so_size o)) /\
  (forall n, s_shm s = Some n -> is_Some (s_shms s !! n)).

(** [EEXIST] is the answer of an exclusive creation only. *)
Definition honest (s : os) : Prop := Some EEXIST ∉ s_faults s.

Definition fault_free (s : os) : Prop := forall e, Some e ∉ s_faults s.

(** The segment a process finds, or will make. *)
Definition blank : shm_object := ShmObject shm_size fresh_shm false.
Definition found (s : os) : shm_object :=
  match s_shm s with
  | Some n => match s_shms s !! n with Some o => if so_size o =? 0 then blank else o | None => blank end
  | None => blank
  end.

Lemma fd_fresh s f : wf s -> s_next s = f -> s_fds s !! Z.of_nat f = None.
Proof.
  intros (Hf & _) <-. destruct (s_fds s !! _) eqn:E; [|done]. apply Hf in E. lia.
Qed.

Lemma map_fresh s f : wf s -> s_next s = f -> s_maps s !! f = None.
Proof.
  intros (_ & Hm & _) <-. destruct (s_maps s !! _) eqn:E; [|done]. apply Hm in E. lia.
Qed.

(** Cases of a lookup in a table with an insertion. *)
Ltac tables :=
  repeat match goal with
  | H : <[_ := _]> _ !! _ = Some _ |- _ => apply lookup_insert_Some in H as [[? ?]|[? ?]]
  end; simplify_eq/=.

(** The rest of a script. *)
Definition script (s : os) (fs : list (option Z)) : Prop :=
  honest (set_s_faults fs s) /\ (fault_free s -> fault_free (set_s_faults fs s)).

Lemma attempt_cases s k : honest s ->
  exists fs, script s fs /\
    ((exists e, e <> EEXIST /\ ~ fault_free s /\ attempt s k = (-1, set_s_errno e (set_s_faults fs s))) \/
     attempt s k = k (set_s_faults fs s)).
Proof.
  unfold attempt, script, honest, fault_free, failed. intros Hh.
  destruct (s_faults s) as [|f fs] eqn:Ef.
  - exists []. cbn. split; [done|]. right. destruct s. cbn in *. by subst.
  - exists fs. cbn. rewrite elem_of_cons in Hh. split; [split; [naive_solver|]|].
    { intros H e He. apply (H e). rewrite elem_of_cons. by right. }
    destruct f as [e|]; [left|by right]. exists e. split; [naive_solver|]. split; [|done].
    intros H. apply (H e). rewrite elem_of_cons. by left.
Qed.

Lemma open_fd_wf s f : wf s -> wf (open_fd f s).2.
Proof.
  intros (Hf & Hm & Hs & Hn). split_and!; cbn; [|intros a v E; apply Hm in E; lia| |done].
  - intros k g E. tables; [lia|]. apply Hf in H0. lia.
  - intros n o E. apply Hs in E as [? ?]. split; [lia|done].
Qed.

Lemma wf_grow s s' : wf s -> s_fds s' = s_fds s -> s_maps s' = s_maps s -> s_shms s' = s_shms s ->
  s_shm s' = s_shm s -> (s_next s <= s_next s')%nat -> wf s'.
Proof.
  unfold wf. intros (Hf & Hm & Hs & Hn) -> -> -> -> Hle. split_and!; [| | |done].
  - intros k f E. apply Hf in E. lia.
  - intros a v E. apply Hm in E. lia.
  - intros n o E. apply Hs in E as [? ?]. split; [lia|done].
Qed.

Definition MQ_FLAGS : Z := Z.lor O_CREAT O_RDWR.

(** [get_mq] opens the queue and nothing else, or changes no table. *)
Lemma get_mq_spec s : wf s -> honest s ->
  exists r s', get_mq MQ_FLAGS attr s = (r, s') /\ wf s' /\ honest s' /\ (fault_free s -> fault_free s') /\
    s_shm s' = s_shm s /\ s_shms s' = s_shms s /\ s_maps s' = s_maps s /\
    ((r = -1 /\ s_fds s' = s_fds s /\ ~ fault_free s) \/
     (exists q, s_fds s !! r = None /\ 0 <= r /\ s_fds s' = <[r := MqFile q]> (s_fds s) /\ s_mq s' = Some q)).
Proof.
  intros Hw Hh. unfold get_mq, mq_open.
  match goal with |- context [attempt s ?k] => destruct (attempt_cases s k Hh) as (fs & [Hh' Hf'] & [(e & He & Hnf & ->)| ->]) end.
  - cbn -[Z.ltb Z.eqb EEXIST]. change (-1 <? 0) with true. cbn match.
    destruct (Z.eqb_spec e EEXIST); [done|]. do 2 eexists. split; [done|]. split_and!; try done. by left.
  - set (s1 := set_s_faults fs s) in *. assert (Hw1 : wf s1) by exact Hw.
    destruct (s_mq s1) as [q|] eqn:Eq.
    + change (has_bit MQ_FLAGS O_CREAT && has_bit MQ_FLAGS O_EXCL)%bool with false. cbn match. unfold open_fd. cbn match beta.
      destruct (Z.ltb_spec (Z.of_nat (s_next s1)) 0); [lia|].
      do 2 eexists. split; [done|]. split; [exact (open_fd_wf s1 (MqFile q) Hw1)|].
      split_and!; try done. right. exists q. split_and!; [|lia|done|done].
      by apply (fd_fresh s1).
    + change (has_bit MQ_FLAGS O_CREAT) with true. cbn match.
      set (s2 := set_s_next _ (set_s_mq _ _)). assert (Hw2 : wf s2) by (apply (wf_grow s1); cbn; done || lia).
      unfold open_fd. cbn match beta. destruct (Z.ltb_spec (Z.of_nat (s_next s2)) 0); [lia|].
      do 2 eexists. split; [done|]. split; [exact (open_fd_wf s2 _ Hw2)|].
      split_and!; try done. right. eexists. split_and!; [|lia|done|done].
      by apply (fd_fresh s2).
Qed.

Lemma fstat_spec s fd n o : honest s -> object_of fd s = Some (n, o) ->
  exists fs, script s fs /\
    ((exists e, ~ fault_free s /\ fstat fd s = (None, set_s_errno e (set_s_faults fs s))) \/
     fstat fd s = (Some (so_size o), set_s_faults fs s)).
Proof.
  intros Hh Ho. unfold fstat.
  destruct (attempt_cases s (fun s => (0, s)) Hh) as (fs & Hs & [(e & He & Hnf & ->)| ->]); exists fs; split; [done| |done|].
  - left. exists e. done.
  - right. cbn. change (object_of fd (set_s_faults fs s)) with (object_of fd s). by rewrite Ho.
Qed.

Definition resized (n : nat) (size : Z) (s : os) : os :=
  set_s_shms (<[n := ShmObject size (zero_shm size) false]> (s_shms s)) s.

Lemma ftruncate_spec s fd n o size : honest s -> object_of fd s = Some (n, o) ->
  exists fs, script s fs /\
    ((exists e, ~ fault_free s /\ ftruncate fd size s = (-1, set_s_errno e (set_s_faults fs s))) \/
     ftruncate fd size s = (0, resized n size (set_s_faults fs s))).
Proof.
  intros Hh Ho. unfold ftruncate.
  match goal with |- context [attempt s ?k] =>
    destruct (attempt_cases s k Hh) as (fs & Hs & [(e & He & Hnf & ->)| ->]) end; exists fs; (split; [done|]).
  - left. by exists e.
  - right. change (object_of fd (set_s_faults fs s)) with (object_of fd s). by rewrite Ho.
Qed.

Lemma close_wf s fd : wf s -> wf (close fd s).
Proof.
  intros (Hf & Hm & Hs & Hn). split_and!; cbn; [|done..].
  intros k f E. apply lookup_delete_Some in E as [_ E]. by apply Hf in E.
Qed.

Lemma zero_records size : zlen (data (zero_shm size)) = records_in size.
Proof. cbn [zero_shm data]. unfold records_in. rewrite zlen_replicate. lia. Qed.

Lemma resized_wf s n size : wf s -> is_Some (s_shms s !! n) -> wf (resized n size s).
Proof.
  intros (Hf & Hm & Hs & Hn) [o Ho]. split_and!; cbn; [done|done| |].
  - intros m o' E. tables; [|by apply Hs]. destruct (Hs _ _ Ho). split; [done|]. apply zero_records.
  - intros m E. destruct (decide (m = n)) as [->|]; [rewrite lookup_insert_eq; by eexists|rewrite lookup_insert_ne by done; by apply Hn].
Qed.

(** The part of [get_shm] behind a successful [shm_open]; an object found to exist
    must have the expected size. *)
Definition sizing (existing : bool) (ret : Z) (s : os) : Z * os :=
  match fstat ret s with
  | (None, s) => (-1, close ret s)
  | (Some st_size, s) =>
      if st_size =? 0 then
        let '(r, s) := ftruncate ret shm_size s in
        if r =? -1 then (-1, close ret s) else (ret, s)
      else if (existing && negb (st_size =? shm_size))%bool then failed EINVAL (close ret s)
      else (ret, s)
  end.

Definition SHM_FLAGS : Z := Z.lor (Z.lor O_CREAT O_EXCL) O_RDWR.

Lemma get_shm_sizing s :
  get_shm SHM_FLAGS shm_size s =
    let '(ret, s) := shm_open SHM_FLAGS s in
    if ret =? -1 then
      if s_errno s =? EEXIST then
        let '(ret, s) := shm_open O_RDWR s in
        if ret =? -1 then (-1, s) else sizing true ret s
      else (-1, s)
    else sizing false ret s.
Proof.
  unfold get_shm. change (shm_size =? 0) with false. change (Z.land SHM_FLAGS _) with O_RDWR. cbn match.
  destruct (shm_open SHM_FLAGS s) as [ret s1]. destruct (ret =? -1); [done|].
  unfold sizing. destruct (fstat ret s1) as [[st|] s2]; [|done].
  change (has_bit SHM_FLAGS O_CREAT) with true. rewrite andb_true_r. by destruct (st =? 0).
Qed.

Definition opened (s : os) (fd : Z) (n : nat) (fds : gmap Z open_file) (o : shm_object) : Prop :=
  s_fds s = <[fd := ShmFile n]> fds /\ fds !! fd = None /\ 0 <= fd /\ s_shms s !! n = Some o /\ s_shm s = Some n.

Lemma opened_object s fd n fds o : opened s fd n fds o -> object_of fd s = Some (n, o).
Proof. intros (E & _ & _ & Eo & _). unfold object_of. by rewrite E, lookup_insert_eq, Eo. Qed.

Lemma opened_found s fd n fds o : opened s fd n fds o -> found s = if so_size o =? 0 then blank else o.
Proof. intros (_ & _ & _ & Eo & En). unfold found. by rewrite En, Eo. Qed.

Lemma opened_closed s fd n fds o : opened s fd n fds o -> s_fds (close fd s) = fds.
Proof. intros (E & Hn & _). cbn. rewrite E. by apply delete_insert_id. Qed.

Lemma zero_blank : ShmObject shm_size (zero_shm shm_size) false = blank.
Proof. vm_compute. reflexivity. Qed.

(** The result of opening the segment, as seen from the state [s0] before. *)
Definition segment_opened (s0 : os) (r : Z) (s' : os) : Prop :=
  wf s' /\ honest s' /\ (fault_free s0 -> fault_free s') /\ s_mq s' = s_mq s0 /\ s_maps s' = s_maps s0 /\
  ((r = -1 /\ s_fds s' = s_fds s0 /\ found s' = found s0 /\ (~ fault_free s0 \/ so_size (found s0) <> shm_size)) \/
   (exists n, opened s' r n (s_fds s0) (found s0) /\ so_size (found s0) = shm_size /\
      forall m, m <> n -> s_shms s' !! m = s_shms s0 !! m)).

Lemma sizing_spec existing s0 s fd n o :
  wf s -> honest s -> (fault_free s0 -> fault_free s) -> s_mq s = s_mq s0 -> s_maps s = s_maps s0 ->
  opened s fd n (s_fds s0) o -> (existing = true \/ so_size o = 0) -> found s = found s0 ->
  (forall m, m <> n -> s_shms s !! m = s_shms s0 !! m) ->
  exists r s', sizing existing fd s = (r, s') /\ segment_opened s0 r s'.
Proof.
  intros Hw Hh Hff Emq Emap Hop Hex Efound Hrest. pose proof (opened_object _ _ _ _ _ Hop) as Hobj.
  pose proof (opened_found _ _ _ _ _ Hop) as Hfd. pose proof (opened_closed _ _ _ _ _ Hop) as Hcl.
  unfold sizing, segment_opened. destruct (fstat_spec s fd n o Hh Hobj) as (fs & [Hh1 Hf1] & [(e & Hnf & ->)| ->]).
  { do 2 eexists. split; [done|]. split; [by apply close_wf|]. split_and!; try done; [tauto|]. left. by split_and!; [..|left; tauto]. }
  destruct (Z.eqb_spec (so_size o) 0) as [Ez|Ez].
  - destruct (ftruncate_spec (set_s_faults fs s) fd n o shm_size Hh1 Hobj) as (fs2 & [Hh2 Hf2] & [(e & Hnf & ->)| ->]); cbn -[close shm_size].
    + do 2 eexists. split; [done|]. split; [by apply close_wf|]. split_and!; try done; [tauto|]. left. by split_and!; [..|left; tauto].
    + destruct Hop as (Ef & Hfr & Hpos & Eo & En).
      do 2 eexists. split; [done|]. split; [apply resized_wf; [done|cbn; by rewrite Eo]|].
      split_and!; try done; [tauto|]. right. exists n. rewrite <- Efound, Hfd.
      split; [|split; [done|]]; [split_and!; try done; cbn -[shm_size zero_shm]; by rewrite lookup_insert_eq, zero_blank|].
      intros m Hm. cbn. by rewrite lookup_insert_ne, Hrest.
  - destruct Hex as [->|?]; [|done]. destruct (Z.eqb_spec (so_size o) shm_size) as [Es|Es]; cbn -[close shm_size].
    + do 2 eexists. split; [done|]. split; [done|]. split_and!; try done; [tauto|]. right. exists n.
      rewrite <- Efound, Hfd. done.
    + do 2 eexists. split; [done|]. split; [by apply close_wf|]. split_and!; try done; [tauto|]. left.
      split_and!; try done. right. by rewrite <- Efound, Hfd.
Qed.

Lemma open_existing s n o : wf s -> s_shm s = Some n -> s_shms s !! n = Some o ->
  opened (open_fd (ShmFile n) s).2 (Z.of_nat (s_next s)) n (s_fds s) o.
Proof. intros Hw En Eo. split_and!; try done; [by apply (fd_fresh s)|lia]. Qed.

(** The state in which the name leads to a new object. *)
Definition created (s : os) : os :=
  set_s_next (S (s_next s)) (set_s_shm (Some (s_next s)) (set_s_shms (<[s_next s := empty_object]> (s_shms s)) s)).

Lemma created_wf s : wf s -> wf (created s).
Proof.
  intros (Hf & Hm & Hs & Hn). split_and!; cbn.
  - intros k f E. apply Hf in E. lia.
  - intros a v E. apply Hm in E. lia.
  - intros n o E. tables; [by split; [lia|]|]. apply Hs in H0 as [? ?]. split; [lia|done].
  - intros n [= <-]. rewrite lookup_insert_eq. by eexists.
Qed.

Lemma get_shm_existing s fs er n : wf s -> script s fs -> s_shm s = Some n ->
  let s1 := set_s_errno er (set_s_faults fs s) in
  exists r s', (let '(ret, s) := shm_open O_RDWR s1 in if ret =? -1 then (-1, s) else sizing true ret s) = (r, s') /\
    segment_opened s r s'.
Proof.
  intros Hw [Hh Hf] En s1. destruct Hw as (W1 & W2 & W3 & W4). destruct (W4 n En) as [o Eo].
  assert (Hw1 : wf s1) by done. unfold shm_open.
  match goal with |- context [attempt s1 ?k] =>
    destruct (attempt_cases s1 k Hh) as (fs2 & [Hh2 Hf2] & [(e & He & Hnf & ->)| ->]) end.
  - do 2 eexists. split; [done|]. split; [done|]. split_and!; try done; [tauto|]. left. split_and!; try done. left. tauto.
  - set (s2 := set_s_faults fs2 s1) in *. assert (Hw2 : wf s2) by done.
    change (s_shm s2) with (s_shm s). rewrite En. change (has_bit O_RDWR O_CREAT && _)%bool with false. cbn match.
    unfold open_fd at 1. cbn match beta. destruct (Z.eqb_spec (Z.of_nat (s_next s2)) (-1)); [lia|].
    apply (sizing_spec true s _ _ n o); try done; [by apply (open_fd_wf s2)|cbn; tauto| |by left].
    by apply (open_existing s2).
Qed.

Lemma get_shm_new s fs : wf s -> script s fs -> s_shm s = None ->
  let s1 := set_s_faults fs s in let r := open_fd (ShmFile (s_next s1)) (created s1) in
  exists r' s', (if r.1 =? -1 then (-1, r.2) else sizing false r.1 r.2) = (r', s') /\ segment_opened s r' s'.
Proof.
  intros Hw [Hh Hf] En s1 r. assert (Hw2 : wf (created s1)) by (by apply created_wf).
  destruct (Z.eqb_spec r.1 (-1)) as [E|_]; [subst r; cbn in E; lia|].
  apply (sizing_spec false s _ _ (s_next s1) empty_object); try done.
  - by apply open_fd_wf.
  - apply (open_existing (created s1)); [done|done|]. cbn. apply lookup_insert_eq.
  - by right.
  - unfold found. cbn -[empty_object]. by rewrite lookup_insert_eq, En.
  - intros m Hm. cbn. by rewrite lookup_insert_ne by done.
Qed.

(** [get_shm] opens the segment, making or sizing it if need be, or gives its
    descriptor back. *)
Lemma get_shm_spec s : wf s -> honest s ->
  exists r s', get_shm SHM_FLAGS shm_size s = (r, s') /\ segment_opened s r s'.
Proof.
  intros Hw Hh. rewrite get_shm_sizing. unfold shm_open at 1.
  match goal with |- context [attempt s ?k] =>
    destruct (attempt_cases s k Hh) as (fs & Hs & [(e & He & Hnf & ->)| ->]) end.
  - cbn -[EEXIST Z.eqb shm_open sizing]. change (-1 =? -1) with true. cbn match.
    destruct (Z.eqb_spec e EEXIST); [done|]. destruct Hs. do 2 eexists. split; [done|].
    split; [done|]. split_and!; try done. left. split_and!; try done. by left.
  - change (s_shm (set_s_faults fs s)) with (s_shm s). destruct (s_shm s) as [n|] eqn:En.
    + change (has_bit SHM_FLAGS O_CREAT && has_bit SHM_FLAGS O_EXCL)%bool with true. cbn match. unfold failed.
      change (-1 =? -1) with true. cbn match. by apply (get_shm_existing s fs EEXIST n).
    + change (has_bit SHM_FLAGS O_CREAT) with true. cbn match.
      destruct (get_shm_new s fs Hw Hs En) as (r' & s' & E & Hr). exists r', s'. split; [|done].
      cbn -[sizing Z.eqb] in E. cbn -[sizing Z.eqb]. exact E.
Qed.

(** ** Starting and stopping *)

Lemma found_records s : wf s -> zlen (data (so_data (found s))) = records_in (so_size (found s)).
Proof.
  intros (_ & _ & Hs & _). unfold found. destruct (s_shm s) as [n|]; [|by vm_compute].
  destruct (s_shms s !! n) as [o|] eqn:Eo; [|by vm_compute].
  destruct (so_size o =? 0); [by vm_compute|]. by apply Hs in Eo as [_ ?].
Qed.

(** On a segment of the right size the set-up does not fail. *)
Lemma attach_object sz d m : zlen (data d) = BUFFER_CAPACITY ->
  exists d', attach d = Ret (0, d') /\ zlen (data d') = BUFFER_CAPACITY /\
    (if negb (magic d =? SHM_MAGIC) then
       init_object (ShmObject sz (set_shutdown_flag 0 (set_capacity BUFFER_CAPACITY d)) m)
     else Ret (0, ShmObject sz d m))
    = Ret (0, ShmObject sz d' ((magic d =? 0) || m)%bool).
Proof.
  intros Hz. unfold attach, init_object, init_shm.
  destruct (Z.eqb_spec (magic d) SHM_MAGIC) as [E|E]; cbn [negb].
  { exists d. split_and!; try done. by rewrite E. }
  cbn -[BUFFER_CAPACITY SEM_VALUE_MAX zlen run_stores init_stores]. destruct (magic d =? 0).
  - change (SEM_VALUE_MAX <? BUFFER_CAPACITY) with false. cbn match.
    destruct (Z.ltb_spec (zlen (data d)) BUFFER_CAPACITY); [lia|].
    eexists. split; [done|]. split; [|done]. cbn -[BUFFER_CAPACITY zlen replicate drop].
    rewrite zlen_app, zlen_replicate, zlen_drop. unfold BUFFER_CAPACITY in *. lia.
  - eexists. by split_and!.
Qed.

Definition mapped (s : os) (n : nat) : os :=
  set_s_next (S (s_next s)) (set_s_maps (<[s_next s := (n, shm_size)]> (s_maps s)) s).

Lemma mapping_spec s fd n fds o : honest s -> opened s fd n fds o ->
  exists fs, script s fs /\
    ((exists e, ~ fault_free s /\ mapping_shm fd shm_size s = (None, set_s_errno e (set_s_faults fs s))) \/
     mapping_shm fd shm_size s = (Some (s_next s), mapped (set_s_faults fs s) n)).
Proof.
  intros Hh Hop. pose proof (opened_object _ _ _ _ _ Hop) as Ho. destruct Hop as (_ & _ & Hpos & _).
  unfold mapping_shm. destruct (Z.ltb_spec fd 0); [lia|]. change (shm_size <=? 0) with false. cbn match. unfold mmap.
  destruct (attempt_cases s (fun s => (0, s)) Hh) as (fs & Hs & [(e & He & Hnf & ->)| ->]); exists fs; (split; [done|]).
  - left. exists e. done.
  - right. cbn -[shm_size]. change (object_of fd (set_s_faults fs s)) with (object_of fd s). by rewrite Ho.
Qed.

Lemma mapped_wf s n : wf s -> wf (mapped s n).
Proof.
  intros (Hf & Hm & Hs & Hn). split_and!; cbn -[shm_size]; [| | |done].
  - intros k f E. apply Hf in E. lia.
  - intros a v E. tables; [lia|]. apply Hm in H0. lia.
  - intros m o E. apply Hs in E as [? ?]. split; [lia|done].
Qed.

Lemma store_wf s n o : wf s -> is_Some (s_shms s !! n) -> zlen (data (so_data o)) = records_in (so_size o) ->
  wf (store s n o).
Proof.
  intros (Hf & Hm & Hs & Hn) [o' Ho] Hz. split_and!; cbn; [done|done| |].
  - intros m o2 E. tables; [|by apply Hs]. destruct (Hs _ _ Ho). by split.
  - intros m E. destruct (decide (m = n)) as [->|]; [rewrite lookup_insert_eq; by eexists|rewrite lookup_insert_ne by done; by apply Hn].
Qed.

Lemma mapped_at s n o : s_shms s !! n = Some o -> so_size o = shm_size -> at_addr (mapped s n) (s_next s) = Ret (n, o).
Proof.
  intros Eo Es. unfold at_addr. cbn -[shm_size]. rewrite lookup_insert_eq. cbn -[shm_size]. rewrite Eo. cbn -[shm_size].
  by rewrite Es, Z.ltb_irrefl.
Qed.

(** What a start-up has changed when it succeeds. *)
Definition started (s : os) (h : handles) (s' : os) : Prop :=
  exists q n d, attach (so_data (found s)) = Ret (0, d) /\ so_size (found s) = shm_size /\
    s_fds s !! h_msq h = None /\ s_fds s !! h_shm_fd h = None /\ h_msq h <> h_shm_fd h /\ s_maps s !! h_shm h = None /\
    0 <= h_msq h /\ 0 <= h_shm_fd h /\
    s_fds s' = <[h_shm_fd h := ShmFile n]> (<[h_msq h := MqFile q]> (s_fds s)) /\
    s_maps s' = <[h_shm h := (n, shm_size)]> (s_maps s) /\ s_mq s' = Some q /\ s_shm s' = Some n /\
    s_shms s' !! n = Some (ShmObject shm_size d ((magic (so_data (found s)) =? 0) || so_mutex (found s))%bool) /\
    forall m, m <> n -> s_shms s' !! m = s_shms s !! m.

Lemma start_mapped s s2 msq fd q n fs :
  wf s -> wf s2 -> (s_fds s !! msq = None /\ 0 <= msq) -> s_fds s2 = <[fd := ShmFile n]> (<[msq := MqFile q]> (s_fds s)) ->
  <[msq := MqFile q]> (s_fds s) !! fd = None -> 0 <= fd ->
  s_shms s2 !! n = Some (found s) -> so_size (found s) = shm_size -> s_shm s2 = Some n -> s_mq s2 = Some q ->
  s_maps s2 = s_maps s -> (forall m, m <> n -> s_shms s2 !! m = s_shms s !! m) ->
  let s3 := mapped (set_s_faults fs s2) n in
  exists s', ('(n, o) ← at_addr s3 (s_next s2);
    if negb (magic (so_data o) =? SHM_MAGIC) then
      let d := set_shutdown_flag 0 (set_capacity BUFFER_CAPACITY (so_data o)) in
      '(r, o) ← init_object (ShmObject (so_size o) d (so_mutex o));
      let s := store s3 n o in
      if r =? -1 then Ret (None, close msq (close fd (munmap (s_next s2) shm_size s)))
      else Ret (Some (Handles msq fd (s_next s2)), s)
    else Ret (Some (Handles msq fd (s_next s2)), s3)) = Ret (Some (Handles msq fd (s_next s2)), s') /\
    wf s' /\ started s (Handles msq fd (s_next s2)) s'.
Proof.
  intros Hw Hw2 [Hm Hm0] Ef Hf Hf0 Eo Es En Eq Emap Hrest s3.
  assert (Hw3 : wf s3) by (by apply mapped_wf). pose proof (found_records s Hw) as Hz. rewrite Es in Hz.
  change (records_in shm_size) with BUFFER_CAPACITY in Hz.
  destruct (attach_object (so_size (found s)) (so_data (found s)) (so_mutex (found s)) Hz) as (d' & Ha & Hz' & Hi).
  assert (E3 : at_addr s3 (s_next s2) = Ret (n, found s)) by exact (mapped_at (set_s_faults fs s2) n (found s) Eo Es).
  apply lookup_insert_None in Hf as [Hf Hne].
  assert (Hst : forall s', s_fds s' = s_fds s3 -> s_maps s' = s_maps s3 -> s_mq s' = s_mq s3 -> s_shm s' = s_shm s3 ->
    s_shms s' !! n = Some (ShmObject shm_size d' ((magic (so_data (found s)) =? 0) || so_mutex (found s))%bool) ->
    (forall m, m <> n -> s_shms s' !! m = s_shms s3 !! m) -> started s (Handles msq fd (s_next s2)) s').
  { intros s' F1 F2 F3 F4 F5 F6. exists q, n, d'. rewrite F1, F2, F3, F4. cbn -[shm_size] in *.
    split_and!; try done; [rewrite <- Emap; by apply (map_fresh s2)|by rewrite Emap|].
    intros m Hmn. rewrite F6 by done. by apply Hrest. }
  rewrite E3. cbn [mbind outcome_bind]. destruct (negb (magic (so_data (found s)) =? SHM_MAGIC)).
  - rewrite Hi. cbn -[shm_size s3 attach store mapped]. eexists. split; [done|]. split.
    + apply store_wf; [done|cbn; by rewrite Eo|]. cbn. by rewrite Hz', Es.
    + apply Hst; try done; cbn -[shm_size]; [by rewrite lookup_insert_eq, Es|]. intros m Hmn. by rewrite lookup_insert_ne.
  - eexists. split; [done|]. split; [done|]. apply Hst; try done. injection Hi as Hd Hmu. rewrite <- Hd, <- Hmu. cbn -[shm_size].
    rewrite Eo. f_equal. rewrite <- Es. by destruct (found s).
Qed.

(** [start_up] by its specification. *)
Lemma start_up_spec s : wf s -> honest s ->
  exists r s', start_up s = Ret (r, s') /\ wf s' /\
    match r with
    | Some h => started s h s'
    | None => s_fds s' = s_fds s /\ s_maps s' = s_maps s /\ found s' = found s /\
        (~ fault_free s \/ so_size (found s) <> shm_size)
    end.
Proof.
  intros Hw Hh. unfold start_up. fold MQ_FLAGS SHM_FLAGS.
  destruct (get_mq_spec s Hw Hh) as (msq & s1 & -> & Hw1 & Hh1 & Hf1 & En1 & Eo1 & Em1 & Hcase).
  assert (Efound : found s1 = found s) by (unfold found; by rewrite En1, Eo1).
  destruct Hcase as [(-> & Ef1 & Hnf)|(q & Hq & Hq0 & Ef1 & Eq)].
  { eexists None, s1. split; [done|]. split; [done|]. split_and!; try done. by left. }
  destruct (Z.eqb_spec msq (-1)) as [?|_]; [lia|].
  destruct (get_shm_spec s1 Hw1 Hh1) as (fd & s2 & -> & Hw2 & Hh2 & Hf2 & Eq2 & Em2 & Hcase2).
  assert (Hback : forall s', s_fds s' = s_fds s1 -> s_fds (close msq s') = s_fds s).
  { intros s' E. cbn. rewrite E, Ef1. by apply delete_insert_id. }
  destruct Hcase2 as [(-> & Ef2 & Ev2 & Hwhy)|(n & Hop & Es & Hrest)].
  { eexists None, _. split; [done|]. split; [by apply close_wf|]. split_and!; [by apply Hback|cbn; congruence| |].
    - unfold found in *. cbn. congruence.
    - rewrite <- Efound. destruct Hwhy as [?|?]; [left; tauto|by right]. }
  pose proof Hop as (Ef2 & Hfr & Hfd & Eo2 & En2). destruct (Z.eqb_spec fd (-1)) as [?|_]; [lia|].
  destruct (mapping_spec s2 fd n _ _ Hh2 Hop) as (fs & [Hh3 Hf3] & [(e & Hnf & ->)| ->]).
  - eexists None, _. split; [done|]. split; [by do 2 apply close_wf|].
    split_and!; [apply Hback; by apply (opened_closed _ _ _ _ _ Hop)|cbn; congruence| |left; tauto].
    unfold found at 1. cbn -[found]. rewrite En2, Eo2, Es. by rewrite Efound.
  - rewrite Efound in *. destruct (start_mapped s s2 msq fd q n fs) as (s' & E & Hw' & Hst); try done;
      [by rewrite Ef2, Ef1|by rewrite Ef1 in Hfr|congruence..|intros m Hm; by rewrite Hrest, Eo1|].
    eexists (Some _), s'. split; [exact E|done].
Qed.


(** A program that started up and stops gives everything back: its descriptors
    and its mapping are gone and nobody else's are touched.  The controller also
    removes both names; the sensor and the monitor leave them. *)
Lemma start_and_stop s h s' is_creator :
  wf s -> honest s -> start_up s = Ret (Some h, s') ->
  magic (so_data (found s)) = 0 \/ magic (so_data (found s)) = SHM_MAGIC /\ total_size (so_data (found s)) = shm_size ->
  exists s'', shutdown_ipc is_creator (Some (h_shm h)) (h_shm_fd h) (h_msq h) s' = Ret s'' /\
    s_fds s'' = s_fds s /\ s_maps s'' = s_maps s /\
    s_mq s'' = (if is_creator then None else s_mq s') /\ s_shm s'' = (if is_creator then None else s_shm s').
Proof.
  intros Hw Hh E Hmag. destruct (start_up_spec s Hw Hh) as (r & s1 & E1 & Hw1 & Hst). rewrite E in E1.
  injection E1 as <- <-. destruct Hst as (q & n & d & Ha & Es & F1 & F2 & Hne & F3 & P1 & P2 & Ef & Em & Eq & En & Eo & _).
  assert (Ht : total_size d = shm_size).
  { revert Ha. unfold attach, init_shm. destruct Hmag as [E0|[E0 Et]]; rewrite E0.
    - change (0 =? SHM_MAGIC) with false. cbn -[BUFFER_CAPACITY SEM_VALUE_MAX zlen replicate drop shm_size]. rewrite E0.
      change (0 =? 0) with true. change (SEM_VALUE_MAX <? BUFFER_CAPACITY) with false. cbn match.
      destruct (zlen _ <? _); [done|]. by intros [= <-].
    - rewrite Z.eqb_refl. by intros [= <-]. }
  unfold shutdown_ipc, at_addr. destruct (Z.eqb_spec (h_msq h) (-1)) as [?|_]; [lia|].
  destruct (Z.eqb_spec (h_shm_fd h) (-1)) as [?|_]; [lia|]. cbn -[shm_size].
  assert (Hfds : delete (h_shm_fd h) (delete (h_msq h) (s_fds s')) = s_fds s).
  { rewrite Ef, (delete_insert_ne _ (h_msq h)), (delete_insert_id _ (h_msq h)) by done. by apply delete_insert_id. }
  assert (Hmaps : delete (h_shm h) (s_maps s') = s_maps s) by (rewrite Em; by apply delete_insert_id).
  destruct is_creator; cbn -[shm_size]; rewrite Em, lookup_insert_eq; cbn -[shm_size]; rewrite Eo; cbn -[shm_size];
    rewrite Z.ltb_irrefl; cbn -[shm_size]; rewrite Ht; change (0 <? shm_size) with true; cbn -[shm_size];
    unfold munmap; cbn -[shm_size]; rewrite Em, lookup_insert_eq, Z.leb_refl; cbn -[shm_size];
    eexists; (split; [done|]); cbn -[shm_size]; split_and!; try done; congruence.
Qed.

Definition settled (s : os) : Prop :=
  magic (so_data (found s)) = 0 \/ magic (so_data (found s)) = SHM_MAGIC /\ total_size (so_data (found s)) = shm_size.

Lemma started_cleanup s h s' : started s h s' ->
  s_fds (cleanup h s') = s_fds s /\ s_maps (cleanup h s') = s_maps s.
Proof.
  intros (q & n & d & _ & _ & F1 & F2 & Hne & F3 & _ & _ & Ef & Em & _).
  unfold cleanup, munmap. rewrite Em, lookup_insert_eq, Z.leb_refl. cbn -[shm_size]. rewrite Ef. split.
  - rewrite delete_delete, (delete_insert_ne _ (h_msq h)), (delete_insert_id _ (h_msq h)) by done. by apply delete_insert_id.
  - by apply delete_insert_id.
Qed.

(** No program of the gateway core leaks.  Whatever calls fail in its start-up,
    whether or not its threads can be created, and whichever of the three programs it
    is, a run of [main] ends with exactly the descriptors and the mappings there were
    before; it reports success exactly if it started up and its threads were
    created. *)
Theorem mains_give_back s (threads_created : bool) (main : bool -> os -> outcome (Z * os)) :
  wf s -> honest s -> settled s -> main ∈ [sensor_main; monitor_main; controller_main] ->
  exists r s', main threads_created s = Ret (r, s') /\ s_fds s' = s_fds s /\ s_maps s' = s_maps s /\
    (fault_free s -> so_size (found s) = shm_size -> r = if threads_created then 0 else 1).
Proof.
  intros Hw Hh Hset Hin. assert (exists b, main = run_main b) as [b ->].
  { unfold sensor_main, monitor_main, controller_main in Hin. rewrite !elem_of_cons, elem_of_nil in Hin.
    destruct Hin as [->|[->|[->|[]]]]; by eexists. }
  clear Hin. destruct (start_up_spec s Hw Hh) as (r & s1 & E & _ & Hr). unfold run_main. rewrite E.
  cbn [mbind outcome_bind]. destruct r as [h|].
  - destruct threads_created.
    + destruct (start_and_stop s h s1 b Hw Hh E Hset) as (s2 & -> & F1 & F2 & _). cbn. eauto 10.
    + destruct (started_cleanup s h s1 Hr). eauto 10.
  - destruct Hr as (F1 & F2 & _ & Hwhy). do 2 eexists. split; [done|]. split_and!; [done|done|]. tauto.
Qed.

(** A system without the objects. *)
Definition no_objects (faults : list (option Z)) : os := OS None ∅ None ∅ ∅ ∅ ∅ 0 faults 0.

Lemma no_objects_wf faults : wf (no_objects faults).
Proof. split_and!; cbn; [intros ??|intros ??|intros ??|done]; by rewrite lookup_empty. Qed.

Lemma honest_script s : bool_decide (Some EEXIST ∈ s_faults s) = false -> honest s.
Proof. by intros H%bool_decide_eq_false. Qed.


(** The handles of the first process on such a system. *)
Definition first_handles : handles := Handles 1 3 4.
Definition first_started : os :=
  match start_up (no_objects []) with Ret (_, s) => s | Undef => no_objects [] end.

(** The queue and the segment are opened and mapped by a monitor, whose threads are
    not created. *)
Lemma mains_give_back_witness :
  exists s', monitor_main false (no_objects []) = Ret (1, s') /\ s_fds s' = ∅ /\ s_maps s' = ∅.
Proof.
  destruct (mains_give_back (no_objects []) false monitor_main) as (r & s' & E & F1 & F2 & Hr);
    [apply no_objects_wf|by apply honest_script|by left|rewrite !elem_of_cons; tauto|].
  exists s'. rewrite E, Hr; [done| |done]. intros e He. by apply elem_of_nil in He.
Defined.

(** ** What goes wrong *)

(** The state behind a start-up, with the handles it gave. *)
Definition after (s : os) : option handles * os :=
  match start_up s with Ret r => r | Undef => (None, s) end.
Definition second_started : os := (after first_started).2.
Definition second_handles : handles := Handles 5 6 7.

Lemma first_two_start :
  start_up (no_objects []) = Ret (Some first_handles, first_started) /\
  start_up first_started = Ret (Some second_handles, second_started).
Proof. split; vm_compute; reflexivity. Qed.

(** Stopping one program destroys the mutex in the segment, which the others still
    have mapped and go on locking. *)
Theorem shared_mutex_destroyed : exists h1 s1 h2 s2 s3,
  start_up (no_objects []) = Ret (Some h1, s1) /\ start_up s1 = Ret (Some h2, s2) /\
  shutdown_ipc false (Some (h_shm h2)) (h_shm_fd h2) (h_msq h2) s2 = Ret s3 /\
  (at_addr s2 (h_shm h1) ≫= fun r => Ret (so_mutex r.2)) = Ret true /\
  (at_addr s3 (h_shm h1) ≫= fun r => Ret (so_mutex r.2)) = Ret false.
Proof.
  destruct first_two_start as [E1 E2].
  exists first_handles, first_started, second_handles, second_started. 
  destruct (shutdown_ipc false (Some 7%nat) 6 5 second_started) as [s3|] eqn:E; [|vm_compute in E; discriminate].
  exists s3. split; [done|]. split; [done|]. split; [done|]. split; [by vm_compute|].
  transitivity (s3 ← shutdown_ipc false (Some 7%nat) 6 5 second_started;
    at_addr s3 (h_shm first_handles) ≫= fun r => Ret (so_mutex r.2)); [by rewrite E|by vm_compute].
Qed.

(** A queue left behind with other attributes is used as it is: the comparison is
    reached only when the creation is exclusive, which it never is; and then it
    would leave the descriptor open. *)
Theorem stale_queue_accepted :
  (forall s q a, wf s -> s_mq s = Some q -> s_mqs s !! q = Some a -> s_faults s = [] ->
     exists fd s', get_mq (Z.lor O_CREAT O_RDWR) attr s = (fd, s') /\ s_fds s' !! fd = Some (MqFile q) /\ s_mqs s' !! q = Some a) /\
  (exists s s', s_fds s = ∅ /\ get_mq (Z.lor (Z.lor O_CREAT O_EXCL) O_RDWR) attr s = (-1, s') /\ s_fds s' <> ∅).
Proof.
  split.
  - intros s q a _ Eq Ea Ef. unfold get_mq, mq_open, attempt. rewrite Ef, Eq.
    change (has_bit _ O_CREAT && has_bit _ O_EXCL)%bool with false. cbn match. unfold open_fd.
    destruct (Z.ltb_spec (Z.of_nat (s_next s)) 0); [lia|]. do 2 eexists. split; [done|]. cbn. by rewrite lookup_insert_eq.
  - exists (OS (Some 0%nat) {[0%nat := MqAttr 1 1]} None ∅ ∅ ∅ ∅ 1 [] 0). eexists. split; [done|].
    split; [vm_compute; reflexivity|]. intros E. by apply (f_equal (lookup 1)) in E.
Qed.

(** A segment of the right size with another magic number is taken as set up: its
    semaphores are never initialised. *)
Definition foreign : os :=
  OS None ∅ (Some 0%nat) {[0%nat := ShmObject shm_size (set_magic 1 fresh_shm) false]} ∅ ∅ ∅ 1 [] 0.

Theorem foreign_segment_used : exists h s',
  start_up foreign = Ret (Some h, s') /\
  (at_addr s' (h_shm h) ≫= fun r => Ret (spaces (so_data r.2), so_mutex r.2)) = Ret (None, false).
Proof. exists (Handles 2 3 4), (after foreign).2. split; vm_compute; reflexivity. Qed.

(** A program whose threads cannot be created removes the names, also when another
    one made the objects: the next program to start shares nothing with it. *)
Theorem failed_start_splits : exists h1 s1 h2 s2 h3 s3,
  start_up (no_objects []) = Ret (Some h1, s1) /\ start_up s1 = Ret (Some h2, s2) /\
  start_up (cleanup h2 s2) = Ret (Some h3, s3) /\
  fst <$> s_maps s3 !! h_shm h1 <> fst <$> s_maps s3 !! h_shm h3.
Proof.
  destruct first_two_start as [E1 E2].
  exists first_handles, first_started, second_handles, second_started, (Handles 9 11 12),
    (after (cleanup second_handles second_started)).2.
  split; [done|]. split; [done|]. split; [vm_compute; reflexivity|].
  intros E. vm_compute in E. discriminate.
Qed.

End PosixObj.
