(* ===== verification/SysV.v ===== *)
(** * The System V sensor hub

    [system-V-ipc-sensorhub]: the ring of sensor records in a shared segment
    behind one semaphore, the creation and reuse of the IPC objects
    ([common/common.c]), and the process [sensor/sensor_writer.c] whose main
    thread hands the commands of the message queue to a pool of workers.  A
    section under the semaphore or under the mutex is one step. *)
From S2P Require Import Prelude Ring.
Open Scope c_scope.

Module SysV.

Definition SHM_VERSION : Z := 1.
Definition SHM_MAGIC : Z := 0x20213026.
Definition CAP_DEFAULT : Z := 10.
Definition CAP_SHM : Z := 20.
Definition EPERM : Z := 1.
Definition PERMS : Z := 438.

(** enum type_message *)
Definition GET_DATA : Z := 1.
Definition STORAGE_DATA : Z := 2.
Definition GET_STATUS : Z := 3.
Definition LOW_ENERY : Z := 4.
Definition SHUTDOWN : Z := 5.

(** The sizes of the structures with the types of x86-64. *)
Definition SIZEOF_SHM_HEADER : Z := 24.
Definition SIZEOF_SHM_DATA : Z := 40.
Definition SIZEOF_SENSOR_DATA : Z := 288.

(** The text of a message is the C string in its array. *)
Record message := Message { id : Z; text : list Z }.

Record message_control := MessageControl { mtype : Z; mc_data : message }.

Record sensor_data := SensorData {
  id_sensor : Z; sd_data : message; humidity : Z; flux : Z; moisture : Z; motion : bool; timestamp : Z }.

Definition zero_sensor : sensor_data := SensorData 0 (Message 0 []) 0 0 0 false 0.

Record shm_data := ShmData {
  magic : Z; version : Z; total_size : Z; header_size : Z; flags : Z;
  reserved : Z; capacity : Z; read_index : Z; write_index : Z; dropped : Z;
  data : list sensor_data }.
Definition set_magic (v : Z) (x : shm_data) : shm_data :=
  ShmData v (version x) (total_size x) (header_size x) (flags x) (reserved x) (capacity x)
    (read_index x) (write_index x) (dropped x) (data x).
Definition set_version (v : Z) (x : shm_data) : shm_data :=
  ShmData (magic x) v (total_size x) (header_size x) (flags x) (reserved x) (capacity x)
    (read_index x) (write_index x) (dropped x) (data x).
Definition set_total_size (v : Z) (x : shm_data) : shm_data :=
  ShmData (magic x) (version x) v (header_size x) (flags x) (reserved x) (capacity x)
    (read_index x) (write_index x) (dropped x) (data x).
Definition set_header_size (v : Z) (x : shm_data) : shm_data :=
  ShmData (magic x) (version x) (total_size x) v (flags x) (reserved x) (capacity x)
    (read_index x) (write_index x) (dropped x) (data x).
Definition set_flags (v : Z) (x : shm_data) : shm_data :=
  ShmData (magic x) (version x) (total_size x) (header_size x) v (reserved x) (capacity x)
    (read_index x) (write_index x) (dropped x) (data x).
Definition set_reserved (v : Z) (x : shm_data) : shm_data :=
  ShmData (magic x) (version x) (total_size x) (header_size x) (flags x) v (capacity x)
    (read_index x) (write_index x) (dropped x) (data x).
Definition set_capacity (v : Z) (x : shm_data) : shm_data :=
  ShmData (magic x) (version x) (total_size x) (header_size x) (flags x) (reserved x) v
    (read_index x) (write_index x) (dropped x) (data x).
Definition set_read_index (v : Z) (x : shm_data) : shm_data :=
  ShmData (magic x) (version x) (total_size x) (header_size x) (flags x) (reserved x)
    (capacity x) v (write_index x) (dropped x) (data x).
Definition set_write_index (v : Z) (x : shm_data) : shm_data :=
  ShmData (magic x) (version x) (total_size x) (header_size x) (flags x) (reserved x)
    (capacity x) (read_index x) v (dropped x) (data x).
Definition set_dropped (v : Z) (x : shm_data) : shm_data :=
  ShmData (magic x) (version x) (total_size x) (header_size x) (flags x) (reserved x)
    (capacity x) (read_index x) (write_index x) v (data x).
Definition set_data (v : list sensor_data) (x : shm_data) : shm_data :=
  ShmData (magic x) (version x) (total_size x) (header_size x) (flags x) (reserved x)
    (capacity x) (read_index x) (write_index x) (dropped x) v.

(** ** The segment

    [lock] says whether [sem_lock] succeeds; it fails when the wait is
    interrupted or the semaphore is removed. *)

(** A new segment is filled with zeros; [get_id_all] asks for [CAP_SHM] records. *)
Definition fresh_shm : shm_data :=
  ShmData 0 0 0 0 0 0 0 0 0 0 (replicate (Z.to_nat CAP_SHM) zero_sensor).

(** The section of [init_shmem] under the semaphore. *)
Definition init_section (cap : Z) (shm : shm_data) : outcome shm_data :=
  if negb (magic shm =? SHM_MAGIC) then
    let shm := set_reserved 0 (set_flags 0 (set_header_size SIZEOF_SHM_HEADER
      (set_version SHM_VERSION (set_magic SHM_MAGIC shm)))) in
    let shm :=
      if capacity shm =? 0 then set_capacity (if negb (cap =? 0) then u32 cap else CAP_DEFAULT) shm
      else shm in
    let shm := set_total_size (u32 (SIZEOF_SHM_DATA + capacity shm * SIZEOF_SENSOR_DATA)) shm in
    let shm := set_dropped 0 (set_write_index 0 (set_read_index 0 shm)) in
    if zlen (data shm) <? capacity shm then Undef
    else Ret (set_data (replicate (Z.to_nat (capacity shm)) zero_sensor ++
                        drop (Z.to_nat (capacity shm)) (data shm)) shm)
  else Ret shm.

Definition init_shmem (semid : Z) (lock unlock : bool) (shm : shm_data) (cap : Z) : outcome (Z * shm_data) :=
  if ((0 <=? semid) && negb lock)%bool then Ret (-1, shm)
  else
    shm ← init_section cap shm;
    Ret (if ((0 <=? semid) && negb unlock)%bool then -1 else 0, shm).

(** [(i + 1) % capacity] on [uint32_t]. *)
Definition next_index (i cap : Z) : outcome Z :=
  if cap =? 0 then Undef else Ret (u32 (i + 1) mod cap).

(** The record fetched, if any. *)
Definition get_data (shm : shm_data) (semid : Z) (lock : bool) : outcome (option sensor_data * shm_data) :=
  if ((semid <? 0) || negb lock)%bool then Ret (None, shm)
  else if negb (read_index shm =? write_index shm) then
    d ← get_at (data shm) (read_index shm);
    r ← next_index (read_index shm) (capacity shm);
    Ret (Some d, set_read_index r shm)
  else Ret (None, shm).

(** Whether the record was stored. *)
Definition storage_data (shm : shm_data) (semid : Z) (lock : bool) (new_data : sensor_data) :
    outcome (bool * shm_data) :=
  if ((semid <? 0) || negb lock)%bool then Ret (false, shm)
  else
    next_write ← next_index (write_index shm) (capacity shm);
    if negb (next_write =? read_index shm) then
      a ← set_at (data shm) (write_index shm) new_data;
      Ret (true, set_write_index next_write (set_data a shm))
    else Ret (false, set_dropped (u32 (dropped shm + 1)) shm).

(** What the clock, [getpid] and [rand] answer while one command is handled. *)
Record draw := Draw { d_time : Z; d_pid : Z; d_flux : Z; d_humidity : Z; d_moisture : Z }.

Definition random_update_sensor (id : Z) (w : draw) : sensor_data :=
  SensorData id
    (Message id (bstr "Message from sensor id: " ++ fmt_d id ++ bstr ", pid: " ++ fmt_d (d_pid w)))
    (d_humidity w mod 100) (d_flux w mod 1000) (d_moisture w mod 100) true (u64 (d_time w)).

(** What handling a command did to the ring. *)
Inductive effect := NoEffect | Stored (d : sensor_data) | Fetched (d : sensor_data).

Definition handle_command (ctrl : message_control) (w : draw) (shm : shm_data) (semid : Z) (lock : bool) :
    outcome (effect * shm_data) :=
  let t := mtype ctrl in
  if t =? 1 then
    '(r, shm) ← get_data shm semid lock;
    Ret (match r with Some d => Fetched d | None => NoEffect end, shm)
  else if t =? 2 then
    let d := random_update_sensor 101 w in
    '(ok, shm) ← storage_data shm semid lock d;
    Ret (if ok : bool then Stored d else NoEffect, shm)
  else Ret (NoEffect, shm).

Definition cmd_to_string (cmd : Z) : list Z :=
  bstr (if cmd =? 1 then "GET_DATA" else if cmd =? 2 then "STORAGE_DATA"
        else if cmd =? 3 then "GET_STATUS" else if cmd =? 4 then "LOW_ENERY"
        else if cmd =? 5 then "SHUTDOWN" else "UNKNOWN").

(** The processes at the segment: each initialises it and runs commands.  The
    logs are the records stored and fetched, in the order of the sections. *)
Record hub := Hub { h_shm : shm_data; h_stored : list sensor_data; h_fetched : list sensor_data }.

Definition log_effect (e : effect) (h : hub) : hub :=
  match e with
  | NoEffect => h
  | Stored d => Hub (h_shm h) (h_stored h ++ [d]) (h_fetched h)
  | Fetched d => Hub (h_shm h) (h_stored h) (h_fetched h ++ [d])
  end.

Inductive hub_step : hub -> hub -> Prop :=
| hub_init shm sd fd semid lock unlock r shm' :
    init_shmem semid lock unlock shm CAP_SHM = Ret (r, shm') ->
    hub_step (Hub shm sd fd) (Hub shm' sd fd)
| hub_command shm sd fd ctrl w semid lock e shm' :
    handle_command ctrl w shm semid lock = Ret (e, shm') ->
    hub_step (Hub shm sd fd) (log_effect e (Hub shm' sd fd)).

(** A segment some process has initialised. *)
Definition hub_start (h : hub) : Prop :=
  exists semid unlock r shm,
    init_shmem semid true unlock fresh_shm CAP_SHM = Ret (r, shm) /\ h = Hub shm [] [].

Definition hub_reachable (h : hub) : Prop := exists h0, hub_start h0 /\ rtc hub_step h0 h.

(** ** Creating and reusing the IPC objects

    The objects behind the three keys, as the kernel has them. *)
Record msqueue := Msqueue { q_id : Z; q_msgs : list message_control }.
Record shmseg := Shmseg {
  seg_id : Z; seg_size : Z; shm_nattch : Z; shm_lpid : Z; shm_cpid : Z; seg_body : shm_data }.
Record semset := Semset { sem_id : Z; sem_vals : list Z; sempid : Z; sem_otime : Z }.
Record kernel := Kernel { k_msq : option msqueue; k_shm : option shmseg; k_sem : option semset }.

(** What a call of the other system functions answers: [kill] with its error,
    the identifier of an object created or [None] for an error, the [sem_otime]
    seen at each poll, and the caller's pid and clock. *)
Record world := World {
  kill0 : Z -> option Z; new_msq : option Z; new_shm : option Z; new_sem : option Z;
  polls : nat -> Z; self : Z; now : Z }.

(** A call returns, ends the process or blocks for ever. *)
Inductive ended (A : Type) := Returns (a : A) | Exits | Blocks.
Arguments Returns {A} a.
Arguments Exits {A}.
Arguments Blocks {A}.

Definition is_pid_alive (e : world) (pid : Z) : bool :=
  if pid <=? 0 then false
  else match kill0 e pid with None => true | Some errno => errno =? EPERM end.

(** The identifier, the queue and the flag [*exist]. *)
Definition get_msq (e : world) (key msgflag : Z) (exist force_reset : bool) (q : option msqueue) :
    ended (Z * option msqueue * bool) :=
  if ((key =? 0) || (msgflag =? 0))%bool then Returns (-1, q, exist)
  else
    match (if force_reset then None else q) with
    | Some old => Returns (q_id old, Some old, true)
    | None =>
        match new_msq e with
        | Some i => Returns (i, Some (Msqueue i []), exist)
        | None => Exits
        end
    end.

Definition sem_is_stale (e : world) (s : semset) : bool :=
  let val := default (-1) (head (sem_vals s)) in
  if val <? 0 then true
  else if negb (val =? 0) then false
  else if ((0 <? sempid s) && is_pid_alive e (sempid s))%bool then false
  else true.

Definition MAX_ENTRIES : nat := 10.

Definition get_sem (e : world) (key msgflag : Z) (num_sem : nat) (sem_array : option (list Z))
    (force_reset : bool) (s : option semset) : ended (Z * option semset) :=
  if ((key =? 0) || (msgflag =? 0))%bool then Exits
  else
    let s :=
      match s with
      | Some old => if (force_reset || sem_is_stale e old)%bool then None else Some old
      | None => None
      end in
    match s with
    | None =>
        match new_sem e with
        | None => Exits
        | Some i =>
            let vals := match sem_array with Some a => a | None => replicate num_sem 1 end in
            if default 0 (head vals) =? 0 then Blocks
            else Returns (i, Some (Semset i vals (self e) (now e)))
        end
    | Some old =>
        if existsb (fun i => negb (polls e i =? 0)) (seq 0 MAX_ENTRIES) then Returns (sem_id old, Some old)
        else Exits
    end.

Definition shm_is_stale (e : world) (m : shmseg) : bool :=
  if 0 <? shm_nattch m then false
  else
    let owner := if 0 <? shm_lpid m then shm_lpid m else shm_cpid m in
    if is_pid_alive e owner then false else true.

(** [shmget] on an existing key: the segment must be large enough. *)
Definition shmget (m : option shmseg) (size : Z) : Z :=
  match m with Some old => if size <=? seg_size old then seg_id old else -1 | None => -1 end.

Definition get_shmem (e : world) (key shmflag size : Z) (exist force_reset : bool) (m : option shmseg) :
    ended (Z * option shmseg * bool) :=
  if ((key <=? 0) || (shmflag <=? 0) || (size <=? 0))%bool then Returns (-1, m, exist)
  else
    let m :=
      match m with
      | Some old =>
          if ((0 <=? shmget m size) && (force_reset || shm_is_stale e old))%bool then None else m
      | None => None
      end in
    match m with
    | Some _ =>
        let old := shmget m size in
        if 0 <? old then Returns (old, m, true) else Returns (-1, m, exist)
    | None =>
        match new_shm e with
        | Some i => Returns (i, Some (Shmseg i size 0 0 (self e) fresh_shm), exist)
        | None => Exits
        end
    end.

Definition segment_size : Z := SIZEOF_SHM_DATA + CAP_SHM * SIZEOF_SENSOR_DATA.

(** The result and the three identifiers. *)
Definition get_id_all (e : world) (shm msq sem : Z) (force_reset : bool) (k : kernel) :
    ended (Z * (Z * Z * Z) * kernel) :=
  match get_msq e msq PERMS false force_reset (k_msq k) with
  | Exits => Exits
  | Blocks => Blocks
  | Returns (msq_id, q, found) =>
      if ((msq_id <? 0) && negb found)%bool then Returns (-1, (msq_id, 0, 0), Kernel q (k_shm k) (k_sem k))
      else
        match get_shmem e shm PERMS segment_size found force_reset (k_shm k) with
        | Exits => Exits
        | Blocks => Blocks
        | Returns (shm_id, m, found) =>
            if ((shm_id <? 0) && negb found)%bool then
              Returns (-1, (msq_id, shm_id, 0), Kernel q m (k_sem k))
            else
              match get_sem e sem PERMS 1 None force_reset (k_sem k) with
              | Exits => Exits
              | Blocks => Blocks
              | Returns (sem_id, s) =>
                  Returns (if sem_id <? 0 then -1 else 0, (msq_id, shm_id, sem_id), Kernel q m s)
              end
        end
  end.

(** ** The writer process *)

Definition QUEUE_SIZE : Z := 64.
Definition NUMBER_WORKER : nat := 4.

(** The signals of [system_set]. *)
Inductive signal := SIGUSR1 | SIGHUP | SIGTERM | SIGINT.

Definition terminates (s : signal) : bool := match s with SIGTERM | SIGINT => true | _ => false end.

(** Where the main thread is: reading [is_running], in [msgrcv], about to store
    a command, waiting for room, about to stop the workers, joining the workers,
    joining the signal thread, past both. *)
Inductive main_pc :=
| MCheck | MRecv | MStore (c : message_control) | MWaitFull (c : message_control)
| MStop | MJoin | MJoinSig | MDone.

(** A worker: about to take the mutex, waiting for a command, handling one,
    returned. *)
Inductive worker_pc := WLoop | WWait | WHandle (c : message_control) | WDone.

(** The signal thread: in [sigwaitinfo], about to broadcast, returned. *)
Inductive sig_pc := SWait | SBroadcast | SDone.

(** [thread_data] with the threads, the kernel's queue and the segment.  [head]
    of the C structure is the read index of the ring, [tail] the write index.
    The logs are the commands stored in the ring and taken from it. *)
Record writer := Writer {
  ctrl : ring message_control; is_running : bool; main : main_pc; workers : list worker_pc;
  sig : sig_pc; inbox : list message_control; shm : shm_data;
  w_stored : list message_control; w_taken : list message_control }.
Definition set_ctrl (v : ring message_control) (x : writer) : writer :=
  Writer v (is_running x) (main x) (workers x) (sig x) (inbox x) (shm x) (w_stored x)
    (w_taken x).
Definition set_is_running (v : bool) (x : writer) : writer :=
  Writer (ctrl x) v (main x) (workers x) (sig x) (inbox x) (shm x) (w_stored x) (w_taken x).
Definition set_main (v : main_pc) (x : writer) : writer :=
  Writer (ctrl x) (is_running x) v (workers x) (sig x) (inbox x) (shm x) (w_stored x)
    (w_taken x).
Definition set_workers (v : list worker_pc) (x : writer) : writer :=
  Writer (ctrl x) (is_running x) (main x) v (sig x) (inbox x) (shm x) (w_stored x) (w_taken
    x).
Definition set_sig (v : sig_pc) (x : writer) : writer :=
  Writer (ctrl x) (is_running x) (main x) (workers x) v (inbox x) (shm x) (w_stored x)
    (w_taken x).
Definition set_inbox (v : list message_control) (x : writer) : writer :=
  Writer (ctrl x) (is_running x) (main x) (workers x) (sig x) v (shm x) (w_stored x)
    (w_taken x).
Definition set_shm (v : shm_data) (x : writer) : writer :=
  Writer (ctrl x) (is_running x) (main x) (workers x) (sig x) (inbox x) v (w_stored x)
    (w_taken x).
Definition set_w_stored (v : list message_control) (x : writer) : writer :=
  Writer (ctrl x) (is_running x) (main x) (workers x) (sig x) (inbox x) (shm x) v (w_taken
    x).
Definition set_w_taken (v : list message_control) (x : writer) : writer :=
  Writer (ctrl x) (is_running x) (main x) (workers x) (sig x) (inbox x) (shm x) (w_stored x)
    v.

Inductive event :=
| Main (rcv : bool) (i : nat)
| Work (i : nat) (w : draw) (lock : bool)
| Signal (s : signal)
| Broadcast
| Arrive (c : message_control)
| Spurious (i : nat)
| SpuriousMain.

Definition waiting (p : worker_pc) : bool := match p with WWait => true | _ => false end.

Fixpoint wake_one (ws : list worker_pc) : list worker_pc :=
  match ws with
  | [] => []
  | WWait :: ws => WLoop :: ws
  | p :: ws => p :: wake_one ws
  end.

(** [pthread_cond_signal] on [not_empty]: it wakes [i] if that thread waits, and
    some waiting thread otherwise. *)
Definition wake_worker (i : nat) (ws : list worker_pc) : list worker_pc :=
  match ws !! i with Some WWait => <[i := WLoop]> ws | _ => wake_one ws end.

Definition wake_all (ws : list worker_pc) : list worker_pc :=
  (fun p => if waiting p then WLoop else p) <$> ws.

(** [pthread_cond_signal] on [not_full], where only the main thread waits. *)
Definition wake_main (m : main_pc) : main_pc := match m with MWaitFull c => MStore c | _ => m end.

(** One step of the main thread.  [rcv] is whether [msgrcv] succeeds; it blocks
    while the queue is empty.  [i] is the worker a signal would wake. *)
Definition main_step (rcv : bool) (i : nat) (w : writer) : outcome (option writer) :=
  match main w with
  | MCheck => Ret (Some (set_main (if is_running w then MRecv else MStop) w))
  | MRecv =>
      if negb rcv then Ret (Some (set_main MCheck w))
      else
        match inbox w with
        | [] => Ret None
        | c :: rest =>
            let w := set_inbox rest w in
            if mtype c =? SHUTDOWN then Ret (Some (set_main MStop (set_is_running false w)))
            else Ret (Some (set_main (MStore c) w))
        end
  | MStore c =>
      if ((r_count (ctrl w) =? QUEUE_SIZE) && is_running w)%bool then Ret (Some (set_main (MWaitFull c) w))
      else
        q ← ring_put QUEUE_SIZE (ctrl w) c;
        Ret (Some (set_main MCheck (set_workers (wake_worker i (workers w))
          (set_w_stored (w_stored w ++ [c]) (set_ctrl q w)))))
  | MWaitFull _ => Ret None
  | MStop => Ret (Some (set_main MJoin (set_workers (wake_all (workers w)) (set_is_running false w))))
  | MJoin =>
      Ret (if forallb (fun p => match p with WDone => true | _ => false end) (workers w)
           then Some (set_main MJoinSig w) else None)
  | MJoinSig => Ret (match sig w with SDone => Some (set_main MDone w) | _ => None end)
  | MDone => Ret None
  end.

(** One step of worker [i]. *)
Definition worker_step (i : nat) (d : draw) (lock : bool) (w : writer) : outcome (option writer) :=
  let go p := set_workers (<[i := p]> (workers w)) in
  match workers w !! i with
  | Some WLoop =>
      if ((r_count (ctrl w) =? 0) && is_running w)%bool then Ret (Some (go WWait w))
      else if (negb (is_running w) && (r_count (ctrl w) =? 0))%bool then Ret (Some (go WDone w))
      else
        '(c, q) ← ring_take QUEUE_SIZE (ctrl w);
        Ret (Some (go (WHandle c) (set_main (wake_main (main w))
          (set_w_taken (w_taken w ++ [c]) (set_ctrl q w)))))
  | Some (WHandle c) =>
      '(_, s) ← handle_command c d (shm w) 0 lock;
      Ret (Some (go WLoop (set_shm s w)))
  | _ => Ret None
  end.

(** One event; [None] if it cannot happen now. *)
Definition writer_step (ev : event) (w : writer) : outcome (option writer) :=
  match ev with
  | Main rcv i => main_step rcv i w
  | Work i d lock => worker_step i d lock w
  | Signal s =>
      Ret (match sig w with
           | SWait => Some (if terminates s then set_sig SBroadcast (set_is_running false w) else w)
           | _ => None
           end)
  | Broadcast =>
      Ret (match sig w with
           | SBroadcast => Some (set_sig SDone (set_workers (wake_all (workers w)) w))
           | _ => None
           end)
  | Arrive c => Ret (Some (set_inbox (inbox w ++ [c]) w))
  | Spurious i =>
      Ret (match workers w !! i with
           | Some WWait => Some (set_workers (<[i := WLoop]> (workers w)) w)
           | _ => None
           end)
  | SpuriousMain => Ret (match main w with MWaitFull c => Some (set_main (MStore c) w) | _ => None end)
  end.

Fixpoint writer_run (evs : list event) (w : writer) : outcome (option writer) :=
  match evs with
  | [] => Ret (Some w)
  | ev :: evs =>
      r ← writer_step ev w;
      match r with Some w => writer_run evs w | None => Ret None end
  end.

(** [main] up to its loop; [junk] is what the array of commands holds. *)
Definition writer_init (junk : list message_control) (shm : shm_data) : writer :=
  Writer (Ring junk 0 0 0) true MCheck (replicate NUMBER_WORKER WLoop) SWait [] shm [] [].

End SysV.
