(* ===== verification/SysVHub.v ===== *)
(** * The System V segment is a bounded queue

    The ring behind one semaphore keeps one slot free to tell full from empty:
    it holds [CAP_SHM - 1] records, in order, whatever the processes do.  Second
    part: which IPC objects a starting process finds, keeps and replaces. *)
From S2P Require Import Prelude Ring Fifo SysV.
Import SysV.
Open Scope c_scope.

Module SysVHub.

(** ** The ring behind the indices *)

(** The number of records between the indices. *)
Definition fill (s : shm_data) : Z := (write_index s - read_index s) mod capacity s.

Definition ring_of (s : shm_data) : ring sensor_data :=
  Ring (data s) (write_index s) (read_index s) (fill s).

Definition records (s : shm_data) : list sensor_data := ring_abs (ring_of s).

Definition seg_ok (s : shm_data) : Prop :=
  magic s = SHM_MAGIC /\ version s = SHM_VERSION /\ header_size s = SIZEOF_SHM_HEADER /\
  total_size s = SIZEOF_SHM_DATA + capacity s * SIZEOF_SENSOR_DATA /\
  capacity s = CAP_SHM /\ zlen (data s) = CAP_SHM /\
  0 <= read_index s < CAP_SHM /\ 0 <= write_index s < CAP_SHM /\ in_u 32 (dropped s).

Lemma fill_spec s : seg_ok s ->
  0 <= fill s < CAP_SHM /\ write_index s = (read_index s + fill s) mod CAP_SHM.
Proof.
  intros (_ & _ & _ & _ & Hc & _ & Hr & Hw & _). unfold fill. rewrite Hc. split.
  - apply Z.mod_pos_bound. unfold CAP_SHM. lia.
  - rewrite Zplus_mod_idemp_r. rewrite Z.mod_small; lia.
Qed.

Lemma ring_of_inv s : seg_ok s -> ring_inv CAP_SHM (ring_of s).
Proof.
  intros Hs. pose proof (fill_spec s Hs) as [Hf Hw]. destruct Hs as (_ & _ & _ & _ & _ & Hd & Hr & _).
  unfold ring_inv, ring_of. cbn. split_and!; [done|lia..|done].
Qed.

Lemma records_length s : seg_ok s -> zlen (records s) = fill s.
Proof. intros Hs. exact (ring_abs_length CAP_SHM _ (ring_of_inv s Hs)). Qed.

Lemma next_index_ok i : 0 <= i < CAP_SHM -> next_index i CAP_SHM = Ret ((i + 1) mod CAP_SHM).
Proof. intros Hi. unfold next_index. cbn [Z.eqb CAP_SHM]. by rewrite (wrap_small 32) by (unfold CAP_SHM in *; lia). Qed.

(** The fill level after one index moved. *)
Lemma fill_unique s n : seg_ok s -> 0 <= n < CAP_SHM ->
  write_index s = (read_index s + n) mod CAP_SHM -> fill s = n.
Proof.
  intros Hs Hn Hw. pose proof (fill_spec s Hs) as [Hf Hw']. rewrite Hw' in Hw.
  exact (window_index_inj CAP_SHM (read_index s) _ _ Hf Hn Hw).
Qed.

(** Full and empty, as the code tests them. *)
Lemma full_test s : seg_ok s ->
  ((write_index s + 1) mod CAP_SHM =? read_index s) = (fill s =? CAP_SHM - 1).
Proof.
  intros Hs. pose proof (fill_spec s Hs) as [Hf Hw]. destruct Hs as (_ & _ & _ & _ & _ & _ & Hr & Hwi & _).
  rewrite Hw, Zplus_mod_idemp_l. unfold CAP_SHM in *.
  destruct (Z.eqb_spec (fill s) (20 - 1)) as [->|Hne].
  - rewrite Z.eqb_eq. rewrite (Z.mod_eq (read_index s + (20 - 1) + 1) 20) by lia.
    replace ((read_index s + (20 - 1) + 1) / 20) with 1; [lia|].
    apply (Z.div_unique_pos _ _ _ (read_index s)); lia.
  - rewrite Z.eqb_neq. intros He. apply Hne.
    assert ((read_index s + (fill s + 1)) mod 20 = (read_index s + 0) mod 20) as Hm.
    { rewrite Z.add_0_r, (Z.mod_small (read_index s)) by lia. rewrite <- He. f_equal. lia. }
    destruct (decide (fill s = 19)); [lia|]. apply window_index_inj in Hm; lia.
Qed.

Lemma empty_test s : seg_ok s -> (read_index s =? write_index s) = (fill s =? 0).
Proof.
  intros Hs. pose proof (fill_spec s Hs) as [Hf Hw]. pose proof Hs as (_ & _ & _ & _ & _ & _ & Hr & _).
  destruct (Z.eqb_spec (fill s) 0) as [E|Hne].
  - rewrite Z.eqb_eq, Hw, E, Z.add_0_r. by rewrite Z.mod_small.
  - rewrite Z.eqb_neq. intros He. apply Hne. apply (fill_unique s 0 Hs); [unfold CAP_SHM; lia|].
    rewrite Z.add_0_r, Z.mod_small; [done|lia].
Qed.

(** ** The operations *)

Lemma storage_data_ok s semid d : seg_ok s -> 0 <= semid ->
  if fill s <? CAP_SHM - 1 then
    exists s', storage_data s semid true d = Ret (true, s') /\ seg_ok s' /\
      records s' = records s ++ [d] /\ dropped s' = dropped s
  else storage_data s semid true d = Ret (false, set_dropped (u32 (dropped s + 1)) s).
Proof.
  intros Hs Hid. pose proof (fill_spec s Hs) as [Hf Hw]. pose proof (full_test s Hs) as Hfull.
  pose proof (ring_of_inv s Hs) as Hi. unfold storage_data.
  pose proof Hs as (Hm & Hv & Hh & Ht & Hc & Hd & Hr & Hwi & Hdr).
  destruct (Z.ltb_spec semid 0); [lia|]. cbn [orb negb].
  rewrite Hc, next_index_ok by done. cbn [mbind outcome_bind]. rewrite Hfull.
  destruct (Z.ltb_spec (fill s) (CAP_SHM - 1)) as [Hroom|Hno].
  2: { destruct (Z.eqb_spec (fill s) (CAP_SHM - 1)); [done|lia]. }
  destruct (Z.eqb_spec (fill s) (CAP_SHM - 1)); [lia|]. cbn [negb].
  destruct (ring_put_spec CAP_SHM _ d Hi ltac:(cbn; lia)) as (r & Hp & Hi' & Ha' & Hcnt & Htl).
  unfold ring_put in Hp. peel Hp as a E. cbn [r_data r_head ring_of] in E. rewrite E.
  cbn [mbind outcome_bind]. eexists. split; [reflexivity|].
  injection Hp as <-. cbn [ring_of r_data r_head r_tail r_count] in *.
  set (s' := set_write_index _ _). assert (seg_ok s') as Hs'.
  { unfold seg_ok, s'. cbn. pose proof (Z.mod_pos_bound (write_index s + 1) CAP_SHM).
    destruct Hi' as (Hd' & _). split_and!; try done; unfold CAP_SHM in *; lia. }
  split; [done|]. split; [|done].
  unfold records, ring_of. rewrite (fill_unique s' (fill s + 1) Hs'); [exact Ha'|lia|].
  unfold s'. cbn. by destruct Hi' as (_ & _ & _ & ?).
Qed.

Lemma get_data_ok s semid : seg_ok s -> 0 <= semid ->
  match records s with
  | [] => get_data s semid true = Ret (None, s)
  | d :: l => exists s', get_data s semid true = Ret (Some d, s') /\ seg_ok s' /\ records s' = l /\
                dropped s' = dropped s
  end.
Proof.
  intros Hs Hid. pose proof (ring_of_inv s Hs) as Hi. pose proof (records_length s Hs) as Hlen.
  pose proof (empty_test s Hs) as He. unfold get_data.
  pose proof Hs as (Hm & Hv & Hh & Ht & Hc & Hd & Hr & Hwi & Hdr).
  destruct (Z.ltb_spec semid 0); [lia|]. cbn [orb negb]. rewrite He.
  destruct (records s) as [|d l] eqn:Ha.
  { rewrite zlen_nil in Hlen. rewrite <- Hlen. done. }
  rewrite zlen_cons in Hlen. pose proof (zlen_nonneg l). destruct (Z.eqb_spec (fill s) 0); [lia|].
  destruct (ring_advance_spec CAP_SHM _ d l Hi Ha) as (Hg & Hi' & Ha').
  cbn [r_data r_tail ring_of] in Hg. cbn [negb]. rewrite Hg. cbn [mbind outcome_bind].
  rewrite Hc, next_index_ok by done. cbn [mbind outcome_bind]. eexists. split; [reflexivity|].
  set (s' := set_read_index _ _). assert (seg_ok s') as Hs'.
  { unfold seg_ok, s'. cbn. pose proof (Z.mod_pos_bound (read_index s + 1) CAP_SHM).
    split_and!; try done; unfold CAP_SHM in *; lia. }
  split; [done|]. split; [|done].
  pose proof (fill_spec s Hs) as [Hf _].
  unfold records, ring_of. rewrite (fill_unique s' (fill s - 1) Hs'); [exact Ha'|lia|].
  unfold s'. cbn. by destruct Hi' as (_ & _ & _ & ?).
Qed.

(** With the lock, either operation keeps the segment well-formed. *)
Lemma skipped s semid lock d : (0 <= semid -> lock = false) ->
  storage_data s semid lock d = Ret (false, s) /\ get_data s semid lock = Ret (None, s).
Proof.
  intros H. unfold storage_data, get_data. destruct (Z.ltb_spec semid 0); [done|].
  by rewrite (H ltac:(lia)).
Qed.

(** Initialising again changes nothing. *)
Lemma init_again s semid lock unlock cap r s' :
  seg_ok s -> init_shmem semid lock unlock s cap = Ret (r, s') -> s' = s.
Proof.
  intros (Hm & _). unfold init_shmem, init_section. rewrite Hm, Z.eqb_refl. cbn [negb mbind outcome_bind].
  destruct (_ && negb lock)%bool; by intros [= _ <-].
Qed.

Lemma init_fresh semid unlock r s :
  init_shmem semid true unlock fresh_shm CAP_SHM = Ret (r, s) -> seg_ok s /\ records s = [] /\ dropped s = 0.
Proof.
  unfold init_shmem. rewrite andb_false_r. intros H. peel H as s1 E. injection H as _ <-.
  vm_compute in E. injection E as <-. split; [|done]. unfold seg_ok. cbn. split_and!; done.
Qed.

(** ** The processes *)

Definition hub_ok (h : hub) : Prop :=
  seg_ok (h_shm h) /\ h_stored h = h_fetched h ++ records (h_shm h).

Lemma hub_command_ok s ctrl w semid lock e s' sd fd :
  hub_ok (Hub s sd fd) -> handle_command ctrl w s semid lock = Ret (e, s') ->
  hub_ok (log_effect e (Hub s' sd fd)).
Proof.
  intros [Hs Hl]. cbn in Hs, Hl. unfold handle_command.
  assert ((0 <= semid /\ lock = true) \/ (0 <= semid -> lock = false)) as Hlk
    by (destruct lock; [destruct (decide (0 <= semid)); [by left|right; lia]|by right]).
  destruct (_ =? 1); [|destruct (_ =? 2)]; intros H; [| |by injection H as <- <-].
  - destruct Hlk as [[Hid ->]|Hlk].
    2: { rewrite (proj2 (skipped s semid lock zero_sensor Hlk)) in H. by injection H as <- <-. }
    pose proof (get_data_ok s semid Hs Hid) as Hg. destruct (records s) as [|d l] eqn:Ha.
    + rewrite Hg in H. injection H as <- <-. split; cbn; [done|by rewrite Ha].
    + destruct Hg as (s1 & Hg & Hs1 & Ha1 & _). rewrite Hg in H. injection H as <- <-.
      split; cbn; [done|]. by rewrite Ha1, Hl, <- app_assoc.
  - destruct Hlk as [[Hid ->]|Hlk].
    2: { rewrite (proj1 (skipped s semid lock _ Hlk)) in H. by injection H as <- <-. }
    pose proof (storage_data_ok s semid (random_update_sensor 101 w) Hs Hid) as Hp.
    destruct (fill s <? CAP_SHM - 1).
    + destruct Hp as (s1 & Hp & Hs1 & Ha1 & _). rewrite Hp in H. injection H as <- <-.
      split; cbn; [done|]. by rewrite Ha1, Hl, <- app_assoc.
    + rewrite Hp in H. injection H as <- <-. split; [|done].
      destruct Hs as (? & ? & ? & ? & ? & ? & ? & ? & ?). pose proof (wrap_range 32 (dropped s + 1)).
      unfold seg_ok, in_u, u32 in *. cbn -[Z.pow]. split_and!; (done || lia).
Qed.

Lemma reachable_ok h : hub_reachable h -> hub_ok h.
Proof.
  intros (h0 & (semid & unlock & r & s & Hi & ->) & Hrun).
  assert (hub_ok (Hub s [] [])) as Hok.
  { destruct (init_fresh _ _ _ _ Hi) as (Hs & Hr & _). split; [done|]. cbn. by rewrite Hr. }
  revert Hok. clear Hi. induction Hrun as [|h0 h1 h2 Hstep _ IH]; [done|]. intros Hok. apply IH.
  destruct Hstep as [s1 sd fd id1 lk un r1 s2 H|s1 sd fd c w id1 lk e s2 H].
  - destruct Hok as [Hs Hl]. cbn in Hs, Hl. by rewrite (init_again _ _ _ _ _ _ _ Hs H).
  - by apply (hub_command_ok s1 c w id1 lk).
Qed.

(** C31: Whatever commands the processes of the sensor hub handle and however
    often they initialise the segment, the records stored are the records
    fetched, in order, followed by those still in the ring; the ring never holds
    more than [CAP_SHM - 1] of them, a store under the lock succeeds exactly
    when it holds fewer, and a fetch under the lock returns the oldest. *)
Theorem segment_is_bounded_queue h : hub_reachable h ->
  seg_ok (h_shm h) /\ h_stored h = h_fetched h ++ records (h_shm h) /\
  zlen (records (h_shm h)) <= CAP_SHM - 1 /\
  forall semid d, 0 <= semid ->
    (exists s, storage_data (h_shm h) semid true d = Ret (zlen (records (h_shm h)) <? CAP_SHM - 1, s)) /\
    (exists s, get_data (h_shm h) semid true = Ret (head (records (h_shm h)), s)).
Proof.
  intros Hr. destruct (reachable_ok h Hr) as [Hs Hl]. pose proof (fill_spec _ Hs) as [Hf _].
  split_and!; [done|done|rewrite records_length by done; lia|]. intros semid d Hid. split.
  - pose proof (storage_data_ok _ semid d Hs Hid) as Hp. rewrite records_length by done.
    destruct (fill (h_shm h) <? CAP_SHM - 1); [destruct Hp as (s & -> & _); eauto|eauto].
  - pose proof (get_data_ok _ semid Hs Hid) as Hg. destruct (records (h_shm h)) as [|d0 l]; [eauto|].
    destruct Hg as (s & -> & _). eauto.
Qed.

(** One command stored a record in a new segment. *)
Definition one_stored : hub :=
  match init_shmem 0 true true fresh_shm CAP_SHM with
  | Ret (_, s) =>
      match handle_command (MessageControl STORAGE_DATA (Message 7 [])) (Draw 9 5 1 2 3) s 0 true with
      | Ret (e, s) => log_effect e (Hub s [] [])
      | Undef => Hub fresh_shm [] []
      end
  | Undef => Hub fresh_shm [] []
  end.

Lemma one_stored_reachable : hub_reachable one_stored.
Proof.
  unfold one_stored. destruct (init_shmem 0 true true fresh_shm CAP_SHM) as [[r s]|] eqn:Ei; [|by vm_compute in Ei].
  destruct (handle_command _ _ s 0 true) as [[e s']|] eqn:Ec.
  - eexists. split; [exists 0, true, r, s; eauto|]. apply rtc_once. by eapply hub_command.
  - exfalso. vm_compute in Ei. injection Ei as _ <-. by vm_compute in Ec.
Qed.

Lemma segment_is_bounded_queue_witness :
  hub_reachable one_stored /\ zlen (records (h_shm one_stored)) = 1 /\
  zlen (records (h_shm one_stored)) <= CAP_SHM - 1.
Proof.
  split; [exact one_stored_reachable|]. split; [vm_compute; reflexivity|].
  exact (proj1 (proj2 (proj2 (segment_is_bounded_queue one_stored one_stored_reachable)))).
Defined.

(** ** The FIFO interface *)

#[export] Instance segment_fifo : Fifo shm_data sensor_data := {|
  fifo_inv := seg_ok;
  fifo_abs := records;
  fifo_cap := fun _ => Some (CAP_SHM - 1);
  fifo_ready := fun _ _ => True;
  fifo_env := fun s s' => exists semid lock unlock r, init_shmem semid lock unlock s CAP_SHM = Ret (r, s');
  fifo_push := fun s d => '(ok, s) ← storage_data s 0 true d; Ret (if ok : bool then Some s else None);
  fifo_pop := fun s => '(r, s) ← get_data s 0 true; Ret (match r with Some d => Some (d, s) | None => None end) |}.

#[export] Instance segment_fifo_laws : FifoLaws shm_data sensor_data.
Proof.
  split; unfold fifo_room; cbn [fifo_inv fifo_abs fifo_cap fifo_ready fifo_env fifo_push fifo_pop segment_fifo].
  - intros s d Hs _ Hroom. rewrite records_length in Hroom by done.
    pose proof (storage_data_ok s 0 d Hs ltac:(lia)) as Hp. destruct (Z.ltb_spec (fill s) (CAP_SHM - 1)); [|lia].
    destruct Hp as (s' & -> & Hs' & Ha & _). eexists. split; [reflexivity|]. done.
  - intros s d Hs Hfull. rewrite records_length in Hfull by done.
    pose proof (storage_data_ok s 0 d Hs ltac:(lia)) as Hp. destruct (Z.ltb_spec (fill s) (CAP_SHM - 1)); [lia|].
    by rewrite Hp.
  - intros s Hs Ha. pose proof (get_data_ok s 0 Hs ltac:(lia)) as Hg. rewrite Ha in Hg. by rewrite Hg.
  - intros s d l Hs Ha. pose proof (get_data_ok s 0 Hs ltac:(lia)) as Hg. rewrite Ha in Hg.
    destruct Hg as (s' & -> & Hs' & Hl & _). eexists. split; [reflexivity|]. done.
  - intros s s' Hs (semid & lock & unlock & r & H). by rewrite (init_again _ _ _ _ _ _ _ Hs H).
  - intros s n Hs [= <-]. rewrite records_length by done. pose proof (fill_spec s Hs). lia.
Qed.

(** ** Starting another process *)

(** What the code takes as a sign of use. *)
Definition shm_live (e : world) (m : shmseg) : bool :=
  ((0 <? shm_nattch m) || is_pid_alive e (if 0 <? shm_lpid m then shm_lpid m else shm_cpid m))%bool.

Definition sem_live (e : world) (s : semset) : bool :=
  match sem_vals s with
  | v :: _ => ((0 <? v) || ((v =? 0) && is_pid_alive e (sempid s)))%bool
  | [] => false
  end.

(** Its creator finished the initialisation while the caller polled. *)
Definition sem_ready (e : world) : bool := existsb (fun i => negb (polls e i =? 0)) (seq 0 MAX_ENTRIES).

Lemma shm_is_stale_spec e m : shm_is_stale e m = negb (shm_live e m).
Proof.
  unfold shm_is_stale, shm_live. destruct (0 <? shm_nattch m); [done|]. cbn [orb].
  by destruct (is_pid_alive e _).
Qed.

Lemma sem_is_stale_spec e s : sem_is_stale e s = negb (sem_live e s).
Proof.
  unfold sem_is_stale, sem_live. destruct (sem_vals s) as [|v vs]; [done|].
  change (default (-1) (head (v :: vs))) with v.
  unfold is_pid_alive. destruct (Z.leb_spec (sempid s) 0), (Z.ltb_spec 0 (sempid s)); try lia;
    destruct (Z.ltb_spec v 0), (Z.ltb_spec 0 v), (Z.eqb_spec v 0); try lia; cbn [negb andb orb]; try done;
    by destruct (match kill0 e (sempid s) with None => true | Some errno => errno =? EPERM end).
Qed.

Section Start.
Context (e : world) (shm msq sem : Z).
Hypothesis keys : 0 < shm /\ msq <> 0 /\ sem <> 0.

Lemma get_msq_keeps q found : get_msq e msq PERMS found false (Some q) = Returns (q_id q, Some q, true).
Proof. unfold get_msq. destruct (Z.eqb_spec msq 0); [lia|]. done. Qed.

Lemma get_msq_creates q found force i : (force = true \/ q = None) -> new_msq e = Some i ->
  get_msq e msq PERMS found force q = Returns (i, Some (Msqueue i []), found).
Proof.
  intros H Hi. unfold get_msq. destruct (Z.eqb_spec msq 0); [lia|]. rewrite Hi.
  by destruct H as [-> | ->]; [|destruct force].
Qed.

Lemma get_shmem_keeps m found :
  shm_live e m = true -> segment_size <= seg_size m ->
  get_shmem e shm PERMS segment_size found false (Some m) =
    if 0 <? seg_id m then Returns (seg_id m, Some m, true) else Returns (-1, Some m, found).
Proof.
  intros Hl Hsz. unfold get_shmem. destruct (Z.leb_spec shm 0); [lia|]. cbn [orb].
  change ((PERMS <=? 0) || (segment_size <=? 0))%bool with false.
  unfold shmget. destruct (Z.leb_spec segment_size (seg_size m)); [|lia].
  rewrite shm_is_stale_spec, Hl. cbn [negb orb]. rewrite andb_false_r. cbn [orb].
  destruct (Z.leb_spec segment_size (seg_size m)); [done|lia].
Qed.

Lemma get_shmem_creates m found force i :
  match m with
  | None => True
  | Some old => 0 <= seg_id old /\ segment_size <= seg_size old /\ (force = true \/ shm_live e old = false)
  end ->
  new_shm e = Some i ->
  get_shmem e shm PERMS segment_size found force m =
    Returns (i, Some (Shmseg i segment_size 0 0 (self e) fresh_shm), found).
Proof.
  intros Hm Hi. unfold get_shmem. destruct (Z.leb_spec shm 0); [lia|]. cbn [orb].
  change ((PERMS <=? 0) || (segment_size <=? 0))%bool with false. rewrite Hi.
  destruct m as [old|]; [|done]. destruct Hm as (Hid & Hsz & Hf). unfold shmget.
  destruct (Z.leb_spec segment_size (seg_size old)); [|lia]. destruct (Z.leb_spec 0 (seg_id old)); [|lia].
  rewrite shm_is_stale_spec. destruct Hf as [-> | ->]; [done|]. cbn [negb]. by rewrite orb_true_r.
Qed.

Lemma get_sem_keeps s : sem_live e s = true -> sem_ready e = true ->
  get_sem e sem PERMS 1 None false (Some s) = Returns (sem_id s, Some s).
Proof.
  intros Hl Hr. unfold get_sem. destruct (Z.eqb_spec sem 0); [lia|]. cbn [orb].
  rewrite sem_is_stale_spec, Hl. cbn [negb]. unfold sem_ready in Hr. by rewrite Hr.
Qed.

Lemma get_sem_creates s force i :
  match s with None => True | Some old => force = true \/ sem_live e old = false end ->
  new_sem e = Some i ->
  get_sem e sem PERMS 1 None force s = Returns (i, Some (Semset i [1] (self e) (now e))).
Proof.
  intros Hs Hi. unfold get_sem. destruct (Z.eqb_spec sem 0); [lia|]. cbn [orb]. rewrite Hi.
  destruct s as [old|]; [|done]. rewrite sem_is_stale_spec.
  destruct Hs as [-> | ->]; [done|]. cbn [negb]. by rewrite orb_true_r.
Qed.

End Start.

(** The objects behind the keys serve a process that is alive. *)
Definition in_use (e : world) (k : kernel) : Prop :=
  match k with
  | Kernel (Some q) (Some m) (Some s) =>
      0 <= q_id q /\ 0 < seg_id m /\ 0 <= sem_id s /\ segment_size <= seg_size m /\
      shm_live e m = true /\ sem_live e s = true /\ sem_ready e = true
  | _ => False
  end.

(** The objects that stay behind when every process is gone. *)
Definition left_over (e : world) (k : kernel) : Prop :=
  match k_shm k with
  | Some m => 0 <= seg_id m /\ segment_size <= seg_size m /\ shm_live e m = false
  | None => True
  end /\
  match k_sem k with Some s => sem_live e s = false | None => True end.

(** A process that starts without [--reset] joins the message queue, the
    segment and the semaphore of the processes already running, and removes
    none of them.  If they are all gone it creates a zeroed segment and a
    semaphore with value 1, and a message queue unless one was left, whose
    commands it keeps. *)
Theorem start_joins_or_recreates e shm msq sem k :
  0 < shm -> msq <> 0 -> sem <> 0 ->
  (in_use e k -> exists ids, get_id_all e shm msq sem false k = Returns (0, ids, k)) /\
  (forall i j l, left_over e k -> new_msq e = Some i -> new_shm e = Some j -> new_sem e = Some l ->
     0 <= i -> 0 <= j -> 0 <= l -> (forall q, k_msq k = Some q -> 0 <= q_id q) ->
     exists ids, get_id_all e shm msq sem false k =
       Returns (0, ids, Kernel (Some (default (Msqueue i []) (k_msq k)))
         (Some (Shmseg j segment_size 0 0 (self e) fresh_shm)) (Some (Semset l [1] (self e) (now e))))).
Proof.
  intros Hk1 Hk2 Hk3. assert (0 < shm /\ msq <> 0 /\ sem <> 0) as Hk by done. split.
  - destruct k as [[q|] [m|] [s|]]; try done. intros (Hq & Hm & Hs & Hsz & Hml & Hsl & Hr).
    eexists. unfold get_id_all. cbn [k_msq k_shm k_sem]. rewrite (get_msq_keeps e shm msq sem Hk).
    rewrite andb_false_r. rewrite (get_shmem_keeps e shm msq sem Hk) by done.
    destruct (Z.ltb_spec 0 (seg_id m)); [|lia]. rewrite andb_false_r.
    rewrite (get_sem_keeps e shm msq sem Hk) by done. destruct (Z.ltb_spec (sem_id s) 0); [lia|]. done.
  - intros i j l [Hm Hs] Ei Ej El Hi Hj Hl Hq. unfold get_id_all.
    assert (exists id found, get_msq e msq PERMS false false (k_msq k) =
      Returns (id, Some (default (Msqueue i []) (k_msq k)), found) /\ 0 <= id) as (id & found & -> & Hid).
    { destruct (k_msq k) as [q|].
      - exists (q_id q), true. split; [by rewrite (get_msq_keeps e shm msq sem Hk)|by apply Hq].
      - exists i, false. split; [|done]. by rewrite (get_msq_creates e shm msq sem Hk _ _ _ i) by auto. }
    destruct (Z.ltb_spec id 0); [lia|]. cbn [andb].
    rewrite (get_shmem_creates e shm msq sem Hk _ found false j); [|destruct (k_shm k); [destruct Hm as (? & ? & ?); auto|done]|done].
    destruct (Z.ltb_spec j 0); [lia|]. cbn [andb].
    rewrite (get_sem_creates e shm msq sem Hk _ false l); [|by destruct (k_sem k); auto|done].
    destruct (Z.ltb_spec l 0); [lia|]. eauto.
Qed.

(** A segment in use whose identifier is 0, the first the kernel hands out, is
    not found: the start goes on with the identifier -1. *)
Lemma segment_zero_not_joined e shm msq sem q m s :
  0 < shm -> msq <> 0 -> sem <> 0 -> 0 <= q_id q -> seg_id m = 0 -> 0 <= sem_id s ->
  segment_size <= seg_size m -> shm_live e m = true -> sem_live e s = true -> sem_ready e = true ->
  get_id_all e shm msq sem false (Kernel (Some q) (Some m) (Some s)) =
    Returns (0, (q_id q, -1, sem_id s), Kernel (Some q) (Some m) (Some s)).
Proof.
  intros Hk1 Hk2 Hk3 Hq Hm Hs Hsz Hml Hsl Hr. assert (0 < shm /\ msq <> 0 /\ sem <> 0) as Hk by done.
  unfold get_id_all. cbn [k_msq k_shm k_sem]. rewrite (get_msq_keeps e shm msq sem Hk).
  rewrite andb_false_r. rewrite (get_shmem_keeps e shm msq sem Hk) by done. rewrite Hm, Z.ltb_irrefl.
  rewrite andb_false_r.
  rewrite (get_sem_keeps e shm msq sem Hk) by done. destruct (Z.ltb_spec (sem_id s) 0); [lia|]. done.
Qed.

(** A running process 42 holds the semaphore; nothing of process 41 is left. *)
Definition example_world : world :=
  World (fun pid => if pid =? 42 then None else Some 3) (Some 1) (Some 2) (Some 3) (fun _ => 5) 50 6.

Lemma start_joins_or_recreates_witness :
  (exists ids, get_id_all example_world 9 9 9 false
     (Kernel (Some (Msqueue 4 [])) (Some (Shmseg 5 6000 1 42 42 fresh_shm)) (Some (Semset 6 [0] 42 3))) =
     Returns (0, ids, Kernel (Some (Msqueue 4 [])) (Some (Shmseg 5 6000 1 42 42 fresh_shm)) (Some (Semset 6 [0] 42 3)))) /\
  (exists ids, get_id_all example_world 9 9 9 false
     (Kernel None (Some (Shmseg 5 6000 0 41 41 fresh_shm)) (Some (Semset 6 [0] 41 3))) =
     Returns (0, ids, Kernel (Some (Msqueue 1 []))
       (Some (Shmseg 2 segment_size 0 0 50 fresh_shm)) (Some (Semset 3 [1] 50 6)))).
Proof.
  split.
  - apply (start_joins_or_recreates example_world 9 9 9); [done..|].
    cbn. unfold segment_size, SIZEOF_SHM_DATA, CAP_SHM, SIZEOF_SENSOR_DATA. split_and!; (done || lia).
  - apply (proj2 (start_joins_or_recreates example_world 9 9 9
      (Kernel None (Some (Shmseg 5 6000 0 41 41 fresh_shm)) (Some (Semset 6 [0] 41 3)))
      ltac:(lia) ltac:(lia) ltac:(lia)) 1 2 3); done.
Defined.

End SysVHub.
