(* ===== verification/SysVWriter.v ===== *)
(** * The writer process of the sensor hub

    The main thread hands commands to four workers through a ring of
    [QUEUE_SIZE] entries, a mutex and two condition variables.  For every
    schedule: the process stays inside its arrays, commands are handled once and
    in order unless a signal interferes, and no backlog is left to sleeping
    workers; then what a signal and a SHUTDOWN command do at the end. *)
From S2P Require Import Prelude Ring SysV SysVHub.
Import SysV SysVHub.
Open Scope c_scope.

Module SysVWriter.

Definition awake (p : worker_pc) : bool := match p with WLoop | WHandle _ => true | _ => false end.
Definition is_done (p : worker_pc) : bool := match p with WDone => true | _ => false end.
Definition waits_full (m : main_pc) : bool := match m with MWaitFull _ => true | _ => false end.
Definition joined (m : main_pc) : bool := match m with MJoinSig | MDone => true | _ => false end.

(** ** What holds for every schedule *)

Definition indices_ok (q : ring message_control) : Prop :=
  zlen (r_data q) = QUEUE_SIZE /\ 0 <= r_head q < QUEUE_SIZE /\ 0 <= r_tail q < QUEUE_SIZE /\ 0 <= r_count q.

Record writer_ok (w : writer) : Prop := {
  ok_workers : length (workers w) = NUMBER_WORKER;
  ok_indices : indices_ok (ctrl w);
  ok_segment : seg_ok (shm w);
  ok_full : waits_full (main w) = true -> r_count (ctrl w) = QUEUE_SIZE;
  ok_done : existsb is_done (workers w) = true -> is_running w = false;
  ok_awake : is_running w = true \/ waits_full (main w) = true -> 0 < r_count (ctrl w) ->
    existsb awake (workers w) = true;
  ok_joined : joined (main w) = true -> forallb is_done (workers w) = true;
  ok_sig : main w = MDone -> sig w = SDone }.

Lemma put_indices q c : indices_ok q ->
  exists q', ring_put QUEUE_SIZE q c = Ret q' /\ indices_ok q' /\ r_count q' = r_count q + 1.
Proof.
  intros (Hd & Hh & Ht & Hc). unfold ring_put. rewrite set_at_inside by lia. cbn [mbind outcome_bind].
  eexists. split; [reflexivity|]. unfold indices_ok. cbn [r_data r_head r_tail r_count].
  rewrite zlen_insert. pose proof (Z.mod_pos_bound (r_head q + 1) QUEUE_SIZE).
  unfold QUEUE_SIZE in *. split_and!; (done || lia).
Qed.

Lemma take_indices q : indices_ok q -> 0 < r_count q ->
  exists c q', ring_take QUEUE_SIZE q = Ret (c, q') /\ indices_ok q' /\ r_count q' = r_count q - 1.
Proof.
  intros (Hd & Hh & Ht & Hc) Hpos. unfold ring_take.
  destruct (get_at_inside (r_data q) (r_tail q)) as (c & -> & _); [lia|]. cbn [mbind outcome_bind].
  exists c. eexists. split; [reflexivity|]. unfold indices_ok, ring_advance. cbn [r_data r_head r_tail r_count].
  pose proof (Z.mod_pos_bound (r_tail q + 1) QUEUE_SIZE). unfold QUEUE_SIZE in *. split_and!; (done || lia).
Qed.

Lemma handle_command_ok c d s semid lock : seg_ok s ->
  exists e s', handle_command c d s semid lock = Ret (e, s') /\ seg_ok s'.
Proof.
  intros Hs. assert (exists e s', handle_command c d s semid lock = Ret (e, s')) as (e & s' & E).
  { unfold handle_command.
    assert ((0 <= semid /\ lock = true) \/ (0 <= semid -> lock = false)) as Hlk
      by (destruct lock; [destruct (decide (0 <= semid)); [by left|right; lia]|by right]).
    destruct (_ =? 1); [|destruct (_ =? 2); [|eauto]].
    - destruct Hlk as [[Hid ->]|Hlk]; [|rewrite (proj2 (skipped s semid lock zero_sensor Hlk)); eauto].
      pose proof (get_data_ok s semid Hs Hid) as Hg. destruct (records s); [rewrite Hg; eauto|].
      destruct Hg as (s1 & -> & _). eauto.
    - destruct Hlk as [[Hid ->]|Hlk]; [|rewrite (proj1 (skipped s semid lock _ Hlk)); eauto].
      pose proof (storage_data_ok s semid (random_update_sensor 101 d) Hs Hid) as Hp.
      destruct (fill s <? CAP_SHM - 1); [destruct Hp as (s1 & -> & _)|rewrite Hp]; eauto. }
  exists e, s'. split; [done|].
  assert (hub_ok (Hub s (records s) [])) as Hh by (by split).
  pose proof (hub_command_ok s c d semid lock e s' _ _ Hh E) as [Hs' _]. by destruct e.
Qed.

(** *** Waking workers *)

Lemma wake_one_done ws : existsb is_done (wake_one ws) = existsb is_done ws.
Proof. induction ws as [|[] ws IH]; cbn; try done. Qed.

Lemma wake_all_done ws : existsb is_done (wake_all ws) = existsb is_done ws.
Proof. induction ws as [|[] ws IH]; cbn; try done. Qed.

Lemma wake_one_awake ws : ws <> [] -> existsb is_done ws = false -> existsb awake (wake_one ws) = true.
Proof.
  induction ws as [|p ws IH]; [done|]. intros _. by destruct p.
Qed.

Lemma wake_all_awake ws : existsb awake ws = true -> existsb awake (wake_all ws) = true.
Proof. induction ws as [|[] ws IH]; cbn; try done. Qed.

Lemma wake_worker_done i ws : existsb is_done (wake_worker i ws) = existsb is_done ws.
Proof.
  unfold wake_worker. destruct (ws !! i) as [[]|] eqn:E; try apply wake_one_done.
  apply eq_bool_prop_intro. rewrite !Is_true_true. split; [by apply existsb_old|by apply existsb_insert with WWait].
Qed.

Lemma wake_worker_awake i ws : ws <> [] -> existsb is_done ws = false -> existsb awake (wake_worker i ws) = true.
Proof.
  intros Hne Hd. unfold wake_worker. destruct (ws !! i) as [[]|] eqn:E; try by apply wake_one_awake.
  by apply (existsb_new awake ws i WWait).
Qed.

Lemma wake_worker_length i ws : length (wake_worker i ws) = length ws.
Proof.
  unfold wake_worker. assert (length (wake_one ws) = length ws) as H
    by (induction ws as [|[] ws IH]; cbn; congruence).
  destruct (ws !! i) as [[]|]; try done. by rewrite length_insert.
Qed.

Lemma all_not_awake ws : forallb is_done ws = true -> existsb awake ws = false.
Proof. by induction ws as [|[] ws IH]. Qed.

(** *** Every step *)

Lemma main_ok rcv i w : writer_ok w ->
  exists r, main_step rcv i w = Ret r /\ forall w', r = Some w' -> writer_ok w'.
Proof.
  intros [Hn Hi Hs Hf Hd Ha Hj Hg]. unfold main_step. destruct (main w) as [| |c|c| | | |] eqn:Em;
    cbn [waits_full joined] in *.
  - eexists. split; [reflexivity|]. intros w' [= <-]. split; cbn; try done; destruct (is_running w); cbn; (done || naive_solver).
  - destruct rcv; cbn [negb].
    2: { eexists. split; [reflexivity|]. intros w' [= <-]. split; cbn; (done || naive_solver). }
    destruct (inbox w) as [|c rest]; [eexists; split; [reflexivity|done]|].
    destruct (mtype c =? SHUTDOWN); eexists; (split; [reflexivity|]); intros w' [= <-];
      split; cbn; (done || naive_solver).
  - destruct (Z.eqb_spec (r_count (ctrl w)) QUEUE_SIZE) as [Hc|Hc], (is_running w) eqn:Er; cbn [andb].
    { eexists. split; [reflexivity|]. intros w' [= <-]. split; cbn; try done; naive_solver. }
    all: destruct (put_indices (ctrl w) c Hi) as (q & -> & Hi' & Hc'); cbn [mbind outcome_bind];
      eexists; (split; [reflexivity|]); intros w' [= <-]; split; cbn; rewrite ?wake_worker_done, ?Er;
      try done; try (by rewrite wake_worker_length); try (intros [|]; done).
    intros _ _. apply wake_worker_awake; [by intros E; rewrite E in Hn|].
    apply not_true_is_false. intros H. by apply Hd in H.
  - eexists. split; [reflexivity|]. done.
  - eexists. split; [reflexivity|]. intros w' [= <-]. split; cbn; try done.
    + unfold wake_all. by rewrite length_fmap.
    + intros [|]; done.
  - destruct (forallb _ (workers w)) eqn:Ef; eexists; (split; [reflexivity|]); [|done].
    intros w' [= <-]. split; cbn; (done || naive_solver).
  - destruct (sig w) eqn:Es; eexists; (split; [reflexivity|]); try done.
    intros w' [= <-]. split; cbn; (done || naive_solver).
  - eexists. split; [reflexivity|]. done.
Qed.

Lemma worker_ok i d lock w : writer_ok w ->
  exists r, worker_step i d lock w = Ret r /\ forall w', r = Some w' -> writer_ok w'.
Proof.
  intros [Hn Hi Hs Hf Hd Ha Hj Hg]. unfold worker_step.
  destruct (workers w !! i) as [p|] eqn:Ep; [|eexists; split; [reflexivity|done]].
  assert (is_done p = false -> joined (main w) = false) as Hnj.
  { intros Hp. apply not_true_is_false. intros H. apply Hj in H.
    by rewrite (forallb_not _ _ _ _ Ep Hp) in H. }
  assert (0 <= r_count (ctrl w)) as Hpos by apply Hi.
  destruct p as [| |c|].
  - specialize (Hnj eq_refl). destruct (Z.eqb_spec (r_count (ctrl w)) 0) as [Hc|Hc]; cbn [andb].
    + destruct (is_running w) eqn:Er; cbn [negb andb]; eexists; (split; [reflexivity|]); intros w' [= <-].
      * split; cbn; rewrite ?length_insert, ?Hnj; try done; rewrite ?Er; [|lia].
        intros H. by apply existsb_old in H; [apply Hd in H|].
      * split; cbn; rewrite ?length_insert, ?Hnj; try done. lia.
    + rewrite andb_false_r. destruct (take_indices (ctrl w) Hi ltac:(lia)) as (c & q & -> & Hi' & Hc').
      cbn [mbind outcome_bind]. eexists. split; [reflexivity|]. intros w' [= <-].
      split; cbn; rewrite ?length_insert; try done.
      * by destruct (main w).
      * intros H. by apply existsb_old in H; [apply Hd in H|].
      * intros _ _. by apply (existsb_new awake (workers w) i WLoop).
      * by destruct (main w).
      * by destruct (main w).
  - eexists. split; [reflexivity|]. done.
  - specialize (Hnj eq_refl). destruct (handle_command_ok c d (shm w) 0 lock Hs) as (e & s' & -> & Hs').
    cbn [mbind outcome_bind]. eexists. split; [reflexivity|]. intros w' [= <-].
    split; cbn; rewrite ?length_insert, ?Hnj; try done.
    + intros H. by apply existsb_old in H; [apply Hd in H|].
    + intros _ _. by apply (existsb_new awake (workers w) i (WHandle c)).
  - eexists. split; [reflexivity|]. done.
Qed.

Lemma step_ok ev w : writer_ok w ->
  exists r, writer_step ev w = Ret r /\ forall w', r = Some w' -> writer_ok w'.
Proof.
  intros Hw. destruct ev as [rcv i|i d lock|g| |c|i|]; cbn [writer_step]; [by apply main_ok|by apply worker_ok|..];
    eexists; (split; [reflexivity|]); destruct Hw as [Hn Hi Hs Hf Hd Ha Hj Hg].
  - destruct (sig w) eqn:Es; try done. intros w' [= <-].
    destruct (terminates g); split; cbn; try done; naive_solver.
  - destruct (sig w) eqn:Es; try done. intros w' [= <-]. split; cbn; try done.
    + unfold wake_all. by rewrite length_fmap.
    + by rewrite wake_all_done.
    + intros H1 H2. by apply wake_all_awake, Ha.
    + intros H. apply Hj in H. clear -H. induction (workers w) as [|[] ws IH]; cbn in *; try done. by apply IH.
  - intros w' [= <-]. by split.
  - destruct (workers w !! i) as [[]|] eqn:Ep; try done. intros w' [= <-]. split; cbn; try done.
    + by rewrite length_insert.
    + intros H. by apply existsb_old in H; [apply Hd in H|].
    + intros _ _. by apply (existsb_new awake (workers w) i WWait).
    + intros H. apply Hj in H. by rewrite (forallb_not _ _ _ _ Ep) in H.
  - destruct (main w) eqn:Em; try done. intros w' [= <-]. split; cbn; try done. naive_solver.
Qed.

Lemma run_ok evs w : writer_ok w ->
  exists r, writer_run evs w = Ret r /\ forall w', r = Some w' -> writer_ok w'.
Proof.
  revert w. induction evs as [|ev evs IH]; intros w Hw; cbn [writer_run].
  - eexists. split; [reflexivity|]. by intros w' [= <-].
  - destruct (step_ok ev w Hw) as (r & -> & Hr). cbn [mbind outcome_bind].
    destruct r as [w1|]; [by apply IH, Hr|]. by eexists.
Qed.

Lemma init_ok junk s : zlen junk = QUEUE_SIZE -> seg_ok s -> writer_ok (writer_init junk s).
Proof. intros Hl Hs. split; cbn; try done. Qed.

(** Under every schedule of the threads, every sequence of commands and
    signals and every spurious wakeup, the writer process stays inside its
    arrays; a backlog is never left to sleeping workers while the process runs,
    and when the main thread waits for room the ring is full and a worker is
    awake to make some. *)
Theorem writer_never_stuck junk s evs : zlen junk = QUEUE_SIZE -> seg_ok s ->
  exists r, writer_run evs (writer_init junk s) = Ret r /\
    forall w, r = Some w ->
      (is_running w = true -> 0 < r_count (ctrl w) -> exists i, option_map awake (workers w !! i) = Some true) /\
      (forall c, main w = MWaitFull c ->
         r_count (ctrl w) = QUEUE_SIZE /\ exists i, option_map awake (workers w !! i) = Some true) /\
      (forall i d lock, option_map awake (workers w !! i) = Some true ->
         exists w', worker_step i d lock w = Ret (Some w')).
Proof.
  intros Hl Hs. destruct (run_ok evs _ (init_ok junk s Hl Hs)) as (r & Hr & Hok). exists r. split; [done|].
  intros w Hw. pose proof (Hok w Hw) as Hwok. pose proof Hwok as [Hn Hi Hsg Hf Hd Ha Hj Hg].
  assert (existsb awake (workers w) = true -> exists i, option_map awake (workers w !! i) = Some true) as Hex.
  { rewrite existsb_exists. intros (p & Hin & Hp). apply list_elem_of_In, list_elem_of_lookup in Hin as [i E].
    exists i. by rewrite E, <- Hp. }
  split_and!.
  - intros Hrun Hc. apply Hex, Ha; [by left|done].
  - intros c Hm. rewrite Hm in Hf, Ha. specialize (Hf eq_refl). split; [done|].
    apply Hex, Ha; [by right|]. rewrite Hf. unfold QUEUE_SIZE. lia.
  - intros i d lock Hp. destruct (worker_ok i d lock w Hwok) as ([w'|] & E & _); [eauto|].
    exfalso. unfold worker_step in E. destruct (workers w !! i) as [[| |c|]|]; try done.
    + destruct (_ && _)%bool; [done|]. destruct (_ && _)%bool; [done|]. by peel E as x E1; destruct x.
    + by peel E as x E1; destruct x.
Qed.

(** ** Without a signal *)

Definition quiet (ev : event) : bool := match ev with Signal g => negb (terminates g) | _ => true end.

Definition arrivals (evs : list event) : list message_control :=
  omap (fun ev => match ev with Arrive c => Some c | _ => None end) evs.

(** The command the main thread has in hand; the SHUTDOWN it stopped at. *)
Definition in_hand (m : main_pc) (l : list message_control) : Prop :=
  match m with
  | MCheck | MRecv => l = []
  | MStore c | MWaitFull c => l = [c]
  | _ => exists c, mtype c = SHUTDOWN /\ l = [c]
  end.

(** Workers have returned only from an empty ring. *)
Record quiet_ok (w : writer) (seen : list message_control) : Prop := {
  qo_ok : writer_ok w;
  qo_ring : ring_inv QUEUE_SIZE (ctrl w);
  qo_order : w_stored w = w_taken w ++ ring_abs (ctrl w);
  qo_seen : exists l, in_hand (main w) l /\ seen = w_stored w ++ l ++ inbox w;
  qo_sig : sig w = SWait;
  qo_running : match main w with
               | MCheck | MRecv | MStore _ | MWaitFull _ => is_running w = true
               | _ => is_running w = false
               end;
  qo_empty : existsb is_done (workers w) = true -> r_count (ctrl w) = 0 }.

Lemma quiet_main rcv i w w' seen : quiet_ok w seen -> main_step rcv i w = Ret (Some w') -> quiet_ok w' seen.
Proof.
  intros [Hok Hi Ho (l & Hl & Hseen) Hsg Hrun He] H.
  assert (writer_ok w') as Hok'.
  { destruct (main_ok rcv i w Hok) as (r & E & Hr). rewrite E in H. injection H as ->. by apply Hr. }
  unfold main_step in H. destruct (main w) as [| |c|c| | | |] eqn:Em; cbn [in_hand] in Hl.
  - injection H as <-. rewrite Hrun in *. split; cbn; try done. eauto.
  - destruct rcv; cbn [negb] in H; [|injection H as <-; split; cbn; eauto].
    destruct (inbox w) as [|c rest] eqn:Ei; [done|]. subst l.
    destruct (Z.eqb_spec (mtype c) SHUTDOWN); injection H as <-; split; cbn; try done; exists [c]; eauto.
  - rewrite Hrun, andb_true_r in H. destruct (Z.eqb_spec (r_count (ctrl w)) QUEUE_SIZE) as [Hc|Hc].
    { injection H as <-. split; cbn; try done. eauto. }
    destruct (ring_put_spec QUEUE_SIZE (ctrl w) c Hi) as (q & E & Hi' & Ha' & _).
    { destruct Hi as (_ & _ & ? & _). lia. }
    rewrite E in H. cbn [mbind outcome_bind] in H. injection H as <-. split; cbn; try done.
    + by rewrite Ha', Ho, app_assoc.
    + exists []. split; [done|]. subst l. by rewrite Hseen, <- app_assoc.
    + rewrite wake_worker_done. intros Hd. apply (ok_done _ Hok) in Hd. congruence.
  - done.
  - injection H as <-. split; cbn; try done; [by eauto|]. by rewrite wake_all_done.
  - destruct (forallb _ (workers w)); [|done]. injection H as <-. split; cbn; eauto.
  - by rewrite Hsg in H.
  - done.
Qed.

Lemma quiet_worker i d lock w w' seen :
  quiet_ok w seen -> worker_step i d lock w = Ret (Some w') -> quiet_ok w' seen.
Proof.
  intros [Hok Hi Ho (l & Hl & Hseen) Hsg Hrun He] H.
  assert (writer_ok w') as Hok'.
  { destruct (worker_ok i d lock w Hok) as (r & E & Hr). rewrite E in H. injection H as ->. by apply Hr. }
  unfold worker_step in H. destruct (workers w !! i) as [[| |c|]|] eqn:Ep; try done.
  - destruct (Z.eqb_spec (r_count (ctrl w)) 0) as [Hc|Hc]; cbn [andb] in H.
    + destruct (is_running w) eqn:Er; cbn [negb andb] in H; injection H as <-; split; cbn; rewrite ?Er; eauto.
    + rewrite andb_false_r in H.
      destruct (ring_nonempty QUEUE_SIZE (ctrl w) Hi) as (c & q & Hq); [destruct Hi as (_ & _ & ? & _); lia|].
      destruct (ring_take_spec QUEUE_SIZE (ctrl w) c q Hi Hq) as (E & Hi' & Ha').
      rewrite E in H. cbn [mbind outcome_bind] in H. injection H as <-. split; cbn; try done.
      * by rewrite Ha', Ho, Hq, <- app_assoc.
      * exists l. split; [|done]. by destruct (main w).
      * by destruct (main w).
      * intros Hd. apply existsb_old in Hd; [|done]. by apply He in Hd.
  - peel H as r E. destruct r as [e s]. injection H as <-. split; cbn; eauto.
    intros Hd. apply existsb_old in Hd; [|done]. by apply He in Hd.
Qed.

Lemma quiet_step ev w w' seen :
  quiet_ok w seen -> quiet ev = true -> writer_step ev w = Ret (Some w') ->
  quiet_ok w' (seen ++ arrivals [ev]).
Proof.
  intros Hq Hev H. assert (writer_ok w') as Hok'.
  { destruct (step_ok ev w (qo_ok _ _ Hq)) as (r & E & Hr). rewrite E in H. injection H as ->. by apply Hr. }
  destruct ev as [rcv i|i d lock|g| |c|i|]; cbn [writer_step quiet arrivals omap list_omap] in *.
  - rewrite app_nil_r. by apply (quiet_main rcv i w).
  - rewrite app_nil_r. by apply (quiet_worker i d lock w).
  - rewrite app_nil_r. rewrite (qo_sig _ _ Hq) in H. destruct (terminates g); [done|]. by injection H as <-.
  - by rewrite (qo_sig _ _ Hq) in H.
  - injection H as <-. destruct Hq as [Hok Hi Ho (l & Hl & Hseen) Hsg Hrun He]. split; cbn; try done.
    exists l. split; [done|]. by rewrite Hseen, <- !app_assoc.
  - rewrite app_nil_r. destruct (workers w !! i) as [[]|] eqn:Ep; try done. injection H as <-.
    destruct Hq as [Hok Hi Ho Hseen Hsg Hrun He]. split; cbn; try done.
    intros Hd. apply existsb_old in Hd; [|done]. by apply He in Hd.
  - rewrite app_nil_r. destruct (main w) eqn:Em; try done. injection H as <-.
    destruct Hq as [Hok Hi Ho Hseen Hsg Hrun He]. rewrite Em in *. split; cbn; try done.
Qed.

Lemma quiet_run evs w w' seen :
  quiet_ok w seen -> forallb quiet evs = true -> writer_run evs w = Ret (Some w') ->
  quiet_ok w' (seen ++ arrivals evs).
Proof.
  revert w seen. induction evs as [|ev evs IH]; intros w seen Hq Hev H; cbn [writer_run forallb] in *.
  - injection H as <-. by rewrite app_nil_r.
  - apply andb_true_iff in Hev as [Hev Hevs]. peel H as r E. destruct r as [w1|]; [|done].
    pose proof (IH w1 _ (quiet_step ev w w1 seen Hq Hev E) Hevs H) as Hfin.
    replace (seen ++ arrivals (ev :: evs)) with ((seen ++ arrivals [ev]) ++ arrivals evs); [done|].
    rewrite <- app_assoc. f_equal. by destruct ev.
Qed.

Lemma quiet_init junk s : zlen junk = QUEUE_SIZE -> seg_ok s -> quiet_ok (writer_init junk s) [].
Proof.
  intros Hl Hs. split; try done; (by apply init_ok) || (by exists []).
Qed.

(** C19: As long as no SIGTERM or SIGINT is delivered, the commands that arrived
    are, in order and each once: those taken by workers, those in the ring, the
    one the main thread has in hand, those still in the kernel's queue.  After
    a SHUTDOWN command, once the workers are joined, every command before it
    has been taken. *)
Theorem commands_exactly_once junk s evs w :
  zlen junk = QUEUE_SIZE -> seg_ok s -> forallb quiet evs = true ->
  writer_run evs (writer_init junk s) = Ret (Some w) ->
  (exists hand, in_hand (main w) hand /\
     arrivals evs = w_taken w ++ ring_abs (ctrl w) ++ hand ++ inbox w) /\
  r_count (ctrl w) <= QUEUE_SIZE /\
  (main w = MJoinSig -> exists c, mtype c = SHUTDOWN /\ arrivals evs = w_taken w ++ [c] ++ inbox w).
Proof.
  intros Hl Hs Hev H. destruct (quiet_run evs _ w [] (quiet_init junk s Hl Hs) Hev H)
    as [Hok Hi Ho (l & Hh & Hseen) Hsg Hrun He]. rewrite app_nil_l in Hseen. split_and!.
  - exists l. split; [done|]. by rewrite Hseen, Ho, <- app_assoc.
  - destruct Hi as (_ & _ & ? & _). lia.
  - intros Hm. rewrite Hm in Hh. destruct Hh as (c & Hc & ->). exists c. split; [done|].
    assert (ring_abs (ctrl w) = []) as Ha.
    { apply nil_length_inv. pose proof (ring_abs_length QUEUE_SIZE _ Hi) as Hla.
      rewrite He in Hla; [unfold zlen in Hla; lia|].
      pose proof (ok_joined _ Hok) as Hj. rewrite Hm in Hj. specialize (Hj eq_refl).
      pose proof (ok_workers _ Hok) as Hn. by destruct (workers w) as [|[] ws]. }
    by rewrite Hseen, Ho, Ha, app_nil_r.
Qed.

(** ** Concrete runs *)

Definition segment : shm_data :=
  match init_shmem 0 true true fresh_shm CAP_SHM with Ret (_, s) => s | Undef => fresh_shm end.

Lemma segment_ok : seg_ok segment.
Proof.
  unfold segment. destruct (init_shmem 0 true true fresh_shm CAP_SHM) as [[r s]|] eqn:E; [|by vm_compute in E].
  by destruct (init_fresh _ _ _ _ E).
Qed.

Definition command (t n : Z) : message_control := MessageControl t (Message n []).

Definition started : writer := writer_init (replicate 64 (command 0 0)) segment.

Definition a_draw : draw := Draw 9 5 1 2 3.

(** The main thread receives and stores one command. *)
Definition hand_over (c : message_control) : list event := [Arrive c; Main true 0; Main true 0; Main true 0].

Definition work (i : nat) : event := Work i a_draw true.

(** A worker waits, a record is stored on command, SHUTDOWN stops the pool. *)
Definition stop_by_command : list event :=
  [work 0] ++ hand_over (command STORAGE_DATA 1) ++ [work 0; work 0] ++
  [Arrive (command SHUTDOWN 2); Main true 0; Main true 0; Main true 0; work 0; work 1; work 2; work 3; Main true 0].

Definition stopped : writer :=
  match writer_run stop_by_command started with Ret (Some w) => w | _ => started end.

Lemma stopped_run : writer_run stop_by_command started = Ret (Some stopped).
Proof. vm_compute. reflexivity. Qed.

Lemma writer_never_stuck_witness :
  exists r, writer_run stop_by_command started = Ret r /\ exists w, r = Some w /\ main w = MJoinSig.
Proof.
  destruct (writer_never_stuck (replicate 64 (command 0 0)) segment stop_by_command eq_refl segment_ok)
    as (r & H & _).
  exists r. split; [exact H|]. exists stopped. split; [|vm_compute; reflexivity].
  pose proof stopped_run as E. unfold started in E. rewrite H in E. by injection E.
Defined.

Lemma commands_exactly_once_witness :
  exists c, mtype c = SHUTDOWN /\ arrivals stop_by_command = w_taken stopped ++ [c] ++ inbox stopped.
Proof.
  assert (main stopped = MJoinSig) as Hm by (vm_compute; reflexivity).
  exact (proj2 (proj2 (commands_exactly_once (replicate 64 (command 0 0)) segment stop_by_command stopped
    eq_refl segment_ok eq_refl stopped_run)) Hm).
Defined.

(** A SHUTDOWN command alone does not end the writer process: the workers
    return and are joined, but the main thread then joins the signal thread,
    which only returns on SIGTERM or SIGINT; without one the process never
    finishes. *)
Theorem shutdown_command_hangs :
  (exists w, writer_run stop_by_command started = Ret (Some w) /\ main w = MJoinSig /\
     forallb quiet stop_by_command = true) /\
  forall evs w, forallb quiet evs = true -> writer_run evs started = Ret (Some w) -> main w <> MDone.
Proof.
  split.
  - exists stopped. split_and!; [exact stopped_run|vm_compute; reflexivity..].
  - intros evs w Hev H Hm.
    pose proof (quiet_run evs _ w [] (quiet_init (replicate 64 (command 0 0)) _ eq_refl segment_ok) Hev H) as Hq.
    pose proof (ok_sig _ (qo_ok _ _ Hq) Hm) as E. rewrite (qo_sig _ _ Hq) in E. discriminate.
Qed.

(** Sixty-four commands fill the ring, SIGTERM is delivered while the main
    thread waits in [msgrcv], one more command arrives, a worker empties the
    ring. *)
Definition numbered : list message_control := (fun n => command GET_STATUS (Z.of_nat n)) <$> seq 0 65.

Definition overrun : list event :=
  mjoin (hand_over <$> take 64 numbered) ++
  [Main true 0; Signal SIGTERM; Arrive (command GET_STATUS 64); Main true 0; Main true 0] ++
  replicate 130 (work 0).

Definition overrun_end : writer :=
  match writer_run overrun started with Ret (Some w) => w | _ => started end.

(** When SIGTERM is delivered while the ring is full, the next command is
    stored all the same, over the oldest one: that command is never handled and
    the new one is handled twice. *)
Theorem full_ring_overrun :
  exists w, writer_run overrun started = Ret (Some w) /\ w_stored w = numbered /\ arrivals overrun = numbered /\
    w_taken w = [command GET_STATUS 64] ++ drop 1 numbered /\ command GET_STATUS 0 ∉ w_taken w.
Proof.
  exists overrun_end. split_and!; [vm_compute; reflexivity..|]. rewrite list_elem_of_In.
  intros Hin. vm_compute in Hin. repeat (destruct Hin as [Hin|Hin]; [discriminate Hin|]). done.
Qed.

(** A signal does not wake the main thread: it stays in [msgrcv] until a command
    arrives or the queue is removed. *)
Lemma signal_leaves_main_blocked evs w w' :
  main w = MRecv -> inbox w = [] ->
  forallb (fun ev => match ev with Arrive _ | Main false _ => false | _ => true end) evs = true ->
  writer_run evs w = Ret (Some w') -> main w' = MRecv.
Proof.
  revert w. induction evs as [|ev evs IH]; intros w Hm Hb Hev H; cbn [writer_run forallb] in *.
  { by injection H as <-. }
  apply andb_true_iff in Hev as [Hev Hevs]. peel H as r E. destruct r as [w1|]; [|done].
  enough (main w1 = MRecv /\ inbox w1 = []) as [? ?] by (by apply (IH w1)).
  destruct ev as [rcv i|i d lock|g| |c|i|]; cbn [writer_step] in E; try done.
  - destruct rcv; [|done]. unfold main_step in E. rewrite Hm, Hb in E. done.
  - unfold worker_step in E. destruct (workers w !! i) as [[| |c|]|]; try done.
    + destruct (_ && _)%bool; [by injection E as <-|]. destruct (_ && _)%bool; [by injection E as <-|].
      peel E as x E1. destruct x. injection E as <-. cbn. by rewrite Hm.
    + peel E as x E1. destruct x. by injection E as <-.
  - destruct (sig w); try done. injection E as <-. by destruct (terminates g).
  - destruct (sig w); try done. by injection E as <-.
  - destruct (workers w !! i) as [[]|]; try done. by injection E as <-.
  - by rewrite Hm in E.
Qed.

End SysVWriter.
