(* ===== verification/SysVStart.v ===== *)
(** * Starting and stopping the sensor hub

    The rest of [system-V-ipc-sensorhub/common/common.c] and the [main] functions of the
    hub controller, the sensor writer and the monitor: the keys, attaching and detaching
    the segment, the semaphore and the queue behind the wrappers, and removing the three
    objects. *)
From S2P Require Import Prelude Ring SysV SysVHub.
Import Ring SysV SysVHub.
Open Scope c_scope.

Module SysVStart.

Definition PATH_SYS_V : list Z := bstr "/tmp".
Definition QUEUE : Z := 81.
Definition SHMEM : Z := 77.
Definition SEM : Z := 83.

(** ** Keys *)

Record stat := Stat { st_dev : Z; st_ino : Z }.

(** glibc's [ftok]; the argument is the answer of [stat]. *)
Definition ftok (st : option stat) (proj_id : Z) : Z :=
  match st with
  | Some s => i32 ((st_ino s .& 0xffff) .| ((st_dev s .& 0xff) ≪ 16) .| ((proj_id .& 0xff) ≪ 24))
  | None => -1
  end.

Definition create_key (st : list Z -> option stat) (path : option (list Z)) (id : Z) : Z :=
  match path with
  | Some path => if id =? 0 then -1 else ftok (st path) id
  | None => -1
  end.

(** The result and the keys of the segment, the queue and the semaphore. *)
Definition create_key_all (st : list Z -> option stat) : Z * (Z * Z * Z) :=
  let shm := create_key st (Some PATH_SYS_V) SHMEM in
  if shm <? 0 then (-1, (shm, 0, 0))
  else
    let msq := create_key st (Some PATH_SYS_V) QUEUE in
    if msq <? 0 then (-1, (shm, msq, 0))
    else
      let sem := create_key st (Some PATH_SYS_V) SEM in
      (if sem <? 0 then -1 else 0, (shm, msq, sem)).

(** ** The segment *)

Definition set_nattch (n : Z) (pid : Z) (m : shmseg) : shmseg :=
  Shmseg (seg_id m) (seg_size m) n pid (shm_cpid m) (seg_body m).
Definition set_body (b : shm_data) (m : shmseg) : shmseg :=
  Shmseg (seg_id m) (seg_size m) (shm_nattch m) (shm_lpid m) (shm_cpid m) b.
Definition set_k_shm (v : option shmseg) (k : kernel) : kernel := Kernel (k_msq k) v (k_sem k).
Definition set_k_sem (v : option semset) (k : kernel) : kernel := Kernel (k_msq k) (k_shm k) v.
Definition set_k_msq (v : option msqueue) (k : kernel) : kernel := Kernel v (k_shm k) (k_sem k).

(** The segment behind an identifier. *)
Definition segment (shmid : Z) (k : kernel) : option shmseg :=
  match k_shm k with
  | Some m => if ((0 <=? shmid) && (seg_id m =? shmid))%bool then Some m else None
  | None => None
  end.

(** [allowed]: [shmat] does not fail for another reason. *)
Definition attach_share_mem (e : world) (allowed : bool) (shmid : Z) (k : kernel) : Z * kernel :=
  match segment shmid k with
  | Some m => if allowed then (0, set_k_shm (Some (set_nattch (shm_nattch m + 1) (self e) m)) k) else (-1, k)
  | None => (-1, k)
  end.

(** Of a segment that was attached; one that is removed already goes with its last user. *)
Definition detach_share_mem (e : world) (shmid : Z) (k : kernel) : Z * kernel :=
  match segment shmid k with
  | Some m => (0, set_k_shm (Some (set_nattch (shm_nattch m - 1) (self e) m)) k)
  | None => (0, k)
  end.

(** ** The semaphore *)

Record sembuf := Sembuf { sem_num : nat; sem_op : Z }.

Definition semop (e : world) (semid : Z) (b : sembuf) (k : kernel) : ended (Z * kernel) :=
  match k_sem k with
  | Some s =>
      if sem_id s =? semid then
        match sem_vals s !! sem_num b with
        | Some v =>
            if v + sem_op b <? 0 then Blocks
            else Returns (0, set_k_sem (Some (Semset (sem_id s) (<[sem_num b := v + sem_op b]> (sem_vals s)) (self e) (now e))) k)
        | None => Returns (-1, k)
        end
      else Returns (-1, k)
  | None => Returns (-1, k)
  end.

Definition sem_lock (e : world) (semid : Z) (buf : option sembuf) (k : kernel) : ended (Z * kernel) :=
  match buf with
  | Some b => match semop e semid b k with Returns (r, k) => Returns (if r =? -1 then -1 else 0, k) | Exits => Exits | Blocks => Blocks end
  | None => Returns (-1, k)
  end.

Definition sem_unlock (e : world) (semid : Z) (buf : option sembuf) (k : kernel) : ended (Z * kernel) :=
  match buf with
  | Some b => match semop e semid b k with Returns (r, k) => Returns (if r =? -1 then -1 else 0, k) | Exits => Exits | Blocks => Blocks end
  | None => Returns (-1, k)
  end.

(** The capacity, the indices and the number dropped, if they are printed. *)
Definition print_status (e : world) (shared_mem : option Z) (semid : Z) (k : kernel) :
    outcome (ended (option (Z * Z * Z * Z) * kernel)) :=
  match shared_mem with
  | Some shmid =>
      if semid <? 0 then Ret (Returns (None, k))
      else
        match sem_lock e semid (Some (Sembuf 0 (-1))) k with
        | Returns (0, k) =>
            m ← deref (segment shmid k);
            let b := seg_body m in
            let shown := (capacity b, read_index b, write_index b, dropped b) in
            Ret (match sem_unlock e semid (Some (Sembuf 0 1)) k with
                 | Returns (_, k) => Returns (Some shown, k) | Exits => Exits | Blocks => Blocks end)
        | Returns (_, k) => Ret (Returns (None, k))
        | Exits => Ret Exits
        | Blocks => Ret Blocks
        end
  | None => Ret (Returns (None, k))
  end.

(** ** The queue *)

(** [room]: the message fits into the queue; [nowait]: IPC_NOWAIT. *)
Definition send_to_queue (room nowait : bool) (msq_id : Z) (msg : message_control) (k : kernel) : ended (Z * kernel) :=
  match k_msq k with
  | Some q =>
      if negb (q_id q =? msq_id) then Returns (-1, k)
      else if room then Returns (0, set_k_msq (Some (Msqueue (q_id q) (q_msgs q ++ [msg]))) k)
      else if nowait then Returns (-1, k) else Blocks
  | None => Returns (-1, k)
  end.

(** The first message, or the first of a type; no caller asks for a negative type. *)
Fixpoint take_message (type : Z) (ms : list message_control) : option (message_control * list message_control) :=
  match ms with
  | [] => None
  | m :: ms =>
      if ((type =? 0) || (mtype m =? type))%bool then Some (m, ms)
      else match take_message type ms with Some (x, rest) => Some (x, m :: rest) | None => None end
  end.

(** The message, or nothing for the result -1. *)
Definition recv_from_queue (nowait : bool) (msq_id type_message : Z) (k : kernel) : ended (option message_control * kernel) :=
  match k_msq k with
  | Some q =>
      if negb (q_id q =? msq_id) then Returns (None, k)
      else
        match take_message type_message (q_msgs q) with
        | Some (m, rest) => Returns (Some m, set_k_msq (Some (Msqueue (q_id q) rest)) k)
        | None => if nowait then Returns (None, k) else Blocks
        end
  | None => Returns (None, k)
  end.

(** ** Removal *)

(** Each removal that fails ends the function. *)
Definition cleaning (shm_id msq_id sem_id' : Z) (k : kernel) : Z * kernel :=
  match segment shm_id k with
  | None => (-1, k)
  | Some _ =>
      let k := set_k_shm None k in
      match k_msq k with
      | Some q =>
          if negb (q_id q =? msq_id) then (-1, k)
          else
            let k := set_k_msq None k in
            match k_sem k with
            | Some s => if negb (sem_id s =? sem_id') then (-1, k) else (0, set_k_sem None k)
            | None => (-1, k)
            end
      | None => (-1, k)
      end
  end.

(** ** The programs *)

Record ids := Ids { i_msq : Z; i_shm : Z; i_sem : Z }.

(** [init_shmem] on the attached segment, with its semaphore. *)
Definition init_attached (e : world) (d : ids) (k : kernel) : outcome (ended (Z * kernel)) :=
  match sem_lock e (i_sem d) (Some (Sembuf 0 (-1))) k with
  | Exits => Ret Exits
  | Blocks => Ret Blocks
  | Returns (r, k) =>
      m ← deref (segment (i_shm d) k);
      let lock := negb (r =? -1) in
      '(_, body) ← init_shmem (i_sem d) lock true (seg_body m) CAP_SHM;
      let k := set_k_shm (Some (set_body body m)) k in
      if ((0 <=? i_sem d) && negb lock)%bool then Ret (Returns (-1, k))
      else Ret (sem_unlock e (i_sem d) (Some (Sembuf 0 1)) k)
  end.

(** [main] up to its threads or its loop.  The monitor does not set the segment up; the
    writer detaches it when that fails, the hub controller does not. *)
Inductive program := Hub | Writer (reset : bool) | Monitor.

Definition start (st : list Z -> option stat) (allowed : bool) (p : program) (e : world) (k : kernel) :
    outcome (ended (option ids * kernel)) :=
  let '(r, (shm, msq, sem)) := create_key_all st in
  if negb (r =? 0) then Ret (Returns (None, k))
  else
    match get_id_all e shm msq sem (match p with Writer reset => reset | _ => false end) k with
    | Exits => Ret Exits
    | Blocks => Ret Blocks
    | Returns (r, (msq_id, shm_id, sem_id), k) =>
        if negb (r =? 0) then Ret (Returns (None, k))
        else
          let d := Ids msq_id shm_id sem_id in
          let '(r, k) := attach_share_mem e allowed shm_id k in
          if negb (r =? 0) then Ret (Returns (None, k))
          else
            match p with
            | Monitor => Ret (Returns (Some d, k))
            | _ =>
                x ← init_attached e d k;
                Ret match x with
                    | Exits => Exits
                    | Blocks => Blocks
                    | Returns (r, k) =>
                        if negb (r =? 0) then
                          Returns (None, match p with Writer _ => (detach_share_mem e shm_id k).2 | _ => k end)
                        else Returns (Some d, k)
                    end
            end
    end.

(** The end of the writer and of the monitor, and the cleaning thread of the hub
    controller. *)
Definition leave (e : world) (d : ids) (k : kernel) : kernel := (detach_share_mem e (i_shm d) k).2.
Definition clean_up (e : world) (d : ids) (k : kernel) : Z * kernel :=
  cleaning (i_shm d) (i_msq d) (i_sem d) (leave e d k).

(** The arguments of the writer: [--reset] anywhere. *)
Definition sensor_writer_main (st : list Z -> option stat) (allowed : bool) (args : list (list Z)) (e : world) (k : kernel) :=
  start st allowed (Writer (existsb (fun a => bool_decide (a = bstr "--reset")) args)) e k.

(** The loop of the monitor: [keep_running] is cleared after so many rounds.  What it
    has fetched. *)
Fixpoint monitor_loop (e : world) (d : ids) (rounds : nat) (k : kernel) : outcome (ended (list sensor_data * kernel)) :=
  match rounds with
  | O => Ret (Returns ([], k))
  | S rounds =>
      match sem_lock e (i_sem d) (Some (Sembuf 0 (-1))) k with
      | Exits => Ret Exits
      | Blocks => Ret Blocks
      | Returns (r, k) =>
          m ← deref (segment (i_shm d) k);
          '(o, body) ← get_data (seg_body m) (i_sem d) (negb (r =? -1));
          let k := set_k_shm (Some (set_body body m)) k in
          match (if r =? -1 then Returns (-1, k) else sem_unlock e (i_sem d) (Some (Sembuf 0 1)) k) with
          | Exits => Ret Exits
          | Blocks => Ret Blocks
          | Returns (_, k) =>
              x ← monitor_loop e d rounds k;
              Ret match x with Returns (l, k) => Returns (option_list o ++ l, k) | Exits => Exits | Blocks => Blocks end
          end
      end
  end.

Definition sensor_monitor_main (st : list Z -> option stat) (allowed : bool) (rounds : nat) (e : world) (k : kernel) :
    outcome (ended (Z * list sensor_data * kernel)) :=
  x ← start st allowed Monitor e k;
  match x with
  | Exits => Ret Exits
  | Blocks => Ret Blocks
  | Returns (None, k) => Ret (Returns (-1, [], k))
  | Returns (Some d, k) =>
      x ← monitor_loop e d rounds k;
      Ret match x with
          | Returns (l, k) => Returns (0, l, leave e d k)
          | Exits => Exits
          | Blocks => Blocks
          end
  end.

(** ** Keys differ *)

Lemma land_below x n : 0 <= n -> 0 <= x .& Z.ones n < 2 ^ n.
Proof. intros Hn. rewrite Z.land_ones by done. apply Z.mod_pos_bound. lia. Qed.

Lemma ftok_range s id : 0 <= id < 128 ->
  id * 2 ^ 24 <= ftok (Some s) id < (id + 1) * 2 ^ 24.
Proof.
  intros Hid. unfold ftok. set (a := st_ino s .& 0xffff). set (b := st_dev s .& 0xff).
  assert (Ha : 0 <= a < 2 ^ 16) by apply (land_below _ 16 ltac:(lia)).
  assert (Hb : 0 <= b < 2 ^ 8) by apply (land_below _ 8 ltac:(lia)).
  replace (id .& 0xff) with id by (change 0xff with (Z.ones 8); rewrite Z.land_ones, Z.mod_small; lia).
  set (x := (a .| (b ≪ 16)) .| (id ≪ 24)).
  assert (Hx : 0 <= x) by (unfold x; rewrite !Z.lor_nonneg, !Z.shiftl_nonneg; lia).
  assert (Hs : x / 2 ^ 24 = id).
  { rewrite <- Z.shiftr_div_pow2 by lia. unfold x. rewrite !Z.shiftr_lor, (Z.shiftr_div_pow2 a), (Z.shiftr_div_pow2 (b ≪ 16)) by lia.
    rewrite Z.shiftl_mul_pow2 by lia. rewrite !Z.div_small by lia. rewrite Z.shiftr_shiftl_l by lia. by rewrite Z.shiftl_0_r. }
  assert (Hr : id * 2 ^ 24 <= x < (id + 1) * 2 ^ 24).
  { pose proof (Z.mod_pos_bound x (2 ^ 24) ltac:(lia)). pose proof (Z.div_mod x (2 ^ 24) ltac:(lia)). rewrite Hs in *. lia. }
  unfold i32. rewrite Z.mod_small by lia. destruct (Z.ltb_spec x (2 ^ 31)); lia.
Qed.

(** Whatever file system [PATH_SYS_V] is on, the three keys are positive and differ. *)
Theorem keys_differ st s : st PATH_SYS_V = Some s ->
  exists shm msq sem, create_key_all st = (0, (shm, msq, sem)) /\
    0 < shm /\ 0 < msq /\ 0 < sem /\ shm <> msq /\ msq <> sem /\ shm <> sem.
Proof.
  intros Hs. unfold create_key_all, create_key. rewrite Hs. change (SHMEM =? 0) with false. change (QUEUE =? 0) with false.
  change (SEM =? 0) with false. cbn match. unfold SHMEM, QUEUE, SEM.
  pose proof (ftok_range s 77 ltac:(lia)). pose proof (ftok_range s 81 ltac:(lia)). pose proof (ftok_range s 83 ltac:(lia)).
  destruct (Z.ltb_spec (ftok (Some s) 77) 0); [lia|]. destruct (Z.ltb_spec (ftok (Some s) 81) 0); [lia|].
  destruct (Z.ltb_spec (ftok (Some s) 83) 0); [lia|]. do 3 eexists. split; [done|]. lia.
Qed.

(** ** The programs share the objects *)

(** The segment as [init_shmem] leaves a new one. *)
Definition ready : shm_data :=
  ShmData SHM_MAGIC SHM_VERSION (SIZEOF_SHM_DATA + CAP_SHM * SIZEOF_SENSOR_DATA) SIZEOF_SHM_HEADER 0 0 CAP_SHM 0 0 0
    (replicate (Z.to_nat CAP_SHM) zero_sensor).

Lemma set_up_fresh : init_section CAP_SHM fresh_shm = Ret ready.
Proof. by vm_compute. Qed.

(** The objects [d] serve [n] programs; nobody holds the semaphore. *)
Definition running (d : ids) (msgs : list message_control) (body : shm_data) (n : Z) (k : kernel) : Prop :=
  exists q m s, k = Kernel (Some q) (Some m) (Some s) /\ q_id q = i_msq d /\ q_msgs q = msgs /\ seg_id m = i_shm d /\
    sem_id s = i_sem d /\ 0 <= i_msq d /\ 0 < i_shm d /\ 0 <= i_sem d /\ segment_size <= seg_size m /\ shm_nattch m = n /\ seg_body m = body /\
    sem_vals s = [1].

(** Attaching, and then setting up. *)
Lemma attach_running e d msgs body n k : running d msgs body n k ->
  exists k', attach_share_mem e true (i_shm d) k = (0, k') /\ running d msgs body (n + 1) k'.
Proof.
  intros (q & m & s & -> & Eq & Em & Esh & Es & Hq & Hm & Hs & Hsz & Hn & Hb & Hv). unfold attach_share_mem, segment. cbn [k_shm].
  destruct (Z.leb_spec 0 (i_shm d)); [|lia]. rewrite Esh, Z.eqb_refl. cbn [andb]. eexists. split; [done|].
  exists q, (set_nattch (shm_nattch m + 1) (self e) m), s. split_and!; try done. cbn. by rewrite Hn.
Qed.

Lemma init_running e d msgs body body' n k : running d msgs body n k -> init_section CAP_SHM body = Ret body' ->
  exists k', init_attached e d k = Ret (Returns (0, k')) /\ running d msgs body' n k'.
Proof.
  intros (q & m & s & -> & Eq & Em & Esh & Es & Hq & Hm & Hs & Hsz & Hn & Hb & Hv) Ei. unfold init_attached, sem_lock, semop. cbn [k_sem].
  rewrite Es, Z.eqb_refl, Hv. cbn [lookup list_lookup sem_num sem_op]. change (1 + -1 <? 0) with false. change (1 + -1) with 0.
  cbn match. change (0 =? -1) with false. cbn match. unfold segment. cbn [k_shm set_k_sem].
  destruct (Z.leb_spec 0 (i_shm d)); [|lia]. rewrite Esh, Z.eqb_refl. cbn [andb deref mbind outcome_bind negb].
  unfold init_shmem. rewrite Hb, Ei. destruct (Z.leb_spec 0 (i_sem d)); [|lia]. change (0 =? -1) with false. cbn [andb negb mbind outcome_bind].
  unfold sem_unlock, semop. cbn [k_sem set_k_shm set_k_sem sem_id]. rewrite Z.eqb_refl.
  cbn [sem_vals insert list_insert lookup list_lookup sem_num sem_op]. change (0 + 1 <? 0) with false. cbn match.
  eexists. split; [done|]. do 3 eexists. split; [done|]. by split_and!.
Qed.

Lemma set_up_again body : magic body = SHM_MAGIC -> init_section CAP_SHM body = Ret body.
Proof. intros H. unfold init_section. by rewrite H. Qed.

(** The objects a program finds. *)
Lemma join_ids e shm msq sem d msgs body n k :
  0 < shm -> msq <> 0 -> sem <> 0 -> running d msgs body n k -> 0 < n -> sem_ready e = true ->
  get_id_all e shm msq sem false k = Returns (0, (i_msq d, i_shm d, i_sem d), k).
Proof.
  intros Hk1 Hk2 Hk3 (q & m & s & -> & Eq & Em & Esh & Es & Hq & Hm & Hs & Hsz & Hn & Hb & Hv) Hpos Hr.
  assert (Hk : 0 < shm /\ msq <> 0 /\ sem <> 0) by done.
  assert (Hml : shm_live e m = true) by (unfold shm_live; rewrite Hn; by apply Z.ltb_lt in Hpos as ->).
  assert (Hsl : sem_live e s = true) by (unfold sem_live; by rewrite Hv).
  unfold get_id_all. cbn [k_msq k_shm k_sem]. rewrite (get_msq_keeps e shm msq sem Hk), andb_false_r.
  rewrite (get_shmem_keeps e shm msq sem Hk) by done. rewrite Esh. destruct (Z.ltb_spec 0 (i_shm d)); [|lia]. rewrite andb_false_r.
  rewrite (get_sem_keeps e shm msq sem Hk) by done. rewrite Es, Eq. destruct (Z.ltb_spec (i_sem d) 0); [lia|]. done.
Qed.

Lemma join_start st sn e p d msgs body n k :
  st PATH_SYS_V = Some sn -> running d msgs body n k -> 0 < n -> magic body = SHM_MAGIC -> sem_ready e = true -> p <> Writer true ->
  exists k', start st true p e k = Ret (Returns (Some d, k')) /\ running d msgs body (n + 1) k'.
Proof.
  intros Hst Hk Hn Hb Hr Hp. destruct (keys_differ st sn Hst) as (shm & msq & sem & Ek & H1 & H2 & H3 & _).
  unfold start. rewrite Ek. change (negb (0 =? 0)) with false. cbn match.
  assert (Hreset : match p with Writer reset => reset | _ => false end = false) by (by destruct p as [|[]|]).
  rewrite Hreset, (join_ids e shm msq sem d msgs body n k) by (done || lia). change (negb (0 =? 0)) with false. cbn match.
  destruct (attach_running e d msgs body n k Hk) as (k1 & Ea & H'). rewrite Ea. change (negb (0 =? 0)) with false. cbn match.
  destruct (init_running e d msgs body body (n + 1) k1 H' (set_up_again body Hb)) as (k2 & Ei & H'').
  destruct d as [dm ds de]. cbn [i_msq i_shm i_sem] in *.
  destruct p as [|reset|]; [rewrite Ei|rewrite Ei|by exists k1]; cbn [mbind outcome_bind]; change (negb (0 =? 0)) with false; by exists k2.
Qed.

(** Nothing is left of earlier programs but, perhaps, a queue with commands. *)
Definition vacant (e : world) (k : kernel) : Prop :=
  left_over e k /\ (forall q, k_msq k = Some q -> 0 <= q_id q) /\
  (exists i, new_msq e = Some i /\ 0 <= i) /\ (exists j, new_shm e = Some j /\ 0 < j) /\ (exists l, new_sem e = Some l /\ 0 <= l).

Definition waiting (k : kernel) : list message_control := match k_msq k with Some q => q_msgs q | None => [] end.

Lemma create_ids e shm msq sem k : 0 < shm -> msq <> 0 -> sem <> 0 -> vacant e k ->
  exists d k', get_id_all e shm msq sem false k = Returns (0, (i_msq d, i_shm d, i_sem d), k') /\ running d (waiting k) fresh_shm 0 k'.
Proof.
  intros Hk1 Hk2 Hk3 ([Hm Hs] & Hq & (i & Ei & Hi) & (j & Ej & Hj) & (l & El & Hl)).
  assert (Hk : 0 < shm /\ msq <> 0 /\ sem <> 0) by done. unfold get_id_all.
  assert (exists q found, get_msq e msq PERMS false false (k_msq k) = Returns (q_id q, Some q, found) /\ 0 <= q_id q /\ q_msgs q = waiting k)
    as (q & found & -> & Hid & Hw).
  { unfold waiting. destruct (k_msq k) as [q|].
    - exists q, true. split; [by rewrite (get_msq_keeps e shm msq sem Hk)|]. split; [by apply Hq|done].
    - exists (Msqueue i []), false. split; [|done]. by rewrite (get_msq_creates e shm msq sem Hk _ _ _ i) by auto. }
  destruct (Z.ltb_spec (q_id q) 0); [lia|]. cbn [andb].
  rewrite (get_shmem_creates e shm msq sem Hk _ found false j); [|destruct (k_shm k); [destruct Hm as (? & ? & ?); auto|done]|done].
  destruct (Z.ltb_spec j 0); [lia|]. cbn [andb].
  rewrite (get_sem_creates e shm msq sem Hk _ false l); [|by destruct (k_sem k); auto|done].
  destruct (Z.ltb_spec l 0); [lia|]. exists (Ids (q_id q) j l). eexists. split; [done|].
  do 3 eexists. split; [done|]. cbn. split_and!; (done || lia).
Qed.

(** The first program creates and sets up. *)
Lemma first_start st sn e p k :
  st PATH_SYS_V = Some sn -> vacant e k -> p = Hub \/ p = Writer false ->
  exists d k', start st true p e k = Ret (Returns (Some d, k')) /\ running d (waiting k) ready 1 k'.
Proof.
  intros Hst Hv Hp. destruct (keys_differ st sn Hst) as (shm & msq & sem & Ek & H1 & H2 & H3 & _).
  unfold start. rewrite Ek. change (negb (0 =? 0)) with false. cbn match.
  destruct (create_ids e shm msq sem k) as (d & k1 & Eg & Hk1); [lia|lia|lia|done|].
  assert (Hreset : match p with Writer reset => reset | _ => false end = false) by (by destruct Hp as [-> | ->]).
  rewrite Hreset, Eg. change (negb (0 =? 0)) with false. cbn match.
  destruct (attach_running e d _ _ 0 k1 Hk1) as (k2 & -> & Hk2). change (negb (0 =? 0)) with false. cbn match.
  destruct (init_running e d _ _ ready _ k2 Hk2 set_up_fresh) as (k3 & Ei & Hk3). destruct d as [dm ds de]. cbn [i_msq i_shm i_sem] in *.
  exists (Ids dm ds de), k3. split; [|done].
  destruct Hp as [-> | ->]; rewrite Ei; cbn [mbind outcome_bind]; by change (negb (0 =? 0)) with false.
Qed.

Lemma leave_running e d msgs body n k : running d msgs body n k -> running d msgs body (n - 1) (leave e d k).
Proof.
  intros (q & m & s & -> & Eq & Em & Esh & Es & Hq & Hm & Hs & Hsz & Hn & Hb & Hv). unfold leave, detach_share_mem, segment. cbn [k_shm].
  destruct (Z.leb_spec 0 (i_shm d)); [|lia]. rewrite Esh, Z.eqb_refl. cbn [andb snd].
  exists q, (set_nattch (shm_nattch m - 1) (self e) m), s. split_and!; try done. cbn. by rewrite Hn.
Qed.

Lemma clean_running e d msgs body n k : running d msgs body n k -> clean_up e d k = (0, Kernel None None None).
Proof.
  intros H%(leave_running e). unfold clean_up. destruct H as (q & m & s & -> & Eq & _ & Esh & Es & _ & Hm & _).
  unfold cleaning, segment. cbn [k_shm k_msq k_sem set_k_shm set_k_msq set_k_sem].
  destruct (Z.leb_spec 0 (i_shm d)); [|lia]. by rewrite Esh, Z.eqb_refl, Eq, Z.eqb_refl, Es, Z.eqb_refl.
Qed.


(** One round of the monitor's loop takes the oldest record. *)
Lemma monitor_round e d msgs body n k o body' :
  running d msgs body n k -> get_data body (i_sem d) true = Ret (o, body') ->
  exists k', running d msgs body' n k' /\ forall rounds,
    monitor_loop e d (S rounds) k = x ← monitor_loop e d rounds k';
      Ret match x with Returns (l, k) => Returns (option_list o ++ l, k) | Exits => Exits | Blocks => Blocks end.
Proof.
  intros (q & m & s & -> & Eq & Em & Esh & Es & Hq & Hm & Hs & Hsz & Hn & Hb & Hv) Eg.
  eexists. split; [|intros rounds; cbn [monitor_loop]; unfold sem_lock, semop; cbn [k_sem]; rewrite Es, Z.eqb_refl, Hv;
    cbn [lookup list_lookup sem_num sem_op]; change (1 + -1 <? 0) with false; change (1 + -1) with 0; cbn match;
    change (0 =? -1) with false; cbn match; unfold segment; cbn [k_shm set_k_sem];
    destruct (Z.leb_spec 0 (i_shm d)); [|lia]; rewrite Esh, Z.eqb_refl; cbn [andb deref mbind outcome_bind]; change (0 =? -1) with false; cbn [negb]; rewrite Hb, Eg;
    cbn [mbind outcome_bind]; unfold sem_unlock, semop; cbn [k_sem set_k_shm set_k_sem sem_id]; rewrite Z.eqb_refl;
    cbn [sem_vals insert list_insert lookup list_lookup sem_num sem_op]; change (0 + 1 <? 0) with false; cbn match; reflexivity].
  do 3 eexists. split; [done|]. by split_and!.
Qed.

Lemma monitor_loop_takes e d msgs body n rounds k :
  running d msgs body n k -> seg_ok body -> 0 <= i_sem d ->
  exists body' k', monitor_loop e d rounds k = Ret (Returns (take rounds (records body), k')) /\
    running d msgs body' n k' /\ seg_ok body' /\ records body' = drop rounds (records body).
Proof.
  revert body k. induction rounds as [|rounds IH]; intros body k Hk Hs Hd.
  { exists body, k. rewrite take_0, drop_0. done. }
  pose proof (get_data_ok body (i_sem d) Hs Hd) as Hg. destruct (records body) as [|r l] eqn:Er.
  - destruct (monitor_round e d msgs body n k None body Hk Hg) as (k1 & H1 & E).
    destruct (IH body k1 H1 Hs Hd) as (b' & k' & E' & H'). rewrite Er in *. exists b', k'. rewrite E, E'. by rewrite take_nil, drop_nil in *.
  - destruct Hg as (b1 & Hg & Hs1 & Hr1 & _). destruct (monitor_round e d msgs body n k (Some r) b1 Hk Hg) as (k1 & H1 & E).
    destruct (IH b1 k1 H1 Hs1 Hd) as (b' & k' & E' & H'). rewrite Hr1 in *. exists b', k'. by rewrite E, E'.
Qed.

(** The monitor takes the oldest records, one in each round, joins and leaves: the
    ring has the others, and the segment as many users as before. *)
Theorem monitor_takes_oldest st sn e rounds d msgs body n k :
  st PATH_SYS_V = Some sn -> running d msgs body n k -> 0 < n -> seg_ok body -> sem_ready e = true ->
  exists body' k', sensor_monitor_main st true rounds e k = Ret (Returns (0, take rounds (records body), k')) /\
    running d msgs body' n k' /\ records body' = drop rounds (records body).
Proof.
  intros Hst Hk Hn Hs Hr. assert (Hmagic : magic body = SHM_MAGIC) by apply Hs.
  destruct (join_start st sn e Monitor d msgs body n k) as (k1 & E1 & H1); try done.
  assert (Hd : 0 <= i_sem d) by (by destruct Hk as (q & m & s & _ & _ & _ & _ & _ & _ & _ & ? & _)).
  destruct (monitor_loop_takes e d msgs body (n + 1) rounds k1 H1 Hs Hd) as (b' & k2 & E2 & H2 & _ & Hr2).
  exists b', (leave e d k2). unfold sensor_monitor_main. rewrite E1. cbn [mbind outcome_bind]. rewrite E2. split; [done|].
  split; [|done]. replace n with (n + 1 - 1) by lia. by apply leave_running.
Qed.

(** A command sent to the queue comes out, behind those that were there. *)
Theorem sent_is_received nowait k k' d msgs body n m :
  running d msgs body n k -> send_to_queue true nowait (i_msq d) m k = Returns (0, k') ->
  running d (msgs ++ [m]) body n k' /\
  forall x rest, msgs ++ [m] = x :: rest ->
    exists k'', recv_from_queue nowait (i_msq d) 0 k' = Returns (Some x, k'') /\ running d rest body n k''.
Proof.
  intros (q & g & s & -> & Eq & Em & Esh & Es & Hq & Hm & Hs & Hsz & Hn & Hb & Hv). unfold send_to_queue. cbn [k_msq].
  rewrite Eq, Z.eqb_refl. cbn [negb]. intros [= <-]. split.
  - do 3 eexists. split; [done|]. cbn. by rewrite Em.
  - intros x rest E. unfold recv_from_queue. cbn [k_msq set_k_msq q_id q_msgs]. rewrite Z.eqb_refl, Em, E. cbn.
    eexists. split; [done|]. do 3 eexists. split; [done|]. by split_and!.
Qed.

(** The clean-up stops at the first removal that fails: without the segment the queue
    and the semaphore stay. *)
Theorem cleaning_stops e d q s :
  clean_up e d (Kernel (Some q) None (Some s)) = (-1, Kernel (Some q) None (Some s)).
Proof. done. Qed.

End SysVStart.
