(* ===== verification/Cli.v ===== *)
(** * The control plane client

    [gatewaycli/client.h] and [gatewaycli/client.c]: two rings of messages
    between the threads, the staged reader, and one iteration of each thread.  A
    section under a mutex is one step; the socket answers from a script. *)
From S2P Require Import Prelude Socket Ring Fifo Framing Gatewayd DaemonIo.
Import Framing.
Open Scope c_scope.

Module Cli.

Definition CLIENT_QUEUE : Z := 32.

(** [head] of a queue is its write index, [tail] its read index. *)
Record client_state := ClientState {
  shutdown : bool; num_packet_sent : Z; num_packet_recv : Z;
  sent_queue : ring message_control; recv_queue : ring message_control; stage : Gatewayd.read_stage_t;
  message_in : message_control; bytes_read : Z }.
Definition set_shutdown (v : bool) (x : client_state) : client_state :=
  ClientState v (num_packet_sent x) (num_packet_recv x) (sent_queue x) (recv_queue x) (stage
    x) (message_in x) (bytes_read x).
Definition set_num_packet_sent (v : Z) (x : client_state) : client_state :=
  ClientState (shutdown x) v (num_packet_recv x) (sent_queue x) (recv_queue x) (stage x)
    (message_in x) (bytes_read x).
Definition set_num_packet_recv (v : Z) (x : client_state) : client_state :=
  ClientState (shutdown x) (num_packet_sent x) v (sent_queue x) (recv_queue x) (stage x)
    (message_in x) (bytes_read x).
Definition set_sent_queue (v : ring message_control) (x : client_state) : client_state :=
  ClientState (shutdown x) (num_packet_sent x) (num_packet_recv x) v (recv_queue x) (stage
    x) (message_in x) (bytes_read x).
Definition set_recv_queue (v : ring message_control) (x : client_state) : client_state :=
  ClientState (shutdown x) (num_packet_sent x) (num_packet_recv x) (sent_queue x) v (stage
    x) (message_in x) (bytes_read x).
Definition set_stage (v : Gatewayd.read_stage_t) (x : client_state) : client_state :=
  ClientState (shutdown x) (num_packet_sent x) (num_packet_recv x) (sent_queue x)
    (recv_queue x) v (message_in x) (bytes_read x).
Definition set_message_in (v : message_control) (x : client_state) : client_state :=
  ClientState (shutdown x) (num_packet_sent x) (num_packet_recv x) (sent_queue x)
    (recv_queue x) (stage x) v (bytes_read x).
Definition set_bytes_read (v : Z) (x : client_state) : client_state :=
  ClientState (shutdown x) (num_packet_sent x) (num_packet_recv x) (sent_queue x)
    (recv_queue x) (stage x) (message_in x) v.

(** ** The queues *)

(** Which of the two arrays the argument [queue] points to. *)
Inductive which := SentQueue | RecvQueue.

Definition queue_of (c : client_state) (q : which) : ring message_control :=
  match q with SentQueue => sent_queue c | RecvQueue => recv_queue c end.

Definition set_queue_of (q : which) (r : ring message_control) (c : client_state) : client_state :=
  match q with SentQueue => set_sent_queue r c | RecvQueue => set_recv_queue r c end.

Definition enqueue_message (mes : message_control) (q : which) (c : client_state) :
    outcome (Z * client_state) :=
  if r_count (queue_of c q) =? CLIENT_QUEUE then Ret (1, c)
  else r ← ring_put CLIENT_QUEUE (queue_of c q) mes; Ret (0, set_queue_of q r c).

Definition dequeue_message (q : which) (c : client_state) :
    outcome (Z * option message_control * client_state) :=
  if r_count (queue_of c q) =? 0 then Ret (1, None, c)
  else
    '(mes, r) ← ring_take CLIENT_QUEUE (queue_of c q);
    Ret (0, Some mes, set_queue_of q r c).

(** ** Reading *)

Fixpoint read_stage (script : list rx_event) (eof : bool) (stream : list Z) (c : client_state) :
    outcome (Z * client_state * list Z) :=
  if shutdown c then Ret (-1, c, stream)
  else
    match script with
    | [] => Ret (0, c, stream)
    | ev :: script =>
        let size := Gatewayd.stage_size (stage c) (message_in c) in
        match Gatewayd.recv_part ev eof stream (u64 (size - bytes_read c)) with
        | (Gatewayd.Again, stream) => read_stage script eof stream c
        | (Gatewayd.Later, stream) => Ret (0, c, stream)
        | (Gatewayd.Lost, stream) => Ret (-1, set_shutdown true c, stream)
        | (Gatewayd.Got bs, stream) =>
            m ← Gatewayd.store_part (stage c) (message_in c) (bytes_read c) bs;
            let c := set_bytes_read (bytes_read c + zlen bs) (set_message_in m c) in
            if bytes_read c <? size then Ret (0, c, stream)
            else
              match stage c with
              | Gatewayd.READ_HEADER =>
                  if ((length_of m <? 0) || (MAX_PAYLOAD_SIZE <? length_of m))%bool
                  then read_stage script eof stream c
                  else
                    let next := if length_of m =? 0 then Gatewayd.READ_CHECKSUM else Gatewayd.READ_PAYLOAD in
                    read_stage script eof stream (set_stage next (set_bytes_read 0 c))
              | Gatewayd.READ_PAYLOAD =>
                  read_stage script eof stream (set_stage Gatewayd.READ_CHECKSUM (set_bytes_read 0 c))
              | Gatewayd.READ_CHECKSUM =>
                  ok ← checksum_ok m;
                  let c := set_stage Gatewayd.READ_HEADER (set_bytes_read 0 c) in
                  if ok : bool then Ret (1, set_num_packet_recv (u64 (num_packet_recv c + 1)) c, stream)
                  else Ret (2, c, stream)
              end
        end
    end.

(** A reply, tried a second time when the first attempt found the queue full. *)
Definition enqueue_twice (mes : message_control) (c : client_state) : outcome client_state :=
  '(r, c) ← enqueue_message mes SentQueue c;
  if r =? 1 then '(_, c) ← enqueue_message mes SentQueue c; Ret c else Ret c.

(** What [recv_thread] does with a complete frame: whether it goes on. *)
Definition received_frame (c : client_state) : outcome (bool * client_state) :=
  let m := message_in c in
  let c := set_num_packet_recv (u64 (num_packet_recv c + 1)) c in
  if cmd m =? SHUTDOWN_PEER then Ret (false, set_shutdown true c)
  else if ((cmd m =? ACK) || (cmd m =? NACK))%bool then Ret (true, c)
  else
    ack ← build_ack (number_packet m);
    '(_, c) ← enqueue_message ack SentQueue c;
    '(r, c) ← enqueue_message m RecvQueue c;
    if r =? 1 then '(_, c) ← enqueue_message ack SentQueue c; Ret (true, c)
    else Ret (true, c).

(** One event of the server's descriptor in [recv_thread]. *)
Definition recv_event (script : list rx_event) (eof : bool) (stream : list Z) (c : client_state) :
    outcome (bool * client_state * list Z) :=
  '(ret, c, stream) ← read_stage script eof stream c;
  if ret =? -1 then Ret (false, c, stream)
  else if ret =? 0 then Ret (true, c, stream)
  else if ret =? 2 then
    nack ← build_nack (number_packet (message_in c));
    c ← enqueue_twice nack c;
    Ret (true, c, stream)
  else '(go, c) ← received_frame c; Ret (go, c, stream).

(** ** The other threads *)

(** One iteration of [send_thread]: whether it goes on, and what went out. *)
Definition send_iteration (script : list tx_event) (c : client_state) :
    outcome (bool * client_state * list Z) :=
  if shutdown c then Ret (false, c, [])
  else if 0 <? r_count (sent_queue c) then
    '(ret, mes, c) ← dequeue_message SentQueue c;
    match mes with
    | Some m =>
        '(ret, out, _) ← send_framed_message script m;
        if ret =? 1 then Ret (false, set_shutdown true c, out)
        else Ret (true, set_num_packet_sent (u64 (num_packet_sent c + 1)) c, out)
    | None => Ret (true, c, [])
    end
  else Ret (true, c, []).

(** One iteration of [worker_thread]: the message it logs. *)
Definition worker_iteration (c : client_state) : outcome (bool * client_state * option message_control) :=
  if shutdown c then Ret (false, c, None)
  else if 0 <? r_count (recv_queue c) then
    '(_, mes, c) ← dequeue_message RecvQueue c; Ret (true, c, mes)
  else Ret (true, c, None).

(** The text of a random command: its kind and three more answers of [rand]. *)
Definition random_payload (i r1 r2 r3 : Z) : option (list Z * Z) :=
  let n1 := fmt_d (i + r1 mod 10) in
  let n2 := fmt_d (i + r2 mod 40) in
  let n3 := fmt_d (if (i + r3 mod 2) mod 2 =? 1 then 1 else 0) in
  if i =? 0 then Some (bstr "GET_STATUS: {sensor:" ++ n1 ++ bstr ", device:" ++ n2 ++ bstr "}", LOW)
  else if i =? 1 then
    Some (bstr "SET_STATUS: {sensor:" ++ n1 ++ bstr ", deivce:" ++ n2 ++ bstr ", status:" ++ n3 ++ bstr "}", HIGH)
  else if i =? 2 then Some (bstr "GET_DATA: {sensor:" ++ n1 ++ bstr ", deivce:" ++ n2 ++ bstr "}", MEDIUM)
  else if i =? 3 then Some (bstr "GET_CONFIG: {sensor:" ++ n1 ++ bstr ", deivce:" ++ n2 ++ bstr "}", LOW)
  else if i =? 4 then
    Some (bstr "SET_CONFIG: {sensor:" ++ n1 ++ bstr ", deivce:" ++ n2 ++
          bstr ", config:{frequency:100000, set_lowpower:" ++ n3 ++ bstr "}}", HIGH)
  else if i =? 5 then
    Some (bstr "SEND_CONTROL: {actuator:" ++ n1 ++ bstr ", deivce:" ++ n2 ++ bstr ", control: " ++ n3 ++ bstr "}", HIGH)
  else None.

Definition create_mesage_random (rand r1 r2 r3 num_packet : Z) (c : client_state) : outcome (Z * client_state) :=
  let i := rand mod 5 in
  match random_payload i r1 r2 r3 with
  | None => Ret (-1, c)
  | Some (payload, pri) =>
      mess ← build_message payload i pri num_packet;
      '(_, c) ← enqueue_message mess SentQueue c;
      Ret (0, c)
  end.

(** One iteration of [task_create_thread]. *)
Definition task_create_iteration (rand r1 r2 r3 : Z) (c : client_state) : outcome (bool * client_state) :=
  let packet_num := num_packet_sent c in
  if shutdown c then Ret (false, c)
  else if negb (CLIENT_QUEUE <=? r_count (sent_queue c)) then
    '(_, c) ← create_mesage_random rand r1 r2 r3 packet_num c; Ret (true, c)
  else Ret (true, c).

(** [sig_thread] on SIGTERM or SIGINT. *)
Definition sig_term (script : list tx_event) (c : client_state) : outcome (client_state * list Z) :=
  m ← build_message (bstr "client shutting down") SHUTDOWN_PEER HIGH (num_packet_sent c);
  '(_, out, _) ← send_framed_message script m;
  Ret (set_shutdown true c, out).

Definition fixed_token : list Z := bstr "MY_FIXED_SECRET_TOKEN_123456789".

(** [calloc] in main. *)
Definition zero_state : client_state :=
  let zeros := Ring (replicate (Z.to_nat CLIENT_QUEUE) Gatewayd.zero_message) 0 0 0 in
  ClientState false 0 0 zeros zeros Gatewayd.READ_HEADER Gatewayd.zero_message 0.

(** [init_client] once connected: the result and the identification sent. *)
Definition init_client (script : list tx_event) (c : client_state) : outcome (Z * client_state * list Z) :=
  let c := set_shutdown false (set_num_packet_sent 0 (set_num_packet_recv 0 c)) in
  token_msg ← build_message fixed_token IDENTIFY HIGH (num_packet_sent c);
  '(ret, out, _) ← send_framed_message script token_msg;
  Ret (if negb (ret =? 0) then -1 else 0, c, out).

End Cli.
