(* ===== verification/CliIo.v ===== *)
(** * The control plane client: delivery

    The staged reader of the client is that of the daemon except on an invalid
    length, so what the daemon sends is delivered to the client's queue frame by
    frame and acknowledged; then what happens when that queue is full. *)
From S2P Require Import Prelude Number Socket Ring Fifo Framing Gatewayd DaemonIo DaemonSafe Cli.
Import Framing DaemonIo Cli.
Open Scope c_scope.

Module CliIo.

(** ** The reader of the client simulates that of the daemon *)

(** The two records agree on the receive state. *)
Definition linked (c : client_state) (d : Gatewayd.client) : Prop :=
  stage c = Gatewayd.stage d /\ message_in c = Gatewayd.c_message d /\
  bytes_read c = Gatewayd.bytes_read d /\ shutdown c = Gatewayd.pending_close d.

(** What reading does not touch. *)
Definition same_queues (c c' : client_state) : Prop :=
  sent_queue c' = sent_queue c /\ recv_queue c' = recv_queue c /\ num_packet_sent c' = num_packet_sent c.

Definition bad_length (m : message_control) : bool := ((length_of m <? 0) || (MAX_PAYLOAD_SIZE <? length_of m))%bool.

Lemma same_queues_trans c1 c2 c3 : same_queues c1 c2 -> same_queues c2 c3 -> same_queues c1 c3.
Proof. intros (? & ? & ?) (? & ? & ?). split_and!; congruence. Qed.

Ltac link := unfold linked, same_queues in *; cbn; split_and!; congruence.

Lemma read_stage_sim script eof stream c d r d' stream' :
  linked c d -> Gatewayd.read_stage script eof stream d = Ret (r, d', stream') ->
  (exists c', read_stage script eof stream c = Ret (r, c', stream') /\ linked c' d' /\ same_queues c c') \/
  r = -1 /\ bad_length (Gatewayd.c_message d') = true.
Proof.
  revert stream c d. induction script as [|ev script IH]; intros stream c d Hl H;
    pose proof Hl as (Hs & Hm & Hb & Hc); cbn [read_stage Gatewayd.read_stage] in *; rewrite Hc;
    destruct (Gatewayd.pending_close d) eqn:Ep.
  1-3: injection H as <- <- <-; left; exists c; split; [done|split; [done|done]].
  rewrite Hs, Hm, Hb.
  destruct (Gatewayd.recv_part ev eof stream _) as [[| | |bs] stream1].
  - by apply (IH stream1 c d).
  - injection H as <- <- <-. left. by exists c.
  - injection H as <- <- <-. left. exists (set_shutdown true c). link.
  - peel H as m E. rewrite E. cbn [mbind outcome_bind]. cbn [bytes_read stage set_bytes_read set_message_in
      Gatewayd.bytes_read Gatewayd.stage Gatewayd.set_bytes_read Gatewayd.set_c_message] in *.
    rewrite ?Hb, ?Hs. destruct (_ <? _) in H |- *.
    { injection H as <- <- <-. left. eexists. split; [reflexivity|]. link. }
    destruct (Gatewayd.stage d) eqn:Est.
    + destruct ((length_of m <? 0) || (MAX_PAYLOAD_SIZE <? length_of m))%bool eqn:Elen.
      { injection H as <- <- <-. right. split; [done|exact Elen]. }
      match goal with |- context [read_stage script eof stream1 ?c1] =>
        destruct (fun L => IH stream1 c1 _ L H) as [(c' & E' & Hl' & Hq)|Hbad] end; [link|left|by right].
      exists c'. split; [exact E'|]. split; [done|]. exact Hq.
    + match goal with |- context [read_stage script eof stream1 ?c1] =>
        destruct (fun L => IH stream1 c1 _ L H) as [(c' & E' & Hl' & Hq)|Hbad] end; [link|left|by right].
      exists c'. split; [exact E'|]. split; [done|]. exact Hq.
    + peel H as ok Eok. rewrite Eok. cbn [mbind outcome_bind]. left. destruct ok; injection H as <- <- <-;
        (eexists; split; [reflexivity|]; link).
Qed.

(** ** One frame *)

(** The receive state after [k] bytes of the frame of [m], over [m0]. *)
Definition at_offset (m m0 : message_control) (c : client_state) (k : nat) : Prop :=
  linked c (rx_at m m0 Gatewayd.zero_client k).

Definition ready (c : client_state) : Prop :=
  stage c = Gatewayd.READ_HEADER /\ bytes_read c = 0 /\ shutdown c = false /\ msg_wf (message_in c).

Lemma ready_at_offset m c : ready c -> at_offset m (message_in c) c 0.
Proof.
  intros (Hs & Hb & Hd & _). unfold at_offset, linked, rx_at, stage_at, stage_begin, msg_at. cbn.
  change ((0 <? 24)%nat) with true. cbv iota. rewrite ?drop_0. by destruct (message_in c).
Qed.

Section Frame.
Context (m m0 : message_control) (Hm : sendable m) (Hm0 : msg_wf m0).

(** One readiness event: the reader moves on inside the frame or completes it. *)
Lemma read_event c script eof rest k :
  reading script -> (0 < nchunks script)%nat -> (k < length (wire m))%nat -> at_offset m m0 c k ->
  checksum_ok m = Ret true ->
  (exists k' c', (k < k' < length (wire m))%nat /\
     read_stage script eof (drop k (wire m) ++ rest) c = Ret (0, c', drop k' (wire m) ++ rest) /\
     at_offset m m0 c' k' /\ same_queues c c') \/
  (exists c', read_stage script eof (drop k (wire m) ++ rest) c = Ret (1, c', rest) /\
     same_queues c c' /\ stage c' = Gatewayd.READ_HEADER /\ bytes_read c' = 0 /\ shutdown c' = false /\
     message_in c' = received m m0).
Proof.
  intros Hr Hn Hk Hat Hok. destruct (frame_sizes m m0 Hm Hm0) as (_ & _ & _ & _ & _ & _ & _ & _ & Hwl).
  destruct (read_stage_call m m0 Hm Hm0 Gatewayd.zero_client true script eof rest k Hr ltac:(lia) eq_refl Hok)
    as [(k' & Hk' & Hlt & E)|E].
  - left. destruct (read_stage_sim _ _ _ _ _ _ _ _ Hat E) as [(c' & E' & Hl & Hq)|[[=] _]].
    exists k', c'. split; [lia|]. done.
  - right. destruct (read_stage_sim _ _ _ _ _ _ _ _ Hat E) as [(c' & E' & Hl & Hq)|[[=] _]].
    exists c'. split; [exact E'|]. split; [done|]. destruct Hl as (H1 & H2 & H3 & H4). done.
Qed.

End Frame.

(** ** The receive thread *)

(** Readiness events of the server's descriptor, until the thread returns. *)
Fixpoint recv_run (scripts : list (list rx_event)) (eof : bool) (stream : list Z) (c : client_state) :
    outcome (client_state * list Z) :=
  match scripts with
  | [] => Ret (c, stream)
  | script :: scripts =>
      '(go, c, stream) ← recv_event script eof stream c;
      if go : bool then recv_run scripts eof stream c else Ret (c, stream)
  end.

(** Each event finds data. *)
Definition live (scripts : list (list rx_event)) : Prop :=
  Forall (fun script => reading script /\ (0 < nchunks script)%nat) scripts.

Definition queues_ok (c : client_state) : Prop :=
  ring_inv CLIENT_QUEUE (sent_queue c) /\ ring_inv CLIENT_QUEUE (recv_queue c).

(** A message that is neither a receipt nor the end of the connection. *)
Definition plain (m : message_control) : Prop :=
  cmd m <> SHUTDOWN_PEER /\ cmd m <> ACK /\ cmd m <> NACK.

(** The events of one frame lead to [received_frame]. *)
Lemma frame_events m m0 (Hm : sendable m) (Hm0 : msg_wf m0) scripts eof rest c k :
  checksum_ok m = Ret true -> live scripts -> (k < length (wire m))%nat ->
  (length (wire m) - k <= length scripts)%nat -> at_offset m m0 c k ->
  exists scripts' c1, live scripts' /\ (length scripts - (length (wire m) - k) <= length scripts')%nat /\
    same_queues c c1 /\ stage c1 = Gatewayd.READ_HEADER /\ bytes_read c1 = 0 /\ shutdown c1 = false /\
    message_in c1 = received m m0 /\
    recv_run scripts eof (drop k (wire m) ++ rest) c =
      ('(go, c2) ← received_frame c1;
       if go : bool then recv_run scripts' eof rest c2 else Ret (c2, rest)).
Proof.
  intros Hok Hlive. revert k c. induction Hlive as [|script scripts [Hr Hn] Hlive IH]; intros k c Hk Hlen Hat;
    cbn [length] in *; [lia|]. cbn [recv_run]. unfold recv_event.
  destruct (read_event m m0 Hm Hm0 c script eof rest k Hr Hn Hk Hat Hok)
    as [(k' & c' & Hk' & E & Hat' & Hq)|(c' & E & Hq & Hs & Hb & Hd & Hmi)]; rewrite E; cbn [mbind outcome_bind].
  - change (0 =? -1) with false. change (0 =? 0) with true. cbv iota. cbn [mbind outcome_bind].
    destruct (IH k' c' ltac:(lia) ltac:(lia) Hat') as (ss & c1 & Hl & Hlen' & Hq' & Hrest).
    exists ss, c1. split; [done|]. split; [lia|]. split; [by eapply same_queues_trans|]. done.
  - change (1 =? -1) with false. change (1 =? 0) with false. change (1 =? 2) with false. cbv iota.
    exists scripts, c'. split; [done|]. split; [lia|]. split; [done|]. split_and!; try done.
    destruct (received_frame c') as [[go c2]|]; [|done]. cbn [mbind outcome_bind]. done.
Qed.

Lemma enqueue_room mes q c : ring_inv CLIENT_QUEUE (queue_of c q) -> r_count (queue_of c q) < CLIENT_QUEUE ->
  exists r, enqueue_message mes q c = Ret (0, set_queue_of q r c) /\ ring_inv CLIENT_QUEUE r /\
    ring_abs r = ring_abs (queue_of c q) ++ [mes] /\ r_count r = r_count (queue_of c q) + 1.
Proof.
  intros Hi Hc. unfold enqueue_message. destruct (Z.eqb_spec (r_count (queue_of c q)) CLIENT_QUEUE); [lia|].
  destruct (ring_put_spec CLIENT_QUEUE _ mes Hi Hc) as (r & -> & Hi' & Ha & Hr & _). by exists r.
Qed.

Lemma enqueue_full mes q c : r_count (queue_of c q) = CLIENT_QUEUE -> enqueue_message mes q c = Ret (1, c).
Proof. intros Hc. unfold enqueue_message. by rewrite Hc. Qed.

Lemma dequeue_some q c v l : ring_inv CLIENT_QUEUE (queue_of c q) -> ring_abs (queue_of c q) = v :: l ->
  exists r, dequeue_message q c = Ret (0, Some v, set_queue_of q r c) /\ ring_inv CLIENT_QUEUE r /\ ring_abs r = l.
Proof.
  intros Hi Ha. unfold dequeue_message. pose proof (ring_abs_length CLIENT_QUEUE _ Hi) as Hl.
  rewrite Ha, zlen_cons in Hl. pose proof (zlen_nonneg l).
  destruct (Z.eqb_spec (r_count (queue_of c q)) 0); [lia|].
  destruct (ring_take_spec CLIENT_QUEUE _ v l Hi Ha) as (-> & Hi' & Ha'). by exists (ring_advance CLIENT_QUEUE (queue_of c q)).
Qed.

Lemma ack_built m : msg_wf m -> exists a, build_ack (number_packet m) = Ret a /\ sendable a.
Proof.
  intros (Hh & Hb & _). unfold build_ack.
  assert (in_u 64 (number_packet m)) as Hn.
  { unfold number_packet. assert (bytes (take 8 (drop 8 (header m)))) as Ht by (by apply Forall_take, Forall_drop).
    pose proof (le_val_bound _ Ht) as Hv. replace (zlen (take 8 (drop 8 (header m)))) with 8 in Hv; [done|].
    unfold HDR_SIZE, zlen in *. rewrite length_take, length_drop. lia. }
  destruct (build_carries (bstr "ACK") ACK LOW (number_packet m)) as (a & E & Hwf & _ & _ & _ & Hlen & _);
    [apply (bool_decide_unpack _); by vm_compute|by vm_compute..|done|].
  exists a. split; [done|]. split; [done|]. rewrite Hlen. by vm_compute.
Qed.

(** A plain frame with room in both queues. *)
Lemma received_plain c :
  queues_ok c -> msg_wf (message_in c) -> plain (message_in c) ->
  r_count (recv_queue c) < CLIENT_QUEUE -> r_count (sent_queue c) < CLIENT_QUEUE ->
  exists c' a, received_frame c = Ret (true, c') /\ build_ack (number_packet (message_in c)) = Ret a /\
    queues_ok c' /\ ring_abs (recv_queue c') = ring_abs (recv_queue c) ++ [message_in c] /\
    ring_abs (sent_queue c') = ring_abs (sent_queue c) ++ [a] /\
    r_count (recv_queue c') = r_count (recv_queue c) + 1 /\ r_count (sent_queue c') = r_count (sent_queue c) + 1 /\
    stage c' = stage c /\ bytes_read c' = bytes_read c /\ shutdown c' = shutdown c /\ message_in c' = message_in c.
Proof.
  intros [Hs Hr] Hwf (H1 & H2 & H3) Hcr Hcs. unfold received_frame.
  destruct (Z.eqb_spec (cmd (message_in c)) SHUTDOWN_PEER), (Z.eqb_spec (cmd (message_in c)) ACK),
    (Z.eqb_spec (cmd (message_in c)) NACK); try done. cbn [orb].
  destruct (ack_built _ Hwf) as (a & Ea & _). rewrite Ea. cbn [mbind outcome_bind].
  set (c0 := set_num_packet_recv _ c).
  destruct (enqueue_room a SentQueue c0 Hs Hcs) as (r1 & -> & Hi1 & Ha1 & Hn1). cbn [mbind outcome_bind].
  destruct (enqueue_room (message_in c) RecvQueue (set_queue_of SentQueue r1 c0) Hr Hcr) as (r2 & -> & Hi2 & Ha2 & Hn2).
  cbn [mbind outcome_bind]. change (0 =? 1) with false. cbv iota.
  eexists _, a. split; [reflexivity|]. split; [reflexivity|]. clear Ea. split; [by split|]. done.
Qed.

(** Events that find nothing change nothing. *)
Lemma idle_events scripts c : ready c -> live scripts -> recv_run scripts false [] c = Ret (c, []).
Proof.
  intros (Hs & Hb & Hd & _) Hl. induction Hl as [|script scripts [Hr _] _ IH]; [done|].
  cbn [recv_run]. unfold recv_event.
  assert (read_stage script false [] c = Ret (0, c, [])) as ->.
  { clear IH. induction Hr as [|ev script Hev _ IHr]; cbn [read_stage]; rewrite Hd; [done|]. rewrite Hs, Hb.
    destruct Hev as [(j & ->)| ->]; [|done]. done. }
  cbn [mbind outcome_bind]. change (0 =? -1) with false. change (0 =? 0) with true. cbv iota. exact IH.
Qed.

(** A message as the daemon sends it for the client's queue. *)
Definition reply (m : message_control) : Prop := sendable m /\ checksum_ok m = Ret true /\ plain m.

Lemma received_wire m m0 : sendable m -> msg_wf m0 -> wire (received m m0) = wire m /\
  number_packet (received m m0) = number_packet m /\ cmd (received m m0) = cmd m.
Proof.
  intros Hm Hm0. destruct (received_fields m m0 Hm Hm0) as (Hh & Hp & Hc).
  assert (length_of (received m m0) = length_of m) as E by (unfold length_of; by rewrite Hh).
  unfold wire, number_packet, cmd. by rewrite E, Hh, Hc, Hp.
Qed.

(** The frames of a stream are delivered one by one. *)
Lemma frames_delivered ms scripts c :
  ready c -> queues_ok c -> Forall reply ms ->
  r_count (recv_queue c) + zlen ms <= CLIENT_QUEUE -> r_count (sent_queue c) + zlen ms <= CLIENT_QUEUE ->
  live scripts -> (length (flat_map wire ms) <= length scripts)%nat ->
  exists c' acks, recv_run scripts false (flat_map wire ms) c = Ret (c', []) /\ ready c' /\
    wire <$> ring_abs (recv_queue c') = (wire <$> ring_abs (recv_queue c)) ++ (wire <$> ms) /\
    ring_abs (sent_queue c') = ring_abs (sent_queue c) ++ acks /\
    Forall2 (fun m a => build_ack (number_packet m) = Ret a) ms acks.
Proof.
  intros Hrdy Hq Hms. revert scripts c Hrdy Hq.
  induction Hms as [|m ms (Hm & Hok & Hpl) _ IH]; intros scripts c Hrdy Hq Hr Hs Hl Hlen.
  { exists c, []. split; [by apply idle_events|]. rewrite !app_nil_r. done. }
  cbn [flat_map] in *. rewrite length_app in Hlen. rewrite zlen_cons in Hr, Hs. pose proof (zlen_nonneg ms).
  destruct Hrdy as (Hst & Hbr & Hsd & Hwf) eqn:Erdy. clear Erdy.
  destruct (frame_sizes m (message_in c) Hm Hwf) as (_ & _ & _ & _ & _ & _ & _ & _ & Hwl).
  destruct (frame_events m (message_in c) Hm Hwf scripts false (flat_map wire ms) c 0 Hok Hl)
    as (ss & c1 & Hl' & Hlen' & Hsq & Hst1 & Hbr1 & Hsd1 & Hmi & Hrun); [lia|lia|by apply ready_at_offset|].
  rewrite drop_0 in Hrun. rewrite Hrun. destruct (received_wire m _ Hm Hwf) as (Hw & Hnp & Hcmd).
  pose proof (received_wf m (message_in c) Hm Hwf) as Hrw.
  destruct Hsq as (Hsq & Hrq & _).
  destruct (received_plain c1) as (c2 & a & -> & Ea & Hq2 & Har & Has & Hnr & Hns & Hst2 & Hbr2 & Hsd2 & Hmi2).
  { unfold queues_ok. by rewrite Hsq, Hrq. }
  { by rewrite Hmi. }
  { unfold plain. by rewrite Hmi, Hcmd. }
  { rewrite Hrq. lia. }
  { rewrite Hsq. lia. }
  cbn [mbind outcome_bind]. rewrite Hmi in Ea, Har, Hmi2. rewrite Hnp in Ea.
  destruct (IH ss c2) as (c' & acks & E & Hrdy' & Hr' & Hs' & Hacks).
  { split_and!; [congruence|congruence|congruence|by rewrite Hmi2]. }
  { done. }
  { rewrite Hnr, Hrq. lia. }
  { rewrite Hns, Hsq. lia. }
  { done. }
  { lia. }
  exists c', (a :: acks). split; [done|]. split; [done|]. rewrite Hr', Hs', Har, Has, Hrq, Hsq.
  rewrite fmap_app, <- !app_assoc. cbn [fmap list_fmap app]. rewrite Hw. split_and!; [done|done|by constructor].
Qed.


(** The daemon's connection before and after it sent [ping]. *)
Definition queued_ping : Gatewayd.client :=
  match Gatewayd.queue_client Gatewayd.zero_client ping with Ret d => d | Undef => Gatewayd.zero_client end.

Definition sent_ping : Gatewayd.client :=
  match Gatewayd.send_message_chunk [TxAccept 20; TxAccept 20] queued_ping with
  | Ret (_, d, _) => d
  | Undef => Gatewayd.zero_client
  end.


(** ** What the client sends *)

Definition short (t : list Z) : Prop := text t /\ zlen t <= 100.

#[local] Instance short_dec t : Decision (short t).
Proof. unfold short, text. apply _. Defined.

Lemma short_number z : short (fmt_d z).
Proof. split; [apply DaemonSafe.num_text, Number.fmt_d_chars|]. pose proof (Number.fmt_d_len z). lia. Qed.

Lemma concat_short ts : Forall short ts -> text (concat ts) /\ zlen (concat ts) <= 100 * zlen ts.
Proof.
  induction 1 as [|t ts [Ht Hl] _ [IHt IHl]]; [by split; [apply Forall_nil_2|]|]. cbn [concat]. split; [by apply DaemonSafe.text_app|].
  rewrite zlen_app, zlen_cons. lia.
Qed.

(** Every command the client makes up is a short text with a known priority. *)
Lemma random_payload_ok i r1 r2 r3 : 0 <= i < 5 ->
  exists ts pri, random_payload i r1 r2 r3 = Some (concat ts, pri) /\ Forall short ts /\ zlen ts <= 7 /\
    (pri = LOW \/ pri = MEDIUM \/ pri = HIGH).
Proof.
  intros Hi. unfold random_payload. cbv zeta.
  pose proof (short_number (i + r1 mod 10)) as H1. pose proof (short_number (i + r2 mod 40)) as H2.
  pose proof (short_number (if (i + r3 mod 2) mod 2 =? 1 then 1 else 0)) as H3.
  set (n1 := fmt_d (i + r1 mod 10)) in *. set (n2 := fmt_d (i + r2 mod 40)) in *. set (n3 := fmt_d (if _ : bool then _ else _)) in *.
  clearbody n1 n2 n3.
  assert (forall s p1 p2, Forall short [s; p1; p2] -> Forall short [s; n1; p1; n2; p2]) as F5.
  { intros s p1 p2. rewrite !Forall_cons. tauto. }
  assert (forall s p1 p2 p3, Forall short [s; p1; p2; p3] -> Forall short [s; n1; p1; n2; p2; n3; p3]) as F7.
  { intros s p1 p2 p3. rewrite !Forall_cons. tauto. }
  assert (i = 0 \/ i = 1 \/ i = 2 \/ i = 3 \/ i = 4) as [-> |[-> |[-> |[-> | ->]]]] by lia; cbn [Z.eqb Pos.eqb].
  - eexists [_; n1; _; n2; _], LOW. cbn [concat]. rewrite app_nil_r. split; [reflexivity|].
    split; [apply F5; apply (bool_decide_unpack _); by vm_compute|]. split; [done|auto].
  - eexists [_; n1; _; n2; _; n3; _], HIGH. cbn [concat]. rewrite app_nil_r. split; [reflexivity|].
    split; [apply F7; apply (bool_decide_unpack _); by vm_compute|]. split; [done|auto].
  - eexists [_; n1; _; n2; _], MEDIUM. cbn [concat]. rewrite app_nil_r. split; [reflexivity|].
    split; [apply F5; apply (bool_decide_unpack _); by vm_compute|]. split; [done|auto].
  - eexists [_; n1; _; n2; _], LOW. cbn [concat]. rewrite app_nil_r. split; [reflexivity|].
    split; [apply F5; apply (bool_decide_unpack _); by vm_compute|]. split; [done|auto].
  - eexists [_; n1; _; n2; _; n3; _], HIGH. cbn [concat]. rewrite app_nil_r. split; [reflexivity|].
    split; [apply F7; apply (bool_decide_unpack _); by vm_compute|]. split; [done|auto].
Qed.

(** The command generator of the client only produces frames the daemon can
    serve.  One iteration queues, if there is room, one message whose checksum
    verifies, with the drawn command and a priority for which the daemon has a
    queue; on a full queue it queues nothing. *)
Theorem commands_are_valid rand r1 r2 r3 c :
  queues_ok c -> in_u 64 (num_packet_sent c) -> shutdown c = false ->
  exists c', task_create_iteration rand r1 r2 r3 c = Ret (true, c') /\
    if r_count (sent_queue c) <? CLIENT_QUEUE then
      exists m, ring_abs (sent_queue c') = ring_abs (sent_queue c) ++ [m] /\ sendable m /\
        checksum_ok m = Ret true /\ cmd m = rand mod 5 /\ number_packet m = num_packet_sent c /\
        forall sv, Gatewayd.queue_of sv (pri m) <> None
    else c' = c.
Proof.
  intros [Hs Hr] Hn Hd. unfold task_create_iteration. rewrite Hd, Z.leb_antisym.
  destruct (Z.ltb_spec (r_count (sent_queue c)) CLIENT_QUEUE) as [Hroom|Hfull]; cbn [negb]; [|by exists c].
  unfold create_mesage_random. pose proof (Z.mod_pos_bound rand 5 ltac:(lia)) as Hi.
  destruct (random_payload_ok (rand mod 5) r1 r2 r3 Hi) as (ts & p & E & Hts & Hlen & Hp). rewrite E. clear E.
  destruct (concat_short ts Hts) as [Ht Hl].
  destruct (build_carries (concat ts) (rand mod 5) p (num_packet_sent c)) as (m & Em & Hwf & Hcmd & Hpri & Hnum & Hlm & _ & Hok);
    [done|unfold MAX_PAYLOAD_SIZE; lia|split; lia|split; destruct Hp as [-> |[-> | ->]]; by vm_compute|done|].
  rewrite Em. clear Em. cbn [mbind outcome_bind].
  destruct (enqueue_room m SentQueue c Hs Hroom) as (r & -> & _ & Ha & _). cbn [mbind outcome_bind].
  eexists. split; [reflexivity|]. exists m. split; [exact Ha|]. split.
  { split; [done|]. rewrite Hlm. pose proof (zlen_nonneg (concat ts)). unfold MAX_PAYLOAD_SIZE. lia. }
  split_and!; [done..|]. intros sv. rewrite Hpri. destruct Hp as [-> |[-> | ->]]; done.
Qed.

Lemma commands_are_valid_witness :
  exists c', task_create_iteration 1 8 17 4 zero_state = Ret (true, c') /\
    if r_count (sent_queue zero_state) <? CLIENT_QUEUE then
      exists m, ring_abs (sent_queue c') = ring_abs (sent_queue zero_state) ++ [m] /\ sendable m /\
        checksum_ok m = Ret true /\ cmd m = 1 mod 5 /\ number_packet m = num_packet_sent zero_state /\
        forall sv, Gatewayd.queue_of sv (pri m) <> None
    else c' = zero_state.
Proof.
  apply (commands_are_valid 1 8 17 4 zero_state); [|by vm_compute|done].
  split; (split_and!; [done|done|done|done|vm_compute; discriminate|done]).
Defined.

(** A message that arrives while the client's receive queue is full is lost
    although it is acknowledged, and the acknowledgement is queued twice. *)
Theorem full_recv_queue_acks_twice c :
  queues_ok c -> msg_wf (message_in c) -> plain (message_in c) ->
  r_count (recv_queue c) = CLIENT_QUEUE -> r_count (sent_queue c) + 2 <= CLIENT_QUEUE ->
  exists c' a, received_frame c = Ret (true, c') /\ build_ack (number_packet (message_in c)) = Ret a /\
    recv_queue c' = recv_queue c /\ ring_abs (sent_queue c') = ring_abs (sent_queue c) ++ [a; a].
Proof.
  intros [Hs Hr] Hwf (H1 & H2 & H3) Hcr Hcs. unfold received_frame.
  destruct (Z.eqb_spec (cmd (message_in c)) SHUTDOWN_PEER), (Z.eqb_spec (cmd (message_in c)) ACK),
    (Z.eqb_spec (cmd (message_in c)) NACK); try done. cbn [orb].
  destruct (ack_built _ Hwf) as (a & Ea & _). rewrite Ea. clear Ea. cbn [mbind outcome_bind].
  set (c0 := set_num_packet_recv _ c).
  destruct (enqueue_room a SentQueue c0 Hs ltac:(cbn; lia)) as (r1 & -> & Hi1 & Ha1 & Hn1). cbn [mbind outcome_bind].
  rewrite (enqueue_full (message_in c) RecvQueue) by exact Hcr. cbn [mbind outcome_bind].
  change (1 =? 1) with true. cbv iota.
  destruct (enqueue_room a SentQueue (set_queue_of SentQueue r1 c0) Hi1) as (r2 & -> & _ & Ha2 & _);
    [cbn in Hn1 |- *; lia|]. cbn [mbind outcome_bind].
  eexists _, a. split; [reflexivity|]. split; [reflexivity|]. split; [done|].
  cbn [sent_queue set_queue_of set_sent_queue]. rewrite Ha2. cbn [queue_of sent_queue set_queue_of set_sent_queue].
  rewrite Ha1, <- app_assoc. done.
Qed.

(** Thirty-two messages wait and [ping] has just arrived. *)
Definition crowded : client_state :=
  set_recv_queue (Ring (replicate 32 Gatewayd.zero_message) 0 0 32) (set_message_in ping zero_state).

Lemma full_recv_queue_acks_twice_witness :
  exists c' a, received_frame crowded = Ret (true, c') /\ build_ack (number_packet (message_in crowded)) = Ret a /\
    recv_queue c' = recv_queue crowded /\ ring_abs (sent_queue c') = ring_abs (sent_queue crowded) ++ [a; a].
Proof.
  apply (full_recv_queue_acks_twice crowded).
  - split; (split_and!; [done|done|done|done|vm_compute; discriminate|done]).
  - exact (proj1 ping_sendable).
  - split_and!; vm_compute; discriminate.
  - done.
  - vm_compute. discriminate.
Defined.

(** After a header with an invalid length the client asks for zero more bytes,
    takes the answer for the end of the connection and shuts down. *)
Lemma invalid_length_shuts_down j script eof stream c :
  stage c = Gatewayd.READ_HEADER -> bytes_read c = HDR_SIZE -> shutdown c = false ->
  read_stage (RxChunk j :: script) eof stream c = Ret (-1, set_shutdown true c, stream).
Proof. intros Hs Hb Hd. cbn [read_stage]. by rewrite Hd, Hs, Hb. Qed.

End CliIo.
