(* ===== verification/CliMain.v ===== *)
(** * The control plane client as a process

    gatewaycli/client.c: the five threads of the client and its main thread, which
    waits for the shutdown flag and joins them, as one transition system over the
    state of [Cli].  The network, the signals and the schedule are events. *)
From S2P Require Import Prelude Socket Ring Framing Gatewayd DaemonIo DaemonSafe Cli CliIo.
Import Framing DaemonIo Cli CliIo.
Open Scope c_scope.

Module CliMain.

(** ** The program *)

(** [main]: about to test the flag, in [pthread_cond_wait], joining, returned. *)
Inductive main_pc := MTest | MSleep | MJoin | MEnd.

(** The state, which threads have not returned, what the daemon has sent and is not
    read yet, what was written to it, and the messages the worker showed. *)
Record process := Process {
  cst : client_state; sig_on : bool; recv_on : bool;
  send_on : bool; work_on : bool; task_on : bool;
  main : main_pc; stream : list Z; written : list Z;
  shown : list message_control }.
Definition set_cst (v : client_state) (x : process) : process :=
  Process v (sig_on x) (recv_on x) (send_on x) (work_on x) (task_on x) (main x) (stream x)
    (written x) (shown x).
Definition set_sig_on (v : bool) (x : process) : process :=
  Process (cst x) v (recv_on x) (send_on x) (work_on x) (task_on x) (main x) (stream x)
    (written x) (shown x).
Definition set_recv_on (v : bool) (x : process) : process :=
  Process (cst x) (sig_on x) v (send_on x) (work_on x) (task_on x) (main x) (stream x)
    (written x) (shown x).
Definition set_send_on (v : bool) (x : process) : process :=
  Process (cst x) (sig_on x) (recv_on x) v (work_on x) (task_on x) (main x) (stream x)
    (written x) (shown x).
Definition set_work_on (v : bool) (x : process) : process :=
  Process (cst x) (sig_on x) (recv_on x) (send_on x) v (task_on x) (main x) (stream x)
    (written x) (shown x).
Definition set_task_on (v : bool) (x : process) : process :=
  Process (cst x) (sig_on x) (recv_on x) (send_on x) (work_on x) v (main x) (stream x)
    (written x) (shown x).
Definition set_main (v : main_pc) (x : process) : process :=
  Process (cst x) (sig_on x) (recv_on x) (send_on x) (work_on x) (task_on x) v (stream x)
    (written x) (shown x).
Definition set_stream (v : list Z) (x : process) : process :=
  Process (cst x) (sig_on x) (recv_on x) (send_on x) (work_on x) (task_on x) (main x) v
    (written x) (shown x).
Definition set_written (v : list Z) (x : process) : process :=
  Process (cst x) (sig_on x) (recv_on x) (send_on x) (work_on x) (task_on x) (main x)
    (stream x) v (shown x).
Definition set_shown (v : list message_control) (x : process) : process :=
  Process (cst x) (sig_on x) (recv_on x) (send_on x) (work_on x) (task_on x) (main x)
    (stream x) (written x) v.

(** [pthread_cond_broadcast(&client->stop)] *)
Definition broadcast (p : process) : process :=
  set_main (match main p with MSleep => MTest | pc => pc end) p.

(** [sig_thread] on SIGTERM or SIGINT. *)
Definition sig_thread (script : list tx_event) (p : process) : outcome process :=
  '(c, out) ← sig_term script (cst p);
  Ret (broadcast (set_sig_on false (set_written (written p ++ out) (set_cst c p)))).

(** One round of [recv_thread] with an event of the socket.  After a read that failed
    it returns without waking the main thread. *)
Definition recv_thread (script : list rx_event) (eof : bool) (p : process) : outcome process :=
  if shutdown (cst p) then Ret (set_recv_on false p)
  else
    '(ret, _, _) ← read_stage script eof (stream p) (cst p);
    '(go, c, rest) ← recv_event script eof (stream p) (cst p);
    let p := set_stream rest (set_cst c p) in
    if go : bool then Ret p
    else Ret (set_recv_on false (if ret =? -1 then p else broadcast p)).

Definition send_thread (script : list tx_event) (p : process) : outcome process :=
  let was := shutdown (cst p) in
  '(go, c, out) ← send_iteration script (cst p);
  let p := set_written (written p ++ out) (set_cst c p) in
  if go : bool then Ret p
  else Ret (set_send_on false (if was then p else broadcast p)).

Definition worker_thread (p : process) : outcome process :=
  '(go, c, m) ← worker_iteration (cst p);
  let p := set_shown (match m with Some m => shown p ++ [m] | None => shown p end) (set_cst c p) in
  Ret (if go : bool then p else set_work_on false p).

Definition task_create_thread (rand r1 r2 r3 : Z) (p : process) : outcome process :=
  '(go, c) ← task_create_iteration rand r1 r2 r3 (cst p);
  let p := set_cst c p in
  Ret (if go : bool then p else set_task_on false p).

(** [main] behind the creation of the threads. *)
Definition main_thread (p : process) : option process :=
  match main p with
  | MTest => Some (set_main (if shutdown (cst p) then MJoin else MSleep) p)
  | MSleep => None
  | MJoin =>
      if (sig_on p || recv_on p || send_on p || work_on p || task_on p)%bool then None
      else Some (set_main MEnd p)
  | MEnd => None
  end.

(** [Broken]: [epoll_wait] fails.  [Arrive]: the daemon sends.  [Spurious]: the wait for
    the condition ends by itself. *)
Inductive event :=
  | Sig (script : list tx_event) | Recv (script : list rx_event) (eof : bool) | Broken
  | Send (script : list tx_event) | Work | Task (rand r1 r2 r3 : Z) | Main
  | Arrive (bs : list Z) | Spurious.

(** [None]: the thread is not there to make the step. *)
Definition step (ev : event) (p : process) : outcome (option process) :=
  match ev with
  | Sig script => if sig_on p then p ← sig_thread script p; Ret (Some p) else Ret None
  | Recv script eof => if recv_on p then p ← recv_thread script eof p; Ret (Some p) else Ret None
  | Broken => Ret (if recv_on p then Some (set_recv_on false p) else None)
  | Send script => if send_on p then p ← send_thread script p; Ret (Some p) else Ret None
  | Work => if work_on p then p ← worker_thread p; Ret (Some p) else Ret None
  | Task rand r1 r2 r3 => if task_on p then p ← task_create_thread rand r1 r2 r3 p; Ret (Some p) else Ret None
  | Main => Ret (main_thread p)
  | Arrive bs => Ret (Some (set_stream (stream p ++ bs) p))
  | Spurious => Ret (match main p with MSleep => Some (set_main MTest p) | _ => None end)
  end.

(** Steps that cannot be made are skipped. *)
Fixpoint run (evs : list event) (p : process) : outcome process :=
  match evs with
  | [] => Ret p
  | ev :: evs => r ← step ev p; run evs (default p r)
  end.

(** All threads created, the identification sent. *)
Definition start (script : list tx_event) : outcome (option process) :=
  '(ret, c, out) ← init_client script zero_state;
  Ret (if ret =? -1 then None else Some (Process c true true true true true MTest [] out [])).

(** ** Safety *)

(** The reader is inside the part it reads; after a header with a bad length it is at
    its end. *)
Record reading_ok (c : client_state) : Prop := {
  rd_msg : msg_wf (message_in c);
  rd_pos : 0 <= bytes_read c <= Gatewayd.stage_size (stage c) (message_in c);
  rd_len : stage c = Gatewayd.READ_PAYLOAD -> 0 < length_of (message_in c) <= MAX_PAYLOAD_SIZE }.

Record cli_ok (c : client_state) : Prop := {
  ck_queues : queues_ok c;
  ck_sent : Forall sendable (ring_abs (sent_queue c));
  ck_reading : reading_ok c;
  ck_number : in_u 64 (num_packet_sent c) }.

Lemma stage_bound c : reading_ok c ->
  Gatewayd.stage_size (stage c) (message_in c) <= 2048 /\
  (stage c = Gatewayd.READ_HEADER -> Gatewayd.stage_size (stage c) (message_in c) = 24).
Proof.
  intros [Hm Hp Hl]. destruct (stage c); cbn [Gatewayd.stage_size]; unfold HDR_SIZE, SUM_SIZE in *; [done| |split; [lia|done]].
  specialize (Hl eq_refl). unfold MAX_PAYLOAD_SIZE in Hl. rewrite (wrap_small 64) by lia. split; [lia|done].
Qed.

(** The piece is stored through the daemon's lemma for the same routine. *)
Lemma keep_piece c bs : reading_ok c -> bytes bs -> 0 < zlen bs ->
  bytes_read c + zlen bs <= Gatewayd.stage_size (stage c) (message_in c) ->
  exists m, Gatewayd.store_part (stage c) (message_in c) (bytes_read c) bs = Ret m /\ msg_wf m /\
    (stage c <> Gatewayd.READ_HEADER -> header m = header (message_in c)).
Proof.
  intros [Hm Hp Hl] Hb Hpos Hle.
  set (d := Gatewayd.set_stage (stage c) (Gatewayd.set_bytes_read (bytes_read c)
    (Gatewayd.set_c_message (message_in c) (Gatewayd.set_connected true Gatewayd.zero_client)))).
  apply (DaemonSafe.store_part_ok d bs); try done. split; [done| |done]. intros _ _. cbn. lia.
Qed.

Lemma stored c m n : reading_ok c -> msg_wf m ->
  (stage c <> Gatewayd.READ_HEADER -> header m = header (message_in c)) ->
  0 <= n <= Gatewayd.stage_size (stage c) (message_in c) -> reading_ok (set_bytes_read n (set_message_in m c)).
Proof.
  intros [Hm Hp Hl] Hw Hh Hn.
  assert (stage c <> Gatewayd.READ_HEADER -> length_of m = length_of (message_in c)) as Hlen
    by (intros Hs; by apply DaemonSafe.length_header, Hh).
  split; cbn; [done| |].
  - destruct (stage c); cbn [Gatewayd.stage_size] in *; try done. by rewrite Hlen.
  - intros Es. rewrite Hlen by congruence. auto.
Qed.

Lemma next_part c st : msg_wf (message_in c) -> (st = Gatewayd.READ_PAYLOAD -> 0 < length_of (message_in c) <= MAX_PAYLOAD_SIZE) ->
  reading_ok (set_stage st (set_bytes_read 0 c)).
Proof.
  intros Hm Hl. split; cbn; [done| |done]. destruct st; cbn [Gatewayd.stage_size]; unfold HDR_SIZE, SUM_SIZE; try lia.
  specialize (Hl eq_refl). unfold MAX_PAYLOAD_SIZE in Hl. rewrite (wrap_small 64) by lia. lia.
Qed.

(** What reading leaves alone. *)
Definition read_frame (c c' : client_state) : Prop :=
  sent_queue c' = sent_queue c /\ recv_queue c' = recv_queue c /\ num_packet_sent c' = num_packet_sent c.

Lemma piece_read_safe script eof bs c : reading_ok c -> bytes bs ->
  exists ret c' rest, read_stage script eof bs c = Ret (ret, c', rest) /\ reading_ok c' /\ read_frame c c' /\ bytes rest /\
    (shutdown c = true -> shutdown c' = true).
Proof.
  revert c bs. induction script as [|ev script IH]; intros c bs Hc Hb; cbn [read_stage];
    destruct (shutdown c) eqn:Hd; try (by eexists _, _, _; split; [reflexivity|]).
  pose proof (stage_bound c Hc) as [Hcap Hh]. pose proof (rd_pos _ Hc) as Hpos.
  set (size := Gatewayd.stage_size (stage c) (message_in c)) in *. rewrite (wrap_small 64) by lia.
  destruct (Gatewayd.recv_part ev eof bs (size - bytes_read c)) as [pt rest] eqn:E.
  pose proof (DaemonSafe.recv_part_rest _ _ _ _ _ _ Hb E) as Hb'.
  destruct pt as [| | |piece].
  { destruct (IH c rest Hc Hb') as (ret & c' & rest' & -> & H). rewrite Hd in H. eauto 10. }
  { eexists _, _, _. split; [reflexivity|]. by split_and!. }
  { eexists _, _, _. split; [reflexivity|]. split_and!; try done. by destruct Hc. }
  destruct (DaemonSafe.recv_part_got ev eof bs (size - bytes_read c) piece rest ltac:(lia) Hb E) as [Hlen Hbs].
  destruct (keep_piece c piece Hc Hbs ltac:(lia) ltac:(fold size; lia)) as (m & -> & Hm & Hhd). cbn [mbind outcome_bind].
  assert (H1 : reading_ok (set_bytes_read (bytes_read c + zlen piece) (set_message_in m c))) by (apply stored; auto; fold size; lia).
  set (c1 := set_bytes_read (bytes_read c + zlen piece) (set_message_in m c)) in *.
  assert (Hgo : forall c2, reading_ok c2 -> read_frame c c2 -> shutdown c2 = false ->
    exists ret c' rest', read_stage script eof rest c2 = Ret (ret, c', rest') /\ reading_ok c' /\ read_frame c c' /\ bytes rest' /\
      (false = true -> shutdown c' = true)).
  { intros c2 H2 (F1 & F2 & F3) _. destruct (IH c2 rest H2 Hb') as (ret & c' & rest' & -> & Hc' & (G1 & G2 & G3) & Hb2 & _).
    eexists _, _, _. split; [reflexivity|]. split_and!; try done. unfold read_frame. split_and!; congruence. }
  change (bytes_read c1) with (bytes_read c + zlen piece).
  destruct (Z.ltb_spec (bytes_read c + zlen piece) size) as [Hlt|Hge].
  { eexists _, _, _. split; [reflexivity|]. by split_and!. }
  change (stage c1) with (stage c). destruct (stage c) eqn:Hst.
  - destruct ((length_of m <? 0) || (MAX_PAYLOAD_SIZE <? length_of m))%bool eqn:Eb; [by apply Hgo|].
    apply Hgo; try done. apply next_part; [done|]. apply orb_false_iff in Eb as [E1 E2]. apply Z.ltb_ge in E1, E2.
    change (message_in c1) with m. destruct (Z.eqb_spec (length_of m) 0); [done|]. intros _. lia.
  - apply Hgo; try done; by apply next_part.
  - rewrite checksum_ok_spec by done. cbn [mbind outcome_bind].
    assert (Hn : reading_ok (set_stage Gatewayd.READ_HEADER (set_bytes_read 0 c1))) by (by apply next_part).
    case_match; (eexists _, _, _; split; [reflexivity|]); split_and!; try done; by destruct Hn.
Qed.

(** ** Each thread *)

Lemma enqueue_safe m q c : cli_ok c -> (q = SentQueue -> sendable m) ->
  exists r c', enqueue_message m q c = Ret (r, c') /\ cli_ok c' /\ shutdown c' = shutdown c /\ message_in c' = message_in c.
Proof.
  intros [[Hs Hr] Hse Hrd Hn] Hm.
  assert (Hq : ring_inv CLIENT_QUEUE (queue_of c q)) by (by destruct q).
  destruct (decide (r_count (queue_of c q) = CLIENT_QUEUE)) as [Ef|Ef].
  { rewrite enqueue_full by done. by eexists _, _. }
  assert (Hlt : r_count (queue_of c q) < CLIENT_QUEUE) by (destruct Hq as (_ & _ & ? & _); lia).
  destruct (enqueue_room m q c Hq Hlt) as (r & -> & Hi & Ha & _). eexists _, _. split; [reflexivity|].
  destruct q; cbn in *; (split; [|done]); split; try done; cbn.
  - rewrite Ha. apply Forall_app. split; [done|]. constructor; [by apply Hm|constructor].
  - by destruct Hrd.
  - by destruct Hrd.
Qed.

Lemma reply_built n : in_u 64 n ->
  (exists m, build_ack n = Ret m /\ sendable m) /\ (exists m, build_nack n = Ret m /\ sendable m).
Proof.
  intros Hn. split.
  - destruct (build_carries (bstr "ACK") ACK LOW n) as (m & E & Hm & _ & _ & _ & Hl & _);
      [DaemonSafe.literal|done|DaemonSafe.in_range|DaemonSafe.in_range|done|].
    exists m. split; [exact E|]. split; [done|]. rewrite Hl. split; vm_compute; discriminate.
  - destruct (build_carries (bstr "NACK") NACK LOW n) as (m & E & Hm & _ & _ & _ & Hl & _);
      [DaemonSafe.literal|done|DaemonSafe.in_range|DaemonSafe.in_range|done|].
    exists m. split; [exact E|]. split; [done|]. rewrite Hl. split; vm_compute; discriminate.
Qed.

Lemma received_frame_safe c : cli_ok c ->
  exists go c', received_frame c = Ret (go, c') /\ cli_ok c' /\ (shutdown c = true -> shutdown c' = true) /\ (go = false -> shutdown c' = true).
Proof.
  intros Hc. unfold received_frame. set (c1 := set_num_packet_recv _ c).
  assert (H1 : cli_ok c1) by (destruct Hc as [? ? [] ?]; by split; [..|split|]).
  destruct (cmd (message_in c) =? SHUTDOWN_PEER).
  { eexists _, _. split; [reflexivity|]. split; [|done]. destruct H1 as [? ? [] ?]; by split; [..|split|]. }
  destruct (_ || _)%bool; [by eexists _, _|].
  pose proof (rd_msg _ (ck_reading _ Hc)) as Hm.
  destruct (reply_built (number_packet (message_in c)) (DaemonSafe.packet_number _ Hm)) as [(a & -> & Ha) _]. cbn [mbind outcome_bind].
  destruct (enqueue_safe a SentQueue c1 H1 ltac:(done)) as (r2 & c2 & -> & H2 & E2 & _). cbn [mbind outcome_bind].
  destruct (enqueue_safe (message_in c) RecvQueue c2 H2 ltac:(done)) as (r3 & c3 & -> & H3 & E3 & _). cbn [mbind outcome_bind].
  assert (Hk : shutdown c = true -> shutdown c3 = true) by (rewrite E3, E2; done).
  destruct (r3 =? 1); [|by eexists _, _].
  destruct (enqueue_safe a SentQueue c3 H3 ltac:(done)) as (r4 & c4 & -> & H4 & E4 & _). cbn [mbind outcome_bind].
  eexists _, _. split; [reflexivity|]. split; [done|]. split; [|done]. by rewrite E4.
Qed.

Lemma recv_event_safe script eof bs c : cli_ok c -> bytes bs ->
  exists ret c1 rest go c', read_stage script eof bs c = Ret (ret, c1, rest) /\
    recv_event script eof bs c = Ret (go, c', rest) /\ cli_ok c' /\ bytes rest /\
    (shutdown c = true -> shutdown c' = true) /\ (go = false -> ret = -1 \/ shutdown c' = true).
Proof.
  intros [Hq Hs Hr Hn] Hb. destruct (piece_read_safe script eof bs c Hr Hb) as (ret & c1 & rest & E & Hr1 & (F1 & F2 & F3) & Hb1 & Hk).
  unfold recv_event. rewrite E. cbn [mbind outcome_bind].
  assert (H1 : cli_ok c1) by (split; [unfold queues_ok; by rewrite F1, F2|by rewrite F1|done|by rewrite F3]).
  destruct (Z.eqb_spec ret (-1)); [eexists _, _, _, _, _; split; [reflexivity|]; split; [reflexivity|]; by split_and!; [..|by left]|].
  destruct (ret =? 0); [eexists _, _, _, _, _; split; [reflexivity|]; split; [reflexivity|]; by split_and!|].
  destruct (ret =? 2).
  - pose proof (rd_msg _ Hr1) as Hm.
    destruct (reply_built (number_packet (message_in c1)) (DaemonSafe.packet_number _ Hm)) as [_ (a & -> & Ha)]. cbn [mbind outcome_bind].
    unfold enqueue_twice. destruct (enqueue_safe a SentQueue c1 H1 ltac:(done)) as (r2 & c2 & -> & H2 & E2 & _). cbn [mbind outcome_bind].
    destruct (enqueue_safe a SentQueue c2 H2 ltac:(done)) as (r3 & c3 & E3' & H3 & E3 & _).
    destruct (r2 =? 1); [rewrite E3'|]; cbn [mbind outcome_bind]; eexists _, _, _, _, _; (split; [reflexivity|]); (split; [reflexivity|]);
      split_and!; try done; intros Hd; rewrite ?E3, ?E2; auto.
  - destruct (received_frame_safe c1 H1) as (go & c2 & -> & H2 & Hk2 & Hg). cbn [mbind outcome_bind].
    eexists _, _, _, _, _. split; [reflexivity|]. split; [reflexivity|]. split_and!; try done; auto.
Qed.

Lemma dequeue_safe q c : cli_ok c -> 0 < r_count (queue_of c q) ->
  exists m c', dequeue_message q c = Ret (0, Some m, c') /\ cli_ok c' /\ shutdown c' = shutdown c /\
    num_packet_sent c' = num_packet_sent c /\ (q = SentQueue -> sendable m).
Proof.
  intros [[Hs Hr] Hse Hrd Hn] Hpos. assert (Hq : ring_inv CLIENT_QUEUE (queue_of c q)) by (by destruct q).
  destruct (ring_nonempty CLIENT_QUEUE _ Hq Hpos) as (m & l & Ha).
  destruct (dequeue_some q c m l Hq Ha) as (r & -> & Hi & Hl). eexists _, _. split; [reflexivity|].
  destruct q; cbn in *.
  - rewrite Ha in Hse. apply Forall_cons in Hse as [Hm Hse]. split; [|done]. split; cbn; try done; [by rewrite Hl|by destruct Hrd].
  - split; [|done]. split; cbn; try done. by destruct Hrd.
Qed.

Lemma send_iteration_safe script c : cli_ok c ->
  exists go c' out, send_iteration script c = Ret (go, c', out) /\ cli_ok c' /\ (shutdown c = true -> shutdown c' = true) /\
    (go = false -> shutdown c' = true) /\ (shutdown c = true -> go = false).
Proof.
  intros Hc. unfold send_iteration. destruct (shutdown c) eqn:Hd; [by eexists _, _, _|].
  destruct (Z.ltb_spec 0 (r_count (sent_queue c))) as [Hpos|]; [|by eexists _, _, _].
  destruct (dequeue_safe SentQueue c Hc Hpos) as (m & c1 & -> & H1 & E1 & En & Hm). cbn [mbind outcome_bind].
  destruct (Hm eq_refl) as [Hw Hl]. rewrite send_framed_wire by done.
  destruct (send_all script (wire m) 0) as [[ret out] sc]. cbn [mbind outcome_bind].
  assert (forall c2, c2 = set_shutdown true c1 \/ c2 = set_num_packet_sent (u64 (num_packet_sent c1 + 1)) c1 -> cli_ok c2) as Hk.
  { destruct H1 as [? ? [] ?]. intros c2 [->| ->]; split; cbn; try done; apply (wrap_range 64); lia. }
  destruct (ret =? 1); eexists _, _, _; (split; [reflexivity|]); split_and!; try done; auto.
Qed.

Lemma worker_iteration_safe c : cli_ok c ->
  exists go c' m, worker_iteration c = Ret (go, c', m) /\ cli_ok c' /\ shutdown c' = shutdown c /\ (shutdown c = true -> go = false).
Proof.
  intros Hc. unfold worker_iteration. destruct (shutdown c) eqn:Hd; [by eexists _, _, _|].
  destruct (Z.ltb_spec 0 (r_count (recv_queue c))) as [Hpos|]; [|by eexists _, _, _].
  destruct (dequeue_safe RecvQueue c Hc Hpos) as (m & c1 & -> & H1 & E1 & _). cbn [mbind outcome_bind].
  eexists _, _, _. split; [reflexivity|]. by rewrite E1.
Qed.

Lemma task_iteration_safe rand r1 r2 r3 c : cli_ok c ->
  exists go c', task_create_iteration rand r1 r2 r3 c = Ret (go, c') /\ cli_ok c' /\ shutdown c' = shutdown c /\
    (shutdown c = true -> go = false).
Proof.
  intros Hc. unfold task_create_iteration. destruct (shutdown c) eqn:Hd; [by eexists _, _|].
  destruct (negb (CLIENT_QUEUE <=? r_count (sent_queue c))); [|by eexists _, _].
  unfold create_mesage_random. pose proof (Z.mod_pos_bound rand 5 ltac:(lia)) as Hi.
  destruct (random_payload_ok (rand mod 5) r1 r2 r3 Hi) as (ts & p & -> & Hts & Hlen & Hp).
  destruct (concat_short ts Hts) as [Ht Hl].
  destruct (build_carries (concat ts) (rand mod 5) p (num_packet_sent c)) as (m & -> & Hwf & _ & _ & _ & Hlm & _);
    [done|unfold MAX_PAYLOAD_SIZE; lia|split; lia|split; destruct Hp as [-> |[-> | ->]]; by vm_compute|apply Hc|].
  cbn [mbind outcome_bind]. destruct (enqueue_safe m SentQueue c Hc) as (r & c' & -> & H' & E' & _).
  { intros _. split; [done|]. rewrite Hlm. pose proof (zlen_nonneg (concat ts)). unfold MAX_PAYLOAD_SIZE. lia. }
  cbn [mbind outcome_bind]. eexists _, _. split; [reflexivity|]. by rewrite E'.
Qed.

Lemma sig_term_safe script c : cli_ok c ->
  exists c' out, sig_term script c = Ret (c', out) /\ cli_ok c' /\ shutdown c' = true.
Proof.
  intros Hc. unfold sig_term.
  destruct (build_carries (bstr "client shutting down") SHUTDOWN_PEER HIGH (num_packet_sent c)) as (m & -> & Hm & _ & _ & _ & Hl & _);
    [DaemonSafe.literal|done|DaemonSafe.in_range|DaemonSafe.in_range|apply Hc|]. cbn [mbind outcome_bind].
  rewrite send_framed_wire; [|done|rewrite Hl; split; vm_compute; discriminate]. destruct (send_all script (wire m) 0) as [[r out] sc].
  cbn [mbind outcome_bind]. eexists _, _. split; [reflexivity|]. split; [|done]. destruct Hc as [? ? [] ?]; by split; [..|split|].
Qed.

(** ** The process *)

(** The signal thread only returns with the flag set and the main thread awake. *)
Record process_ok (p : process) : Prop := {
  po_cst : cli_ok (cst p);
  po_stream : bytes (stream p);
  po_sig : sig_on p = false -> shutdown (cst p) = true /\ main p <> MSleep;
  po_join : main p = MJoin -> shutdown (cst p) = true;
  po_end : main p = MEnd -> sig_on p = false }.

Definition event_ok (ev : event) : Prop := match ev with Arrive bs => bytes bs | _ => True end.

(** A step of a thread other than the signal thread: the flag is never taken back, and
    main sleeps no deeper than before. *)
Lemma process_move p p' : process_ok p -> cli_ok (cst p') -> bytes (stream p') -> sig_on p' = sig_on p ->
  (shutdown (cst p) = true -> shutdown (cst p') = true) ->
  (main p' = main p \/ main p = MSleep /\ main p' = MTest) -> process_ok p'.
Proof.
  intros [H1 H2 H3 H4 H5] Hc Hb Es Hk Hm. split; [done|done|..]; rewrite ?Es.
  - intros E. destruct (H3 E) as [Hd Hn]. split; [by apply Hk|]. destruct Hm as [->|[E' _]]; done.
  - intros E. destruct Hm as [E'|[_ E']]; [apply Hk, H4; congruence|congruence].
  - intros E. destruct Hm as [E'|[_ E']]; [apply H5; congruence|congruence].
Qed.

Lemma broadcast_main p : main (broadcast p) = main p \/ main p = MSleep /\ main (broadcast p) = MTest.
Proof. unfold broadcast. cbn. destruct (main p); auto. Qed.

Lemma step_safe ev p : process_ok p -> event_ok ev -> exists r, step ev p = Ret r /\ forall p', r = Some p' -> process_ok p'.
Proof.
  intros Hp He. pose proof (po_cst _ Hp) as Hc. pose proof (po_stream _ Hp) as Hb. destruct ev; cbn [step].
  - destruct (sig_on p) eqn:Es; [|by eexists]. unfold sig_thread. destruct (sig_term_safe script (cst p) Hc) as (c & out & -> & H1 & H2).
    cbn [mbind outcome_bind]. eexists. split; [done|]. intros p' [= <-]. unfold broadcast. destruct Hp.
    split; cbn; try done; destruct (main p); done.
  - destruct (recv_on p) eqn:Es; [|by eexists]. unfold recv_thread. destruct (shutdown (cst p)) eqn:Ed.
    { eexists. split; [done|]. intros p' [= <-]. apply (process_move p); auto; done. }
    destruct (recv_event_safe script eof (stream p) (cst p) Hc Hb) as (ret & c1 & rest & go & c & -> & -> & H1 & H2 & H3 & H4).
    cbn [mbind outcome_bind]. destruct go; [|destruct (ret =? -1)]; (eexists; split; [done|]); intros p' [= <-];
      apply (process_move p); try done; auto. exact (broadcast_main (set_stream rest (set_cst c p))).
  - eexists. split; [done|]. intros p'. destruct (recv_on p); [|done]. intros [= <-]. apply (process_move p); auto; done.
  - destruct (send_on p); [|by eexists]. unfold send_thread. destruct (send_iteration_safe script (cst p) Hc) as (go & c & out & -> & H1 & H2 & H3 & _).
    cbn [mbind outcome_bind]. destruct go; [|destruct (shutdown (cst p))]; (eexists; split; [done|]); intros p' [= <-];
      apply (process_move p); try done; auto. exact (broadcast_main (set_written (written p ++ out) (set_cst c p))).
  - destruct (work_on p); [|by eexists]. unfold worker_thread. destruct (worker_iteration_safe (cst p) Hc) as (go & c & m & -> & H1 & H2 & _).
    cbn [mbind outcome_bind]. eexists. split; [done|]. intros p' [= <-]. apply (process_move p); destruct go; cbn; try done; auto; congruence.
  - destruct (task_on p); [|by eexists]. unfold task_create_thread. destruct (task_iteration_safe rand r1 r2 r3 (cst p) Hc) as (go & c & -> & H1 & H2 & _).
    cbn [mbind outcome_bind]. eexists. split; [done|]. intros p' [= <-]. apply (process_move p); destruct go; cbn; try done; auto; congruence.
  - eexists. split; [done|]. unfold main_thread. destruct Hp as [P1 P2 P3 P4 P5]. intros p'. destruct (main p) eqn:Em; try done.
    + intros [= <-]. destruct (shutdown (cst p)) eqn:Ed; split; cbn; try done. intros E. by destruct (P3 E).
    + destruct (sig_on p) eqn:Es; [done|]. destruct (_ || _)%bool; [done|]. intros [= <-]. split; cbn; try done. intros _. by destruct (P3 eq_refl).
  - eexists. split; [done|]. intros p' [= <-]. apply (process_move p); auto; cbn; try done. by apply Forall_app.
  - eexists. split; [done|]. intros p'. destruct (main p) eqn:Em; try done. intros [= <-]. apply (process_move p); auto; done.
Qed.

Lemma run_safe evs p : process_ok p -> Forall event_ok evs -> exists p', run evs p = Ret p' /\ process_ok p'.
Proof.
  intros Hp He. revert p Hp. induction He as [|ev evs Hev _ IH]; intros p Hp; cbn [run]; [by exists p|].
  destruct (step_safe ev p Hp Hev) as (r & -> & Hr). cbn [mbind outcome_bind]. destruct r as [p1|]; cbn [default]; apply IH; auto.
Qed.

Lemma token_built : exists m, build_message fixed_token IDENTIFY HIGH 0 = Ret m /\ sendable m.
Proof.
  destruct (build_carries fixed_token IDENTIFY HIGH 0) as (m & E & Hm & _ & _ & _ & Hl & _);
    [DaemonSafe.literal|done|split; by vm_compute|DaemonSafe.in_range|split; lia|].
  exists m. split; [exact E|]. split; [done|]. rewrite Hl. split; vm_compute; discriminate.
Qed.

Lemma zero_state_ok : cli_ok zero_state.
Proof.
  assert (Hz : ring_inv CLIENT_QUEUE (sent_queue zero_state)) by (split_and!; [done|done|done|done|vm_compute; discriminate|done]).
  split; [by split|apply Forall_nil; done| |by vm_compute].
  split; [apply DaemonSafe.zero_message_wf|by vm_compute|done].
Qed.

Lemma start_safe script : exists r, start script = Ret r /\ forall p, r = Some p -> process_ok p.
Proof.
  unfold start, init_client. pose proof zero_state_ok as Hz. generalize dependent zero_state. intros z Hz.
  destruct token_built as (m & E & Hm & Hl). cbn [num_packet_sent set_shutdown set_num_packet_sent]. rewrite E. clear E. cbn [mbind outcome_bind].
  rewrite send_framed_wire by done. destruct (send_all script (wire m) 0) as [[r out] sc].
  cbn [mbind outcome_bind]. eexists. split; [done|]. intros p E'. destruct (_ =? -1); [done|]. injection E' as <-.
  destruct Hz as [? ? [] ?]. split; [|constructor|done|done|done]. by split; [..|split|].
Qed.

(** Every state the client can be in. *)
Definition reachable (p : process) : Prop :=
  exists script p0 evs, start script = Ret (Some p0) /\ Forall event_ok evs /\ run evs p0 = Ret p.

Lemma reachable_client_ok p : reachable p -> process_ok p.
Proof.
  intros (script & p0 & evs & E & He & Hr). destruct (start_safe script) as (r & E' & H). rewrite E in E'. injection E' as <-.
  destruct (run_safe evs p0 (H p0 eq_refl) He) as (p' & E2 & Hp). congruence.
Qed.

Lemma step_keeps_sig ev p p' : match ev with Sig _ => False | _ => True end -> step ev p = Ret (Some p') -> sig_on p' = sig_on p.
Proof.
  intros Hev E. destruct ev; cbn [step] in E; try done.
  - destruct (recv_on p); [|done]. peel E as x Ex. injection E as <-. unfold recv_thread in Ex. destruct (shutdown (cst p)); [by injection Ex as <-|].
    peel Ex as y Ey. destruct y as [[ret c0] s0]. peel Ex as z Ez. destruct z as [[go c] rest]. destruct go; [by injection Ex as <-|].
    destruct (ret =? -1); by injection Ex as <-.
  - injection E as E. destruct (recv_on p); [|done]. by injection E as <-.
  - destruct (send_on p); [|done]. peel E as x Ex. injection E as <-. unfold send_thread in Ex. peel Ex as y Ey. destruct y as [[go c] out].
    destruct go; [by injection Ex as <-|]. destruct (shutdown (cst p)); by injection Ex as <-.
  - destruct (work_on p); [|done]. peel E as x Ex. injection E as <-. unfold worker_thread in Ex. peel Ex as y Ey. destruct y as [[go c] m].
    destruct go; by injection Ex as <-.
  - destruct (task_on p); [|done]. peel E as x Ex. injection E as <-. unfold task_create_thread in Ex. peel Ex as y Ey. destruct y as [go c].
    destruct go; by injection Ex as <-.
  - injection E as E. unfold main_thread in E. destruct (main p); try done; [by injection E as <-|]. destruct (_ || _)%bool; [done|]. by injection E as <-.
  - by injection E as <-.
  - injection E as E. destruct (main p); try done. by injection E as <-.
Qed.

(** ** The end *)

Definition on (b : bool) : nat := if b then 1 else 0.
Definition threads_left (p : process) : nat :=
  on (sig_on p) + on (recv_on p) + on (send_on p) + on (work_on p) + on (task_on p) +
  match main p with MTest => 2 | MSleep => 3 | MJoin => 1 | MEnd => 0 end.

Definition ended (p : process) : Prop :=
  sig_on p = false /\ recv_on p = false /\ send_on p = false /\ work_on p = false /\ task_on p = false /\ main p = MEnd.

(** With the signal taken every step is the last one of its thread. *)
Lemma leaving_step ev p p' : process_ok p -> event_ok ev -> sig_on p = false -> step ev p = Ret (Some p') ->
  sig_on p' = false /\ (threads_left p' < threads_left p \/ (exists bs, ev = Arrive bs) /\ threads_left p' = threads_left p)%nat.
Proof.
  intros Hp He Hs E. destruct (po_sig _ Hp Hs) as [Hd Hm]. pose proof (po_cst _ Hp) as Hc. unfold threads_left.
  destruct ev; cbn [step] in E; rewrite ?Hs in E.
  - done.
  - destruct (recv_on p) eqn:Er; [|done]. unfold recv_thread in E. rewrite Hd in E. injection E as <-. cbn. rewrite ?Er. split; [done|cbn; lia].
  - destruct (recv_on p) eqn:Er; [|done]. injection E as <-. cbn. rewrite ?Er. split; [done|cbn; lia].
  - destruct (send_on p) eqn:Er; [|done]. unfold send_thread, send_iteration in E. rewrite Hd in E. injection E as <-. cbn. rewrite ?Er. split; [done|cbn; lia].
  - destruct (work_on p) eqn:Er; [|done]. unfold worker_thread, worker_iteration in E. rewrite Hd in E. injection E as <-. cbn. rewrite ?Er. split; [done|cbn; lia].
  - destruct (task_on p) eqn:Er; [|done]. unfold task_create_thread, task_create_iteration in E. rewrite Hd in E. injection E as <-. cbn. rewrite ?Er. split; [done|cbn; lia].
  - injection E as E. unfold main_thread in E. destruct (main p) eqn:Em; try done.
    + rewrite Hd in E. injection E as <-. cbn. split; [done|lia].
    + destruct (_ || _)%bool; [done|]. injection E as <-. cbn. split; [done|lia].
  - injection E as <-. split; [done|]. right. split; [by eexists|done].
  - injection E as E. destruct (main p); try done.
Qed.

Lemma leaving_able p : process_ok p -> sig_on p = false ->
  ended p \/ exists ev p', (forall bs, ev <> Arrive bs) /\ event_ok ev /\ step ev p = Ret (Some p').
Proof.
  intros Hp Hs. destruct (po_sig _ Hp Hs) as [Hd Hm].
  destruct (recv_on p) eqn:E1; [right; exists (Recv [] false); eexists; split; [done|]; cbn; unfold recv_thread; by rewrite E1, Hd|].
  destruct (send_on p) eqn:E2; [right; exists (Send []); eexists; split; [done|]; cbn; unfold send_thread, send_iteration; by rewrite E2, Hd|].
  destruct (work_on p) eqn:E3; [right; exists Work; eexists; split; [done|]; cbn; unfold worker_thread, worker_iteration; by rewrite E3, Hd|].
  destruct (task_on p) eqn:E4; [right; exists (Task 0 0 0 0); eexists; split; [done|]; cbn; unfold task_create_thread, task_create_iteration; by rewrite E4, Hd|].
  destruct (main p) eqn:Em; [right; exists Main; eexists; split; [done|]; cbn; unfold main_thread; by rewrite Em|done| |by left].
  right. exists Main. eexists. split; [done|]. cbn. unfold main_thread. by rewrite Em, Hs, E1, E2, E3, E4.
Qed.

(** ** Properties *)



(** Nothing but a signal ends the client: when the daemon announces its end or closes the
    connection the other threads return, but main joins the signal thread, or is not even
    woken. *)
Theorem only_a_signal_ends p evs p' :
  reachable p -> sig_on p = true -> Forall event_ok evs -> Forall (fun ev => match ev with Sig _ => False | _ => True end) evs ->
  run evs p = Ret p' -> sig_on p' = true /\ main p' <> MEnd.
Proof.
  intros Hp%reachable_client_ok Hs He Hn E.
  assert (sig_on p' = true /\ process_ok p') as [H1 H2].
  2: { split; [done|]. intros Em. apply (po_end _ H2) in Em. congruence. }
  revert p Hp Hs E. induction He as [|ev evs Hev _ IH]; intros p Hp Hs E; cbn [run] in E; [by injection E as <-|].
  apply Forall_cons in Hn as [Hnev Hn]. destruct (step_safe ev p Hp Hev) as (r & Er & Hr). rewrite Er in E. cbn [mbind outcome_bind] in E.
  apply (IH Hn (default p r)); [destruct r; cbn; auto| |done]. destruct r as [p1|]; [|done]. cbn. by rewrite (step_keeps_sig ev p p1).
Qed.

(** With the flag set and the receiver gone no step wakes main. *)
Lemma asleep_step ev p p' : match ev with Sig _ | Spurious => False | _ => True end ->
  shutdown (cst p) = true -> recv_on p = false -> main p = MSleep -> step ev p = Ret (Some p') ->
  shutdown (cst p') = true /\ recv_on p' = false /\ main p' = MSleep.
Proof.
  intros Hev Hd Hr Hm E. destruct ev; cbn [step] in E; try done.
  - by rewrite Hr in E.
  - by rewrite Hr in E.
  - destruct (send_on p); [|done]. unfold send_thread, send_iteration in E. rewrite Hd in E. by injection E as <-.
  - destruct (work_on p); [|done]. unfold worker_thread, worker_iteration in E. rewrite Hd in E. by injection E as <-.
  - destruct (task_on p); [|done]. unfold task_create_thread, task_create_iteration in E. rewrite Hd in E. by injection E as <-.
  - injection E as E. unfold main_thread in E. by rewrite Hm in E.
  - by injection E as <-.
Qed.

(** ** Concrete runs *)

(** One call takes the whole identification. *)
Definition begun : process :=
  match start [TxAccept 2000] with
  | Ret (Some p) => p
  | _ => Process zero_state true true true true true MTest [] [] []
  end.

Lemma begun_reachable evs p : Forall event_ok evs -> run evs begun = Ret p -> reachable p.
Proof.
  intros He E. exists [TxAccept 2000], begun, evs. split_and!; [|done|done]. vm_compute. reflexivity.
Qed.

(** A command is created and sent, rubbish arrives and is read. *)
Definition working : list event :=
  [Task 1 2 3 4; Send [TxAccept 2000]; Arrive (replicate 30 255); Main; Recv [RxChunk 24; RxChunk 10] false; Work].

Lemma working_ok : Forall event_ok working.
Proof. repeat (apply Forall_cons; split; [exact I || (apply Forall_replicate; red; lia)|]). by apply Forall_nil. Qed.

Definition worked : process := match run working begun with Ret p => p | Undef => begun end.

Lemma worked_reachable : reachable worked.
Proof. apply (begun_reachable working); [apply working_ok|]. vm_compute. reflexivity. Qed.


(** Interrupted. *)
Definition stopped : process := match run (working ++ [Sig []]) begun with Ret p => p | Undef => begun end.

Lemma stopped_reachable : reachable stopped.
Proof.
  apply (begun_reachable (working ++ [Sig []])).
  - apply Forall_app. split; [apply working_ok|]. by apply Forall_singleton.
  - vm_compute. reflexivity.
Qed.


(** The daemon closes the connection while main waits: the flag is set, and nothing
    wakes main any more. *)
Theorem lost_connection_hangs :
  exists p, reachable p /\ shutdown (cst p) = true /\ recv_on p = false /\ main p = MSleep /\
    forall evs p', Forall event_ok evs -> Forall (fun ev => match ev with Sig _ | Spurious => False | _ => True end) evs ->
      run evs p = Ret p' -> main p' = MSleep.
Proof.
  set (evs := [Main; Recv [RxChunk 1] true]). set (p := match run evs begun with Ret p => p | Undef => begun end).
  assert (Hp : reachable p).
  { apply (begun_reachable evs); [by repeat constructor|]. vm_compute. reflexivity. }
  exists p. split; [done|]. split; [vm_compute; reflexivity|]. split; [vm_compute; reflexivity|].
  assert (Hd : shutdown (cst p) = true) by (vm_compute; reflexivity). assert (Hr : recv_on p = false) by (vm_compute; reflexivity).
  assert (Hm : main p = MSleep) by (vm_compute; reflexivity). split; [done|]. apply reachable_client_ok in Hp. clearbody p. clear evs.
  intros evs p' He Hn E. revert p Hp Hd Hr Hm E. induction He as [|ev evs Hev _ IH]; intros p Hp Hd Hr Hm E; cbn [run] in E; [by injection E as <-|].
  apply Forall_cons in Hn as [Hnev Hn]. destruct (step_safe ev p Hp Hev) as (r & Er & Hok). rewrite Er in E. cbn [mbind outcome_bind] in E.
  destruct r as [p1|]; cbn [default] in E; [|by apply (IH Hn p)].
  destruct (asleep_step ev p p1) as (D1 & D2 & D3); try done. apply (IH Hn p1); auto.
Qed.

End CliMain.
