(* ===== verification/Config.v ===== *)
(** * The safe configuration tool

    [safe-config-tool/main.c]: reading a parameter of a [key=value] file, and
    changing one by writing a copy that is renamed over the file.  The file
    system is a map from paths to contents; a run is the list of operations it
    performs on it, so that what an interruption leaves behind is the effect of
    a prefix of that list. *)
From S2P Require Import Prelude.
Open Scope c_scope.

Module Config.

Definition MAX_PATH_NAME : Z := 256.
Definition BUFFER_SIZE : Z := 256.
Definition EACCES : Z := 13.
Definition EBUSY : Z := 16.
Definition EINTR : Z := 4.

Definition LF : Z := 10.
Definition CR : Z := 13.
Definition HASH : Z := 35.
Definition EQUALS : Z := 61.

(** ** Lines *)

Fixpoint split_lines (bs : list Z) : list (list Z) :=
  match bs with
  | [] => [[]]
  | b :: bs =>
      if b =? LF then [] :: split_lines bs
      else match split_lines bs with l :: ls => (b :: l) :: ls | [] => [[b]] end
  end.

(** The tokens of [strtok_r(.., "\n", ..)]: the non-empty lines. *)
Definition strtok_lines (buf : list Z) : list (list Z) :=
  List.filter (fun l => negb (bool_decide (l = []))) (split_lines (c_string buf)).

(** [if (len > 0 && p[len-1] == '\r') p[len-1] = 0] *)
Definition strip_cr (p : list Z) : list Z :=
  match last p with Some b => if b =? CR then removelast p else p | None => p end.

(** [strchr(p, '=')]: what is before and behind it. *)
Fixpoint split_eq (p : list Z) : option (list Z * list Z) :=
  match p with
  | [] => None
  | b :: p =>
      if b =? EQUALS then Some ([], p)
      else match split_eq p with Some (k, v) => Some (b :: k, v) | None => None end
  end.

(** The key and value of a line that is neither empty nor a comment. *)
Definition setting (p : list Z) : option (list Z * list Z) :=
  match p with
  | [] => None
  | b :: _ => if b =? HASH then None else split_eq p
  end.

(** ** Reading *)

Fixpoint find_param (ls : list (list Z)) (param : list Z) : option (list Z) :=
  match ls with
  | [] => None
  | p :: ls =>
      match setting (strip_cr p) with
      | Some (k, v) => if bool_decide (param = k) then Some v else find_param ls param
      | None => find_param ls param
      end
  end.

(** [read(fd, buf, sizeof(buf) - 1)] on a regular file, with its error. *)
Definition read_file (err : option Z) (content : list Z) : Z * list Z :=
  match err with
  | Some _ => (-1, [])
  | None => (Z.min (zlen content) (BUFFER_SIZE - 1), take (Z.to_nat (BUFFER_SIZE - 1)) content)
  end.

(** How a run ends. *)
Inductive ending := Exits | Returns (r : Z).

(** [buf[read_byte] = 0] with [read_byte == -1] is outside the buffer. *)
Definition terminate (read_byte : Z) : outcome unit :=
  if ((0 <=? read_byte) && (read_byte <? BUFFER_SIZE))%bool then Ret tt else Undef.


(** [lock] is whether [flock] succeeds.  The value printed, if the parameter is found. *)
Definition read_param_config (lock : bool) (err : option Z) (fs : gmap (list Z) (list Z)) (path param : list Z) :
    outcome (ending * option (list Z)) :=
  match fs !! path with
  | None => Ret (Exits, None)
  | Some content =>
      if negb lock then Ret (Exits, None)
      else
        let '(read_byte, buf) := read_file err content in
        if read_byte =? 0 then Ret (Exits, None)
        else if bool_decide (err = Some EINTR) then Ret (Returns (-1), None)
        else
          _ ← terminate read_byte;
          Ret (Returns 0, find_param (strtok_lines buf) param)
  end.

(** ** Writing *)

Inductive op :=
| Create (path : list Z)
| WriteAt (path : list Z) (off : Z) (bs : list Z)
| Rename (from to : list Z)
| Unlink (path : list Z).

(** A write behind the end of a file leaves zeros in between. *)
Definition overwrite (content : list Z) (off : Z) (bs : list Z) : list Z :=
  take (Z.to_nat off) (content ++ replicate (Z.to_nat off) 0) ++ bs ++
  drop (Z.to_nat off + length bs) content.

Definition perform (o : op) (fs : gmap (list Z) (list Z)) : gmap (list Z) (list Z) :=
  match o with
  | Create p => match fs !! p with Some _ => fs | None => <[p := []]> fs end
  | WriteAt p off bs =>
      match fs !! p with Some content => <[p := overwrite content off bs]> fs | None => fs end
  | Rename p q =>
      match fs !! p with Some content => <[q := content]> (delete p fs) | None => fs end
  | Unlink p => delete p fs
  end.

Definition perform_all (ops : list op) (fs : gmap (list Z) (list Z)) : gmap (list Z) (list Z) := foldl (fun fs o => perform o fs) fs ops.

(** [snprintf(.., MAX_PATH_NAME, "%s<suffix>", path)] *)
Definition sibling (path suffix : list Z) : list Z := take (Z.to_nat (MAX_PATH_NAME - 1)) (path ++ suffix).

Definition back_up_path (path : list Z) : list Z := sibling path (bstr ".bak").
Definition tmp_file (path : list Z) : list Z := sibling path (bstr ".tmp").

(** The loop of [back_up_file]: [copy] answers how much each call copies at most.
    The call moves both offsets itself, and the loop moves them again. *)
Fixpoint copy_loop (fuel : nat) (copy : nat -> Z) (content : list Z) (out : list Z)
    (off_in off_out remaining : Z) : outcome (list op) :=
  match fuel with
  | O => Undef
  | S fuel =>
      let ret := Z.max 0 (Z.min (copy 0%nat) (Z.min remaining (zlen content - off_in))) in
      let o := WriteAt out off_out (take (Z.to_nat ret) (drop (Z.to_nat off_in) content)) in
      let remaining := remaining - ret in
      if 0 <? remaining then
        ops ← copy_loop fuel (fun n => copy (S n)) content out (off_in + ret + ret) (off_out + ret + ret) remaining;
        Ret (o :: ops)
      else Ret [o]
  end.

Definition back_up_file (fuel : nat) (copy : nat -> Z) (content path : list Z) : outcome (list op) :=
  let out := back_up_path path in
  ops ← copy_loop fuel copy content out 0 0 (zlen content);
  Ret (Create out :: ops).

(** [n = snprintf(tmp, MAX_PATH_NAME, ..); write(fd, tmp, n)]: the length that
    [snprintf] returns is that of the whole text, also when it did not fit. *)
Definition write_formatted (text : list Z) : outcome (list Z) :=
  if zlen text <? MAX_PATH_NAME then Ret text
  else if zlen text =? MAX_PATH_NAME then Ret (take (Z.to_nat (MAX_PATH_NAME - 1)) text ++ [0])
  else Undef.

Definition assignment (param value : list Z) : list Z := param ++ [EQUALS] ++ value ++ [LF].

(** The bytes each line contributes, and whether the parameter was found. *)
Fixpoint rewrite_lines (param value : list Z) (ls : list (list Z)) : outcome (bool * list (list Z)) :=
  match ls with
  | [] => Ret (false, [])
  | p :: ls =>
      let p := strip_cr p in
      let keep := '(found, ws) ← rewrite_lines param value ls; Ret (found, p :: [LF] :: ws) in
      match setting p with
      | Some (k, _) =>
          if bool_decide (param = k) then
            w ← write_formatted (assignment k value);
            '(_, ws) ← rewrite_lines param value ls; Ret (true, w :: ws)
          else keep
      | None => keep
      end
  end.

(** Consecutive writes to one file from offset [off] on. *)
Fixpoint writes_from (path : list Z) (off : Z) (ws : list (list Z)) : list op :=
  match ws with
  | [] => []
  | w :: ws => WriteAt path off w :: writes_from path (off + zlen w) ws
  end.

(** All writes to the copy. *)
Definition new_lines (param value : list Z) (buf : list Z) : outcome (list (list Z)) :=
  '(found, ws) ← rewrite_lines param value (strtok_lines buf);
  if found : bool then Ret ws
  else w ← write_formatted (assignment param value); Ret (ws ++ [w]).

(** [rename] with its error: the operations, and whether [safe_write_file] exits. *)
Definition safe_write_file (err : option Z) (tmp target : list Z) : bool * list op :=
  match err with
  | None => (false, [Rename tmp target])
  | Some e => (((e =? EACCES) || (e =? EBUSY))%bool, [])
  end.

(** What the system calls answer. *)
Record answers := Answers {
  a_lock : bool; a_copy : nat -> Z; a_read : option Z; a_fsync : bool; a_rename : option Z }.

Definition write_param_config (fuel : nat) (a : answers) (fs : gmap (list Z) (list Z)) (path param value : list Z) :
    outcome (ending * list op) :=
  match fs !! path with
  | None => Ret (Exits, [])
  | Some content =>
      if negb (a_lock a) then Ret (Exits, [])
      else
        backup ← back_up_file fuel (a_copy a) content path;
        let '(read_byte, buf) := read_file (a_read a) content in
        if read_byte =? 0 then Ret (Exits, backup)
        else if bool_decide (a_read a = Some EINTR) then Ret (Exits, backup)
        else
          let tmp := tmp_file path in
          _ ← terminate read_byte;
          ws ← new_lines param value buf;
          let copied := backup ++ Create tmp :: writes_from tmp 0 ws in
          if negb (a_fsync a) then Ret (Returns (-1), copied ++ [Unlink tmp])
          else
            let '(exits, renamed) := safe_write_file (a_rename a) tmp path in
            if exits : bool then Ret (Exits, copied ++ renamed)
            else Ret (Returns 0, copied ++ renamed ++ [Unlink (back_up_path path)])
  end.

End Config.
