(* ===== verification/ConfigSafe.v ===== *)
(** * The safe configuration tool: atomicity and round trip

    At every moment of a write the file holds its old or its complete new
    content; what was written is read back and every other parameter is kept;
    then the inputs for which the tool is not safe. *)
From S2P Require Import Prelude Config.
Import Config.
Open Scope c_scope.

Module ConfigSafe.

(** ** The file system *)

(** The path an operation may change. *)
Definition changes (o : op) (path : list Z) : Prop :=
  match o with
  | Create p | WriteAt p _ _ | Unlink p => p = path
  | Rename p q => p = path \/ q = path
  end.

Lemma perform_other o fs path : ~ changes o path -> perform o fs !! path = fs !! path.
Proof.
  destruct o as [p|p off bs|p q|p]; cbn [changes perform]; intros H.
  - destruct (fs !! p); [done|]. by rewrite lookup_insert_ne.
  - destruct (fs !! p); [|done]. by rewrite lookup_insert_ne.
  - apply Decidable.not_or in H as [H1 H2]. destruct (fs !! p); [|done].
    by rewrite lookup_insert_ne, lookup_delete_ne.
  - by rewrite lookup_delete_ne.
Qed.

Lemma perform_all_cons o ops fs : perform_all (o :: ops) fs = perform_all ops (perform o fs).
Proof. done. Qed.

Lemma perform_all_other ops fs path :
  Forall (fun o => ~ changes o path) ops -> perform_all ops fs !! path = fs !! path.
Proof.
  intros H. revert fs. induction H as [|o ops Ho _ IH]; intros fs; [done|].
  by rewrite perform_all_cons, IH, perform_other.
Qed.

Lemma perform_all_app ops ops' fs : perform_all (ops ++ ops') fs = perform_all ops' (perform_all ops fs).
Proof. apply foldl_app. Qed.

Lemma overwrite_after (pre rest bs : list Z) :
  overwrite (pre ++ rest) (zlen pre) bs = pre ++ bs ++ drop (length bs) rest.
Proof.
  unfold overwrite, zlen. rewrite Nat2Z.id, <- app_assoc. rewrite take_app_length.
  rewrite drop_app_ge by lia. do 3 f_equal. lia.
Qed.

(** Consecutive writes replace the bytes they cover. *)
Lemma writes_content p ws fs pre rest :
  fs !! p = Some (pre ++ rest) ->
  perform_all (writes_from p (zlen pre) ws) fs !! p
  = Some (pre ++ concat ws ++ drop (length (concat ws)) rest).
Proof.
  revert fs pre rest. induction ws as [|w ws IH]; intros fs pre rest Hp; [done|].
  cbn [writes_from concat]. rewrite perform_all_cons. cbn [perform]. rewrite Hp, overwrite_after.
  replace (zlen pre + zlen w) with (zlen (pre ++ w)) by (rewrite zlen_app; lia).
  rewrite (IH _ (pre ++ w) (drop (length w) rest)).
  - rewrite length_app, drop_drop, <- !app_assoc. done.
  - rewrite lookup_insert_eq, <- app_assoc. done.
Qed.

(** ** The paths *)

Definition path_ok (path : list Z) : Prop := zlen path <= MAX_PATH_NAME - 5.

Lemma sibling_fits path s : path_ok path -> zlen s = 4 -> sibling path s = path ++ s.
Proof.
  unfold path_ok, sibling, MAX_PATH_NAME, zlen. intros Hp Hs. apply take_ge. rewrite length_app. lia.
Qed.

Lemma sibling_ne path s : path_ok path -> zlen s = 4 -> sibling path s <> path.
Proof.
  intros Hp Hs E. rewrite sibling_fits in E by done. apply (f_equal length) in E.
  rewrite length_app in E. unfold zlen in Hs. lia.
Qed.

Lemma tmp_ne_path path : path_ok path -> tmp_file path <> path.
Proof. intros H. by apply sibling_ne. Qed.

Lemma bak_ne_path path : path_ok path -> back_up_path path <> path.
Proof. intros H. by apply sibling_ne. Qed.

Lemma bak_ne_tmp path : path_ok path -> back_up_path path <> tmp_file path.
Proof.
  intros H. unfold back_up_path, tmp_file. rewrite !sibling_fits by done. intros E%app_inv_head.
  by vm_compute in E.
Qed.

(** ** Which paths a run changes *)

Lemma copy_loop_other fuel copy content out path i o r ops :
  out <> path -> copy_loop fuel copy content out i o r = Ret ops -> Forall (fun o => ~ changes o path) ops.
Proof.
  intros Hne. revert copy i o r ops. induction fuel as [|fuel IH]; intros copy i o r ops H; [done|].
  cbn [copy_loop] in H. destruct (0 <? _).
  - peel H as rest E. injection H as <-. constructor; [done|]. by eapply IH.
  - injection H as <-. by repeat constructor.
Qed.

Lemma back_up_other fuel copy content path q ops :
  back_up_path path <> q -> back_up_file fuel copy content path = Ret ops ->
  Forall (fun o => ~ changes o q) ops.
Proof.
  intros Hne H. unfold back_up_file in H. peel H as rest E. injection H as <-.
  constructor; [done|]. by eapply copy_loop_other.
Qed.

Lemma writes_other p off ws path : p <> path -> Forall (fun o => ~ changes o path) (writes_from p off ws).
Proof. intros Hne. revert off. induction ws as [|w ws IH]; intros off; constructor; [done|apply IH]. Qed.

(** The content of the temporary file when it is complete; [stale] is what a file
    of that name held before. *)
Definition completed (ws : list (list Z)) (stale : list Z) : list Z :=
  concat ws ++ drop (length (concat ws)) stale.

Lemma copied_spec fuel a content path ws backup fs :
  path_ok path -> back_up_file fuel (a_copy a) content path = Ret backup ->
  let copied := backup ++ Create (tmp_file path) :: writes_from (tmp_file path) 0 ws in
  Forall (fun o => ~ changes o path) copied /\
  perform_all copied fs !! tmp_file path = Some (completed ws (default [] (fs !! tmp_file path))).
Proof.
  intros Hp Hb copied. pose proof (tmp_ne_path path Hp). pose proof (bak_ne_path path Hp).
  pose proof (bak_ne_tmp path Hp). split.
  - apply Forall_app. split; [by eapply back_up_other|]. constructor; [done|]. by apply writes_other.
  - unfold copied. rewrite perform_all_app, perform_all_cons.
    pose proof (perform_all_other backup fs (tmp_file path)) as Hsame.
    specialize (Hsame ltac:(by eapply back_up_other)).
    apply (writes_content (tmp_file path) ws _ [] (default [] (fs !! tmp_file path))). cbn [perform app].
    rewrite Hsame.
    destruct (fs !! tmp_file path) as [c|] eqn:E; [done|]. by rewrite lookup_insert_eq.
Qed.

(** ** Atomicity *)

Lemma prefix_untouched ops fs path n :
  Forall (fun o => ~ changes o path) ops -> perform_all (take n ops) fs !! path = fs !! path.
Proof. intros H. by apply perform_all_other, Forall_take. Qed.

(** Operations that leave the path alone, the renaming, and more such operations. *)
Lemma prefix_renamed before after fs path tmp new n :
  tmp <> path -> Forall (fun o => ~ changes o path) before -> Forall (fun o => ~ changes o path) after ->
  perform_all before fs !! tmp = Some new ->
  let fs' := perform_all (take n (before ++ Rename tmp path :: after)) fs in
  fs' !! path = fs !! path \/ fs' !! path = Some new.
Proof.
  intros Hne Hb Ha Hnew fs'. unfold fs'. destruct (decide (n <= length before)%nat) as [Hn|Hn].
  - left. rewrite take_app_le by done. by apply prefix_untouched.
  - right. rewrite take_app_ge by lia. destruct (n - length before)%nat as [|k] eqn:Ek; [lia|].
    cbn [take]. rewrite perform_all_app, perform_all_cons, prefix_untouched by done. cbn [perform].
    rewrite Hnew. by rewrite lookup_insert_eq.
Qed.


(** ** Lines *)

Definition line_ok (l : list Z) : Prop := Forall (fun b => b <> LF /\ b <> 0) l.
Definition nonempty (l : list Z) : bool := negb (bool_decide (l = [])).

(** Text made of lines. *)
Definition unlines (ls : list (list Z)) : list Z := concat ((fun l => l ++ [LF]) <$> ls).

Lemma split_line l rest : line_ok l -> split_lines (l ++ LF :: rest) = l :: split_lines rest.
Proof.
  induction 1 as [|b l [Hb _] _ IH]; cbn [app split_lines]; [done|].
  destruct (Z.eqb_spec b LF); [done|]. by rewrite IH.
Qed.

Lemma split_unlines ls : Forall line_ok ls -> split_lines (unlines ls) = ls ++ [[]].
Proof.
  induction 1 as [|l ls Hl _ IH]; [done|]. unfold unlines in *. cbn [fmap list_fmap concat].
  rewrite <- app_assoc. cbn [app]. rewrite split_line by done. by rewrite IH.
Qed.

Lemma unlines_nonzero ls : Forall line_ok ls -> nonzero (unlines ls).
Proof.
  induction 1 as [|l ls Hl _ IH]; [constructor|]. unfold unlines, nonzero in *. cbn [fmap list_fmap concat].
  apply Forall_app. split; [|done]. apply Forall_app. split; [|by repeat constructor].
  eapply Forall_impl; [exact Hl|]. by intros b [_ ?].
Qed.

Lemma strtok_unlines ls : Forall line_ok ls -> strtok_lines (unlines ls) = List.filter nonempty ls.
Proof.
  intros H. unfold strtok_lines. rewrite c_string_id by by apply unlines_nonzero.
  rewrite split_unlines by done. rewrite List.filter_app. cbn. by rewrite app_nil_r.
Qed.

Lemma split_lines_ok bs : nonzero bs -> Forall line_ok (split_lines bs).
Proof.
  induction 1 as [|b bs Hb _ IH]; cbn [split_lines]; [by repeat constructor|].
  destruct (Z.eqb_spec b LF); [by constructor; [apply Forall_nil_2|]|].
  destruct (split_lines bs) as [|l ls]; [by repeat constructor|]. inversion_clear IH as [|? ? Hl Hls].
  constructor; [|done]. by constructor.
Qed.

Lemma strtok_lines_ok buf : Forall line_ok (strtok_lines buf).
Proof.
  unfold strtok_lines. pose proof (split_lines_ok (c_string buf) (c_string_nonzero buf)) as H.
  rewrite !Forall_forall in *. intros l Hl. apply list_elem_of_In, List.filter_In in Hl as [Hl _].
  by apply H, list_elem_of_In.
Qed.

Lemma strip_cr_ok l : line_ok l -> line_ok (strip_cr l).
Proof.
  intros H. unfold strip_cr. destruct (last l) as [b|] eqn:E; [|done]. destruct (b =? CR); [|done].
  apply last_Some in E as [l' ->]. rewrite removelast_last. by apply Forall_app in H as [? _].
Qed.

(** ** Finding parameters *)

Lemma find_nonempty ls p : find_param (List.filter nonempty ls) p = find_param ls p.
Proof.
  induction ls as [|l ls IH]; [done|]. cbn [List.filter]. unfold nonempty at 1.
  destruct (bool_decide_reflect (l = [])) as [->|]; cbn [negb]; [by rewrite IH|]. cbn [find_param].
  by rewrite IH.
Qed.

(** A parameter name, and a value that survives the line format. *)
Definition name_ok (p : list Z) : Prop :=
  p <> [] /\ head p <> Some HASH /\ Forall (fun b => b <> EQUALS) p /\ line_ok p.
Definition value_ok (v : list Z) : Prop := line_ok v /\ last v <> Some CR.

Lemma split_eq_app k v : Forall (fun b => b <> EQUALS) k -> split_eq (k ++ EQUALS :: v) = Some (k, v).
Proof.
  induction 1 as [|b k Hb _ IH]; [done|]. cbn [app split_eq]. destruct (Z.eqb_spec b EQUALS); [done|].
  by rewrite IH.
Qed.

Lemma setting_line k v : name_ok k -> setting (k ++ EQUALS :: v) = Some (k, v).
Proof.
  intros (Hne & Hh & He & _). rewrite <- (split_eq_app k v He). destruct k as [|b k]; [done|].
  cbn [app setting]. cbn in Hh. destruct (Z.eqb_spec b HASH); [congruence|done].
Qed.

Lemma line_strip k v : value_ok v -> strip_cr (k ++ EQUALS :: v) = k ++ EQUALS :: v.
Proof.
  intros [_ Hl]. unfold strip_cr. rewrite last_app_cons. destruct v as [|b v]; [done|].
  change (last (EQUALS :: b :: v)) with (last (b :: v)).
  destruct (last (b :: v)) as [x|] eqn:E; [|done]. destruct (Z.eqb_spec x CR); [congruence|done].
Qed.

(** ** The new lines *)

Definition sets (param l : list Z) : bool :=
  match setting (strip_cr l) with Some (k, _) => bool_decide (param = k) | None => false end.

Definition edit_line (param value l : list Z) : list Z :=
  if sets param l then param ++ EQUALS :: value else strip_cr l.

Definition edited (param value : list Z) (ls : list (list Z)) : list (list Z) :=
  (edit_line param value <$> ls) ++ (if existsb (sets param) ls then [] else [param ++ EQUALS :: value]).

Section Edit.
Context (param value : list Z) (Hfit : zlen (assignment param value) < MAX_PATH_NAME).

Lemma formatted : write_formatted (assignment param value) = Ret (assignment param value).
Proof. unfold write_formatted. by destruct (Z.ltb_spec (zlen (assignment param value)) MAX_PATH_NAME); [|lia]. Qed.

Lemma assignment_line : assignment param value = (param ++ EQUALS :: value) ++ [LF].
Proof. unfold assignment. by rewrite <- app_assoc. Qed.

Lemma rewrite_lines_spec ls :
  exists ws, rewrite_lines param value ls = Ret (existsb (sets param) ls, ws) /\
    concat ws = unlines (edit_line param value <$> ls).
Proof.
  induction ls as [|l ls (ws & E & Hws)]; [by exists []|].
  cbn [rewrite_lines existsb]. rewrite E. cbn [mbind outcome_bind]. unfold unlines in *.
  cbn [fmap list_fmap concat]. unfold edit_line at 1.
  change (sets param l) with
    (match setting (strip_cr l) with Some (k, _) => bool_decide (param = k) | None => false end).
  destruct (setting (strip_cr l)) as [[k v]|]; [destruct (bool_decide_reflect (param = k)) as [<-|]|].
  - rewrite formatted. cbn [mbind outcome_bind orb]. eexists. split; [reflexivity|]. cbn [concat].
    rewrite Hws. f_equal. apply assignment_line.
  - eexists. split; [reflexivity|]. cbn [concat]. rewrite Hws. by rewrite <- app_assoc.
  - eexists. split; [reflexivity|]. cbn [concat]. rewrite Hws. by rewrite <- app_assoc.
Qed.

Lemma new_lines_spec buf :
  exists ws, new_lines param value buf = Ret ws /\
    concat ws = unlines (edited param value (strtok_lines buf)).
Proof.
  destruct (rewrite_lines_spec (strtok_lines buf)) as (ws & E & Hws). unfold new_lines, edited. rewrite E.
  cbn [mbind outcome_bind]. destruct (existsb _ _).
  - exists ws. by rewrite app_nil_r.
  - rewrite formatted. cbn [mbind outcome_bind]. eexists. split; [reflexivity|].
    rewrite concat_app, Hws. unfold unlines. rewrite fmap_app, concat_app. f_equal. cbn [fmap list_fmap concat].
    by rewrite assignment_line.
Qed.

Context (Hn : name_ok param) (Hv : value_ok value).

Lemma edited_ok ls : Forall line_ok ls -> Forall line_ok (edited param value ls).
Proof.
  intros H. assert (line_ok (param ++ EQUALS :: value)) as Hl.
  { apply Forall_app. destruct Hn as (_ & _ & _ & ?), Hv as [? _]. split; [done|]. by constructor. }
  apply Forall_app. split; [|by destruct (existsb _ _); repeat constructor].
  apply Forall_fmap. eapply Forall_impl; [exact H|]. intros l Hl'. cbn. unfold edit_line.
  destruct (sets param l); [done|by apply strip_cr_ok].
Qed.

Lemma find_line ls p : find_param ((param ++ EQUALS :: value) :: ls) p
  = if bool_decide (p = param) then Some value else find_param ls p.
Proof. cbn [find_param]. by rewrite line_strip, setting_line. Qed.

Lemma find_skip l ls p : sets p l = false -> find_param (l :: ls) p = find_param ls p.
Proof.
  cbn [find_param]. unfold sets. destruct (setting (strip_cr l)) as [[k v]|]; [|done].
  by intros ->.
Qed.

(** The CR before the end of a line is removed once. *)
Definition one_cr (l : list Z) : Prop := strip_cr (strip_cr l) = strip_cr l.

Lemma sets_stripped p l : one_cr l -> sets p (strip_cr l) = sets p l.
Proof. intros H. unfold sets. by rewrite H. Qed.

Lemma find_edited ls : Forall one_cr ls -> find_param (edited param value ls) param = Some value.
Proof.
  unfold edited. induction 1 as [|l ls Hl _ IH]; cbn [fmap list_fmap existsb app].
  - by rewrite find_line, bool_decide_true.
  - unfold edit_line at 1. destruct (sets param l) eqn:E; cbn [orb].
    + by rewrite find_line, bool_decide_true.
    + rewrite find_skip by by rewrite sets_stripped. exact IH.
Qed.

Lemma find_edited_other ls p : Forall one_cr ls -> p <> param ->
  find_param (edited param value ls) p = find_param ls p.
Proof.
  intros Hc Hp. unfold edited.
  assert (forall tl, find_param ((edit_line param value <$> ls) ++ tl) p =
    match find_param ls p with Some v => Some v | None => find_param tl p end) as H.
  { intros tl. induction Hc as [|l ls Hl _ IH]; cbn [fmap list_fmap app]; [done|]. unfold edit_line at 1.
    destruct (sets param l) eqn:E.
    - rewrite find_line, bool_decide_false by done. rewrite IH. rewrite (find_skip l ls p); [done|].
      unfold sets in *. destruct (setting (strip_cr l)) as [[k v]|]; [|done].
      apply bool_decide_eq_true in E as <-. by apply bool_decide_false.
    - cbn [find_param]. rewrite Hl. destruct (setting (strip_cr l)) as [[k v]|]; [|done].
      by destruct (bool_decide (p = k)). }
  rewrite H. destruct (find_param ls p); [done|]. destruct (existsb _ _); [done|].
  by rewrite find_line, bool_decide_false.
Qed.

End Edit.

(** ** A write that succeeds *)

(** Every call succeeds, and one call copies the whole file. *)
Definition smooth (a : answers) (content : list Z) : Prop :=
  a_lock a = true /\ a_read a = None /\ a_fsync a = true /\ a_rename a = None /\ zlen content <= a_copy a 0%nat.

Lemma back_up_smooth fuel a content path : smooth a content ->
  back_up_file (S fuel) (a_copy a) content path =
    Ret [Create (back_up_path path); WriteAt (back_up_path path) 0 content].
Proof.
  intros (_ & _ & _ & _ & Hc). unfold back_up_file. cbn [copy_loop]. pose proof (zlen_nonneg content).
  replace (Z.max 0 (Z.min (a_copy a 0%nat) (Z.min (zlen content) (zlen content - 0)))) with (zlen content) by lia.
  rewrite Z.sub_diag. cbn [mbind outcome_bind]. change (0 <? 0) with false. cbv iota. cbn [mbind outcome_bind].
  change (drop (Z.to_nat 0) content) with content. rewrite take_ge by (unfold zlen; lia). done.
Qed.

Lemma read_file_ok content : content <> [] ->
  exists n, read_file None content = (n, take 255 content) /\ (n =? 0) = false /\ terminate n = Ret tt.
Proof.
  intros Hne. unfold read_file. eexists. split; [reflexivity|]. unfold terminate, BUFFER_SIZE.
  destruct content as [|b content]; [done|]. rewrite zlen_cons. pose proof (zlen_nonneg content).
  destruct (Z.eqb_spec (Z.min (1 + zlen content) (256 - 1)) 0); [lia|].
  destruct (Z.leb_spec 0 (Z.min (1 + zlen content) (256 - 1))); [|lia].
  destruct (Z.ltb_spec (Z.min (1 + zlen content) (256 - 1)) 256); [done|lia].
Qed.

Definition smooth_ops (path content : list Z) (ws : list (list Z)) : list op :=
  [Create (back_up_path path); WriteAt (back_up_path path) 0 content; Create (tmp_file path)] ++
  writes_from (tmp_file path) 0 ws ++ [Rename (tmp_file path) path; Unlink (back_up_path path)].

Lemma write_smooth fuel a fs path param value content ws :
  smooth a content -> fs !! path = Some content -> content <> [] ->
  new_lines param value (take 255 content) = Ret ws ->
  write_param_config (S fuel) a fs path param value = Ret (Returns 0, smooth_ops path content ws).
Proof.
  intros Ha Hc Hne Hw. unfold write_param_config. rewrite Hc.
  rewrite (back_up_smooth fuel a content path Ha). destruct Ha as (-> & -> & -> & -> & _). cbn [negb mbind outcome_bind].
  destruct (read_file_ok content Hne) as (n & -> & -> & ->).
  change (bool_decide (None = Some EINTR)) with false. cbv iota. cbn [mbind outcome_bind]. rewrite Hw.
  cbn [mbind outcome_bind]. unfold smooth_ops. cbn [safe_write_file app]. done.
Qed.

(** What it leaves behind. *)
Lemma smooth_ops_spec path content ws fs :
  path_ok path ->
  let fs' := perform_all (smooth_ops path content ws) fs in
  fs' !! path = Some (completed ws (default [] (fs !! tmp_file path))) /\
  fs' !! tmp_file path = None /\ fs' !! back_up_path path = None /\
  forall q, q <> path -> q <> tmp_file path -> q <> back_up_path path -> fs' !! q = fs !! q.
Proof.
  intros Hp fs'. pose proof (tmp_ne_path path Hp) as Ht. pose proof (bak_ne_path path Hp) as Hb.
  pose proof (bak_ne_tmp path Hp) as Hbt. unfold fs', smooth_ops. rewrite app_assoc, perform_all_app.
  set (before := _ ++ writes_from _ _ _).
  assert (perform_all before fs !! tmp_file path = Some (completed ws (default [] (fs !! tmp_file path)))) as Htmp.
  { unfold before. rewrite perform_all_app.
    apply (writes_content (tmp_file path) ws _ [] (default [] (fs !! tmp_file path))). cbn [app].
    change [Create (back_up_path path); WriteAt (back_up_path path) 0 content; Create (tmp_file path)]
      with ([Create (back_up_path path); WriteAt (back_up_path path) 0 content] ++ [Create (tmp_file path)]).
    rewrite perform_all_app, perform_all_cons. cbn [perform].
    pose proof (perform_all_other [Create (back_up_path path); WriteAt (back_up_path path) 0 content] fs (tmp_file path)
      ltac:(by repeat constructor)) as Hsame. rewrite Hsame.
    destruct (fs !! tmp_file path) as [c|]; [done|]. change (perform_all [] ?f) with f. by rewrite lookup_insert_eq. }
  rewrite perform_all_cons. cbn [perform]. rewrite Htmp.
  rewrite perform_all_cons. change (perform_all [] ?f) with f. cbn [perform]. split_and!.
  - by rewrite lookup_delete_ne, lookup_insert_eq.
  - by rewrite lookup_delete_ne, lookup_insert_ne, lookup_delete_eq.
  - by rewrite lookup_delete_eq.
  - intros q Hq1 Hq2 Hq3. rewrite lookup_delete_ne, lookup_insert_ne, lookup_delete_ne by done.
    apply perform_all_other. apply Forall_app. split; [|by apply writes_other].
    rewrite !Forall_cons. split_and!; [cbn; congruence..|apply Forall_nil_2].
Qed.

(** What a file of edited lines that fits the buffer says. *)
Lemma edited_parsed param value ls :
  name_ok param -> value_ok value -> Forall line_ok ls -> zlen (unlines (edited param value ls)) <= 255 ->
  unlines (edited param value ls) <> [] /\
  forall p, find_param (strtok_lines (take 255 (unlines (edited param value ls)))) p = find_param (edited param value ls) p.
Proof.
  intros Hn Hv Hls Hsz. split.
  - unfold unlines, edited. destruct (existsb _ _) eqn:E.
    + destruct ls as [|l ls]; [done|]. cbn [fmap list_fmap app concat].
      intros H. apply app_nil in H as [H _]. by apply app_nil in H as [_ ?].
    + rewrite fmap_app, concat_app. intros H. apply app_nil in H as [_ H]. cbn in H.
      rewrite app_nil_r in H. by apply app_nil in H as [_ ?].
  - intros p. rewrite take_ge by (unfold zlen in Hsz; lia). rewrite strtok_unlines, find_nonempty; [done|].
    by apply edited_ok.
Qed.

(** Reading a file of edited lines. *)
Lemma read_edited fs path param value ls p :
  name_ok param -> value_ok value -> Forall line_ok ls ->
  fs !! path = Some (unlines (edited param value ls)) -> zlen (unlines (edited param value ls)) <= 255 ->
  read_param_config true None fs path p = Ret (Returns 0, find_param (edited param value ls) p).
Proof.
  intros Hn Hv Hls Hpath Hsz. unfold read_param_config. rewrite Hpath. cbn [negb].
  destruct (edited_parsed param value ls Hn Hv Hls Hsz) as [Hne Hf].
  destruct (read_file_ok _ Hne) as (n & -> & -> & ->).
  change (bool_decide (None = Some EINTR)) with false. cbv iota. cbn [mbind outcome_bind]. by rewrite Hf.
Qed.

(** What a successful write of a short file leaves at the path, when performed on
    a file system where no copy is left over. *)
Lemma write_short fuel a fs path param value content :
  fs !! path = Some content -> content <> [] -> zlen content <= 255 -> smooth a content ->
  path_ok path -> zlen (assignment param value) < MAX_PATH_NAME ->
  exists ops, write_param_config (S fuel) a fs path param value = Ret (Returns 0, ops) /\
    forall fs1, fs1 !! tmp_file path = None ->
    perform_all ops fs1 !! path = Some (unlines (edited param value (strtok_lines content))) /\
    perform_all ops fs1 !! tmp_file path = None /\
    forall q, q <> path -> q <> back_up_path path -> perform_all ops fs1 !! q = fs1 !! q.
Proof.
  intros Hc Hne Hsz Ha Hp Hfit.
  assert (take 255 content = content) as Htk by (apply take_ge; unfold zlen in Hsz; lia).
  destruct (new_lines_spec param value Hfit (take 255 content)) as (ws & Ew & Hws). rewrite Htk in Hws.
  exists (smooth_ops path content ws). split; [by apply write_smooth|]. intros fs1 Htmp.
  destruct (smooth_ops_spec path content ws fs1 Hp) as (Hpath & Ht & Hb & Hq). cbv zeta in Hpath, Ht, Hb, Hq.
  unfold completed in Hpath. rewrite Htmp in Hpath. cbn [default] in Hpath.
  rewrite drop_nil, app_nil_r, Hws in Hpath. split_and!; [done|done|].
  intros q Hq1 Hq2. destruct (decide (q = tmp_file path)) as [->|]; [by rewrite Ht|by apply Hq].
Qed.

Lemma read_short fs path content p : fs !! path = Some content -> content <> [] -> zlen content <= 255 ->
  read_param_config true None fs path p = Ret (Returns 0, find_param (strtok_lines content) p).
Proof.
  intros Hc Hne Hsz. unfold read_param_config. rewrite Hc. cbn [negb].
  destruct (read_file_ok content Hne) as (n & -> & -> & ->).
  rewrite take_ge by (unfold zlen in Hsz; lia). done.
Qed.


(** Two settings, of which the second is changed. *)
Definition a_path : list Z := bstr "/etc/app.conf".
Definition a_file : list Z := unlines [bstr "# limits"; bstr "mode=1"; bstr "port=80"].
Definition disk : gmap (list Z) (list Z) := {[a_path := a_file]}.
Definition all_well : answers := Answers true (fun _ => 4096) None true None.

Lemma a_file_one_cr : Forall one_cr (strtok_lines a_file).
Proof. unfold one_cr. apply (bool_decide_unpack _). by vm_compute. Qed.



(** ** Where the tool is not safe *)

(** Only the first 255 bytes of a file survive a write: whatever follows
    them is replaced by nothing, although the write succeeds. *)
Theorem long_file_truncated fuel a fs path param value front rest :
  path_ok path -> zlen front = 255 -> fs !! path = Some (front ++ rest) -> fs !! tmp_file path = None ->
  smooth a (front ++ rest) -> zlen (assignment param value) < MAX_PATH_NAME ->
  exists ops, write_param_config (S fuel) a fs path param value = Ret (Returns 0, ops) /\
    perform_all ops fs !! path = Some (unlines (edited param value (strtok_lines front))).
Proof.
  intros Hp Hl Hc Ht Ha Hfit.
  assert (take 255 (front ++ rest) = front) as Htk.
  { replace 255%nat with (length front) by (unfold zlen in Hl; lia). apply take_app_length. }
  destruct (new_lines_spec param value Hfit (take 255 (front ++ rest))) as (ws & Ew & Hws). rewrite Htk in Hws.
  exists (smooth_ops path (front ++ rest) ws). split.
  - apply write_smooth; [done|done| |done]. destruct front; [by vm_compute in Hl|done].
  - destruct (smooth_ops_spec path (front ++ rest) ws fs Hp) as (Hpath & _). rewrite Hpath, Ht.
    unfold completed. cbn [default]. by rewrite drop_nil, app_nil_r, Hws.
Qed.

(** Sixty lines of five bytes. *)
Definition long_file : list Z := concat (replicate 60 (bstr "a=bc" ++ [LF])).

Lemma long_file_truncated_witness :
  exists ops, write_param_config 1 all_well {[a_path := long_file]} a_path (bstr "port") (bstr "8080") = Ret (Returns 0, ops) /\
    perform_all ops {[a_path := long_file]} !! a_path =
      Some (unlines (edited (bstr "port") (bstr "8080") (strtok_lines (take 255 long_file)))).
Proof.
  apply (long_file_truncated 0 all_well {[a_path := long_file]} a_path (bstr "port") (bstr "8080")
    (take 255 long_file) (drop 255 long_file)); by vm_compute.
Defined.

(** A name and value that together exceed the 256 bytes of the line buffer
    make the tool write out memory behind the buffer. *)
Theorem long_value_undefined fuel a fs path param value content :
  fs !! path = Some content -> content <> [] -> smooth a content ->
  MAX_PATH_NAME < zlen (assignment param value) ->
  write_param_config (S fuel) a fs path param value = Undef.
Proof.
  intros Hc Hne Ha Hlen. assert (write_formatted (assignment param value) = Undef) as Hw.
  { unfold write_formatted. destruct (Z.ltb_spec (zlen (assignment param value)) MAX_PATH_NAME); [lia|].
    destruct (Z.eqb_spec (zlen (assignment param value)) MAX_PATH_NAME); [lia|done]. }
  assert (forall ls, rewrite_lines param value ls = Undef \/ exists ws, rewrite_lines param value ls = Ret (false, ws)) as Hr.
  { induction ls as [|l ls IH]; [right; by exists []|]. cbn [rewrite_lines].
    destruct (setting (strip_cr l)) as [[k v]|]; [destruct (bool_decide_reflect (param = k)) as [<-|]|].
    - left. by rewrite Hw.
    - destruct IH as [->|[ws ->]]; [by left|right; by eexists].
    - destruct IH as [->|[ws ->]]; [by left|right; by eexists]. }
  unfold write_param_config. rewrite Hc, (back_up_smooth fuel a content path Ha).
  destruct Ha as (-> & -> & _). cbn [negb mbind outcome_bind].
  destruct (read_file_ok content Hne) as (n & -> & -> & ->).
  change (bool_decide (None = Some EINTR)) with false. cbv iota. cbn [mbind outcome_bind]. unfold new_lines.
  destruct (Hr (strtok_lines (take 255 content))) as [->|[ws ->]]; [done|]. cbn [mbind outcome_bind]. by rewrite Hw.
Qed.

Lemma long_value_undefined_witness :
  write_param_config 1 all_well disk a_path (bstr "port") (replicate 300 49) = Undef.
Proof.
  apply (long_value_undefined 0 all_well disk a_path (bstr "port") (replicate 300 49) a_file); by vm_compute.
Defined.

(** The lock does not prevent lost updates.  It is taken on the file that was
    opened, which the other writer has replaced meanwhile: a second writer that
    opened the file before the renaming and locked it after it copies the old
    content, and the first writer's parameter reads as before. *)
Theorem lost_update fuel a fs path pa va pb vb content :
  path_ok path -> fs !! path = Some content -> content <> [] -> zlen content <= 255 ->
  fs !! tmp_file path = None -> smooth a content -> name_ok pa -> name_ok pb -> value_ok vb -> pa <> pb ->
  zlen (assignment pa va) < MAX_PATH_NAME -> zlen (assignment pb vb) < MAX_PATH_NAME ->
  Forall one_cr (strtok_lines content) -> zlen (unlines (edited pb vb (strtok_lines content))) <= 255 ->
  exists ops1 ops2,
    write_param_config (S fuel) a fs path pa va = Ret (Returns 0, ops1) /\
    write_param_config (S fuel) a fs path pb vb = Ret (Returns 0, ops2) /\
    read_param_config true None (perform_all ops2 (perform_all ops1 fs)) path pa =
    read_param_config true None fs path pa.
Proof.
  intros Hp Hc Hne Hsz Htmp Ha Hna Hnb Hvb Hab Hfa Hfb Hcr Hsz'.
  destruct (write_short fuel a fs path pa va content) as (ops1 & E1 & H1); [done..|].
  destruct (write_short fuel a fs path pb vb content) as (ops2 & E2 & H2); [done..|].
  exists ops1, ops2. split_and!; [done|done|]. destruct (H1 fs Htmp) as (_ & Ht1 & _).
  destruct (H2 _ Ht1) as (Hpath & _). pose proof (strtok_lines_ok content) as Hls.
  erewrite read_edited by done. by rewrite find_edited_other, (read_short fs path content) by done.
Qed.

Lemma lost_update_witness :
  exists ops1 ops2,
    write_param_config 1 all_well disk a_path (bstr "mode") (bstr "2") = Ret (Returns 0, ops1) /\
    write_param_config 1 all_well disk a_path (bstr "port") (bstr "8080") = Ret (Returns 0, ops2) /\
    read_param_config true None (perform_all ops2 (perform_all ops1 disk)) a_path (bstr "mode") =
    read_param_config true None disk a_path (bstr "mode").
Proof.
  apply (lost_update 0 all_well disk a_path (bstr "mode") (bstr "2") (bstr "port") (bstr "8080") a_file).
  - by vm_compute.
  - by vm_compute.
  - by vm_compute.
  - by vm_compute.
  - by vm_compute.
  - split_and!; by vm_compute.
  - split_and!; [by vm_compute|by vm_compute|apply (bool_decide_unpack _); by vm_compute..].
  - split_and!; [by vm_compute|by vm_compute|apply (bool_decide_unpack _); by vm_compute..].
  - split; [apply (bool_decide_unpack _); by vm_compute|by vm_compute].
  - by vm_compute.
  - by vm_compute.
  - by vm_compute.
  - exact a_file_one_cr.
  - by vm_compute.
Defined.

(** When the first call copies only a part of the file, the backup never ends:
    the offsets are moved twice, so the rest shrinks faster than it is copied. *)
Lemma partial_copy_never_ends fuel copy content path :
  0 < copy 0%nat < zlen content -> back_up_file fuel copy content path = Undef.
Proof.
  intros Hc.
  assert (forall fuel copy out i o r, zlen content < i + r -> 0 <= i -> 0 < r ->
    copy_loop fuel copy content out i o r = Undef) as Hloop.
  { clear. induction fuel as [|fuel IH]; intros copy out i o r Hr Hi Hpos; [done|]. cbn [copy_loop].
    set (ret := Z.max 0 _). destruct (Z.ltb_spec 0 (r - ret)); [|lia]. rewrite IH by lia. done. }
  unfold back_up_file. destruct fuel as [|fuel]; [done|]. cbn [copy_loop].
  set (ret := Z.max 0 _). assert (ret = copy 0%nat) as E by lia. rewrite E.
  destruct (Z.ltb_spec 0 (zlen content - copy 0%nat)); [|lia]. by rewrite Hloop by lia.
Qed.

(** A failed renaming is reported as a success unless the error is one of two. *)
Lemma failed_rename_reported_ok e tmp target :
  e <> EACCES -> e <> EBUSY -> safe_write_file (Some e) tmp target = (false, []).
Proof.
  intros H1 H2. unfold safe_write_file. by destruct (Z.eqb_spec e EACCES), (Z.eqb_spec e EBUSY).
Qed.

End ConfigSafe.
