(* ===== verification/Sigd.v ===== *)
(** * The signal-aware daemon

    [signal-aware-multithreaded-daemon/main.c]: a thread that turns signals into
    jobs, a ring of [QUEUE_CAP] jobs with two condition variables, five workers,
    and the configuration they reload.  A section under a mutex is one step of
    the transition system. *)
From S2P Require Import Prelude Ring Config.
Import Config.
Open Scope c_scope.

Module Sigd.

Definition QUEUE_CAP : Z := 32.
Definition MAX_WORKER : nat := 5.

Inductive work_type := JOB_NONE | JOB_RELOAD_CONFIG | JOB_PRINT_STATUS | JOB_DO_WORK | JOB_SHUTDOWN.

#[export] Instance work_type_eq_dec : EqDecision work_type.
Proof. solve_decision. Defined.

Record workqueue := Work { type : work_type; data : Z }.

(** ** Configuration *)

Record config := MkConfig { sample_rate : Z; woker_delay : Z; log_level : list Z }.

Definition is_space (b : Z) : bool := ((b =? 32) || ((9 <=? b) && (b <=? 13)))%bool.
Definition is_digit (b : Z) : bool := ((48 <=? b) && (b <=? 57))%bool.

Fixpoint skip_while (f : Z -> bool) (bs : list Z) : list Z :=
  match bs with b :: rest => if f b then skip_while f rest else bs | [] => [] end.

Fixpoint digits_from (acc : Z) (bs : list Z) : Z :=
  match bs with b :: bs => if is_digit b then digits_from (acc * 10 + (b - 48)) bs else acc | [] => acc end.

(** The sign of a number and what follows it. *)
Definition signed (bs : list Z) : bool * list Z :=
  match bs with
  | b :: rest => if b =? 45 then (true, rest) else if b =? 43 then (false, rest) else (false, bs)
  | [] => (false, [])
  end.

(** [atoi]: [strtol] with its limits, cut to an [int]. *)
Definition atoi (bs : list Z) : Z :=
  let '(minus, ds) := signed (skip_while is_space bs) in
  let v := digits_from 0 ds in
  i32 (if minus then Z.max (- 2 ^ 63) (- v) else Z.min (2 ^ 63 - 1) v).

(** Whether [atoi] looks at the byte behind [bs]. *)
Definition runs_off (bs : list Z) : bool :=
  bool_decide (skip_while is_digit (signed (skip_while is_space bs)).2 = []).

(** [strncpy(val, v, 64)] leaves [val] without a terminator when [v] has 64 bytes
    or more; [atoi(val)] may then read on behind it. *)
Definition atoi_val (v : list Z) : outcome Z :=
  if zlen v <? 64 then Ret (atoi v)
  else if runs_off (take 64 v) then Undef
  else Ret (atoi (take 64 v)).

(** The daemon's [read_param_config]: the value, if the file can be read and has it. *)
Definition read_param_config (file : option (list Z)) (param : list Z) : option (list Z) :=
  match file with
  | None => None
  | Some content =>
      if zlen content =? 0 then None
      else find_param (strtok_lines (take (Z.to_nat (BUFFER_SIZE - 1)) content)) param
  end.

Definition get_file_config (file : option (list Z)) : outcome config :=
  r ← match read_param_config file (bstr "sample_rate") with Some v => atoi_val v | None => Ret 1000 end;
  d ← match read_param_config file (bstr "delay") with Some v => atoi_val v | None => Ret 500 end;
  Ret (MkConfig r d
    (match read_param_config file (bstr "log_level") with Some v => take 31 v | None => bstr "INFO" end)).

(** ** The threads *)

Inductive signal := SIGUSR1 | SIGHUP | SIGTERM | SIGINT.

Definition signo (s : signal) : Z :=
  match s with SIGUSR1 => 10 | SIGHUP => 1 | SIGTERM => 15 | SIGINT => 2 end.

Definition convert_signal (s : signal) : work_type :=
  match s with SIGTERM => JOB_SHUTDOWN | SIGUSR1 => JOB_DO_WORK | SIGHUP => JOB_RELOAD_CONFIG | SIGINT => JOB_SHUTDOWN end.

(** A worker: about to look at the queue, waiting for a job, with a job taken,
    handling it, returned. *)
Inductive worker_pc := WLoop | WWait | WTook (w : workqueue) | WDoing (w : workqueue) | WDone.

(** The signal thread: in [sigwaitinfo], about to store a job, waiting for room,
    about to set the flag, about to broadcast, returned. *)
Inductive sig_pc := SWait | SPut (w : workqueue) | SWaitFull (w : workqueue) | SFlag | SBroadcast | SDone.

(** [head] of the C structure is the read index of the ring, [tail] the write
    index.  The logs are the jobs stored, taken and carried out. *)
Record daemon_state := DaemonState {
  queue : ring workqueue; daemon_config : config; reload_config_count : Z;
  work_done_count : Z; shutting_down : bool; workers : list worker_pc;
  sig : sig_pc; l_queued : list workqueue; l_taken : list workqueue;
  l_done : list workqueue }.
Definition set_queue (v : ring workqueue) (x : daemon_state) : daemon_state :=
  DaemonState v (daemon_config x) (reload_config_count x) (work_done_count x) (shutting_down
    x) (workers x) (sig x) (l_queued x) (l_taken x) (l_done x).
Definition set_daemon_config (v : config) (x : daemon_state) : daemon_state :=
  DaemonState (queue x) v (reload_config_count x) (work_done_count x) (shutting_down x)
    (workers x) (sig x) (l_queued x) (l_taken x) (l_done x).
Definition set_reload_config_count (v : Z) (x : daemon_state) : daemon_state :=
  DaemonState (queue x) (daemon_config x) v (work_done_count x) (shutting_down x) (workers
    x) (sig x) (l_queued x) (l_taken x) (l_done x).
Definition set_work_done_count (v : Z) (x : daemon_state) : daemon_state :=
  DaemonState (queue x) (daemon_config x) (reload_config_count x) v (shutting_down x)
    (workers x) (sig x) (l_queued x) (l_taken x) (l_done x).
Definition set_shutting_down (v : bool) (x : daemon_state) : daemon_state :=
  DaemonState (queue x) (daemon_config x) (reload_config_count x) (work_done_count x) v
    (workers x) (sig x) (l_queued x) (l_taken x) (l_done x).
Definition set_workers (v : list worker_pc) (x : daemon_state) : daemon_state :=
  DaemonState (queue x) (daemon_config x) (reload_config_count x) (work_done_count x)
    (shutting_down x) v (sig x) (l_queued x) (l_taken x) (l_done x).
Definition set_sig (v : sig_pc) (x : daemon_state) : daemon_state :=
  DaemonState (queue x) (daemon_config x) (reload_config_count x) (work_done_count x)
    (shutting_down x) (workers x) v (l_queued x) (l_taken x) (l_done x).
Definition set_l_queued (v : list workqueue) (x : daemon_state) : daemon_state :=
  DaemonState (queue x) (daemon_config x) (reload_config_count x) (work_done_count x)
    (shutting_down x) (workers x) (sig x) v (l_taken x) (l_done x).
Definition set_l_taken (v : list workqueue) (x : daemon_state) : daemon_state :=
  DaemonState (queue x) (daemon_config x) (reload_config_count x) (work_done_count x)
    (shutting_down x) (workers x) (sig x) (l_queued x) v (l_done x).
Definition set_l_done (v : list workqueue) (x : daemon_state) : daemon_state :=
  DaemonState (queue x) (daemon_config x) (reload_config_count x) (work_done_count x)
    (shutting_down x) (workers x) (sig x) (l_queued x) (l_taken x) v.

Definition waiting (p : worker_pc) : bool := match p with WWait => true | _ => false end.

Fixpoint wake_one (ws : list worker_pc) : list worker_pc :=
  match ws with
  | [] => []
  | WWait :: ws => WLoop :: ws
  | p :: ws => p :: wake_one ws
  end.

(** [pthread_cond_signal] on [not_empty]: it wakes [i] if that thread waits, and
    some waiting thread otherwise. *)
Definition wake_worker (i : nat) (ws : list worker_pc) : list worker_pc :=
  match ws !! i with Some WWait => <[i := WLoop]> ws | _ => wake_one ws end.

Definition wake_all (ws : list worker_pc) : list worker_pc :=
  (fun p => if waiting p then WLoop else p) <$> ws.

(** [pthread_cond_signal] on [not_full], where only the signal thread waits. *)
Definition wake_sig (p : sig_pc) : sig_pc := match p with SWaitFull w => SPut w | _ => p end.

(** Storing a job, unless the caller has to wait for room ([None]); [i] is the worker
    the signal on [not_empty] would wake. *)
Definition enqueue_work (i : nat) (work : workqueue) (d : daemon_state) : outcome (option daemon_state) :=
  if r_count (queue d) =? QUEUE_CAP then Ret None
  else
    q ← ring_put QUEUE_CAP (queue d) work;
    Ret (Some (set_workers (wake_worker i (workers d)) (set_l_queued (l_queued d ++ [work]) (set_queue q d)))).

(** What [dequeueu_work] comes to: a wait, the result -1 or a job. *)
Inductive dequeued := MustWait | NoMore | Job (work : workqueue).

Definition dequeueu_work (d : daemon_state) : outcome (dequeued * daemon_state) :=
  if ((r_count (queue d) =? 0) && negb (shutting_down d))%bool then Ret (MustWait, d)
  else if (shutting_down d && (r_count (queue d) =? 0))%bool then Ret (NoMore, d)
  else
    '(w, q) ← ring_take QUEUE_CAP (queue d);
    Ret (Job w, set_sig (wake_sig (sig d)) (set_l_taken (l_taken d ++ [w]) (set_queue q d))).

(** One step of [sig_thread] after a signal arrived. *)
Definition sig_step (i : nat) (d : daemon_state) : outcome (option daemon_state) :=
  match sig d with
  | SPut w =>
      r ← enqueue_work i w d;
      Ret (Some match r with
                | None => set_sig (SWaitFull w) d
                | Some d => set_sig (if bool_decide (type w = JOB_SHUTDOWN) then SFlag else SWait) d
                end)
  | SFlag => Ret (Some (set_sig SBroadcast (set_shutting_down true d)))
  | SBroadcast => Ret (Some (set_sig SDone (set_workers (wake_all (workers d)) d)))
  | SWait | SWaitFull _ | SDone => Ret None
  end.

(** What a worker does with a job; [file] is what the configuration file holds.
    [usleep(delay_ms * 1000)] multiplies in [int]. *)
Definition do_job (file : option (list Z)) (w : workqueue) (d : daemon_state) : outcome daemon_state :=
  match type w with
  | JOB_DO_WORK =>
      let us := woker_delay (daemon_config d) * 1000 in
      if i32 us =? us then Ret (set_work_done_count (work_done_count d + 1) d) else Undef
  | JOB_RELOAD_CONFIG =>
      c ← get_file_config file;
      Ret (set_reload_config_count (reload_config_count d + 1) (set_daemon_config c d))
  | JOB_PRINT_STATUS | JOB_SHUTDOWN | JOB_NONE => Ret d
  end.

(** One step of worker [i]. *)
Definition worker_step (i : nat) (file : option (list Z)) (d : daemon_state) : outcome (option daemon_state) :=
  let go p := set_workers (<[i := p]> (workers d)) in
  match workers d !! i with
  | Some WLoop =>
      '(r, d) ← dequeueu_work d;
      Ret (Some (go (match r with MustWait => WWait | NoMore => WDone | Job w => WTook w end) d))
  | Some (WTook w) => Ret (Some (go (if shutting_down d then WDone else WDoing w) d))
  | Some (WDoing w) =>
      d' ← do_job file w d;
      Ret (Some (set_workers (<[i := if bool_decide (type w = JOB_SHUTDOWN) then WDone else WLoop]> (workers d))
        (set_l_done (l_done d ++ [w]) d')))
  | _ => Ret None
  end.

Inductive event :=
| Arrives (s : signal)
| Sig (i : nat)
| Worker (i : nat) (file : option (list Z))
| Spurious (i : nat)
| SpuriousSig.

Definition daemon_step (ev : event) (d : daemon_state) : outcome (option daemon_state) :=
  match ev with
  | Arrives s =>
      Ret (match sig d with SWait => Some (set_sig (SPut (Work (convert_signal s) (signo s))) d) | _ => None end)
  | Sig i => sig_step i d
  | Worker i file => worker_step i file d
  | Spurious i =>
      Ret (match workers d !! i with Some WWait => Some (set_workers (<[i := WLoop]> (workers d)) d) | _ => None end)
  | SpuriousSig => Ret (match sig d with SWaitFull w => Some (set_sig (SPut w) d) | _ => None end)
  end.

Fixpoint daemon_run (evs : list event) (d : daemon_state) : outcome (option daemon_state) :=
  match evs with
  | [] => Ret (Some d)
  | ev :: evs =>
      r ← daemon_step ev d;
      match r with Some d => daemon_run evs d | None => Ret None end
  end.

(** [data_config], [daemon_config] and the threads of [main]. *)
Definition daemon_init (c : config) : daemon_state :=
  DaemonState (Ring (replicate (Z.to_nat QUEUE_CAP) (Work JOB_NONE 0)) 0 0 0) c 0 0 false
    (replicate MAX_WORKER WLoop) SWait [] [] [].

End Sigd.
