(* ===== verification/SigdInv.v ===== *)
(** * The signal-aware daemon: jobs, liveness and shutdown

    One invariant of the transition system of [Sigd] for every schedule of the
    threads, from which follow: memory safety and progress, that every job is
    handled once before shutdown, and that shutdown ends all workers, dropping
    the jobs that are left. *)
From S2P Require Import Prelude Ring Config ConfigSafe Number Sigd.
Import Config ConfigSafe Sigd.
Open Scope c_scope.

Module SigdInv.

Definition awake (p : worker_pc) : bool := match p with WLoop | WTook _ | WDoing _ => true | _ => false end.
Definition is_done (p : worker_pc) : bool := match p with WDone => true | _ => false end.

(** The job a worker has in hand. *)
Definition hand (p : worker_pc) : list workqueue := match p with WTook w | WDoing w => [w] | _ => [] end.

Definition hands (ws : list worker_pc) : list workqueue := flat_map hand ws.

(** The signal thread has not yet stored the shutdown job. *)
Definition early (p : sig_pc) : bool := match p with SWait | SPut _ | SWaitFull _ => true | _ => false end.
Definition flagged (p : sig_pc) : bool := match p with SBroadcast | SDone => true | _ => false end.

(** A configuration whose delay in microseconds is an [int]. *)
Definition sane (c : config) : Prop := i32 (woker_delay c * 1000) = woker_delay c * 1000.

(** The files that are reloaded are sane. *)
Definition sane_event (ev : event) : Prop :=
  match ev with Worker _ file => exists c, get_file_config file = Ret c /\ sane c | _ => True end.

Record daemon_ok (d : daemon_state) : Prop := {
  ok_ring : ring_inv QUEUE_CAP (queue d);
  ok_order : l_queued d = l_taken d ++ ring_abs (queue d);
  ok_workers : length (workers d) = MAX_WORKER;
  ok_full : forall w, sig d = SWaitFull w -> r_count (queue d) = QUEUE_CAP;
  ok_flag : shutting_down d = flagged (sig d);
  ok_early : early (sig d) = true ->
    existsb is_done (workers d) = false /\ Forall (fun w => type w <> JOB_SHUTDOWN) (l_queued d);
  ok_awake : early (sig d) = true -> 0 < r_count (queue d) -> existsb awake (workers d) = true;
  ok_bcast : sig d = SDone -> existsb waiting (workers d) = false;
  ok_sane : sane (daemon_config d);
  ok_jobs : exists dropped, l_taken d ≡ₚ l_done d ++ hands (workers d) ++ dropped /\
    (shutting_down d = false -> dropped = []) }.

(** ** Lists of workers *)

Lemma sigd_wake_one_done ws : existsb is_done (wake_one ws) = existsb is_done ws.
Proof. induction ws as [|[] ws IH]; cbn; try done. Qed.

Lemma wake_one_hands ws : hands (wake_one ws) = hands ws.
Proof. induction ws as [|[] ws IH]; cbn; try done; unfold hands in *; cbn; by rewrite IH. Qed.

Lemma sigd_wake_one_awake ws : ws <> [] -> existsb is_done ws = false -> existsb awake (wake_one ws) = true.
Proof. induction ws as [|[] ws IH]; try done; intros _; cbn; by destruct ws. Qed.

Lemma hands_split ws i p : ws !! i = Some p ->
  exists rest, hands ws ≡ₚ hand p ++ rest /\
    forall q, hands (<[i := q]> ws) ≡ₚ hand q ++ rest.
Proof.
  intros Hi. exists (hands (take i ws) ++ hands (drop (S i) ws)).
  assert (forall q, hands (take i ws ++ q :: drop (S i) ws) ≡ₚ
    hand q ++ hands (take i ws) ++ hands (drop (S i) ws)) as H.
  { intros q. unfold hands. rewrite flat_map_app. cbn [flat_map]. rewrite !app_assoc. f_equiv.
    apply Permutation_app_comm. }
  split.
  - rewrite <- (take_drop_middle _ _ _ Hi) at 1. apply H.
  - intros q. rewrite insert_take_drop by by apply lookup_lt_is_Some_1. apply H.
Qed.

Lemma sigd_wake_worker_done i ws : existsb is_done (wake_worker i ws) = existsb is_done ws.
Proof.
  unfold wake_worker. destruct (ws !! i) as [[]|] eqn:E; try apply sigd_wake_one_done.
  apply eq_bool_prop_intro. rewrite !Is_true_true. split; [by apply existsb_old|by apply existsb_insert with WWait].
Qed.

Lemma sigd_wake_worker_awake i ws : ws <> [] -> existsb is_done ws = false -> existsb awake (wake_worker i ws) = true.
Proof.
  intros Hne Hd. unfold wake_worker. destruct (ws !! i) as [[]|] eqn:E; try by apply sigd_wake_one_awake.
  by apply (existsb_new awake ws i WWait).
Qed.

Lemma wake_worker_hands i ws : hands (wake_worker i ws) ≡ₚ hands ws.
Proof.
  unfold wake_worker. destruct (ws !! i) as [[]|] eqn:E; try by rewrite wake_one_hands.
  destruct (hands_split ws i WWait E) as (rest & -> & ->). done.
Qed.

Lemma sigd_wake_worker_length i ws : length (wake_worker i ws) = length ws.
Proof.
  unfold wake_worker. assert (length (wake_one ws) = length ws) as H
    by (induction ws as [|[] ws IH]; cbn; congruence).
  destruct (ws !! i) as [[]|]; try done. by rewrite length_insert.
Qed.

Lemma wake_all_hands ws : hands (wake_all ws) = hands ws.
Proof.
  unfold hands, wake_all. induction ws as [|p ws IH]; [done|]. cbn [fmap list_fmap flat_map]. rewrite IH. by destruct p.
Qed.

Lemma wake_all_none ws : existsb waiting (wake_all ws) = false.
Proof. by induction ws as [|[] ws IH]. Qed.

(** A job in hand was queued. *)
Lemma hand_queued d i p w : daemon_ok d -> workers d !! i = Some p -> hand p = [w] -> w ∈ l_queued d.
Proof.
  intros Hok Hi Hw. destruct (ok_jobs _ Hok) as (dr & Hp & _). rewrite (ok_order _ Hok), elem_of_app. left.
  rewrite Hp, !elem_of_app. right. left. destruct (hands_split _ i p Hi) as (rest & -> & _). rewrite Hw.
  apply elem_of_app. left. by apply list_elem_of_singleton.
Qed.

(** ** Every step *)

Lemma sig_ok i d : daemon_ok d ->
  exists r, sig_step i d = Ret r /\ forall d', r = Some d' -> daemon_ok d'.
Proof.
  intros [Hr Ho Hn Hf Hfl He Ha Hb Hs (dr & Hj & Hdr)]. unfold sig_step, enqueue_work.
  destruct (sig d) as [|w|w| | |] eqn:Es; cbn [early flagged] in *; try (eexists; split; [reflexivity|done]).
  - destruct (Z.eqb_spec (r_count (queue d)) QUEUE_CAP) as [Hc|Hc].
    { eexists. split; [reflexivity|]. intros d' [= <-]. split; cbn; try done. by exists dr. }
    destruct (He eq_refl) as [Hnd Hty].
    destruct (ring_put_spec QUEUE_CAP (queue d) w Hr) as (q & -> & Hr' & Ha' & Hc' & _).
    { destruct Hr as (_ & _ & ? & _). lia. }
    cbn [mbind outcome_bind]. eexists. split; [reflexivity|]. intros d' [= <-].
    assert (workers d <> []) as Hne by (intros E; by rewrite E in Hn).
    destruct (bool_decide_reflect (type w = JOB_SHUTDOWN)) as [Et|Et]; split; cbn; try done;
      try (by rewrite Ha', Ho, app_assoc); try (by rewrite sigd_wake_worker_length);
      try (exists dr; by rewrite wake_worker_hands).
    + intros _. rewrite sigd_wake_worker_done. split; [done|]. apply Forall_app. split; [done|by repeat constructor].
    + intros _ _. by apply sigd_wake_worker_awake.
  - eexists. split; [reflexivity|]. intros d' [= <-]. split; cbn; try done. by exists dr.
  - eexists. split; [reflexivity|]. intros d' [= <-]. split; cbn; try done.
    + unfold wake_all. by rewrite length_fmap.
    + intros _. apply wake_all_none.
    + exists dr. by rewrite wake_all_hands.
Qed.

Lemma do_job_ok file w d c : sane (daemon_config d) -> get_file_config file = Ret c -> sane c ->
  exists d', do_job file w d = Ret d' /\ sane (daemon_config d') /\ queue d' = queue d /\ sig d' = sig d /\
    l_queued d' = l_queued d /\ l_taken d' = l_taken d /\ shutting_down d' = shutting_down d.
Proof.
  intros Hs Hc Hsc. unfold do_job. destruct (type w); try (by eexists).
  - rewrite Hc. cbn [mbind outcome_bind]. by eexists.
  - unfold sane in Hs. rewrite Hs, Z.eqb_refl. by eexists.
Qed.

Lemma sigd_worker_ok i file d : daemon_ok d -> sane_event (Worker i file) ->
  exists r, worker_step i file d = Ret r /\ forall d', r = Some d' -> daemon_ok d'.
Proof.
  intros Hok (cfg & Hcfg & Hsane). pose proof Hok as [Hr Ho Hn Hf Hfl He Ha Hb Hs (dr & Hj & Hdr)]. unfold worker_step, dequeueu_work.
  destruct (workers d !! i) as [p|] eqn:Ep; [|eexists; split; [reflexivity|done]].
  destruct (hands_split _ i p Ep) as (rest & Hh & Hq).
  assert (forall q, is_done q = false -> early (sig d) = true -> existsb is_done (<[i := q]> (workers d)) = false) as Hnd.
  { intros q Hq1 Hearly. apply not_true_is_false. intros H. apply existsb_old in H; [|done].
    by rewrite (proj1 (He Hearly)) in H. }
  assert (forall q, waiting q = false -> sig d = SDone -> existsb waiting (<[i := q]> (workers d)) = false) as Hnw.
  { intros q Hq1 Hdone. apply not_true_is_false. intros H. apply existsb_old in H; [|done]. by rewrite Hb in H. }
  assert (forall q, awake q = true -> existsb awake (<[i := q]> (workers d)) = true) as Haw
    by (intros q Hq1; by apply (existsb_new awake _ _ p)).
  destruct p as [| |w|w|]; [| |..]; try (eexists; split; [reflexivity|done]); cbn [hand app] in Hh.
  - destruct (Z.eqb_spec (r_count (queue d)) 0) as [Hc|Hc]; cbn [andb].
    + destruct (shutting_down d) eqn:Esh; cbn [negb andb]; eexists; (split; [reflexivity|]); intros d' [= <-];
        split; cbn; rewrite ?length_insert, ?Esh; try done; try lia;
        try (exists dr; rewrite Hq; cbn [hand app]; by rewrite <- Hh).
      * intros Hearly. destruct (sig d); done.
      * intros Hdone. by apply Hnw.
      * intros Hearly. split; [by apply Hnd|by apply He].
      * intros Hdone. by rewrite Hdone in Hfl.
    + rewrite andb_false_r. destruct (ring_nonempty QUEUE_CAP (queue d) Hr) as (w & l & Hl).
      { destruct Hr as (_ & _ & ? & _). lia. }
      destruct (ring_take_spec QUEUE_CAP (queue d) w l Hr Hl) as (-> & Hr' & Ha').
      cbn [mbind outcome_bind]. eexists. split; [reflexivity|]. intros d' [= <-].
      assert (early (wake_sig (sig d)) = early (sig d) /\ flagged (wake_sig (sig d)) = flagged (sig d)) as [Ee Ef]
        by (by destruct (sig d)).
      split; cbn; rewrite ?length_insert, ?Ee, ?Ef; try done.
      * by rewrite Ha', Ho, Hl, <- app_assoc.
      * by destruct (sig d).
      * intros Hearly. split; [by apply Hnd|by apply He].
      * intros _ _. by apply Haw.
      * intros Hdone. apply Hnw; [done|]. by destruct (sig d).
      * exists dr. split; [|done]. rewrite Hq, Hj, Hh. cbn [hand app].
        rewrite <- !app_assoc. rewrite (Permutation_app_comm _ [w]). by rewrite Permutation_middle.
  - eexists. split; [reflexivity|]. intros d' [= <-]. split; cbn; rewrite ?length_insert; try done.
    + intros Hearly. rewrite Hfl. destruct (sig d); try done; (split; [by apply Hnd|by apply He]).
    + intros Hearly _. rewrite Hfl. destruct (sig d); try done; by apply Haw.
    + intros Hdone. apply Hnw; [|done]. by destruct (shutting_down d).
    + destruct (shutting_down d) eqn:Esh.
      * exists (w :: dr). split; [|done]. rewrite Hj, Hh, Hq. cbn [hand app]. by rewrite Permutation_middle.
      * exists dr. split; [|done]. by rewrite Hj, Hh, Hq.
  - destruct (do_job_ok file w d cfg Hs Hcfg Hsane) as (d1 & -> & Hs1 & E1 & E2 & E3 & E4 & E5).
    cbn [mbind outcome_bind]. eexists. split; [reflexivity|]. intros d' [= <-].
    assert (early (sig d) = true -> type w <> JOB_SHUTDOWN) as Hty.
    { intros Hearly. destruct (He Hearly) as [_ Ht]. rewrite Forall_forall in Ht. apply Ht.
      by apply (hand_queued d i (WDoing w)). }
    split; cbn; rewrite ?length_insert, ?E1, ?E2, ?E3, ?E4, ?E5; try done.
    + intros Hearly. rewrite bool_decide_false by auto. split; [by apply Hnd|by apply He].
    + intros Hearly _. rewrite bool_decide_false by auto. by apply Haw.
    + intros Hdone. apply Hnw; [by destruct (bool_decide _)|done].
    + exists dr. split; [|done]. rewrite Hj, Hh, Hq. destruct (bool_decide _); cbn [hand app]; by rewrite <- app_assoc.
Qed.

Lemma sigd_step_ok ev d : daemon_ok d -> sane_event ev ->
  exists r, daemon_step ev d = Ret r /\ forall d', r = Some d' -> daemon_ok d'.
Proof.
  intros Hok Hev. destruct ev as [g|i|i file|i|]; cbn [daemon_step]; [|by apply sig_ok|by apply sigd_worker_ok|..];
    eexists; (split; [reflexivity|]); destruct Hok as [Hr Ho Hn Hf Hfl He Ha Hb Hs (dr & Hj & Hdr)].
  - destruct (sig d) eqn:Es; try done. intros d' [= <-]. split; cbn; try done. by exists dr.
  - destruct (workers d !! i) as [[]|] eqn:Ep; try done. intros d' [= <-].
    destruct (hands_split _ i _ Ep) as (rest & Hh & Hq). split; cbn; rewrite ?length_insert; try done.
    + intros Hearly. destruct (He Hearly) as [Hnd Ht]. split; [|done]. apply not_true_is_false. intros H.
      apply existsb_old in H; [|done]. by rewrite Hnd in H.
    + intros _ _. by apply (existsb_new awake _ _ WWait).
    + intros Hdone. apply not_true_is_false. intros H. apply existsb_old in H; [|done]. by rewrite Hb in H.
    + exists dr. split; [|done]. rewrite Hj, Hh, Hq. done.
  - destruct (sig d) eqn:Es; try done. intros d' [= <-]. split; cbn; try done. by exists dr.
Qed.

Lemma sigd_run_ok evs d : daemon_ok d -> Forall sane_event evs ->
  exists r, daemon_run evs d = Ret r /\ forall d', r = Some d' -> daemon_ok d'.
Proof.
  intros Hd Hevs. revert d Hd. induction Hevs as [|ev evs Hev _ IH]; intros d Hd; cbn [daemon_run].
  - eexists. split; [reflexivity|]. by intros d' [= <-].
  - destruct (sigd_step_ok ev d Hd Hev) as (r & -> & Hr). cbn [mbind outcome_bind].
    destruct r as [d1|]; [by apply IH, Hr|]. by eexists.
Qed.

Lemma sigd_init_ok c : sane c -> daemon_ok (daemon_init c).
Proof. intros Hc. split; try done. by exists []. Qed.

(** C27: The daemon handles every job once.  Under every schedule, the jobs the
    signal thread stored are those the workers took, in order, followed by those
    still in the ring; of the jobs taken, each was carried out, is in the hands
    of a worker or was dropped, and none is dropped before the shutdown flag is
    set. *)
Theorem jobs_handled_once c evs d :
  sane c -> Forall sane_event evs -> daemon_run evs (daemon_init c) = Ret (Some d) ->
  l_queued d = l_taken d ++ ring_abs (queue d) /\ zlen (ring_abs (queue d)) <= QUEUE_CAP /\
  exists dropped, l_taken d ≡ₚ l_done d ++ hands (workers d) ++ dropped /\
    (shutting_down d = false -> dropped = []).
Proof.
  intros Hc Hev H. destruct (sigd_run_ok evs _ (sigd_init_ok c Hc) Hev) as (r & E & Hok). rewrite H in E.
  injection E as <-. destruct (Hok d eq_refl) as [Hr Ho _ _ _ _ _ _ _ Hj]. split_and!; [done| |done].
  rewrite (ring_abs_length QUEUE_CAP) by done. destruct Hr as (_ & _ & ? & _). lia.
Qed.

(** C35: The daemon is memory safe and makes progress.  Under every schedule no
    step leaves the ring; before a shutdown is requested a queued job finds a
    worker awake that can step, and the signal thread waits for room only while
    the ring is full. *)
Theorem daemon_progress c evs :
  sane c -> Forall sane_event evs ->
  exists r, daemon_run evs (daemon_init c) = Ret r /\
    forall d, r = Some d ->
      (early (sig d) = true -> 0 < r_count (queue d) ->
         exists i, forall file c', get_file_config file = Ret c' -> sane c' ->
           exists d', worker_step i file d = Ret (Some d')) /\
      (forall w, sig d = SWaitFull w -> r_count (queue d) = QUEUE_CAP).
Proof.
  intros Hc Hev. destruct (sigd_run_ok evs _ (sigd_init_ok c Hc) Hev) as (r & E & Hok). exists r. split; [done|].
  intros d Hd. pose proof (Hok d Hd) as Hdok. split; [|exact (ok_full _ Hdok)].
  intros Hearly Hcnt. pose proof (ok_awake _ Hdok Hearly Hcnt) as Ha. apply existsb_exists in Ha as (p & Hin & Hp).
  apply list_elem_of_In, list_elem_of_lookup in Hin as [i Hi]. exists i. intros file c' Hf Hs.
  destruct (sigd_worker_ok i file d Hdok (ex_intro _ c' (conj Hf Hs))) as ([d'|] & E' & _); [by eexists|]. exfalso.
  unfold worker_step, dequeueu_work in E'. rewrite Hi in E'. destruct p as [| |w|w|]; try done.
  - destruct (_ && _)%bool; [done|]. destruct (_ && _)%bool; [done|]. by peel E' as x E1; destruct x.
  - by peel E' as x E1.
Qed.

(** ** Shutdown *)

(** Steps a worker still makes once the flag is set. *)
Definition remaining (p : worker_pc) : Z :=
  match p with WDoing _ => 3 | WLoop | WWait => 2 | WTook _ => 1 | WDone => 0 end.

Definition left_to_do (d : daemon_state) : Z := sum_of remaining (workers d).

(** Shutdown reaches every worker.  Once the signal thread has returned, no
    worker waits, every worker that has not returned can step, and every step of
    a worker brings the daemon closer to the state in which all have returned:
    at most fifteen more steps, after which the joins of main end. *)
Theorem daemon_shuts_down c evs d :
  sane c -> Forall sane_event evs -> daemon_run evs (daemon_init c) = Ret (Some d) -> sig d = SDone ->
  left_to_do d <= 15 /\ (left_to_do d = 0 <-> forallb is_done (workers d) = true) /\
  (forall i p file c', workers d !! i = Some p -> p <> WDone -> get_file_config file = Ret c' -> sane c' ->
     exists d', worker_step i file d = Ret (Some d') /\ left_to_do d' < left_to_do d /\ sig d' = SDone).
Proof.
  intros Hc Hev H Hs. destruct (sigd_run_ok evs _ (sigd_init_ok c Hc) Hev) as (r & E & Hok). rewrite H in E.
  injection E as <-. pose proof (Hok d eq_refl) as Hd. clear Hok. pose proof (ok_workers _ Hd) as Hn.
  pose proof (ok_bcast _ Hd Hs) as Hb. assert (shutting_down d = true) as Hsh by (by rewrite (ok_flag _ Hd), Hs).
  split_and!.
  - unfold left_to_do. assert (forall ws, sum_of remaining ws <= 3 * Z.of_nat (length ws)) as Hle.
    { intros ws. induction ws as [|p ws IH]; [done|]. rewrite sum_of_cons. cbn [length].
      assert (remaining p <= 3) by (destruct p; cbn; lia). lia. }
    specialize (Hle (workers d)). rewrite Hn in Hle. unfold MAX_WORKER in Hle. lia.
  - unfold left_to_do. clear. induction (workers d) as [|p ws IH]; [done|]. rewrite sum_of_cons. cbn [forallb].
    assert (0 <= sum_of remaining ws) by (apply sum_of_nonneg; intros []; cbn; lia).
    destruct p; cbn [remaining is_done andb]; split; try done; try lia; by intros ?%IH || (intros; apply IH; lia).
  - intros i p file c' Hi Hp Hf Hsc. pose proof Hd as [Hr _ _ _ _ _ _ _ Hsn _]. unfold worker_step, dequeueu_work, left_to_do.
    rewrite Hi, Hsh. assert (forall q d1, workers d1 = <[i := q]> (workers d) -> remaining q < remaining p ->
      sum_of remaining (workers d1) < sum_of remaining (workers d)) as Hlt.
    { intros q d1 -> Hlt. rewrite (sum_of_insert remaining _ i p q Hi). lia. }
    destruct p as [| |w|w|]; [| | | |done].
    + rewrite andb_false_r. cbn [andb]. destruct (Z.eqb_spec (r_count (queue d)) 0).
      { eexists. split; [reflexivity|]. split; [by apply (Hlt WDone)|done]. }
      destruct (ring_nonempty QUEUE_CAP (queue d) Hr) as (w & l & Hl); [destruct Hr as (_ & _ & ? & _); lia|].
      destruct (ring_take_spec QUEUE_CAP (queue d) w l Hr Hl) as (-> & _). cbn [mbind outcome_bind].
      eexists. split; [reflexivity|]. split; [by apply (Hlt (WTook w))|]. cbn. by rewrite Hs.
    + exfalso. apply not_true_iff_false in Hb. apply Hb, existsb_exists. exists WWait. split; [|done].
      by eapply list_elem_of_In, list_elem_of_lookup_2.
    + eexists. split; [reflexivity|]. split; [by apply (Hlt WDone)|done].
    + destruct (do_job_ok file w d c' Hsn Hf Hsc) as (d1 & -> & _ & _ & E2 & _). cbn [mbind outcome_bind].
      eexists. split; [reflexivity|]. split; [|by cbn; rewrite E2].
      destruct (bool_decide _); [by apply (Hlt WDone)|by apply (Hlt WLoop)].
Qed.

(** ** Concrete runs *)

Definition defaults : config := MkConfig 1000 500 (bstr "INFO").

(** Every worker looks at the empty queue, a signal arrives and is served. *)
Definition served : list event :=
  [Worker 0 None; Arrives SIGUSR1; Sig 3; Worker 0 None; Worker 0 None; Worker 0 None; Arrives SIGHUP; Sig 0].

Lemma served_sane : Forall sane_event served.
Proof.
  repeat constructor; exists defaults; done.
Qed.

Definition after_served : daemon_state :=
  match daemon_run served (daemon_init defaults) with Ret (Some d) => d | _ => daemon_init defaults end.

Lemma served_run : daemon_run served (daemon_init defaults) = Ret (Some after_served).
Proof. vm_compute. reflexivity. Qed.

Lemma jobs_handled_once_witness :
  work_done_count after_served = 1 /\
  l_queued after_served = l_taken after_served ++ ring_abs (queue after_served) /\
  zlen (ring_abs (queue after_served)) <= QUEUE_CAP.
Proof.
  destruct (jobs_handled_once defaults served after_served eq_refl served_sane served_run) as (H1 & H2 & _).
  split; [vm_compute; reflexivity|]. split; [exact H1|exact H2].
Defined.

Lemma daemon_progress_witness :
  exists r, daemon_run served (daemon_init defaults) = Ret r /\ exists d, r = Some d /\ early (sig d) = true.
Proof.
  destruct (daemon_progress defaults served eq_refl served_sane) as (r & E & _).
  exists r. split; [exact E|]. exists after_served. split; [|vm_compute; reflexivity].
  pose proof served_run as E'. rewrite E in E'. by injection E'.
Defined.

(** Ten jobs are queued and the daemon is told to stop before a worker runs. *)
Definition told_to_stop : list event :=
  mjoin (replicate 10 [Arrives SIGUSR1; Sig 0]) ++ [Arrives SIGTERM; Sig 0; Sig 0; Sig 0].

Definition stopping : daemon_state :=
  match daemon_run told_to_stop (daemon_init defaults) with Ret (Some d) => d | _ => daemon_init defaults end.

Lemma stopping_run : daemon_run told_to_stop (daemon_init defaults) = Ret (Some stopping).
Proof. vm_compute. reflexivity. Qed.

Lemma told_to_stop_sane : Forall sane_event told_to_stop.
Proof. apply Forall_app. split; [|by repeat constructor]. cbn. by repeat constructor. Qed.

Lemma daemon_shuts_down_witness : left_to_do stopping = 10 /\ left_to_do stopping <= 15.
Proof.
  assert (sig stopping = SDone) as Hs by (vm_compute; reflexivity).
  split; [vm_compute; reflexivity|].
  exact (proj1 (daemon_shuts_down defaults told_to_stop stopping eq_refl told_to_stop_sane stopping_run Hs)).
Defined.

(** Each worker then takes one job and returns. *)
Definition wind_down : list event := mjoin ((fun i => [Worker i None; Worker i None]) <$> seq 0 5).

Definition stopped : daemon_state :=
  match daemon_run (told_to_stop ++ wind_down) (daemon_init defaults) with
  | Ret (Some d) => d
  | _ => daemon_init defaults
  end.

(** Jobs queued before a SIGTERM are not finished.  With ten jobs waiting
    when the flag is set, each of the five workers takes one job and returns
    without carrying it out; the other jobs stay in the queue, and no work is
    done at all. *)
Theorem shutdown_drops_jobs :
  daemon_run (told_to_stop ++ wind_down) (daemon_init defaults) = Ret (Some stopped) /\
  forallb is_done (workers stopped) = true /\ sig stopped = SDone /\
  zlen (l_queued stopped) = 11 /\ zlen (l_taken stopped) = 5 /\ l_done stopped = [] /\ work_done_count stopped = 0.
Proof. split_and!; vm_compute; reflexivity. Qed.

(** ** The configuration tool and the daemon *)

Lemma digits_app acc l k : forallb is_digit l = true -> digits_from acc (l ++ k) = digits_from (digits_from acc l) k.
Proof.
  revert acc. induction l as [|b l IH]; intros acc H; [done|]. cbn [forallb digits_from app] in *.
  apply andb_true_iff in H as [-> Hl]. by apply IH.
Qed.

Lemma dec_digits_read k z : 0 <= z < 10 ^ Z.of_nat k -> (0 < k)%nat ->
  forallb is_digit (dec_digits k z) = true /\ digits_from 0 (dec_digits k z) = z.
Proof.
  revert z. induction k as [|k IH]; intros z Hz Hk; [lia|]. cbn [dec_digits]. unfold is_digit in *.
  destruct (Z.ltb_spec z 10).
  - cbn [forallb digits_from]. unfold is_digit. destruct (Z.leb_spec 48 (48 + z)), (Z.leb_spec (48 + z) 57); try lia.
    split; [done|cbn [andb]; lia].
  - assert (0 < k)%nat as Hk' by (destruct k; [change (10 ^ Z.of_nat 1) with 10 in Hz; lia|lia]).
    rewrite Nat2Z.inj_succ, Z.pow_succ_r in Hz by lia.
    pose proof (Z.mod_pos_bound z 10 ltac:(lia)). pose proof (Z.div_mod z 10 ltac:(lia)).
    destruct (IH (z / 10)) as [Hd Hv]; [split; [apply Z.div_pos; lia|apply Z.div_lt_upper_bound; lia]|done|].
    rewrite forallb_app, Hd. split.
    + cbn [forallb andb]. destruct (Z.leb_spec 48 (48 + z mod 10)), (Z.leb_spec (48 + z mod 10) 57); (done || lia).
    + rewrite digits_app, Hv by done. cbn [digits_from]. unfold is_digit.
      destruct (Z.leb_spec 48 (48 + z mod 10)), (Z.leb_spec (48 + z mod 10) 57); try lia. cbn [andb]. lia.
Qed.

Lemma atoi_fmt_d z : 0 <= z < 2 ^ 31 -> atoi (fmt_d z) = z.
Proof.
  intros Hz. unfold fmt_d. destruct (Z.ltb_spec z 0); [lia|].
  destruct (dec_digits_read 10 z ltac:(lia) ltac:(lia)) as [Hd Hv]. unfold atoi.
  assert (exists b l, dec_digits 10 z = b :: l /\ is_digit b = true) as (b & l & E & Hb).
  { destruct (dec_digits 10 z) as [|b l] eqn:E.
    - exfalso. cbn [dec_digits] in E. destruct (z <? 10); [done|]. by apply app_nil in E as [_ ?].
    - exists b, l. split; [done|]. cbn [forallb] in Hd. by apply andb_true_iff in Hd as [? _]. }
  assert (48 <= b <= 57) as Hr.
  { unfold is_digit in Hb. destruct (Z.leb_spec 48 b), (Z.leb_spec b 57); (done || lia). }
  rewrite E in *. cbn [skip_while]. assert (is_space b = false) as ->.
  { unfold is_space. destruct (Z.eqb_spec b 32), (Z.leb_spec 9 b), (Z.leb_spec b 13); (done || lia). }
  cbn [signed]. destruct (Z.eqb_spec b 45), (Z.eqb_spec b 43); try lia. rewrite Hv.
  rewrite Z.min_r by lia. unfold i32, wrap. rewrite Z.mod_small by lia.
  destruct (Z.ltb_spec z (2 ^ 31)); (done || lia).
Qed.

Lemma number_value_ok z : value_ok (fmt_d z) /\ zlen (fmt_d z) <= 11.
Proof.
  pose proof (Number.fmt_d_chars z) as Hc. split; [|apply Number.fmt_d_len]. split.
  - eapply Forall_impl; [exact Hc|]. intros b Hb. unfold LF. cbn in Hb. split; lia.
  - intros E. apply last_Some in E as [l E]. unfold Number.num_chars in Hc. rewrite E in Hc.
    apply Forall_app in Hc as [_ Hc]. inversion_clear Hc. unfold CR in *. lia.
Qed.

(** After the tool changed the delay, the file is read with exactly the new delay
    and the other settings it had. *)
Lemma changed_delay_read fuel a fs path content n c :
  path_ok path -> fs !! path = Some content -> content <> [] -> zlen content <= 255 ->
  fs !! tmp_file path = None -> smooth a content -> 0 <= n < 2 ^ 31 ->
  Forall one_cr (strtok_lines content) ->
  zlen (unlines (edited (bstr "delay") (fmt_d n) (strtok_lines content))) <= 255 ->
  get_file_config (Some content) = Ret c ->
  exists ops, Config.write_param_config (S fuel) a fs path (bstr "delay") (fmt_d n) = Ret (Config.Returns 0, ops) /\
    get_file_config (Config.perform_all ops fs !! path) = Ret (MkConfig (sample_rate c) n (log_level c)).
Proof.
  intros Hp Hc Hne Hsz Htmp Ha Hn Hcr Hsz' Hcfg. destruct (number_value_ok n) as [Hv Hl].
  assert (name_ok (bstr "delay")) as Hname.
  { split_and!; [by vm_compute|by vm_compute|apply (bool_decide_unpack _); by vm_compute..]. }
  destruct (write_short fuel a fs path (bstr "delay") (fmt_d n) content) as (ops & E & Hops); [done..| |].
  { unfold Config.assignment. rewrite !zlen_app. change (zlen (bstr "delay")) with 5.
    change (zlen [EQUALS]) with 1. change (zlen [LF]) with 1. unfold MAX_PATH_NAME. lia. }
  exists ops. split; [done|]. destruct (Hops fs Htmp) as (Hpath & _). rewrite Hpath.
  pose proof (strtok_lines_ok content) as Hls. destruct (edited_parsed _ _ _ Hname Hv Hls Hsz') as [Hnn Hf].
  assert (forall q, Sigd.read_param_config (Some (unlines (edited (bstr "delay") (fmt_d n) (strtok_lines content)))) q
    = find_param (edited (bstr "delay") (fmt_d n) (strtok_lines content)) q) as Hread.
  { intros q. unfold Sigd.read_param_config. destruct (Z.eqb_spec (zlen (unlines (edited (bstr "delay") (fmt_d n) (strtok_lines content)))) 0) as [E0|E0].
    - exfalso. apply Hnn, nil_length_inv. unfold zlen in E0. lia.
    - apply Hf. }
  assert (forall q, Sigd.read_param_config (Some content) q = find_param (strtok_lines content) q) as Hold.
  { intros q. unfold Sigd.read_param_config. destruct (Z.eqb_spec (zlen content) 0) as [E0|E0].
    - exfalso. apply Hne, nil_length_inv. unfold zlen in E0. lia.
    - change (Z.to_nat (BUFFER_SIZE - 1)) with 255%nat. by rewrite take_ge by (unfold zlen in Hsz; lia). }
  unfold get_file_config in Hcfg |- *. rewrite !Hread. rewrite !Hold in Hcfg.
  rewrite find_edited by done. rewrite !find_edited_other by (done || by vm_compute).
  peel Hcfg as r Er. peel Hcfg as dl Ed. injection Hcfg as <-. rewrite Er. cbn [mbind outcome_bind].
  unfold atoi_val. destruct (Z.ltb_spec (zlen (fmt_d n)) 64); [|lia]. rewrite atoi_fmt_d by done. done.
Qed.

Lemma run_cons ev evs d d1 : daemon_step ev d = Ret (Some d1) -> daemon_run (ev :: evs) d = daemon_run evs d1.
Proof. intros E. cbn [daemon_run]. by rewrite E. Qed.

(** A worker that is awake takes the only job and carries it out. *)
Lemma worker_serves i file d w d1 :
  workers d !! i = Some WLoop -> shutting_down d = false -> ring_inv QUEUE_CAP (queue d) ->
  ring_abs (queue d) = [w] -> type w <> JOB_SHUTDOWN ->
  do_job file w (set_workers (<[i := WDoing w]> (<[i := WTook w]> (workers d)))
    (set_workers (<[i := WTook w]> (workers d)) (set_sig (wake_sig (sig d))
      (set_l_taken (l_taken d ++ [w]) (set_queue (ring_advance QUEUE_CAP (queue d)) d))))) = Ret d1 ->
  exists ws, daemon_run [Worker i file; Worker i file; Worker i file] d =
    Ret (Some (set_workers ws (set_l_done (l_done d ++ [w]) d1))).
Proof.
  intros Hw Hsd Hr Ha Ht Hj. pose proof (lookup_lt_Some _ _ _ Hw) as Hi.
  destruct (ring_take_spec QUEUE_CAP _ w [] Hr Ha) as (Et & _ & _).
  assert (r_count (queue d) = 1) as Hc by (rewrite <- (ring_abs_length QUEUE_CAP), Ha by done; done).
  eexists. erewrite run_cons.
  2: { cbn [daemon_step]. unfold worker_step, dequeueu_work. rewrite Hw, Hc, Hsd. cbn [Z.eqb andb negb Pos.eqb]. rewrite Et. reflexivity. }
  erewrite run_cons.
  2: { cbn [daemon_step]. unfold worker_step, dequeueu_work. cbn [workers set_workers]. rewrite list_lookup_insert_eq by done.
       cbn [shutting_down set_workers set_sig set_l_taken set_queue]. rewrite Hsd. reflexivity. }
  erewrite run_cons.
  2: { cbn [daemon_step]. unfold worker_step, dequeueu_work. cbn [workers set_workers].
       rewrite list_lookup_insert_eq by (rewrite length_insert; done).
       cbn [workers set_workers] in Hj |- *. rewrite Hj. cbn [mbind outcome_bind]. reflexivity. }
  cbn [daemon_run]. reflexivity.
Qed.

(** A SIGHUP that reaches an idle daemon: the worker that is woken reads the file. *)
Lemma sighup_reloads i file d c :
  daemon_ok d -> sig d = SWait -> ring_abs (queue d) = [] -> workers d !! i = Some WWait ->
  get_file_config file = Ret c ->
  exists d', daemon_run [Arrives SIGHUP; Sig i; Worker i file; Worker i file; Worker i file] d = Ret (Some d') /\
    daemon_config d' = c /\ reload_config_count d' = reload_config_count d + 1.
Proof.
  intros Hok Hs Hq Hw Hf. pose proof (ok_ring _ Hok) as Hr. pose proof (ok_flag _ Hok) as Hfl. rewrite Hs in Hfl.
  assert (r_count (queue d) = 0) as Hc0 by (rewrite <- (ring_abs_length QUEUE_CAP), Hq by done; done).
  pose proof (lookup_lt_Some _ _ _ Hw) as Hi. set (w := Work JOB_RELOAD_CONFIG 1).
  destruct (ring_put_spec QUEUE_CAP (queue d) w Hr) as (q & Eq & Hrq & Haq & Hcq & _); [rewrite Hc0; done|].
  rewrite Hq in Haq. erewrite run_cons; [|cbn [daemon_step]; rewrite Hs; reflexivity].
  change (Work (convert_signal SIGHUP) (signo SIGHUP)) with w. erewrite run_cons.
  2: { cbn [daemon_step]. unfold sig_step, enqueue_work. cbn [sig set_sig queue]. rewrite Hc0. cbn [Z.eqb QUEUE_CAP].
       rewrite Eq. cbn [mbind outcome_bind]. reflexivity. }
  cbn [workers set_sig]. unfold wake_worker. rewrite Hw.
  match goal with |- exists d', daemon_run _ ?d0 = _ /\ _ => set (d1 := d0) end.
  destruct (worker_serves i file d1 w (set_reload_config_count (reload_config_count d + 1) (set_daemon_config c
    (set_workers (<[i := WDoing w]> (<[i := WTook w]> (workers d1)))
    (set_workers (<[i := WTook w]> (workers d1)) (set_sig (wake_sig (sig d1))
      (set_l_taken (l_taken d1 ++ [w]) (set_queue (ring_advance QUEUE_CAP (queue d1)) d1)))))))) as (ws & E).
  - by apply list_lookup_insert_eq.
  - done.
  - done.
  - done.
  - done.
  - unfold do_job. cbn [type w]. rewrite Hf. done.
  - eexists. split; [exact E|]. done.
Qed.

End SigdInv.
