(* ===== verification/Notify.v ===== *)
(** * Watching the configuration directory

    The inotify threads of [signal-aware-multithreaded-daemon] ([main.c] and
    [inc/notify_sig.c]) and of [safe-config-tool/notify.c]: decoding a buffer of
    [struct inotify_event]s, and asking for a reload when the configuration file
    changed.  The last part composes them with the configuration tool and the
    daemon. *)
From S2P Require Import Prelude Ring Config ConfigSafe Sigd SigdInv.
Import Config ConfigSafe Sigd SigdInv.
Open Scope c_scope.

Module Notify.

(** ** The masks *)

Definition IN_MODIFY : Z := 2.
Definition IN_MOVED_FROM : Z := 64.
Definition IN_MOVED_TO : Z := 128.
Definition IN_CREATE : Z := 256.
Definition IN_DELETE : Z := 512.

Definition has (mask bit : Z) : bool := negb (Z.land mask bit =? 0).

(** What [watch_config_dir] asks for. *)
Definition watch_mask : Z :=
  Z.lor (Z.lor (Z.lor (Z.lor IN_MODIFY IN_CREATE) IN_DELETE) IN_MOVED_FROM) IN_MOVED_TO.

Definition event_type (mask : Z) : list Z :=
  if has mask IN_MODIFY then bstr "MODIFY"
  else if has mask IN_CREATE then bstr "CREATE"
  else if has mask IN_DELETE then bstr "DELETE"
  else if has mask IN_MOVED_TO then bstr "MOVE_TO"
  else if has mask IN_MOVED_FROM then bstr "MOVE_FROM"
  else [].

(** ** Decoding the buffer *)

Definition SIZEOF_EVENT : Z := 16.

Fixpoint le_value (bs : list Z) : Z :=
  match bs with [] => 0 | b :: bs => b + 256 * le_value bs end.

(** The loop over [buffer_event]: the mask and name of every call of the handler.
    Reading behind the [len] bytes that were read, or a name that does not end,
    is undefined. *)
Fixpoint event_loop (fuel : nat) (buf : list Z) (ptr : Z) : outcome (list (Z * list Z)) :=
  match fuel with
  | O => Undef
  | S fuel =>
      if ptr <? zlen buf then
        mask ← read_at buf (ptr + 4) 4;
        len ← read_at buf (ptr + 12) 4;
        let len := le_value len in
        name ← read_at buf (ptr + SIZEOF_EVENT) len;
        _ ← (if ((0 <? len) && (zlen (c_string name) =? len))%bool then Undef else Ret tt);
        rest ← event_loop fuel buf (ptr + (SIZEOF_EVENT + len));
        Ret (if 0 <? len then (le_value mask, c_string name) :: rest else rest)
      else Ret []
  end.

(** Every event takes at least [SIZEOF_EVENT] bytes. *)
Definition events_of (buf : list Z) : outcome (list (Z * list Z)) := event_loop (S (length buf)) buf 0.

(** ** The watcher of the daemon *)

Definition SLASH : Z := 47.

(** [strrchr(path, '/')]: what is before and behind the last slash. *)
Fixpoint last_slash (path : list Z) : option (list Z * list Z) :=
  match path with
  | [] => None
  | b :: p =>
      match last_slash p with
      | Some (d, n) => Some (b :: d, n)
      | None => if b =? SLASH then Some ([], p) else None
      end
  end.

Definition config_name (path_config : list Z) : list Z :=
  match last_slash path_config with Some (_, n) => n | None => path_config end.

(** The directory [main] watches. *)
Definition watch_dir (path_config : list Z) : list Z :=
  match last_slash path_config with Some (d, _) => d | None => bstr "." end.

(** [strcpy(state->path_config, path)] into 256 bytes. *)
Definition set_path_config (path : list Z) : outcome (list Z) :=
  if zlen path <? 256 then Ret path else Undef.

(** Whether [watch_handler] sends SIGHUP. *)
Definition watch_handler (path_config : list Z) (shutting_down : bool) (path : list Z) : bool :=
  if negb shutting_down then bool_decide (path = config_name path_config) else false.

(** What [select] and [read] give in one round. *)
Inductive input := SelectIntr | SelectFails | Timeout | ReadIntr | ReadFails | Reads (bs : list Z).

(** A round, with [notify->is_running] at its start and [shutting_down] when it
    looks at it for the [k]-th time. *)
Record round := Round { is_running : bool; down : nat -> bool; gets : input }.

Fixpoint handle_events (path_config : list Z) (down : nat -> bool) (evs : list (Z * list Z)) : Z :=
  match evs with
  | [] => 0
  | (_, name) :: evs =>
      Z.b2z (watch_handler path_config (down 0%nat) name) + handle_events path_config (fun k => down (S k)) evs
  end.

(** Whether the loop goes on, and how many SIGHUPs the round sent. *)
Definition inotify_round (path_config : list Z) (r : round) : outcome (bool * Z) :=
  if negb (is_running r) then Ret (false, 0)
  else match gets r with
  | SelectIntr | ReadIntr => Ret (true, 0)
  | SelectFails | ReadFails => Ret (false, 0)
  | Timeout => Ret (negb (down r 0%nat), 0)
  | Reads bs => evs ← events_of bs; Ret (true, handle_events path_config (down r) evs)
  end.

(** Whether the thread still runs after the rounds, and the SIGHUPs it sent. *)
Fixpoint inotify_handler (path_config : list Z) (rs : list round) : outcome (bool * Z) :=
  match rs with
  | [] => Ret (true, 0)
  | r :: rs =>
      '(goes_on, n) ← inotify_round path_config r;
      if goes_on : bool then '(runs, m) ← inotify_handler path_config rs; Ret (runs, n + m)
      else Ret (false, n)
  end.

(** ** What the kernel writes *)

(** An event with the zeros behind its name. *)
Record ievent := IEvent { wd : Z; mask : Z; cookie : Z; name : list Z; pad : nat }.

Definition le4 (z : Z) : list Z := [z mod 256; z / 256 mod 256; z / 65536 mod 256; z / 16777216 mod 256].

Definition field (e : ievent) : list Z := name e ++ replicate (pad e) 0.

Definition encode (e : ievent) : list Z :=
  le4 (wd e) ++ le4 (mask e) ++ le4 (cookie e) ++ le4 (zlen (field e)) ++ field e.

(** A name is followed by a zero, and there is no field without a name. *)
Definition ievent_ok (e : ievent) : Prop :=
  in_u 32 (mask e) /\ in_u 32 (zlen (field e)) /\ nonzero (name e) /\
  (name e <> [] -> (0 < pad e)%nat) /\ (name e = [] -> pad e = 0%nat).

Definition calls (e : ievent) : list (Z * list Z) := if bool_decide (name e = []) then [] else [(mask e, name e)].

Lemma le4_value z : in_u 32 z -> le_value (le4 z) = z.
Proof.
  unfold in_u. intros Hz. unfold le4. cbn [le_value].
  pose proof (Z.div_mod z 256 ltac:(lia)). pose proof (Z.div_mod (z / 256) 256 ltac:(lia)).
  pose proof (Z.div_mod (z / 256 / 256) 256 ltac:(lia)).
  replace (z / 65536) with (z / 256 / 256) by (rewrite Z.div_div by lia; done).
  replace (z / 16777216) with (z / 256 / 256 / 256) by (rewrite !Z.div_div by lia; done).
  rewrite (Z.mod_small (z / 256 / 256 / 256)); [lia|].
  rewrite !Z.div_div by lia. split; [apply Z.div_pos; lia|apply Z.div_lt_upper_bound; lia].
Qed.

Lemma zlen_le4 z : zlen (le4 z) = 4.
Proof. done. Qed.

Lemma zlen_encode e : zlen (encode e) = SIZEOF_EVENT + zlen (field e).
Proof. unfold encode, SIZEOF_EVENT. rewrite !zlen_app, !zlen_le4. lia. Qed.

Lemma zlen_field e : zlen (field e) = zlen (name e) + Z.of_nat (pad e).
Proof. unfold field. rewrite zlen_app. unfold zlen at 2. by rewrite length_replicate. Qed.

Lemma field_name e : ievent_ok e -> name e <> [] ->
  c_string (field e) = name e /\ zlen (name e) < zlen (field e) /\ 0 < zlen (field e).
Proof.
  intros (_ & _ & Hn & Hpad & _) Hne. rewrite zlen_field. pose proof (zlen_nonneg (name e)).
  specialize (Hpad Hne). split; [|lia]. unfold field. destruct (pad e) as [|k]; [lia|].
  cbn [replicate]. by apply c_string_app.
Qed.

(** The fields of an event in the buffer. *)
Lemma encode_reads pre e post :
  let buf := pre ++ encode e ++ post in
  read_at buf (zlen pre + 4) 4 = Ret (le4 (mask e)) /\
  read_at buf (zlen pre + 12) 4 = Ret (le4 (zlen (field e))) /\
  read_at buf (zlen pre + SIZEOF_EVENT) (zlen (field e)) = Ret (field e).
Proof.
  intros buf. unfold buf, encode. split_and!.
  - apply (read_at_segment _ _ _ (pre ++ le4 (wd e)) _ (le4 (cookie e) ++ le4 (zlen (field e)) ++ field e ++ post));
      [by rewrite <- !app_assoc|by rewrite zlen_app|done].
  - apply (read_at_segment _ _ _ (pre ++ le4 (wd e) ++ le4 (mask e) ++ le4 (cookie e)) _ (field e ++ post));
      [by rewrite <- !app_assoc|by rewrite !zlen_app|done].
  - apply (read_at_segment _ _ _ (pre ++ le4 (wd e) ++ le4 (mask e) ++ le4 (cookie e) ++ le4 (zlen (field e))) _ post);
      [by rewrite <- !app_assoc|by rewrite !zlen_app|done].
Qed.

Lemma event_loop_step fuel pre e post :
  ievent_ok e ->
  event_loop (S fuel) (pre ++ encode e ++ post) (zlen pre) =
    (rest ← event_loop fuel (pre ++ encode e ++ post) (zlen (pre ++ encode e)); Ret (calls e ++ rest)).
Proof.
  intros He. cbn [event_loop]. pose proof (zlen_encode e) as Hl. pose proof (zlen_nonneg (field e)).
  pose proof (zlen_nonneg post). unfold SIZEOF_EVENT in Hl.
  destruct (Z.ltb_spec (zlen pre) (zlen (pre ++ encode e ++ post))) as [_|Hb];
    [|rewrite !zlen_app, Hl in Hb; lia].
  destruct (encode_reads pre e post) as (-> & -> & Hf).
  cbn [mbind outcome_bind]. pose proof He as (Hm & Hz & _ & _ & Hnil). rewrite (le4_value _ Hz), (le4_value _ Hm), Hf.
  cbn [mbind outcome_bind]. rewrite zlen_app, zlen_encode. unfold calls.
  destruct (bool_decide_reflect (name e = [])) as [En|En].
  - assert (zlen (field e) = 0) as -> by (rewrite zlen_field, En, Hnil by done; done).
    change (0 <? 0) with false. cbn [andb mbind outcome_bind app]. done.
  - destruct (field_name e He En) as (-> & Hlt & Hpos). destruct (Z.ltb_spec 0 (zlen (field e))); [|lia].
    destruct (Z.eqb_spec (zlen (name e)) (zlen (field e))); [lia|]. cbn [andb mbind outcome_bind app]. done.
Qed.

Lemma event_loop_all fuel pre es :
  Forall ievent_ok es -> (length es < fuel)%nat ->
  event_loop fuel (pre ++ concat (encode <$> es)) (zlen pre) = Ret (concat (calls <$> es)).
Proof.
  intros He. revert fuel pre. induction He as [|e es He Hes IH]; intros fuel pre Hf; (destruct fuel as [|fuel]; [cbn in Hf; lia|]).
  - cbn [event_loop fmap list_fmap concat]. rewrite app_nil_r. destruct (Z.ltb_spec (zlen pre) (zlen pre)); [lia|done].
  - cbn [fmap list_fmap concat]. rewrite event_loop_step by done. rewrite app_assoc, IH by (cbn in Hf; lia). done.
Qed.

Lemma events_fit es : (length es <= length (concat (encode <$> es)))%nat.
Proof.
  induction es as [|e es IH]; [done|]. cbn [fmap list_fmap concat length]. rewrite length_app.
  pose proof (zlen_encode e). pose proof (zlen_nonneg (field e)). unfold zlen, SIZEOF_EVENT in *. lia.
Qed.

Lemma events_decoded es : Forall ievent_ok es -> events_of (concat (encode <$> es)) = Ret (concat (calls <$> es)).
Proof.
  intros H. pose proof (events_fit es). unfold events_of.
  apply (event_loop_all _ []); [done|lia].
Qed.

(** ** Reloads *)

Lemma handle_events_app path down evs evs' :
  handle_events path down (evs ++ evs') =
    handle_events path down evs + handle_events path (fun k => down (length evs + k)%nat) evs'.
Proof.
  revert down. induction evs as [|[m n] evs IH]; intros down; [done|]. cbn [app handle_events length]. rewrite IH.
  rewrite Z.add_assoc. done.
Qed.

(** Before shutdown the handler counts the events that name the file. *)
Definition named (path : list Z) (evs : list (Z * list Z)) : Z :=
  sum_of (fun ev : Z * list Z => Z.b2z (bool_decide (ev.2 = config_name path))) evs.

Lemma handle_events_named path down evs : (forall k, down k = false) -> handle_events path down evs = named path evs.
Proof.
  revert down. induction evs as [|[m n] evs IH]; intros down H; [done|]. cbn [handle_events]. rewrite IH by done.
  unfold watch_handler. rewrite H. done.
Qed.

Lemma handle_events_down path down evs : (forall k, down k = true) -> handle_events path down evs = 0.
Proof.
  revert down. induction evs as [|[m n] evs IH]; intros down H; [done|]. cbn [handle_events]. rewrite IH by done.
  unfold watch_handler. by rewrite H.
Qed.

(** A round that reads events while the daemon runs. *)
Definition delivers (es : list ievent) : round := Round true (fun _ => false) (Reads (concat (encode <$> es))).

Lemma named_app path evs evs' : named path (evs ++ evs') = named path evs + named path evs'.
Proof. apply sum_of_app. Qed.

Lemma delivered_all path batches :
  Forall (Forall ievent_ok) batches ->
  inotify_handler path (delivers <$> batches) = Ret (true, named path (concat (calls <$> concat batches))).
Proof.
  induction 1 as [|es batches He _ IH]; [done|]. cbn [fmap list_fmap inotify_handler].
  change (inotify_round path (delivers es)) with
    (evs ← events_of (concat (encode <$> es)); Ret (true, handle_events path (fun _ => false) evs)).
  rewrite events_decoded by done. cbn [mbind outcome_bind]. rewrite handle_events_named by done.
  change (list_fmap _ _ delivers batches) with (delivers <$> batches). rewrite IH. cbn [mbind outcome_bind concat].
  by rewrite fmap_app, concat_app, named_app.
Qed.

(** ** Changes made by the configuration tool *)

(** What inotify reports of an operation in the watched directory: a change of a
    file names it, and a renaming gives one event for each of its two names. *)
Definition reported (o : op) (es : list ievent) : Prop :=
  match o with
  | Create p | WriteAt p _ _ | Unlink p => Forall (fun e => name e = config_name p) es
  | Rename p q => exists e e', es = [e; e'] /\ name e = config_name p /\ name e' = config_name q
  end.

Lemma last_slash_suffix p s : Forall (fun b => b <> SLASH) s ->
  last_slash (p ++ s) = match last_slash p with Some (d, n) => Some (d, n ++ s) | None => None end.
Proof.
  intros Hs. assert (last_slash s = None) as H0.
  { induction Hs as [|b s Hb _ IH]; [done|]. cbn [last_slash]. rewrite IH. by destruct (Z.eqb_spec b SLASH). }
  induction p as [|b p IH]; [done|]. cbn [app last_slash]. rewrite IH.
  destruct (last_slash p) as [[d n]|]; [done|]. by destruct (b =? SLASH).
Qed.

Lemma config_name_suffix p s : Forall (fun b => b <> SLASH) s -> config_name (p ++ s) = config_name p ++ s.
Proof. intros Hs. unfold config_name. rewrite last_slash_suffix by done. by destruct (last_slash p) as [[d n]|]. Qed.

Lemma sibling_name path s : path_ok path -> zlen s = 4 -> Forall (fun b => b <> SLASH) s ->
  config_name (sibling path s) <> config_name path.
Proof.
  intros Hp Hs Hsl E. rewrite sibling_fits, config_name_suffix in E by done. apply (f_equal length) in E.
  rewrite length_app in E. unfold zlen in Hs. lia.
Qed.

(** The operation is on a file of another name in the directory. *)
Definition elsewhere (path : list Z) (o : op) : Prop :=
  match o with
  | Create p | WriteAt p _ _ | Unlink p => config_name p <> config_name path
  | Rename _ _ => False
  end.

Lemma tmp_elsewhere path : path_ok path -> config_name (tmp_file path) <> config_name path.
Proof. intros H. apply sibling_name; [done|done|]. apply (bool_decide_unpack _). by vm_compute. Qed.

Lemma bak_elsewhere path : path_ok path -> config_name (back_up_path path) <> config_name path.
Proof. intros H. apply sibling_name; [done|done|]. apply (bool_decide_unpack _). by vm_compute. Qed.

Lemma copy_loop_elsewhere path fuel copy content out i o r ops :
  config_name out <> config_name path -> copy_loop fuel copy content out i o r = Ret ops ->
  Forall (elsewhere path) ops.
Proof.
  intros Hne. revert copy i o r ops. induction fuel as [|fuel IH]; intros copy i o r ops H; [done|].
  cbn [copy_loop] in H. destruct (0 <? _).
  - peel H as rest E. injection H as <-. constructor; [done|]. by eapply IH.
  - injection H as <-. by repeat constructor.
Qed.

Lemma writes_elsewhere path p off ws :
  config_name p <> config_name path -> Forall (elsewhere path) (writes_from p off ws).
Proof. intros Hne. revert off. induction ws as [|w ws IH]; intros off; constructor; [done|apply IH]. Qed.

(** A successful change works on other files up to its one renaming. *)
Lemma write_renames fuel a fs path param value ops :
  path_ok path -> a_rename a = None ->
  Config.write_param_config fuel a fs path param value = Ret (Returns 0, ops) ->
  exists before, ops = before ++ [Rename (tmp_file path) path; Unlink (back_up_path path)] /\
    Forall (elsewhere path) before.
Proof.
  intros Hp Ha H. pose proof (tmp_elsewhere path Hp). pose proof (bak_elsewhere path Hp).
  unfold Config.write_param_config in H. destruct (fs !! path) as [content|]; [|done].
  destruct (a_lock a); [|done]. cbn [negb] in H. peel H as backup Eb.
  destruct (read_file (a_read a) content) as [n buf]. destruct (n =? 0); [done|]. destruct (bool_decide _); [done|].
  peel H as u Eu. peel H as ws Ew. destruct (a_fsync a); [|done]. cbn [negb] in H. rewrite Ha in H.
  cbn [safe_write_file app] in H. injection H as <-. eexists. split; [reflexivity|].
  unfold back_up_file in Eb. peel Eb as rest Er. injection Eb as <-. apply Forall_app. split.
  - constructor; [done|]. by eapply copy_loop_elsewhere.
  - constructor; [done|]. by apply writes_elsewhere.
Qed.

Lemma named_event path e : config_name path <> [] ->
  named path (calls e) = Z.b2z (bool_decide (name e = config_name path)).
Proof.
  intros Hne. unfold calls. destruct (bool_decide_reflect (name e = [])) as [E|E].
  - rewrite E, bool_decide_false by congruence. done.
  - unfold named. rewrite sum_of_cons. cbn [snd]. apply Z.add_0_r.
Qed.

Lemma named_elsewhere path o es : elsewhere path o -> reported o es -> named path (concat (calls <$> es)) = 0.
Proof.
  intros Ho Hr. assert (Forall (fun e => name e <> config_name path) es) as H.
  { destruct o as [p|p off bs|p q|p]; cbn in Ho, Hr; try done; (eapply Forall_impl; [exact Hr|]); by intros e ->. }
  clear Hr. induction H as [|e es He _ IH]; [done|]. cbn [fmap list_fmap concat]. rewrite named_app, IH.
  unfold calls. destruct (bool_decide (name e = [])); [done|]. unfold named. cbn. by rewrite bool_decide_false.
Qed.

Lemma named_all_elsewhere path ops reports :
  Forall (elsewhere path) ops -> Forall2 reported ops reports -> named path (concat (calls <$> concat reports)) = 0.
Proof.
  intros Ho Hr. induction Hr as [|o es ops reports He _ IH]; [done|]. inversion_clear Ho.
  cbn [concat]. rewrite fmap_app, concat_app, named_app, IH by done. by erewrite named_elsewhere.
Qed.

Lemma change_noticed path fuel a fs param value ops reports :
  path_ok path -> config_name path <> [] -> a_rename a = None ->
  Config.write_param_config fuel a fs path param value = Ret (Returns 0, ops) ->
  Forall2 reported ops reports -> named path (concat (calls <$> concat reports)) = 1.
Proof.
  intros Hp Hne Ha Hw Hr. destruct (write_renames fuel a fs path param value ops Hp Ha Hw) as (before & -> & Hb).
  apply Forall2_app_inv_l in Hr as (r1 & r2 & H1 & H2 & ->).
  inversion H2 as [|? es ? r3 Hren H3]; subst. destruct Hren as (e & e' & -> & Ne & Ne'). inversion H3 as [|? es' ? r4 He H4]; subst.
  inversion H4; subst. rewrite concat_app, fmap_app, concat_app, named_app, (named_all_elsewhere path before) by done.
  cbn [concat app fmap list_fmap]. rewrite app_nil_r, !named_app.
  change (list_fmap _ _ calls es') with (calls <$> es').
  rewrite (named_elsewhere path (Unlink (back_up_path path)) es') by (done || by apply bak_elsewhere).
  rewrite !named_event, Ne, Ne', (bool_decide_false (config_name (tmp_file path) = _)), bool_decide_true
    by (done || by apply tmp_elsewhere). done.
Qed.

(** However the events are spread over reads, one SIGHUP is sent: none for the
    copies the tool makes, one for the renaming. *)
Lemma change_delivered path fuel a fs param value ops reports batches :
  path_ok path -> config_name path <> [] -> a_rename a = None ->
  Config.write_param_config fuel a fs path param value = Ret (Returns 0, ops) ->
  Forall2 reported ops reports -> concat batches = concat reports -> Forall (Forall ievent_ok) batches ->
  inotify_handler path (delivers <$> batches) = Ret (true, 1).
Proof.
  intros Hp Hne Ha Hw Hr Hb Hok. rewrite delivered_all by done.
  by rewrite Hb, (change_noticed path fuel a fs param value ops).
Qed.


Definition daemon_conf : list Z := unlines [bstr "sample_rate=10"; bstr "delay=500"; bstr "log_level=WARN"].

(** All workers have found the queue empty. *)
Definition idle : daemon_state := set_workers (replicate 5 WWait) (daemon_init defaults).

Lemma idle_ok : daemon_ok idle.
Proof. split; try done. by exists []. Qed.


(** ** Shutdown of the watcher *)

(** Rounds during shutdown whose reads give whole events. *)
Definition shutting (r : round) : Prop :=
  is_running r = true /\ (forall k, down r k = true) /\
  match gets r with Reads bs => exists es, Forall ievent_ok es /\ bs = concat (encode <$> es) | _ => True end.

(** Once the daemon shuts down the watcher sends no SIGHUP any more, and the
    first quiet second ends it. *)
Lemma watcher_stops path rs :
  Forall shutting rs ->
  exists runs, inotify_handler path rs = Ret (runs, 0) /\
    (Exists (fun r => gets r = Timeout) rs -> runs = false).
Proof.
  induction 1 as [|r rs (Hrun & Hdown & Hr) _ (runs & IH & Hend)].
  { exists true. split; [done|]. intros H. by inversion H. }
  cbn [inotify_handler]. unfold inotify_round. rewrite Hrun. cbn [negb].
  assert (forall (P : round -> Prop), ~ P r -> Exists P (r :: rs) -> Exists P rs) as Hskip
    by (intros P HP HE; by inversion HE).
  destruct (gets r) eqn:E; cbn [mbind outcome_bind]; try rewrite Hdown; cbn [negb].
  - rewrite IH. cbn [mbind outcome_bind]. exists runs. split; [done|]. intros Hx%Hskip; [auto|congruence].
  - exists false. done.
  - exists false. done.
  - rewrite IH. cbn [mbind outcome_bind]. exists runs. split; [done|]. intros Hx%Hskip; [auto|congruence].
  - exists false. done.
  - destruct Hr as (es & Hes & ->). rewrite events_decoded by done. cbn [mbind outcome_bind].
    rewrite IH, handle_events_down by done. cbn [mbind outcome_bind]. exists runs. split; [done|].
    intros Hx%Hskip; [auto|congruence].
Qed.

(** For a file in the root directory the name of the directory to watch is empty. *)
Lemma root_directory_not_watched : watch_dir (bstr "/daemon.conf") = [].
Proof. done. Qed.

End Notify.
