(* ===== verification/Watch.v ===== *)
(** * The watchers and the command lines

    [signal-aware-multithreaded-daemon/inc/notify_sig.c] and the [main] of the daemon,
    [safe-config-tool/notify.c] as a program, and the [main] of the configuration tool:
    the inotify descriptor from its creation to its end, the threads that are created and
    joined, and the arguments. *)
From S2P Require Import Prelude Sys Ring Config ConfigSafe Sigd SigdInv Notify.
Import Sys Config ConfigSafe Sigd Notify.
Open Scope c_scope.

Module Watch.

(** ** The inotify descriptor *)

(** A call that may end the process. *)
Inductive left (A : Type) := Exit | Back (a : A).
Arguments Exit {A}.
Arguments Back {A} a.

Definition init_monitor (s : sys) : left Z * sys :=
  let '(inotify_fd, s) := open_fd s in (if inotify_fd <? 0 then Exit else Back inotify_fd, s).

(** The watch, or -1. *)
Definition add_monitor (inotify_fd : Z) (path : option (list Z)) (s : sys) : left Z * sys :=
  match path with
  | None => (Exit, s)
  | Some _ => let '(watch_fd, s) := call s in (Back watch_fd, s)
  end.

Definition remove_monitor (inotify_fd watch_fd : Z) (s : sys) : Z * sys :=
  (0, if (negb (inotify_fd =? -1) && negb (watch_fd =? -1))%bool then close inotify_fd (call s).2 else s).

(** Of the daemon.  The descriptor stays open when the directory cannot be watched. *)
Definition watch_config_dir (watch_dir : option (list Z)) (s : sys) : left Z * sys :=
  match watch_dir with
  | None => (Back (-1), s)
  | Some _ =>
      match init_monitor s with
      | (Exit, s) => (Exit, s)
      | (Back fd, s) =>
          match add_monitor fd watch_dir s with
          | (Exit, s) => (Exit, s)
          | (Back ret, s) => (Back (if ret <? 0 then -1 else fd), s)
          end
      end
  end.

(** ** The watching program of the configuration tool *)

Definition config_watch (path : list Z) (mask : Z) : list Z := event_type mask ++ bstr ": " ++ path ++ [10].

(** What [read] answers. *)
Inductive reading := Interrupted | Broken | Got (bs : list Z).

(** Whether it has returned, and what has been printed. *)
Fixpoint watch_loop (reads : list reading) : outcome (bool * list Z) :=
  match reads with
  | [] => Ret (false, [])
  | Interrupted :: rs => watch_loop rs
  | Broken :: _ => Ret (true, [])
  | Got bs :: rs =>
      evs ← events_of bs;
      '(over, text) ← watch_loop rs;
      Ret (over, concat ((fun ev => config_watch ev.2 ev.1) <$> evs) ++ text)
  end.

(** [None]: it is still waiting for events. *)
Definition tool_watch (watch_dir : option (list Z)) (reads : list reading) (s : sys) :
    outcome (option (left Z) * list Z * sys) :=
  match watch_dir with
  | None => Ret (Some (Back (-1)), [], s)
  | Some _ =>
      match init_monitor s with
      | (Exit, s) => Ret (Some Exit, [], s)
      | (Back fd, s) =>
          match add_monitor fd watch_dir s with
          | (Exit, s) => Ret (Some Exit, [], s)
          | (Back ret, s) =>
              if ret <? 0 then Ret (Some (Back (-1)), [], s)
              else
                '(over, text) ← watch_loop reads;
                Ret (if over : bool then (Some (Back (-1)), text, close fd s) else (None, text, s))
          end
      end
  end.

Definition watch_main (args : list (list Z)) (reads : list reading) (s : sys) : outcome (option (left Z) * list Z * sys) :=
  match args with
  | [] => Ret (Some Exit, [], s)
  | dir :: _ =>
      '(r, text, s) ← tool_watch (Some dir) reads s;
      Ret (match r with Some (Back _) => Some (Back 0) | r => r end, text, s)
  end.

(** ** The configuration tool *)

Definition config_main (fuel : nat) (a : answers) (fs : gmap (list Z) (list Z)) (args : list (list Z)) :
    outcome (ending * option (list Z) * list op) :=
  match args with
  | command :: path :: more =>
      if bool_decide (command = bstr "read") then
        match more with
        | [param] => '(e, shown) ← Config.read_param_config (a_lock a) (a_read a) fs path param; Ret (e, shown, [])
        | _ => Ret (Returns 1, None, [])
        end
      else if bool_decide (command = bstr "write") then
        match more with
        | [param; value] => '(e, ops) ← write_param_config fuel a fs path param value; Ret (e, None, ops)
        | _ => Ret (Returns 1, None, [])
        end
      else Ret (Returns 1, None, [])
  | _ => Ret (Returns 1, None, [])
  end.

(** ** The daemon *)

Inductive thread := WorkerThread | SigThread.

(** [pthread_t threads[]], unset at first. *)
Definition set_thread (ts : list (option thread)) (i : nat) (t : thread) : outcome (list (option thread)) :=
  if (i <? length ts)%nat then Ret (<[i := Some t]> ts) else Undef.

Fixpoint create_workers (ts : list (option thread)) (i n : nat) : outcome (list (option thread)) :=
  match n with
  | O => Ret ts
  | S n => ts ← set_thread ts i WorkerThread; create_workers ts (S i) n
  end.

Definition thread_create (ts : list (option thread)) (num_workers : nat) : outcome (Z * list (option thread)) :=
  if (num_workers <? 1)%nat then Ret (-1, ts)
  else
    ts ← create_workers ts 0 num_workers;
    ts ← set_thread ts num_workers SigThread;
    Ret (0, ts).

(** Joining a thread that was not created is undefined. *)
Fixpoint join_threads (ts : list (option thread)) (i n : nat) : outcome (list thread) :=
  match n with
  | O => Ret []
  | S n =>
      o ← deref (ts !! i); t ← deref o; rest ← join_threads ts (S i) n; Ret (t :: rest)
  end.

(** The result and the threads joined. *)
Definition die_thread (ts : list (option thread)) (num_workers : nat) : outcome (Z * list thread) :=
  if (num_workers <? 1)%nat then Ret (-1, []) else joined ← join_threads ts 0 (num_workers + 1); Ret (0, joined).

Definition EXIT_SUCCESS : Z := 0.

(** [main]: the path of the configuration file is the argument or a default; the
    inotify thread closes its descriptor when it ends, and [main] closes it again.
    The result with the threads joined. *)
Definition daemon_main (args : list (list Z)) (s : sys) : outcome (left (Z * list thread) * sys) :=
  path ← set_path_config (default (bstr "./config/config.txt") (head args));
  match watch_config_dir (Some (watch_dir path)) s with
  | (Exit, s) => Ret (Exit, s)
  | (Back ret, s) =>
      if ret <? 0 then Ret (Back (-1, []), s)
      else
        '(r, ts) ← thread_create (replicate (MAX_WORKER + 1) None) MAX_WORKER;
        if negb (r =? 0) then Ret (Back (-1, []), s)
        else
          '(r, joined) ← die_thread ts MAX_WORKER;
          if negb (r =? 0) then Ret (Back (-1, joined), s)
          else
            let s := close ret s in
            Ret (Back (EXIT_SUCCESS, joined), close ret s)
  end.

(** ** Every event is printed *)

(** What the kernel delivers between interruptions. *)
Definition delivers (r : reading) (es : list ievent) : Prop :=
  match r with
  | Interrupted => es = []
  | Broken => False
  | Got bs => Forall ievent_ok es /\ bs = concat (encode <$> es)
  end.

Definition printed (es : list ievent) : list Z :=
  concat ((fun ev => config_watch ev.2 ev.1) <$> concat (calls <$> es)).

Lemma printed_app es es' : printed (es ++ es') = printed es ++ printed es'.
Proof. unfold printed. by rewrite fmap_app, concat_app, fmap_app, concat_app. Qed.

Lemma watch_loop_prints reads ess tail : Forall2 delivers reads ess ->
  watch_loop (reads ++ tail) = '(over, text) ← watch_loop tail; Ret (over, printed (concat ess) ++ text).
Proof.
  induction 1 as [|r es reads ess Hr _ IH]; cbn [app concat]; [by destruct (watch_loop tail) as [[]|]|].
  destruct r as [| |bs]; cbn in Hr; [subst; cbn [watch_loop app]; done|done|]. destruct Hr as [Hok ->].
  cbn [watch_loop]. rewrite events_decoded by done. cbn [mbind outcome_bind]. rewrite IH.
  destruct (watch_loop tail) as [[over text]|]; [|done]. cbn [mbind outcome_bind]. by rewrite printed_app, <- app_assoc.
Qed.

Lemma init_monitor_spec s : sys_ok s -> exists s',
  (init_monitor s = (Exit, s') /\ same_handles s s') \/ exists fd, init_monitor s = (Back fd, s') /\ opens s fd s'.
Proof.
  intros Hok. unfold init_monitor. pose proof (open_fd_spec s Hok) as H. destruct (open_fd s) as [fd s1]. exists s1. cbn in H.
  destruct H as [[-> Hs]|Ho]; [by left|]. right. exists fd. destruct Ho as (H0 & Ho). destruct (Z.ltb_spec fd 0); [lia|done].
Qed.

(** The watching program prints a line for every event with a name, in the order in
    which they happened and however they are spread over its reads, until a read
    fails; then it has closed its descriptor. *)
Theorem watcher_prints_events dir reads ess s :
  sys_ok s -> Forall2 delivers reads ess ->
  exists r text s', watch_main [dir] (reads ++ [Broken]) s = Ret (Some r, text, s') /\
    (r = Exit /\ text = [] /\ same_handles s s' \/
     r = Back 0 /\ (text = printed (concat ess) /\ same_handles s s' \/ text = [] /\ exists fd, opens s fd s')).
Proof.
  intros Hok Hd. unfold watch_main, tool_watch.
  destruct (init_monitor_spec s Hok) as (s1 & [[-> Hs]|(fd & -> & Ho)]); [do 3 eexists; split; [done|]; by left|].
  unfold add_monitor. pose proof (call_same s1) as Hc. destruct (call s1) as [r s2]. cbn in Hc. destruct (r <? 0).
  - do 3 eexists. split; [done|]. right. split; [done|]. right. split; [done|]. exists fd. by apply (opens_same s fd s1).
  - rewrite (watch_loop_prints reads ess [Broken] Hd). cbn [watch_loop mbind outcome_bind]. rewrite app_nil_r.
    do 3 eexists. split; [done|]. right. split; [done|]. left. split; [done|]. by apply (opens_close s fd s1).
Qed.

(** ** The daemon joins what it has created *)

(** When [main] returns successfully it has joined the five workers and the signal
    thread, each once, and has the descriptors it started with; the array is large
    enough. *)
Theorem daemon_main_joins path s :
  sys_ok s -> zlen path < 256 ->
  exists r s', daemon_main [path] s = Ret (r, s') /\
    match r with
    | Exit => same_handles s s'
    | Back (0, joined) => joined = replicate MAX_WORKER WorkerThread ++ [SigThread] /\ same_handles s s'
    | Back _ => exists fd, opens s fd s'
    end.
Proof.
  intros Hok Hp. unfold daemon_main, set_path_config. cbn [head default from_option id]. apply Z.ltb_lt in Hp. rewrite Hp.
  cbn [mbind outcome_bind]. unfold watch_config_dir.
  destruct (init_monitor_spec s Hok) as (s1 & [[-> Hs]|(fd & -> & Ho)]); [do 2 eexists; split; [done|]; done|].
  unfold add_monitor. pose proof (call_same s1) as Hc. destruct (call s1) as [r s2]. cbn in Hc. destruct (r <? 0).
  - do 2 eexists. split; [done|]. exists fd. by apply (opens_same s fd s1).
  - destruct (Z.ltb_spec fd 0); [destruct Ho; lia|].
    assert (E : thread_create (replicate (MAX_WORKER + 1) None) MAX_WORKER =
      Ret (0, Some <$> (replicate MAX_WORKER WorkerThread ++ [SigThread]))) by reflexivity.
    assert (E' : die_thread (Some <$> (replicate MAX_WORKER WorkerThread ++ [SigThread])) MAX_WORKER =
      Ret (0, replicate MAX_WORKER WorkerThread ++ [SigThread])) by reflexivity.
    rewrite E. cbn [mbind outcome_bind]. change (negb (0 =? 0)) with false. cbn match. rewrite E'. cbn [mbind outcome_bind].
    change (negb (0 =? 0)) with false. do 2 eexists. split; [done|]. split; [done|].
    pose proof (opens_close s fd s1 s2 Ho Hc) as Hcl. destruct Hcl as [F1 F2 F3 F4 F5 F6]. split; cbn in *; try done.
    + rewrite F1. destruct Ho as (_ & Hn & _). apply leibniz_equiv. intros x. rewrite elem_of_difference, elem_of_singleton.
      split; [by intros []|]. intros Hx. split; [done|]. by intros ->.
    + intros _. by apply (close_ok fd), F6.
Qed.

(** ** Both commands of the tool *)

(** [write] followed by [read] on the command line shows the value. *)
Theorem command_line_roundtrip fuel a fs path param value content :
  path_ok path -> fs !! path = Some content -> content <> [] -> zlen content <= 255 ->
  fs !! tmp_file path = None -> smooth a content ->
  name_ok param -> value_ok value -> zlen (assignment param value) < MAX_PATH_NAME ->
  Forall one_cr (strtok_lines content) ->
  zlen (unlines (edited param value (strtok_lines content))) <= 255 ->
  exists ops, config_main (S fuel) a fs [bstr "write"; path; param; value] = Ret (Returns 0, None, ops) /\
    config_main (S fuel) a (perform_all ops fs) [bstr "read"; path; param] = Ret (Returns 0, Some value, []).
Proof.
  intros Hp Hc Hne Hsz Htmp Ha Hn Hv Hfit Hcr Hsz'.
  destruct (write_short fuel a fs path param value content) as (ops & E & Hops); [done..|].
  destruct (Hops fs Htmp) as (Hpath & _ & _). destruct Ha as (Hl & Hr & _).
  exists ops. split; [cbn; by rewrite E|]. cbn. rewrite Hl, Hr. rewrite (read_edited _ path param value (strtok_lines content)) by (done || apply strtok_lines_ok).
  cbn [mbind outcome_bind]. by rewrite find_edited.
Qed.
End Watch.
