(* ===== verification/GwClient.v ===== *)
(** * The clients of the gateway (gateway/client/client.c, client_tls.c)

    A client polls the sensors of a gateway and switches actuators with
    hysteresis.  The two programs share their requests, their control loop and
    the reception of a frame; they differ in the transport ([tls]) and in how
    they find the gateway.  A round of the polling loop takes the answers of the
    network as arguments and returns what it sent. *)
From Stdlib Require Import Floats.SpecFloat.
From S2P Require Import Prelude Socket Crc Number Cjson Protocol.
Import Number Cjson Protocol.
Open Scope c_scope.

Module GwClient.

Definition DISCOVERY_MAX_RETRIES : nat := 5.
Definition SENSOR_ID_AHT30 : Z := 1.
Definition SENSOR_ID_BH1750 : Z := 2.
Definition DEVICE_ID_AC : Z := 1.
Definition DEVICE_ID_LED : Z := 2.
Definition DEVICE_ID_FAN : Z := 3.
Definition AC_SETPOINT_C : Z := 24.
Definition LED_BRIGHTNESS_PERCENT : Z := 70.
Definition FAN_SPEED_RPM : Z := 1500.

(** ** Single precision *)

(** The conversion of a double to [float]. *)
Definition to_float (d : spec_float) : spec_float :=
  match d with
  | S754_finite s m e => binary_normalize 24 128 (if s then Z.neg m else Z.pos m) e s
  | _ => d
  end.

Definition float_of_int (z : Z) : spec_float := binary_normalize 24 128 z 0 false.

Definition TEMP_ON_THRESHOLD_C : spec_float := float_of_int 28.
Definition TEMP_OFF_THRESHOLD_C : spec_float := float_of_int 26.
Definition LUX_ON_THRESHOLD : spec_float := float_of_int 100.
Definition LUX_OFF_THRESHOLD : spec_float := float_of_int 150.
Definition HUMI_ON_THRESHOLD : spec_float := float_of_int 70.
Definition HUMI_OFF_THRESHOLD : spec_float := float_of_int 60.

(** ** The control law *)

Definition decide_state (value on_threshold off_threshold : spec_float) (current_state : Z) : Z :=
  if SFleb on_threshold value then 1
  else if SFleb value off_threshold then 0
  else if current_state =? -1 then 0
  else current_state.

Definition decide_state_inverted (value on_threshold_low off_threshold_high : spec_float) (current_state : Z) : Z :=
  if SFleb value on_threshold_low then 1
  else if SFleb off_threshold_high value then 0
  else if current_state =? -1 then 0
  else current_state.

(** ** Requests *)

Definition build_get_sensor_req (sensor_id : Z) : json :=
  let root := cJSON_CreateObject in
  let root := cJSON_AddStringToObject root (bstr "action") (bstr "get_sensor") in
  cJSON_AddNumberToObject root (bstr "sensor_id") (double_of_int sensor_id).

Definition build_set_actuator_req (device_id state value : Z) : json :=
  let root := cJSON_CreateObject in
  let root := cJSON_AddStringToObject root (bstr "action") (bstr "set_actuator") in
  let root := cJSON_AddNumberToObject root (bstr "device_id") (double_of_int device_id) in
  let root := cJSON_AddNumberToObject root (bstr "state") (double_of_int state) in
  cJSON_AddNumberToObject root (bstr "value") (double_of_int value).

(** ** The transport *)

Section Transport.
Context (tls : bool).

(** The loop of [send_all]: the result and what went out.  [send] is repeated
    after EINTR and after zero bytes, [SSL_write] is not.  The script ends when
    the connection takes no more. *)
Fixpoint send_all (script : list tx_event) (buf : list Z) (sent : Z) : Z * list Z :=
  if sent <? zlen buf then
    match script with
    | [] => (-1, [])
    | TxErr err :: script =>
        if (negb tls && (err =? EINTR))%bool then send_all script buf sent else (-1, [])
    | TxZero :: script => if tls then (-1, []) else send_all script buf sent
    | TxAccept k :: script =>
        let n := Z.max 1 (Z.min k (zlen buf - sent)) in
        let '(r, wire) := send_all script buf (sent + n) in
        (r, take (Z.to_nat n) (drop (Z.to_nat sent) buf) ++ wire)
    end
  else (0, []).

(** The loop of [recv_one_frame]: type and payload of the frame ([None] for -1)
    and the bytes left in the socket.  A receive that times out is an error that
    is not EINTR, and so is every failure of [SSL_read]. *)
Fixpoint recv_one_frame (script : list rx_event) (eof : bool) (cap : Z) (stream buf : list Z) (have : Z)
    : outcome (option (Z * list Z) * list Z) :=
  match script with
  | [] => Ret (None, stream)
  | ev :: script =>
      match recv ev eof stream (zlen buf - have) with
      | (RxFail err, stream) =>
          if err =? EINTR then recv_one_frame script eof cap stream buf have else Ret (None, stream)
      | (RxData [], stream) => Ret (None, stream)
      | (RxData bs, stream) =>
          buf ← write_at buf have bs;
          let have := have + zlen bs in
          if have <? HEADER_SIZE then recv_one_frame script eof cap stream buf have
          else
            length ← decode_32_bit buf 8;
            if MAX_PAYLOAD <? length then Ret (None, stream)
            else
              let total := HEADER_SIZE + length + CRC_SIZE in
              if have <? total then recv_one_frame script eof cap stream buf have
              else
                crc_rev ← decode_32_bit buf (HEADER_SIZE + length);
                body ← read_at buf HEADER_SIZE length;
                if negb (crc_rev =? Crc.crc_calculate body) then Ret (None, stream)
                else
                  type ← decode_16_bit buf 6;
                  if cap <? length then Ret (None, stream) else Ret (Some (type, body), stream)
      end
  end.

(** What the environment contributes to one request: fresh memory for the
    printer, the unspecified content of the local arrays, the answers of the
    connection and the bytes that arrive meanwhile. *)
Record net := Net {
  n_fresh : Z -> list Z; n_out : list Z; n_buf : list Z; n_payload : list Z;
  n_tx : list tx_event; n_rx : list rx_event; n_eof : bool; n_arrives : list Z }.

(** The program's state: the request counter, whether it is connected with the
    bytes it has not read yet, the last states it set ([-1]: unknown) and the
    last readings. *)
Record client_data := ClientData {
  next_request_id : Z; connected : bool; unread : list Z;
  ac_state : Z; led_state : Z; fan_state : Z;
  temperature : spec_float; humidity : spec_float; lux : spec_float }.

(** The answer ([None] for -1), the bytes sent, the bytes left unread and the
    next request id.  [client.c] counts the id at the call, [client_tls.c] when
    the text is there. *)
Definition do_request (n : net) (type : Z) (req_obj : json) (request_id : Z) (stream : list Z)
    : outcome (option json * list Z * list Z * Z) :=
  let stream := stream ++ n_arrives n in
  let next := u32 (request_id + 1) in
  json_str ← cJSON_PrintUnformatted (n_fresh n) req_obj;
  match json_str with
  | None => Ret (None, [], stream, if tls then request_id else next)
  | Some json_str =>
      let length := u32 (zlen (c_string json_str)) in
      '(rc, out) ← packet_encode (Some (n_out n)) (HEADER_SIZE + MAX_PAYLOAD + CRC_SIZE) type request_id
                     (Some json_str) length;
      if rc <? 0 then Ret (None, [], stream, next)
      else
        out ← deref out;
        out ← read_at out 0 (HEADER_SIZE + length + CRC_SIZE);
        let '(r, wire) := send_all (n_tx n) out 0 in
        if negb (r =? 0) then Ret (None, wire, stream, next)
        else
          '(resp, stream) ← recv_one_frame (n_rx n) (n_eof n) MAX_PAYLOAD stream (n_buf n) 0;
          match resp with
          | None => Ret (None, wire, stream, next)
          | Some (resp_type, body) =>
              resp_payload ← write_at (n_payload n) 0 body;
              resp_payload ← write_at resp_payload (zlen body) [0];
              resp ← cJSON_Parse resp_payload;
              Ret (if ((resp_type =? MSG_RESPONSE) || (resp_type =? MSG_ERROR))%bool then resp else None,
                   wire, stream, next)
          end
  end.

(** ** Readings *)

Definition status_ok (resp : json) : bool :=
  match cJSON_IsString (get_object_item (Some resp) (bstr "status")) with
  | Some s => bool_decide (c_string s = bstr "ok")
  | None => false
  end.

Definition set_link (stream : list Z) (next : Z) (d : client_data) : client_data :=
  ClientData next (connected d) stream (ac_state d) (led_state d) (fan_state d)
    (temperature d) (humidity d) (lux d).

Definition fetch_temp_humi (n : net) (d : client_data) : outcome (bool * client_data * list Z) :=
  '(resp, wire, stream, next) ←
    do_request n MSG_GET_SENSOR (build_get_sensor_req SENSOR_ID_AHT30) (next_request_id d) (unread d);
  let d := set_link stream next d in
  match resp with
  | None => Ret (false, d, wire)
  | Some resp =>
      if status_ok resp then
        let data := get_object_item (Some resp) (bstr "data") in
        match cJSON_IsNumber (get_object_item data (bstr "temp")),
              cJSON_IsNumber (get_object_item data (bstr "humi")) with
        | Some t, Some h =>
            Ret (true, ClientData (next_request_id d) (connected d) (unread d) (ac_state d) (led_state d)
              (fan_state d) (to_float t) (to_float h) (lux d), wire)
        | _, _ => Ret (false, d, wire)
        end
      else Ret (false, d, wire)
  end.

Definition fetch_lux (n : net) (d : client_data) : outcome (bool * client_data * list Z) :=
  '(resp, wire, stream, next) ←
    do_request n MSG_GET_SENSOR (build_get_sensor_req SENSOR_ID_BH1750) (next_request_id d) (unread d);
  let d := set_link stream next d in
  match resp with
  | None => Ret (false, d, wire)
  | Some resp =>
      if status_ok resp then
        let data := get_object_item (Some resp) (bstr "data") in
        match cJSON_IsNumber (get_object_item data (bstr "lux")) with
        | Some l =>
            Ret (true, ClientData (next_request_id d) (connected d) (unread d) (ac_state d) (led_state d)
              (fan_state d) (temperature d) (humidity d) (to_float l), wire)
        | None => Ret (false, d, wire)
        end
      else Ret (false, d, wire)
  end.

(** ** Actuators *)

Inductive actuator := AC | LED | FAN.

Definition device_id (a : actuator) : Z :=
  match a with AC => DEVICE_ID_AC | LED => DEVICE_ID_LED | FAN => DEVICE_ID_FAN end.

Definition current_state (a : actuator) (d : client_data) : Z :=
  match a with AC => ac_state d | LED => led_state d | FAN => fan_state d end.

Definition set_current_state (a : actuator) (v : Z) (d : client_data) : client_data :=
  ClientData (next_request_id d) (connected d) (unread d)
    (match a with AC => v | _ => ac_state d end) (match a with LED => v | _ => led_state d end)
    (match a with FAN => v | _ => fan_state d end) (temperature d) (humidity d) (lux d).

(** Any answer that [do_request] accepts counts as success. *)
Definition apply_actuator_if_changed (n : net) (a : actuator) (want_state value : Z) (d : client_data)
    : outcome (client_data * list Z) :=
  if want_state =? current_state a d then Ret (d, [])
  else
    '(resp, wire, stream, next) ←
      do_request n MSG_SET_ACTUATOR (build_set_actuator_req (device_id a) want_state value)
        (next_request_id d) (unread d);
    let d := set_link stream next d in
    Ret (match resp with Some _ => set_current_state a want_state d | None => d end, wire).

(** ** The polling loop *)

(** [close(fd)] *)
Definition disconnect (d : client_data) : client_data :=
  ClientData (next_request_id d) false [] (ac_state d) (led_state d) (fan_state d)
    (temperature d) (humidity d) (lux d).

(** The three actuators after both readings. *)
Definition control (n : nat -> net) (d : client_data) : outcome (client_data * list (list Z)) :=
  let want_ac := decide_state (temperature d) TEMP_ON_THRESHOLD_C TEMP_OFF_THRESHOLD_C (ac_state d) in
  '(d, w1) ← apply_actuator_if_changed (n 2%nat) AC want_ac AC_SETPOINT_C d;
  let want_fan := decide_state (humidity d) HUMI_ON_THRESHOLD HUMI_OFF_THRESHOLD (fan_state d) in
  '(d, w2) ← apply_actuator_if_changed (n 3%nat) FAN want_fan FAN_SPEED_RPM d;
  let want_led := decide_state_inverted (lux d) LUX_ON_THRESHOLD LUX_OFF_THRESHOLD (led_state d) in
  '(d, w3) ← apply_actuator_if_changed (n 4%nat) LED want_led LED_BRIGHTNESS_PERCENT d;
  Ret (d, [w1; w2; w3]).

(** One round with a connection: the requests sent, in order. *)
Definition poll (n : nat -> net) (d : client_data) : outcome (client_data * list (list Z)) :=
  '(have_temp_humi, d, w1) ← fetch_temp_humi (n 0%nat) d;
  if negb have_temp_humi then Ret (disconnect d, [w1])
  else
    '(have_lux, d, w2) ← fetch_lux (n 1%nat) d;
    if negb have_lux then Ret (disconnect d, [w1; w2])
    else '(d, ws) ← control n d; Ret (d, [w1; w2] ++ ws).

(** A round: [connects] is whether the gateway can be found and connected to.
    [client.c] resets its readings in every round. *)
Definition client_round (connects : bool) (n : nat -> net) (d : client_data)
    : outcome (client_data * list (list Z)) :=
  if (negb (connected d) && negb connects)%bool then Ret (d, [])
  else
    let d := if connected d then d
             else ClientData (next_request_id d) true [] (-1) (-1) (-1) (temperature d) (humidity d) (lux d) in
    let zero := S754_zero false in
    let d := if tls then d
             else ClientData (next_request_id d) (connected d) (unread d) (ac_state d) (led_state d)
                    (fan_state d) zero zero zero in
    poll n d.

(** The loop of [main], until the stop flag is seen: what each round meets, and
    everything it sent. *)
Fixpoint client_loop (rounds : list (bool * (nat -> net))) (d : client_data) : outcome (client_data * list (list Z)) :=
  match rounds with
  | [] => Ret (d, [])
  | (connects, n) :: rounds =>
      '(d, ws) ← client_round connects n d;
      '(d, ws') ← client_loop rounds d;
      Ret (d, ws ++ ws')
  end.

End Transport.

Definition init_client_data : client_data :=
  ClientData 1 false [] (-1) (-1) (-1) (S754_zero false) (S754_zero false) (S754_zero false).

(** ** Discovery *)

(** What one attempt meets: the stop flag, whether [sendto] succeeds, and the
    datagram received with its sender. *)
Record attempt := Attempt { at_stop : bool; at_sent : bool; at_reply : option (list Z * list Z) }.

(** The loop of [do_discovery]: host and port of the gateway.  [buf] is the
    unspecified content of the local array. *)
Fixpoint discovery_loop (buf : list Z) (attempts : list attempt) : outcome (option (list Z * Z)) :=
  match attempts with
  | [] => Ret None
  | a :: attempts =>
      if at_stop a then Ret None
      else if negb (at_sent a) then discovery_loop buf attempts
      else
        match at_reply a with
        | None => discovery_loop buf attempts
        | Some (bytes, host) =>
            let bytes := take 255 bytes in
            if zlen bytes =? 0 then discovery_loop buf attempts
            else
              buf ← write_at buf 0 bytes;
              buf ← write_at buf (zlen bytes) [0];
              resp ← cJSON_Parse buf;
              match cJSON_IsNumber (get_object_item resp (bstr "tcp_port")) with
              | Some port => Ret (Some (take 63 host, valueint port))
              | None => discovery_loop buf attempts
              end
        end
  end.

Definition do_discovery (valid_addr : bool) (buf : list Z) (attempts : list attempt)
    : outcome (option (list Z * Z)) :=
  if negb valid_addr then Ret None else discovery_loop buf (take DISCOVERY_MAX_RETRIES attempts).

End GwClient.
