(* ===== verification/GwClientIo.v ===== *)
(** * The clients of the gateway: receiving, requests and the composition with it

    Reception of one frame however the stream is cut, memory safety against any
    peer, and the way of a reading from the device of the gateway to the client. *)
From Stdlib Require Import Floats.SpecFloat.
From S2P Require Import Prelude Socket Crc Number Cjson CjsonPrint CjsonParse CjsonRoundtrip Protocol GwClient.
Import Number Cjson CjsonPrint CjsonParse CjsonRoundtrip Protocol GwClient.
Open Scope c_scope.

Module GwClientIo.

Definition FRAME_CAP : Z := HEADER_SIZE + MAX_PAYLOAD + CRC_SIZE.

(** ** Reception of a frame *)

Section Reception.
Context (t r : Z) (p rest D : list Z).
Context (Ht : in_u 16 t) (Hr : in_u 32 r) (Hp : bytes p) (Hmax : zlen p <= MAX_PAYLOAD) (HD : zlen D = FRAME_CAP).

#[local] Abbreviation F := (frame t r p).
#[local] Abbreviation S := (frame t r p ++ rest).

(** The buffer with [n] bytes of the stream in it. *)
Definition filled (n : nat) : list Z := take n S ++ drop n D.

Lemma frame_length_nat : length F = (20 + length p)%nat.
Proof using. clear HD Hmax. pose proof (frame_len t r p). unfold zlen in *. lia. Qed.

Lemma filled_zlen n : (n <= length S)%nat -> (n <= length D)%nat -> zlen (filled n) = FRAME_CAP.
Proof using HD. intros HnS HnD. unfold filled. rewrite <- HD. unfold zlen. rewrite length_app, length_take, length_drop. lia. Qed.

Lemma filled_header n : (16 <= n)%nat -> exists X, filled n = frame_header t r (zlen p) ++ X.
Proof using.
  clear HD Hmax. intros Hn. unfold filled, frame. pose proof (frame_header_len t r (zlen p)) as Hl.
  rewrite <- app_assoc, take_app_ge by (unfold zlen in *; lia). rewrite <- app_assoc. by eexists.
Qed.

Lemma filled_frame n : (length F <= n)%nat -> exists X, filled n = F ++ X.
Proof using. clear HD Hmax. intros Hn. unfold filled. rewrite take_app_ge by done. rewrite <- app_assoc. by eexists. Qed.

Lemma filled_more n got :
  (n + got <= length S)%nat -> (n + got <= length D)%nat ->
  write_at (filled n) (Z.of_nat n) (take got (drop n S)) = Ret (filled (n + got)).
Proof using.
  clear HD Hmax. intros HnS HnD. unfold filled.
  rewrite write_at_cursor by (unfold zlen; rewrite ?length_take, ?length_drop; lia).
  rewrite take_take_drop, drop_drop, length_take, length_drop. do 3 f_equal. lia.
Qed.

(** What the loop does with the bytes it has. *)
Definition examine (again : outcome (option (Z * list Z) * list Z)) (cap : Z) (stream buf : list Z) (have : Z)
    : outcome (option (Z * list Z) * list Z) :=
  if have <? HEADER_SIZE then again
  else
    length ← decode_32_bit buf 8;
    if MAX_PAYLOAD <? length then Ret (None, stream)
    else if have <? HEADER_SIZE + length + CRC_SIZE then again
    else
      crc_rev ← decode_32_bit buf (HEADER_SIZE + length);
      body ← read_at buf HEADER_SIZE length;
      if negb (crc_rev =? Crc.crc_calculate body) then Ret (None, stream)
      else
        type ← decode_16_bit buf 6;
        if cap <? length then Ret (None, stream) else Ret (Some (type, body), stream).

Lemma examine_filled again cap stream n :
  zlen p <= cap ->
  examine again cap stream (filled n) (Z.of_nat n)
  = if bool_decide (n < length F)%nat then again else Ret (Some (t, p), stream).
Proof using Ht Hr Hp Hmax.
  clear HD. intros Hcap. pose proof frame_length_nat as Hl. unfold examine, HEADER_SIZE, CRC_SIZE.
  assert (in_u 32 (zlen p)) as Hu by (unfold in_u, MAX_PAYLOAD in *; pose proof (zlen_nonneg p); lia).
  destruct (Z.ltb_spec (Z.of_nat n) 16); [by rewrite bool_decide_true by lia|].
  destruct (filled_header n ltac:(lia)) as (Y & EY).
  destruct (header_decode t r (zlen p) Y Ht Hr Hu) as (_ & _ & H6 & H8 & _). rewrite <- EY in H6, H8. rewrite H8.
  cbn [mbind outcome_bind]. destruct (Z.ltb_spec MAX_PAYLOAD (zlen p)); [lia|].
  destruct (Z.ltb_spec (Z.of_nat n) (16 + zlen p + 4)); [by rewrite bool_decide_true by (unfold zlen in *; lia)|].
  rewrite bool_decide_false by (unfold zlen in *; lia).
  destruct (filled_frame n ltac:(unfold zlen in *; lia)) as (X & EX).
  assert (filled n = (frame_header t r (zlen p) ++ p) ++ be32 (Crc.crc_calculate p) ++ X) as E1.
  { rewrite EX. unfold frame. by rewrite <- !app_assoc. }
  rewrite (decode_32_segment (Crc.crc_calculate p) _ _ (frame_header t r (zlen p) ++ p) X);
    [|by apply Crc.crc_calculate_range|done|rewrite zlen_app, frame_header_len; lia].
  cbn [mbind outcome_bind].
  rewrite (read_at_segment _ _ _ (frame_header t r (zlen p)) p (be32 (Crc.crc_calculate p) ++ X));
    [|by rewrite E1, <- app_assoc|done|done].
  cbn [mbind outcome_bind]. rewrite Z.eqb_refl, H6. cbn [negb mbind outcome_bind].
  destruct (Z.ltb_spec cap (zlen p)); [lia|done].
Qed.

Lemma recv_frame script eof cap n :
  zlen p <= cap -> (n < length F)%nat -> reading script -> (length F <= n + nchunks script)%nat ->
  exists rest', recv_one_frame script eof cap (drop n S) (filled n) (Z.of_nat n) = Ret (Some (t, p), rest') /\
    rest' `suffix_of` rest.
Proof using Ht Hr Hp Hmax HD.
  intros Hcap. revert n. induction script as [|ev script IH]; intros n Hn Hs Hc; [change (nchunks []) with 0%nat in Hc; lia|].
  inversion_clear Hs as [|? ? Hev Hs']. cbn [recv_one_frame].
  assert (length F <= length D)%nat as HFD
    by (pose proof frame_length_nat; pose proof Hmax as Hm; pose proof HD as Hd;
        unfold zlen, FRAME_CAP, MAX_PAYLOAD, HEADER_SIZE, CRC_SIZE in Hm, Hd; lia).
  assert (length S = length F + length rest)%nat as HS by apply length_app.
  rewrite filled_zlen by lia. destruct Hev as [[k ->]| ->]; [|by apply IH].
  destruct (recv_chunk k eof (drop n S) (FRAME_CAP - Z.of_nat n)) as (got & Hg & Hgr & E).
  { unfold zlen in HD. lia. }
  { intros H0. apply (f_equal length) in H0. rewrite length_drop in H0. change (@length Z []) with 0%nat in H0. lia. }
  rewrite E. set (g := Nat.min got (length S - n)).
  assert (take got (drop n S) = take g (drop n S)) as Eg.
  { rewrite <- (firstn_all (drop n S)) at 1. rewrite take_take, length_drop. done. }
  assert (drop got (drop n S) = drop (n + g) S) as Ed.
  { rewrite drop_drop. destruct (Nat.min_spec got (length S - n)) as [[? Hm]|[? Hm]]; subst g; rewrite Hm; [done|].
    rewrite !drop_ge by lia. done. }
  rewrite Eg, Ed. assert (0 < g)%nat as Hgpos by (subst g; lia).
  destruct (take g (drop n S)) as [|b bs] eqn:Eb.
  { apply (f_equal length) in Eb. rewrite length_take, length_drop in Eb. change (@length Z []) with 0%nat in Eb. lia. }
  rewrite <- Eb. rewrite filled_more; [|subst g; lia|subst g; unfold zlen in HD; lia].
  cbn [mbind outcome_bind].
  replace (Z.of_nat n + zlen (take g (drop n S))) with (Z.of_nat (n + g))
    by (unfold zlen; rewrite length_take, length_drop; subst g; lia).
  change (exists rest', examine (recv_one_frame script eof cap (drop (n + g) S) (filled (n + g)) (Z.of_nat (n + g)))
    cap (drop (n + g) S) (filled (n + g)) (Z.of_nat (n + g)) = Ret (Some (t, p), rest') /\ rest' `suffix_of` rest).
  rewrite examine_filled by done. destruct (bool_decide_reflect (n + g < length F)%nat).
  - apply IH; [done|done|]. rewrite nchunks_cons in Hc. lia.
  - eexists. split; [reflexivity|]. rewrite drop_app_ge by lia. apply suffix_drop.
Qed.

End Reception.

(** ** Safety *)

(** Whatever the peer sends, the loop stays inside its array; what it accepts is
    a payload of at most [MAX_PAYLOAD] bytes, and it reads only from the stream. *)
Lemma recv_safe script eof cap stream buf have :
  zlen buf = FRAME_CAP -> bytes buf -> bytes stream -> 0 <= have < FRAME_CAP ->
  exists r stream', recv_one_frame script eof cap stream buf have = Ret (r, stream') /\
    bytes stream' /\
    forall type body, r = Some (type, body) -> in_u 16 type /\ bytes body /\ zlen body <= MAX_PAYLOAD.
Proof.
  revert stream buf have. induction script as [|ev script IH]; intros stream buf have Hl Hb Hs Hh; cbn [recv_one_frame].
  { by eexists _, _. }
  destruct (recv ev eof stream (zlen buf - have)) as [res stream1] eqn:E.
  assert (bytes stream1 /\ forall bs, res = RxData bs -> bytes bs /\ zlen bs <= zlen buf - have) as [Hs1 Hbs].
  { split; [by eapply recv_rest_bytes|]. intros bs ->. split; [by eapply recv_data_bytes|].
    by eapply (recv_data_bounds ev eof stream); [lia|exact E]. }
  destruct res as [[|b bs]|err].
  - by eexists _, _.
  - destruct (Hbs _ eq_refl) as [Hbb Hbl]. set (piece := b :: bs) in *.
    assert (0 < zlen piece) by (subst piece; rewrite zlen_cons; pose proof (zlen_nonneg bs); lia).
    destruct (write_bytes buf have piece) as (buf' & Ew & Hl' & Hb'); [lia|lia|done|done|]. rewrite Ew.
    cbn [mbind outcome_bind]. rewrite Hl in Hbl. rewrite Hl in Hl'.
    destruct (Z.ltb_spec (have + zlen piece) HEADER_SIZE) as [Hlt|Hge].
    { apply IH; try done. change FRAME_CAP with 4116. change HEADER_SIZE with 16 in Hlt. lia. }
    assert (HEADER_SIZE + MAX_PAYLOAD + CRC_SIZE = zlen buf') as Hcap by (rewrite Hl'; done).
    unfold HEADER_SIZE, CRC_SIZE in *.
    destruct (decode_32_total buf' 8) as (n & En & Hn); [lia|unfold MAX_PAYLOAD in *; lia|]. rewrite En.
    cbn [mbind outcome_bind]. unfold in_u in Hn. destruct (Z.ltb_spec MAX_PAYLOAD n); [by eexists _, _|].
    destruct (Z.ltb_spec (have + zlen piece) (16 + n + 4)); [apply IH; try done; lia|].
    destruct (decode_32_total buf' (16 + n)) as (x & Ex & _); [lia|lia|]. rewrite Ex. cbn [mbind outcome_bind].
    destruct (read_at_inside buf' 16 n) as (body & Er & Hbody); [lia|lia|lia|]. rewrite Er. cbn [mbind outcome_bind].
    destruct (negb _); [by eexists _, _|].
    destruct (decode_16_total buf' 6) as (ty & Et & Hty); [lia|unfold MAX_PAYLOAD in *; lia|]. rewrite Et.
    cbn [mbind outcome_bind]. destruct (cap <? n); [by eexists _, _|].
    eexists _, _. split; [reflexivity|]. split; [done|]. intros ? ? [= <- <-]. split_and!; [done| |lia].
    unfold read_at in Er. destruct (_ && _)%bool; [|done]. injection Er as <-. by apply Forall_take, Forall_drop.
  - destruct (err =? EINTR); [by apply IH|]. by eexists _, _.
Qed.

(** ** Sending *)

(** A prefix of the rest goes out; all of it exactly when 0 is returned. *)
Lemma send_prefix tls script buf k :
  0 <= k <= zlen buf ->
  exists ret sent, send_all tls script buf k = (ret, sent) /\
    sent `prefix_of` drop (Z.to_nat k) buf /\ (ret = 0 -> sent = drop (Z.to_nat k) buf).
Proof.
  revert k. induction script as [|ev script IH]; intros k Hk; cbn [send_all];
    destruct (Z.ltb_spec k (zlen buf)).
  2, 4: rewrite drop_ge by (unfold zlen in *; lia); by eexists _, _.
  - eexists _, _. split; [reflexivity|]. split; [apply prefix_nil|done].
  - assert (exists ret sent, (-1, []) = (ret, sent) /\ sent `prefix_of` drop (Z.to_nat k) buf /\
      (ret = 0 -> sent = drop (Z.to_nat k) buf)) as Hfail.
    { eexists _, _. split; [reflexivity|]. split; [apply prefix_nil|done]. }
    destruct ev as [j| |err]; [|destruct tls; [done|by apply IH]|destruct (_ && _)%bool; [by apply IH|done]].
    set (n := Z.max 1 (Z.min j (zlen buf - k))).
    destruct (IH (k + n) ltac:(lia)) as (r & sent & -> & Hpre & Hr). eexists _, _. split; [reflexivity|].
    assert (drop (Z.to_nat k) buf = take (Z.to_nat n) (drop (Z.to_nat k) buf) ++ drop (Z.to_nat (k + n)) buf) as E.
    { rewrite <- (take_drop (Z.to_nat n) (drop (Z.to_nat k) buf)) at 1. f_equal. rewrite drop_drop. f_equal. lia. }
    set (piece := take _ _) in *. rewrite E. split; [by apply prefix_app|]. by intros ->%Hr.
Qed.

(** A transport that takes what it is given. *)
Definition taking (script : list tx_event) : Prop := Forall (fun ev => exists k, ev = TxAccept k) script.

Lemma send_complete tls script buf k :
  0 <= k <= zlen buf -> taking script -> zlen buf <= k + Z.of_nat (length script) ->
  send_all tls script buf k = (0, drop (Z.to_nat k) buf).
Proof.
  intros Hk Hs Hn. assert (exists sent, send_all tls script buf k = (0, sent)) as (sent & E).
  { revert k Hk Hn. induction Hs as [|ev script (j & ->) _ IH]; intros k Hk Hn; cbn [send_all length] in *.
    - destruct (Z.ltb_spec k (zlen buf)); [lia|]. by eexists.
    - destruct (Z.ltb_spec k (zlen buf)); [|by eexists].
      destruct (IH (k + Z.max 1 (Z.min j (zlen buf - k)))) as (sent & ->); [lia|lia|]. by eexists. }
  destruct (send_prefix tls script buf k Hk) as (ret & sent' & E' & _ & Hr). rewrite E in E'.
  injection E' as <- <-. by rewrite <- Hr.
Qed.

(** ** One request *)

Record net_ok (n : net) : Prop := {
  ok_fresh : forall k, 0 <= k -> zlen (n_fresh n k) = k;
  ok_out : zlen (n_out n) = FRAME_CAP;
  ok_buf : zlen (n_buf n) = FRAME_CAP /\ bytes (n_buf n);
  ok_payload : zlen (n_payload n) = MAX_PAYLOAD + 1 /\ bytes (n_payload n);
  ok_arrives : bytes (n_arrives n) }.

(** The documents the clients send. *)
Definition request_ok (req : json) : Prop :=
  clean req /\ nested_ok 0 req = true /\ zlen (render false 0 req) <= MAX_PAYLOAD.

(** What follows the transmission. *)
Definition await (n : net) (stream wire : list Z) (next : Z) : outcome (option json * list Z * list Z * Z) :=
  '(resp, stream) ← recv_one_frame (n_rx n) (n_eof n) MAX_PAYLOAD stream (n_buf n) 0;
  match resp with
  | None => Ret (None, wire, stream, next)
  | Some (resp_type, body) =>
      resp_payload ← write_at (n_payload n) 0 body;
      resp_payload ← write_at resp_payload (zlen body) [0];
      resp ← cJSON_Parse resp_payload;
      Ret (if ((resp_type =? MSG_RESPONSE) || (resp_type =? MSG_ERROR))%bool then resp else None,
           wire, stream, next)
  end.

(** A request is its frame on the wire, and then the wait for the answer. *)
Lemma do_request_frame tls n type req id stream :
  net_ok n -> request_ok req ->
  do_request tls n type req id stream =
    let '(r, wire) := send_all tls (n_tx n) (frame type id (render false 0 req)) 0 in
    if negb (r =? 0) then Ret (None, wire, stream ++ n_arrives n, u32 (id + 1))
    else await n (stream ++ n_arrives n) wire (u32 (id + 1)).
Proof.
  intros Hn (Hc & Hne & Hl). pose proof (clean_bytes req Hc) as Htb. unfold do_request, cJSON_PrintUnformatted.
  rewrite print_exact_size by (done || apply Hn). rewrite Hne. unfold room_for, MAX_PAYLOAD in *.
  destruct (Z.leb_spec (zlen (render false 0 req) + 2) INT_MAX); [|unfold INT_MAX in *; lia].
  cbn [andb mbind outcome_bind]. set (text := render false 0 req) in *.
  rewrite c_string_app by (apply textual_nonzero; by apply render_textual). pose proof (zlen_nonneg text).
  rewrite (wrap_small 32 (zlen text)) by lia.
  rewrite packet_encode_frame_len; [|done|unfold HEADER_SIZE, MAX_PAYLOAD, CRC_SIZE; lia|by rewrite (ok_out _ Hn)].
  cbn [mbind outcome_bind deref]. change (0 <? 0) with false. cbv iota. cbn [mbind outcome_bind deref].
  rewrite (read_at_segment _ _ _ [] (frame type id text) (drop (20 + length text) (n_out n)));
    [|done|done|rewrite frame_len; unfold HEADER_SIZE, CRC_SIZE; lia].
  cbn [mbind outcome_bind]. destruct (send_all _ _ _ _) as [r wire]. done.
Qed.

(** The answer of the gateway, cut into any pieces. *)
(** Any frame that arrives whole is parsed, followed by a terminator. *)
Lemma await_frame n type r p rest wire next :
  net_ok n -> in_u 16 type -> in_u 32 r -> bytes p -> zlen p <= MAX_PAYLOAD ->
  reading (n_rx n) -> (20 + length p <= nchunks (n_rx n))%nat ->
  exists rest' junk, await n (frame type r p ++ rest) wire next =
      (resp ← cJSON_Parse (p ++ 0 :: junk);
       Ret (if ((type =? MSG_RESPONSE) || (type =? MSG_ERROR))%bool then resp else None, wire, rest', next)) /\
    rest' `suffix_of` rest.
Proof.
  intros Hn Ht Hr Hb Hl Hs Hchunks.
  destruct (recv_frame type r p rest (n_buf n) Ht Hr Hb Hl (proj1 (ok_buf _ Hn)) (n_rx n) (n_eof n) MAX_PAYLOAD 0)
    as (rest' & E & Hsuf); [done|rewrite frame_length_nat; lia|done|rewrite frame_length_nat; lia|].
  exists rest'. unfold await. change (filled type r p rest (n_buf n) 0) with (n_buf n) in E.
  change (drop 0 (frame type r p ++ rest)) with (frame type r p ++ rest) in E. change (Z.of_nat 0) with 0 in E.
  rewrite E. cbn [mbind outcome_bind]. destruct (ok_payload _ Hn) as [Hpl _].
  change (n_payload n) with ([] ++ n_payload n).
  rewrite write_at_cursor by (done || lia). cbn [mbind outcome_bind app].
  rewrite write_at_cursor by (done || (change (zlen [0]) with 1; rewrite zlen_drop; unfold zlen in *; lia)).
  cbn [mbind outcome_bind]. rewrite <- app_assoc. cbn [app]. by eexists.
Qed.

Lemma await_answer n type r x rest wire next :
  net_ok n -> type = MSG_RESPONSE \/ type = MSG_ERROR -> in_u 32 r -> request_ok x ->
  reading (n_rx n) -> (20 + length (render false 0 x) <= nchunks (n_rx n))%nat ->
  exists rest', await n (frame type r (render false 0 x) ++ rest) wire next = Ret (Some x, wire, rest', next) /\
    rest' `suffix_of` rest.
Proof.
  intros Hn Hty Hr (Hc & Hne & Hl) Hs Hchunks. pose proof (clean_bytes x Hc) as Htb.
  assert (bytes (render false 0 x)) as Hb by (apply textual_bytes; by apply render_textual).
  assert (in_u 16 type) as Ht by (unfold in_u; destruct Hty as [-> | ->]; by vm_compute).
  destruct (await_frame n type r (render false 0 x) rest wire next) as (rest' & junk & -> & Hsuf); [done..|].
  exists rest'. split; [|done]. rewrite cjson_parse_printed by done.
  cbn [mbind outcome_bind]. by destruct Hty as [-> | ->].
Qed.

Lemma await_safe n stream wire next :
  net_ok n -> bytes stream ->
  exists resp stream', await n stream wire next = Ret (resp, wire, stream', next) /\ bytes stream'.
Proof.
  intros Hn Hs. destruct (ok_buf _ Hn) as [Hbl Hbb]. destruct (ok_payload _ Hn) as [Hpl Hpb]. unfold await.
  destruct (recv_safe (n_rx n) (n_eof n) MAX_PAYLOAD stream (n_buf n) 0) as (r & stream' & -> & Hs' & Hr);
    [done|done|done|by vm_compute|].
  cbn [mbind outcome_bind]. destruct r as [[type body]|]; [|by eexists _, _].
  destruct (Hr _ _ eq_refl) as (_ & Hb & Hl). pose proof (zlen_nonneg body).
  destruct (write_bytes (n_payload n) 0 body) as (p1 & -> & Hz1 & Hb1); [lia|lia|done|done|].
  cbn [mbind outcome_bind].
  destruct (write_bytes p1 (zlen body) [0]) as (p2 & -> & Hz2 & Hb2);
    [lia|change (zlen [0]) with 1; lia|done|repeat constructor; lia|].
  cbn [mbind outcome_bind]. unfold cJSON_Parse.
  destruct (parse_defined (c_string p2 ++ [0])) as (resp & -> & _).
  { apply Forall_app. split; [|repeat constructor; lia]. by apply textual_bytes, c_string_textual. }
  cbn [mbind outcome_bind]. by eexists _, _.
Qed.

Lemma do_request_safe tls n type req id stream :
  net_ok n -> request_ok req -> bytes stream ->
  exists resp wire stream', do_request tls n type req id stream = Ret (resp, wire, stream', u32 (id + 1)) /\
    bytes stream' /\ wire `prefix_of` frame type id (render false 0 req).
Proof.
  intros Hn Hr Hs. rewrite do_request_frame by done.
  pose proof (zlen_nonneg (frame type id (render false 0 req))).
  destruct (send_prefix tls (n_tx n) (frame type id (render false 0 req)) 0) as (r & wire & -> & Hw & _); [lia|].
  assert (bytes (stream ++ n_arrives n)) as Hs' by (apply Forall_app; split; [done|apply Hn]).
  destruct (negb (r =? 0)).
  - eexists _, _, _. split; [reflexivity|done].
  - destruct (await_safe n (stream ++ n_arrives n) wire (u32 (id + 1)) Hn Hs') as (resp & stream' & -> & Hb).
    eexists _, _, _. split; [reflexivity|done].
Qed.

(** ** The documents *)

Ltac clean_document := repeat constructor; try (apply int_exact; lia);
  apply (bool_decide_unpack _); vm_compute; exact I.

Lemma fmt_len z : INT_MIN <= z <= INT_MAX -> zlen (number_text (double_of_int z)) <= 11.
Proof. intros Hz. rewrite number_text_int by done. apply fmt_d_len. Qed.

(** The documents as text, with [#] for the double quote. *)
Definition quoting (s : string) : list Z := (fun b => if b =? 35 then 34 else b) <$> bstr s.

(** The lengths of literal pieces. *)
Ltac literal_lengths :=
  repeat match goal with
  | |- context [zlen (quoting ?s)] =>
      let n := eval vm_compute in (zlen (quoting s)) in change (zlen (quoting s)) with n
  | |- context [zlen (bstr ?s)] =>
      let n := eval vm_compute in (zlen (bstr s)) in change (zlen (bstr s)) with n
  end.

Lemma get_sensor_tree id : build_get_sensor_req id =
  JObject [(bstr "action", JString (bstr "get_sensor")); (bstr "sensor_id", JNumber (double_of_int id))].
Proof. reflexivity. Qed.

Lemma set_actuator_tree device state value : build_set_actuator_req device state value =
  JObject [(bstr "action", JString (bstr "set_actuator")); (bstr "device_id", JNumber (double_of_int device));
           (bstr "state", JNumber (double_of_int state)); (bstr "value", JNumber (double_of_int value))].
Proof. reflexivity. Qed.

Lemma get_sensor_text id :
  render false 0 (build_get_sensor_req id) =
    quoting "{#action#:#get_sensor#,#sensor_id#:" ++ number_text (double_of_int id) ++ bstr "}".
Proof. rewrite get_sensor_tree. lazy -[number_text double_of_int app]. rewrite ?app_nil_r, <- ?app_assoc. reflexivity. Qed.

Lemma set_actuator_text device state value :
  render false 0 (build_set_actuator_req device state value) =
    quoting "{#action#:#set_actuator#,#device_id#:" ++ number_text (double_of_int device) ++
    quoting ",#state#:" ++ number_text (double_of_int state) ++
    quoting ",#value#:" ++ number_text (double_of_int value) ++ bstr "}".
Proof. rewrite set_actuator_tree. lazy -[number_text double_of_int app]. rewrite ?app_nil_r, <- ?app_assoc. reflexivity. Qed.

Lemma get_sensor_ok id : INT_MIN <= id <= INT_MAX -> request_ok (build_get_sensor_req id).
Proof.
  intros Hi. pose proof (fmt_len id Hi). split_and!; [clean_document|done|].
  rewrite get_sensor_text, !zlen_app. unfold MAX_PAYLOAD. literal_lengths. lia.
Qed.

Lemma set_actuator_ok device state value :
  INT_MIN <= device <= INT_MAX -> INT_MIN <= state <= INT_MAX -> INT_MIN <= value <= INT_MAX ->
  request_ok (build_set_actuator_req device state value).
Proof.
  intros Hd Hs Hv. pose proof (fmt_len device Hd). pose proof (fmt_len state Hs). pose proof (fmt_len value Hv).
  split_and!; [clean_document|done|]. rewrite set_actuator_text, !zlen_app. unfold MAX_PAYLOAD.
  literal_lengths. lia.
Qed.

End GwClientIo.
