(* ===== verification/GwClientE2e.v ===== *)
(** * The client and the gateway together

    A request travels from [do_request] of a client through the receive path, a
    worker, the response queue and the transmit queue of the gateway, and its
    reply back into the client. *)
From Stdlib Require Import Floats.SpecFloat.
From S2P Require Import Prelude Socket Heap Fifo Crc Number Cjson CjsonPrint CjsonParse CjsonRoundtrip Protocol.
From S2P Require Import RateLimit Queue Client Server Handlers Json Worker GwClient GwClientIo.
Import Number Cjson CjsonPrint CjsonParse CjsonRoundtrip Protocol Client Server Handlers Json Worker GwClient GwClientIo.
Open Scope c_scope.

Module GwClientE2e.

(** ** What the gateway understands *)

Lemma request_parsed req : request_ok req -> parse_payload (render false 0 req) = Ret (Some req).
Proof.
  intros (Hc & Hn & _). unfold parse_payload. destruct (Z.eqb_spec (zlen (render false 0 req)) 0) as [E|].
  - destruct (render_head req 0 Hc) as (b & r & Er & _). rewrite Er, zlen_cons in E. pose proof (zlen_nonneg r). lia.
  - by apply parse_printed.
Qed.

Section Exchange.
Context (sscanf2 : scan2) (sscanf1 : scan1) (m : allocator).
Context (Hm : allocator_ok m) (Htot : alloc_total m) (Hmr : forall mem, is_Some (malloc_response m mem)).

(** A gateway with an idle session, an empty task queue and an empty response
    queue. *)
Record gateway_ready (sv : server) (slot : nat) (c : client) : Prop := {
  ready_client : clients sv !! slot = Some c;
  ready_boundary : at_boundary c;
  ready_table : table_ok (clients sv);
  ready_alive : alive c = true;
  ready_size : zlen (clients sv) = MAX_CLIENTS;
  ready_running : Queue.tq_shutdown (tasks sv) = false;
  ready_tail : Queue.tq_tail (tasks sv) = None;
  ready_empty : Queue.tq_size (tasks sv) = 0;
  ready_room : 0 < Queue.tq_max_size (tasks sv);
  ready_responses : Queue.response_inv (queue_of sv) /\ Queue.response_abs (queue_of sv) = [];
  ready_response_room : 0 < Queue.rq_max_size (response sv);
  ready_tx : tx_ok (txs sv) (clients sv) }.

(** A request that the LED can carry out. *)
Definition led_ok (req : json) : Prop :=
  forall value, field_int (Some req) "device_id" = Some LED_ACTUATOR_ID ->
    field_int (Some req) "value" = Some value -> -2147 <= value <= 2147.

Lemma task_frame_wf type id p slot c junk now :
  bytes p -> zlen p <= MAX_PAYLOAD -> zlen (Queue.t_payload junk) = MAX_PAYLOAD ->
  task_wf (task_of_frame type id p slot c junk now) /\ request (task_of_frame type id p slot c junk now) = p.
Proof using.
  intros Hp Hl Hj. assert (take (Z.to_nat (zlen p)) (p ++ drop (length p) (Queue.t_payload junk)) = p) as E
    by (by rewrite zlen_length, take_app_length).
  split; [|exact E]. split_and!; cbn [task_of_frame Queue.t_payload Queue.t_length].
  - rewrite zlen_app, zlen_drop. unfold zlen in *. lia.
  - apply zlen_nonneg.
  - done.
  - by rewrite E.
Qed.

(** The gateway's half: the reply is queued for the session that asked. *)
Lemma gateway_replies x now now' now1 now2 sv slot c l junk type req id script eof rest :
  gateway_ready sv slot c -> malloc_task m (task_mem sv) = Some (l, junk) ->
  accepted_type type -> in_u 32 id -> request_ok req -> led_ok req ->
  reading script -> (20 + length (render false 0 req) <= nchunks script)%nat ->
  env_wf x -> now1 <= u64 (now + REQUEST_TIMEOUT_MS) -> now2 <= u64 (now + REQUEST_TIMEOUT_MS) ->
  exists sv1 sv2 sv3 c3,
    client_read_message m script eof (frame type id (render false 0 req) ++ rest) sv slot now now' = Ret (0, sv1, rest) /\
    worker_iteration sscanf2 sscanf1 m x now1 now2 sv1
      = Ret (WorkerContinues, sv2, device_output x type (Some req)) /\
    handle_response_to_client m sv2 = Ret (0, sv3) /\ clients sv3 !! slot = Some c3 /\
    let rep := reply sscanf2 sscanf1 x type (Some req) in
    tx_abs (txs sv3, c3) = tx_abs (txs sv, c) ++ [DataTransmit (frame rep.1 id rep.2) (zlen rep.2 + 20) 0 None].
Proof using Hm Htot Hmr.
  intros Hg Hl Hty Hid Hreq Hled Hs Hc Hx Hn1 Hn2. pose proof Hreq as (Hcl & Hne & Hlen).
  assert (bytes (render false 0 req)) as Hb by (apply textual_bytes, render_textual, clean_bytes; done).
  destruct Hg as [Hcli Hbd Htab Hal Hmax Hrun Htl Hsz Hroom [Hri Hra] Hrr Htx].
  destruct (task_fresh m Hm _ _ _ Hl) as [_ Hj].
  destruct (read_queues_task m sv slot c type id (render false 0 req) rest script eof now now' l junk)
    as (sv1 & c1 & E1 & Ht1 & Htm1 & Hc1 & _ & _ & Htx1 & (Hal1 & Hg1 & Hh1 & Htl1) & Hr1 & Hrm1);
    [done..|by rewrite frame_length_nat|done|done|lia|done|].
  destruct (task_frame_wf type id (render false 0 req) (Z.of_nat slot) c junk now Hb Hlen Hj) as [Hwf Hrq].
  set (t := task_of_frame type id (render false 0 req) (Z.of_nat slot) c junk now) in *.
  pose proof (request_parsed req Hreq) as Hparse.
  destruct (request_gets_its_reply sscanf2 sscanf1 m x now1 now2 sv1 l t slot c1)
    as (root & sv2 & sv3 & c3 & Er & E2 & E3 & Hc3 & Htx3); try done.
  - rewrite Ht1. cbn. lia.
  - by rewrite Ht1.
  - intros root value Er Hd Hv. rewrite Hrq, Hparse in Er. injection Er as <-. by apply Hled.
  - unfold queue_of. by rewrite Hr1, Hrm1.
  - unfold queue_of. by rewrite Hr1, Hrm1.
  - by rewrite Hr1.
  - rewrite Hc1. unfold zlen in *. by rewrite length_insert.
  - rewrite Hc1, Htx1. by eapply tx_ok_same_pointers.
  - rewrite Hc1. apply list_lookup_insert_eq. by eapply lookup_lt_Some.
  - rewrite Hrq, Hparse in Er. injection Er as <-.
    exists sv1, sv2, sv3, c3. split_and!; [done..|]. cbv zeta in Htx3 |- *. rewrite Htx1 in Htx3.
    assert (tx_abs (txs sv, c1) = tx_abs (txs sv, c)) as Eabs by (unfold tx_abs; cbn [fst snd]; by rewrite Hh1).
    unfold final_reply in Htx3. change (Queue.t_timeout_ms t) with (u64 (now + REQUEST_TIMEOUT_MS)) in Htx3.
    destruct (Z.ltb_spec (u64 (now + REQUEST_TIMEOUT_MS)) now2); [lia|].
    change (Queue.t_type t) with type in Htx3. change (Queue.t_request_id t) with id in Htx3.
    by rewrite Eabs in Htx3.
Qed.

(** A request and its reply make the whole way.  The bytes a client sends for
    a document are read by the gateway however they are cut, become one task, are
    answered by a worker, and the one packet queued for that session is the reply
    with the request's own id; when this packet arrives at the client, again cut
    in any way, [do_request] returns exactly the document the reply stands for. *)
Lemma request_round_trip tls n x now now' now1 now2 sv slot c l junk type req id script eof rest rt ans :
  gateway_ready sv slot c -> malloc_task m (task_mem sv) = Some (l, junk) ->
  accepted_type type -> in_u 32 id -> request_ok req -> led_ok req ->
  reading script -> (20 + length (render false 0 req) <= nchunks script)%nat ->
  env_wf x -> now1 <= u64 (now + REQUEST_TIMEOUT_MS) -> now2 <= u64 (now + REQUEST_TIMEOUT_MS) ->
  reply sscanf2 sscanf1 x type (Some req) = (rt, render false 0 ans) ->
  rt = MSG_RESPONSE \/ rt = MSG_ERROR -> request_ok ans ->
  net_ok n -> taking (n_tx n) -> (20 + length (render false 0 req) <= length (n_tx n))%nat ->
  reading (n_rx n) -> (20 + length (render false 0 ans) <= nchunks (n_rx n))%nat ->
  n_arrives n = frame rt id (render false 0 ans) ->
  exists wire sv1 sv2 sv3 c3 len,
    do_request tls n type req id [] = Ret (Some ans, wire, [], u32 (id + 1)) /\
    client_read_message m script eof (wire ++ rest) sv slot now now' = Ret (0, sv1, rest) /\
    worker_iteration sscanf2 sscanf1 m x now1 now2 sv1
      = Ret (WorkerContinues, sv2, device_output x type (Some req)) /\
    handle_response_to_client m sv2 = Ret (0, sv3) /\ clients sv3 !! slot = Some c3 /\
    tx_abs (txs sv3, c3) = tx_abs (txs sv, c) ++ [DataTransmit (n_arrives n) len 0 None].
Proof using Hm Htot Hmr.
  intros Hg Hl Hty Hid Hreq Hled Hs Hc Hx Hn1 Hn2 Hrep Hrt Hans Hn Htk Htn Hrx Hrn Harr.
  destruct (gateway_replies x now now' now1 now2 sv slot c l junk type req id script eof rest)
    as (sv1 & sv2 & sv3 & c3 & E1 & E2 & E3 & Hc3 & Htx); [done..|].
  cbv zeta in Htx. rewrite Hrep in Htx. cbn [fst snd] in Htx. rewrite <- Harr in Htx.
  exists (frame type id (render false 0 req)), sv1, sv2, sv3, c3, (zlen (render false 0 ans) + 20).
  split_and!; [|done..]. rewrite do_request_frame by done.
  rewrite send_complete; [|pose proof (zlen_nonneg (frame type id (render false 0 req))); lia|done
    |rewrite frame_len; unfold zlen; lia].
  cbn [app]. change (negb (0 =? 0)) with false. cbv iota. rewrite Harr.
  destruct (await_answer n rt id ans [] (drop (Z.to_nat 0) (frame type id (render false 0 req))) (u32 (id + 1)))
    as (rest' & E & Hsuf); [done..|]. rewrite app_nil_r in E. rewrite E.
  by apply suffix_nil_inv in Hsuf as ->.
Qed.

End Exchange.

(** ** Readings *)

Lemma aht30_text t h :
  render false 0 (aht30_tree t h) =
    quoting "{#status#:#ok#,#sensor_name#:#AHT30#,#data#:{#temp#:" ++ number_text t ++
    quoting ",#humi#:" ++ number_text h ++ bstr "}}".
Proof.
  change (aht30_tree t h) with (JObject [(bstr "status", JString (bstr "ok"));
    (bstr "sensor_name", JString (bstr "AHT30"));
    (bstr "data", JObject [(bstr "temp", JNumber t); (bstr "humi", JNumber h)])]).
  lazy -[number_text app]. rewrite ?app_nil_r, <- ?app_assoc. reflexivity.
Qed.

Lemma aht30_document t h : number_exact t = true -> number_exact h = true ->
  request_ok (aht30_tree t h) /\ ok_reply (aht30_tree t h) = (MSG_RESPONSE, render false 0 (aht30_tree t h)) /\
  zlen (render false 0 (aht30_tree t h)) <= 128.
Proof.
  intros Ht Hh. pose proof (number_text_len t). pose proof (number_text_len h).
  assert (zlen (render false 0 (aht30_tree t h)) <= 128) as Hl.
  { rewrite aht30_text, !zlen_app. literal_lengths. lia. }
  split.
  - split_and!; [|done|unfold MAX_PAYLOAD; lia].
    repeat constructor; try done; apply (bool_decide_unpack _); vm_compute; exact I.
  - split; [|done]. unfold ok_reply, text_in, room_for. change (nested_ok 0 (aht30_tree t h)) with true. cbn [andb].
    destruct (Z.leb_spec (zlen (render false 0 (aht30_tree t h)) + 2) 256); [done|lia].
Qed.

Lemma aht30_fields t h : status_ok (aht30_tree t h) = true /\
  cJSON_IsNumber (get_object_item (get_object_item (Some (aht30_tree t h)) (bstr "data")) (bstr "temp")) = Some t /\
  cJSON_IsNumber (get_object_item (get_object_item (Some (aht30_tree t h)) (bstr "data")) (bstr "humi")) = Some h.
Proof. done. Qed.

Lemma aht30_request_len : zlen (render false 0 (build_get_sensor_req SENSOR_ID_AHT30)) <= 46.
Proof. rewrite get_sensor_text, number_text_int by by vm_compute. apply Z.leb_le. by vm_compute. Qed.

Lemma field_sensor_id id : INT_MIN <= id <= INT_MAX ->
  field_int (Some (build_get_sensor_req id)) "sensor_id" = Some id.
Proof.
  intros Hi. change (field_int (Some (build_get_sensor_req id)) "sensor_id") with (Some (valueint (double_of_int id))).
  by rewrite valueint_double.
Qed.

Lemma get_sensor_no_led id : led_ok (build_get_sensor_req id).
Proof. intros value H. by vm_compute in H. Qed.

(** What an exchange needs: a ready gateway with memory and in time, a client
    whose socket takes the request, and on both sides receives that go on long
    enough, however they cut the bytes. *)
Record exchange_ok (m : allocator) (n : net) (x : exec_env) (now now1 now2 : Z) (sv : server) (slot : nat)
    (c : client) (l : loc) (junk : Queue.task) (script : list rx_event) : Prop := {
  ex_alloc : allocator_ok m;
  ex_total : alloc_total m;
  ex_response : forall mem, is_Some (malloc_response m mem);
  ex_ready : gateway_ready sv slot c;
  ex_task : malloc_task m (task_mem sv) = Some (l, junk);
  ex_reading : reading script;
  ex_chunks : (148 <= nchunks script)%nat;
  ex_env : env_wf x;
  ex_taken : now1 <= u64 (now + REQUEST_TIMEOUT_MS);
  ex_done : now2 <= u64 (now + REQUEST_TIMEOUT_MS);
  ex_net : net_ok n;
  ex_taking : taking (n_tx n);
  ex_send : (148 <= length (n_tx n))%nat;
  ex_receiving : reading (n_rx n);
  ex_receive : (148 <= nchunks (n_rx n))%nat }.

Lemma exchange_runs sscanf2 sscanf1 m tls n x now now' now1 now2 sv slot c l junk type req id script eof rest rt ans :
  exchange_ok m n x now now1 now2 sv slot c l junk script ->
  accepted_type type -> in_u 32 id -> request_ok req -> led_ok req -> zlen (render false 0 req) <= 128 ->
  reply sscanf2 sscanf1 x type (Some req) = (rt, render false 0 ans) -> rt = MSG_RESPONSE \/ rt = MSG_ERROR ->
  request_ok ans -> zlen (render false 0 ans) <= 128 ->
  n_arrives n = frame rt id (render false 0 ans) ->
  exists wire sv1 sv2 sv3 c3 len,
    do_request tls n type req id [] = Ret (Some ans, wire, [], u32 (id + 1)) /\
    client_read_message m script eof (wire ++ rest) sv slot now now' = Ret (0, sv1, rest) /\
    worker_iteration sscanf2 sscanf1 m x now1 now2 sv1
      = Ret (WorkerContinues, sv2, device_output x type (Some req)) /\
    handle_response_to_client m sv2 = Ret (0, sv3) /\ clients sv3 !! slot = Some c3 /\
    tx_abs (txs sv3, c3) = tx_abs (txs sv, c) ++ [DataTransmit (n_arrives n) len 0 None].
Proof.
  intros [] Hty Hid Hreq Hled Hrl Hrep Hrt Hans Hal Harr. unfold zlen in Hrl, Hal.
  eapply request_round_trip; [done..|lia|done|done|done|done|done|done|done|done|lia|done|lia|done].
Qed.


(** ** Commands *)

(** What a device is to receive for a state and a value. *)
Definition actuator_line (a : actuator) (state value : Z) : list Z :=
  match a with
  | AC => ac_command (AirCondition 0 state value 1 2)
  | LED => fmt_d (Z.quot (value * 1000000) 100) ++ [10]
  | FAN => bstr "STATE=" ++ fmt_d state ++ bstr ",RPM=" ++ fmt_d value ++ [10]
  end.

Definition success_tree : json := actuator_tree "actuator_control_success".

Lemma success_document : request_ok success_tree /\
  ok_reply success_tree = (MSG_RESPONSE, render false 0 success_tree) /\ zlen (render false 0 success_tree) <= 128.
Proof.
  change success_tree with (JObject [(bstr "status", JString (bstr "ok")); (bstr "message", JString (bstr "actuator_control_success"))]).
  split; [split_and!; [repeat constructor|done|]|split]; first [apply Z.leb_le; by vm_compute|by vm_compute].
Qed.

Lemma command_driven x a state value :
  0 <= open_device (x_hw x) -> -2147 <= value <= 2147 ->
  hw_write (x_hw x) (actuator_line a state value) = zlen (actuator_line a state value) ->
  drive_actuator x (device_id a) state value = Ret (Some (true, actuator_line a state value)).
Proof.
  intros Ho Hv Hw.
  assert (write_device (x_hw x) (actuator_line a state value) = (0, actuator_line a state value)) as Hwd.
  { unfold write_device. rewrite Hw. pose proof (zlen_nonneg (actuator_line a state value)).
    destruct (Z.ltb_spec (zlen (actuator_line a state value)) 0); [lia|]. by rewrite zlen_length, firstn_all. }
  assert ((open_device (x_hw x) <? 0) = false) as Ho' by (apply Z.ltb_ge; lia).
  unfold drive_actuator, init_ac_actuator, init_led_actuator, init_fan_actuator,
    set_ac_actuator, set_led_actuator, set_fan_actuator.
  rewrite Ho'. destruct a; cbn [device_id DEVICE_ID_AC DEVICE_ID_LED DEVICE_ID_FAN AC_ACTUATOR_ID LED_ACTUATOR_ID
    FAN_ACTUATOR_ID Z.eqb Pos.eqb negb ac_fd led_fd fan_fd brightness_percent]; rewrite Ho'.
  - change (ac_command _) with (actuator_line AC state value). by rewrite Hwd.
  - destruct (Z.ltb_spec (value * 1000000) INT_MIN), (Z.ltb_spec INT_MAX (value * 1000000));
      unfold INT_MIN, INT_MAX in *; try lia.
    cbn [orb]. change (fmt_d _ ++ [10]) with (actuator_line LED state value). by rewrite Hwd.
  - change (bstr "STATE=" ++ _) with (actuator_line FAN state value). by rewrite Hwd.
Qed.

Lemma command_fields device state value :
  INT_MIN <= device <= INT_MAX -> INT_MIN <= state <= INT_MAX -> INT_MIN <= value <= INT_MAX ->
  let req := build_set_actuator_req device state value in
  field_int (Some req) "device_id" = Some device /\ field_int (Some req) "state" = Some state /\
  field_int (Some req) "value" = Some value.
Proof.
  intros Hd Hs Hv. cbv zeta. rewrite set_actuator_tree.
  split_and!; [change (Some (valueint (double_of_int device)) = Some device)
    |change (Some (valueint (double_of_int state)) = Some state)
    |change (Some (valueint (double_of_int value)) = Some value)]; by rewrite valueint_double.
Qed.

Lemma command_len device state value :
  INT_MIN <= device <= INT_MAX -> INT_MIN <= state <= INT_MAX -> INT_MIN <= value <= INT_MAX ->
  zlen (render false 0 (build_set_actuator_req device state value)) <= 128.
Proof.
  intros Hd Hs Hv. rewrite set_actuator_text, !zlen_app.
  pose proof (fmt_len _ Hd). pose proof (fmt_len _ Hs). pose proof (fmt_len _ Hv). literal_lengths. lia.
Qed.

(** A command that the client sends and the device carries out. *)
Lemma command_carried_out sscanf2 sscanf1 m tls n x now now' now1 now2 sv slot c l junk script eof rest d a state value :
  exchange_ok m n x now now1 now2 sv slot c l junk script -> 0 <= open_device (x_hw x) ->
  state = 0 \/ state = 1 -> -2147 <= value <= 2147 -> state <> current_state a d ->
  hw_write (x_hw x) (actuator_line a state value) = zlen (actuator_line a state value) ->
  in_u 32 (next_request_id d) -> unread d = [] ->
  n_arrives n = frame MSG_RESPONSE (next_request_id d) (render false 0 success_tree) ->
  exists wire sv1 sv2 sv3 c3 len,
    apply_actuator_if_changed tls n a state value d
      = Ret (set_current_state a state (set_link [] (u32 (next_request_id d + 1)) d), wire) /\
    client_read_message m script eof (wire ++ rest) sv slot now now' = Ret (0, sv1, rest) /\
    worker_iteration sscanf2 sscanf1 m x now1 now2 sv1 = Ret (WorkerContinues, sv2, actuator_line a state value) /\
    handle_response_to_client m sv2 = Ret (0, sv3) /\ clients sv3 !! slot = Some c3 /\
    tx_abs (txs sv3, c3) = tx_abs (txs sv, c) ++ [DataTransmit (n_arrives n) len 0 None].
Proof.
  intros Hex Ho Hst Hv Hne Hw Hid Hun Harr. destruct success_document as (Hans & Hok & Hlen).
  assert (INT_MIN <= device_id a <= INT_MAX) as Hd by (destruct a; by vm_compute).
  assert (INT_MIN <= state <= INT_MAX) as Hs by (unfold INT_MIN, INT_MAX; lia).
  assert (INT_MIN <= value <= INT_MAX) as Hv' by (unfold INT_MIN, INT_MAX; lia).
  destruct (command_fields (device_id a) state value Hd Hs Hv') as (F1 & F2 & F3).
  pose proof (command_driven x a state value Ho Hv Hw) as Hdr.
  destruct (exchange_runs sscanf2 sscanf1 m tls n x now now' now1 now2 sv slot c l junk MSG_SET_ACTUATOR
    (build_set_actuator_req (device_id a) state value) (next_request_id d) script eof rest MSG_RESPONSE success_tree)
    as (wire & sv1 & sv2 & sv3 & c3 & len & Edo & Hread & Hwork & H);
    [done|by vm_compute; auto|done|by apply set_actuator_ok| | | |by left|done..|].
  - intros v _ Hv2. rewrite F3 in Hv2. by injection Hv2 as <-.
  - by apply command_len.
  - unfold reply. cbn [Z.eqb Pos.eqb MSG_SET_ACTUATOR MSG_ECHO MSG_STATUS MSG_GET_SENSOR].
    unfold driven. by rewrite F1, F2, F3, Hdr.
  - exists wire, sv1, sv2, sv3, c3, len. split.
    { unfold apply_actuator_if_changed. destruct (Z.eqb_spec state (current_state a d)); [done|].
      by rewrite Hun, Edo. }
    split; [done|]. split; [|exact H]. unfold device_output in Hwork.
    cbn [Z.eqb Pos.eqb MSG_SET_ACTUATOR] in Hwork. by rewrite F1, F2, F3, Hdr in Hwork.
Qed.

Definition command_value (a : actuator) : Z :=
  match a with AC => AC_SETPOINT_C | LED => LED_BRIGHTNESS_PERCENT | FAN => FAN_SPEED_RPM end.


(** The LED is never switched off.  The gateway's LED driver does not look at
    the state of the command: for "off" it writes the duty cycle of the client's
    brightness, the very line that "on" writes, reports success, and the client
    takes the LED as off. *)
Theorem led_off_keeps_it_lit sscanf2 sscanf1 m tls n x now now' now1 now2 sv slot c l junk script eof rest d :
  exchange_ok m n x now now1 now2 sv slot c l junk script -> 0 <= open_device (x_hw x) ->
  led_state d = 1 -> hw_write (x_hw x) (bstr "700000" ++ [10]) = 7 ->
  in_u 32 (next_request_id d) -> unread d = [] ->
  n_arrives n = frame MSG_RESPONSE (next_request_id d) (render false 0 success_tree) ->
  exists wire d' sv1 sv2,
    apply_actuator_if_changed tls n LED 0 LED_BRIGHTNESS_PERCENT d = Ret (d', wire) /\ led_state d' = 0 /\
    client_read_message m script eof (wire ++ rest) sv slot now now' = Ret (0, sv1, rest) /\
    worker_iteration sscanf2 sscanf1 m x now1 now2 sv1 = Ret (WorkerContinues, sv2, bstr "700000" ++ [10]) /\
    actuator_line LED 1 LED_BRIGHTNESS_PERCENT = bstr "700000" ++ [10].
Proof.
  intros Hex Ho Hlit Hw Hid Hun Harr.
  assert (forall state, actuator_line LED state LED_BRIGHTNESS_PERCENT = bstr "700000" ++ [10]) as El by done.
  destruct (command_carried_out sscanf2 sscanf1 m tls n x now now' now1 now2 sv slot c l junk script eof rest d LED 0
    LED_BRIGHTNESS_PERCENT) as (wire & sv1 & sv2 & _ & _ & _ & Ea & Er & Ework & _); try done.
  - by left.
  - cbn [current_state]. lia.
  - rewrite El in Ework. eexists wire, _, sv1, sv2. split_and!; [exact Ea|done..].
Qed.

(** What the gateway answers when the device cannot be driven. *)
Definition refusal_tree : json := error_tree (err_code_val ERR_UNKNOWN_TYPE) "actuator_hardware_control_fail".

Lemma refusal_document : request_ok refusal_tree /\ zlen (render false 0 refusal_tree) <= 128.
Proof.
  change refusal_tree with (JObject [(bstr "status", JString (bstr "error"));
    (bstr "error_code", JNumber (double_of_int (err_code_val ERR_UNKNOWN_TYPE)));
    (bstr "message", JString (bstr "actuator_hardware_control_fail"))]).
  split; [split_and!; [repeat constructor|done|]|]; first [apply Z.leb_le; by vm_compute|by vm_compute].
Qed.

(** A refused command counts as carried out.  When the gateway cannot open the
    device it writes nothing and answers with an error; the client takes this
    answer like any other and records the state it asked for, so it does not ask
    again. *)
Theorem refused_command_recorded sscanf2 sscanf1 m tls n x now now' now1 now2 sv slot c l junk script eof rest d a state :
  exchange_ok m n x now now1 now2 sv slot c l junk script -> open_device (x_hw x) < 0 ->
  state = 0 \/ state = 1 -> state <> current_state a d ->
  in_u 32 (next_request_id d) -> unread d = [] ->
  n_arrives n = frame MSG_ERROR (next_request_id d) (render false 0 refusal_tree) ->
  exists wire d' sv1 sv2 sv3 c3 len,
    apply_actuator_if_changed tls n a state (command_value a) d = Ret (d', wire) /\ current_state a d' = state /\
    client_read_message m script eof (wire ++ rest) sv slot now now' = Ret (0, sv1, rest) /\
    worker_iteration sscanf2 sscanf1 m x now1 now2 sv1 = Ret (WorkerContinues, sv2, []) /\
    handle_response_to_client m sv2 = Ret (0, sv3) /\ clients sv3 !! slot = Some c3 /\
    tx_abs (txs sv3, c3) = tx_abs (txs sv, c) ++ [DataTransmit (n_arrives n) len 0 None].
Proof.
  intros Hex Ho Hst Hne Hid Hun Harr. destruct refusal_document as (Hans & Hlen).
  assert (INT_MIN <= device_id a <= INT_MAX) as Hd by (destruct a; by vm_compute).
  assert (INT_MIN <= state <= INT_MAX) as Hs by (unfold INT_MIN, INT_MAX; lia).
  assert (INT_MIN <= command_value a <= INT_MAX) as Hv by (destruct a; by vm_compute).
  destruct (command_fields (device_id a) state (command_value a) Hd Hs Hv) as (F1 & F2 & F3).
  assert (drive_actuator x (device_id a) state (command_value a) = Ret (Some (false, []))) as Hdr.
  { unfold drive_actuator, init_ac_actuator, init_led_actuator, init_fan_actuator.
    destruct (Z.ltb_spec (open_device (x_hw x)) 0); [|lia]. by destruct a. }
  destruct (exchange_runs sscanf2 sscanf1 m tls n x now now' now1 now2 sv slot c l junk MSG_SET_ACTUATOR
    (build_set_actuator_req (device_id a) state (command_value a)) (next_request_id d) script eof rest MSG_ERROR refusal_tree)
    as (wire & sv1 & sv2 & sv3 & c3 & len & Edo & Hread & Hwork & H);
    [done|by vm_compute; auto|done|by apply set_actuator_ok| |by apply command_len| |by right|done..|].
  - intros v _ Hv2. rewrite F3 in Hv2. injection Hv2 as <-. destruct a; by vm_compute.
  - unfold reply. cbn [Z.eqb Pos.eqb MSG_SET_ACTUATOR MSG_ECHO MSG_STATUS MSG_GET_SENSOR].
    unfold driven. by rewrite F1, F2, F3, Hdr.
  - eexists wire, _, sv1, sv2, sv3, c3, len. split.
    { unfold apply_actuator_if_changed. destruct (Z.eqb_spec state (current_state a d)); [done|]. by rewrite Hun, Edo. }
    split; [by destruct a|]. split; [done|]. split; [|exact H]. unfold device_output in Hwork.
    cbn [Z.eqb Pos.eqb MSG_SET_ACTUATOR] in Hwork. by rewrite F1, F2, F3, Hdr in Hwork.
Qed.

(** ** Concrete exchanges *)

Definition sample_net (arrives : list Z) : net :=
  Net (fun k => replicate (Z.to_nat k) 0) (replicate (Z.to_nat FRAME_CAP) 0) (replicate (Z.to_nat FRAME_CAP) 0)
    (replicate (Z.to_nat (MAX_PAYLOAD + 1)) 0) (replicate 148 (TxAccept 1)) (byte_by_byte 148) false arrives.

Lemma sample_net_ok arrives : bytes arrives -> net_ok (sample_net arrives).
Proof.
  intros Ha. assert (forall k, 0 <= k -> zlen (replicate (Z.to_nat k) 0) = k) as Hz.
  { intros k Hk. rewrite zlen_replicate. lia. }
  assert (forall k, bytes (replicate k 0)) as Hb by (intros k; apply Forall_replicate; by vm_compute).
  split; [exact Hz|by apply Hz|split; [by apply Hz|apply Hb]|split; [by apply Hz|apply Hb]|exact Ha].
Qed.

(** The gateway's devices, with a reading of 30 degrees and 65 percent. *)
Definition sample_devices : exec_env :=
  ExecEnv (HW 3 (-1) (Some []) zlen) 1000 (Aht30 0 0 0 float_zero float_zero) (Bh1750 0 0 float_zero)
    (AirCondition 0 0 0 0 0) (LedPwm 0 0 0) (Fan 0 0 0) (replicate 256 0) (replicate 128 0).

Definition no_devices : exec_env :=
  ExecEnv (HW (-1) (-1) None zlen) 1000 (Aht30 0 0 0 float_zero float_zero) (Bh1750 0 0 float_zero)
    (AirCondition 0 0 0 0 0) (LedPwm 0 0 0) (Fan 0 0 0) (replicate 256 0) (replicate 128 0).

Definition warm : scan2 := fun _ => Some (double_of_int 30, Some (double_of_int 65)).

Definition sample_junk : Queue.task := Queue.Task 0 0 0 0 0 (replicate (Z.to_nat MAX_PAYLOAD) 0) 0 None 0.

Lemma sample_ready : gateway_ready sample_server 0 (sample_client 7 true).
Proof.
  split; try done; [exact sample_clients_ok| |exact sample_tx_ok].
  split; [|done]. exists []. split_and!; [apply linked_queue_nil|done|by vm_compute].
Qed.

Lemma sample_exchange arrives x : bytes arrives -> env_wf x ->
  exchange_ok sample_allocator (sample_net arrives) x 3 10 20 sample_server 0 (sample_client 7 true)
    1 sample_junk (byte_by_byte 148).
Proof.
  intros Ha Hx. pose proof (byte_by_byte_reading 148) as Hr. assert (148 <= nchunks (byte_by_byte 148))%nat as Hn
    by (by rewrite byte_by_byte_chunks).
  split; try done; [exact sample_allocator_ok| |exact sample_ready|by apply sample_net_ok|apply Forall_replicate; by eexists].
  split; [by eexists|]. intros n H0. cbn. destruct (Z.leb_spec 0 n); [by eexists|lia].
Qed.

Definition warm_reply : list Z := frame MSG_RESPONSE 1 (render false 0 (aht30_tree (double_of_int 30) (double_of_int 65))).


Definition success_reply : list Z := frame MSG_RESPONSE 1 (render false 0 success_tree).


Lemma led_off_keeps_it_lit_witness :
  exists wire d' sv1 sv2,
    apply_actuator_if_changed false (sample_net success_reply) LED 0 70 (set_current_state LED 1 init_client_data)
      = Ret (d', wire) /\ led_state d' = 0 /\
    client_read_message sample_allocator (byte_by_byte 148) false (wire ++ []) sample_server 0 3 4 = Ret (0, sv1, []) /\
    worker_iteration no_scan2 no_scan1 sample_allocator sample_devices 10 20 sv1
      = Ret (WorkerContinues, sv2, bstr "700000" ++ [10]) /\
    actuator_line LED 1 70 = bstr "700000" ++ [10].
Proof.
  apply (led_off_keeps_it_lit no_scan2 no_scan1 sample_allocator false (sample_net success_reply) sample_devices
    3 4 10 20 sample_server 0 (sample_client 7 true) 1 sample_junk (byte_by_byte 148) false []
    (set_current_state LED 1 init_client_data));
    [|done|done|done|by vm_compute|done|done].
  apply sample_exchange; [apply (bool_decide_unpack _); by vm_compute|by vm_compute].
Defined.

Definition refusal : list Z := frame MSG_ERROR 1 (render false 0 refusal_tree).

Lemma refused_command_recorded_witness :
  exists wire d' sv1 sv2 sv3 c3 len,
    apply_actuator_if_changed true (sample_net refusal) AC 1 24 init_client_data = Ret (d', wire) /\ ac_state d' = 1 /\
    client_read_message sample_allocator (byte_by_byte 148) false (wire ++ []) sample_server 0 3 4 = Ret (0, sv1, []) /\
    worker_iteration no_scan2 no_scan1 sample_allocator no_devices 10 20 sv1 = Ret (WorkerContinues, sv2, []) /\
    handle_response_to_client sample_allocator sv2 = Ret (0, sv3) /\ clients sv3 !! 0%nat = Some c3 /\
    tx_abs (txs sv3, c3) = tx_abs (∅, sample_client 7 true) ++ [DataTransmit refusal len 0 None].
Proof.
  apply (refused_command_recorded no_scan2 no_scan1 sample_allocator true (sample_net refusal) no_devices
    3 4 10 20 sample_server 0 (sample_client 7 true) 1 sample_junk (byte_by_byte 148) false [] init_client_data AC 1);
    [|by vm_compute|by right|done|by vm_compute|done|done].
  apply sample_exchange; [apply (bool_decide_unpack _); by vm_compute|by vm_compute].
Defined.

End GwClientE2e.
