(* ===== verification/GwClientLaw.v ===== *)
(** * The clients' control loop: safety, hysteresis, and what goes wrong

    Every round of a client is defined whatever the network does, keeps the
    client's state well formed and sends nothing but frames of the protocol; an
    actuator changes only when its reading has crossed a threshold.  The last
    part shows how the clients take the gateway's errors. *)
From Stdlib Require Import Floats.SpecFloat.
From S2P Require Import Prelude Socket Heap Fifo Crc Number Cjson CjsonPrint CjsonParse CjsonRoundtrip Protocol.
From S2P Require Import RateLimit Queue Client Server Handlers Json Worker GwClient GwClientIo GwClientE2e.
Import Number Cjson CjsonPrint CjsonParse CjsonRoundtrip Protocol Client Server Handlers Json Worker GwClient GwClientIo GwClientE2e.
Open Scope c_scope.

Module GwClientLaw.

(** ** The invariant *)

Definition known_or_not (v : Z) : Prop := v = -1 \/ v = 0 \/ v = 1.

Record client_ok (d : client_data) : Prop := {
  ok_id : in_u 32 (next_request_id d);
  ok_unread : bytes (unread d);
  ok_closed : connected d = false -> unread d = [];
  ok_states : forall a, known_or_not (current_state a d) }.

(** What a client puts on the wire: a part, from its start, of a frame that the
    gateway accepts. *)
Definition proper_wire (w : list Z) : Prop :=
  exists type id req, accepted_type type /\ in_u 32 id /\ request_ok req /\ w `prefix_of` frame type id (render false 0 req).

Lemma u32_in z : in_u 32 (u32 z).
Proof. unfold in_u, u32, wrap. apply Z.mod_pos_bound. lia. Qed.

Lemma link_ok stream next d : client_ok d -> connected d = true -> in_u 32 next -> bytes stream -> client_ok (set_link stream next d).
Proof. intros [] Hc Hn Hs. split; cbn; [done|done|congruence|]. intros []; [apply (ok_states0 AC)|apply (ok_states0 LED)|apply (ok_states0 FAN)]. Qed.

Lemma decide_known v on off s : known_or_not s ->
  decide_state v on off s = 0 \/ decide_state v on off s = 1.
Proof. intros Hs. unfold decide_state, known_or_not in *. repeat case_match; lia. Qed.

Lemma decide_inverted_known v on off s : known_or_not s ->
  decide_state_inverted v on off s = 0 \/ decide_state_inverted v on off s = 1.
Proof. intros Hs. unfold decide_state_inverted, known_or_not in *. repeat case_match; lia. Qed.

(** A client that keeps its connection. *)
Definition online (d : client_data) : Prop := client_ok d /\ connected d = true.

Section Steps.
Context (tls : bool).

Lemma request_runs n type req id stream :
  net_ok n -> request_ok req -> accepted_type type -> in_u 32 id -> bytes stream ->
  exists resp wire stream', do_request tls n type req id stream = Ret (resp, wire, stream', u32 (id + 1)) /\
    bytes stream' /\ proper_wire wire.
Proof using.
  intros Hn Hr Ht Hi Hs. destruct (do_request_safe tls n type req id stream) as (resp & wire & s' & E & Hb & Hp); [done..|].
  exists resp, wire, s'. split_and!; [done|done|]. by exists type, id, req.
Qed.

(** A step that changes the readings at most. *)
Definition same_states (d d' : client_data) : Prop := forall a, current_state a d' = current_state a d.

Lemma fetch_temp_humi_runs n d : net_ok n -> online d ->
  exists ok d' wire, fetch_temp_humi tls n d = Ret (ok, d', wire) /\ online d' /\ proper_wire wire /\ same_states d d'.
Proof using.
  intros Hn [Hd Hc]. unfold fetch_temp_humi.
  destruct (request_runs n MSG_GET_SENSOR (build_get_sensor_req SENSOR_ID_AHT30) (next_request_id d) (unread d))
    as (resp & wire & s' & -> & Hb & Hw); [done|by apply get_sensor_ok|by vm_compute; auto|apply Hd..|].
  pose proof (link_ok s' (u32 (next_request_id d + 1)) d Hd Hc (u32_in _) Hb) as Hl.
  cbn [mbind outcome_bind]. repeat case_match; eexists _, _, wire; (split; [reflexivity|]); split_and!; try done;
    try (by intros []); split; try done; by destruct Hl.
Qed.

Lemma fetch_lux_runs n d : net_ok n -> online d ->
  exists ok d' wire, fetch_lux tls n d = Ret (ok, d', wire) /\ online d' /\ proper_wire wire /\ same_states d d'.
Proof using.
  intros Hn [Hd Hc]. unfold fetch_lux.
  destruct (request_runs n MSG_GET_SENSOR (build_get_sensor_req SENSOR_ID_BH1750) (next_request_id d) (unread d))
    as (resp & wire & s' & -> & Hb & Hw); [done|by apply get_sensor_ok|by vm_compute; auto|apply Hd..|].
  pose proof (link_ok s' (u32 (next_request_id d + 1)) d Hd Hc (u32_in _) Hb) as Hl.
  cbn [mbind outcome_bind]. repeat case_match; eexists _, _, wire; (split; [reflexivity|]); split_and!; try done;
    try (by intros []); split; try done; by destruct Hl.
Qed.

(** Only the actuator asked for changes, and only to the state asked for. *)
Lemma apply_runs n a want value d :
  net_ok n -> online d -> want = 0 \/ want = 1 -> INT_MIN <= value <= INT_MAX ->
  exists d' wire, apply_actuator_if_changed tls n a want value d = Ret (d', wire) /\ online d' /\ proper_wire wire /\
    (forall b, b <> a -> current_state b d' = current_state b d) /\
    (current_state a d' = current_state a d \/ current_state a d' = want) /\
    temperature d' = temperature d /\ humidity d' = humidity d /\ lux d' = lux d.
Proof using.
  intros Hn [Hd Hc] Hw Hv. unfold apply_actuator_if_changed. destruct (want =? current_state a d) eqn:E.
  { eexists d, []. split_and!; try done; [|by left]. exists MSG_GET_SENSOR, 0, (build_get_sensor_req 1).
    split_and!; [by vm_compute; auto|by vm_compute|by apply get_sensor_ok|apply prefix_nil]. }
  destruct (request_runs n MSG_SET_ACTUATOR (build_set_actuator_req (device_id a) want value) (next_request_id d) (unread d))
    as (resp & wire & s' & -> & Hb & Hp);
    [done|apply set_actuator_ok; [destruct a; by vm_compute|unfold INT_MIN, INT_MAX; lia|done]|by vm_compute; auto|apply Hd..|].
  pose proof (link_ok s' (u32 (next_request_id d + 1)) d Hd Hc (u32_in _) Hb) as Hl.
  cbn [mbind outcome_bind]. eexists _, wire. split; [reflexivity|]. destruct resp as [resp|].
  - split_and!; try done; [|by intros [] ?; destruct a|right; by destruct a].
    split; [|done]. destruct Hl as [? ? ? Hst]. split; try done.
    intros b. pose proof (Hst b). destruct a, b; try done; cbn; unfold known_or_not; lia.
  - split_and!; try done; first [by intros []|left; by destruct a].
Qed.

(** ** Rounds *)

(** How a reading may move an actuator: on at its threshold, off at the other,
    and from "unknown" to off between the two. *)
Definition moved (on off : bool) (old new : Z) : Prop :=
  new = old \/ (new = 1 /\ on = true) \/ (new = 0 /\ on = false /\ (off = true \/ old = -1)).

Definition crossed_high (a : actuator) (d : client_data) : bool :=
  match a with
  | AC => SFleb TEMP_ON_THRESHOLD_C (temperature d)
  | FAN => SFleb HUMI_ON_THRESHOLD (humidity d)
  | LED => SFleb (lux d) LUX_ON_THRESHOLD
  end.

Definition crossed_low (a : actuator) (d : client_data) : bool :=
  match a with
  | AC => SFleb (temperature d) TEMP_OFF_THRESHOLD_C
  | FAN => SFleb (humidity d) HUMI_OFF_THRESHOLD
  | LED => SFleb LUX_OFF_THRESHOLD (lux d)
  end.

Definition all_moved (d0 d d' : client_data) : Prop :=
  forall a, moved (crossed_high a d) (crossed_low a d) (current_state a d0) (current_state a d').

Lemma decide_moved v on off s : moved (SFleb on v) (SFleb v off) s (decide_state v on off s).
Proof using. unfold moved, decide_state. destruct (SFleb on v), (SFleb v off), (Z.eqb_spec s (-1)); naive_solver. Qed.

Lemma decide_inverted_moved v on off s : moved (SFleb v on) (SFleb off v) s (decide_state_inverted v on off s).
Proof using. unfold moved, decide_state_inverted. destruct (SFleb v on), (SFleb off v), (Z.eqb_spec s (-1)); naive_solver. Qed.

Lemma moved_or on off old new want : moved on off old want -> new = old \/ new = want -> moved on off old new.
Proof using. intros Hm [E|E]; subst; [by left|done]. Qed.

Lemma control_runs n d : (forall i, net_ok (n i)) -> online d ->
  exists d' ws, control tls n d = Ret (d', ws) /\ online d' /\ Forall proper_wire ws /\ all_moved d d' d' /\
    temperature d' = temperature d /\ humidity d' = humidity d /\ lux d' = lux d.
Proof using.
  intros Hn Hd. pose proof (ok_states _ (proj1 Hd)) as Hst. unfold control.
  destruct (apply_runs (n 2%nat) AC (decide_state (temperature d) TEMP_ON_THRESHOLD_C TEMP_OFF_THRESHOLD_C (ac_state d))
    AC_SETPOINT_C d (Hn _) Hd (decide_known _ _ _ _ (Hst AC)) ltac:(by vm_compute))
    as (d1 & w1 & -> & Hd1 & Hw1 & Ho1 & Ha1 & Et1 & Eh1 & El1).
  pose proof (ok_states _ (proj1 Hd1)) as Hst1. cbn [mbind outcome_bind].
  destruct (apply_runs (n 3%nat) FAN (decide_state (humidity d1) HUMI_ON_THRESHOLD HUMI_OFF_THRESHOLD (fan_state d1))
    FAN_SPEED_RPM d1 (Hn _) Hd1 (decide_known _ _ _ _ (Hst1 FAN)) ltac:(by vm_compute))
    as (d2 & w2 & -> & Hd2 & Hw2 & Ho2 & Ha2 & Et2 & Eh2 & El2).
  pose proof (ok_states _ (proj1 Hd2)) as Hst2. cbn [mbind outcome_bind].
  destruct (apply_runs (n 4%nat) LED (decide_state_inverted (lux d2) LUX_ON_THRESHOLD LUX_OFF_THRESHOLD (led_state d2))
    LED_BRIGHTNESS_PERCENT d2 (Hn _) Hd2 (decide_inverted_known _ _ _ _ (Hst2 LED)) ltac:(by vm_compute))
    as (d3 & w3 & -> & Hd3 & Hw3 & Ho3 & Ha3 & Et3 & Eh3 & El3).
  exists d3, [w1; w2; w3]. split_and!; [done|done|by repeat constructor| |congruence..].
  intros []; cbn [crossed_high crossed_low].
  - eapply moved_or; [|rewrite Ho3, Ho2 by done; exact Ha1]. rewrite Et3, Et2, Et1. apply decide_moved.
  - eapply moved_or; [|rewrite <- (Ho1 LED), <- (Ho2 LED) by done; exact Ha3]. rewrite El3.
    rewrite <- (Ho1 LED), <- (Ho2 LED) by done. apply decide_inverted_moved.
  - eapply moved_or; [|rewrite (Ho3 FAN), <- (Ho1 FAN) by done; exact Ha2]. rewrite Eh3, Eh2.
    rewrite <- (Ho1 FAN) by done. apply decide_moved.
Qed.

Lemma disconnect_ok d : client_ok d -> client_ok (disconnect d).
Proof using. intros []. split; try done. constructor. Qed.

Lemma same_all_moved d0 d d' : same_states d0 d' -> all_moved d0 d d'.
Proof using. intros H a. left. apply H. Qed.

Lemma poll_runs n d : (forall i, net_ok (n i)) -> online d ->
  exists d' ws, poll tls n d = Ret (d', ws) /\ client_ok d' /\ Forall proper_wire ws /\ all_moved d d' d'.
Proof using.
  intros Hn Hd. unfold poll.
  destruct (fetch_temp_humi_runs (n 0%nat) d) as (ok1 & d1 & w1 & -> & Hd1 & Hw1 & Hs1); [done|done|]. cbn [mbind outcome_bind].
  destruct ok1; cbn [negb].
  2: { eexists _, _. split_and!; [done|apply disconnect_ok, Hd1|by repeat constructor|]. by apply same_all_moved. }
  destruct (fetch_lux_runs (n 1%nat) d1) as (ok2 & d2 & w2 & -> & Hd2 & Hw2 & Hs2); [done|done|]. cbn [mbind outcome_bind].
  assert (same_states d d2) as Hs by (intros a; by rewrite Hs2).
  destruct ok2; cbn [negb].
  2: { eexists _, _. split_and!; [done|apply disconnect_ok, Hd2|by repeat constructor|]. by apply same_all_moved. }
  destruct (control_runs n d2 Hn Hd2) as (d3 & ws & -> & Hd3 & Hws & Hm & _). cbn [mbind outcome_bind].
  exists d3, ([w1; w2] ++ ws). split_and!; [done|apply Hd3|by repeat constructor|].
  intros a. rewrite <- Hs. apply Hm.
Qed.

(** The states a round starts from: a new connection forgets them. *)
Definition round_start (d : client_data) : client_data :=
  if connected d then d
  else ClientData (next_request_id d) true [] (-1) (-1) (-1) (temperature d) (humidity d) (lux d).

Lemma client_round_runs connects n d : (forall i, net_ok (n i)) -> client_ok d ->
  exists d' ws, client_round tls connects n d = Ret (d', ws) /\ client_ok d' /\ Forall proper_wire ws /\
    (connected d = true \/ connects = true -> all_moved (round_start d) d' d').
Proof using.
  intros Hn Hd. unfold client_round. destruct (negb (connected d) && negb connects)%bool eqn:E.
  { exists d, []. split_and!; [done|done|constructor|]. destruct (connected d), connects; try done. by intros []. }
  change (if connected d then d else _) with (round_start d).
  assert (online (round_start d)) as Hr.
  { unfold round_start. destruct (connected d) eqn:Ec; [by split|]. split; [|done]. destruct Hd.
    split; try done; [constructor|]. intros []; by left. }
  set (d0 := if tls then round_start d else _).
  assert (online d0 /\ same_states (round_start d) d0) as [H0 Hs0].
  { unfold d0. destruct tls; [done|]. destruct Hr as [[] Hc]. by split; [split; [split|]|]. }
  destruct (poll_runs n d0 Hn H0) as (d' & ws & Ep & Hd' & Hw & Hm). exists d', ws. split_and!; [done..|].
  intros _ a. rewrite <- Hs0. apply Hm.
Qed.

(** Deciding again on the same reading changes nothing. *)
Lemma decide_again v on off s : decide_state v on off (decide_state v on off s) = decide_state v on off s.
Proof using. unfold decide_state. repeat case_match; lia. Qed.

Lemma decide_inverted_again v on off s :
  decide_state_inverted v on off (decide_state_inverted v on off s) = decide_state_inverted v on off s.
Proof using. unfold decide_state_inverted. repeat case_match; lia. Qed.

Lemma apply_same n a want value d : want = current_state a d -> apply_actuator_if_changed tls n a want value d = Ret (d, []).
Proof using. intros ->. unfold apply_actuator_if_changed. by rewrite Z.eqb_refl. Qed.

End Steps.

(** ** Properties *)

(** The states decided on from the readings of [d]. *)
Definition decided (a : actuator) (d : client_data) : Z :=
  match a with
  | AC => decide_state (temperature d) TEMP_ON_THRESHOLD_C TEMP_OFF_THRESHOLD_C (ac_state d)
  | FAN => decide_state (humidity d) HUMI_ON_THRESHOLD HUMI_OFF_THRESHOLD (fan_state d)
  | LED => decide_state_inverted (lux d) LUX_ON_THRESHOLD LUX_OFF_THRESHOLD (led_state d)
  end.

(** C14: A client survives its network.  From its start and through any number of
    rounds, whatever connections, bytes, errors and refusals the network answers
    with, no access is out of bounds and every round comes to an end; the client's
    state stays well formed, and all it ever sends are frames of the protocol that
    the gateway accepts, or the beginnings of such frames. *)
Theorem client_survives_its_network tls rounds :
  (forall connects n i, (connects, n) ∈ rounds -> net_ok (n i)) ->
  exists d ws, client_loop tls rounds init_client_data = Ret (d, ws) /\ client_ok d /\ Forall proper_wire ws.
Proof.
  assert (client_ok init_client_data) as Hd.
  { split; [by vm_compute|constructor|done|]. intros []; by left. }
  revert Hd. generalize init_client_data. induction rounds as [|[connects n] rounds IH]; intros d Hd Hn; cbn [client_loop].
  { exists d, []. split_and!; [done|done|constructor]. }
  destruct (client_round_runs tls connects n d) as (d1 & ws & -> & Hd1 & Hw & _); [|done|].
  { intros i. by eapply Hn, list_elem_of_here. }
  cbn [mbind outcome_bind]. destruct (IH d1 Hd1) as (d2 & ws' & -> & Hd2 & Hw').
  { intros c' n' i Hin. by eapply Hn, list_elem_of_further. }
  exists d2, (ws ++ ws'). split_and!; [done|done|by apply Forall_app].
Qed.

(** C16: Hysteresis.  In every round with a connection an actuator's state changes
    only as the reading of that round allows: to on when it has reached the
    switch-on threshold, to off when it has reached the switch-off threshold, and
    otherwise only from "unknown" to off; between the thresholds a known state
    stays, whether or not the exchanges of the round succeed. *)
Theorem actuators_follow_hysteresis tls connects n d :
  (forall i, net_ok (n i)) -> client_ok d -> connected d = true \/ connects = true ->
  exists d' ws, client_round tls connects n d = Ret (d', ws) /\
    forall a, moved (crossed_high a d') (crossed_low a d') (current_state a (round_start d)) (current_state a d').
Proof.
  intros Hn Hd Hc. destruct (client_round_runs tls connects n d Hn Hd) as (d' & ws & E & _ & _ & Hm).
  exists d', ws. split; [done|]. by apply Hm.
Qed.

(** Commands are not repeated.  Whatever the readings, once a pass over the
    actuators has recorded the states it decided on, a further pass over the same
    readings sends nothing and changes nothing, whatever the network would
    answer. *)
Theorem settled_control_is_silent tls n n' d :
  (forall i, net_ok (n i)) -> online d ->
  exists d' ws, control tls n d = Ret (d', ws) /\
    ((forall a, current_state a d' = decided a d) -> control tls n' d' = Ret (d', [[]; []; []])).
Proof.
  intros Hn Hd. destruct (control_runs tls n d Hn Hd) as (d' & ws & E & _ & _ & _ & Et & Eh & El).
  exists d', ws. split; [done|]. intros Hdec. unfold control.
  rewrite (apply_same tls _ AC) by (pose proof (Hdec AC) as H; cbn [current_state decided] in *; rewrite Et, H; apply decide_again).
  cbn [mbind outcome_bind].
  rewrite (apply_same tls _ FAN) by (pose proof (Hdec FAN) as H; cbn [current_state decided] in *; rewrite Eh, H; apply decide_again).
  cbn [mbind outcome_bind].
  by rewrite (apply_same tls _ LED)
    by (pose proof (Hdec LED) as H; cbn [current_state decided] in *; rewrite El, H; apply decide_inverted_again).
Qed.

(** ** Errors *)

(** The whole of a request goes out. *)
Lemma request_sent tls n type req id stream :
  net_ok n -> request_ok req -> taking (n_tx n) -> (20 + length (render false 0 req) <= length (n_tx n))%nat ->
  do_request tls n type req id stream
  = await n (stream ++ n_arrives n) (frame type id (render false 0 req)) (u32 (id + 1)).
Proof.
  intros Hn Hreq Htk Htn. rewrite do_request_frame by done.
  rewrite send_complete; [done|pose proof (zlen_nonneg (frame type id (render false 0 req))); lia|done
    |rewrite frame_len; unfold zlen; lia].
Qed.

(** An error code of the gateway is not a JSON document. *)
Lemma error_code_unparsed e junk : cJSON_Parse ([err_code_val e] ++ 0 :: junk) = Ret None.
Proof. unfold cJSON_Parse. destruct e; by vm_compute. Qed.

(** The gateway's protocol errors cut the connection.  The packet with which the
    gateway answers a damaged frame or a bad header carries one binary byte; the client's parser takes it for a broken answer, and
    the round ends with the connection closed and no other request sent. *)
Theorem protocol_error_cuts_connection tls n d e r m packet size :
  allocator_ok m -> build_error_packet (malloc_buf m) r (err_code_val e) = Ret (Some (packet, size)) ->
  (forall i, net_ok (n i)) -> client_ok d -> connected d = true -> unread d = [] -> in_u 32 r ->
  taking (n_tx (n 0%nat)) -> (66 <= length (n_tx (n 0%nat)))%nat ->
  reading (n_rx (n 0%nat)) -> (21 <= nchunks (n_rx (n 0%nat)))%nat -> n_arrives (n 0%nat) = packet ->
  exists d', client_round tls true n d = Ret (d',
      [frame MSG_GET_SENSOR (next_request_id d) (render false 0 (build_get_sensor_req SENSOR_ID_AHT30))]) /\
    connected d' = false.
Proof.
  intros Hm Hpk Hn Hd Hc Hun Hr Htk Htn Hrx Hrn Harr.
  rewrite build_error_packet_block in Hpk by (intros b Eb; by apply (buf_size m Hm)).
  assert (packet = frame MSG_ERROR r [err_code_val e]) as -> by (destruct (malloc_buf m 21); congruence).
  unfold client_round. rewrite Hc. cbn [negb andb]. set (d0 := if tls then d else _).
  assert (next_request_id d0 = next_request_id d /\ unread d0 = []) as [E1 E2] by (unfold d0; by destruct tls).
  unfold poll, fetch_temp_humi. rewrite E1, E2.
  rewrite request_sent; [|done|by apply get_sensor_ok|done|pose proof aht30_request_len; unfold zlen in *; lia].
  rewrite Harr. cbn [app]. rewrite <- (app_nil_r (frame MSG_ERROR r [err_code_val e])).
  destruct (await_frame (n 0%nat) MSG_ERROR r [err_code_val e] []
    (frame MSG_GET_SENSOR (next_request_id d) (render false 0 (build_get_sensor_req SENSOR_ID_AHT30))) (u32 (next_request_id d + 1)))
    as (rest' & junk & -> & _); [done|by vm_compute|done|destruct e; repeat constructor; by vm_compute|by vm_compute|done|done|].
  rewrite error_code_unparsed. cbn [mbind outcome_bind]. by eexists.
Qed.

(** Answers are not matched with requests.  A late answer to an earlier
    request, whatever its id, is taken as the answer to the present command: its
    state is recorded although nothing has come back for it. *)
Theorem late_answer_taken tls n d a state r :
  net_ok n -> state = 0 \/ state = 1 -> state <> current_state a d -> in_u 32 r ->
  unread d = frame MSG_RESPONSE r (render false 0 success_tree) -> n_arrives n = [] ->
  taking (n_tx n) -> (148 <= length (n_tx n))%nat -> reading (n_rx n) -> (148 <= nchunks (n_rx n))%nat ->
  apply_actuator_if_changed tls n a state (command_value a) d
  = Ret (set_current_state a state (set_link [] (u32 (next_request_id d + 1)) d),
         frame MSG_SET_ACTUATOR (next_request_id d) (render false 0 (build_set_actuator_req (device_id a) state (command_value a)))).
Proof.
  intros Hn Hst Hne Hr Hun Harr Htk Htn Hrx Hrn. destruct success_document as (Hans & _ & Hlen).
  assert (INT_MIN <= device_id a <= INT_MAX) as Hd by (destruct a; by vm_compute).
  assert (INT_MIN <= state <= INT_MAX) as Hs by (unfold INT_MIN, INT_MAX; lia).
  assert (INT_MIN <= command_value a <= INT_MAX) as Hv by (destruct a; by vm_compute).
  unfold apply_actuator_if_changed. destruct (Z.eqb_spec state (current_state a d)); [done|].
  rewrite request_sent; [|done|by apply set_actuator_ok|done|pose proof (command_len _ _ _ Hd Hs Hv); unfold zlen in *; lia].
  rewrite Hun, Harr. set (wire := frame MSG_SET_ACTUATOR _ _).
  destruct (await_answer n MSG_RESPONSE r success_tree [] wire (u32 (next_request_id d + 1)))
    as (rest' & -> & Hsuf); [done|by left|done|done|done|unfold zlen in Hlen; lia|].
  by apply suffix_nil_inv in Hsuf as ->.
Qed.

(** ** Discovery *)

Definition lost (a : attempt) : Prop := at_stop a = false /\ (at_sent a = false \/ at_reply a = None).

Lemma discovery_skips_lost buf before attempts : Forall lost before ->
  discovery_loop buf (before ++ attempts) = discovery_loop buf attempts.
Proof.
  induction 1 as [|a before (Hs & Hl) _ IH]; [done|]. cbn [app discovery_loop]. rewrite Hs.
  destruct Hl as [-> | ->]; [done|]. by destruct (at_sent a).
Qed.

(** A client finds its gateway.  The gateway answers the client's broadcast, and
    the client, having lost up to four attempts, takes from that answer the
    address it came from and the port on which the gateway accepts connections. *)
Theorem discovery_finds_gateway buf before after host sent :
  zlen buf = 256 -> Forall lost before -> (length before < DISCOVERY_MAX_RETRIES)%nat ->
  (length host <= 63)%nat -> sent discovery_reply = zlen discovery_reply ->
  exists answer, handle_discovery (RxData (bstr "DISCOVERY")) sent = Ret (0, Some answer) /\
    do_discovery true buf (before ++ Attempt false true (Some (answer, host)) :: after) = Ret (Some (host, TCP_PORT)).
Proof.
  intros Hb Hlost Hlen Hhost Hsent. exists discovery_reply. split.
  { assert (handle_discovery (RxData (bstr "DISCOVERY")) sent
      = Ret (if sent discovery_reply =? zlen discovery_reply then 0 else -1, Some discovery_reply)) as -> by (by vm_compute).
    by rewrite Hsent, Z.eqb_refl. }
  unfold do_discovery. cbn [negb]. rewrite take_app_ge by lia. rewrite discovery_skips_lost by done.
  destruct (DISCOVERY_MAX_RETRIES - length before)%nat as [|k] eqn:E; [lia|]. cbn [take discovery_loop at_stop at_sent at_reply negb].
  change (take 255 discovery_reply) with discovery_reply. change (zlen discovery_reply =? 0) with false. cbv iota.
  change buf with ([] ++ buf). rewrite write_at_cursor by (done || (rewrite Hb; by vm_compute)). cbn [mbind outcome_bind app].
  rewrite write_at_cursor by (done || (rewrite zlen_drop, Hb; by vm_compute)). cbn [mbind outcome_bind].
  rewrite <- app_assoc. unfold cJSON_Parse. cbn [app]. rewrite c_string_app by (apply (bool_decide_unpack _); by vm_compute).
  rewrite take_ge by done. by vm_compute.
Qed.

(** ** Concrete runs *)

Definition linked (reply : list Z) : client_data :=
  ClientData 1 true reply (-1) 1 0 (S754_zero false) (S754_zero false) (S754_zero false).

Lemma linked_ok reply : bytes reply -> client_ok (linked reply).
Proof. intros Hb. split; [by vm_compute|done|done|]. intros []; cbn; unfold known_or_not; lia. Qed.

Lemma client_survives_its_network_witness :
  exists d ws, client_loop false [(true, fun _ => sample_net [9; 9; 9]); (true, fun _ => sample_net [])] init_client_data
    = Ret (d, ws) /\ client_ok d /\ Forall proper_wire ws.
Proof.
  apply (client_survives_its_network false).
  intros connects n i Hin. apply elem_of_cons in Hin as [[= -> ->]|Hin];
    [|apply list_elem_of_singleton in Hin as [= -> ->]]; apply sample_net_ok; repeat constructor; by vm_compute.
Defined.

Lemma actuators_follow_hysteresis_witness :
  exists d' ws, client_round true true (fun _ => sample_net [9]) (linked []) = Ret (d', ws) /\
    forall a, moved (crossed_high a d') (crossed_low a d') (current_state a (round_start (linked []))) (current_state a d').
Proof.
  apply (actuators_follow_hysteresis true true (fun _ => sample_net [9]) (linked []));
    [intros _; apply sample_net_ok; repeat constructor; by vm_compute|apply linked_ok; constructor|by left].
Defined.

Lemma settled_control_is_silent_witness :
  exists d' ws, control true (fun _ => sample_net []) (linked []) = Ret (d', ws) /\
    ((forall a, current_state a d' = decided a (linked [])) ->
     control true (fun _ => sample_net [9]) d' = Ret (d', [[]; []; []])).
Proof.
  apply (settled_control_is_silent true (fun _ => sample_net []) (fun _ => sample_net [9]) (linked []));
    [intros _; apply sample_net_ok; constructor|split; [apply linked_ok; constructor|done]].
Defined.

Definition broken_packet : list Z := frame MSG_ERROR 0 [err_code_val ERR_CRC_MISMATCH].

Lemma protocol_error_cuts_connection_witness :
  exists d', client_round false true (fun _ => sample_net broken_packet) (linked []) = Ret (d',
      [frame MSG_GET_SENSOR 1 (render false 0 (build_get_sensor_req 1))]) /\ connected d' = false.
Proof.
  apply (protocol_error_cuts_connection false (fun _ => sample_net broken_packet) (linked []) ERR_CRC_MISMATCH 0
    sample_allocator broken_packet 21);
    [exact sample_allocator_ok|by vm_compute| |apply linked_ok; constructor|done|done|by vm_compute| | |
     apply byte_by_byte_reading|by apply Nat.leb_le|done].
  - intros _. apply sample_net_ok, (bool_decide_unpack _). by vm_compute.
  - apply Forall_replicate. by eexists.
  - by apply Nat.leb_le.
Defined.

Lemma late_answer_taken_witness :
  apply_actuator_if_changed true (sample_net []) AC 1 24 (linked (frame MSG_RESPONSE 77 (render false 0 success_tree)))
  = Ret (set_current_state AC 1 (set_link [] 2 (linked (frame MSG_RESPONSE 77 (render false 0 success_tree)))),
         frame MSG_SET_ACTUATOR 1 (render false 0 (build_set_actuator_req 1 1 24))).
Proof.
  apply (late_answer_taken true (sample_net []) (linked (frame MSG_RESPONSE 77 (render false 0 success_tree))) AC 1 77);
    [apply sample_net_ok; constructor|by right|done|by vm_compute|done|done| | |apply byte_by_byte_reading|by apply Nat.leb_le].
  - apply Forall_replicate. by eexists.
  - by apply Nat.leb_le.
Defined.

Lemma discovery_finds_gateway_witness :
  exists answer, handle_discovery (RxData (bstr "DISCOVERY")) zlen = Ret (0, Some answer) /\
    do_discovery true (replicate 256 7)
      ([Attempt false false None; Attempt false true None] ++ Attempt false true (Some (answer, bstr "10.0.0.1")) :: [])
    = Ret (Some (bstr "10.0.0.1", TCP_PORT)).
Proof.
  apply (discovery_finds_gateway (replicate 256 7) [Attempt false false None; Attempt false true None] []
    (bstr "10.0.0.1") zlen); [done| |by apply Nat.ltb_lt|by apply Nat.leb_le|done].
  repeat constructor; by (left || right).
Defined.

End GwClientLaw.
