(* ===== verification/GwSetup.v ===== *)
(** * Connections of the gateway and its clients

    The set-up of the gateway's descriptors ([setup_tcp] and its like in
    gateway/src/server.c, gateway/src/tls.c, gateway/main.c) and the life of the
    clients' connections ([connect_tcp] in gateway/client/client.c; the discovery
    socket, [connect_tls] and [client_cleanup] in gateway/client/client_tls.c),
    round by round around the model of the protocol in [GwClient]. *)
From S2P Require Import Prelude Sys Number Cjson CjsonParse Handlers Sigd GwClient GwClientIo GwClientE2e GwClientLaw.
Import Sys Number Cjson CjsonParse GwClient GwClientIo GwClientE2e GwClientLaw.
Open Scope c_scope.

Module GwSetup.

(** ** The gateway *)

(** [n] calls on a new descriptor, which is closed when one of them fails. *)
Fixpoint checked (n : nat) (fd : Z) (s : sys) : Z * sys :=
  match n with
  | O => (fd, s)
  | S n => let '(ret, s) := call s in if ret <? 0 then (-1, close fd s) else checked n fd s
  end.

(** Three options, [bind] and [listen]. *)
Definition setup_tcp (s : sys) : Z * sys :=
  let '(listen_fd, s) := open_fd s in if listen_fd <? 0 then (-1, s) else checked 5 listen_fd s.

(** Two options and [bind]. *)
Definition setup_udp (s : sys) : Z * sys :=
  let '(discovery_fd, s) := open_fd s in if discovery_fd <? 0 then (-1, s) else checked 3 discovery_fd s.

Definition setup_eventfd (s : sys) : Z * sys :=
  let '(efd, s) := open_fd s in if efd <? 0 then (-1, s) else (efd, s).

Definition setup_epoll (s : sys) : Z * sys :=
  let '(epoll_fd, s) := open_fd s in if epoll_fd <? 0 then (-1, s) else (epoll_fd, s).

(** [None]: the program exits. *)
Definition create_server_ctx (cert_path key_path : option (list Z)) (s : sys) : outcome (option Z * sys) :=
  let '(ctx, s) := SSL_CTX_new s in
  match ctx with
  | None => Ret (None, s)
  | Some ctx =>
      _ ← deref cert_path;
      let '(r, s) := call s in
      if r <? 0 then Ret (None, s)
      else
        _ ← deref key_path;
        let '(r, s) := call s in
        if r <? 0 then Ret (None, s)
        else let '(r, s) := call s in Ret (if r <? 0 then None else Some ctx, s)
  end.

(** The descriptors of [struct server]. *)
Record server_fds := ServerFds { listen_fd : Z; broadcast_fd : Z; event_fd : Z; epoll_fd : Z; tls_ctx : option Z }.

(** The part of [server_init] that opens them; the result is negative as soon as one
    cannot be had, and nothing is closed then. *)
Definition server_open (cert_path key_path : option (list Z)) (s : sys) : outcome (Z * server_fds * sys) :=
  let '(l, s) := setup_tcp s in
  if l <? 0 then Ret (-1, ServerFds l 0 0 0 None, s)
  else
    let '(b, s) := setup_udp s in
    if b <? 0 then Ret (-1, ServerFds l b 0 0 None, s)
    else
      let '(e, s) := setup_eventfd s in
      if e <? 0 then Ret (-1, ServerFds l b e 0 None, s)
      else
        let '(p, s) := setup_epoll s in
        if p <? 0 then Ret (-1, ServerFds l b e p None, s)
        else
          '(ctx, s) ← create_server_ctx cert_path key_path s;
          Ret (match ctx with None => -1 | Some _ => 0 end, ServerFds l b e p ctx, s).

(** The closing calls of [server_cleanup]. *)
Definition server_close (h : server_fds) (s : sys) : sys :=
  let s := match tls_ctx h with Some ctx => SSL_CTX_free ctx s | None => s end in
  close (event_fd h) (close (epoll_fd h) (close (broadcast_fd h) (close (listen_fd h) s))).

(** [main] behind the name of the program: two paths are expected, one is asked for. *)
Definition gateway_main (args : list (list Z)) (s : sys) : outcome (Z * sys) :=
  match args with
  | [] => Ret (-1, s)
  | cert :: more =>
      '(r, h, s) ← server_open (Some cert) (head more) s;
      if r <? 0 then Ret (1, s) else Ret (0, server_close h s)
  end.

(** ** Addresses *)

(** glibc's [inet_pton] for IPv4: [cur] is the octet being read, [done] the ones
    before it, last first. *)
Fixpoint pton (s : list Z) (saw_digit : bool) (cur : Z) (done : list Z) : option (list Z) :=
  match s with
  | [] => if (saw_digit && (Nat.eqb (length done) 3))%bool then Some (rev (cur :: done)) else None
  | ch :: s =>
      if ((48 <=? ch) && (ch <=? 57))%bool then
        let new := cur * 10 + (ch - 48) in
        if ((saw_digit && (cur =? 0)) || (255 <? new))%bool then None
        else pton s true new done
      else if ((ch =? 46) && saw_digit)%bool then
        if Nat.eqb (length done) 3 then None else pton s false 0 (cur :: done)
      else None
  end.

Definition inet_pton (s : list Z) : option (list Z) := pton s false 0 [].

Definition inet_ntoa (a b c d : Z) : list Z :=
  fmt_d a ++ [46] ++ fmt_d b ++ [46] ++ fmt_d c ++ [46] ++ fmt_d d.

(** ** The clients' connections *)

(** The results of the two [setsockopt] calls are not looked at. *)
Definition connect_tcp (host : list Z) (s : sys) : Z * sys :=
  let '(fd, s) := open_fd s in
  if fd <? 0 then (-1, s)
  else
    let s := (call (call s).2).2 in
    match inet_pton host with
    | None => (-1, close fd s)
    | Some _ => let '(r, s) := call s in if r <? 0 then (-1, close fd s) else (fd, s)
    end.

(** The session and its descriptor.  The result of [SSL_new] is used unchecked. *)
Definition connect_tls (host : list Z) (s : sys) : outcome (option (Z * Z) * sys) :=
  let '(fd, s) := open_fd s in
  if fd <? 0 then Ret (None, s)
  else
    let s := (call (call s).2).2 in
    match inet_pton host with
    | None => Ret (None, close fd s)
    | Some _ =>
        let '(r, s) := call s in
        if r <? 0 then Ret (None, close fd s)
        else
          let '(ssl, s) := SSL_new s in
          ssl ← deref ssl;
          let '(r, s) := call s in
          if r <? 0 then Ret (None, close fd (SSL_free ssl s)) else Ret (Some (ssl, fd), s)
    end.

Definition client_config (args : list (list Z)) : option (list Z * Z) :=
  match args with
  | addr :: port :: _ =>
      let discovery_port := Sigd.atoi port in
      if ((discovery_port <=? 0) || (65535 <? discovery_port))%bool then None
      else Some (take 63 addr, discovery_port)
  | _ => None
  end.

Definition init_client_ctx (s : sys) : option Z * sys := SSL_CTX_new s.

(** The handles in [struct client_data] of the TLS client. *)
Record links := Links { server_fd : Z; boardcast_fd : Z; ssl : option Z; ctx : option Z }.

Definition setup_boardcast (s : sys) : Z * sys :=
  let '(fd, s) := open_fd s in
  if fd <? 0 then (-1, s)
  else
    let '(r, s) := call s in
    if r <? 0 then (-1, close fd s) else (fd, (call (call s).2).2).

(** [None] for -1; a failed attempt leaves [server_fd] alone. *)
Definition setup_tcp_tls (host : list Z) (k : links) (s : sys) : outcome (bool * links * sys) :=
  '(r, s) ← connect_tls host s;
  Ret (match r with
       | Some (l, fd) => (true, Links fd (boardcast_fd k) (Some l) (ctx k), s)
       | None => (false, Links (server_fd k) (boardcast_fd k) None (ctx k), s)
       end).

Definition drop_session (k : links) (s : sys) : links * sys :=
  let s := match ssl k with Some l => SSL_free l s | None => s end in
  let s := if 0 <=? server_fd k then close (server_fd k) s else s in
  (Links (-1) (boardcast_fd k) None (ctx k), s).

Definition client_cleanup (k : links) (s : sys) : sys :=
  let '(k, s) := drop_session k s in
  let s := if 0 <=? boardcast_fd k then close (boardcast_fd k) s else s in
  match ctx k with Some c => SSL_CTX_free c s | None => s end.

(** What one round meets: the local array and the attempts of the discovery, and the
    network of each request. *)
Record meets := Meets { m_buf : list Z; m_attempts : list attempt; m_net : nat -> net }.

(** One turn of the loop in [main] of client_tls.c; the requests sent. *)
Definition tls_round (addr : list Z) (m : meets) (d : client_data) (k : links) (s : sys)
    : outcome (client_data * links * sys * list (list Z)) :=
  '(ok, k, s) ←
    (if connected d then Ret (true, k, s)
     else
       let '(fd, s) := setup_boardcast s in
       if fd <? 0 then Ret (false, k, s)
       else
         found ← do_discovery (bool_decide (is_Some (inet_pton addr))) (m_buf m) (m_attempts m);
         let k := Links (server_fd k) (-1) (ssl k) (ctx k) in
         let s := close fd s in
         match found with
         | None => Ret (false, k, s)
         | Some (host, _) => setup_tcp_tls host k s
         end);
  if negb ok then Ret (d, k, s, [])
  else
    '(d, ws) ← client_round true true (m_net m) d;
    if connected d then Ret (d, k, s, ws)
    else let '(k, s) := drop_session k s in Ret (d, k, s, ws).

Fixpoint tls_loop (addr : list Z) (ms : list meets) (d : client_data) (k : links) (s : sys)
    : outcome (client_data * links * sys) :=
  match ms with
  | [] => Ret (d, k, s)
  | m :: ms => '(d, k, s, _) ← tls_round addr m d k s; tls_loop addr ms d k s
  end.

(** [main] of client_tls.c, from its arguments; the stop flag is seen behind [ms].
    [init_client_data] initialises the mutex and the condition and blocks the
    signals before it makes the context; without a context the program exits. *)
Definition tls_main (args : list (list Z)) (thread_created : bool) (ms : list meets) (s : sys) : outcome (Z * sys) :=
  match client_config args with
  | None => Ret (1, s)
  | Some (addr, _) =>
      let '(r, s) := call s in
      if r <? 0 then Ret (1, s)
      else
        let '(r, s) := call s in
        if r <? 0 then Ret (1, s)
        else
          let '(r, s) := call s in
          if r <? 0 then Ret (1, s)
          else
            match init_client_ctx s with
            | (None, s) => Ret (1, s)
            | (Some c, s) =>
                let k := Links (-1) (-1) None (Some c) in
                if negb thread_created then Ret (1, client_cleanup k s)
                else
                  '(_, k, s) ← tls_loop addr ms init_client_data k s;
                  Ret (0, client_cleanup k s)
            end
  end.

(** The loop in [main] of client.c; [fd] is -1 without a connection. *)
Definition plain_round (host : list Z) (n : nat -> net) (d : client_data) (fd : Z) (s : sys)
    : outcome (client_data * Z * sys) :=
  let '(fd, s) := if fd <? 0 then connect_tcp host s else (fd, s) in
  if fd <? 0 then Ret (d, fd, s)
  else
    '(d, _) ← client_round false true n d;
    if connected d then Ret (d, fd, s) else Ret (d, -1, close fd s).

Fixpoint plain_loop (host : list Z) (ns : list (nat -> net)) (d : client_data) (fd : Z) (s : sys)
    : outcome (client_data * Z * sys) :=
  match ns with
  | [] => Ret (d, fd, s)
  | n :: ns => '(d, fd, s) ← plain_round host n d fd s; plain_loop host ns d fd s
  end.

Definition plain_main (args : list (list Z)) (ns : list (nat -> net)) (s : sys) : outcome (Z * sys) :=
  match args with
  | host :: _ :: _ =>
      '(_, fd, s) ← plain_loop host ns init_client_data (-1) s;
      Ret (0, if 0 <=? fd then close fd s else s)
  | _ => Ret (1, s)
  end.

(** ** Waiting *)

(** [sleep_interruptible]: the seconds slept; [stops i] is [g_stop] in the [i]-th turn. *)
Fixpoint sleep_interruptible (seconds : nat) (stops : nat -> bool) : nat :=
  match seconds with
  | O => 0
  | S n => if stops 0%nat then 0 else S (sleep_interruptible n (fun i => stops (S i)))
  end.

(** [sleep_interruptible_cd]: the waits, each ended by a wake-up ([rc] = 0) or not, with
    the flag seen after it; whether the loop is left. *)
Fixpoint sleep_interruptible_cd (shutdown : bool) (waits : list (Z * bool)) : bool :=
  if shutdown then true
  else
    match waits with
    | [] => false
    | (rc, shutdown) :: waits => if negb (rc =? 0) then true else sleep_interruptible_cd shutdown waits
    end.

Lemma sleep_bounded seconds stops :
  (sleep_interruptible seconds stops <= seconds)%nat /\
  forall i, stops i = true -> (sleep_interruptible seconds stops <= i)%nat.
Proof.
  revert stops. induction seconds as [|n IH]; intros stops; cbn; [split; intros; lia|].
  destruct (stops 0%nat) eqn:E; [split; intros; lia|]. destruct (IH (fun i => stops (S i))) as [H1 H2].
  split; [lia|]. intros [|i] Hi; [congruence|]. specialize (H2 i Hi). lia.
Qed.

(** ** Setting up *)

Lemma call_cases s : exists r s', call s = (r, s') /\ same_handles s s'.
Proof. pose proof (call_same s). destruct (call s) as [r s']. by exists r, s'. Qed.

(** A function that returns a new descriptor, or -1 and has none left. *)
Definition gives_fd (s : sys) (x : Z * sys) : Prop :=
  (x.1 = -1 /\ same_handles s x.2) \/ opens s x.1 x.2.

Lemma checked_spec n s0 fd s : opens s0 fd s -> gives_fd s0 (checked n fd s).
Proof.
  revert s. induction n as [|n IH]; intros s Ho; cbn [checked]; [by right|].
  destruct (call_cases s) as (r & s1 & -> & Hs). destruct (r <? 0).
  - left. split; [done|]. by apply (opens_close s0 fd s).
  - apply IH. by apply (opens_same s0 fd s).
Qed.

Lemma open_then s (f : Z -> sys -> Z * sys) : sys_ok s ->
  (forall fd s1, opens s fd s1 -> gives_fd s (f fd s1)) ->
  gives_fd s (let '(fd, s1) := open_fd s in if fd <? 0 then (-1, s1) else f fd s1).
Proof.
  intros Hok Hf. pose proof (open_fd_spec s Hok) as H. destruct (open_fd s) as [fd s1]. cbn [fst snd] in H.
  destruct H as [[-> Hs]|Ho]; [by left|]. destruct (Z.ltb_spec fd 0); [destruct Ho; lia|]. by apply Hf.
Qed.

Lemma setup_tcp_spec s : sys_ok s -> gives_fd s (setup_tcp s).
Proof. intros Hok. apply (open_then s (checked 5)); [done|]. intros. by apply checked_spec. Qed.

Lemma setup_udp_spec s : sys_ok s -> gives_fd s (setup_udp s).
Proof. intros Hok. apply (open_then s (checked 3)); [done|]. intros. by apply checked_spec. Qed.

Lemma setup_one_spec s : sys_ok s -> gives_fd s (setup_eventfd s) /\ gives_fd s (setup_epoll s).
Proof. intros Hok. split; apply (open_then s (fun fd s => (fd, s))); try done; by right. Qed.

Lemma setup_boardcast_spec s : sys_ok s -> gives_fd s (setup_boardcast s).
Proof.
  intros Hok. apply (open_then s (fun fd s => let '(r, s) := call s in
    if r <? 0 then (-1, close fd s) else (fd, (call (call s).2).2))); [done|].
  intros fd s1 Ho. destruct (call_cases s1) as (r & s2 & -> & Hs). destruct (r <? 0).
  - left. split; [done|]. by apply (opens_close s fd s1).
  - right. apply (opens_same s fd s1); [done|]. cbn. eauto using same_trans, call_same.
Qed.

Lemma connect_tcp_spec host s : sys_ok s -> gives_fd s (connect_tcp host s).
Proof.
  intros Hok. apply (open_then s (fun fd s => let s := (call (call s).2).2 in
    match inet_pton host with
    | None => (-1, close fd s)
    | Some _ => let '(r, s) := call s in if r <? 0 then (-1, close fd s) else (fd, s)
    end)); [done|].
  intros fd s1 Ho. cbn zeta. assert (Hs : same_handles s1 (call (call s1).2).2) by eauto using same_trans, call_same.
  destruct (inet_pton host); [|left; split; [done|]; by apply (opens_close s fd s1)].
  destruct (call_cases (call (call s1).2).2) as (r & s2 & -> & Hs2). pose proof (same_trans _ _ _ Hs Hs2).
  destruct (r <? 0); [left; split; [done|]; by apply (opens_close s fd s1)|right; by apply (opens_same s fd s1)].
Qed.

(** A session [l] over a new descriptor [fd]. *)
Record session (s : sys) (l fd : Z) (s' : sys) : Prop := {
  se_fd : 0 <= fd; se_new : fd ∉ y_fds s; se_fds : y_fds s' = {[fd]} ∪ y_fds s;
  se_ssl : l ∉ y_ssls s; se_ssls : y_ssls s' = {[l]} ∪ y_ssls s; se_ctxs : y_ctxs s' = y_ctxs s;
  se_memory : y_memory s' = y_memory s; se_next : y_next s <= y_next s'; se_ok : sys_ok s' }.

Lemma ssl_new_session s fd s1 : opens s fd s1 -> y_memory s1 = true ->
  exists l s2, SSL_new s1 = (Some l, s2) /\ session s l fd s2.
Proof.
  intros (H0 & Hn & Ef & Es & Ec & Em & Hle & (Hok0 & Hok1 & Hok2 & Hok3)) Hm. unfold SSL_new. rewrite Hm.
  do 2 eexists. split; [done|]. split; cbn; try done; try lia.
  - rewrite <- Es. intros Hin. apply Hok2 in Hin. lia.
  - by rewrite Es.
  - split_and!; cbn; [lia|..]; intros x Hx; [apply Hok1 in Hx; lia| |apply Hok3 in Hx; lia].
    apply elem_of_union in Hx as [->%elem_of_singleton|Hx]; [lia|]. apply Hok2 in Hx. lia.
Qed.

Lemma session_same s l fd s1 s2 : session s l fd s1 -> same_handles s1 s2 -> session s l fd s2.
Proof. intros [] []. split; try done; try congruence; [lia|tauto]. Qed.

Lemma remove_added (x : Z) (X Y : gset Z) : x ∉ X -> Y = {[x]} ∪ X -> Y ∖ {[x]} = X.
Proof. intros Hx ->. set_solver. Qed.

Lemma session_dropped s l fd s1 : session s l fd s1 ->
  same_handles s (close fd (SSL_free l s1)) /\ same_handles s (SSL_free l (close fd s1)).
Proof.
  intros [H0 Hn Ef Hl Es Ec Em Hle (O0 & O1 & O2 & O3)].
  assert (Hf : y_fds s1 ∖ {[fd]} = y_fds s) by (by apply remove_added).
  assert (Hs : y_ssls s1 ∖ {[l]} = y_ssls s) by (by apply remove_added).
  assert (Hok : sys_ok (close fd (SSL_free l s1))).
  { split_and!; cbn; try done; intros x [Hx _]%elem_of_difference; auto. }
  split; split; cbn; try done.
Qed.

Lemma connect_tls_spec host s : sys_ok s -> y_memory s = true ->
  exists r s', connect_tls host s = Ret (r, s') /\
    match r with None => same_handles s s' | Some (l, fd) => session s l fd s' end.
Proof.
  intros Hok Hm. unfold connect_tls. pose proof (open_fd_spec s Hok) as H. destruct (open_fd s) as [fd s1].
  cbn [fst snd] in H. destruct H as [[-> Hs]|Ho]; [by exists None, s1|].
  destruct (Z.ltb_spec fd 0); [destruct Ho; lia|].
  assert (Hs : same_handles s1 (call (call s1).2).2) by eauto using same_trans, call_same.
  set (s2 := (call (call s1).2).2) in *. destruct (inet_pton host) as [a|].
  2: { exists None. eexists. split; [done|]. by apply (opens_close s fd s1). }
  destruct (call_cases s2) as (r & s3 & -> & Hs3). pose proof (same_trans _ _ _ Hs Hs3) as Hs13.
  destruct (r <? 0); [exists None; eexists; split; [done|]; by apply (opens_close s fd s1)|].
  pose proof (opens_same s fd s1 s3 Ho Hs13) as Ho3.
  destruct (ssl_new_session s fd s3 Ho3) as (l & s4 & -> & Hses).
  { destruct Ho3 as (_ & _ & _ & _ & _ & -> & _). done. }
  cbn [deref mbind outcome_bind]. destruct (call_cases s4) as (r' & s5 & -> & Hs5).
  pose proof (session_same _ _ _ _ _ Hses Hs5) as Hses5. destruct (r' <? 0).
  - exists None. eexists. split; [done|]. by apply session_dropped.
  - by exists (Some (l, fd)), s5.
Qed.

(** ** The discovery comes to an end *)

Definition replies_ok (attempts : list attempt) : Prop :=
  Forall (fun a => match at_reply a with Some (bs, _) => bytes bs | None => True end) attempts.

Lemma discovery_loop_runs buf attempts : zlen buf = 256 -> bytes buf -> replies_ok attempts ->
  exists r, discovery_loop buf attempts = Ret r.
Proof.
  intros Hz Hb Hr. revert buf Hz Hb. induction Hr as [|a attempts Ha _ IH]; intros buf Hz Hb; cbn [discovery_loop]; [by eexists|].
  destruct (at_stop a); [by eexists|]. destruct (at_sent a); [|by apply IH]. cbn [negb].
  destruct (at_reply a) as [[bs host]|]; [|by apply IH].
  assert (Hbs : bytes (take 255 bs)) by (by apply Forall_take). assert (Hl : zlen (take 255 bs) <= 255).
  { unfold zlen. rewrite length_take. lia. }
  destruct (zlen (take 255 bs) =? 0); [by apply IH|]. pose proof (zlen_nonneg (take 255 bs)).
  destruct (write_bytes buf 0 (take 255 bs)) as (b1 & -> & Hz1 & Hb1); [lia|lia|done|done|]. cbn [mbind outcome_bind].
  destruct (write_bytes b1 (zlen (take 255 bs)) [0]) as (b2 & -> & Hz2 & Hb2);
    [lia|change (zlen [0]) with 1; lia|done|repeat constructor; lia|]. cbn [mbind outcome_bind].
  unfold cJSON_Parse. destruct (parse_defined (c_string b2 ++ [0])) as (r & -> & _).
  { apply Forall_app. split; [by apply c_string_bytes|repeat constructor; lia]. }
  cbn [mbind outcome_bind]. destruct (cJSON_IsNumber _); [by eexists|]. apply IH; [lia|done].
Qed.

(** ** Rounds keep hold of exactly one connection, or of none *)

Definition meets_ok (m : meets) : Prop :=
  zlen (m_buf m) = 256 /\ bytes (m_buf m) /\ replies_ok (m_attempts m) /\ forall i, net_ok (m_net m i).

(** The handles beyond those of [s0]: with a connection its session and descriptor,
    without one none. *)
Definition tied (s0 : sys) (d : client_data) (k : links) (s : sys) : Prop :=
  client_ok d /\ boardcast_fd k = -1 /\
  if connected d then exists l, ssl k = Some l /\ session s0 l (server_fd k) s
  else ssl k = None /\ server_fd k = -1 /\ same_handles s0 s.

Lemma session_from s0 s l fd s' : same_handles s0 s -> session s l fd s' -> session s0 l fd s'.
Proof.
  intros [E1 E2 E3 E4 E5 _] [H0 Hn Ef Hl Es Ec Em Hle Hok]. rewrite E1, E2 in *. split; try done; try congruence. lia.
Qed.

Lemma drop_session_spec s0 l k s : ssl k = Some l -> session s0 l (server_fd k) s ->
  same_handles s0 (drop_session k s).2 /\ (drop_session k s).1 = Links (-1) (boardcast_fd k) None (ctx k).
Proof.
  intros El Hs. unfold drop_session. rewrite El. destruct (Z.leb_spec 0 (server_fd k)); [|destruct Hs; lia].
  split; [|done]. by apply session_dropped.
Qed.

(** A round with a connection. *)
Lemma round_connected s0 d k s l (n : nat -> net) : (forall i, net_ok (n i)) -> client_ok d -> boardcast_fd k = -1 ->
  ssl k = Some l -> session s0 l (server_fd k) s ->
  exists d' k' s' ws, ('(d, ws) ← client_round true true n d;
     if connected d then Ret (d, k, s, ws)
     else let '(k, s) := drop_session k s in Ret (d, k, s, ws)) = Ret (d', k', s', ws) /\
    tied s0 d' k' s' /\ ctx k' = ctx k.
Proof.
  intros Hn Hd Hb El Hs. destruct (client_round_runs true true n d Hn Hd) as (d1 & ws & -> & Hd1 & _).
  cbn [mbind outcome_bind]. destruct (connected d1) eqn:Ec.
  - exists d1, k, s, ws. split; [done|]. split; [|done]. split_and!; [done|done|]. rewrite Ec. by exists l.
  - destruct (drop_session_spec s0 l k s El Hs) as [H1 H2]. destruct (drop_session k s) as [k1 s1]. cbn in H1, H2. subst k1.
    do 4 eexists. split; [done|]. split; [|done]. split_and!; [done|done|]. by rewrite Ec.
Qed.

Lemma tls_round_tied s0 addr m d k s : sys_ok s0 -> y_memory s0 = true -> meets_ok m -> tied s0 d k s ->
  exists d' k' s' ws, tls_round addr m d k s = Ret (d', k', s', ws) /\ tied s0 d' k' s' /\ ctx k' = ctx k.
Proof.
  intros Hok Hmem (Hz & Hb & Hr & Hn) (Hd & Hbf & Ht). unfold tls_round. destruct (connected d) eqn:Ec.
  { destruct Ht as (l & El & Hs). cbn [mbind outcome_bind negb]. by apply (round_connected s0 d k s l). }
  destruct Ht as (El & Ef & Hs). pose proof (sh_ok _ _ Hs Hok) as Hoks.
  assert (Hback : forall s', same_handles s0 s' -> tied s0 d (Links (server_fd k) (-1) (ssl k) (ctx k)) s').
  { intros s' Hs'. split_and!; [done|done|]. rewrite Ec. done. }
  assert (Ek : k = Links (server_fd k) (-1) (ssl k) (ctx k)) by (destruct k; cbn in *; congruence).
  pose proof (setup_boardcast_spec s Hoks) as Hg. destruct (setup_boardcast s) as [fd s1]. destruct Hg as [[E1 Hs1]|Ho]; cbn [fst snd] in *.
  { subst fd. cbn. do 4 eexists. split; [done|]. split; [|done]. rewrite Ek. apply Hback. by apply (same_trans _ s). }
  destruct (Z.ltb_spec fd 0); [destruct Ho; lia|].
  assert (exists r, do_discovery (bool_decide (is_Some (inet_pton addr))) (m_buf m) (m_attempts m) = Ret r) as [r ->].
  { unfold do_discovery. destruct (bool_decide _); [|by eexists]. apply discovery_loop_runs; [done|done|]. by apply Forall_take. }
  cbn [mbind outcome_bind]. assert (Hs2 : same_handles s0 (close fd s1)).
  { apply (same_trans _ s); [done|]. apply (opens_close s fd s1); [done|]. apply same_refl. }
  destruct r as [[host port]|]; cbn [mbind outcome_bind negb].
  2: { do 4 eexists. split; [done|]. by split; [apply Hback|]. }
  unfold setup_tcp_tls. destruct (connect_tls_spec host (close fd s1)) as (r & s3 & -> & Hr3).
  { by apply (sh_ok _ _ Hs2). } { by rewrite (sh_memory _ _ Hs2). }
  cbn [mbind outcome_bind]. destruct r as [[l fd2]|]; cbn [negb server_fd boardcast_fd ssl ctx].
  - destruct (round_connected s0 d (Links fd2 (-1) (Some l) (ctx k)) s3 l (m_net m)) as (d' & k' & s' & ws & E & Ht' & Ec');
      try done; [by apply (session_from s0 (close fd s1))|]. by exists d', k', s', ws.
  - do 4 eexists. split; [done|]. split; [|done]. rewrite <- El. apply Hback. by apply (same_trans _ (close fd s1)).
Qed.

Lemma tls_loop_tied s0 addr ms d k s : sys_ok s0 -> y_memory s0 = true -> Forall meets_ok ms -> tied s0 d k s ->
  exists d' k' s', tls_loop addr ms d k s = Ret (d', k', s') /\ tied s0 d' k' s' /\ ctx k' = ctx k.
Proof.
  intros Hok Hmem Hms. revert d k s. induction Hms as [|m ms Hm _ IH]; intros d k s Ht; cbn [tls_loop]; [by exists d, k, s|].
  destruct (tls_round_tied s0 addr m d k s Hok Hmem Hm Ht) as (d1 & k1 & s1 & ws & -> & Ht1 & E1). cbn [mbind outcome_bind].
  destruct (IH d1 k1 s1 Ht1) as (d2 & k2 & s2 & -> & Ht2 & E2). exists d2, k2, s2. split_and!; [done|done|congruence].
Qed.

Lemma ctx_back s c s1 s2 : sys_ok s -> SSL_CTX_new s = (Some c, s1) -> same_handles s1 s2 ->
  same_handles s (SSL_CTX_free c s2).
Proof.
  unfold SSL_CTX_new. intros (H0 & H1 & H2 & H3) E [E1 E2 E3 E4 E5 E6]. destruct (y_memory s) eqn:Em; [|done].
  injection E as <- <-. cbn in *. split; cbn; try done; [|lia|].
  - apply remove_added; [|done]. intros Hin. apply H3 in Hin. lia.
  - intros _. destruct E6 as (O0 & O1 & O2 & O3).
    + split_and!; cbn; [lia|..]; intros x Hx; [apply H1 in Hx; lia|apply H2 in Hx; lia|].
      apply elem_of_union in Hx as [->%elem_of_singleton|Hx]; [lia|]. apply H3 in Hx. lia.
    + split_and!; cbn; try done. intros x [Hx _]%elem_of_difference. auto.
Qed.

Lemma cleanup_tied s0 s c d k s' : sys_ok s -> SSL_CTX_new s = (Some c, s0) -> ctx k = Some c -> tied s0 d k s' ->
  same_handles s (client_cleanup k s').
Proof.
  intros Hok Ec Ek (_ & Hb & Ht). unfold client_cleanup.
  assert (Hd : exists s2, drop_session k s' = (Links (-1) (-1) None (Some c), s2) /\ same_handles s0 s2).
  { destruct (connected d).
    - destruct Ht as (l & El & Hs). destruct (drop_session_spec s0 l k s' El Hs) as [H1 H2].
      destruct (drop_session k s') as [k2 s2]. cbn in H1, H2. subst. rewrite Hb, Ek. by eexists.
    - destruct Ht as (El & Ef & Hs). unfold drop_session. rewrite El, Ef, Hb, Ek. by eexists. }
  destruct Hd as (s2 & -> & Hs2). cbn. by apply (ctx_back s c s0).
Qed.

Lemma tls_main_leak_free s args created ms : sys_ok s -> y_memory s = true -> Forall meets_ok ms ->
  exists r s', tls_main args created ms s = Ret (r, s') /\ same_handles s s'.
Proof.
  intros Hok Hm Hms. unfold tls_main. destruct (client_config args) as [[addr port]|]; [|exists 1, s; auto with handles].
  destruct (call_cases s) as (r1 & s1 & -> & H1). destruct (r1 <? 0); [by do 2 eexists|].
  destruct (call_cases s1) as (r2 & s2 & -> & H2). pose proof (same_trans _ _ _ H1 H2) as H12. destruct (r2 <? 0); [by do 2 eexists|].
  destruct (call_cases s2) as (r3 & s3 & -> & H3). pose proof (same_trans _ _ _ H12 H3) as H13. destruct (r3 <? 0); [by do 2 eexists|].
  unfold init_client_ctx. pose proof (sh_ok _ _ H13 Hok) as Hok3. pose proof (sh_memory _ _ H13) as Hm3. rewrite Hm in Hm3.
  destruct (SSL_CTX_new s3) as [[c|] s4] eqn:Ec; [|unfold SSL_CTX_new in Ec; by rewrite Hm3 in Ec].
  assert (sys_ok s4 /\ y_memory s4 = true) as [Hok4 Hm4].
  { destruct Hok3 as (O0 & O1 & O2 & O3). unfold SSL_CTX_new in Ec. rewrite Hm3 in Ec. injection Ec as <- <-. split; [|done].
    split_and!; cbn; [lia|..]; intros x Hx; [apply O1 in Hx; lia|apply O2 in Hx; lia|].
    apply elem_of_union in Hx as [->%elem_of_singleton|Hx]; [lia|]. apply O3 in Hx. lia. }
  assert (Hstart : tied s4 init_client_data (Links (-1) (-1) None (Some c)) s4).
  { split; [|split; [done|]]; [|split_and!; auto with handles]. split; [by vm_compute|constructor|done|]. intros []; by left. }
  destruct created; cbn [negb].
  - destruct (tls_loop_tied s4 addr ms _ _ _ Hok4 Hm4 Hms Hstart) as (d & k & s5 & -> & Ht & Ek). cbn [mbind outcome_bind].
    do 2 eexists. split; [done|]. apply (same_trans _ s3); [done|]. by apply (cleanup_tied s4 s3 c d k).
  - do 2 eexists. split; [done|]. apply (same_trans _ s3); [done|]. by apply (cleanup_tied s4 s3 c init_client_data).
Qed.

(** The plain client. *)
Definition plain_tied (s0 : sys) (d : client_data) (fd : Z) (s : sys) : Prop :=
  client_ok d /\ if connected d then opens s0 fd s else fd = -1 /\ same_handles s0 s.

Lemma plain_round_tied s0 host n d fd s : sys_ok s0 -> (forall i, net_ok (n i)) -> plain_tied s0 d fd s ->
  exists d' fd' s', plain_round host n d fd s = Ret (d', fd', s') /\ plain_tied s0 d' fd' s'.
Proof.
  intros Hok Hn [Hd Ht]. unfold plain_round.
  assert (Hrun : forall fd s, opens s0 fd s -> exists d' fd' s',
    ('(d, _) ← client_round false true n d; if connected d then Ret (d, fd, s) else Ret (d, -1, close fd s)) = Ret (d', fd', s') /\
    plain_tied s0 d' fd' s').
  { intros fd1 s1 Ho. destruct (client_round_runs false true n d Hn Hd) as (d1 & ws & -> & Hd1 & _). cbn [mbind outcome_bind].
    destruct (connected d1) eqn:Ec; do 3 eexists; (split; [done|]); (split; [done|]); rewrite Ec; [done|].
    split; [done|]. apply (opens_close s0 fd1 s1); [done|]. apply same_refl. }
  destruct (connected d) eqn:Ec.
  { destruct (Z.ltb_spec fd 0); [destruct Ht; lia|]. destruct (Z.ltb_spec fd 0); [lia|]. by apply Hrun. }
  destruct Ht as [-> Hs]. change (-1 <? 0) with true. cbn match.
  pose proof (connect_tcp_spec host s (sh_ok _ _ Hs Hok)) as Hg. destruct (connect_tcp host s) as [fd1 s1].
  destruct Hg as [[E Hs1]|Ho]; cbn [fst snd] in *.
  - subst fd1. do 3 eexists. split; [done|]. split; [done|]. rewrite Ec. split; [done|]. by apply (same_trans _ s).
  - destruct (Z.ltb_spec fd1 0); [destruct Ho; lia|]. apply Hrun. destruct Hs as [E1 E2 E3 E4 E5 E6].
    destruct Ho as (P0 & P1 & P2 & P3 & P4 & P5 & P6 & P7). rewrite E1 in *. split_and!; try done; try congruence. lia.
Qed.

Lemma plain_loop_tied s0 host ns d fd s : sys_ok s0 -> Forall (fun n => forall i, net_ok (n i)) ns -> plain_tied s0 d fd s ->
  exists d' fd' s', plain_loop host ns d fd s = Ret (d', fd', s') /\ plain_tied s0 d' fd' s'.
Proof.
  intros Hok Hns. revert d fd s. induction Hns as [|n ns Hn _ IH]; intros d fd s Ht; cbn [plain_loop]; [by exists d, fd, s|].
  destruct (plain_round_tied s0 host n d fd s Hok Hn Ht) as (d1 & fd1 & s2 & -> & Ht1). by apply IH.
Qed.

Lemma plain_main_leak_free s args ns : sys_ok s -> Forall (fun n => forall i, net_ok (n i)) ns ->
  exists r s', plain_main args ns s = Ret (r, s') /\ same_handles s s'.
Proof.
  intros Hok Hns. unfold plain_main. destruct args as [|host [|port args]]; [(exists 1, s; split; [done|apply same_refl])..|].
  destruct (plain_loop_tied s host ns init_client_data (-1) s Hok Hns) as (d & fd & s' & -> & _ & Ht).
  { split; [|split; auto with handles]. split; [by vm_compute|constructor|done|]. intros []; by left. }
  cbn [mbind outcome_bind]. do 2 eexists. split; [done|].
  destruct (connected d).
  - destruct (Z.leb_spec 0 fd); [|destruct Ht; lia]. apply (opens_close s fd s'); [done|]. apply same_refl.
  - destruct Ht as [-> Hs]. done.
Qed.

(** C15: The clients never leak.  Whatever the network does, through any number of
    rounds with connections found, refused, broken off in the middle and made again,
    both clients come to the end of their [main], and then the process has exactly the
    descriptors, TLS sessions and TLS contexts it started with. *)
Theorem clients_never_leak s args created ms ns :
  sys_ok s -> y_memory s = true -> Forall meets_ok ms -> Forall (fun n => forall i, net_ok (n i)) ns ->
  (exists r s', tls_main args created ms s = Ret (r, s') /\ same_handles s s') /\
  (exists r s', plain_main args ns s = Ret (r, s') /\ same_handles s s').
Proof. intros. split; [by apply tls_main_leak_free|by apply plain_main_leak_free]. Qed.

(** ** Addresses survive *)

Lemma fmt_octet a : 0 <= a < 256 ->
  fmt_d a = if a <? 10 then [48 + a]
            else if a <? 100 then [48 + a / 10; 48 + a mod 10]
            else [48 + a / 100; 48 + a / 10 mod 10; 48 + a mod 10].
Proof.
  intros Ha.
  assert (H : forallb (fun n => bool_decide (fmt_d (Z.of_nat n) =
    let a := Z.of_nat n in if a <? 10 then [48 + a] else if a <? 100 then [48 + a / 10; 48 + a mod 10]
    else [48 + a / 100; 48 + a / 10 mod 10; 48 + a mod 10])) (seq 0 256) = true) by (by vm_compute).
  rewrite forallb_forall in H. specialize (H (Z.to_nat a)). rewrite Z2Nat.id in H by lia.
  assert (Hin : Z.to_nat a ∈ seq 0 256) by (apply elem_of_seq; lia). apply list_elem_of_In, H in Hin.
  by apply bool_decide_eq_true in Hin.
Qed.

(** One more digit. *)
Lemma pton_digit c s saw cur done : 0 <= c <= 9 -> cur * 10 + c <= 255 -> (saw = true -> cur <> 0) ->
  pton (48 + c :: s) saw cur done = pton s true (cur * 10 + c) done.
Proof.
  intros Hc Hle Hs. cbn [pton]. destruct (Z.leb_spec 48 (48 + c)), (Z.leb_spec (48 + c) 57); try lia. cbn [andb].
  replace (cur * 10 + (48 + c - 48)) with (cur * 10 + c) by lia.
  destruct (Z.ltb_spec 255 (cur * 10 + c)); [lia|]. rewrite orb_false_r.
  destruct saw; [|done]. cbn [andb]. destruct (Z.eqb_spec cur 0); [by destruct (Hs eq_refl)|done].
Qed.

Lemma pton_octet a s done : 0 <= a < 256 -> pton (fmt_d a ++ s) false 0 done = pton s true a done.
Proof.
  intros Ha. rewrite fmt_octet by done. pose proof (Z.div_mod a 10 ltac:(lia)) as E10.
  pose proof (Z.mod_pos_bound a 10 ltac:(lia)).
  destruct (Z.ltb_spec a 10); [|destruct (Z.ltb_spec a 100)]; cbn [app].
  - by rewrite pton_digit by lia.
  - rewrite !pton_digit by lia. f_equal; lia.
  - pose proof (Z.div_mod (a / 10) 10 ltac:(lia)) as E100. pose proof (Z.mod_pos_bound (a / 10) 10 ltac:(lia)).
    assert (a / 10 / 10 = a / 100) as E by (by rewrite Z.div_div). rewrite E in E100.
    rewrite !pton_digit by lia. f_equal; lia.
Qed.

(** [inet_pton] reads what [inet_ntoa] writes, so the address of a gateway that
    answered is one the client can connect to. *)
Theorem address_roundtrip a b c d :
  0 <= a < 256 -> 0 <= b < 256 -> 0 <= c < 256 -> 0 <= d < 256 ->
  inet_pton (inet_ntoa a b c d) = Some [a; b; c; d] /\ (length (inet_ntoa a b c d) <= 15)%nat.
Proof.
  intros Ha Hb Hc Hd. unfold inet_pton, inet_ntoa. split.
  - rewrite pton_octet by done. cbn [app pton Z.leb Z.compare Z.eqb andb length Nat.eqb Pos.eqb].
    change ((48 <=? 46) && (46 <=? 57))%bool with false. cbn match. change (46 =? 46) with true. cbn [andb length Nat.eqb].
    rewrite pton_octet by done. cbn [app pton]. change ((48 <=? 46) && (46 <=? 57))%bool with false. change (46 =? 46) with true.
    cbn [andb length Nat.eqb]. rewrite pton_octet by done. cbn [app pton]. change ((48 <=? 46) && (46 <=? 57))%bool with false.
    change (46 =? 46) with true. cbn [andb length Nat.eqb].
    rewrite <- (app_nil_r (fmt_d d)), pton_octet by done. done.
  - assert (H : forall x, 0 <= x < 256 -> (length (fmt_d x) <= 3)%nat).
    { intros x Hx. rewrite fmt_octet by done. destruct (x <? 10), (x <? 100); cbn; lia. }
    rewrite !length_app. cbn [length]. pose proof (H a Ha). pose proof (H b Hb). pose proof (H c Hc). pose proof (H d Hd). lia.
Qed.

(** ** The gateway's descriptors *)

Lemma gives_fd_cases s x : gives_fd s x -> sys_ok s ->
  exists fd s', x = (fd, s') /\ ((fd <? 0) = true \/ ((fd <? 0) = false /\ opens s fd s')).
Proof.
  destruct x as [fd s']. intros [[E Hs]|Ho] Hok; cbn in *; exists fd, s'; (split; [done|]).
  - subst. by left.
  - right. split; [|done]. destruct Ho. by apply Z.ltb_ge.
Qed.

Lemma create_ctx_spec cert key s : sys_ok s -> y_memory s = true ->
  exists r s', create_server_ctx (Some cert) (Some key) s = Ret (r, s') /\
    forall c, r = Some c -> exists s1, SSL_CTX_new s = (Some c, s1) /\ same_handles s1 s'.
Proof.
  intros Hok Hm. unfold create_server_ctx. destruct (SSL_CTX_new s) as [[c|] s1] eqn:E; [|by do 2 eexists].
  cbn [deref mbind outcome_bind]. destruct (call_cases s1) as (r1 & s2 & -> & H1). destruct (r1 <? 0); [by do 2 eexists|].
  destruct (call_cases s2) as (r2 & s3 & -> & H2). destruct (r2 <? 0); [by do 2 eexists|].
  destruct (call_cases s3) as (r3 & s4 & -> & H3). do 2 eexists. split; [done|]. intros c' Ec. destruct (r3 <? 0); [done|].
  injection Ec as <-. exists s1. split; [done|]. eauto using same_trans.
Qed.

Lemma sets4 (x1 x2 x3 x4 : gset Z) : x4 ∪ x3 ∪ x2 ∪ x1 = x1 ∪ x2 ∪ x3 ∪ x4.
Proof. apply leibniz_equiv. intros x. rewrite !elem_of_union. tauto. Qed.

(** What the gateway has open when it starts to run. *)
Definition serving (s : sys) (h : server_fds) (s' : sys) : Prop :=
  let fds := [listen_fd h; broadcast_fd h; event_fd h; epoll_fd h] in
  NoDup fds /\ Forall (fun fd => 0 <= fd /\ fd ∉ y_fds s) fds /\ y_fds s' = list_to_set fds ∪ y_fds s /\
  same_handles s (server_close h s').

Lemma serving_intro s l b e p c s1 s2 s3 s4 s5 s6 : sys_ok s ->
  opens s l s1 -> opens s1 b s2 -> opens s2 e s3 -> opens s3 p s4 -> SSL_CTX_new s4 = (Some c, s5) -> same_handles s5 s6 ->
  serving s (ServerFds l b e p (Some c)) s6.
Proof.
  intros Hok (L0 & L1 & L2 & L3 & L4 & L5 & L6 & L7) (B0 & B1 & B2 & B3 & B4 & B5 & B6 & B7)
    (E0 & E1 & E2 & E3 & E4 & E5 & E6 & E7) (P0 & P1 & P2 & P3 & P4 & P5 & P6 & P7) Ec Hs.
  assert (Hctx : same_handles s4 (SSL_CTX_free c s6)) by (by apply (ctx_back s4 c s5)).
  assert (Hfds : y_fds s6 = y_fds s4).
  { destruct Hctx as [F _ _ _ _ _]. exact F. }
  assert (Hlist : y_fds s4 = list_to_set [l; b; e; p] ∪ y_fds s) 
    by (rewrite P2, E2, B2, L2; cbn [list_to_set]; rewrite union_empty_r_L, !(assoc_L (∪)); f_equal; apply sets4).
  rewrite P2, E2, B2, L2 in *. unfold serving. cbn [listen_fd broadcast_fd event_fd epoll_fd].
  assert ((b ∉ y_fds s) /\ b <> l) as [Nb Nbl] by (clear -B1; set_solver).
  assert ((e ∉ y_fds s) /\ e <> l /\ e <> b) as (Ne & Nel & Neb) by (clear -E1; set_solver).
  assert ((p ∉ y_fds s) /\ p <> l /\ p <> b /\ p <> e) as (Np & Npl & Npb & Npe) by (clear -P1; set_solver).
  split_and!.
  - repeat (constructor; [rewrite ?elem_of_cons, elem_of_nil; intuition congruence|]). constructor.
  - by repeat constructor.
  - congruence.
  - destruct Hctx as [F1 F2 F3 F4 F5 F6]. cbn in F1, F2, F3, F4, F5. split; cbn; [|congruence..|lia|].
    + rewrite F1, P2. apply leibniz_equiv. intros x. rewrite !elem_of_difference, !elem_of_union, !elem_of_singleton.
      split; [tauto|]. intros Hx. assert (x <> l /\ x <> b /\ x <> e /\ x <> p) by (split_and!; by intros ->). tauto.
    + intros _. by do 4 apply close_ok; apply F6.
Qed.

(** A system in which no call fails. *)
Definition calm (s : sys) : Prop := (true ∉ y_fails s) /\ y_memory s = true /\ 0 <= y_next s.

Lemma call_calm s : calm s -> exists s', call s = (0, s') /\ calm s'.
Proof.
  intros (Hf & Hm & Hn). unfold call. destruct (y_fails s) as [|[] fs] eqn:E; [exists s; split; [done|]; split_and!; [rewrite E; set_solver|done|done]|set_solver|].
  exists (set_y_fails fs s). split; [done|]. split_and!; [set_solver|done|done].
Qed.

Lemma open_fd_calm s : calm s -> exists fd s', open_fd s = (fd, s') /\ (fd <? 0) = false /\ calm s'.
Proof.
  intros (s' & E & Hf & Hm & Hn)%call_calm. unfold open_fd. rewrite E. change (0 <? 0) with false. cbn match.
  do 2 eexists. split; [done|]. split; [by apply Z.ltb_ge|]. split_and!; cbn; [done|done|lia].
Qed.

Lemma checked_calm n fd s : calm s -> exists s', checked n fd s = (fd, s') /\ calm s'.
Proof.
  revert s. induction n as [|n IH]; intros s Hs; cbn [checked]; [by exists s|].
  destruct (call_calm s Hs) as (s1 & -> & H1). by apply IH.
Qed.

Lemma open_checked_calm n s : calm s ->
  exists fd s', (let '(fd, s) := open_fd s in if fd <? 0 then (-1, s) else checked n fd s) = (fd, s') /\
    (fd <? 0) = false /\ calm s'.
Proof.
  intros (fd & s1 & -> & Hfd & H1)%open_fd_calm. rewrite Hfd. destruct (checked_calm n fd s1 H1) as (s2 & -> & H2). eauto.
Qed.

Lemma create_ctx_calm cert key s : calm s ->
  exists c s', create_server_ctx (Some cert) (Some key) s = Ret (Some c, s').
Proof.
  intros (Hf & Hm & Hn). unfold create_server_ctx, SSL_CTX_new. rewrite Hm. cbn [deref mbind outcome_bind].
  match goal with |- context [call ?x] => assert (H : calm x) by (split_and!; cbn; [done|done|lia]) end.
  apply call_calm in H as (s1 & -> & H). apply call_calm in H as (s2 & E2 & H). apply call_calm in H as (s3 & E3 & _).
  change (0 <? 0) with false. cbn match. rewrite E2. change (0 <? 0) with false. cbn match. rewrite E3. by do 2 eexists.
Qed.

Lemma server_open_calm cert key s : calm s ->
  exists h s', server_open (Some cert) (Some key) s = Ret (0, h, s').
Proof.
  intros Hs. unfold server_open. destruct (open_checked_calm 5 s Hs) as (l & s1 & El & Hl & H1).
  unfold setup_tcp. rewrite El, Hl. destruct (open_checked_calm 3 s1 H1) as (b & s2 & Eb & Hb & H2).
  unfold setup_udp. rewrite Eb, Hb. destruct (open_checked_calm 0 s2 H2) as (e & s3 & Ee & He & H3).
  unfold setup_eventfd. cbn [checked] in Ee. rewrite Ee, He. destruct (open_checked_calm 0 s3 H3) as (p & s4 & Ep & Hp & H4).
  unfold setup_epoll. cbn [checked] in Ep. rewrite Ep, Hp. destruct (create_ctx_calm cert key s4 H4) as (c & s5 & ->).
  by do 2 eexists.
Qed.

Lemma server_open_spec cert key s :
  sys_ok s -> y_memory s = true ->
  exists r h s', server_open (Some cert) (Some key) s = Ret (r, h, s') /\ (r = 0 \/ r = -1) /\ (r = 0 -> serving s h s').
Proof.
  intros Hok Hm. unfold server_open.
  destruct (gives_fd_cases s _ (setup_tcp_spec s Hok) Hok) as (l & s1 & -> & [->|[-> Ol]]); [do 3 eexists; split; [done|]; split; [by right|done]|].
  assert (Hok1 : sys_ok s1) by apply Ol.
  destruct (gives_fd_cases s1 _ (setup_udp_spec s1 Hok1) Hok1) as (b & s2 & -> & [->|[-> Ob]]); [do 3 eexists; split; [done|]; split; [by right|done]|].
  assert (Hok2 : sys_ok s2) by apply Ob.
  destruct (gives_fd_cases s2 _ (proj1 (setup_one_spec s2 Hok2)) Hok2) as (e & s3 & -> & [->|[-> Oe]]); [do 3 eexists; split; [done|]; split; [by right|done]|].
  assert (Hok3 : sys_ok s3) by apply Oe.
  destruct (gives_fd_cases s3 _ (proj2 (setup_one_spec s3 Hok3)) Hok3) as (p & s4 & -> & [->|[-> Op]]); [do 3 eexists; split; [done|]; split; [by right|done]|].
  assert (Hok4 : sys_ok s4) by apply Op.
  destruct (create_ctx_spec cert key s4 Hok4) as (r & s5 & -> & Hc).
  { destruct Op as (_ & _ & _ & _ & _ & -> & _). destruct Oe as (_ & _ & _ & _ & _ & -> & _).
    destruct Ob as (_ & _ & _ & _ & _ & -> & _). by destruct Ol as (_ & _ & _ & _ & _ & -> & _). }
  cbn [mbind outcome_bind]. destruct r as [c|]; do 3 eexists; (split; [done|]); [split; [by left|]|split; [by right|done]].
  intros _. destruct (Hc c eq_refl) as (s1' & Ec & Hs). by apply (serving_intro s l b e p c s1 s2 s3 s4 s1' s5).
Qed.

(** The gateway starts with four descriptors or not at all.  [server_init] either
    fails, which takes a call that fails, or has opened the listening socket, the
    discovery socket, the event and the epoll descriptor, all different and none of
    them in use before; and [server_cleanup] gives back exactly these and the TLS
    context. *)
Theorem gateway_descriptors cert key s :
  sys_ok s -> y_memory s = true ->
  exists r h s', server_open (Some cert) (Some key) s = Ret (r, h, s') /\
    (r = 0 /\ serving s h s' \/ r = -1 /\ true ∈ y_fails s).
Proof.
  intros Hok Hm. destruct (server_open_spec cert key s Hok Hm) as (r & h & s' & E & Hr & Hs). exists r, h, s'.
  split; [done|]. destruct Hr as [->| ->]; [left; auto|]. right. split; [done|]. destruct (decide (true ∈ y_fails s)) as [|Hf]; [done|].
  destruct (server_open_calm cert key s) as (h' & s1 & E'); [split_and!; [done|done|apply Hok]|]. congruence.
Qed.

(** With the certificate but without the key on the command line the gateway hands
    NULL to the TLS library, although it has checked the number of its arguments. *)
Definition idle (memory : bool) : sys := Sys {[0; 1; 2]} ∅ ∅ memory 3 [].

Lemma idle_server_ok memory : sys_ok (idle memory).
Proof.
  split_and!; cbn; [lia|..]; intros x Hx; [|by apply elem_of_empty in Hx..].
  rewrite !elem_of_union, !elem_of_singleton in Hx. lia.
Qed.

Theorem key_argument_missing : gateway_main [bstr "cert.pem"] (idle true) = Undef.
Proof. by vm_compute. Qed.

(** The result of [SSL_new] is used without a check. *)
Theorem ssl_new_unchecked s : y_memory s = false -> y_fails s = [] -> 0 <= y_next s ->
  connect_tls (inet_ntoa 127 0 0 1) s = Undef.
Proof.
  destruct s as [fds ssls ctxs mem next fails]. cbn [y_memory y_fails y_next]. intros -> -> Hn. unfold connect_tls, open_fd. cbn [call y_fails].
  change (0 <? 0) with false. cbn match beta. cbn [y_next]. destruct (Z.ltb_spec next 0); [lia|].
  destruct (address_roundtrip 127 0 0 1) as [-> _]; [lia..|]. done.
Qed.

(** ** Concrete runs *)

(** The gateway answers the first broadcast and then sends rubbish; in the second
    round nobody answers. *)
Definition sample_meets : list meets :=
  [ Meets (replicate 256 0) [Attempt false true (Some (Handlers.discovery_reply, inet_ntoa 192 168 0 7))] (fun _ => sample_net [9; 9; 9]);
    Meets (replicate 256 0) [Attempt false true None] (fun _ => sample_net []) ].

Lemma sample_meets_ok : Forall meets_ok sample_meets.
Proof.
  assert (Hbuf : zlen (replicate 256 0) = 256 /\ bytes (replicate 256 0)).
  { split; [done|]. apply Forall_replicate. red. lia. }
  destruct Hbuf as [Hz Hb]. apply Forall_cons; split; [|apply Forall_cons; split; [|by apply Forall_nil]].
  - split_and!; [done|done| |intros i; apply sample_net_ok, (bool_decide_unpack _); by vm_compute].
    apply Forall_cons; split; [apply (bool_decide_unpack _); by vm_compute|by apply Forall_nil].
  - split_and!; [done|done|apply Forall_cons; split; [done|by apply Forall_nil]|intros i; by apply sample_net_ok, Forall_nil].
Qed.

Lemma clients_never_leak_witness :
  let args := [inet_ntoa 192 168 0 255; bstr "9000"] in
  (exists r s', tls_main args true sample_meets (idle true) = Ret (r, s') /\ same_handles (idle true) s') /\
  (exists r s', plain_main args [fun _ => sample_net []] (idle true) = Ret (r, s') /\ same_handles (idle true) s').
Proof.
  apply (clients_never_leak (idle true) [inet_ntoa 192 168 0 255; bstr "9000"] true sample_meets [fun _ => sample_net []]).
  - apply idle_server_ok.
  - done.
  - apply sample_meets_ok.
  - apply Forall_cons. split; [|by apply Forall_nil]. intros i. by apply sample_net_ok, Forall_nil.
Defined.

Lemma gateway_descriptors_witness :
  exists r h s', server_open (Some (bstr "cert.pem")) (Some (bstr "key.pem")) (idle true) = Ret (r, h, s') /\
    (r = 0 /\ serving (idle true) h s' \/ r = -1 /\ true ∈ y_fails (idle true)).
Proof. apply (gateway_descriptors (bstr "cert.pem") (bstr "key.pem") (idle true)); [apply idle_server_ok|done]. Defined.

End GwSetup.
