(* ===== verification/GwMain.v ===== *)
(** * The threads of the gateway (gateway/src/worker_thread.c, server.c)

    The dispatch loop [main_thread], the workers, [signal_thread] and the end of
    [server_run] as one transition system over the [server] state.  A step of the
    main thread is one round of its loop, a step of a worker is [pop] or the
    execution of the task it took.  What the kernel, the TLS library, the clock,
    the devices and the peers answer is part of the event. *)
From S2P Require Import Prelude Socket Heap Fifo Crc Protocol RateLimit Queue Client Server Handlers Json Worker.
Import Protocol Client Server Handlers Json Worker.
Open Scope c_scope.

Module GwMain.

Definition EPOLLERR : Z := 8.
Definition EPOLLHUP : Z := 16.

(** The descriptors the server listens on. *)
Record fds := Fds { listen_fd : Z; broadcast_fd : Z; event_fd : Z }.

(** One entry of [events], with the answers to the calls of its handler: to
    [accept4] and the TLS calls after it, to [recvfrom] and [sendto], to the reads
    and writes of the session, and the clock. *)
Record io := Io {
  io_fd : Z; io_events : Z;
  io_accept : accept_env;
  io_datagram : rx_result; io_sent : list Z -> Z;
  io_rx : list rx_event; io_eof : bool; io_stream : list Z; io_hs : handshake;
  io_t1 : Z; io_t2 : Z; io_now : Z; io_now' : Z;
  io_tx : list tx_event; io_hs' : handshake; io_flushed : Z }.

Definition has (ev flag : Z) : bool := negb (ev .& flag =? 0).

(** The descriptor of a session.  [EPOLLOUT] is looked at in the state that
    [handle_request_client] leaves behind. *)
Definition dispatch_client (m : allocator) (x : io) (sv : server) : outcome server :=
  let fd := io_fd x in
  let ev := io_events x in
  let slot := fd_to_slot (clients sv) fd MAX_CLIENTS in
  if slot <? 0 then Ret sv
  else
    c ← deref (clients sv !! Z.to_nat slot);
    if ((fd =? Client.fd c) && has ev (EPOLLHUP .| EPOLLERR))%bool
    then '(_, sv) ← sv_close sv slot; Ret sv
    else
      sv ←
        (if ((fd =? Client.fd c) && has ev EPOLLIN)%bool
         then '(_, sv, _) ← handle_request_client m (io_rx x) (io_eof x) (io_stream x) (io_hs x)
                (io_t1 x) (io_t2 x) (io_now x) (io_now' x) sv fd; Ret sv
         else Ret sv);
      c ← deref (clients sv !! Z.to_nat slot);
      if ((fd =? Client.fd c) && has ev EPOLLOUT && (0 <=? Client.fd c))%bool
      then '(_, sv, _) ← handle_client_sendable (io_tx x) (io_hs' x) (io_flushed x) sv fd; Ret sv
      else Ret sv.

(** The body of the loop over [events]. *)
Definition dispatch (m : allocator) (f : fds) (x : io) (sv : server) : outcome server :=
  if ((listen_fd f =? io_fd x) && has (io_events x) EPOLLIN)%bool
  then '(_, sv) ← handle_accept_client (io_accept x) sv; Ret sv
  else if ((broadcast_fd f =? io_fd x) && has (io_events x) EPOLLIN)%bool
  then '(_, _) ← handle_discovery (io_datagram x) (io_sent x); Ret sv
  else if ((event_fd f =? io_fd x) && has (io_events x) EPOLLIN)%bool
  then '(_, sv) ← handle_response_to_client m sv; Ret sv
  else dispatch_client m x sv.

Fixpoint dispatch_all (m : allocator) (f : fds) (xs : list io) (sv : server) : outcome server :=
  match xs with
  | [] => Ret sv
  | x :: xs => sv ← dispatch m f x sv; dispatch_all m f xs sv
  end.

(** The answer of [epoll_wait]. *)
Inductive wait_answer := WaitError (err : Z) | WaitEvents (xs : list io).

(** One round of [main_thread]; the flag is whether the loop goes on. *)
Definition main_round (m : allocator) (f : fds) (w : wait_answer) (now : Z) (sv : server)
    : outcome (bool * server) :=
  r ← match w with
      | WaitError err => if err =? EINTR then Ret (Some sv) else Ret None
      | WaitEvents xs => sv ← dispatch_all m f xs sv; Ret (Some sv)
      end;
  match r with
  | None => Ret (false, sv)
  | Some sv =>
      '(_, sv) ← reap_client now sv;
      Ret (negb (shutdown sv), sv)
  end.

(** A worker waits in [pop] or is about to call it, has a task, has returned. *)
Inductive worker_pc := WPop | WRun (l : loc) | WDone.

#[export] Instance worker_pc_eq_dec : EqDecision worker_pc.
Proof. solve_decision. Defined.

(** The main thread, the signal thread and the thread in [server_run]: running or
    returned. *)
Record gateway := Gateway {
  g_sv : server; g_main : bool; g_sig : bool; g_workers : list worker_pc; g_run : bool }.

Definition set_g_sv (v : server) (g : gateway) : gateway :=
  Gateway v (g_main g) (g_sig g) (g_workers g) (g_run g).

(** Events: a round of the main thread; a step of worker [i]; SIGTERM or SIGINT for
    the signal thread; the end of [server_run] once all threads are joined. *)
Inductive gw_event :=
| Main (w : wait_answer) (now : Z)
| Worker (i : nat) (x : exec_env) (now1 now2 : Z)
| Signal
| Cleanup.

Section Threads.
Context (sscanf2 : scan2) (sscanf1 : scan1) (m : allocator) (f : fds).

Definition worker_step (i : nat) (x : exec_env) (now1 now2 : Z) (g : gateway) : outcome (option gateway) :=
  let sv := g_sv g in
  let at_pc pc sv := Gateway sv (g_main g) (g_sig g) (<[i := pc]> (g_workers g)) (g_run g) in
  match g_workers g !! i with
  | Some WPop =>
      '(r, q, tm) ← Queue.pop (Some (tasks sv)) (task_mem sv);
      q ← deref q;
      let sv := set_tasks q (set_task_mem tm sv) in
      match r with
      | Queue.PopWait => Ret None
      | Queue.PopNull => Ret (Some (at_pc WDone sv))
      | Queue.PopTask l => Ret (Some (at_pc (WRun l) sv))
      end
  | Some (WRun l) => '(sv, _) ← run_task sscanf2 sscanf1 m x now1 now2 sv l; Ret (Some (at_pc WPop sv))
  | _ => Ret None
  end.

Definition returned (pc : worker_pc) : bool := if pc is WDone then true else false.

Definition gw_step (ev : gw_event) (g : gateway) : outcome (option gateway) :=
  match ev with
  | Main w now =>
      if negb (g_main g) then Ret None
      else
        '(on, sv) ← main_round m f w now (g_sv g);
        Ret (Some (Gateway sv on (g_sig g) (g_workers g) (g_run g)))
  | Worker i x now1 now2 => worker_step i x now1 now2 g
  | Signal =>
      if negb (g_sig g) then Ret None
      else Ret (Some (Gateway (server_shutdown (g_sv g)).2 (g_main g) false (g_workers g) (g_run g)))
  | Cleanup =>
      if (g_run g && shutdown (g_sv g) && negb (g_main g) && negb (g_sig g) && forallb returned (g_workers g))%bool then
        '(_, sv) ← server_cleanup (g_sv g);
        Ret (Some (Gateway sv false false (g_workers g) false))
      else Ret None
  end.

End Threads.

(** [server_run] after a successful [server_init]. *)
Definition gw_init (sv : server) : gateway :=
  Gateway sv true true (replicate (Z.to_nat NUM_WORKERS) WPop) true.

End GwMain.
