(* ===== verification/GwMainInv.v ===== *)
(** * Safety of the whole gateway

    The invariant of the server state under the main thread, the workers and the
    signal thread, and that every step keeps it and is defined. *)
From S2P Require Import Prelude Socket Heap Fifo Crc Protocol RateLimit Queue Client Server Handlers Json Worker GwMain.
Import Protocol Client Server Handlers Json Worker GwMain.
Open Scope c_scope.

Module GwMainInv.

#[local] Existing Instance Queue.task_linked.

(** ** Transmit lists *)

(** The lists of all sessions are well formed, disjoint, and hold whole messages. *)
Definition tx_good (h : tx_heap) (cs : list client) : Prop :=
  tx_ok h cs /\ forall i c, cs !! i = Some c -> Forall whole_message (tx_abs (h, c)).

(** Replacing one session by one whose list uses no node of another. *)
Lemma tx_good_replace h h' cs i c d :
  tx_good h cs -> cs !! i = Some c -> (forall l, l ∉ tx_nodes (h, c) -> h' !! l = h !! l) ->
  tx_inv (h', d) -> (forall l, l ∈ tx_nodes (h', d) -> l ∈ tx_nodes (h, c)) ->
  Forall whole_message (tx_abs (h', d)) -> tx_good h' (<[i := d]> cs).
Proof.
  intros [[Hinv Hdis] Hw] Hc Hh Hd Hsub Hwd. pose proof (lookup_lt_Some _ _ _ Hc) as Hi.
  assert (forall j e, <[i := d]> cs !! j = Some e -> (i = j /\ e = d) \/
    (i <> j /\ cs !! j = Some e /\ tx_inv (h', e) /\ tx_abs (h', e) = tx_abs (h, e) /\
     tx_nodes (h', e) = tx_nodes (h, e))) as Hcase.
  { intros j e He. destruct (decide (i = j)) as [<-|Hij]; [left|right].
    - rewrite list_lookup_insert_eq in He by done. by injection He as <-.
    - rewrite list_lookup_insert_ne in He by done. split; [done|]. split; [done|].
      apply tx_frame; [by eapply Hinv|]. intros l Hl. apply Hh. intros Hlc. apply Hij.
      by eapply (Hdis i j c e l). }
  split; [split|].
  - intros j e He. destruct (Hcase j e He) as [[_ ->]|(_ & _ & ? & _)]; done.
  - assert (forall j e l, <[i := d]> cs !! j = Some e -> l ∈ tx_nodes (h', e) ->
      exists e', cs !! j = Some e' /\ l ∈ tx_nodes (h, e')) as Hback.
    { intros j e l He Hl. destruct (Hcase j e He) as [[<- ->]|(_ & He' & _ & _ & En)].
      - exists c. auto.
      - exists e. by rewrite <- En. }
    intros j k e g l He Hg Hle Hlg.
    destruct (Hback j e l He Hle) as (e' & He' & Hle'), (Hback k g l Hg Hlg) as (g' & Hg' & Hlg').
    by eapply Hdis.
  - intros j e He. destruct (Hcase j e He) as [[_ ->]|(_ & He' & _ & -> & _)]; [done|by eapply Hw].
Qed.

Lemma tx_empty h d : c_head d = None -> c_tail d = None ->
  tx_inv (h, d) /\ tx_nodes (h, d) = [] /\ tx_abs (h, d) = [].
Proof.
  intros Hh Ht. assert (linked_queue h (c_head d) (c_tail d) []) as Hq by (rewrite Hh, Ht; apply linked_queue_nil).
  split_and!; [by exists []|by apply tx_nodes_list|]. by rewrite (tx_abs_cells h d [] Hq).
Qed.

Lemma tx_good_same h cs i c d :
  tx_good h cs -> cs !! i = Some c -> c_head d = c_head c -> c_tail d = c_tail c -> tx_good h (<[i := d]> cs).
Proof.
  intros Hg Hc Hh Ht. destruct (tx_same_pointers h c d Hh Ht) as (Ei & Ea & En).
  apply (tx_good_replace h h cs i c d Hg Hc); [done| |by rewrite En|].
  - rewrite Ei. by eapply Hg.
  - rewrite Ea. by eapply Hg.
Qed.

Lemma tx_good_empty h cs i c d :
  tx_good h cs -> cs !! i = Some c -> c_head d = None -> c_tail d = None -> tx_good h (<[i := d]> cs).
Proof.
  intros Hg Hc Hh Ht. destruct (tx_empty h d Hh Ht) as (Hi & Hn & Ha).
  apply (tx_good_replace h h cs i c d Hg Hc); [done..|rewrite Hn; set_solver|by rewrite Ha].
Qed.

(** What the transmit path leaves alone in a session. *)
Definition same_session (c c' : client) : Prop :=
  fd c' = fd c /\ alive c' = alive c /\ stage c' = stage c /\
  rx_len c' = rx_len c /\ data_receive c' = data_receive c.

Lemma tx_good_enqueue m h cs i c d n :
  allocator_ok m -> tx_good h cs -> cs !! i = Some c -> whole_message (DataTransmit d n 0 None) ->
  exists ret c' h', enqueue_message m c (Some d) n h = Ret (ret, c', h') /\
    tx_good h' (<[i := c']> cs) /\ same_session c c'.
Proof.
  intros Hm [Htx Hw] Hc Hd. destruct (malloc_tx m h) as [l|] eqn:El.
  - destruct (enqueue_table m h cs i c d n l Hm Htx Hc El)
      as (c' & h' & E & Htx' & Ha & Ho & Hfd & Hal & _ & Hst & Hrx & Hdr).
    exists 0, c', h'. split; [done|]. split; [|by split_and!]. split; [done|].
    intros j e He. destruct (decide (i = j)) as [<-|Hij].
    + rewrite list_lookup_insert_eq in He by (by eapply lookup_lt_Some). injection He as <-.
      rewrite Ha. apply Forall_app. split; [by eapply Hw|by apply Forall_singleton].
    + rewrite list_lookup_insert_ne in He by done. rewrite (Ho j e) by done. by eapply Hw.
  - exists (-1), c, h. unfold enqueue_message. rewrite El. by rewrite list_insert_id.
Qed.

Lemma tx_good_close h cs i c e :
  tx_good h cs -> cs !! i = Some c ->
  exists e' h', close_client cs (Z.of_nat i) e h = Ret (0, <[i := closed_session c]> cs, e', h') /\
    tx_good h' (<[i := closed_session c]> cs).
Proof.
  intros [Htx Hw] Hc. destruct (close_table h cs i c e Htx Hc) as (h' & E & _ & _ & Hout).
  eexists _, h'. split; [exact E|]. destruct (tx_empty h' (closed_session c)) as (Hi & Hn & Ha); [done..|].
  apply (tx_good_replace h h' cs i c _); [done..|rewrite Hn; set_solver|by rewrite Ha].
Qed.

Lemma send_loop_tls_range script d s :
  0 <= s <= zlen d -> 0 < zlen d -> -3 <= (send_loop_tls script d s).1.1 <= zlen d.
Proof.
  revert s. induction script as [|[k| |e] script IH]; intros s Hs Hd; cbn [send_loop_tls];
    (destruct (Z.ltb_spec s (zlen d)); [|cbn; lia]).
  - destruct (0 <? s); cbn; lia.
  - set (r := Z.max 1 _). specialize (IH (s + r)). destruct (send_loop_tls script d (s + r)) as [[r' w] sc].
    cbn in *. lia.
  - cbn. lia.
  - destruct (0 <? s), (e =? SSL_ERROR_WANT_WRITE), (e =? SSL_ERROR_WANT_READ), (e =? SSL_ERROR_ZERO_RETURN); cbn; lia.
Qed.

(** The message at the front is whole. *)
Lemma tx_good_front h cs i c l ls x :
  tx_good h cs -> cs !! i = Some c -> linked_queue h (c_head c) (c_tail c) (l :: ls) -> h !! l = Some x ->
  whole_message (set_next_data None x).
Proof.
  intros Hg Hc Hq Hx. pose proof (proj2 Hg i c Hc) as Hw. rewrite (tx_abs_cells h c _ Hq) in Hw. unfold cells in Hw.
  cbn [omap list_omap] in Hw. unfold content in Hw. rewrite Hx in Hw. cbn in Hw. by inversion Hw.
Qed.

(** After the front message was taken off, in a heap that differs at this message only:
    the session keeps the rest of its list, or nothing. *)
Lemma tx_good_cut h h' cs i c d l ls y head tail :
  tx_good h cs -> cs !! i = Some c -> linked_queue h (c_head c) (c_tail c) (l :: ls) ->
  linked_queue (<[l := y]> h) head tail ls -> (forall k, k <> l -> h' !! k = h !! k) ->
  (c_head d = head /\ c_tail d = tail) \/ (c_head d = None /\ c_tail d = None) ->
  tx_good h' (<[i := d]> cs).
Proof.
  intros Hg Hc Hq Hq' Hh Hd. pose proof (tx_nodes_list h c _ Hq) as En.
  assert (l ∉ ls) as Hl by (destruct Hq as (_ & Hnd & _); by apply NoDup_cons in Hnd as []).
  assert (forall k, k ∉ tx_nodes (h, c) -> h' !! k = h !! k) as Hout.
  { intros k Hk. apply Hh. intros ->. apply Hk. rewrite En. by left. }
  destruct Hd as [[Hdh Hdt]|[Hdh Hdt]].
  2: { destruct (tx_empty h' d Hdh Hdt) as (Hi & Hn & Ha).
       apply (tx_good_replace h h' cs i c d Hg Hc); [done..|rewrite Hn; set_solver|by rewrite Ha]. }
  assert (linked_queue h' (c_head d) (c_tail d) ls) as Hqd.
  { rewrite Hdh, Hdt. destruct Hq' as (Hch & Hnd & Hlast). split_and!; [|done..]. eapply chain_frame; [|exact Hch].
    intros k Hk. rewrite Hh by congruence. by rewrite lookup_insert_ne by congruence. }
  apply (tx_good_replace h h' cs i c d Hg Hc); [done|by exists ls|rewrite En, (tx_nodes_list h' d _ Hqd); by right|].
  pose proof (proj2 Hg i c Hc) as Hw. rewrite (tx_abs_cells h c _ Hq) in Hw. rewrite (tx_abs_cells h' d _ Hqd), (cells_frame h h' ls).
  - unfold cells in *. cbn [omap list_omap] in Hw. destruct (content h l) as [z|]; cbn in Hw; [by inversion Hw|done].
  - intros k Hk. unfold content. by rewrite Hh by congruence.
Qed.

(** Everything a flush can leave behind. *)
Definition flushed (h : tx_heap) (cs : list client) (i : nat) (c : client) (f : flush_tls) : Prop :=
  tx_good (ft_heap f) (<[i := ft_client f]> cs) /\ same_session c (ft_client f).

Lemma tx_good_flush script now h cs i c e :
  tx_good h cs -> cs !! i = Some c ->
  exists ret f, client_flush_tx_tls script now c h e = Ret (ret, f) /\ flushed h cs i c f.
Proof.
  intros Hg Hc. unfold client_flush_tx_tls. destruct (proj1 (proj1 Hg) i c Hc) as [[|l ls] Hq]; cbn [fst snd] in Hq.
  { destruct Hq as (Hh & _). cbn in Hh. rewrite Hh. eexists _, _. split; [reflexivity|].
    split; [cbn; by rewrite list_insert_id|by split_and!]. }
  destruct (dequeue_message_links c h l ls Hq) as (x & head & tail & Hd & Hx & Hq').
  assert (c_head c = Some l) as -> by (destruct Hq as (Hch & _); apply Hch). rewrite Hd. cbn [mbind outcome_bind].
  assert (size h <> 0%nat) as Hsz by (intros Hz%map_size_empty_inv; subst h; by rewrite lookup_empty in Hx).
  destruct (size h) as [|fuel]; [done|]. cbn [flush_tls_loop ft_client ft_heap ft_wire ft_epoll].
  rewrite (load_alloc _ l (set_next_data None x)) by apply lookup_insert_eq.
  destruct (tx_good_front h cs i c l ls x Hg Hc Hq Hx) as (Hlen & Hoff & Hmin).
  cbn [mbind outcome_bind]. rewrite Hoff, Z.sub_0_r, Hlen, read_at_whole. cbn [mbind outcome_bind].
  unfold send_data_to_client_tls. set (d := data _) in *.
  pose proof (send_loop_tls_range script d 0 ltac:(lia) ltac:(lia)) as Hr.
  destruct (send_loop_tls script d 0) as [[ret wire] script']. cbn [fst] in Hr.
  assert (forall c1 h', (c_head c1 = head /\ c_tail c1 = tail) \/ (c_head c1 = None /\ c_tail c1 = None) ->
    (forall k, k <> l -> h' !! k = h !! k) -> tx_good h' (<[i := c1]> cs)) as Hcut.
  { intros c1 h' H1 Hh'. by eapply (tx_good_cut h h' cs i c c1 l ls). }
  destruct ((ret =? -1) || (ret =? 0))%bool.
  { rewrite (free_alloc _ l _ (lookup_insert_eq _ _ _)). cbn [mbind outcome_bind]. eexists _, _. split; [reflexivity|].
    split; [|by split_and!]. apply Hcut; [by left|]. intros k Hk. cbn [ft_heap]. by simplify_map_eq. }
  destruct ((ret =? -2) || (ret =? -3))%bool.
  { eexists _, _. split; [reflexivity|]. split; [|by split_and!].
    apply Hcut; [by left|]. intros k Hk. cbn [ft_heap]. by simplify_map_eq. }
  destruct (_ <? _).
  { eexists _, _. split; [reflexivity|]. split; [|by split_and!].
    apply Hcut; [by left|]. intros k Hk. cbn [ft_heap]. by simplify_map_eq. }
  cbn [next_data set_offset set_next_data]. rewrite (free_alloc _ l _ (lookup_insert_eq _ _ _)). cbn [mbind outcome_bind].
  destruct fuel; (eexists _, _; split; [reflexivity|]; split; [|by split_and!];
    apply Hcut; [by right|]; intros k Hk; cbn [ft_heap]; by simplify_map_eq).
Qed.

(** ** The task queue *)

Definition wf_at (tm : Queue.task_heap) (l : loc) : Prop := exists t, tm !! l = Some t /\ task_wf t.

(** [ls] are the tasks reached from the head, [fl] those the workers hold.  As [push]
    never advances the tail, at most two tasks are linked, and once the first of
    two is taken the tail is not one of them. *)
Record tasks_ok (q : Queue.task_queue) (tm : Queue.task_heap) (fl ls : list loc) : Prop := {
  t_chain : chain tm (Queue.tq_head q) ls;
  t_nodup : NoDup (ls ++ fl);
  t_wf : Forall (wf_at tm) (ls ++ fl);
  t_size : 0 <= Queue.tq_size q;
  t_shape : match ls with
            | [] => Queue.tq_tail q = None
            | [_] => is_Some (Queue.tq_tail q)
            | [a; _] => Queue.tq_tail q = Some a
            | _ => False
            end }.

(** The tail is a live task and a queue that counts tasks has a first one. *)
Definition intact (q : Queue.task_queue) (tm : Queue.task_heap) : Prop :=
  (forall k, Queue.tq_tail q = Some k -> is_Some (tm !! k)) /\
  (0 < Queue.tq_size q -> is_Some (Queue.tq_head q)).

Lemma wf_at_link tm k x n l : tm !! k = Some x -> wf_at tm l -> wf_at (<[k := Queue.set_next_task n x]> tm) l.
Proof.
  intros Hk (t & Ht & Hwf). destruct (decide (k = l)) as [->|Hne].
  - rewrite Ht in Hk. injection Hk as ->. eexists. split; [apply lookup_insert_eq|done].
  - exists t. by rewrite lookup_insert_ne.
Qed.

Lemma wf_at_fresh tm k x l : tm !! k = None -> wf_at tm l -> wf_at (<[k := x]> tm) l.
Proof. intros Hk (t & Ht & Hwf). exists t. rewrite lookup_insert_ne by congruence. done. Qed.

Lemma tasks_fresh q tm fl ls l : tasks_ok q tm fl ls -> tm !! l = None -> l ∉ ls ++ fl.
Proof.
  intros H Hl Hin. destruct (proj1 (Forall_forall _ _) (t_wf _ _ _ _ H) l Hin) as (t & Ht & _). congruence.
Qed.

Lemma tasks_ok_perm q tm fl fl' ls : fl ≡ₚ fl' -> tasks_ok q tm fl ls -> tasks_ok q tm fl' ls.
Proof. intros Hp [Hc Hn Hw Hz Hs]. split; [done| | |done|done]; by rewrite <- Hp. Qed.

Lemma tasks_free q tm fl ls l : tasks_ok q tm (l :: fl) ls -> tasks_ok q (delete l tm) fl ls.
Proof.
  intros [Hc Hn Hw Hz Hs]. apply NoDup_app in Hn as (Hn1 & Hd & Hn2). apply NoDup_cons in Hn2 as [Hl Hn2].
  apply Forall_app in Hw as [Hw1 Hw2]. apply Forall_cons in Hw2 as [_ Hw2].
  assert (l ∉ ls) as Hls by (intros Hin; by apply (Hd l Hin); left).
  assert (forall k, k ∈ ls ++ fl -> k <> l) as Hne by (intros k [Hk|Hk]%elem_of_app ->; done).
  split; [by apply chain_delete_fresh| |..|done|done].
  - apply NoDup_app. split_and!; [done| |done]. intros k Hk Hk'. apply (Hd k Hk). by right.
  - apply Forall_forall. intros k Hk. assert (wf_at tm k) as (t & Ht & Hwf).
    { apply elem_of_app in Hk as [Hk|Hk]; [by apply (proj1 (Forall_forall _ _) Hw1)|by apply (proj1 (Forall_forall _ _) Hw2)]. }
    exists t. rewrite lookup_delete_ne by (intros ->; by apply (Hne k)). done.
Qed.

(** Taking a task hands it to a worker. *)
Lemma tasks_pop q tm fl ls :
  tasks_ok q tm fl ls -> intact q tm ->
  (Queue.tq_size q = 0 /\
   Queue.pop (Some q) tm = Ret (if Queue.tq_shutdown q then Queue.PopNull else Queue.PopWait, Some q, tm)) \/
  (exists l q' tm' ls', Queue.pop (Some q) tm = Ret (Queue.PopTask l, Some q', tm') /\ tasks_ok q' tm' (l :: fl) ls' /\
     Queue.tq_size q' = Queue.tq_size q - 1 /\ Queue.tq_shutdown q' = Queue.tq_shutdown q).
Proof.
  intros [Hc Hn Hw Hz Hs] [_ Hh]. destruct (Z.eqb_spec (Queue.tq_size q) 0) as [E|E].
  { left. unfold Queue.pop. rewrite (proj2 (Z.eqb_eq _ _) E). by destruct (Queue.tq_shutdown q). }
  right. destruct Hh as [a Ha]; [lia|]. destruct ls as [|a' rest]; cbn [chain] in Hc; [congruence|].
  destruct Hc as (Ha' & x & Hx & Hc). rewrite Ha in Ha'. injection Ha' as <-.
  cbn [app] in Hn, Hw. apply NoDup_cons in Hn as [Hal Hn]. apply Forall_cons in Hw as [Hwa Hw].
  eexists a, _, _, rest. split; [apply Queue.pop_unfold; [lia|done|done]|]. split; [|done].
  split; cbn [Queue.tq_head Queue.tq_tail Queue.tq_size].
  - apply chain_insert_fresh; [set_solver|exact Hc].
  - rewrite <- Permutation_middle. by apply NoDup_cons.
  - rewrite <- Permutation_middle. apply Forall_cons. split; [by apply wf_at_link|].
    eapply Forall_impl; [exact Hw|]. intros k. by apply wf_at_link.
  - lia.
  - destruct rest as [|b [|? ?]]; cbn [chain] in Hc.
    + change (nxt x) with (Queue.next_task x) in Hc. by rewrite Hc.
    + destruct Hc as [Hb _]. change (nxt x) with (Queue.next_task x) in Hb. rewrite Hb, Hs. by eexists.
    + done.
Qed.

(** Linking a fresh task behind the tail. *)
Lemma tasks_link q tm fl ls l t k y :
  tasks_ok q tm fl ls -> tm !! l = None -> task_wf t -> Queue.tq_tail q = Some k -> tm !! k = Some y ->
  let q' := Queue.TaskQueue (Queue.tq_head q) (Some k) (Queue.tq_size q + 1) (Queue.tq_max_size q) false in
  let tm' := <[l := Queue.set_next_task None t]> (<[k := Queue.set_next_task (Some l) y]> (<[l := t]> tm)) in
  exists ls', tasks_ok q' tm' fl ls' /\ intact q' tm'.
Proof.
  intros Hok Hl Hwf Hk Hy q' tm'. pose proof (tasks_fresh _ _ _ _ l Hok Hl) as Hfresh.
  destruct Hok as [Hc Hn Hw Hz Hs]. assert (k <> l) as Hkl by congruence.
  assert (forall j, wf_at (<[l := t]> tm) j -> wf_at tm' j) as Hstep.
  { intros j Hj. apply wf_at_link; [by simplify_map_eq|]. apply wf_at_link; [by simplify_map_eq|done]. }
  assert (wf_at tm' l) as Hwl by (apply Hstep; exists t; by rewrite lookup_insert_eq).
  assert (forall j, j ∈ ls ++ fl -> wf_at tm' j) as Hwj.
  { intros j Hj. apply Hstep, wf_at_fresh; [done|]. by apply (proj1 (Forall_forall _ _) Hw). }
  assert (is_Some (Queue.tq_head q)) as Hhd by (destruct ls as [|a ls]; [congruence|destruct Hc as [-> _]; by eexists]).
  assert (intact q' tm') as Hint.
  { split; [|done]. intros j [= <-]. unfold tm'. rewrite lookup_insert_ne, lookup_insert_eq by done. by eexists. }
  assert (forall a rest, ls = a :: rest -> a = k -> tasks_ok q' tm' fl [a; l]) as Hfirst.
  { intros a rest -> ->. destruct Hc as (Hhead & _). cbn [app] in Hn, Hfresh. apply NoDup_cons in Hn as [Ha Hn].
    apply NoDup_app in Hn as (_ & _ & Hn). split; cbn [Queue.tq_head Queue.tq_tail Queue.tq_size q'].
    - split; [done|]. eexists. unfold tm'. rewrite lookup_insert_ne, lookup_insert_eq by done. split; [done|].
      split; [done|]. eexists. rewrite lookup_insert_eq. by split.
    - cbn. apply NoDup_cons. split; [set_solver|]. apply NoDup_cons. split; [set_solver|done].
    - cbn. apply Forall_cons. split; [apply Hwj; by left|]. apply Forall_cons. split; [done|].
      apply Forall_forall. intros j Hj. apply Hwj. set_solver.
    - lia.
    - done. }
  destruct ls as [|a [|b [|? ?]]]; [congruence| | |done].
  - destruct (decide (a = k)) as [->|Hak]; [exists [k; l]; split; [by eapply Hfirst|done]|].
    exists [a]. split; [split|done]; cbn [Queue.tq_head Queue.tq_tail Queue.tq_size q']; [|done| |lia|by eexists].
    + eapply chain_frame; [|exact Hc]. intros j ->%list_elem_of_singleton. unfold tm'.
      rewrite !lookup_insert_ne; [done|..]; set_solver.
    + by apply Forall_forall.
  - exists [a; l]. split; [|done]. eapply Hfirst; [done|]. congruence.
Qed.

(** Appending a fresh task: refused, or linked; either way the queue stays intact. *)
Lemma tasks_push q tm fl ls l t :
  tasks_ok q tm fl ls -> intact q tm -> tm !! l = None -> task_wf t ->
  exists ret q' tm', Queue.push (Some q) (Some l) (<[l := t]> tm) = Ret (ret, Some q', tm') /\
    ((ret < 0 /\ q' = q /\ tm' = <[l := t]> tm) \/
     (ret = 0 /\ exists ls', tasks_ok q' tm' fl ls' /\ intact q' tm')).
Proof.
  intros Hok [Hlive Hh] Hl Hwf. pose proof (tasks_fresh _ _ _ _ l Hok Hl) as Hfresh.
  destruct (Queue.tq_shutdown q) eqn:Es.
  { rewrite Queue.push_guards by (by left). rewrite Es. eexists _, _, _. split; [reflexivity|]. left. by split_and!. }
  destruct (Z.leb_spec (Queue.tq_max_size q) (Queue.tq_size q)).
  { rewrite Queue.push_guards by (by right). rewrite Es. eexists _, _, _. split; [reflexivity|]. left. by split_and!. }
  pose proof Hok as [Hc Hn Hw Hz Hs]. assert (Forall (wf_at (<[l := t]> tm)) (ls ++ fl)) as Hw'.
  { eapply Forall_impl; [exact Hw|]. intros k. by apply wf_at_fresh. }
  assert (wf_at (<[l := t]> tm) l) as Hwl by (exists t; by rewrite lookup_insert_eq).
  destruct (Queue.tq_tail q) as [k|] eqn:Ek.
  2: { destruct ls as [|a [|b [|? ?]]]; [|by destruct Hs|done|done].
       erewrite Queue.push_first by (done || apply lookup_insert_eq). eexists _, _, _. split; [reflexivity|]. right.
       split; [done|]. exists [l]. split; [split; cbn|].
       - split; [done|]. eexists. split; [apply lookup_insert_eq|done].
       - by apply NoDup_cons.
       - apply Forall_cons. split; [by apply wf_at_link; [apply lookup_insert_eq|]|].
         eapply Forall_impl; [exact Hw'|]. intros j Hj. by apply wf_at_link; [apply lookup_insert_eq|].
       - lia.
       - by eexists.
       - split; cbn; [|by eexists]. intros j [= <-]. rewrite lookup_insert_eq. by eexists. }
  destruct (Hlive k eq_refl) as [y Hy]. assert (k <> l) as Hkl by congruence.
  erewrite (Queue.push_second q _ k l y t); [|done|lia|done|by rewrite lookup_insert_ne|apply lookup_insert_eq|done].
  eexists _, _, _. split; [reflexivity|]. right. split; [done|]. by apply (tasks_link q tm fl ls l t k y).
Qed.

End GwMainInv.
