(* ===== verification/GwMainSafe.v ===== *)
(** * Every step of the gateway is defined

    The invariant of the server state, that every handler of the main loop keeps
    it, and the safety of the whole gateway. *)
From S2P Require Import Prelude Socket Heap Fifo Crc Protocol RateLimit Queue Client Server Handlers Json Worker GwMain GwMainInv.
Import Protocol Client Server Handlers Json Worker GwMain GwMainInv.
Open Scope c_scope.

Module GwMainSafe.

(** ** The invariant *)

(** The receive buffer of every slot. *)
Definition buf_ok (c : client) : Prop := zlen (data_receive c) = RX_BUF_CAP /\ bytes (data_receive c).

(** What a step of the main thread does not change: the tasks the workers hold, the
    shutdown flag and, once it is shut down, the task queue. *)
Record ctx := Ctx { x_held : list loc; x_queue : Queue.task_queue; x_stop : bool }.

(** [b] is a slot whose receive state may be off because it is about to be closed. *)
Record gw_inv (b : option nat) (k : ctx) (sv : server) : Prop := {
  s_len : zlen (clients sv) = MAX_CLIENTS;
  s_table : table_ok (clients sv);
  s_tx : tx_good (txs sv) (clients sv);
  s_sess : forall i c, clients sv !! i = Some c -> buf_ok c /\ (alive c = true -> b <> Some i -> session_ok c);
  s_resp : Queue.response_inv (queue_of sv);
  s_rwf : Forall (fun lr => response_wf lr.2) (Queue.response_abs (queue_of sv));
  s_tasks : exists ls, tasks_ok (tasks sv) (task_mem sv) (x_held k) ls;
  s_intact : intact (tasks sv) (task_mem sv);
  s_queue : Queue.tq_shutdown (x_queue k) = true -> tasks sv = x_queue k;
  s_stop : shutdown sv = x_stop k }.

Lemma gw_same b k sv sv' :
  gw_inv b k sv -> clients sv' = clients sv -> txs sv' = txs sv -> tasks sv' = tasks sv ->
  task_mem sv' = task_mem sv -> queue_of sv' = queue_of sv -> shutdown sv' = shutdown sv -> gw_inv b k sv'.
Proof.
  intros [H1 H2 H3 H4 H5 H6 H7 H8 H9 H10] Ec Ex Et Em Eq Es. split; rewrite ?Ec, ?Ex, ?Et, ?Em, ?Eq, ?Es; done.
Qed.

(** A session that keeps its descriptor keeps it to itself. *)
Lemma fd_own cs i c d :
  table_ok cs -> cs !! i = Some c -> (alive d = true -> alive c = true /\ fd d = fd c) ->
  alive d = true -> 0 <= fd d /\ forall j, j <> i -> ~ live_at cs j (fd d).
Proof.
  intros [Hpos Huniq] Hc Hd Ha. destruct (Hd Ha) as [Hac Hfd]. rewrite Hfd. split; [by eapply Hpos|].
  intros j Hj (e & He & Hae & Hfe). apply Hj. by eapply (Huniq j i e c).
Qed.

(** Replacing one session. *)
Lemma gw_replace b b' k sv sv' i c d :
  gw_inv b k sv -> clients sv !! i = Some c -> clients sv' = <[i := d]> (clients sv) ->
  (alive d = true -> 0 <= fd d /\ forall j, j <> i -> ~ live_at (clients sv) j (fd d)) ->
  buf_ok d -> (alive d = true -> b' <> Some i -> session_ok d) -> (b = b' \/ b = Some i) ->
  tx_good (txs sv') (<[i := d]> (clients sv)) -> queue_of sv' = queue_of sv ->
  tasks sv' = tasks sv -> task_mem sv' = task_mem sv -> shutdown sv' = shutdown sv -> gw_inv b' k sv'.
Proof.
  intros [H1 H2 H3 H4 H5 H6 H7 H8 H9 H10] Hc Ec Hd Hb Hs Hbb Htx Eq Et Em Es.
  split; rewrite ?Et, ?Em, ?Es; [by rewrite Ec; unfold zlen in *; rewrite length_insert|rewrite Ec; by apply table_ok_insert|by rewrite Ec|
    |by rewrite Eq|by rewrite Eq|done..].
  rewrite Ec. intros j e He. destruct (decide (i = j)) as [<-|Hij].
  - rewrite list_lookup_insert_eq in He by (by eapply lookup_lt_Some). injection He as <-. done.
  - rewrite list_lookup_insert_ne in He by done. destruct (H4 j e He) as [He1 He2]. split; [done|].
    intros Ha Hbj. apply He2; [done|]. destruct Hbb as [->| ->]; [done|congruence].
Qed.

(** A change of a session that leaves its list and descriptor alone. *)
Lemma gw_put b b' k sv i c d :
  gw_inv b k sv -> clients sv !! i = Some c -> c_head d = c_head c -> c_tail d = c_tail c ->
  (alive d = true -> alive c = true /\ fd d = fd c) ->
  buf_ok d -> (alive d = true -> b' <> Some i -> session_ok d) -> (b = b' \/ b = Some i) ->
  gw_inv b' k (put_client sv i d).
Proof.
  intros H Hc Hh Ht Hd Hb Hs Hbb. eapply (gw_replace b b' k sv _ i c d); try done.
  - apply (fd_own _ i c d); [apply H|done..].
  - cbn [txs put_client set_clients]. eapply tx_good_same; [apply H|done..].
Qed.

(** ** Closing *)

Lemma gw_close b k sv i c :
  gw_inv b k sv -> clients sv !! i = Some c -> (b = None \/ b = Some i) ->
  exists sv', sv_close sv (Z.of_nat i) = Ret (0, sv') /\ gw_inv None k sv' /\
    clients sv' = <[i := closed_session c]> (clients sv) /\ shutdown sv' = shutdown sv.
Proof.
  intros H Hc Hb. destruct (tx_good_close (txs sv) (clients sv) i c (sv_epoll sv) (s_tx _ _ _ H) Hc) as (e & h & E & Hg).
  unfold sv_close. rewrite E. cbn [mbind outcome_bind]. eexists. split; [reflexivity|]. split; [|done].
  assert (alive (closed_session c) = false) as Ha by (unfold closed_session; by destruct (0 <=? fd c)).
  eapply (gw_replace b None k sv _ i c); [exact H|exact Hc|done|by rewrite Ha| |by rewrite Ha|done|exact Hg|done|done|done|done].
  unfold closed_session. destruct (s_sess _ _ _ H i c Hc) as [Hbuf _]. by destruct (0 <=? fd c).
Qed.

(** ** Receiving *)

(** The same while the session is held outside the table. *)
Lemma gw_reput b b' k sv i c d :
  gw_inv b k (put_client sv i c) -> (i < length (clients sv))%nat -> c_head d = c_head c -> c_tail d = c_tail c ->
  (alive d = true -> alive c = true /\ fd d = fd c) ->
  buf_ok d -> (alive d = true -> b' <> Some i -> session_ok d) -> (b = b' \/ b = Some i) ->
  gw_inv b' k (put_client sv i d).
Proof.
  intros H Hi Hh Ht Hd Hb Hs Hbb. eapply (gw_same b' k (put_client (put_client sv i c) i d)); [| |done..].
  - eapply gw_put; try done. cbn. by apply list_lookup_insert_eq.
  - cbn. by rewrite list_insert_insert_eq.
Qed.

Section Receive.
Context (m : allocator) (Hm : allocator_ok m) (k : ctx).

Lemma queue_packet_inv b sv i c packet size :
  gw_inv b k (put_client sv i c) -> (i < length (clients sv))%nat -> whole_message (DataTransmit packet size 0 None) ->
  exists sv', queue_packet m sv i c packet size = Ret sv' /\ gw_inv b k sv'.
Proof using Hm.
  intros H Hi Hw. assert (clients (put_client sv i c) !! i = Some c) as Hc by (cbn; by apply list_lookup_insert_eq).
  destruct (tx_good_enqueue m (txs sv) _ i c packet size Hm (s_tx _ _ _ H) Hc Hw)
    as (ret & c' & h' & E & Hg & Hfd & Hal & Hst & Hrx & Hdr).
  unfold queue_packet. rewrite E. cbn [mbind outcome_bind]. eexists. split; [reflexivity|].
  destruct (s_sess _ _ _ H i c Hc) as [Hb Hs].
  eapply (gw_replace b b k _ _ i c c'); [exact H|exact Hc| | | | |by left|exact Hg|done|done|done|done].
  - cbn. by rewrite list_insert_insert_eq.
  - apply (fd_own _ i c c'); [apply H|done|]. rewrite Hal, Hfd. done.
  - unfold buf_ok. by rewrite Hdr.
  - rewrite Hal. intros Ha Hne. specialize (Hs Ha Hne). unfold session_ok. by rewrite Hdr, Hst, Hrx.
Qed.

Lemma error_packet r code :
  build_error_packet (malloc_buf m) r code = Ret None \/
  exists packet, build_error_packet (malloc_buf m) r code = Ret (Some (packet, 21)) /\
    whole_message (DataTransmit packet 21 0 None).
Proof using Hm.
  rewrite build_error_packet_block by (intros b Eb; by apply (buf_size m Hm)).
  destruct (malloc_buf m 21); [right|by left]. eexists. split; [reflexivity|].
  split_and!; cbn [len data offset]; [by rewrite frame_len|done|lia].
Qed.

(** The session is back at a message boundary. *)
Lemma gw_boundary b sv i c now :
  gw_inv b k (put_client sv i c) -> (i < length (clients sv))%nat -> b = None \/ b = Some i ->
  gw_inv None k (put_client sv i (set_rx_len 0 (set_stage READ_HEADER c))) /\
  gw_inv None k (put_client sv i (set_last_active_ms now (set_rx_len 0 (set_stage READ_HEADER c)))).
Proof using.
  intros H Hi Hb. assert (buf_ok c) as [Hz Hby] by (apply (s_sess _ _ _ H i c); cbn; by apply list_lookup_insert_eq).
  split; (eapply (gw_reput b None k sv i c); [done..|by split|intros _ _; by split|tauto]).
Qed.

Lemma header_complete_inv sv i c :
  gw_inv (Some i) k (put_client sv i c) -> (i < length (clients sv))%nat -> buf_ok c -> rx_len c = HEADER_SIZE ->
  (exists ret sv', header_complete m sv i c = Ret (inl (ret, sv')) /\
     ((ret = -1 /\ gw_inv (Some i) k sv') \/ (ret = 2 /\ gw_inv None k sv'))) \/
  (exists n, header_complete m sv i c = Ret (inr (set_stage READ_PAYLOAD c)) /\
     decode_32_bit (data_receive c) 8 = Ret n /\ 0 <= n <= MAX_PAYLOAD).
Proof using Hm.
  intros H Hi [HD _] Hrx. unfold RX_BUF_CAP in HD. unfold header_complete.
  destruct (decode_32_total (data_receive c) 0) as (mg & -> & _); [lia|lia|].
  destruct (decode_16_total (data_receive c) 4) as (v & -> & _); [lia|lia|].
  destruct (decode_16_total (data_receive c) 6) as (t & -> & _); [lia|lia|].
  destruct (decode_32_total (data_receive c) 8) as (n & Hn & Hnu); [lia|lia|].
  destruct (decode_32_total (data_receive c) 12) as (r & -> & _); [lia|lia|].
  rewrite Hn. cbn [mbind outcome_bind]. set (h := HeaderPacket mg v t n r).
  pose proof (check_header_range h) as Hcode.
  destruct (Z.ltb_spec (check_header h) 0); [lia|]. destruct (Z.ltb_spec 0 (check_header h)).
  - left. destruct (error_packet r (check_header h)) as [-> |(packet & -> & Hw)]; cbn [mbind outcome_bind].
    + eexists _, _. split; [reflexivity|]. by left.
    + edestruct (queue_packet_inv None sv i (set_rx_len 0 (set_stage READ_HEADER c))) as (sv' & -> & H');
        [by eapply (gw_boundary (Some i) sv i c 0); [..|right]|done|exact Hw|]. cbn [mbind outcome_bind].
      eexists _, _. split; [reflexivity|]. by right.
  - right. exists n. assert (check_header h = 0) as Hz by lia.
    apply check_header_zero in Hz as (_ & _ & Hz & _).
    split_and!; [done|done|unfold in_u in Hnu; lia|exact Hz].
Qed.

Lemma build_task_wf c t n r slot now tm :
  buf_ok c -> 0 <= n <= MAX_PAYLOAD ->
  build_task m c (HeaderPacket 0 0 t n r) slot now tm = Ret (None, tm) \/
  exists l task, build_task m c (HeaderPacket 0 0 t n r) slot now tm = Ret (Some l, <[l := task]> tm) /\
    tm !! l = None /\ task_wf task.
Proof using Hm.
  intros [HD Hby] Hn. unfold build_task. destruct (slot <? 0); [by left|].
  destruct (malloc_task m tm) as [[l junk]|] eqn:El; [right|by left].
  destruct (task_fresh m Hm _ _ _ El) as [Hfresh Hj]. unfold RX_BUF_CAP, MAX_PAYLOAD in *.
  destruct (read_at_inside (data_receive c) 16 n) as (body & Hbody & Hbl); [lia|lia|lia|].
  assert (bytes body) as Hbb.
  { unfold read_at in Hbody. case_match; [|done]. injection Hbody as <-. by apply Forall_take, Forall_drop. }
  cbn [h_length h_type h_request_id]. unfold HEADER_SIZE. rewrite Hbody.
  destruct (Z.ltb_spec 0 n); cbn [andb].
  2: { assert (n = 0) as -> by lia. cbn [mbind outcome_bind]. eexists _, _. split; [reflexivity|]. split; [done|].
       split_and!; cbn [Queue.t_payload Queue.t_length]; [exact Hj|lia|unfold MAX_PAYLOAD; lia|constructor]. }
  destruct (Z.leb_spec n 4096); [|lia]. cbn [mbind outcome_bind].
  pose proof (write_at_cursor [] (Queue.t_payload junk) 0 body) as Hw. cbn [app] in Hw.
  rewrite Hw by (done || lia). cbn [mbind outcome_bind]. eexists _, _. split; [reflexivity|]. split; [done|].
  split_and!; cbn [Queue.t_payload Queue.t_length]; [|lia|unfold MAX_PAYLOAD; lia|].
  - rewrite zlen_app. unfold MAX_PAYLOAD. unfold zlen in *. rewrite length_drop. lia.
  - rewrite take_app_le by (unfold zlen in *; lia). by apply Forall_take.
Qed.

(** Handing a task over, or dropping it when the queue refuses it. *)
Lemma push_task_inv q tm ls l task :
  tasks_ok q tm (x_held k) ls -> intact q tm -> tm !! l = None -> task_wf task ->
  exists q' tm' ls', ('(ret, q, tm) ← Queue.push (Some q) (Some l) (<[l := task]> tm);
      q ← deref q;
      if ret <? 0 then tm ← free tm (Some l); Ret (q, tm) else Ret (q, tm)) = Ret (q', tm') /\
    tasks_ok q' tm' (x_held k) ls' /\ intact q' tm' /\ (Queue.tq_shutdown q = true -> q' = q).
Proof using.
  intros Hok Hint Hl Hwf. destruct (tasks_push q tm (x_held k) ls l task Hok Hint Hl Hwf)
    as (ret & q' & tm' & E & Hcase). pose proof E as E'. rewrite E. destruct Hcase as [(Hret & -> & ->)|(-> & ls' & Hok' & Hint')]; cbn [mbind outcome_bind deref].
  - destruct (Z.ltb_spec ret 0); [|lia]. rewrite (free_alloc _ l _ (lookup_insert_eq _ _ _)). cbn [mbind outcome_bind].
    rewrite delete_insert_id by done. by exists q, tm, ls.
  - exists q', tm', ls'. split_and!; [done..|]. intros Hs. rewrite Queue.push_guards in E' by (by left). by rewrite Hs in E'.
Qed.

Lemma frame_complete_inv b sv i c n now now' :
  gw_inv b k (put_client sv i c) -> (i < length (clients sv))%nat -> b = None \/ b = Some i -> buf_ok c ->
  decode_32_bit (data_receive c) 8 = Ret n -> 0 <= n <= MAX_PAYLOAD ->
  exists ret sv', frame_complete m sv i c n now now' = Ret (ret, sv') /\ (ret = 0 \/ ret = 2) /\ gw_inv None k sv'.
Proof using Hm.
  intros H Hi Hb Hbuf Hn Hr. pose proof Hbuf as [HD _]. destruct (gw_boundary b sv i c now' H Hi Hb) as [H1 H2].
  unfold RX_BUF_CAP, MAX_PAYLOAD in *. unfold frame_complete. unfold HEADER_SIZE.
  destruct (decode_32_total (data_receive c) (16 + n)) as (x & -> & _); [lia|lia|].
  destruct (read_at_inside (data_receive c) 16 n) as (body & Hbody & Hbl); [lia|lia|lia|].
  destruct (decode_32_total (data_receive c) 12) as (r & -> & _); [lia|lia|].
  rewrite Hbody. cbn [mbind outcome_bind]. destruct (x =? Crc.crc_calculate body); cbn [negb].
  2: { destruct (error_packet r (err_code_val ERR_CRC_MISMATCH)) as [-> |(packet & -> & Hw)]; cbn [mbind outcome_bind].
       - eexists 2, _. split; [reflexivity|]. split; [by right|done].
       - destruct (queue_packet_inv None sv i _ packet 21 H1 Hi Hw) as (sv' & -> & H'). cbn [mbind outcome_bind].
         eexists 2, _. split; [reflexivity|]. split; [by right|done]. }
  destruct (decode_16_total (data_receive c) 6) as (t & -> & _); [lia|lia|].
  rewrite Hn. cbn [mbind outcome_bind].
  destruct (s_tasks _ _ _ H) as [ls Hok]. pose proof (s_intact _ _ _ H) as Hint. cbn [tasks task_mem put_client set_clients] in *.
  set (slot := fd_to_slot _ _ _).
  destruct (build_task_wf c t n r slot now (task_mem sv) Hbuf Hr) as [-> |(l & task & -> & Hl & Hwf)]; cbn [mbind outcome_bind].
  - eexists 0, _. split; [reflexivity|]. split; [by left|]. eapply gw_same; [exact H2|done..].
  - destruct (push_task_inv (tasks sv) (task_mem sv) ls l task Hok Hint Hl Hwf) as (q' & tm' & ls' & -> & Hok' & Hint' & Hstop).
    cbn [mbind outcome_bind]. eexists 0, _. split; [reflexivity|]. split; [by left|].
    destruct H2 as [G1 G2 G3 G4 G5 G6 _ _ G9 G10]. split; try done; [by exists ls'|].
    intros Hs. specialize (G9 Hs). cbn in G9. rewrite <- G9 in Hs |- *. exact (Hstop Hs).
Qed.

Lemma gw_weaken b sv : gw_inv None k sv -> gw_inv b k sv.
Proof using.
  intros [H1 H2 H3 H4 H5 H6 H7 H8 H9 H10]. split; try done. intros j e He. destruct (H4 j e He) as [Hb Hs].
  split; [done|]. intros Ha _. by apply Hs.
Qed.

(** What a call of [client_read_message] may end in. *)
Definition read_end (i : nat) (res : outcome (Z * server * list Z)) : Prop :=
  exists ret sv' stream', res = Ret (ret, sv', stream') /\
    ((ret = -1 /\ gw_inv (Some i) k sv') \/ (ret <> -1 /\ gw_inv None k sv')).

Lemma read_end_put sv i c ret stream :
  gw_inv None k (put_client sv i c) -> read_end i (Ret (ret, put_client sv i c, stream)).
Proof using.
  intros H. eexists _, _, _. split; [reflexivity|]. destruct (decide (ret = -1)); [left|by right].
  split; [done|]. by apply gw_weaken.
Qed.

(** The peer has closed: the session is dead. *)
Lemma read_end_dead sv i c stream :
  gw_inv None k (put_client sv i c) -> (i < length (clients sv))%nat ->
  read_end i (Ret (1, put_client sv i (set_alive false c), stream)).
Proof using.
  intros H Hi. apply read_end_put. assert (buf_ok c) as Hb by (apply (s_sess _ _ _ H i c); cbn; by apply list_lookup_insert_eq).
  eapply (gw_reput None None k sv i c); [done..|by left].
Qed.

(** A piece that does not complete the message. *)
Lemma gw_piece sv i c d n :
  gw_inv None k (put_client sv i c) -> (i < length (clients sv))%nat -> zlen d = RX_BUF_CAP -> bytes d ->
  gw_inv (Some i) k (put_client sv i (set_rx_len n (set_data_receive d c))) /\
  (session_ok (set_rx_len n (set_data_receive d c)) -> gw_inv None k (put_client sv i (set_rx_len n (set_data_receive d c)))).
Proof using.
  intros H Hi Hd Hby. split; [|intros Hs].
  - eapply (gw_reput (Some i) (Some i) k sv i c); [by apply gw_weaken|done..|by left].
  - eapply (gw_reput None None k sv i c); [done..|by left].
Qed.

Lemma read_loop_inv script eof stream sv i c now now' :
  gw_inv None k (put_client sv i c) -> (i < length (clients sv))%nat -> session_ok c -> bytes stream ->
  read_end i (client_read_loop m script eof stream sv i c now now').
Proof using Hm.
  revert stream c. induction script as [|ev script IH]; intros stream c H Hi Hok Hby;
    pose proof Hok as [HD Hst]; cbn [client_read_loop]; destruct (stage c) eqn:Es;
    try done; try (by apply read_end_put).
  - unfold HEADER_SIZE in Hst. rewrite wrap_small by (unfold HEADER_SIZE; lia).
    assert (buf_ok c) as [_ Hcb] by (apply (s_sess _ _ _ H i c); cbn; by apply list_lookup_insert_eq).
    destruct (recv ev eof stream (HEADER_SIZE - rx_len c)) as [[bs|err] stream'] eqn:Er;
      pose proof (recv_rest_bytes _ _ _ _ _ _ Hby Er) as Hby'.
    2: { destruct (err =? EINTR); [by apply IH|]. destruct (err =? EAGAIN); by apply read_end_put. }
    pose proof (recv_data_bytes _ _ _ _ _ _ Hby Er) as Hbs. apply recv_data_bounds in Er; [|unfold HEADER_SIZE; lia].
    destruct bs as [|b bs]; [by apply read_end_dead|]. unfold RX_BUF_CAP, HEADER_SIZE in *.
    destruct (write_bytes (data_receive c) (rx_len c) (b :: bs)) as (d & -> & Hd & Hdb); [lia|lia|done|done|].
    cbn [mbind outcome_bind rx_len set_rx_len]. rewrite HD in Hd.
    pose proof (zlen_nonneg bs). rewrite zlen_cons in *.
    destruct (gw_piece sv i c d (rx_len c + (1 + zlen bs)) H Hi Hd Hdb) as [H1 H2].
    destruct (Z.ltb_spec (rx_len c + (1 + zlen bs)) 16).
    + assert (session_ok (set_rx_len (rx_len c + (1 + zlen bs)) (set_data_receive d c))) as Hok'.
      { split; [exact Hd|]. cbn [stage set_rx_len set_data_receive rx_len]. rewrite Es. unfold HEADER_SIZE. lia. }
      apply IH; auto.
    + edestruct (header_complete_inv _ i _ H1 Hi) as [(ret & sv' & -> & Hret)|(n & -> & Hn & Hnr)];
        [by split|cbn; unfold HEADER_SIZE; lia|..]; cbn [mbind outcome_bind].
      * eexists _, _, _. split; [reflexivity|]. destruct Hret as [[-> ?]|[-> ?]]; [by left|by right].
      * set (c2 := set_stage READ_PAYLOAD _). assert (session_ok c2) as Hok'.
        { split; [exact Hd|]. cbn. exists n. split_and!; [exact Hn|lia|lia|..]; unfold HEADER_SIZE, CRC_SIZE; lia. }
        apply IH; [|done..]. eapply (gw_reput (Some i) None k sv i _ c2 H1 Hi); [done..|by split|done|by right].
  - destruct Hst as (n & Hn & Hnr & Hrx). rewrite Hn. cbn [mbind outcome_bind].
    assert (buf_ok c) as [_ Hcb] by (apply (s_sess _ _ _ H i c); cbn; by apply list_lookup_insert_eq).
    unfold RX_BUF_CAP, HEADER_SIZE, CRC_SIZE, MAX_PAYLOAD in *.
    rewrite (wrap_small 32) by lia. rewrite wrap_small by lia.
    destruct (recv ev eof stream (n + 16 + 4 - rx_len c)) as [[bs|err] stream'] eqn:Er;
      pose proof (recv_rest_bytes _ _ _ _ _ _ Hby Er) as Hby'.
    2: { destruct (err =? EINTR); [by apply IH|]. destruct (err =? EAGAIN); by apply read_end_put. }
    pose proof (recv_data_bytes _ _ _ _ _ _ Hby Er) as Hbs. apply recv_data_bounds in Er; [|lia].
    destruct bs as [|b bs]; [by apply read_end_dead|].
    destruct (write_bytes (data_receive c) (rx_len c) (b :: bs)) as (d & Hw & Hd & Hdb); [lia|lia|done|done|].
    pose proof (decode_32_write _ _ _ _ 8 Hw ltac:(lia)) as H8. rewrite Hw, HD in *.
    cbn [mbind outcome_bind rx_len set_rx_len]. pose proof (zlen_nonneg bs). rewrite zlen_cons in *.
    destruct (gw_piece sv i c d (rx_len c + (1 + zlen bs)) H Hi Hd Hdb) as [H1 H2].
    destruct (Z.ltb_spec (rx_len c + (1 + zlen bs)) (n + 16 + 4)).
    + assert (session_ok (set_rx_len (rx_len c + (1 + zlen bs)) (set_data_receive d c))) as Hok'.
      { split; [exact Hd|]. cbn [stage set_rx_len set_data_receive rx_len data_receive]. rewrite Es. exists n.
        unfold HEADER_SIZE, CRC_SIZE, MAX_PAYLOAD. split_and!; [congruence|lia..]. }
      apply IH; auto.
    + edestruct (frame_complete_inv (Some i) sv i _ n now now' H1 Hi) as (ret & sv' & -> & Hret & H');
        [by right|by split|cbn [data_receive set_rx_len set_data_receive]; congruence|unfold MAX_PAYLOAD; lia|].
      cbn [mbind outcome_bind]. eexists _, _, _. split; [reflexivity|]. right. split; [lia|done].
Qed.

End Receive.

(** ** The handlers *)

Lemma fd_to_slot_cases cs f :
  zlen cs = MAX_CLIENTS ->
  fd_to_slot cs f MAX_CLIENTS = -1 \/
  exists i c, fd_to_slot cs f MAX_CLIENTS = Z.of_nat i /\ cs !! i = Some c /\ alive c = true /\ fd c = f.
Proof.
  intros Hl. unfold fd_to_slot. destruct (f <? 0); [by left|].
  destruct (list_find _ _) as [[i c]|] eqn:E; [right|by left]. apply list_find_Some in E as (Hc & [Ha Hf] & _).
  exists i, c. split_and!; [done| |done|done]. rewrite <- Hl, take_zlen in Hc. done.
Qed.

(** A state that satisfies the invariant after some outcome of a handler. *)
Definition handled {A} (k : ctx) (res : outcome (A * server)) : Prop :=
  exists ret sv', res = Ret (ret, sv') /\ gw_inv None k sv'.

Lemma gw_epoll b k sv e : gw_inv b k sv -> gw_inv b k (set_sv_epoll e sv).
Proof. intros H. by eapply gw_same. Qed.

Lemma handshake_inv k sv i c hs :
  gw_inv None k sv -> clients sv !! i = Some c -> handled k (tls_try_handshake sv (Z.of_nat i) hs).
Proof.
  intros H Hc. unfold tls_try_handshake. destruct (Z.ltb_spec (Z.of_nat i) 0); [lia|]. rewrite Nat2Z.id, Hc.
  cbn [deref mbind outcome_bind]. destruct (s_sess _ _ _ H i c Hc) as [Hb Hs]. destruct hs as [|err].
  - eexists _, _. split; [reflexivity|]. apply gw_epoll. by eapply (gw_put None None k sv i c); [..|left].
  - destruct (err =? SSL_ERROR_WANT_READ); [eexists _, _; split; [reflexivity|]; by apply gw_epoll|].
    destruct (err =? SSL_ERROR_WANT_WRITE); [eexists _, _; split; [reflexivity|]; by apply gw_epoll|].
    destruct (gw_close None k sv i c H Hc) as (sv' & -> & H' & _); [by left|]. by eexists _, _.
Qed.

(** A new session in a slot whose descriptor is unused. *)
Lemma gw_accept k sv i c f a now now' :
  gw_inv None k sv -> clients sv !! i = Some c -> 0 <= f -> (forall j, ~ live_at (clients sv) j f) ->
  gw_inv None k (set_clients (<[i := fresh_session c f a now now']> (clients sv)) sv).
Proof.
  intros H Hc Hf Hnew. destruct (s_sess _ _ _ H i c Hc) as [Hb _].
  eapply (gw_replace None None k sv _ i c); [done..| |done| |by left| |done|done|done|done].
  - intros _. split; [done|]. intros j _. apply Hnew.
  - intros _ _. split; [apply Hb|]. cbn. unfold HEADER_SIZE. lia.
  - cbn [txs set_clients]. eapply tx_good_empty; [apply H|done..].
Qed.

(** The kernel hands out a descriptor that is not in use. *)
Definition accept_fresh (env : accept_env) (sv : server) : Prop :=
  match ae_fd env with inl (f, _) => 0 <= f /\ forall j, ~ live_at (clients sv) j f | inr _ => True end.

Lemma gw_accept_inv k env sv :
  gw_inv None k sv -> accept_fresh env sv -> handled k (handle_accept_client env sv).
Proof.
  intros H Henv. unfold handle_accept_client, accept_fresh in *. destruct (ae_fd env) as [[f a]|err].
  2: { destruct (_ || _)%bool; by eexists _, _. }
  destruct Henv as [Hf Hnew]. pose proof (s_len _ _ _ H) as Hl. rewrite <- Hl.
  destruct (client_alloc_cases (clients sv) f a (ae_now env) (ae_now' env)) as [(i & c & Hc & _ & _ & ->)|[_ ->]];
    [rewrite Hl; unfold MAX_CLIENTS; lia|done| |by eexists _, _].
  pose proof (lookup_lt_Some _ _ _ Hc) as Hi. destruct (Z.ltb_spec (Z.of_nat i) 0); [lia|].
  pose proof (gw_accept k sv i c f a (ae_now env) (ae_now' env) H Hc Hf Hnew) as H1. set (sv1 := set_clients _ sv) in *.
  assert (clients sv1 !! i = Some (fresh_session c f a (ae_now env) (ae_now' env))) as Hc1
    by (by apply list_lookup_insert_eq).
  destruct (epoll_add (sv_epoll sv1) EPOLLIN f) as [ret e]. destruct (ret <? 0).
  { destruct (gw_close None k sv1 i _ H1 Hc1) as (sv' & -> & H' & _); [by left|]. by eexists _, _. }
  rewrite Nat2Z.id. cbn [clients set_sv_epoll]. rewrite Hc1. cbn [deref mbind outcome_bind].
  set (c2 := set_ssl (ae_ssl env) _). set (sv2 := put_client (set_sv_epoll e sv1) i c2).
  assert (gw_inv None k sv2) as H2.
  { destruct (s_sess _ _ _ H1 i _ Hc1) as [Hb1 Hs1].
    by eapply (gw_put None None k (set_sv_epoll e sv1) i _ c2 (gw_epoll _ _ _ e H1) Hc1); [..|left]. }
  assert (clients sv2 !! i = Some c2) as Hc2 by (apply list_lookup_insert_eq; cbn; by rewrite length_insert).
  destruct (gw_close None k sv2 i c2 H2 Hc2) as (sv' & E & H' & _); [by left|].
  destruct (ae_ssl env); [|rewrite E; by eexists _, _]. destruct (_ =? 0); [rewrite E; by eexists _, _|].
  destruct (handshake_inv k sv2 i c2 (ae_handshake env) H2 Hc2) as (r & sv3 & -> & H3). by eexists _, _.
Qed.

Lemma gw_slot b k sv i : gw_inv b k sv -> Z.of_nat i < MAX_CLIENTS -> exists c, clients sv !! i = Some c.
Proof. intros H Hi. apply lookup_lt_is_Some_2. pose proof (s_len _ _ _ H). unfold zlen in *. lia. Qed.

Lemma request_inv m k script eof stream hs t1 t2 now now' sv f :
  allocator_ok m -> gw_inv None k sv -> bytes stream ->
  exists ret sv' st, handle_request_client m script eof stream hs t1 t2 now now' sv f = Ret (ret, sv', st) /\
    gw_inv None k sv'.
Proof.
  intros Hm H Hby. unfold handle_request_client. destruct (f <? 0); [by eexists _, _, _|].
  destruct (fd_to_slot_cases (clients sv) f (s_len _ _ _ H)) as [-> |(i & c & -> & Hc & Ha & _)]; [by eexists _, _, _|].
  destruct (Z.ltb_spec (Z.of_nat i) 0); [lia|]. rewrite Nat2Z.id, Hc. cbn [deref mbind outcome_bind]. rewrite Ha.
  cbn [negb]. destruct (tls_handshake_done c); cbn [negb].
  2: { destruct (handshake_inv k sv i c hs H Hc) as (r & sv' & -> & H'). by eexists _, _, _. }
  destruct (RateLimit.request_allow t1 t2 (Some (rate c))) as [allow r].
  set (c1 := match r with Some r => set_rate r c | None => c end). destruct (s_sess _ _ _ H i c Hc) as [Hb Hs].
  assert (gw_inv None k (put_client sv i c1)) as H1.
  { by eapply (gw_put None None k sv i c); [| |subst c1; destruct r..|left]. }
  destruct allow; cbn [negb]; [|by eexists _, _, _].
  pose proof (lookup_lt_Some _ _ _ Hc) as Hi. set (sv1 := put_client sv i c1) in *.
  assert (Z.of_nat i < MAX_CLIENTS) as Hmax by (pose proof (s_len _ _ _ H); unfold zlen in *; lia).
  assert (clients sv1 !! i = Some c1) as Hc1 by (by apply list_lookup_insert_eq).
  unfold client_read_message. rewrite Hc1. cbn [deref mbind outcome_bind].
  destruct (read_loop_inv m Hm k script eof stream sv1 i c1 now now') as (ret & sv' & st & -> & Hret).
  - eapply gw_same; [exact H1|cbn; by rewrite list_insert_id|done..].
  - cbn. by rewrite length_insert.
  - assert (session_ok c) as Hso by (by apply Hs). subst c1. by destruct r.
  - done.
  - cbn [mbind outcome_bind]. destruct (Z.eqb_spec ret (-1)) as [->|Hne]; cbn [orb].
    + destruct Hret as [[_ H']|[? _]]; [|done]. destruct (gw_slot _ _ _ i H' Hmax) as [c' Hc'].
      destruct (gw_close _ k sv' i c' H' Hc') as (sv2 & -> & H2 & _); [by right|]. by eexists _, _, _.
    + destruct Hret as [[? _]|[_ H']]; [done|]. destruct (ret =? 1); [|by eexists _, _, _].
      destruct (gw_slot _ _ _ i H' Hmax) as [c' Hc'].
      destruct (gw_close _ k sv' i c' H' Hc') as (sv2 & -> & H2 & _); [by left|]. by eexists _, _, _.
Qed.

Lemma sendable_inv k script hs now sv f :
  gw_inv None k sv ->
  exists ret sv' w, handle_client_sendable script hs now sv f = Ret (ret, sv', w) /\ gw_inv None k sv'.
Proof.
  intros H. unfold handle_client_sendable. destruct (f <? 0); [by eexists _, _, _|].
  destruct (fd_to_slot_cases (clients sv) f (s_len _ _ _ H)) as [-> |(i & c & -> & Hc & Ha & _)]; [by eexists _, _, _|].
  destruct (Z.ltb_spec (Z.of_nat i) 0); [lia|]. rewrite Nat2Z.id, Hc. cbn [deref mbind outcome_bind]. rewrite Ha.
  cbn [negb]. destruct (tls_handshake_done c); cbn [negb].
  2: { destruct (handshake_inv k sv i c hs H Hc) as (r & sv' & -> & H'). by eexists _, _, _. }
  destruct (tx_good_flush script now (txs sv) (clients sv) i c (sv_epoll sv) (s_tx _ _ _ H) Hc)
    as (ret & f' & -> & Hg & Hfd & Hal & Hst & Hrx & Hdr). cbn [mbind outcome_bind].
  set (sv1 := set_txs _ _). destruct (s_sess _ _ _ H i c Hc) as [Hb Hs]. assert (gw_inv None k sv1) as H1.
  { eapply (gw_replace None None k sv sv1 i c (ft_client f')); [done..| | | |by left|done|done|done|done|done].
    - apply (fd_own _ i c); [apply H|done|]. by rewrite Hal, Hfd.
    - unfold buf_ok. by rewrite Hdr.
    - rewrite Hal. intros Hal' Hne. unfold session_ok. rewrite Hdr, Hst, Hrx. by apply Hs. }
  assert (clients sv1 !! i = Some (ft_client f')) as Hc1 by (apply list_lookup_insert_eq; by eapply lookup_lt_Some).
  destruct ((ret <? 0) || (ret =? 2))%bool.
  { destruct (gw_close None k sv1 i _ H1 Hc1) as (sv' & -> & H' & _); [by left|]. by eexists _, _, _. }
  destruct (ret =? 1); [by eexists _, _, _|].
  destruct (epoll_mod (sv_epoll sv1) EPOLLIN f) as [r e]. eexists _, _, _. split; [reflexivity|]. by apply gw_epoll.
Qed.

Lemma discovery_defined datagram sent :
  match datagram with RxData bs => zlen bs <= 15 | RxFail _ => True end ->
  exists r, handle_discovery datagram sent = Ret r.
Proof.
  intros Hd. unfold handle_discovery. destruct datagram as [bs|err]; [|by eexists].
  destruct (write_at_inside (take 16 (bs ++ replicate (16 - length bs) 0)) (zlen bs) [0]) as (buf & -> & _).
  - apply zlen_nonneg.
  - change (zlen [0]) with 1. unfold zlen in *. rewrite length_take, length_app, length_replicate. lia.
  - cbn [mbind outcome_bind]. destruct (negb _); by eexists.
Qed.

(** *** Responses *)

Lemma pop_response_frame sv p sv' :
  pop_response sv = Ret (p, sv') ->
  clients sv' = clients sv /\ txs sv' = txs sv /\ tasks sv' = tasks sv /\ task_mem sv' = task_mem sv /\
  shutdown sv' = shutdown sv.
Proof.
  unfold pop_response. intros E. destruct (Queue.response_queue_pop _ _) as [[[p' q] mem]|]; [|done]. cbn in E.
  destruct q as [q|]; [|done]. cbn in E. by injection E as <- <-.
Qed.

Lemma gw_pop k sv l r rs :
  gw_inv None k sv -> Queue.response_abs (queue_of sv) = (l, r) :: rs ->
  exists sv', pop_response sv = Ret (Some l, sv') /\ gw_inv None k sv' /\ response_mem sv' !! l = Some r /\
    response_wf r /\ Queue.response_abs (queue_of sv') = rs /\ (l ∉ rs.*1).
Proof.
  intros H Ha. destruct (pop_response_cons sv l r rs (s_resp _ _ _ H) Ha) as (sv' & E & Hr & Hi & Ha' & _ & _ & Hl).
  destruct (pop_response_frame _ _ _ E) as (Ec & Ex & Et & Em & Es). pose proof (s_rwf _ _ _ H) as Hw. rewrite Ha in Hw.
  apply Forall_cons in Hw as [Hw Hws]. exists sv'. split_and!; try done.
  destruct H as [H1 H2 H3 H4 _ _ H7 H8 H9 H10]. split; rewrite ?Ec, ?Ex, ?Et, ?Em, ?Es; try done. by rewrite Ha'.
Qed.

Lemma gw_free_response k sv l r :
  gw_inv None k sv -> response_mem sv !! l = Some r -> (l ∉ (Queue.response_abs (queue_of sv)).*1) ->
  exists sv', (mem ← free (response_mem sv) (Some l); Ret (set_response_mem mem sv)) = Ret sv' /\ gw_inv None k sv' /\
    Queue.response_abs (queue_of sv') = Queue.response_abs (queue_of sv).
Proof.
  intros H Hr Hl. rewrite (free_alloc _ l r) by done. cbn [mbind outcome_bind]. eexists. split; [reflexivity|].
  destruct (queue_after_free sv (set_response_mem (delete l (response_mem sv)) sv) l (s_resp _ _ _ H) Hl) as [Hi Ha]; [done..|].
  split; [|done]. destruct H as [H1 H2 H3 H4 H5 H6 H7 H8 H9 H10]. split; try done. by rewrite Ha.
Qed.

Lemma deliver_inv m k sv l r :
  allocator_ok m -> gw_inv None k sv -> response_mem sv !! l = Some r -> response_wf r ->
  (l ∉ (Queue.response_abs (queue_of sv)).*1) ->
  exists sv', deliver_response m sv l = Ret sv' /\ gw_inv None k sv' /\
    Queue.response_abs (queue_of sv') = Queue.response_abs (queue_of sv).
Proof.
  intros Hm H Hr [Hpl Hrl] Hl. unfold deliver_response. rewrite Hr. cbn [deref mbind outcome_bind].
  pose proof (gw_free_response k sv l r H Hr Hl) as Hfree.
  destruct ((Queue.r_slot r <? 0) || (MAX_CLIENTS <=? Queue.r_slot r))%bool eqn:Eb; [exact Hfree|]. bool_prop.
  set (s := Z.to_nat (Queue.r_slot r)). destruct (gw_slot None k sv s H) as [c Hc]; [lia|]. rewrite Hc.
  cbn [deref mbind outcome_bind]. destruct (alive c && check_response_message r c)%bool; cbn [negb]; [|exact Hfree].
  destruct (packet_response_frame m r Hm Hpl Hrl) as [-> Hlen]. cbn [mbind outcome_bind].
  destruct (malloc_buf m (Queue.r_length r + 20)); [|exact Hfree].
  set (d := frame _ _ _) in *. set (n := u32 _).
  assert (whole_message (DataTransmit d n 0 None)) as Hw.
  { unfold CRC_SIZE, HEADER_SIZE, MAX_PAYLOAD in *. assert (n = zlen d) as En by (subst n; rewrite Hlen, wrap_small; lia).
    split_and!; cbn [len data offset]; lia. }
  destruct (tx_good_enqueue m (txs sv) (clients sv) s c d n Hm (s_tx _ _ _ H) Hc Hw)
    as (ret & c' & h' & -> & Hg & Hfd & Hal & Hst & Hrx & Hdr). cbn [mbind outcome_bind].
  set (sv1 := set_txs h' _). destruct (s_sess _ _ _ H s c Hc) as [Hb Hs]. assert (gw_inv None k sv1) as Hsv1.
  { eapply (gw_replace None None k sv sv1 s c c'); [done..| | | |by left|done|done|done|done|done].
    - apply (fd_own _ s c); [apply H|done|]. by rewrite Hal, Hfd.
    - unfold buf_ok. by rewrite Hdr.
    - rewrite Hal. intros Hal' Hne. unfold session_ok. rewrite Hdr, Hst, Hrx. by apply Hs. }
  destruct (negb (ret =? 0)); [exact (gw_free_response k sv1 l r Hsv1 Hr Hl)|].
  exact (gw_free_response k _ l r (gw_epoll _ _ _ _ Hsv1) Hr Hl).
Qed.

Lemma response_loop_inv m k rs fuel sv l r :
  allocator_ok m -> gw_inv None k sv -> response_mem sv !! l = Some r -> response_wf r ->
  Queue.response_abs (queue_of sv) = rs -> (l ∉ rs.*1) -> (length rs < fuel)%nat ->
  exists sv', response_loop fuel m sv (Some l) = Ret (0, sv') /\ gw_inv None k sv'.
Proof.
  intros Hm. revert fuel sv l r. induction rs as [|[l2 r2] rs IH]; intros fuel sv l r H Hr Hw Ha Hl Hf;
    (destruct fuel as [|fuel]; [lia|]); cbn [response_loop]; rewrite <- Ha in Hl;
    destruct (deliver_inv m k sv l r Hm H Hr Hw Hl) as (sv1 & -> & H1 & Ha1); rewrite Ha in Ha1; cbn [mbind outcome_bind].
  - rewrite pop_response_nil by (done || apply H1). cbn [mbind outcome_bind].
    destruct fuel; (eexists; split; [reflexivity|]; by eapply gw_same).
  - destruct (gw_pop k sv1 l2 r2 rs H1 Ha1) as (sv2 & -> & H2 & Hr2 & Hw2 & Ha2 & Hl2). cbn [mbind outcome_bind].
    eapply (IH fuel sv2 l2 r2); try done. cbn in Hf. lia.
Qed.

Lemma responses_inv m k sv :
  allocator_ok m -> gw_inv None k sv -> handled k (handle_response_to_client m sv).
Proof.
  intros Hm H. unfold handle_response_to_client. set (sv0 := set_event_count 0 sv).
  assert (gw_inv None k sv0) as H0 by (by eapply gw_same).
  destruct (Queue.response_abs (queue_of sv0)) as [|[l r] rs] eqn:Ha.
  - rewrite pop_response_nil by (done || apply H0). cbn [mbind outcome_bind].
    destruct (Z.to_nat _); (eexists _, _; split; [reflexivity|]; by eapply gw_same).
  - destruct (gw_pop k sv0 l r rs H0 Ha) as (sv1 & -> & H1 & Hr & Hw & Ha1 & Hl). cbn [mbind outcome_bind].
    destruct (Queue.response_abs_zlen _ (s_resp _ _ _ H0)) as [Hz _]. rewrite Ha, zlen_cons in Hz. cbn [queue_of snd] in Hz.
    edestruct (response_loop_inv m k rs (Z.to_nat (Queue.rq_size (response sv0))) sv1 l r) as (sv' & -> & H'); try done.
    { unfold zlen in Hz. lia. }
    by eexists _, _.
Qed.

End GwMainSafe.
