(* ===== verification/GwMainRun.v ===== *)
(** * Runs of the gateway

    The rounds of the main thread, the steps of the workers, and the theorems
    about every state the gateway can reach. *)
From S2P Require Import Prelude Socket Heap Fifo Crc Protocol RateLimit Queue Client Server Handlers Json Worker GwMain GwMainInv GwMainSafe.
Import Protocol Client Server Handlers Json Worker GwMain GwMainInv GwMainSafe.
Open Scope c_scope.

Module GwMainRun.

#[local] Existing Instance Queue.task_linked.

(** ** Rounds of the main thread *)

Lemma reap_loop_inv k n i now sv :
  gw_inv None k sv -> Z.of_nat (i + n) <= MAX_CLIENTS ->
  exists sv', reap_loop n i now sv = Ret sv' /\ gw_inv None k sv'.
Proof.
  revert i sv. induction n as [|n IH]; intros i sv H Hn; cbn [reap_loop]; [by exists sv|].
  destruct (gw_slot None k sv i H) as [c Hc]; [lia|]. rewrite Hc. cbn [deref mbind outcome_bind].
  destruct (gw_close None k sv i c H Hc) as (sv1 & E & H1 & _); [by left|].
  assert (Z.of_nat (S i + n) <= MAX_CLIENTS) as Hn' by lia.
  destruct (_ && _)%bool; [rewrite E; by apply IH|]. destruct (fd c <? 0); [by apply IH|].
  destruct (_ <? _); [rewrite E|]; by apply IH.
Qed.

Lemma gw_reap_inv k now sv : gw_inv None k sv -> handled k (reap_client now sv).
Proof.
  intros H. unfold reap_client.
  destruct (reap_loop_inv k (Z.to_nat MAX_CLIENTS) 0 now sv H) as (sv' & -> & H'); [unfold MAX_CLIENTS; lia|].
  by eexists _, _.
Qed.

(** What the kernel promises about the answers to one event: a fresh descriptor, at
    most fifteen bytes of a datagram, bytes. *)
Definition io_possible (f : fds) (x : io) (sv : server) : Prop :=
  (io_fd x = listen_fd f -> accept_fresh (io_accept x) sv) /\
  match io_datagram x with RxData bs => zlen bs <= 15 | RxFail _ => True end /\
  bytes (io_stream x).

Fixpoint events_possible (m : allocator) (f : fds) (xs : list io) (sv : server) : Prop :=
  match xs with
  | [] => True
  | x :: xs => io_possible f x sv /\ forall sv', dispatch m f x sv = Ret sv' -> events_possible m f xs sv'
  end.

Section Main.
Context (m : allocator) (Hm : allocator_ok m) (f : fds) (k : ctx).

Lemma dispatch_client_inv x sv :
  gw_inv None k sv -> bytes (io_stream x) -> exists sv', dispatch_client m x sv = Ret sv' /\ gw_inv None k sv'.
Proof using Hm.
  intros H Hby. unfold dispatch_client.
  destruct (fd_to_slot_cases (clients sv) (io_fd x) (s_len _ _ _ H)) as [-> |(i & c & -> & Hc & _)]; [by eexists|].
  pose proof (lookup_lt_Some _ _ _ Hc) as Hi.
  assert (Z.of_nat i < MAX_CLIENTS) as Hmax by (pose proof (s_len _ _ _ H); unfold zlen in *; lia).
  destruct (Z.ltb_spec (Z.of_nat i) 0); [lia|]. rewrite Nat2Z.id, Hc. cbn [deref mbind outcome_bind].
  destruct (_ && _)%bool.
  { destruct (gw_close None k sv i c H Hc) as (sv1 & -> & H1 & _); [by left|]. by eexists. }
  assert (exists sv1, (if ((io_fd x =? Client.fd c) && has (io_events x) EPOLLIN)%bool
    then '(_, sv, _) ← handle_request_client m (io_rx x) (io_eof x) (io_stream x) (io_hs x)
           (io_t1 x) (io_t2 x) (io_now x) (io_now' x) sv (io_fd x); Ret sv
    else Ret sv) = Ret sv1 /\ gw_inv None k sv1) as (sv1 & -> & H1).
  { destruct (_ && _)%bool; [|by exists sv].
    destruct (request_inv m k (io_rx x) (io_eof x) (io_stream x) (io_hs x) (io_t1 x) (io_t2 x) (io_now x) (io_now' x)
      sv (io_fd x) Hm H Hby) as (r & sv1 & st & -> & H1). by exists sv1. }
  cbn [mbind outcome_bind]. destruct (gw_slot None k sv1 i H1 Hmax) as [c1 Hc1]. rewrite Hc1.
  cbn [deref mbind outcome_bind]. destruct (_ && _ && _)%bool; [|by exists sv1].
  destruct (sendable_inv k (io_tx x) (io_hs' x) (io_flushed x) sv1 (io_fd x) H1) as (r & sv2 & w & -> & H2). by exists sv2.
Qed.

Lemma dispatch_inv x sv :
  gw_inv None k sv -> io_possible f x sv -> exists sv', dispatch m f x sv = Ret sv' /\ gw_inv None k sv'.
Proof using Hm.
  intros H (Hacc & Hdg & Hby). unfold dispatch.
  destruct (Z.eqb_spec (listen_fd f) (io_fd x)) as [Hfd|_]; cbn [andb]; [destruct (has _ EPOLLIN)|].
  1: { destruct (gw_accept_inv k (io_accept x) sv H) as (r & sv' & -> & H'); [by apply Hacc|]. by eexists. }
  all: destruct (_ && _)%bool; [destruct (discovery_defined (io_datagram x) (io_sent x) Hdg) as [[r o] ->]; by eexists|].
  all: destruct (_ && _)%bool; [destruct (responses_inv m k sv Hm H) as (r & sv' & -> & H'); by eexists|].
  all: by apply dispatch_client_inv.
Qed.

Lemma dispatch_all_inv xs sv :
  gw_inv None k sv -> events_possible m f xs sv -> exists sv', dispatch_all m f xs sv = Ret sv' /\ gw_inv None k sv'.
Proof using Hm.
  revert sv. induction xs as [|x xs IH]; intros sv H Hp; cbn [dispatch_all]; [by exists sv|].
  destruct Hp as [Hx Hp]. destruct (dispatch_inv x sv H Hx) as (sv1 & E & H1). rewrite E. cbn [mbind outcome_bind].
  apply IH; [done|]. by apply Hp.
Qed.

Definition wait_possible (w : wait_answer) (sv : server) : Prop :=
  match w with WaitError _ => True | WaitEvents xs => events_possible m f xs sv end.

(** A round is defined; it ends the loop if the shutdown flag is set. *)
Lemma main_round_inv w now sv :
  gw_inv None k sv -> wait_possible w sv ->
  exists on sv', main_round m f w now sv = Ret (on, sv') /\ gw_inv None k sv' /\ (x_stop k = true -> on = false).
Proof using Hm.
  intros H Hw. unfold main_round.
  assert (forall sv1, gw_inv None k sv1 -> exists on sv',
    ('(_, sv) ← reap_client now sv1; Ret (negb (shutdown sv), sv)) = Ret (on, sv') /\ gw_inv None k sv' /\
    (x_stop k = true -> on = false)) as Hreap.
  { intros sv1 H1. destruct (gw_reap_inv k now sv1 H1) as (r & sv2 & -> & H2). eexists _, _. split; [reflexivity|].
    split; [done|]. intros Hs. rewrite (s_stop _ _ _ H2), Hs. done. }
  destruct w as [err|xs].
  - destruct (err =? EINTR); cbn [mbind outcome_bind]; [by apply Hreap|]. by eexists _, _.
  - destruct (dispatch_all_inv xs sv H Hw) as (sv1 & -> & H1). cbn [mbind outcome_bind]. by apply Hreap.
Qed.

End Main.

(** ** The invariant of the gateway *)

(** The invariant of the server without that of the task queue's defect. *)
Record gw_base (fl : list loc) (sv : server) : Prop := {
  b_len : zlen (clients sv) = MAX_CLIENTS;
  b_table : table_ok (clients sv);
  b_tx : tx_good (txs sv) (clients sv);
  b_sess : forall i c, clients sv !! i = Some c -> buf_ok c /\ (alive c = true -> session_ok c);
  b_resp : Queue.response_inv (queue_of sv);
  b_rwf : Forall (fun lr => response_wf lr.2) (Queue.response_abs (queue_of sv));
  b_tasks : exists ls, tasks_ok (tasks sv) (task_mem sv) fl ls }.

Lemma base_inv fl sv :
  gw_base fl sv -> intact (tasks sv) (task_mem sv) -> gw_inv None (Ctx fl (tasks sv) (shutdown sv)) sv.
Proof.
  intros [H1 H2 H3 H4 H5 H6 H7] Hi. split; try done. intros i c Hc. destruct (H4 i c Hc) as [Hb Hs].
  split; [done|]. intros Ha _. by apply Hs.
Qed.

Lemma inv_base k sv : gw_inv None k sv -> gw_base (x_held k) sv.
Proof.
  intros [H1 H2 H3 H4 H5 H6 H7 _ _ _]. split; try done. intros i c Hc. destruct (H4 i c Hc) as [Hb Hs].
  split; [done|]. intros Ha. by apply Hs.
Qed.

(** The tasks the workers hold. *)
Definition held (ws : list worker_pc) : list loc := omap (fun pc => match pc with WRun l => Some l | _ => None end) ws.

Lemma held_replace ws i pc pc' :
  ws !! i = Some pc -> exists a b, held ws = a ++ held [pc] ++ b /\ held (<[i := pc']> ws) = a ++ held [pc'] ++ b.
Proof.
  intros Hi. exists (held (take i ws)), (held (drop (S i) ws)). unfold held. rewrite <- !omap_app. split.
  - f_equal. symmetry. by apply take_drop_middle.
  - rewrite insert_take_drop by (by eapply lookup_lt_Some). done.
Qed.

(** A worker takes task [l]; it lets go of it; it has none before and after. *)
Lemma held_take ws i l : ws !! i = Some WPop -> l :: held ws ≡ₚ held (<[i := WRun l]> ws).
Proof. intros Hi. destruct (held_replace ws i WPop (WRun l) Hi) as (a & b & -> & ->). cbn. apply Permutation_middle. Qed.

Lemma held_drop ws i l : ws !! i = Some (WRun l) -> held ws ≡ₚ l :: held (<[i := WPop]> ws).
Proof. intros Hi. destruct (held_replace ws i (WRun l) WPop Hi) as (a & b & -> & ->). cbn. symmetry. apply Permutation_middle. Qed.

Lemma held_stop ws i : ws !! i = Some WPop -> held (<[i := WDone]> ws) = held ws.
Proof. intros Hi. by destruct (held_replace ws i WPop WDone Hi) as (a & b & -> & ->). Qed.

Section Run.
Context (sscanf2 : scan2) (sscanf1 : scan1) (m : allocator) (f : fds) (Hm : allocator_ok m).

(** Running a task that is held: its response is queued or dropped, and it is freed. *)
Lemma run_task_inv fl x now1 now2 sv l :
  gw_base (l :: fl) sv -> env_wf x ->
  (forall t, task_mem sv !! l = Some t -> now1 <= Queue.t_timeout_ms t -> led_in_range t) ->
  exists sv' out, run_task sscanf2 sscanf1 m x now1 now2 sv l = Ret (sv', out) /\ gw_base fl sv' /\
    tasks sv' = tasks sv /\ shutdown sv' = shutdown sv.
Proof using Hm.
  intros [H1 H2 H3 H4 H5 H6 [ls Hok]] Hx Hled. pose proof (tasks_free _ _ _ _ _ Hok) as Hok'.
  assert (wf_at (task_mem sv) l) as (t & Ht & Hwf).
  { apply (proj1 (Forall_forall _ _) (t_wf _ _ _ _ Hok)). apply elem_of_app. right. by left. }
  destruct (Z.ltb_spec (Queue.t_timeout_ms t) now1) as [Hlt|Hge].
  { unfold run_task. rewrite Ht. cbn [deref mbind outcome_bind]. rewrite (proj2 (Z.ltb_lt _ _) Hlt).
    rewrite (free_alloc _ l t) by done. cbn [mbind outcome_bind]. eexists _, _. split; [reflexivity|]. split; [|done].
    split; try done. by exists ls. }
  destruct (parse_payload_defined (request t) (proj2 (proj2 Hwf))) as (root & Hroot & _).
  destruct (run_task_runs sscanf2 sscanf1 m Hm x now1 now2 sv l t root) as
    (sv' & E & (Ec & Ex & _ & Es & Em) & Et & Hi & Hans); [done|done|done|by apply Hled|done|done|lia|].
  exists sv', (device_output x (Queue.t_type t) root). split; [done|]. split; [|done].
  split; rewrite ?Ec, ?Ex, ?Et, ?Em; try done; [|by exists ls].
  destruct Hans as [(k & r & Ha & [Hr _] & _)|(Hrm & Hrq & _)].
  - rewrite Ha. apply Forall_app. split; [done|]. by apply Forall_singleton.
  - unfold queue_of. rewrite Hrm, Hrq. done.
Qed.

Record g_ok (g : gateway) : Prop := {
  o_base : g_run g = true -> gw_base (held (g_workers g)) (g_sv g);
  o_stop : g_run g = true -> g_sig g = false ->
    shutdown (g_sv g) = true /\ Queue.tq_shutdown (tasks (g_sv g)) = true;
  o_live : g_run g = true -> g_sig g = true -> shutdown (g_sv g) = false;
  o_end : g_run g = false -> g_main g = false /\ g_sig g = false /\ Forall (eq WDone) (g_workers g) }.

Definition g_intact (g : gateway) : Prop := intact (tasks (g_sv g)) (task_mem (g_sv g)).

(** What the environment can answer; an LED command that is carried out must be one
    whose scaling does not overflow. *)
Definition possible (g : gateway) (ev : gw_event) : Prop :=
  match ev with
  | Main w _ => wait_possible m f w (g_sv g)
  | GwMain.Worker i x now1 now2 =>
      env_wf x /\ forall l t, g_workers g !! i = Some (WRun l) -> task_mem (g_sv g) !! l = Some t ->
        now1 <= Queue.t_timeout_ms t -> led_in_range t
  | Signal | Cleanup => True
  end.

(** How much is left to do once the shutdown flag is set. *)
Definition weight (pc : worker_pc) : Z := match pc with WPop => 1 | WRun _ => 2 | WDone => 0 end.

Definition steps_left (g : gateway) : Z :=
  Z.b2z (g_main g) + Z.b2z (g_sig g) + Z.b2z (g_run g) + 3 * Queue.tq_size (tasks (g_sv g))
  + sum_of weight (g_workers g).

(** A defined step: the invariant is kept, and after the signal it brings the end
    closer. *)
Definition stepped (g : gateway) (res : outcome (option gateway)) : Prop :=
  exists r, res = Ret r /\ forall g', r = Some g' ->
    g_ok g' /\ (g_sig g = false -> g_sig g' = false /\ steps_left g' < steps_left g).

Lemma main_step_ok g w now :
  g_ok g -> g_intact g -> wait_possible m f w (g_sv g) -> stepped g (gw_step sscanf2 sscanf1 m f (Main w now) g).
Proof using Hm.
  intros Hg Hi Hw. cbn [gw_step]. destruct (g_main g) eqn:Em; [|by eexists]. cbn [negb].
  destruct (g_run g) eqn:Er; [|by destruct (o_end _ Hg Er); congruence].
  destruct (main_round_inv m Hm f _ w now (g_sv g) (base_inv _ _ (o_base _ Hg Er) Hi) Hw) as (on & sv' & -> & H' & Hon).
  cbn [mbind outcome_bind x_stop] in *. eexists. split; [reflexivity|]. intros g' [= <-]. split.
  - split; cbn [g_main g_sig g_run g_sv g_workers]; [|intros _ Hs|intros _ Hs|congruence].
    + intros _. exact (inv_base _ _ H').
    + destruct (o_stop _ Hg Er Hs) as [H1 H2]. split; [by rewrite (s_stop _ _ _ H')|].
      by rewrite (s_queue _ _ _ H' H2).
    + rewrite (s_stop _ _ _ H'). by apply (o_live _ Hg).
  - intros Hs. destruct (o_stop _ Hg Er Hs) as [H1 H2]. split; [done|]. unfold steps_left. cbn [g_main g_sig g_run g_sv g_workers].
    rewrite (s_queue _ _ _ H' H2), (Hon H1), Em, Er. cbn [Z.b2z x_queue]. lia.
Qed.

Lemma worker_pop_ok g i x now1 now2 :
  g_ok g -> g_intact g -> g_workers g !! i = Some WPop -> stepped g (worker_step sscanf2 sscanf1 m i x now1 now2 g).
Proof using Hm.
  intros Hg Hi Hw. unfold worker_step. rewrite Hw.
  destruct (g_run g) eqn:Er.
  2: { destruct (o_end _ Hg Er) as (_ & _ & Hall). pose proof (Forall_lookup_1 _ _ _ _ Hall Hw). done. }
  destruct (o_base _ Hg Er) as [H1 H2 H3 H4 H5 H6 [ls Hok]].
  destruct (tasks_pop _ _ _ ls Hok Hi) as [[Hz ->]|(l & q & tm & ls' & -> & Hok' & Hsz & Hsd)]; cbn [mbind outcome_bind deref].
  - destruct (Queue.tq_shutdown _) eqn:Esd; [|by eexists]. eexists. split; [reflexivity|]. intros g' [= <-].
    pose proof (held_stop _ _ Hw) as Hh. split.
    + split; cbn [g_main g_sig g_run g_sv g_workers]; [|intros _ Hs; by apply (o_stop _ Hg)|intros _ Hs; by apply (o_live _ Hg)|congruence].
      intros _. rewrite Hh. split; try done. by exists ls.
    + intros Hs. split; [done|]. unfold steps_left. cbn [g_main g_sig g_run g_sv g_workers].
      rewrite (sum_of_insert _ _ _ _ _ Hw), Er. cbn [weight tasks set_tasks set_task_mem]. lia.
  - eexists. split; [reflexivity|]. intros g' [= <-]. split.
    + split; cbn [g_main g_sig g_run g_sv g_workers]; [|intros _ Hs|intros _ Hs; by apply (o_live _ Hg)|congruence].
      * intros _. split; try done. exists ls'. eapply tasks_ok_perm; [|exact Hok']. by apply held_take.
      * destruct (o_stop _ Hg Er Hs) as [Hsh Htq]. split; [done|]. exact (eq_trans Hsd Htq).
    + intros Hs. split; [done|]. unfold steps_left. cbn [g_main g_sig g_run g_sv g_workers].
      rewrite (sum_of_insert _ _ _ _ _ Hw), Er. cbn [weight tasks set_tasks set_task_mem]. lia.
Qed.

Lemma worker_run_ok g i l x now1 now2 :
  g_ok g -> g_workers g !! i = Some (WRun l) -> possible g (GwMain.Worker i x now1 now2) ->
  stepped g (worker_step sscanf2 sscanf1 m i x now1 now2 g).
Proof using Hm.
  intros Hg Hw [Hx Hled]. unfold worker_step. rewrite Hw.
  destruct (g_run g) eqn:Er.
  2: { destruct (o_end _ Hg Er) as (_ & _ & Hall). pose proof (Forall_lookup_1 _ _ _ _ Hall Hw). done. }
  assert (gw_base (l :: held (<[i := WPop]> (g_workers g))) (g_sv g)) as Hb.
  { destruct (o_base _ Hg Er) as [H1 H2 H3 H4 H5 H6 [ls Hok]]. split; try done. exists ls.
    eapply tasks_ok_perm; [|exact Hok]. by apply held_drop. }
  destruct (run_task_inv _ x now1 now2 (g_sv g) l Hb Hx) as (sv' & out & -> & Hb' & Et & Es); [intros t; by apply Hled|].
  cbn [mbind outcome_bind]. eexists. split; [reflexivity|]. intros g' [= <-]. split.
  - split; cbn [g_main g_sig g_run g_sv g_workers]; rewrite ?Et, ?Es; [done|intros _; by apply (o_stop _ Hg)|intros _; by apply (o_live _ Hg)|congruence].
  - intros Hs. split; [done|]. unfold steps_left. cbn [g_main g_sig g_run g_sv g_workers].
    rewrite (sum_of_insert _ _ _ _ _ Hw), Er, Et. cbn [weight]. lia.
Qed.

Lemma signal_step_ok g : g_ok g -> stepped g (gw_step sscanf2 sscanf1 m f Signal g).
Proof using.
  intros Hg. cbn [gw_step]. destruct (g_sig g) eqn:Es; [|by eexists]. cbn [negb]. eexists. split; [reflexivity|].
  intros g' [= <-]. split; [|congruence]. split; cbn [g_main g_sig g_run g_sv g_workers]; [|done|done|].
  - intros Hr. destruct (o_base _ Hg Hr) as [H1 H2 H3 H4 H5 H6 [ls [T1 T2 T3 T4 T5]]]. split; try done. by exists ls.
  - intros Hr. destruct (o_end _ Hg Hr) as (? & ? & ?). done.
Qed.

Lemma cleanup_loop_inv k n i sv :
  gw_inv None k sv -> Z.of_nat (i + n) <= MAX_CLIENTS ->
  exists sv', cleanup_loop n i sv = Ret sv' /\ gw_inv None k sv'.
Proof using.
  revert i sv. induction n as [|n IH]; intros i sv H Hn; cbn [cleanup_loop]; [by exists sv|].
  destruct (gw_slot None k sv i H) as [c Hc]; [lia|].
  destruct (gw_close None k sv i c H Hc) as (sv1 & -> & H1 & _); [by left|]. cbn [mbind outcome_bind].
  apply IH; [done|lia].
Qed.

(** Cleaning up closes every session and frees every task in the queue. *)
Lemma cleanup_defined k sv :
  gw_inv None k sv -> exists r sv', server_cleanup sv = Ret (r, sv') /\ Queue.tq_size (tasks sv') = 0.
Proof using.
  intros H. unfold server_cleanup.
  destruct (cleanup_loop_inv k (Z.to_nat MAX_CLIENTS) 0 sv H) as (sv1 & -> & H1); [unfold MAX_CLIENTS; lia|].
  cbn [mbind outcome_bind]. destruct (s_tasks _ _ _ H1) as [ls [Hc Hn _ _ _]]. apply NoDup_app in Hn as (Hn & _ & _).
  unfold Queue.task_queue_destroy.
  destruct (Queue.destroy_loop_chain ls (size (task_mem sv1)) _ _ Hc Hn (chain_size _ _ _ Hc Hn)) as (h & -> & _).
  cbn [mbind outcome_bind deref]. by eexists _, _.
Qed.

Lemma cleanup_step_ok g : g_ok g -> g_intact g -> stepped g (gw_step sscanf2 sscanf1 m f Cleanup g).
Proof using.
  intros Hg Hi. cbn [gw_step]. destruct (_ && _)%bool eqn:Eb; [|by eexists].
  apply andb_prop in Eb as [Eb Hall]. apply andb_prop in Eb as [Eb Hsg]. apply andb_prop in Eb as [Eb Hmn].
  apply andb_prop in Eb as [Er _]. apply negb_true_iff in Hsg, Hmn.
  pose proof (o_base _ Hg Er) as Hb. destruct (cleanup_defined _ _ (base_inv _ _ Hb Hi)) as (r & sv' & -> & Hz).
  cbn [mbind outcome_bind]. eexists. split; [reflexivity|]. intros g' [= <-]. split.
  - split; cbn [g_main g_sig g_run g_sv g_workers]; try done. intros _. split_and!; [done..|].
    apply Forall_forall. intros pc Hpc. apply list_elem_of_In in Hpc. eapply forallb_forall in Hall; [|exact Hpc]. by destruct pc.
  - intros _. split; [done|]. unfold steps_left. cbn [g_main g_sig g_run g_sv g_workers]. rewrite Hz, Er, Hsg, Hmn.
    destruct (b_tasks _ _ Hb) as [ls Hok]. pose proof (t_size _ _ _ _ Hok). cbn [Z.b2z]. lia.
Qed.

Lemma gw_step_ok g ev :
  g_ok g -> g_intact g -> possible g ev -> stepped g (gw_step sscanf2 sscanf1 m f ev g).
Proof using Hm.
  intros Hg Hi Hp. destruct ev as [w now|i x now1 now2| |].
  - by apply main_step_ok.
  - cbn [gw_step]. destruct (g_workers g !! i) as [[|l|]|] eqn:Hw.
    + by apply worker_pop_ok.
    + by eapply worker_run_ok.
    + unfold worker_step. rewrite Hw. by eexists.
    + unfold worker_step. rewrite Hw. by eexists.
  - by apply signal_step_ok.
  - by apply cleanup_step_ok.
Qed.

(** ** The start *)

(** A slot as [server_init] leaves it. *)
Definition idle (c : client) : Prop := alive c = false /\ c_head c = None /\ c_tail c = None /\ buf_ok c.

Lemma idle_zero : idle (client_reset zero_client).
Proof using.
  split_and!; [done..|]. split.
  - cbn [data_receive client_reset zero_client set_fd set_generation set_c_tail set_c_head set_alive
      set_bytes_need_to_send set_rx_len set_stage set_ssl set_tls_handshake_done set_tls_read_pending].
    unfold zlen. rewrite length_replicate. unfold RX_BUF_CAP. lia.
  - apply Forall_replicate. unfold is_byte, in_u. lia.
Qed.

Lemma idle_rate now c : idle c -> idle (init_rate now c).
Proof using. intros H. unfold init_rate. by destruct (snd _). Qed.

Lemma idle_table cs : (forall i c, cs !! i = Some c -> idle c) -> table_ok cs /\ tx_good ∅ cs.
Proof using.
  intros H. split; [split|split; [split|]].
  - intros i c Hc Ha. destruct (H i c Hc). congruence.
  - intros i j c d Hc _ Ha. destruct (H i c Hc). congruence.
  - intros i c Hc. destruct (H i c Hc) as (_ & Hh & Ht & _). by apply tx_empty.
  - intros i j c d l Hc _ Hl. destruct (H i c Hc) as (_ & Hh & Ht & _).
    rewrite (proj1 (proj2 (tx_empty ∅ c Hh Ht))) in Hl. by apply not_elem_of_nil in Hl.
  - intros i c Hc. destruct (H i c Hc) as (_ & Hh & Ht & _). by rewrite (proj2 (proj2 (tx_empty ∅ c Hh Ht))).
Qed.

Lemma init_state_ok cs e :
  zlen cs = MAX_CLIENTS -> (forall i c, cs !! i = Some c -> idle c) ->
  g_ok (gw_init (set_sv_epoll e (Server cs (Queue.TaskQueue None None 0 TASK_QUEUE_MAX false)
    (Queue.ResponseQueue None None 0 TASK_QUEUE_MAX) false 0 ∅ ∅ ∅ ∅))).
Proof using.
  intros Hl Hidle. destruct (idle_table cs Hidle) as [Ht Hg]. split; cbn [gw_init g_main g_sig g_run g_sv g_workers]; try done.
  intros _. split; cbn [clients txs tasks task_mem set_sv_epoll]; try done.
  - intros i c Hc. destruct (Hidle i c Hc) as (Ha & _ & _ & Hb). split; [done|congruence].
  - exists []. split_and!; [apply linked_queue_nil|done|by vm_compute].
  - exists []. by split; cbn; [|constructor..| |].
Qed.

Lemma init_ok_gw env sv : server_init env = Ret (0, sv) -> g_ok (gw_init sv).
Proof using.
  unfold server_init, clients_init. change (MAX_CLIENTS <? 1) with false. cbv iota.
  assert (zlen (replicate (Z.to_nat MAX_CLIENTS) zero_client) = MAX_CLIENTS) as Hz
    by (unfold zlen; rewrite length_replicate; unfold MAX_CLIENTS; lia).
  rewrite Hz, Z.ltb_irrefl. cbn [mbind outcome_bind deref].
  rewrite take_ge by (rewrite length_replicate; lia). rewrite drop_ge by (rewrite length_replicate; lia).
  rewrite app_nil_r, fmap_replicate. change (0 <? 0) with false. cbv iota.
  set (cs := imap _ _). assert (zlen cs = MAX_CLIENTS) as Hl.
  { unfold zlen, cs. rewrite length_imap, length_replicate. unfold MAX_CLIENTS. lia. }
  assert (forall i c, cs !! i = Some c -> idle c) as Hidle.
  { intros i c Hc. unfold cs in Hc. rewrite list_lookup_imap in Hc. apply fmap_Some in Hc as (c0 & Hc0 & ->).
    apply lookup_replicate in Hc0 as [-> _]. apply idle_rate, idle_zero. }
  unfold Queue.task_queue_init, Queue.response_queue_init.
  change (TASK_QUEUE_MAX =? 0) with false. change (TASK_QUEUE_MAX <=? 0) with false.
  cbn [deref mbind outcome_bind]. destruct (_ || _)%bool; [done|]. destruct (ie_ctx env); [|done].
  destruct (epoll_add _ EPOLLIN (ie_listen env)) as [r1 e1]. destruct (r1 <? 0); [done|].
  destruct (epoll_add e1 EPOLLIN (ie_broadcast env)) as [r2 e2]. destruct (r2 <? 0); [done|].
  destruct (epoll_add e2 EPOLLIN (ie_event env)) as [r3 e3]. intros [= _ <-]. by apply init_state_ok.
Qed.

(** ** The states the gateway can reach *)

(** From a successful initialisation, by possible events, as long as the task queue is
    intact. *)
Inductive reaches : gateway -> Prop :=
| reach_init env sv : server_init env = Ret (0, sv) -> reaches (gw_init sv)
| reach_step g ev g' : reaches g -> g_intact g -> possible g ev ->
    gw_step sscanf2 sscanf1 m f ev g = Ret (Some g') -> reaches g'.

Lemma gw_reaches_ok g : reaches g -> g_ok g.
Proof using Hm.
  intros H. induction H as [env sv E|g ev g' _ Hg Hi Hp E]; [by eapply init_ok_gw|].
  destruct (gw_step_ok g ev Hg Hi Hp) as (r & E' & H'). rewrite E in E'. injection E' as <-. by apply H'.
Qed.

(** A step that is defined and not blocked. *)
Definition enabled (g : gateway) (ev : gw_event) : Prop :=
  possible g ev /\ exists g', gw_step sscanf2 sscanf1 m f ev g = Ret (Some g').

Lemma main_enabled g : g_ok g -> g_intact g -> g_main g = true -> enabled g (Main (WaitEvents []) 0).
Proof using Hm.
  intros Hg Hi Hmn. assert (possible g (Main (WaitEvents []) 0)) as Hp by done. split; [done|].
  destruct (gw_step_ok g _ Hg Hi Hp) as (r & E & _). cbn [gw_step] in E |- *. rewrite Hmn in E |- *. cbn [negb] in E |- *.
  destruct (main_round m f (WaitEvents []) 0 (g_sv g)) as [[on sv']|]; [by eexists|done].
Qed.

Lemma worker_enabled g i :
  g_ok g -> g_intact g -> g_run g = true -> g_sig g = false -> (i < length (g_workers g))%nat ->
  g_workers g !! i <> Some WDone -> exists ev, enabled g ev.
Proof using Hm.
  intros Hg Hi Hr Hs Hlt Hne. destruct (lookup_lt_is_Some_2 _ _ Hlt) as [[|l|] Hw]; [| |done].
  - exists (GwMain.Worker i sample_env 0 0). assert (possible g (GwMain.Worker i sample_env 0 0)) as Hp.
    { split; [by vm_compute|]. intros l t Hl. congruence. }
    split; [done|]. destruct (o_stop _ Hg Hr Hs) as [_ Hsd]. destruct (b_tasks _ _ (o_base _ Hg Hr)) as [ls Hok].
    cbn [gw_step]. unfold worker_step. rewrite Hw.
    destruct (tasks_pop _ _ _ ls Hok Hi) as [[_ ->]|(l & q & tm & ls' & -> & _)]; cbn [mbind outcome_bind deref];
      [rewrite Hsd|]; by eexists.
  - destruct (b_tasks _ _ (o_base _ Hg Hr)) as [ls Hok]. assert (wf_at (task_mem (g_sv g)) l) as (t & Ht & _).
    { apply (proj1 (Forall_forall _ _) (t_wf _ _ _ _ Hok)). apply elem_of_app. right.
      rewrite (held_drop _ _ _ Hw). by left. }
    exists (GwMain.Worker i sample_env (Queue.t_timeout_ms t + 1) 0).
    assert (possible g (GwMain.Worker i sample_env (Queue.t_timeout_ms t + 1) 0)) as Hp.
    { split; [by vm_compute|]. intros l' t' Hl' Ht' Hle. rewrite Hw in Hl'. injection Hl' as <-.
      rewrite Ht in Ht'. injection Ht' as <-. lia. }
    split; [done|]. destruct (gw_step_ok g _ Hg Hi Hp) as (r & E & _). cbn [gw_step] in E |- *.
    unfold worker_step in E |- *. rewrite Hw in E |- *.
    destruct (run_task _ _ _ _ _ _ _ _) as [[sv' out]|]; [by eexists|done].
Qed.

Lemma cleanup_enabled g :
  g_ok g -> g_intact g -> g_run g = true -> g_sig g = false -> g_main g = false ->
  (forall i, (i < length (g_workers g))%nat -> g_workers g !! i = Some WDone) -> enabled g Cleanup.
Proof using Hm.
  intros Hg Hi Hr Hs Hmn Hall. split; [done|]. destruct (gw_step_ok g Cleanup Hg Hi I) as (r & E & _).
  cbn [gw_step] in E |- *. destruct (o_stop _ Hg Hr Hs) as [Hsh _]. rewrite Hr, Hsh, Hmn, Hs in *. cbn [andb negb] in *.
  assert (forallb returned (g_workers g) = true) as Hret.
  { apply forallb_forall. intros pc Hpc%list_elem_of_In. apply list_elem_of_lookup in Hpc as [i Hpc].
    rewrite (Hall i (lookup_lt_Some _ _ _ Hpc)) in Hpc. by injection Hpc as <-. }
  rewrite Hret in *. destruct (server_cleanup (g_sv g)) as [[r' sv']|]; [by eexists|done].
Qed.

Lemma steps_left_nonneg g : g_ok g -> g_run g = true -> 0 <= steps_left g.
Proof using.
  intros Hg Hr. destruct (b_tasks _ _ (o_base _ Hg Hr)) as [ls Hok]. pose proof (t_size _ _ _ _ Hok).
  assert (0 <= sum_of weight (g_workers g)) by (apply sum_of_nonneg; intros []; cbn; lia).
  unfold steps_left. destruct (g_main g), (g_sig g), (g_run g); cbn [Z.b2z]; lia.
Qed.

Lemma progress g :
  g_ok g -> g_intact g -> g_sig g = false -> g_run g = false \/ exists ev, enabled g ev.
Proof using Hm.
  intros Hg Hi Hs. destruct (g_run g) eqn:Hr; [right|by left].
  destruct (g_main g) eqn:Hmn; [eexists; by apply main_enabled|].
  destruct (decide (Exists (fun pc => pc <> WDone) (g_workers g))) as [Hex|Hall].
  - apply Exists_exists in Hex as (pc & Hpc & Hne). apply list_elem_of_lookup in Hpc as [i Hpc].
    apply (worker_enabled g i Hg Hi Hr Hs); [by eapply lookup_lt_Some|congruence].
  - exists Cleanup. apply cleanup_enabled; [done..|]. intros i Hlt. destruct (lookup_lt_is_Some_2 _ _ Hlt) as [pc Hpc].
    rewrite Hpc. destruct (decide (pc = WDone)) as [->|Hne]; [done|]. destruct Hall. apply Exists_exists.
    exists pc. split; [|done]. by eapply list_elem_of_lookup_2.
Qed.

End Run.

(** ** Properties *)


(** C33: SIGTERM ends the gateway.  In every reachable state after the signal, as long as
    the task queue is intact, [server_run] has returned or some thread can step,
    and every step of any thread brings the end closer: the main thread leaves
    its loop after the round it is in, the workers run the queue empty and return,
    and then everything is cleaned up. *)
Theorem gateway_shuts_down sscanf2 sscanf1 m f g :
  allocator_ok m -> reaches sscanf2 sscanf1 m f g -> g_intact g -> g_sig g = false ->
  (g_run g = false \/ exists ev, enabled sscanf2 sscanf1 m f g ev) /\
  (g_run g = true -> 0 <= steps_left g) /\
  (forall ev g', possible m f g ev -> gw_step sscanf2 sscanf1 m f ev g = Ret (Some g') ->
     g_sig g' = false /\ steps_left g' < steps_left g).
Proof.
  intros Hm Hr Hi Hs. pose proof (gw_reaches_ok sscanf2 sscanf1 m f Hm g Hr) as Hg. split; [by apply progress|].
  split; [by apply steps_left_nonneg|].
  intros ev g' Hp E. destruct (gw_step_ok sscanf2 sscanf1 m f Hm g ev Hg Hi Hp) as (r & E' & H').
  rewrite E in E'. injection E' as <-. by apply (H' g').
Qed.

(** *** Concrete runs *)

Definition start_env : init_env := InitEnv 3 4 5 6 (Some 1) (fun _ => 0).

(** The gateway as it starts: no session, no task. *)
Definition fresh_start (sv : server) : bool :=
  forallb (fun c => negb (alive c)) (clients sv) &&
  bool_decide (Queue.tq_head (tasks sv) = None /\ Queue.tq_tail (tasks sv) = None /\ Queue.tq_size (tasks sv) = 0).

Lemma starts : exists sv, server_init start_env = Ret (0, sv) /\ fresh_start sv = true.
Proof.
  assert (match server_init start_env with Ret (r, sv) => (r =? 0) && fresh_start sv | Undef => false end = true) as H
    by (vm_compute; reflexivity).
  destruct (server_init start_env) as [[r sv]|]; [|done]. apply andb_prop in H as [H1 H2].
  apply Z.eqb_eq in H1 as ->. by exists sv.
Qed.

Lemma fresh_intact sv : fresh_start sv = true -> g_intact (gw_init sv).
Proof.
  intros [_ H]%andb_prop. apply bool_decide_eq_true in H as (Hh & Ht & Hs). split; cbn [g_sv gw_init].
  - intros l. by rewrite Ht.
  - lia.
Qed.

(** A connection on the listening socket. *)
Definition connection : io :=
  Io 3 1 (AcceptEnv (inl (7, 1)) 0 0 (Some 1) 1 HsDone) (RxFail 11) (fun _ => 0) [] false [] HsDone 0 0 0 0 [] HsDone 0.

Lemma connection_possible sv :
  fresh_start sv = true -> possible sample_allocator (Fds 3 4 5) (gw_init sv) (Main (WaitEvents [connection]) 0).
Proof.
  intros [H _]%andb_prop. split; [|done]. split_and!; [|done|constructor]. intros _. split; [lia|].
  intros j (c & Hc & Ha & _). cbn in Hc. eapply forallb_forall in H; [|eapply list_elem_of_In, list_elem_of_lookup_2, Hc].
  by rewrite Ha in H.
Qed.


Lemma gateway_shuts_down_witness :
  exists sv g, server_init start_env = Ret (0, sv) /\
    gw_step no_scan2 no_scan1 sample_allocator (Fds 3 4 5) Signal (gw_init sv) = Ret (Some g) /\
    (g_run g = false \/ exists ev, enabled no_scan2 no_scan1 sample_allocator (Fds 3 4 5) g ev).
Proof.
  destruct starts as (sv & E & H).
  exists sv, (Gateway (server_shutdown sv).2 true false (g_workers (gw_init sv)) true).
  split; [exact E|]. split; [reflexivity|].
  apply (gateway_shuts_down no_scan2 no_scan1 sample_allocator (Fds 3 4 5)); [exact sample_allocator_ok| | |reflexivity].
  - eapply (reach_step _ _ _ _ (gw_init sv) Signal);
      [exact (reach_init _ _ _ _ start_env sv E)|exact (fresh_intact sv H)|exact I|reflexivity].
  - exact (fresh_intact sv H).
Defined.

End GwMainRun.
