(* ===== verification/Pipeline.v ===== *)
(** * The IPC command pipeline (ipc-cmd-pipeline)

    Three processes connected by FIFOs: the controller numbers commands, sends
    them and waits for acknowledgements (controller/controller.c); the worker
    acknowledges and executes them (worker/worker.c) and reports to the logger
    (logger/logger.c); main.c creates the FIFOs.  The threads of the controller
    and of the worker are transition systems whose steps are the sections under
    a mutex and the system calls; the answers of the system calls are part of
    the event.  Packets and acknowledgements are shorter than PIPE_BUF and all
    of one size, so the FIFOs between the threads carry them whole. *)
From S2P Require Import Prelude.
Open Scope c_scope.

Module Pipeline.

Definition RESEND_NUM : Z := 3.

Inductive command := PING | GET_DATA | SEND_CMD | CHECK_SEC | CHECK_STATUS | NONE.

#[export] Instance command_eq_dec : EqDecision command.
Proof. solve_decision. Defined.

Record packet := Packet { num_pkt : Z; cmd : command; pri_data : list Z }.

#[export] Instance packet_eq_dec : EqDecision packet.
Proof. solve_decision. Defined.

(** [r] is what [rand] returns. *)
Definition cmd_rand (r : Z) : command :=
  match Z.rem r 4 with 0 => PING | 1 => GET_DATA | 2 => SEND_CMD | 3 => CHECK_SEC | 4 => CHECK_STATUS | _ => NONE end.

Definition cmd_text (a : command) : list Z :=
  match a with
  | PING => bstr "CMD 0: PING"
  | GET_DATA => bstr "CMD 2: GET_DATA"
  | SEND_CMD => bstr "CMD 0: SEND_CMD"
  | CHECK_SEC => bstr "CMD 0: CHECK_SEC"
  | CHECK_STATUS => bstr "CMD 0: CHECK_STATUS"
  | NONE => bstr "CMD UNDEFINED"
  end.

(** [strcpy] into the array of the packet, whose content is unspecified. *)
Definition convert_to_packet (a : command) (pkt : packet) : outcome packet :=
  pri ← write_at (pri_data pkt) 0 (cmd_text a ++ [0]);
  Ret (Packet (num_pkt pkt) a pri).

(** ** The threads *)

(** The command thread of the controller: before its loop, at its head, about to
    write a packet that was written [k] times, waiting for an acknowledgement, at
    the end of the round, returned. *)
Inductive sender_pc :=
| SStart | SLoop | STry (pkt : packet) (k : Z) | SWait (pkt : packet) (k : Z) | SNext | SDone.

(** The thread that reads acknowledgements. *)
Inductive acker_pc := ARead | ADone.

(** The receiving thread of the worker: reading, about to acknowledge, about to
    hand the packet over, about to signal, returned. *)
Inductive receiver_pc := RRead | RAck (pkt : packet) | RStore (pkt : packet) | RSignal | RDone.

(** The executing thread of the worker. *)
Inductive worker_pc := WStart | WLoop | WWait | WExec (pkt : packet) | WDone.

(** The shared structures of both processes, the FIFOs, the threads, and the logs
    of packets written, received, confirmed and executed. *)
Record pipeline := Pipeline {
  last_send : Z; ack_send : Z; ack_received : bool;
  ctl_running : bool; sender : sender_pc; acker : acker_pc;
  cmd_fifo : list packet; ack_fifo : list Z; wrk_running : bool;
  has_new_data : bool; data : packet; receiver : receiver_pc;
  worker : worker_pc; log_fifo : list Z; logging : bool;
  printed : list (list Z); l_sent : list packet; l_received : list packet;
  l_confirmed : list packet; l_executed : list packet }.
Definition set_last_send (v : Z) (x : pipeline) : pipeline :=
  Pipeline v (ack_send x) (ack_received x) (ctl_running x) (sender x) (acker x) (cmd_fifo x)
    (ack_fifo x) (wrk_running x) (has_new_data x) (data x) (receiver x) (worker x) (log_fifo
    x) (logging x) (printed x) (l_sent x) (l_received x) (l_confirmed x) (l_executed x).
Definition set_ack_send (v : Z) (x : pipeline) : pipeline :=
  Pipeline (last_send x) v (ack_received x) (ctl_running x) (sender x) (acker x) (cmd_fifo
    x) (ack_fifo x) (wrk_running x) (has_new_data x) (data x) (receiver x) (worker x)
    (log_fifo x) (logging x) (printed x) (l_sent x) (l_received x) (l_confirmed x)
    (l_executed x).
Definition set_ack_received (v : bool) (x : pipeline) : pipeline :=
  Pipeline (last_send x) (ack_send x) v (ctl_running x) (sender x) (acker x) (cmd_fifo x)
    (ack_fifo x) (wrk_running x) (has_new_data x) (data x) (receiver x) (worker x) (log_fifo
    x) (logging x) (printed x) (l_sent x) (l_received x) (l_confirmed x) (l_executed x).
Definition set_ctl_running (v : bool) (x : pipeline) : pipeline :=
  Pipeline (last_send x) (ack_send x) (ack_received x) v (sender x) (acker x) (cmd_fifo x)
    (ack_fifo x) (wrk_running x) (has_new_data x) (data x) (receiver x) (worker x) (log_fifo
    x) (logging x) (printed x) (l_sent x) (l_received x) (l_confirmed x) (l_executed x).
Definition set_sender (v : sender_pc) (x : pipeline) : pipeline :=
  Pipeline (last_send x) (ack_send x) (ack_received x) (ctl_running x) v (acker x) (cmd_fifo
    x) (ack_fifo x) (wrk_running x) (has_new_data x) (data x) (receiver x) (worker x)
    (log_fifo x) (logging x) (printed x) (l_sent x) (l_received x) (l_confirmed x)
    (l_executed x).
Definition set_acker (v : acker_pc) (x : pipeline) : pipeline :=
  Pipeline (last_send x) (ack_send x) (ack_received x) (ctl_running x) (sender x) v
    (cmd_fifo x) (ack_fifo x) (wrk_running x) (has_new_data x) (data x) (receiver x) (worker
    x) (log_fifo x) (logging x) (printed x) (l_sent x) (l_received x) (l_confirmed x)
    (l_executed x).
Definition set_cmd_fifo (v : list packet) (x : pipeline) : pipeline :=
  Pipeline (last_send x) (ack_send x) (ack_received x) (ctl_running x) (sender x) (acker x)
    v (ack_fifo x) (wrk_running x) (has_new_data x) (data x) (receiver x) (worker x)
    (log_fifo x) (logging x) (printed x) (l_sent x) (l_received x) (l_confirmed x)
    (l_executed x).
Definition set_ack_fifo (v : list Z) (x : pipeline) : pipeline :=
  Pipeline (last_send x) (ack_send x) (ack_received x) (ctl_running x) (sender x) (acker x)
    (cmd_fifo x) v (wrk_running x) (has_new_data x) (data x) (receiver x) (worker x)
    (log_fifo x) (logging x) (printed x) (l_sent x) (l_received x) (l_confirmed x)
    (l_executed x).
Definition set_wrk_running (v : bool) (x : pipeline) : pipeline :=
  Pipeline (last_send x) (ack_send x) (ack_received x) (ctl_running x) (sender x) (acker x)
    (cmd_fifo x) (ack_fifo x) v (has_new_data x) (data x) (receiver x) (worker x) (log_fifo
    x) (logging x) (printed x) (l_sent x) (l_received x) (l_confirmed x) (l_executed x).
Definition set_has_new_data (v : bool) (x : pipeline) : pipeline :=
  Pipeline (last_send x) (ack_send x) (ack_received x) (ctl_running x) (sender x) (acker x)
    (cmd_fifo x) (ack_fifo x) (wrk_running x) v (data x) (receiver x) (worker x) (log_fifo
    x) (logging x) (printed x) (l_sent x) (l_received x) (l_confirmed x) (l_executed x).
Definition set_data (v : packet) (x : pipeline) : pipeline :=
  Pipeline (last_send x) (ack_send x) (ack_received x) (ctl_running x) (sender x) (acker x)
    (cmd_fifo x) (ack_fifo x) (wrk_running x) (has_new_data x) v (receiver x) (worker x)
    (log_fifo x) (logging x) (printed x) (l_sent x) (l_received x) (l_confirmed x)
    (l_executed x).
Definition set_receiver (v : receiver_pc) (x : pipeline) : pipeline :=
  Pipeline (last_send x) (ack_send x) (ack_received x) (ctl_running x) (sender x) (acker x)
    (cmd_fifo x) (ack_fifo x) (wrk_running x) (has_new_data x) (data x) v (worker x)
    (log_fifo x) (logging x) (printed x) (l_sent x) (l_received x) (l_confirmed x)
    (l_executed x).
Definition set_worker (v : worker_pc) (x : pipeline) : pipeline :=
  Pipeline (last_send x) (ack_send x) (ack_received x) (ctl_running x) (sender x) (acker x)
    (cmd_fifo x) (ack_fifo x) (wrk_running x) (has_new_data x) (data x) (receiver x) v
    (log_fifo x) (logging x) (printed x) (l_sent x) (l_received x) (l_confirmed x)
    (l_executed x).
Definition set_log_fifo (v : list Z) (x : pipeline) : pipeline :=
  Pipeline (last_send x) (ack_send x) (ack_received x) (ctl_running x) (sender x) (acker x)
    (cmd_fifo x) (ack_fifo x) (wrk_running x) (has_new_data x) (data x) (receiver x) (worker
    x) v (logging x) (printed x) (l_sent x) (l_received x) (l_confirmed x) (l_executed x).
Definition set_logging (v : bool) (x : pipeline) : pipeline :=
  Pipeline (last_send x) (ack_send x) (ack_received x) (ctl_running x) (sender x) (acker x)
    (cmd_fifo x) (ack_fifo x) (wrk_running x) (has_new_data x) (data x) (receiver x) (worker
    x) (log_fifo x) v (printed x) (l_sent x) (l_received x) (l_confirmed x) (l_executed x).
Definition set_printed (v : list (list Z)) (x : pipeline) : pipeline :=
  Pipeline (last_send x) (ack_send x) (ack_received x) (ctl_running x) (sender x) (acker x)
    (cmd_fifo x) (ack_fifo x) (wrk_running x) (has_new_data x) (data x) (receiver x) (worker
    x) (log_fifo x) (logging x) v (l_sent x) (l_received x) (l_confirmed x) (l_executed x).
Definition set_l_sent (v : list packet) (x : pipeline) : pipeline :=
  Pipeline (last_send x) (ack_send x) (ack_received x) (ctl_running x) (sender x) (acker x)
    (cmd_fifo x) (ack_fifo x) (wrk_running x) (has_new_data x) (data x) (receiver x) (worker
    x) (log_fifo x) (logging x) (printed x) v (l_received x) (l_confirmed x) (l_executed x).
Definition set_l_received (v : list packet) (x : pipeline) : pipeline :=
  Pipeline (last_send x) (ack_send x) (ack_received x) (ctl_running x) (sender x) (acker x)
    (cmd_fifo x) (ack_fifo x) (wrk_running x) (has_new_data x) (data x) (receiver x) (worker
    x) (log_fifo x) (logging x) (printed x) (l_sent x) v (l_confirmed x) (l_executed x).
Definition set_l_confirmed (v : list packet) (x : pipeline) : pipeline :=
  Pipeline (last_send x) (ack_send x) (ack_received x) (ctl_running x) (sender x) (acker x)
    (cmd_fifo x) (ack_fifo x) (wrk_running x) (has_new_data x) (data x) (receiver x) (worker
    x) (log_fifo x) (logging x) (printed x) (l_sent x) (l_received x) v (l_executed x).
Definition set_l_executed (v : list packet) (x : pipeline) : pipeline :=
  Pipeline (last_send x) (ack_send x) (ack_received x) (ctl_running x) (sender x) (acker x)
    (cmd_fifo x) (ack_fifo x) (wrk_running x) (has_new_data x) (data x) (receiver x) (worker
    x) (log_fifo x) (logging x) (printed x) (l_sent x) (l_received x) (l_confirmed x) v.

(** The answer of [read]: what is there, an error, the end. *)
Inductive read_answer := Got | Interrupted | Failed | Ended.

(** [send_cmd]: [r] and [junk] are what
    [rand] and the local packet hold, [ok] whether [write] succeeds.  A wait that
    times out returns to the loop around it, as its result is not looked at. *)
Definition sender_step (r : Z) (junk : packet) (ok : bool) (s : pipeline) : outcome (option pipeline) :=
  match sender s with
  | SStart => Ret (Some (set_sender (if ctl_running s then SLoop else SDone) s))
  | SLoop =>
      pkt ← convert_to_packet (cmd_rand r) junk;
      let n := last_send s + 1 in
      if negb (i32 n =? n) then Undef
      else
        Ret (Some (set_sender (STry (Packet n (cmd pkt) (pri_data pkt)) 0) (set_last_send n s)))
  | STry pkt k =>
      if k <? RESEND_NUM then
        let s := if ok then set_cmd_fifo (cmd_fifo s ++ [pkt]) (set_l_sent (l_sent s ++ [pkt]) s) else s in
        Ret (Some (set_sender (SWait pkt (k + 1)) s))
      else Ret (Some (set_sender SNext s))
  | SWait pkt k =>
      if (negb (ack_received s) && ctl_running s)%bool then Ret (Some s)
      else if negb (last_send s =? ack_send s) then
        Ret (Some (set_sender (STry pkt k) (set_ack_received false s)))
      else
        Ret (Some (set_sender SNext (set_l_confirmed (l_confirmed s ++ [pkt]) (set_ack_received false s))))
  | SNext => Ret (Some (set_sender (if ctl_running s then SLoop else SDone) s))
  | SDone => Ret None
  end.

(** [recv_ack_thread].  At the end of the FIFO it clears the flag and reads on. *)
Definition acker_step (a : read_answer) (s : pipeline) : option pipeline :=
  match acker s with
  | ADone => None
  | ARead =>
      match a with
      | Interrupted => Some s
      | Failed => Some (set_acker ADone (set_ctl_running false s))
      | Ended => Some (set_ctl_running false s)
      | Got =>
          match ack_fifo s with
          | [] => None
          | n :: acks => Some (set_ack_received true (set_ack_send n (set_ack_fifo acks s)))
          end
      end
  end.

(** [pthread_cond_signal] on [has_data]. *)
Definition wake (p : worker_pc) : worker_pc := match p with WWait => WLoop | _ => p end.

(** [recv_data_thread]; [ok] is whether the acknowledgement can be written. *)
Definition receiver_step (a : read_answer) (ok : bool) (s : pipeline) : option pipeline :=
  match receiver s with
  | RRead =>
      match a with
      | Interrupted => Some s
      | Failed | Ended => Some (set_worker (wake (worker s)) (set_receiver RDone (set_wrk_running false s)))
      | Got =>
          match cmd_fifo s with
          | [] => None
          | pkt :: pkts =>
              Some (set_receiver (RAck pkt) (set_l_received (l_received s ++ [pkt]) (set_cmd_fifo pkts s)))
          end
      end
  | RAck pkt =>
      if ok then Some (set_receiver (RStore pkt) (set_ack_fifo (ack_fifo s ++ [num_pkt pkt]) s))
      else Some (set_receiver RRead s)
  | RStore pkt => Some (set_receiver RSignal (set_has_new_data true (set_data pkt s)))
  | RSignal => Some (set_receiver RRead (set_worker (wake (worker s)) s))
  | RDone => None
  end.

(** The tasks [ping_task] to [check_status_task] all write the text of the
    packet; [written] is the result of [write]. *)
Definition task (written : Z) (pkt : packet) : list Z :=
  if bool_decide (cmd pkt = NONE) then [] else take (Z.to_nat written) (pri_data pkt).

(** [worker_thread] *)
Definition worker_step (written : Z) (s : pipeline) : option pipeline :=
  match worker s with
  | WStart => Some (set_worker (if wrk_running s then WLoop else WDone) s)
  | WLoop =>
      if (negb (has_new_data s) && wrk_running s)%bool then Some (set_worker WWait s)
      else if (negb (wrk_running s) && negb (has_new_data s))%bool then Some (set_worker WDone s)
      else Some (set_worker (WExec (data s)) (set_has_new_data false s))
  | WExec pkt =>
      Some (set_worker WLoop (set_l_executed (l_executed s ++ [pkt]) (set_log_fifo (log_fifo s ++ task written pkt) s)))
  | WWait | WDone => None
  end.

(** The loop of the logger: at most 29 bytes are read into [buf] and printed as a
    string. *)
Definition logger_step (a : read_answer) (buf : list Z) (s : pipeline) : outcome (option pipeline) :=
  if negb (logging s) then Ret None
  else
    match a with
    | Interrupted | Failed | Ended => Ret (Some (set_logging false s))
    | Got =>
        let bs := take 29 (log_fifo s) in
        if zlen bs =? 0 then Ret None
        else
          buf ← write_at buf 0 bs;
          buf ← write_at buf (zlen bs) [0];
          Ret (Some (set_printed (printed s ++ [c_string buf]) (set_log_fifo (drop 29 (log_fifo s)) s)))
    end.

Inductive event :=
| Send (r : Z) (junk : packet) (ok : bool)
| Ack (a : read_answer)
| Recv (a : read_answer) (ok : bool)
| Work (written : Z)
| Spurious
| Log (a : read_answer) (buf : list Z).

Definition pipe_step (ev : event) (s : pipeline) : outcome (option pipeline) :=
  match ev with
  | Send r junk ok => sender_step r junk ok s
  | Ack a => Ret (acker_step a s)
  | Recv a ok => Ret (receiver_step a ok s)
  | Work written => Ret (worker_step written s)
  | Spurious => Ret (match worker s with WWait => Some (set_worker WLoop s) | _ => None end)
  | Log a buf => logger_step a buf s
  end.

Fixpoint pipe_run (evs : list event) (s : pipeline) : outcome (option pipeline) :=
  match evs with
  | [] => Ret (Some s)
  | ev :: evs =>
      r ← pipe_step ev s;
      match r with Some s => pipe_run evs s | None => Ret None end
  end.

(** The start of the processes.  [ack_send], [ack_received], [has_new_data] and
    [data] are not initialised. *)
Definition pipe_init (acked : Z) (received has_data : bool) (junk : packet) : pipeline :=
  Pipeline 0 acked received true SStart ARead [] [] true has_data junk RRead WStart [] true [] [] [] [] [].

(** ** The FIFOs *)

Inductive fifo_path := PATH_CMD_FIFO | PATH_LOG_FIFO | PATH_CMD_ACK.

#[export] Instance fifo_path_eq_dec : EqDecision fifo_path.
Proof. solve_decision. Defined.

(** The answer of [mkfifo]; [denied] are the paths on which it fails for another
    reason than that they exist. *)
Inductive mkfifo_answer := Created | Exists | Denied.

Definition mkfifo (denied : fifo_path -> bool) (p : fifo_path) (fs : list fifo_path)
    : mkfifo_answer * list fifo_path :=
  if bool_decide (p ∈ fs) then (Exists, fs)
  else if denied p then (Denied, fs) else (Created, p :: fs).

(** Each call returns at once when its FIFO exists or cannot be created. *)
Definition create_fifo (denied : fifo_path -> bool) (fs : list fifo_path) : Z * list fifo_path :=
  match mkfifo denied PATH_CMD_FIFO fs with
  | (Exists, fs) => (0, fs)
  | (Denied, fs) => (-1, fs)
  | (Created, fs) =>
      match mkfifo denied PATH_LOG_FIFO fs with
      | (Exists, fs) => (0, fs)
      | (Denied, fs) => (-1, fs)
      | (Created, fs) =>
          match mkfifo denied PATH_CMD_ACK fs with
          | (Exists, fs) => (0, fs)
          | (Denied, fs) => (-1, fs)
          | (Created, fs) => (0, fs)
          end
      end
  end.

Definition unlink_fifo (fs : list fifo_path) : list fifo_path :=
  filter (fun p => p ∉ [PATH_CMD_FIFO; PATH_LOG_FIFO; PATH_CMD_ACK]) fs.

End Pipeline.
