(* ===== verification/PipelineInv.v ===== *)
(** * The command pipeline: what its acknowledgements are worth

    One invariant for every schedule of the threads of [Pipeline]: commands keep
    their order and content, a confirmed command was received, no command is
    written more often than allowed, and a command handed over finds the executing
    thread awake.  Then what the pipeline does not guarantee: a confirmed command
    may be lost or executed twice, a lost write stops the controller, and the
    logger loses lines. *)
From Stdlib Require Import Sorting.Sorted.
From S2P Require Import Prelude Pipeline.
Import Pipeline.
Open Scope c_scope.

Module PipelineInv.

(** ** Packets *)

Definition packet_ok (p : packet) : Prop :=
  length (pri_data p) = 20%nat /\ c_string (pri_data p) = cmd_text (cmd p) /\ cmd p <> NONE.

Lemma cmd_text_bounds a : (length (cmd_text a) <= 19)%nat /\ nonzero (cmd_text a).
Proof. destruct a; (split; [by apply Nat.leb_le|apply (bool_decide_unpack _); by vm_compute]). Qed.

Lemma cmd_rand_known r : 0 <= r -> cmd_rand r <> NONE.
Proof.
  intros Hr. unfold cmd_rand. pose proof (Z.rem_bound_pos r 4 Hr ltac:(lia)).
  assert (Z.rem r 4 = 0 \/ Z.rem r 4 = 1 \/ Z.rem r 4 = 2 \/ Z.rem r 4 = 3) as Hc by lia.
  by destruct Hc as [-> |[-> |[-> | ->]]].
Qed.

Lemma convert_ok a pkt : length (pri_data pkt) = 20%nat -> a <> NONE ->
  exists p, convert_to_packet a pkt = Ret p /\ packet_ok p /\ cmd p = a.
Proof.
  intros Hl Ha. destruct (cmd_text_bounds a) as [Hlen Hnz]. unfold convert_to_packet.
  change (pri_data pkt) with ([] ++ pri_data pkt).
  rewrite write_at_cursor by (done || (unfold zlen; rewrite length_app; cbn [length]; lia)).
  cbn [mbind outcome_bind app]. eexists. split; [reflexivity|]. split; [|done]. split_and!; cbn [pri_data cmd].
  - rewrite !length_app, length_drop, ?length_app. cbn [length]. lia.
  - rewrite <- app_assoc. by apply c_string_app.
  - done.
Qed.

(** ** The invariant *)

(** How often a number was written. *)
Definition times (n : Z) (l : list packet) : nat := length (filter (fun p => num_pkt p = n) l).

Arguments times _ _ : simpl never.

Definition numbered (n : Z) (l : list packet) : Prop := exists p, p ∈ l /\ num_pkt p = n.

(** The packet the command thread is at, with the number of times it was written. *)
Definition current (p : sender_pc) : option (packet * Z) :=
  match p with STry pkt k | SWait pkt k => Some (pkt, k) | _ => None end.

Definition busy (p : sender_pc) : bool := match p with STry _ _ | SWait _ _ => true | _ => false end.

(** The controller's side: [a0] is the number that [ack_send] held at the start. *)
Record ctl_ok (a0 : Z) (s : pipeline) : Prop := {
  ok_fifo : l_sent s = l_received s ++ cmd_fifo s;
  ok_last : 0 <= last_send s;
  ok_packets : Forall (fun p => packet_ok p /\ 1 <= num_pkt p <= last_send s) (l_sent s);
  ok_order : StronglySorted (fun p q => num_pkt p <= num_pkt q) (l_sent s);
  ok_same : forall p q, p ∈ l_sent s -> q ∈ l_sent s -> num_pkt p = num_pkt q -> p = q;
  ok_current : forall p k, current (sender s) = Some (p, k) ->
    packet_ok p /\ num_pkt p = last_send s /\ 0 < last_send s /\ 0 <= k <= RESEND_NUM /\
    Z.of_nat (times (last_send s) (l_sent s)) <= k /\
    (forall q, q ∈ l_sent s -> num_pkt q = last_send s -> q = p);
  ok_times : forall n, Z.of_nat (times n (l_sent s)) <= RESEND_NUM;
  ok_acks : Forall (fun n => numbered n (l_received s)) (ack_fifo s);
  ok_ack : ack_send s = a0 \/ numbered (ack_send s) (l_received s);
  ok_confirmed : Forall (fun p => p ∈ l_received s) (l_confirmed s);
  ok_once : StronglySorted (fun p q => num_pkt p < num_pkt q) (l_confirmed s);
  ok_earlier : busy (sender s) = true -> Forall (fun p => num_pkt p < last_send s) (l_confirmed s) }.

Definition receiver_hand (p : receiver_pc) : list packet := match p with RAck pkt | RStore pkt => [pkt] | _ => [] end.
Definition worker_hand (p : worker_pc) : list packet := match p with WExec pkt => [pkt] | _ => [] end.

(** The worker's side. *)
Record wrk_ok (s : pipeline) : Prop := {
  ok_executed : l_executed s ++ worker_hand (worker s) ++ (if has_new_data s then [data s] else [])
    ++ receiver_hand (receiver s) `sublist_of` l_received s;
  ok_answered : forall p, receiver s = RAck p -> p ∈ l_received s;
  ok_awake : has_new_data s = true -> worker s <> WWait \/ receiver s = RSignal;
  ok_told : wrk_running s = false -> worker s <> WWait /\ receiver s = RDone;
  ok_done : worker s = WDone -> wrk_running s = false }.

(** Events as they can occur: [rand] is not negative, the local packet and the
    logger's array have their sizes. *)
Definition sane_event (ev : event) : Prop :=
  match ev with
  | Send r junk _ => 0 <= r /\ length (pri_data junk) = 20%nat
  | Log _ buf => length buf = 30%nat
  | _ => True
  end.

#[export] Instance sane_event_dec ev : Decision (sane_event ev).
Proof. destruct ev; unfold sane_event; apply _. Defined.

(** ** Every step *)

Lemma i32_nonneg z : 0 <= z < 2 ^ 31 -> i32 z = z.
Proof. intros Hz. unfold i32. rewrite Z.mod_small by lia. destruct (Z.ltb_spec z (2 ^ 31)); lia. Qed.

Lemma times_app n l l' : times n (l ++ l') = (times n l + times n l')%nat.
Proof. unfold times. by rewrite filter_app, length_app. Qed.

Lemma times_one n p : times n [p] = if bool_decide (num_pkt p = n) then 1%nat else 0%nat.
Proof. unfold times. rewrite filter_cons, filter_nil. repeat case_decide; repeat case_bool_decide; done. Qed.

Lemma times_above n l m : Forall (fun p => packet_ok p /\ 1 <= num_pkt p <= m) l -> m < n -> times n l = 0%nat.
Proof.
  intros Hl Hn. unfold times. induction Hl as [|p l (_ & Hp) _ IH]; [done|]. rewrite filter_cons, decide_False by lia. done.
Qed.

Lemma sorted_snoc (R : packet -> packet -> Prop) l p : StronglySorted R l -> Forall (fun q => R q p) l -> StronglySorted R (l ++ [p]).
Proof.
  induction 1 as [|q l Hs IH Hq]; intros Hf; cbn; [by repeat constructor|].
  inversion_clear Hf as [|? ? Hqp Hf']. constructor; [by apply IH|]. apply Forall_app. by split; [|repeat constructor].
Qed.

Lemma numbered_app n l l' : numbered n l -> numbered n (l ++ l').
Proof. intros (p & Hp & E). exists p. split; [apply elem_of_app; by left|done]. Qed.

Lemma send_ok a0 r junk ok s : 0 <= r -> length (pri_data junk) = 20%nat -> last_send s < 2 ^ 31 - 1 -> a0 <= 0 ->
  ctl_ok a0 s -> wrk_ok s ->
  exists res, sender_step r junk ok s = Ret res /\
    forall s', res = Some s' -> ctl_ok a0 s' /\ wrk_ok s' /\ last_send s <= last_send s' <= last_send s + 1.
Proof.
  intros Hr Hj Hn Ha [Hf Hl Hp Ho Hsame Hcur Ht Hacks Hack Hconf Honce Hearly] [Hex Hans Haw Htold Hdone]. unfold sender_step.
  assert (forall p, p ∈ l_received s -> p ∈ l_sent s) as Hsub by (intros p Hin; rewrite Hf; apply elem_of_app; by left).
  pose proof Hp as Hin. rewrite Forall_forall in Hin.
  destruct (sender s) as [| |p k|p k| |] eqn:Es; cbn [current busy] in *.
  - eexists. split; [reflexivity|]. intros s' [= <-]. split; [|split; [by split|cbn; lia]].
    destruct (ctl_running s); by split.
  - destruct (convert_ok (cmd_rand r) junk Hj (cmd_rand_known r Hr)) as (p & -> & Hpk & _). cbn [mbind outcome_bind].
    assert (i32 (last_send s + 1) = last_send s + 1) as -> by (apply i32_nonneg; lia).
    rewrite Z.eqb_refl. cbn [negb]. eexists. split; [reflexivity|]. intros s' [= <-].
    split; [|split; [by split|cbn; lia]]. split; cbn; try done; [lia|..].
    + apply Forall_forall. intros q Hq. destruct (Hin q Hq). split; [done|lia].
    + intros q k [= <- <-]. split_and!; try done; try lia.
      * rewrite (times_above _ _ (last_send s)); [done|done|lia].
      * intros q Hq E. destruct (Hin q Hq). lia.
    + intros _. eapply Forall_impl; [exact Hconf|]. intros q Hq. destruct (Hin q (Hsub q Hq)). lia.
  - destruct (Hcur p k eq_refl) as (Hpk & Hnum & Hpos & Hk & Hkt & Honly).
    destruct (Z.ltb_spec k RESEND_NUM).
    2: { eexists. split; [reflexivity|]. intros s' [= <-]. split; [|split; [by split|cbn; lia]].
         by split. }
    eexists. split; [reflexivity|]. intros s' [= <-]. destruct ok.
    2: { split; [|split; [by split|cbn; lia]]. split; cbn; try done.
         intros q j [= <- <-]. split_and!; try done; lia. }
    split; [|split; [by split|cbn; lia]]. split; cbn; try done.
    + by rewrite Hf, app_assoc.
    + apply Forall_app. split; [done|]. constructor; [|constructor]. split; [done|lia].
    + apply sorted_snoc; [done|]. apply Forall_forall. intros q Hq. destruct (Hin q Hq). lia.
    + intros q q' Hq Hq' E. apply elem_of_app in Hq, Hq'. rewrite !list_elem_of_singleton in Hq, Hq'.
      destruct Hq as [Hq| ->], Hq' as [Hq'| ->]; [by apply Hsame|apply Honly; [done|congruence]
        |symmetry; apply Honly; [done|congruence]|done].
    + intros q j [= <- <-]. split_and!; try done; try lia.
      * rewrite times_app, times_one, bool_decide_true by done. lia.
      * intros q Hq E. apply elem_of_app in Hq as [Hq|Hq]; [by apply Honly|]. by apply list_elem_of_singleton in Hq.
    + intros n. rewrite times_app, times_one. case_bool_decide as En; [|specialize (Ht n); lia].
      rewrite <- En, Hnum. lia.
  - destruct (Hcur p k eq_refl) as (Hpk & Hnum & Hpos & Hk & Hkt & Honly).
    destruct (negb (ack_received s) && ctl_running s)%bool.
    { eexists. split; [reflexivity|]. intros s' [= <-]. split; [|split; [by split|cbn; lia]].
      by split; rewrite ?Es. }
    destruct (Z.eqb_spec (last_send s) (ack_send s)) as [E|E]; cbn [negb].
    + eexists. split; [reflexivity|]. intros s' [= <-]. split; [|split; [by split|cbn; lia]].
      assert (p ∈ l_received s) as Hrec.
      { destruct Hack as [E0|(q & Hq & Eq)]; [lia|]. by rewrite <- (Honly q (Hsub q Hq)) by congruence. }
      split; cbn; try done; [apply Forall_app; split; [done|by repeat constructor]|].
      apply sorted_snoc; [done|]. eapply Forall_impl; [by apply Hearly|]. intros q Hq. cbn in Hq. lia.
    + eexists. split; [reflexivity|]. intros s' [= <-]. split; [|split; [by split|cbn; lia]].
      by split; cbn.
  - eexists. split; [reflexivity|]. intros s' [= <-]. split; [|split; [by split|cbn; lia]].
    destruct (ctl_running s); by split.
  - eexists. split; [reflexivity|done].
Qed.

Lemma acker_ok a0 a s s' : ctl_ok a0 s -> wrk_ok s -> acker_step a s = Some s' ->
  ctl_ok a0 s' /\ wrk_ok s' /\ last_send s' = last_send s.
Proof.
  intros [] [] E. unfold acker_step in E. destruct (acker s); [|done].
  destruct a; try (injection E as <-; by split; [split|split; [split|]]).
  destruct (ack_fifo s) as [|n acks] eqn:Ea; [done|]. injection E as <-.
  inversion_clear ok_acks0. split; [|by split; [split|]]. split; cbn; try done. by right.
Qed.

Lemma received_more a0 s pkt pkts : ctl_ok a0 s -> cmd_fifo s = pkt :: pkts ->
  ctl_ok a0 (set_l_received (l_received s ++ [pkt]) (set_cmd_fifo pkts s)).
Proof.
  intros [] E. split; cbn; try done.
  - by rewrite ok_fifo0, E, <- app_assoc.
  - eapply Forall_impl; [exact ok_acks0|]. intros n. apply numbered_app.
  - destruct ok_ack0 as [?|?]; [by left|right; by apply numbered_app].
  - eapply Forall_impl; [exact ok_confirmed0|]. intros p Hp. apply elem_of_app. by left.
Qed.

Lemma receiver_ok a0 a ok s s' : ctl_ok a0 s -> wrk_ok s -> receiver_step a ok s = Some s' ->
  ctl_ok a0 s' /\ wrk_ok s' /\ last_send s' = last_send s.
Proof.
  intros Hc Hw E. pose proof Hc as []. destruct Hw as [Hex Hans Haw Htold Hdone]. unfold receiver_step in E.
  destruct (receiver s) as [|p|p| |] eqn:Er; cbn [receiver_hand] in *; [..|done].
  - destruct a.
    + destruct (cmd_fifo s) as [|pkt pkts] eqn:Ef; [done|]. injection E as <-. split; [by destruct (received_more a0 s pkt pkts Hc Ef)|].
      split; [|done]. split; cbn; try done.
      * rewrite app_nil_r in Hex. rewrite !app_assoc. rewrite !app_assoc in Hex. by apply sublist_app.
      * intros q [= <-]. apply elem_of_app. right. by apply list_elem_of_singleton.
      * intros Hn. left. by destruct (Haw Hn) as [?|?].
      * intros Hn. by destruct (Htold Hn).
    + injection E as <-. split; [by split|]. split; [|done]. by split; rewrite ?Er.
    + injection E as <-. split; [by split|]. split; [|done]. split; cbn; try done; first [by destruct (worker s)|left; by destruct (worker s)].
    + injection E as <-. split; [by split|]. split; [|done]. split; cbn; try done; first [by destruct (worker s)|left; by destruct (worker s)].
  - destruct ok; injection E as <-.
    + split; [|split; [|done]]; [|split; cbn; try done].
      * split; cbn; try done. apply Forall_app. split; [done|]. constructor; [|constructor]. exists p. split; [by apply Hans|done].
      * intros Hn. left. by destruct (Haw Hn) as [?|?].
      * intros Hn. by destruct (Htold Hn).
    + split; [by split|]. split; [|done]. split; cbn; try done.
      * etrans; [|exact Hex]. rewrite !app_nil_r, !app_assoc. by apply sublist_inserts_r.
      * intros Hn. left. by destruct (Haw Hn) as [?|?].
      * intros Hn. by destruct (Htold Hn).
  - injection E as <-. split; [by split|]. split; [|done]. split; cbn; try done; [|by right|..].
    * etrans; [|exact Hex]. apply sublist_app; [done|]. apply sublist_app; [done|]. by apply sublist_inserts_l.
    * intros Hn. by destruct (Htold Hn).
  - injection E as <-. split; [by split|]. split; [|done]. split; cbn; try done; [by destruct (worker s)|left; by destruct (worker s)|..].
    * intros Hn. by destruct (Htold Hn).
    * by destruct (worker s).
Qed.

Lemma pipe_worker_ok a0 written s s' : ctl_ok a0 s -> wrk_ok s -> worker_step written s = Some s' ->
  ctl_ok a0 s' /\ wrk_ok s' /\ last_send s' = last_send s.
Proof.
  intros [] [Hex Hans Haw Htold Hdone] E. unfold worker_step in E.
  destruct (worker s) as [| | |p|] eqn:Ew; cbn [worker_hand] in *; try done.
  - injection E as <-. split; [by split|]. split; [|done]. destruct (wrk_running s) eqn:Er; split; cbn; rewrite ?Er; try done; [by left..|].
    intros _. by destruct (Htold eq_refl).
  - destruct (has_new_data s) eqn:Eh; cbn [negb andb] in E.
    + rewrite andb_false_r in E. injection E as <-. split; [by split|]. split; [|done].
      split; cbn; try done. intros Hn. by destruct (Htold Hn).
    + destruct (wrk_running s) eqn:Er; cbn in E; injection E as <-; (split; [by split|]); (split; [|done]);
        split; cbn; rewrite ?Eh, ?Er; try done. intros _. by destruct (Htold eq_refl).
  - injection E as <-. split; [by split|]. split; [|done]. split; cbn; try done; [|by left|].
    + by rewrite <- app_assoc.
    + intros Hn. by destruct (Htold Hn).
Qed.

Lemma logger_ok a0 a buf s : length buf = 30%nat -> ctl_ok a0 s -> wrk_ok s ->
  exists res, logger_step a buf s = Ret res /\
    forall s', res = Some s' -> ctl_ok a0 s' /\ wrk_ok s' /\ last_send s' = last_send s.
Proof.
  intros Hb [] []. unfold logger_step. destruct (logging s); cbn [negb]; [|by eexists].
  destruct a; try (eexists; split; [reflexivity|]; intros s' [= <-]; by split; [split|split; [split|]]).
  destruct (zlen (take 29 (log_fifo s)) =? 0); [by eexists|].
  assert (length (take 29 (log_fifo s)) <= 29)%nat as Hl by (rewrite length_take; lia).
  change buf with ([] ++ buf). rewrite write_at_cursor by (done || (unfold zlen; cbn [app]; lia)). cbn [mbind outcome_bind app].
  rewrite write_at_cursor by (done || (unfold zlen; rewrite length_drop; cbn [length]; lia)). cbn [mbind outcome_bind].
  eexists. split; [reflexivity|]. intros s' [= <-]. by split; [split|split; [split|]].
Qed.

Lemma pipe_step_ok a0 ev s : sane_event ev -> last_send s < 2 ^ 31 - 1 -> a0 <= 0 -> ctl_ok a0 s -> wrk_ok s ->
  exists res, pipe_step ev s = Ret res /\
    forall s', res = Some s' -> ctl_ok a0 s' /\ wrk_ok s' /\ last_send s' <= last_send s + 1.
Proof.
  intros Hev Hn Ha Hc Hw. destruct ev as [r junk ok|a|a ok|written| |a buf]; cbn [pipe_step].
  - destruct Hev as [Hr Hj]. destruct (send_ok a0 r junk ok s Hr Hj Hn Ha Hc Hw) as (res & E & H).
    exists res. split; [done|]. intros s' Es. destruct (H s' Es) as (? & ? & ?). split_and!; try done; lia.
  - eexists. split; [reflexivity|]. intros s' Es. destruct (acker_ok a0 a s s' Hc Hw Es) as (? & ? & ->). split_and!; try done; lia.
  - eexists. split; [reflexivity|]. intros s' Es. destruct (receiver_ok a0 a ok s s' Hc Hw Es) as (? & ? & ->). split_and!; try done; lia.
  - eexists. split; [reflexivity|]. intros s' Es. destruct (pipe_worker_ok a0 written s s' Hc Hw Es) as (? & ? & ->). split_and!; try done; lia.
  - eexists. split; [reflexivity|]. intros s' Es. destruct (worker s) eqn:Ew; try done. injection Es as <-.
    destruct Hc, Hw as [Hex ? ? Htold Hdone]. split; [by split|]. split; [|cbn; lia]. split; cbn; try done; [by rewrite Ew in Hex|by left|].
    intros Hr. by destruct (Htold Hr).
  - destruct (logger_ok a0 a buf s Hev Hc Hw) as (res & E & H). exists res. split; [done|].
    intros s' Es. destruct (H s' Es) as (? & ? & ->). split_and!; try done; lia.
Qed.

Lemma pipe_run_ok a0 evs s : Forall sane_event evs -> last_send s + zlen evs < 2 ^ 31 -> a0 <= 0 -> ctl_ok a0 s -> wrk_ok s ->
  exists res, pipe_run evs s = Ret res /\ forall s', res = Some s' -> ctl_ok a0 s' /\ wrk_ok s'.
Proof.
  intros Hev. revert s. induction Hev as [|ev evs He _ IH]; intros s Hn Ha Hc Hw; cbn [pipe_run].
  { eexists. split; [reflexivity|]. by intros s' [= <-]. }
  rewrite zlen_cons in Hn. pose proof (zlen_nonneg evs).
  destruct (pipe_step_ok a0 ev s) as (res & -> & H'); [done|lia|done..|]. cbn [mbind outcome_bind].
  destruct res as [s1|]; [|by eexists]. destruct (H' s1 eq_refl) as (Hc1 & Hw1 & Hl). apply IH; try done. lia.
Qed.

Lemma pipe_init_ok acked received junk : ctl_ok acked (pipe_init acked received false junk) /\ wrk_ok (pipe_init acked received false junk).
Proof.
  split; split; cbn; try done; try constructor; try done; try (by intros ? ?%elem_of_nil); try by left.
  intros p q Hp. by apply elem_of_nil in Hp.
Qed.

(** ** Guarantees *)

Section Runs.
Context (acked : Z) (received : bool) (junk : packet) (evs : list event).
Context (Hacked : acked <= 0) (Hsane : Forall sane_event evs) (Hlen : zlen evs < 2 ^ 31).

Lemma reaches_ok : exists res, pipe_run evs (pipe_init acked received false junk) = Ret res /\
  forall s, res = Some s -> ctl_ok acked s /\ wrk_ok s.
Proof using All.
  destruct (pipe_init_ok acked received junk). by apply pipe_run_ok.
Qed.

End Runs.

(** Commands keep their order and content.  Under every schedule of the five
    threads, and whatever reads and writes fail, nothing undefined happens; the
    commands received are those written, in order, and the commands executed are
    commands received, each at most as often and in the same order, with the text
    that belongs to the command. *)
Theorem commands_keep_order acked received junk evs :
  acked <= 0 -> Forall sane_event evs -> zlen evs < 2 ^ 31 ->
  exists res, pipe_run evs (pipe_init acked received false junk) = Ret res /\
    forall s, res = Some s ->
      l_sent s = l_received s ++ cmd_fifo s /\ l_executed s `sublist_of` l_received s /\
      StronglySorted (fun p q => num_pkt p <= num_pkt q) (l_sent s) /\
      Forall (fun p => length (pri_data p) = 20%nat /\ c_string (pri_data p) = cmd_text (cmd p)) (l_executed s).
Proof.
  intros Ha Hs Hl. destruct (reaches_ok acked received junk evs Ha Hs Hl) as (res & -> & H). exists res. split; [done|].
  intros s Es. destruct (H s Es) as [[Hf _ Hp Ho _ _ _ _ _ _ _ _] [Hex _ _ _ _]].
  assert (l_executed s `sublist_of` l_received s) as Hsub by (etrans; [|exact Hex]; by apply sublist_inserts_r).
  split_and!; [done|done|done|]. apply Forall_forall. intros p Hin.
  assert (p ∈ l_sent s) as Hsent by (rewrite Hf; apply elem_of_app; left; by apply (elem_of_sublist (l_executed s))).
  rewrite Forall_forall in Hp. by destruct (Hp p Hsent) as ((? & ? & _) & _).
Qed.


(** A command handed over is taken.  Under every schedule, as long as the worker
    runs, a command stored for the executing thread either finds that thread able
    to step, or the receiving thread is about to wake it. *)
Theorem stored_command_taken acked received junk evs :
  acked <= 0 -> Forall sane_event evs -> zlen evs < 2 ^ 31 ->
  exists res, pipe_run evs (pipe_init acked received false junk) = Ret res /\
    forall s, res = Some s -> wrk_running s = true -> has_new_data s = true ->
      receiver s = RSignal \/ is_Some (worker_step 20 s).
Proof.
  intros Ha Hs Hl. destruct (reaches_ok acked received junk evs Ha Hs Hl) as (res & -> & H). exists res. split; [done|].
  intros s Es Hr Hn. destruct (H s Es) as [_ [_ _ Haw _ Hd]]. destruct (Haw Hn) as [Hw|Hsig]; [right|by left].
  unfold worker_step. rewrite Hr, Hn. destruct (worker s); try done; [by eexists..|].
  specialize (Hd eq_refl). congruence.
Qed.

(** ** What is not guaranteed *)

(** Reads that succeed or are repeated. *)
Definition calm_event (ev : event) : Prop :=
  match ev with Ack a | Recv a _ => a = Got \/ a = Interrupted | _ => True end.

(** The command thread waits, and no packet or acknowledgement is under way. *)
Definition quiet (p : packet) (k : Z) (s : pipeline) : Prop :=
  sender s = SWait p k /\ ack_received s = false /\ ctl_running s = true /\ cmd_fifo s = [] /\ ack_fifo s = [] /\
  l_sent s = [] /\ l_confirmed s = [] /\ match receiver s with RRead | RSignal => True | _ => False end.

Lemma pipe_quiet_step p k ev s s' : calm_event ev -> quiet p k s -> pipe_step ev s = Ret (Some s') -> quiet p k s'.
Proof.
  intros Hev (Hs & Ha & Hc & Hf & Hk & Hl & Hcf & Hr) E.
  destruct ev as [r junk ok|a|a ok|written| |a buf]; cbn [pipe_step] in E.
  - unfold sender_step in E. rewrite Hs, Ha, Hc in E. cbn in E. injection E as <-. by split_and!.
  - injection E as E. unfold acker_step in E. rewrite Hk in E. destruct (acker s), Hev as [-> | ->]; try done.
    injection E as <-. by split_and!.
  - injection E as E. unfold receiver_step in E. rewrite Hf in E.
    destruct (receiver s) eqn:Er; try done; [destruct Hev as [-> | ->]; [done|]|]; injection E as <-; split_and!; try done. by rewrite Er.
  - injection E as E. unfold worker_step in E. destruct (worker s); try done;
      repeat match type of E with context [if ?b then _ else _] => destruct b end; injection E as <-; by split_and!.
  - injection E as E. destruct (worker s); try done. injection E as <-. by split_and!.
  - unfold logger_step in E. destruct (logging s); cbn [negb] in E; [|done].
    destruct a; try (injection E as <-; by split_and!). destruct (_ =? 0); [done|].
    peel E as b1 E1. peel E as b2 E2. injection E as <-. by split_and!.
Qed.

Lemma pipe_quiet_run p k evs s s' : Forall calm_event evs -> quiet p k s -> pipe_run evs s = Ret (Some s') -> quiet p k s'.
Proof.
  intros Hev. revert s. induction Hev as [|ev evs He _ IH]; intros s Hq E; cbn [pipe_run] in E; [by injection E as <-|].
  peel E as res Es. destruct res as [s1|]; [|done]. apply (IH s1); [|done]. by apply (pipe_quiet_step p k ev s).
Qed.

(** A lost write stops the controller for good.  The result of the timed wait is
    not looked at, so a command whose write failed is never written again: in every
    state that can be reached while no read fails, the command thread waits for
    its acknowledgement and nothing has been sent. *)
Theorem lost_write_stops_controller acked has_data junk r r' evs s :
  length (pri_data junk) = 20%nat -> 0 <= r -> Forall calm_event evs ->
  pipe_run ([Send r' junk true; Send r junk true; Send r junk false] ++ evs) (pipe_init acked false has_data junk) = Ret (Some s) ->
  exists p, sender s = SWait p 1 /\ num_pkt p = 1 /\ l_sent s = [] /\ l_confirmed s = [].
Proof.
  intros Hj Hr Hev E. cbn [app pipe_run] in E. peel E as r1 E1. injection E1 as <-. peel E as r2 E2.
  destruct (convert_ok (cmd_rand r) junk Hj (cmd_rand_known r Hr)) as (p & Ep & _).
  cbn [pipe_step] in E2. unfold sender_step in E2. cbn [set_sender sender] in E2. rewrite Ep in E2.
  cbn [mbind outcome_bind] in E2. injection E2 as <-. peel E as r3 E3. injection E3 as <-.
  exists (Packet 1 (cmd p) (pri_data p)).
  apply (pipe_quiet_run (Packet 1 (cmd p) (pri_data p)) 1) in E as (? & _ & _ & _ & _ & ? & ? & _); [done|done|by split_and!].
Qed.

Definition blank : packet := Packet 0 NONE (replicate 20 0).

(** An acknowledged command can be lost.  The worker acknowledges before it hands
    over, and hands over through a single place: when the next command arrives
    before the executing thread ran, the earlier one is overwritten.  Here both
    commands are acknowledged, everything has come to rest, and only the second
    was executed. *)
Theorem confirmed_command_lost :
  exists evs s p q, Forall sane_event evs /\ pipe_run evs (pipe_init 0 false false blank) = Ret (Some s) /\
    num_pkt p = 1 /\ num_pkt q = 2 /\ l_confirmed s = [p; q] /\ l_executed s = [q] /\
    worker s = WWait /\ receiver s = RRead /\ has_new_data s = false /\ cmd_fifo s = [] /\ ack_fifo s = [].
Proof.
  set (cycle := [Send 0 blank true; Send 0 blank true; Recv Got true; Recv Got true; Recv Got true; Recv Got true;
    Ack Got; Send 0 blank true; Send 0 blank true]).
  exists ([Send 0 blank true] ++ cycle ++ cycle ++ [Work 20; Work 20; Work 20; Work 20]).
  eexists _, (Packet 1 PING _), (Packet 2 PING _). split; [apply (bool_decide_unpack _); by vm_compute|].
  split; [vm_compute; reflexivity|]. by split_and!.
Qed.

(** A command can be executed twice, and confirmed without having been sent.  The
    flag that an acknowledgement has arrived is not initialised: if it happens to
    be set, the first command is written again before its acknowledgement can
    arrive, and the worker does not look at the number; if the number happens to
    fit as well, the first command counts as acknowledged although its write
    failed. *)
Theorem uninitialised_flag_misleads :
  (exists evs s p, Forall sane_event evs /\ pipe_run evs (pipe_init 0 true false blank) = Ret (Some s) /\
     l_executed s = [p; p] /\ l_confirmed s = [p]) /\
  (exists evs s p, Forall sane_event evs /\ pipe_run evs (pipe_init 1 true false blank) = Ret (Some s) /\
     l_sent s = [] /\ l_confirmed s = [p]).
Proof.
  set (handle := [Recv Got true; Recv Got true; Recv Got true; Recv Got true; Work 20; Work 20]).
  split.
  - exists (replicate 5 (Send 0 blank true) ++ [Work 20] ++ handle ++ handle ++ [Ack Got; Send 0 blank true]).
    eexists _, (Packet 1 PING _). split; [apply (bool_decide_unpack _); by vm_compute|]. split; [vm_compute; reflexivity|done].
  - exists ([Send 0 blank true; Send 0 blank true; Send 0 blank false; Send 0 blank true]).
    eexists _, (Packet 1 PING _). split; [apply (bool_decide_unpack _); by vm_compute|]. split; [vm_compute; reflexivity|done].
Qed.

(** What follows a terminator is not seen. *)
Lemma c_string_terminated bs tail : (length (c_string bs) < length bs)%nat -> c_string (bs ++ tail) = c_string bs.
Proof.
  induction bs as [|b bs IH]; cbn; [lia|]. destruct (b =? 0); [done|]. cbn. intros Hl. by rewrite IH by lia.
Qed.

Lemma string_in_front p tail : packet_ok p -> c_string (pri_data p ++ tail) = cmd_text (cmd p).
Proof.
  intros (Hl & Hc & _). destruct (cmd_text_bounds (cmd p)) as [Hlen _]. rewrite <- Hc in *. apply c_string_terminated. lia.
Qed.

(** The logger loses lines.  It reads up to 29 bytes as one string while every line
    has 20 and ends with a zero byte: of two lines waiting, the first is printed and
    the beginning of the second is thrown away, so that the next read starts inside
    it. *)
Theorem waiting_line_lost p q buf s :
  packet_ok p -> packet_ok q -> length buf = 30%nat -> logging s = true -> log_fifo s = pri_data p ++ pri_data q ->
  logger_step Got buf s
  = Ret (Some (set_printed (printed s ++ [cmd_text (cmd p)]) (set_log_fifo (drop 9 (pri_data q)) s))).
Proof.
  intros Hp (Hlq & _ & _) Hb Hlog Hf. pose proof Hp as (Hlp & _). unfold logger_step. rewrite Hlog, Hf. cbn [negb].
  rewrite take_app_ge, drop_app_ge by lia. rewrite Hlp. change (29 - 20)%nat with 9%nat.
  assert (length (pri_data p ++ take 9 (pri_data q)) = 29%nat) as Hl by (rewrite length_app, length_take; lia).
  destruct (Z.eqb_spec (zlen (pri_data p ++ take 9 (pri_data q))) 0) as [E|_]; [unfold zlen in E; lia|].
  change buf with ([] ++ buf). rewrite write_at_cursor by (done || (unfold zlen; lia)). cbn [mbind outcome_bind app].
  rewrite write_at_cursor by (done || (unfold zlen; rewrite length_drop; cbn [length]; lia)). cbn [mbind outcome_bind].
  rewrite <- !app_assoc. by rewrite string_in_front.
Qed.

(** A left-over FIFO keeps the others from being created.  After [unlink_fifo],
    and where nothing is denied, all three FIFOs are created; when the first one
    was left by an earlier run, [create_fifo] reports success and creates none of
    the others, whether or not they exist. *)
Theorem leftover_fifo_hides_others denied fs :
  ((forall p, denied p = false) ->
   exists fs', create_fifo denied (unlink_fifo fs) = (0, fs') /\ forall p, p ∈ fs') /\
  (PATH_CMD_FIFO ∈ fs -> create_fifo denied fs = (0, fs)).
Proof.
  split.
  - intros Hd. assert (unlink_fifo fs = []) as ->.
    { unfold unlink_fifo. induction fs as [|p fs IH]; [done|]. rewrite filter_cons_False; [done|].
      intros H. apply H. destruct p; set_solver. }
    unfold create_fifo, mkfifo. rewrite !Hd. rewrite !bool_decide_false by set_solver.
    eexists. split; [done|]. intros []; set_solver.
  - intros H. unfold create_fifo, mkfifo. by rewrite bool_decide_true.
Qed.

(** ** Concrete runs *)

Definition sample_events : list event :=
  [Send 0 blank true; Send 0 blank true; Send 0 blank true; Recv Got true; Recv Got true; Ack Got; Send 0 blank true].

Lemma commands_keep_order_witness :
  exists res, pipe_run sample_events (pipe_init 0 false false blank) = Ret res /\
    forall s, res = Some s ->
      l_sent s = l_received s ++ cmd_fifo s /\ l_executed s `sublist_of` l_received s /\
      StronglySorted (fun p q => num_pkt p <= num_pkt q) (l_sent s) /\
      Forall (fun p => length (pri_data p) = 20%nat /\ c_string (pri_data p) = cmd_text (cmd p)) (l_executed s).
Proof.
  apply (commands_keep_order 0 false blank sample_events); [done|apply (bool_decide_unpack _); by vm_compute|by vm_compute].
Defined.


Lemma stored_command_taken_witness :
  exists res, pipe_run sample_events (pipe_init 0 false false blank) = Ret res /\
    forall s, res = Some s -> wrk_running s = true -> has_new_data s = true ->
      receiver s = RSignal \/ is_Some (worker_step 20 s).
Proof.
  apply (stored_command_taken 0 false blank sample_events); [done|apply (bool_decide_unpack _); by vm_compute|by vm_compute].
Defined.

Lemma lost_write_stops_controller_witness :
  exists s p, pipe_run ([Send 0 blank true; Send 0 blank true; Send 0 blank false] ++ [Send 0 blank true; Work 20])
      (pipe_init 0 false false blank) = Ret (Some s) /\
    sender s = SWait p 1 /\ num_pkt p = 1 /\ l_sent s = [] /\ l_confirmed s = [].
Proof.
  eexists. edestruct (lost_write_stops_controller 0 false blank 0 0 [Send 0 blank true; Work 20]) as (p & H);
    [done|done|by repeat constructor|vm_compute; reflexivity|].
  exists p. split; [vm_compute; reflexivity|exact H].
Defined.

Definition line (a : command) : packet := Packet 0 a (cmd_text a ++ replicate (20 - length (cmd_text a)) 0).

Lemma waiting_line_lost_witness :
  logger_step Got (replicate 30 0) (set_log_fifo (pri_data (line PING) ++ pri_data (line GET_DATA)) (pipe_init 0 false false blank))
  = Ret (Some (set_printed [cmd_text PING] (set_log_fifo (drop 9 (pri_data (line GET_DATA)))
      (set_log_fifo (pri_data (line PING) ++ pri_data (line GET_DATA)) (pipe_init 0 false false blank))))).
Proof.
  apply (waiting_line_lost (line PING) (line GET_DATA) (replicate 30 0)
    (set_log_fifo (pri_data (line PING) ++ pri_data (line GET_DATA)) (pipe_init 0 false false blank))); done.
Defined.

End PipelineInv.
