(* ===== verification/Launch.v ===== *)
(** * The launchers

    [ipc-cmd-pipeline/main.c] and [system-V-ipc-sensorhub/main.c]: each forks three
    programs and waits for them.  The process table is explicit; which calls fail, when
    a child gets to run and when a program ends are events. *)
From S2P Require Import Prelude Pipeline.
Import Pipeline.
Open Scope c_scope.

Module Launch.

(** ** Processes *)

(** A child is still in the launcher's code, in its program, ended, or waited for. *)
Inductive child_state := Fresh | Running | Zombie | Reaped.

(** The number of its program, its pid, whether SIGTERM is pending, whether its program
    has been told to end, and its copy of the array [children]. *)
Record child := Child {
  c_app : nat; c_pid : Z; c_state : child_state; c_pending : bool; c_told : bool; c_copy : list Z }.

Definition set_state (v : child_state) (c : child) : child :=
  Child (c_app c) (c_pid c) v (c_pending c) (c_told c) (c_copy c).
Definition set_pending (v : bool) (c : child) : child :=
  Child (c_app c) (c_pid c) (c_state c) v (c_told c) (c_copy c).
Definition set_told (v : bool) (c : child) : child :=
  Child (c_app c) (c_pid c) (c_state c) (c_pending c) v (c_copy c).

#[export] Instance child_state_eq_dec : EqDecision child_state.
Proof. solve_decision. Defined.

Definition state_of (j : nat) (ks : list child) : option child_state := c_state <$> ks !! j.
Definition become (j : nat) (v : child_state) (ks : list child) : list child := alter (set_state v) j ks.

Definition reaped (c : child) : bool := bool_decide (c_state c = Reaped).
Definition alive (c : child) : bool := match c_state c with Fresh | Running => true | _ => false end.

(** ** The pipeline *)

(** Where [main] is: about to fork a program, about to write its pid file, in [wait],
    returned. *)
Inductive launch_pc := PFork (k : nat) | PNote (k : nat) (pid : Z) | PWait | PDone.

Record launcher := Launcher {
  l_pc : launch_pc; kids : list child; fifos : list fifo_path; pid_files : gmap nat (list Z); next_pid : Z }.

Definition PROGRAMS : nat := 3.

Definition following (k : nat) : launch_pc := if (S k =? PROGRAMS)%nat then PWait else PFork (S k).

(** [argv[k + 1]]: NULL behind the last argument. *)
Definition program (args : list (list Z)) (k : nat) : option (list Z) := args !! k.

(** What can happen: [main] goes on, with the answers of [fork] and [fopen] and the
    ended child [wait] finds; a child executes its program, or cannot; a program ends. *)
Inductive launch_event := Main (forks opens : bool) (j : nat) | Exec (j : nat) (loads : bool) | Exits (j : nat).

(** [None]: it cannot happen now.  A child that cannot execute its program calls [exit]
    and so the function [main] has registered with [atexit]. *)
Definition launch_step (args : list (list Z)) (ev : launch_event) (s : launcher) : option launcher :=
  match ev with
  | Main forks opens j =>
      match l_pc s with
      | PFork k =>
          if forks : bool then
            Some (Launcher (PNote k (next_pid s)) (kids s ++ [Child k (next_pid s) Fresh false false []])
              (fifos s) (pid_files s) (next_pid s + 1))
          else Some (Launcher (following k) (kids s) (fifos s) (pid_files s) (next_pid s))
      | PNote k pid =>
          Some (Launcher (following k) (kids s) (fifos s)
            (if opens : bool then <[k := fmt_d pid ++ [10]]> (pid_files s) else pid_files s) (next_pid s))
      | PWait =>
          if forallb reaped (kids s) then Some (Launcher PDone (kids s) (unlink_fifo (fifos s)) (pid_files s) (next_pid s))
          else if bool_decide (state_of j (kids s) = Some Zombie) then
            Some (Launcher PWait (become j Reaped (kids s)) (fifos s) (pid_files s) (next_pid s))
          else None
      | PDone => None
      end
  | Exec j loads =>
      match kids s !! j with
      | Some c =>
          if bool_decide (c_state c = Fresh) then
            if (loads && bool_decide (is_Some (program args (c_app c))))%bool then
              Some (Launcher (l_pc s) (become j Running (kids s)) (fifos s) (pid_files s) (next_pid s))
            else Some (Launcher (l_pc s) (become j Zombie (kids s)) (unlink_fifo (fifos s)) (pid_files s) (next_pid s))
          else None
      | None => None
      end
  | Exits j =>
      if bool_decide (state_of j (kids s) = Some Running) then
        Some (Launcher (l_pc s) (become j Zombie (kids s)) (fifos s) (pid_files s) (next_pid s))
      else None
  end.

(** Events that cannot happen are skipped. *)
Fixpoint launch_run (args : list (list Z)) (evs : list launch_event) (s : launcher) : launcher :=
  match evs with
  | [] => s
  | ev :: evs => launch_run args evs (default s (launch_step args ev s))
  end.

(** [None]: [main] returns at once.  Two arguments are asked for, three are used. *)
Definition launch_main (args : list (list Z)) (denied : fifo_path -> bool) (fs : list fifo_path) (pid : Z) : option launcher :=
  if (length args <? 2)%nat then None else Some (Launcher (PFork 0) [] (create_fifo denied fs).2 ∅ pid).

(** ** The sensor hub *)

(** As above, and left through [exit] after a failed [fork]. *)
Inductive hub_pc := HFork (i : nat) | HNote (i : nat) (pid : Z) | HWait | HDone | HExit.

Record hub_launcher := HubLauncher { h_pc : hub_pc; h_kids : list child; children : list Z; h_next : Z }.

Definition NUM_APPS : nat := 3.

(** [kill(pid, SIGTERM)] for every entry that is set. *)
Definition handle_sigint (children : list Z) (ks : list child) : list child :=
  (fun c => if ((0 <? c_pid c) && bool_decide (c_pid c ∈ children) && alive c)%bool then set_pending true c else c) <$> ks.

Inductive hub_event :=
| HMain (forks : bool) (j : nat) | HSignal | HDeliver (j : nat) | HExec (j : nat) (loads : bool) | HExits (j : nat).

(** The handler of the launcher runs between any two of its steps.  A child that has not
    executed its program yet has the launcher's handler and its copy of the array. *)
Definition hub_step (ev : hub_event) (s : hub_launcher) : option hub_launcher :=
  match ev with
  | HMain forks j =>
      match h_pc s with
      | HFork i =>
          if forks : bool then
            Some (HubLauncher (HNote i (h_next s)) (h_kids s ++ [Child i (h_next s) Fresh false false (children s)])
              (children s) (h_next s + 1))
          else Some (HubLauncher HExit (h_kids s) (children s) (h_next s))
      | HNote i pid =>
          Some (HubLauncher (if (S i =? NUM_APPS)%nat then HWait else HFork (S i)) (h_kids s)
            (<[i := pid]> (children s)) (h_next s))
      | HWait =>
          if forallb reaped (h_kids s) then Some (HubLauncher HDone (h_kids s) (children s) (h_next s))
          else if bool_decide (state_of j (h_kids s) = Some Zombie) then
            Some (HubLauncher HWait (become j Reaped (h_kids s)) (children s) (h_next s))
          else None
      | HDone | HExit => None
      end
  | HSignal =>
      match h_pc s with
      | HDone | HExit => None
      | pc => Some (HubLauncher pc (handle_sigint (children s) (h_kids s)) (children s) (h_next s))
      end
  | HDeliver j =>
      match h_kids s !! j with
      | Some c =>
          if (c_pending c && alive c)%bool then
            let ks := alter (set_pending false) j (h_kids s) in
            Some (HubLauncher (h_pc s)
              (if bool_decide (c_state c = Fresh) then handle_sigint (c_copy c) ks else alter (set_told true) j ks)
              (children s) (h_next s))
          else None
      | None => None
      end
  | HExec j loads =>
      if bool_decide (state_of j (h_kids s) = Some Fresh) then
        Some (HubLauncher (h_pc s) (become j (if loads : bool then Running else Zombie) (h_kids s)) (children s) (h_next s))
      else None
  | HExits j =>
      if bool_decide (state_of j (h_kids s) = Some Running) then
        Some (HubLauncher (h_pc s) (become j Zombie (h_kids s)) (children s) (h_next s))
      else None
  end.

Fixpoint hub_run (evs : list hub_event) (s : hub_launcher) : hub_launcher :=
  match evs with
  | [] => s
  | ev :: evs => hub_run evs (default s (hub_step ev s))
  end.

(** [children] is zero at the start. *)
Definition hub_main (pid : Z) : hub_launcher := HubLauncher (HFork 0) [] (replicate NUM_APPS 0) pid.

(** ** The pipeline launcher ends when its children have ended *)

Definition weight (c : child) : nat :=
  match c_state c with Fresh => 3 | Running => 2 | Zombie => 1 | Reaped => 0 end.
Definition pc_left (p : launch_pc) : nat :=
  match p with PFork k => (3 - k) * 5 + 1 | PNote k _ => (2 - k) * 5 + 2 | PWait => 1 | PDone => 0 end.
Definition launch_left (s : launcher) : nat := pc_left (l_pc s) + sum_list (weight <$> kids s).

Lemma sum_become j v c ks : ks !! j = Some c ->
  (sum_list (weight <$> become j v ks) + weight c = sum_list (weight <$> ks) + weight (set_state v c))%nat.
Proof.
  revert j. induction ks as [|k ks IH]; intros [|j]; cbn; try done; [intros [= ->]; lia|].
  intros H%IH. unfold become in H. lia.
Qed.

Lemma become_less j v c ks : ks !! j = Some c -> (weight (set_state v c) < weight c)%nat ->
  (sum_list (weight <$> become j v ks) < sum_list (weight <$> ks))%nat.
Proof. intros H%(sum_become j v c). lia. Qed.

Lemma state_of_Some j ks v : state_of j ks = Some v -> exists c, ks !! j = Some c /\ c_state c = v.
Proof. unfold state_of. destruct (ks !! j) as [c|]; cbn; [|done]. intros [= <-]. by exists c. Qed.

Lemma all_reaped ks : forallb reaped ks = true <-> Forall (fun c => c_state c = Reaped) ks.
Proof.
  rewrite forallb_forall, Forall_forall. split; intros H c Hc.
  - apply (bool_decide_unpack (c_state c = Reaped)), Is_true_true, H. by apply list_elem_of_In.
  - apply bool_decide_eq_true. apply H. by apply list_elem_of_In.
Qed.

(** Somebody who has not been waited for can go on. *)
Lemma not_reaped ks : forallb reaped ks = false ->
  exists j c, ks !! j = Some c /\ c_state c <> Reaped.
Proof.
  induction ks as [|c ks IH]; cbn [forallb]; [done|]. unfold reaped at 1. destruct (bool_decide_reflect (c_state c = Reaped)).
  - intros (j & c' & H)%IH. by exists (S j), c'.
  - by exists 0%nat, c.
Qed.

Lemma unlink_all fs : unlink_fifo fs = [].
Proof.
  unfold unlink_fifo. induction fs as [|p fs IH]; [done|]. rewrite filter_cons_False; [done|]. destruct p; set_solver.
Qed.

Record launch_ok (s : launcher) : Prop := {
  la_pc : match l_pc s with PFork k | PNote k _ => (k < PROGRAMS)%nat | _ => True end;
  la_apps : Forall (fun c => (c_app c < PROGRAMS)%nat) (kids s);
  la_done : l_pc s = PDone -> Forall (fun c => c_state c = Reaped) (kids s) /\ fifos s = [] }.

Lemma following_ok k : (k < PROGRAMS)%nat ->
  match following k with PFork k | PNote k _ => (k < PROGRAMS)%nat | _ => True end /\ following k <> PDone /\
  (pc_left (following k) < pc_left (PNote k 0) < pc_left (PFork k))%nat.
Proof. unfold following, PROGRAMS. destruct (Nat.eqb_spec (S k) 3); cbn; intros; split_and!; (done || lia). Qed.

Lemma become_apps j v ks : Forall (fun c => (c_app c < PROGRAMS)%nat) ks ->
  Forall (fun c => (c_app c < PROGRAMS)%nat) (become j v ks).
Proof. intros H. by apply Forall_alter. Qed.

(** One step: it keeps the invariant and brings the end closer. *)
Lemma launch_step_ok args ev s s' : launch_ok s -> launch_step args ev s = Some s' ->
  launch_ok s' /\ (launch_left s' < launch_left s)%nat.
Proof.
  intros [Hpc Happs Hdone] E. unfold launch_left. destruct ev as [forks opens j|j loads|j]; cbn [launch_step] in E.
  - destruct (l_pc s) as [k|k pid| |] eqn:Ep; [..|done].
    + destruct (following_ok k Hpc) as (F1 & F2 & F3). destruct forks; injection E as <-; cbn [l_pc kids fifos].
      * split; [split; cbn; [done| |done]|]; [apply Forall_app; split; [done|by apply Forall_singleton]|].
        rewrite fmap_app, sum_list_with_app || rewrite fmap_app, sum_list_app. cbn. unfold PROGRAMS in Hpc. cbn in F3. lia.
      * split; [split; cbn; [done|done|done]|]. lia.
    + injection E as <-. destruct (following_ok k Hpc) as (F1 & F2 & F3). split; [by split|]. cbn [l_pc kids]. cbn in F3 |- *. lia.
    + destruct (forallb reaped (kids s)) eqn:Er.
      * injection E as <-. split; [split; cbn; [done|done|]|cbn; lia]. intros _. split; [by apply all_reaped|apply unlink_all].
      * case_bool_decide as Hz; [|done]. injection E as <-. apply state_of_Some in Hz as (c & Hc & Hz). split.
        { split; cbn; [done|by apply become_apps|done]. }
        cbn [l_pc kids]. apply Nat.add_lt_mono_l. apply (become_less j Reaped c); [done|]. unfold weight. rewrite Hz. cbn. lia.
  - destruct (kids s !! j) as [c|] eqn:Ec; [|done]. case_bool_decide as Hf; [|done].
    assert (Hnd : l_pc s <> PDone).
    { intros H%Hdone. destruct H as [H _]. eapply Forall_lookup_1 in H; [|done]. congruence. }
    destruct (_ && _)%bool; injection E as <-; (split; [split; cbn; [done|by apply become_apps|done]|]);
      cbn [l_pc kids]; apply Nat.add_lt_mono_l; apply (become_less j _ c); try done; unfold weight; rewrite Hf; cbn; lia.
  - case_bool_decide as Hz; [|done]. injection E as <-. apply state_of_Some in Hz as (c & Hc & Hz).
    assert (Hnd : l_pc s <> PDone).
    { intros H%Hdone. destruct H as [H _]. eapply Forall_lookup_1 in H; [|done]. congruence. }
    split; [split; cbn; [done|by apply become_apps|done]|].
    cbn [l_pc kids]. apply Nat.add_lt_mono_l. apply (become_less j Zombie c); [done|]. unfold weight. rewrite Hz. cbn. lia.
Qed.

Lemma launch_can_go args s : launch_ok s -> l_pc s = PDone \/ exists ev s', launch_step args ev s = Some s'.
Proof.
  intros [Hpc Happs Hdone]. destruct (l_pc s) as [k|k pid| |] eqn:Ep; [right..|by left].
  - exists (Main false false 0). cbn [launch_step]. rewrite Ep. by eexists.
  - exists (Main false false 0). cbn [launch_step]. rewrite Ep. by eexists.
  - destruct (forallb reaped (kids s)) eqn:Er.
    { exists (Main false false 0). cbn [launch_step]. rewrite Ep, Er. by eexists. }
    destruct (not_reaped _ Er) as (j & c & Hc & Hs). destruct (c_state c) eqn:Es; [| | |done].
    + exists (Exec j false). cbn [launch_step]. rewrite Hc, bool_decide_true by done. by eexists.
    + exists (Exits j). cbn [launch_step]. unfold state_of. rewrite Hc. cbn. rewrite Es, bool_decide_true by done. by eexists.
    + exists (Main false false j). cbn [launch_step]. rewrite Ep, Er. unfold state_of. rewrite Hc. cbn.
      rewrite Es, bool_decide_true by done. by eexists.
Qed.

Lemma launch_run_ok args evs s : launch_ok s -> launch_ok (launch_run args evs s).
Proof.
  revert s. induction evs as [|ev evs IH]; intros s Hs; cbn [launch_run]; [done|]. apply IH.
  destruct (launch_step args ev s) as [s'|] eqn:E; cbn; [|done]. by apply (launch_step_ok args ev s).
Qed.

Lemma launch_main_ok args denied fs pid s : launch_main args denied fs pid = Some s -> launch_ok s.
Proof. unfold launch_main. destruct (_ <? _)%nat; [done|]. intros [= <-]. split; cbn; [unfold PROGRAMS; lia|done|done]. Qed.

(** The launcher waits for all its children.  However [fork], [execv] and the
    programs turn out, when [main] has returned every child it has started has ended
    and been waited for and none of the FIFOs is left; before that somebody can go on,
    and whatever happens next brings the end closer. *)
Theorem launcher_waits args denied fs pid evs s0 s :
  launch_main args denied fs pid = Some s0 -> s = launch_run args evs s0 ->
  (l_pc s = PDone -> Forall (fun c => c_state c = Reaped) (kids s) /\ fifos s = []) /\
  (l_pc s = PDone \/ exists ev s', launch_step args ev s = Some s') /\
  forall ev s', launch_step args ev s = Some s' -> (launch_left s' < launch_left s)%nat.
Proof.
  intros H0%launch_main_ok ->. pose proof (launch_run_ok args evs s0 H0) as Hok. split_and!.
  - apply Hok.
  - by apply launch_can_go.
  - intros ev s' E. by apply (launch_step_ok args ev).
Qed.

(** As long as every program can be executed the FIFOs stay as [create_fifo] left them
    until [main] returns. *)
Theorem fifos_stay args denied fs pid evs s0 :
  launch_main args denied fs pid = Some s0 -> (3 <= length args)%nat ->
  Forall (fun ev => match ev with Exec _ loads => loads = true | _ => True end) evs ->
  l_pc (launch_run args evs s0) <> PDone -> fifos (launch_run args evs s0) = (create_fifo denied fs).2.
Proof.
  intros H0 Hargs Hevs. assert (Hf : l_pc s0 <> PDone -> fifos s0 = (create_fifo denied fs).2).
  { unfold launch_main in H0. destruct (_ <? _)%nat; [done|]. by injection H0 as <-. }
  apply launch_main_ok in H0. revert s0 H0 Hf. induction Hevs as [|ev evs Hev _ IH]; intros s Hok Hf; cbn [launch_run]; [done|].
  destruct (launch_step args ev s) as [s'|] eqn:E; cbn; [|by apply IH]. apply IH; [by apply (launch_step_ok args ev s)|].
  intros Hnd. destruct ev as [forks opens j|j loads|j]; cbn [launch_step] in E.
  - destruct (l_pc s) as [k|k pid'| |] eqn:Ep; [| | |done].
    + destruct forks; injection E as <-; by apply Hf.
    + injection E as <-. by apply Hf.
    + destruct (forallb _ _); [by injection E as <-|]. case_bool_decide; [|done]. injection E as <-. by apply Hf.
  - destruct (kids s !! j) as [c|] eqn:Ec; [|done]. case_bool_decide; [|done]. subst loads.
    assert (Ha : (c_app c < PROGRAMS)%nat) by (by apply (Forall_lookup_1 _ _ _ _ (la_apps _ Hok) Ec)).
    rewrite bool_decide_true in E by (unfold program; apply lookup_lt_is_Some; unfold PROGRAMS in Ha; lia).
    injection E as <-. by apply Hf.
  - case_bool_decide; [|done]. injection E as <-. by apply Hf.
Qed.

(** A program that cannot be executed takes the FIFOs of the others with it: its child
    leaves through [exit], which runs the function the launcher has registered. *)
Definition three : list (list Z) := [bstr "./controller"; bstr "./logger"; bstr "./worker"].
Definition first_launch (args : list (list Z)) (evs : list launch_event) : option launcher :=
  s ← launch_main args (fun _ => false) [] 100; Some (launch_run args evs s).

Theorem failed_exec_unlinks : exists s,
  first_launch three [Main true true 0; Main true true 0; Exec 0 true; Main true true 0; Exec 1 false] = Some s /\
  state_of 0 (kids s) = Some Running /\ l_pc s <> PDone /\ fifos s = [].
Proof. by eexists. Qed.

(** With two arguments the check passes and the worker is never executed. *)
Theorem third_program_missing evs s j c :
  first_launch [bstr "./controller"; bstr "./logger"] evs = Some s -> kids s !! j = Some c -> c_app c = 2%nat ->
  c_state c <> Running.
Proof.
  unfold first_launch. cbn [mbind option_bind launch_main]. intros [= <-].
  set (args := [bstr "./controller"; bstr "./logger"]).
  enough (H : forall s, Forall (fun c => c_app c = 2%nat -> c_state c <> Running) (kids s) ->
    Forall (fun c => c_app c = 2%nat -> c_state c <> Running) (kids (launch_run args evs s))).
  { intros Hj. refine (Forall_lookup_1 _ _ _ _ (H _ _) Hj). by apply Forall_nil. }
  induction evs as [|ev evs IH]; intros s0 Hs; cbn [launch_run]; [done|]. apply IH.
  destruct (launch_step args ev s0) as [s'|] eqn:E; cbn; [|done].
  assert (Hbec : forall k v, v <> Running -> Forall (fun c => c_app c = 2%nat -> c_state c <> Running) (become k v (kids s0))).
  { intros k v Hv. apply Forall_alter; [done|]. by intros. }
  destruct ev as [forks opens k|k loads|k]; cbn [launch_step] in E.
  - destruct (l_pc s0) as [a|a pid'| |]; [| | |done].
    + destruct forks; injection E as <-; cbn; [|done]. apply Forall_app. split; [done|]. by apply Forall_singleton.
    + by injection E as <-.
    + destruct (forallb _ _); [by injection E as <-|]. case_bool_decide; [|done]. injection E as <-. by apply Hbec.
  - destruct (kids s0 !! k) as [c'|] eqn:Ec; [|done]. case_bool_decide; [|done].
    destruct loads; cbn [andb] in E; [|injection E as <-; by apply Hbec].
    case_bool_decide as Hp; injection E as <-; [|by apply Hbec]. cbn. apply Forall_alter; [done|].
    intros c0 Hc0 _ Ha. rewrite Ec in Hc0. injection Hc0 as <-. cbn in Ha. rewrite Ha in Hp. by destruct Hp.
  - case_bool_decide; [|done]. injection E as <-. by apply Hbec.
Qed.

(** ** The sensor hub launcher *)

(** The array has the pids of the children, the last one possibly not yet. *)
Definition recorded (s : hub_launcher) : Prop :=
  let pids := c_pid <$> h_kids s in
  match h_pc s with
  | HFork i => (i < NUM_APPS)%nat /\ pids = take i (children s)
  | HNote i pid => (i < NUM_APPS)%nat /\ pids = take i (children s) ++ [pid]
  | HWait | HDone => pids = children s
  | HExit => True
  end.

Record hub_ok (s : hub_launcher) : Prop := {
  ho_recorded : recorded s;
  ho_length : length (children s) = NUM_APPS;
  ho_positive : Forall (fun c => 0 < c_pid c) (h_kids s);
  ho_next : 0 < h_next s;
  ho_done : h_pc s = HDone -> Forall (fun c => c_state c = Reaped) (h_kids s) }.

(** What does not change the pids. *)
Definition same_pids (ks ks' : list child) : Prop := c_pid <$> ks' = c_pid <$> ks.

Lemma alter_pids f j ks : (forall c, c_pid (f c) = c_pid c) -> same_pids ks (alter f j ks).
Proof.
  intros Hf. unfold same_pids. revert j. induction ks as [|c ks IH]; intros [|j]; cbn; try done; [by rewrite Hf|].
  f_equal. apply IH.
Qed.

Lemma handle_pids cs ks : same_pids ks (handle_sigint cs ks).
Proof.
  unfold same_pids, handle_sigint. rewrite <- list_fmap_compose. apply list_fmap_ext. intros _ c _. cbn.
  by destruct (_ && _)%bool.
Qed.

Lemma pids_positive ks : Forall (fun c => 0 < c_pid c) ks <-> Forall (fun p => 0 < p) (c_pid <$> ks).
Proof. by rewrite Forall_fmap. Qed.

Lemma same_pids_ok s ks : hub_ok s -> same_pids (h_kids s) ks -> (h_pc s = HDone -> Forall (fun c => c_state c = Reaped) ks) ->
  hub_ok (HubLauncher (h_pc s) ks (children s) (h_next s)).
Proof.
  intros [H1 H2 H3 H4 H5] Hp Hd. unfold same_pids in Hp. split; [|done| |done|done].
  - unfold recorded in *. cbn. by rewrite Hp.
  - cbn. by rewrite pids_positive, Hp, <- pids_positive.
Qed.

Lemma take_snoc i p (l : list Z) : (i < length l)%nat -> take (S i) (<[i := p]> l) = take i l ++ [p].
Proof.
  intros Hi. rewrite (take_S_r _ _ p) by (by rewrite list_lookup_insert_eq). by rewrite take_insert_ge by lia.
Qed.

Lemma fork_ok s i forks : hub_ok s -> h_pc s = HFork i ->
  hub_ok (if forks : bool then HubLauncher (HNote i (h_next s)) (h_kids s ++ [Child i (h_next s) Fresh false false (children s)])
              (children s) (h_next s + 1) else HubLauncher HExit (h_kids s) (children s) (h_next s)).
Proof.
  intros [H1 H2 H3 H4 H5] Ep. unfold recorded in H1. rewrite Ep in H1. destruct H1 as [Hi Hp]. destruct forks; [|by split].
  split; [|done| |cbn; lia|done].
  - unfold recorded. cbn. rewrite fmap_app, Hp. done.
  - cbn. apply Forall_app. split; [done|]. by apply Forall_singleton.
Qed.

Lemma note_ok s i pid : hub_ok s -> h_pc s = HNote i pid ->
  hub_ok (HubLauncher (if (S i =? NUM_APPS)%nat then HWait else HFork (S i)) (h_kids s) (<[i := pid]> (children s)) (h_next s)).
Proof.
  intros [H1 H2 H3 H4 H5] Ep. unfold recorded in H1. rewrite Ep in H1. destruct H1 as [Hi Hp].
  rewrite <- (take_snoc i pid (children s)) in Hp by (by rewrite H2). split; [|cbn; by rewrite length_insert|done|done|].
  - unfold recorded, NUM_APPS in *. cbn [h_pc h_kids children]. destruct (Nat.eqb_spec (S i) 3) as [E|E].
    + rewrite Hp, E. apply take_ge. rewrite length_insert. lia.
    + split; [lia|done].
  - cbn. by destruct (_ =? _)%nat.
Qed.

Lemma not_done s j c : hub_ok s -> h_kids s !! j = Some c -> c_state c <> Reaped -> h_pc s <> HDone.
Proof. intros Hok Hj Hc Hd. apply Hc. by apply (Forall_lookup_1 _ _ _ _ (ho_done _ Hok Hd) Hj). Qed.

Lemma hub_step_ok ev s s' : hub_ok s -> hub_step ev s = Some s' -> hub_ok s'.
Proof.
  intros Hok E. destruct ev as [forks j| |j|j loads|j]; cbn [hub_step] in E.
  - destruct (h_pc s) as [i|i pid| | |] eqn:Ep; [| | |done|done].
    + pose proof (fork_ok s i forks Hok Ep) as H. destruct forks; by injection E as <-.
    + injection E as <-. by apply note_ok.
    + destruct (forallb reaped (h_kids s)) eqn:Er.
      * injection E as <-. destruct Hok as [H1 H2 H3 H4 H5]. unfold recorded in H1. rewrite Ep in H1.
        split; [done..|]. intros _. by apply all_reaped.
      * case_bool_decide as Hz; [|done]. injection E as <-. rewrite <- Ep. apply same_pids_ok; [done|by apply alter_pids|congruence].
  - assert (Hn : h_pc s <> HDone) by (intros H; rewrite H in E; done).
    assert (s' = HubLauncher (h_pc s) (handle_sigint (children s) (h_kids s)) (children s) (h_next s)) as ->.
    { destruct (h_pc s); try done; by injection E. }
    apply same_pids_ok; [done|apply handle_pids|done].
  - destruct (h_kids s !! j) as [c|] eqn:Ec; [|done]. destruct (_ && _)%bool eqn:Eb; [|done]. injection E as <-.
    apply andb_prop in Eb as [_ Ha]. apply same_pids_ok; [done| |].
    + case_bool_decide; unfold same_pids; [rewrite handle_pids|rewrite alter_pids by done]; by apply alter_pids.
    + intros Hd. exfalso. apply (not_done s j c Hok Ec); [|done]. unfold alive in Ha. by destruct (c_state c).
  - case_bool_decide as Hf; [|done]. injection E as <-. apply state_of_Some in Hf as (c & Ec & Hf).
    apply same_pids_ok; [done|by apply alter_pids|]. intros Hd. by destruct (not_done s j c Hok Ec); [congruence|].
  - case_bool_decide as Hf; [|done]. injection E as <-. apply state_of_Some in Hf as (c & Ec & Hf).
    apply same_pids_ok; [done|by apply alter_pids|]. intros Hd. by destruct (not_done s j c Hok Ec); [congruence|].
Qed.

Lemma hub_run_ok evs s : hub_ok s -> hub_ok (hub_run evs s).
Proof.
  revert s. induction evs as [|ev evs IH]; intros s Hs; cbn [hub_run]; [done|]. apply IH.
  destruct (hub_step ev s) as [s'|] eqn:E; cbn; [|done]. by apply (hub_step_ok ev s).
Qed.

Lemma hub_main_ok pid : 0 < pid -> hub_ok (hub_main pid).
Proof. intros Hp. split; [|done|done|done|done]. split; [unfold NUM_APPS; lia|done]. Qed.

(** The hub's launcher passes a signal on to all its programs and waits for them.
    When it has returned every child has been waited for; a signal that arrives while it
    waits is pending at every child that has not ended, and a program it is delivered to
    has been told to end; and unless it has returned or given up, it can go on or a child
    can. *)
Theorem hub_launcher_forwards pid evs s :
  0 < pid -> s = hub_run evs (hub_main pid) ->
  (h_pc s = HDone -> Forall (fun c => c_state c = Reaped) (h_kids s)) /\
  (h_pc s = HWait -> exists s1, hub_step HSignal s = Some s1 /\
    forall j c, h_kids s1 !! j = Some c -> alive c = true ->
      c_pending c = true /\ exists s2, hub_step (HDeliver j) s1 = Some s2 /\
        (c_state c = Running -> c_told <$> h_kids s2 !! j = Some true)) /\
  (h_pc s = HDone \/ h_pc s = HExit \/ exists ev s', ev <> HSignal /\ hub_step ev s = Some s').
Proof.
  intros Hp ->. pose proof (hub_run_ok evs _ (hub_main_ok pid Hp)) as Hok. revert Hok. generalize (hub_run evs (hub_main pid)).
  clear. intros s Hok. split_and!; [apply Hok| |].
  - intros Ep. cbn [hub_step]. rewrite Ep. eexists. split; [done|]. cbn [h_kids children]. intros j c Hj Ha.
    assert (Hpend : c_pending c = true).
    { unfold handle_sigint in Hj. rewrite list_lookup_fmap in Hj. destruct (h_kids s !! j) as [k|] eqn:Ek; cbn in Hj; [|done].
      injection Hj as <-. pose proof (Forall_lookup_1 _ _ _ _ (ho_positive _ Hok) Ek) as Hk. cbn in Hk.
      pose proof (ho_recorded _ Hok) as Hr. unfold recorded in Hr. rewrite Ep in Hr.
      assert (Hin : c_pid k ∈ children s) by (rewrite <- Hr; apply list_elem_of_fmap_2, (list_elem_of_lookup_2 _ j), Ek).
      apply Z.ltb_lt in Hk. rewrite Hk, bool_decide_true in Ha |- * by done. cbn [andb] in Ha |- *.
      destruct (alive k) eqn:Eak; [done|]. by rewrite Eak in Ha. }
    split; [done|]. cbn [hub_step h_kids]. rewrite Hj, Hpend, Ha. cbn [andb]. eexists. split; [done|]. intros Hrun. cbn [h_kids].
    rewrite bool_decide_false by congruence. by rewrite !list_lookup_alter_eq, Hj.
  - destruct (h_pc s) as [i|i p| | |] eqn:Ep; [right; right| | |by left|by right; left].
    + exists (HMain false 0). cbn [hub_step]. rewrite Ep. by eexists.
    + right. right. exists (HMain false 0). cbn [hub_step]. rewrite Ep. by eexists.
    + right. right. destruct (forallb reaped (h_kids s)) eqn:Er.
      { exists (HMain false 0). cbn [hub_step]. rewrite Ep, Er. by eexists. }
      destruct (not_reaped _ Er) as (j & c & Hc & Hs). destruct (c_state c) eqn:Es; [| | |done].
      * exists (HExec j true). cbn [hub_step]. unfold state_of. rewrite Hc. cbn. rewrite Es, bool_decide_true by done. by eexists.
      * exists (HExits j). cbn [hub_step]. unfold state_of. rewrite Hc. cbn. rewrite Es, bool_decide_true by done. by eexists.
      * exists (HMain false j). cbn [hub_step]. rewrite Ep, Er. unfold state_of. rewrite Hc. cbn.
        rewrite Es, bool_decide_true by done. by eexists.
Qed.

(** After a failed [fork] the launcher exits and leaves the programs it has started
    without telling them. *)
Theorem fork_failure_orphans : exists s,
  s = hub_run [HMain true 0; HMain true 0; HExec 0 true; HMain false 0] (hub_main 100) /\
  h_pc s = HExit /\ state_of 0 (h_kids s) = Some Running /\ c_told <$> h_kids s !! 0%nat = Some false.
Proof. by eexists. Qed.

(** A signal that arrives before the last child has executed its program is lost on
    it: the child takes it with the launcher's handler and goes on. *)
Theorem signal_lost_on_fresh_child : exists s,
  s = hub_run [HMain true 0; HMain true 0; HExec 0 true; HMain true 0; HMain true 0; HExec 1 true; HMain true 0;
    HMain true 0; HSignal; HDeliver 0; HDeliver 1; HDeliver 2; HExec 2 true] (hub_main 100) /\
  h_pc s = HWait /\ c_told <$> h_kids s = [true; true; false] /\ c_pending <$> h_kids s !! 2%nat = Some false /\
  state_of 2 (h_kids s) = Some Running.
Proof. by eexists. Qed.

Lemma launcher_waits_witness :
  let s0 := Launcher (PFork 0) [] [PATH_CMD_ACK; PATH_LOG_FIFO; PATH_CMD_FIFO] ∅ 100 in
  let s := launch_run three [Main true true 0; Main true true 0; Exec 0 true] s0 in
  (l_pc s = PDone -> Forall (fun c => c_state c = Reaped) (kids s) /\ fifos s = []) /\
  (l_pc s = PDone \/ exists ev s', launch_step three ev s = Some s') /\
  forall ev s', launch_step three ev s = Some s' -> (launch_left s' < launch_left s)%nat.
Proof.
  intros s0 s. apply (launcher_waits three (fun _ => false) [] 100 [Main true true 0; Main true true 0; Exec 0 true] s0 s); reflexivity.
Defined.

Lemma hub_launcher_forwards_witness :
  let s := hub_run [HMain true 0; HMain true 0; HMain true 0; HMain true 0; HMain true 0; HMain true 0; HExec 1 true] (hub_main 100) in
  h_pc s = HWait /\
  (h_pc s = HWait -> exists s1, hub_step HSignal s = Some s1 /\
    forall j c, h_kids s1 !! j = Some c -> alive c = true ->
      c_pending c = true /\ exists s2, hub_step (HDeliver j) s1 = Some s2 /\
        (c_state c = Running -> c_told <$> h_kids s2 !! j = Some true)).
Proof.
  intros s. split; [reflexivity|].
  apply (hub_launcher_forwards 100 [HMain true 0; HMain true 0; HMain true 0; HMain true 0; HMain true 0; HMain true 0; HExec 1 true]);
    [lia|reflexivity].
Defined.
End Launch.
