(* ===== verification/Supervisor.v ===== *)
(** * The process supervisor (process-supervisor/supervisor.c)

    The options of the command line, and the loop that starts a worker, watches
    it with [pselect] and starts it again.  The loop is a transition system: the
    phases of the supervisor, the worker process with its pipe, and the signals
    that wait while they are blocked, which they are everywhere but in
    [pselect]. *)
From S2P Require Import Prelude Sigd.
Open Scope c_scope.

Module Supervisor.

(** ** The command line *)

Definition TIMEOUT : list Z := bstr "--timeout".
Definition RESTART : list Z := bstr "--restart".
Definition KILL_GROUP : list Z := bstr "-g".
Definition CAPTURE_OUT : list Z := bstr "-c".
Definition TIMEOUT_DEFAULT : Z := 5.

Record options := Options { time_val : Z; restart_val : Z; kill_group : bool; capture_out : bool }.

(** [strtol(_, NULL, 10)] *)
Definition strtol (bs : list Z) : Z :=
  let '(minus, ds) := Sigd.signed (Sigd.skip_while Sigd.is_space bs) in
  let v := Sigd.digits_from 0 ds in
  if minus then Z.max (- 2 ^ 63) (- v) else Z.min (2 ^ 63 - 1) v.

(** The loop over [argv] from index 2: the options and, from its own name on, the
    command to run. *)
Fixpoint parse_args (args : list (list Z)) (o : options) : options * option (list (list Z)) :=
  match args with
  | [] => (o, None)
  | a :: rest =>
      if bool_decide (a = RESTART) then
        match rest with
        | v :: rest => parse_args rest (Options (time_val o) (i32 (strtol v)) (kill_group o) (capture_out o))
        | [] => (o, Some [a])
        end
      else if bool_decide (a = TIMEOUT) then
        match rest with
        | v :: rest => parse_args rest (Options (strtol v) (restart_val o) (kill_group o) (capture_out o))
        | [] => (o, Some [a])
        end
      else if bool_decide (a = KILL_GROUP) then
        parse_args rest (Options (time_val o) (restart_val o) true (capture_out o))
      else if bool_decide (a = CAPTURE_OUT) then
        parse_args rest (Options (time_val o) (restart_val o) (kill_group o) true)
      else (o, Some (a :: rest))
  end.

Definition default_options : options := Options 0 0 false false.

(** The seconds of silence after which [pselect] returns zero. *)
Definition timeout_of (o : options) : Z := if 0 <? time_val o then time_val o else TIMEOUT_DEFAULT.

(** ** The loop *)

(** At the head of the outer loop, in the inner loop, in [waitpid], in
    [sleep(1)], returned. *)
Inductive phase := Top | Monitor | Reap | Resting | Done.

#[export] Instance phase_eq_dec : EqDecision phase.
Proof. solve_decision. Defined.

(** A worker that has not been waited for: whether it still runs, whether it was
    sent SIGKILL, what its pipe holds and whether the writing end is closed. *)
Record child := Child { running : bool; killed : bool; pipe_data : list Z; pipe_closed : bool }.

Record supervisor := Supervisor {
  restart_time : Z; is_running : bool; at_phase : phase;
  worker : option child; sigchld : bool; sigstop : bool;
  l_started : Z; l_printed : list (list Z) }.
Definition set_restart_time (v : Z) (x : supervisor) : supervisor :=
  Supervisor v (is_running x) (at_phase x) (worker x) (sigchld x) (sigstop x) (l_started x)
    (l_printed x).
Definition set_is_running (v : bool) (x : supervisor) : supervisor :=
  Supervisor (restart_time x) v (at_phase x) (worker x) (sigchld x) (sigstop x) (l_started
    x) (l_printed x).
Definition set_at_phase (v : phase) (x : supervisor) : supervisor :=
  Supervisor (restart_time x) (is_running x) v (worker x) (sigchld x) (sigstop x) (l_started
    x) (l_printed x).
Definition set_worker (v : option child) (x : supervisor) : supervisor :=
  Supervisor (restart_time x) (is_running x) (at_phase x) v (sigchld x) (sigstop x)
    (l_started x) (l_printed x).
Definition set_sigchld (v : bool) (x : supervisor) : supervisor :=
  Supervisor (restart_time x) (is_running x) (at_phase x) (worker x) v (sigstop x)
    (l_started x) (l_printed x).
Definition set_sigstop (v : bool) (x : supervisor) : supervisor :=
  Supervisor (restart_time x) (is_running x) (at_phase x) (worker x) (sigchld x) v
    (l_started x) (l_printed x).
Definition set_l_started (v : Z) (x : supervisor) : supervisor :=
  Supervisor (restart_time x) (is_running x) (at_phase x) (worker x) (sigchld x) (sigstop x)
    v (l_printed x).
Definition set_l_printed (v : list (list Z)) (x : supervisor) : supervisor :=
  Supervisor (restart_time x) (is_running x) (at_phase x) (worker x) (sigchld x) (sigstop x)
    (l_started x) v.

(** What [pselect] and the [read] after it answer. *)
Inductive sel := SelTimeout | SelReady (buf : list Z) | SelIntr | SelError.

(** Events: the worker writes, closes its output or ends; a stop signal arrives;
    and the steps of the supervisor. *)
Inductive event :=
| Writes (bs : list Z) | Closes | Exits | StopSignal
| Start (pipe_ok fork_ok : bool) | Select (fd0 : Z) (r : sel) | Wait | Rest.

Definition kill (c : child) : child := Child (running c) true (pipe_data c) (pipe_closed c).

Section Loop.
Context (o : options).

(** Something to read, or the end of the pipe. *)
Definition ready (c : child) : bool := (negb (bool_decide (pipe_data c = [])) || pipe_closed c)%bool.

(** One round of the inner loop.  [fd0] is [fd[0]]: without -c it is not
    initialised.  The array printed as a string is not terminated. *)
Definition select_step (fd0 : Z) (r : sel) (s : supervisor) : outcome (option supervisor) :=
  match at_phase s, worker s with
  | Monitor, Some c =>
      if negb (is_running s) then Ret (Some (set_at_phase Reap s))
      else if negb ((0 <=? fd0) && (fd0 <? 1024))%bool then Undef
      else
        match r with
        | SelTimeout =>
            if (sigchld s || sigstop s || (capture_out o && ready c))%bool then Ret None
            else Ret (Some (set_worker (Some (kill c)) s))
        | SelReady buf =>
            if negb (capture_out o && ready c)%bool then Ret None
            else
              let bs := take 128 (pipe_data c) in
              if zlen bs =? 0 then Ret (Some (set_at_phase Reap s))
              else
                buf ← write_at buf 0 bs;
                if existsb (Z.eqb 0) buf then
                  Ret (Some (set_l_printed (l_printed s ++ [c_string buf])
                    (set_worker (Some (Child (running c) (killed c) (drop 128 (pipe_data c)) (pipe_closed c))) s)))
                else Undef
        | SelIntr =>
            if negb (sigchld s || sigstop s)%bool then Ret None
            else
              let run := negb (sigstop s) in
              Ret (Some (set_at_phase Reap (set_worker (Some (if run then c else kill c))
                (set_is_running run (set_sigchld false (set_sigstop false s))))))
        | SelError => Ret (Some s)
        end
  | _, _ => Ret None
  end.

Definition sup_step (ev : event) (s : supervisor) : outcome (option supervisor) :=
  match ev with
  | Writes bs =>
      Ret (match worker s with
           | Some c => if (running c && negb (pipe_closed c))%bool
                       then Some (set_worker (Some (Child true (killed c) (pipe_data c ++ bs) false)) s) else None
           | None => None
           end)
  | Closes =>
      Ret (match worker s with
           | Some c => if running c then Some (set_worker (Some (Child true (killed c) (pipe_data c) true)) s) else None
           | None => None
           end)
  | Exits =>
      Ret (match worker s with
           | Some c => if running c
                       then Some (set_sigchld true (set_worker (Some (Child false (killed c) (pipe_data c) true)) s)) else None
           | None => None
           end)
  | StopSignal => Ret (Some (set_sigstop true s))
  | Start pipe_ok fork_ok =>
      match at_phase s with
      | Top =>
          if negb ((restart_time s <=? restart_val o) && is_running s)%bool then Ret (Some (set_at_phase Done s))
          else if (capture_out o && negb pipe_ok)%bool then Ret (Some (set_at_phase Done s))
          else if negb fork_ok then Ret (Some (set_at_phase Done s))
          else Ret (Some (set_at_phase Monitor (set_worker (Some (Child true false [] false))
                 (set_l_started (l_started s + 1) s))))
      | _ => Ret None
      end
  | Select fd0 r => select_step fd0 r s
  | Wait =>
      match at_phase s, worker s with
      | Reap, Some c =>
          if running c then Ret None
          else
            let t := restart_time s + 1 in
            if negb (i32 t =? t) then Undef
            else Ret (Some (set_at_phase (if ((t <=? restart_val o) && is_running s)%bool then Resting else Top)
                   (set_worker None (set_restart_time t s))))
      | _, _ => Ret None
      end
  | Rest => match at_phase s with Resting => Ret (Some (set_at_phase Top s)) | _ => Ret None end
  end.

Fixpoint sup_run (evs : list event) (s : supervisor) : outcome (option supervisor) :=
  match evs with
  | [] => Ret (Some s)
  | ev :: evs =>
      r ← sup_step ev s;
      match r with Some s => sup_run evs s | None => Ret None end
  end.

End Loop.

Definition sup_init : supervisor := Supervisor 0 true Top None false false 0 [].

End Supervisor.
