(* ===== verification/SupervisorInv.v ===== *)
(** * The process supervisor: restarts, killing and what escapes it

    The options are read back from any order in which they are written; the
    number of workers started is bounded, there is never more than one and none is
    left behind; a silent worker is killed and started again; after a stop signal
    the worker is killed before it is waited for.  Then the cases in which the
    timeout is not enforced. *)
From S2P Require Import Prelude Sigd Supervisor.
Import Supervisor.
Open Scope c_scope.

Module SupervisorInv.

(** ** Options *)

Inductive flag := Restart (v : list Z) | Timeout (v : list Z) | Group | Capture.

Definition words (f : flag) : list (list Z) :=
  match f with Restart v => [RESTART; v] | Timeout v => [TIMEOUT; v] | Group => [KILL_GROUP] | Capture => [CAPTURE_OUT] end.

Definition apply_flag (o : options) (f : flag) : options :=
  match f with
  | Restart v => Options (time_val o) (i32 (strtol v)) (kill_group o) (capture_out o)
  | Timeout v => Options (strtol v) (restart_val o) (kill_group o) (capture_out o)
  | Group => Options (time_val o) (restart_val o) true (capture_out o)
  | Capture => Options (time_val o) (restart_val o) (kill_group o) true
  end.

Definition is_flag (w : list Z) : bool := bool_decide (w ∈ [RESTART; TIMEOUT; KILL_GROUP; CAPTURE_OUT]).

Lemma parse_command command args o : is_flag command = false -> parse_args (command :: args) o = (o, Some (command :: args)).
Proof.
  unfold is_flag. rewrite bool_decide_eq_false, !not_elem_of_cons. intros (H1 & H2 & H3 & H4 & _). cbn [parse_args].
  by rewrite !bool_decide_false.
Qed.

(** Options in any order.  Whatever options precede the command, in whatever order
    and however often, the last value given of each counts, and the command keeps
    all its arguments, also those that look like options. *)
Theorem options_read_back flags command args o :
  is_flag command = false ->
  parse_args (flat_map words flags ++ command :: args) o = (foldl apply_flag o flags, Some (command :: args)).
Proof.
  intros Hc. revert o. induction flags as [|f flags IH]; intros o; [by apply parse_command|].
  destruct f; cbn [flat_map words app foldl]; apply IH.
Qed.

(** ** The invariant *)

Section Runs.
Context (o : options).

Definition has_worker (p : phase) : bool := match p with Monitor | Reap => true | _ => false end.

Record sup_ok (s : supervisor) : Prop := {
  ok_count : 0 <= restart_time s <= Z.max 0 (restart_val o + 1);
  ok_started : l_started s = restart_time s + (if worker s is Some _ then 1 else 0);
  ok_worker : has_worker (at_phase s) = if worker s is Some _ then true else false;
  ok_below : has_worker (at_phase s) = true -> restart_time s <= restart_val o;
  ok_running : at_phase s = Monitor -> is_running s = true;
  ok_stopped : forall c, at_phase s = Reap -> is_running s = false -> worker s = Some c -> killed c = true \/ running c = false;
  ok_closed : forall c, worker s = Some c -> running c = false -> pipe_closed c = true }.

Lemma init_sup_ok : sup_ok sup_init.
Proof using. split; cbn; try done. lia. Qed.

Lemma step_sup_ok ev s s' : sup_ok s -> sup_step o ev s = Ret (Some s') -> sup_ok s'.
Proof using.
  intros Hok E. pose proof Hok as [Hc Hs Hw Hb Hr Hst Hcl]. destruct ev as [bs| | | |p f|fd0 r| |]; cbn [sup_step] in E.
  - injection E as E. destruct (worker s) as [c|] eqn:Ew; [|done].
    destruct (running c && negb (pipe_closed c))%bool eqn:Er; [|done]. injection E as <-. apply andb_true_iff in Er as [Er _].
    split; cbn; try done; [|by intros c' [= <-]]. intros c' Hp Hn [= <-]. cbn. destruct (Hst c Hp Hn eq_refl); [by left|congruence].
  - injection E as E. destruct (worker s) as [c|] eqn:Ew; [|done]. destruct (running c) eqn:Er; [|done]. injection E as <-.
    split; cbn; try done; [|by intros c' [= <-]]. intros c' Hp Hn [= <-]. cbn. destruct (Hst c Hp Hn eq_refl); [by left|congruence].
  - injection E as E. destruct (worker s) as [c|] eqn:Ew; [|done]. destruct (running c) eqn:Er; [|done]. injection E as <-.
    split; cbn; try done; [|by intros c' [= <-]]. intros c' Hp Hn [= <-]. by right.
  - injection E as <-. by split.
  - destruct (at_phase s) eqn:Ep; try done.
    destruct ((restart_time s <=? restart_val o) && is_running s)%bool eqn:Eg; cbn [negb] in E; [|by injection E as <-; split].
    destruct (capture_out o && negb p)%bool; [by injection E as <-; split|].
    destruct f; cbn [negb] in E; [|by injection E as <-; split]. injection E as <-.
    apply andb_true_iff in Eg as [El Er]. apply Z.leb_le in El. cbn [has_worker] in Hw. destruct (worker s); [done|].
    split; cbn; try done; [lia|]. by intros c [= <-].
  - unfold select_step in E. destruct (at_phase s) eqn:Ep; try done. destruct (worker s) as [c|] eqn:Ew; [|done].
    rewrite (Hr eq_refl) in E. cbn [negb] in E. destruct (negb _); [done|]. destruct r as [|buf| |].
    + destruct (_ || _)%bool; [done|]. injection E as <-. split; cbn; rewrite ?Ep; try done. intros c' [= <-]. exact (Hcl c eq_refl).
    + destruct (negb _); [done|]. destruct (_ =? 0).
      { injection E as <-. split; cbn; rewrite ?Ew; try done. intros c' _ Hn. by rewrite (Hr eq_refl) in Hn. }
      peel E as b Eb. destruct (existsb _ _); [|done]. injection E as <-. split; cbn; rewrite ?Ep; try done.
      intros c' [= <-]. exact (Hcl c eq_refl).
    + destruct (negb _); [done|]. injection E as <-. destruct (sigstop s); split; cbn; try done; intros c'.
      * intros _ _ [= <-]. by left.
      * intros [= <-]. exact (Hcl c eq_refl).
    + by injection E as <-.
  - destruct (at_phase s) eqn:Ep; try done. destruct (worker s) as [c|] eqn:Ew; [|done]. destruct (running c); [done|].
    destruct (negb _); [done|]. injection E as <-. specialize (Hb eq_refl).
    destruct (_ && _)%bool; split; cbn; try done; lia.
  - destruct (at_phase s) eqn:Ep; try done. injection E as <-. cbn [has_worker] in Hw. destruct (worker s) eqn:Ew; [done|]. by split; cbn; rewrite ?Ew.
Qed.

Lemma run_sup_ok evs s s' : sup_ok s -> sup_run o evs s = Ret (Some s') -> sup_ok s'.
Proof using.
  revert s. induction evs as [|ev evs IH]; intros s Hok E; cbn [sup_run] in E; [by injection E as <-|].
  peel E as r Er. destruct r as [s1|]; [|done]. apply (IH s1); [|done]. by apply (step_sup_ok ev s).
Qed.

End Runs.

(** ** Guarantees *)

(** C23: Bounded restarts, nothing left behind.  In every state the supervisor can reach
    at most one more worker than the restarts allowed has been started, there is a
    worker exactly while it is watched or waited for, so never two, and when the
    supervisor has returned every worker started has been waited for. *)
Theorem workers_bounded_and_reaped o evs s :
  sup_run o evs sup_init = Ret (Some s) ->
  0 <= l_started s <= Z.max 0 (restart_val o + 1) /\
  (is_Some (worker s) <-> at_phase s = Monitor \/ at_phase s = Reap) /\
  (at_phase s = Done -> worker s = None /\ restart_time s = l_started s).
Proof.
  intros E. destruct (run_sup_ok o evs _ s (init_sup_ok o) E) as [Hc Hs Hw Hb _ _ _].
  destruct (worker s) as [c|].
  - split_and!; [lia|specialize (Hb Hw); lia| |].
    + split; [|by eexists]. intros _. destruct (at_phase s); try done; [by left|by right].
    + intros Hd. by rewrite Hd in Hw.
  - split_and!; [lia|lia| |].
    + split; [by intros [? ?]|]. by intros [Hp|Hp]; rewrite Hp in Hw.
    + intros _. split; [done|lia].
Qed.

(** A stop signal kills.  In every reachable state in which the supervisor has seen
    a stop signal and waits for its worker, that worker has been sent SIGKILL or is
    gone; and when it is gone, waiting for it and returning are the only steps
    left: no further worker is started. *)
Theorem stop_kills_worker o evs s c :
  sup_run o evs sup_init = Ret (Some s) -> is_running s = false -> at_phase s = Reap -> worker s = Some c ->
  (killed c = true \/ running c = false) /\
  (running c = false -> restart_time s < 2 ^ 31 - 1 -> forall pipe_ok fork_ok,
     exists s', sup_run o [Wait; Start pipe_ok fork_ok] s = Ret (Some s') /\ at_phase s' = Done /\ l_started s' = l_started s).
Proof.
  intros E Hr Hp Hw. destruct (run_sup_ok o evs _ s (init_sup_ok o) E) as [Hc _ _ _ _ Hst _].
  split; [by apply (Hst c)|]. intros Hd Hlt pipe_ok fork_ok. cbn [sup_run sup_step]. rewrite Hp, Hw, Hd.
  assert (i32 (restart_time s + 1) = restart_time s + 1) as ->.
  { unfold i32. rewrite Z.mod_small by lia. destruct (Z.ltb_spec (restart_time s + 1) (2 ^ 31)); lia. }
  rewrite Z.eqb_refl, Hr, andb_false_r. cbn [negb mbind outcome_bind set_at_phase at_phase is_running set_worker set_restart_time].
  rewrite Hr, andb_false_r. cbn [negb mbind outcome_bind]. by eexists.
Qed.

(** A silent worker is killed and started again.  When the time runs out without a
    word from the worker it is sent SIGKILL; its end interrupts the watching, it is
    waited for and, if restarts are left, a fresh worker is watched. *)
Theorem silent_worker_restarted o s c fd0 :
  at_phase s = Monitor -> is_running s = true -> worker s = Some c -> running c = true ->
  pipe_data c = [] -> pipe_closed c = false -> sigchld s = false -> sigstop s = false -> 0 <= fd0 < 1024 ->
  0 <= restart_time s < restart_val o -> restart_val o < 2 ^ 31 ->
  exists s1 s', sup_run o [Select fd0 SelTimeout] s = Ret (Some s1) /\ worker s1 = Some (kill c) /\
    sup_run o [Exits; Select fd0 SelIntr; Wait; Rest; Start true true] s1 = Ret (Some s') /\
    at_phase s' = Monitor /\ worker s' = Some (Child true false [] false) /\ restart_time s' = restart_time s + 1.
Proof.
  intros Hp Hr Hw Hrun Hd Hcl Hch Hst Hfd Ht Hv.
  assert (((0 <=? fd0) && (fd0 <? 1024))%bool = true) as Hfd' by (apply andb_true_iff; split; [apply Z.leb_le|apply Z.ltb_lt]; lia).
  assert (i32 (restart_time s + 1) = restart_time s + 1) as Hi.
  { unfold i32. rewrite Z.mod_small by lia. destruct (Z.ltb_spec (restart_time s + 1) (2 ^ 31)); lia. }
  assert ((restart_time s + 1 <=? restart_val o) = true) as Hle by (apply Z.leb_le; lia).
  eexists _, _. split_and!.
  - cbn [sup_run sup_step]. unfold select_step. rewrite Hp, Hw, Hr, Hfd', Hch, Hst. unfold ready. rewrite Hd, Hcl.
    change (bool_decide (@nil Z = [])) with true. cbn [negb orb]. rewrite andb_false_r. cbn [mbind outcome_bind]. reflexivity.
  - reflexivity.
  - cbn [sup_run sup_step worker set_worker kill running]. rewrite Hrun.
    cbn [mbind outcome_bind sup_step]. unfold select_step.
    cbn [at_phase worker set_worker set_sigchld is_running]. rewrite Hp, Hr, Hfd'. cbn [negb sigchld set_sigchld orb sigstop].
    cbn [mbind outcome_bind]. cbn [at_phase worker set_at_phase set_worker set_is_running set_sigchld set_sigstop].
    cbn [sigstop set_sigchld set_worker]. rewrite Hst. cbn [negb running restart_time set_at_phase set_worker set_is_running
      set_sigchld set_sigstop is_running]. rewrite Hi, Z.eqb_refl, Hle. cbn [negb andb mbind outcome_bind at_phase set_at_phase].
    cbn [restart_time set_at_phase set_worker set_restart_time is_running set_is_running]. rewrite Hle.
    cbn [negb andb mbind outcome_bind]. rewrite andb_false_r. reflexivity.
  - reflexivity.
  - reflexivity.
  - reflexivity.
Qed.

(** ** What escapes the supervisor *)

(** The supervisor is in [waitpid] for a worker that runs and was never killed: no
    step of its own is possible, so no timeout will be noticed. *)
Definition waits_unbounded (o : options) (s : supervisor) : Prop :=
  at_phase s = Reap /\ is_running s = true /\
  (exists c, worker s = Some c /\ running c = true /\ killed c = false) /\
  (forall p f, sup_step o (Start p f) s = Ret None) /\ (forall fd0 r, sup_step o (Select fd0 r) s = Ret None) /\
  sup_step o Wait s = Ret None /\ sup_step o Rest s = Ret None.

(** The timeout ends with the output.  With -c, a worker that closes its output
    and runs on is waited for without any limit of time. *)
Theorem closed_output_ends_timeout o : capture_out o = true -> 0 <= restart_val o ->
  exists s, sup_run o [Start true true; Closes; Select 3 (SelReady (replicate 128 0))] sup_init = Ret (Some s) /\ waits_unbounded o s.
Proof.
  intros Hc Hv. assert ((0 <=? restart_val o) = true) as Hle by (by apply Z.leb_le).
  cbn [sup_run sup_step sup_init at_phase restart_time is_running]. rewrite Hle, Hc. cbn. unfold select_step. cbn. rewrite Hc. cbn.
  eexists. split; [reflexivity|]. split_and!; try done. by eexists.
Qed.

(** A worker's end can take the timeout from the next one.  With -c, when the end of
    the pipe is seen before SIGCHLD, this signal stays blocked and interrupts the
    watching of the next worker at once: that one is waited for without any limit
    of time although it has only just been started. *)
Theorem stale_sigchld_ends_timeout o : capture_out o = true -> 1 <= restart_val o ->
  exists s, sup_run o [Start true true; Exits; Select 3 (SelReady (replicate 128 0)); Wait; Rest; Start true true; Select 3 SelIntr]
      sup_init = Ret (Some s) /\ waits_unbounded o s /\ l_started s = 2.
Proof.
  intros Hc Hv. destruct o as [tv [|[v|v|]|v] kg co]; cbn in Hc, Hv; subst co; try lia;
    (eexists; split; [vm_compute; reflexivity|]; split; [|done]; split_and!; try done; by eexists).
Qed.

(** Rounds in which the worker writes and the supervisor reads. *)
Definition chatter (chunks : list (list Z)) : list event :=
  flat_map (fun bs => [Writes bs; Select 3 (SelReady (replicate 128 0))]) chunks.

(** A worker that keeps writing is never killed.  The timeout counts from the last
    output, not from the start: however long it goes on, a worker that writes
    before each timeout is watched for ever. *)
Theorem chatty_worker_never_killed o chunks s :
  capture_out o = true -> at_phase s = Monitor -> is_running s = true -> worker s = Some (Child true false [] false) ->
  Forall (fun bs => 0 < length bs < 128)%nat chunks ->
  exists s', sup_run o (chatter chunks) s = Ret (Some s') /\
    at_phase s' = Monitor /\ worker s' = Some (Child true false [] false) /\ l_started s' = l_started s.
Proof.
  intros Hc Hp Hr Hw Hf. revert s Hp Hr Hw. induction Hf as [|bs chunks Hb _ IH]; intros s Hp Hr Hw; [by eexists|].
  cbn [chatter flat_map app sup_run sup_step]. rewrite Hw. cbn [running pipe_closed negb andb mbind outcome_bind].
  unfold select_step. cbn [at_phase set_worker worker is_running pipe_data app killed]. rewrite Hp, Hr, Hc.
  change (negb ((0 <=? 3) && (3 <? 1024))) with false. cbn [negb andb].
  assert (ready (Child true false bs false) = true) as ->.
  { unfold ready. cbn [pipe_data]. rewrite bool_decide_false; [done|]. intros ->. cbn in Hb. lia. }
  rewrite take_ge, drop_ge by lia. cbn [negb].
  destruct (Z.eqb_spec (zlen bs) 0) as [E|_]; [unfold zlen in E; lia|].
  change (replicate 128 0) with ([] ++ replicate 128 0).
  rewrite write_at_cursor by (done || (rewrite zlen_replicate; unfold zlen; lia)). cbn [mbind outcome_bind app].
  assert (existsb (Z.eqb 0) (bs ++ drop (length bs) (replicate 128 0)) = true) as ->.
  { rewrite existsb_app, drop_replicate. destruct (128 - length bs)%nat eqn:E; [lia|]. apply orb_true_r. }
  cbn [mbind outcome_bind].
  match goal with |- exists s', sup_run o _ ?s1 = _ /\ _ => apply (IH s1) end; [exact Hp|exact Hr|reflexivity].
Qed.

(** Undefined output.  What is read from the worker is printed as a string without
    having been terminated: 128 bytes without a zero byte are read on past the
    array. *)
Theorem full_read_overruns o s c fd0 buf :
  capture_out o = true -> at_phase s = Monitor -> is_running s = true -> worker s = Some c -> 0 <= fd0 < 1024 ->
  (128 <= length (pipe_data c))%nat -> nonzero (take 128 (pipe_data c)) -> length buf = 128%nat ->
  sup_step o (Select fd0 (SelReady buf)) s = Undef.
Proof.
  intros Hc Hp Hr Hw Hfd Hl Hz Hb. cbn [sup_step]. unfold select_step. rewrite Hp, Hw, Hr, Hc.
  assert (((0 <=? fd0) && (fd0 <? 1024))%bool = true) as -> by (apply andb_true_iff; split; [apply Z.leb_le|apply Z.ltb_lt]; lia).
  assert (ready c = true) as ->.
  { unfold ready. rewrite bool_decide_false; [done|]. intros E. rewrite E in Hl. cbn in Hl. lia. }
  cbn [negb andb]. assert (length (take 128 (pipe_data c)) = 128%nat) as Ht by (rewrite length_take; lia).
  destruct (Z.eqb_spec (zlen (take 128 (pipe_data c))) 0) as [E|_]; [unfold zlen in E; lia|].
  change buf with ([] ++ buf). rewrite write_at_cursor by (done || (unfold zlen; lia)). cbn [mbind outcome_bind app].
  rewrite drop_ge, app_nil_r by lia.
  assert (existsb (Z.eqb 0) (take 128 (pipe_data c)) = false) as ->; [|done].
  apply not_true_is_false. rewrite existsb_exists. intros (b & Hin & Eb%Z.eqb_eq). subst b.
  unfold nonzero in Hz. rewrite List.Forall_forall in Hz. by apply (Hz 0).
Qed.

(** ** Concrete runs *)

Definition capturing : options := Options 3 2 false true.

Lemma options_read_back_witness :
  parse_args (flat_map words [Capture; Timeout (bstr "3"); Group; Restart (bstr "2")] ++ bstr "/bin/ls" :: [bstr "-c"]) default_options
  = (Options 3 2 true true, Some [bstr "/bin/ls"; bstr "-c"]).
Proof.
  apply (options_read_back [Capture; Timeout (bstr "3"); Group; Restart (bstr "2")] (bstr "/bin/ls") [bstr "-c"] default_options).
  by vm_compute.
Defined.

Definition two_runs : list event :=
  [Start true true; Exits; Select 3 SelIntr; Wait; Rest; Start true true; StopSignal; Select 3 SelIntr].

Lemma workers_bounded_and_reaped_witness :
  exists s, sup_run capturing two_runs sup_init = Ret (Some s) /\
    (0 <= l_started s <= Z.max 0 (restart_val capturing + 1) /\
     (is_Some (worker s) <-> at_phase s = Monitor \/ at_phase s = Reap) /\
     (at_phase s = Done -> worker s = None /\ restart_time s = l_started s)).
Proof.
  eexists. split; [vm_compute; reflexivity|]. apply (workers_bounded_and_reaped capturing two_runs). by vm_compute.
Defined.

Lemma stop_kills_worker_witness :
  exists s c, sup_run capturing two_runs sup_init = Ret (Some s) /\ worker s = Some c /\
    ((killed c = true \/ running c = false) /\
     (running c = false -> restart_time s < 2 ^ 31 - 1 -> forall pipe_ok fork_ok,
       exists s', sup_run capturing [Wait; Start pipe_ok fork_ok] s = Ret (Some s') /\ at_phase s' = Done /\ l_started s' = l_started s)).
Proof.
  eexists _, _. split; [vm_compute; reflexivity|]. split; [reflexivity|].
  apply (stop_kills_worker capturing two_runs); [by vm_compute|reflexivity..].
Defined.

Definition watched : supervisor := Supervisor 0 true Monitor (Some (Child true false [] false)) false false 1 [].

Lemma silent_worker_restarted_witness :
  exists s1 s', sup_run capturing [Select 3 SelTimeout] watched = Ret (Some s1) /\
    worker s1 = Some (kill (Child true false [] false)) /\
    sup_run capturing [Exits; Select 3 SelIntr; Wait; Rest; Start true true] s1 = Ret (Some s') /\
    at_phase s' = Monitor /\ worker s' = Some (Child true false [] false) /\ restart_time s' = 1.
Proof. apply (silent_worker_restarted capturing watched (Child true false [] false) 3); cbn; (reflexivity || lia). Defined.

Lemma closed_output_ends_timeout_witness :
  exists s, sup_run capturing [Start true true; Closes; Select 3 (SelReady (replicate 128 0))] sup_init = Ret (Some s) /\
    waits_unbounded capturing s.
Proof. apply (closed_output_ends_timeout capturing); [done|cbn; lia]. Defined.

Lemma stale_sigchld_ends_timeout_witness :
  exists s, sup_run capturing [Start true true; Exits; Select 3 (SelReady (replicate 128 0)); Wait; Rest; Start true true; Select 3 SelIntr]
      sup_init = Ret (Some s) /\ waits_unbounded capturing s /\ l_started s = 2.
Proof. apply (stale_sigchld_ends_timeout capturing); [done|cbn; lia]. Defined.

Lemma chatty_worker_never_killed_witness :
  exists s', sup_run capturing (chatter [[65]; [66; 67]]) watched = Ret (Some s') /\
    at_phase s' = Monitor /\ worker s' = Some (Child true false [] false) /\ l_started s' = 1.
Proof.
  apply (chatty_worker_never_killed capturing [[65]; [66; 67]] watched); [done..|]. repeat constructor.
Defined.

Lemma full_read_overruns_witness :
  sup_step capturing (Select 3 (SelReady (replicate 128 0)))
    (Supervisor 0 true Monitor (Some (Child true false (replicate 130 65) false)) false false 1 []) = Undef.
Proof.
  apply (full_read_overruns capturing _ (Child true false (replicate 130 65) false) 3 (replicate 128 0));
    [done..|lia|by apply Nat.leb_le|apply (bool_decide_unpack _); by vm_compute|done].
Defined.

End SupervisorInv.
