(* ===== verification/HubCtl.v ===== *)
(** * The System V hub controller (hub/hub_controller.c)

    The process that feeds the message queue of the sensor hub: a thread that
    sends the commands 1 to 4 in turn, a thread that turns SIGTERM and SIGINT into
    a SHUTDOWN message and clears the running flag, and a thread that removes the
    IPC objects afterwards.  A section under the mutex, a [msgsnd] and the removal
    are one step each; [msgsnd] blocks on a full queue. *)
From S2P Require Import Prelude Ring SysV.
Import SysV.
Open Scope c_scope.

Module HubCtl.

(** [controller_thread]: about to look at the flag, about to send, returned. *)
Inductive ctl_pc := CCheck | CSend | CDone.

(** [sig_thread]: in [sigwaitinfo], about to send, about to clear the flag, returned. *)
Inductive hsig_pc := HWait | HSend | HFlag | HDone.

(** [cleaning_thread]: waiting for the flag, about to remove the objects, returned. *)
Inductive cleaner_pc := KWait | KClean | KDone.

(** The state of [system_config], the threads and the message queue.  The logs are
    the commands sent by [controller_thread], and all messages sent. *)
Record hub := Hub {
  running : bool; count : Z; ctl : ctl_pc;
  hsig : hsig_pc; cleaner : cleaner_pc; queue : list message_control;
  removed : bool; l_sent : list message_control; l_all : list message_control }.
Definition set_running (v : bool) (x : hub) : hub :=
  Hub v (count x) (ctl x) (hsig x) (cleaner x) (queue x) (removed x) (l_sent x) (l_all x).
Definition set_count (v : Z) (x : hub) : hub :=
  Hub (running x) v (ctl x) (hsig x) (cleaner x) (queue x) (removed x) (l_sent x) (l_all x).
Definition set_ctl (v : ctl_pc) (x : hub) : hub :=
  Hub (running x) (count x) v (hsig x) (cleaner x) (queue x) (removed x) (l_sent x) (l_all
    x).
Definition set_hsig (v : hsig_pc) (x : hub) : hub :=
  Hub (running x) (count x) (ctl x) v (cleaner x) (queue x) (removed x) (l_sent x) (l_all
    x).
Definition set_cleaner (v : cleaner_pc) (x : hub) : hub :=
  Hub (running x) (count x) (ctl x) (hsig x) v (queue x) (removed x) (l_sent x) (l_all x).
Definition set_queue (v : list message_control) (x : hub) : hub :=
  Hub (running x) (count x) (ctl x) (hsig x) (cleaner x) v (removed x) (l_sent x) (l_all x).
Definition set_removed (v : bool) (x : hub) : hub :=
  Hub (running x) (count x) (ctl x) (hsig x) (cleaner x) (queue x) v (l_sent x) (l_all x).
Definition set_l_sent (v : list message_control) (x : hub) : hub :=
  Hub (running x) (count x) (ctl x) (hsig x) (cleaner x) (queue x) (removed x) v (l_all x).
Definition set_l_all (v : list message_control) (x : hub) : hub :=
  Hub (running x) (count x) (ctl x) (hsig x) (cleaner x) (queue x) (removed x) (l_sent x) v.

Section Hub.
Context (pid cap : Z).

Definition control_message (type : Z) : message_control := MessageControl type (Message pid (cmd_to_string type)).

(** The type [(enum type_message)count%5] and the step of the counter. *)
Definition next_type (h : hub) : Z := Z.rem (count h) 5.
Definition next_count (h : hub) : Z := if count h + 1 =? 5 then 1 else count h + 1.

(** [msgsnd] without flags: [None] while it blocks, a failure once the queue is
    removed. *)
Definition msgsnd (h : hub) (m : message_control) : option (bool * hub) :=
  if removed h then Some (false, h)
  else if zlen (queue h) <? cap then Some (true, set_l_all (l_all h ++ [m]) (set_queue (queue h ++ [m]) h))
  else None.

Definition ctl_step (h : hub) : option hub :=
  match ctl h with
  | CCheck => Some (set_ctl (if running h then CSend else CDone) h)
  | CSend =>
      let m := control_message (next_type h) in
      match msgsnd h m with
      | None => None
      | Some (false, h) => Some (set_ctl CCheck h)
      | Some (true, h') => Some (set_ctl CCheck (set_count (next_count h) (set_l_sent (l_sent h ++ [m]) h')))
      end
  | CDone => None
  end.

Definition hsig_step (h : hub) : option hub :=
  match hsig h with
  | HSend =>
      match msgsnd h (control_message SHUTDOWN) with
      | None => None
      | Some (_, h) => Some (set_hsig HFlag h)
      end
  | HFlag => Some (set_hsig HDone (set_running false h))
  | HWait | HDone => None
  end.

Definition cleaner_step (h : hub) : option hub :=
  match cleaner h with
  | KWait => if running h then None else Some (set_cleaner KClean h)
  | KClean => Some (set_cleaner KDone (set_removed true h))
  | KDone => None
  end.

Inductive hub_event := Ctl | HSig | Cleaner | Arrives (s : signal) | Takes.

(** [Takes]: the sensor writer receives the oldest message. *)
Definition hub_step (ev : hub_event) (h : hub) : option hub :=
  match ev with
  | Ctl => ctl_step h
  | HSig => hsig_step h
  | Cleaner => cleaner_step h
  | Arrives s => match hsig h with HWait => Some (if terminates s then set_hsig HSend h else h) | _ => None end
  | Takes => match queue h with [] => None | _ :: q => if removed h then None else Some (set_queue q h) end
  end.

Fixpoint hub_run (evs : list hub_event) (h : hub) : option hub :=
  match evs with [] => Some h | ev :: evs => match hub_step ev h with Some h => hub_run evs h | None => None end end.

Definition hub_init : hub := Hub true 1 CCheck HWait KWait [] false [] [].

(** ** The controller and the sensor writer *)

(** The receive of the writer takes the oldest message of the queue. *)
Inductive sys_event := HubEv (ev : hub_event) | WriterEv (ev : event) | Deliver.

Definition own_event (ev : sys_event) : bool :=
  match ev with HubEv Takes => false | WriterEv (Arrive _) => false | _ => true end.

Definition sys_step (ev : sys_event) (s : hub * writer) : outcome (option (hub * writer)) :=
  let '(h, w) := s in
  match ev with
  | HubEv ev => Ret (match hub_step ev h with Some h => Some (h, w) | None => None end)
  | WriterEv ev => r ← writer_step ev w; Ret (match r with Some w => Some (h, w) | None => None end)
  | Deliver =>
      match queue h with
      | [] => Ret None
      | c :: _ =>
          r ← writer_step (Arrive c) w;
          Ret (match hub_step Takes h, r with Some h, Some w => Some (h, w) | _, _ => None end)
      end
  end.

Fixpoint sys_run (evs : list sys_event) (s : hub * writer) : outcome (option (hub * writer)) :=
  match evs with
  | [] => Ret (Some s)
  | ev :: evs =>
      r ← sys_step ev s;
      match r with Some s => sys_run evs s | None => Ret None end
  end.

End Hub.
End HubCtl.
