(* ===== verification/HubCtlInv.v ===== *)
(** * The hub controller: order, shutdown, and the way to the workers

    What the controller sends and in which order, that it shuts down once its
    signal thread has cleared the flag, that every message it sends is taken once
    and in order by the workers of the sensor writer, and that a full queue keeps
    it from shutting down. *)
From S2P Require Import Prelude Ring SysV SysVHub SysVWriter HubCtl.
Import SysV SysVHub SysVWriter HubCtl.
Open Scope c_scope.

Module HubCtlInv.

Section Hub.
Context (pid cap : Z).

(** ** The controller alone *)

Record hub_ok (h : hub) : Prop := {
  ok_queue : exists taken, l_all h = taken ++ queue h;
  ok_count : count h = zlen (l_sent h) mod 4 + 1;
  ok_turn : forall i m, l_sent h !! i = Some m -> m = control_message pid (Z.of_nat i mod 4 + 1);
  ok_logs : filter (fun m => mtype m <> SHUTDOWN) (l_all h) = l_sent h;
  ok_flag : running h = false <-> hsig h = HDone;
  ok_clean : cleaner h <> KWait -> running h = false;
  ok_removed : removed h = true <-> cleaner h = KDone;
  ok_ended : ctl h = CDone -> running h = false }.

Lemma init_ok_hub : hub_ok hub_init.
Proof using. split; cbn; try done. by exists []. Qed.

Lemma count_step h : count h = zlen (l_sent h) mod 4 + 1 ->
  next_type h = zlen (l_sent h) mod 4 + 1 /\ next_count h = (zlen (l_sent h) + 1) mod 4 + 1.
Proof using.
  intros Hc. unfold next_type, next_count. rewrite Hc. pose proof (Z.mod_pos_bound (zlen (l_sent h)) 4 ltac:(lia)) as Hb.
  split; [apply Z.rem_small; lia|]. rewrite Z.add_mod by lia.
  assert (zlen (l_sent h) mod 4 = 0 \/ zlen (l_sent h) mod 4 = 1 \/ zlen (l_sent h) mod 4 = 2 \/ zlen (l_sent h) mod 4 = 3)
    as [-> |[-> |[-> | ->]]] by lia; done.
Qed.

Lemma hub_ctl_step_ok ev h h' : hub_ok h -> hub_step pid cap ev h = Some h' -> hub_ok h'.
Proof using.
  intros [(taken & Hq) Hc Ht Hl Hf Hcl Hr He] E. destruct ev; cbn [hub_step] in E.
  - unfold ctl_step in E. destruct (ctl h) eqn:Ec; [..|done].
    + injection E as <-. destruct (running h) eqn:Er; split; cbn; rewrite ?Er; try done; try (by exists taken).
    + unfold msgsnd in E. destruct (removed h) eqn:Erm.
      { injection E as <-. split; cbn; rewrite ?Erm; try done; try (by exists taken). }
      destruct (zlen (queue h) <? cap); [|done]. injection E as <-. destruct (count_step h Hc) as [En Enc].
      pose proof (Z.mod_pos_bound (zlen (l_sent h)) 4 ltac:(lia)).
      split; cbn; rewrite ?Erm; try done.
      * exists taken. by rewrite Hq, app_assoc.
      * rewrite Enc, zlen_app. done.
      * intros i m Hi. apply lookup_app_Some in Hi as [Hi|[Hge Hi]]; [by apply Ht|].
        apply list_lookup_singleton_Some in Hi as [Hi <-]. rewrite En. unfold zlen. do 3 f_equal. lia.
      * rewrite filter_app, Hl. f_equal. rewrite filter_cons, filter_nil. rewrite decide_True; [done|]. cbn. rewrite En. unfold SHUTDOWN. lia.
  - unfold hsig_step in E. destruct (hsig h) eqn:Es; try done.
    + unfold msgsnd in E. destruct (removed h) eqn:Erm.
      { injection E as <-. split; cbn; rewrite ?Erm; try done; try (by exists taken). rewrite Hf. by split. }
      destruct (zlen (queue h) <? cap); [|done]. injection E as <-. split; cbn; rewrite ?Erm; try done.
      * exists taken. by rewrite Hq, app_assoc.
      * rewrite filter_app, Hl, filter_cons, filter_nil, decide_False by (cbn; tauto). apply app_nil_r.
      * rewrite Hf. by split.
    + injection E as <-. split; cbn; try done; try (by exists taken).
  - unfold cleaner_step in E. destruct (cleaner h) eqn:Ek; [..|done].
    + destruct (running h) eqn:Er; [done|]. injection E as <-. split; cbn; rewrite ?Er; try done; try (by exists taken). rewrite Hr. by split.
    + injection E as <-. split; cbn; try done; try (by exists taken). intros _. by apply Hcl.
  - destruct (hsig h) eqn:Es; try done. injection E as <-. destruct (terminates s); split; cbn; rewrite ?Es; try done; try (by exists taken).
    rewrite Hf. by split.
  - destruct (queue h) as [|c q] eqn:Eq; [done|]. destruct (removed h) eqn:Erm; [done|]. injection E as <-.
    split; cbn; rewrite ?Erm; try done. exists (taken ++ [c]). by rewrite Hq, <- app_assoc.
Qed.

Lemma hub_ctl_run_ok evs h h' : hub_ok h -> hub_run pid cap evs h = Some h' -> hub_ok h'.
Proof using.
  revert h. induction evs as [|ev evs IH]; intros h Hh E; cbn [hub_run] in E; [by injection E as <-|].
  destruct (hub_step pid cap ev h) as [h1|] eqn:Es; [|done]. apply (IH h1); [|done]. by apply (hub_ctl_step_ok ev h).
Qed.

(** ** Shutdown *)

Definition ctl_left (p : ctl_pc) : nat := match p with CSend => 2 | CCheck => 1 | CDone => 0 end.
Definition cleaner_left (p : cleaner_pc) : nat := match p with KWait => 2 | KClean => 1 | KDone => 0 end.

(** The steps left once the flag is cleared. *)
Definition steps_left (h : hub) : nat := ctl_left (ctl h) + cleaner_left (cleaner h).

Definition ended (h : hub) : Prop := ctl h = CDone /\ hsig h = HDone /\ cleaner h = KDone.

Lemma stopping_step ev h h' : hub_ok h -> running h = false -> hub_step pid cap ev h = Some h' ->
  running h' = false /\ (steps_left h' < steps_left h \/ (ev = Takes /\ steps_left h' = steps_left h))%nat.
Proof using.
  intros Hok Hr E. pose proof (proj1 (ok_flag _ Hok) Hr) as Hs. unfold steps_left. destruct ev; cbn [hub_step] in E.
  - unfold ctl_step, msgsnd in E. rewrite Hr in E. destruct (ctl h) eqn:Ec; try done.
    + injection E as <-. cbn. split; [done|lia].
    + destruct (removed h); [|destruct (_ <? _); [|done]]; injection E as <-; cbn; (split; [done|lia]).
  - unfold hsig_step in E. by rewrite Hs in E.
  - unfold cleaner_step in E. rewrite Hr in E. destruct (cleaner h) eqn:Ek; try done; injection E as <-; cbn; (split; [done|lia]).
  - by rewrite Hs in E.
  - destruct (queue h); [done|]. destruct (removed h); [done|]. injection E as <-. cbn. split; [done|by right].
Qed.

Lemma stopping_progress h : hub_ok h -> running h = false -> ended h \/
  exists ev h', ev <> Takes /\ hub_step pid cap ev h = Some h'.
Proof using.
  intros Hok Hr. pose proof (proj1 (ok_flag _ Hok) Hr) as Hs. destruct (cleaner h) eqn:Ek.
  - right. exists Cleaner. eexists. split; [done|]. cbn. unfold cleaner_step. by rewrite Ek, Hr.
  - right. exists Cleaner. eexists. split; [done|]. cbn. unfold cleaner_step. by rewrite Ek.
  - destruct (ctl h) eqn:Ec; [right|right|by left].
    + exists Ctl. eexists. split; [done|]. cbn. unfold ctl_step. by rewrite Ec.
    + exists Ctl. eexists. split; [done|]. cbn. unfold ctl_step, msgsnd. by rewrite Ec, (proj2 (ok_removed _ Hok) Ek).
Qed.

(** ** Down to the workers *)

(** Every message sent is with the workers, on its way, or still in the queue. *)
Definition sys_ok (s : hub * writer) : Prop :=
  hub_ok s.1 /\ exists seen, quiet_ok s.2 seen /\ l_all s.1 = seen ++ queue s.1.

Definition quiet_event (ev : sys_event) : bool :=
  (own_event ev && match ev with WriterEv ev => quiet ev | _ => true end)%bool.

Lemma hub_step_log ev h h' : ev <> Takes -> hub_step pid cap ev h = Some h' ->
  exists ms, l_all h' = l_all h ++ ms /\ queue h' = queue h ++ ms.
Proof using.
  intros Hev E. destruct ev; try done; cbn [hub_step] in E.
  - unfold ctl_step, msgsnd in E. destruct (ctl h); try done.
    + injection E as <-. exists []. by rewrite !app_nil_r.
    + destruct (removed h); [injection E as <-; exists []; by rewrite !app_nil_r|]. destruct (_ <? _); [|done].
      injection E as <-. by eexists.
  - unfold hsig_step, msgsnd in E. destruct (hsig h); try done; [|injection E as <-; exists []; by rewrite !app_nil_r].
    destruct (removed h); [injection E as <-; exists []; by rewrite !app_nil_r|]. destruct (_ <? _); [|done].
    injection E as <-. by eexists.
  - unfold cleaner_step in E. destruct (cleaner h); try done; [destruct (running h); [done|]|];
      injection E as <-; exists []; by rewrite !app_nil_r.
  - destruct (hsig h); try done. injection E as <-. exists []. destruct (terminates s); by rewrite !app_nil_r.
Qed.

Lemma sys_step_ok ev s s' : quiet_event ev = true -> sys_ok s -> sys_step pid cap ev s = Ret (Some s') -> sys_ok s'.
Proof using.
  intros Hev [Hh (seen & Hq & Hl)] E. destruct s as [h w]. cbn [fst snd] in *. unfold quiet_event in Hev.
  apply andb_true_iff in Hev as [Ho Hqu]. destruct ev as [ev|ev|]; cbn [sys_step] in E.
  - injection E as E. destruct (hub_step pid cap ev h) as [h'|] eqn:Es; [|done]. injection E as <-.
    assert (ev <> Takes) as Hne by (intros ->; by cbn in Ho).
    split; [by apply (hub_ctl_step_ok ev h)|]. exists seen. split; [done|]. cbn [fst].
    destruct (hub_step_log ev h h' Hne Es) as (ms & -> & ->). by rewrite Hl, app_assoc.
  - peel E as r Er. destruct r as [w'|]; [|done]. injection E as <-. split; [done|]. cbn [fst snd] in *.
    pose proof (quiet_step ev w w' seen Hq Hqu Er) as Hq'.
    assert (arrivals [ev] = []) as Ha by (destruct ev; try done; by cbn in Ho).
    rewrite Ha, app_nil_r in Hq'. by exists seen.
  - destruct (queue h) as [|c q] eqn:Eq; [done|]. peel E as r Er. pose proof (quiet_step (Arrive c) w) as Hst.
    cbn [hub_step] in E. rewrite Eq in E. destruct (removed h) eqn:Erm; [done|]. destruct r as [w'|]; [|done]. injection E as <-.
    split; [apply (hub_ctl_step_ok Takes h); [done|]; cbn; by rewrite Eq, Erm|].
    exists (seen ++ [c]). split; [by apply (Hst w' seen Hq)|]. cbn. by rewrite Hl, <- app_assoc.
Qed.

Lemma sys_run_ok evs s s' : forallb quiet_event evs = true -> sys_ok s -> sys_run pid cap evs s = Ret (Some s') -> sys_ok s'.
Proof using.
  revert s. induction evs as [|ev evs IH]; intros s Hev Hs E; cbn [sys_run forallb] in *; [by injection E as <-|].
  apply andb_true_iff in Hev as [Hev Hevs]. peel E as r Er. destruct r as [s1|]; [|done].
  apply (IH s1); [done| |done]. by apply (sys_step_ok ev s).
Qed.

End Hub.

(** ** Properties *)

(** Commands in turn.  Under every schedule the command thread sends the commands
    1, 2, 3, 4, 1, ... with their texts, every one once however often sending
    fails, and the queue holds the messages sent and not yet received, oldest
    first; the only other messages are SHUTDOWN. *)
Theorem controller_sends_in_turn pid cap evs h :
  hub_run pid cap evs hub_init = Some h ->
  (forall i m, l_sent h !! i = Some m -> m = control_message pid (Z.of_nat i mod 4 + 1)) /\
  filter (fun m => mtype m <> SHUTDOWN) (l_all h) = l_sent h /\
  exists received, l_all h = received ++ queue h.
Proof. intros E. by destruct (hub_ctl_run_ok pid cap evs _ h (init_ok_hub pid) E). Qed.

(** Once the flag is cleared the controller ends.  In every reachable state with the
    flag cleared all threads have returned or one of them can step, a blocked
    sender included, because the queue is removed; and every step of the controller
    brings the end closer, so at most four of them are left. *)
Theorem cleared_flag_ends_controller pid cap evs h :
  hub_run pid cap evs hub_init = Some h -> running h = false ->
  (steps_left h <= 4)%nat /\ (ended h \/ exists ev h', ev <> Takes /\ hub_step pid cap ev h = Some h') /\
  (forall ev h', hub_step pid cap ev h = Some h' -> running h' = false /\
     (steps_left h' < steps_left h \/ (ev = Takes /\ steps_left h' = steps_left h))%nat).
Proof.
  intros E Hr. pose proof (hub_ctl_run_ok pid cap evs _ h (init_ok_hub pid) E) as Hok. split_and!.
  - unfold steps_left. destruct (ctl h), (cleaner h); cbn; lia.
  - exact (stopping_progress pid cap h Hok Hr).
  - intros ev h' Es. exact (stopping_step pid cap ev h h' Hok Hr Es).
Qed.


(** The signal thread is about to send and the queue is full. *)
Definition jammed (cap : Z) (h : hub) : Prop :=
  hsig h = HSend /\ running h = true /\ removed h = false /\ cap <= zlen (queue h) /\ cleaner h = KWait.

(** A full queue keeps the controller from stopping.  The signal thread sends
    SHUTDOWN before it clears the flag, and this send blocks on a full queue: as
    long as no message is received, the flag stays set and nothing is removed,
    whatever further signals arrive. *)
Theorem full_queue_prevents_stop pid cap evs h h' :
  jammed cap h -> Takes ∉ evs -> hub_run pid cap evs h = Some h' -> jammed cap h' /\ ~ ended h'.
Proof.
  intros Hj Hnt E. assert (jammed cap h') as Hj'; [|split; [done|]; intros (_ & Hs & _); by destruct Hj' as (Hs' & _); rewrite Hs in Hs'].
  revert h Hj E. induction evs as [|ev evs IH]; intros h Hj E; cbn [hub_run] in E; [by injection E as <-|].
  apply not_elem_of_cons in Hnt as [Hne Hnt]. destruct (hub_step pid cap ev h) as [h1|] eqn:Es; [|done].
  apply (IH Hnt h1); [|done]. destruct Hj as (Hs & Hr & Hrm & Hfull & Hk).
  assert ((zlen (queue h) <? cap) = false) as Hlt by (apply Z.ltb_ge; lia).
  destruct ev; cbn [hub_step] in Es; try done.
  - unfold ctl_step, msgsnd in Es. rewrite Hrm, Hlt, Hr in Es. destruct (ctl h); try done. injection Es as <-. by split_and!.
  - unfold hsig_step, msgsnd in Es. by rewrite Hs, Hrm, Hlt in Es.
  - unfold cleaner_step in Es. by rewrite Hk, Hr in Es.
  - by rewrite Hs in Es.
Qed.

(** ** Concrete runs *)

Definition two_commands : list hub_event := [Ctl; Ctl; Ctl; Ctl; Takes; Arrives SIGTERM; HSig; HSig].

Lemma controller_sends_in_turn_witness :
  exists h, hub_run 7 10 two_commands hub_init = Some h /\
    ((forall i m, l_sent h !! i = Some m -> m = control_message 7 (Z.of_nat i mod 4 + 1)) /\
     filter (fun m => mtype m <> SHUTDOWN) (l_all h) = l_sent h /\ exists received, l_all h = received ++ queue h).
Proof. eexists. split; [vm_compute; reflexivity|]. apply (controller_sends_in_turn 7 10 two_commands). vm_compute. reflexivity. Defined.

Lemma cleared_flag_ends_controller_witness :
  exists h, hub_run 7 10 two_commands hub_init = Some h /\
    ((steps_left h <= 4)%nat /\ (ended h \/ exists ev h', ev <> Takes /\ hub_step 7 10 ev h = Some h') /\
     (forall ev h', hub_step 7 10 ev h = Some h' -> running h' = false /\
        (steps_left h' < steps_left h \/ (ev = Takes /\ steps_left h' = steps_left h))%nat)).
Proof. eexists. split; [vm_compute; reflexivity|]. apply (cleared_flag_ends_controller 7 10 two_commands); vm_compute; reflexivity. Defined.

Definition sample_system : list sys_event :=
  [HubEv Ctl; HubEv Ctl; WriterEv (Main true 0); Deliver; WriterEv (Main true 0); WriterEv (Main true 0); WriterEv (work 0);
   HubEv (Arrives SIGTERM); HubEv HSig].

Definition sample_end : hub * writer :=
  match sys_run 7 10 sample_system (hub_init, started) with Ret (Some s) => s | _ => (hub_init, started) end.

Lemma sample_system_run : sys_run 7 10 sample_system (hub_init, started) = Ret (Some (sample_end.1, sample_end.2)).
Proof. vm_compute. reflexivity. Qed.


Definition full_hub : hub := default hub_init (hub_run 7 2 [Ctl; Ctl; Ctl; Ctl; Arrives SIGTERM] hub_init).

Lemma full_queue_prevents_stop_witness :
  exists h', hub_run 7 2 [Ctl] full_hub = Some h' /\ jammed 2 h' /\ ~ ended h'.
Proof.
  eexists. split; [vm_compute; reflexivity|].
  apply (full_queue_prevents_stop 7 2 [Ctl] full_hub); [by split_and!|by rewrite list_elem_of_singleton|vm_compute; reflexivity].
Defined.

End HubCtlInv.
