(* ===== verification/PosixCtl.v ===== *)
(** * The POSIX controller (controller/controller.c)

    The process that sends commands to the sensor through the message queue: a
    thread that sends a command every two seconds without a timeout, a thread
    that on SIGINT or SIGTERM clears the running flag, sets the shutdown flag of
    the segment, sends SHUTDOWN with high priority, gives the queue ten seconds
    to empty and removes the IPC objects, and the main thread that joins both. *)
From S2P Require Import Prelude Posix.
Import Posix.
Open Scope c_scope.

Module PosixCtl.

(** [message_thread]: about to look at the flag, about to send, in a send that
    blocks, returned. *)
Inductive sender_pc := MCheck | MSend | MBlocked | MDone.

(** [sig_thread]: in [sigwaitinfo], about to set the flag of the segment, about to
    send, looking at the queue with [retry] rounds left, about to remove the
    objects, returned. *)
Inductive csig_pc := CWait | CFlag | CSend | CDrain (retry : nat) | CClose | CDone.

(** [main]: waiting for the flag, joining the threads, returned. *)
Inductive cmain_pc := PWait | PJoin | PDone.

(** [system_config], the shutdown flag of the segment, the threads and the queue.
    The log is what [message_thread] sent. *)
Record controller := Controller {
  running : bool; flag : Z; count : Z;
  sender : sender_pc; csig : csig_pc; cmain : cmain_pc;
  queue : mq; closed : bool; l_sent : list message_queue }.
Definition set_running (v : bool) (x : controller) : controller :=
  Controller v (flag x) (count x) (sender x) (csig x) (cmain x) (queue x) (closed x) (l_sent
    x).
Definition set_flag (v : Z) (x : controller) : controller :=
  Controller (running x) v (count x) (sender x) (csig x) (cmain x) (queue x) (closed x)
    (l_sent x).
Definition set_count (v : Z) (x : controller) : controller :=
  Controller (running x) (flag x) v (sender x) (csig x) (cmain x) (queue x) (closed x)
    (l_sent x).
Definition set_sender (v : sender_pc) (x : controller) : controller :=
  Controller (running x) (flag x) (count x) v (csig x) (cmain x) (queue x) (closed x)
    (l_sent x).
Definition set_csig (v : csig_pc) (x : controller) : controller :=
  Controller (running x) (flag x) (count x) (sender x) v (cmain x) (queue x) (closed x)
    (l_sent x).
Definition set_cmain (v : cmain_pc) (x : controller) : controller :=
  Controller (running x) (flag x) (count x) (sender x) (csig x) v (queue x) (closed x)
    (l_sent x).
Definition set_queue (v : mq) (x : controller) : controller :=
  Controller (running x) (flag x) (count x) (sender x) (csig x) (cmain x) v (closed x)
    (l_sent x).
Definition set_closed (v : bool) (x : controller) : controller :=
  Controller (running x) (flag x) (count x) (sender x) (csig x) (cmain x) (queue x) v
    (l_sent x).
Definition set_l_sent (v : list message_queue) (x : controller) : controller :=
  Controller (running x) (flag x) (count x) (sender x) (csig x) (cmain x) (queue x) (closed
    x) v.

Definition DRAIN_RETRIES : nat := 10.

Section Controller.
Context (pid : Z).

Definition test_message (n : Z) : message_queue :=
  MessageQueue (Z.rem n 3 + 1) pid (bstr "Test message #" ++ fmt_d n).

Definition shutdown_message : message_queue := MessageQueue SHUTDOWN pid (bstr "SHUTDOWN").

(** After a send with the given result; [count] is an [int]. *)
Definition sent (ret : Z) (q : mq) (c : controller) : outcome controller :=
  let n := count c + 1 in
  if negb (i32 n =? n) then Undef
  else Ret (set_sender MCheck (set_count n (set_queue q
         (if ret =? 0 then set_l_sent (l_sent c ++ [test_message (count c)]) c else c)))).

(** A send on a closed queue fails, one on a full queue blocks until a message is
    received; closing the queue does not end it. *)
Definition sender_step (c : controller) : outcome (option controller) :=
  match sender c with
  | MCheck => Ret (Some (set_sender (if running c then MSend else MDone) c))
  | MSend =>
      if closed c then c ← sent (-1) (queue c) c; Ret (Some c)
      else
        match send_to_queue (queue c) (test_message (count c)) MID_PRI 0 with
        | None => Ret (Some (set_sender MBlocked c))
        | Some (ret, q) => c ← sent ret q c; Ret (Some c)
        end
  | MBlocked =>
      match send_to_queue (queue c) (test_message (count c)) MID_PRI 0 with
      | None => Ret None
      | Some (ret, q) => c ← sent ret q c; Ret (Some c)
      end
  | MDone => Ret None
  end.

Definition csig_step (c : controller) : option controller :=
  match csig c with
  | CFlag => Some (set_csig CSend (set_flag 1 c))
  | CSend =>
      match send_to_queue (queue c) shutdown_message HIGH_PRI 3 with
      | Some (_, q) => Some (set_csig (CDrain DRAIN_RETRIES) (set_queue q c))
      | None => None
      end
  | CDrain (S retry) => Some (set_csig (if zlen (queue c) =? 0 then CClose else CDrain retry) c)
  | CDrain O => Some (set_csig CClose c)
  | CClose => Some (set_csig CDone (set_closed true c))
  | CWait | CDone => None
  end.

Definition cmain_step (c : controller) : option controller :=
  match cmain c with
  | PWait => if running c then None else Some (set_cmain PJoin c)
  | PJoin => match csig c, sender c with CDone, MDone => Some (set_cmain PDone c) | _, _ => None end
  | PDone => None
  end.

Inductive ctl_event := Sender | CSig | CMain | Stop | Takes.

(** [Stop]: SIGINT or SIGTERM arrives; the flag is cleared under the mutex.
    [Takes]: the sensor receives a message. *)
Definition ctl_step (ev : ctl_event) (c : controller) : outcome (option controller) :=
  match ev with
  | Sender => sender_step c
  | CSig => Ret (csig_step c)
  | CMain => Ret (cmain_step c)
  | Stop => Ret (match csig c with CWait => Some (set_csig CFlag (set_running false c)) | _ => None end)
  | Takes => Ret (match recv_from_queue (queue c) with (Some _, q) => Some (set_queue q c) | _ => None end)
  end.

Fixpoint ctl_run (evs : list ctl_event) (c : controller) : outcome (option controller) :=
  match evs with
  | [] => Ret (Some c)
  | ev :: evs =>
      r ← ctl_step ev c;
      match r with Some c => ctl_run evs c | None => Ret None end
  end.

Definition ctl_init : controller := Controller true 0 0 MCheck CWait PWait [] false [].

End Controller.
End PosixCtl.
