(* ===== verification/PosixCtlInv.v ===== *)
(** * The POSIX controller: order, priority and shutdown

    What the controller sends and in which order, that SHUTDOWN overtakes every
    command, that the controller ends after a signal unless its sender is blocked,
    and that a full queue that nobody reads keeps it from ending. *)
From S2P Require Import Prelude Posix PosixCtl.
Import Posix PosixCtl.
Open Scope c_scope.

Module PosixCtlInv.

Section Controller.
Context (pid : Z).

(** The queue: SHUTDOWN in front if it is there, then commands of middle priority. *)
Definition queue_shape (urgent : list message_queue) (cmds : list message_queue) (q : mq) : Prop :=
  q = ((fun m => (HIGH_PRI, m)) <$> urgent) ++ ((fun m => (MID_PRI, m)) <$> cmds) /\
  Forall (fun m => m = shutdown_message pid) urgent.

Definition numbers (n : Z) : list message_queue := (fun i => test_message pid (Z.of_nat i)) <$> seq 0 (Z.to_nat n).

Record ctl_ok (c : controller) : Prop := {
  ok_queue : exists urgent taken cmds, queue_shape urgent cmds (queue c) /\ l_sent c = taken ++ cmds;
  ok_count : 0 <= count c;
  ok_sent : closed c = false -> l_sent c = numbers (count c);
  ok_running : running c = false <-> csig c <> CWait;
  ok_closed : closed c = true <-> csig c = CDone;
  ok_sender : sender c = MDone -> running c = false;
  ok_main : cmain c <> PWait -> running c = false;
  ok_room : zlen (queue c) <= MAX_MSQ }.

Lemma init_ok_ctl : ctl_ok ctl_init.
Proof using. split; cbn; try done. exists [], [], []. by repeat constructor. Qed.

Lemma insert_mid urgent cmds q m : queue_shape urgent cmds q -> queue_shape urgent (cmds ++ [m]) (mq_insert MID_PRI m q).
Proof using.
  intros [-> Hu]. split; [|done]. rewrite fmap_app. clear Hu. induction urgent as [|u urgent IH]; cbn.
  - induction cmds as [|c cmds IH]; [done|]. cbn. by rewrite IH.
  - by rewrite IH.
Qed.

Lemma insert_high urgent cmds q : queue_shape urgent cmds q ->
  queue_shape (urgent ++ [shutdown_message pid]) cmds (mq_insert HIGH_PRI (shutdown_message pid) q).
Proof using.
  intros [-> Hu]. split; [|apply Forall_app; split; [done|by repeat constructor]]. clear Hu. induction urgent as [|u urgent IH]; cbn.
  - by destruct cmds.
  - by rewrite IH.
Qed.

Lemma insert_length p m q : zlen (mq_insert p m q) = zlen q + 1.
Proof using.
  unfold zlen. induction q as [|[p' m'] q IH]; cbn; [done|]. destruct (p' <? p); cbn; [lia|]. rewrite Nat2Z.inj_succ in *. lia.
Qed.

Lemma numbers_next n : 0 <= n -> numbers (n + 1) = numbers n ++ [test_message pid n].
Proof using.
  intros Hn. unfold numbers. rewrite Z2Nat.inj_add by lia. change (Z.to_nat 1) with 1%nat. rewrite seq_app, fmap_app. cbn.
  by rewrite Z2Nat.id by lia.
Qed.

(** A command goes out, or the send on a closed queue fails. *)
Lemma sent_ok ok c c' : ctl_ok c -> (ok = true -> zlen (queue c) < MAX_MSQ) -> (ok = false -> closed c = true) ->
  sent pid (if ok then 0 else -1) (if ok then mq_insert MID_PRI (test_message pid (count c)) (queue c) else queue c) c = Ret c' -> ctl_ok c'.
Proof using.
  intros [(urgent & taken & cmds & Hq & Hl) Hc Hs Hr Hcl Hsd Hm Hroom] Hlt Hok E. unfold sent in E. destruct (negb _); [done|].
  injection E as <-. destruct ok; cbn; split; cbn; try done; try lia.
  - exists urgent, taken, (cmds ++ [test_message pid (count c)]). split; [by apply insert_mid|]. by rewrite Hl, app_assoc.
  - intros Hcf. rewrite Hs by done. by rewrite numbers_next.
  - rewrite insert_length. specialize (Hlt eq_refl). lia.
  - by exists urgent, taken, cmds.
  - intros Hcf. rewrite Hok in Hcf by done. done.
Qed.

Lemma sender_ok c c' : ctl_ok c -> sender_step pid c = Ret (Some c') -> ctl_ok c'.
Proof using.
  intros Hok E. pose proof Hok as [Hq Hc Hs Hr Hcl Hsd Hm Hroom]. unfold sender_step in E. destruct (sender c) eqn:Es.
  - injection E as <-. destruct (running c) eqn:Er; split; cbn; rewrite ?Er; done.
  - destruct (closed c) eqn:Ecl.
    + peel E as c1 E1. injection E as <-. by apply (sent_ok false c).
    + unfold send_to_queue in E. destruct (Z.ltb_spec (zlen (queue c)) MAX_MSQ).
      * peel E as c1 E1. injection E as <-. by apply (sent_ok true c).
      * cbn in E. injection E as <-. split; cbn; rewrite ?Ecl; done.
  - unfold send_to_queue in E. destruct (Z.ltb_spec (zlen (queue c)) MAX_MSQ); [|done].
    peel E as c1 E1. injection E as <-. by apply (sent_ok true c).
  - done.
Qed.

Lemma csig_ok c c' : ctl_ok c -> csig_step pid c = Some c' -> ctl_ok c'.
Proof using.
  intros [(urgent & taken & cmds & Hq & Hl) Hc Hs Hr Hcl Hsd Hm Hroom] E. unfold csig_step in E.
  assert (exists urgent taken cmds, queue_shape urgent cmds (queue c) /\ l_sent c = taken ++ cmds) as Hex by by exists urgent, taken, cmds.
  destruct (csig c) as [| | |[|k]| |] eqn:Ec; try done.
  - injection E as <-. split; cbn; try done; [rewrite Hr|rewrite Hcl]; by split.
  - unfold send_to_queue in E. destruct (Z.ltb_spec (zlen (queue c)) MAX_MSQ); cbn in E; injection E as <-.
    + split; cbn; try done; [|rewrite Hr; by split|rewrite Hcl; by split|rewrite insert_length; lia].
      exists (urgent ++ [shutdown_message pid]), taken, cmds. split; [by apply insert_high|done].
    + split; cbn; try done; [rewrite Hr|rewrite Hcl]; by split.
  - injection E as <-. split; cbn; try done; [rewrite Hr|rewrite Hcl]; by split.
  - injection E as <-. destruct (_ =? 0); split; cbn; try done; [rewrite Hr|rewrite Hcl|rewrite Hr|rewrite Hcl]; by split.
  - injection E as <-. split; cbn; try done. rewrite Hr. by split.
Qed.

Lemma ctl_step_ok ev c c' : ctl_ok c -> ctl_step pid ev c = Ret (Some c') -> ctl_ok c'.
Proof using.
  intros Hok E. destruct ev; cbn [ctl_step] in E.
  - by apply (sender_ok c).
  - injection E as E. by apply (csig_ok c).
  - injection E as E. destruct Hok as [Hq Hc Hs Hr Hcl Hsd Hm Hroom]. unfold cmain_step in E. destruct (cmain c) eqn:Em; try done.
    + destruct (running c) eqn:Er; [done|]. injection E as <-. split; cbn; rewrite ?Er; done.
    + destruct (csig c) eqn:Ec; try done. destruct (sender c) eqn:Es; try done. injection E as <-. split; cbn; rewrite ?Ec, ?Es; try done.
      intros _. by apply Hm.
  - injection E as E. destruct Hok as [Hq Hc Hs Hr Hcl Hsd Hm Hroom]. destruct (csig c) eqn:Ec; try done. injection E as <-.
    split; cbn; try done. rewrite Hcl. by split.
  - injection E as E. destruct Hok as [(urgent & taken & cmds & [Hq Hu] & Hl) Hc Hs Hr Hcl Hsd Hm Hroom].
    destruct (queue c) as [|[p m] q] eqn:Eq; cbn in E; [done|]. injection E as <-. rewrite zlen_cons in Hroom.
    split; cbn; try done; [|lia]. destruct urgent as [|u urgent].
    + destruct cmds as [|m' cmds]; [done|]. cbn in Hq. injection Hq as _ -> ->. exists [], (taken ++ [m']), cmds. split; [by split|].
      by rewrite Hl, <- app_assoc.
    + cbn in Hq. injection Hq as _ _ ->. inversion_clear Hu. exists urgent, taken, cmds. by split; [split|].
Qed.

Lemma ctl_run_ok evs c c' : ctl_ok c -> ctl_run pid evs c = Ret (Some c') -> ctl_ok c'.
Proof using.
  revert c. induction evs as [|ev evs IH]; intros c Hc E; cbn [ctl_run] in E; [by injection E as <-|].
  peel E as r Er. destruct r as [c1|]; [|done]. apply (IH c1); [|done]. by apply (ctl_step_ok ev c).
Qed.

(** ** Shutdown *)

Definition sender_left (p : sender_pc) : nat := match p with MSend => 3 | MBlocked => 2 | MCheck => 1 | MDone => 0 end.
Definition csig_left (p : csig_pc) : nat :=
  match p with CWait => 16 | CFlag => 15 | CSend => 14 | CDrain k => k + 2 | CClose => 1 | CDone => 0 end.
Definition cmain_left (p : cmain_pc) : nat := match p with PWait => 2 | PJoin => 1 | PDone => 0 end.
Definition steps_left (c : controller) : nat := sender_left (sender c) + csig_left (csig c) + cmain_left (cmain c).

Lemma stopping_decreases ev c c' : ctl_ok c -> running c = false -> ctl_step pid ev c = Ret (Some c') ->
  running c' = false /\ (steps_left c' < steps_left c \/ (ev = Takes /\ steps_left c' = steps_left c))%nat.
Proof using.
  intros Hok Hr E. pose proof (proj1 (ok_running _ Hok) Hr) as Hw. unfold steps_left. destruct ev; cbn [ctl_step] in E.
  - unfold sender_step, send_to_queue, sent in E. rewrite Hr in E. destruct (sender c) eqn:Es; try done.
    + injection E as <-. cbn. split; [done|lia].
    + destruct (closed c); [|destruct (_ <? _)]; try destruct (negb _); try done; injection E as <-; cbn; rewrite ?Es; (split; [done|lia]).
    + destruct (_ <? _); [|done]. destruct (negb _); [done|]. injection E as <-. cbn. split; [done|lia].
  - injection E as E. unfold csig_step, send_to_queue in E. destruct (csig c) as [| | |[|k]| |] eqn:Ec; try done.
    + injection E as <-. cbn. split; [done|lia].
    + destruct (_ <? _); cbn in E; injection E as <-; cbn; (split; [done|lia]).
    + injection E as <-. cbn. split; [done|lia].
    + injection E as <-. cbn. split; [done|]. destruct (_ =? 0); cbn; lia.
    + injection E as <-. cbn. split; [done|lia].
  - injection E as E. unfold cmain_step in E. rewrite Hr in E. destruct (cmain c) eqn:Em; try done.
    + injection E as <-. cbn. split; [done|lia].
    + destruct (csig c) eqn:Ec; try done. destruct (sender c) eqn:Es; try done. injection E as <-. cbn. rewrite Ec, Es. split; [done|cbn; lia].
  - injection E as E. destruct (csig c); try done.
  - injection E as E. destruct (queue c) as [|[p m] q]; [done|]. cbn in E. injection E as <-. cbn. split; [done|by right].
Qed.

Definition ended (c : controller) : Prop := sender c = MDone /\ csig c = CDone /\ cmain c = PDone.

(** The sender is in a send that blocks. *)
Definition stuck (c : controller) : Prop := sender c = MBlocked /\ zlen (queue c) = MAX_MSQ.

Lemma stopping_able c : ctl_ok c -> running c = false -> count c < 2 ^ 31 - 1 ->
  ended c \/ stuck c \/ exists ev c', ev <> Takes /\ ctl_step pid ev c = Ret (Some c').
Proof using.
  intros [Hq Hc Hs Hr Hcl Hsd Hm Hroom] Hrun Hlt.
  assert (forall ret q, exists c', sent pid ret q c = Ret c') as Hsent.
  { intros ret q. unfold sent. assert (i32 (count c + 1) = count c + 1) as ->.
    { unfold i32. rewrite Z.mod_small by lia. destruct (Z.ltb_spec (count c + 1) (2 ^ 31)); lia. }
    rewrite Z.eqb_refl. by eexists. }
  destruct (sender c) eqn:Es.
  - right. right. exists Sender. eexists. split; [done|]. cbn. unfold sender_step. by rewrite Es.
  - right. right. exists Sender. cbn. unfold sender_step, send_to_queue. rewrite Es.
    destruct (closed c); [|destruct (_ <? _)]; try (by eexists).
    + destruct (Hsent (-1) (queue c)) as (c' & ->). by exists c'.
    + destruct (Hsent 0 (mq_insert MID_PRI (test_message pid (count c)) (queue c))) as (c' & ->). by exists c'.
  - destruct (Z.ltb_spec (zlen (queue c)) MAX_MSQ) as [Hl|Hl]; [|right; left; split; [done|lia]]. right. right. exists Sender. cbn.
    unfold sender_step, send_to_queue. rewrite Es. destruct (Z.ltb_spec (zlen (queue c)) MAX_MSQ); [|lia].
    destruct (Hsent 0 (mq_insert MID_PRI (test_message pid (count c)) (queue c))) as (c' & ->). by exists c'.
  - destruct (csig c) as [| | |[|k]| |] eqn:Ec; try (right; right; exists CSig; cbn; unfold csig_step; rewrite Ec; by eexists).
    + exfalso. by apply (proj1 Hr).
    + right. right. exists CSig. cbn. unfold csig_step, send_to_queue. rewrite Ec. destruct (_ <? _); by eexists.
    + destruct (cmain c) eqn:Em; [right; right; exists CMain; cbn; unfold cmain_step; rewrite Em..|by left].
      * rewrite Hrun. by eexists.
      * rewrite Ec, Es. by eexists.
Qed.

End Controller.

(** ** Properties *)

(** Commands in order.  Under every schedule, until the queue is closed, the
    commands sent are the test messages 0, 1, 2, ... with their types in turn,
    none left out or sent twice; and the commands received are sent ones, oldest
    first, followed by those still in the queue. *)
Theorem controller_commands_in_order pid evs c :
  ctl_run pid evs ctl_init = Ret (Some c) ->
  (closed c = false -> l_sent c = numbers pid (count c)) /\
  exists taken cmds urgent, l_sent c = taken ++ cmds /\ queue_shape pid urgent cmds (queue c).
Proof.
  intros E. destruct (ctl_run_ok pid evs _ c (init_ok_ctl pid) E) as [(u & t & m & Hq & Hl) _ Hs _ _ _ _ _].
  split; [done|]. by exists t, m, u.
Qed.

(** SHUTDOWN overtakes.  In every reachable state in which a SHUTDOWN message is
    queued, it is the message received next, whatever number of commands was sent
    before it. *)
Theorem shutdown_overtakes pid evs c p :
  ctl_run pid evs ctl_init = Ret (Some c) -> (p, shutdown_message pid) ∈ queue c -> p = HIGH_PRI ->
  exists q, recv_from_queue (queue c) = (Some (shutdown_message pid), q).
Proof.
  intros E Hin ->. destruct (ctl_run_ok pid evs _ c (init_ok_ctl pid) E) as [(u & t & m & [Hq Hu] & _) _ _ _ _ _ _ _].
  rewrite Hq in Hin |- *. destruct u as [|x u]; cbn.
  - cbn in Hin. apply list_elem_of_fmap in Hin as (y & Hy & _). done.
  - inversion_clear Hu as [|? ? Hx _]. rewrite Hx. by eexists.
Qed.

(** A signal ends the controller.  In every reachable state after the signal all
    three threads have returned, or one of them can step, or the command thread is
    in a send on a full queue; every step but a receive brings the end closer. *)
Theorem signal_ends_controller pid evs c :
  ctl_run pid evs ctl_init = Ret (Some c) -> running c = false -> count c < 2 ^ 31 - 1 ->
  (ended c \/ stuck c \/ exists ev c', ev <> Takes /\ ctl_step pid ev c = Ret (Some c')) /\
  (forall ev c', ctl_step pid ev c = Ret (Some c') -> running c' = false /\
     (steps_left c' < steps_left c \/ (ev = Takes /\ steps_left c' = steps_left c))%nat).
Proof.
  intros E Hr Hc. pose proof (ctl_run_ok pid evs _ c (init_ok_ctl pid) E) as Hok. split_and!.
  - by apply stopping_able.
  - intros ev c' Es. by apply (stopping_decreases pid ev).
Qed.

(** A full queue that nobody reads keeps the controller from ending.  The command
    thread sends without a timeout: once it is blocked, the signal thread gives up
    sending SHUTDOWN, removes the queue and returns, but the main thread joins the
    command thread for ever; and no SHUTDOWN was sent. *)
Theorem full_queue_hangs_controller pid evs c c' :
  stuck c -> Takes ∉ evs -> ctl_run pid evs c = Ret (Some c') ->
  stuck c' /\ queue c' = queue c /\ ~ ended c'.
Proof.
  intros Hst Hnt E. assert (stuck c' /\ queue c' = queue c) as [Hst' Eq].
  2: { split_and!; [done|done|]. intros (Hs & _). destruct Hst' as [Hs' _]. by rewrite Hs in Hs'. }
  revert c Hst E. induction evs as [|ev evs IH]; intros c Hst E; cbn [ctl_run] in E; [by injection E as <-|].
  apply not_elem_of_cons in Hnt as [Hne Hnt]. peel E as r Er. destruct r as [c1|]; [|done].
  assert (stuck c1 /\ queue c1 = queue c) as [H1 E1].
  2: { destruct (IH Hnt c1 H1 E) as [? ?]. split; [done|congruence]. }
  destruct Hst as [Hs Hq]. assert ((zlen (queue c) <? MAX_MSQ) = false) as Hf by (apply Z.ltb_ge; lia).
  destruct ev; cbn [ctl_step] in Er; try done.
  - unfold sender_step, send_to_queue in Er. rewrite Hs, Hf in Er. done.
  - injection Er as Er. unfold csig_step, send_to_queue in Er. rewrite Hf in Er. destruct (csig c) as [| | |[|k]| |]; try done;
      injection Er as <-; by split.
  - injection Er as Er. unfold cmain_step in Er. rewrite Hs in Er. destruct (cmain c); try done; [destruct (running c); [done|]|destruct (csig c); done].
    injection Er as <-. by split.
  - injection Er as Er. destruct (csig c); try done. injection Er as <-. by split.
Qed.

(** ** Concrete runs *)

(** Two commands, one received, then the signal up to the sending of SHUTDOWN. *)
Definition interrupted : list ctl_event := [Sender; Sender; Sender; Sender; Takes; Stop; CSig; CSig].

Definition interrupted_state : controller :=
  match ctl_run 7 interrupted ctl_init with Ret (Some c) => c | _ => ctl_init end.

Lemma controller_commands_in_order_witness :
  (closed interrupted_state = false -> l_sent interrupted_state = numbers 7 (count interrupted_state)) /\
  exists taken cmds urgent, l_sent interrupted_state = taken ++ cmds /\ queue_shape 7 urgent cmds (queue interrupted_state).
Proof. apply (controller_commands_in_order 7 interrupted interrupted_state). vm_compute. reflexivity. Defined.

Lemma shutdown_overtakes_witness :
  exists q, recv_from_queue (queue interrupted_state) = (Some (shutdown_message 7), q).
Proof.
  apply (shutdown_overtakes 7 interrupted interrupted_state HIGH_PRI); [vm_compute; reflexivity| |reflexivity].
  assert (queue interrupted_state = [(HIGH_PRI, shutdown_message 7); (MID_PRI, test_message 7 1)]) as -> by (vm_compute; reflexivity).
  apply list_elem_of_here.
Defined.

Lemma signal_ends_controller_witness :
  (ended interrupted_state \/ stuck interrupted_state \/
   exists ev c', ev <> Takes /\ ctl_step 7 ev interrupted_state = Ret (Some c')) /\
  (forall ev c', ctl_step 7 ev interrupted_state = Ret (Some c') -> running c' = false /\
     (steps_left c' < steps_left interrupted_state \/ (ev = Takes /\ steps_left c' = steps_left interrupted_state))%nat).
Proof.
  apply (signal_ends_controller 7 interrupted interrupted_state); vm_compute; reflexivity.
Defined.

(** Ten commands fill the queue, the eleventh blocks. *)
Definition filling : list ctl_event := concat (replicate 11 [Sender; Sender]).

Definition filled_state : controller :=
  match ctl_run 7 filling ctl_init with Ret (Some c) => c | _ => ctl_init end.

Definition giving_up : list ctl_event := [Stop; CSig; CSig] ++ replicate 12 CSig ++ [CMain].

#[export] Instance ctl_event_eq_dec : EqDecision ctl_event.
Proof. solve_decision. Defined.

Definition hung_state : controller :=
  match ctl_run 7 giving_up filled_state with Ret (Some c) => c | _ => ctl_init end.

Lemma full_queue_hangs_controller_witness :
  csig hung_state = CDone /\ stuck hung_state /\ queue hung_state = queue filled_state /\ ~ ended hung_state.
Proof.
  split; [vm_compute; reflexivity|].
  apply (full_queue_hangs_controller 7 giving_up filled_state hung_state);
    [split; vm_compute; reflexivity|by apply (bool_decide_unpack _)|vm_compute; reflexivity].
Defined.

End PosixCtlInv.
