(* ===== verification/PosixMon.v ===== *)
(** * The POSIX monitor (monitor/monitor.c)

    The process that looks at the segment and the queue every two seconds: its
    monitor thread, its signal thread and its main thread, running beside the
    processes that use the ring and the queue.  A look happens in one locked
    section, so it sees the segment between two steps of the others. *)
From S2P Require Import Prelude Posix PosixRing PosixCtl PosixCtlInv.
Import Posix PosixRing.
Open Scope c_scope.

Module PosixMon.

(** ** The program *)

(** [monitor_thread]: about to look at the flag, at the segment, at the queue, at the
    flag again; returned. *)
Inductive mon_pc := NCheck | NLook | NQueue | NAgain | NDone.

(** [sig_thread]: in [sigwaitinfo], about to set the flag of the segment, about to
    send, in a send that blocks, looking at the queue with [retry] rounds left,
    about to give the objects back, returned. *)
Inductive msig_pc := GWait | GFlag | GSend | GBlocked | GDrain (retry : nat) | GClose | GDone.

(** [main]: waiting for the flag, joining the threads, returned. *)
Inductive mmain_pc := HWait | HJoin | HDone.

(** What one look prints: the latest record, the fill level, and whether it warns. *)
Record report := Report { r_latest : option sensor_data; r_count : Z; r_warn : bool }.

(** [system_config] and the threads; [mapped] and [mq_closed] say whether
    [shutdown_ipc] has given the objects back, [ring] is the segment with its users,
    the log has the reports with the state of the ring at their time. *)
Record monitor := Monitor {
  is_running : bool; mon : mon_pc; msig : msig_pc;
  mmain : mmain_pc; ring : world; mqueue : mq;
  mq_closed : bool; mapped : bool; reports : list (report * world);
  mq_warnings : nat }.
Definition set_is_running (v : bool) (x : monitor) : monitor :=
  Monitor v (mon x) (msig x) (mmain x) (ring x) (mqueue x) (mq_closed x) (mapped x) (reports
    x) (mq_warnings x).
Definition set_mon (v : mon_pc) (x : monitor) : monitor :=
  Monitor (is_running x) v (msig x) (mmain x) (ring x) (mqueue x) (mq_closed x) (mapped x)
    (reports x) (mq_warnings x).
Definition set_msig (v : msig_pc) (x : monitor) : monitor :=
  Monitor (is_running x) (mon x) v (mmain x) (ring x) (mqueue x) (mq_closed x) (mapped x)
    (reports x) (mq_warnings x).
Definition set_mmain (v : mmain_pc) (x : monitor) : monitor :=
  Monitor (is_running x) (mon x) (msig x) v (ring x) (mqueue x) (mq_closed x) (mapped x)
    (reports x) (mq_warnings x).
Definition set_ring (v : world) (x : monitor) : monitor :=
  Monitor (is_running x) (mon x) (msig x) (mmain x) v (mqueue x) (mq_closed x) (mapped x)
    (reports x) (mq_warnings x).
Definition set_mqueue (v : mq) (x : monitor) : monitor :=
  Monitor (is_running x) (mon x) (msig x) (mmain x) (ring x) v (mq_closed x) (mapped x)
    (reports x) (mq_warnings x).
Definition set_mq_closed (v : bool) (x : monitor) : monitor :=
  Monitor (is_running x) (mon x) (msig x) (mmain x) (ring x) (mqueue x) v (mapped x)
    (reports x) (mq_warnings x).
Definition set_mapped (v : bool) (x : monitor) : monitor :=
  Monitor (is_running x) (mon x) (msig x) (mmain x) (ring x) (mqueue x) (mq_closed x) v
    (reports x) (mq_warnings x).
Definition set_reports (v : list (report * world)) (x : monitor) : monitor :=
  Monitor (is_running x) (mon x) (msig x) (mmain x) (ring x) (mqueue x) (mq_closed x)
    (mapped x) v (mq_warnings x).
Definition set_mq_warnings (v : nat) (x : monitor) : monitor :=
  Monitor (is_running x) (mon x) (msig x) (mmain x) (ring x) (mqueue x) (mq_closed x)
    (mapped x) (reports x) v.

(** The locked section; [count > capacity * 0.9] in integers. *)
Definition look (shm : shm_data) : outcome report :=
  latest ← monitor_latest shm;
  Ret (Report latest (monitor_count shm) (9 * capacity shm <? 10 * monitor_count shm)).

Definition MQ_WARN : Z := 200.

Definition monitor_thread (m : monitor) : outcome (option monitor) :=
  match mon m with
  | NCheck => Ret (Some (set_mon (if is_running m then NLook else NDone) m))
  | NLook =>
      if mapped m then
        r ← look (w_shm (ring m));
        Ret (Some (set_mon NQueue (set_reports (reports m ++ [(r, ring m)]) m)))
      else Undef
  | NQueue =>
      let warn := (negb (mq_closed m) && (MQ_WARN <? zlen (mqueue m)))%bool in
      Ret (Some (set_mon NAgain (if warn then set_mq_warnings (S (mq_warnings m)) m else m)))
  | NAgain => Ret (Some (set_mon (if is_running m then NCheck else NDone) m))
  | NDone => Ret None
  end.

Definition raise_flag (w : world) : world :=
  World (set_shutdown_flag 1 (w_shm w)) (w_procs w) (w_written w) (w_read w).

Section Threads.
Context (pid : Z).

(** Sending without a timeout. *)
Definition send_shutdown (m : monitor) : option monitor :=
  match send_to_queue (mqueue m) (PosixCtl.shutdown_message pid) HIGH_PRI 0 with
  | Some (_, q) => Some (set_msig (GDrain PosixCtl.DRAIN_RETRIES) (set_mqueue q m))
  | None => None
  end.

Definition sig_thread (m : monitor) : option monitor :=
  match msig m with
  | GFlag => Some (set_msig GSend (set_ring (raise_flag (ring m)) m))
  | GSend => match send_shutdown m with Some m => Some m | None => Some (set_msig GBlocked m) end
  | GBlocked => send_shutdown m
  | GDrain (S retry) => Some (set_msig (if zlen (mqueue m) =? 0 then GClose else GDrain retry) m)
  | GDrain O => Some (set_msig GClose m)
  | GClose => Some (set_msig GDone (set_mapped false (set_mq_closed true m)))
  | GWait | GDone => None
  end.

Definition main_thread (m : monitor) : option monitor :=
  match mmain m with
  | HWait => if is_running m then None else Some (set_mmain HJoin m)
  | HJoin => match msig m, mon m with GDone, NDone => Some (set_mmain HDone m) | _, _ => None end
  | HDone => None
  end.

(** ** The system: the three threads, the signal, the users of the ring, and the
    senders and receivers of the queue *)

Inductive who := Own | Signal | Others | Receiver.

Inductive sys_step : who -> monitor -> monitor -> Prop :=
| step_mon m m' : monitor_thread m = Ret (Some m') -> sys_step Own m m'
| step_sig m m' : sig_thread m = Some m' -> sys_step Own m m'
| step_main m m' : main_thread m = Some m' -> sys_step Own m m'
| step_stop m : msig m = GWait -> sys_step Signal m (set_msig GFlag (set_is_running false m))
| step_ring m w : ring_step (ring m) w -> sys_step Others m (set_ring w m)
| step_send m p msg : zlen (mqueue m) < MAX_MSQ -> sys_step Others m (set_mqueue (mq_insert p msg (mqueue m)) m)
| step_take m msg q : recv_from_queue (mqueue m) = (Some msg, q) -> sys_step Receiver m (set_mqueue q m).

Definition step (m m' : monitor) : Prop := exists a, sys_step a m m'.

Definition mon_start (n : nat) (m : monitor) : Prop :=
  exists w, start n w /\ m = Monitor true NCheck GWait HWait w [] false true [] 0.

Definition mon_reachable (n : nat) (m : monitor) : Prop := exists m0, mon_start n m0 /\ rtc step m0 m.

(** ** What a report says *)

Definition report_true (x : report * world) : Prop :=
  exists content, w_written x.2 = w_read x.2 ++ content /\ zlen content <= BUFFER_CAPACITY /\
    x.1 = if zlen content =? BUFFER_CAPACITY then Report None 0 false
          else Report (last content) (zlen content) (115 <? zlen content).

Record mon_ok (m : monitor) : Prop := {
  mo_ring : exists content, ring_ok (ring m) content /\ header_ok (w_shm (ring m));
  mo_running : is_running m = false <-> msig m <> GWait;
  mo_mapped : mapped m = false <-> msig m = GDone;
  mo_queue : zlen (mqueue m) <= MAX_MSQ;
  mo_reports : Forall report_true (reports m);
  mo_warnings : mq_warnings m = 0%nat;
  mo_main : mmain m = HDone -> msig m = GDone /\ mon m = NDone }.

Lemma look_ok w content : ring_ok w content -> header_ok (w_shm w) ->
  exists r, look (w_shm w) = Ret r /\ report_true (r, w).
Proof using.
  intros [Hh Hl _ _] (_ & _ & _ & _ & Hc & _). destruct (monitor_view _ _ _ Hh) as [E1 E2]. pose proof (holds_length _ _ _ Hh) as [_ Hn].
  unfold look. rewrite E1, E2. cbn [mbind outcome_bind]. eexists. split; [done|]. exists content. cbn [fst snd].
  split; [done|]. split; [lia|]. rewrite Hc. destruct (Z.eqb_spec (zlen content) BUFFER_CAPACITY); [done|].
  f_equal. unfold BUFFER_CAPACITY. destruct (Z.ltb_spec 115 (zlen content)), (Z.ltb_spec (9 * 128) (10 * zlen content)); lia || done.
Qed.

Lemma insert_full p msg q : zlen q < MAX_MSQ -> zlen (mq_insert p msg q) <= MAX_MSQ.
Proof using. rewrite PosixCtlInv.insert_length. lia. Qed.

Lemma mon_sent_ok m m' : mon_ok m -> msig m <> GWait -> msig m <> GDone -> send_shutdown m = Some m' -> mon_ok m'.
Proof using.
  intros [Hr Hrun Hmap Hq Hrep Hw Hm] Hn Hd. unfold send_shutdown, send_to_queue.
  destruct (Z.ltb_spec (zlen (mqueue m)) MAX_MSQ); [|done]. intros [= <-].
  split; cbn [set_msig set_mqueue ring is_running msig mapped mqueue reports mq_warnings mmain mon]; try done.
  - split; [done|]. intros _. by apply Hrun.
  - split; [|done]. intros E. by apply Hmap in E.
  - by apply insert_full.
  - intros E. by destruct (Hm E).
Qed.

Lemma mon_thread_ok m m' : mon_ok m -> monitor_thread m = Ret (Some m') -> mon_ok m'.
Proof using.
  intros [Hr Hrun Hmap Hq Hrep Hw Hm] E. unfold monitor_thread in E. destruct (mon m) eqn:Ep; try done.
  - injection E as <-. split; try done. intros E. by destruct (Hm E).
  - destruct (mapped m) eqn:Em; [|done]. destruct Hr as (content & Hok & Hc).
    destruct (look_ok _ _ Hok Hc) as (r & Er & Htrue). rewrite Er in E. injection E as <-.
    split; cbn; try done; [by exists content|by rewrite Em|apply Forall_app; split; [done|by constructor]|].
    intros E. by destruct (Hm E).
  - assert ((MQ_WARN <? zlen (mqueue m)) = false) as Hf by (apply Z.ltb_ge; unfold MQ_WARN, MAX_MSQ in *; lia).
    rewrite Hf, andb_false_r in E. injection E as <-. split; try done. intros E. by destruct (Hm E).
  - injection E as <-. split; try done. intros E. by destruct (Hm E).
Qed.

Lemma sig_moves m s : mon_ok m -> msig m <> GWait -> msig m <> GDone -> s <> GWait -> s <> GDone -> mon_ok (set_msig s m).
Proof using.
  intros [Hr Hrun Hmap Hq Hrep Hw Hm] H1 H2 H3 H4. split; cbn; try done.
  - split; [done|]. intros _. by apply Hrun.
  - split; [|done]. intros E. by apply Hmap in E.
  - intros E. by destruct (Hm E).
Qed.

Lemma flag_ok m : mon_ok m -> mon_ok (set_ring (raise_flag (ring m)) m).
Proof using.
  intros [(content & [R1 R2 R3 R4] & Hc) Hrun Hmap Hq Hrep Hw Hm]. split; cbn; try done. exists content. by split.
Qed.

Lemma sig_thread_ok m m' : mon_ok m -> sig_thread m = Some m' -> mon_ok m'.
Proof using.
  intros Hok E. unfold sig_thread in E.
  destruct (msig m) as [| | | |[|k]| |] eqn:Es; try done.
  - injection E as <-. apply sig_moves; [by apply flag_ok|cbn; by rewrite ?Es..].
  - destruct (send_shutdown m) as [m1|] eqn:E1.
    + injection E as <-. by apply (mon_sent_ok m); rewrite ?Es.
    + injection E as <-. by apply sig_moves; rewrite ?Es.
  - by apply (mon_sent_ok m); rewrite ?Es.
  - injection E as <-. by apply sig_moves; rewrite ?Es.
  - injection E as <-. apply sig_moves; rewrite ?Es; try done; by destruct (_ =? 0).
  - injection E as <-. destruct Hok as [Hr Hrun Hmap Hq Hrep Hw Hm]. split; cbn; try done.
    + split; [done|]. intros _. apply Hrun. by rewrite Es.
    + intros E. by destruct (Hm E); rewrite Es in *.
Qed.

Lemma mon_sys_step_ok a m m' : mon_ok m -> sys_step a m m' -> mon_ok m'.
Proof using.
  intros Hok Hs. destruct Hs as [m m' E|m m' E|m m' E|m E|m w E|m p msg E|m msg q E].
  - by apply (mon_thread_ok m).
  - by apply (sig_thread_ok m).
  - destruct Hok as [Hr Hrun Hmap Hq Hrep Hw Hm]. unfold main_thread in E. destruct (mmain m); try done.
    + destruct (is_running m) eqn:Er; [done|]. injection E as <-. split; cbn; try done. by rewrite Er.
    + destruct (msig m) eqn:Es; try done. destruct (mon m) eqn:Ep; try done. injection E as <-. split; cbn; try done; by rewrite Es.
  - destruct Hok as [Hr Hrun Hmap Hq Hrep Hw Hm]. rewrite E in *. split; cbn; try done; [by split; [intros F; by apply Hmap in F|]|].
    intros F. by destruct (Hm F).
  - destruct Hok as [(content & Hok & Hc) Hrun Hmap Hq Hrep Hw Hm]. split; cbn; try done.
    destruct (ring_step_ok _ _ _ Hok E) as (content' & Hok'). exists content'. split; [done|].
    by apply (step_header _ _ E).
  - destruct Hok. split; cbn; try done. by apply insert_full.
  - destruct Hok as [Hr Hrun Hmap Hq Hrep Hw Hm]. split; cbn; try done. destruct (mqueue m) as [|[p x] q0]; [done|].
    injection E as <- <-. rewrite zlen_cons in Hq. lia.
Qed.

Lemma mon_reachable_ok n m : mon_reachable n m -> mon_ok m.
Proof using.
  intros (m0 & (w & Hw & ->) & Hrun).
  assert (mon_ok (Monitor true NCheck GWait HWait w [] false true [] 0)) as Hok.
  { assert (ring_reachable n w) as [Hh (content & Hc)]%ring_reachable_ok by (by exists w).
    split; cbn; try done. by exists content. }
  revert Hok. induction Hrun as [|m1 m2 m3 [a Hs] _ IH]; [done|]. intros Hok. apply IH. by apply (mon_sys_step_ok a m1).
Qed.

(** ** The end *)

Definition mon_left (p : mon_pc) : nat :=
  match p with NLook => 4 | NQueue => 3 | NAgain => 2 | NCheck => 1 | NDone => 0 end.
Definition msig_left (p : msig_pc) : nat :=
  match p with GWait => 17 | GFlag => 16 | GSend => 15 | GBlocked => 14 | GDrain k => k + 2 | GClose => 1 | GDone => 0 end.
Definition mmain_left (p : mmain_pc) : nat := match p with HWait => 2 | HJoin => 1 | HDone => 0 end.
Definition mon_steps_left (m : monitor) : nat := mon_left (mon m) + msig_left (msig m) + mmain_left (mmain m).

Lemma send_left m m' : send_shutdown m = Some m' ->
  is_running m' = is_running m /\ mon m' = mon m /\ mmain m' = mmain m /\ msig_left (msig m') = 12%nat.
Proof using. unfold send_shutdown, send_to_queue. destruct (_ <? _); [|done]. by intros [= <-]. Qed.

Lemma sig_left m m' : sig_thread m = Some m' ->
  is_running m' = is_running m /\ mon m' = mon m /\ mmain m' = mmain m /\ (msig_left (msig m') < msig_left (msig m))%nat.
Proof using.
  unfold sig_thread. intros E. destruct (msig m) as [| | | |[|k]| |] eqn:Es; try done.
  - injection E as <-. cbn. split_and!; try done; lia.
  - destruct (send_shutdown m) eqn:E1; injection E as <-; [apply send_left in E1 as (-> & -> & -> & ->)|]; cbn; split_and!; done || lia.
  - apply send_left in E as (-> & -> & -> & ->). cbn. split_and!; done || lia.
  - injection E as <-. cbn. split_and!; try done; lia.
  - injection E as <-. cbn. split_and!; try done. destruct (_ =? 0); cbn; lia.
  - injection E as <-. cbn. split_and!; try done; lia.
Qed.

Lemma mon_left_dec m m' : is_running m = false -> monitor_thread m = Ret (Some m') ->
  is_running m' = false /\ msig m' = msig m /\ mmain m' = mmain m /\ (mon_left (mon m') < mon_left (mon m))%nat.
Proof using.
  intros Hr E. unfold monitor_thread in E. destruct (mon m) eqn:Ep; try done.
  - rewrite Hr in E. injection E as <-. cbn. split_and!; done || lia.
  - destruct (mapped m); [|done]. peel E as r Er. injection E as <-. cbn. split_and!; done || lia.
  - destruct (_ && _)%bool; injection E as <-; cbn; split_and!; done || lia.
  - rewrite Hr in E. injection E as <-. cbn. split_and!; done || lia.
Qed.

Lemma mon_stopping a m m' : mon_ok m -> is_running m = false -> sys_step a m m' ->
  is_running m' = false /\ a <> Signal /\
  (a = Own /\ mon_steps_left m' < mon_steps_left m \/ a <> Own /\ mon_steps_left m' = mon_steps_left m)%nat.
Proof using.
  intros Hok Hr Hs. unfold mon_steps_left. destruct Hs as [m m' E|m m' E|m m' E|m E|m w E|m p msg E|m msg q E].
  - apply mon_left_dec in E as (-> & -> & -> & ?); [|done]. split_and!; try done. left. split; [done|lia].
  - apply sig_left in E as (-> & -> & -> & ?). split_and!; try done. left. split; [done|lia].
  - unfold main_thread in E. destruct (mmain m) eqn:Em; try done.
    + rewrite Hr in E. injection E as <-. split_and!; try done. left. cbn. split; [done|lia].
    + destruct (msig m) eqn:Es; try done. destruct (mon m) eqn:Ep; try done. injection E as <-. split_and!; try done. left.
      split; [done|]. cbn. rewrite Es, Ep. cbn. lia.
  - apply (mo_running _ Hok) in Hr. done.
  - split_and!; try done. by right.
  - split_and!; try done. by right.
  - split_and!; try done. by right.
Qed.

Definition mon_ended (m : monitor) : Prop := mon m = NDone /\ msig m = GDone /\ mmain m = HDone.

Lemma mon_able m : mon_ok m -> is_running m = false ->
  mon_ended m \/ (msig m = GBlocked /\ zlen (mqueue m) = MAX_MSQ) \/ (mon m = NLook /\ mapped m = false) \/
  exists m', sys_step Own m m'.
Proof using.
  intros Hok Hr. pose proof Hok as [(content & Hring & Hh) Hrun Hmap Hq _ _ _].
  destruct (mon m) eqn:Ep.
  - do 3 right. eexists. apply step_mon. unfold monitor_thread. by rewrite Ep.
  - destruct (mapped m) eqn:Em; [|right; right; by left]. do 3 right. destruct (look_ok _ _ Hring Hh) as (r & Er & _).
    eexists. apply step_mon. unfold monitor_thread. by rewrite Ep, Em, Er.
  - do 3 right. eexists. apply step_mon. unfold monitor_thread. by rewrite Ep.
  - do 3 right. eexists. apply step_mon. unfold monitor_thread. by rewrite Ep.
  - destruct (msig m) as [| | | |[|k]| |] eqn:Es;
      try (do 3 right; eexists; apply step_sig; unfold sig_thread; by rewrite Es).
    + by apply Hrun in Hr.
    + do 3 right. destruct (send_shutdown m) as [m1|] eqn:E1; eexists; apply step_sig; unfold sig_thread; by rewrite Es, E1.
    + destruct (decide (zlen (mqueue m) < MAX_MSQ)) as [Hlt|Hge]; [|right; left; split; [done|lia]].
      do 3 right. eexists. apply step_sig. unfold sig_thread, send_shutdown, send_to_queue. rewrite Es.
      by destruct (Z.ltb_spec (zlen (mqueue m)) MAX_MSQ); [|lia].
    + destruct (mmain m) eqn:Eh; [do 3 right; eexists; apply step_main; unfold main_thread; rewrite Eh..|by left].
      * by rewrite Hr.
      * by rewrite Es, Ep.
Qed.

End Threads.

(** ** Properties *)

(** C28: What the monitor prints is true.  Whatever the users of the ring and of the
    queue do, and until the objects are given back, the monitor thread never fails;
    each of its reports shows the number of records in the ring at that moment and
    the newest of them, and warns exactly from 116 records on, except that a full
    ring is reported as an empty one; and it never warns about the queue, which
    cannot hold as many messages as the warning asks for. *)
Theorem monitor_reports_true pid n m :
  mon_reachable pid n m ->
  Forall report_true (reports m) /\ mq_warnings m = 0%nat /\
  (mapped m = true -> exists r, monitor_thread m = Ret r).
Proof.
  intros Hok%mon_reachable_ok. split_and!; [apply Hok|apply Hok|]. intros Em.
  destruct (mo_ring _ Hok) as (content & Hr & Hh). unfold monitor_thread. destruct (mon m); try (by eexists).
  destruct (look_ok _ _ Hr Hh) as (r & Er & _). rewrite Em, Er. by eexists.
Qed.

(** A signal ends the monitor.  In every reachable state after the signal all three
    threads have returned, or one of them can step, or the signal thread is in a
    send on a full queue, or the monitor thread is about to look at a segment that
    has been unmapped; every step of the threads brings the end closer and no step
    of others takes it further away. *)
Theorem signal_ends_monitor pid n m :
  mon_reachable pid n m -> is_running m = false ->
  (mon_ended m \/ (msig m = GBlocked /\ zlen (mqueue m) = MAX_MSQ) \/ (mon m = NLook /\ mapped m = false) \/
   exists m', sys_step pid Own m m') /\
  forall a m', sys_step pid a m m' -> is_running m' = false /\ a <> Signal /\
    (a = Own /\ mon_steps_left m' < mon_steps_left m \/ a <> Own /\ mon_steps_left m' = mon_steps_left m)%nat.
Proof.
  intros Hok%mon_reachable_ok Hr. split; [by apply mon_able|]. intros a m'. by apply mon_stopping.
Qed.

(** ** Concrete runs *)

Definition alone : monitor := Monitor true NCheck GWait HWait (World new_shm [] [] []) [] false true [] 0.

Lemma alone_start pid m : rtc (step pid) alone m -> mon_reachable pid 0 m.
Proof. intros H. exists alone. split; [|done]. eexists. split; [|done]. eexists. split; [apply attach_fresh|done]. Qed.

(** One look at the empty ring. *)
Definition looked : monitor :=
  Monitor true NQueue GWait HWait (World new_shm [] [] []) [] false true
    [(Report None 0 false, World new_shm [] [] [])] 0.

Lemma looked_reachable : mon_reachable 7 0 looked.
Proof.
  apply alone_start. eapply rtc_l; [eexists; apply step_mon; reflexivity|].
  eapply rtc_l; [eexists; apply step_mon; reflexivity|]. apply rtc_refl.
Qed.

Lemma monitor_reports_true_witness :
  Forall report_true (reports looked) /\ mq_warnings looked = 0%nat /\
  (mapped looked = true -> exists r, monitor_thread looked = Ret r).
Proof. apply (monitor_reports_true 7 0), looked_reachable. Defined.

(** The monitor thread has found the flag set and is about to look; meanwhile the
    signal thread runs, its message is received, and it unmaps the segment. *)
Theorem monitor_reads_unmapped : exists m, mon_reachable 7 0 m /\ monitor_thread m = Undef.
Proof.
  eexists. split.
  - apply alone_start.
    eapply rtc_l; [eexists; apply step_mon; reflexivity|].
    eapply rtc_l; [eexists; apply step_stop; reflexivity|].
    eapply rtc_l; [eexists; apply step_sig; reflexivity|].
    eapply rtc_l; [eexists; apply step_sig; reflexivity|].
    eapply rtc_l; [eexists; eapply step_take; reflexivity|].
    eapply rtc_l; [eexists; apply step_sig; reflexivity|].
    eapply rtc_l; [eexists; apply step_sig; reflexivity|]. apply rtc_refl.
  - reflexivity.
Qed.

(** A full queue that nobody reads keeps the monitor from ending: the signal thread
    sends SHUTDOWN without a timeout, and main waits for it for ever. *)
Theorem full_queue_hangs_monitor pid m m' :
  msig m = GBlocked -> zlen (mqueue m) = MAX_MSQ ->
  rtc (fun x y => exists a, a <> Receiver /\ sys_step pid a x y) m m' ->
  msig m' = GBlocked /\ mqueue m' = mqueue m /\ ~ mon_ended m'.
Proof.
  intros Hs Hq Hrun. assert (msig m' = GBlocked /\ mqueue m' = mqueue m) as [H1 H2].
  2: { split_and!; [done|done|]. intros (_ & E & _). congruence. }
  induction Hrun as [|m m1 m2 (a & Ha & Hst) _ IH]; [done|].
  assert (msig m1 = GBlocked /\ mqueue m1 = mqueue m) as [E1 E2].
  2: { rewrite <- E2 in Hq |- *. by apply IH. }
  clear IH. destruct Hst as [m m' E|m m' E|m m' E|m E|m w E|m p msg E|m msg q E]; try done; try congruence; try (cbn; lia).
  - unfold monitor_thread in E. destruct (mon m); try done; [..|destruct (_ && _)%bool|]; try (by injection E as <-).
    destruct (mapped m); [|done]. peel E as r Er. by injection E as <-.
  - unfold sig_thread, send_shutdown, send_to_queue in E. rewrite Hs in E.
    destruct (Z.ltb_spec (zlen (mqueue m)) MAX_MSQ); [lia|done].
  - unfold main_thread in E. destruct (mmain m); try done; [destruct (is_running m); [done|]; by injection E as <-|].
    by rewrite Hs in E.
Qed.

End PosixMon.
